(* ===== verification/_CoqProject ===== *)
-Q . S2P
Prelude.v
Contracts.v
Slices.v
Base64.v
Sha256.v
Float.v
Json.v
JsonParse.v
JsonEncode.v
JsonRoundtrip.v
JsonInt.v
Regex.v
RegexProofs.v
RegexMatch.v
Schema.v
Frame.v
SchemaOrder.v
Render.v
Mapping.v
Types.v
Journal.v
StoreFrame.v
StoreScan.v
RecordCodec.v
FileStore.v
FileStoreProofs.v
FileStoreOpen.v
Policy.v
Observation.v
Inet.v
PeerWire.v
Http1.v
Http1Reader.v
Http1Answer.v
Http1Render.v
Config.v
Gate.v
PolicyGate.v
Scenario.v
Protocol.v
ProtocolProofs.v
GateSteps.v
GateSafety.v
GateFrames.v
PolicyProtocol.v
PolicySteps.v
PolicySafety.v
PolicyChannels.v
Substrate.v
SubstrateProofs.v
SubstrateLoop.v
SubstrateBounds.v
Tls.v
I04.v
I04Proofs.v
I04Safety.v
I04Relay.v
UpstreamAnswer.v
Upstream.v
UpstreamProofs.v
UpstreamSafety.v
I02.v
I02Proofs.v
I05Client.v
I05Exchange.v
PolicyScenario.v
Witnesses.v
Programs.v
Seal.v
SealProofs.v
GateSeal.v
RoleSeal.v
Lifecycle.v
LifecycleProofs.v
Broker.v
BrokerProofs.v
GateConfig.v
SealScenario.v
Observer.v
ObserverProofs.v
