(* ===== verification/Prelude.v ===== *)
(** * A verification library for the host-enforcement effect gate, its broker and its observer's inputs

    The program is the Rust workspace [host-enforcement/crates].  Its core is the effect gate: the one process that may
    send a Kubernetes write on behalf of an untrusted worker.  A broker binds an execution and arms one action at a
    time over a datagram channel (I05); the worker's HTTP/1.1 request arrives over TLS (I04) and is forwarded only when
    it is byte for byte the request the armed action renders to; a policy writer (I07) may write the qualification
    namespace in a maintenance window during which no worker action can exist.  Everything is journaled before it has
    an effect, and a restart rebuilds what it may assume from the journal alone.  Around it, the broker spawns the
    worker in a frozen cgroup leaf and thaws it only when everything about it was checked; the observer records what
    the cluster allows; each of the three gives up its privileges in two stages before it serves.

    ** Parts, and where they are modelled

    Paths are under [host-enforcement/crates/].

    - Values and encodings ([i05-protocol/src]): [Json], [JsonParse], [JsonEncode], [JsonRoundtrip], [JsonInt], [Float]
      for json.rs; [Base64], [Sha256]; [Regex], [RegexProofs], [RegexMatch] for regex.rs; [Schema] and [SchemaOrder] for
      schema.rs; [Frame] for frame.rs; [Render] for render.rs; [Mapping] for mapping.rs; [Contracts] holds the embedded
      contract files byte for byte (contracts.rs).
    - The gate's state machine ([effect-gate/src]): [Types], [Journal] (journal.rs, store.rs), [Config], [Observation],
      [Gate] (gate.rs: one function per handler, [handle] composes them as [Gate::handle]), [Policy] (policy.rs),
      [PolicyGate] (policy_gate.rs: the policy-writer channel around the gate).  A [&mut self] method is a function
      from the state to the state and its result; a trait is a type class with the laws its documentation states
      ([Stores], [WorkerObserver], [KernelReads], [Disk], [Os], [Port], [StreamNet], [ConnectNet], [SealOps], [Seams]).
    - Storage: [StoreFrame], [StoreScan], [RecordCodec] (frame.rs), [FileStore] and its proofs (file_store.rs).
    - Wire: [Inet] (gate-sys/src/inet.rs), [PeerWire] (gate-sys/src/peer_wire.rs, peers.rs), [Http1], [Http1Reader],
      [Http1Answer], [Http1Render] (gate-tls/src/http1.rs).
    - The event loop: [Substrate] (substrate.rs) feeds the policy gate what the channels, the ports and the clocks
      bring, and acts on its outputs.
    - The ports ([gate-tls/src], instances of [Port]): [Tls] is the exchange board between them (exchange.rs) and the
      network classes (net.rs); [I04] the worker's listener (i04.rs); [UpstreamAnswer], [Upstream] the apiserver client
      (upstream.rs, tls_client.rs).
    - Start-up: [Programs] holds the published seccomp filters as bytes; [Seal] the generic engine of the seal,
      [RoleSeal] the observer's and the broker's (role-seal, broker/src/seal.rs, observer/src/seal.rs), [GateSeal] the
      gate's (effect-gate/src/seal.rs); [GateConfig] the gate's signed document (gate_config.rs).
    - The broker ([broker/src]): [I02] its handoff transcript with the worker (i02.rs, i03.rs), [I05Client] its side of
      the gate's channel (i05_client.rs), [Lifecycle] the startup run of a worker (lifecycle/), [Broker] its
      configuration, the gate's qualification as a peer, the listener and [main] (config.rs, signed_config.rs,
      gate_peer.rs, lib.rs, main.rs).
    - The observer ([observer/src]): [Observer], the closed set of lists it reads and their check (inputs.rs), and the
      quotas' exact arithmetic (quota.rs).
    - [Slices] holds the byte-slice accessors; [Scenario], [PolicyScenario], [Witnesses] and [SealScenario] run the whole
      on concrete inputs.

    ** The abstract specifications

    - [Protocol] is an abstract machine of actions and their journal: no connections, channel, frames or stores.
      [GateSteps] proves that every event of gate.rs is a run of it, [ProtocolProofs] its invariants.
    - [PolicyProtocol] is the same for maintenance and writes; [PolicySteps] is the refinement, [PolicyChannels] what it
      leaves of the channels.
    - [legal_journal] and [write_legal_journal] judge a journal by replaying it.
    - The in-memory journal is the specification of the file stores ([FileStoreOpen]); block-by-block SHA-256, the
      denotation of patterns, a grammar of HTTP answers, one of control messages, one of quantities with their exact
      values, and a table's rows for the mapping check specify the routines.
    - [I02Proofs] has the handoff as an abstract machine, which the transcript refines; [I05Exchange] runs the broker's
      client against the gate.
    - [Seal] has a process's privileges as a state of its own; the kernel's calls are a class whose laws say how each
      moves it.  [SubstrateProofs] has a small program logic for the loop's state monad, [LifecycleProofs] one for the
      startup run over every seam, [SubstrateBounds] one for the traces of the loop's system calls, [FileStoreProofs] the
      disk calls a step may make.

    ** What the theorems show

    - [GateSafety], [GateFrames]: journals are legal; exactly which request is forwarded; each action is consumed before
      its request leaves and at most once; a restart concludes what memory knew; states only tighten; the fence is
      final; drains are answered; failures fail closed.
    - [PolicySafety]: writes and worker actions never overlap; which writes are forwarded; numbering; recovery; a write
      with an unknown outcome holds the generation.
    - [FileStoreProofs], [FileStoreOpen], [StoreScan], [RecordCodec]: the files refine the mirror under every fault;
      crash tolerance; a restart finds the mirror, and where the journal's read was cut off exactly what the bytes before
      decide; codecs round trip.
    - [SubstrateLoop], [SubstrateBounds]: between wakes the held connections agree with the gate; the process is one run of the
      gate over the system's calls, in which only justified events are fed, a frame only out of a datagram in custody; a
      wake ends unless its peers keep sending; late answers end the channel; the expiry and the wait are bounded.
    - [I04Proofs], [I04Safety], [I04Relay], [UpstreamProofs], [UpstreamSafety]: a connection's events, its bounds and
      deadlines; the bytes a worker sends are those the gate judges and the apiserver receives, and the bytes it is
      given those the journal holds the digest of.
    - [Http1Reader], [Http1Answer], [Http1Render]: the reader is chunk-insensitive, bounded, and accepts exactly the
      grammar; what the gate writes is read back; the permitted request is framed as it was rendered.
    - [JsonParse], [JsonRoundtrip], [JsonEncode], [JsonInt], [RegexMatch], [SchemaOrder], [Frame], [Sha256], [PeerWire],
      [Config], [Mapping]: parsers return, accept exactly their languages, and invert the encoders; the schema's
      evaluation depends on no order of keywords or members; the agreement of an outcome is decided as the table says.
    - [I02Proofs], [I05Exchange]: the transcript is the protocol and its first breach ends it; client and gate stay in
      step.
    - [LifecycleProofs]: the worker is thawed only when justified, what each outcome of a run leaves, and that a run
      ends.
    - [SealProofs], [GateSeal], [RoleSeal]: a seal that succeeds leaves exactly the published privileges and filter.
    - [BrokerProofs], [GateConfig]: a configuration is accepted exactly as its canonical document, the broker serves only
      sealed and with a signed one, and the gate's checked document agrees with the gate that is built from it.
    - [ObserverProofs]: quantities are exact, the recorded headroom never promises what a quota refuses, and the
      observer's lists are complete.

    ** Bounds and fuel

    Loops that are not structural take fuel, and each has a theorem that the fuel given is enough: the parser and the
    answer reader consume a byte per turn; the encoder's and the walks' task lists are measured by the value; the
    simulation's work list by the program; the control-message loop by its headers; [record_fuel] by the failing flag;
    [deliver]'s follow-ups have none of their own; the read and accept loops of a wake by the datagrams and connections they receive; the
    lifecycle's waits by W6's bound and the configured deadline in milliseconds, over a clock that a sleep moves; the
    seal's capability loops by the last capability.  The broker's listener serves for ever: its fuel only cuts a run
    short.  Machine integers are [Z] with their wrap-around, saturation or overflow check written out; instants and
    durations are nanoseconds, the lifecycle's milliseconds.

    ** Not modelled

    - TLS and Ed25519 (vendored libraries), system calls, sockets, files, cgroup files, the clock: parameters of the
      model, as classes with their documented laws.  linux_os.rs, linux_net.rs, linux_listen.rs, channel.rs, tcp.rs,
      openat.rs, spawn.rs, broker-sys and observer-sys are those calls.  The seccomp filters are bytes; what they allow
      is the kernel's interpretation of them.
    - A [RefCell] is a state: its borrows never overlap in this program, so the branches for a board already borrowed
      are left out.
    - Of the gate's start: reading the credential files, building the TLS configurations, the table of exit statuses and
      the binary's main (gate-tls/src/credentials.rs, tls.rs, signed_config.rs; status.rs; gate/src/main.rs).
    - The rest of the observer: its apiserver client, its capture and record formats and its service, whose outputs are
      evidence and take no part in a write's path.
    - The policy writer, containment and host-common crates (stubs and constants), the Go operator, generators,
      packaging and vendored crates. *)

From stdpp Require Export base tactics option list list_numbers gmap fin_maps sets strings sorting.
From Stdlib Require Export ZArith Lia.

(** ** Results of fallible code (Rust's [Result]) *)

Inductive result (T E : Type) : Type :=
| Ok (t : T)
| Err (e : E).
Arguments Ok {T E} t.
Arguments Err {T E} e.

(** Outcome of a loop run on a bounded number of iterations: a result, or the
    fuel ran out (what is enough for each loop is proved beside it). *)
Inductive run (T E : Type) : Type :=
| Done (t : T)
| Fail (e : E)
| OutOfFuel.
Arguments Done {T E} t.
Arguments Fail {T E} e.
Arguments OutOfFuel {T E}.

Definition result_bind {T U E} (m : result T E) (k : T → result U E) : result U E :=
  match m with Ok t => k t | Err e => Err e end.

Definition run_bind {T U E} (m : run T E) (k : T → run U E) : run U E :=
  match m with Done t => k t | Fail e => Fail e | OutOfFuel => OutOfFuel end.

Definition run_of_result {T E} (m : result T E) : run T E :=
  match m with Ok t => Done t | Err e => Fail e end.

Definition result_of_option {T E} (o : option T) (e : E) : result T E :=
  match o with Some t => Ok t | None => Err e end.

Definition result_map {T U E} (f : T → U) (m : result T E) : result U E :=
  match m with Ok t => Ok (f t) | Err e => Err e end.

Declare Scope result_scope.
Delimit Scope result_scope with result.
Notation "'let?' x := m 'in' k" := (result_bind m (λ x, k))
  (at level 10, x pattern, m at level 100, k at level 200) : result_scope.
Notation "'let!' x := m 'in' k" := (run_bind m (λ x, k))
  (at level 10, x pattern, m at level 100, k at level 200) : result_scope.
Notation "'let*' x := m 'in' k" := (mbind (λ x, k) m)
  (at level 10, x pattern, m at level 100, k at level 200) : result_scope.
Open Scope result_scope.
Open Scope Z_scope.

(** [?] over a sequence, left to right, stopping at the first error. *)
Fixpoint result_mapM {A T E} (f : A → result T E) (l : list A) : result (list T) E :=
  match l with
  | [] => Ok []
  | x :: l => let? y := f x in let? ys := result_mapM f l in Ok (y :: ys)
  end.

Lemma result_bind_Ok {T U E} (m : result T E) (k : T → result U E) u :
  result_bind m k = Ok u ↔ ∃ t, m = Ok t ∧ k t = Ok u.
Proof. destruct m; simpl; [|split; [done|by intros (?&?&?)]].
  split; [eauto|by intros (?&[= ->]&?)].
Qed.

Lemma result_mapM_Ok {A T E} (f : A → result T E) l r :
  result_mapM f l = Ok r ↔ Forall2 (λ x y, f x = Ok y) l r.
Proof.
  revert r. induction l as [|x l IH]; intros r; simpl.
  - split; [by intros [= <-]|by intros ->%Forall2_nil_inv_l].
  - rewrite result_bind_Ok. setoid_rewrite result_bind_Ok. setoid_rewrite IH. split.
    + intros (y & Hy & ys & Hys & [= <-]). by constructor.
    + intros (y & ys & Hy & Hys & ->)%Forall2_cons_inv_l. eauto 10.
Qed.

Lemma result_mapM_l {A T E} (f : A → result T E) l r x :
  result_mapM f l = Ok r → x ∈ l → ∃ y, y ∈ r ∧ f x = Ok y.
Proof.
  intros H%result_mapM_Ok (i & Hi)%list_elem_of_lookup. destruct (Forall2_lookup_l _ _ _ _ _ H Hi) as (y & Hy & ?).
  eauto using list_elem_of_lookup_2.
Qed.
Lemma result_mapM_r {A T E} (f : A → result T E) l r y :
  result_mapM f l = Ok r → y ∈ r → ∃ x, x ∈ l ∧ f x = Ok y.
Proof.
  intros H%result_mapM_Ok (i & Hi)%list_elem_of_lookup. destruct (Forall2_lookup_r _ _ _ _ _ H Hi) as (x & Hx & ?).
  eauto using list_elem_of_lookup_2.
Qed.

(** ** Automation *)

(** Lemmas of the pattern construction, and of the gate's steps and reachable gates. *)
Create HintDb regex.
Create HintDb gate.

(** A [match] on literal bytes whose scrutinee is none of them: every branch is the default one. *)
Ltac default_branch := repeat (case_match; simplify_eq; try done).

(** The same, where the default branch is the statement [H]. *)
Ltac default_byte b H :=
  let p := fresh "p" in
  destruct b as [|p|p]; try exact H; repeat (destruct p as [p|p|]; try exact H).

(** ** Machine integers *)

Definition U8 : Z := 2 ^ 8.
Definition U16 : Z := 2 ^ 16.
Definition U32 : Z := 2 ^ 32.
Definition U64 : Z := 2 ^ 64.
Definition I64_MIN : Z := - 2 ^ 63.
Definition I64_MAX : Z := 2 ^ 63 - 1.
Definition U64_MAX : Z := 2 ^ 64 - 1.

Definition wrap (w x : Z) : Z := x mod 2 ^ w.
Definition in_u (w x : Z) : Prop := 0 ≤ x < 2 ^ w.
Definition in_i64 (x : Z) : bool := (I64_MIN <=? x) && (x <=? I64_MAX).

(** [u64::saturating_add] and [i64::saturating_add]. *)
Definition sat_add_u64 (x y : Z) : Z := Z.min U64_MAX (x + y).
Definition sat_add_i64 (x y : Z) : Z := Z.max I64_MIN (Z.min I64_MAX (x + y)).

(** [u16::try_from(i64)], [i64::try_from(i128)], [u64::try_from(i128)]. *)
Definition u16_try_from (x : Z) : option Z := if (0 <=? x) && (x <? U16) then Some x else None.
Definition i64_try_from (x : Z) : option Z := if in_i64 x then Some x else None.
Definition u64_try_from (x : Z) : option Z := if (0 <=? x) && (x <? U64) then Some x else None.

(** ** Bytes and text

    A byte is a [Z] in [0, 256); [&[u8]] and [Vec<u8>] are [list Z].  A Rust [String] is a
    Rocq [string], whose characters are its UTF-8 bytes. *)

Definition is_byte (b : Z) : Prop := 0 ≤ b < 256.
Definition is_byteb (b : Z) : bool := (0 <=? b) && (b <? 256).

Definition byte_of_ascii (a : Ascii.ascii) : Z := Z.of_N (Ascii.N_of_ascii a).
Definition ascii_of_byte (b : Z) : Ascii.ascii := Ascii.ascii_of_N (Z.to_N b).

Fixpoint bytes_of (s : string) : list Z :=
  match s with
  | EmptyString => []
  | String a s => byte_of_ascii a :: bytes_of s
  end.

Fixpoint string_of (l : list Z) : string :=
  match l with
  | [] => EmptyString
  | b :: l => String (ascii_of_byte b) (string_of l)
  end.

Lemma byte_of_ascii_range a : is_byte (byte_of_ascii a).
Proof. unfold is_byte, byte_of_ascii. pose proof (Ascii.N_ascii_bounded a). lia. Qed.

Lemma ascii_byte_ascii a : ascii_of_byte (byte_of_ascii a) = a.
Proof. unfold ascii_of_byte, byte_of_ascii. rewrite N2Z.id. apply Ascii.ascii_N_embedding. Qed.

Lemma byte_ascii_byte b : is_byte b → byte_of_ascii (ascii_of_byte b) = b.
Proof.
  unfold is_byte, ascii_of_byte, byte_of_ascii. intros Hb.
  rewrite Ascii.N_ascii_embedding; lia.
Qed.

Lemma bytes_of_range s : Forall is_byte (bytes_of s).
Proof. induction s; simpl; constructor; auto using byte_of_ascii_range. Qed.

Lemma string_bytes_string s : string_of (bytes_of s) = s.
Proof. induction s as [|a s IH]; simpl; [done|]. by rewrite ascii_byte_ascii, IH. Qed.

Lemma bytes_string_bytes l : Forall is_byte l → bytes_of (string_of l) = l.
Proof. induction 1; simpl; [done|]. by rewrite byte_ascii_byte, IHForall by done. Qed.

Lemma bytes_of_inj s t : bytes_of s = bytes_of t → s = t.
Proof. intros H. by rewrite <-(string_bytes_string s), <-(string_bytes_string t), H. Qed.

Lemma bytes_of_app s t : bytes_of (s +:+ t) = bytes_of s ++ bytes_of t.
Proof. induction s; simpl; [done|]. by f_equal. Qed.

(** [Vec<u8>]'s [Ord]: lexicographic, a prefix first. *)
Fixpoint bytes_cmp (l k : list Z) : comparison :=
  match l, k with
  | [], [] => Eq
  | [], _ :: _ => Lt
  | _ :: _, [] => Gt
  | x :: l, y :: k => match x ?= y with Eq => bytes_cmp l k | c => c end
  end.

Definition bytes_leb (l k : list Z) : bool :=
  match bytes_cmp l k with Gt => false | _ => true end.

Definition starts_with (prefix l : list Z) : bool :=
  bool_decide (take (length prefix) l = prefix).

Lemma bytes_cmp_refl l : bytes_cmp l l = Eq.
Proof. induction l; simpl; [done|]. by rewrite Z.compare_refl. Qed.

Lemma bytes_cmp_eq l k : bytes_cmp l k = Eq ↔ l = k.
Proof.
  split; [|intros ->; apply bytes_cmp_refl].
  revert k; induction l as [|x l IH]; intros [|y k]; simpl; try done.
  destruct (Z.compare_spec x y); intros; subst; try done. f_equal; auto.
Qed.

Lemma bytes_cmp_antisym l k : bytes_cmp k l = CompOpp (bytes_cmp l k).
Proof.
  revert k; induction l as [|x l IH]; intros [|y k]; simpl; try done.
  rewrite (Z.compare_antisym x y). destruct (x ?= y); simpl; auto.
Qed.

Lemma bytes_cmp_trans l k m c :
  bytes_cmp l k = c → bytes_cmp k m = c → bytes_cmp l m = c.
Proof.
  revert k m; induction l as [|x l IH]; intros [|y k] [|z m]; simpl; intros; try congruence.
  destruct (Z.compare_spec x y), (Z.compare_spec y z); subst; try congruence.
  all: repeat match goal with
       | |- context [?a ?= ?b] => destruct (Z.compare_spec a b); try (exfalso; lia)
       end; subst; try congruence; eauto; try lia.
Qed.

Lemma bytes_leb_total l k : bytes_leb l k = true ∨ bytes_leb k l = true.
Proof. unfold bytes_leb. rewrite (bytes_cmp_antisym l k). destruct (bytes_cmp l k); auto. Qed.

Lemma bytes_leb_trans l k m : bytes_leb l k = true → bytes_leb k m = true → bytes_leb l m = true.
Proof.
  unfold bytes_leb. intros H1 H2.
  destruct (bytes_cmp l k) eqn:E1; [apply bytes_cmp_eq in E1; by subst| |done].
  destruct (bytes_cmp k m) eqn:E2; [apply bytes_cmp_eq in E2; subst; by rewrite E1| |done].
  by rewrite (bytes_cmp_trans _ _ _ _ E1 E2).
Qed.

(** ** Slices: [chunks(n)] *)

Fixpoint chunks_go {A} (fuel n : nat) (l : list A) : list (list A) :=
  match fuel, l with
  | S fuel, _ :: _ => take n l :: chunks_go fuel n (drop n l)
  | _, _ => []
  end.

Definition chunks {A} (n : nat) (l : list A) : list (list A) := chunks_go (length l) n l.

Lemma chunks_go_fuel {A} n (l : list A) f1 f2 :
  (0 < n)%nat → (length l ≤ f1)%nat → (length l ≤ f2)%nat → chunks_go f1 n l = chunks_go f2 n l.
Proof.
  revert l f2; induction f1 as [|f1 IH]; intros l [|f2] Hn H1 H2; destruct l as [|x l];
    simpl in *; try done; try lia.
  f_equal. apply IH; [done|..]; rewrite length_drop; simpl; lia.
Qed.

Lemma chunks_app {A} n (l k : list A) :
  (0 < n)%nat → length l = n → chunks n (l ++ k) = l :: chunks n k.
Proof.
  intros Hn Hl. unfold chunks. destruct l as [|x l]; simpl in Hl; [lia|].
  simpl. rewrite <-Hl. simpl. rewrite take_app_length, drop_app_length.
  f_equal. apply chunks_go_fuel; [lia| |lia]. rewrite length_app; lia.
Qed.

Lemma chunks_short {A} n (l : list A) :
  l ≠ [] → (length l ≤ n)%nat → chunks n l = [l].
Proof.
  intros Hl Hn. unfold chunks. destruct l as [|x l]; [done|]. simpl in *.
  rewrite take_ge, drop_ge by (simpl; lia). by destruct (length l).
Qed.

(** Splits a list in blocks of [n] elements and a shorter remainder. *)
Lemma chunks_ind {A} (n : nat) (P : list A → Prop) :
  (0 < n)%nat →
  (∀ l, (length l < n)%nat → P l) →
  (∀ c l, length c = n → P l → P (c ++ l)) →
  ∀ l, P l.
Proof.
  intros Hn Hshort Hstep l. induction l as [l IH] using (induction_ltof1 _ (@length A)).
  unfold ltof in IH. destruct (decide (length l < n)%nat) as [|Hge]; [auto|].
  rewrite <-(take_drop n l). apply Hstep; [rewrite length_take; lia|].
  apply IH. rewrite length_drop. lia.
Qed.

(** ** Shifts and masks as arithmetic *)

Lemma testbit_small b n i : 0 ≤ b < 2 ^ n → 0 ≤ n ≤ i → Z.testbit b i = false.
Proof.
  intros Hb Hi. rewrite <-(Z.mod_small b (2 ^ n)) by done. by apply Z.mod_pow2_bits_high.
Qed.

Lemma lor_shiftl_add a b n : 0 ≤ n → 0 ≤ b < 2 ^ n → Z.lor (Z.shiftl a n) b = a * 2 ^ n + b.
Proof.
  intros Hn Hb. rewrite <-Z.shiftl_mul_pow2 by done.
  assert (Hland : Z.land (Z.shiftl a n) b = 0).
  { apply Z.bits_inj'. intros i Hi. rewrite Z.land_spec, Z.shiftl_spec, Z.bits_0 by done.
    destruct (decide (i < n)) as [Hlt|Hge].
    - by rewrite Z.testbit_neg_r by lia.
    - rewrite (testbit_small b n i) by lia. apply andb_false_r. }
  by rewrite Z.add_nocarry_lxor, Z.lxor_lor by done.
Qed.

Lemma lor_mul_add a b n : 0 ≤ n → 0 ≤ b < 2 ^ n → Z.lor (a * 2 ^ n) b = a * 2 ^ n + b.
Proof. intros. rewrite <-lor_shiftl_add by done. by rewrite Z.shiftl_mul_pow2 by done. Qed.

Lemma land_ones_mod a n : 0 ≤ n → Z.land a (2 ^ n - 1) = a mod 2 ^ n.
Proof. intros. rewrite <-Z.land_ones by done. by rewrite Z.ones_equiv, <-Z.sub_1_r. Qed.

(** Reduces shifts and low masks to [*], [/] and [mod], for [lia]. *)
Ltac shift_arith :=
  rewrite ?Z.shiftr_div_pow2, ?Z.shiftl_mul_pow2 by lia;
  change 63 with (2 ^ 6 - 1); change 255 with (2 ^ 8 - 1);
  rewrite ?land_ones_mod by lia;
  unfold wrap;
  change (2 ^ 6) with 64 in *; change (2 ^ 8) with 256 in *;
  change (2 ^ 16) with 65536 in *; change (2 ^ 32) with 4294967296 in *.

(** ** Decimal text *)

Definition is_digit (b : Z) : bool := (48 <=? b) && (b <=? 57).

Fixpoint digits_go (fuel : nat) (n : Z) (acc : list Z) : list Z :=
  match fuel with
  | O => acc
  | S fuel =>
      let acc := (48 + n mod 10) :: acc in
      if n / 10 =? 0 then acc else digits_go fuel (n / 10) acc
  end.

(** The decimal digits of a non-negative integer, without leading zeros ([0] is ["0"]). *)
Definition digits_of (n : Z) : list Z := digits_go (S (Z.to_nat (Z.log2 n))) n [].

(** [i64::to_string] and [u64::to_string]. *)
Definition decimal (n : Z) : list Z :=
  if n <? 0 then 45 :: digits_of (- n) else digits_of n.

(** The value of a digit string. *)
Definition digits_value (l : list Z) : Z := fold_left (λ a d, a * 10 + (d - 48)) l 0.

Lemma fold_digits_app l k a :
  fold_left (λ a d, a * 10 + (d - 48)) (l ++ k) a =
  fold_left (λ a d, a * 10 + (d - 48)) k (fold_left (λ a d, a * 10 + (d - 48)) l a).
Proof. apply fold_left_app. Qed.

Lemma fold_digits_shift l a :
  fold_left (λ a d, a * 10 + (d - 48)) l a = a * 10 ^ Z.of_nat (length l) + digits_value l.
Proof.
  unfold digits_value. revert a. induction l as [|d l IH]; intros a; cbn [fold_left length].
  - simpl. lia.
  - rewrite IH, (IH (0 * 10 + (d - 48))). rewrite Nat2Z.inj_succ, Z.pow_succ_r by lia. lia.
Qed.

Lemma digits_value_cons d l : digits_value (d :: l) = (d - 48) * 10 ^ Z.of_nat (length l) + digits_value l.
Proof. unfold digits_value at 1. cbn [fold_left]. rewrite fold_digits_shift. lia. Qed.

Lemma digits_go_spec fuel n acc :
  0 ≤ n < 2 ^ Z.of_nat fuel → (0 < fuel)%nat → Forall (λ b, is_digit b = true) acc →
  ∃ l, digits_go fuel n acc = l ++ acc ∧ Forall (λ b, is_digit b = true) (l ++ acc) ∧
    digits_value l = n ∧ (0 < length l)%nat ∧ (n ≠ 0 → head l ≠ Some 48) ∧ (n = 0 → l = [48]).
Proof.
  revert n acc; induction fuel as [|fuel IH]; intros n acc Hn Hf Hacc; [lia|]. cbn [digits_go].
  assert (Hd : is_digit (48 + n mod 10) = true).
  { unfold is_digit. pose proof (Z.mod_pos_bound n 10 ltac:(lia)).
    apply andb_true_intro; split; apply Z.leb_le; lia. }
  destruct (Z.eqb_spec (n / 10) 0) as [H0|H0].
  - assert (n < 10) by (Z.div_mod_to_equations; lia).
    exists [48 + n mod 10]. rewrite (Z.mod_small n 10) in * by lia.
    repeat split; simpl; try lia; [by constructor|unfold digits_value; simpl; lia|..].
    + intros ? [=]. lia.
    + intros ->. done.
  - rewrite Nat2Z.inj_succ, Z.pow_succ_r in Hn by lia.
    destruct (IH (n / 10) ((48 + n mod 10) :: acc)) as (l & -> & Hall & Hval & Hlen & Hhead & _).
    + split; [apply Z.div_pos; lia|]. apply Z.div_lt_upper_bound; lia.
    + destruct fuel; [|lia]. simpl in Hn. exfalso. apply H0. apply Z.div_small. lia.
    + by constructor.
    + exists (l ++ [48 + n mod 10]). rewrite <-app_assoc. split; [done|]. split; [done|].
      split; [|split; [rewrite length_app; simpl; lia|split]].
      * unfold digits_value in *. rewrite fold_digits_app, Hval. cbn [fold_left].
        pose proof (Z.div_mod n 10). lia.
      * intros _. destruct l; [simpl in Hlen; lia|]. simpl in *. by apply Hhead.
      * intros ->. done.
Qed.

Lemma digits_of_spec n :
  0 ≤ n → Forall (λ b, is_digit b = true) (digits_of n) ∧ digits_value (digits_of n) = n ∧
    (0 < length (digits_of n))%nat ∧ (n ≠ 0 → head (digits_of n) ≠ Some 48) ∧ (n = 0 → digits_of n = [48]).
Proof.
  intros Hn. destruct (digits_go_spec (S (Z.to_nat (Z.log2 n))) n []) as (l & Hl & Hall & ? & ? & ? & ?).
  - rewrite Nat2Z.inj_succ, Z2Nat.id by apply Z.log2_nonneg.
    destruct (decide (n = 0)) as [->|]; [simpl; lia|]. split; [done|]. apply Z.log2_spec. lia.
  - lia.
  - constructor.
  - unfold digits_of. rewrite Hl in *. rewrite app_nil_r in *. auto.
Qed.

Lemma fold_digits_snoc l d : digits_value (l ++ [d]) = 10 * digits_value l + (d - 48).
Proof. unfold digits_value. rewrite fold_digits_app. cbn [fold_left]. lia. Qed.

(** Decimal text in its shortest form. *)
Definition canonical_digits (l : list Z) : Prop :=
  Forall (λ b, is_digit b = true) l ∧ l ≠ [] ∧ (head l = Some 48 → l = [48]).

Lemma is_digit_bounds b : is_digit b = true → 48 ≤ b ≤ 57.
Proof. unfold is_digit. intros [?%Z.leb_le ?%Z.leb_le]%andb_prop. lia. Qed.

Lemma forallb_digits l : forallb is_digit l = true ↔ Forall (λ b, is_digit b = true) l.
Proof. by rewrite forallb_forall, Forall_forall; setoid_rewrite list_elem_of_In. Qed.

Lemma digits_value_nonneg l : Forall (λ b, is_digit b = true) l → 0 ≤ digits_value l.
Proof.
  induction l as [|d l IH] using rev_ind; [done|]. rewrite Forall_app, fold_digits_snoc.
  intros [? [?%is_digit_bounds _]%Forall_cons]. specialize (IH ltac:(done)). lia.
Qed.

Lemma digits_value_pos l :
  Forall (λ b, is_digit b = true) l → l ≠ [] → head l ≠ Some 48 → 0 < digits_value l.
Proof.
  destruct l as [|d l]; [done|]. intros [?%is_digit_bounds Hl]%Forall_cons _ Hd. simpl in Hd.
  rewrite digits_value_cons. pose proof (digits_value_nonneg l Hl).
  assert (d ≠ 48) by congruence. pose proof (Z.pow_pos_nonneg 10 (Z.of_nat (length l))). nia.
Qed.

Lemma canonical_digits_inj l k :
  canonical_digits l → canonical_digits k → digits_value l = digits_value k → l = k.
Proof.
  revert k. induction l as [|d l IH] using rev_ind; intros k (Hl & Hn & Hh) (Hk & Hkn & Hkh) Hv; [done|].
  destruct k as [|e k _] using rev_ind; [done|]. clear Hn Hkn.
  rewrite Forall_app in Hl, Hk. destruct Hl as [Hl [Hd%is_digit_bounds _]%Forall_cons].
  destruct Hk as [Hk [He%is_digit_bounds _]%Forall_cons].
  rewrite !fold_digits_snoc in Hv. pose proof (digits_value_nonneg l Hl). pose proof (digits_value_nonneg k Hk).
  assert (d = e ∧ digits_value l = digits_value k) as [-> Hlk] by lia. f_equal.
  assert (Hpos : ∀ l', Forall (λ b, is_digit b = true) l' → l' ≠ [] →
    (head (l' ++ [e]) = Some 48 → l' ++ [e] = [48]) → head l' ≠ Some 48 ∧ 0 < digits_value l').
  { intros l' Hf Hne Hc. assert (head l' ≠ Some 48).
    { intros Hh'. destruct l' as [|x [|y l']]; [done| |]; simpl in *; specialize (Hc Hh'); done. }
    split; [done|]. by apply digits_value_pos. }
  destruct (decide (l = [])) as [->|Hln]; destruct (decide (k = [])) as [->|Hkn]; [done| | |].
  - destruct (Hpos k Hk Hkn Hkh). change (digits_value []) with 0 in *. lia.
  - destruct (Hpos l Hl Hln Hh). change (digits_value []) with 0 in *. lia.
  - apply IH; [| |done].
    + destruct (Hpos l Hl Hln Hh). by repeat split.
    + destruct (Hpos k Hk Hkn Hkh). by repeat split.
Qed.

Lemma digits_of_canonical n : 0 ≤ n → canonical_digits (digits_of n).
Proof.
  intros Hn. destruct (digits_of_spec n Hn) as (Hf & _ & Hl & Hh & H0). split; [done|]. split.
  - by destruct (digits_of n); [simpl in Hl; lia|].
  - intros H48. destruct (decide (n = 0)) as [->|]; [by apply H0|]. by destruct Hh.
Qed.

Lemma digits_of_value l : canonical_digits l → digits_of (digits_value l) = l.
Proof.
  intros Hl. assert (0 ≤ digits_value l) by (apply digits_value_nonneg, Hl).
  apply canonical_digits_inj; [by apply digits_of_canonical|done|].
  by destruct (digits_of_spec (digits_value l)) as (_ & ? & _).
Qed.

(** ** [BTreeMap]s keyed by integers, iterated in key order *)

Definition btree_keys {V} (m : gmap Z V) : list Z := merge_sort Z.le (elements (dom m)).
Definition btree_values {V} (m : gmap Z V) : list V := omap (λ k, m !! k) (btree_keys m).

Lemma elem_of_btree_keys {V} (m : gmap Z V) k : k ∈ btree_keys m ↔ is_Some (m !! k).
Proof.
  unfold btree_keys. rewrite merge_sort_Permutation, elem_of_elements. apply elem_of_dom.
Qed.

Lemma elem_of_btree_values {V} (m : gmap Z V) v : v ∈ btree_values m ↔ ∃ k, m !! k = Some v.
Proof.
  unfold btree_values. rewrite list_elem_of_omap. split; [naive_solver|].
  intros [k Hk]. exists k. split; [apply elem_of_btree_keys; eauto|done].
Qed.

Lemma btree_keys_NoDup {V} (m : gmap Z V) : NoDup (btree_keys m).
Proof. unfold btree_keys. rewrite merge_sort_Permutation. apply NoDup_elements. Qed.

Lemma forallb_btree_values {V} (f : V → bool) (m : gmap Z V) :
  forallb f (btree_values m) = true ↔ ∀ k v, m !! k = Some v → f v = true.
Proof.
  rewrite forallb_forall. split.
  - intros H k v Hk. apply H, list_elem_of_In, elem_of_btree_values. eauto.
  - intros H v [k Hk]%list_elem_of_In%elem_of_btree_values. eauto.
Qed.

Lemma existsb_btree_values {V} (f : V → bool) (m : gmap Z V) :
  existsb f (btree_values m) = true ↔ ∃ k v, m !! k = Some v ∧ f v = true.
Proof.
  rewrite existsb_exists. split.
  - intros (v & [k Hk]%list_elem_of_In%elem_of_btree_values & Hf). eauto.
  - intros (k & v & Hk & Hf). exists v. split; [|done]. apply list_elem_of_In, elem_of_btree_values. eauto.
Qed.

Lemma find_Some_btree {V} (f : V → bool) (m : gmap Z V) v :
  List.find f (btree_values m) = Some v → (∃ k, m !! k = Some v) ∧ f v = true.
Proof. intros [[k ?]%list_elem_of_In%elem_of_btree_values ?]%find_some. eauto. Qed.

Lemma find_None_btree {V} (f : V → bool) (m : gmap Z V) :
  List.find f (btree_values m) = None ↔ ∀ k v, m !! k = Some v → f v = false.
Proof.
  split.
  - intros Hf k v Hk. eapply find_none; [exact Hf|]. apply list_elem_of_In, elem_of_btree_values. eauto.
  - intros H. destruct (List.find f _) eqn:E; [|done]. apply find_Some_btree in E as [[k Hk] E].
    by rewrite (H _ _ Hk) in E.
Qed.

(** ** [BTreeMap]s keyed by text, iterated in key order *)

Definition str_le (s t : string) : Prop := bytes_leb (bytes_of s) (bytes_of t) = true.
#[export] Instance str_le_dec s t : Decision (str_le s t).
Proof. unfold str_le. apply _. Defined.

Definition str_keys {V} (m : gmap string V) : list string := merge_sort str_le (elements (dom m)).
Definition str_values {V} (m : gmap string V) : list V := omap (λ k, m !! k) (str_keys m).

Lemma elem_of_str_keys {V} (m : gmap string V) k : k ∈ str_keys m ↔ is_Some (m !! k).
Proof. unfold str_keys. rewrite merge_sort_Permutation, elem_of_elements. apply elem_of_dom. Qed.

Lemma elem_of_str_values {V} (m : gmap string V) v : v ∈ str_values m ↔ ∃ k, m !! k = Some v.
Proof.
  unfold str_values. rewrite list_elem_of_omap. split; [naive_solver|].
  intros [k Hk]. exists k. split; [apply elem_of_str_keys; eauto|done].
Qed.
