(* ===== verification/Contracts.v ===== *)
(** * The embedded contracts ([host-enforcement/crates/i05-protocol/src/contracts.rs], [broker/src/i02.rs])

    The contract files the crates embed ([include_bytes!]), byte for byte: each constant is the file's text with a
    backquote for every double quote. *)

From S2P Require Import Prelude.
(** An embedded text: its lines' pieces joined, a backquote standing for a double quote. *)
Definition embedded (pieces : list string) : list Z :=
  concat (map (λ piece, map (λ byte, if byte =? 96 then 34 else byte) (bytes_of piece)) pieces).

(** [host-enforcement/contracts/i05-v3/channel.schema.json]: the I05 frame schema. *)
Definition I05_V3_SCHEMA : list Z := embedded [
"{
 `$schema`: `https://json-schema.org/draft/2020-12/schema`,
 `$id`: `urn:planeon:internal:effect-gate-frame:v3`,
 `oneOf`: [
  {
   `type`: `object`,
   `additionalProperties`: false,
   `required`: [
    `challenge`,
    `direction`,
    `generation`,
    `operation`,
    `payload`,
    `previousDigest`,
    `schemaVersion`,
    `sequence`
   ],
   `properties`: {
    `schemaVersion`: {
     `const`: `planeon.internal.effect-gate-frame/v3`
    },
    `generation`: {
     `type`: `string`,
     `minLength`: 64,
     `maxLength`: 64,
     `pattern`: `^[0-9a-f]{64}$`
    },
    `challenge`: {
     `type`: `string`,
     `minLength`: 64,
     `maxLength`: 64,
     `pattern`: `^[0-9a-f]{64}$`
    },
    `sequence`: {
     `type`: `integer`,
     `minimum`: 1,
     `maximum`: 2147483647
    },
    `previousDigest`: {
     `type`: `string`,
     `minLength`: 71,
     `maxLength`: 71,
     `pattern`: `^sha256:[0-9a-f]{64}$`
    },
    `direction`: {
     `const`: `BROKER_TO_GATE`
    },
    `operation`: {
     `const`: `GENERATION_STATUS`
    },
    `payload`: {
     `type`: `object`,
     `additionalProperties`: false,
     `maxProperties`: 0,
     `properties`: {}
    }
   }
  },
  {
   `type`: `object`,
";
"   `additionalProperties`: false,
   `required`: [
    `challenge`,
    `direction`,
    `generation`,
    `operation`,
    `payload`,
    `previousDigest`,
    `schemaVersion`,
    `sequence`
   ],
   `properties`: {
    `schemaVersion`: {
     `const`: `planeon.internal.effect-gate-frame/v3`
    },
    `generation`: {
     `type`: `string`,
     `minLength`: 64,
     `maxLength`: 64,
     `pattern`: `^[0-9a-f]{64}$`
    },
    `challenge`: {
     `type`: `string`,
     `minLength`: 64,
     `maxLength`: 64,
     `pattern`: `^[0-9a-f]{64}$`
    },
    `sequence`: {
     `type`: `integer`,
     `minimum`: 1,
     `maximum`: 2147483647
    },
    `previousDigest`: {
     `type`: `string`,
     `minLength`: 71,
     `maxLength`: 71,
     `pattern`: `^sha256:[0-9a-f]{64}$`
    },
    `direction`: {
     `const`: `GATE_TO_BROKER`
    },
    `operation`: {
     `const`: `GENERATION_STATUS`
    },
    `payload`: {
     `type`: `object`,
     `additionalProperties`: false,
     `required`: [
      `armedActionId`,
      `boundExecutionId`,
      `counters`,
      `drainPending`,
      `inFlightActionId`,
      `journalDigest`,
      `result`,
      `state`
     ],
     `properties`: {
      `result`: {
       `const`: `OK`
";
"      },
      `state`: {
       `enum`: [
        `INSPECTING`,
        `ACTIVE`,
        `DRAINING`,
        `CLOSED`,
        `INVALIDATED`,
        `HELD`
       ]
      },
      `drainPending`: {
       `type`: `boolean`
      },
      `boundExecutionId`: {
       `oneOf`: [
        {
         `type`: `null`
        },
        {
         `type`: `string`,
         `minLength`: 64,
         `maxLength`: 64,
         `pattern`: `^[0-9a-f]{64}$`
        }
       ]
      },
      `armedActionId`: {
       `oneOf`: [
        {
         `type`: `null`
        },
        {
         `type`: `integer`,
         `minimum`: 1,
         `maximum`: 256
        }
       ]
      },
      `inFlightActionId`: {
       `oneOf`: [
        {
         `type`: `null`
        },
        {
         `type`: `integer`,
         `minimum`: 1,
         `maximum`: 256
        }
       ]
      },
      `counters`: {
       `type`: `object`,
       `additionalProperties`: false,
       `required`: [
        `consumptions`,
        `correlationRefusals`,
        `flushClosures`,
        `stampsIssued`
       ],
";
"       `properties`: {
        `stampsIssued`: {
         `type`: `integer`,
         `minimum`: 0,
         `maximum`: 2147483647
        },
        `consumptions`: {
         `type`: `integer`,
         `minimum`: 0,
         `maximum`: 2147483647
        },
        `correlationRefusals`: {
         `type`: `integer`,
         `minimum`: 0,
         `maximum`: 2147483647
        },
        `flushClosures`: {
         `type`: `integer`,
         `minimum`: 0,
         `maximum`: 2147483647
        }
       }
      },
      `journalDigest`: {
       `type`: `string`,
       `minLength`: 71,
       `maxLength`: 71,
       `pattern`: `^sha256:[0-9a-f]{64}$`
      }
     },
     `allOf`: [
      {
       `not`: {
        `allOf`: [
         {
          `properties`: {
           `armedActionId`: {
            `not`: {
             `type`: `null`
            }
           }
          },
          `required`: [
           `armedActionId`
          ]
         },
         {
          `properties`: {
           `inFlightActionId`: {
            `not`: {
             `type`: `null`
            }
           }
          },
          `required`: [
           `inFlightActionId`
          ]
         }
        ]
       }
";
"      },
      {
       `if`: {
        `properties`: {
         `boundExecutionId`: {
          `type`: `null`
         }
        }
       },
       `then`: {
        `allOf`: [
         {
          `properties`: {
           `armedActionId`: {
            `type`: `null`
           }
          }
         },
         {
          `properties`: {
           `inFlightActionId`: {
            `type`: `null`
           }
          }
         }
        ]
       }
      },
      {
       `if`: {
        `properties`: {
         `state`: {
          `not`: {
           `const`: `ACTIVE`
          }
         }
        }
       },
       `then`: {
        `properties`: {
         `armedActionId`: {
          `type`: `null`
         }
        }
       }
      },
      {
       `if`: {
        `properties`: {
         `state`: {
          `const`: `ACTIVE`
         }
        }
       },
       `then`: {
        `properties`: {
         `drainPending`: {
          `const`: false
         }
        }
";
"       }
      },
      {
       `if`: {
        `properties`: {
         `state`: {
          `const`: `INSPECTING`
         }
        }
       },
       `then`: {
        `allOf`: [
         {
          `properties`: {
           `boundExecutionId`: {
            `type`: `null`
           }
          }
         },
         {
          `properties`: {
           `drainPending`: {
            `const`: false
           }
          }
         }
        ]
       }
      },
      {
       `if`: {
        `properties`: {
         `state`: {
          `const`: `DRAINING`
         }
        }
       },
       `then`: {
        `properties`: {
         `drainPending`: {
          `const`: true
         }
        }
       }
      },
      {
       `if`: {
        `properties`: {
         `state`: {
          `const`: `CLOSED`
         }
        }
       },
       `then`: {
        `properties`: {
         `inFlightActionId`: {
          `type`: `null`
         }
        }
       }
";
"      },
      {
       `if`: {
        `properties`: {
         `drainPending`: {
          `const`: true
         }
        }
       },
       `then`: {
        `allOf`: [
         {
          `properties`: {
           `state`: {
            `enum`: [
             `DRAINING`,
             `INVALIDATED`
            ]
           }
          }
         },
         {
          `properties`: {
           `inFlightActionId`: {
            `not`: {
             `type`: `null`
            }
           }
          },
          `required`: [
           `inFlightActionId`
          ]
         }
        ]
       }
      }
     ]
    }
   }
  },
  {
   `type`: `object`,
   `additionalProperties`: false,
   `required`: [
    `challenge`,
    `direction`,
    `generation`,
    `operation`,
    `payload`,
    `previousDigest`,
    `schemaVersion`,
    `sequence`
   ],
   `properties`: {
    `schemaVersion`: {
     `const`: `planeon.internal.effect-gate-frame/v3`
    },
    `generation`: {
     `type`: `string`,
     `minLength`: 64,
";
"     `maxLength`: 64,
     `pattern`: `^[0-9a-f]{64}$`
    },
    `challenge`: {
     `type`: `string`,
     `minLength`: 64,
     `maxLength`: 64,
     `pattern`: `^[0-9a-f]{64}$`
    },
    `sequence`: {
     `type`: `integer`,
     `minimum`: 1,
     `maximum`: 2147483647
    },
    `previousDigest`: {
     `type`: `string`,
     `minLength`: 71,
     `maxLength`: 71,
     `pattern`: `^sha256:[0-9a-f]{64}$`
    },
    `direction`: {
     `const`: `BROKER_TO_GATE`
    },
    `operation`: {
     `const`: `BIND_EXECUTION`
    },
    `payload`: {
     `type`: `object`,
     `additionalProperties`: false,
     `required`: [
      `bindingDigest`,
      `caseId`,
      `dispatchGeneration`,
      `executionId`,
      `peerQualificationDigest`,
      `requestDigest`,
      `reservationDigest`,
      `runNonce`,
      `serverCertificateDigest`,
      `workerPid`,
      `workerStartTicks`
     ],
     `properties`: {
      `executionId`: {
       `type`: `string`,
       `minLength`: 64,
       `maxLength`: 64,
       `pattern`: `^[0-9a-f]{64}$`
      },
      `bindingDigest`: {
       `type`: `string`,
       `minLength`: 71,
       `maxLength`: 71,
       `pattern`: `^sha256:[0-9a-f]{64}$`
      },
      `reservationDigest`: {
       `type`: `string`,
       `minLength`: 71,
       `maxLength`: 71,
       `pattern`: `^sha256:[0-9a-f]{64}$`
";
"      },
      `runNonce`: {
       `type`: `string`,
       `minLength`: 1,
       `maxLength`: 63,
       `pattern`: `^[a-z0-9][a-z0-9.-]{0,62}$`
      },
      `caseId`: {
       `enum`: [
        `HOST_ISOLATION_NEGATIVES`,
        `LINUX_TARGET_BUILD`,
        `FULL_PREDECESSOR_REGRESSION`,
        `CONTROL_CONTAINER_STARTUP`,
        `POSTGRES_MIGRATION_AND_RLS`,
        `DURABLE_RESTART`,
        `ARBITRARY_NON_ROOT_UID`,
        `READ_ONLY_ROOT_FILESYSTEM`,
        `KUBERNETES_SMOKE`,
        `DEFAULT_DENY_NETWORK`
       ]
      },
      `requestDigest`: {
       `type`: `string`,
       `minLength`: 71,
       `maxLength`: 71,
       `pattern`: `^sha256:[0-9a-f]{64}$`
      },
      `dispatchGeneration`: {
       `type`: `string`,
       `minLength`: 64,
       `maxLength`: 64,
       `pattern`: `^[0-9a-f]{64}$`
      },
      `serverCertificateDigest`: {
       `type`: `string`,
       `minLength`: 71,
       `maxLength`: 71,
       `pattern`: `^sha256:[0-9a-f]{64}$`
      },
      `workerPid`: {
       `type`: `integer`,
       `minimum`: 2,
       `maximum`: 2147483647
      },
      `workerStartTicks`: {
       `type`: `integer`,
       `minimum`: 1,
       `maximum`: 9007199254740991
      },
      `peerQualificationDigest`: {
       `type`: `string`,
       `minLength`: 71,
       `maxLength`: 71,
       `pattern`: `^sha256:[0-9a-f]{64}$`
      }
     }
    }
   }
  },
  {
";
"   `type`: `object`,
   `additionalProperties`: false,
   `required`: [
    `challenge`,
    `direction`,
    `generation`,
    `operation`,
    `payload`,
    `previousDigest`,
    `schemaVersion`,
    `sequence`
   ],
   `properties`: {
    `schemaVersion`: {
     `const`: `planeon.internal.effect-gate-frame/v3`
    },
    `generation`: {
     `type`: `string`,
     `minLength`: 64,
     `maxLength`: 64,
     `pattern`: `^[0-9a-f]{64}$`
    },
    `challenge`: {
     `type`: `string`,
     `minLength`: 64,
     `maxLength`: 64,
     `pattern`: `^[0-9a-f]{64}$`
    },
    `sequence`: {
     `type`: `integer`,
     `minimum`: 1,
     `maximum`: 2147483647
    },
    `previousDigest`: {
     `type`: `string`,
     `minLength`: 71,
     `maxLength`: 71,
     `pattern`: `^sha256:[0-9a-f]{64}$`
    },
    `direction`: {
     `const`: `GATE_TO_BROKER`
    },
    `operation`: {
     `const`: `BIND_EXECUTION`
    },
    `payload`: {
     `oneOf`: [
      {
       `type`: `object`,
       `additionalProperties`: false,
       `required`: [
        `caseManifestSetDigest`,
        `executionId`,
        `result`
       ],
       `properties`: {
        `result`: {
         `const`: `OK`
        },
        `executionId`: {
";
"         `type`: `string`,
         `minLength`: 64,
         `maxLength`: 64,
         `pattern`: `^[0-9a-f]{64}$`
        },
        `caseManifestSetDigest`: {
         `type`: `string`,
         `minLength`: 71,
         `maxLength`: 71,
         `pattern`: `^sha256:[0-9a-f]{64}$`
        }
       }
      },
      {
       `type`: `object`,
       `additionalProperties`: false,
       `required`: [
        `reason`,
        `result`
       ],
       `properties`: {
        `result`: {
         `const`: `REFUSED`
        },
        `reason`: {
         `enum`: [
          `NOT_ACTIVE`,
          `ACTION_OUTSTANDING`,
          `EXECUTION_REPLAY`,
          `GENERATION_MISMATCH`,
          `UNKNOWN_BINDING`,
          `CERTIFICATE_MISMATCH`,
          `MANIFEST_REUSED`,
          `WORKER_NOT_OBSERVED`,
          `STORAGE_FAILURE`
         ]
        }
       }
      }
     ]
    }
   }
  },
  {
   `type`: `object`,
   `additionalProperties`: false,
   `required`: [
    `challenge`,
    `direction`,
    `generation`,
    `operation`,
    `payload`,
    `previousDigest`,
    `schemaVersion`,
    `sequence`
   ],
   `properties`: {
    `schemaVersion`: {
     `const`: `planeon.internal.effect-gate-frame/v3`
    },
";
"    `generation`: {
     `type`: `string`,
     `minLength`: 64,
     `maxLength`: 64,
     `pattern`: `^[0-9a-f]{64}$`
    },
    `challenge`: {
     `type`: `string`,
     `minLength`: 64,
     `maxLength`: 64,
     `pattern`: `^[0-9a-f]{64}$`
    },
    `sequence`: {
     `type`: `integer`,
     `minimum`: 1,
     `maximum`: 2147483647
    },
    `previousDigest`: {
     `type`: `string`,
     `minLength`: 71,
     `maxLength`: 71,
     `pattern`: `^sha256:[0-9a-f]{64}$`
    },
    `direction`: {
     `const`: `BROKER_TO_GATE`
    },
    `operation`: {
     `const`: `ARM_ACTION`
    },
    `payload`: {
     `type`: `object`,
     `additionalProperties`: false,
     `required`: [
      `actionId`,
      `executionId`,
      `manifestDigest`,
      `recordedUid`,
      `requestTemplateDigest`,
      `verb`
     ],
     `properties`: {
      `executionId`: {
       `type`: `string`,
       `minLength`: 64,
       `maxLength`: 64,
       `pattern`: `^[0-9a-f]{64}$`
      },
      `actionId`: {
       `type`: `integer`,
       `minimum`: 1,
       `maximum`: 256
      },
      `verb`: {
       `enum`: [
        `CREATE`,
        `GET`,
        `DELETE`
       ]
      },
      `manifestDigest`: {
";
"       `type`: `string`,
       `minLength`: 71,
       `maxLength`: 71,
       `pattern`: `^sha256:[0-9a-f]{64}$`
      },
      `requestTemplateDigest`: {
       `type`: `string`,
       `minLength`: 71,
       `maxLength`: 71,
       `pattern`: `^sha256:[0-9a-f]{64}$`
      },
      `recordedUid`: {
       `oneOf`: [
        {
         `type`: `null`
        },
        {
         `type`: `string`,
         `minLength`: 1,
         `maxLength`: 128,
         `pattern`: `^[A-Za-z0-9-]{1,128}$`
        }
       ]
      }
     }
    }
   }
  },
  {
   `type`: `object`,
   `additionalProperties`: false,
   `required`: [
    `challenge`,
    `direction`,
    `generation`,
    `operation`,
    `payload`,
    `previousDigest`,
    `schemaVersion`,
    `sequence`
   ],
   `properties`: {
    `schemaVersion`: {
     `const`: `planeon.internal.effect-gate-frame/v3`
    },
    `generation`: {
     `type`: `string`,
     `minLength`: 64,
     `maxLength`: 64,
     `pattern`: `^[0-9a-f]{64}$`
    },
    `challenge`: {
     `type`: `string`,
     `minLength`: 64,
     `maxLength`: 64,
     `pattern`: `^[0-9a-f]{64}$`
    },
    `sequence`: {
     `type`: `integer`,
     `minimum`: 1,
";
"     `maximum`: 2147483647
    },
    `previousDigest`: {
     `type`: `string`,
     `minLength`: 71,
     `maxLength`: 71,
     `pattern`: `^sha256:[0-9a-f]{64}$`
    },
    `direction`: {
     `const`: `GATE_TO_BROKER`
    },
    `operation`: {
     `const`: `ARM_ACTION`
    },
    `payload`: {
     `oneOf`: [
      {
       `type`: `object`,
       `additionalProperties`: false,
       `required`: [
        `actionId`,
        `flushedConnections`,
        `result`
       ],
       `properties`: {
        `result`: {
         `const`: `OK`
        },
        `actionId`: {
         `type`: `integer`,
         `minimum`: 1,
         `maximum`: 256
        },
        `flushedConnections`: {
         `type`: `integer`,
         `minimum`: 0,
         `maximum`: 2147483647
        }
       }
      },
      {
       `type`: `object`,
       `additionalProperties`: false,
       `required`: [
        `reason`,
        `result`
       ],
       `properties`: {
        `result`: {
         `const`: `REFUSED`
        },
        `reason`: {
         `enum`: [
          `NOT_ACTIVE`,
          `DRAIN_PENDING`,
          `EXECUTION_NOT_BOUND`,
          `EXECUTION_EXPIRED`,
          `ACTION_OUTSTANDING`,
          `ACTION_ID_OUT_OF_ORDER`,
          `MANIFEST_OUTSIDE_CASE`,
";
"          `UID_RULE`,
          `UID_NOT_CREATED`,
          `TEMPLATE_MISMATCH`,
          `MUTATION_KEY_REUSED`,
          `STORAGE_FAILURE`
         ]
        }
       }
      }
     ]
    }
   }
  },
  {
   `type`: `object`,
   `additionalProperties`: false,
   `required`: [
    `challenge`,
    `direction`,
    `generation`,
    `operation`,
    `payload`,
    `previousDigest`,
    `schemaVersion`,
    `sequence`
   ],
   `properties`: {
    `schemaVersion`: {
     `const`: `planeon.internal.effect-gate-frame/v3`
    },
    `generation`: {
     `type`: `string`,
     `minLength`: 64,
     `maxLength`: 64,
     `pattern`: `^[0-9a-f]{64}$`
    },
    `challenge`: {
     `type`: `string`,
     `minLength`: 64,
     `maxLength`: 64,
     `pattern`: `^[0-9a-f]{64}$`
    },
    `sequence`: {
     `type`: `integer`,
     `minimum`: 1,
     `maximum`: 2147483647
    },
    `previousDigest`: {
     `type`: `string`,
     `minLength`: 71,
     `maxLength`: 71,
     `pattern`: `^sha256:[0-9a-f]{64}$`
    },
    `direction`: {
     `const`: `BROKER_TO_GATE`
    },
    `operation`: {
     `const`: `ACTION_OUTCOME`
    },
    `payload`: {
";
"     `type`: `object`,
     `additionalProperties`: false,
     `required`: [
      `actionId`,
      `executionId`
     ],
     `properties`: {
      `executionId`: {
       `type`: `string`,
       `minLength`: 64,
       `maxLength`: 64,
       `pattern`: `^[0-9a-f]{64}$`
      },
      `actionId`: {
       `type`: `integer`,
       `minimum`: 1,
       `maximum`: 256
      }
     }
    }
   }
  },
  {
   `type`: `object`,
   `additionalProperties`: false,
   `required`: [
    `challenge`,
    `direction`,
    `generation`,
    `operation`,
    `payload`,
    `previousDigest`,
    `schemaVersion`,
    `sequence`
   ],
   `properties`: {
    `schemaVersion`: {
     `const`: `planeon.internal.effect-gate-frame/v3`
    },
    `generation`: {
     `type`: `string`,
     `minLength`: 64,
     `maxLength`: 64,
     `pattern`: `^[0-9a-f]{64}$`
    },
    `challenge`: {
     `type`: `string`,
     `minLength`: 64,
     `maxLength`: 64,
     `pattern`: `^[0-9a-f]{64}$`
    },
    `sequence`: {
     `type`: `integer`,
     `minimum`: 1,
     `maximum`: 2147483647
    },
    `previousDigest`: {
     `type`: `string`,
     `minLength`: 71,
     `maxLength`: 71,
";
"     `pattern`: `^sha256:[0-9a-f]{64}$`
    },
    `direction`: {
     `const`: `GATE_TO_BROKER`
    },
    `operation`: {
     `const`: `ACTION_OUTCOME`
    },
    `payload`: {
     `oneOf`: [
      {
       `oneOf`: [
        {
         `type`: `object`,
         `additionalProperties`: false,
         `required`: [
          `actionId`,
          `admittedBeforeInvalidation`,
          `classification`,
          `httpStatus`,
          `observedResourceVersion`,
          `observedUid`,
          `result`,
          `resultDigest`
         ],
         `properties`: {
          `result`: {
           `const`: `OK`
          },
          `actionId`: {
           `type`: `integer`,
           `minimum`: 1,
           `maximum`: 256
          },
          `classification`: {
           `const`: `NOT_FORWARDED`
          },
          `admittedBeforeInvalidation`: {
           `const`: false
          },
          `httpStatus`: {
           `type`: `null`
          },
          `resultDigest`: {
           `type`: `null`
          },
          `observedUid`: {
           `type`: `null`
          },
          `observedResourceVersion`: {
           `type`: `null`
          }
         }
        },
        {
         `type`: `object`,
         `additionalProperties`: false,
         `required`: [
          `actionId`,
          `admittedBeforeInvalidation`,
";
"          `classification`,
          `httpStatus`,
          `observedResourceVersion`,
          `observedUid`,
          `result`,
          `resultDigest`
         ],
         `properties`: {
          `result`: {
           `const`: `OK`
          },
          `actionId`: {
           `type`: `integer`,
           `minimum`: 1,
           `maximum`: 256
          },
          `classification`: {
           `const`: `DELIVERED_RESULT`
          },
          `admittedBeforeInvalidation`: {
           `type`: `boolean`
          },
          `httpStatus`: {
           `type`: `integer`,
           `minimum`: 100,
           `maximum`: 599
          },
          `resultDigest`: {
           `type`: `string`,
           `minLength`: 71,
           `maxLength`: 71,
           `pattern`: `^sha256:[0-9a-f]{64}$`
          },
          `observedUid`: {
           `oneOf`: [
            {
             `type`: `null`
            },
            {
             `type`: `string`,
             `minLength`: 1,
             `maxLength`: 128,
             `pattern`: `^[A-Za-z0-9-]{1,128}$`
            }
           ]
          },
          `observedResourceVersion`: {
           `oneOf`: [
            {
             `type`: `null`
            },
            {
             `type`: `string`,
             `minLength`: 1,
             `maxLength`: 64,
             `pattern`: `^[A-Za-z0-9]{1,64}$`
            }
           ]
          }
         }
";
"        },
        {
         `type`: `object`,
         `additionalProperties`: false,
         `required`: [
          `actionId`,
          `admittedBeforeInvalidation`,
          `classification`,
          `httpStatus`,
          `observedResourceVersion`,
          `observedUid`,
          `result`,
          `resultDigest`
         ],
         `properties`: {
          `result`: {
           `const`: `OK`
          },
          `actionId`: {
           `type`: `integer`,
           `minimum`: 1,
           `maximum`: 256
          },
          `classification`: {
           `const`: `IO_AMBIGUOUS`
          },
          `admittedBeforeInvalidation`: {
           `type`: `boolean`
          },
          `httpStatus`: {
           `type`: `null`
          },
          `resultDigest`: {
           `type`: `null`
          },
          `observedUid`: {
           `type`: `null`
          },
          `observedResourceVersion`: {
           `type`: `null`
          }
         }
        }
       ]
      },
      {
       `type`: `object`,
       `additionalProperties`: false,
       `required`: [
        `reason`,
        `result`
       ],
       `properties`: {
        `result`: {
         `const`: `REFUSED`
        },
        `reason`: {
         `enum`: [
          `EXECUTION_NOT_BOUND`,
          `UNKNOWN_ACTION`,
";
"          `STORAGE_FAILURE`
         ]
        }
       }
      }
     ]
    }
   }
  },
  {
   `type`: `object`,
   `additionalProperties`: false,
   `required`: [
    `challenge`,
    `direction`,
    `generation`,
    `operation`,
    `payload`,
    `previousDigest`,
    `schemaVersion`,
    `sequence`
   ],
   `properties`: {
    `schemaVersion`: {
     `const`: `planeon.internal.effect-gate-frame/v3`
    },
    `generation`: {
     `type`: `string`,
     `minLength`: 64,
     `maxLength`: 64,
     `pattern`: `^[0-9a-f]{64}$`
    },
    `challenge`: {
     `type`: `string`,
     `minLength`: 64,
     `maxLength`: 64,
     `pattern`: `^[0-9a-f]{64}$`
    },
    `sequence`: {
     `type`: `integer`,
     `minimum`: 1,
     `maximum`: 2147483647
    },
    `previousDigest`: {
     `type`: `string`,
     `minLength`: 71,
     `maxLength`: 71,
     `pattern`: `^sha256:[0-9a-f]{64}$`
    },
    `direction`: {
     `const`: `BROKER_TO_GATE`
    },
    `operation`: {
     `const`: `CLOSE_GENERATION`
    },
    `payload`: {
     `type`: `object`,
     `additionalProperties`: false,
     `required`: [
      `reason`
";
"     ],
     `properties`: {
      `reason`: {
       `enum`: [
        `NORMAL_DRAIN`,
        `REVOCATION`,
        `EXPIRY`,
        `PEER_FAILURE`,
        `STORAGE_FAILURE`,
        `OBSERVATION_FAILURE`,
        `RECONCILIATION_REQUIRED`
       ]
      }
     }
    }
   }
  },
  {
   `type`: `object`,
   `additionalProperties`: false,
   `required`: [
    `challenge`,
    `direction`,
    `generation`,
    `operation`,
    `payload`,
    `previousDigest`,
    `schemaVersion`,
    `sequence`
   ],
   `properties`: {
    `schemaVersion`: {
     `const`: `planeon.internal.effect-gate-frame/v3`
    },
    `generation`: {
     `type`: `string`,
     `minLength`: 64,
     `maxLength`: 64,
     `pattern`: `^[0-9a-f]{64}$`
    },
    `challenge`: {
     `type`: `string`,
     `minLength`: 64,
     `maxLength`: 64,
     `pattern`: `^[0-9a-f]{64}$`
    },
    `sequence`: {
     `type`: `integer`,
     `minimum`: 1,
     `maximum`: 2147483647
    },
    `previousDigest`: {
     `type`: `string`,
     `minLength`: 71,
     `maxLength`: 71,
     `pattern`: `^sha256:[0-9a-f]{64}$`
    },
    `direction`: {
     `const`: `GATE_TO_BROKER`
    },
";
"    `operation`: {
     `const`: `CLOSE_GENERATION`
    },
    `payload`: {
     `oneOf`: [
      {
       `type`: `object`,
       `additionalProperties`: false,
       `required`: [
        `deniedActionIds`,
        `result`,
        `state`
       ],
       `properties`: {
        `result`: {
         `const`: `OK`
        },
        `state`: {
         `enum`: [
          `CLOSED`,
          `INVALIDATED`,
          `HELD`
         ]
        },
        `deniedActionIds`: {
         `type`: `array`,
         `items`: {
          `type`: `integer`,
          `minimum`: 1,
          `maximum`: 256
         },
         `maxItems`: 256,
         `uniqueItems`: true
        }
       }
      },
      {
       `type`: `object`,
       `additionalProperties`: false,
       `required`: [
        `reason`,
        `result`
       ],
       `properties`: {
        `result`: {
         `const`: `REFUSED`
        },
        `reason`: {
         `enum`: [
          `ACTION_IN_FLIGHT`
         ]
        }
       }
      }
     ]
    }
   }
  }
 ]
}
"].

(** [host-enforcement/contracts/i05-v3/outcome-mapping.json]: the outcome mapping. *)
Definition I05_V3_OUTCOME_MAPPING : list Z := embedded [
"{
 `schemaVersion`: `planeon.internal.effect-gate-outcome-mapping/v2`,
 `rows`: [
  {
   `verb`: `CREATE`,
   `classification`: `DELIVERED_RESULT`,
   `httpStatus`: 201,
   `excludeStatus`: [],
   `resourceResults`: [
    `CREATED`
   ],
   `object`: `IDENTITY_MATCH`
  },
  {
   `verb`: `CREATE`,
   `classification`: `DELIVERED_RESULT`,
   `httpStatus`: `4xx`,
   `excludeStatus`: [
    408
   ],
   `resourceResults`: [
    `DENIED`
   ],
   `object`: `ANY`
  },
  {
   `verb`: `GET`,
   `classification`: `DELIVERED_RESULT`,
   `httpStatus`: 200,
   `excludeStatus`: [],
   `resourceResults`: [
    `PRESENT`
   ],
   `object`: `IDENTITY_MATCH`
  },
  {
   `verb`: `GET`,
   `classification`: `DELIVERED_RESULT`,
   `httpStatus`: 404,
   `excludeStatus`: [],
   `resourceResults`: [
    `ABSENT`
   ],
   `object`: `ANY`
  },
  {
   `verb`: `GET`,
   `classification`: `DELIVERED_RESULT`,
   `httpStatus`: `4xx`,
   `excludeStatus`: [],
   `resourceResults`: [
    `DENIED`
   ],
   `object`: `ANY`
  },
  {
   `verb`: `GET`,
   `classification`: `DELIVERED_RESULT`,
   `httpStatus`: `5xx`,
   `excludeStatus`: [],
";
"   `resourceResults`: [
    `AMBIGUOUS`
   ],
   `object`: `ANY`
  },
  {
   `verb`: `DELETE`,
   `classification`: `DELIVERED_RESULT`,
   `httpStatus`: 200,
   `excludeStatus`: [],
   `resourceResults`: [
    `DELETED`
   ],
   `object`: `DELETE_BODY_IF_PRESENT`
  },
  {
   `verb`: `DELETE`,
   `classification`: `DELIVERED_RESULT`,
   `httpStatus`: 202,
   `excludeStatus`: [],
   `resourceResults`: [
    `DELETED`
   ],
   `object`: `DELETE_BODY_IF_PRESENT`
  },
  {
   `verb`: `DELETE`,
   `classification`: `DELIVERED_RESULT`,
   `httpStatus`: 404,
   `excludeStatus`: [],
   `resourceResults`: [
    `ABSENT`
   ],
   `object`: `ANY`
  },
  {
   `verb`: `DELETE`,
   `classification`: `DELIVERED_RESULT`,
   `httpStatus`: `4xx`,
   `excludeStatus`: [
    408
   ],
   `resourceResults`: [
    `DENIED`
   ],
   `object`: `ANY`
  },
  {
   `verb`: `*`,
   `classification`: `NOT_FORWARDED`,
   `httpStatus`: null,
   `excludeStatus`: [],
   `resourceResults`: [
    `DENIED`,
    `AMBIGUOUS`
   ],
   `object`: `NULL`
  },
  {
   `verb`: `*`,
";
"   `classification`: `IO_AMBIGUOUS`,
   `httpStatus`: null,
   `excludeStatus`: [],
   `resourceResults`: [
    `AMBIGUOUS`
   ],
   `object`: `NULL`
  }
 ],
 `objectRules`: {
  `IDENTITY_MATCH`: `objectBase64 required; strictly decoded (duplicate-free, no NaN, depth <= 16), its apiVersion, kind, metadata.namespace and metadata.name equal the armed template and its metadata.uid and metadata.resourceVersion equal the gate's observation`,
  `DELETE_BODY_IF_PRESENT`: `objectBase64 optional; when present it is the kind's DELETE body (deleteResponseBody): an OBJECT under the IDENTITY_MATCH rule, or a v1 Status with status Success whose details.name, details.kind (the resource) and details.uid match, with no resourceVersion observed`,
  `ANY`: `objectBase64 optional and not compared`,
  `NULL`: `objectBase64 must be null`
 },
 `deleteResponseBody`: {
  `Pod`: `OBJECT`,
  `Service`: `OBJECT`,
  `ConfigMap`: `STATUS`
 },
 `upstreamSource`: {
  `repository`: `https://github.com/kubernetes/kubernetes`,
  `tag`: `v1.37.1`,
  `commit`: `f78e722310e50bcaca9276be22276d9e91d91308`,
  `files`: [
   {
    `path`: `pkg/registry/core/configmap/storage/storage.go`,
    `sha256`: `f2cb2988fcde7e8869ff92aa4235f4a8899acd7ecb4f7944fedc2e8ff45170ae`
   },
   {
    `path`: `pkg/registry/core/pod/storage/storage.go`,
    `sha256`: `a781286c7977e0f94ffe5fea9853f79732308548e0cc6d61224d5cd1f460626e`
   },
   {
    `path`: `pkg/registry/core/service/storage/storage.go`,
    `sha256`: `7ba0fe206016002e65080f694cea238f56972ffdd7a91cb62b78ee8878aa59df`
   },
   {
    `path`: `staging/src/k8s.io/apiserver/pkg/endpoints/handlers/delete.go`,
    `sha256`: `e147c00d1c47ef33bf3f9029c5c1ce84ff282ebc021952bf8cae78976456a468`
   },
   {
    `path`: `staging/src/k8s.io/apiserver/pkg/registry/generic/registry/store.go`,
    `sha256`: `b0e1b669df3de70beb228b2be79ce6544439bb36edcf9464633cf40588176ab3`
   }
  ],
  `distributionCheck`: `The Kubernetes distribution is not selected yet (W02). Before the gate is built (W03), these rows and deleteResponseBody are re-checked against the selected distribution's source at its pinned commit.`
 },
 `deleteResponseBodySources`: {
  `Pod`: `pkg/registry/core/pod/storage/storage.go:89 ReturnDeletedObject true`,
  `Service`: `pkg/registry/core/service/storage/storage.go:89 ReturnDeletedObject true`,
  `ConfigMap`: `pkg/registry/core/configmap/storage/storage.go:38-50 leaves ReturnDeletedObject unset; staging/src/k8s.io/apiserver/pkg/registry/generic/registry/store.go:1458-1483 finalizeDelete then returns a Status whose details carry name, group, kind (the resource) and uid`
 },
 `deleteNotImmediate`: `staging/src/k8s.io/apiserver/pkg/registry/generic/registry/store.go:1233-1261: when the deletion is not immediate (graceful deletion or pending finalizers) Store.Delete returns the updated object, not a Status, and the handler answers 200 with it. For Pod and Service the body is the object in both cases. For a ConfigMap with finalizers the STATUS rule refuses the object body (M05), so the broker holds the generation: a known HELD cause that affects liveness only.`,
 `deleteStatus202`: `staging/src/k8s.io/apiserver/pkg/endpoints/handlers/delete.go:188: the handler answers 202 only when the deletion is not immediate and DeleteOptions set orphanDependents false. The gate's DeleteOptions carry only the UID precondition, so the DELETE 202 row is unreachable; it is kept so that such a response is never a disagreement by itself.`,
 `rules`: [
  `A CREATE or DELETE whose response does not settle the outcome (5xx, 408, 1xx, 3xx or another 2xx) is classified IO_AMBIGUOUS by the gate, never DELIVERED_RESULT; only GET maps 5xx to AMBIGUOUS.`,
  `The CREATE and DELETE status-class 4xx rows exclude 408 (excludeStatus): an outcome claiming DELIVERED_RESULT for a CREATE or DELETE 408 matches no row (M02).`,
  `An exact httpStatus row takes precedence over a status-class row; any status without a row has no agreement.`,
  `Only an OK ACTION_OUTCOME is usable; a refused or missing one is a missing outcome.`,
";
"  `Any disagreement, a missing ACTION_OUTCOME or a missing RESOURCE_RESULT is sticky failure: the broker holds the generation HELD and never advances the I02 transcript past the action.`,
  `admittedBeforeInvalidation does not change the mapped outcome; an execution with such an action never ends COMPLETED, and its resources stay owned for exact-UID cleanup.`,
  `Object content beyond identity, UID and resourceVersion is not verified. resultDigest is the gate's digest of the exact relayed response body, kept for reconciliation; RESOURCE_RESULT carries bounded observed-object data (I02 unchanged).`
 ]
}
"].

(** [host-enforcement/contracts/i07-v3/channel.schema.json]: the I07 frame schema. *)
Definition I07_V3_SCHEMA : list Z := embedded [
"{
 `$defs`: {
  `jsonObject`: {
   `additionalProperties`: {
    `$ref`: `#/$defs/jsonValue`
   },
   `maxProperties`: 256,
   `propertyNames`: {
    `maxLength`: 317,
    `minLength`: 1,
    `pattern`: `^[ -~]+$`
   },
   `type`: `object`
  },
  `jsonValue`: {
   `oneOf`: [
    {
     `maxLength`: 16384,
     `pattern`: `^[ -~]*$`,
     `type`: `string`
    },
    {
     `maximum`: 9007199254740991,
     `minimum`: -9007199254740991,
     `type`: `integer`
    },
    {
     `type`: `boolean`
    },
    {
     `type`: `null`
    },
    {
     `items`: {
      `$ref`: `#/$defs/jsonValue`
     },
     `maxItems`: 1024,
     `type`: `array`
    },
    {
     `$ref`: `#/$defs/jsonObject`
    }
   ]
  }
 },
 `$id`: `urn:planeon:internal:policy-write-frame:v3`,
 `$schema`: `https://json-schema.org/draft/2020-12/schema`,
 `oneOf`: [
  {
   `additionalProperties`: false,
   `properties`: {
    `challenge`: {
     `maxLength`: 64,
     `minLength`: 64,
     `pattern`: `^[0-9a-f]{64}$`,
     `type`: `string`
    },
    `direction`: {
     `const`: `WRITER_TO_GATE`
    },
";
"    `operation`: {
     `const`: `MAINTENANCE_STATUS`
    },
    `payload`: {
     `additionalProperties`: false,
     `maxProperties`: 0,
     `properties`: {},
     `type`: `object`
    },
    `previousDigest`: {
     `maxLength`: 71,
     `minLength`: 71,
     `pattern`: `^sha256:[0-9a-f]{64}$`,
     `type`: `string`
    },
    `schemaVersion`: {
     `const`: `planeon.internal.policy-write-frame/v3`
    },
    `sequence`: {
     `maximum`: 2147483647,
     `minimum`: 1,
     `type`: `integer`
    }
   },
   `required`: [
    `challenge`,
    `direction`,
    `operation`,
    `payload`,
    `previousDigest`,
    `schemaVersion`,
    `sequence`
   ],
   `type`: `object`
  },
  {
   `additionalProperties`: false,
   `properties`: {
    `challenge`: {
     `maxLength`: 64,
     `minLength`: 64,
     `pattern`: `^[0-9a-f]{64}$`,
     `type`: `string`
    },
    `direction`: {
     `const`: `GATE_TO_WRITER`
    },
    `operation`: {
     `const`: `MAINTENANCE_STATUS`
    },
    `payload`: {
     `additionalProperties`: false,
     `allOf`: [
      {
       `if`: {
        `properties`: {
         `maintenance`: {
          `enum`: [
           `OPEN`
          ]
";
"         }
        }
       },
       `then`: {
        `properties`: {
         `gateState`: {
          `enum`: [
           `CLOSED`,
           `INVALIDATED`
          ]
         }
        }
       }
      },
      {
       `if`: {
        `properties`: {
         `maintenance`: {
          `enum`: [
           `HELD`
          ]
         }
        }
       },
       `then`: {
        `properties`: {
         `gateState`: {
          `enum`: [
           `HELD`
          ]
         }
        }
       }
      },
      {
       `if`: {
        `properties`: {
         `maintenance`: {
          `enum`: [
           `PENDING`
          ]
         }
        }
       },
       `then`: {
        `properties`: {
         `gateState`: {
          `enum`: [
           `DRAINING`,
           `INVALIDATED`
          ]
         }
        }
       }
      },
      {
       `if`: {
        `properties`: {
         `maintenance`: {
          `enum`: [
";
"           `OPEN`
          ]
         }
        }
       },
       `then`: {
        `properties`: {
         `ambiguousWriteIds`: {
          `maxItems`: 0
         },
         `inFlightActionId`: {
          `type`: `null`
         }
        }
       }
      },
      {
       `if`: {
        `properties`: {
         `ambiguousWriteIds`: {
          `minItems`: 1
         }
        }
       },
       `then`: {
        `properties`: {
         `gateState`: {
          `enum`: [
           `HELD`
          ]
         }
        }
       }
      },
      {
       `if`: {
        `properties`: {
         `maintenance`: {
          `enum`: [
           `ENDED`
          ]
         }
        }
       },
       `then`: {
        `properties`: {
         `gateState`: {
          `enum`: [
           `DRAINING`,
           `CLOSED`,
           `INVALIDATED`,
           `HELD`
          ]
         }
        }
       }
      },
      {
       `if`: {
        `properties`: {
";
"         `maintenance`: {
          `enum`: [
           `PENDING`
          ]
         }
        }
       },
       `then`: {
        `properties`: {
         `inFlightActionId`: {
          `maximum`: 256,
          `minimum`: 1,
          `type`: `integer`
         }
        }
       }
      },
      {
       `if`: {
        `properties`: {
         `gateState`: {
          `enum`: [
           `CLOSED`
          ]
         }
        }
       },
       `then`: {
        `properties`: {
         `inFlightActionId`: {
          `type`: `null`
         }
        }
       }
      }
     ],
     `properties`: {
      `ambiguousWriteIds`: {
       `items`: {
        `maximum`: 256,
        `minimum`: 1,
        `type`: `integer`
       },
       `maxItems`: 256,
       `type`: `array`,
       `uniqueItems`: true
      },
      `gateState`: {
       `enum`: [
        `INSPECTING`,
        `ACTIVE`,
        `DRAINING`,
        `CLOSED`,
        `INVALIDATED`,
        `HELD`
       ]
      },
      `generation`: {
       `maxLength`: 64,
       `minLength`: 64,
";
"       `pattern`: `^[0-9a-f]{64}$`,
       `type`: `string`
      },
      `inFlightActionId`: {
       `oneOf`: [
        {
         `type`: `null`
        },
        {
         `maximum`: 256,
         `minimum`: 1,
         `type`: `integer`
        }
       ]
      },
      `journalDigest`: {
       `maxLength`: 71,
       `minLength`: 71,
       `pattern`: `^sha256:[0-9a-f]{64}$`,
       `type`: `string`
      },
      `maintenance`: {
       `enum`: [
        `NONE`,
        `PENDING`,
        `OPEN`,
        `HELD`,
        `ENDED`
       ]
      },
      `result`: {
       `const`: `OK`
      },
      `writes`: {
       `maximum`: 256,
       `minimum`: 0,
       `type`: `integer`
      }
     },
     `required`: [
      `ambiguousWriteIds`,
      `gateState`,
      `generation`,
      `inFlightActionId`,
      `journalDigest`,
      `maintenance`,
      `result`,
      `writes`
     ],
     `type`: `object`
    },
    `previousDigest`: {
     `maxLength`: 71,
     `minLength`: 71,
     `pattern`: `^sha256:[0-9a-f]{64}$`,
     `type`: `string`
    },
    `schemaVersion`: {
     `const`: `planeon.internal.policy-write-frame/v3`
    },
";
"    `sequence`: {
     `maximum`: 2147483647,
     `minimum`: 1,
     `type`: `integer`
    }
   },
   `required`: [
    `challenge`,
    `direction`,
    `operation`,
    `payload`,
    `previousDigest`,
    `schemaVersion`,
    `sequence`
   ],
   `type`: `object`
  },
  {
   `additionalProperties`: false,
   `properties`: {
    `challenge`: {
     `maxLength`: 64,
     `minLength`: 64,
     `pattern`: `^[0-9a-f]{64}$`,
     `type`: `string`
    },
    `direction`: {
     `const`: `WRITER_TO_GATE`
    },
    `operation`: {
     `const`: `WRITE_BEGIN`
    },
    `payload`: {
     `additionalProperties`: false,
     `properties`: {
      `expectedGeneration`: {
       `maxLength`: 64,
       `minLength`: 64,
       `pattern`: `^[0-9a-f]{64}$`,
       `type`: `string`
      }
     },
     `required`: [
      `expectedGeneration`
     ],
     `type`: `object`
    },
    `previousDigest`: {
     `maxLength`: 71,
     `minLength`: 71,
     `pattern`: `^sha256:[0-9a-f]{64}$`,
     `type`: `string`
    },
    `schemaVersion`: {
     `const`: `planeon.internal.policy-write-frame/v3`
    },
    `sequence`: {
     `maximum`: 2147483647,
     `minimum`: 1,
     `type`: `integer`
";
"    }
   },
   `required`: [
    `challenge`,
    `direction`,
    `operation`,
    `payload`,
    `previousDigest`,
    `schemaVersion`,
    `sequence`
   ],
   `type`: `object`
  },
  {
   `additionalProperties`: false,
   `properties`: {
    `challenge`: {
     `maxLength`: 64,
     `minLength`: 64,
     `pattern`: `^[0-9a-f]{64}$`,
     `type`: `string`
    },
    `direction`: {
     `const`: `GATE_TO_WRITER`
    },
    `operation`: {
     `const`: `WRITE_BEGIN`
    },
    `payload`: {
     `oneOf`: [
      {
       `additionalProperties`: false,
       `allOf`: [
        {
         `if`: {
          `properties`: {
           `maintenance`: {
            `enum`: [
             `OPEN`
            ]
           }
          }
         },
         `then`: {
          `properties`: {
           `gateState`: {
            `enum`: [
             `CLOSED`,
             `INVALIDATED`
            ]
           }
          }
         }
        },
        {
         `if`: {
          `properties`: {
           `maintenance`: {
            `enum`: [
             `HELD`
";
"            ]
           }
          }
         },
         `then`: {
          `properties`: {
           `gateState`: {
            `enum`: [
             `HELD`
            ]
           }
          }
         }
        },
        {
         `if`: {
          `properties`: {
           `maintenance`: {
            `enum`: [
             `PENDING`
            ]
           }
          }
         },
         `then`: {
          `properties`: {
           `gateState`: {
            `enum`: [
             `DRAINING`,
             `INVALIDATED`
            ]
           }
          }
         }
        }
       ],
       `properties`: {
        `deniedActionIds`: {
         `items`: {
          `maximum`: 256,
          `minimum`: 1,
          `type`: `integer`
         },
         `maxItems`: 1,
         `type`: `array`,
         `uniqueItems`: true
        },
        `gateState`: {
         `enum`: [
          `INSPECTING`,
          `ACTIVE`,
          `DRAINING`,
          `CLOSED`,
          `INVALIDATED`,
          `HELD`
         ]
        },
        `maintenance`: {
         `enum`: [
          `PENDING`,
";
"          `OPEN`,
          `HELD`
         ]
        },
        `result`: {
         `const`: `OK`
        }
       },
       `required`: [
        `deniedActionIds`,
        `gateState`,
        `maintenance`,
        `result`
       ],
       `type`: `object`
      },
      {
       `additionalProperties`: false,
       `properties`: {
        `reason`: {
         `enum`: [
          `GENERATION_MISMATCH`,
          `MAINTENANCE_ENDED`,
          `STORAGE_FAILURE`
         ]
        },
        `result`: {
         `const`: `REFUSED`
        }
       },
       `required`: [
        `reason`,
        `result`
       ],
       `type`: `object`
      }
     ]
    },
    `previousDigest`: {
     `maxLength`: 71,
     `minLength`: 71,
     `pattern`: `^sha256:[0-9a-f]{64}$`,
     `type`: `string`
    },
    `schemaVersion`: {
     `const`: `planeon.internal.policy-write-frame/v3`
    },
    `sequence`: {
     `maximum`: 2147483647,
     `minimum`: 1,
     `type`: `integer`
    }
   },
   `required`: [
    `challenge`,
    `direction`,
    `operation`,
    `payload`,
    `previousDigest`,
    `schemaVersion`,
";
"    `sequence`
   ],
   `type`: `object`
  },
  {
   `additionalProperties`: false,
   `properties`: {
    `challenge`: {
     `maxLength`: 64,
     `minLength`: 64,
     `pattern`: `^[0-9a-f]{64}$`,
     `type`: `string`
    },
    `direction`: {
     `const`: `WRITER_TO_GATE`
    },
    `operation`: {
     `const`: `WRITE_OBJECT`
    },
    `payload`: {
     `additionalProperties`: false,
     `properties`: {
      `name`: {
       `maxLength`: 253,
       `minLength`: 1,
       `pattern`: `^[a-z0-9]([-a-z0-9.]{0,251}[a-z0-9])?$`,
       `type`: `string`
      },
      `namespace`: {
       `oneOf`: [
        {
         `type`: `null`
        },
        {
         `maxLength`: 63,
         `minLength`: 1,
         `pattern`: `^[a-z0-9]([-a-z0-9]{0,61}[a-z0-9])?$`,
         `type`: `string`
        }
       ]
      },
      `object`: {
       `oneOf`: [
        {
         `type`: `null`
        },
        {
         `$ref`: `#/$defs/jsonObject`
        }
       ]
      },
      `operation`: {
       `enum`: [
        `CREATE`,
        `UPDATE`,
        `DELETE`
       ]
      },
      `prior`: {
       `oneOf`: [
";
"        {
         `type`: `null`
        },
        {
         `additionalProperties`: false,
         `properties`: {
          `projectionDigest`: {
           `maxLength`: 71,
           `minLength`: 71,
           `pattern`: `^sha256:[0-9a-f]{64}$`,
           `type`: `string`
          },
          `resourceVersion`: {
           `maxLength`: 64,
           `minLength`: 1,
           `pattern`: `^[A-Za-z0-9]{1,64}$`,
           `type`: `string`
          },
          `uid`: {
           `maxLength`: 128,
           `minLength`: 1,
           `pattern`: `^[A-Za-z0-9-]{1,128}$`,
           `type`: `string`
          }
         },
         `required`: [
          `projectionDigest`,
          `resourceVersion`,
          `uid`
         ],
         `type`: `object`
        }
       ]
      },
      `resource`: {
       `additionalProperties`: false,
       `properties`: {
        `group`: {
         `maxLength`: 253,
         `pattern`: `^([a-z0-9]([-a-z0-9.]{0,251}[a-z0-9])?)?$`,
         `type`: `string`
        },
        `resource`: {
         `maxLength`: 63,
         `minLength`: 1,
         `pattern`: `^[a-z][a-z0-9]{0,62}$`,
         `type`: `string`
        },
        `version`: {
         `maxLength`: 20,
         `minLength`: 2,
         `pattern`: `^v[1-9][0-9]*((alpha|beta)[1-9][0-9]*)?$`,
         `type`: `string`
        }
       },
       `required`: [
        `group`,
        `resource`,
        `version`
       ],
";
"       `type`: `object`
      },
      `writeId`: {
       `maximum`: 256,
       `minimum`: 1,
       `type`: `integer`
      }
     },
     `required`: [
      `name`,
      `namespace`,
      `object`,
      `operation`,
      `prior`,
      `resource`,
      `writeId`
     ],
     `type`: `object`
    },
    `previousDigest`: {
     `maxLength`: 71,
     `minLength`: 71,
     `pattern`: `^sha256:[0-9a-f]{64}$`,
     `type`: `string`
    },
    `schemaVersion`: {
     `const`: `planeon.internal.policy-write-frame/v3`
    },
    `sequence`: {
     `maximum`: 2147483647,
     `minimum`: 1,
     `type`: `integer`
    }
   },
   `required`: [
    `challenge`,
    `direction`,
    `operation`,
    `payload`,
    `previousDigest`,
    `schemaVersion`,
    `sequence`
   ],
   `type`: `object`
  },
  {
   `additionalProperties`: false,
   `properties`: {
    `challenge`: {
     `maxLength`: 64,
     `minLength`: 64,
     `pattern`: `^[0-9a-f]{64}$`,
     `type`: `string`
    },
    `direction`: {
     `const`: `GATE_TO_WRITER`
    },
    `operation`: {
     `const`: `WRITE_OBJECT`
    },
";
"    `payload`: {
     `oneOf`: [
      {
       `oneOf`: [
        {
         `additionalProperties`: false,
         `allOf`: [
          {
           `if`: {
            `properties`: {
             `httpStatus`: {
              `minimum`: 400
             }
            }
           },
           `then`: {
            `properties`: {
             `observedResourceVersion`: {
              `type`: `null`
             },
             `observedUid`: {
              `type`: `null`
             }
            }
           }
          }
         ],
         `properties`: {
          `classification`: {
           `const`: `DELIVERED_RESULT`
          },
          `httpStatus`: {
           `anyOf`: [
            {
             `enum`: [
              200,
              201,
              202
             ]
            },
            {
             `maximum`: 499,
             `minimum`: 400,
             `not`: {
              `const`: 408
             },
             `type`: `integer`
            }
           ]
          },
          `observedResourceVersion`: {
           `oneOf`: [
            {
             `type`: `null`
            },
            {
             `maxLength`: 64,
             `minLength`: 1,
             `pattern`: `^[A-Za-z0-9]{1,64}$`,
             `type`: `string`
";
"            }
           ]
          },
          `observedUid`: {
           `oneOf`: [
            {
             `type`: `null`
            },
            {
             `maxLength`: 128,
             `minLength`: 1,
             `pattern`: `^[A-Za-z0-9-]{1,128}$`,
             `type`: `string`
            }
           ]
          },
          `requestDigest`: {
           `maxLength`: 71,
           `minLength`: 71,
           `pattern`: `^sha256:[0-9a-f]{64}$`,
           `type`: `string`
          },
          `result`: {
           `const`: `OK`
          },
          `resultDigest`: {
           `maxLength`: 71,
           `minLength`: 71,
           `pattern`: `^sha256:[0-9a-f]{64}$`,
           `type`: `string`
          },
          `writeId`: {
           `maximum`: 256,
           `minimum`: 1,
           `type`: `integer`
          }
         },
         `required`: [
          `classification`,
          `httpStatus`,
          `observedResourceVersion`,
          `observedUid`,
          `requestDigest`,
          `result`,
          `resultDigest`,
          `writeId`
         ],
         `type`: `object`
        },
        {
         `additionalProperties`: false,
         `properties`: {
          `classification`: {
           `const`: `IO_AMBIGUOUS`
          },
          `httpStatus`: {
           `type`: `null`
          },
          `observedResourceVersion`: {
           `type`: `null`
";
"          },
          `observedUid`: {
           `type`: `null`
          },
          `requestDigest`: {
           `maxLength`: 71,
           `minLength`: 71,
           `pattern`: `^sha256:[0-9a-f]{64}$`,
           `type`: `string`
          },
          `result`: {
           `const`: `OK`
          },
          `resultDigest`: {
           `type`: `null`
          },
          `writeId`: {
           `maximum`: 256,
           `minimum`: 1,
           `type`: `integer`
          }
         },
         `required`: [
          `classification`,
          `httpStatus`,
          `observedResourceVersion`,
          `observedUid`,
          `requestDigest`,
          `result`,
          `resultDigest`,
          `writeId`
         ],
         `type`: `object`
        }
       ]
      },
      {
       `additionalProperties`: false,
       `properties`: {
        `reason`: {
         `enum`: [
          `MAINTENANCE_NOT_OPEN`,
          `MAINTENANCE_HELD`,
          `WRITE_ID_OUT_OF_ORDER`,
          `EFFECT_KIND`,
          `POLICY_KIND_NOT_WRITABLE`,
          `ADMISSION_OBJECT_SEALED`,
          `KIND_OUTSIDE_TABLE`,
          `VERB_NOT_ALLOWED`,
          `SCOPE_MISMATCH`,
          `PRIOR_RULE`,
          `OBJECT_RULE`,
          `STORAGE_FAILURE`
         ]
        },
        `result`: {
         `const`: `REFUSED`
        }
       },
       `required`: [
";
"        `reason`,
        `result`
       ],
       `type`: `object`
      }
     ]
    },
    `previousDigest`: {
     `maxLength`: 71,
     `minLength`: 71,
     `pattern`: `^sha256:[0-9a-f]{64}$`,
     `type`: `string`
    },
    `schemaVersion`: {
     `const`: `planeon.internal.policy-write-frame/v3`
    },
    `sequence`: {
     `maximum`: 2147483647,
     `minimum`: 1,
     `type`: `integer`
    }
   },
   `required`: [
    `challenge`,
    `direction`,
    `operation`,
    `payload`,
    `previousDigest`,
    `schemaVersion`,
    `sequence`
   ],
   `type`: `object`
  },
  {
   `additionalProperties`: false,
   `properties`: {
    `challenge`: {
     `maxLength`: 64,
     `minLength`: 64,
     `pattern`: `^[0-9a-f]{64}$`,
     `type`: `string`
    },
    `direction`: {
     `const`: `WRITER_TO_GATE`
    },
    `operation`: {
     `const`: `WRITE_END`
    },
    `payload`: {
     `additionalProperties`: false,
     `maxProperties`: 0,
     `properties`: {},
     `type`: `object`
    },
    `previousDigest`: {
     `maxLength`: 71,
     `minLength`: 71,
     `pattern`: `^sha256:[0-9a-f]{64}$`,
     `type`: `string`
    },
";
"    `schemaVersion`: {
     `const`: `planeon.internal.policy-write-frame/v3`
    },
    `sequence`: {
     `maximum`: 2147483647,
     `minimum`: 1,
     `type`: `integer`
    }
   },
   `required`: [
    `challenge`,
    `direction`,
    `operation`,
    `payload`,
    `previousDigest`,
    `schemaVersion`,
    `sequence`
   ],
   `type`: `object`
  },
  {
   `additionalProperties`: false,
   `properties`: {
    `challenge`: {
     `maxLength`: 64,
     `minLength`: 64,
     `pattern`: `^[0-9a-f]{64}$`,
     `type`: `string`
    },
    `direction`: {
     `const`: `GATE_TO_WRITER`
    },
    `operation`: {
     `const`: `WRITE_END`
    },
    `payload`: {
     `oneOf`: [
      {
       `additionalProperties`: false,
       `allOf`: [
        {
         `if`: {
          `properties`: {
           `ambiguousWriteIds`: {
            `minItems`: 1
           }
          }
         },
         `then`: {
          `properties`: {
           `gateState`: {
            `enum`: [
             `HELD`
            ]
           }
          }
         }
        }
       ],
       `properties`: {
";
"        `ambiguousWriteIds`: {
         `items`: {
          `maximum`: 256,
          `minimum`: 1,
          `type`: `integer`
         },
         `maxItems`: 256,
         `type`: `array`,
         `uniqueItems`: true
        },
        `gateState`: {
         `enum`: [
          `DRAINING`,
          `CLOSED`,
          `INVALIDATED`,
          `HELD`
         ]
        },
        `maintenance`: {
         `const`: `ENDED`
        },
        `result`: {
         `const`: `OK`
        },
        `writes`: {
         `maximum`: 256,
         `minimum`: 0,
         `type`: `integer`
        }
       },
       `required`: [
        `ambiguousWriteIds`,
        `gateState`,
        `maintenance`,
        `result`,
        `writes`
       ],
       `type`: `object`
      },
      {
       `additionalProperties`: false,
       `properties`: {
        `reason`: {
         `enum`: [
          `MAINTENANCE_NOT_BEGUN`,
          `MAINTENANCE_ENDED`,
          `STORAGE_FAILURE`
         ]
        },
        `result`: {
         `const`: `REFUSED`
        }
       },
       `required`: [
        `reason`,
        `result`
       ],
       `type`: `object`
      }
     ]
";
"    },
    `previousDigest`: {
     `maxLength`: 71,
     `minLength`: 71,
     `pattern`: `^sha256:[0-9a-f]{64}$`,
     `type`: `string`
    },
    `schemaVersion`: {
     `const`: `planeon.internal.policy-write-frame/v3`
    },
    `sequence`: {
     `maximum`: 2147483647,
     `minimum`: 1,
     `type`: `integer`
    }
   },
   `required`: [
    `challenge`,
    `direction`,
    `operation`,
    `payload`,
    `previousDigest`,
    `schemaVersion`,
    `sequence`
   ],
   `type`: `object`
  }
 ],
 `title`: `I07 policy writer to effect gate frame`
}
"].

(** [host-enforcement/contracts/i07-v3/policy-kinds.json]: the policy-kind table. *)
Definition I07_V3_POLICY_KINDS : list Z := embedded [
"{
 `effectKinds`: [
  {
   `group`: ``,
   `kind`: `ConfigMap`,
   `resource`: `configmaps`
  },
  {
   `group`: ``,
   `kind`: `Pod`,
   `resource`: `pods`
  },
  {
   `group`: ``,
   `kind`: `Service`,
   `resource`: `services`
  }
 ],
 `kubernetesVersion`: `v1.37.1`,
 `notWritable`: [
  {
   `disposition`: `REBOOT_MAINTENANCE_ONLY`,
   `group`: `rbac.authorization.k8s.io`,
   `kind`: `ClusterRole`,
   `resource`: `clusterroles`
  },
  {
   `disposition`: `REBOOT_MAINTENANCE_ONLY`,
   `group`: `rbac.authorization.k8s.io`,
   `kind`: `ClusterRoleBinding`,
   `resource`: `clusterrolebindings`
  },
  {
   `disposition`: `MUST_STAY_ABSENT`,
   `group`: `admissionregistration.k8s.io`,
   `kind`: `ValidatingWebhookConfiguration`,
   `resource`: `validatingwebhookconfigurations`
  },
  {
   `disposition`: `MUST_STAY_ABSENT`,
   `group`: `admissionregistration.k8s.io`,
   `kind`: `MutatingWebhookConfiguration`,
   `resource`: `mutatingwebhookconfigurations`
  },
  {
   `disposition`: `MUST_STAY_ABSENT`,
   `group`: `admissionregistration.k8s.io`,
   `kind`: `MutatingAdmissionPolicy`,
   `resource`: `mutatingadmissionpolicies`
  },
  {
   `disposition`: `MUST_STAY_ABSENT`,
   `group`: `admissionregistration.k8s.io`,
   `kind`: `MutatingAdmissionPolicyBinding`,
   `resource`: `mutatingadmissionpolicybindings`
  },
  {
   `disposition`: `MUST_STAY_ABSENT`,
   `group`: `apiregistration.k8s.io`,
   `kind`: `APIService`,
";
"   `resource`: `apiservices`
  },
  {
   `disposition`: `MUST_STAY_ABSENT`,
   `group`: `apiextensions.k8s.io`,
   `kind`: `CustomResourceDefinition`,
   `resource`: `customresourcedefinitions`
  },
  {
   `disposition`: `REBOOT_MAINTENANCE_ONLY`,
   `group`: `certificates.k8s.io`,
   `kind`: `CertificateSigningRequest`,
   `resource`: `certificatesigningrequests`
  },
  {
   `closureResource`: `admissionregistration.k8s.io/validatingadmissionpolicies`,
   `closureScope`: `CLUSTER`,
   `disposition`: `SEALED_STATIC_MANIFEST`,
   `group`: `admissionregistration.k8s.io`,
   `kind`: `ValidatingAdmissionPolicy`,
   `resource`: `validatingadmissionpolicies`
  },
  {
   `closureResource`: `admissionregistration.k8s.io/validatingadmissionpolicybindings`,
   `closureScope`: `CLUSTER`,
   `disposition`: `SEALED_STATIC_MANIFEST`,
   `group`: `admissionregistration.k8s.io`,
   `kind`: `ValidatingAdmissionPolicyBinding`,
   `resource`: `validatingadmissionpolicybindings`
  }
 ],
 `operationVerbs`: {
  `CREATE`: `create`,
  `DELETE`: `delete`,
  `UPDATE`: `update`
 },
 `rbacSideGrants`: {
  `grants`: [
   {
    `resource`: `rbac.authorization.k8s.io/roles`,
    `verb`: `bind`
   },
   {
    `resource`: `rbac.authorization.k8s.io/roles`,
    `verb`: `escalate`
   }
  ],
  `meaning`: `bind and escalate on the two named planeon Roles only. They are not I07 operations: the apiserver's own RBAC escalation check lets a Role or RoleBinding write reference those two Roles. The gate adds no name rule of its own.`,
  `resourceNames`: [
   `planeon-gate-effect`,
   `planeon-policy-observer`
  ]
 },
 `schemaVersion`: `planeon.internal.i07-policy-kinds/v2`,
 `sealedBy`: `architecture/admission-semantics-v2/README.md (W02f, owner decision 2026-10-08): A2 policies live in a sealed static admission manifest directory, and its guard planeon-a2-admission-objects.static.k8s.io denies every API write of admission policies, bindings and webhook configurations; the W02g closure's policy-writer grants for ValidatingAdmissionPolicy and its binding are inert, and no name is writable (W02c R2).`,
 `source`: {
  `identity`: `planeon:policy-writer`,
  `identityClosure`: `architecture/i06-backend-profile/identity-closure.json`,
  `identityClosureSha256`: `sha256:0a9b82ffa2d63bf48a8850574cdf3ece02bf1913f33a72cbb96ed30a40f1f3bb`
 },
";
" `writable`: [
  {
   `closureResource`: `/limitranges`,
   `closureScope`: `QUALIFICATION_NAMESPACE`,
   `group`: ``,
   `kind`: `LimitRange`,
   `operations`: [
    `CREATE`,
    `UPDATE`,
    `DELETE`
   ],
   `resource`: `limitranges`,
   `scope`: `QUALIFICATION_NAMESPACE`,
   `topLevelKeys`: [
    `spec`
   ],
   `unusedVerbs`: [
    `patch`
   ],
   `version`: `v1`
  },
  {
   `closureResource`: `/namespaces`,
   `closureScope`: `QUALIFICATION_NAMESPACE`,
   `group`: ``,
   `kind`: `Namespace`,
   `operations`: [
    `UPDATE`
   ],
   `resource`: `namespaces`,
   `scope`: `QUALIFICATION_NAMESPACE_OBJECT`,
   `topLevelKeys`: [
    `spec`
   ],
   `unusedVerbs`: [
    `patch`
   ],
   `version`: `v1`
  },
  {
   `closureResource`: `/resourcequotas`,
   `closureScope`: `QUALIFICATION_NAMESPACE`,
   `group`: ``,
   `kind`: `ResourceQuota`,
   `operations`: [
    `CREATE`,
    `UPDATE`,
    `DELETE`
   ],
   `resource`: `resourcequotas`,
   `scope`: `QUALIFICATION_NAMESPACE`,
   `topLevelKeys`: [
    `spec`
   ],
   `unusedVerbs`: [
    `patch`
   ],
   `version`: `v1`
  },
  {
";
"   `closureResource`: `/serviceaccounts`,
   `closureScope`: `QUALIFICATION_NAMESPACE`,
   `group`: ``,
   `kind`: `ServiceAccount`,
   `operations`: [
    `CREATE`,
    `UPDATE`,
    `DELETE`
   ],
   `resource`: `serviceaccounts`,
   `scope`: `QUALIFICATION_NAMESPACE`,
   `topLevelKeys`: [
    `automountServiceAccountToken`,
    `imagePullSecrets`,
    `secrets`
   ],
   `unusedVerbs`: [
    `patch`
   ],
   `version`: `v1`
  },
  {
   `closureResource`: `networking.k8s.io/networkpolicies`,
   `closureScope`: `QUALIFICATION_NAMESPACE`,
   `group`: `networking.k8s.io`,
   `kind`: `NetworkPolicy`,
   `operations`: [
    `CREATE`,
    `UPDATE`,
    `DELETE`
   ],
   `resource`: `networkpolicies`,
   `scope`: `QUALIFICATION_NAMESPACE`,
   `topLevelKeys`: [
    `spec`
   ],
   `unusedVerbs`: [
    `patch`
   ],
   `version`: `v1`
  },
  {
   `closureResource`: `rbac.authorization.k8s.io/rolebindings`,
   `closureScope`: `QUALIFICATION_NAMESPACE`,
   `group`: `rbac.authorization.k8s.io`,
   `kind`: `RoleBinding`,
   `operations`: [
    `CREATE`,
    `UPDATE`,
    `DELETE`
   ],
   `resource`: `rolebindings`,
   `scope`: `QUALIFICATION_NAMESPACE`,
   `topLevelKeys`: [
    `roleRef`,
    `subjects`
   ],
   `unusedVerbs`: [
    `patch`
   ],
";
"   `version`: `v1`
  },
  {
   `closureResource`: `rbac.authorization.k8s.io/roles`,
   `closureScope`: `QUALIFICATION_NAMESPACE`,
   `group`: `rbac.authorization.k8s.io`,
   `kind`: `Role`,
   `operations`: [
    `CREATE`,
    `UPDATE`,
    `DELETE`
   ],
   `resource`: `roles`,
   `scope`: `QUALIFICATION_NAMESPACE`,
   `topLevelKeys`: [
    `rules`
   ],
   `unusedVerbs`: [
    `patch`
   ],
   `version`: `v1`
  }
 ]
}
"].

(** [host-enforcement/contracts/broker-handoff-v1/channel.schema.json]: the I02 channel schema. *)
Definition BROKER_HANDOFF_SCHEMA : list Z := embedded [
"{
  `$schema`: `https://json-schema.org/draft/2020-12/schema`,
  `oneOf`: [
    {
      `$ref`: `#/$defs/binding`
    },
    {
      `$ref`: `#/$defs/dispatch`
    },
    {
      `$ref`: `#/$defs/frame`
    },
    {
      `$ref`: `#/$defs/workerStart`
    }
  ],
  `$defs`: {
    `binding`: {
      `type`: `object`,
      `additionalProperties`: false,
      `required`: [
        `schemaVersion`,
        `profileDigest`,
        `observationBindingDigest`,
        `brokerManifestDigest`,
        `brokerExecutableDigest`,
        `workerManifestDigest`,
        `workerArtifactDigest`,
        `caseResourceDigests`
      ],
      `properties`: {
        `schemaVersion`: {
          `const`: `planeon.internal.broker-binding/v1`
        },
        `profileDigest`: {
          `type`: `string`,
          `minLength`: 1,
          `maxLength`: 71,
          `pattern`: `^sha256:[0-9a-f]{64}$`
        },
        `observationBindingDigest`: {
          `type`: `string`,
          `minLength`: 1,
          `maxLength`: 71,
          `pattern`: `^sha256:[0-9a-f]{64}$`
        },
        `brokerManifestDigest`: {
          `type`: `string`,
          `minLength`: 1,
          `maxLength`: 71,
          `pattern`: `^sha256:[0-9a-f]{64}$`
        },
        `brokerExecutableDigest`: {
          `type`: `string`,
          `minLength`: 1,
          `maxLength`: 71,
          `pattern`: `^sha256:[0-9a-f]{64}$`
        },
        `workerManifestDigest`: {
          `type`: `string`,
";
"          `minLength`: 1,
          `maxLength`: 71,
          `pattern`: `^sha256:[0-9a-f]{64}$`
        },
        `workerArtifactDigest`: {
          `type`: `string`,
          `minLength`: 1,
          `maxLength`: 71,
          `pattern`: `^sha256:[0-9a-f]{64}$`
        },
        `caseResourceDigests`: {
          `type`: `object`,
          `additionalProperties`: false,
          `required`: [
            `HOST_ISOLATION_NEGATIVES`,
            `LINUX_TARGET_BUILD`,
            `FULL_PREDECESSOR_REGRESSION`,
            `CONTROL_CONTAINER_STARTUP`,
            `POSTGRES_MIGRATION_AND_RLS`,
            `DURABLE_RESTART`,
            `ARBITRARY_NON_ROOT_UID`,
            `READ_ONLY_ROOT_FILESYSTEM`,
            `KUBERNETES_SMOKE`,
            `DEFAULT_DENY_NETWORK`
          ],
          `properties`: {
            `HOST_ISOLATION_NEGATIVES`: {
              `type`: `array`,
              `items`: {
                `type`: `string`,
                `minLength`: 1,
                `maxLength`: 71,
                `pattern`: `^sha256:[0-9a-f]{64}$`
              },
              `maxItems`: 32,
              `minItems`: 0,
              `uniqueItems`: true
            },
            `LINUX_TARGET_BUILD`: {
              `type`: `array`,
              `items`: {
                `type`: `string`,
                `minLength`: 1,
                `maxLength`: 71,
                `pattern`: `^sha256:[0-9a-f]{64}$`
              },
              `maxItems`: 32,
              `minItems`: 0,
              `uniqueItems`: true
            },
            `FULL_PREDECESSOR_REGRESSION`: {
              `type`: `array`,
              `items`: {
                `type`: `string`,
                `minLength`: 1,
                `maxLength`: 71,
                `pattern`: `^sha256:[0-9a-f]{64}$`
              },
              `maxItems`: 32,
              `minItems`: 0,
";
"              `uniqueItems`: true
            },
            `CONTROL_CONTAINER_STARTUP`: {
              `type`: `array`,
              `items`: {
                `type`: `string`,
                `minLength`: 1,
                `maxLength`: 71,
                `pattern`: `^sha256:[0-9a-f]{64}$`
              },
              `maxItems`: 32,
              `minItems`: 0,
              `uniqueItems`: true
            },
            `POSTGRES_MIGRATION_AND_RLS`: {
              `type`: `array`,
              `items`: {
                `type`: `string`,
                `minLength`: 1,
                `maxLength`: 71,
                `pattern`: `^sha256:[0-9a-f]{64}$`
              },
              `maxItems`: 32,
              `minItems`: 0,
              `uniqueItems`: true
            },
            `DURABLE_RESTART`: {
              `type`: `array`,
              `items`: {
                `type`: `string`,
                `minLength`: 1,
                `maxLength`: 71,
                `pattern`: `^sha256:[0-9a-f]{64}$`
              },
              `maxItems`: 32,
              `minItems`: 0,
              `uniqueItems`: true
            },
            `ARBITRARY_NON_ROOT_UID`: {
              `type`: `array`,
              `items`: {
                `type`: `string`,
                `minLength`: 1,
                `maxLength`: 71,
                `pattern`: `^sha256:[0-9a-f]{64}$`
              },
              `maxItems`: 32,
              `minItems`: 0,
              `uniqueItems`: true
            },
            `READ_ONLY_ROOT_FILESYSTEM`: {
              `type`: `array`,
              `items`: {
                `type`: `string`,
                `minLength`: 1,
                `maxLength`: 71,
                `pattern`: `^sha256:[0-9a-f]{64}$`
              },
              `maxItems`: 32,
              `minItems`: 0,
";
"              `uniqueItems`: true
            },
            `KUBERNETES_SMOKE`: {
              `type`: `array`,
              `items`: {
                `type`: `string`,
                `minLength`: 1,
                `maxLength`: 71,
                `pattern`: `^sha256:[0-9a-f]{64}$`
              },
              `maxItems`: 32,
              `minItems`: 0,
              `uniqueItems`: true
            },
            `DEFAULT_DENY_NETWORK`: {
              `type`: `array`,
              `items`: {
                `type`: `string`,
                `minLength`: 1,
                `maxLength`: 71,
                `pattern`: `^sha256:[0-9a-f]{64}$`
              },
              `maxItems`: 32,
              `minItems`: 0,
              `uniqueItems`: true
            }
          }
        }
      }
    },
    `dispatch`: {
      `type`: `object`,
      `additionalProperties`: false,
      `required`: [
        `schemaVersion`,
        `operation`,
        `bindingDigest`,
        `reservationDigest`,
        `runNonce`,
        `caseId`,
        `requestDigest`,
        `observationDigest`,
        `generation`,
        `challenge`
      ],
      `properties`: {
        `schemaVersion`: {
          `const`: `planeon.internal.broker-dispatch/v1`
        },
        `operation`: {
          `const`: `EXECUTE_FIXED_PROBE`
        },
        `bindingDigest`: {
          `type`: `string`,
          `minLength`: 1,
          `maxLength`: 71,
          `pattern`: `^sha256:[0-9a-f]{64}$`
        },
        `reservationDigest`: {
          `type`: `string`,
";
"          `minLength`: 1,
          `maxLength`: 71,
          `pattern`: `^sha256:[0-9a-f]{64}$`
        },
        `runNonce`: {
          `type`: `string`,
          `minLength`: 1,
          `maxLength`: 63,
          `pattern`: `^[a-z0-9][a-z0-9.-]{0,62}$`
        },
        `caseId`: {
          `enum`: [
            `HOST_ISOLATION_NEGATIVES`,
            `LINUX_TARGET_BUILD`,
            `FULL_PREDECESSOR_REGRESSION`,
            `CONTROL_CONTAINER_STARTUP`,
            `POSTGRES_MIGRATION_AND_RLS`,
            `DURABLE_RESTART`,
            `ARBITRARY_NON_ROOT_UID`,
            `READ_ONLY_ROOT_FILESYSTEM`,
            `KUBERNETES_SMOKE`,
            `DEFAULT_DENY_NETWORK`
          ]
        },
        `requestDigest`: {
          `type`: `string`,
          `minLength`: 1,
          `maxLength`: 71,
          `pattern`: `^sha256:[0-9a-f]{64}$`
        },
        `observationDigest`: {
          `type`: `string`,
          `minLength`: 1,
          `maxLength`: 71,
          `pattern`: `^sha256:[0-9a-f]{64}$`
        },
        `generation`: {
          `type`: `string`,
          `minLength`: 1,
          `maxLength`: 64,
          `pattern`: `^[0-9a-f]{64}$`
        },
        `challenge`: {
          `type`: `string`,
          `minLength`: 1,
          `maxLength`: 64,
          `pattern`: `^[0-9a-f]{64}$`
        }
      }
    },
    `frame`: {
      `oneOf`: [
        {
          `type`: `object`,
          `additionalProperties`: false,
          `required`: [
            `schemaVersion`,
            `bindingDigest`,
            `reservationDigest`,
            `runNonce`,
";
"            `caseId`,
            `requestDigest`,
            `observationDigest`,
            `generation`,
            `challenge`,
            `executionId`,
            `sequence`,
            `previousDigest`,
            `kind`,
            `payload`
          ],
          `properties`: {
            `schemaVersion`: {
              `const`: `planeon.internal.broker-frame/v1`
            },
            `bindingDigest`: {
              `type`: `string`,
              `minLength`: 1,
              `maxLength`: 71,
              `pattern`: `^sha256:[0-9a-f]{64}$`
            },
            `reservationDigest`: {
              `type`: `string`,
              `minLength`: 1,
              `maxLength`: 71,
              `pattern`: `^sha256:[0-9a-f]{64}$`
            },
            `runNonce`: {
              `type`: `string`,
              `minLength`: 1,
              `maxLength`: 63,
              `pattern`: `^[a-z0-9][a-z0-9.-]{0,62}$`
            },
            `caseId`: {
              `enum`: [
                `HOST_ISOLATION_NEGATIVES`,
                `LINUX_TARGET_BUILD`,
                `FULL_PREDECESSOR_REGRESSION`,
                `CONTROL_CONTAINER_STARTUP`,
                `POSTGRES_MIGRATION_AND_RLS`,
                `DURABLE_RESTART`,
                `ARBITRARY_NON_ROOT_UID`,
                `READ_ONLY_ROOT_FILESYSTEM`,
                `KUBERNETES_SMOKE`,
                `DEFAULT_DENY_NETWORK`
              ]
            },
            `requestDigest`: {
              `type`: `string`,
              `minLength`: 1,
              `maxLength`: 71,
              `pattern`: `^sha256:[0-9a-f]{64}$`
            },
            `observationDigest`: {
              `type`: `string`,
              `minLength`: 1,
              `maxLength`: 71,
              `pattern`: `^sha256:[0-9a-f]{64}$`
            },
            `generation`: {
";
"              `type`: `string`,
              `minLength`: 1,
              `maxLength`: 64,
              `pattern`: `^[0-9a-f]{64}$`
            },
            `challenge`: {
              `type`: `string`,
              `minLength`: 1,
              `maxLength`: 64,
              `pattern`: `^[0-9a-f]{64}$`
            },
            `executionId`: {
              `type`: `string`,
              `minLength`: 1,
              `maxLength`: 64,
              `pattern`: `^[0-9a-f]{64}$`
            },
            `sequence`: {
              `type`: `integer`,
              `minimum`: 1,
              `maximum`: 2048
            },
            `previousDigest`: {
              `type`: `string`,
              `minLength`: 1,
              `maxLength`: 71,
              `pattern`: `^sha256:[0-9a-f]{64}$`
            },
            `kind`: {
              `const`: `STARTED`
            },
            `payload`: {
              `type`: `object`,
              `additionalProperties`: false,
              `required`: [
                `workerPid`,
                `workerStartTicks`
              ],
              `properties`: {
                `workerPid`: {
                  `type`: `integer`,
                  `minimum`: 2,
                  `maximum`: 2147483647
                },
                `workerStartTicks`: {
                  `type`: `integer`,
                  `minimum`: 1,
                  `maximum`: 9007199254740991
                }
              }
            }
          }
        },
        {
          `type`: `object`,
          `additionalProperties`: false,
          `required`: [
            `schemaVersion`,
            `bindingDigest`,
            `reservationDigest`,
";
"            `runNonce`,
            `caseId`,
            `requestDigest`,
            `observationDigest`,
            `generation`,
            `challenge`,
            `executionId`,
            `sequence`,
            `previousDigest`,
            `kind`,
            `payload`
          ],
          `properties`: {
            `schemaVersion`: {
              `const`: `planeon.internal.broker-frame/v1`
            },
            `bindingDigest`: {
              `type`: `string`,
              `minLength`: 1,
              `maxLength`: 71,
              `pattern`: `^sha256:[0-9a-f]{64}$`
            },
            `reservationDigest`: {
              `type`: `string`,
              `minLength`: 1,
              `maxLength`: 71,
              `pattern`: `^sha256:[0-9a-f]{64}$`
            },
            `runNonce`: {
              `type`: `string`,
              `minLength`: 1,
              `maxLength`: 63,
              `pattern`: `^[a-z0-9][a-z0-9.-]{0,62}$`
            },
            `caseId`: {
              `enum`: [
                `HOST_ISOLATION_NEGATIVES`,
                `LINUX_TARGET_BUILD`,
                `FULL_PREDECESSOR_REGRESSION`,
                `CONTROL_CONTAINER_STARTUP`,
                `POSTGRES_MIGRATION_AND_RLS`,
                `DURABLE_RESTART`,
                `ARBITRARY_NON_ROOT_UID`,
                `READ_ONLY_ROOT_FILESYSTEM`,
                `KUBERNETES_SMOKE`,
                `DEFAULT_DENY_NETWORK`
              ]
            },
            `requestDigest`: {
              `type`: `string`,
              `minLength`: 1,
              `maxLength`: 71,
              `pattern`: `^sha256:[0-9a-f]{64}$`
            },
            `observationDigest`: {
              `type`: `string`,
              `minLength`: 1,
              `maxLength`: 71,
              `pattern`: `^sha256:[0-9a-f]{64}$`
            },
";
"            `generation`: {
              `type`: `string`,
              `minLength`: 1,
              `maxLength`: 64,
              `pattern`: `^[0-9a-f]{64}$`
            },
            `challenge`: {
              `type`: `string`,
              `minLength`: 1,
              `maxLength`: 64,
              `pattern`: `^[0-9a-f]{64}$`
            },
            `executionId`: {
              `type`: `string`,
              `minLength`: 1,
              `maxLength`: 64,
              `pattern`: `^[0-9a-f]{64}$`
            },
            `sequence`: {
              `type`: `integer`,
              `minimum`: 1,
              `maximum`: 2048
            },
            `previousDigest`: {
              `type`: `string`,
              `minLength`: 1,
              `maxLength`: 71,
              `pattern`: `^sha256:[0-9a-f]{64}$`
            },
            `kind`: {
              `const`: `RESOURCE_ACTION`
            },
            `payload`: {
              `type`: `object`,
              `additionalProperties`: false,
              `required`: [
                `actionId`,
                `verb`,
                `manifestDigest`
              ],
              `properties`: {
                `actionId`: {
                  `type`: `integer`,
                  `minimum`: 1,
                  `maximum`: 256
                },
                `verb`: {
                  `enum`: [
                    `CREATE`,
                    `GET`,
                    `DELETE`
                  ]
                },
                `manifestDigest`: {
                  `type`: `string`,
                  `minLength`: 1,
                  `maxLength`: 71,
                  `pattern`: `^sha256:[0-9a-f]{64}$`
                }
              }
";
"            }
          }
        },
        {
          `type`: `object`,
          `additionalProperties`: false,
          `required`: [
            `schemaVersion`,
            `bindingDigest`,
            `reservationDigest`,
            `runNonce`,
            `caseId`,
            `requestDigest`,
            `observationDigest`,
            `generation`,
            `challenge`,
            `executionId`,
            `sequence`,
            `previousDigest`,
            `kind`,
            `payload`
          ],
          `properties`: {
            `schemaVersion`: {
              `const`: `planeon.internal.broker-frame/v1`
            },
            `bindingDigest`: {
              `type`: `string`,
              `minLength`: 1,
              `maxLength`: 71,
              `pattern`: `^sha256:[0-9a-f]{64}$`
            },
            `reservationDigest`: {
              `type`: `string`,
              `minLength`: 1,
              `maxLength`: 71,
              `pattern`: `^sha256:[0-9a-f]{64}$`
            },
            `runNonce`: {
              `type`: `string`,
              `minLength`: 1,
              `maxLength`: 63,
              `pattern`: `^[a-z0-9][a-z0-9.-]{0,62}$`
            },
            `caseId`: {
              `enum`: [
                `HOST_ISOLATION_NEGATIVES`,
                `LINUX_TARGET_BUILD`,
                `FULL_PREDECESSOR_REGRESSION`,
                `CONTROL_CONTAINER_STARTUP`,
                `POSTGRES_MIGRATION_AND_RLS`,
                `DURABLE_RESTART`,
                `ARBITRARY_NON_ROOT_UID`,
                `READ_ONLY_ROOT_FILESYSTEM`,
                `KUBERNETES_SMOKE`,
                `DEFAULT_DENY_NETWORK`
              ]
            },
            `requestDigest`: {
              `type`: `string`,
";
"              `minLength`: 1,
              `maxLength`: 71,
              `pattern`: `^sha256:[0-9a-f]{64}$`
            },
            `observationDigest`: {
              `type`: `string`,
              `minLength`: 1,
              `maxLength`: 71,
              `pattern`: `^sha256:[0-9a-f]{64}$`
            },
            `generation`: {
              `type`: `string`,
              `minLength`: 1,
              `maxLength`: 64,
              `pattern`: `^[0-9a-f]{64}$`
            },
            `challenge`: {
              `type`: `string`,
              `minLength`: 1,
              `maxLength`: 64,
              `pattern`: `^[0-9a-f]{64}$`
            },
            `executionId`: {
              `type`: `string`,
              `minLength`: 1,
              `maxLength`: 64,
              `pattern`: `^[0-9a-f]{64}$`
            },
            `sequence`: {
              `type`: `integer`,
              `minimum`: 1,
              `maximum`: 2048
            },
            `previousDigest`: {
              `type`: `string`,
              `minLength`: 1,
              `maxLength`: 71,
              `pattern`: `^sha256:[0-9a-f]{64}$`
            },
            `kind`: {
              `const`: `RESOURCE_RESULT`
            },
            `payload`: {
              `type`: `object`,
              `additionalProperties`: false,
              `required`: [
                `actionId`,
                `outcome`,
                `objectBase64`
              ],
              `properties`: {
                `actionId`: {
                  `type`: `integer`,
                  `minimum`: 1,
                  `maximum`: 256
                },
                `outcome`: {
                  `enum`: [
                    `ABSENT`,
                    `CREATED`,
";
"                    `PRESENT`,
                    `DELETED`,
                    `DENIED`,
                    `AMBIGUOUS`
                  ]
                },
                `objectBase64`: {
                  `oneOf`: [
                    {
                      `type`: `null`
                    },
                    {
                      `type`: `string`,
                      `minLength`: 4,
                      `maxLength`: 21848,
                      `pattern`: `^[A-Za-z0-9+/]+={0,2}$`
                    }
                  ]
                }
              }
            }
          }
        },
        {
          `type`: `object`,
          `additionalProperties`: false,
          `required`: [
            `schemaVersion`,
            `bindingDigest`,
            `reservationDigest`,
            `runNonce`,
            `caseId`,
            `requestDigest`,
            `observationDigest`,
            `generation`,
            `challenge`,
            `executionId`,
            `sequence`,
            `previousDigest`,
            `kind`,
            `payload`
          ],
          `properties`: {
            `schemaVersion`: {
              `const`: `planeon.internal.broker-frame/v1`
            },
            `bindingDigest`: {
              `type`: `string`,
              `minLength`: 1,
              `maxLength`: 71,
              `pattern`: `^sha256:[0-9a-f]{64}$`
            },
            `reservationDigest`: {
              `type`: `string`,
              `minLength`: 1,
              `maxLength`: 71,
              `pattern`: `^sha256:[0-9a-f]{64}$`
            },
            `runNonce`: {
              `type`: `string`,
";
"              `minLength`: 1,
              `maxLength`: 63,
              `pattern`: `^[a-z0-9][a-z0-9.-]{0,62}$`
            },
            `caseId`: {
              `enum`: [
                `HOST_ISOLATION_NEGATIVES`,
                `LINUX_TARGET_BUILD`,
                `FULL_PREDECESSOR_REGRESSION`,
                `CONTROL_CONTAINER_STARTUP`,
                `POSTGRES_MIGRATION_AND_RLS`,
                `DURABLE_RESTART`,
                `ARBITRARY_NON_ROOT_UID`,
                `READ_ONLY_ROOT_FILESYSTEM`,
                `KUBERNETES_SMOKE`,
                `DEFAULT_DENY_NETWORK`
              ]
            },
            `requestDigest`: {
              `type`: `string`,
              `minLength`: 1,
              `maxLength`: 71,
              `pattern`: `^sha256:[0-9a-f]{64}$`
            },
            `observationDigest`: {
              `type`: `string`,
              `minLength`: 1,
              `maxLength`: 71,
              `pattern`: `^sha256:[0-9a-f]{64}$`
            },
            `generation`: {
              `type`: `string`,
              `minLength`: 1,
              `maxLength`: 64,
              `pattern`: `^[0-9a-f]{64}$`
            },
            `challenge`: {
              `type`: `string`,
              `minLength`: 1,
              `maxLength`: 64,
              `pattern`: `^[0-9a-f]{64}$`
            },
            `executionId`: {
              `type`: `string`,
              `minLength`: 1,
              `maxLength`: 64,
              `pattern`: `^[0-9a-f]{64}$`
            },
            `sequence`: {
              `type`: `integer`,
              `minimum`: 1,
              `maximum`: 2048
            },
            `previousDigest`: {
              `type`: `string`,
              `minLength`: 1,
              `maxLength`: 71,
              `pattern`: `^sha256:[0-9a-f]{64}$`
            },
            `kind`: {
";
"              `const`: `RECEIPT_CHUNK`
            },
            `payload`: {
              `type`: `object`,
              `additionalProperties`: false,
              `required`: [
                `index`,
                `dataBase64`
              ],
              `properties`: {
                `index`: {
                  `type`: `integer`,
                  `minimum`: 0,
                  `maximum`: 170
                },
                `dataBase64`: {
                  `type`: `string`,
                  `minLength`: 4,
                  `maxLength`: 32768,
                  `pattern`: `^[A-Za-z0-9+/]+={0,2}$`
                }
              }
            }
          }
        },
        {
          `type`: `object`,
          `additionalProperties`: false,
          `required`: [
            `schemaVersion`,
            `bindingDigest`,
            `reservationDigest`,
            `runNonce`,
            `caseId`,
            `requestDigest`,
            `observationDigest`,
            `generation`,
            `challenge`,
            `executionId`,
            `sequence`,
            `previousDigest`,
            `kind`,
            `payload`
          ],
          `properties`: {
            `schemaVersion`: {
              `const`: `planeon.internal.broker-frame/v1`
            },
            `bindingDigest`: {
              `type`: `string`,
              `minLength`: 1,
              `maxLength`: 71,
              `pattern`: `^sha256:[0-9a-f]{64}$`
            },
            `reservationDigest`: {
              `type`: `string`,
              `minLength`: 1,
              `maxLength`: 71,
              `pattern`: `^sha256:[0-9a-f]{64}$`
            },
";
"            `runNonce`: {
              `type`: `string`,
              `minLength`: 1,
              `maxLength`: 63,
              `pattern`: `^[a-z0-9][a-z0-9.-]{0,62}$`
            },
            `caseId`: {
              `enum`: [
                `HOST_ISOLATION_NEGATIVES`,
                `LINUX_TARGET_BUILD`,
                `FULL_PREDECESSOR_REGRESSION`,
                `CONTROL_CONTAINER_STARTUP`,
                `POSTGRES_MIGRATION_AND_RLS`,
                `DURABLE_RESTART`,
                `ARBITRARY_NON_ROOT_UID`,
                `READ_ONLY_ROOT_FILESYSTEM`,
                `KUBERNETES_SMOKE`,
                `DEFAULT_DENY_NETWORK`
              ]
            },
            `requestDigest`: {
              `type`: `string`,
              `minLength`: 1,
              `maxLength`: 71,
              `pattern`: `^sha256:[0-9a-f]{64}$`
            },
            `observationDigest`: {
              `type`: `string`,
              `minLength`: 1,
              `maxLength`: 71,
              `pattern`: `^sha256:[0-9a-f]{64}$`
            },
            `generation`: {
              `type`: `string`,
              `minLength`: 1,
              `maxLength`: 64,
              `pattern`: `^[0-9a-f]{64}$`
            },
            `challenge`: {
              `type`: `string`,
              `minLength`: 1,
              `maxLength`: 64,
              `pattern`: `^[0-9a-f]{64}$`
            },
            `executionId`: {
              `type`: `string`,
              `minLength`: 1,
              `maxLength`: 64,
              `pattern`: `^[0-9a-f]{64}$`
            },
            `sequence`: {
              `type`: `integer`,
              `minimum`: 1,
              `maximum`: 2048
            },
            `previousDigest`: {
              `type`: `string`,
              `minLength`: 1,
              `maxLength`: 71,
              `pattern`: `^sha256:[0-9a-f]{64}$`
";
"            },
            `kind`: {
              `const`: `CLEANUP_RECORDED`
            },
            `payload`: {
              `type`: `object`,
              `additionalProperties`: false,
              `required`: [
                `cleanupDigest`,
                `state`,
                `remainingResources`
              ],
              `properties`: {
                `cleanupDigest`: {
                  `type`: `string`,
                  `minLength`: 1,
                  `maxLength`: 71,
                  `pattern`: `^sha256:[0-9a-f]{64}$`
                },
                `state`: {
                  `enum`: [
                    `CLEAN`,
                    `CLEANUP_PENDING`
                  ]
                },
                `remainingResources`: {
                  `type`: `array`,
                  `items`: {
                    `type`: `object`,
                    `additionalProperties`: false,
                    `required`: [
                      `apiVersion`,
                      `kind`,
                      `namespace`,
                      `name`,
                      `uid`,
                      `manifestDigest`,
                      `reasonCode`
                    ],
                    `properties`: {
                      `apiVersion`: {
                        `const`: `v1`
                      },
                      `kind`: {
                        `enum`: [
                          `Pod`,
                          `ConfigMap`,
                          `Service`
                        ]
                      },
                      `namespace`: {
                        `type`: `string`,
                        `minLength`: 1,
                        `maxLength`: 63,
                        `pattern`: `^[a-z0-9][a-z0-9.-]{0,62}$`
                      },
                      `name`: {
                        `type`: `string`,
                        `minLength`: 1,
                        `maxLength`: 63,
";
"                        `pattern`: `^[a-z0-9][a-z0-9.-]{0,62}$`
                      },
                      `uid`: {
                        `oneOf`: [
                          {
                            `type`: `null`
                          },
                          {
                            `type`: `string`,
                            `minLength`: 1,
                            `maxLength`: 128,
                            `pattern`: `^[A-Za-z0-9-]{1,128}$`
                          }
                        ]
                      },
                      `manifestDigest`: {
                        `type`: `string`,
                        `minLength`: 1,
                        `maxLength`: 71,
                        `pattern`: `^sha256:[0-9a-f]{64}$`
                      },
                      `reasonCode`: {
                        `enum`: [
                          `DELETE_DENIED`,
                          `UID_CHANGED`,
                          `DEADLINE`,
                          `IO_AMBIGUOUS`,
                          `OBSERVATION_UNAVAILABLE`
                        ]
                      }
                    }
                  },
                  `maxItems`: 32,
                  `minItems`: 0,
                  `uniqueItems`: true
                }
              }
            }
          }
        },
        {
          `type`: `object`,
          `additionalProperties`: false,
          `required`: [
            `schemaVersion`,
            `bindingDigest`,
            `reservationDigest`,
            `runNonce`,
            `caseId`,
            `requestDigest`,
            `observationDigest`,
            `generation`,
            `challenge`,
            `executionId`,
            `sequence`,
            `previousDigest`,
            `kind`,
            `payload`
          ],
          `properties`: {
";
"            `schemaVersion`: {
              `const`: `planeon.internal.broker-frame/v1`
            },
            `bindingDigest`: {
              `type`: `string`,
              `minLength`: 1,
              `maxLength`: 71,
              `pattern`: `^sha256:[0-9a-f]{64}$`
            },
            `reservationDigest`: {
              `type`: `string`,
              `minLength`: 1,
              `maxLength`: 71,
              `pattern`: `^sha256:[0-9a-f]{64}$`
            },
            `runNonce`: {
              `type`: `string`,
              `minLength`: 1,
              `maxLength`: 63,
              `pattern`: `^[a-z0-9][a-z0-9.-]{0,62}$`
            },
            `caseId`: {
              `enum`: [
                `HOST_ISOLATION_NEGATIVES`,
                `LINUX_TARGET_BUILD`,
                `FULL_PREDECESSOR_REGRESSION`,
                `CONTROL_CONTAINER_STARTUP`,
                `POSTGRES_MIGRATION_AND_RLS`,
                `DURABLE_RESTART`,
                `ARBITRARY_NON_ROOT_UID`,
                `READ_ONLY_ROOT_FILESYSTEM`,
                `KUBERNETES_SMOKE`,
                `DEFAULT_DENY_NETWORK`
              ]
            },
            `requestDigest`: {
              `type`: `string`,
              `minLength`: 1,
              `maxLength`: 71,
              `pattern`: `^sha256:[0-9a-f]{64}$`
            },
            `observationDigest`: {
              `type`: `string`,
              `minLength`: 1,
              `maxLength`: 71,
              `pattern`: `^sha256:[0-9a-f]{64}$`
            },
            `generation`: {
              `type`: `string`,
              `minLength`: 1,
              `maxLength`: 64,
              `pattern`: `^[0-9a-f]{64}$`
            },
            `challenge`: {
              `type`: `string`,
              `minLength`: 1,
              `maxLength`: 64,
              `pattern`: `^[0-9a-f]{64}$`
            },
            `executionId`: {
";
"              `type`: `string`,
              `minLength`: 1,
              `maxLength`: 64,
              `pattern`: `^[0-9a-f]{64}$`
            },
            `sequence`: {
              `type`: `integer`,
              `minimum`: 1,
              `maximum`: 2048
            },
            `previousDigest`: {
              `type`: `string`,
              `minLength`: 1,
              `maxLength`: 71,
              `pattern`: `^sha256:[0-9a-f]{64}$`
            },
            `kind`: {
              `const`: `TERMINAL`
            },
            `payload`: {
              `type`: `object`,
              `additionalProperties`: false,
              `required`: [
                `status`,
                `receiptSize`,
                `receiptDigest`,
                `cleanupDigest`,
                `workerReaped`
              ],
              `properties`: {
                `status`: {
                  `enum`: [
                    `COMPLETED`,
                    `FAILED`,
                    `UNAVAILABLE`
                  ]
                },
                `receiptSize`: {
                  `type`: `integer`,
                  `minimum`: 1,
                  `maximum`: 4194304
                },
                `receiptDigest`: {
                  `type`: `string`,
                  `minLength`: 1,
                  `maxLength`: 71,
                  `pattern`: `^sha256:[0-9a-f]{64}$`
                },
                `cleanupDigest`: {
                  `type`: `string`,
                  `minLength`: 1,
                  `maxLength`: 71,
                  `pattern`: `^sha256:[0-9a-f]{64}$`
                },
                `workerReaped`: {
                  `const`: true
                }
              }
            }
          }
";
"        },
        {
          `type`: `object`,
          `additionalProperties`: false,
          `required`: [
            `schemaVersion`,
            `bindingDigest`,
            `reservationDigest`,
            `runNonce`,
            `caseId`,
            `requestDigest`,
            `observationDigest`,
            `generation`,
            `challenge`,
            `executionId`,
            `sequence`,
            `previousDigest`,
            `kind`,
            `payload`
          ],
          `properties`: {
            `schemaVersion`: {
              `const`: `planeon.internal.broker-frame/v1`
            },
            `bindingDigest`: {
              `type`: `string`,
              `minLength`: 1,
              `maxLength`: 71,
              `pattern`: `^sha256:[0-9a-f]{64}$`
            },
            `reservationDigest`: {
              `type`: `string`,
              `minLength`: 1,
              `maxLength`: 71,
              `pattern`: `^sha256:[0-9a-f]{64}$`
            },
            `runNonce`: {
              `type`: `string`,
              `minLength`: 1,
              `maxLength`: 63,
              `pattern`: `^[a-z0-9][a-z0-9.-]{0,62}$`
            },
            `caseId`: {
              `enum`: [
                `HOST_ISOLATION_NEGATIVES`,
                `LINUX_TARGET_BUILD`,
                `FULL_PREDECESSOR_REGRESSION`,
                `CONTROL_CONTAINER_STARTUP`,
                `POSTGRES_MIGRATION_AND_RLS`,
                `DURABLE_RESTART`,
                `ARBITRARY_NON_ROOT_UID`,
                `READ_ONLY_ROOT_FILESYSTEM`,
                `KUBERNETES_SMOKE`,
                `DEFAULT_DENY_NETWORK`
              ]
            },
            `requestDigest`: {
              `type`: `string`,
              `minLength`: 1,
              `maxLength`: 71,
";
"              `pattern`: `^sha256:[0-9a-f]{64}$`
            },
            `observationDigest`: {
              `type`: `string`,
              `minLength`: 1,
              `maxLength`: 71,
              `pattern`: `^sha256:[0-9a-f]{64}$`
            },
            `generation`: {
              `type`: `string`,
              `minLength`: 1,
              `maxLength`: 64,
              `pattern`: `^[0-9a-f]{64}$`
            },
            `challenge`: {
              `type`: `string`,
              `minLength`: 1,
              `maxLength`: 64,
              `pattern`: `^[0-9a-f]{64}$`
            },
            `executionId`: {
              `type`: `string`,
              `minLength`: 1,
              `maxLength`: 64,
              `pattern`: `^[0-9a-f]{64}$`
            },
            `sequence`: {
              `type`: `integer`,
              `minimum`: 1,
              `maximum`: 2048
            },
            `previousDigest`: {
              `type`: `string`,
              `minLength`: 1,
              `maxLength`: 71,
              `pattern`: `^sha256:[0-9a-f]{64}$`
            },
            `kind`: {
              `const`: `ABORT`
            },
            `payload`: {
              `type`: `object`,
              `additionalProperties`: false,
              `required`: [
                `reason`
              ],
              `properties`: {
                `reason`: {
                  `enum`: [
                    `DEADLINE`,
                    `REVOKED`,
                    `POLICY_LOST`,
                    `PEER_CHANGED`,
                    `IO_AMBIGUOUS`,
                    `INVALID_FRAME`
                  ]
                }
              }
            }
          }
";
"        },
        {
          `type`: `object`,
          `additionalProperties`: false,
          `required`: [
            `schemaVersion`,
            `bindingDigest`,
            `reservationDigest`,
            `runNonce`,
            `caseId`,
            `requestDigest`,
            `observationDigest`,
            `generation`,
            `challenge`,
            `executionId`,
            `sequence`,
            `previousDigest`,
            `kind`,
            `payload`
          ],
          `properties`: {
            `schemaVersion`: {
              `const`: `planeon.internal.broker-frame/v1`
            },
            `bindingDigest`: {
              `type`: `string`,
              `minLength`: 1,
              `maxLength`: 71,
              `pattern`: `^sha256:[0-9a-f]{64}$`
            },
            `reservationDigest`: {
              `type`: `string`,
              `minLength`: 1,
              `maxLength`: 71,
              `pattern`: `^sha256:[0-9a-f]{64}$`
            },
            `runNonce`: {
              `type`: `string`,
              `minLength`: 1,
              `maxLength`: 63,
              `pattern`: `^[a-z0-9][a-z0-9.-]{0,62}$`
            },
            `caseId`: {
              `enum`: [
                `HOST_ISOLATION_NEGATIVES`,
                `LINUX_TARGET_BUILD`,
                `FULL_PREDECESSOR_REGRESSION`,
                `CONTROL_CONTAINER_STARTUP`,
                `POSTGRES_MIGRATION_AND_RLS`,
                `DURABLE_RESTART`,
                `ARBITRARY_NON_ROOT_UID`,
                `READ_ONLY_ROOT_FILESYSTEM`,
                `KUBERNETES_SMOKE`,
                `DEFAULT_DENY_NETWORK`
              ]
            },
            `requestDigest`: {
              `type`: `string`,
              `minLength`: 1,
              `maxLength`: 71,
";
"              `pattern`: `^sha256:[0-9a-f]{64}$`
            },
            `observationDigest`: {
              `type`: `string`,
              `minLength`: 1,
              `maxLength`: 71,
              `pattern`: `^sha256:[0-9a-f]{64}$`
            },
            `generation`: {
              `type`: `string`,
              `minLength`: 1,
              `maxLength`: 64,
              `pattern`: `^[0-9a-f]{64}$`
            },
            `challenge`: {
              `type`: `string`,
              `minLength`: 1,
              `maxLength`: 64,
              `pattern`: `^[0-9a-f]{64}$`
            },
            `executionId`: {
              `type`: `string`,
              `minLength`: 1,
              `maxLength`: 64,
              `pattern`: `^[0-9a-f]{64}$`
            },
            `sequence`: {
              `type`: `integer`,
              `minimum`: 1,
              `maximum`: 2048
            },
            `previousDigest`: {
              `type`: `string`,
              `minLength`: 1,
              `maxLength`: 71,
              `pattern`: `^sha256:[0-9a-f]{64}$`
            },
            `kind`: {
              `const`: `REFUSED`
            },
            `payload`: {
              `type`: `object`,
              `additionalProperties`: false,
              `required`: [
                `reason`
              ],
              `properties`: {
                `reason`: {
                  `enum`: [
                    `UNAVAILABLE`,
                    `REPLAY`,
                    `GENERATION_MISMATCH`,
                    `CAPACITY_HELD`,
                    `INVALID_AUTHORITY`
                  ]
                }
              }
            }
          }
        }
";
"      ]
    },
    `workerStart`: {
      `type`: `object`,
      `additionalProperties`: false,
      `required`: [
        `schemaVersion`,
        `operation`,
        `executionId`,
        `bindingDigest`,
        `caseId`,
        `requestDigest`,
        `generation`
      ],
      `properties`: {
        `schemaVersion`: {
          `const`: `planeon.internal.broker-worker/v1`
        },
        `operation`: {
          `const`: `START`
        },
        `executionId`: {
          `type`: `string`,
          `minLength`: 1,
          `maxLength`: 64,
          `pattern`: `^[0-9a-f]{64}$`
        },
        `bindingDigest`: {
          `type`: `string`,
          `minLength`: 1,
          `maxLength`: 71,
          `pattern`: `^sha256:[0-9a-f]{64}$`
        },
        `caseId`: {
          `enum`: [
            `HOST_ISOLATION_NEGATIVES`,
            `LINUX_TARGET_BUILD`,
            `FULL_PREDECESSOR_REGRESSION`,
            `CONTROL_CONTAINER_STARTUP`,
            `POSTGRES_MIGRATION_AND_RLS`,
            `DURABLE_RESTART`,
            `ARBITRARY_NON_ROOT_UID`,
            `READ_ONLY_ROOT_FILESYSTEM`,
            `KUBERNETES_SMOKE`,
            `DEFAULT_DENY_NETWORK`
          ]
        },
        `requestDigest`: {
          `type`: `string`,
          `minLength`: 1,
          `maxLength`: 71,
          `pattern`: `^sha256:[0-9a-f]{64}$`
        },
        `generation`: {
          `type`: `string`,
          `minLength`: 1,
          `maxLength`: 64,
          `pattern`: `^[0-9a-f]{64}$`
        }
      }
";
"    }
  }
}
"].

