(* ===== verification/Slices.v ===== *)
(** * Slices of bytes: [len], [get(i)], [get(a..b)], [position]

    The bounds-checked accessors the storage and HTTP code reads buffers with.  A [usize] is a [Z] below [2 ^ 64]. *)

From S2P Require Import Prelude.
Definition zlen {A} (l : list A) : Z := Z.of_nat (length l).
Definition usize_checked_add (x y : Z) : option Z := if x + y <? U64 then Some (x + y) else None.
Definition u64_checked_add (x y : Z) : option Z := if x + y <? U64 then Some (x + y) else None.
Definition usize_checked_sub (x y : Z) : option Z := if y <=? x then Some (x - y) else None.

Definition get_at {A} (l : list A) (i : Z) : option A := if 0 <=? i then l !! Z.to_nat i else None.
Definition get_range {A} (l : list A) (first last : Z) : option (list A) :=
  if (0 <=? first) && (first <=? last) && (last <=? zlen l)
  then Some (take (Z.to_nat (last - first)) (drop (Z.to_nat first) l))
  else None.

Fixpoint position {A} (f : A → bool) (l : list A) : option nat :=
  match l with
  | [] => None
  | x :: l => if f x then Some O else S <$> position f l
  end.

Lemma zlen_app {A} (l k : list A) : zlen (l ++ k) = zlen l + zlen k.
Proof. unfold zlen. rewrite length_app. lia. Qed.
Lemma zlen_cons {A} (x : A) l : zlen (x :: l) = zlen l + 1.
Proof. unfold zlen. simpl. lia. Qed.
Lemma zlen_nonneg {A} (l : list A) : 0 ≤ zlen l.
Proof. unfold zlen. lia. Qed.
Lemma zlen_nil {A} (l : list A) : zlen l = 0 → l = [].
Proof. destruct l; [done|]. unfold zlen. simpl. lia. Qed.

(** The range of a list in the middle of an append. *)
Lemma get_range_middle {A} (l m k : list A) first last :
  zlen l = first → zlen l + zlen m = last → get_range (l ++ m ++ k) first last = Some m.
Proof.
  intros <- <-. pose proof (zlen_nonneg l). pose proof (zlen_nonneg m). pose proof (zlen_nonneg k).
  unfold get_range. rewrite !zlen_app.
  rewrite (proj2 (Z.leb_le 0 _)), (proj2 (Z.leb_le (zlen l) _)), (proj2 (Z.leb_le (zlen l + zlen m) _)) by lia.
  simpl. f_equal. unfold zlen in *. replace (Z.to_nat (Z.of_nat (length l))) with (length l) by lia.
  rewrite drop_app_length. replace (Z.to_nat _) with (length m) by lia. apply take_app_length.
Qed.

Lemma get_range_Some {A} (l : list A) first last m :
  get_range l first last = Some m → zlen m = last - first ∧ 0 ≤ first.
Proof.
  unfold get_range, zlen. destruct (_ && _) eqn:E; [|done]. intros [= <-].
  rewrite length_take, length_drop. lia.
Qed.

(** A range reaches no further than its end. *)
Lemma get_range_take {A} (l : list A) n first last :
  last ≤ n → n ≤ zlen l → get_range (take (Z.to_nat n) l) first last = get_range l first last.
Proof.
  intros Hl Hn. unfold get_range, zlen in *. rewrite length_take.
  destruct (0 <=? first) eqn:E1; [|done]. destruct (first <=? last) eqn:E2; [|done]. simpl.
  rewrite (proj2 (Z.leb_le last (Z.of_nat _))), (proj2 (Z.leb_le last _)) by lia. f_equal.
  rewrite <-take_drop_commute, take_take || rewrite skipn_firstn_comm, take_take. f_equal. lia.
Qed.

Lemma position_Some {A} (f : A → bool) l n :
  position f l = Some n → ∃ x k, l = take n l ++ x :: k ∧ f x = true ∧ Forall (λ x, f x = false) (take n l) ∧
    drop n l = x :: k.
Proof.
  revert n. induction l as [|x l IH]; intros n; simpl; [done|]. destruct (f x) eqn:E.
  { intros [= <-]. exists x, l. repeat split; [done|constructor]. }
  destruct (position f l) as [m|]; [|done]. intros [= <-]. destruct (IH m eq_refl) as (y & k & H1 & H2 & H3 & H4).
  exists y, k. simpl. split; [by f_equal|]. by repeat split; [|constructor|].
Qed.

Lemma position_None {A} (f : A → bool) l : position f l = None → Forall (λ x, f x = false) l.
Proof.
  induction l as [|x l IH]; simpl; [constructor|]. destruct (f x) eqn:E; [done|].
  destruct (position f l); [done|]. intros _. constructor; auto.
Qed.

Lemma get_range_at {A} (l l1 m l2 : list A) first last :
  l = l1 ++ m ++ l2 → zlen l1 = first → zlen l1 + zlen m = last → get_range l first last = Some m.
Proof. intros -> H1 H2. by apply get_range_middle. Qed.

Lemma get_at_middle {A} (l l1 l2 : list A) x i : l = l1 ++ x :: l2 → zlen l1 = i → get_at l i = Some x.
Proof.
  intros -> <-. unfold get_at. pose proof (zlen_nonneg l1). rewrite (proj2 (Z.leb_le _ _)) by done.
  unfold zlen. rewrite Nat2Z.id. by rewrite list_lookup_middle.
Qed.
