(* ===== verification/Base64.v ===== *)
(** * Strict base64 ([host-enforcement/crates/i05-protocol/src/base64.rs])

    [decode_strict] is Python's [b64decode(validate=True)]: standard alphabet only, padding
    to a multiple of four, at most two [=] and only at the end.  [encode] is standard padded
    base64.  The theorems: the decoder accepts exactly that grammar, and inverts the encoder. *)

From S2P Require Import Prelude.
Definition ALPHABET : list Z :=
  bytes_of "ABCDEFGHIJKLMNOPQRSTUVWXYZabcdefghijklmnopqrstuvwxyz0123456789+/".

Definition pad : Z := 61. (* [b'='] *)

Definition sextet (byte : Z) : option Z :=
  if (65 <=? byte) && (byte <=? 90) then Some (byte - 65)
  else if (97 <=? byte) && (byte <=? 122) then Some (byte - 97 + 26)
  else if (48 <=? byte) && (byte <=? 57) then Some (byte - 48 + 52)
  else if byte =? 43 then Some 62
  else if byte =? 47 then Some 63
  else None.

(** [accumulator = (accumulator << 6) | sextet(byte)?], on [u32]. *)
Fixpoint accumulate (accumulator : Z) (chunk : list Z) : option Z :=
  match chunk with
  | [] => Some accumulator
  | byte :: chunk =>
      match sextet byte with
      | Some s => accumulate (Z.lor (wrap 32 (Z.shiftl accumulator 6)) s) chunk
      | None => None
      end
  end.

Definition as_u8 (x : Z) : Z := Z.land x 255.

Definition decode_chunk (chunk : list Z) : option (list Z) :=
  match accumulate 0 chunk with
  | None => None
  | Some accumulator =>
      match length chunk with
      | 4%nat => Some [as_u8 (Z.shiftr accumulator 16); as_u8 (Z.shiftr accumulator 8); as_u8 accumulator]
      | 3%nat => Some [as_u8 (Z.shiftr accumulator 10); as_u8 (Z.shiftr accumulator 2)]
      | 2%nat => Some [as_u8 (Z.shiftr accumulator 4)]
      | _ => None
      end
  end.

Fixpoint decode_chunks (l : list (list Z)) : option (list Z) :=
  match l with
  | [] => Some []
  | chunk :: l =>
      match decode_chunk chunk with
      | None => None
      | Some out => match decode_chunks l with None => None | Some rest => Some (out ++ rest) end
      end
  end.

(** The number of trailing [=] ([input.iter().rev().take_while(..).count()]). *)
Fixpoint leading_pads (reversed : list Z) : nat :=
  match reversed with
  | b :: l => if b =? pad then S (leading_pads l) else 0
  | [] => 0
  end.

Definition decode_strict (input : list Z) : option (list Z) :=
  if negb (Nat.eqb (length input mod 4) 0) then None
  else
    let padding := leading_pads (rev input) in
    if Nat.ltb 2 padding then None
    else decode_chunks (chunks 4 (take (length input - padding) input)).

Definition symbol (index : Z) : Z := nth (Z.to_nat (Z.land index 63)) ALPHABET 0.

(** [accumulator |= u32::from(byte) << (16 - 8 * position)] over a chunk of at most three bytes. *)
Fixpoint gather (accumulator position : Z) (chunk : list Z) : Z :=
  match chunk with
  | [] => accumulator
  | byte :: chunk =>
      gather (Z.lor accumulator (wrap 32 (Z.shiftl byte (16 - 8 * position)))) (position + 1) chunk
  end.

Definition encode_chunk (chunk : list Z) : list Z :=
  let accumulator := gather 0 0 chunk in
  [symbol (Z.shiftr accumulator 18); symbol (Z.shiftr accumulator 12);
   if Nat.ltb 1 (length chunk) then symbol (Z.shiftr accumulator 6) else pad;
   if Nat.ltb 2 (length chunk) then symbol accumulator else pad].

Definition encode (data : list Z) : string :=
  string_of (concat (map encode_chunk (chunks 3 data))).

(** ** Vectors of the source's own tests *)

Example encode_A : encode (bytes_of "A") = "QQ==".
Proof. reflexivity. Qed.
Example decode_trailing_bits : decode_strict (bytes_of "QR==") = Some (bytes_of "A").
Proof. reflexivity. Qed.
Example decode_refuses :
  Forall (λ s, decode_strict (bytes_of s) = None)
    ["="; "Q"; "QQ="; "QQ==="; "QQ==QQ=="; "Q==="; "QU=D"; "Q=Q="; "AAAA===="; "-_=="].
Proof. repeat constructor. Qed.

(** ** The alphabet *)

Lemma sextet_range b s : sextet b = Some s → 0 ≤ s < 64.
Proof. unfold sextet. intros H. repeat case_match; simplify_eq; lia. Qed.

Lemma sextet_not_pad b s : sextet b = Some s → b ≠ pad.
Proof. intros H ->. discriminate. Qed.

(** Every symbol the encoder emits decodes to its six bits. *)
Lemma sextet_symbol i : sextet (symbol i) = Some (i mod 64).
Proof.
  assert (Hall : forallb (λ k, bool_decide (sextet (nth k ALPHABET 0) = Some (Z.of_nat k))) (seq 0 64) = true)
    by (vm_compute; reflexivity).
  rewrite forallb_forall in Hall. unfold symbol. change 63 with (2 ^ 6 - 1).
  rewrite land_ones_mod by lia. change (2 ^ 6) with 64.
  pose proof (Z.mod_pos_bound i 64 ltac:(lia)).
  specialize (Hall (Z.to_nat (i mod 64))). rewrite bool_decide_eq_true in Hall.
  rewrite Hall by (apply in_seq; lia). f_equal. lia.
Qed.

Lemma symbol_not_pad i : symbol i ≠ pad.
Proof. eapply sextet_not_pad, sextet_symbol. Qed.

Lemma symbol_byte i : is_byte (symbol i).
Proof.
  assert (Hall : Forall is_byte ALPHABET) by apply bytes_of_range.
  unfold symbol. destruct (nth_in_or_default (Z.to_nat (Z.land i 63)) ALPHABET 0) as [Hin| ->];
    [|unfold is_byte; lia].
  by rewrite Forall_forall in Hall; apply Hall, list_elem_of_In.
Qed.

(** ** Bits *)

Lemma accumulate_step a s :
  0 ≤ a < 2 ^ 26 → 0 ≤ s < 64 → Z.lor (wrap 32 (Z.shiftl a 6)) s = a * 64 + s.
Proof.
  intros Ha Hs. unfold wrap. rewrite Z.shiftl_mul_pow2, Z.mod_small by lia.
  apply (lor_mul_add a s 6); lia.
Qed.

Lemma byte_shift b k : is_byte b → 0 ≤ k ≤ 16 → wrap 32 (Z.shiftl b k) = b * 2 ^ k.
Proof.
  unfold is_byte, wrap. intros Hb Hk.
  pose proof (Z.pow_le_mono_r 2 k 16 ltac:(lia) ltac:(lia)). pose proof (Z.pow_pos_nonneg 2 k).
  assert (b * 2 ^ k ≤ 255 * 2 ^ 16) by (apply Z.mul_le_mono_nonneg; lia).
  rewrite Z.shiftl_mul_pow2 by lia. apply Z.mod_small. lia.
Qed.

Lemma gather_one a : is_byte a → gather 0 0 [a] = a * 65536.
Proof. intros. cbn [gather]. by rewrite byte_shift, Z.lor_0_l by (done || lia). Qed.

Lemma gather_two a b : is_byte a → is_byte b → gather 0 0 [a; b] = a * 65536 + b * 256.
Proof.
  intros. cbn [gather]. rewrite !byte_shift, Z.lor_0_l by (done || lia).
  unfold is_byte in *. apply (lor_mul_add a (b * 256) 16); lia.
Qed.

Lemma gather_three a b c :
  is_byte a → is_byte b → is_byte c → gather 0 0 [a; b; c] = a * 65536 + b * 256 + c.
Proof.
  intros. cbn [gather]. rewrite !byte_shift, Z.lor_0_l by (done || lia).
  unfold is_byte in *. change (2 ^ (16 - 8 * (0 + 1))) with 256.
  change (16 - 8 * 0) with 16. rewrite (lor_mul_add a (b * 256) 16) by lia.
  replace (a * 2 ^ 16 + b * 256) with ((a * 256 + b) * 2 ^ 8) by lia.
  rewrite (lor_mul_add _ (c * 2 ^ (16 - 8 * (0 + 1 + 1))) 8) by lia. lia.
Qed.

(** ** One group of three bytes and its four symbols *)

Lemma accumulate_app a l k : accumulate a (l ++ k) = accumulate a l ≫= λ b, accumulate b k.
Proof. revert a; induction l; intros; simpl; [done|]. by case_match. Qed.

Lemma accumulate_symbols l : (length l ≤ 4)%nat →
  accumulate 0 (map symbol l) = Some (fold_left (λ a i, a * 64 + i mod 64) l 0).
Proof.
  intros Hl. cut (∀ a n, (length l + n ≤ 4)%nat → 0 ≤ a < 64 ^ Z.of_nat n →
    accumulate a (map symbol l) = Some (fold_left (λ a i, a * 64 + i mod 64) l a)).
  { intros H. apply (H 0 0%nat); [lia|]. simpl. lia. }
  clear Hl. induction l as [|i l IH]; intros a n Hn Ha; simpl; [done|]. simpl in Hn.
  rewrite sextet_symbol. pose proof (Z.mod_pos_bound i 64 ltac:(lia)).
  assert (64 ^ Z.of_nat n ≤ 64 ^ 3) by (apply Z.pow_le_mono_r; lia).
  rewrite accumulate_step by lia. apply (IH _ (S n)); [lia|].
  rewrite Nat2Z.inj_succ, Z.pow_succ_r by lia. lia.
Qed.

(** Runs [accumulate] on the symbols of a group and leaves linear arithmetic. *)
Ltac run_group :=
  repeat match goal with
  | |- context [accumulate 0 [symbol ?a; symbol ?b; symbol ?c; symbol ?d]] =>
      change [symbol a; symbol b; symbol c; symbol d] with (map symbol [a; b; c; d])
  | |- context [accumulate 0 [symbol ?a; symbol ?b; symbol ?c]] =>
      change [symbol a; symbol b; symbol c] with (map symbol [a; b; c])
  | |- context [accumulate 0 [symbol ?a; symbol ?b]] =>
      change [symbol a; symbol b] with (map symbol [a; b])
  end;
  rewrite ?gather_one, ?gather_two, ?gather_three by done; unfold is_byte in *;
  rewrite accumulate_symbols by (simpl; lia); cbn [fold_left length]; unfold as_u8;
  shift_arith; repeat f_equal; Z.div_mod_to_equations; lia.

Lemma decode_group_three a b c :
  is_byte a → is_byte b → is_byte c → decode_chunk (encode_chunk [a; b; c]) = Some [a; b; c].
Proof. intros. unfold encode_chunk, decode_chunk. cbn [length Nat.ltb Nat.leb]. run_group. Qed.

Lemma decode_group_two a b :
  is_byte a → is_byte b → decode_chunk (take 3 (encode_chunk [a; b])) = Some [a; b].
Proof. intros. unfold encode_chunk, decode_chunk. cbn [length Nat.ltb Nat.leb take]. run_group. Qed.

Lemma decode_group_one a :
  is_byte a → decode_chunk (take 2 (encode_chunk [a])) = Some [a].
Proof. intros. unfold encode_chunk, decode_chunk. cbn [length Nat.ltb Nat.leb take]. run_group. Qed.

(** ** The shape the strict decoder accepts *)

Lemma leading_pads_spec d k :
  Forall (λ b, b ≠ pad) d → leading_pads (rev (d ++ replicate k pad)) = k.
Proof.
  intros Hd. rewrite rev_app_distr.
  assert (Hrep : rev (replicate k pad) = replicate k pad).
  { rewrite <-reverse_rev || idtac. induction k; simpl; [done|]. rewrite IHk.
    change [pad] with (replicate 1 pad). rewrite <-replicate_add. by rewrite Nat.add_comm. }
  rewrite Hrep. clear Hrep. induction k as [|k IH]; simpl.
  - destruct (rev d) as [|b r] eqn:E; [done|]. simpl.
    assert (b ∈ d) as Hb by (apply list_elem_of_In, in_rev; rewrite E; by left).
    rewrite Forall_forall in Hd. by rewrite (proj2 (Z.eqb_neq _ _) (Hd _ Hb)).
  - by rewrite IH.
Qed.

Lemma decode_strict_shape d k :
  Forall (λ b, b ≠ pad) d → (k ≤ 2)%nat → ((length d + k) mod 4 = 0)%nat →
  decode_strict (d ++ replicate k pad) = decode_chunks (chunks 4 d).
Proof.
  intros Hd Hk Hlen. unfold decode_strict.
  rewrite leading_pads_spec by done. rewrite length_app, length_replicate, Hlen. simpl.
  rewrite (proj2 (Nat.ltb_ge 2 k)) by lia.
  by replace (length d + k - k)%nat with (length d) by lia; rewrite take_app_length.
Qed.

(** Every input splits in its data and its trailing [=]. *)
Lemma split_pads l : ∃ d, l = d ++ replicate (leading_pads (rev l)) pad ∧
  (∀ d' b, d = d' ++ [b] → b ≠ pad).
Proof.
  induction l as [|b l IH] using rev_ind; [exists []; split; [done|intros []; done]|].
  rewrite rev_app_distr. simpl. destruct (Z.eqb_spec b pad) as [->|Hb].
  - destruct IH as (d & Heq & Hd). exists d. split; [|done]. rewrite Heq at 1.
    rewrite <-app_assoc. f_equal. change [pad] with (replicate 1 pad).
    rewrite <-replicate_add. by rewrite Nat.add_comm.
  - exists (l ++ [b]). rewrite app_nil_r. split; [done|]. intros d' b' Heq.
    by apply app_inj_tail in Heq as [_ <-].
Qed.

Lemma accumulate_Some l a : is_Some (accumulate a l) ↔ Forall (λ b, is_Some (sextet b)) l.
Proof.
  revert a; induction l as [|b l IH]; intros a; simpl; [split; [constructor|done]|].
  rewrite Forall_cons. destruct (sextet b) eqn:E.
  - rewrite IH. split; [intros; split; [eauto|done]|by intros []].
  - split; [by intros []|intros [[] _]; done].
Qed.

Lemma decode_chunk_Some c :
  (length c ≤ 4)%nat →
  is_Some (decode_chunk c) ↔ (2 ≤ length c)%nat ∧ Forall (λ b, is_Some (sextet b)) c.
Proof.
  intros Hc. rewrite <-(accumulate_Some c 0). unfold decode_chunk.
  destruct (accumulate 0 c).
  - destruct c as [|?[|?[|?[|?[|??]]]]]; simpl in *; split;
      try (intros [??]); try (intros _); try lia; try discriminate; eauto with lia.
  - split; [by intros []|by intros [_ []]].
Qed.

Lemma decode_chunks_Some d :
  is_Some (decode_chunks (chunks 4 d)) ↔
  (length d mod 4 ≠ 1)%nat ∧ Forall (λ b, is_Some (sextet b)) d.
Proof.
  revert d; apply (chunks_ind 4); [lia|intros d Hd|intros c d Hc IH].
  - destruct d as [|b d]; [split; [split; [simpl; lia|constructor]|eexists; done]|].
    rewrite chunks_short by (done || simpl in *; lia). simpl decode_chunks.
    rewrite (Nat.mod_small (length (b :: d)) 4) by done.
    transitivity (is_Some (decode_chunk (b :: d))).
    + destruct (decode_chunk (b :: d)); split; eauto; by intros [].
    + rewrite decode_chunk_Some by lia. simpl in *. split; intros [? ?]; split; auto; lia.
  - rewrite chunks_app by (done || lia). cbn [decode_chunks]. rewrite Forall_app, length_app, Hc.
    rewrite <-Nat.Div0.add_mod_idemp_l, Nat.Div0.mod_same, Nat.add_0_l.
    destruct (decode_chunk c) eqn:E.
    + assert (Forall (λ b, is_Some (sextet b)) c) by (apply decode_chunk_Some; [lia|eauto]).
      destruct (decode_chunks (chunks 4 d)); [|split; [by intros []|]].
      * split; [|eauto]. intros _. split; [|split; [done|]]; apply IH; eauto.
      * intros (? & _ & ?). by destruct (proj2 IH) as [? [=]].
    + split; [by intros []|]. intros (_ & Hall & _). exfalso.
      assert (is_Some (decode_chunk c)) as [? ?] by (apply decode_chunk_Some; [lia|split; [lia|done]]).
      congruence.
Qed.

(** ** The encoder's output *)

Definition encode_groups (data : list Z) : list Z := concat (map encode_chunk (chunks 3 data)).

Lemma encode_chunk_bytes c : Forall is_byte (encode_chunk c).
Proof.
  assert (is_byte pad) by (unfold is_byte, pad; lia).
  unfold encode_chunk. repeat (apply Forall_cons_2; [repeat case_match; auto using symbol_byte|]).
  apply Forall_nil_2.
Qed.

Lemma bytes_of_encode data : bytes_of (encode data) = encode_groups data.
Proof.
  apply bytes_string_bytes. unfold encode_groups. rewrite Forall_concat, Forall_map.
  apply Forall_true. intros c. apply encode_chunk_bytes.
Qed.

(** The data part of the encoder's output, its padding, and what the groups decode to. *)
Definition encodes (data out : list Z) : Prop :=
  ∃ d k, out = d ++ replicate k pad ∧ Forall (λ b, b ≠ pad) d ∧ (k ≤ 2)%nat ∧
    ((length d + k) mod 4 = 0)%nat ∧ decode_chunks (chunks 4 d) = Some data.

Lemma encodes_last data :
  (length data < 3)%nat → Forall is_byte data → encodes data (encode_groups data).
Proof.
  intros Hlen Hb. unfold encode_groups.
  destruct data as [|a [|b [|]]]; simpl in Hlen; [| | |lia]; unfold encodes.
  - exists [], 0%nat. repeat split; by auto.
  - inversion_clear Hb. rewrite chunks_short by (done || simpl; lia).
    exists (take 2 (encode_chunk [a])), 2%nat. rewrite chunks_short by (done || simpl; lia).
    cbn [decode_chunks]. rewrite decode_group_one by done. repeat split; auto.
    repeat (apply Forall_cons_2; [apply symbol_not_pad|]); apply Forall_nil_2.
  - inversion_clear Hb as [|?? ? Hb']. inversion_clear Hb'.
    rewrite chunks_short by (done || simpl; lia).
    exists (take 3 (encode_chunk [a; b])), 1%nat. rewrite chunks_short by (done || simpl; lia).
    cbn [decode_chunks]. rewrite decode_group_two by done. repeat split; auto.
    repeat (apply Forall_cons_2; [apply symbol_not_pad|]); apply Forall_nil_2.
Qed.

Lemma encodes_groups data : Forall is_byte data → encodes data (encode_groups data).
Proof.
  revert data. apply (chunks_ind 3 (λ data, Forall is_byte data → encodes data (encode_groups data)));
    [lia|auto using encodes_last|].
  intros c data Hc IH [Hbc Hb]%Forall_app. destruct (IH Hb) as (d & k & Heq & Hd & Hk & Hlen & Hdec).
  destruct c as [|x [|y [|z [|]]]]; try discriminate Hc.
  inversion_clear Hbc as [|?? Hx Hbc']. inversion_clear Hbc' as [|?? Hy Hz'].
  inversion_clear Hz' as [|?? Hz _].
  exists (encode_chunk [x; y; z] ++ d), k. unfold encode_groups in *.
  rewrite chunks_app by (done || lia). cbn [map concat]. rewrite Heq, app_assoc.
  split; [done|]. split; [|split; [done|split]].
  - apply Forall_app; split; [|done].
    repeat (apply Forall_cons_2; [apply symbol_not_pad|]); apply Forall_nil_2.
  - rewrite length_app. simpl length. rewrite <-Nat.add_assoc, <-Nat.Div0.add_mod_idemp_l.
    by rewrite Nat.Div0.mod_same, Nat.add_0_l.
  - rewrite chunks_app by (done || lia). cbn [decode_chunks].
    by rewrite decode_group_three, Hdec by done.
Qed.

(** Decoding what the encoder wrote gives the data back, for every byte string. *)
Theorem decode_strict_encode data :
  Forall is_byte data → decode_strict (bytes_of (encode data)) = Some data.
Proof.
  intros Hb. rewrite bytes_of_encode.
  destruct (encodes_groups data Hb) as (d & k & -> & Hd & Hk & Hlen & Hdec).
  by rewrite decode_strict_shape, Hdec.
Qed.

Lemma decode_strict_encode_witness :
  Forall is_byte [0; 255; 128; 7] ∧ decode_strict (bytes_of (encode [0; 255; 128; 7])) = Some [0; 255; 128; 7].
Proof.
  assert (H : Forall is_byte [0; 255; 128; 7]) by (repeat constructor; unfold is_byte; lia).
  split; [exact H|]. apply (decode_strict_encode [0; 255; 128; 7] H).
Defined.

(** The strict decoder accepts exactly: alphabet symbols followed by at most two [=],
    the whole a multiple of four symbols long. *)
Theorem decode_strict_accepts input :
  is_Some (decode_strict input) ↔
  ∃ d k, input = d ++ replicate k pad ∧ (k ≤ 2)%nat ∧ (length input mod 4 = 0)%nat ∧
    Forall (λ b, is_Some (sextet b)) d.
Proof.
  assert (Hnp : ∀ d, Forall (λ b, is_Some (sextet b)) d → Forall (λ b, b ≠ pad) d).
  { intros d Hd. eapply Forall_impl; [exact Hd|]. intros b [s Hs]. by eapply sextet_not_pad. }
  split.
  - unfold decode_strict. destruct (Nat.eqb_spec (length input mod 4) 0) as [Hlen|]; [|by intros []].
    simpl. destruct (Nat.ltb_spec 2 (leading_pads (rev input))) as [|Hk]; [by intros []|].
    destruct (split_pads input) as (d & Heq & _).
    set (k := leading_pads (rev input)) in *. clearbody k. subst input.
    rewrite length_app, length_replicate, Nat.add_sub, take_app_length.
    rewrite decode_chunks_Some. intros [_ Hd]. exists d, k. by rewrite length_app, length_replicate in Hlen.
  - intros (d & k & -> & Hk & Hlen & Hd). rewrite length_app, length_replicate in Hlen.
    rewrite decode_strict_shape by auto. rewrite decode_chunks_Some. split; [|done].
    intros H1.
    pose proof (Nat.div_mod_eq (length d) 4). pose proof (Nat.div_mod_eq (length d + k) 4). lia.
Qed.
