(* ===== verification/Sha256.v ===== *)
(** * SHA-256 ([host-enforcement/crates/i05-protocol/src/sha256.rs])

    The incremental hasher of the source ([Sha256], [update], [finish]) over an explicit
    64-byte buffer, and its one-shot form [digest] with the textual forms [hex] and
    [prefixed].  The reference specification [sha256_spec] is FIPS 180-4's: pad the message,
    split it in blocks, fold the compression function.  The main theorem is that any way of
    feeding a message in pieces gives the reference digest. *)

From S2P Require Import Prelude.
(** In decimal; the comments give the source's hexadecimal words. *)
Definition K : list Z :=
  [1116352408; 1899447441; 3049323471; 3921009573; 961987163; 1508970993; 2453635748; 2870763221;  (* 428a2f98 71374491 b5c0fbcf e9b5dba5 3956c25b 59f111f1 923f82a4 ab1c5ed5 *)
   3624381080; 310598401; 607225278; 1426881987; 1925078388; 2162078206; 2614888103; 3248222580;  (* d807aa98 12835b01 243185be 550c7dc3 72be5d74 80deb1fe 9bdc06a7 c19bf174 *)
   3835390401; 4022224774; 264347078; 604807628; 770255983; 1249150122; 1555081692; 1996064986;  (* e49b69c1 efbe4786 0fc19dc6 240ca1cc 2de92c6f 4a7484aa 5cb0a9dc 76f988da *)
   2554220882; 2821834349; 2952996808; 3210313671; 3336571891; 3584528711; 113926993; 338241895;  (* 983e5152 a831c66d b00327c8 bf597fc7 c6e00bf3 d5a79147 06ca6351 14292967 *)
   666307205; 773529912; 1294757372; 1396182291; 1695183700; 1986661051; 2177026350; 2456956037;  (* 27b70a85 2e1b2138 4d2c6dfc 53380d13 650a7354 766a0abb 81c2c92e 92722c85 *)
   2730485921; 2820302411; 3259730800; 3345764771; 3516065817; 3600352804; 4094571909; 275423344;  (* a2bfe8a1 a81a664b c24b8b70 c76c51a3 d192e819 d6990624 f40e3585 106aa070 *)
   430227734; 506948616; 659060556; 883997877; 958139571; 1322822218; 1537002063; 1747873779;  (* 19a4c116 1e376c08 2748774c 34b0bcb5 391c0cb3 4ed8aa4a 5b9cca4f 682e6ff3 *)
   1955562222; 2024104815; 2227730452; 2361852424; 2428436474; 2756734187; 3204031479; 3329325298].  (* 748f82ee 78a5636f 84c87814 8cc70208 90befffa a4506ceb bef9a3f7 c67178f2 *)

(** In decimal; the comments give the source's hexadecimal words. *)
Definition INITIAL : list Z :=
  [1779033703; 3144134277; 1013904242; 2773480762; 1359893119; 2600822924; 528734635; 1541459225].  (* 6a09e667 bb67ae85 3c6ef372 a54ff53a 510e527f 9b05688c 1f83d9ab 5be0cd19 *)

(** ** [u32] operations *)

Definition wrapping_add (x y : Z) : Z := wrap 32 (x + y).
Definition rotate_right (x n : Z) : Z := Z.lor (Z.shiftr x n) (wrap 32 (Z.shiftl x (32 - n))).
Definition not32 (x : Z) : Z := Z.lxor x (U32 - 1).

Definition u32_from_be_bytes (c : list Z) : Z :=
  fold_left (λ acc b, Z.lor (Z.shiftl acc 8) b) c 0.

(** [to_be_bytes] of an [n]-byte integer. *)
Fixpoint to_be_bytes (n : nat) (x : Z) : list Z :=
  match n with
  | O => []
  | S n => Z.land (Z.shiftr x (8 * Z.of_nat n)) 255 :: to_be_bytes n x
  end.

(** ** The compression function *)

Definition small_sigma0 (x : Z) : Z :=
  Z.lxor (Z.lxor (rotate_right x 7) (rotate_right x 18)) (Z.shiftr x 3).
Definition small_sigma1 (x : Z) : Z :=
  Z.lxor (Z.lxor (rotate_right x 17) (rotate_right x 19)) (Z.shiftr x 10).

(** [for t in 16..64 { w[t] = ... }], over an array of 64 words. *)
Definition schedule_step (w : list Z) (t : nat) : list Z :=
  let at_ i := nth i w 0 in
  <[t := wrapping_add (wrapping_add (wrapping_add (at_ (t - 16)%nat) (small_sigma0 (at_ (t - 15)%nat)))
                        (at_ (t - 7)%nat)) (small_sigma1 (at_ (t - 2)%nat))]> w.

Definition schedule (block : list Z) : list Z :=
  let w := map u32_from_be_bytes (chunks 4 block) in
  fold_left schedule_step (seq 16 48) (w ++ replicate 48 0).

(** One round on the working variables [a .. h]. *)
Definition sha_round (s : list Z) (kw : Z * Z) : list Z :=
  match s with
  | [a; b; c; d; e; f; g; h] =>
      let s1 := Z.lxor (Z.lxor (rotate_right e 6) (rotate_right e 11)) (rotate_right e 25) in
      let choose := Z.lxor (Z.land e f) (Z.land (not32 e) g) in
      let t1 := wrapping_add (wrapping_add (wrapping_add (wrapping_add h s1) choose) kw.1) kw.2 in
      let s0 := Z.lxor (Z.lxor (rotate_right a 2) (rotate_right a 13)) (rotate_right a 22) in
      let majority := Z.lxor (Z.lxor (Z.land a b) (Z.land a c)) (Z.land b c) in
      let t2 := wrapping_add s0 majority in
      [wrapping_add t1 t2; a; b; c; wrapping_add d t1; e; f; g]
  | _ => s
  end.

Definition compress (state block : list Z) : list Z :=
  zip_with wrapping_add state (fold_left sha_round (zip K (schedule block)) state).

(** ** The incremental hasher *)

Record Sha256 := mkSha256 {
  sha_state : list Z;
  sha_block : list Z;
  sha_filled : nat;
  sha_length : Z;
}.

Definition sha_new : Sha256 := mkSha256 INITIAL (replicate 64 0) 0 0.

(** [block[filled .. filled + take].copy_from_slice(head)], when the range is inside the block. *)
Definition copy_into (block : list Z) (filled : nat) (head : list Z) : list Z :=
  if Nat.leb (filled + length head) (length block)
  then take filled block ++ head ++ drop (filled + length head) block
  else block.

Definition absorb (s : Sha256) (head : list Z) : Sha256 :=
  let block := copy_into (sha_block s) (sha_filled s) head in
  let filled := (sha_filled s + length head)%nat in
  if Nat.eqb filled 64
  then mkSha256 (compress (sha_state s) block) block 0 (sha_length s)
  else mkSha256 (sha_state s) block filled (sha_length s).

(** [while !data.is_empty()]: each turn absorbs at least one byte while the buffer has room. *)
Fixpoint update_loop (fuel : nat) (s : Sha256) (data : list Z) : run Sha256 unit :=
  match data with
  | [] => Done s
  | _ =>
      match fuel with
      | O => OutOfFuel
      | S fuel =>
          let room := (64 - sha_filled s)%nat in
          let take_ := Nat.min room (length data) in
          update_loop fuel (absorb s (take take_ data)) (drop take_ data)
      end
  end.

Definition update (s : Sha256) (data : list Z) : Sha256 :=
  let s := mkSha256 (sha_state s) (sha_block s) (sha_filled s)
             (wrap 64 (sha_length s + Z.of_nat (length data))) in
  match update_loop (length data) s data with Done s => s | _ => s end.

(** [while self.filled != 56 { self.update(&[0]) }] *)
Fixpoint zero_fill (fuel : nat) (s : Sha256) : Sha256 :=
  match fuel with
  | O => s
  | S fuel => if Nat.eqb (sha_filled s) 56 then s else zero_fill fuel (update s [0])
  end.

Definition finish (s : Sha256) : list Z :=
  let bits := wrap 64 (sha_length s * 8) in
  let s := update s [0x80] in
  let s := zero_fill 64 s in
  let s := update s (to_be_bytes 8 bits) in
  concat (map (to_be_bytes 4) (sha_state s)).

Definition digest (data : list Z) : list Z := finish (update sha_new data).

Definition hex_digit (n : Z) : Z := nth (Z.to_nat n) (bytes_of "0123456789abcdef") 0.

Definition hex (bytes : list Z) : string :=
  string_of (flat_map (λ b, [hex_digit (Z.shiftr b 4); hex_digit (Z.land b 0x0F)]) bytes).

Definition prefixed (data : list Z) : string := "sha256:" +:+ hex (digest data).

(** ** The reference specification (FIPS 180-4, sections 5.1.1 and 6.2) *)

Definition sha_pad (message : list Z) : list Z :=
  let n := Z.of_nat (length message) in
  message ++ [0x80] ++ replicate (Z.to_nat ((55 - n) mod 64)) 0 ++ to_be_bytes 8 (wrap 64 (8 * n)).

Definition sha256_spec (message : list Z) : list Z :=
  concat (map (to_be_bytes 4) (fold_left compress (chunks 64 (sha_pad message)) INITIAL)).

(** ** The source's FIPS examples *)

Example digest_empty :
  hex (digest []) = "e3b0c44298fc1c149afbf4c8996fb92427ae41e4649b934ca495991b7852b855".
Proof. vm_compute. reflexivity. Qed.
Example digest_abc :
  prefixed (bytes_of "abc") = "sha256:ba7816bf8f01cfea414140de5dae2223b00361a396177a9cb410ff61f20015ad".
Proof. vm_compute. reflexivity. Qed.
Example digest_two_blocks :
  hex (digest (bytes_of "abcdbcdecdefdefgefghfghighijhijkijkljklmklmnlmnomnopnopq"))
  = "248d6a61d20638b8e5c026930c3e6039a33ce45964ff2167f6ecedd419db06c1".
Proof. vm_compute. reflexivity. Qed.

(** ** What a hasher has absorbed *)

(** The hasher holds the compression of the complete blocks [bs] of the message fed so far
    and, in its buffer, the incomplete block [r]. *)
Definition absorbed (s : Sha256) (message : list Z) : Prop :=
  ∃ bs r, message = concat bs ++ r ∧ Forall (λ b, length b = 64%nat) bs ∧ (length r < 64)%nat ∧
    sha_state s = fold_left compress bs INITIAL ∧ sha_filled s = length r ∧
    take (length r) (sha_block s) = r ∧ length (sha_block s) = 64%nat.

Lemma sha_new_absorbed : absorbed sha_new [].
Proof. exists [], []. repeat split; try done; simpl; lia. Qed.

Lemma length_copy_into block filled head :
  length (copy_into block filled head) = length block.
Proof.
  unfold copy_into. case_match eqn:E; [|done]. apply Nat.leb_le in E.
  rewrite !length_app, length_take, length_drop. lia.
Qed.

Lemma absorb_absorbed s message head :
  absorbed s message → (sha_filled s + length head ≤ 64)%nat → absorbed (absorb s head) (message ++ head).
Proof.
  intros (bs & r & -> & Hbs & Hr & Hst & Hf & Hblk & Hlen) Hroom. rewrite Hf in Hroom.
  unfold absorb. rewrite Hf.
  assert (Hcopy : take (length r + length head) (copy_into (sha_block s) (length r) head) = r ++ head).
  { unfold copy_into. rewrite (proj2 (Nat.leb_le _ _)) by lia. rewrite Hblk, app_assoc.
    rewrite take_app_le by (rewrite length_app; lia). apply take_ge. rewrite length_app. lia. }
  destruct (Nat.eqb_spec (length r + length head) 64) as [Hfull|Hpart].
  - exists (bs ++ [r ++ head]), []. simpl.
    rewrite <-Hcopy, Hfull, take_ge in * by (rewrite length_copy_into; lia).
    repeat split; try (simpl; lia); try done.
    + rewrite concat_app. simpl. by rewrite Hcopy, !app_nil_r, app_assoc.
    + apply Forall_app; split; [done|]. repeat constructor. by rewrite length_copy_into.
    + rewrite fold_left_app, Hst. simpl. done.
    + by rewrite length_copy_into.
  - exists bs, (r ++ head). simpl. rewrite length_app, app_assoc.
    repeat split; try done; [lia|]. by rewrite length_copy_into.
Qed.

Lemma absorbed_room s message : absorbed s message → (sha_filled s < 64)%nat.
Proof. intros (bs & r & _ & _ & Hr & _ & -> & _). done. Qed.

Lemma absorbed_length_irrelevant s message n :
  absorbed s message → absorbed (mkSha256 (sha_state s) (sha_block s) (sha_filled s) n) message.
Proof. done. Qed.

(** The loop of [update] ends within one turn per byte and absorbs exactly the data. *)
Lemma update_loop_absorbed fuel s message data :
  absorbed s message → (length data ≤ fuel)%nat →
  ∃ s', update_loop fuel s data = Done s' ∧ absorbed s' (message ++ data) ∧ sha_length s' = sha_length s.
Proof.
  revert s message data; induction fuel as [|fuel IH]; intros s message data Habs Hfuel;
    destruct data as [|b data]; simpl in Hfuel; try lia;
    [exists s; by rewrite app_nil_r..|].
  set (d := b :: data). cbn [update_loop]. fold d.
  pose proof (absorbed_room _ _ Habs) as Hroom.
  set (n := Nat.min (64 - sha_filled s) (length d)).
  assert (Hn : (0 < n ≤ length d)%nat) by (unfold n, d; simpl length; lia).
  destruct (IH (absorb s (take n d)) (message ++ take n d) (drop n d)) as (s' & -> & Habs' & Hlen).
  - apply absorb_absorbed; [done|]. rewrite length_take. unfold n. lia.
  - rewrite length_drop. unfold d in *. simpl length in *. lia.
  - exists s'. rewrite <-app_assoc, take_drop in Habs'. split; [done|]. split; [done|].
    rewrite Hlen. unfold absorb. by case_match.
Qed.

Lemma update_absorbed s message data :
  absorbed s message → absorbed (update s data) (message ++ data).
Proof.
  intros Habs. unfold update.
  destruct (update_loop_absorbed (length data) _ message data
    (absorbed_length_irrelevant _ _ (wrap 64 (sha_length s + Z.of_nat (length data))) Habs)) as (s' & -> & ? & _);
    done.
Qed.

Lemma update_length s message data :
  absorbed s message → sha_length (update s data) = wrap 64 (sha_length s + Z.of_nat (length data)).
Proof.
  intros Habs. unfold update.
  destruct (update_loop_absorbed (length data) _ message data
    (absorbed_length_irrelevant _ _ (wrap 64 (sha_length s + Z.of_nat (length data))) Habs)) as (s' & -> & _ & ->);
    done.
Qed.

Lemma absorbed_filled s message : absorbed s message → (sha_filled s = length message mod 64)%nat.
Proof.
  intros (bs & r & -> & Hbs & Hr & _ & -> & _). rewrite length_app.
  assert (length (concat bs) mod 64 = 0)%nat as H.
  { clear -Hbs. induction Hbs as [|b bs Hb _ IH]; [done|]. cbn [concat].
    by rewrite length_app, <-Nat.Div0.add_mod_idemp_r, IH, Nat.add_0_r, Hb. }
  by rewrite <-Nat.Div0.add_mod_idemp_l, H, Nat.add_0_l, Nat.mod_small.
Qed.

(** The zero bytes [finish] writes: up to 56 modulo 64. *)
Lemma zero_fill_absorbed fuel s message :
  absorbed s message → ((56 + 64 - length message mod 64) mod 64 ≤ fuel)%nat →
  absorbed (zero_fill fuel s)
    (message ++ replicate ((56 + 64 - length message mod 64) mod 64)%nat 0).
Proof.
  revert s message; induction fuel as [|fuel IH]; intros s message Habs Hfuel;
    pose proof (absorbed_filled _ _ Habs) as Hf; cbn [zero_fill].
  - by replace (_ mod 64)%nat with 0%nat by lia; rewrite app_nil_r.
  - pose proof (Nat.mod_upper_bound (length message) 64 ltac:(lia)) as Hlt.
    destruct (Nat.eqb_spec (sha_filled s) 56) as [H56|H56].
    + rewrite Hf in H56. rewrite H56. replace ((56 + 64 - 56) mod 64)%nat with 0%nat by done.
      by rewrite app_nil_r.
    + rewrite Hf in H56.
      assert (Hnext : ((56 + 64 - length message mod 64) mod 64 =
        S ((56 + 64 - length (message ++ [0%Z]) mod 64) mod 64))%nat).
      { rewrite length_app. simpl length. rewrite <-Nat.Div0.add_mod_idemp_l.
        revert Hlt H56. generalize (length message mod 64)%nat. intros n Hlt Hn.
        destruct (decide (n = 63%nat)) as [->|]; [done|]. rewrite (Nat.mod_small (n + 1)) by lia.
        destruct (decide (n < 56)%nat).
        - replace (56 + 64 - n)%nat with ((56 - n) + 1 * 64)%nat by lia.
          replace (56 + 64 - (n + 1))%nat with ((55 - n) + 1 * 64)%nat by lia.
          rewrite !Nat.Div0.mod_add, !Nat.mod_small; lia.
        - rewrite !Nat.mod_small; lia. }
      rewrite Hnext in *. cbn [replicate]. rewrite cons_middle, app_assoc.
      apply IH; [by apply update_absorbed|]. lia.
Qed.

Lemma zero_fill_length fuel s message :
  absorbed s message → ∃ message', absorbed (zero_fill fuel s) message'.
Proof.
  revert s message; induction fuel; intros s message Habs; cbn [zero_fill]; [eauto|].
  case_match; eauto using update_absorbed.
Qed.

Lemma length_to_be_bytes n x : length (to_be_bytes n x) = n.
Proof. induction n; simpl; auto. Qed.

Lemma chunks_concat {A} n (bs : list (list A)) :
  (0 < n)%nat → Forall (λ b, length b = n) bs → chunks n (concat bs) = bs.
Proof.
  intros Hn. induction 1 as [|b bs Hb _ IH]; [done|]. simpl. by rewrite chunks_app, IH.
Qed.

Lemma pad_zeros n :
  ((56 + 64 - (n + 1) mod 64) mod 64)%nat = Z.to_nat ((55 - Z.of_nat n) mod 64).
Proof.
  apply Nat2Z.inj. rewrite Z2Nat.id by (apply Z.mod_pos_bound; lia).
  rewrite Nat2Z.inj_mod, Nat2Z.inj_sub, Nat2Z.inj_mod, Nat2Z.inj_add by
    (pose proof (Nat.mod_upper_bound (n + 1) 64); lia).
  simpl. Z.div_mod_to_equations. lia.
Qed.

(** Feeding [data] to a hasher that holds [message] and finishing gives the reference digest. *)
Lemma finish_spec s message :
  absorbed s message → sha_length s = wrap 64 (Z.of_nat (length message)) →
  finish s = sha256_spec message.
Proof.
  intros Habs Hlen. unfold finish, sha256_spec.
  assert (Hbits : wrap 64 (sha_length s * 8) = wrap 64 (8 * Z.of_nat (length message))).
  { rewrite Hlen. unfold wrap. rewrite Z.mul_mod_idemp_l by lia. f_equal. lia. }
  rewrite Hbits. set (tail := to_be_bytes 8 _).
  pose proof (update_absorbed _ _ [0x80] Habs) as H1.
  apply (zero_fill_absorbed 64) in H1; [|apply Nat.lt_le_incl, Nat.mod_upper_bound; lia].
  apply (update_absorbed _ _ tail) in H1.
  rewrite !length_app in H1. simpl length in H1. rewrite pad_zeros in H1.
  assert (Hpad : ((message ++ [0x80]) ++ replicate (Z.to_nat ((55 - Z.of_nat (length message)) mod 64)) 0) ++ tail
    = sha_pad message) by (unfold sha_pad; by rewrite <-!app_assoc).
  rewrite Hpad in H1. pose proof (absorbed_filled _ _ H1) as Hf.
  destruct H1 as (bs & r & Heq & Hbs & Hr & Hst & Hfr & _).
  assert (Hzero : (length (sha_pad message) mod 64 = 0)%nat).
  { apply Nat2Z.inj. unfold sha_pad. rewrite !length_app, length_replicate, length_to_be_bytes.
    rewrite Nat2Z.inj_mod, !Nat2Z.inj_add, Z2Nat.id by (apply Z.mod_pos_bound; lia).
    simpl length. Z.div_mod_to_equations. lia. }
  rewrite Hf, Hzero in Hfr. destruct r; [|done]. rewrite app_nil_r in Heq.
  rewrite Hst, Heq, chunks_concat by (done || lia). done.
Qed.

(** Feeding a message in any pieces and finishing gives FIPS 180-4's digest of the whole. *)
Theorem update_pieces_sha256 pieces :
  finish (fold_left update pieces sha_new) = sha256_spec (concat pieces).
Proof.
  cut (∀ s m, absorbed s m → sha_length s = wrap 64 (Z.of_nat (length m)) →
    finish (fold_left update pieces s) = sha256_spec (m ++ concat pieces)).
  { intros H. apply (H sha_new []); [apply sha_new_absorbed|done]. }
  induction pieces as [|p pieces IH]; intros s m Habs Hlen; simpl.
  - rewrite app_nil_r. by apply finish_spec.
  - rewrite app_assoc. apply IH; [by apply update_absorbed|].
    rewrite (update_length _ m), Hlen, length_app by done. unfold wrap.
    rewrite Nat2Z.inj_add. by rewrite Z.add_mod_idemp_l.
Qed.

(** The one-shot digest is the reference digest. *)
Lemma digest_spec data : digest data = sha256_spec data.
Proof.
  apply finish_spec; [apply (update_absorbed _ [] _ sha_new_absorbed)|].
  apply (update_length _ [] _ sha_new_absorbed).
Qed.
