(* ===== verification/Float.v ===== *)
(** * [f64]: decimal text to doubles and back ([host-enforcement/crates/i05-protocol/src/json.rs])

    A double is a [spec_float] of the standard library (53 bits of precision, exponents to
    1024).  Reading a decimal rounds the exact rational to nearest, ties to even, as Rust's
    [str::parse::<f64>] does; [shortest] is the digit string of [format!("{x:e}")]; [py_float_repr]
    is CPython's [float.__repr__] as the source derives it. *)

From S2P Require Import Prelude.
From Stdlib Require Export Floats.SpecFloat.

Abbreviation f64 := spec_float.

Definition prec : Z := 53.
Definition emax : Z := 1024.

(** ** Reading a decimal *)

(** [(-1)^neg * digits * 10^exponent], rounded; out-of-range exponents are decided first, so
    that no huge power of ten is ever computed. *)
Definition f64_of_decimal (neg : bool) (digits exponent : Z) : f64 :=
  if digits =? 0 then S754_zero neg
  else
    let top := exponent + Z.of_nat (length (digits_of digits)) in
    if 310 <? top then S754_infinity neg
    else if top <? -330 then S754_zero neg
    else if 0 <=? exponent then
      binary_normalize prec emax ((if neg then -1 else 1) * digits * 10 ^ exponent) 0 neg
    else
      let '(q, e, l) := SFdiv_core_binary prec emax digits 0 (10 ^ (- exponent)) 0 in
      binary_round_aux prec emax neg q e l.

(** ** Comparing and inspecting *)

Definition is_nan (x : f64) : bool := match x with S754_nan => true | _ => false end.
Definition is_infinite (x : f64) : bool := match x with S754_infinity _ => true | _ => false end.
Definition is_finite (x : f64) : bool := negb (is_nan x) && negb (is_infinite x).
Definition is_sign_negative (x : f64) : bool :=
  match x with S754_zero s | S754_infinity s | S754_finite s _ _ => s | S754_nan => false end.
Definition f64_abs (x : f64) : f64 := SFabs x.
Definition f64_partial_cmp (x y : f64) : option comparison := SFcompare x y.

(** The exact value of a finite double as a fraction [num / den]. *)
Definition f64_fraction (x : f64) : Z * Z :=
  match x with
  | S754_finite s m e =>
      let m := if s then - Z.pos m else Z.pos m in
      if 0 <=? e then (m * 2 ^ e, 1) else (m, 2 ^ (- e))
  | _ => (0, 1)
  end.

(** [x.trunc()] as an exact integer, and the sign of [x - x.trunc()]. *)
Definition f64_trunc (x : f64) : Z := let '(n, d) := f64_fraction x in Z.quot n d.
Definition f64_fract_sign (x : f64) : comparison :=
  let '(n, d) := f64_fraction x in Z.rem n d ?= 0.

(** ** Writing the shortest decimal *)

(** Searches the decimal exponent [k] with [10^k <= num/den < 10^(k+1)], upwards from a guess. *)
Fixpoint exponent10 (fuel : nat) (k num den : Z) : Z :=
  match fuel with
  | O => k
  | S fuel =>
      let above := if 0 <=? k + 1 then num <? den * 10 ^ (k + 1) else num * 10 ^ (- (k + 1)) <? den in
      if above then k else exponent10 fuel (k + 1) num den
  end.

(** [floor (num/den * 10^s)] and whether twice the remainder is below, at or above the divisor. *)
Definition scaled (num den s : Z) : Z * comparison :=
  let '(n, d) := if 0 <=? s then (num * 10 ^ s, den) else (num, den * 10 ^ (- s)) in
  (n / d, 2 * (n mod d) ?= d).

Definition SF_same (x y : f64) : bool :=
  match x, y with
  | S754_finite s m e, S754_finite s' m' e' => Bool.eqb s s' && Pos.eqb m m' && (e =? e')
  | _, _ => false
  end.

(** The shortest digit string that reads back as [x], the closest to [x] among the shortest,
    an exact tie rounding up (as the source notes of Rust's formatting). *)
Fixpoint shortest_go (fuel : nat) (n : Z) (x : f64) (num den k : Z) : Z * Z :=
  let s := n - 1 - k in
  let '(q, c) := scaled num den s in
  match fuel with
  | O => (q, - s)
  | S fuel =>
      let low := SF_same (f64_of_decimal false q (- s)) x in
      let high := SF_same (f64_of_decimal false (q + 1) (- s)) x in
      if low && high then (match c with Lt => q | _ => q + 1 end, - s)
      else if low then (q, - s)
      else if high then (q + 1, - s)
      else shortest_go fuel (n + 1) x num den k
  end.

Fixpoint strip_zeros (fuel : nat) (l : list Z) : list Z :=
  match fuel with
  | O => l
  | S fuel =>
      if Nat.ltb 1 (length l) && bool_decide (last l = Some 48) then strip_zeros fuel (removelast l) else l
  end.

(** [scientific_digits(&format!("{magnitude:e}"))]: significant digits without trailing zeros
    and decimal exponent of a finite, non-negative double. *)
Definition scientific_digits (x : f64) : list Z * Z :=
  match x with
  | S754_finite _ _ _ =>
      let '(num, den) := f64_fraction x in
      let guess := (Z.log2 num - Z.log2 den) * 30103 / 100000 - 2 in
      let k := exponent10 8 guess num den in
      let '(q, e) := shortest_go 17 1 x num den k in
      let ds := digits_of q in
      (strip_zeros (length ds) ds, e + Z.of_nat (length ds) - 1)
  | _ => ([48], 0)
  end.

(** ** Python's [repr] *)

(** The digits of [format!("{x:.1100e}")] (exact: a double has at most 767) and its exponent. *)
Definition exact_digits (x : f64) : list Z * Z :=
  match x with
  | S754_finite _ m e =>
      let '(d, e10) := if 0 <=? e then (Z.pos m * 2 ^ e, 0) else (Z.pos m * 5 ^ (- e), e) in
      let ds := digits_of d in
      (ds ++ replicate (1101 - length ds) 48, e10 + Z.of_nat (length ds) - 1)
  | _ => (replicate 1101 48, 0)
  end.

Definition tie_to_even (x : f64) (digits : list Z) (exponent : Z) : option (list Z) :=
  match last digits with
  | None => None
  | Some final =>
      if final mod 2 =? 0 then None
      else
        let '(exact, exact_exponent) := exact_digits x in
        if negb (exact_exponent =? exponent) then None
        else if negb (Nat.leb (length digits) (length exact)) then None
        else
          let truncated := take (length digits) exact in
          match drop (length digits) exact with
          | 53 :: rest =>
              if negb (forallb (Z.eqb 48) rest) then None
              else
                match last truncated with
                | None => None
                | Some t =>
                    let alternative :=
                      if bool_decide (digits = truncated) then removelast truncated ++ [t + 1]
                      else truncated in
                    if negb (Nat.eqb (length alternative) (length digits))
                       || bool_decide (last alternative = Some 48) then None
                    else
                      let reparsed := f64_of_decimal false (digits_value alternative)
                                        (exponent - Z.of_nat (length alternative) + 1) in
                      if SF_same reparsed x then Some alternative else None
                end
          | _ => None
          end
  end.

Definition py_float_repr (x : f64) : option (list Z) :=
  if negb (is_finite x) then None
  else
    let magnitude := f64_abs x in
    let '(digits, exponent) := scientific_digits magnitude in
    let digits := match tie_to_even magnitude digits exponent with Some even => even | None => digits end in
    let count := Z.of_nat (length digits) in
    let sign := if is_sign_negative x then [45] else [] in
    Some (sign ++
      if (-4 <=? exponent) && (exponent <=? 15) then
        let point := exponent + 1 in
        if point <=? 0 then bytes_of "0." ++ replicate (Z.to_nat (- point)) 48 ++ digits
        else if point <? count then
          take (Z.to_nat point) digits ++ [46] ++ drop (Z.to_nat point) digits
        else digits ++ replicate (Z.to_nat (point - count)) 48 ++ bytes_of ".0"
      else
        take 1 digits ++ (if Nat.ltb 1 (length digits) then 46 :: drop 1 digits else []) ++ [101]
        ++ [if exponent <? 0 then 45 else 43]
        ++ (let e := digits_of (Z.abs exponent) in replicate (2 - length e) 48 ++ e)).

(** ** The source's vectors: value as digits and exponent, and Python's text *)

Definition repr_of (neg : bool) (digits exponent : Z) : option string :=
  string_of <$> py_float_repr (f64_of_decimal neg digits exponent).

Example float_repr_matches_python :
  [repr_of false 1 0; repr_of false 1 16; repr_of false 1 15; repr_of false 15 15; repr_of false 1 (-5);
   repr_of false 1 (-4); repr_of true 0 0; repr_of false 1 (-1);
   repr_of false 123456789012345680 0; repr_of false 12345 (-8);
   repr_of true 15 (-8); repr_of true 111317812059200225 (-2); repr_of true 233891771783429625 (-3);
   repr_of false 111659285584252125 (-3)]
  = [Some "1.0"; Some "1e+16"; Some "1000000000000000.0"; Some "1.5e+16"; Some "1e-05";
     Some "0.0001"; Some "-0.0"; Some "0.1";
     Some "1.2345678901234568e+17"; Some "0.00012345";
     Some "-1.5e-07"; Some "-1113178120592002.2"; Some "-233891771783429.62";
     Some "111659285584252.12"].
Proof. vm_compute. reflexivity. Qed.
