(* ===== verification/Json.v ===== *)
(** * The JSON value model ([host-enforcement/crates/i05-protocol/src/json.rs])

    Generalized UTF-8 strings, exact decimal integers, values with members in document order,
    the strict parser with its explicit stack, the canonical encoder with its explicit task
    list, the gate's own documents ([Doc]), the walks and the three equalities.  This file
    holds the definitions; [JsonParse], [JsonEncode], [JsonWalks] and [JsonRoundtrip] the theorems. *)

From S2P Require Import Prelude Float.
Definition MAX_INT_DIGITS : nat := 4300.

(** ** UTF-8 *)

Definition continuation (b : Z) : bool := (128 <=? b) && (b <? 192).

(** [std::str::from_utf8]: well-formed UTF-8 (no overlong form, no surrogate, at most U+10FFFF). *)
Fixpoint utf8_valid (l : list Z) : bool :=
  match l with
  | [] => true
  | b :: l1 =>
      if (0 <=? b) && (b <? 128) then utf8_valid l1
      else
        match l1 with
        | [] => false
        | c1 :: l2 =>
            if (194 <=? b) && (b <=? 223) then continuation c1 && utf8_valid l2
            else
              match l2 with
              | [] => false
              | c2 :: l3 =>
                  if (224 <=? b) && (b <=? 239) then
                    continuation c1 && continuation c2
                    && (if b =? 224 then 160 <=? c1 else true)
                    && (if b =? 237 then c1 <? 160 else true) && utf8_valid l3
                  else
                    match l3 with
                    | [] => false
                    | c3 :: l4 =>
                        (240 <=? b) && (b <=? 244) && continuation c1 && continuation c2 && continuation c3
                        && (if b =? 240 then 144 <=? c1 else true)
                        && (if b =? 244 then c1 <? 144 else true) && utf8_valid l4
                    end
              end
        end
  end.

(** [std::str::from_utf8(raw).ok()], as text. *)
Definition from_utf8 (raw : list Z) : option string :=
  if utf8_valid raw then Some (string_of raw) else None.

(** ** Strings: code points as generalized UTF-8 *)

Abbreviation JStr := (list Z).

Definition jstr (text : string) : JStr := bytes_of text.
Definition jstr_as_str (s : JStr) : option string := from_utf8 s.
Definition has_lone_surrogate (s : JStr) : bool := negb (utf8_valid s).
Definition len_code_points (s : JStr) : nat :=
  length (List.filter (λ b, negb (Z.land b 0xC0 =? 0x80)) s).

Definition push_cp (cp : Z) : list Z :=
  if cp <? 0x80 then [cp]
  else if cp <? 0x800 then [Z.lor 0xC0 (Z.shiftr cp 6); Z.lor 0x80 (Z.land cp 0x3F)]
  else if cp <? 0x10000 then
    [Z.lor 0xE0 (Z.shiftr cp 12); Z.lor 0x80 (Z.land (Z.shiftr cp 6) 0x3F); Z.lor 0x80 (Z.land cp 0x3F)]
  else
    [Z.lor 0xF0 (Z.land (Z.shiftr cp 18) 0x07); Z.lor 0x80 (Z.land (Z.shiftr cp 12) 0x3F);
     Z.lor 0x80 (Z.land (Z.shiftr cp 6) 0x3F); Z.lor 0x80 (Z.land cp 0x3F)].

(** [CodePoints::next], repeated: it stops at a truncated sequence. *)
Fixpoint code_points_go (fuel : nat) (bytes : list Z) : list Z :=
  match fuel, bytes with
  | S fuel, first :: _ =>
      let '(length_, cp) :=
        if first <? 0x80 then (1%nat, first)
        else if 0xF0 <=? first then (4%nat, Z.land first 0x07)
        else if 0xE0 <=? first then (3%nat, Z.land first 0x0F)
        else (2%nat, Z.land first 0x1F) in
      if Nat.ltb (length bytes) length_ then []
      else
        fold_left (λ cp b, Z.lor (Z.shiftl cp 6) (Z.land b 0x3F)) (take (length_ - 1) (drop 1 bytes)) cp
        :: code_points_go fuel (drop length_ bytes)
  | _, _ => []
  end.
Definition code_points (s : JStr) : list Z := code_points_go (length s) s.

(** ** Exact integers *)

Record Int := mkInt { negative : bool; magnitude : list Z }.

Definition int_zero : Int := mkInt false [48].
Definition int_from_i64 (value : Z) : Int := mkInt (value <? 0) (digits_of (Z.abs value)).

Fixpoint trim_zeros (l : list Z) : list Z :=
  match l with
  | d :: l' => if d =? 48 then trim_zeros l' else l
  | [] => []
  end.

Definition parse_decimal (text : list Z) : option Int :=
  let '(neg, digits) := match text with 45 :: rest => (true, rest) | _ => (false, text) end in
  if bool_decide (digits = []) || negb (forallb is_digit digits) then None
  else match trim_zeros digits with
       | [] => Some int_zero
       | trimmed => Some (mkInt neg trimmed)
       end.

Definition int_digits (i : Int) : nat := length (magnitude i).

Definition to_i128 (i : Int) : option Z :=
  if Nat.ltb 38 (length (magnitude i)) then None
  else Some (if negative i then - digits_value (magnitude i) else digits_value (magnitude i)).

Definition to_i64 (i : Int) : option Z := let* v := to_i128 i in i64_try_from v.
Definition to_u64 (i : Int) : option Z := let* v := to_i128 i in u64_try_from v.

Definition to_decimal (i : Int) : list Z := if negative i then 45 :: magnitude i else magnitude i.

Definition int_cmp (i j : Int) : comparison :=
  match negative i, negative j with
  | false, true => Gt
  | true, false => Lt
  | neg, _ =>
      let m := match Nat.compare (length (magnitude i)) (length (magnitude j)) with
               | Eq => bytes_cmp (magnitude i) (magnitude j)
               | c => c
               end in
      if neg then CompOpp m else m
  end.

(** Exact comparison of an integer with a double ([None] for NaN). *)
Definition cmp_f64 (i : Int) (x : f64) : option comparison :=
  match x with
  | S754_nan => None
  | S754_infinity s => Some (if s then Gt else Lt)
  | _ =>
      let whole := f64_trunc x in
      let exact := mkInt (whole <? 0) (digits_of (Z.abs whole)) in
      Some match int_cmp i exact with
           | Eq => match f64_fract_sign x with Gt => Lt | Lt => Gt | Eq => Eq end
           | other => other
           end
  end.

(** ** Values *)

Inductive Value :=
| VNull
| VBool (b : bool)
| VInt (i : Int)
| VFloat (x : f64)
| VStr (s : JStr)
| VArray (items : list Value)
| VObject (entries : list (JStr * Value)).

(** An [Object]'s members in document order. *)
Abbreviation Object := (list (JStr * Value)).

Definition object_get (o : Object) (key : JStr) : option Value :=
  snd <$> List.find (λ e, bool_decide (e.1 = key)) o.
Definition object_contains_key (o : Object) (key : JStr) : bool :=
  existsb (λ e : JStr * Value, bool_decide (e.1 = key)) o.

(** Python [dict[key] = value]: replaces in place, or appends. *)
Fixpoint object_insert (o : Object) (key : JStr) (value : Value) : Object :=
  match o with
  | [] => [(key, value)]
  | e :: o => if bool_decide (e.1 = key) then (e.1, value) :: o else e :: object_insert o key value
  end.

Definition value_str (text : string) : Value := VStr (jstr text).
Definition value_int (value : Z) : Value := VInt (int_from_i64 value).

(** [Object::remove], without the removed value. *)
Fixpoint object_remove (o : Object) (key : JStr) : Object :=
  match o with
  | [] => []
  | (name, member) :: o => if bool_decide (name = key) then o else (name, member) :: object_remove o key
  end.

Definition as_object (v : Value) : option Object := match v with VObject o => Some o | _ => None end.
Definition as_array (v : Value) : option (list Value) := match v with VArray l => Some l | _ => None end.
Definition as_str (v : Value) : option string := match v with VStr s => jstr_as_str s | _ => None end.
Definition as_int (v : Value) : option Int := match v with VInt i => Some i | _ => None end.
Definition as_bool (v : Value) : option bool := match v with VBool b => Some b | _ => None end.
Definition is_null (v : Value) : bool := match v with VNull => true | _ => false end.

(** [value.get(key)] on an object; [None] for a missing key or a non-object. *)
Definition value_get (v : Value) (key : string) : option Value :=
  let* o := as_object v in object_get o (jstr key).

(** ** The parser *)

Inductive ParseError := Constant | Duplicate | Syntax.

(** A step of the parser: its result and the bytes left (the cursor), or the error. *)
Abbreviation parsed T := (result (T * list Z) ParseError).

Inductive Open :=
| OpenArray (items : list Value)
| OpenObject (pairs : list (JStr * Value)) (key : JStr).

Definition is_ws (b : Z) : bool := (b =? 32) || (b =? 9) || (b =? 10) || (b =? 13).

Fixpoint skip_ws (rest : list Z) : list Z :=
  match rest with
  | b :: rest' => if is_ws b then skip_ws rest' else rest
  | [] => []
  end.

Fixpoint skip_digits (rest : list Z) : list Z :=
  match rest with
  | b :: rest' => if is_digit b then skip_digits rest' else rest
  | [] => []
  end.

Definition peek (rest : list Z) : option Z := head rest.
Definition peek_digit (rest : list Z) : bool :=
  match rest with b :: _ => is_digit b | [] => false end.

(** [0], or a digit 1-9 and more digits. *)
Definition integer_part (rest : list Z) : result (list Z) ParseError :=
  match rest with
  | b :: rest' =>
      if b =? 48 then Ok rest'
      else if (49 <=? b) && (b <=? 57) then Ok (skip_digits rest)
      else Err Syntax
  | [] => Err Syntax
  end.

(** [.] and digits, if a digit follows the point. *)
Definition fraction_part (rest : list Z) : bool * list Z :=
  match rest with
  | 46 :: b :: rest' => if is_digit b then (true, skip_digits rest') else (false, rest)
  | _ => (false, rest)
  end.

(** [e], a sign and digits; without digits the cursor goes back. *)
Definition exponent_part (is_float : bool) (rest : list Z) : bool * list Z :=
  match rest with
  | e :: after =>
      if (e =? 101) || (e =? 69) then
        let digits_start := match after with
                            | s :: after' => if (s =? 43) || (s =? 45) then after' else after
                            | [] => after
                            end in
        if peek_digit digits_start then (true, skip_digits digits_start) else (is_float, rest)
      else (is_float, rest)
  | [] => (is_float, rest)
  end.

(** The number grammar; [start] is the cursor at the number's first byte. *)
Definition number (start : list Z) : parsed Value :=
  let neg := bool_decide (peek start = Some 45) in
  let? integer_end := integer_part (if neg then drop 1 start else start) in
  let '(is_float, rest) := fraction_part integer_end in
  let '(is_float, rest) := exponent_part is_float rest in
  let text := take (length start - length rest) start in
  if (is_float : bool) then
    (* [text.parse::<f64>()], on the parts of the number just recognised *)
    let int_part := take (length start - length integer_end) start in
    let int_digits := if neg then drop 1 int_part else int_part in
    let after := drop (length int_part) text in
    let frac := match after with 46 :: a => take (length a - length (skip_digits a)) a | _ => [] end in
    let exp_text := drop (match after with 46 :: _ => S (length frac) | _ => 0 end) after in
    let exponent :=
      match exp_text with
      | _ :: 45 :: ds => - digits_value ds
      | _ :: 43 :: ds => digits_value ds
      | _ :: ds => digits_value ds
      | [] => 0
      end in
    Ok (VFloat (f64_of_decimal neg (digits_value (int_digits ++ frac)) (exponent - Z.of_nat (length frac))), rest)
  else
    let digits := (length start - length integer_end - (if neg then 1 else 0))%nat in
    if Nat.ltb MAX_INT_DIGITS digits then Err Syntax
    else match parse_decimal text with Some i => Ok (VInt i, rest) | None => Err Syntax end.

Definition hex_value (b : Z) : option Z :=
  if (48 <=? b) && (b <=? 57) then Some (b - 48)
  else if (97 <=? b) && (b <=? 102) then Some (b - 97 + 10)
  else if (65 <=? b) && (b <=? 70) then Some (b - 65 + 10)
  else None.

Fixpoint hex_go (count : nat) (value : Z) (rest : list Z) : parsed Z :=
  match count with
  | O => Ok (value, rest)
  | S count =>
      match rest with
      | b :: rest =>
          match hex_value b with
          | Some digit => hex_go count (Z.lor (Z.shiftl value 4) digit) rest
          | None => Err Syntax
          end
      | [] => Err Syntax
      end
  end.
Definition hex4 (rest : list Z) : parsed Z := hex_go 4 0 rest.

Definition in_range (low high x : Z) : bool := (low <=? x) && (x <=? high).

(** The code point after [\u], joining an escaped surrogate pair. *)
Definition unicode_escape (rest : list Z) : parsed Z :=
  let? (high, rest) := hex4 rest in
  if in_range 0xD800 0xDBFF high && starts_with (bytes_of "\u") rest then
    let resume := rest in
    let? (low, rest) := hex4 (drop 2 rest) in
    if in_range 0xDC00 0xDFFF low then
      Ok (0x10000 + Z.shiftl (high - 0xD800) 10 + (low - 0xDC00), rest)
    else Ok (high, resume)
  else Ok (high, rest).

(** The code point of an escape whose letter is [escape]; [rest] follows it. *)
Definition escape_cp (escape : Z) (rest : list Z) : parsed Z :=
  if escape =? 34 then Ok (0x22, rest)
  else if escape =? 92 then Ok (0x5C, rest)
  else if escape =? 47 then Ok (0x2F, rest)
  else if escape =? 98 then Ok (0x08, rest)
  else if escape =? 102 then Ok (0x0C, rest)
  else if escape =? 110 then Ok (0x0A, rest)
  else if escape =? 114 then Ok (0x0D, rest)
  else if escape =? 116 then Ok (0x09, rest)
  else if escape =? 117 then unicode_escape rest
  else Err Syntax.

(** The body of a string, after its opening quote. *)
Fixpoint string_loop (fuel : nat) (out : JStr) (rest : list Z) : run (JStr * list Z) ParseError :=
  match fuel with
  | O => OutOfFuel
  | S fuel =>
      match rest with
      | [] => Fail Syntax
      | byte :: rest =>
          if byte =? 34 then Done (out, rest)
          else if byte =? 92 then
            match rest with
            | [] => Fail Syntax
            | escape :: rest =>
                match escape_cp escape rest with
                | Ok (cp, rest) => string_loop fuel (out ++ push_cp cp) rest
                | Err e => Fail e
                end
            end
          else if byte <? 0x20 then Fail Syntax
          else string_loop fuel (out ++ [byte]) rest
      end
  end.

Definition parse_string (rest : list Z) : run (JStr * list Z) ParseError :=
  string_loop (S (length rest)) [] (drop 1 rest).

(** A member name and its [:]. *)
Definition parse_key (rest : list Z) : run (JStr * list Z) ParseError :=
  if negb (bool_decide (peek rest = Some 34)) then Fail Syntax
  else
    let! (key, rest) := parse_string rest in
    let rest := skip_ws rest in
    match rest with
    | 58 :: rest => Done (key, skip_ws rest)
    | _ => Fail Syntax
    end.

Definition scalar (rest : list Z) : parsed Value :=
  match rest with
  | [] => Err Syntax
  | b :: _ =>
      if (b =? 110) && starts_with (bytes_of "null") rest then Ok (VNull, drop 4 rest)
      else if (b =? 116) && starts_with (bytes_of "true") rest then Ok (VBool true, drop 4 rest)
      else if (b =? 102) && starts_with (bytes_of "false") rest then Ok (VBool false, drop 5 rest)
      else if (b =? 78) && starts_with (bytes_of "NaN") rest then Err Constant
      else if (b =? 73) && starts_with (bytes_of "Infinity") rest then Err Constant
      else if (b =? 45) && bool_decide (peek (drop 1 rest) = Some 73) then
        if starts_with (bytes_of "-Infinity") rest then Err Constant else Err Syntax
      else if (b =? 45) || is_digit b then number rest
      else Err Syntax
  end.

Fixpoint keys_distinct (keys seen : list JStr) : bool :=
  match keys with
  | [] => true
  | k :: keys => if bool_decide (k ∈ seen) then false else keys_distinct keys (k :: seen)
  end.

Definition unique_object (pairs : list (JStr * Value)) : result Object ParseError :=
  if keys_distinct (map fst pairs) [] then Ok pairs else Err Duplicate.

(** What comes after one value was attached to its container. *)
Inductive Attached :=
| Finished (v : Value)
| MoreValues (stack : list Open) (rest : list Z).

(** The inner loop: attaches a finished value, closing containers as far as they end here.
    The stack's top is the list's head; every turn after the first pops one container. *)
Fixpoint attach (stack : list Open) (value : Value) (rest : list Z) : run Attached ParseError :=
  match stack with
  | [] =>
      match skip_ws rest with
      | [] => Done (Finished value)
      | _ => Fail Syntax
      end
  | OpenArray items :: stack =>
      let items := items ++ [value] in
      match skip_ws rest with
      | 44 :: rest => Done (MoreValues (OpenArray items :: stack) (skip_ws rest))
      | 93 :: rest => attach stack (VArray items) rest
      | _ => Fail Syntax
      end
  | OpenObject pairs key :: stack =>
      let pairs := pairs ++ [(key, value)] in
      match skip_ws rest with
      | 44 :: rest =>
          let! (key, rest) := parse_key (skip_ws rest) in
          Done (MoreValues (OpenObject pairs key :: stack) rest)
      | 125 :: rest =>
          match unique_object pairs with
          | Ok o => attach stack (VObject o) rest
          | Err e => Fail e
          end
      | _ => Fail Syntax
      end
  end.

(** The outer loop: one value starts at the cursor. *)
Fixpoint run_loop (fuel : nat) (stack : list Open) (rest : list Z) : run Value ParseError :=
  match fuel with
  | O => OutOfFuel
  | S fuel =>
      let finish (value : Value) (rest : list Z) :=
        let! next := attach stack value rest in
        match next with
        | Finished v => Done v
        | MoreValues stack rest => run_loop fuel stack rest
        end in
      match rest with
      | 123 :: rest =>
          let rest := skip_ws rest in
          if bool_decide (peek rest = Some 125) then finish (VObject []) (drop 1 rest)
          else
            let! (key, rest) := parse_key rest in
            run_loop fuel (OpenObject [] key :: stack) rest
      | 91 :: rest =>
          let rest := skip_ws rest in
          if bool_decide (peek rest = Some 93) then finish (VArray []) (drop 1 rest)
          else run_loop fuel (OpenArray [] :: stack) rest
      | 34 :: _ => let! (s, rest) := parse_string rest in finish (VStr s) rest
      | _ => let! (v, rest) := run_of_result (scalar rest) in finish v rest
      end
  end.

Definition parse_run (text : list Z) : run Value ParseError :=
  let rest := skip_ws text in run_loop (S (length rest)) [] rest.

Definition parse (text : list Z) : result Value ParseError :=
  match parse_run text with Done v => Ok v | Fail e => Err e | OutOfFuel => Err Syntax end.

(** ** The canonical encoder *)

Inductive EncodeError := LoneSurrogate | NonFiniteFloat | IntegerTooLong.

Definition hex_lower (n : Z) : Z := nth (Z.to_nat n) (bytes_of "0123456789abcdef") 0.

Definition escape_byte (byte : Z) : list Z :=
  if byte =? 34 then [92; 34]
  else if byte =? 92 then [92; 92]
  else if byte =? 10 then bytes_of "\n"
  else if byte =? 13 then bytes_of "\r"
  else if byte =? 9 then bytes_of "\t"
  else if byte =? 8 then bytes_of "\b"
  else if byte =? 12 then bytes_of "\f"
  else if byte <=? 0x1F then bytes_of "\u00" ++ [hex_lower (Z.shiftr byte 4); hex_lower (Z.land byte 0x0F)]
  else [byte].

Definition escape (text : list Z) : list Z := [34] ++ flat_map escape_byte text ++ [34].

Definition write_jstr (text : JStr) : result (list Z) EncodeError :=
  if has_lone_surrogate text then Err LoneSurrogate else Ok (escape text).

(** [members.sort_by(|left, right| left.0.cmp(&right.0))]: a stable sort by key. *)
Fixpoint insert_member {V} (e : JStr * V) (l : list (JStr * V)) : list (JStr * V) :=
  match l with
  | [] => [e]
  | e' :: l' => if bytes_leb e.1 e'.1 then e :: l else e' :: insert_member e l'
  end.
Definition sort_members {V} (l : list (JStr * V)) : list (JStr * V) := foldr insert_member [] l.

Inductive Task :=
| TaskValue (v : Value)
| TaskByte (b : Z)
| TaskKey (k : JStr).

(** The tasks of a container's items, separated by commas (the first at the head). *)
Definition comma_tasks (first : bool) : list Task := if first then [] else [TaskByte 44].

Fixpoint item_tasks (first : bool) (items : list Value) : list Task :=
  match items with
  | [] => []
  | v :: items => comma_tasks first ++ [TaskValue v] ++ item_tasks false items
  end.

Fixpoint member_tasks (first : bool) (members : list (JStr * Value)) : list Task :=
  match members with
  | [] => []
  | e :: members => comma_tasks first ++ [TaskKey e.1; TaskValue e.2] ++ member_tasks false members
  end.

(** One popped task: the bytes it writes and the tasks it pushes. *)
Definition task_step (task : Task) : result (list Z * list Task) EncodeError :=
  match task with
  | TaskByte byte => Ok ([byte], [])
  | TaskKey key => let? text := write_jstr key in Ok (text ++ [58], [])
  | TaskValue VNull => Ok (bytes_of "null", [])
  | TaskValue (VBool true) => Ok (bytes_of "true", [])
  | TaskValue (VBool false) => Ok (bytes_of "false", [])
  | TaskValue (VInt i) =>
      if Nat.ltb MAX_INT_DIGITS (int_digits i) then Err IntegerTooLong else Ok (to_decimal i, [])
  | TaskValue (VFloat x) =>
      match py_float_repr x with Some text => Ok (text, []) | None => Err NonFiniteFloat end
  | TaskValue (VStr s) => let? text := write_jstr s in Ok (text, [])
  | TaskValue (VArray items) => Ok ([91], item_tasks true items ++ [TaskByte 93])
  | TaskValue (VObject o) => Ok ([123], member_tasks true (sort_members o) ++ [TaskByte 125])
  end.

(** [while let Some(task) = tasks.pop()] *)
Fixpoint canonical_loop (fuel : nat) (out : list Z) (tasks : list Task) : run (list Z) EncodeError :=
  match tasks with
  | [] => Done out
  | task :: tasks =>
      match fuel with
      | O => OutOfFuel
      | S fuel =>
          match task_step task with
          | Ok (bytes, pushed) => canonical_loop fuel (out ++ bytes) (pushed ++ tasks)
          | Err e => Fail e
          end
      end
  end.

(** A bound on the tasks of a value: itself, its brackets, separators and keys. *)
Fixpoint weight (v : Value) : nat :=
  match v with
  | VArray items => 2 + list_sum (map (λ v, 1 + weight v)%nat items)
  | VObject o => 2 + list_sum (map (λ e, 2 + weight e.2)%nat o)
  | _ => 1
  end.

Definition canonical_run (v : Value) : run (list Z) EncodeError :=
  canonical_loop (weight v) [] [TaskValue v].

Definition canonical (v : Value) : result (list Z) EncodeError :=
  match canonical_run v with Done out => Ok out | Fail e => Err e | OutOfFuel => Err NonFiniteFloat end.

(** ** The gate's own documents *)

Inductive Doc :=
| DNull
| DBool (b : bool)
| DInt (n : Z)
| DStr (s : string)
| DArray (items : list Doc)
| DObject (members : list (string * Doc)).

Definition doc_opt_str (text : option string) : Doc :=
  match text with Some text => DStr text | None => DNull end.

Fixpoint write_items (first : bool) (items : list (list Z)) : list Z :=
  match items with
  | [] => []
  | out :: items => (if first then [] else [44]) ++ out ++ write_items false items
  end.

(** [Doc::write]: members sorted by key, no escape but the canonical ones. *)
Fixpoint doc_canonical (d : Doc) : list Z :=
  match d with
  | DNull => bytes_of "null"
  | DBool true => bytes_of "true"
  | DBool false => bytes_of "false"
  | DInt n => decimal n
  | DStr s => escape (bytes_of s)
  | DArray items => [91] ++ write_items true (map doc_canonical items) ++ [93]
  | DObject members =>
      [123] ++ write_items true
        (map (λ e : JStr * list Z, escape e.1 ++ [58] ++ e.2)
          (sort_members (map (λ e, (bytes_of e.1, doc_canonical e.2)) members))) ++ [125]
  end.

Fixpoint doc_to_value (d : Doc) : Value :=
  match d with
  | DNull => VNull
  | DBool b => VBool b
  | DInt n => value_int n
  | DStr s => value_str s
  | DArray items => VArray (map doc_to_value items)
  | DObject members =>
      VObject (fold_left (λ o e, object_insert o e.1 e.2)
                 (map (λ e, (jstr e.1, doc_to_value e.2)) members) [])
  end.

(** ** Walks, with an explicit stack *)

Definition children (v : Value) : list Value :=
  match v with
  | VArray items => items
  | VObject o => map snd o
  | _ => []
  end.

(** [while let Some((node, level)) = stack.pop()]; the children are pushed in order, so the
    last one is popped first. *)
Fixpoint depth_loop (fuel : nat) (deepest : nat) (stack : list (Value * nat)) : option nat :=
  match stack with
  | [] => Some deepest
  | (node, level) :: stack =>
      match fuel with
      | O => None
      | S fuel =>
          match node with
          | VArray _ | VObject _ =>
              depth_loop fuel (Nat.max deepest (S level)) (rev (map (λ v, (v, S level)) (children node)) ++ stack)
          | _ => depth_loop fuel deepest stack
          end
      end
  end.

Definition depth (v : Value) : nat := default 0%nat (depth_loop (weight v) 0 [(v, 0%nat)]).

(** [contains_float] and [contains_control]: a test at each node, then its children. *)
Fixpoint any_loop (test : Value → bool) (fuel : nat) (stack : list Value) : option bool :=
  match stack with
  | [] => Some false
  | node :: stack =>
      match fuel with
      | O => None
      | S fuel => if test node then Some true else any_loop test fuel (rev (children node) ++ stack)
      end
  end.

Definition is_float (v : Value) : bool := match v with VFloat _ => true | _ => false end.
Definition contains_float (v : Value) : bool := default false (any_loop is_float (weight v) [v]).

Definition control (text : JStr) : bool := existsb (λ byte, (byte <? 0x20) || (byte =? 0x7F)) text.
Definition has_control (v : Value) : bool :=
  match v with
  | VStr text => control text
  | VObject o => existsb (λ e : JStr * Value, control e.1) o
  | _ => false
  end.
Definition contains_control (v : Value) : bool := default false (any_loop has_control (weight v) [v]).

(** ** Equalities *)

Definition number_cmp (left right : Value) (bool_is_int : bool) : option comparison :=
  let as_int v := match v with
                  | VInt i => Some i
                  | VBool flag => if bool_is_int then Some (int_from_i64 (if flag then 1 else 0)) else None
                  | _ => None
                  end in
  match left, right with
  | VFloat x, VFloat y => f64_partial_cmp x y
  | VFloat x, other => let* i := as_int other in CompOpp <$> cmp_f64 i x
  | other, VFloat y => let* i := as_int other in cmp_f64 i y
  | _, _ => let* i := as_int left in let* j := as_int right in Some (int_cmp i j)
  end.

(** [structural_eq]: [scalar] decides every pair that is not two arrays or two objects. *)
Definition object_pairs (x y : Object) : option (list (Value * Value)) :=
  foldr (λ e acc, match acc, object_get y e.1 with
                  | Some pairs, Some other => Some ((e.2, other) :: pairs)
                  | _, _ => None
                  end) (Some []) x.

Fixpoint structural_eq_loop (scalar_eq : Value → Value → option bool) (fuel : nat)
    (stack : list (Value * Value)) : option bool :=
  match stack with
  | [] => Some true
  | (a, b) :: stack =>
      match fuel with
      | O => None
      | S fuel =>
          match scalar_eq a b with
          | Some true => structural_eq_loop scalar_eq fuel stack
          | Some false => Some false
          | None =>
              match a, b with
              | VArray x, VArray y =>
                  if negb (Nat.eqb (length x) (length y)) then Some false
                  else structural_eq_loop scalar_eq fuel (rev (zip x y) ++ stack)
              | VObject x, VObject y =>
                  if negb (Nat.eqb (length x) (length y)) then Some false
                  else match object_pairs x y with
                       | Some pairs => structural_eq_loop scalar_eq fuel (rev pairs ++ stack)
                       | None => Some false
                       end
              | _, _ => Some false
              end
          end
      end
  end.

Definition structural_eq (scalar_eq : Value → Value → option bool) (left right : Value) : bool :=
  default false (structural_eq_loop scalar_eq (weight left) [(left, right)]).

Definition same_number (a b : Value) (bool_is_int : bool) : bool :=
  bool_decide (number_cmp a b bool_is_int = Some Eq).

(** Python [==]: [True == 1 == 1.0]. *)
Definition py_scalar (a b : Value) : option bool :=
  match a, b with
  | VNull, VNull => Some true
  | VStr x, VStr y => Some (bool_decide (x = y))
  | VArray _, VArray _ | VObject _, VObject _ => None
  | (VBool _ | VInt _ | VFloat _), (VBool _ | VInt _ | VFloat _) => Some (same_number a b true)
  | _, _ => Some false
  end.
Definition py_eq (left right : Value) : bool := structural_eq py_scalar left right.

(** The [jsonschema] equality: a boolean only equals a boolean. *)
Definition schema_scalar (a b : Value) : option bool :=
  match a, b with
  | VNull, VNull => Some true
  | VBool x, VBool y => Some (Bool.eqb x y)
  | VStr x, VStr y => Some (bool_decide (x = y))
  | VArray _, VArray _ | VObject _, VObject _ => None
  | (VInt _ | VFloat _), (VInt _ | VFloat _) => Some (same_number a b false)
  | _, _ => Some false
  end.
Definition schema_eq (left right : Value) : bool := structural_eq schema_scalar left right.

(** ** Vectors of the source's own tests *)

Definition code (text : string) : option ParseError :=
  match parse (bytes_of text) with Ok _ => None | Err e => Some e end.

Example parser_accepts_python_json :
  Forall (λ t, code t = None) ["{}"; " {} "; "[1 , 2]"; "true"; "null"; "-0"; "-0.0"; "1e5"; "0.1e1"; "1.0E+2"].
Proof. repeat constructor. Qed.

Example parser_refuses_like_python :
  Forall (λ t, code t = Some Syntax)
    ["01"; "-"; "1."; ".5"; "+1"; "[1,]"; "nul"; "-01"; "2."; "1e"; "1e+"; "[-]"; "-NaN"; "[1]x"; ""; " "; "[1"].
Proof. repeat constructor. Qed.

Example parser_refuses_constants :
  Forall (λ t, code t = Some Constant) ["NaN"; "Infinity"; "-Infinity"; "[1, NaN]"].
Proof. repeat constructor. Qed.

Example canonical_sorts_keys :
  result_map string_of (canonical (VObject [(jstr "b", value_int 2); (jstr "a", VArray [VNull; VBool true])]))
  = Ok (string_of (doc_canonical (DObject [("a", DArray [DNull; DBool true]); ("b", DInt 2)]))).
Proof. vm_compute. reflexivity. Qed.
