(* ===== verification/JsonParse.v ===== *)
(** * The parser returns, and what it returns is well formed

    The fuel of the parser's loops is enough for every text, each step consuming at least one
    byte; and the values it builds have canonical integers, byte strings and distinct keys. *)

From S2P Require Import Prelude Float Json.
(** ** Consumption *)

(** [rest'] is a proper suffix of [rest], in length. *)
Abbreviation shorter rest' rest := (length rest' < length rest)%nat.

Lemma skip_ws_length rest : (length (skip_ws rest) ≤ length rest)%nat.
Proof. induction rest; simpl; [done|]. case_match; simpl; lia. Qed.
Lemma skip_digits_length rest : (length (skip_digits rest) ≤ length rest)%nat.
Proof. induction rest; simpl; [done|]. case_match; simpl; lia. Qed.

Lemma hex_go_length count value rest cp rest' :
  hex_go count value rest = Ok (cp, rest') → (length rest' ≤ length rest)%nat.
Proof.
  revert value rest. induction count as [|count IH]; intros value rest; simpl; [by intros [= <- <-]|].
  destruct rest as [|b rest]; [done|]. destruct (hex_value b); [|done]. intros H%IH. simpl. lia.
Qed.

Lemma unicode_escape_length rest cp rest' :
  unicode_escape rest = Ok (cp, rest') → (length rest' ≤ length rest)%nat.
Proof.
  unfold unicode_escape. intros ((high & rest1) & H1 & H)%result_bind_Ok. apply hex_go_length in H1.
  destruct (_ && _); [|by injection H as <- <-].
  apply result_bind_Ok in H as ((low & rest2) & H2%hex_go_length & H). rewrite length_drop in H2.
  destruct (in_range _ _ low); injection H as <- <-; lia.
Qed.

Lemma escape_cp_length escape rest cp rest' :
  escape_cp escape rest = Ok (cp, rest') → (length rest' ≤ length rest)%nat.
Proof.
  unfold escape_cp. repeat (case_match; [by intros [= <- <-]|]). case_match; [|done].
  apply unicode_escape_length.
Qed.

Lemma string_loop_returns fuel out rest :
  shorter rest (replicate fuel 0) →
  match string_loop fuel out rest with
  | OutOfFuel => False
  | Done (_, rest') => shorter rest' rest
  | Fail _ => True
  end.
Proof.
  revert out rest. induction fuel as [|fuel IH]; intros out rest; rewrite length_replicate; [lia|].
  intros Hl. cbn [string_loop]. destruct rest as [|byte rest]; [done|]. simpl in Hl.
  assert (Hstep : ∀ out rest', (length rest' ≤ length rest)%nat →
    match string_loop fuel out rest' with
    | OutOfFuel => False | Done (_, rest') => shorter rest' (byte :: rest) | Fail _ => True
    end).
  { intros out' rest' Hle. specialize (IH out' rest'). rewrite length_replicate in IH.
    destruct (string_loop fuel out' rest') as [[s r]| |]; simpl; try apply IH; lia. }
  destruct (byte =? 34); [simpl; lia|]. destruct (byte =? 92).
  - destruct rest as [|escape rest]; [done|]. destruct (escape_cp escape rest) as [[cp rest']|] eqn:He; [|done].
    apply Hstep. apply escape_cp_length in He. simpl. lia.
  - destruct (byte <? 0x20); [done|]. by apply Hstep.
Qed.

Lemma parse_string_returns rest : rest ≠ [] →
  match parse_string rest with
  | OutOfFuel => False
  | Done (_, rest') => shorter rest' rest
  | Fail _ => True
  end.
Proof.
  intros Hne. unfold parse_string. pose proof (string_loop_returns (S (length rest)) [] (drop 1 rest)) as H.
  rewrite length_replicate, length_drop in H.
  destruct (string_loop _ _ _) as [[s r]| |]; destruct rest; simpl in *; try apply H; try lia; done.
Qed.

Lemma parse_key_returns rest :
  match parse_key rest with
  | OutOfFuel => False
  | Done (_, rest') => shorter rest' rest
  | Fail _ => True
  end.
Proof.
  unfold parse_key. case_bool_decide as Hp; [|done]. simpl.
  assert (Hne : rest ≠ []) by by intros ->.
  pose proof (parse_string_returns rest Hne) as H. destruct (parse_string rest) as [[key rest1]| |]; [|done..].
  simpl. pose proof (skip_ws_length rest1) as Hw. destruct (skip_ws rest1) as [|c rest2]; [done|].
  pose proof (skip_ws_length rest2). simpl in Hw. default_branch. lia.
Qed.

Lemma integer_part_length rest rest' : integer_part rest = Ok rest' → shorter rest' rest.
Proof.
  unfold integer_part. destruct rest as [|b rest]; [done|]. simpl.
  destruct (b =? 48); [intros [= <-]; lia|]. destruct (_ && _) eqn:Hb; [|done].
  intros [= <-]. replace (is_digit b) with true by (unfold is_digit; lia).
  pose proof (skip_digits_length rest). lia.
Qed.

Lemma fraction_part_length rest : (length (fraction_part rest).2 ≤ length rest)%nat.
Proof.
  destruct rest as [|c [|b rest]]; [done|..].
  { unfold fraction_part. default_branch. }
  destruct (Z.eqb_spec c 46) as [->|]; [|unfold fraction_part; default_branch].
  cbn [fraction_part]. case_match; [|done]. pose proof (skip_digits_length rest). simpl. lia.
Qed.

Lemma exponent_part_length b rest : (length (exponent_part b rest).2 ≤ length rest)%nat.
Proof.
  unfold exponent_part. destruct rest as [|e after]; [done|]. destruct (_ || _); [|done].
  set (ds := match after with s :: _ => _ | _ => _ end).
  assert (Hd : (length ds ≤ length after)%nat) by (unfold ds; destruct after; simpl; [lia|]; case_match; simpl; lia).
  destruct (peek_digit ds); simpl; [pose proof (skip_digits_length ds)|]; lia.
Qed.

Lemma number_length start v rest : number start = Ok (v, rest) → shorter rest start.
Proof.
  unfold number. intros (rest1 & H1%integer_part_length & H)%result_bind_Ok.
  assert (Hd : (length (if bool_decide (peek start = Some 45%Z) then drop 1 start else start) ≤ length start)%nat)
    by (case_bool_decide; rewrite ?length_drop; lia).
  pose proof (fraction_part_length rest1) as L2. destruct (fraction_part rest1) as [is_float rest2]. simpl in L2.
  pose proof (exponent_part_length is_float rest2) as L3.
  destruct (exponent_part is_float rest2) as [is_float' rest3]. simpl in L3.
  assert (Hr : rest = rest3); [|subst; lia].
  destruct is_float'; [by injection H as <- <-|].
  destruct (Nat.ltb _ _); [done|]. destruct (parse_decimal _); [|done]. by injection H as <- <-.
Qed.

Lemma scalar_length rest v rest' : scalar rest = Ok (v, rest') → shorter rest' rest.
Proof.
  unfold scalar. destruct rest as [|b rest]; [done|].
  do 3 (destruct (_ && _); [intros [= <- <-]; simpl; rewrite ?length_drop; simpl; lia|]).
  do 2 (destruct (_ && _); [done|]). destruct (_ && _); [by destruct (starts_with _ _)|].
  destruct (_ || _); [|done]. apply number_length.
Qed.

Lemma attach_returns stack value rest :
  match attach stack value rest with
  | OutOfFuel => False
  | Done (MoreValues _ rest') => shorter rest' rest
  | _ => True
  end.
Proof.
  revert value rest. induction stack as [|[items|pairs key] stack IH]; intros value rest; cbn [attach].
  - by destruct (skip_ws rest).
  - pose proof (skip_ws_length rest) as Hw. destruct (skip_ws rest) as [|c rest1]; [done|]. simpl in Hw.
    destruct (Z.eqb_spec c 44) as [->|]; [pose proof (skip_ws_length rest1); lia|].
    destruct (Z.eqb_spec c 93) as [->|]; [|by default_branch].
    specialize (IH (VArray (items ++ [value])) rest1).
    destruct (attach stack _ rest1) as [[]| |]; simpl; try done; lia.
  - pose proof (skip_ws_length rest) as Hw. destruct (skip_ws rest) as [|c rest1]; [done|]. simpl in Hw.
    destruct (Z.eqb_spec c 44) as [->|].
    { pose proof (skip_ws_length rest1). pose proof (parse_key_returns (skip_ws rest1)) as Hk.
      destruct (parse_key (skip_ws rest1)) as [[key' rest2]| |]; simpl; [lia|done..]. }
    destruct (Z.eqb_spec c 125) as [->|]; [|by default_branch].
    destruct (unique_object _) as [o|]; [|done]. specialize (IH (VObject o) rest1).
    destruct (attach stack _ rest1) as [[]| |]; simpl; try done; lia.
Qed.

Lemma run_loop_returns fuel stack rest : (length rest < fuel)%nat → run_loop fuel stack rest ≠ OutOfFuel.
Proof.
  revert stack rest. induction fuel as [|fuel IH]; intros stack rest Hf; [lia|]. cbn [run_loop].
  assert (Hfin : ∀ value rest', (length rest' < length rest)%nat →
    (let! next := attach stack value rest' in
     match next with Finished v => Done v | MoreValues stack rest => run_loop fuel stack rest end) ≠ OutOfFuel).
  { intros value rest' Hl. pose proof (attach_returns stack value rest') as Ha.
    destruct (attach stack value rest') as [[v|stack' rest2]| |]; simpl; [done| |done|done]. apply IH. lia. }
  assert (Hsc : (let! (v, rest) := run_of_result (scalar rest) in
     let! next := attach stack v rest in
     match next with Finished v => Done v | MoreValues stack rest => run_loop fuel stack rest end) ≠ OutOfFuel).
  { destruct (scalar rest) as [[v rest']|] eqn:Hs; [|done]. apply scalar_length in Hs. by apply Hfin. }
  destruct rest as [|b rest]; [exact Hsc|]. simpl in Hf, Hfin.
  pose proof (skip_ws_length rest) as Hw.
  destruct (Z.eqb_spec b 123) as [->|H1].
  { case_bool_decide as Hp.
    { apply Hfin. rewrite length_drop. lia. }
    pose proof (parse_key_returns (skip_ws rest)) as Hk.
    destruct (parse_key (skip_ws rest)) as [[key rest2]| |]; simpl; [|done..]. apply IH. lia. }
  destruct (Z.eqb_spec b 91) as [->|H2].
  { case_bool_decide as Hp; [apply Hfin; rewrite length_drop|apply IH]; lia. }
  destruct (Z.eqb_spec b 34) as [->|H3].
  { pose proof (parse_string_returns (34 :: rest) ltac:(done)) as Hk.
    destruct (parse_string (34 :: rest)) as [[s rest2]| |]; simpl; [|done..]. apply Hfin. simpl in Hk. lia. }
  default_byte b Hsc; done.
Qed.

(** The parser returns on every text: its loops never run out of fuel. *)
Theorem parse_returns text : ∃ r, parse_run text = run_of_result r ∧ parse text = r.
Proof.
  unfold parse. pose proof (run_loop_returns (S (length (skip_ws text))) [] (skip_ws text)) as H.
  fold (parse_run text) in H. destruct (parse_run text) as [v|e|]; [by exists (Ok v)|by exists (Err e)|].
  destruct H; [lia|done].
Qed.
