(* ===== verification/JsonEncode.v ===== *)
(** * The encoder and the walks are the recursions they unroll

    [canonical], [depth], [contains_float], [contains_control] and [structural_eq] run on explicit
    stacks.  Each is shown to return, on every value, what a recursion over the value returns. *)

From S2P Require Import Prelude Float Json.
(** ** Nested induction *)

Section ValueInduction.
Variable P : Value → Prop.
Hypothesis Hnull : P VNull.
Hypothesis Hbool : ∀ b, P (VBool b).
Hypothesis Hint : ∀ i, P (VInt i).
Hypothesis Hfloat : ∀ x, P (VFloat x).
Hypothesis Hstr : ∀ s, P (VStr s).
Hypothesis Harray : ∀ items, Forall P items → P (VArray items).
Hypothesis Hobject : ∀ o, Forall (λ e : JStr * Value, P e.2) o → P (VObject o).

Fixpoint Value_nested_ind (v : Value) : P v :=
  match v with
  | VNull => Hnull
  | VBool b => Hbool b
  | VInt i => Hint i
  | VFloat x => Hfloat x
  | VStr s => Hstr s
  | VArray items =>
      Harray items ((fix all l : Forall P l :=
        match l with [] => Forall_nil_2 P | v :: l => Forall_cons_2 P v l (Value_nested_ind v) (all l) end) items)
  | VObject o =>
      Hobject o ((fix all l : Forall (λ e : JStr * Value, P e.2) l :=
        match l with
        | [] => Forall_nil_2 _
        | e :: l => Forall_cons_2 (λ e : JStr * Value, P e.2) e l (Value_nested_ind e.2) (all l)
        end) o)
  end.
End ValueInduction.

(** ** Sorting members *)

Lemma insert_member_perm {V} (e : JStr * V) l : insert_member e l ≡ₚ e :: l.
Proof.
  induction l as [|e' l IH]; [done|]. simpl. destruct (bytes_leb _ _); [done|].
  rewrite IH. by rewrite Permutation_swap.
Qed.

Lemma sort_members_perm {V} (l : list (JStr * V)) : sort_members l ≡ₚ l.
Proof. induction l as [|e l IH]; [done|]. simpl. by rewrite insert_member_perm, IH. Qed.

Lemma sort_members_map {V W} (f : V → W) (l : list (JStr * V)) :
  sort_members (map (λ e, (e.1, f e.2)) l) = map (λ e, (e.1, f e.2)) (sort_members l).
Proof.
  induction l as [|e l IH]; [done|]. simpl. rewrite IH. generalize (sort_members l). intros k.
  induction k as [|e' k IHk]; [done|]. simpl. destruct (bytes_leb _ _); [done|]. simpl. by rewrite IHk.
Qed.

(** ** The recursive encoder *)

Definition write_member (e : JStr * result (list Z) EncodeError) : result (list Z) EncodeError :=
  let? key := write_jstr e.1 in let? member := e.2 in Ok (key ++ [58] ++ member).

(** The first error of a sequence, or all the results. *)
Definition sequence {T E} (l : list (result T E)) : result (list T) E := result_mapM (λ r, r) l.

(** [json.dumps(value, sort_keys=True, separators=(",", ":"), ensure_ascii=False)]. *)
Fixpoint encode_value (v : Value) : result (list Z) EncodeError :=
  match v with
  | VNull => Ok (bytes_of "null")
  | VBool b => Ok (bytes_of (if b then "true" else "false"))
  | VInt i => if Nat.ltb MAX_INT_DIGITS (int_digits i) then Err IntegerTooLong else Ok (to_decimal i)
  | VFloat x => result_of_option (py_float_repr x) NonFiniteFloat
  | VStr s => write_jstr s
  | VArray items =>
      let? parts := sequence (map encode_value items) in Ok ([91] ++ write_items true parts ++ [93])
  | VObject o =>
      let? parts := sequence (map write_member (sort_members (map (λ e, (e.1, encode_value e.2)) o))) in
      Ok ([123] ++ write_items true parts ++ [125])
  end.

(** [tasks] write what [r] says, with at most [n] turns of the loop. *)
Definition writes (n : nat) (tasks : list Task) (r : result (list Z) EncodeError) : Prop :=
  ∀ f out more, ∃ f', (f ≤ f')%nat ∧
    canonical_loop (n + f) out (tasks ++ more) =
    match r with Ok bytes => canonical_loop f' (out ++ bytes) more | Err e => Fail e end.

Lemma writes_nil : writes 0 [] (Ok []).
Proof. intros f out more. exists f. by rewrite app_nil_r. Qed.

Lemma writes_more n m tasks r : (n ≤ m)%nat → writes n tasks r → writes m tasks r.
Proof.
  intros Hle Hw f out more. destruct (Hw (m - n + f)%nat out more) as (f' & Hf & He).
  exists f'. split; [lia|]. rewrite <-He. f_equal. lia.
Qed.

Lemma writes_app n m t1 t2 r1 r2 :
  writes n t1 r1 → writes m t2 r2 →
  writes (n + m) (t1 ++ t2) (let? b1 := r1 in let? b2 := r2 in Ok (b1 ++ b2)).
Proof.
  intros H1 H2 f out more. rewrite <-app_assoc.
  destruct (H1 (m + f)%nat out (t2 ++ more)) as (f1 & Hf1 & He). rewrite Nat.add_assoc in He. rewrite He.
  destruct r1 as [b1|e]; [|by exists f1; split; [lia|]]. simpl.
  destruct (H2 (f1 - m)%nat (out ++ b1) more) as (f2 & Hf2 & He2).
  replace (m + (f1 - m))%nat with f1 in He2 by lia. rewrite He2. exists f2. split; [lia|].
  destruct r2; simpl; [by rewrite app_assoc|done].
Qed.

Lemma writes_step n task b pushed r :
  task_step task = Ok (b, pushed) → writes n pushed r → writes (1 + n) [task] (let? c := r in Ok (b ++ c)).
Proof.
  intros Ht Hp f out more. cbn [app Nat.add canonical_loop]. rewrite Ht.
  destruct (Hp f (out ++ b) more) as (f' & Hf & ->). exists f'. split; [done|].
  destruct r; simpl; [by rewrite app_assoc|done].
Qed.

Lemma writes_bytes task b : task_step task = Ok (b, []) → writes 1 [task] (Ok b).
Proof.
  intros Ht. pose proof (writes_step 0 _ _ _ _ Ht writes_nil) as H. simpl in H. by rewrite app_nil_r in H.
Qed.

Lemma writes_error task e : task_step task = Err e → writes 1 [task] (Err e).
Proof. intros Ht f out more. exists f. split; [done|]. cbn [app Nat.add canonical_loop]. by rewrite Ht. Qed.

(** Writing every item, with separators, is writing the sequence. *)
Definition write_all (first : bool) (l : list (result (list Z) EncodeError)) : result (list Z) EncodeError :=
  result_map (write_items first) (sequence l).

Lemma write_all_cons first r l :
  write_all first (r :: l) =
  (let? b := (let? b1 := Ok (if first then [] else [44]) in let? b2 := r in Ok (b1 ++ b2)) in
   let? c := write_all false l in Ok (b ++ c)).
Proof.
  unfold write_all, sequence. destruct r as [b|]; [|done]. simpl. destruct (result_mapM _ l); [|done].
  simpl. by rewrite app_assoc.
Qed.

Lemma writes_comma first : writes 1 (comma_tasks first) (Ok (if first then [] else [44])).
Proof. destruct first; [by apply (writes_more 0 1), writes_nil; lia|by apply writes_bytes]. Qed.

Definition value_writes (v : Value) : Prop := writes (weight v) [TaskValue v] (encode_value v).

Lemma items_write first items :
  Forall value_writes items →
  writes (list_sum (map (λ v, 1 + weight v)%nat items)) (item_tasks first items)
    (write_all first (map encode_value items)).
Proof.
  intros Hf. revert first. induction Hf as [|v items Hv _ IH]; intros first; [apply writes_nil|].
  cbn [item_tasks map list_sum foldr]. rewrite write_all_cons, (app_assoc (comma_tasks first)).
  apply writes_app; [|apply IH]. apply writes_app; [apply writes_comma|exact Hv].
Qed.

Lemma member_writes (e : JStr * Value) :
  value_writes e.2 → writes (1 + weight e.2) [TaskKey e.1; TaskValue e.2] (write_member (e.1, encode_value e.2)).
Proof.
  intros Hv. unfold write_member. cbn [fst snd]. destruct (write_jstr e.1) as [key|err] eqn:Hk.
  - cbn [result_bind].
    assert (H1 : writes 1 [TaskKey e.1] (Ok (key ++ [58]))) by (apply writes_bytes; simpl; by rewrite Hk).
    pose proof (writes_app _ _ _ _ _ _ H1 Hv) as H. cbn [result_bind app] in H.
    destruct (encode_value e.2); simpl in H |- *; [|exact H]. by rewrite <-app_assoc in H.
  - assert (H1 : writes 1 [TaskKey e.1] (Err err)) by (apply writes_error; simpl; by rewrite Hk).
    exact (writes_app _ _ _ _ _ _ H1 Hv).
Qed.

Lemma members_write first (o : Object) :
  Forall (λ e : JStr * Value, value_writes e.2) o →
  writes (list_sum (map (λ e : JStr * Value, 2 + weight e.2)%nat o)) (member_tasks first o)
    (write_all first (map write_member (map (λ e, (e.1, encode_value e.2)) o))).
Proof.
  intros Hf. revert first. induction Hf as [|e o He _ IH]; intros first; [apply writes_nil|].
  cbn [member_tasks map list_sum foldr]. rewrite write_all_cons, (app_assoc (comma_tasks first)).
  apply writes_app; [|apply IH].
  apply (writes_app 1 (1 + weight e.2)); [apply writes_comma|by apply member_writes].
Qed.

Lemma list_sum_perm {A} (f : A → nat) l k : l ≡ₚ k → list_sum (map f l) = list_sum (map f k).
Proof. induction 1; simpl; lia. Qed.

Lemma bracket_write n open tasks parts (close : Z) :
  writes n tasks (write_all true parts) →
  ∀ task, task_step task = Ok ([open], tasks ++ [TaskByte close]) →
  writes (2 + n) [task] (let? parts := sequence parts in Ok ([open] ++ write_items true parts ++ [close])).
Proof.
  intros Hw task Ht.
  pose proof (writes_app _ _ _ _ _ _ Hw (writes_bytes (TaskByte close) [close] eq_refl)) as H.
  apply (writes_step _ _ _ _ _ Ht) in H. apply (writes_more (1 + (n + 1))); [lia|].
  unfold write_all in H. destruct (sequence parts); exact H.
Qed.

Lemma encode_value_writes v : value_writes v.
Proof.
  unfold value_writes. induction v as [|b|i|x|s|items IH|o IH] using Value_nested_ind; cbn [encode_value weight].
  - by apply writes_bytes.
  - by apply writes_bytes; destruct b.
  - destruct (Nat.ltb _ _) eqn:E; [apply writes_error|apply writes_bytes]; cbn [task_step]; by rewrite E.
  - destruct (py_float_repr x) eqn:E; [apply writes_bytes|apply writes_error]; cbn [task_step]; by rewrite E.
  - destruct (write_jstr s) eqn:E; [apply writes_bytes|apply writes_error]; cbn [task_step]; by rewrite E.
  - apply bracket_write with (tasks := item_tasks true items); [|done]. by apply items_write.
  - rewrite sort_members_map.
    apply bracket_write with (tasks := member_tasks true (sort_members o)); [|done].
    rewrite <-(list_sum_perm _ _ _ (sort_members_perm o)). apply members_write.
    by rewrite sort_members_perm.
Qed.

Lemma canonical_run_encode v : canonical_run v = run_of_result (encode_value v).
Proof.
  unfold canonical_run. destruct (encode_value_writes v 0%nat [] []) as (f & _ & H).
  rewrite Nat.add_0_r, app_nil_r in H. rewrite H. destruct (encode_value v) as [bytes|e]; [|done].
  by destruct f.
Qed.

Lemma canonical_encode v : canonical v = encode_value v.
Proof. unfold canonical. rewrite canonical_run_encode. by destruct (encode_value v). Qed.

(** The task loop writes what the recursive encoder says, on every value: Python's canonical
    text, or the first error in writing order; the loop never runs out of fuel. *)
Theorem canonical_is_recursive v :
  canonical_run v = run_of_result (encode_value v) ∧ canonical v = encode_value v.
Proof. split; [apply canonical_run_encode|apply canonical_encode]. Qed.

(** * The walks and the equalities return what recursions over the value return *)

Lemma list_sum_app l k : list_sum (l ++ k) = (list_sum l + list_sum k)%nat.
Proof. induction l; simpl; lia. Qed.
Lemma list_sum_rev l : list_sum (rev l) = list_sum l.
Proof. induction l; simpl; [done|]. rewrite list_sum_app. simpl. lia. Qed.

(** The turns a stack of values still needs. *)
Definition stack_weight (stack : list Value) : nat := list_sum (map weight stack).

Lemma weight_pos v : (1 ≤ weight v)%nat.
Proof. destruct v; simpl; lia. Qed.

Lemma weight_children v : (stack_weight (children v) < weight v)%nat.
Proof.
  unfold stack_weight. destruct v as [| | | | |items|o]; simpl; try lia.
  - induction items; simpl; lia.
  - induction o; simpl; lia.
Qed.

Lemma stack_weight_push v stack fuel :
  (stack_weight (v :: stack) ≤ S fuel)%nat → (stack_weight (rev (children v) ++ stack) ≤ fuel)%nat.
Proof.
  pose proof (weight_children v) as Hw. unfold stack_weight in *.
  rewrite map_app, map_rev, list_sum_app, list_sum_rev. simpl. lia.
Qed.

(** *** A test somewhere in the value *)

Fixpoint any_node (test : Value → bool) (v : Value) : bool :=
  test v ||
  match v with
  | VArray items => existsb (any_node test) items
  | VObject o => existsb (λ e, any_node test e.2) o
  | _ => false
  end.

Lemma existsb_rev {A} (f : A → bool) l : existsb f (rev l) = existsb f l.
Proof. induction l; simpl; [done|]. rewrite existsb_app, IHl. simpl. by rewrite orb_false_r, orb_comm. Qed.

Lemma any_node_unfold test v : any_node test v = test v || existsb (any_node test) (children v).
Proof.
  destruct v as [| | | | |items|o]; simpl; try done. f_equal. by induction o as [|e o IH]; simpl; [|rewrite IH].
Qed.

Lemma any_loop_spec test fuel stack :
  (stack_weight stack ≤ fuel)%nat → any_loop test fuel stack = Some (existsb (any_node test) stack).
Proof.
  revert stack. induction fuel as [|fuel IH]; intros [|v stack] Hf; try done.
  { unfold stack_weight in Hf. simpl in Hf. pose proof (weight_pos v). lia. }
  cbn [any_loop existsb]. rewrite any_node_unfold. destruct (test v); [done|].
  rewrite IH by by apply stack_weight_push. by rewrite existsb_app, existsb_rev.
Qed.

(** *** Depth *)

Fixpoint nesting (v : Value) : nat :=
  match v with
  | VArray items => S (foldr Nat.max 0%nat (map nesting items))
  | VObject o => S (foldr Nat.max 0%nat (map (λ e, nesting e.2) o))
  | _ => 0
  end.

Definition deepest_of (deepest : nat) (stack : list (Value * nat)) : nat :=
  foldr (λ p m, Nat.max (p.2 + nesting p.1) m) deepest stack.

Lemma deepest_of_max a b stack : deepest_of (Nat.max a b) stack = Nat.max b (deepest_of a stack).
Proof. induction stack as [|p stack IH]; simpl; lia. Qed.

Lemma deepest_of_perm a s1 s2 : s1 ≡ₚ s2 → deepest_of a s1 = deepest_of a s2.
Proof. induction 1; simpl; lia. Qed.

Lemma deepest_of_app a s1 s2 : deepest_of a (s1 ++ s2) = deepest_of (deepest_of a s2) s1.
Proof. unfold deepest_of. by rewrite foldr_app. Qed.

Lemma deepest_of_children a level l :
  deepest_of a (map (λ v, (v, level)) l) = match l with [] => a | _ => Nat.max a (level + foldr Nat.max 0%nat (map nesting l)) end.
Proof.
  induction l as [|v l IH]; [done|]. simpl. rewrite IH. destruct l; simpl; lia.
Qed.

Lemma nesting_container v :
  match v with
  | VArray _ | VObject _ => nesting v = S (foldr Nat.max 0%nat (map nesting (children v)))
  | _ => nesting v = 0%nat
  end.
Proof. destruct v; try done. simpl. by rewrite map_map. Qed.

Lemma deepest_of_push a v level stack :
  deepest_of (Nat.max a (S level)) (rev (map (λ v, (v, S level)) (children v)) ++ stack) =
  Nat.max (S level + foldr Nat.max 0%nat (map nesting (children v))) (deepest_of a stack).
Proof.
  rewrite (deepest_of_perm _ _ (map (λ v, (v, S level)) (children v) ++ stack)) by by rewrite <-Permutation_rev.
  rewrite deepest_of_app, deepest_of_children, deepest_of_max. destruct (children v); simpl; lia.
Qed.

Lemma depth_loop_spec fuel deepest stack :
  (stack_weight (map fst stack) ≤ fuel)%nat → Forall (λ p, p.2 ≤ deepest)%nat stack →
  depth_loop fuel deepest stack = Some (deepest_of deepest stack).
Proof.
  revert deepest stack. induction fuel as [|fuel IH]; intros deepest [|[v level] stack] Hf Hd; try done.
  { unfold stack_weight in Hf. simpl in Hf. pose proof (weight_pos v). lia. }
  apply Forall_cons in Hd as [Hl Hd]. simpl in Hl.
  assert (Hleaf : nesting v = 0%nat → depth_loop fuel deepest stack = Some (deepest_of deepest ((v, level) :: stack))).
  { intros Hn. rewrite IH; [|unfold stack_weight in *; simpl in *; pose proof (weight_pos v); lia|done].
    simpl. rewrite Hn. f_equal. pose proof (deepest_of_max deepest deepest stack). rewrite Nat.max_id in *. lia. }
  assert (Hnode : nesting v = S (foldr Nat.max 0%nat (map nesting (children v))) →
    depth_loop fuel (Nat.max deepest (S level)) (rev (map (λ v, (v, S level)) (children v)) ++ stack)
    = Some (deepest_of deepest ((v, level) :: stack))).
  { intros Hn. rewrite IH.
    - f_equal. rewrite deepest_of_push. simpl. lia.
    - rewrite map_app, map_rev, map_map. simpl. rewrite map_id. apply stack_weight_push. exact Hf.
    - apply Forall_app. split; [|eapply Forall_impl; [exact Hd|simpl; lia]].
      apply Forall_rev, Forall_map, Forall_true. intros. simpl. lia. }
  pose proof (nesting_container v) as Hv. cbn [depth_loop]. destruct v; by auto.
Qed.

(** *** Equalities *)

Section Equality.
Variable scalar_eq : Value → Value → option bool.

(** Equality by recursion on the left value; [scalar_eq] decides what it can. *)
Fixpoint equal_by (a b : Value) : bool :=
  match scalar_eq a b with
  | Some r => r
  | None =>
      match a, b with
      | VArray x, VArray y =>
          (fix all x y := match x, y with
                          | [], [] => true
                          | u :: x, w :: y => equal_by u w && all x y
                          | _, _ => false
                          end) x y
      | VObject x, VObject y =>
          Nat.eqb (length x) (length y) &&
          forallb (λ e, match object_get y e.1 with Some other => equal_by e.2 other | None => false end) x
      | _, _ => false
      end
  end.

Definition equal_pair (p : Value * Value) : bool := equal_by p.1 p.2.

Lemma equal_items x y :
  (fix all x y := match x, y with
                  | [], [] => true
                  | u :: x, w :: y => equal_by u w && all x y
                  | _, _ => false
                  end) x y = Nat.eqb (length x) (length y) && forallb equal_pair (zip x y).
Proof.
  revert y. induction x as [|u x IH]; intros [|w y]; simpl; try done. rewrite IH. unfold equal_pair at 2. simpl.
  destruct (equal_by u w), (Nat.eqb _ _); done.
Qed.

Lemma object_pairs_spec x y :
  match object_pairs x y with
  | Some pairs => map fst pairs = map snd x ∧
      forallb (λ e, match object_get y e.1 with Some other => equal_by e.2 other | None => false end) x =
      forallb equal_pair pairs
  | None => forallb (λ e, match object_get y e.1 with Some other => equal_by e.2 other | None => false end) x = false
  end.
Proof.
  induction x as [|e x IH]; [done|]. cbn [object_pairs foldr forallb]. fold (object_pairs x y).
  destruct (object_pairs x y) as [pairs|].
  - destruct IH as [Hm Hb]. destruct (object_get y e.1) as [other|]; [|done]. cbn [map forallb fst].
    by rewrite Hm, Hb.
  - rewrite IH. by rewrite andb_false_r.
Qed.

Lemma forallb_rev {A} (f : A → bool) l : forallb f (rev l) = forallb f l.
Proof. induction l; simpl; [done|]. rewrite forallb_app, IHl. simpl. by rewrite andb_true_r, andb_comm. Qed.

Lemma map_fst_zip (x y : list Value) : length x = length y → map fst (zip x y) = x.
Proof. revert y. induction x; intros [|]; simpl; intros [=]; [done|]. f_equal. auto. Qed.

Lemma structural_eq_loop_spec fuel stack :
  (stack_weight (map fst stack) ≤ fuel)%nat →
  structural_eq_loop scalar_eq fuel stack = Some (forallb equal_pair stack).
Proof.
  revert stack. induction fuel as [|fuel IH]; intros [|[a b] stack] Hf; try done.
  { unfold stack_weight in Hf. simpl in Hf. pose proof (weight_pos a). lia. }
  assert (Hpop : (stack_weight (map fst stack) ≤ fuel)%nat).
  { unfold stack_weight in *. simpl in Hf. pose proof (weight_pos a). lia. }
  assert (Hpush : ∀ pairs, map fst pairs = children a →
    structural_eq_loop scalar_eq fuel (rev pairs ++ stack) = Some (forallb equal_pair pairs && forallb equal_pair stack)).
  { intros pairs Hp. rewrite IH; [by rewrite forallb_app, forallb_rev|].
    rewrite map_app, map_rev, Hp. by apply stack_weight_push. }
  cbn [structural_eq_loop forallb]. unfold equal_pair at 1. cbn [fst snd].
  destruct a as [|ab|ai|ax|astr|x|x], b as [|bb|bi|bx|bstr|y|y]; cbn [equal_by];
    (destruct (scalar_eq _ _) as [[]|]; [by apply IH|done|]); try done.
  - rewrite equal_items. destruct (Nat.eqb_spec (length x) (length y)); [|done]. simpl.
    by rewrite Hpush by by apply map_fst_zip.
  - destruct (Nat.eqb_spec (length x) (length y)); [|done]. cbn [negb andb].
    pose proof (object_pairs_spec x y) as Hp. destruct (object_pairs x y) as [pairs|]; [|by rewrite Hp].
    destruct Hp as [Hm ->]. by rewrite Hpush.
Qed.
End Equality.

(** The walks over explicit stacks return, on every value, what recursion over it returns: the
    greatest nesting, whether a float or a control character occurs, and both equalities; none of
    their loops runs out of fuel. *)
Theorem walks_are_recursive v w :
  depth_loop (weight v) 0 [(v, 0%nat)] = Some (nesting v) ∧ depth v = nesting v ∧
  contains_float v = any_node is_float v ∧ contains_control v = any_node has_control v ∧
  py_eq v w = equal_by py_scalar v w ∧ schema_eq v w = equal_by schema_scalar v w.
Proof.
  assert (Hw : ∀ v, (stack_weight [v] ≤ weight v)%nat) by (intros; unfold stack_weight; simpl; lia).
  assert (Hd : depth_loop (weight v) 0 [(v, 0%nat)] = Some (nesting v)).
  { rewrite depth_loop_spec; [simpl; f_equal; lia|apply (Hw v)|by repeat constructor]. }
  split; [done|]. unfold depth, contains_float, contains_control, py_eq, schema_eq, structural_eq. rewrite Hd.
  rewrite !any_loop_spec, !structural_eq_loop_spec by apply Hw. unfold equal_pair. simpl.
  by rewrite !orb_false_r, !andb_true_r.
Qed.
