(* ===== verification/JsonRoundtrip.v ===== *)
(** * Well-formed values, and parsing what the encoder wrote

    Parsed values have canonical integers and distinct keys; the canonical text of such a value,
    floats aside, parses back to the value with its members sorted. *)

From S2P Require Import Prelude Float Json JsonParse JsonEncode.
(** ** Well-formed values *)

(** Decimal without leading zeros, and no negative zero. *)
Definition wf_int (i : Int) : Prop :=
  canonical_digits (magnitude i) ∧ (negative i = true → magnitude i ≠ [48]).

Fixpoint wf_value (v : Value) : Prop :=
  match v with
  | VInt i => wf_int i
  | VArray items => Forall id (map wf_value items)
  | VObject o => NoDup (map fst o) ∧ Forall id (map (λ e, wf_value e.2) o)
  | _ => True
  end.

Lemma wf_array items : wf_value (VArray items) ↔ Forall wf_value items.
Proof. simpl. by rewrite Forall_map. Qed.
Lemma wf_object o : wf_value (VObject o) ↔ NoDup (map fst o) ∧ Forall (λ e, wf_value e.2) o.
Proof. simpl. by rewrite Forall_map. Qed.

Lemma trim_zeros_spec l :
  Forall (λ b, is_digit b = true) l →
  trim_zeros l = [] ∨ canonical_digits (trim_zeros l) ∧ trim_zeros l ≠ [48].
Proof.
  induction 1 as [|d l Hd Hl IH]; [by left|]. simpl. destruct (Z.eqb_spec d 48) as [->|Hne]; [exact IH|].
  right. split; [|by intros [= ->]]. split; [by constructor|]. split; [done|]. by intros [= ->].
Qed.

Lemma parse_decimal_wf text i : parse_decimal text = Some i → wf_int i.
Proof.
  unfold parse_decimal. destruct (match text with 45 :: _ => _ | _ => _ end) as [neg digits].
  destruct (bool_decide _ || _) eqn:E; [done|]. apply orb_false_elim in E as [_ Hd%negb_false_iff].
  apply forallb_digits in Hd. destruct (trim_zeros_spec digits Hd) as [-> | [Hc Hn]].
  - intros [= <-]. split; [|done]. split; [by repeat constructor|done].
  - destruct (trim_zeros digits) eqn:Ht; [by destruct Hc as (_ & ? & _)|]. intros [= <-]. done.
Qed.

Lemma number_wf start v rest : number start = Ok (v, rest) → wf_value v.
Proof.
  unfold number. intros (rest1 & _ & H)%result_bind_Ok.
  destruct (fraction_part rest1) as [f rest2], (exponent_part f rest2) as [[] rest3]; [by injection H as <- _|].
  destruct (Nat.ltb _ _); [done|]. destruct (parse_decimal _) as [i|] eqn:Hi; [|done]. injection H as <- _.
  by eapply parse_decimal_wf.
Qed.

Lemma scalar_wf rest v rest' : scalar rest = Ok (v, rest') → wf_value v.
Proof.
  unfold scalar. destruct rest as [|b rest]; [done|].
  do 3 (destruct (_ && _); [by intros [= <- _]|]).
  do 2 (destruct (_ && _); [done|]). destruct (_ && _); [by destruct (starts_with _ _)|].
  destruct (_ || _); [|done]. apply number_wf.
Qed.

Lemma keys_distinct_spec keys seen :
  keys_distinct keys seen = true ↔ NoDup keys ∧ ∀ k, k ∈ keys → k ∉ seen.
Proof.
  revert seen. induction keys as [|k keys IH]; intros seen; simpl.
  - split; [|done]. intros _. split; [constructor|]. intros k Hk. by apply elem_of_nil in Hk.
  - case_bool_decide as Hs; [split; [done|]; intros [_ H]; by destruct (H k (list_elem_of_here _ _))|].
    rewrite IH, NoDup_cons. setoid_rewrite elem_of_cons. naive_solver.
Qed.

Lemma unique_object_Ok pairs o : unique_object pairs = Ok o ↔ o = pairs ∧ NoDup (map fst pairs).
Proof.
  unfold unique_object. destruct (keys_distinct _ _) eqn:E.
  - apply keys_distinct_spec in E as [E _]. naive_solver.
  - split; [done|]. intros [_ H]. rewrite (proj2 (keys_distinct_spec _ [])) in E; [done|].
    split; [done|]. intros k _. apply not_elem_of_nil.
Qed.

Definition wf_open (o : Open) : Prop :=
  match o with
  | OpenArray items => Forall wf_value items
  | OpenObject pairs _ => Forall (λ e : JStr * Value, wf_value e.2) pairs
  end.

Lemma attach_wf stack value rest next :
  Forall wf_open stack → wf_value value → attach stack value rest = Done next →
  match next with Finished v => wf_value v | MoreValues stack' _ => Forall wf_open stack' end.
Proof.
  revert value rest. induction stack as [|[items|pairs key] stack IH]; intros value rest Hs Hv; cbn [attach].
  - destruct (skip_ws rest); [by intros [= <-]|done].
  - apply Forall_cons in Hs as [Ho Hs]. simpl in Ho. destruct (skip_ws rest) as [|c rest1]; [done|].
    assert (Hi : Forall wf_value (items ++ [value])) by (apply Forall_app_2; [done|by repeat constructor]).
    destruct (Z.eqb_spec c 44) as [->|]; [intros [= <-]; by constructor|].
    destruct (Z.eqb_spec c 93) as [->|]; [by apply IH, wf_array|by default_branch].
  - apply Forall_cons in Hs as [Ho Hs]. simpl in Ho. destruct (skip_ws rest) as [|c rest1]; [done|].
    assert (Hi : Forall (λ e : JStr * Value, wf_value e.2) (pairs ++ [(key, value)]))
      by (apply Forall_app_2; [done|by repeat constructor]).
    destruct (Z.eqb_spec c 44) as [->|].
    { destruct (parse_key _) as [[key' rest2]| |]; simpl; [|done..]. intros [= <-]. by constructor. }
    destruct (Z.eqb_spec c 125) as [->|]; [|by default_branch].
    destruct (unique_object _) as [o|] eqn:Hu; [|done]. apply unique_object_Ok in Hu as [-> Hn].
    apply IH; [done|]. by apply wf_object.
Qed.

Lemma run_loop_wf fuel stack rest v : Forall wf_open stack → run_loop fuel stack rest = Done v → wf_value v.
Proof.
  revert stack rest. induction fuel as [|fuel IH]; intros stack rest Hs; [done|]. cbn [run_loop].
  assert (Hfin : ∀ value rest', wf_value value →
    (let! next := attach stack value rest' in
     match next with Finished v => Done v | MoreValues stack rest => run_loop fuel stack rest end) = Done v → wf_value v).
  { intros value rest' Hv. destruct (attach stack value rest') as [next| |] eqn:Ha; simpl; [|done..].
    pose proof (attach_wf _ _ _ _ Hs Hv Ha). destruct next; [by intros [= <-]|by apply IH]. }
  assert (Hsc : (let! (v, rest) := run_of_result (scalar rest) in
     let! next := attach stack v rest in
     match next with Finished v => Done v | MoreValues stack rest => run_loop fuel stack rest end) = Done v → wf_value v).
  { destruct (scalar rest) as [[u rest']|] eqn:Hc; [|done]. apply scalar_wf in Hc. by apply Hfin. }
  destruct rest as [|b rest]; [exact Hsc|].
  destruct (Z.eqb_spec b 123) as [->|H1].
  { case_bool_decide; [apply Hfin, wf_object; split; constructor|].
    destruct (parse_key _) as [[key rest2]| |]; simpl; [|done..]. apply IH. by repeat constructor. }
  destruct (Z.eqb_spec b 91) as [->|H2].
  { case_bool_decide; [apply Hfin, wf_array; constructor|]. apply IH. by repeat constructor. }
  destruct (Z.eqb_spec b 34) as [->|H3].
  { destruct (parse_string _) as [[s rest2]| |]; simpl; [|done..]. by apply Hfin. }
  default_byte b Hsc; done.
Qed.

(** Parsed values are well formed. *)
Lemma parse_wf text v : parse text = Ok v → wf_value v.
Proof.
  unfold parse. destruct (parse_run text) as [u| |] eqn:H; [|done..]. intros [= <-].
  by apply (run_loop_wf _ [] _ _ (Forall_nil_2 _) H).
Qed.

(** ** The parser without its fuel *)

Definition run_at (stack : list Open) (rest : list Z) : run Value ParseError :=
  run_loop (S (length rest)) stack rest.

Lemma run_loop_fuel f1 f2 stack rest :
  (length rest < f1)%nat → (length rest < f2)%nat → run_loop f1 stack rest = run_loop f2 stack rest.
Proof.
  revert f2 stack rest. induction f1 as [|f1 IH]; intros [|f2] stack rest H1 H2; try lia. cbn [run_loop].
  assert (Hfin : ∀ value rest', (length rest' < length rest)%nat →
    (let! next := attach stack value rest' in
     match next with Finished v => Done v | MoreValues stack rest => run_loop f1 stack rest end) =
    (let! next := attach stack value rest' in
     match next with Finished v => Done v | MoreValues stack rest => run_loop f2 stack rest end)).
  { intros value rest' Hl. pose proof (attach_returns stack value rest') as Ha.
    destruct (attach stack value rest') as [[v|stack' rest2]| |]; simpl; [done| |done|done]. apply IH; lia. }
  assert (Hsc :
    (let! (v, rest) := run_of_result (scalar rest) in
     let! next := attach stack v rest in
     match next with Finished v => Done v | MoreValues stack rest => run_loop f1 stack rest end) =
    (let! (v, rest) := run_of_result (scalar rest) in
     let! next := attach stack v rest in
     match next with Finished v => Done v | MoreValues stack rest => run_loop f2 stack rest end)).
  { destruct (scalar rest) as [[v rest']|] eqn:Hs; [|done]. apply scalar_length in Hs. by apply Hfin. }
  destruct rest as [|b rest]; [exact Hsc|]. simpl in H1, H2, Hfin.
  pose proof (skip_ws_length rest) as Hw.
  destruct (Z.eqb_spec b 123) as [->|E1].
  { case_bool_decide; [apply Hfin; rewrite length_drop; lia|].
    pose proof (parse_key_returns (skip_ws rest)) as Hk.
    destruct (parse_key (skip_ws rest)) as [[key rest2]| |]; simpl; [|done..]. apply IH; lia. }
  destruct (Z.eqb_spec b 91) as [->|E2].
  { case_bool_decide; [apply Hfin; rewrite length_drop|apply IH]; lia. }
  destruct (Z.eqb_spec b 34) as [->|E3].
  { pose proof (parse_string_returns (34 :: rest) ltac:(done)) as Hk.
    destruct (parse_string (34 :: rest)) as [[s rest2]| |]; simpl; [|done..]. apply Hfin. simpl in Hk. lia. }
  default_byte b Hsc; done.
Qed.

(** A finished value, at the cursor after it. *)
Definition finish (stack : list Open) (value : Value) (rest : list Z) : run Value ParseError :=
  let! next := attach stack value rest in
  match next with
  | Finished v => Done v
  | MoreValues stack rest => run_at stack rest
  end.

Lemma run_at_loop fuel stack rest : (length rest < fuel)%nat → run_loop fuel stack rest = run_at stack rest.
Proof. intros H. apply run_loop_fuel; [done|lia]. Qed.

Lemma finish_loop fuel stack value rest :
  (length rest ≤ fuel)%nat →
  (let! next := attach stack value rest in
   match next with Finished v => Done v | MoreValues stack rest => run_loop fuel stack rest end)
  = finish stack value rest.
Proof.
  intros Hf. unfold finish. pose proof (attach_returns stack value rest) as Ha.
  destruct (attach stack value rest) as [[v|stack' rest2]| |]; simpl; [done| |done|done].
  apply run_at_loop. lia.
Qed.

Lemma run_at_string stack rest s rest' :
  parse_string (34 :: rest) = Done (s, rest') → run_at stack (34 :: rest) = finish stack (VStr s) rest'.
Proof.
  intros H. pose proof (parse_string_returns (34 :: rest) ltac:(done)) as Hl. rewrite H in Hl. simpl in Hl.
  unfold run_at. cbn [run_loop]. rewrite H. cbn [run_bind]. apply finish_loop. simpl. lia.
Qed.

Definition is_scalar_start (b : Z) : bool := negb ((b =? 123) || (b =? 91) || (b =? 34)).

Lemma run_at_scalar stack b rest v rest' :
  is_scalar_start b = true → scalar (b :: rest) = Ok (v, rest') →
  run_at stack (b :: rest) = finish stack v rest'.
Proof.
  intros Hb Hs. pose proof (scalar_length _ _ _ Hs) as Hl. unfold run_at. cbn [run_loop].
  assert (Hsc : (let! (v, rest1) := run_of_result (scalar (b :: rest)) in
     let! next := attach stack v rest1 in
     match next with Finished v => Done v | MoreValues stack rest' => run_loop (length (b :: rest)) stack rest' end)
     = finish stack v rest').
  { rewrite Hs. cbn [run_of_result run_bind]. apply finish_loop. simpl in *; lia. }
  unfold is_scalar_start in Hb. default_byte b Hsc; discriminate Hb.
Qed.

Lemma run_at_empty_array stack rest : run_at stack (91 :: 93 :: rest) = finish stack (VArray []) rest.
Proof.
  unfold run_at. cbn [run_loop skip_ws]. cbn [is_ws Z.eqb Pos.eqb orb peek head].
  rewrite bool_decide_eq_true_2 by done. cbn [drop]. apply finish_loop. simpl. lia.
Qed.

Lemma run_at_array stack b rest :
  is_ws b = false → b ≠ 93 → run_at stack (91 :: b :: rest) = run_at (OpenArray [] :: stack) (b :: rest).
Proof.
  intros Hw Hb. unfold run_at at 1. cbn [run_loop skip_ws]. rewrite Hw. cbn [peek head].
  rewrite bool_decide_eq_false_2 by congruence. apply run_at_loop. simpl. lia.
Qed.

Lemma run_at_empty_object stack rest : run_at stack (123 :: 125 :: rest) = finish stack (VObject []) rest.
Proof.
  unfold run_at. cbn [run_loop skip_ws]. cbn [is_ws Z.eqb Pos.eqb orb peek head].
  rewrite bool_decide_eq_true_2 by done. cbn [drop]. apply finish_loop. simpl. lia.
Qed.

Lemma run_at_object stack b rest key rest' :
  is_ws b = false → b ≠ 125 → parse_key (b :: rest) = Done (key, rest') →
  run_at stack (123 :: b :: rest) = run_at (OpenObject [] key :: stack) rest'.
Proof.
  intros Hw Hb Hk. pose proof (parse_key_returns (b :: rest)) as Hl. rewrite Hk in Hl.
  unfold run_at at 1. cbn [run_loop skip_ws]. rewrite Hw. cbn [peek head].
  rewrite bool_decide_eq_false_2 by congruence. rewrite Hk. cbn [run_bind]. apply run_at_loop. simpl in *. lia.
Qed.

(** ** Encoded strings *)

Lemma utf8_valid_bytes l : utf8_valid l = true → Forall is_byte l.
Proof.
  induction l as [l IH] using (induction_ltof1 _ length). unfold ltof in IH.
  destruct l as [|b l]; [constructor|]. cbn [utf8_valid].
  assert (Hc : ∀ c, continuation c = true → is_byte c) by (unfold continuation, is_byte; lia).
  destruct ((0 <=? b) && (b <? 128)) eqn:E1.
  { intros H. constructor; [unfold is_byte; lia|]. apply IH; [simpl; lia|done]. }
  destruct l as [|c1 l]; [done|]. destruct ((194 <=? b) && (b <=? 223)) eqn:E2.
  { intros [H1 H]%andb_prop. constructor; [unfold is_byte; lia|]. constructor; [by apply Hc|]. apply IH; [simpl; lia|done]. }
  destruct l as [|c2 l]; [done|]. destruct ((224 <=? b) && (b <=? 239)) eqn:E3.
  { intros [[[[H1 H2]%andb_prop _]%andb_prop _]%andb_prop H]%andb_prop.
    constructor; [unfold is_byte; lia|]. do 2 (constructor; [by apply Hc|]). apply IH; [simpl; lia|done]. }
  destruct l as [|c3 l]; [done|].
  intros [[[[[[[Hb1 Hb2]%andb_prop H1]%andb_prop H2]%andb_prop H3]%andb_prop _]%andb_prop _]%andb_prop H]%andb_prop.
  constructor; [unfold is_byte; lia|]. do 3 (constructor; [by apply Hc|]). apply IH; [simpl; lia|done].
Qed.

(** A byte's escape reads back as the byte. *)
Lemma string_loop_escape_byte fuel out b more :
  is_byte b →
  string_loop (S fuel) out (escape_byte b ++ more) = string_loop fuel (out ++ [b]) more.
Proof.
  intros Hb. destruct (Z.ltb_spec b 32) as [Hlt|Hge].
  - assert (Hin : b ∈ map Z.of_nat (seq 0 32)).
    { rewrite list_elem_of_fmap. exists (Z.to_nat b). unfold is_byte in Hb. rewrite elem_of_seq. lia. }
    cbn in Hin. repeat (apply elem_of_cons in Hin as [-> | Hin]; [reflexivity|]). by apply elem_of_nil in Hin.
  - unfold escape_byte. destruct (Z.eqb_spec b 34) as [->|H34]; [reflexivity|].
    destruct (Z.eqb_spec b 92) as [->|H92]; [reflexivity|].
    destruct (Z.eqb_spec b 10), (Z.eqb_spec b 13), (Z.eqb_spec b 9), (Z.eqb_spec b 8), (Z.eqb_spec b 12); try lia. destruct (Z.leb_spec b 31); [lia|].
    cbn [app string_loop]. rewrite (proj2 (Z.eqb_neq b 34)), (proj2 (Z.eqb_neq b 92)) by done.
    destruct (Z.ltb_spec b 0x20); [lia|done].
Qed.

Lemma string_loop_escape fuel out s more :
  Forall is_byte s → (length s < fuel)%nat →
  string_loop fuel out (flat_map escape_byte s ++ 34 :: more) = Done (out ++ s, more).
Proof.
  intros Hs. revert fuel out. induction Hs as [|b s Hb _ IH]; intros [|fuel] out Hf; simpl in Hf; try lia.
  - simpl. by rewrite app_nil_r.
  - cbn [flat_map]. rewrite <-app_assoc, string_loop_escape_byte, IH by (done || lia). by rewrite <-app_assoc.
Qed.

Lemma length_escape s : (length s ≤ length (flat_map escape_byte s))%nat.
Proof.
  induction s as [|b s IH]; [done|]. cbn [flat_map]. rewrite length_app. simpl.
  assert (1 ≤ length (escape_byte b))%nat; [|lia].
  unfold escape_byte. repeat (destruct (_ =? _); [simpl; lia|]). destruct (_ <=? _); simpl; lia.
Qed.

Lemma parse_string_escape s more :
  Forall is_byte s → parse_string (escape s ++ more) = Done (s, more).
Proof.
  intros Hs. unfold parse_string, escape. rewrite <-!app_assoc. cbn [app drop].
  apply string_loop_escape; [done|]. pose proof (length_escape s). simpl. rewrite length_app. lia.
Qed.

Lemma write_jstr_Ok s out : write_jstr s = Ok out → Forall is_byte s ∧ out = escape s.
Proof.
  unfold write_jstr, has_lone_surrogate. destruct (utf8_valid s) eqn:E; [|done]. simpl.
  intros [= <-]. split; [by apply utf8_valid_bytes|done].
Qed.

(** ** Encoded numbers *)

(** What may follow a value in an encoding. *)
Definition follows_value (more : list Z) : Prop :=
  match more with [] => True | c :: _ => c = 44 ∨ c = 93 ∨ c = 125 end.

Lemma follows_not_digit more : follows_value more → skip_digits more = more.
Proof. destruct more as [|c more]; [done|]. by intros [-> | [-> | ->]]. Qed.

Lemma skip_digits_app l more :
  Forall (λ b, is_digit b = true) l → follows_value more → skip_digits (l ++ more) = more.
Proof. intros Hl Hm. induction Hl as [|d l Hd _ IH]; [by apply follows_not_digit|]. simpl. by rewrite Hd. Qed.

Lemma integer_part_digits l more :
  canonical_digits l → follows_value more → integer_part (l ++ more) = Ok more.
Proof.
  intros (Hd & Hn & Hz) Hm. destruct l as [|d l]; [done|]. simpl.
  destruct (Z.eqb_spec d 48) as [->|Hne]; [by injection (Hz eq_refl) as ->|].
  apply Forall_cons in Hd as [Hd Hl]. pose proof (is_digit_bounds d Hd).
  replace ((49 <=? d) && (d <=? 57)) with true by lia. by rewrite Hd, skip_digits_app.
Qed.

Lemma parse_decimal_to_decimal i : wf_int i → parse_decimal (to_decimal i) = Some i.
Proof.
  intros [(Hd & Hn & Hz) Hneg]. unfold parse_decimal, to_decimal. destruct i as [neg l]. simpl in *.
  assert (Hl : (if bool_decide (l = []) || negb (forallb is_digit l) then None
          else match trim_zeros l with [] => Some int_zero | _ as trimmed => Some (mkInt neg trimmed) end)
          = Some (mkInt neg l)).
  { rewrite bool_decide_eq_false_2 by done. rewrite (proj2 (forallb_digits l) Hd). simpl.
    destruct l as [|d l]; [done|]. simpl. destruct (Z.eqb_spec d 48) as [->|]; [|done].
    injection (Hz eq_refl) as ->. destruct neg; [by destruct Hneg|done]. }
  destruct neg; [exact Hl|]. destruct l as [|d l]; [done|]. apply Forall_cons in Hd as [Hd _].
  apply is_digit_bounds in Hd. destruct (Z.eqb_spec d 45); [lia|].
  default_byte d Hl; done.
Qed.

Lemma number_to_decimal i more :
  wf_int i → (int_digits i ≤ MAX_INT_DIGITS)%nat → follows_value more →
  number (to_decimal i ++ more) = Ok (VInt i, more).
Proof.
  intros Hi Hlen Hm. assert (Hd := proj1 Hi).
  assert (Hneg : bool_decide (peek (to_decimal i ++ more) = Some 45) = negative i).
  { unfold to_decimal. destruct (negative i); [done|]. apply bool_decide_eq_false_2.
    destruct Hd as (Hd & Hn & _). destruct (magnitude i) as [|d l]; [done|]. simpl. intros [= ->].
    by apply Forall_cons in Hd as [? _]. }
  unfold number. rewrite Hneg.
  assert (Hrest : (if negative i then drop 1 (to_decimal i ++ more) else to_decimal i ++ more) = magnitude i ++ more)
    by (unfold to_decimal; by destruct (negative i)).
  rewrite Hrest, integer_part_digits by done. cbn [result_bind].
  assert (Hf : fraction_part more = (false, more)) by (destruct more as [|c more]; [done|]; by destruct Hm as [-> | [-> | ->]]).
  assert (He : exponent_part false more = (false, more)) by (destruct more as [|c more]; [done|]; by destruct Hm as [-> | [-> | ->]]).
  rewrite Hf, He.
  assert (Hl : (length (to_decimal i ++ more) - length more = length (to_decimal i))%nat) by (rewrite length_app; lia).
  rewrite Hl, take_app_length, parse_decimal_to_decimal by done.
  destruct (Nat.ltb_spec MAX_INT_DIGITS (length (to_decimal i) - (if negative i then 1 else 0))) as [Hlt|]; [|done].
  exfalso. unfold int_digits, to_decimal in *. destruct (negative i); simpl in *; lia.
Qed.

Lemma scalar_int i more :
  wf_int i → (int_digits i ≤ MAX_INT_DIGITS)%nat → follows_value more →
  scalar (to_decimal i ++ more) = Ok (VInt i, more).
Proof.
  intros Hi Hlen Hm. pose proof (number_to_decimal i more Hi Hlen Hm) as Hn.
  destruct Hi as [(Hd & Hne & _) _]. unfold to_decimal in *. destruct (magnitude i) as [|d l]; [done|].
  apply Forall_cons in Hd as [Hdig _]. pose proof (is_digit_bounds d Hdig). destruct (negative i).
  - cbn [app] in *. unfold scalar. cbn [Z.eqb Pos.eqb andb orb peek head drop].
    rewrite bool_decide_eq_false_2; [exact Hn|]. intros [= ->]. lia.
  - cbn [app] in *. unfold scalar. rewrite Hdig, orb_true_r.
    repeat rewrite (proj2 (Z.eqb_neq d _)) by lia. exact Hn.
Qed.

(** ** The round trip *)

Lemma Ok_inj {T E} (x y : T) : @Ok T E x = Ok y → x = y.
Proof. by intros [= ->]. Qed.

(** The value an encoding stands for: its members sorted by key. *)
Fixpoint normalize (v : Value) : Value :=
  match v with
  | VArray items => VArray (map normalize items)
  | VObject o => VObject (sort_members (map (λ e, (e.1, normalize e.2)) o))
  | v => v
  end.

(** Encodings start with a byte that opens a value. *)
Definition opens (b : Z) : Prop := is_ws b = false ∧ b ≠ 93 ∧ b ≠ 125.

Definition parses (v : Value) : Prop :=
  ∀ out, encode_value v = Ok out → wf_value v → any_node is_float v = false →
  (∃ b rest, out = b :: rest ∧ opens b) ∧
  ∀ stack more, follows_value more → run_at stack (out ++ more) = finish stack (normalize v) more.

Lemma parses_scalar v out b rest :
  encode_value v = Ok out → normalize v = v → out = b :: rest → opens b → is_scalar_start b = true →
  (∀ more, follows_value more → scalar (out ++ more) = Ok (v, more)) → parses v.
Proof.
  intros He Hn -> Ho Hb Hs out' He' _ _. rewrite He in He'. injection He' as <-.
  split; [eauto|]. intros stack more Hm. rewrite Hn. apply run_at_scalar; [done|]. by apply Hs.
Qed.

Lemma attach_more stack items v more :
  attach (OpenArray items :: stack) v (44 :: more) =
  Done (MoreValues (OpenArray (items ++ [v]) :: stack) (skip_ws more)).
Proof. reflexivity. Qed.

Lemma finish_array stack items v more :
  finish (OpenArray items :: stack) v (93 :: more) = finish stack (VArray (items ++ [v])) more.
Proof. reflexivity. Qed.

Lemma finish_object stack pairs key v more :
  NoDup (map fst (pairs ++ [(key, v)])) →
  finish (OpenObject pairs key :: stack) v (125 :: more) = finish stack (VObject (pairs ++ [(key, v)])) more.
Proof.
  intros Hn. unfold finish at 1. cbn [attach skip_ws is_ws]. cbn [Z.eqb Pos.eqb orb].
  by rewrite (proj2 (unique_object_Ok _ _) (conj eq_refl Hn)).
Qed.

Lemma finish_next_item stack items v b rest :
  is_ws b = false →
  finish (OpenArray items :: stack) v (44 :: b :: rest) = run_at (OpenArray (items ++ [v]) :: stack) (b :: rest).
Proof. intros Hw. unfold finish. rewrite attach_more. cbn [run_bind skip_ws]. by rewrite Hw. Qed.

Lemma parse_key_escape key b rest :
  Forall is_byte key → is_ws b = false → parse_key (escape key ++ 58 :: b :: rest) = Done (key, b :: rest).
Proof.
  intros Hk Hw. unfold parse_key. change (peek (escape key ++ _)) with (Some 34).
  rewrite bool_decide_eq_true_2 by done. cbn [negb]. rewrite parse_string_escape by done.
  cbn [run_bind]. change (skip_ws (58 :: b :: rest)) with (58 :: b :: rest). cbn beta iota zeta.
  cbn [skip_ws]. by rewrite Hw.
Qed.

Lemma attach_next_member stack pairs key v more :
  attach (OpenObject pairs key :: stack) v (44 :: more) =
  (let! (key', rest) := parse_key (skip_ws more) in
   Done (MoreValues (OpenObject (pairs ++ [(key, v)]) key' :: stack) rest)).
Proof. reflexivity. Qed.

Lemma finish_next_member stack pairs key v key' b rest :
  Forall is_byte key' → is_ws b = false →
  finish (OpenObject pairs key :: stack) v (44 :: escape key' ++ 58 :: b :: rest) =
  run_at (OpenObject (pairs ++ [(key, v)]) key' :: stack) (b :: rest).
Proof.
  intros Hk Hw. unfold finish. rewrite attach_next_member.
  change (skip_ws (escape key' ++ 58 :: b :: rest)) with (escape key' ++ 58 :: b :: rest).
  by rewrite parse_key_escape.
Qed.

Lemma sequence_cons {T E} (r : result T E) l parts :
  sequence (r :: l) = Ok parts → ∃ p ps, r = Ok p ∧ sequence l = Ok ps ∧ parts = p :: ps.
Proof.
  unfold sequence. simpl. intros (p & -> & H)%result_bind_Ok. apply result_bind_Ok in H as (ps & -> & H).
  injection H as <-. eauto.
Qed.

(** The items of an array, from its first one on. *)
Lemma items_parse items : ∀ done_ v parts stack more,
  Forall parses (v :: items) → Forall wf_value (v :: items) →
  Forall (λ v, any_node is_float v = false) (v :: items) →
  sequence (map encode_value (v :: items)) = Ok parts → follows_value more →
  (∃ b rest, write_items true parts = b :: rest ∧ opens b) ∧
  run_at (OpenArray done_ :: stack) (write_items true parts ++ 93 :: more) =
  finish stack (VArray (done_ ++ map normalize (v :: items))) more.
Proof.
  induction items as [|v' items IH]; intros done_ v parts stack more Hp Hw Hf Hs Hm.
  all: apply Forall_cons in Hp as [Hv Hp], Hw as [Hwv Hw], Hf as [Hfv Hf].
  all: apply sequence_cons in Hs as (p & ps & He & Hs & ->).
  all: destruct (Hv p He Hwv Hfv) as [(b & rest & -> & Hb) Hrun].
  - injection Hs as <-. cbn [write_items]. rewrite !app_nil_r. cbn [app]. split; [eauto|].
    change (b :: rest ++ 93 :: more) with ((b :: rest) ++ 93 :: more).
    rewrite Hrun by (simpl; auto). by rewrite finish_array.
  - destruct (IH (done_ ++ [normalize v]) v' ps stack more Hp Hw Hf Hs Hm) as [(b' & rest' & Ho & Hb') IHr].
    destruct ps as [|p' ps]; [done|].
    assert (Hps : write_items true ((b :: rest) :: p' :: ps) = (b :: rest) ++ 44 :: write_items true (p' :: ps)) by done.
    rewrite Hps. split; [cbn [app]; eauto|]. rewrite <-app_assoc, Hrun by (simpl; auto).
    rewrite Ho in *. cbn [app] in *. rewrite finish_next_item by apply Hb'. rewrite IHr.
    by rewrite <-app_assoc.
Qed.

(** The members of an object, from the value of its first one on. *)
Lemma members_parse (o : Object) : ∀ pairs (e : JStr * Value) text parts stack more,
  Forall (λ e : JStr * Value, parses e.2) (e :: o) → Forall (λ e : JStr * Value, wf_value e.2) (e :: o) →
  Forall (λ e : JStr * Value, any_node is_float e.2 = false) (e :: o) →
  NoDup (map fst (pairs ++ e :: o)) →
  encode_value e.2 = Ok text →
  sequence (map write_member (map (λ e, (e.1, encode_value e.2)) o)) = Ok parts → follows_value more →
  (∃ b rest, text = b :: rest ∧ opens b) ∧
  run_at (OpenObject pairs e.1 :: stack) (text ++ write_items false parts ++ 125 :: more) =
  finish stack (VObject (pairs ++ map (λ e, (e.1, normalize e.2)) (e :: o))) more.
Proof.
  induction o as [|e' o IH]; intros pairs e text parts stack more Hp Hw Hf Hn He Hs Hm.
  all: apply Forall_cons in Hp as [Hv Hp], Hw as [Hwv Hw], Hf as [Hfv Hf].
  all: destruct (Hv text He Hwv Hfv) as [(b & rest & -> & Hb) Hrun]; (split; [eauto|]).
  - injection Hs as <-. cbn [write_items app]. change (b :: rest ++ 125 :: more) with ((b :: rest) ++ 125 :: more).
    rewrite Hrun by (simpl; auto). rewrite finish_object; [done|]. rewrite map_app in *. exact Hn.
  - apply sequence_cons in Hs as (p' & ps & Hp' & Hs & ->). unfold write_member in Hp'. cbn [fst snd] in Hp'.
    apply result_bind_Ok in Hp' as (key & Hk & Hp'). apply write_jstr_Ok in Hk as [Hkb ->].
    apply result_bind_Ok in Hp' as (text' & He' & Hp'). apply Ok_inj in Hp' as <-.
    destruct (IH (pairs ++ [(e.1, normalize e.2)]) e' text' ps stack more) as [(b' & rest' & Ho & Hb') IHr]; try done.
    { rewrite !map_app in *. cbn [map fst] in *. by rewrite <-app_assoc. }
    assert (Hps : write_items false ((escape e'.1 ++ [58] ++ text') :: ps) ++ 125 :: more =
                  44 :: escape e'.1 ++ 58 :: text' ++ write_items false ps ++ 125 :: more).
    { cbn [write_items app]. by rewrite <-!app_assoc. }
    rewrite Hps, Hrun by (simpl; auto). rewrite Ho in *. cbn [app] in *.
    rewrite finish_next_member by (apply Hb' || done). rewrite IHr. by rewrite <-app_assoc.
Qed.

Lemma sort_members_Forall {V} (P : JStr * V → Prop) l : Forall P l → Forall P (sort_members l).
Proof. intros H. by rewrite sort_members_perm. Qed.

Lemma normalize_object o :
  normalize (VObject o) = VObject (map (λ e, (e.1, normalize e.2)) (sort_members o)).
Proof. simpl. by rewrite sort_members_map. Qed.

Lemma any_node_children test v : any_node test v = false → Forall (λ v, any_node test v = false) (children v).
Proof.
  rewrite any_node_unfold. intros [_ H]%orb_false_elim. induction (children v) as [|u l IH]; [constructor|].
  simpl in H. apply orb_false_elim in H as [? ?]. constructor; auto.
Qed.

Lemma any_node_members test (o : Object) :
  any_node test (VObject o) = false → Forall (λ e : JStr * Value, any_node test e.2 = false) o.
Proof. intros H%any_node_children. by apply Forall_map in H. Qed.

Lemma encoded_value_parses v : parses v.
Proof.
  induction v as [|b|i|x|s|items IH|o IH] using Value_nested_ind.
  - by eapply parses_scalar.
  - destruct b; by eapply parses_scalar.
  - intros out He Hw _. cbn [encode_value] in He. destruct (Nat.ltb_spec MAX_INT_DIGITS (int_digits i)); [done|].
    injection He as <-. simpl in Hw. pose proof (λ more, scalar_int i more Hw H) as Hs.
    destruct Hw as [(Hd & Hne & _) _]. unfold to_decimal in *. destruct (magnitude i) as [|d l]; [done|].
    apply Forall_cons in Hd as [Hd%is_digit_bounds _].
    destruct (negative i); (split; [eexists _, _; split; [done|]; unfold opens, is_ws; lia|]);
      intros stack more Hm; apply run_at_scalar; [done|by apply Hs|unfold is_scalar_start; lia|by apply Hs].
  - intros out He _ Hf. done.
  - intros out He%write_jstr_Ok _ _. destruct He as [Hb ->]. split; [by eexists 34, _|].
    intros stack more _. change (escape s ++ more) with (34 :: (flat_map escape_byte s ++ [34]) ++ more).
    apply run_at_string. by apply parse_string_escape.
  - intros out He Hw Hf. cbn [encode_value] in He. apply result_bind_Ok in He as (parts & Hs & He). injection He as <-.
    split; [by eexists 91, _|]. intros stack more Hm. destruct items as [|v items].
    { injection Hs as <-. apply run_at_empty_array. }
    apply wf_array in Hw. apply any_node_children in Hf.
    destruct (items_parse items [] v parts stack more) as [(b & rest & Ho & Hb) Hr]; try done.
    cbn [app]. rewrite <-app_assoc, Ho in *. cbn [app] in *. rewrite run_at_array by apply Hb. exact Hr.
  - intros out He Hw Hf. cbn [encode_value] in He. apply result_bind_Ok in He as (parts & Hs & He). injection He as <-.
    split; [by eexists 123, _|]. intros stack more Hm. rewrite sort_members_map in Hs. rewrite normalize_object.
    apply wf_object in Hw as [Hn Hw]. apply any_node_members in Hf.
    apply sort_members_Forall in IH, Hw, Hf. rewrite <-(sort_members_perm o) in Hn.
    destruct (sort_members o) as [|e o']; [injection Hs as <-; apply run_at_empty_object|].
    apply sequence_cons in Hs as (p & ps & Hp & Hs & ->). unfold write_member in Hp. cbn [fst snd] in Hp.
    apply result_bind_Ok in Hp as (key & Hk & Hp). apply write_jstr_Ok in Hk as [Hkb ->].
    apply result_bind_Ok in Hp as (text & He & Hp). apply Ok_inj in Hp as <-.
    destruct (members_parse o' [] e text ps stack more) as [(b & rest & -> & Hb) Hr]; try done.
    cbn [app] in Hr. rewrite <-Hr. cbn [write_items app]. rewrite <-!app_assoc. cbn [app].
    change (123 :: escape e.1 ++ ?x) with (123 :: 34 :: (flat_map escape_byte e.1 ++ [34]) ++ x).
    apply run_at_object; [done|done|]. rewrite <-parse_key_escape; [done|done|apply Hb].
Qed.

(** *** Sorting twice *)

Definition key_le {V} (e e' : JStr * V) : Prop := bytes_leb e.1 e'.1 = true.

Lemma insert_member_sorted {V} (e : JStr * V) l : Sorted key_le l → Sorted key_le (insert_member e l).
Proof.
  induction 1 as [|e' l Hl IH Hh]; [by repeat constructor|]. simpl.
  destruct (bytes_leb e.1 e'.1) eqn:E; [by repeat constructor|].
  assert (E' : key_le e' e) by (unfold key_le; destruct (bytes_leb_total e.1 e'.1); congruence).
  constructor; [done|]. destruct l as [|e'' l]; simpl; [by constructor|].
  destruct (bytes_leb e.1 e''.1); [by constructor|]. constructor. by inversion Hh.
Qed.

Lemma sort_members_sorted {V} (l : list (JStr * V)) : Sorted key_le (sort_members l).
Proof. induction l; [constructor|]. by apply insert_member_sorted. Qed.

Lemma sort_members_id {V} (l : list (JStr * V)) : Sorted key_le l → sort_members l = l.
Proof.
  induction 1 as [|e l Hl IH Hh]; [done|]. simpl. rewrite IH. destruct Hh as [|e' l He]; [done|]. simpl. by rewrite He.
Qed.

Lemma encode_normalize v : encode_value (normalize v) = encode_value v.
Proof.
  induction v as [|b|i|x|s|items IH|o IH] using Value_nested_ind; try done.
  - cbn [normalize encode_value]. rewrite map_map. do 2 f_equal. by apply map_ext_Forall.
  - rewrite normalize_object. cbn [encode_value]. rewrite !sort_members_map.
    rewrite (sort_members_id (sort_members o)) by apply sort_members_sorted. rewrite !map_map.
    apply sort_members_Forall in IH. do 2 f_equal. apply map_ext_Forall. eapply Forall_impl; [exact IH|].
    intros e He. cbn [fst snd]. by rewrite He.
Qed.

(** Parsed values are well formed: integers without leading zeros or a negative zero, and
    objects without a repeated key. *)
Theorem parsed_values_are_wf text v : parse text = Ok v → wf_value v.
Proof. apply parse_wf. Qed.

Lemma parse_encoded v out :
  wf_value v → any_node is_float v = false → encode_value v = Ok out → parse out = Ok (normalize v).
Proof.
  intros Hw Hf Hc. destruct (encoded_value_parses v out Hc Hw Hf) as [(b & rest & -> & Hb) Hr].
  unfold parse, parse_run. cbn [skip_ws]. rewrite (proj1 Hb).
  fold (run_at [] (b :: rest)). rewrite <-(app_nil_r (b :: rest)), Hr by done. done.
Qed.

(** [C38] The canonical text of a well-formed value without floats parses back to the value with
    its members sorted by key, whose canonical text is the same. *)
Theorem parse_canonical v out :
  wf_value v → contains_float v = false → canonical v = Ok out →
  parse out = Ok (normalize v) ∧ canonical (normalize v) = Ok out.
Proof.
  intros Hw Hf Hc. rewrite canonical_encode in *. rewrite encode_normalize. split; [|done].
  unfold contains_float in Hf. rewrite any_loop_spec in Hf by (unfold stack_weight; simpl; lia).
  cbn [default existsb] in Hf. rewrite orb_false_r in Hf. by apply parse_encoded.
Qed.

(** A value as a peer might write it: members out of order, escapes, a negative integer. *)
Definition unsorted_value : Value :=
  VObject [(jstr "b", VArray [VInt (mkInt true [49; 50]); VNull; VBool true]);
           (jstr "a", VObject [(jstr "line", VStr [97; 10; 34]); (jstr "", VInt int_zero)])].

Lemma parse_canonical_witness :
  let out := bytes_of "{'a':{'':0,'line':'a\n\''},'b':[-12,null,true]}" in
  let out := map (λ b, if b =? 39 then 34 else b) out in
  parse out = Ok (normalize unsorted_value) ∧ canonical (normalize unsorted_value) = Ok out.
Proof.
  apply (parse_canonical unsorted_value); [|vm_compute; reflexivity|vm_compute; reflexivity].
  apply wf_object. split; [by apply (bool_decide_unpack _); vm_compute|].
  apply Forall_cons. split; [|apply Forall_cons; split; [|constructor]].
  - apply wf_array. repeat constructor; by try discriminate.
  - apply wf_object. split; [by apply (bool_decide_unpack _); vm_compute|]. repeat constructor; by try discriminate.
Defined.

Lemma parsed_values_are_wf_witness :
  parse (bytes_of "[-0, 12]") = Ok (VArray [VInt int_zero; VInt (mkInt false [49; 50])]) ∧
  wf_value (VArray [VInt int_zero; VInt (mkInt false [49; 50])]).
Proof.
  split; [vm_compute; reflexivity|]. apply (parsed_values_are_wf (bytes_of "[-0, 12]")). vm_compute. reflexivity.
Defined.
