(* ===== verification/JsonInt.v ===== *)
(** * Integers of any size, exactly

    Comparisons and conversions of decimal integers against the integers they denote. *)

From S2P Require Import Prelude Float Json JsonRoundtrip.
From S2P Require Import JsonParse JsonEncode.
(** The integer a decimal denotes. *)
Definition int_value (i : Int) : Z :=
  if negative i then - digits_value (magnitude i) else digits_value (magnitude i).

Lemma digits_value_lt l : Forall (λ b, is_digit b = true) l → digits_value l < 10 ^ Z.of_nat (length l).
Proof.
  induction 1 as [|d l Hd%is_digit_bounds Hl IH]; [done|]. rewrite digits_value_cons. cbn [length].
  rewrite Nat2Z.inj_succ, Z.pow_succ_r by lia. nia.
Qed.

Lemma bytes_cmp_digits l k :
  Forall (λ b, is_digit b = true) l → Forall (λ b, is_digit b = true) k → length l = length k →
  bytes_cmp l k = (digits_value l ?= digits_value k).
Proof.
  intros Hl. revert k. induction Hl as [|d l Hd Hl IH]; intros [|e k] Hk [=]; [done|].
  apply Forall_cons in Hk as [He Hk]. rewrite !digits_value_cons. cbn [bytes_cmp]. rewrite IH by done.
  pose proof (digits_value_lt l Hl). pose proof (digits_value_lt k Hk).
  pose proof (digits_value_nonneg l Hl). pose proof (digits_value_nonneg k Hk). replace (length k) with (length l) in * by done.
  set (p := 10 ^ Z.of_nat (length l)) in *.
  destruct (Z.compare_spec d e) as [->|Hlt|Hgt].
  - destruct (Z.compare_spec (digits_value l) (digits_value k)); symmetry;
      [apply Z.compare_eq_iff|apply Z.compare_lt_iff|apply Z.compare_gt_iff]; lia.
  - symmetry. apply Z.compare_lt_iff. nia.
  - symmetry. apply Z.compare_gt_iff. nia.
Qed.

Lemma canonical_value_ge l :
  canonical_digits l → l = [48] ∨ 10 ^ (Z.of_nat (length l) - 1) ≤ digits_value l.
Proof.
  intros (Hd & Hn & Hz). destruct l as [|d l]; [done|]. destruct (decide (d = 48)) as [->|Hne]; [left; by apply Hz|].
  right. apply Forall_cons in Hd as [Hd%is_digit_bounds Hl]. rewrite digits_value_cons. cbn [length].
  rewrite Nat2Z.inj_succ. replace (Z.succ (Z.of_nat (length l)) - 1) with (Z.of_nat (length l)) by lia.
  pose proof (digits_value_nonneg l Hl). pose proof (Z.pow_pos_nonneg 10 (Z.of_nat (length l))). nia.
Qed.

(** A longer canonical decimal is greater. *)
Lemma canonical_longer l k :
  canonical_digits l → canonical_digits k → (length k < length l)%nat → digits_value k < digits_value l.
Proof.
  intros Hl Hk Hlen. destruct (canonical_value_ge l Hl) as [->|Hge].
  - destruct Hk as (_ & Hn & _). destruct k; simpl in *; [done|lia].
  - pose proof (digits_value_lt k (proj1 Hk)).
    assert (10 ^ Z.of_nat (length k) ≤ 10 ^ (Z.of_nat (length l) - 1)) by (apply Z.pow_le_mono_r; lia). lia.
Qed.

Lemma magnitude_cmp l k :
  canonical_digits l → canonical_digits k →
  match Nat.compare (length l) (length k) with Eq => bytes_cmp l k | c => c end = (digits_value l ?= digits_value k).
Proof.
  intros Hl Hk. destruct (Nat.compare_spec (length l) (length k)).
  - apply bytes_cmp_digits; [apply Hl|apply Hk|done].
  - symmetry. apply Z.compare_lt_iff. by apply canonical_longer.
  - symmetry. apply Z.compare_gt_iff. by apply canonical_longer.
Qed.

Lemma magnitude_nonneg i : wf_int i → 0 ≤ digits_value (magnitude i).
Proof. intros [[Hd _] _]. by apply digits_value_nonneg. Qed.

Lemma magnitude_pos i : wf_int i → negative i = true → 0 < digits_value (magnitude i).
Proof.
  intros [Hc Hn] Hneg. destruct (canonical_value_ge _ Hc) as [H|H]; [by destruct Hn|].
  destruct Hc as (_ & Hne & _). pose proof (Z.pow_pos_nonneg 10 (Z.of_nat (length (magnitude i)) - 1) ltac:(lia)).
  destruct (magnitude i); simpl in *; [done|lia].
Qed.

Lemma int_cmp_value i j : wf_int i → wf_int j → int_cmp i j = (int_value i ?= int_value j).
Proof.
  intros Hi Hj. pose proof (magnitude_nonneg i Hi). pose proof (magnitude_nonneg j Hj).
  pose proof (magnitude_pos i Hi). pose proof (magnitude_pos j Hj).
  unfold int_cmp, int_value. rewrite (magnitude_cmp _ _ (proj1 Hi) (proj1 Hj)).
  destruct (negative i), (negative j); try done.
  - rewrite Z.compare_opp. symmetry. apply Z.compare_antisym.
  - symmetry. apply Z.compare_lt_iff. lia.
  - symmetry. apply Z.compare_gt_iff. lia.
Qed.

(** The decimal of an integer. *)
Lemma int_of_value v : wf_int (mkInt (v <? 0) (digits_of (Z.abs v))) ∧ int_value (mkInt (v <? 0) (digits_of (Z.abs v))) = v.
Proof.
  pose proof (digits_of_canonical (Z.abs v) ltac:(lia)) as Hc.
  destruct (digits_of_spec (Z.abs v) ltac:(lia)) as (_ & Hv & _). split.
  - split; [done|]. cbn [negative magnitude]. intros Hneg H48. rewrite H48 in Hv. change (digits_value [48]) with 0 in Hv. lia.
  - unfold int_value. cbn [negative magnitude]. rewrite Hv. destruct (Z.ltb_spec v 0); lia.
Qed.

Lemma f64_fraction_pos x : 0 < (f64_fraction x).2.
Proof.
  destruct x as [| | |s m e]; simpl; try lia. destruct (Z.leb_spec 0 e); simpl; [lia|].
  apply Z.pow_pos_nonneg; lia.
Qed.

Lemma cmp_f64_value i x :
  wf_int i → is_finite x = true →
  cmp_f64 i x = Some (int_value i * (f64_fraction x).2 ?= (f64_fraction x).1).
Proof.
  intros Hi Hx. pose proof (f64_fraction_pos x) as Hd.
  assert (H : cmp_f64 i x = Some match int_cmp i (mkInt (f64_trunc x <? 0) (digits_of (Z.abs (f64_trunc x)))) with
              | Eq => match f64_fract_sign x with Gt => Lt | Lt => Gt | Eq => Eq end
              | other => other
              end) by by destruct x.
  rewrite H. clear H Hx. destruct (int_of_value (f64_trunc x)) as [Hw Hv].
  rewrite (int_cmp_value i _ Hi Hw), Hv. clear Hw Hv.
  unfold f64_trunc, f64_fract_sign. destruct (f64_fraction x) as [n d]. cbn [fst snd] in *. f_equal.
  pose proof (Z.quot_rem' n d) as Hq. pose proof (Z.rem_bound_abs n d ltac:(lia)) as Hb.
  set (q := Z.quot n d) in *. set (r := Z.rem n d) in *.
  destruct (Z.compare_spec (int_value i) q) as [->|Hlt|Hgt].
  - destruct (Z.compare_spec r 0); symmetry; [apply Z.compare_eq_iff|apply Z.compare_gt_iff|apply Z.compare_lt_iff]; lia.
  - symmetry. apply Z.compare_lt_iff. nia.
  - symmetry. apply Z.compare_gt_iff. nia.
Qed.

Lemma to_i128_value i lo hi :
  wf_int i → - 10 ^ 38 < lo → hi < 10 ^ 38 →
  (let* v := to_i128 i in if (lo <=? v) && (v <=? hi) then Some v else None) =
  (if (lo <=? int_value i) && (int_value i <=? hi) then Some (int_value i) else None).
Proof.
  intros Hi Hlo Hhi. unfold to_i128. destruct (Nat.ltb_spec 38 (length (magnitude i))) as [Hl|]; [|done]. cbn [mbind option_bind].
  destruct (canonical_value_ge _ (proj1 Hi)) as [H|H]; [rewrite H in Hl; simpl in Hl; lia|].
  assert (10 ^ 38 ≤ 10 ^ (Z.of_nat (length (magnitude i)) - 1)) by (apply Z.pow_le_mono_r; lia).
  unfold int_value. destruct (negative i); destruct (Z.leb_spec lo (- digits_value (magnitude i))),
    (Z.leb_spec (digits_value (magnitude i)) hi); simpl; try lia; by rewrite ?andb_false_r.
Qed.

(** Integers are compared and converted exactly, whatever their size: with each other, with
    every finite double as the rational it is, and into 64 bits exactly when they fit. *)
Theorem integers_are_exact i j :
  wf_int i → wf_int j →
  int_cmp i j = (int_value i ?= int_value j) ∧
  (∀ x, is_finite x = true → cmp_f64 i x = Some (int_value i * (f64_fraction x).2 ?= (f64_fraction x).1)) ∧
  to_i64 i = (if in_i64 (int_value i) then Some (int_value i) else None) ∧
  to_u64 i = u64_try_from (int_value i).
Proof.
  intros Hi Hj. split; [by apply int_cmp_value|]. split; [intros x; by apply cmp_f64_value|]. split.
  - apply (to_i128_value i I64_MIN I64_MAX Hi); by vm_compute.
  - pose proof (to_i128_value i 0 U64_MAX Hi ltac:(by vm_compute) ltac:(by vm_compute)) as H.
    unfold to_u64, u64_try_from in *.
    assert (Hs : ∀ v : Z, (0 <=? v) && (v <? U64) = (0 <=? v) && (v <=? U64_MAX)).
    { intros v. f_equal. unfold U64, U64_MAX. destruct (Z.ltb_spec v (2 ^ 64)), (Z.leb_spec v (2 ^ 64 - 1)); lia. }
    rewrite Hs, <-H. destruct (to_i128 i); simpl; [by rewrite Hs|done].
Qed.

Lemma integers_are_exact_witness :
  let i := mkInt true (digits_of (2 ^ 70)) in
  int_cmp i (int_from_i64 (-5)) = (int_value i ?= -5) ∧ to_i64 i = None.
Proof.
  assert (Hi : wf_int (mkInt true (digits_of (2 ^ 70)))) by (split; [by apply digits_of_canonical|by vm_compute]).
  assert (Hj : wf_int (int_from_i64 (-5))) by apply (int_of_value (-5)).
  destruct (integers_are_exact _ _ Hi Hj) as (H1 & _ & H2 & _). split; [exact H1|exact H2].
Defined.

(** * The gate's own documents are canonical JSON

    [Doc::canonical] writes what the canonical encoder writes for the document's value, the text is
    UTF-8 without the byte [0xFF], and parsing it gives the value back with its members sorted. *)

(** ** UTF-8, sequence by sequence *)

(** A multi-byte sequence: its bytes, and that what follows is checked on its own. *)
Definition utf8_sequence (c : list Z) : Prop :=
  c ≠ [] ∧ Forall (λ b, 128 ≤ b < 245) c ∧ ∀ k, utf8_valid (c ++ k) = utf8_valid k.

Lemma utf8_valid_ind (P : list Z → Prop) :
  P [] → (∀ b l, 0 ≤ b < 128 → utf8_valid l = true → P l → P (b :: l)) →
  (∀ c l, utf8_sequence c → utf8_valid l = true → P l → P (c ++ l)) →
  ∀ l, utf8_valid l = true → P l.
Proof.
  intros Hnil Hascii Hmulti l. induction l as [l IH] using (induction_ltof1 _ length). unfold ltof in IH.
  assert (Hc : ∀ c, continuation c = true → 128 ≤ c < 192) by (unfold continuation; lia).
  destruct l as [|b l]; [done|]. cbn [utf8_valid]. destruct ((0 <=? b) && (b <? 128)) eqn:E1.
  { intros H. apply Hascii; [lia|done|]. apply IH; [simpl; lia|done]. }
  destruct l as [|c1 l]; [done|]. destruct ((194 <=? b) && (b <=? 223)) eqn:E2.
  { intros [H1 H]%andb_prop. apply (Hmulti [b; c1]); [|done|apply IH; [simpl; lia|done]].
    split; [done|]. specialize (Hc _ H1). split; [repeat constructor; lia|].
    intros k. cbn [app utf8_valid]. by rewrite E1, E2, H1. }
  destruct l as [|c2 l]; [done|]. destruct ((224 <=? b) && (b <=? 239)) eqn:E3.
  { intros [[[[H1 H2]%andb_prop H3]%andb_prop H4]%andb_prop H]%andb_prop.
    apply (Hmulti [b; c1; c2]); [|done|apply IH; [simpl; lia|done]].
    pose proof (Hc _ H1). pose proof (Hc _ H2). split; [done|]. split; [repeat constructor; lia|].
    intros k. cbn [app utf8_valid]. by rewrite E1, E2, E3, H1, H2, H3, H4. }
  destruct l as [|c3 l]; [done|].
  intros [[[[[[[Hb1 Hb2]%andb_prop H1]%andb_prop H2]%andb_prop H3]%andb_prop H4]%andb_prop H5]%andb_prop H]%andb_prop.
  apply (Hmulti [b; c1; c2; c3]); [|done|apply IH; [simpl; lia|done]].
  pose proof (Hc _ H1). pose proof (Hc _ H2). pose proof (Hc _ H3). split; [done|]. split; [repeat constructor; lia|].
  intros k. cbn [app utf8_valid]. by rewrite E1, E2, E3, Hb1, Hb2, H1, H2, H3, H4, H5.
Qed.

Lemma utf8_valid_app l k : utf8_valid l = true → utf8_valid (l ++ k) = utf8_valid k.
Proof.
  revert l. apply utf8_valid_ind; [done| |].
  - intros b l Hb _ IH. cbn [app utf8_valid]. by rewrite (proj2 (andb_true_iff _ _)) by lia.
  - intros c l (_ & _ & Hc) _ IH. by rewrite <-app_assoc, Hc.
Qed.

Lemma utf8_valid_both l k : utf8_valid l = true → utf8_valid k = true → utf8_valid (l ++ k) = true.
Proof. intros. by rewrite utf8_valid_app. Qed.

Lemma utf8_no_ff l : utf8_valid l = true → Forall (λ b, b ≠ 0xFF) l.
Proof.
  revert l. apply utf8_valid_ind; [constructor| |].
  - intros b l Hb _ IH. constructor; [lia|done].
  - intros c l (_ & Hc & _) _ IH. apply Forall_app. split; [|done].
    eapply Forall_impl; [exact Hc|]. simpl. lia.
Qed.

Lemma utf8_ascii l : Forall (λ b, 0 ≤ b < 128) l → utf8_valid l = true.
Proof. induction 1 as [|b l Hb _ IH]; [done|]. cbn [utf8_valid]. by rewrite (proj2 (andb_true_iff _ _)) by lia. Qed.

(** *** Escaped text *)

Lemma hex_lower_ascii n : 0 ≤ n < 16 → 0 ≤ hex_lower n < 128.
Proof.
  intros Hn. assert (Hin : n ∈ map Z.of_nat (seq 0 16)).
  { rewrite list_elem_of_fmap. exists (Z.to_nat n). rewrite elem_of_seq. lia. }
  cbn in Hin. repeat (apply elem_of_cons in Hin as [-> | Hin]; [by vm_compute|]). by apply elem_of_nil in Hin.
Qed.

Lemma escape_byte_ascii b : 0 ≤ b < 128 → Forall (λ b, 0 ≤ b < 128) (escape_byte b).
Proof.
  intros Hb. unfold escape_byte.
  repeat (case_match; [repeat constructor; by vm_compute|]). case_match; [|repeat constructor; lia].
  apply Forall_app. split; [repeat constructor; by vm_compute|].
  apply Forall_cons. split; [|apply Forall_cons; split; [|constructor]]; apply hex_lower_ascii.
  - rewrite Z.shiftr_div_pow2 by lia. Z.div_mod_to_equations; lia.
  - change 0x0F with (2 ^ 4 - 1). rewrite land_ones_mod by lia. Z.div_mod_to_equations; lia.
Qed.

Lemma escape_byte_high b : 128 ≤ b → escape_byte b = [b].
Proof. intros Hb. unfold escape_byte. by repeat (case_match; [lia|]). Qed.

Lemma utf8_escape l : utf8_valid l = true → utf8_valid (escape l) = true.
Proof.
  intros Hl. unfold escape. apply utf8_valid_both; [done|]. apply utf8_valid_both; [|done].
  revert l Hl. apply utf8_valid_ind; [done| |].
  - intros b l Hb _ IH. cbn [flat_map]. apply utf8_valid_both; [|done]. by apply utf8_ascii, escape_byte_ascii.
  - intros c l (_ & Hc & Hv) _ IH. rewrite flat_map_app.
    assert (H : flat_map escape_byte c = c).
    { clear Hv. induction Hc as [|b c Hb _ IHc]; [done|]. cbn [flat_map]. rewrite escape_byte_high, IHc by lia. done. }
    by rewrite H, Hv.
Qed.

(** ** Well-formed documents: what Rust's types say of a [Doc] *)

Definition utf8_text (s : string) : Prop := utf8_valid (bytes_of s) = true.

Section DocInduction.
Context (P : Doc → Prop).
Context (Hnull : P DNull) (Hbool : ∀ b, P (DBool b)) (Hint : ∀ n, P (DInt n)) (Hstr : ∀ s, P (DStr s)).
Context (Harray : ∀ items, Forall P items → P (DArray items)).
Context (Hobject : ∀ members, Forall (λ e, P e.2) members → P (DObject members)).

Fixpoint Doc_nested_ind (d : Doc) : P d :=
  match d with
  | DNull => Hnull
  | DBool b => Hbool b
  | DInt n => Hint n
  | DStr s => Hstr s
  | DArray items =>
      Harray items ((fix go l : Forall P l :=
        match l with [] => Forall_nil_2 _ | d :: l => Forall_cons_2 _ _ _ (Doc_nested_ind d) (go l) end) items)
  | DObject members =>
      Hobject members ((fix go l : Forall (λ e, P e.2) l :=
        match l with
        | [] => Forall_nil_2 _
        | e :: l => Forall_cons_2 (λ e, P e.2) _ _ (Doc_nested_ind e.2) (go l)
        end) members)
  end.
End DocInduction.

(** 64-bit integers, UTF-8 text, and members with distinct names. *)
Fixpoint wf_doc (d : Doc) : Prop :=
  match d with
  | DInt n => in_i64 n = true
  | DStr s => utf8_text s
  | DArray items => Forall id (map wf_doc items)
  | DObject members =>
      NoDup (map fst members) ∧ Forall utf8_text (map fst members) ∧ Forall id (map (λ e, wf_doc e.2) members)
  | _ => True
  end.

Definition member_value (e : string * Doc) : JStr * Value := (jstr e.1, doc_to_value e.2).

Lemma object_insert_new (o : Object) key v : key ∉ map fst o → object_insert o key v = o ++ [(key, v)].
Proof.
  induction o as [|[k w] o IH]; intros Hk; [done|]. simpl in *. apply not_elem_of_cons in Hk as [Hk Ho].
  rewrite bool_decide_eq_false_2 by congruence. by rewrite IH.
Qed.

Lemma doc_object_value members :
  NoDup (map fst members) → doc_to_value (DObject members) = VObject (map member_value members).
Proof.
  intros Hn. cbn [doc_to_value]. f_equal. change (map (λ e : string * Doc, _) members) with (map member_value members).
  assert (Hk : NoDup (map fst (map member_value members))).
  { rewrite map_map. change (map (λ x, (member_value x).1) members) with (map (λ x : string * Doc, bytes_of x.1) members).
    rewrite <-(map_map fst bytes_of). apply NoDup_fmap_2; [|done]. intros x y. apply bytes_of_inj. }
  change (map member_value members) with ([] ++ map member_value members) at 2.
  change (map fst (map member_value members)) with (map fst (([] : Object) ++ map member_value members)) in Hk.
  revert Hk. generalize (@nil (JStr * Value)) as o. induction (map member_value members) as [|[k v] l IH]; intros o Hk.
  { by rewrite app_nil_r. }
  cbn [fold_left fst snd]. rewrite map_app in Hk. cbn [map fst] in Hk.
  apply NoDup_app in Hk as (Ho & Hdis & Hl). rewrite object_insert_new.
  - rewrite IH; [by rewrite <-app_assoc|]. rewrite !map_app. cbn [map fst]. rewrite <-app_assoc.
    apply NoDup_app. done.
  - intros H. apply (Hdis _ H). left.
Qed.

(** ** The encoders agree *)

Lemma length_digits_i64 n : in_i64 n = true → (length (digits_of (Z.abs n)) ≤ 20)%nat.
Proof.
  intros Hn. unfold in_i64, I64_MIN, I64_MAX in Hn.
  destruct (digits_of_spec (Z.abs n) ltac:(lia)) as (_ & Hv & _ & _ & _).
  destruct (canonical_value_ge _ (digits_of_canonical (Z.abs n) ltac:(lia))) as [->|Hge]; [simpl; lia|].
  rewrite Hv in Hge. destruct (Nat.le_gt_cases (length (digits_of (Z.abs n))) 20) as [|Hgt]; [done|exfalso].
  assert (10 ^ 20 ≤ 10 ^ (Z.of_nat (length (digits_of (Z.abs n))) - 1)) by (apply Z.pow_le_mono_r; lia).
  change (10 ^ 20) with 100000000000000000000 in *. lia.
Qed.

Lemma encode_int n : in_i64 n = true → encode_value (value_int n) = Ok (decimal n).
Proof.
  intros Hn. cbn [value_int encode_value int_digits int_from_i64 magnitude]. pose proof (length_digits_i64 n Hn).
  rewrite (proj2 (Nat.ltb_ge _ _)) by (change (int_digits _) with (length (digits_of (Z.abs n))); unfold MAX_INT_DIGITS; lia). f_equal.
  unfold to_decimal, int_from_i64, decimal. cbn [negative magnitude].
  destruct (Z.ltb_spec n 0); [by rewrite Z.abs_neq by lia|by rewrite Z.abs_eq by lia].
Qed.

Lemma encode_text s : utf8_text s → write_jstr (bytes_of s) = Ok (escape (bytes_of s)).
Proof. intros Hs. unfold write_jstr, has_lone_surrogate, utf8_text in *. by rewrite Hs. Qed.

Lemma sequence_Ok {A T E} (f : A → result T E) (g : A → T) l :
  Forall (λ x, f x = Ok (g x)) l → sequence (map f l) = Ok (map g l).
Proof. unfold sequence. induction 1 as [|x l Hx _ IH]; [done|]. simpl. by rewrite Hx; simpl; rewrite IH. Qed.

Lemma wf_doc_array items : wf_doc (DArray items) ↔ Forall wf_doc items.
Proof. simpl. by rewrite Forall_map. Qed.
Lemma wf_doc_object members :
  wf_doc (DObject members) ↔
  NoDup (map fst members) ∧ Forall (λ e, utf8_text e.1) members ∧ Forall (λ e, wf_doc e.2) members.
Proof. simpl. by rewrite !Forall_map. Qed.

Lemma sort_members_elem {V} (l : list (JStr * V)) e : e ∈ sort_members l ↔ e ∈ l.
Proof. by rewrite sort_members_perm. Qed.

Definition doc_member (e : string * Doc) : JStr * list Z := (bytes_of e.1, doc_canonical e.2).

Lemma encode_doc d : wf_doc d → encode_value (doc_to_value d) = Ok (doc_canonical d).
Proof.
  induction d as [|[]|n|s|items IH|members IH] using Doc_nested_ind; intros Hw; try done.
  - by apply encode_int.
  - by apply encode_text.
  - apply wf_doc_array in Hw. cbn [doc_to_value encode_value doc_canonical]. rewrite map_map.
    rewrite (sequence_Ok _ doc_canonical); [done|].
    rewrite Forall_forall in *. intros d Hd. by apply IH, Hw.
  - pose proof Hw as (Hn & Hk & Hm)%wf_doc_object. rewrite doc_object_value by done.
    cbn [encode_value doc_canonical]. fold doc_member. rewrite map_map.
    assert (Hl : map (λ e, ((member_value e).1, encode_value (member_value e).2)) members
                 = map (λ e : JStr * list Z, (e.1, @Ok _ EncodeError e.2)) (map doc_member members)).
    { rewrite map_map. apply map_ext_in. intros e He%list_elem_of_In. simpl. f_equal.
      rewrite Forall_forall in IH, Hm. by apply IH, Hm. }
    rewrite Hl, sort_members_map, map_map.
    rewrite (sequence_Ok _ (λ e : JStr * list Z, escape e.1 ++ [58] ++ e.2)); [done|].
    apply Forall_forall. intros e He. apply sort_members_elem, list_elem_of_fmap in He as (m & -> & Hin).
    unfold write_member. cbn [fst snd doc_member]. rewrite encode_text; [done|].
    rewrite Forall_forall in Hk. by apply Hk.
Qed.

Lemma doc_value_wf d : wf_doc d → wf_value (doc_to_value d) ∧ any_node is_float (doc_to_value d) = false.
Proof.
  induction d as [|[]|n|s|items IH|members IH] using Doc_nested_ind; intros Hw; try done.
  - split; [|done]. apply (int_of_value n).
  - apply wf_doc_array in Hw. rewrite Forall_forall in *. cbn [doc_to_value]. split.
    + apply wf_array, Forall_map, Forall_forall. intros d Hd. by apply IH, Hw.
    + cbn. rewrite <-not_true_iff_false, existsb_exists. intros (v & (d & <- & Hd%list_elem_of_In)%in_map_iff & Hf).
      by rewrite (proj2 (IH d Hd (Hw d Hd))) in Hf.
  - pose proof Hw as (Hn & Hk & Hm)%wf_doc_object. rewrite doc_object_value by done. rewrite Forall_forall in *. split.
    + apply wf_object. split.
      * rewrite map_map. change (map (λ x, (member_value x).1) members) with (map (λ x : string * Doc, bytes_of x.1) members).
        rewrite <-(map_map fst bytes_of). apply NoDup_fmap_2; [|done]. intros x y. apply bytes_of_inj.
      * apply Forall_map, Forall_forall. intros e He. by apply IH, Hm.
    + cbn. rewrite <-not_true_iff_false, existsb_exists. intros (v & (e & <- & He%list_elem_of_In)%in_map_iff & Hf).
      cbn in Hf. by rewrite (proj2 (IH e He (Hm e He))) in Hf.
Qed.

(** A document's text parses to its value with the members sorted by key. *)
Lemma doc_parses d : wf_doc d → parse (doc_canonical d) = Ok (normalize (doc_to_value d)).
Proof. intros Hw. destruct (doc_value_wf d Hw). apply parse_encoded; [done|done|by apply encode_doc]. Qed.

Lemma doc_canonical_again d : wf_doc d → canonical (normalize (doc_to_value d)) = Ok (doc_canonical d).
Proof. intros Hw. rewrite canonical_encode, encode_normalize. by apply encode_doc. Qed.

Lemma utf8_write_items first items :
  Forall (λ out, utf8_valid out = true) items → utf8_valid (write_items first items) = true.
Proof.
  intros H. revert first. induction H as [|out items Ho _ IH]; intros first; [done|]. cbn [write_items].
  by destruct first; repeat apply utf8_valid_both.
Qed.

Lemma utf8_decimal n : utf8_valid (decimal n) = true.
Proof.
  apply utf8_ascii.
  assert (H : ∀ m, 0 ≤ m → Forall (λ b, 0 ≤ b < 128) (digits_of m)).
  { intros m Hm. destruct (digits_of_spec m Hm) as [Hd _]. eapply Forall_impl; [exact Hd|].
    intros b ?%is_digit_bounds. lia. }
  unfold decimal. destruct (Z.ltb_spec n 0); [constructor; [lia|]|]; apply H; lia.
Qed.

Lemma utf8_doc_canonical d : wf_doc d → utf8_valid (doc_canonical d) = true.
Proof.
  induction d as [|[]|n|s|items IH|members IH] using Doc_nested_ind; intros Hw; try done.
  - apply utf8_decimal.
  - by apply utf8_escape.
  - apply wf_doc_array in Hw. cbn [doc_canonical]. apply utf8_valid_both; [done|]. apply utf8_valid_both; [|done].
    apply utf8_write_items, Forall_map. rewrite Forall_forall in *. intros d Hd. by apply IH, Hw.
  - pose proof Hw as (Hn & Hk & Hm)%wf_doc_object. cbn [doc_canonical]. fold doc_member.
    apply utf8_valid_both; [done|]. apply utf8_valid_both; [|done]. apply utf8_write_items, Forall_map, Forall_forall.
    intros e He. apply sort_members_elem, list_elem_of_fmap in He as (m & -> & Hin).
    rewrite Forall_forall in *. cbn [fst snd doc_member].
    apply utf8_valid_both; [by apply utf8_escape, Hk|]. apply utf8_valid_both; [done|]. by apply IH, Hm.
Qed.
