(* ===== verification/Regex.v ===== *)
(** * The pattern subset ([host-enforcement/crates/i05-protocol/src/regex.rs])

    The pattern parser, the Thompson construction ([build]) and the breadth-first simulation
    ([is_match], Python's [re.search] over code points).  This file holds the definitions;
    [RegexProofs] relates the simulation to a denotational semantics of patterns. *)

From S2P Require Import Prelude Json.
Definition MAX_STATES : nat := Z.to_nat 100000.
Definition MAX_REPEAT : Z := 1000.
Definition MAX_NESTING : nat := 64.

Abbreviation PatternError := string.
Abbreviation ranges := (list (Z * Z)).

Inductive Node :=
| Empty
| Class (r : ranges)
| Start
| End
| Concat (items : list Node)
| Alternation (branches : list Node)
| Repeat (body : Node) (min : nat) (max : option nat).

Inductive NfaState :=
| SClass (r : ranges) (next : nat)
| SSplit (first second : nat)
| SAssertStart (next : nat)
| SAssertEnd (next : nat)
| SMatch.

Record Regex := mkRegex { states : list NfaState; start : nat }.

(** ** The pattern parser, over the characters left *)

Abbreviation pparsed T := (run (T * list Z) PatternError).

Definition char_in (c : Z) (set : string) : bool := bool_decide (c ∈ bytes_of set).

(** [class]: the ranges between [[] and []]. *)
Fixpoint class_loop (fuel : nat) (first : bool) (acc : ranges) (rest : list Z) : pparsed Node :=
  match fuel with
  | O => OutOfFuel
  | S fuel =>
      match rest with
      | [] => Fail "unterminated class"
      | c :: rest =>
          if c =? 93 then Done (Class acc, rest)
          else if (c =? 92) || (c =? 91) then Fail "unsupported class syntax"
          else
            let literal_dash := (c =? 45) && (first || bool_decide (head rest = Some 93)) in
            if (c =? 45) && negb literal_dash then Fail "a range without a start"
            else if bool_decide (head rest = Some 45) && negb (bool_decide (head (drop 1 rest) = Some 93))
                    && negb literal_dash then
              match drop 1 rest with
              | [] => Fail "unsupported range"
              | high :: rest =>
                  if (high =? 92) || (high =? 91) || (high =? 93) then Fail "unsupported range"
                  else if high <? c then Fail "reversed range"
                  else class_loop fuel false (acc ++ [(c, high)]) rest
              end
            else class_loop fuel false (acc ++ [(c, c)]) rest
      end
  end.

Definition parse_class (rest : list Z) : pparsed Node :=
  match rest with
  | c :: _ => if (c =? 94) || (c =? 93) then Fail "negated or empty classes are not supported"
              else class_loop (S (length rest)) true [] rest
  | [] => class_loop (S (length rest)) true [] rest
  end.

(** [number]: decimal digits into a [u32]. *)
Fixpoint number_loop (value : Z) (digits : nat) (rest : list Z) : result (Z * nat * list Z) PatternError :=
  match rest with
  | c :: rest' =>
      if is_digit c then
        let v := value * 10 + (c - 48) in
        if (U32 <=? value * 10) || (U32 <=? v) then Err "repeat too large" else number_loop v (S digits) rest'
      else Ok (value, digits, rest)
  | [] => Ok (value, digits, rest)
  end.

Definition parse_count (rest : list Z) : result (Z * list Z) PatternError :=
  let? (value, digits, rest) := number_loop 0 0 rest in
  if Nat.eqb digits 0 then Err "a repeat count is missing" else Ok (value, rest).

Definition is_anchor (n : Node) : bool := match n with Start | End => true | _ => false end.

(** The end of [quantified], its cursor at the quantifier's last character. *)
Definition repeat_atom (atom : Node) (min : Z) (max : option Z) (rest : list Z) : result (Node * list Z) PatternError :=
  let rest := drop 1 rest in
  if match rest with c :: _ => char_in c "?*+{" | [] => false end then
    Err "lazy or repeated quantifiers are not supported"
  else if is_anchor atom then Err "a quantified anchor"
  else Ok (Repeat atom (Z.to_nat min) (Z.to_nat <$> max), rest).

Definition quantified (atom : Node) (rest : list Z) : result (Node * list Z) PatternError :=
  match rest with
  | c :: rest' =>
      if c =? 63 then repeat_atom atom 0 (Some 1) rest
      else if c =? 42 then repeat_atom atom 0 None rest
      else if c =? 43 then repeat_atom atom 1 None rest
      else if c =? 123 then
        let? (min, rest) := parse_count rest' in
        let? (max, rest) := if bool_decide (head rest = Some 44) then parse_count (drop 1 rest) else Ok (min, rest) in
        if negb (bool_decide (head rest = Some 125)) || (max <? min) || (MAX_REPEAT <? max) then
          Err "unsupported repeat"
        else repeat_atom atom min (Some max) rest
      else Ok (atom, rest)
  | [] => Ok (atom, rest)
  end.

(** [alternation], [concatenation] and [atom] call each other; the fuel bounds the calls. *)
Fixpoint alternation (fuel nesting : nat) (rest : list Z) : pparsed Node :=
  match fuel with
  | O => OutOfFuel
  | S fuel =>
      if Nat.ltb MAX_NESTING nesting then Fail "pattern nesting too deep"
      else
        let! (first, rest) := concatenation fuel nesting [] rest in
        branches fuel nesting [first] rest
  end
with branches (fuel nesting : nat) (acc : list Node) (rest : list Z) : pparsed Node :=
  match fuel with
  | O => OutOfFuel
  | S fuel =>
      match rest with
      | 124 :: rest =>
          let! (next, rest) := concatenation fuel nesting [] rest in
          branches fuel nesting (acc ++ [next]) rest
      | _ => match acc with [one] => Done (one, rest) | _ => Done (Alternation acc, rest) end
      end
  end
with concatenation (fuel nesting : nat) (acc : list Node) (rest : list Z) : pparsed Node :=
  match fuel with
  | O => OutOfFuel
  | S fuel =>
      match rest with
      | [] => Done (Concat acc, rest)
      | c :: _ =>
          if (c =? 124) || (c =? 41) then Done (Concat acc, rest)
          else
            let! (node, rest) := atom fuel nesting rest in
            let! (node, rest) := run_of_result (quantified node rest) in
            concatenation fuel nesting (acc ++ [node]) rest
      end
  end
with atom (fuel nesting : nat) (rest : list Z) : pparsed Node :=
  match fuel with
  | O => OutOfFuel
  | S fuel =>
      match rest with
      | [] => Fail "truncated pattern"
      | c :: rest =>
          if c =? 40 then
            if bool_decide (head rest = Some 63) then Fail "group extensions are not supported"
            else
              let! (inner, rest) := alternation fuel (S nesting) rest in
              match rest with 41 :: rest => Done (inner, rest) | _ => Fail "unbalanced group" end
          else if c =? 91 then parse_class rest
          else if c =? 94 then Done (Start, rest)
          else if c =? 36 then Done (End, rest)
          else if char_in c "\.*+?{}])|" then Fail "unsupported pattern syntax"
          else Done (Class [(c, c)], rest)
      end
  end.

(** ** The Thompson construction *)

Abbreviation built := (result (nat * list NfaState) PatternError).

Definition push (states : list NfaState) (s : NfaState) : built :=
  if Nat.leb MAX_STATES (length states) then Err "pattern too large" else Ok (length states, states ++ [s]).

Section Build.
Variable build : Node → nat → list NfaState → built.

(** [for item in items.iter().rev() { entry = self.build(item, entry)?; }] *)
Fixpoint build_concat (items : list Node) (next : nat) (states : list NfaState) : built :=
  match items with
  | [] => Ok (next, states)
  | item :: items =>
      let? (entry, states) := build_concat items next states in build item entry states
  end.

Fixpoint build_branches (items : list Node) (next : nat) (states : list NfaState)
    : result (list nat * list NfaState) PatternError :=
  match items with
  | [] => Ok ([], states)
  | item :: items =>
      let? (entry, states) := build item next states in
      let? (entries, states) := build_branches items next states in Ok (entry :: entries, states)
  end.

(** [while let Some(other) = entries.pop() { entry = push(Split(other, entry)) }] *)
Fixpoint build_splits (reversed : list nat) (entry : nat) (states : list NfaState) : built :=
  match reversed with
  | [] => Ok (entry, states)
  | other :: reversed =>
      let? (entry, states) := push states (SSplit other entry) in build_splits reversed entry states
  end.

End Build.

Section BuildRepeat.
(** [self.build(body, _)], for the repeated body. *)
Variable build_body : nat → list NfaState → built.

(** [for _ in min..max]: an optional copy of the body. *)
Fixpoint build_optional (count entry : nat) (states : list NfaState) : built :=
  match count with
  | O => Ok (entry, states)
  | S count =>
      let? (body_entry, states) := build_body entry states in
      let? (entry, states) := push states (SSplit body_entry entry) in
      build_optional count entry states
  end.

(** [for _ in 0..min]: a copy of the body. *)
Fixpoint build_times (count entry : nat) (states : list NfaState) : built :=
  match count with
  | O => Ok (entry, states)
  | S count => let? (entry, states) := build_body entry states in build_times count entry states
  end.
End BuildRepeat.

Fixpoint build (node : Node) (next : nat) (states : list NfaState) : built :=
  match node with
  | Empty => Ok (next, states)
  | Class r => push states (SClass r next)
  | Start => push states (SAssertStart next)
  | End => push states (SAssertEnd next)
  | Concat items => build_concat build items next states
  | Alternation items =>
      let? (entries, states) := build_branches build items next states in
      match rev entries with
      | [] => Ok (next, states)
      | entry :: reversed => build_splits reversed entry states
      end
  | Repeat body min max =>
      let? (entry, states) :=
        match max with
        | None =>
            let? (looping, states) := push states (SSplit next next) in
            let? (body_entry, states) := build body looping states in
            Ok (looping, <[looping := SSplit body_entry next]> states)
        | Some max => build_optional (build body) (max - min) next states
        end in
      build_times (build body) min entry states
  end.

Definition regex_new (pattern : string) : run Regex PatternError :=
  let chars := code_points (jstr pattern) in
  let! (tree, rest) := alternation (4 * length chars + 8) 0 chars in
  match rest with
  | [] =>
      run_of_result
        (let? (accept, states) := push [] SMatch in
         let? (start, states) := build tree accept states in
         Ok (mkRegex states start))
  | _ => Fail "unbalanced group"
  end.

(** ** The simulation *)

(** A [StateSet]: its marked states, in insertion order. *)
Abbreviation StateSet := (list nat).

(** [StateSet::insert]: the states already marked, or outside the pattern, are refused. *)
Definition set_insert (size index : nat) (set : StateSet) : option StateSet :=
  if Nat.ltb index size && negb (bool_decide (index ∈ set)) then Some (set ++ [index]) else None.

(** [add]: the states reachable without reading, depth first over an explicit stack. *)
Fixpoint add_loop (fuel : nat) (re : Regex) (set : StateSet) (pending : list nat) (pos end_ : nat)
    : option StateSet :=
  match pending with
  | [] => Some set
  | index :: pending =>
      match fuel with
      | O => None
      | S fuel =>
          match set_insert (length (states re)) index set with
          | None => add_loop fuel re set pending pos end_
          | Some set =>
              let pushed :=
                match states re !! index with
                | Some (SSplit first second) => [first; second]
                | Some (SAssertStart next) => if Nat.eqb pos 0 then [next] else []
                | Some (SAssertEnd next) => if Nat.eqb pos end_ then [next] else []
                | _ => []
                end in
              add_loop fuel re set (pushed ++ pending) pos end_
          end
      end
  end.

(** Each state is inserted once and pushes at most two. *)
Definition add_fuel (re : Regex) : nat := 2 * length (states re) + 2.

Definition add (re : Regex) (set : StateSet) (state pos end_ : nat) : StateSet :=
  default set (add_loop (add_fuel re) re set [state] pos end_).

Definition in_ranges (c : Z) (r : ranges) : bool := existsb (λ lh, (lh.1 <=? c) && (c <=? lh.2)) r.

Definition advance (re : Regex) (c : Z) (pos end_ : nat) (current : StateSet) : StateSet :=
  fold_left
    (λ following index,
      match states re !! index with
      | Some (SClass r next) => if in_ranges c r then add re following next (S pos) end_ else following
      | _ => following
      end) current [].

Definition accepts (re : Regex) (set : StateSet) : bool :=
  existsb (λ index, match states re !! index with Some SMatch => true | _ => false end) set.

(** [for pos in 0..=input.len()]: the start state is added at every position. *)
Fixpoint match_loop (re : Regex) (end_ pos : nat) (current : StateSet) (input : list Z) : bool :=
  let current := add re current (start re) pos end_ in
  if accepts re current then true
  else match input with
       | [] => false
       | c :: input => match_loop re end_ (S pos) (advance re c pos end_ current) input
       end.

Definition is_match (re : Regex) (text : JStr) : bool :=
  let input := code_points text in match_loop re (length input) 0 [] input.

(** ** Smoke tests *)

Definition search (pattern text : string) : option bool :=
  match regex_new pattern with Done re => Some (is_match re (jstr text)) | _ => None end.

Example regex_examples :
  [search "^sha256:[0-9a-f]{4}$" "sha256:0a9f"; search "^sha256:[0-9a-f]{4}$" "sha256:0a9g";
   search "a|bc" "xxbcx"; search "^(a|b)*$" "abba"; search "^(a|b)*$" "abca"; search "x{2,3}y?$" "xx";
   search "[" ""; search "a**" "a"; search "^[-a-c]+$" "a-b"]
  = [Some true; Some false; Some true; Some true; Some false; Some true; None; None; Some true].
Proof. vm_compute. reflexivity. Qed.

(** * The pattern compiler returns

    The parser's mutual recursion and the simulation's work list are bounded by fuel in the
    model; both bounds are enough for every pattern and every text. *)

(** A parser's answer that leaves at most [n] characters. *)
Definition leaves {T} (n : nat) (r : pparsed T) : Prop :=
  match r with
  | Done (_, rest) => (length rest ≤ n)%nat
  | Fail _ => True
  | OutOfFuel => False
  end.

Lemma leaves_bind {T U} n m (r : pparsed T) (k : T * list Z → pparsed U) :
  leaves n r → (∀ t rest, (length rest ≤ n)%nat → leaves m (k (t, rest))) → leaves m (run_bind r k).
Proof. destruct r as [[t rest]| |]; simpl; eauto. Qed.

Lemma leaves_more {T} n m (r : pparsed T) : (n ≤ m)%nat → leaves n r → leaves m r.
Proof. destruct r as [[t rest]| |]; simpl; [lia|done..]. Qed.

Lemma class_loop_leaves fuel first acc rest :
  (length rest < fuel)%nat → leaves (length rest) (class_loop fuel first acc rest).
Proof.
  revert first acc rest. induction fuel as [|fuel IH]; intros first acc rest Hf; [lia|]. cbn [class_loop].
  destruct rest as [|c rest]; [done|]. simpl in Hf. destruct (c =? 93); [simpl; lia|].
  destruct (_ || _); [done|]. cbn zeta. destruct (_ && _); [done|]. destruct (_ && _).
  - destruct rest as [|d [|high rest]]; simpl in *; [done..|]. destruct (_ || _); [done|]. destruct (_ <? _); [done|].
    eapply leaves_more; [|apply IH]; lia.
  - eapply leaves_more; [|apply IH]; simpl; lia.
Qed.

Lemma parse_class_leaves rest : leaves (length rest) (parse_class rest).
Proof.
  assert (H : leaves (length rest) (class_loop (S (length rest)) true [] rest)) by (apply class_loop_leaves; lia).
  unfold parse_class. destruct rest as [|c rest]; [exact H|]. destruct (_ || _); [done|exact H].
Qed.

Lemma number_loop_length value digits rest v d rest' :
  number_loop value digits rest = Ok (v, d, rest') → (length rest' ≤ length rest)%nat.
Proof.
  revert value digits. induction rest as [|c rest IH]; intros value digits; simpl; [by intros [= <- <- <-]|].
  destruct (is_digit c); [|by intros [= <- <- <-]]. destruct (_ || _); [done|]. intros H%IH. lia.
Qed.

Lemma parse_count_length rest v rest' : parse_count rest = Ok (v, rest') → (length rest' ≤ length rest)%nat.
Proof.
  unfold parse_count. intros ([[v' d] rest1] & H1 & H)%result_bind_Ok. apply number_loop_length in H1.
  destruct (Nat.eqb d 0); [done|]. by injection H as <- <-.
Qed.

Lemma quantified_leaves atom rest : leaves (length rest) (run_of_result (quantified atom rest)).
Proof.
  unfold quantified.
  assert (Hfin : ∀ min max rest', (length rest' ≤ length rest)%nat →
    leaves (length rest) (run_of_result (repeat_atom atom min max rest'))).
  { intros min max rest' Hl. unfold repeat_atom. destruct (match drop 1 rest' with [] => _ | _ => _ end); [done|].
    destruct (is_anchor atom); [done|]. simpl. rewrite length_drop. lia. }
  destruct rest as [|c rest]; [simpl; lia|].
  destruct (c =? 63); [by apply Hfin|]. destruct (c =? 42); [by apply Hfin|]. destruct (c =? 43); [by apply Hfin|].
  destruct (c =? 123); [|simpl; lia]. destruct (parse_count rest) as [[min rest1]|] eqn:E1; [|done]. cbn [result_bind].
  apply parse_count_length in E1.
  assert (Hm : ∀ max rest2, (if bool_decide (head rest1 = Some 44) then parse_count (drop 1 rest1) else Ok (min, rest1)) =
                 Ok (max, rest2) → (length rest2 ≤ length rest1)%nat).
  { intros max rest2. destruct (bool_decide _); [|by intros [= <- <-]].
    intros H%parse_count_length. rewrite length_drop in H. lia. }
  destruct (if bool_decide _ then _ else _) as [[max rest2]|]; [|done]. cbn [result_bind].
  specialize (Hm _ _ eq_refl). destruct (_ || _); [done|]. apply Hfin. simpl. lia.
Qed.

Lemma pattern_leaves fuel :
  (∀ nesting rest, (4 * length rest + 2 ≤ fuel)%nat → leaves (length rest) (alternation fuel nesting rest)) ∧
  (∀ nesting acc rest, (4 * length rest + 1 ≤ fuel)%nat → leaves (length rest) (branches fuel nesting acc rest)) ∧
  (∀ nesting acc rest, (4 * length rest + 1 ≤ fuel)%nat → leaves (length rest) (concatenation fuel nesting acc rest)) ∧
  (∀ nesting rest, rest ≠ [] → (4 * length rest ≤ fuel)%nat → leaves (length rest - 1) (atom fuel nesting rest)).
Proof.
  induction fuel as [|fuel (IHa & IHb & IHc & IHt)].
  { repeat split; intros; try lia. destruct rest; simpl in *; [done|lia]. }
  split; [|split; [|split]].
  - intros nesting rest Hf. cbn [alternation]. destruct (Nat.ltb _ _); [done|].
    eapply leaves_bind; [apply IHc; lia|]. intros first rest' Hl. cbn beta iota.
    eapply leaves_more; [|apply IHb]; lia.
  - intros nesting acc rest Hf. cbn [branches].
    assert (Hend : leaves (length rest) match acc with [one] => Done (one, rest) | _ => Done (Alternation acc, rest) end)
      by (destruct acc as [|? []]; simpl; lia).
    destruct rest as [|c rest]; [exact Hend|]. destruct (Z.eqb_spec c 124) as [->|Hne].
    { eapply leaves_bind; [apply IHc; simpl in Hf; lia|]. intros next rest' Hl. cbn beta iota.
      eapply leaves_more; [|apply IHb]; simpl in *; lia. }
    default_byte c Hend; done.
  - intros nesting acc rest Hf. cbn [concatenation]. destruct rest as [|c rest]; [simpl; lia|].
    destruct (_ || _); [simpl; lia|]. eapply leaves_bind; [apply IHt; simpl in *; [done|lia]|].
    intros node rest1 H1. cbn beta iota. eapply leaves_bind; [apply quantified_leaves|].
    intros node' rest2 H2. cbn beta iota. simpl in *. eapply leaves_more; [|apply IHc]; simpl; lia.
  - intros nesting rest Hne Hf. cbn [atom]. destruct rest as [|c rest]; [done|]. simpl in Hf. simpl.
    rewrite Nat.sub_0_r. destruct (c =? 40).
    { destruct (bool_decide _); [done|]. eapply leaves_bind; [apply IHa; lia|]. intros inner rest1 H1. cbn beta iota.
      destruct rest1 as [|d rest2]; [done|]. simpl in H1. default_branch. simpl. lia. }
    destruct (c =? 91); [apply parse_class_leaves|]. destruct (c =? 94); [simpl; lia|]. destruct (c =? 36); [simpl; lia|].
    destruct (char_in c _); simpl; [done|lia].
Qed.

(** Compiling a pattern returns, a program or a refusal: the parser's fuel is enough. *)
Theorem regex_new_returns pattern : regex_new pattern ≠ OutOfFuel.
Proof.
  unfold regex_new. set (chars := code_points _).
  pose proof (proj1 (pattern_leaves (4 * length chars + 8)) 0%nat chars ltac:(lia)) as H.
  destruct (alternation _ _ _) as [[tree rest]| |]; [|done..]. cbn [run_bind].
  destruct rest; [|done]. by destruct (result_bind _ _).
Qed.
