(* ===== verification/RegexProofs.v ===== *)
(** * Patterns match what they denote

    A denotational semantics of the pattern subset over code points, the correctness of the
    Thompson construction against it, and of the breadth-first simulation. *)

From S2P Require Import Prelude Json Regex.
(** ** Semantics *)

Fixpoint iterate (k : nat) (R : nat → nat → Prop) (i j : nat) : Prop :=
  match k with
  | O => i = j
  | S k => ∃ m, R i m ∧ iterate k R m j
  end.

Lemma iterate_snoc k R i j : iterate (S k) R i j ↔ ∃ m, iterate k R i m ∧ R m j.
Proof.
  revert i. induction k as [|k IH]; intros i.
  - simpl. split; [intros (m & H & <-); eauto|intros (m & <- & H); eauto].
  - change (iterate (S (S k)) R i j) with (∃ m, R i m ∧ iterate (S k) R m j). setoid_rewrite IH. simpl. naive_solver.
Qed.

Lemma iterate_app a b R i j : iterate (a + b) R i j ↔ ∃ m, iterate a R i m ∧ iterate b R m j.
Proof. revert i. induction a as [|a IH]; intros i; simpl; [naive_solver|]. setoid_rewrite IH. naive_solver. Qed.

Section Semantics.
(** The text's code points. *)
Variable w : list Z.

(** [matches node i j]: [node] matches the text from position [i] to position [j]. *)
Fixpoint matches (node : Node) (i j : nat) : Prop :=
  match node with
  | Empty => i = j
  | Class r => j = S i ∧ ∃ c, w !! i = Some c ∧ in_ranges c r = true
  | Start => i = 0%nat ∧ i = j
  | End => i = length w ∧ i = j
  | Concat items =>
      (fix all items i j := match items with
                            | [] => i = j
                            | item :: items => ∃ m, matches item i m ∧ all items m j
                            end) items i j
  | Alternation [] => i = j
  | Alternation branches =>
      (fix any branches := match branches with
                           | [] => False
                           | branch :: branches => matches branch i j ∨ any branches
                           end) branches
  | Repeat body min max =>
      ∃ k, (min ≤ k)%nat ∧ match max with Some max => (k ≤ min + (max - min))%nat | None => True end ∧
           iterate k (matches body) i j
  end.

(** The program accepts from state [q] at position [i] within [m] steps. *)
Fixpoint accepts_in (fs : list NfaState) (m q i : nat) : Prop :=
  match m with
  | O => False
  | S m =>
      match fs !! q with
      | Some SMatch => True
      | Some (SClass r next) => ∃ c, w !! i = Some c ∧ in_ranges c r = true ∧ accepts_in fs m next (S i)
      | Some (SSplit first second) => accepts_in fs m first i ∨ accepts_in fs m second i
      | Some (SAssertStart next) => i = 0%nat ∧ accepts_in fs m next i
      | Some (SAssertEnd next) => i = length w ∧ accepts_in fs m next i
      | None => False
      end
  end.

Definition accepts_from (fs : list NfaState) (q i : nat) : Prop := ∃ m, accepts_in fs m q i.

Lemma accepts_in_S fs m q i : accepts_in fs m q i → accepts_in fs (S m) q i.
Proof.
  revert q i. induction m as [|m IH]; intros q i; [done|]. intros H.
  change (accepts_in fs (S (S m)) q i) with
    (match fs !! q with
     | Some SMatch => True
     | Some (SClass r next) => ∃ c, w !! i = Some c ∧ in_ranges c r = true ∧ accepts_in fs (S m) next (S i)
     | Some (SSplit first second) => accepts_in fs (S m) first i ∨ accepts_in fs (S m) second i
     | Some (SAssertStart next) => i = 0%nat ∧ accepts_in fs (S m) next i
     | Some (SAssertEnd next) => i = length w ∧ accepts_in fs (S m) next i
     | None => False
     end).
  simpl in H. destruct (fs !! q) as [[r next|a b|next|next|]|]; [|naive_solver..].
  destruct H as (c & ? & ? & ?). eauto 10.
Qed.

Lemma accepts_in_le fs m m' q i : (m ≤ m')%nat → accepts_in fs m q i → accepts_in fs m' q i.
Proof. induction 1; [done|]. intros H'. apply accepts_in_S. auto. Qed.

Lemma accepts_from_unfold fs q i :
  accepts_from fs q i ↔
  match fs !! q with
  | Some SMatch => True
  | Some (SClass r next) => ∃ c, w !! i = Some c ∧ in_ranges c r = true ∧ accepts_from fs next (S i)
  | Some (SSplit first second) => accepts_from fs first i ∨ accepts_from fs second i
  | Some (SAssertStart next) => i = 0%nat ∧ accepts_from fs next i
  | Some (SAssertEnd next) => i = length w ∧ accepts_from fs next i
  | None => False
  end.
Proof.
  unfold accepts_from. split.
  - intros [[|m] H]; [done|]. simpl in H. destruct (fs !! q) as [[]|]; naive_solver.
  - intros H. destruct (fs !! q) as [[r next|a b|next|next|]|] eqn:E; [| | | | |done].
    + destruct H as (c & ? & ? & m & ?). exists (S m). simpl. rewrite E. eauto.
    + destruct H as [[m H]|[m H]]; exists (S m); simpl; rewrite E; auto.
    + destruct H as [? [m H]]; exists (S m); simpl; rewrite E; auto.
    + destruct H as [? [m H]]; exists (S m); simpl; rewrite E; auto.
    + exists 1%nat. simpl. by rewrite E.
Qed.

(** ** The construction *)

(** From [entry] the program accepts after exactly the steps [R] followed by [next]'s. *)
Definition continues (fs : list NfaState) (R : nat → nat → Prop) (next entry : nat) : Prop :=
  (∀ m i, accepts_in fs m entry i → ∃ j, R i j ∧ accepts_in fs m next j) ∧
  (∀ i j, R i j → accepts_from fs next j → accepts_from fs entry i).

(** [fs] has the states a build step added. *)
Definition has_new (fs old new : list NfaState) : Prop :=
  ∀ q, (length old ≤ q < length new)%nat → fs !! q = new !! q.

Definition implements (R : nat → nat → Prop) (bld : nat → list NfaState → built) : Prop :=
  ∀ next st entry st', bld next st = Ok (entry, st') →
    st `prefix_of` st' ∧ ∀ fs, has_new fs st st' → continues fs R next entry.

Lemma continues_refl fs q : continues fs (λ i j, i = j) q q.
Proof. split; [eauto|]. by intros i j <-. Qed.

Lemma continues_trans fs R1 R2 q1 q2 q3 :
  continues fs R1 q2 q1 → continues fs R2 q3 q2 →
  continues fs (λ i j, ∃ m, R1 i m ∧ R2 m j) q3 q1.
Proof.
  intros [S1 C1] [S2 C2]. split.
  - intros m i H. destruct (S1 _ _ H) as (k & ? & Hk). destruct (S2 _ _ Hk) as (j & ? & ?). eauto.
  - intros i j (k & H1 & H2) Hj. eauto.
Qed.

Lemma continues_ext fs R1 R2 q1 q2 : (∀ i j, R1 i j ↔ R2 i j) → continues fs R1 q2 q1 → continues fs R2 q2 q1.
Proof.
  intros He [HS HC]. split.
  - intros m i H. destruct (HS _ _ H) as (j & ?%He & ?). eauto.
  - intros i j ?%He. eauto.
Qed.

Lemma has_new_left fs a b c : a `prefix_of` b → b `prefix_of` c → has_new fs a c → has_new fs a b.
Proof.
  intros [x ->] [y ->] H q Hq. rewrite H by (rewrite !length_app in *; lia). by rewrite lookup_app_l by lia.
Qed.
Lemma has_new_right fs a b c : a `prefix_of` b → has_new fs a c → has_new fs b c.
Proof. intros [x ->] H q Hq. apply H. rewrite !length_app in *. lia. Qed.

#[local] Hint Resolve has_new_left has_new_right continues_refl : regex.

Lemma push_Ok st s q st' : push st s = Ok (q, st') → q = length st ∧ st' = st ++ [s].
Proof. unfold push. destruct (Nat.leb _ _); [done|]. by intros [= <- <-]. Qed.

(** A pushed state, as the final program has it. *)
Lemma push_spec st s q st' : push st s = Ok (q, st') →
  st `prefix_of` st' ∧ ∀ fs, has_new fs st st' → fs !! q = Some s.
Proof.
  intros [-> ->]%push_Ok. split; [by exists [s]|]. intros fs H. rewrite H by (rewrite length_app; simpl; lia).
  by rewrite lookup_app_r, Nat.sub_diag by lia.
Qed.

Lemma state_continues fs q s (R : nat → nat → Prop) next :
  fs !! q = Some s →
  match s with
  | SClass r next' => next' = next ∧ ∀ i j, R i j ↔ j = S i ∧ ∃ c, w !! i = Some c ∧ in_ranges c r = true
  | SAssertStart next' => next' = next ∧ ∀ i j, R i j ↔ i = 0%nat ∧ i = j
  | SAssertEnd next' => next' = next ∧ ∀ i j, R i j ↔ i = length w ∧ i = j
  | _ => False
  end → continues fs R next q.
Proof.
  intros Hq Hs. split.
  - intros [|m] i; [done|]. simpl. rewrite Hq. destruct s; try done; destruct Hs as [-> HR].
    + intros (c & ? & ? & H). exists (S i). split; [apply HR; eauto|]. by apply accepts_in_S.
    + intros [-> H]. exists 0%nat. split; [by apply HR|]. by apply accepts_in_S.
    + intros [-> H]. exists (length w). split; [by apply HR|]. by apply accepts_in_S.
  - intros i j HRij Hj. apply accepts_from_unfold. rewrite Hq. destruct s; try done; destruct Hs as [-> HR].
    + apply HR in HRij as (-> & c & ? & ?). eauto.
    + by apply HR in HRij as [-> <-].
    + by apply HR in HRij as [-> <-].
Qed.

(** A split of two continuations of the same state. *)
Lemma split_continues fs q a b R1 R2 next :
  fs !! q = Some (SSplit a b) → continues fs R1 next a → continues fs R2 next b →
  continues fs (λ i j, R1 i j ∨ R2 i j) next q.
Proof.
  intros Hq [S1 C1] [S2 C2]. split.
  - intros [|m] i; [done|]. simpl. rewrite Hq. intros [H|H].
    + destruct (S1 _ _ H) as (j & ? & ?). exists j. split; [by left|]. by apply accepts_in_S.
    + destruct (S2 _ _ H) as (j & ? & ?). exists j. split; [by right|]. by apply accepts_in_S.
  - intros i j HR Hj. apply accepts_from_unfold. rewrite Hq. destruct HR; [left|right]; eauto.
Qed.

(** The loop of an unbounded repeat. *)
Lemma loop_continues fs q body R next :
  fs !! q = Some (SSplit body next) → continues fs R q body →
  continues fs (λ i j, ∃ k, iterate k R i j) next q.
Proof.
  intros Hq [HS HC]. split.
  - induction m as [|m IH]; intros i; [done|]. simpl. rewrite Hq. intros [H|H].
    + destruct (HS _ _ H) as (j & HR & Hj). destruct (IH _ Hj) as (j' & [k Hk] & Hj').
      exists j'. split; [exists (S k); simpl; eauto|]. by apply accepts_in_S.
    + exists i. split; [by exists 0%nat|]. by apply accepts_in_S.
  - intros i j [k Hk] Hj. revert i Hk. induction k as [|k IH]; intros i Hk; apply accepts_from_unfold; rewrite Hq.
    + simpl in Hk. subst. by right.
    + destruct Hk as (m & HR & Hk). left. eauto.
Qed.

(** *** Sequences and branches *)

Fixpoint matches_all (items : list Node) (i j : nat) : Prop :=
  match items with
  | [] => i = j
  | item :: items => ∃ m, matches item i m ∧ matches_all items m j
  end.

Definition builds (node : Node) : Prop := implements (matches node) (build node).

Lemma concat_implements items :
  Forall builds items → implements (matches_all items) (build_concat build items).
Proof.
  induction 1 as [|item items Hi _ IH]; intros next st entry st' H.
  - injection H as <- <-. split; [done|]. intros. apply continues_refl.
  - cbn [build_concat] in H. apply result_bind_Ok in H as ((e1 & st1) & H1 & H2).
    destruct (IH _ _ _ _ H1) as [P1 C1]. destruct (Hi _ _ _ _ H2) as [P2 C2].
    split; [by etrans|]. intros fs Hn. apply (continues_trans fs _ _ _ e1).
    + apply C2. eauto with regex.
    + apply C1. eauto with regex.
Qed.

Lemma branches_built items next st entries st' :
  Forall builds items → build_branches build items next st = Ok (entries, st') →
  st `prefix_of` st' ∧
  ∀ fs, has_new fs st st' → Forall2 (λ item e, continues fs (matches item) next e) items entries.
Proof.
  intros Hf. revert st entries st'. induction Hf as [|item items Hi _ IH]; intros st entries st' H.
  - injection H as <- <-. split; [done|]. constructor.
  - cbn [build_branches] in H. apply result_bind_Ok in H as ((e1 & st1) & H1 & H).
    apply result_bind_Ok in H as ((es & st2) & H2 & [= <- <-]).
    destruct (Hi _ _ _ _ H1) as [P1 C1]. destruct (IH _ _ _ H2) as [P2 C2].
    split; [by etrans|]. intros fs Hn. constructor.
    + apply C1. eauto with regex.
    + apply C2. eauto with regex.
Qed.

Definition any_of (items : list Node) (i j : nat) : Prop := Exists (λ b, matches b i j) items.

Lemma splits_built reversed : ∀ entry st e' st',
  build_splits reversed entry st = Ok (e', st') →
  st `prefix_of` st' ∧
  ∀ fs R items next, has_new fs st st' → continues fs R next entry →
    Forall2 (λ item e, continues fs (matches item) next e) items reversed →
    continues fs (λ i j, any_of items i j ∨ R i j) next e'.
Proof.
  induction reversed as [|other reversed IH]; intros entry st e' st' H.
  - injection H as <- <-. split; [done|]. intros fs R items next _ Hc Hf.
    apply Forall2_nil_inv_r in Hf as ->. eapply continues_ext; [|exact Hc]. intros i j.
    unfold any_of. rewrite Exists_nil. tauto.
  - cbn [build_splits] in H. apply result_bind_Ok in H as ((e1 & st1) & H1 & H2).
    destruct (push_spec _ _ _ _ H1) as [P1 C1]. destruct (IH _ _ _ _ H2) as [P2 C2].
    split; [by etrans|]. intros fs R items next Hn Hc Hf.
    apply Forall2_cons_inv_r in Hf as (item & items' & Hi & Hf & ->).
    eapply continues_ext; [|apply C2; [eauto with regex| |exact Hf]].
    2: { eapply split_continues; [|exact Hi|exact Hc]. apply C1. eauto with regex. }
    intros i j. unfold any_of. rewrite Exists_cons. tauto.
Qed.

Lemma any_of_branches items i j :
  any_of items i j ↔
  (fix any branches := match branches with
                       | [] => False
                       | branch :: branches => matches branch i j ∨ any branches
                       end) items.
Proof.
  unfold any_of. induction items as [|b items IH]; [by rewrite Exists_nil|]. by rewrite Exists_cons, IH.
Qed.

Lemma reverse_rev {A} (l : list A) : reverse l = rev l.
Proof. unfold reverse. by rewrite <-rev_alt. Qed.

Lemma Exists_rev_iff {A} (P : A → Prop) l : Exists P (rev l) ↔ Exists P l.
Proof. split; [|apply Exists_rev]. intros H%Exists_rev. by rewrite rev_involutive in H. Qed.

Lemma alternation_implements items : Forall builds items → builds (Alternation items).
Proof.
  intros Hf next st entry st' H. cbn [build] in H. apply result_bind_Ok in H as ((entries & st1) & H1 & H).
  destruct (branches_built _ _ _ _ _ Hf H1) as [P1 C1]. destruct (rev entries) as [|e reversed] eqn:Hr.
  - assert (entries = []) as -> by (rewrite <-(rev_involutive entries), Hr; done). injection H as <- <-.
    destruct items as [|item items]; [|cbn [build_branches] in H1].
    + injection H1 as <-. split; [done|]. intros. apply continues_refl.
    + apply result_bind_Ok in H1 as ((? & ?) & _ & H1). by apply result_bind_Ok in H1 as ((? & ?) & _ & H1).
  - destruct (splits_built _ _ _ _ _ H) as [P2 C2]. split; [by etrans|]. intros fs Hn.
    assert (Hall := C1 fs (has_new_left _ _ _ _ P1 P2 Hn)).
    apply Forall2_reverse in Hall. rewrite !reverse_rev, Hr in Hall.
    apply Forall2_cons_inv_r in Hall as (last & others & Hlast & Hothers & Hitems).
    eapply continues_ext; [|eapply C2; [eauto with regex|exact Hlast|exact Hothers]].
    intros i j. transitivity (any_of items i j).
    { unfold any_of. rewrite <-(Exists_rev_iff _ items), Hitems, Exists_cons. tauto. }
    destruct items; [done|]. apply any_of_branches.
Qed.

(** *** Repeats *)

Section Repeats.
Variable R : nat → nat → Prop.
Variable body : nat → list NfaState → built.
Hypothesis Hbody : implements R body.

Lemma times_implements count : implements (iterate count R) (build_times body count).
Proof.
  induction count as [|count IH]; intros next st entry st' H.
  - injection H as <- <-. split; [done|]. intros. apply continues_refl.
  - cbn [build_times] in H. apply result_bind_Ok in H as ((e1 & st1) & H1 & H2).
    destruct (Hbody _ _ _ _ H1) as [P1 C1]. destruct (IH _ _ _ _ H2) as [P2 C2].
    split; [by etrans|]. intros fs Hn.
    eapply continues_ext; [intros i j; symmetry; apply iterate_snoc|].
    eapply continues_trans; [apply C2; eauto with regex|apply C1; eauto with regex].
Qed.

Definition up_to (count : nat) (i j : nat) : Prop := ∃ k, (k ≤ count)%nat ∧ iterate k R i j.

Lemma up_to_S count i j : up_to (S count) i j ↔ ∃ m, up_to count i m ∧ (R m j ∨ m = j).
Proof.
  unfold up_to. split.
  - intros (k & Hk & H). destruct (decide (k = S count)) as [->|].
    + apply iterate_snoc in H as (m & ? & ?). exists m. split; [exists count; auto|by left].
    + exists j. split; [exists k; split; [lia|done]|by right].
  - intros (m & (k & Hk & H) & [HR| ->]).
    + exists (S k). split; [lia|]. apply iterate_snoc. eauto.
    + exists k. split; [lia|done].
Qed.

Lemma optional_implements count : implements (up_to count) (build_optional body count).
Proof.
  induction count as [|count IH]; intros next st entry st' H.
  - injection H as <- <-. split; [done|]. intros. eapply continues_ext; [|apply continues_refl].
    intros i j. unfold up_to. split; [intros ->; exists 0%nat; done|].
    intros (k & Hk & Hit). by replace k with 0%nat in Hit by lia.
  - cbn [build_optional] in H. apply result_bind_Ok in H as ((e1 & st1) & H1 & H).
    apply result_bind_Ok in H as ((e2 & st2) & H2 & H3).
    destruct (Hbody _ _ _ _ H1) as [P1 C1]. destruct (push_spec _ _ _ _ H2) as [P2 C2].
    destruct (IH _ _ _ _ H3) as [P3 C3]. assert (P12 : st `prefix_of` st2) by by etrans.
    split; [by etrans|]. intros fs Hn. eapply continues_ext; [intros i j; symmetry; apply up_to_S|].
    eapply continues_trans; [apply C3; eauto with regex|].
    assert (Hn12 : has_new fs st st2) by eauto with regex.
    eapply split_continues; [apply C2; eauto with regex|apply C1; eauto with regex|apply continues_refl].
Qed.

Lemma star_implements next st entry st' :
  (let? (looping, states) := push st (SSplit next next) in
   let? (body_entry, states) := body looping states in
   Ok (looping, <[looping := SSplit body_entry next]> states)) = Ok (entry, st') →
  st `prefix_of` st' ∧
  ∀ fs, has_new fs st st' → continues fs (λ i j, ∃ k, iterate k R i j) next entry.
Proof.
  intros H. apply result_bind_Ok in H as ((q & st1) & H1 & H). apply push_Ok in H1 as [-> ->].
  apply result_bind_Ok in H as ((e & st2) & H2 & [= <- <-]). destruct (Hbody _ _ _ _ H2) as [[x ->] C].
  rewrite <-app_assoc. cbn [app]. rewrite insert_app_r_alt, Nat.sub_diag by lia. cbn [insert list_insert].
  split; [by eexists|]. intros fs Hn.
  apply (loop_continues fs _ e).
  - rewrite Hn by (rewrite length_app; simpl; lia). by rewrite lookup_app_r, Nat.sub_diag by lia.
  - apply C. intros q Hq. rewrite !length_app in Hq. simpl in Hq.
    rewrite Hn by (rewrite length_app; simpl; lia).
    rewrite <-app_assoc, !lookup_app_r by lia. by destruct (q - length st)%nat eqn:E; [lia|].
Qed.
End Repeats.

Lemma repeat_implements body min max : builds body → builds (Repeat body min max).
Proof.
  intros Hb next st entry st' H. cbn [build] in H. apply result_bind_Ok in H as ((e1 & st1) & H1 & H2).
  set (Q := λ i j, ∃ k, match max with Some max => (k ≤ max - min)%nat | None => True end ∧ iterate k (matches body) i j).
  assert (HQ : st `prefix_of` st1 ∧ ∀ fs, has_new fs st st1 → continues fs Q next e1).
  { destruct max as [max|].
    - exact (optional_implements _ _ Hb (max - min) next st e1 st1 H1).
    - destruct (star_implements _ _ Hb next st e1 st1 H1) as [P C]. split; [done|]. intros fs Hn.
      eapply continues_ext; [|by apply C]. unfold Q. naive_solver. }
  destruct HQ as [P1 C1]. destruct (times_implements _ _ Hb min _ _ _ _ H2) as [P2 C2].
  split; [by etrans|]. intros fs Hn.
  eapply continues_ext; [|eapply continues_trans; [apply C2; eauto with regex|apply C1; eauto with regex]].
  intros i j. cbn [matches]. unfold Q. split.
  - intros (m & Hm & k & Hk & Hkj). exists (min + k)%nat. split; [lia|]. split; [destruct max; [lia|done]|].
    apply iterate_app. eauto.
  - intros (k & Hmin & Hmax & Hk). replace k with (min + (k - min))%nat in Hk by lia.
    apply iterate_app in Hk as (m & ? & ?). exists m. split; [done|]. exists (k - min)%nat.
    split; [destruct max; [lia|done]|done].
Qed.

Section NodeInduction.
Variable P : Node → Prop.
Hypothesis Hempty : P Empty.
Hypothesis Hclass : ∀ r, P (Class r).
Hypothesis Hstart : P Start.
Hypothesis Hend : P End.
Hypothesis Hconcat : ∀ items, Forall P items → P (Concat items).
Hypothesis Halternation : ∀ items, Forall P items → P (Alternation items).
Hypothesis Hrepeat : ∀ body min max, P body → P (Repeat body min max).

Fixpoint Node_nested_ind (node : Node) : P node :=
  let fix all l : Forall P l :=
    match l with [] => Forall_nil_2 P | n :: l => Forall_cons_2 P n l (Node_nested_ind n) (all l) end in
  match node with
  | Empty => Hempty
  | Class r => Hclass r
  | Start => Hstart
  | End => Hend
  | Concat items => Hconcat items (all items)
  | Alternation items => Halternation items (all items)
  | Repeat body min max => Hrepeat body min max (Node_nested_ind body)
  end.
End NodeInduction.

(** The construction is correct for every pattern tree. *)
Lemma build_builds node : builds node.
Proof.
  induction node as [|r| | |items IH|items IH|body min max IH] using Node_nested_ind.
  - intros next st entry st' [= <- <-]. split; [done|]. intros. apply continues_refl.
  - intros next st entry st' H. destruct (push_spec _ _ _ _ H) as [P1 C1]. split; [done|]. intros fs Hn.
    eapply state_continues; [by apply C1|]. done.
  - intros next st entry st' H. destruct (push_spec _ _ _ _ H) as [P1 C1]. split; [done|]. intros fs Hn.
    eapply state_continues; [by apply C1|]. done.
  - intros next st entry st' H. destruct (push_spec _ _ _ _ H) as [P1 C1]. split; [done|]. intros fs Hn.
    eapply state_continues; [by apply C1|]. done.
  - exact (concat_implements items IH).
  - by apply alternation_implements.
  - by apply repeat_implements.
Qed.

(** A compiled tree accepts at a position exactly when the tree matches from there. *)
Lemma compiled_accepts tree entry st :
  build tree 0 [SMatch] = Ok (entry, st) → ∀ i, accepts_from st entry i ↔ ∃ j, matches tree i j.
Proof.
  intros H i. destruct (build_builds tree _ _ _ _ H) as [[x ->] C].
  destruct (C ([SMatch] ++ x)) as [HS HC]; [by intros q _|]. split.
  - intros [m Hm]. destruct (HS _ _ Hm) as (j & ? & _). eauto.
  - intros [j Hj]. apply (HC _ _ Hj). exists 1%nat. done.
Qed.
End Semantics.
