(* ===== verification/RegexMatch.v ===== *)
(** * The simulation searches

    The set simulation of [is_match] against the program's acceptance, and the search theorem. *)

From S2P Require Import Prelude Json Regex RegexProofs.
Section Simulation.
Variable w : list Z.
Variable re : Regex.
Abbreviation fs := (states re).
Abbreviation size := (length (states re)).

(** The states [add] pushes after [q], read at position [pos]. *)
Definition silent (pos q : nat) : list nat :=
  match fs !! q with
  | Some (SSplit first second) => [first; second]
  | Some (SAssertStart next) => if Nat.eqb pos 0 then [next] else []
  | Some (SAssertEnd next) => if Nat.eqb pos (length w) then [next] else []
  | _ => []
  end.

(** The marked states: no repetition, all in the program. *)
Definition marked (set : list nat) : Prop := NoDup set ∧ Forall (λ q, (q < size)%nat) set.

Lemma marked_length set : marked set → (length set ≤ size)%nat.
Proof.
  intros [Hn Hs]. cut (length set ≤ length (seq 0 size))%nat; [by rewrite length_seq|].
  apply submseteq_length, NoDup_submseteq; [done|].
  intros q Hq. rewrite Forall_forall in Hs. apply Hs in Hq. rewrite elem_of_seq. lia.
Qed.

Lemma set_insert_spec q set :
  match set_insert size q set with
  | Some set' => set' = set ++ [q] ∧ (q < size)%nat ∧ q ∉ set
  | None => (size ≤ q)%nat ∨ q ∈ set
  end.
Proof.
  unfold set_insert. destruct (Nat.ltb_spec q size); simpl; [|by left].
  case_bool_decide; simpl; [by right|done].
Qed.

Lemma marked_snoc set q : marked set → (q < size)%nat → q ∉ set → marked (set ++ [q]).
Proof.
  intros [Hn Hs] Hq Hni. split.
  - apply NoDup_app. split; [done|]. split; [|apply NoDup_singleton]. intros x Hx ->%list_elem_of_singleton. done.
  - by apply Forall_app_2; [|repeat constructor].
Qed.

(** A silent step is an acceptance step. *)
Lemma silent_accepts pos q q' : q' ∈ silent pos q → accepts_from w fs q' pos → accepts_from w fs q pos.
Proof.
  unfold silent. intros Hq' H. apply accepts_from_unfold. destruct (fs !! q) as [[r next|a b|next|next|]|].
  - by apply elem_of_nil in Hq'.
  - apply elem_of_cons in Hq' as [-> |Hq'%list_elem_of_singleton]; subst; auto.
  - destruct (Nat.eqb_spec pos 0) as [->|]; [apply list_elem_of_singleton in Hq' as ->; auto|by apply elem_of_nil in Hq'].
  - destruct (Nat.eqb_spec pos (length w)) as [->|];
      [apply list_elem_of_singleton in Hq' as ->; auto|by apply elem_of_nil in Hq'].
  - done.
  - by apply elem_of_nil in Hq'.
Qed.

(** What [add] returns: the marked states, the pending ones, and only states they reach. *)
Record added (pos : nat) (set pending set' : list nat) : Prop := {
  added_marked : marked set';
  added_old q : q ∈ set → q ∈ set';
  added_pending q : q ∈ pending → (q < size)%nat → q ∈ set';
  added_only q : q ∈ set' → q ∈ set ∨ ∃ p, p ∈ pending ∧ (accepts_from w fs q pos → accepts_from w fs p pos);
  added_closed :
    (∀ q q', q ∈ set → q' ∈ silent pos q → (q' < size)%nat → q' ∈ set ∨ q' ∈ pending) →
    ∀ q q', q ∈ set' → q' ∈ silent pos q → (q' < size)%nat → q' ∈ set';
}.

Lemma add_loop_spec fuel set pending pos :
  marked set → (length pending + 2 * (size - length set) ≤ fuel)%nat →
  ∃ set', add_loop fuel re set pending pos (length w) = Some set' ∧ added pos set pending set'.
Proof.
  revert set pending. induction fuel as [|fuel IH]; intros set [|q pending] Hm Hf; simpl in Hf; try lia.
  1, 2: exists set; split; [done|]; split; try done; [intros q Hq; by apply elem_of_nil in Hq|by left|];
    intros Hc q q' Hq Hq' Hs; destruct (Hc q q' Hq Hq' Hs) as [|Hn]; [done|by apply elem_of_nil in Hn].
  cbn [add_loop]. pose proof (set_insert_spec q set) as Hi. destruct (set_insert _ q set) as [set1|].
  - destruct Hi as (-> & Hq & Hni). change (match fs !! q with Some (SSplit a b) => _ | _ => _ end) with (silent pos q).
    assert (Hl : (length (silent pos q) ≤ 2)%nat)
      by (unfold silent; repeat case_match; simpl; lia).
    pose proof (marked_snoc _ _ Hm Hq Hni) as Hm1. pose proof (marked_length _ Hm1) as Hlen.
    rewrite length_app in Hlen. simpl in Hlen.
    destruct (IH (set ++ [q]) (silent pos q ++ pending) Hm1) as (set' & Hr & [A1 A2 A3 A4 A5]).
    { rewrite !length_app. simpl. lia. }
    exists set'. split; [exact Hr|]. split; [done|..].
    + intros x Hx. apply A2, elem_of_app. by left.
    + intros x [->|Hx]%elem_of_cons Hsz; [apply A2, elem_of_app; right; by apply list_elem_of_singleton|].
      apply A3; [|done]. apply elem_of_app. by right.
    + intros x Hx. destruct (A4 x Hx) as [[?| ->%list_elem_of_singleton]%elem_of_app|(p & Hp & Hacc)]; [by left|..].
      * right. exists q. split; [by left|done].
      * apply elem_of_app in Hp as [Hp|Hp].
        -- right. exists q. split; [by left|]. intros H. eapply silent_accepts; [exact Hp|auto].
        -- right. exists p. split; [by right|done].
    + intros Hc. apply A5. intros x x' [Hx| ->%list_elem_of_singleton]%elem_of_app Hx' Hsz.
      * destruct (Hc x x' Hx Hx' Hsz) as [?|[->|?]%elem_of_cons].
        -- left. apply elem_of_app. by left.
        -- left. apply elem_of_app. right. by apply list_elem_of_singleton.
        -- right. apply elem_of_app. by right.
      * right. apply elem_of_app. by left.
  - destruct (IH set pending Hm) as (set' & Hr & [A1 A2 A3 A4 A5]); [lia|]. exists set'. split; [exact Hr|]. split; try done.
    + intros x [->|Hx]%elem_of_cons Hsz; [|by apply A3]. destruct Hi as [|Hi]; [lia|by apply A2].
    + intros x Hx. destruct (A4 x Hx) as [|(p & Hp & ?)]; [by left|]. right. exists p. split; [by right|done].
    + intros Hc. apply A5. intros x x' Hx Hx' Hsz. destruct (Hc x x' Hx Hx' Hsz) as [?|[->|?]%elem_of_cons]; [by left| |by right].
      left. destruct Hi as [|Hi]; [lia|done].
Qed.

Lemma add_added set q pos : marked set → added pos set [q] (add re set q pos (length w)).
Proof.
  intros Hm. unfold add. destruct (add_loop_spec (add_fuel re) set [q] pos Hm) as (set' & -> & H); [|done].
  unfold add_fuel. simpl. lia.
Qed.

(** Marked and closed under silent steps at [pos]. *)
Definition closed (pos : nat) (set : list nat) : Prop :=
  marked set ∧ ∀ q q', q ∈ set → q' ∈ silent pos q → (q' < size)%nat → q' ∈ set.

(** Some marked state accepts from [pos]. *)
Definition some_accepts (pos : nat) (set : list nat) : Prop := ∃ q, q ∈ set ∧ accepts_from w fs q pos.

Lemma accepts_from_size q pos : accepts_from w fs q pos → (q < size)%nat.
Proof.
  intros H%accepts_from_unfold. destruct (fs !! q) eqn:E; [|done]. by apply lookup_lt_Some in E.
Qed.

Lemma add_closed set q pos :
  closed pos set →
  closed pos (add re set q pos (length w)) ∧
  (some_accepts pos (add re set q pos (length w)) ↔ some_accepts pos set ∨ accepts_from w fs q pos).
Proof.
  intros [Hm Hc]. destruct (add_added set q pos Hm) as [A1 A2 A3 A4 A5]. split.
  - split; [done|]. apply A5. intros x x' Hx Hx' Hsz. left. by eapply Hc.
  - split.
    + intros (x & Hx & Hacc). destruct (A4 x Hx) as [?|(p & ->%list_elem_of_singleton & Hp)].
      * left. by exists x.
      * right. by apply Hp.
    + intros [(x & Hx & Hacc)|Hacc].
      * exists x. auto.
      * exists q. split; [|done]. apply A3; [by apply list_elem_of_singleton|]. by eapply accepts_from_size.
Qed.

(** A class state of the set that reads [c]. *)
Definition reads (c : Z) (q : nat) (next : nat) : Prop :=
  ∃ r, fs !! q = Some (SClass r next) ∧ in_ranges c r = true.

Lemma advance_closed c pos set :
  closed (S pos) (advance re c pos (length w) set) ∧
  (some_accepts (S pos) (advance re c pos (length w) set) ↔
   ∃ q next, q ∈ set ∧ reads c q next ∧ accepts_from w fs next (S pos)).
Proof.
  unfold advance.
  assert (H : ∀ l acc, closed (S pos) acc →
    let r := fold_left (λ following index,
               match fs !! index with
               | Some (SClass r next) => if in_ranges c r then add re following next (S pos) (length w) else following
               | _ => following
               end) l acc in
    closed (S pos) r ∧
    (some_accepts (S pos) r ↔
     some_accepts (S pos) acc ∨ ∃ q next, q ∈ l ∧ reads c q next ∧ accepts_from w fs next (S pos))).
  { induction l as [|q l IH]; intros acc Hacc; cbn zeta; simpl.
    - split; [done|]. split; [by left|]. intros [?|(q & next & Hq & _)]; [done|by apply elem_of_nil in Hq].
    - set (acc1 := match fs !! q with Some (SClass _ _) => _ | _ => _ end).
      assert (H1 : closed (S pos) acc1 ∧
        (some_accepts (S pos) acc1 ↔
         some_accepts (S pos) acc ∨ ∃ next, reads c q next ∧ accepts_from w fs next (S pos))).
      { assert (Hno : (∀ next, ¬ reads c q next) → acc1 = acc → closed (S pos) acc1 ∧
          (some_accepts (S pos) acc1 ↔
           some_accepts (S pos) acc ∨ ∃ next, reads c q next ∧ accepts_from w fs next (S pos))).
        { intros Hn ->. split; [done|]. split; [by left|]. intros [?|(next & Hr & _)]; [done|by destruct (Hn next)]. }
        unfold acc1 in *. unfold reads in *. destruct (fs !! q) as [[r next| | | |]|];
          try (apply Hno; [by intros ? (? & ? & _)|done]).
        destruct (in_ranges c r) eqn:E; [|apply Hno; [intros ? (? & [= <- <-] & ?); congruence|done]].
        destruct (add_closed acc next (S pos) Hacc) as [Hc Ha]. split; [done|]. rewrite Ha. clear Hno.
        split; (intros [?|H]; [by left|right]); [by eauto|]. by destruct H as (n & (r' & [= <- <-] & _) & ?). }
      destruct H1 as [Hc1 Ha1]. destruct (IH acc1 Hc1) as [Hc2 Ha2]. split; [done|]. rewrite Ha2, Ha1.
      split.
      + intros [[?|(next & ? & ?)]|(x & next & ? & ? & ?)]; [by left|right; exists q, next; split; [by left|done]|].
        right. exists x, next. split; [by right|done].
      + intros [?|(x & next & [->|Hx]%elem_of_cons & ? & ?)]; [by left; left|left; right; eauto|right; eauto]. }
  assert (Hempty : closed (S pos) []).
  { split; [split; constructor|]. intros q q' Hq. by apply elem_of_nil in Hq. }
  destruct (H set [] Hempty) as [Hc Ha]. split; [done|]. rewrite Ha. split; [|by right].
  intros [(q & Hq & _)|?]; [by apply elem_of_nil in Hq|done].
Qed.

Lemma accepts_spec set : accepts re set = true ↔ ∃ q, q ∈ set ∧ fs !! q = Some SMatch.
Proof.
  unfold accepts. rewrite existsb_exists. setoid_rewrite <-list_elem_of_In.
  split; intros (q & Hq & H); exists q; (split; [done|]); destruct (fs !! q) as [[]|]; done.
Qed.

(** Acceptance from a closed set without a match state reads a character. *)
Lemma closed_reads pos set :
  closed pos set → accepts re set = false →
  some_accepts pos set ↔ ∃ c, w !! pos = Some c ∧ ∃ q next, q ∈ set ∧ reads c q next ∧ accepts_from w fs next (S pos).
Proof.
  intros [Hm Hc] Hno. split.
  - intros (q & Hq & m & Hacc). revert q Hq Hacc. induction m as [|m IH]; intros q Hq Hacc; [done|].
    assert (Hnext : ∀ q', q' ∈ silent pos q → accepts_in w fs m q' pos → q' ∈ set).
    { intros q' Hq' Ha. apply (Hc q q' Hq Hq'). eapply accepts_from_size. by exists m. }
    simpl in Hacc. unfold silent in Hnext. destruct (fs !! q) as [[r next|a b|next|next|]|] eqn:E.
    + destruct Hacc as (c & Hw & Hr & Ha). exists c. split; [done|]. exists q, next. split; [done|].
      split; [by exists r|by exists m].
    + destruct Hacc as [Ha|Ha]; (eapply IH; [|exact Ha]); apply Hnext; try done; [by left|by right; left].
    + destruct Hacc as [-> Ha]. eapply IH; [|exact Ha]. apply Hnext; [by left|done].
    + destruct Hacc as [-> Ha]. eapply IH; [|exact Ha]. apply Hnext; [|done]. rewrite Nat.eqb_refl. by left.
    + assert (accepts re set = true) by (apply accepts_spec; eauto). congruence.
    + done.
  - intros (c & Hw & q & next & Hq & (r & E & Hr) & Ha). exists q. split; [done|].
    apply accepts_from_unfold. rewrite E. eauto.
Qed.

Lemma match_loop_spec input pos set :
  input = drop pos w → (pos ≤ length w)%nat → closed pos set →
  match_loop re (length w) pos set input = true ↔
  some_accepts pos set ∨ ∃ i, (pos ≤ i ≤ length w)%nat ∧ accepts_from w fs (start re) i.
Proof.
  revert pos set. induction input as [|c input IH]; intros pos set Hin Hpos Hc; cbn [match_loop].
  all: destruct (add_closed set (start re) pos Hc) as [Hc1 Ha1]; set (set1 := add re set (start re) pos _) in *.
  all: destruct (accepts re set1) eqn:Hacc;
    [split; [intros _|done]; apply accepts_spec in Hacc as (q & Hq & E);
     assert (Hs : some_accepts pos set1) by (exists q; split; [done|]; apply accepts_from_unfold; by rewrite E);
     apply Ha1 in Hs as [?|?]; [by left|right; exists pos; split; [lia|done]]|].
  - assert (Hl : pos = length w).
    { apply (f_equal length) in Hin. rewrite length_drop in Hin. simpl in Hin. lia. }
    split; [done|]. intros H. exfalso.
    assert (Hs : some_accepts pos set1).
    { apply Ha1. destruct H as [?|(i & Hi & ?)]; [by left|right]. by replace pos with i by lia. }
    apply (closed_reads _ _ Hc1 Hacc) in Hs as (c & Hw & _). apply lookup_lt_Some in Hw. lia.
  - assert (Hw : w !! pos = Some c) by (rewrite <-(Nat.add_0_r pos), <-lookup_drop, <-Hin; done).
    pose proof (lookup_lt_Some _ _ _ Hw) as Hlt.
    destruct (advance_closed c pos set1) as [Hc2 Ha2].
    rewrite IH; [|by rewrite <-Nat.add_1_r, <-drop_drop, <-Hin|lia|done]. rewrite Ha2.
    assert (Hr : some_accepts pos set1 ↔ ∃ q next, q ∈ set1 ∧ reads c q next ∧ accepts_from w fs next (S pos)).
    { rewrite (closed_reads _ _ Hc1 Hacc). split; [|eauto]. intros (c' & Hc' & ?). by rewrite Hw in Hc'; injection Hc' as <-. }
    rewrite <-Hr, Ha1. split.
    + intros [[?|?]|(i & ? & ?)]; [by left|right; exists pos; split; [lia|done]|right; exists i; split; [lia|done]].
    + intros [?|(i & Hi & ?)]; [by left; left|]. destruct (decide (i = pos)) as [->|]; [by left; right|].
      right. exists i. split; [lia|done].
Qed.
End Simulation.

(** A compiled pattern searches its text: it accepts exactly the texts some part of whose code
    points the pattern's tree matches, anchors at the ends of the whole text, as Python's
    [re.search]. *)
Theorem is_match_searches pattern re :
  regex_new pattern = Done re →
  ∃ tree, alternation (4 * length (code_points (jstr pattern)) + 8) 0 (code_points (jstr pattern)) = Done (tree, []) ∧
    ∀ text, is_match re text = true ↔
      ∃ i j, (i ≤ length (code_points text))%nat ∧ matches (code_points text) tree i j.
Proof.
  unfold regex_new. set (chars := code_points (jstr pattern)). intros H.
  destruct (alternation _ _ _) as [[tree rest]| |]; [|done..]. cbn [run_bind] in H. destruct rest; [|done].
  exists tree. split; [done|]. intros text.
  destruct (push [] SMatch) as [[accept sts]|] eqn:Hp; [|done]. cbn [result_bind] in H.
  apply push_Ok in Hp as [-> ->]. cbn [length app] in H.
  destruct (build tree 0 [SMatch]) as [[start0 sts]|] eqn:Hb; [|done]. injection H as <-.
  unfold is_match. rewrite (match_loop_spec (code_points text)); [|done|lia|].
  - cbn [Regex.start states]. setoid_rewrite (compiled_accepts _ _ _ _ Hb). split.
    + intros [(q & Hq & _)|(i & Hi & j & ?)]; [by apply elem_of_nil in Hq|]. exists i, j. split; [lia|done].
    + intros (i & j & ? & ?). right. exists i. split; [lia|eauto].
  - split; [split; constructor|]. intros q q' Hq. by apply elem_of_nil in Hq.
Qed.

Lemma is_match_searches_witness :
  ∃ re tree, regex_new "b+$" = Done re ∧
    (is_match re (jstr "aab") = true ↔
     ∃ i j, (i ≤ length (code_points (jstr "aab")))%nat ∧ matches (code_points (jstr "aab")) tree i j).
Proof.
  destruct (regex_new "b+$") as [re| |] eqn:H; [|discriminate H..].
  destruct (is_match_searches "b+$" re H) as (tree & _ & Hm). exists re, tree. split; [reflexivity|]. apply Hm.
Defined.
