(* ===== verification/Schema.v ===== *)
(** * The JSON Schema subset ([host-enforcement/crates/i05-protocol/src/schema.rs])

    The loader (a schema document to keyword records) and the validator with its evaluation
    budget of 512 nested evaluations: the fuel of [valid] is that budget exactly. *)

From S2P Require Import Prelude Float Json Regex.
Definition MAX_EVALUATION_DEPTH : nat := 512.
Definition MAX_SCHEMA_DEPTH : nat := 128.

Abbreviation SchemaError := string (only parsing).

Inductive JsonType := TNull | TBoolean | TInteger | TNumber | TString | TArray | TObject.

Inductive Additional (N : Type) := Allowed (flag : bool) | AdditionalSchema (schema : N).
Arguments Allowed {N} flag.
Arguments AdditionalSchema {N} schema.

(** The keywords of one schema object; [N] is the type of subschemas. *)
Record Keywords (N : Type) := mkKeywords {
  k_types : option (list JsonType);
  k_properties : list (JStr * N);
  k_required : list JStr;
  k_additional : option (Additional N);
  k_constant : option Value;
  k_enumeration : option (list Value);
  k_minimum : option Value;
  k_maximum : option Value;
  k_min_length : option Z;
  k_max_length : option Z;
  k_pattern : option Regex;
  k_one_of : option (list N);
  k_any_of : option (list N);
  k_all_of : option (list N);
  k_not : option N;
  k_if : option N;
  k_then : option N;
  k_items : option N;
  k_min_items : option Z;
  k_max_items : option Z;
  k_unique_items : bool;
  k_max_properties : option Z;
  k_property_names : option N;
  k_reference : option nat;
}.
Arguments mkKeywords {N}.
Arguments k_types {N}. Arguments k_properties {N}. Arguments k_required {N}.
Arguments k_additional {N}. Arguments k_constant {N}. Arguments k_enumeration {N}.
Arguments k_minimum {N}. Arguments k_maximum {N}. Arguments k_min_length {N}.
Arguments k_max_length {N}. Arguments k_pattern {N}. Arguments k_one_of {N}.
Arguments k_any_of {N}. Arguments k_all_of {N}. Arguments k_not {N}. Arguments k_if {N}.
Arguments k_then {N}. Arguments k_items {N}. Arguments k_min_items {N}.
Arguments k_max_items {N}. Arguments k_unique_items {N}. Arguments k_max_properties {N}.
Arguments k_property_names {N}. Arguments k_reference {N}.

Inductive SNode :=
| NBool (flag : bool)
| NKeywords (k : Keywords SNode).

Record Schema := mkSchema { s_root : SNode; s_definitions : list SNode }.

Definition keywords_default : Keywords SNode :=
  mkKeywords None [] [] None None None None None None None None None None None None None None
    None None None false None None None.

(** ** Loading *)

Definition load_count (value : Value) (keyword : string) : result Z SchemaError :=
  result_of_option (let* i := as_int value in to_u64 i) (keyword +:+ " is not a count").

Definition load_literal (value : Value) : result Value SchemaError :=
  if Nat.ltb MAX_SCHEMA_DEPTH (depth value) then Err "a const or enum value is nested too deep" else Ok value.

Definition load_number (value : Value) (keyword : string) : result Value SchemaError :=
  match value with
  | VInt _ | VFloat _ => Ok value
  | _ => Err (keyword +:+ " is not a number")
  end.

Definition type_name (value : Value) : result JsonType SchemaError :=
  match as_str value with
  | Some "null" => Ok TNull
  | Some "boolean" => Ok TBoolean
  | Some "integer" => Ok TInteger
  | Some "number" => Ok TNumber
  | Some "string" => Ok TString
  | Some "array" => Ok TArray
  | Some "object" => Ok TObject
  | _ => Err "unknown type"
  end.

Definition load_text (value : Value) (message : string) : result string SchemaError :=
  result_of_option (as_str value) message.

Definition load_pattern (value : Value) : result Regex SchemaError :=
  let? pattern := load_text value "pattern is not text" in
  match regex_new pattern with
  | Done re => Ok re
  | Fail e => Err e
  | OutOfFuel => Err "pattern too large"
  end.

Definition strip_prefix (prefix text : list Z) : option (list Z) :=
  if starts_with prefix text then Some (drop (length prefix) text) else None.

Fixpoint position {A} (f : A → bool) (l : list A) : option nat :=
  match l with
  | [] => None
  | x :: l => if f x then Some O else S <$> position f l
  end.

Definition load_ref (names : list string) (value : Value) : result nat SchemaError :=
  result_of_option
    (let* text := as_str value in
     let* target := strip_prefix (bytes_of "#/$defs/") (bytes_of text) in
     position (λ known, bool_decide (bytes_of known = target)) names)
    "$ref is not a local #/$defs/ reference".

Definition load_required (items : list Value) : result (list JStr) SchemaError :=
  result_mapM (λ item, match item with VStr text => Ok text | _ => Err "required names are text" end) items.

Section Load.
Variable names : list string.
(** [self.node(value, false, depth)] for a subschema. *)
Variable node : Value → result SNode SchemaError.

Definition load_list (value : Value) (keyword : string) : result (list SNode) SchemaError :=
  match value with
  | VArray (v :: items) => result_mapM node (v :: items)
  | _ => Err (keyword +:+ " is not a non-empty array")
  end.

Definition load_properties (o : Object) : result (list (JStr * SNode)) SchemaError :=
  result_mapM (λ e : JStr * Value, let? n := node e.2 in Ok (e.1, n)) o.

(** One keyword of a schema object, added to the record. *)
Definition load_keyword (root : bool) (k : Keywords SNode) (name : string) (member : Value)
    : result (Keywords SNode) SchemaError :=
  let 'mkKeywords types properties required additional constant enumeration minimum maximum
         min_length max_length pattern one_of any_of all_of not if_ then_ items min_items max_items
         unique_items max_properties property_names reference := k in
  if root && String.eqb name "$schema" then
    if bool_decide (as_str member = Some "https://json-schema.org/draft/2020-12/schema") then Ok k
    else Err "$schema is not Draft 2020-12"
  else if root && String.eqb name "$id" then
    let? _ := load_text member "$id is not text" in Ok k
  else if root && String.eqb name "$defs" then
    match as_object member with Some _ => Ok k | None => Err "$defs is not an object" end
  else if String.eqb name "title" then
    let? _ := load_text member "title is not text" in Ok k
  else if String.eqb name "type" then
    let? t := match member with
              | VArray l => result_mapM type_name l
              | other => let? t := type_name other in Ok [t]
              end in
    Ok (mkKeywords (Some t) properties required additional constant enumeration minimum maximum
          min_length max_length pattern one_of any_of all_of not if_ then_ items min_items max_items
          unique_items max_properties property_names reference)
  else if String.eqb name "properties" then
    match as_object member with
    | None => Err "properties is not an object"
    | Some o =>
        let? p := load_properties o in
        Ok (mkKeywords types (properties ++ p) required additional constant enumeration minimum maximum
              min_length max_length pattern one_of any_of all_of not if_ then_ items min_items max_items
              unique_items max_properties property_names reference)
    end
  else if String.eqb name "required" then
    match as_array member with
    | None => Err "required is not an array"
    | Some l =>
        let? r := load_required l in
        Ok (mkKeywords types properties (required ++ r) additional constant enumeration minimum maximum
              min_length max_length pattern one_of any_of all_of not if_ then_ items min_items max_items
              unique_items max_properties property_names reference)
    end
  else if String.eqb name "additionalProperties" then
    let? a := match member with
              | VBool flag => Ok (Allowed flag)
              | other => let? n := node other in Ok (AdditionalSchema n)
              end in
    Ok (mkKeywords types properties required (Some a) constant enumeration minimum maximum
          min_length max_length pattern one_of any_of all_of not if_ then_ items min_items max_items
          unique_items max_properties property_names reference)
  else if String.eqb name "const" then
    let? c := load_literal member in
    Ok (mkKeywords types properties required additional (Some c) enumeration minimum maximum
          min_length max_length pattern one_of any_of all_of not if_ then_ items min_items max_items
          unique_items max_properties property_names reference)
  else if String.eqb name "enum" then
    match as_array member with
    | None => Err "enum is not an array"
    | Some l =>
        let? e := result_mapM load_literal l in
        Ok (mkKeywords types properties required additional constant (Some e) minimum maximum
              min_length max_length pattern one_of any_of all_of not if_ then_ items min_items max_items
              unique_items max_properties property_names reference)
    end
  else if String.eqb name "minimum" then
    let? n := load_number member name in
    Ok (mkKeywords types properties required additional constant enumeration (Some n) maximum
          min_length max_length pattern one_of any_of all_of not if_ then_ items min_items max_items
          unique_items max_properties property_names reference)
  else if String.eqb name "maximum" then
    let? n := load_number member name in
    Ok (mkKeywords types properties required additional constant enumeration minimum (Some n)
          min_length max_length pattern one_of any_of all_of not if_ then_ items min_items max_items
          unique_items max_properties property_names reference)
  else if String.eqb name "minLength" then
    let? n := load_count member name in
    Ok (mkKeywords types properties required additional constant enumeration minimum maximum
          (Some n) max_length pattern one_of any_of all_of not if_ then_ items min_items max_items
          unique_items max_properties property_names reference)
  else if String.eqb name "maxLength" then
    let? n := load_count member name in
    Ok (mkKeywords types properties required additional constant enumeration minimum maximum
          min_length (Some n) pattern one_of any_of all_of not if_ then_ items min_items max_items
          unique_items max_properties property_names reference)
  else if String.eqb name "pattern" then
    let? r := load_pattern member in
    Ok (mkKeywords types properties required additional constant enumeration minimum maximum
          min_length max_length (Some r) one_of any_of all_of not if_ then_ items min_items max_items
          unique_items max_properties property_names reference)
  else if String.eqb name "oneOf" then
    let? l := load_list member name in
    Ok (mkKeywords types properties required additional constant enumeration minimum maximum
          min_length max_length pattern (Some l) any_of all_of not if_ then_ items min_items max_items
          unique_items max_properties property_names reference)
  else if String.eqb name "anyOf" then
    let? l := load_list member name in
    Ok (mkKeywords types properties required additional constant enumeration minimum maximum
          min_length max_length pattern one_of (Some l) all_of not if_ then_ items min_items max_items
          unique_items max_properties property_names reference)
  else if String.eqb name "allOf" then
    let? l := load_list member name in
    Ok (mkKeywords types properties required additional constant enumeration minimum maximum
          min_length max_length pattern one_of any_of (Some l) not if_ then_ items min_items max_items
          unique_items max_properties property_names reference)
  else if String.eqb name "not" then
    let? n := node member in
    Ok (mkKeywords types properties required additional constant enumeration minimum maximum
          min_length max_length pattern one_of any_of all_of (Some n) if_ then_ items min_items max_items
          unique_items max_properties property_names reference)
  else if String.eqb name "if" then
    let? n := node member in
    Ok (mkKeywords types properties required additional constant enumeration minimum maximum
          min_length max_length pattern one_of any_of all_of not (Some n) then_ items min_items max_items
          unique_items max_properties property_names reference)
  else if String.eqb name "then" then
    let? n := node member in
    Ok (mkKeywords types properties required additional constant enumeration minimum maximum
          min_length max_length pattern one_of any_of all_of not if_ (Some n) items min_items max_items
          unique_items max_properties property_names reference)
  else if String.eqb name "items" then
    let? n := node member in
    Ok (mkKeywords types properties required additional constant enumeration minimum maximum
          min_length max_length pattern one_of any_of all_of not if_ then_ (Some n) min_items max_items
          unique_items max_properties property_names reference)
  else if String.eqb name "minItems" then
    let? n := load_count member name in
    Ok (mkKeywords types properties required additional constant enumeration minimum maximum
          min_length max_length pattern one_of any_of all_of not if_ then_ items (Some n) max_items
          unique_items max_properties property_names reference)
  else if String.eqb name "maxItems" then
    let? n := load_count member name in
    Ok (mkKeywords types properties required additional constant enumeration minimum maximum
          min_length max_length pattern one_of any_of all_of not if_ then_ items min_items (Some n)
          unique_items max_properties property_names reference)
  else if String.eqb name "uniqueItems" then
    match as_bool member with
    | None => Err "uniqueItems is not a boolean"
    | Some flag =>
        Ok (mkKeywords types properties required additional constant enumeration minimum maximum
              min_length max_length pattern one_of any_of all_of not if_ then_ items min_items max_items
              flag max_properties property_names reference)
    end
  else if String.eqb name "maxProperties" then
    let? n := load_count member name in
    Ok (mkKeywords types properties required additional constant enumeration minimum maximum
          min_length max_length pattern one_of any_of all_of not if_ then_ items min_items max_items
          unique_items (Some n) property_names reference)
  else if String.eqb name "propertyNames" then
    let? n := node member in
    Ok (mkKeywords types properties required additional constant enumeration minimum maximum
          min_length max_length pattern one_of any_of all_of not if_ then_ items min_items max_items
          unique_items max_properties (Some n) reference)
  else if String.eqb name "$ref" then
    let? r := load_ref names member in
    Ok (mkKeywords types properties required additional constant enumeration minimum maximum
          min_length max_length pattern one_of any_of all_of not if_ then_ items min_items max_items
          unique_items max_properties property_names (Some r))
  else Err ("unsupported keyword " +:+ name).

Fixpoint load_members (root : bool) (k : Keywords SNode) (o : Object) : result (Keywords SNode) SchemaError :=
  match o with
  | [] => Ok k
  | (key, member) :: o =>
      match jstr_as_str key with
      | None => Err "keyword is not text"
      | Some name => let? k := load_keyword root k name member in load_members root k o
      end
  end.
End Load.

(** [node] at [depth]: the fuel is the nesting left, [MAX_SCHEMA_DEPTH + 1 - depth]. *)
Fixpoint load_node (fuel : nat) (names : list string) (root : bool) (value : Value) : result SNode SchemaError :=
  match fuel with
  | O => Err "schema nesting too deep"
  | S fuel =>
      match value with
      | VBool flag => Ok (NBool flag)
      | VObject o =>
          let? k := load_members names (load_node fuel names false) root keywords_default o in
          Ok (NKeywords k)
      | _ => Err "a schema is an object or a boolean"
      end
  end.

Definition schema_from_value (document : Value) : result Schema SchemaError :=
  let? defs := match value_get document "$defs" with
               | Some (VObject defs) => Ok defs
               | Some _ => Err "$defs is not an object"
               | None => Ok []
               end in
  let? names := result_mapM
    (λ e : JStr * Value, result_of_option (jstr_as_str e.1) "definition name is not text") defs in
  let? definitions := result_mapM (λ e : JStr * Value, load_node MAX_SCHEMA_DEPTH names false e.2) defs in
  let? root := load_node (S MAX_SCHEMA_DEPTH) names true document in
  Ok (mkSchema root definitions).

Definition schema_from_json (raw : list Z) : result Schema SchemaError :=
  if negb (utf8_valid raw) then Err "schema is not UTF-8"
  else match parse raw with
       | Ok document => schema_from_value document
       | Err _ => Err "schema is not JSON"
       end.

(** ** Validation *)

Definition is_type (instance : Value) (kind : JsonType) : bool :=
  match kind, instance with
  | TNull, VNull => true
  | TBoolean, VBool _ => true
  | TInteger, VInt _ => true
  | TInteger, VFloat x => is_finite x && bool_decide (f64_fract_sign x = Eq)
  | TNumber, (VInt _ | VFloat _) => true
  | TString, VStr _ => true
  | TArray, VArray _ => true
  | TObject, VObject _ => true
  | _, _ => false
  end.

Definition bound_cmp (instance bound : Value) : option comparison :=
  match instance, bound with
  | VInt x, VInt y => Some (int_cmp x y)
  | VInt x, VFloat y => cmp_f64 x y
  | VFloat x, VInt y => CompOpp <$> cmp_f64 y x
  | VFloat x, VFloat y => f64_partial_cmp x y
  | _, _ => None
  end.

(** Validation stopped because the evaluation budget ran out. *)
Inductive Exhausted := exhausted.

Abbreviation verdict := (result bool Exhausted).

(** A step refuses with [Ok false], otherwise the next step decides. *)
Definition check (ok : bool) (k : verdict) : verdict := if ok then k else Ok false.
Definition require (v : verdict) (k : verdict) : verdict := let? ok := v in check ok k.
Definition opt_check {A} (o : option A) (f : A → bool) : bool := match o with Some x => f x | None => true end.

Section Valid.
(** [self.valid(schema, instance, depth)] for a subschema. *)
Variable valid : SNode → Value → verdict.
Variable definitions : list SNode.

Fixpoint all_valid (schemas : list (SNode * Value)) (k : verdict) : verdict :=
  match schemas with
  | [] => k
  | (schema, instance) :: schemas => require (valid schema instance) (all_valid schemas k)
  end.

Fixpoint any_valid (schemas : list SNode) (instance : Value) : verdict :=
  match schemas with
  | [] => Ok false
  | schema :: schemas =>
      let? found := valid schema instance in
      if (found : bool) then Ok true else any_valid schemas instance
  end.

Fixpoint count_valid (schemas : list SNode) (instance : Value) (matched : nat) : result nat Exhausted :=
  match schemas with
  | [] => Ok matched
  | schema :: schemas =>
      let? ok := valid schema instance in
      count_valid schemas instance (if (ok : bool) then S matched else matched)
  end.

Fixpoint unique (items : list Value) : bool :=
  match items with
  | [] => true
  | item :: items => negb (existsb (λ other, schema_eq item other) items) && unique items
  end.

Definition valid_number (k : Keywords SNode) (instance : Value) : bool :=
  negb (is_type instance TNumber)
  || (opt_check (k_minimum k) (λ m, negb (bool_decide (bound_cmp instance m = Some Lt)))
      && opt_check (k_maximum k) (λ m, negb (bool_decide (bound_cmp instance m = Some Gt)))).

Definition valid_text (k : Keywords SNode) (instance : Value) : bool :=
  match instance with
  | VStr text =>
      let length_ := Z.of_nat (len_code_points text) in
      opt_check (k_min_length k) (λ m, m <=? length_) && opt_check (k_max_length k) (λ m, length_ <=? m)
      && opt_check (k_pattern k) (λ re, is_match re text)
  | _ => true
  end.

Definition valid_array (k : Keywords SNode) (instance : Value) (next : verdict) : verdict :=
  match instance with
  | VArray items =>
      let count := Z.of_nat (length items) in
      check (opt_check (k_min_items k) (λ m, m <=? count) && opt_check (k_max_items k) (λ m, count <=? m))
        (check (negb (k_unique_items k) || unique items)
           (all_valid (match k_items k with Some s => map (λ v, (s, v)) items | None => [] end) next))
  | _ => next
  end.

(** The members [additionalProperties] decides, with the subschema of each. *)
Definition additional_pairs (k : Keywords SNode) (o : Object) : list (SNode * Value) :=
  match k_additional k with
  | None => []
  | Some a =>
      map (λ e : JStr * Value, (match a with Allowed flag => NBool flag | AdditionalSchema s => s end, e.2))
        (List.filter (λ e : JStr * Value,
           negb (existsb (λ p : JStr * SNode, bool_decide (p.1 = e.1)) (k_properties k))) o)
  end.

(** [Additional::Allowed(flag)] answers without an evaluation. *)
Definition allowed_ok (k : Keywords SNode) (o : Object) : bool :=
  match k_additional k with
  | Some (Allowed false) => bool_decide (additional_pairs k o = [])
  | _ => true
  end.

Definition property_pairs (k : Keywords SNode) (o : Object) : list (SNode * Value) :=
  omap (λ p : JStr * SNode, (λ m, (p.2, m)) <$> object_get o p.1) (k_properties k).

Definition valid_object (k : Keywords SNode) (instance : Value) (next : verdict) : verdict :=
  match instance with
  | VObject o =>
      check (opt_check (k_max_properties k) (λ m, Z.of_nat (length o) <=? m))
        (check (forallb (λ name, object_contains_key o name) (k_required k))
          (all_valid (property_pairs k o)
            (check (allowed_ok k o)
              (all_valid (match k_additional k with Some (AdditionalSchema _) => additional_pairs k o | _ => [] end)
                (all_valid (match k_property_names k with
                            | Some s => map (λ e : JStr * Value, (s, VStr e.1)) o
                            | None => []
                            end) next)))))
  | _ => next
  end.

Definition valid_reference (k : Keywords SNode) (instance : Value) (next : verdict) : verdict :=
  match k_reference k with
  | None => next
  | Some index =>
      match definitions !! index with
      | Some target => require (valid target instance) next
      | None => Ok false
      end
  end.

Definition valid_combinators (k : Keywords SNode) (instance : Value) : verdict :=
  all_valid (match k_all_of k with Some l => map (λ s, (s, instance)) l | None => [] end)
    (require (match k_any_of k with Some l => any_valid l instance | None => Ok true end)
      (require (match k_one_of k with
                | Some l => let? matched := count_valid l instance 0 in Ok (Nat.eqb matched 1)
                | None => Ok true
                end)
        (require (match k_not k with Some s => result_map negb (valid s instance) | None => Ok true end)
          (match k_if k with
           | None => Ok true
           | Some condition =>
               let? holds := valid condition instance in
               if (holds : bool) then
                 match k_then k with Some s => valid s instance | None => Ok true end
               else Ok true
           end)))).

Definition valid_keywords (k : Keywords SNode) (instance : Value) : verdict :=
  valid_reference k instance
    (check (opt_check (k_types k) (existsb (is_type instance)))
      (check (opt_check (k_constant k) (schema_eq instance))
        (check (opt_check (k_enumeration k) (existsb (schema_eq instance)))
          (check (valid_number k instance)
            (check (valid_text k instance)
              (valid_array k instance
                (valid_object k instance (valid_combinators k instance)))))))).
End Valid.

Fixpoint valid (fuel : nat) (definitions : list SNode) (node : SNode) (instance : Value) : verdict :=
  match fuel with
  | O => Err exhausted
  | S fuel =>
      match node with
      | NBool flag => Ok flag
      | NKeywords k => valid_keywords (valid fuel definitions) definitions k instance
      end
  end.

Definition is_valid (schema : Schema) (instance : Value) : bool :=
  match valid (S MAX_EVALUATION_DEPTH) (s_definitions schema) (s_root schema) instance with
  | Ok true => true
  | _ => false
  end.

(** ** The source's vectors *)

Definition accepts_text (schema instance : string) : option bool :=
  match schema_from_json (bytes_of schema), parse (bytes_of instance) with
  | Ok s, Ok v => Some (is_valid s v)
  | _, _ => None
  end.

(** A document as JSON text ([Doc]'s canonical form). *)
Definition text_of (d : Doc) : string := string_of (doc_canonical d).

Example type_keyword :
  map (accepts_text (text_of (DObject [("type", DStr "integer")]))) ["3"; "-0"; "1.0"; "true"; "1.5"; "null"]
  = [Some true; Some true; Some true; Some false; Some false; Some false].
Proof. vm_compute. reflexivity. Qed.
