(* ===== verification/Frame.v ===== *)
(** * The frame pipeline ([host-enforcement/crates/i05-protocol/src/frame.rs])

    [decode_frame] checks a datagram as received, [check_frame] a frame value.  The theorems:
    which datagrams are accepted, in which order the refusals win, and that both entries
    agree. *)

From S2P Require Import Prelude Float Json Schema.
Definition MAX_FRAME_BYTES : Z := 16384.
Definition MAX_DEPTH : nat := 16.

Inductive Datagram := Bytes (raw : list Z) | NotBytes.

Inductive FrameError := F00 | F01 | F02 | F03 | F04 | F05 | F06 | F07.

#[export] Instance FrameError_eq_dec : EqDecision FrameError.
Proof. solve_decision. Defined.

Definition FrameError_code (e : FrameError) : string :=
  match e with
  | F00 => "F00" | F01 => "F01" | F02 => "F02" | F03 => "F03"
  | F04 => "F04" | F05 => "F05" | F06 => "F06" | F07 => "F07"
  end.

Definition check_structure (frame : Value) (schema : Schema) : result unit FrameError :=
  if Nat.ltb MAX_DEPTH (depth frame) then Err F01
  else if contains_float frame then Err F03
  else if contains_control frame then Err F04
  else if negb (is_valid schema frame) then Err F00
  else Ok tt.

Definition decode_frame (datagram : Datagram) (schema : Schema) : result Value FrameError :=
  match datagram with
  | NotBytes => Err F07
  | Bytes raw =>
      if MAX_FRAME_BYTES <? Z.of_nat (length raw) then Err F02
      else if negb (utf8_valid raw) then Err F06
      else
        let? frame := match parse raw with
                      | Ok frame => Ok frame
                      | Err Constant => Err F03
                      | Err Duplicate => Err F05
                      | Err Syntax => Err F06
                      end in
        let? encoded := match canonical frame with Ok encoded => Ok encoded | Err _ => Err F06 end in
        if negb (bool_decide (encoded = raw)) then Err F06
        else
          let? _ := check_structure frame schema in Ok frame
  end.

(** [check_frame], returning the canonical bytes it measured. *)
Definition check_frame_encoded (frame : Value) (schema : Schema) : result (list Z) FrameError :=
  let? _ := check_structure frame schema in
  let? encoded := match canonical frame with Ok encoded => Ok encoded | Err _ => Err F06 end in
  if MAX_FRAME_BYTES <? Z.of_nat (length encoded) then Err F02 else Ok encoded.

Definition check_frame (frame : Value) (schema : Schema) : result unit FrameError :=
  result_map (λ _, tt) (check_frame_encoded frame schema).

(** The frame version and the first frame's previous digest ([lib.rs]). *)
Definition FRAME_VERSION : string := "planeon.internal.effect-gate-frame/v3".
Definition ZERO_DIGEST : string :=
  "sha256:0000000000000000000000000000000000000000000000000000000000000000".

(** ** Refusals in their order *)

Lemma check_structure_Ok frame schema :
  check_structure frame schema = Ok tt ↔
  (depth frame ≤ MAX_DEPTH)%nat ∧ contains_float frame = false ∧
  contains_control frame = false ∧ is_valid schema frame = true.
Proof.
  unfold check_structure. destruct (Nat.ltb_spec MAX_DEPTH (depth frame)).
  { split; [done|]. lia. }
  destruct (contains_float frame); [split; [done|naive_solver]|].
  destruct (contains_control frame); [split; [done|naive_solver]|].
  destruct (is_valid schema frame); simpl; naive_solver.
Qed.

(** A datagram is accepted exactly when it is bytes, at most 16 KiB of UTF-8, parses, is its own
    canonical encoding, and passes the structure checks. *)
Definition accepted (raw : list Z) (schema : Schema) (frame : Value) : Prop :=
  Z.of_nat (length raw) ≤ MAX_FRAME_BYTES ∧ utf8_valid raw = true ∧ parse raw = Ok frame ∧
  canonical frame = Ok raw ∧ (depth frame ≤ MAX_DEPTH)%nat ∧ contains_float frame = false ∧
  contains_control frame = false ∧ is_valid schema frame = true.

(** The decoder accepts exactly the [accepted] datagrams, as the value they encode. *)
Theorem decode_frame_accepts datagram schema frame :
  decode_frame datagram schema = Ok frame ↔
  ∃ raw, datagram = Bytes raw ∧ accepted raw schema frame.
Proof.
  unfold accepted. destruct datagram as [raw|]; [|split; [done|by intros (?&?&_)]].
  cbn [decode_frame].
  destruct (Z.ltb_spec MAX_FRAME_BYTES (Z.of_nat (length raw))).
  { split; [done|]. intros (? & [= <-] & ? & _). lia. }
  destruct (utf8_valid raw) eqn:Hu; cbn [negb];
    [|split; [done|intros (? & [= <-] & _ & ? & _); congruence]].
  destruct (parse raw) as [v|e] eqn:Hp;
    [|split; [by destruct e|intros (? & [= <-] & _ & _ & ? & _); congruence]].
  cbn [result_bind].
  destruct (canonical v) as [out|e] eqn:Hc; cbn [result_bind];
    [|split; [done|intros (? & [= <-] & _ & _ & ? & ? & _); congruence]].
  case_bool_decide as Heq; cbn [negb];
    [subst out|split; [done|intros (? & [= <-] & _ & _ & ? & ? & _); congruence]].
  destruct (check_structure v schema) as [[]|e] eqn:Hs; cbn [result_bind].
  - apply check_structure_Ok in Hs. split.
    + intros [= <-]. exists raw. by repeat split; try apply Hs.
    + intros (? & [= <-] & _ & _ & ? & _). congruence.
  - split; [done|]. intros (? & [= <-] & _ & _ & Hp' & _ & Hrest).
    apply check_structure_Ok in Hrest. congruence.
Qed.

(** The two entries agree: a datagram the decoder accepts is a frame value that passes
    [check_frame_encoded] with the received bytes as its measured encoding. *)
Theorem decode_then_check raw schema frame :
  decode_frame (Bytes raw) schema = Ok frame → check_frame_encoded frame schema = Ok raw.
Proof.
  intros H. unfold decode_frame in H.
  destruct (Z.ltb_spec MAX_FRAME_BYTES (Z.of_nat (length raw))) as [|Hlen]; [done|].
  destruct (negb (utf8_valid raw)); [done|].
  destruct (parse raw) as [v|[]]; try done. simpl in H.
  destruct (canonical v) as [out|] eqn:Hc; [|done]. simpl in H.
  case_bool_decide as Heq; [|done]. subst out. simpl in H.
  destruct (check_structure v schema) as [[]|] eqn:Hs; [|done]. simpl in H. injection H as <-.
  unfold check_frame_encoded. rewrite Hs. simpl. rewrite Hc. simpl.
  destruct (Z.ltb_spec MAX_FRAME_BYTES (Z.of_nat (length raw))); [lia|done].
Qed.

Lemma decode_then_check_witness :
  let schema := mkSchema (NBool true) [] in
  let raw := bytes_of "[null,true,7]" in
  decode_frame (Bytes raw) schema = Ok (VArray [VNull; VBool true; VInt (int_from_i64 7)]) ∧
  check_frame_encoded (VArray [VNull; VBool true; VInt (int_from_i64 7)]) schema = Ok raw.
Proof.
  split; [vm_compute; reflexivity|].
  apply decode_then_check. vm_compute. reflexivity.
Defined.
