(* ===== verification/SchemaOrder.v ===== *)
(** * Frames and the order of their members

    The encoder checks the value it was given, the decoder the value it parsed: the same members, sorted by name.  The
    two checks agree for a schema whose evaluation stays within its budget ([schema_fits], decided on the schema alone),
    so every frame [check_frame] passes is a frame the peer's [decode_frame] accepts. *)

From S2P Require Import Prelude Contracts Float Json JsonEncode JsonRoundtrip JsonInt Regex Schema Frame.
(** ** Members, looked up in any order *)

Lemma object_get_elem (o : Object) key v : NoDup (map fst o) → (object_get o key = Some v ↔ (key, v) ∈ o).
Proof.
  unfold object_get. induction o as [|[k w] o IH]; intros Hn; [by split; [|intros ?%elem_of_nil]|].
  cbn [map fst] in Hn. apply NoDup_cons in Hn as [Hk Hn]. cbn [List.find fst]. case_bool_decide as E.
  - subst k. split; [intros [= <-]; left|]. intros [[= ->]|Hin]%elem_of_cons; [done|].
    exfalso. apply Hk, list_elem_of_fmap. by exists (key, v).
  - rewrite (IH Hn). split; [by right|]. by intros [[= -> ->]|Hin]%elem_of_cons.
Qed.

Lemma object_get_perm (o o' : Object) key : o ≡ₚ o' → NoDup (map fst o) → object_get o key = object_get o' key.
Proof.
  intros Hp Hn. assert (Hn' : NoDup (map fst o')) by by rewrite <-Hp.
  apply option_eq. intros v. by rewrite !object_get_elem, Hp.
Qed.

Lemma object_get_map (f : Value → Value) (o : Object) key :
  object_get (map (λ e, (e.1, f e.2)) o) key = f <$> object_get o key.
Proof.
  unfold object_get. induction o as [|e o IH]; [done|]. cbn [map List.find fst]. by case_bool_decide.
Qed.

Definition normal_members (o : Object) : Object := map (λ e, (e.1, normalize e.2)) (sort_members o).

Lemma normal_members_perm o : normal_members o ≡ₚ map (λ e, (e.1, normalize e.2)) o.
Proof. unfold normal_members. by rewrite sort_members_perm. Qed.
Lemma normal_members_get o key :
  NoDup (map fst o) → object_get (normal_members o) key = normalize <$> object_get o key.
Proof.
  intros Hn. rewrite <-object_get_map. symmetry. apply object_get_perm; [by rewrite normal_members_perm|].
  by rewrite map_map.
Qed.
Lemma normal_members_keys o : map fst (normal_members o) ≡ₚ map fst o.
Proof. rewrite normal_members_perm, map_map. done. Qed.

Lemma existsb_perm {A} (f : A → bool) l k : l ≡ₚ k → existsb f l = existsb f k.
Proof. induction 1 as [|x l k H IH|x y l|l k m H1 IH1 H2 IH2]; cbn; [done|by rewrite IH|by destruct (f x), (f y)|congruence]. Qed.
Lemma forallb_perm {A} (f : A → bool) l k : l ≡ₚ k → forallb f l = forallb f k.
Proof. induction 1 as [|x l k H IH|x y l|l k m H1 IH1 H2 IH2]; cbn; [done|by rewrite IH|by destruct (f x), (f y)|congruence]. Qed.
Lemma foldr_max_perm l k : l ≡ₚ k → foldr Nat.max 0%nat l = foldr Nat.max 0%nat k.
Proof. induction 1; cbn; lia. Qed.
Lemma existsb_map {A B} (f : B → bool) (g : A → B) l : existsb f (map g l) = existsb (λ x, f (g x)) l.
Proof. induction l; cbn; congruence. Qed.
Lemma forallb_map {A B} (f : B → bool) (g : A → B) l : forallb f (map g l) = forallb (λ x, f (g x)) l.
Proof. induction l; cbn; congruence. Qed.
Lemma existsb_ext_Forall {A} (f g : A → bool) l : Forall (λ x, f x = g x) l → existsb f l = existsb g l.
Proof. induction 1; cbn; congruence. Qed.
Lemma forallb_ext_Forall {A} (f g : A → bool) l : Forall (λ x, f x = g x) l → forallb f l = forallb g l.
Proof. induction 1; cbn; congruence. Qed.

Lemma has_key_perm (o o' : Object) key : map fst o ≡ₚ map fst o' → object_contains_key o key = object_contains_key o' key.
Proof.
  intros H%(existsb_perm (λ k, bool_decide (k = key))). by rewrite !existsb_map in H.
Qed.

(** ** What the checks read of a value *)

Lemma nesting_normalize v : nesting (normalize v) = nesting v.
Proof.
  induction v as [|b|i|x|s|items IH|o IH] using Value_nested_ind; try done.
  - cbn. f_equal. rewrite map_map. f_equal. by apply map_ext_Forall.
  - rewrite normalize_object. fold (normal_members o). cbn [nesting]. f_equal.
    rewrite (foldr_max_perm _ (map (λ e, nesting (normalize e.2)) o)).
    + f_equal. by apply map_ext_Forall.
    + by rewrite normal_members_perm, map_map.
Qed.

Lemma any_node_normalize test v :
  (∀ v, test (normalize v) = test v) → any_node test (normalize v) = any_node test v.
Proof.
  intros Ht. induction v as [|b|i|x|s|items IH|o IH] using Value_nested_ind; try done.
  - pose proof (Ht (VArray items)) as E. cbn [any_node normalize] in *. rewrite E. f_equal.
    rewrite existsb_map. by apply existsb_ext_Forall.
  - pose proof (Ht (VObject o)) as E. rewrite normalize_object in *. fold (normal_members o) in *. cbn [any_node].
    rewrite E. f_equal. rewrite (existsb_perm _ _ _ (normal_members_perm o)), existsb_map. by apply existsb_ext_Forall.
Qed.

Lemma is_float_normalize v : is_float (normalize v) = is_float v.
Proof. by destruct v. Qed.
Lemma has_control_normalize v : has_control (normalize v) = has_control v.
Proof.
  destruct v as [| | | | | |o]; try done. rewrite normalize_object. fold (normal_members o). cbn [has_control].
  pose proof (existsb_perm control _ _ (normal_members_keys o)) as H. by rewrite !existsb_map in H.
Qed.

(** *** Equality *)

Lemma equal_normalize_left a b : equal_by schema_scalar (normalize a) b = equal_by schema_scalar a b.
Proof.
  revert b. induction a as [|f|i|x|s|items IH|o IH] using Value_nested_ind; intros b; try done.
  - destruct b; try done. cbn [normalize equal_by schema_scalar]. rewrite !equal_items, length_map. f_equal.
    revert items0. induction IH as [|v items Hv _ IHl]; intros [|w l]; try done. cbn [map zip zip_with forallb].
    rewrite IHl. f_equal. apply Hv.
  - destruct b as [| | | | | |y]; try done. rewrite normalize_object. fold (normal_members o).
    cbn [equal_by schema_scalar]. f_equal.
    + f_equal. by rewrite (Permutation_length (normal_members_perm o)), length_map.
    + rewrite (forallb_perm _ _ _ (normal_members_perm o)), forallb_map. apply forallb_ext_Forall.
      eapply Forall_impl; [exact IH|]. intros e He. cbn [fst snd]. destruct (object_get y e.1); [apply He|done].
Qed.

Lemma equal_normalize_right a b : wf_value b → equal_by schema_scalar a (normalize b) = equal_by schema_scalar a b.
Proof.
  revert b. induction a as [|f|i|x|s|items IH|o IH] using Value_nested_ind; intros b Hb; try by destruct b.
  - destruct b as [| | | | |l|]; try done. cbn [normalize equal_by schema_scalar]. rewrite !equal_items, length_map.
    f_equal. apply wf_array in Hb. revert l Hb. induction IH as [|v items Hv _ IHl]; intros [|w l] Hb; try done.
    apply Forall_cons in Hb as [Hw Hb]. cbn [map zip zip_with forallb]. rewrite IHl by done. f_equal. by apply Hv.
  - destruct b as [| | | | | |y]; try done. apply wf_object in Hb as [Hn Hb]. rewrite normalize_object.
    fold (normal_members y). cbn [equal_by schema_scalar]. f_equal.
    + f_equal. by rewrite (Permutation_length (normal_members_perm y)), length_map.
    + apply forallb_ext_Forall. eapply Forall_impl; [exact IH|]. intros e He. cbn beta. rewrite normal_members_get by done.
      destruct (object_get y e.1) as [other|] eqn:E; [|done]. cbn. apply He. apply object_get_elem in E; [|done].
      rewrite Forall_forall in Hb. by apply (Hb (e.1, other)).
Qed.

Lemma schema_eq_walk v w : schema_eq v w = equal_by schema_scalar v w.
Proof. by apply walks_are_recursive. Qed.
Lemma schema_eq_constant v w : schema_eq (normalize v) w = schema_eq v w.
Proof. rewrite !schema_eq_walk. apply equal_normalize_left. Qed.
Lemma schema_eq_values v w : wf_value w → schema_eq (normalize v) (normalize w) = schema_eq v w.
Proof. intros Hw. rewrite !schema_eq_walk, equal_normalize_left. by apply equal_normalize_right. Qed.

Lemma unique_normalize items : Forall wf_value items → unique (map normalize items) = unique items.
Proof.
  induction 1 as [|v items Hv Hi IH]; [done|]. cbn [map unique]. rewrite IH. f_equal. f_equal. rewrite existsb_map.
  apply existsb_ext_Forall. eapply Forall_impl; [exact Hi|]. intros w Hw. by apply schema_eq_values.
Qed.

(** ** The evaluation budget *)

(** Every subschema of a schema object, [$ref] apart. *)
Definition option_list {A} (o : option A) : list A := match o with Some x => [x] | None => [] end.
Definition subschemas (k : Keywords SNode) : list SNode :=
  map snd (k_properties k)
  ++ match k_additional k with Some (AdditionalSchema s) => [s] | _ => [] end
  ++ default [] (k_one_of k) ++ default [] (k_any_of k) ++ default [] (k_all_of k)
  ++ option_list (k_not k) ++ option_list (k_if k) ++ option_list (k_then k) ++ option_list (k_items k)
  ++ option_list (k_property_names k).

(** [fuel] nested evaluations are enough for [node], whatever the value. *)
Fixpoint fits (fuel : nat) (definitions : list SNode) (node : SNode) : bool :=
  match fuel with
  | O => false
  | S fuel =>
      match node with
      | NBool _ => true
      | NKeywords k =>
          forallb (fits fuel definitions) (subschemas k)
          && match (let* index := k_reference k in definitions !! index) with
             | Some target => fits fuel definitions target
             | None => true
             end
      end
  end.
Definition schema_fits (schema : Schema) : bool :=
  fits (S MAX_EVALUATION_DEPTH) (s_definitions schema) (s_root schema).

(** Two evaluations with the same verdict, neither out of budget. *)
Definition steady (v w : verdict) : Prop := v = w ∧ ∃ b, v = Ok b.

Lemma steady_ok b : steady (Ok b) (Ok b).
Proof. split; [done|by exists b]. Qed.
Lemma steady_check (o p : bool) v w : o = p → steady v w → steady (check o v) (check p w).
Proof. intros <- H. destruct o; [done|]. apply steady_ok. Qed.
Lemma steady_require v w v' w' : steady v w → steady v' w' → steady (require v v') (require w w').
Proof. intros [<- [b ->]] H. cbn. by apply steady_check. Qed.
Lemma steady_bind v w (f g : bool → verdict) : steady v w → (∀ b, steady (f b) (g b)) → steady (let? b := v in f b) (let? b := w in g b).
Proof. intros [<- [b ->]] H. apply H. Qed.
Lemma steady_map (f : bool → bool) v w : steady v w → steady (result_map f v) (result_map f w).
Proof. intros [<- [b ->]]. apply steady_ok. Qed.
Create HintDb steady.
#[local] Hint Resolve steady_ok steady_check steady_require steady_map : steady.

Section Steady.
Variable val : SNode → Value → verdict.
Variable good : SNode → Prop.
Hypothesis Hval : ∀ node v, good node → wf_value v → steady (val node v) (val node (normalize v)).

Definition ready (p : SNode * Value) : Prop := good p.1 ∧ wf_value p.2.
Definition renormal (p : SNode * Value) : SNode * Value := (p.1, normalize p.2).
Definition holds (p : SNode * Value) : bool := match val p.1 p.2 with Ok b => b | Err _ => false end.

Lemma all_valid_holds pairs k :
  Forall (λ p, ∃ b, val p.1 p.2 = Ok b) pairs → all_valid val pairs k = check (forallb holds pairs) k.
Proof.
  induction 1 as [|[node v] pairs [b Hb] _ IH]; [done|]. cbn [all_valid forallb]. unfold holds at 1. cbn [fst snd] in *.
  rewrite Hb. cbn. destruct b; [done|done].
Qed.

Lemma steady_all pairs pairs' k k' :
  Forall ready pairs → pairs' ≡ₚ map renormal pairs → steady k k' → steady (all_valid val pairs k) (all_valid val pairs' k').
Proof.
  intros Hr Hp Hk. assert (Hs : Forall (λ p, steady (val p.1 p.2) (val p.1 (normalize p.2))) pairs)
    by (eapply Forall_impl; [exact Hr|]; intros p [? ?]; by apply Hval).
  rewrite !all_valid_holds.
  - apply steady_check; [|done]. rewrite (forallb_perm _ _ _ Hp), forallb_map. apply forallb_ext_Forall.
    eapply Forall_impl; [exact Hs|]. intros p [He _]. unfold holds, renormal. cbn [fst snd]. by rewrite He.
  - rewrite Hp. apply Forall_map. eapply Forall_impl; [exact Hs|]. intros p [He [b Hb]]. exists b. cbn. congruence.
  - eapply Forall_impl; [exact Hs|]. by intros p [_ ?].
Qed.

Lemma steady_any l v : Forall good l → wf_value v → steady (any_valid val l v) (any_valid val l (normalize v)).
Proof.
  intros Hl Hv. induction Hl as [|node l Hn _ IH]; [apply steady_ok|]. cbn [any_valid].
  apply steady_bind; [by apply Hval|]. intros []; [apply steady_ok|done].
Qed.

Lemma count_steady l v n :
  Forall good l → wf_value v →
  count_valid val l v n = count_valid val l (normalize v) n ∧ ∃ m, count_valid val l v n = Ok m.
Proof.
  intros Hl Hv. revert n. induction Hl as [|node l Hn _ IH]; intros n; [split; [done|by exists n]|]. cbn [count_valid].
  destruct (Hval node v Hn Hv) as [<- [b ->]]. cbn. apply IH.
Qed.

Lemma steady_option (o : option SNode) v :
  (∀ s, o = Some s → steady (val s v) (val s (normalize v))) →
  steady (match o with Some s => val s v | None => Ok true end) (match o with Some s => val s (normalize v) | None => Ok true end).
Proof. intros H. destruct o; [by apply H|apply steady_ok]. Qed.

Variable definitions : list SNode.
Variable k : Keywords SNode.
Hypothesis Hsub : Forall good (subschemas k).
Hypothesis Href : ∀ index target, k_reference k = Some index → definitions !! index = Some target → good target.

Lemma sub_good s : s ∈ subschemas k → good s.
Proof. rewrite Forall_forall in Hsub. apply Hsub. Qed.

Ltac sub_good :=
  apply sub_good; unfold subschemas;
  repeat match goal with H : _ k = Some _ |- _ => rewrite H end; cbn; rewrite ?elem_of_app; set_solver.

Lemma steady_array items next next' :
  Forall wf_value items → steady next next' →
  steady (valid_array val k (VArray items) next) (valid_array val k (VArray (map normalize items)) next').
Proof.
  intros Hi Hk. cbn [valid_array]. rewrite length_map, unique_normalize by done.
  apply steady_check; [done|]. apply steady_check; [done|]. apply steady_all; [| |done].
  - destruct (k_items k) as [s|] eqn:E; [|constructor]. apply Forall_map. eapply Forall_impl; [exact Hi|].
    intros v Hv. split; [|done]. sub_good.
  - destruct (k_items k); [|done]. by rewrite !map_map.
Qed.

Lemma property_pairs_normal o :
  NoDup (map fst o) → property_pairs k (normal_members o) = map renormal (property_pairs k o).
Proof.
  intros Hn. unfold property_pairs. induction (k_properties k) as [|p l IH]; [done|]. cbn [omap list_omap].
  rewrite normal_members_get by done. destruct (object_get o p.1); cbn [fmap option_fmap option_map]; [|done].
  cbn [map]. by rewrite IH.
Qed.
Lemma property_pairs_ready o : wf_value (VObject o) → Forall ready (property_pairs k o).
Proof.
  intros [Hn Hw]%wf_object. apply Forall_forall. intros p (q & Hq & Hp)%list_elem_of_omap.
  destruct (object_get o q.1) as [m|] eqn:E; [|done]. injection Hp as <-. apply object_get_elem in E; [|done]. split.
  - apply sub_good. unfold subschemas. apply elem_of_app. left. exact (list_elem_of_fmap_2 snd _ _ Hq).
  - rewrite Forall_forall in Hw. by apply (Hw (q.1, m)).
Qed.

Lemma filter_perm {A} (f : A → bool) l l' : l ≡ₚ l' → List.filter f l ≡ₚ List.filter f l'.
Proof. induction 1 as [|x l l' H IH|x y l|l l' m H1 IH1 H2 IH2]; cbn; [done|by destruct (f x); rewrite IH|by destruct (f x), (f y); try done; apply perm_swap|by rewrite IH1]. Qed.

Lemma additional_pairs_normal o : additional_pairs k (normal_members o) ≡ₚ map renormal (additional_pairs k o).
Proof.
  unfold additional_pairs. destruct (k_additional k) as [a|]; [|done]. rewrite (filter_perm _ _ _ (normal_members_perm o)).
  apply reflexive_eq. induction o as [|e o IH]; [done|]. cbn [map List.filter fst].
  destruct (negb _); cbn [map fst snd]; by rewrite IH.
Qed.
Lemma additional_pairs_ready s o :
  k_additional k = Some (AdditionalSchema s) → wf_value (VObject o) → Forall ready (additional_pairs k o).
Proof.
  intros E [_ Hw]%wf_object. unfold additional_pairs. rewrite E. apply Forall_map, Forall_forall.
  intros e [He _]%list_elem_of_In%filter_In. rewrite Forall_forall in Hw. split; [sub_good|].
  apply Hw. by apply list_elem_of_In.
Qed.
Lemma allowed_normal o : allowed_ok k (normal_members o) = allowed_ok k o.
Proof.
  unfold allowed_ok. destruct (k_additional k) as [[[]|]|]; try done. pose proof (additional_pairs_normal o) as H.
  apply bool_decide_ext. split; intros E; rewrite E in H.
  - by apply Permutation_nil, map_eq_nil in H.
  - by apply Permutation_sym, Permutation_nil in H.
Qed.

Lemma steady_object o next next' :
  wf_value (VObject o) → steady next next' →
  steady (valid_object val k (VObject o) next) (valid_object val k (VObject (normal_members o)) next').
Proof.
  intros Hw Hk. pose proof (proj1 (proj1 (wf_object o) Hw)) as Hn. cbn [valid_object].
  apply steady_check; [by rewrite (Permutation_length (normal_members_perm o)), length_map|].
  apply steady_check.
  { apply forallb_ext_Forall, Forall_true. intros name. by apply has_key_perm; rewrite normal_members_keys. }
  apply steady_all; [by apply property_pairs_ready|by rewrite property_pairs_normal|].
  apply steady_check; [by rewrite allowed_normal|]. apply steady_all.
  - destruct (k_additional k) as [[]|] eqn:E; [constructor| |constructor]. by eapply additional_pairs_ready.
  - destruct (k_additional k) as [[]|]; [done| |done]. apply additional_pairs_normal.
  - apply steady_all; [| |done].
    + destruct (k_property_names k) as [s|] eqn:E; [|constructor]. apply Forall_map, Forall_true. intros e.
      split; [sub_good|done].
    + destruct (k_property_names k) as [s|]; [|done]. rewrite (normal_members_perm o), !map_map. done.
Qed.

Lemma steady_combinators v :
  wf_value v → steady (valid_combinators val k v) (valid_combinators val k (normalize v)).
Proof.
  intros Hw. unfold valid_combinators. apply steady_all; [| |apply steady_require; [|apply steady_require; [|apply steady_require]]].
  - destruct (k_all_of k) as [l|] eqn:E; [|constructor]. apply Forall_map, Forall_forall. intros s Hs. split; [sub_good|done].
  - destruct (k_all_of k); [|done]. by rewrite map_map.
  - destruct (k_any_of k) as [l|] eqn:E; [|apply steady_ok]. apply steady_any; [|done]. apply Forall_forall. intros s Hs. sub_good.
  - destruct (k_one_of k) as [l|] eqn:E; [|apply steady_ok]. destruct (count_steady l v 0) as [<- [m ->]]; [|done|apply steady_ok].
    apply Forall_forall. intros s Hs. sub_good.
  - destruct (k_not k) as [s|] eqn:E; [|apply steady_ok]. apply steady_map, Hval; [sub_good|done].
  - destruct (k_if k) as [s|] eqn:E; [|apply steady_ok]. apply steady_bind; [apply Hval; [sub_good|done]|].
    intros []; [|apply steady_ok]. apply steady_option. intros t Et. apply Hval; [sub_good|done].
Qed.

Lemma is_type_normalize v kind : is_type (normalize v) kind = is_type v kind.
Proof. by destruct kind, v. Qed.
Lemma valid_number_normalize v : valid_number k (normalize v) = valid_number k v.
Proof. by destruct v. Qed.
Lemma valid_text_normalize v : valid_text k (normalize v) = valid_text k v.
Proof. by destruct v. Qed.

Lemma steady_keywords v :
  wf_value v → steady (valid_keywords val definitions k v) (valid_keywords val definitions k (normalize v)).
Proof.
  intros Hw. unfold valid_keywords.
  assert (Ht : ∀ next next', steady next next' →
    steady (valid_reference val definitions k v next) (valid_reference val definitions k (normalize v) next')).
  { intros next next' H. unfold valid_reference. destruct (k_reference k) as [index|] eqn:E; [|done].
    destruct (definitions !! index) as [target|] eqn:Et; [|apply steady_ok]. apply steady_require; [|done].
    apply Hval; [by eapply Href|done]. }
  apply Ht. rewrite valid_number_normalize, valid_text_normalize. repeat (apply steady_check; [|]); try done.
  - destruct (k_types k) as [l|]; [|done]. apply existsb_ext_Forall, Forall_true. intros kind. by rewrite is_type_normalize.
  - destruct (k_constant k); [|done]. symmetry. apply schema_eq_constant.
  - destruct (k_enumeration k) as [l|]; [|done]. apply existsb_ext_Forall, Forall_true. intros w. symmetry. apply schema_eq_constant.
  - destruct v as [| | | | |items|o]; try by apply steady_combinators.
    + apply steady_array; [by apply wf_array|by apply (steady_combinators (VArray items))].
    + pose proof (steady_combinators (VObject o) Hw) as Hc. rewrite normalize_object in *. fold (normal_members o) in *.
      by apply steady_object.
Qed.
End Steady.

Lemma fits_keywords fuel definitions k :
  fits (S fuel) definitions (NKeywords k) = true →
  Forall (λ s, fits fuel definitions s = true) (subschemas k) ∧
  ∀ index target, k_reference k = Some index → definitions !! index = Some target → fits fuel definitions target = true.
Proof.
  cbn [fits]. intros [Hs Ht]%andb_prop. split; [by apply Forall_forall; intros s Hin%list_elem_of_In; eapply forallb_forall in Hs|].
  intros index target E Et. by rewrite E in Ht; cbn in Ht; rewrite Et in Ht.
Qed.

Lemma valid_steady fuel definitions node v :
  fits fuel definitions node = true → wf_value v →
  steady (valid fuel definitions node v) (valid fuel definitions node (normalize v)).
Proof.
  revert node v. induction fuel as [|fuel IH]; intros node v Hf Hw; [done|]. cbn [valid].
  destruct node as [flag|k]; [apply steady_ok|]. destruct (fits_keywords _ _ _ Hf) as [Hs Hr].
  by apply (steady_keywords _ (λ s, fits fuel definitions s = true)).
Qed.

Lemma is_valid_normalize schema v :
  schema_fits schema = true → wf_value v → is_valid schema (normalize v) = is_valid schema v.
Proof. intros Hf Hw. unfold is_valid. by destruct (valid_steady _ _ _ _ Hf Hw) as [<- _]. Qed.

(** ** A checked frame is an accepted frame *)

Lemma utf8_integer i : wf_int i → utf8_valid (to_decimal i) = true.
Proof.
  intros [(Hd & _) _]. apply utf8_ascii.
  assert (H : Forall (λ b, 0 ≤ b < 128) (magnitude i)).
  { eapply Forall_impl; [exact Hd|]. intros b ?%is_digit_bounds. lia. }
  unfold to_decimal. destruct (negative i); [constructor; [lia|]|]; done.
Qed.

Lemma utf8_written text out : write_jstr text = Ok out → utf8_valid out = true.
Proof.
  unfold write_jstr, has_lone_surrogate. destruct (utf8_valid text) eqn:E; [|done]. intros [= <-]. by apply utf8_escape.
Qed.

Lemma sequence_all {T E} (P : T → Prop) (l : list (result T E)) parts :
  Forall (λ r, ∀ out, r = Ok out → P out) l → sequence l = Ok parts → Forall P parts.
Proof.
  intros H. revert parts. unfold sequence. induction H as [|r l Hr _ IH]; intros parts; [by intros [= <-]|]. cbn [result_mapM].
  destruct r as [out|]; [|done]. cbn [result_bind]. destruct (result_mapM _ l) as [outs|]; [|done]. intros [= <-].
  constructor; [by apply Hr|by apply IH].
Qed.

Lemma utf8_encode v out :
  wf_value v → any_node is_float v = false → encode_value v = Ok out → utf8_valid out = true.
Proof.
  revert out. induction v as [|b|i|x|s|items IH|o IH] using Value_nested_ind; intros out Hw Hf He; try done.
  - by injection He as <-.
  - injection He as <-. by destruct b.
  - cbn [encode_value] in He. destruct (Nat.ltb _ _); [done|]. injection He as <-. by apply utf8_integer.
  - by eapply utf8_written.
  - cbn [encode_value] in He. apply result_bind_Ok in He as (parts & Hs & [= <-]). apply wf_array in Hw. apply any_node_children in Hf.
    apply (utf8_valid_both [91]); [done|]. apply utf8_valid_both; [|done]. apply utf8_write_items. eapply sequence_all; [|exact Hs].
    apply Forall_map, Forall_forall. intros v Hv part Hp. rewrite Forall_forall in IH, Hw, Hf. by apply (IH v Hv); auto.
  - cbn [encode_value] in He. apply result_bind_Ok in He as (parts & Hs & [= <-]). apply wf_object in Hw as [_ Hw].
    apply any_node_members in Hf. apply (utf8_valid_both [123]); [done|]. apply utf8_valid_both; [|done]. apply utf8_write_items.
    eapply sequence_all; [|exact Hs]. rewrite sort_members_map. apply Forall_map, Forall_map, sort_members_Forall, Forall_forall.
    intros e Hin part Hp. unfold write_member in Hp. apply result_bind_Ok in Hp as (key & Hk & Hp).
    apply result_bind_Ok in Hp as (member & Hm & [= <-]). rewrite Forall_forall in IH, Hw, Hf.
    apply utf8_valid_both; [by eapply utf8_written|]. apply (utf8_valid_both [58]); [done|]. by apply (IH e Hin); auto.
Qed.

Lemma structure_normalize v schema :
  schema_fits schema = true → wf_value v → check_structure (normalize v) schema = check_structure v schema.
Proof.
  intros Hf Hw. unfold check_structure. rewrite is_valid_normalize by done.
  assert (Hd : ∀ v, depth v = nesting v) by (intros; by apply (walks_are_recursive _ VNull)).
  assert (Hc : ∀ v, contains_float v = any_node is_float v) by (intros; by apply (walks_are_recursive _ VNull)).
  assert (Hk : ∀ v, contains_control v = any_node has_control v) by (intros; by apply (walks_are_recursive _ VNull)).
  rewrite !Hd, !Hc, !Hk, nesting_normalize, !any_node_normalize by (apply is_float_normalize || apply has_control_normalize).
  done.
Qed.

(** The two ends of the wire agree: a well-formed frame that [check_frame] passes, under a schema within its
    evaluation budget, is accepted by [decode_frame] in the bytes [check_frame] measured, as the same value with its
    members sorted by name. *)
Theorem checked_frame_is_accepted frame schema bytes :
  wf_value frame → schema_fits schema = true → check_frame_encoded frame schema = Ok bytes →
  decode_frame (Bytes bytes) schema = Ok (normalize frame).
Proof.
  intros Hw Hfit Hc. unfold check_frame_encoded in Hc. destruct (check_structure frame schema) as [[]|] eqn:Hs; [|done].
  cbn [result_bind] in Hc. destruct (canonical frame) as [out|] eqn:He; [|done]. cbn [result_bind] in Hc.
  destruct (Z.ltb_spec MAX_FRAME_BYTES (Z.of_nat (length out))); [done|]. injection Hc as <-.
  assert (Hf : contains_float frame = false) by by apply check_structure_Ok in Hs as (_ & ? & _).
  rewrite (proj1 (proj2 (proj2 (walks_are_recursive frame VNull)))) in Hf. rewrite canonical_encode in He.
  cbn [decode_frame]. rewrite (proj2 (Z.ltb_ge _ _)) by lia. rewrite (utf8_encode frame out) by done.
  cbn [negb]. rewrite (parse_encoded frame out) by done. cbn [result_bind]. rewrite canonical_encode, encode_normalize, He. cbn [result_bind]. rewrite bool_decide_eq_true_2 by done. cbn [negb].
  by rewrite structure_normalize, Hs.
Qed.

(** [i05_v3_schema], [i07_v3_schema] *)
Definition i05_v3_schema : result Schema SchemaError := schema_from_json I05_V3_SCHEMA.
Definition i07_v3_schema : result Schema SchemaError := schema_from_json I07_V3_SCHEMA.

(** The published I05 schema. *)
Definition I05_schema : Schema := match i05_v3_schema with Ok schema => schema | Err _ => mkSchema (NBool false) [] end.
Example I05_schema_loads : match i05_v3_schema with Ok _ => true | Err _ => false end = true.
Proof. vm_compute. reflexivity. Qed.
Lemma I05_schema_fits : schema_fits I05_schema = true.
Proof. vm_compute. reflexivity. Qed.

(** An opening request, its members in the order the client writes them. *)
Definition opening_doc : Doc :=
  let digits := string_of (replicate 64 49) in
  DObject [("schemaVersion", DStr FRAME_VERSION); ("generation", DStr digits); ("challenge", DStr digits);
           ("sequence", DInt 1); ("previousDigest", DStr ZERO_DIGEST); ("direction", DStr "BROKER_TO_GATE");
           ("operation", DStr "GENERATION_STATUS"); ("payload", DObject [])].
Lemma checked_frame_is_accepted_witness :
  ∃ bytes, check_frame_encoded (doc_to_value opening_doc) I05_schema = Ok bytes ∧
    decode_frame (Bytes bytes) I05_schema = Ok (normalize (doc_to_value opening_doc)).
Proof.
  exists (doc_canonical opening_doc). assert (H : check_frame_encoded (doc_to_value opening_doc) I05_schema = Ok (doc_canonical opening_doc))
    by (vm_compute; reflexivity).
  split; [exact H|]. apply checked_frame_is_accepted; [|exact I05_schema_fits|exact H].
  apply doc_value_wf, wf_doc_object. split; [apply (bool_decide_unpack _); vm_compute; exact I|].
  split; repeat apply Forall_cons_2; try apply Forall_nil_2; try reflexivity. apply wf_doc_object.
  split; [apply NoDup_nil_2|split; constructor].
Defined.
