(* ===== verification/Render.v ===== *)
(** * Request rendering ([host-enforcement/crates/i05-protocol/src/render.rs])

    The armed action's identity, its one permitted I04 request, the action template digest,
    and which upstream statuses decide an outcome. *)

From S2P Require Import Prelude Sha256 Json.
Definition TEMPLATE_VERSION : string := "planeon.internal.effect-gate-template/v1".

Inductive Verb := Create | Get | Delete.
Inductive Kind := Pod | ConfigMap | Service.

#[export] Instance Verb_eq_dec : EqDecision Verb.
Proof. solve_decision. Defined.
#[export] Instance Kind_eq_dec : EqDecision Kind.
Proof. solve_decision. Defined.

Definition Verb_as_str (v : Verb) : string :=
  match v with Create => "CREATE" | Get => "GET" | Delete => "DELETE" end.
Definition Verb_parse (text : string) : option Verb :=
  match text with
  | "CREATE" => Some Create | "GET" => Some Get | "DELETE" => Some Delete
  | _ => None
  end.

Definition Kind_as_str (k : Kind) : string :=
  match k with Pod => "Pod" | ConfigMap => "ConfigMap" | Service => "Service" end.
Definition Kind_plural (k : Kind) : string :=
  match k with Pod => "pods" | ConfigMap => "configmaps" | Service => "services" end.
Definition Kind_parse (text : string) : option Kind :=
  match text with
  | "Pod" => Some Pod | "ConfigMap" => Some ConfigMap | "Service" => Some Service
  | _ => None
  end.

Record Manifest := mkManifest {
  m_api_version : string;
  m_kind : Kind;
  m_namespace : string;
  m_name : string;
  m_digest : string;
  m_size : Z;
}.

Definition identity_of (kind : Kind) (namespace name : string) : string :=
  Kind_as_str kind +:+ "/" +:+ namespace +:+ "/" +:+ name.
Definition Manifest_identity (m : Manifest) : string := identity_of (m_kind m) (m_namespace m) (m_name m).

Record RenderedRequest := mkRendered { r_head : string; r_body_digest : option string }.

Definition delete_options (uid : option string) : list Z :=
  doc_canonical (DObject [("apiVersion", DStr "v1"); ("kind", DStr "DeleteOptions");
                          ("preconditions", DObject [("uid", doc_opt_str uid)])]).

Definition crlf : string := string_of [13; 10].
Definition decimal_str (n : Z) : string := string_of (decimal n).

Definition render_request (verb : Verb) (manifest : Manifest) (uid : option string) (endpoint : string)
    : RenderedRequest :=
  let base := "/api/v1/namespaces/" +:+ m_namespace manifest +:+ "/" +:+ Kind_plural (m_kind manifest) in
  let '(method, target, body) :=
    match verb with
    | Create => ("POST", base, Some (m_digest manifest, m_size manifest))
    | Delete =>
        let options := delete_options uid in
        ("DELETE", base +:+ "/" +:+ m_name manifest, Some (prefixed options, Z.of_nat (length options)))
    | Get => ("GET", base +:+ "/" +:+ m_name manifest, None)
    end in
  let head := method +:+ " " +:+ target +:+ " HTTP/1.1" +:+ crlf +:+ "Host: " +:+ endpoint +:+ crlf
              +:+ "Accept: application/json" +:+ crlf in
  let head := match body with
              | Some (_, length_) =>
                  head +:+ "Content-Type: application/json" +:+ crlf
                  +:+ "Content-Length: " +:+ decimal_str length_ +:+ crlf
              | None => head
              end in
  mkRendered (head +:+ crlf) (fst <$> body).

Definition template_doc (verb : Verb) (api_version : string) (kind : Kind) (namespace name : string)
    (uid : option string) (manifest_digest : string) : Doc :=
  DObject [("schemaVersion", DStr TEMPLATE_VERSION); ("verb", DStr (Verb_as_str verb));
           ("apiVersion", DStr api_version); ("kind", DStr (Kind_as_str kind));
           ("namespace", DStr namespace); ("name", DStr name); ("uid", doc_opt_str uid);
           ("manifestDigest", DStr manifest_digest)].

Definition template_digest (verb : Verb) (api_version : string) (kind : Kind) (namespace name : string)
    (uid : option string) (manifest_digest : string) : string :=
  prefixed (doc_canonical (template_doc verb api_version kind namespace name uid manifest_digest)).

(** Decision 0: whether the response decides the outcome. *)
Definition outcome_is_final (verb : Verb) (status : Z) : bool :=
  let rejected := (400 <=? status) && (status <=? 499) && negb (status =? 408) in
  match verb with
  | Get => true
  | Create => rejected || (status =? 201)
  | Delete => rejected || (status =? 200) || (status =? 202) || (status =? 404)
  end.

(** ** The source's vectors *)

Definition pod : Manifest :=
  mkManifest "v1" Pod "planeon-qual" "probe-pod"
    "sha256:1111111111111111111111111111111111111111111111111111111111111111" 1234.

Example template_digests_of_the_vectors :
  (template_digest Create "v1" Pod "planeon-qual" "probe-pod" None (m_digest pod),
   template_digest Get "v1" Pod "planeon-qual" "probe-pod" None (m_digest pod),
   template_digest Delete "v1" Pod "planeon-qual" "probe-pod"
     (Some "11111111-aaaa-4bbb-8ccc-000000000001") (m_digest pod))
  = ("sha256:3a27a2635d71e1c068c2be15e3f027bec15470b7ec035fd421bb51179337f57c",
     "sha256:815309fdb6f3da836521fc354b0fa853941e82501260e1e58117896a962780e0",
     "sha256:f1e8a5ef962479a3889c694d36628ca36196f1abd9fd2670cf098419c24e06c0").
Proof. vm_compute. reflexivity. Qed.

Example renders_the_delete_request :
  r_body_digest (render_request Delete pod (Some "11111111-aaaa-4bbb-8ccc-000000000001") "198.51.100.7:6443")
  = Some "sha256:5d6108ae37bf0e01ce0c94ebeddd9d327604b40e6f40d7d87a920454f45914b1".
Proof. vm_compute. reflexivity. Qed.
