(* ===== verification/Mapping.v ===== *)
(** * The outcome mapping ([host-enforcement/crates/i05-protocol/src/mapping.rs])

    The ACTION_OUTCOME to RESOURCE_RESULT agreement table: its reader, and [check_agreement], which compares the gate's
    outcome with the worker's resource result as Python values.  The theorem: when they agree, and that nothing else
    does. *)

From S2P Require Import Prelude Contracts Slices Base64 Json Frame Render.
Definition MAPPING_VERSION : string := "planeon.internal.effect-gate-outcome-mapping/v2".

Module Mismatch.
Inductive t := M00 | M01 | M02 | M03 | M04 | M05 | M06 | M07.
#[global] Instance t_eq_dec : EqDecision t.
Proof. solve_decision. Defined.
Definition code (m : t) : string :=
  match m with
  | M00 => "M00" | M01 => "M01" | M02 => "M02" | M03 => "M03"
  | M04 => "M04" | M05 => "M05" | M06 => "M06" | M07 => "M07"
  end.
Definition message (m : t) : string :=
  match m with
  | M00 => "M00 no usable ACTION_OUTCOME"
  | M01 => "M01 action identifiers differ"
  | M02 => "M02 no mapping row for this outcome"
  | M03 => "M03 resource result outside the mapped outcomes"
  | M04 => "M04 object reported where the mapping requires none"
  | M05 => "M05 reported object missing or not strictly decodable"
  | M06 => "M06 reported object identity differs from the armed action"
  | M07 => "M07 reported object UID or resourceVersion differs from the gate's observation"
  end.
End Mismatch.

(** The armed template's identity. *)
Record Identity := mkIdentity { id_api_version : string; id_kind : Kind; id_namespace : string; id_name : string }.

Module StatusRule.
Inductive t := Null | Exact (status : Int) | Class (low high : Z).
End StatusRule.
Module ObjectRule.
Inductive t := IdentityMatch | DeleteBodyIfPresent | Any | Null.
#[global] Instance t_eq_dec : EqDecision t.
Proof. solve_decision. Defined.
End ObjectRule.
Module BodyKind.
Inductive t := Object_ | Status.
#[global] Instance t_eq_dec : EqDecision t.
Proof. solve_decision. Defined.
End BodyKind.

Record Row := mkRow {
  row_verb : option Verb;
  row_classification : string;
  row_status_rule : StatusRule.t;
  row_exclude : list Value;
  row_results : list string;
  row_object : ObjectRule.t;
}.
Record OutcomeMapping := mkMapping {
  om_rows : list Row;
  om_pod : BodyKind.t;
  om_config_map : BodyKind.t;
  om_service : BodyKind.t;
}.

Abbreviation mapping A := (result A string).

(** ** The table's reader *)

Fixpoint string_items (items : list Value) (what : string) : mapping (list string) :=
  match items with
  | [] => Ok []
  | item :: items =>
      match as_str item with
      | None => Err what
      | Some text => let? texts := string_items items what in Ok (text :: texts)
      end
  end.
Definition strings (value : option Value) (what : string) : mapping (list string) :=
  match (let* value := value in as_array value) with
  | None => Err what
  | Some items => string_items items what
  end.

Definition member_str (value : Value) (key : string) : option string := let* found := value_get value key in as_str found.
Definition is_int_value (value : Value) : bool := match value with VInt _ => true | _ => false end.

Definition row_from_value (row : Value) : mapping Row :=
  let? verb :=
    match member_str row "verb" with
    | Some "*" => Ok None
    | Some text => match Verb_parse text with Some verb => Ok (Some verb) | None => Err "row verb" end
    | None => Err "row verb"
    end in
  let? classification := result_of_option (member_str row "classification") "row classification" in
  let? status :=
    match value_get row "httpStatus" with
    | Some VNull => Ok StatusRule.Null
    | Some (VInt int) => Ok (StatusRule.Exact int)
    | Some (VStr text) =>
        match jstr_as_str text with
        | Some "4xx" => Ok (StatusRule.Class 400 499)
        | Some "5xx" => Ok (StatusRule.Class 500 599)
        | _ => Err "row status class"
        end
    | _ => Err "row status"
    end in
  let? exclude := result_of_option (let* found := value_get row "excludeStatus" in as_array found) "row excludeStatus" in
  if negb (forallb is_int_value exclude) then Err "row excludeStatus"
  else
    let? object :=
      match member_str row "object" with
      | Some "IDENTITY_MATCH" => Ok ObjectRule.IdentityMatch
      | Some "DELETE_BODY_IF_PRESENT" => Ok ObjectRule.DeleteBodyIfPresent
      | Some "ANY" => Ok ObjectRule.Any
      | Some "NULL" => Ok ObjectRule.Null
      | _ => Err "row object rule"
      end in
    let? results := strings (value_get row "resourceResults") "row resourceResults" in
    Ok (mkRow verb classification status exclude results object).

Fixpoint rows_from_values (rows : list Value) : mapping (list Row) :=
  match rows with
  | [] => Ok []
  | row :: rows => let? row := row_from_value row in let? rows := rows_from_values rows in Ok (row :: rows)
  end.

Definition body_from_value (document : Value) (kind : string) : mapping BodyKind.t :=
  match (let* table := value_get document "deleteResponseBody" in member_str table kind) with
  | Some "OBJECT" => Ok BodyKind.Object_
  | Some "STATUS" => Ok BodyKind.Status
  | _ => Err "deleteResponseBody must name every kind"
  end.

Definition OutcomeMapping_from_value (document : Value) : mapping OutcomeMapping :=
  if negb (bool_decide (member_str document "schemaVersion" = Some MAPPING_VERSION)) then Err "not an outcome mapping v2"
  else
    let? rows := result_of_option (let* found := value_get document "rows" in as_array found) "rows" in
    let? parsed := rows_from_values rows in
    let? pod := body_from_value document "Pod" in
    let? config_map := body_from_value document "ConfigMap" in
    let? service := body_from_value document "Service" in
    Ok (mkMapping parsed pod config_map service).

Definition OutcomeMapping_from_json (raw : list Z) : mapping OutcomeMapping :=
  if negb (utf8_valid raw) then Err "mapping is not UTF-8"
  else
    match parse raw with
    | Err _ => Err "mapping is not JSON"
    | Ok document => OutcomeMapping_from_value document
    end.

(** ** Agreement *)

Definition body_kind (m : OutcomeMapping) (kind : Kind) : BodyKind.t :=
  match kind with Pod => om_pod m | ConfigMap => om_config_map m | Service => om_service m end.

(** Python [object.get(key)]: a missing member reads as [None]. *)
Definition read_member (object : Object) (key : string) : Value := default VNull (object_get object (jstr key)).
Definition eq_str (value : Value) (text : string) : bool := py_eq value (value_str text).

(** How a numeric status compares with a bound; [None] for a status that is not a number (or a NaN). *)
Definition status_cmp (status : Value) (bound : Z) : option comparison :=
  match status with
  | VInt int => Some (int_cmp int (int_from_i64 bound))
  | VBool flag => Some ((if flag then 1 else 0) ?= bound)
  | VFloat x => CompOpp <$> cmp_f64 (int_from_i64 bound) x
  | _ => None
  end.
Definition in_class (status : Value) (low high : Z) : bool :=
  match status_cmp status low with Some (Gt | Eq) => true | _ => false end
  && match status_cmp status high with Some (Lt | Eq) => true | _ => false end.

Definition row_status (row : Row) (status : Value) (exact : bool) : bool :=
  match row_status_rule row, is_null status with
  | StatusRule.Null, true => true
  | StatusRule.Null, false | _, true => false
  | StatusRule.Exact rule, false => exact && py_eq (VInt rule) status
  | StatusRule.Class low high, false =>
      negb exact && in_class status low high && negb (existsb (λ excluded, py_eq excluded status) (row_exclude row))
  end.

(** Agreement-mode decoding of [objectBase64]. *)
Definition decode_object (data : Value) : option Value :=
  match data with
  | VStr text =>
      if negb (forallb (λ byte, byte <? 128) text) then None
      else
        let* raw := decode_strict text in
        if negb (utf8_valid raw) then None
        else
          match parse raw with
          | Ok (VObject members) => if Nat.ltb MAX_DEPTH (depth (VObject members)) then None else Some (VObject members)
          | _ => None
          end
  | _ => None
  end.

Definition row_applies (verb : Verb) (classification : Value) (row : Row) : bool :=
  match row_verb row with Some row_verb => bool_decide (row_verb = verb) | None => true end
  && py_eq (value_str (row_classification row)) classification.

(** The rows of the verb and classification, the exact ones first: the row, when there is exactly one. *)
Definition matched_row (m : OutcomeMapping) (verb : Verb) (classification status : Value) : option Row :=
  let candidates := List.filter (row_applies verb classification) (om_rows m) in
  let exact := List.filter (λ row, row_status row status true) candidates in
  let matched := match exact with [] => List.filter (λ row, row_status row status false) candidates | _ => exact end in
  match matched with [row] => Some row | _ => None end.

(** A completed deletion's [Status]. *)
Definition check_status_body (identity : Identity) (outcome : Object) (data : Value) : option Mismatch.t :=
  match decode_object data with
  | None => Some Mismatch.M05
  | Some value =>
      match (let* details := value_get value "details" in as_object details) with
      | None => Some Mismatch.M05
      | Some details =>
          let value := default [] (as_object value) in
          if negb (eq_str (read_member value "kind") "Status" && eq_str (read_member value "status") "Success")
          then Some Mismatch.M05
          else if negb (eq_str (read_member details "name") (id_name identity)
                        && eq_str (read_member details "kind") (Kind_plural (id_kind identity))) then Some Mismatch.M06
          else if negb (py_eq (read_member details "uid") (read_member outcome "observedUid"))
                  || negb (is_null (read_member outcome "observedResourceVersion")) then Some Mismatch.M07
          else None
      end
  end.

(** The reported object. *)
Definition check_object_body (identity : Identity) (outcome : Object) (data : Value) : option Mismatch.t :=
  match (let* value := (if negb (is_null data) then decode_object data else None) in as_object value) with
  | None => Some Mismatch.M05
  | Some value =>
      let metadata := default [] (let* found := object_get value (jstr "metadata") in as_object found) in
      if negb (eq_str (read_member value "apiVersion") (id_api_version identity)
               && eq_str (read_member value "kind") (Kind_as_str (id_kind identity))
               && eq_str (read_member metadata "namespace") (id_namespace identity)
               && eq_str (read_member metadata "name") (id_name identity)) then Some Mismatch.M06
      else if negb (py_eq (read_member metadata "uid") (read_member outcome "observedUid"))
              || negb (py_eq (read_member metadata "resourceVersion") (read_member outcome "observedResourceVersion"))
      then Some Mismatch.M07
      else None
  end.

(** [None] when the outcome and the resource result agree, otherwise the first refusal. *)
Definition check_agreement (m : OutcomeMapping) (verb : Verb) (identity : Identity) (outcome result : Value)
    : option Mismatch.t :=
  match as_object outcome with
  | None => Some Mismatch.M00
  | Some outcome =>
      if negb (match object_get outcome (jstr "result") with Some v => py_eq v (value_str "OK") | None => false end)
      then Some Mismatch.M00
      else
        match as_object result with
        | None => Some Mismatch.M01
        | Some result =>
            if negb (py_eq (read_member result "actionId") (read_member outcome "actionId")) then Some Mismatch.M01
            else
              match matched_row m verb (read_member outcome "classification") (read_member outcome "httpStatus") with
              | None => Some Mismatch.M02
              | Some row =>
                  if negb (existsb (λ name, eq_str (read_member result "outcome") name) (row_results row)) then Some Mismatch.M03
                  else
                    let data := read_member result "objectBase64" in
                    let present := negb (is_null data) in
                    if bool_decide (row_object row = ObjectRule.Null) && present then Some Mismatch.M04
                    else if bool_decide (row_object row = ObjectRule.DeleteBodyIfPresent) && present
                            && bool_decide (body_kind m (id_kind identity) = BodyKind.Status)
                    then check_status_body identity outcome data
                    else if bool_decide (row_object row = ObjectRule.IdentityMatch)
                            || (bool_decide (row_object row = ObjectRule.DeleteBodyIfPresent) && present)
                    then check_object_body identity outcome data
                    else None
              end
        end
  end.

(** ** What agreement is *)

(** The one row that decides an outcome: the one exact row, or without an exact row the one row of its class. *)
Definition applies (m : OutcomeMapping) (verb : Verb) (classification status : Value) (exact : bool) (row : Row) : Prop :=
  row ∈ om_rows m ∧ row_applies verb classification row = true ∧ row_status row status exact = true.
Definition only_row (m : OutcomeMapping) (verb : Verb) (classification status : Value) (exact : bool) (row : Row) : Prop :=
  ∃ before after, om_rows m = before ++ row :: after ∧ applies m verb classification status exact row ∧
    ∀ other, other ∈ before ++ after → row_applies verb classification other && row_status other status exact = false.
Definition decides (m : OutcomeMapping) (verb : Verb) (classification status : Value) (row : Row) : Prop :=
  only_row m verb classification status true row ∨
  (∀ other, ¬ applies m verb classification status true other) ∧ only_row m verb classification status false row.

(** The reported object is the armed action's, with the UID and resourceVersion the gate observed. *)
Definition object_agrees (identity : Identity) (outcome : Object) (data : Value) : Prop :=
  ∃ value, decode_object data = Some (VObject value) ∧
    let metadata := default [] (let* found := object_get value (jstr "metadata") in as_object found) in
    eq_str (read_member value "apiVersion") (id_api_version identity) = true ∧
    eq_str (read_member value "kind") (Kind_as_str (id_kind identity)) = true ∧
    eq_str (read_member metadata "namespace") (id_namespace identity) = true ∧
    eq_str (read_member metadata "name") (id_name identity) = true ∧
    py_eq (read_member metadata "uid") (read_member outcome "observedUid") = true ∧
    py_eq (read_member metadata "resourceVersion") (read_member outcome "observedResourceVersion") = true.
(** The reported [Status] names the armed action's object as deleted. *)
Definition status_agrees (identity : Identity) (outcome : Object) (data : Value) : Prop :=
  ∃ value details, decode_object data = Some (VObject value) ∧ object_get value (jstr "details") = Some (VObject details) ∧
    eq_str (read_member value "kind") "Status" = true ∧ eq_str (read_member value "status") "Success" = true ∧
    eq_str (read_member details "name") (id_name identity) = true ∧
    eq_str (read_member details "kind") (Kind_plural (id_kind identity)) = true ∧
    py_eq (read_member details "uid") (read_member outcome "observedUid") = true ∧
    read_member outcome "observedResourceVersion" = VNull.
Definition body_agrees (m : OutcomeMapping) (identity : Identity) (outcome : Object) (rule : ObjectRule.t) (data : Value) : Prop :=
  match rule with
  | ObjectRule.Any => True
  | ObjectRule.Null => data = VNull
  | ObjectRule.IdentityMatch => object_agrees identity outcome data
  | ObjectRule.DeleteBodyIfPresent =>
      data = VNull ∨
      match body_kind m (id_kind identity) with
      | BodyKind.Status => status_agrees identity outcome data
      | BodyKind.Object_ => object_agrees identity outcome data
      end
  end.

Lemma is_null_spec v : is_null v = true ↔ v = VNull.
Proof. by destruct v. Qed.

Lemma decoded_object data v : decode_object data = Some v → ∃ members, v = VObject members.
Proof.
  unfold decode_object. destruct data as [| | | |text| |]; try done. destruct (negb _); [done|].
  destruct (decode_strict text) as [raw|]; [|done]. cbn [mbind option_bind]. destruct (negb _); [done|].
  destruct (parse raw) as [[| | | | | |members]|]; try done. destruct (Nat.ltb _ _); [done|]. intros [= <-]. eauto.
Qed.
Lemma decoded_null : decode_object VNull = None.
Proof. done. Qed.

Lemma check_object_body_spec identity outcome data :
  check_object_body identity outcome data = None ↔ object_agrees identity outcome data.
Proof.
  unfold check_object_body, object_agrees.
  assert ((if negb (is_null data) then decode_object data else None) = decode_object data) as ->
    by (destruct data; done).
  destruct (decode_object data) as [v|] eqn:Ed; cbn [mbind option_bind]; [|by split; [|intros (v & ? & _)]].
  destruct (decoded_object data v Ed) as [members ->]. cbn [as_object].
  set (metadata := default [] _). split.
  - destruct (_ && _) eqn:E1; cbn [negb]; [|done]. destruct (_ || _) eqn:E2; [done|]. intros _.
    apply andb_prop in E1 as [[[H1 H2]%andb_prop H3]%andb_prop H4].
    apply orb_false_iff in E2 as [H5%negb_false_iff H6%negb_false_iff]. by exists members.
  - intros (value & [= <-] & H1 & H2 & H3 & H4 & H5 & H6). fold metadata in H3, H4, H5, H6.
    by rewrite H1, H2, H3, H4, H5, H6.
Qed.

Lemma check_status_body_spec identity outcome data :
  check_status_body identity outcome data = None ↔ status_agrees identity outcome data.
Proof.
  unfold check_status_body, status_agrees.
  destruct (decode_object data) as [v|] eqn:Ed; [|by split; [|intros (v & d & ? & _)]].
  destruct (decoded_object data v Ed) as [members ->]. cbn [as_object default from_option]. unfold value_get, id. cbn [as_object mbind option_bind].
  destruct (object_get members (jstr "details")) as [found|] eqn:Ef; cbn [mbind option_bind].
  2:{ split; [done|]. intros (value & details & [= <-] & H & _). congruence. }
  destruct found as [| | | | | |details]; cbn [as_object];
    try (split; [done|intros (value & d & [= <-] & H & _); congruence]). split.
  - destruct (_ && _) eqn:E1; cbn [negb]; [|done].
    destruct (eq_str (read_member details "name") _ && _) eqn:E2; cbn [negb]; [|done].
    destruct (_ || _) eqn:E3; [done|]. intros _. apply andb_prop in E1 as [H1 H2], E2 as [H3 H4].
    apply orb_false_iff in E3 as [H5%negb_false_iff H6%negb_false_iff%is_null_spec]. by exists members, details.
  - intros (value & d & [= <-] & Hd & H1 & H2 & H3 & H4 & H5 & H6). rewrite Ef in Hd. injection Hd as <-.
    by rewrite H1, H2, H3, H4, H5, H6.
Qed.

(** ** The deciding row *)

Lemma filter_single {A} (f : A → bool) l x :
  List.filter f l = [x] ↔
  ∃ before after, l = before ++ x :: after ∧ f x = true ∧ ∀ y, y ∈ before ++ after → f y = false.
Proof.
  split.
  - revert x. induction l as [|y l IH]; intros x; cbn [List.filter]; [done|]. destruct (f y) eqn:Ey.
    + intros [= <- Hn]. exists [], l. split; [done|]. split; [done|]. intros z Hz. cbn in Hz.
      destruct (f z) eqn:Ez; [|done]. apply list_elem_of_In in Hz. assert (In z (List.filter f l)) as Hin by (by apply filter_In).
      by rewrite Hn in Hin.
    + intros (before & after & -> & Hx & Hr)%IH. exists (y :: before), after. split; [done|]. split; [done|].
      intros z [->|Hz]%elem_of_cons; [done|]. by apply Hr.
  - intros (before & after & -> & Hx & Hr). rewrite List.filter_app. cbn [List.filter]. rewrite Hx.
    assert (∀ l, (∀ y, y ∈ l → f y = false) → List.filter f l = []) as Hnil.
    { clear. induction l as [|y l IH]; intros H; [done|]. cbn. rewrite (H y) by left. apply IH. intros z Hz. apply H. by right. }
    rewrite !Hnil; [done|intros y Hy; apply Hr, elem_of_app; auto..].
Qed.

Lemma filter_filter {A} (f g : A → bool) l : List.filter g (List.filter f l) = List.filter (λ x, f x && g x) l.
Proof.
  induction l as [|x l IH]; [done|]. cbn [List.filter]. destruct (f x); cbn [List.filter andb]; [destruct (g x); by rewrite IH|done].
Qed.

Lemma only_row_filter m verb classification status exact row :
  List.filter (λ row, row_applies verb classification row && row_status row status exact) (om_rows m) = [row] ↔
  only_row m verb classification status exact row.
Proof.
  rewrite filter_single. unfold only_row, applies. split.
  - intros (before & after & Hl & Hx & Hr). exists before, after. split; [done|]. apply andb_prop in Hx as [Ha Hs].
    split; [|done]. split; [|done]. rewrite Hl. apply elem_of_app. right. left.
  - intros (before & after & Hl & (_ & Ha & Hs) & Hr). exists before, after. split; [done|]. by rewrite Ha, Hs.
Qed.

Lemma matched_row_spec m verb classification status row :
  matched_row m verb classification status = Some row ↔ decides m verb classification status row.
Proof.
  unfold matched_row, decides. rewrite !filter_filter, <-!only_row_filter.
  set (exact := List.filter (λ row, row_applies verb classification row && row_status row status true) (om_rows m)).
  set (class := List.filter (λ row, row_applies verb classification row && row_status row status false) (om_rows m)).
  assert ((∀ other, ¬ applies m verb classification status true other) ↔ exact = []) as ->.
  { split.
    - intros Hn. destruct exact as [|x l] eqn:E; [done|]. exfalso. apply (Hn x).
      assert (In x exact) as [Hin Hx]%filter_In by (rewrite E; by left). apply andb_prop in Hx as [? ?].
      split; [by apply list_elem_of_In|done].
    - intros He other (Hin & Ha & Hs). assert (In other exact) as Hx; [|by rewrite He in Hx].
      apply filter_In. split; [by apply list_elem_of_In|by rewrite Ha, Hs]. }
  destruct exact as [|x [|y l]].
  - destruct class as [|x [|y l]]; (split; [intros [= <-]; auto|intros [?|[_ ?]]; congruence]) || (split; [done|intros [?|[_ ?]]; congruence]).
  - split; [intros [= <-]; auto|intros [?|[? _]]; congruence].
  - split; [done|intros [?|[? _]]; congruence].
Qed.

(** Computes the comparisons between constructors in the goal. *)
Ltac decide_rules :=
  repeat match goal with
    | |- context [bool_decide (?a = ?b)] =>
        first [rewrite (bool_decide_eq_true_2 (a = b)) by done | rewrite (bool_decide_eq_false_2 (a = b)) by done]
    end;
  cbn [andb orb negb].

(** [C37] When the broker accepts a worker's resource result for the gate's outcome: both are objects, the outcome is OK,
    the action numbers are equal (as Python compares them), exactly one row decides the outcome's classification and
    status (an exact row before a class row, a "*" row for every verb), the reported outcome is one that row permits,
    and the reported object is what the row requires: none, anything, or the object (for a ConfigMap's deletion the
    [Status]) with the armed identity and the UID and resourceVersion the gate observed. *)
Theorem agreement_is_decided m verb identity outcome result :
  check_agreement m verb identity outcome result = None ↔
  ∃ o r ok row name,
    outcome = VObject o ∧ result = VObject r ∧
    object_get o (jstr "result") = Some ok ∧ py_eq ok (value_str "OK") = true ∧
    py_eq (read_member r "actionId") (read_member o "actionId") = true ∧
    decides m verb (read_member o "classification") (read_member o "httpStatus") row ∧
    name ∈ row_results row ∧ eq_str (read_member r "outcome") name = true ∧
    body_agrees m identity o (row_object row) (read_member r "objectBase64").
Proof.
  unfold check_agreement. split.
  - destruct outcome as [| | | | | |o]; try done. cbn [as_object].
    destruct (object_get o (jstr "result")) as [ok|] eqn:Er; [|done]. destruct (py_eq ok _) eqn:Eok; [|done]. cbn [negb].
    destruct result as [| | | | | |r]; try done. cbn [as_object].
    destruct (py_eq (read_member r "actionId") _) eqn:Ea; [|done]. cbn [negb].
    destruct (matched_row _ _ _ _) as [row|] eqn:Em; [|done]. apply matched_row_spec in Em.
    destruct (existsb _ (row_results row)) eqn:Ee; [|done]. cbn [negb].
    apply existsb_exists in Ee as (name & Hin%list_elem_of_In & Hname). intros H.
    exists o, r, ok, row, name. repeat (split; [done|]). unfold body_agrees.
    revert H. destruct (row_object row) eqn:Eo; decide_rules; intros H.
    + by apply check_object_body_spec.
    + destruct (is_null (read_member r "objectBase64")) eqn:En; [left; by apply is_null_spec|right].
      revert H. cbn [negb andb]. destruct (body_kind m (id_kind identity)); decide_rules; [by apply check_object_body_spec|by apply check_status_body_spec].
    + done.
    + destruct (is_null (read_member r "objectBase64")) eqn:En; [by apply is_null_spec|done].
  - intros (o & r & ok & row & name & -> & -> & Hr & Hok & Ha & Hd%matched_row_spec & Hin & Hname & Hb). cbn [as_object].
    rewrite Hr, Hok, Ha, Hd. cbn [negb].
    assert (existsb (λ name, eq_str (read_member r "outcome") name) (row_results row) = true) as ->.
    { apply existsb_exists. exists name. split; [by apply list_elem_of_In|done]. }
    cbn [negb]. unfold body_agrees in Hb. destruct (row_object row).
    + decide_rules. by apply check_object_body_spec.
    + decide_rules. destruct Hb as [->|Hb]; [done|].
      destruct (is_null (read_member r "objectBase64")) eqn:En; [by apply is_null_spec in En as ->|]. cbn [negb andb].
      destruct (body_kind m (id_kind identity)); decide_rules; [by apply check_object_body_spec|by apply check_status_body_spec].
    + by decide_rules.
    + rewrite Hb. by decide_rules.
Qed.

(** ** The published table *)

(** [OutcomeMapping::i05_v3] *)
Definition OutcomeMapping_i05_v3 : mapping OutcomeMapping := OutcomeMapping_from_json I05_V3_OUTCOME_MAPPING.

(** A JSON text written with single quotes. *)
Definition quoted (text : string) : list Z := map (λ byte, if byte =? 39 then 34 else byte) (bytes_of text).
Definition published_check (verb : Verb) (kind : Kind) (outcome result : list Z) : option (option Mismatch.t) :=
  match OutcomeMapping_i05_v3, parse outcome, parse result with
  | Ok m, Ok outcome, Ok result =>
      Some (check_agreement m verb (mkIdentity "v1" kind "planeon-qual" "probe") outcome result)
  | _, _, _ => None
  end.
Definition outcome_text (fields : string) : list Z := quoted ("{'result':'OK','actionId':1," ++ fields ++ "}").
Definition result_with (outcome : string) (object : list Z) : list Z :=
  quoted ("{'actionId':1,'outcome':'" ++ outcome ++ "','objectBase64':'") ++ bytes_of (encode object) ++ quoted "'}".

Example absent_agrees :
  published_check Get Pod (outcome_text "'classification':'DELIVERED_RESULT','httpStatus':404.0")
    (quoted "{'actionId':true,'outcome':'ABSENT'}") = Some None.
Proof. vm_compute. reflexivity. Qed.
Example server_error_has_no_row_for_create :
  published_check Create Pod (outcome_text "'classification':'DELIVERED_RESULT','httpStatus':500")
    (quoted "{'actionId':1,'outcome':'AMBIGUOUS'}") = Some (Some Mismatch.M02).
Proof. vm_compute. reflexivity. Qed.
Example timeout_is_no_denial :
  published_check Delete Pod (outcome_text "'classification':'DELIVERED_RESULT','httpStatus':408")
    (quoted "{'actionId':1,'outcome':'DENIED'}") = Some (Some Mismatch.M02).
Proof. vm_compute. reflexivity. Qed.
Example created_object_agrees :
  published_check Create Pod
    (outcome_text "'classification':'DELIVERED_RESULT','httpStatus':201,'observedUid':'u-1','observedResourceVersion':'7'")
    (result_with "CREATED"
       (quoted "{'apiVersion':'v1','kind':'Pod','metadata':{'namespace':'planeon-qual','name':'probe','uid':'u-1','resourceVersion':'7'}}"))
  = Some None.
Proof. vm_compute. reflexivity. Qed.
Example other_uid_disagrees :
  published_check Create Pod
    (outcome_text "'classification':'DELIVERED_RESULT','httpStatus':201,'observedUid':'u-1','observedResourceVersion':'7'")
    (result_with "CREATED"
       (quoted "{'apiVersion':'v1','kind':'Pod','metadata':{'namespace':'planeon-qual','name':'probe','uid':'u-2','resourceVersion':'7'}}"))
  = Some (Some Mismatch.M07).
Proof. vm_compute. reflexivity. Qed.
Example config_map_deletion_is_a_status :
  published_check Delete ConfigMap
    (outcome_text "'classification':'DELIVERED_RESULT','httpStatus':200,'observedUid':'u-1','observedResourceVersion':null")
    (result_with "DELETED"
       (quoted "{'kind':'Status','status':'Success','details':{'name':'probe','kind':'configmaps','uid':'u-1'}}"))
  = Some None.
Proof. vm_compute. reflexivity. Qed.
