(* ===== verification/Types.v ===== *)
(** * The gate's closed vocabularies ([host-enforcement/crates/effect-gate/src/types.rs])

    One Module per enum, so a constructor reads as in the source ([State.Held],
    [Classification.IoAmbiguous]).  The state's strictness order, which the gate's theorems use,
    is at the end. *)

From S2P Require Import Prelude Frame.
Module State.
Inductive t := Inspecting | Active | Draining | Closed | Invalidated | Held.
#[global] Instance t_eq_dec : EqDecision t.
Proof. solve_decision. Defined.
Definition as_str (s : t) : string :=
  match s with
  | Inspecting => "INSPECTING" | Active => "ACTIVE" | Draining => "DRAINING"
  | Closed => "CLOSED" | Invalidated => "INVALIDATED" | Held => "HELD"
  end.
Definition parse (text : string) : option t :=
  match text with
  | "INSPECTING" => Some Inspecting
  | "ACTIVE" => Some Active
  | "DRAINING" => Some Draining
  | "CLOSED" => Some Closed
  | "INVALIDATED" => Some Invalidated
  | "HELD" => Some Held
  | _ => None
  end.
End State.

Module Classification.
Inductive t := NotForwarded | DeliveredResult | IoAmbiguous.
#[global] Instance t_eq_dec : EqDecision t.
Proof. solve_decision. Defined.
Definition as_str (c : t) : string :=
  match c with
  | NotForwarded => "NOT_FORWARDED"
  | DeliveredResult => "DELIVERED_RESULT"
  | IoAmbiguous => "IO_AMBIGUOUS"
  end.
End Classification.

Module CloseReason.
Inductive t :=
| NormalDrain | Revocation | Expiry | PeerFailure | StorageFailure | ObservationFailure
| ReconciliationRequired.
#[global] Instance t_eq_dec : EqDecision t.
Proof. solve_decision. Defined.
Definition as_str (r : t) : string :=
  match r with
  | NormalDrain => "NORMAL_DRAIN" | Revocation => "REVOCATION" | Expiry => "EXPIRY"
  | PeerFailure => "PEER_FAILURE" | StorageFailure => "STORAGE_FAILURE"
  | ObservationFailure => "OBSERVATION_FAILURE"
  | ReconciliationRequired => "RECONCILIATION_REQUIRED"
  end.
Definition parse (text : string) : option t :=
  match text with
  | "NORMAL_DRAIN" => Some NormalDrain
  | "REVOCATION" => Some Revocation
  | "EXPIRY" => Some Expiry
  | "PEER_FAILURE" => Some PeerFailure
  | "STORAGE_FAILURE" => Some StorageFailure
  | "OBSERVATION_FAILURE" => Some ObservationFailure
  | "RECONCILIATION_REQUIRED" => Some ReconciliationRequired
  | _ => None
  end.
End CloseReason.

Module FatalReason.
Inductive t :=
| InvalidFrame (e : FrameError)
| Direction | ChainBroken | GenerationMismatch | OpeningFrameRequired | ChallengeMismatch
| PeerQualificationMismatch | PeerLost | PeerChanged | ResponseOutOfBounds | AnswerLate.
#[global] Instance t_eq_dec : EqDecision t.
Proof. solve_decision. Defined.
Definition as_str (r : t) : string :=
  match r with
  | InvalidFrame F00 => "F00_INVALID_FRAME"
  | InvalidFrame F01 => "F01_INVALID_FRAME"
  | InvalidFrame F02 => "F02_INVALID_FRAME"
  | InvalidFrame F03 => "F03_INVALID_FRAME"
  | InvalidFrame F04 => "F04_INVALID_FRAME"
  | InvalidFrame F05 => "F05_INVALID_FRAME"
  | InvalidFrame F06 => "F06_INVALID_FRAME"
  | InvalidFrame F07 => "F07_INVALID_FRAME"
  | Direction => "DIRECTION"
  | ChainBroken => "CHAIN_BROKEN"
  | GenerationMismatch => "GENERATION_MISMATCH"
  | OpeningFrameRequired => "OPENING_FRAME_REQUIRED"
  | ChallengeMismatch => "CHALLENGE_MISMATCH"
  | PeerQualificationMismatch => "PEER_QUALIFICATION_MISMATCH"
  | PeerLost => "PEER_LOST"
  | PeerChanged => "PEER_CHANGED"
  | ResponseOutOfBounds => "RESPONSE_OUT_OF_BOUNDS"
  | AnswerLate => "ANSWER_LATE"
  end.
End FatalReason.

Module Invalidation.
Inductive t := Close (reason : CloseReason.t) | Fatal (reason : FatalReason.t) | WriterPeerDeviation.
#[global] Instance t_eq_dec : EqDecision t.
Proof. solve_decision. Defined.
Definition as_str (i : t) : string :=
  match i with
  | Close reason => CloseReason.as_str reason
  | Fatal reason => FatalReason.as_str reason
  | WriterPeerDeviation => "WRITER_PEER_DEVIATION"
  end.
End Invalidation.

Module Maintenance.
Inductive t := NotBegun | Pending | Open | Held | Ended.
#[global] Instance t_eq_dec : EqDecision t.
Proof. solve_decision. Defined.
Definition as_str (m : t) : string :=
  match m with
  | NotBegun => "NONE" | Pending => "PENDING" | Open => "OPEN" | Held => "HELD" | Ended => "ENDED"
  end.
End Maintenance.

Module SessionEnd.
Inductive t := Ended | Fatal.
#[global] Instance t_eq_dec : EqDecision t.
Proof. solve_decision. Defined.
Definition as_str (e : t) : string := match e with Ended => "ENDED" | Fatal => "FATAL" end.
End SessionEnd.

Module MaintenanceEnd.
Inductive t := WriteEnd | Session (how : SessionEnd.t).
#[global] Instance t_eq_dec : EqDecision t.
Proof. solve_decision. Defined.
Definition as_str (e : t) : string :=
  match e with
  | WriteEnd => "WRITE_END"
  | Session SessionEnd.Ended => "SESSION_ENDED"
  | Session SessionEnd.Fatal => "SESSION_FATAL"
  end.
End MaintenanceEnd.

Module MaintenanceReason.
Inductive t := Ended (how : MaintenanceEnd.t) | GateRestart | GenerationRebuilt.
#[global] Instance t_eq_dec : EqDecision t.
Proof. solve_decision. Defined.
Definition as_str (r : t) : string :=
  match r with
  | Ended how => MaintenanceEnd.as_str how
  | GateRestart => "GATE_RESTART"
  | GenerationRebuilt => "GENERATION_REBUILT"
  end.
End MaintenanceReason.

Module AbortReason.
Inductive t := WriterChannelLost | WriterPeerDeviation | WriterProtocolFailure | UpstreamTimeout.
#[global] Instance t_eq_dec : EqDecision t.
Proof. solve_decision. Defined.
Definition as_str (r : t) : string :=
  match r with
  | WriterChannelLost => "WRITER_CHANNEL_LOST"
  | WriterPeerDeviation => "WRITER_PEER_DEVIATION"
  | WriterProtocolFailure => "WRITER_PROTOCOL_FAILURE"
  | UpstreamTimeout => "UPSTREAM_TIMEOUT"
  end.
End AbortReason.

Module DrainAnswer.
Inductive t := Pending | Open | Held.
#[global] Instance t_eq_dec : EqDecision t.
Proof. solve_decision. Defined.
Definition as_str (a : t) : string :=
  match a with Pending => "PENDING" | Open => "OPEN" | Held => "HELD" end.
End DrainAnswer.

(** ** Round trips of the parsed vocabularies *)

Lemma State_parse_as_str s : State.parse (State.as_str s) = Some s.
Proof. by destruct s. Qed.

Lemma CloseReason_parse_as_str r : CloseReason.parse (CloseReason.as_str r) = Some r.
Proof. by destruct r. Qed.

Lemma State_as_str_inj s s' : State.as_str s = State.as_str s' → s = s'.
Proof. intros H. apply (f_equal State.parse) in H. rewrite !State_parse_as_str in H. congruence. Qed.

(** ** Strictness

    A generation only ever gets stricter: it drains, closes (or is invalidated), and is held.
    [CLOSED] and [INVALIDATED] are equally strict. *)

Definition rank (s : State.t) : nat :=
  match s with
  | State.Inspecting => 0
  | State.Active => 0
  | State.Draining => 1
  | State.Closed => 2
  | State.Invalidated => 2
  | State.Held => 3
  end.

Lemma rank_held s : (rank State.Held ≤ rank s)%nat → s = State.Held.
Proof. destruct s; simpl; auto; lia. Qed.

Lemma rank_decided s :
  (2 ≤ rank s)%nat → s = State.Closed ∨ s = State.Invalidated ∨ s = State.Held.
Proof. destruct s; simpl; auto; lia. Qed.
