(* ===== verification/Journal.v ===== *)
(** * Journal records and the in-memory stores
    ([host-enforcement/crates/effect-gate/src/journal.rs], [store.rs], and the types of
    [policy.rs] and [config.rs] the records name)

    The typed records with their canonical tuples, the fault plan of the test injections, the
    in-memory journal and marker, and the [Stores] interface the gate is written against, with
    the laws every implementation owes the gate. *)

From S2P Require Import Prelude Sha256 Json Render Types.
(** ** What I07's records name ([policy.rs]) *)

Module WriteOperation.
Inductive t := Create | Update | Delete.
#[global] Instance t_eq_dec : EqDecision t.
Proof. solve_decision. Defined.
Definition as_str (o : t) : string :=
  match o with Create => "CREATE" | Update => "UPDATE" | Delete => "DELETE" end.
Definition parse (text : string) : option t :=
  match text with
  | "CREATE" => Some Create | "UPDATE" => Some Update | "DELETE" => Some Delete
  | _ => None
  end.
Definition is_success (o : t) (status : Z) : bool :=
  match o with
  | Create => status =? 201
  | Update => (status =? 200) || (status =? 201)
  | Delete => (status =? 200) || (status =? 202)
  end.
End WriteOperation.

(** The prior object of an UPDATE or DELETE. *)
Record Prior := mkPrior { prior_uid : string; prior_resource_version : string; prior_projection_digest : string }.

#[export] Instance Prior_eq_dec : EqDecision Prior.
Proof. solve_decision. Defined.

Definition Prior_to_doc (p : Prior) : Doc :=
  DObject [("projectionDigest", DStr (prior_projection_digest p));
           ("resourceVersion", DStr (prior_resource_version p)); ("uid", DStr (prior_uid p))].

(** ** Earlier generations' bindings ([config.rs]) *)

Record PriorBindings := mkPriorBindings {
  execution_ids : gset string;
  run_nonces : gset string;
  manifest_digests : gset string;
  manifest_identities : gset string;
}.

Definition PriorBindings_default : PriorBindings := mkPriorBindings ∅ ∅ ∅ ∅.

(** ** Records *)

Module TerminalDetails.
Inductive t :=
| Delivered (http_status : Z) (result_digest : string) (observed_uid observed_resource_version : option string)
| Reconciliation (http_status : Z) (result_digest : string)
| None
| Aborted.
#[global] Instance t_eq_dec : EqDecision t.
Proof. solve_decision. Defined.
Definition to_doc (d : t) : Doc :=
  match d with
  | Delivered http_status result_digest observed_uid observed_resource_version =>
      DObject [("httpStatus", DInt http_status); ("resultDigest", DStr result_digest);
               ("observedUid", doc_opt_str observed_uid);
               ("observedResourceVersion", doc_opt_str observed_resource_version)]
  | Reconciliation http_status result_digest =>
      DObject [("httpStatus", DInt http_status); ("resultDigest", DStr result_digest)]
  | None => DObject []
  | Aborted => DObject [("aborted", DStr "UPSTREAM_TIMEOUT")]
  end.
End TerminalDetails.

Module WriteDetails.
Inductive t :=
| Delivered (http_status : Z) (result_digest : string) (observed_uid observed_resource_version : option string)
| Reconciliation (http_status : Z) (result_digest : string)
| Lost
| Aborted (reason : AbortReason.t).
#[global] Instance t_eq_dec : EqDecision t.
Proof. solve_decision. Defined.
Definition to_doc (d : t) : Doc :=
  match d with
  | Delivered http_status result_digest observed_uid observed_resource_version =>
      DObject [("httpStatus", DInt http_status); ("resultDigest", DStr result_digest);
               ("observedUid", doc_opt_str observed_uid);
               ("observedResourceVersion", doc_opt_str observed_resource_version)]
  | Reconciliation http_status result_digest =>
      DObject [("httpStatus", DInt http_status); ("resultDigest", DStr result_digest)]
  | Lost => DObject []
  | Aborted reason => DObject [("aborted", DStr (AbortReason.as_str reason))]
  end.
End WriteDetails.

Module ChannelEnd.
Inductive t := BeforeFirstFrame | Orderly.
#[global] Instance t_eq_dec : EqDecision t.
Proof. solve_decision. Defined.
Definition as_str (e : t) : string :=
  match e with BeforeFirstFrame => "BEFORE_FIRST_FRAME" | Orderly => "ORDERLY" end.
End ChannelEnd.

Module Rec.
Inductive t :=
| Bind (execution_id run_nonce reservation_digest : string) (manifest_digests manifest_identities : list string)
| Arm (action_id : Z) (verb : Verb) (manifest_digest : string) (recorded_uid : option string)
      (template_digest : string)
| Consumed (action_id : Z)
| Terminal (action_id : Z) (classification : Classification.t) (after_invalidation : bool)
           (details : TerminalDetails.t)
| Sealed (action_id : Z) (classification : Classification.t) (after_invalidation : bool)
| Denied (action_id : Z)
| Invalidated (reason : Invalidation.t) (state : State.t)
| Closed (reason : CloseReason.t) (state : State.t)
| Drained (state : State.t)
| DrainStarted
| ChannelEnded (how : ChannelEnd.t)
| Expired (execution_id : string)
| LateUpstream (action_id : Z)
| Restarted (state : State.t)
| MaintRequested (generation : string)
| MaintOpen (state : State.t)
| MaintHeld (state : State.t)
| WriteForwarded (write_id : Z) (operation : WriteOperation.t) (api_version kind : string)
                 (namespace : option string) (name request_digest : string) (prior : option Prior)
| WriteTerminal (write_id : Z) (classification : Classification.t) (details : WriteDetails.t)
| MaintEnded (reason : MaintenanceEnd.t) (writes : Z) (ambiguous_write_ids : list Z)
| WriterSessionEnded (how : SessionEnd.t)
| WriteLateUpstream (write_id : Z).

#[global] Instance t_eq_dec : EqDecision t.
Proof. solve_decision. Defined.

Definition strings (items : list string) : Doc := DArray (map DStr items).

Definition to_doc (r : t) : Doc :=
  DArray
    match r with
    | Bind execution_id run_nonce reservation_digest manifest_digests manifest_identities =>
        [DStr "BIND"; DStr execution_id; DStr run_nonce; DStr reservation_digest;
         strings manifest_digests; strings manifest_identities]
    | Arm action_id verb manifest_digest recorded_uid template_digest =>
        [DStr "ARM"; DInt action_id; DStr (Verb_as_str verb); DStr manifest_digest;
         doc_opt_str recorded_uid; DStr template_digest]
    | Consumed action_id => [DStr "CONSUMED"; DInt action_id]
    | Terminal action_id classification after_invalidation details =>
        [DStr "TERMINAL"; DInt action_id; DStr (Classification.as_str classification);
         DBool after_invalidation; TerminalDetails.to_doc details]
    | Sealed action_id classification after_invalidation =>
        [DStr "SEALED"; DInt action_id; DStr (Classification.as_str classification);
         DBool after_invalidation]
    | Denied action_id => [DStr "DENIED"; DInt action_id]
    | Invalidated reason state =>
        [DStr "INVALIDATED"; DStr (Invalidation.as_str reason); DStr (State.as_str state)]
    | Closed reason state =>
        [DStr "CLOSED"; DStr (CloseReason.as_str reason); DStr (State.as_str state)]
    | Drained state => [DStr "DRAINED"; DStr (State.as_str state)]
    | DrainStarted => [DStr "DRAIN_STARTED"]
    | ChannelEnded how => [DStr "CHANNEL_ENDED"; DStr (ChannelEnd.as_str how)]
    | Expired execution_id => [DStr "EXPIRED"; DStr execution_id]
    | LateUpstream action_id => [DStr "LATE_UPSTREAM"; DInt action_id]
    | Restarted state => [DStr "RESTARTED"; DStr (State.as_str state)]
    | MaintRequested generation => [DStr "MAINT_REQUESTED"; DStr generation]
    | MaintOpen state => [DStr "MAINT_OPEN"; DStr (State.as_str state)]
    | MaintHeld state => [DStr "MAINT_HELD"; DStr (State.as_str state)]
    | WriteForwarded write_id operation api_version kind namespace name request_digest prior =>
        [DStr "WRITE_FORWARDED"; DInt write_id; DStr (WriteOperation.as_str operation);
         DStr api_version; DStr kind; doc_opt_str namespace; DStr name; DStr request_digest;
         match prior with Some prior => Prior_to_doc prior | None => DNull end]
    | WriteTerminal write_id classification details =>
        [DStr "WRITE_TERMINAL"; DInt write_id; DStr (Classification.as_str classification);
         WriteDetails.to_doc details]
    | MaintEnded reason writes ambiguous_write_ids =>
        [DStr "MAINT_ENDED"; DStr (MaintenanceEnd.as_str reason); DInt writes;
         DArray (map DInt ambiguous_write_ids)]
    | WriterSessionEnded how => [DStr "WRITER_SESSION_ENDED"; DStr (SessionEnd.as_str how)]
    | WriteLateUpstream write_id => [DStr "WRITE_LATE_UPSTREAM"; DInt write_id]
    end.
End Rec.

(** A journal position: a record, or the placeholder a torn write leaves. *)
Module Entry.
Inductive t := Record_ (r : Rec.t) | Torn.
#[global] Instance t_eq_dec : EqDecision t.
Proof. solve_decision. Defined.
Definition to_doc (e : t) : Doc :=
  match e with Record_ r => Rec.to_doc r | Torn => DArray [DStr "TORN"] end.
End Entry.

Definition journal_doc (entries : list Entry.t) : Doc := DArray (map Entry.to_doc entries).
Definition journal_digest_of (entries : list Entry.t) : string := prefixed (doc_canonical (journal_doc entries)).

(** ** The fault plan ([store.rs]) *)

Module FilePoint.
Inductive t :=
| PartialFrame | FirstWrite | FirstSync | FirstReadBack | CommitWrite | CommitSync
| CommitReadBack | Revoke | MarkerWrite.
#[global] Instance t_eq_dec : EqDecision t.
Proof. solve_decision. Defined.
End FilePoint.

Module StoreFile.
Inductive t := Journal | Marker | Index | Document.
#[global] Instance t_eq_dec : EqDecision t.
Proof. solve_decision. Defined.
End StoreFile.

(** [points] is the map of the source as a function from the file to the armed points. *)
Record FaultPlan := mkFaultPlan {
  pending_failures : list bool;
  plan_fail_after : option Z;
  marker_failures : Z;
  points : StoreFile.t → list FilePoint.t;
}.

Definition FaultPlan_default : FaultPlan := mkFaultPlan [] None 0 (λ _, []).

Definition plan_fail_next (p : FaultPlan) (torn : bool) : FaultPlan :=
  mkFaultPlan (pending_failures p ++ [torn]) (plan_fail_after p) (marker_failures p) (points p).
Definition plan_set_fail_after (p : FaultPlan) (after : Z) : FaultPlan :=
  mkFaultPlan (pending_failures p) (Some after) (marker_failures p) (points p).
Definition plan_marker_fail_next (p : FaultPlan) : FaultPlan :=
  mkFaultPlan (pending_failures p) (plan_fail_after p) (sat_add_u64 (marker_failures p) 1) (points p).
Definition plan_arm (p : FaultPlan) (file : StoreFile.t) (point : FilePoint.t) : FaultPlan :=
  mkFaultPlan (pending_failures p) (plan_fail_after p) (marker_failures p)
    (λ f, if decide (f = file) then point :: filter (.≠ point) (points p f) else points p f).

(** One record attempt: [Some torn] when it fails. *)
Definition record_failure (p : FaultPlan) : FaultPlan * option bool :=
  let p := match plan_fail_after p with
           | Some after =>
               if after =? 0
               then mkFaultPlan (pending_failures p ++ [false]) None (marker_failures p) (points p)
               else mkFaultPlan (pending_failures p) (Some (after - 1)) (marker_failures p) (points p)
           | None => p
           end in
  match pending_failures p with
  | torn :: rest => (mkFaultPlan rest (plan_fail_after p) (marker_failures p) (points p), Some torn)
  | [] => (p, None)
  end.

Definition marker_failure (p : FaultPlan) : FaultPlan * bool :=
  if 0 <? marker_failures p
  then (mkFaultPlan (pending_failures p) (plan_fail_after p) (marker_failures p - 1) (points p), true)
  else (p, false).

Definition plan_take (p : FaultPlan) (file : StoreFile.t) : FaultPlan * list FilePoint.t :=
  (mkFaultPlan (pending_failures p) (plan_fail_after p) (marker_failures p)
     (λ f, if decide (f = file) then [] else points p f), points p file).

(** ** The in-memory journal and marker ([journal.rs]) *)

Record Journal := mkJournal { journal_entries : list Entry.t; journal_plan : FaultPlan }.
Definition Journal_default : Journal := mkJournal [] FaultPlan_default.

Definition journal_attempt (j : Journal) (r : Rec.t) : Journal * bool :=
  let '(plan, failure) := record_failure (journal_plan j) in
  match failure with
  | Some torn =>
      (mkJournal (if torn then journal_entries j ++ [Entry.Torn] else journal_entries j) plan, false)
  | None => (mkJournal (journal_entries j ++ [Entry.Record_ r]) plan, true)
  end.

Record Marker := mkMarker { marker_record : option (string * string); marker_plan : FaultPlan }.
Definition Marker_default : Marker := mkMarker None FaultPlan_default.

Definition marker_write (m : Marker) (generation reason : string) : Marker * bool :=
  match marker_record m with
  | Some _ => (m, true)
  | None =>
      let '(plan, failed) := marker_failure (marker_plan m) in
      if failed then (mkMarker None plan, false) else (mkMarker (Some (generation, reason)) plan, true)
  end.

Definition marker_to_doc (m : Marker) : Doc :=
  DArray match marker_record m with
         | Some (generation, reason) => [DArray [DStr generation; DStr reason]]
         | None => []
         end.

(** ** The stores interface ([trait Stores]) *)

Module Appended.
Inductive t := Durable | Failed (torn : bool).
#[global] Instance t_eq_dec : EqDecision t.
Proof. solve_decision. Defined.
End Appended.

(** What an append leaves in the mirror. *)
Definition mirrored (r : Rec.t) (a : Appended.t) : list Entry.t :=
  match a with
  | Appended.Durable => [Entry.Record_ r]
  | Appended.Failed true => [Entry.Torn]
  | Appended.Failed false => []
  end.

Class Stores (S : Type) := {
  append : S → Rec.t → S * Appended.t;
  entries : S → list Entry.t;
  marker_present : S → bool;
  write_marker : S → string → string → S * bool;
  marker_doc : S → Doc;
  fail_next : S → bool → S;
  fail_after : S → Z → S;
  marker_fail_next : S → S;
  prior_bindings : S → PriorBindings;
}.

(** What the gate relies on: the mirror grows as the trait's comments say and nothing else moves
    it, and a marker, once written, stays. *)
Class StoresLaws (S : Type) `{Stores S} := {
  append_entries s r : entries (append s r).1 = entries s ++ mirrored r (append s r).2;
  append_marker s r : marker_present (append s r).1 = marker_present s;
  write_marker_entries s g m : entries (write_marker s g m).1 = entries s;
  write_marker_present s g m : (write_marker s g m).2 = true → marker_present (write_marker s g m).1 = true;
  write_marker_keeps s g m : marker_present s = true → marker_present (write_marker s g m).1 = true;
  fail_next_entries s torn : entries (fail_next s torn) = entries s;
  fail_next_marker s torn : marker_present (fail_next s torn) = marker_present s;
  fail_after_entries s k : entries (fail_after s k) = entries s;
  fail_after_marker s k : marker_present (fail_after s k) = marker_present s;
  marker_fail_next_entries s : entries (marker_fail_next s) = entries s;
  marker_fail_next_marker s : marker_present (marker_fail_next s) = marker_present s;
}.

(** [MemoryStores] *)
Record MemoryStores := mkMemoryStores { ms_journal : Journal; ms_marker : Marker; ms_prior : PriorBindings }.
Definition MemoryStores_default : MemoryStores :=
  mkMemoryStores Journal_default Marker_default PriorBindings_default.

Definition memory_append (s : MemoryStores) (r : Rec.t) : MemoryStores * Appended.t :=
  let before := length (journal_entries (ms_journal s)) in
  let '(journal, durable) := journal_attempt (ms_journal s) r in
  (mkMemoryStores journal (ms_marker s) (ms_prior s),
   if durable then Appended.Durable else Appended.Failed (Nat.ltb before (length (journal_entries journal)))).

Definition memory_write_marker (s : MemoryStores) (generation reason : string) : MemoryStores * bool :=
  let '(marker, written) := marker_write (ms_marker s) generation reason in
  (mkMemoryStores (ms_journal s) marker (ms_prior s), written).

Definition memory_with_plan (s : MemoryStores) (f : FaultPlan → FaultPlan) : MemoryStores :=
  mkMemoryStores (mkJournal (journal_entries (ms_journal s)) (f (journal_plan (ms_journal s)))) (ms_marker s) (ms_prior s).

#[export] Instance MemoryStores_Stores : Stores MemoryStores := {
  append := memory_append;
  entries s := journal_entries (ms_journal s);
  marker_present s := bool_decide (is_Some (marker_record (ms_marker s)));
  write_marker := memory_write_marker;
  marker_doc s := marker_to_doc (ms_marker s);
  fail_next s torn := memory_with_plan s (λ p, plan_fail_next p torn);
  fail_after s k := memory_with_plan s (λ p, plan_set_fail_after p k);
  marker_fail_next s :=
    mkMemoryStores (ms_journal s)
      (mkMarker (marker_record (ms_marker s)) (plan_marker_fail_next (marker_plan (ms_marker s)))) (ms_prior s);
  prior_bindings s := ms_prior s;
}.

Lemma journal_attempt_entries j r :
  journal_entries (journal_attempt j r).1 =
  journal_entries j ++
    match record_failure (journal_plan j) with
    | (_, None) => [Entry.Record_ r]
    | (_, Some true) => [Entry.Torn]
    | (_, Some false) => []
    end.
Proof.
  unfold journal_attempt. destruct (record_failure _) as [p [[]|]]; simpl; [done|by rewrite app_nil_r|done].
Qed.

#[export] Instance MemoryStores_laws : StoresLaws MemoryStores.
Proof.
  split; try done.
  - intros s r. cbn [append entries MemoryStores_Stores]. unfold memory_append, journal_attempt.
    destruct (record_failure _) as [p [[]|]]; cbn -[Nat.ltb].
    + rewrite length_app. by rewrite (proj2 (Nat.ltb_lt _ _)) by (simpl; lia).
    + by rewrite Nat.ltb_irrefl, app_nil_r.
    + done.
  - intros s r. cbn. unfold memory_append. by destruct (journal_attempt _ _).
  - intros s g m. cbn. unfold memory_write_marker. by destruct (marker_write _ _ _).
  - intros s g m. cbn. unfold memory_write_marker, marker_write.
    destruct (marker_record (ms_marker s)) eqn:E; cbn; [by rewrite E|].
    by destruct (marker_failure _) as [p' []].
  - intros s g m. cbn. unfold memory_write_marker, marker_write.
    destruct (marker_record (ms_marker s)) eqn:E; cbn; [by rewrite E|done].
Qed.

(** ** The source's unit cases *)

Fixpoint attempts (j : Journal) (count : nat) : list bool * Journal :=
  match count with
  | O => ([], j)
  | S count => let '(j, ok) := journal_attempt j Rec.DrainStarted in
               let '(oks, j) := attempts j count in (ok :: oks, j)
  end.

Definition with_plan (j : Journal) (f : FaultPlan → FaultPlan) : Journal :=
  mkJournal (journal_entries j) (f (journal_plan j)).

Example fail_after_counts_every_attempt :
  let j := with_plan Journal_default (λ p, plan_set_fail_after p 2) in
  let '(first, j) := attempts j 4 in
  let '(second, _) := attempts (with_plan j (λ p, plan_set_fail_after p 0)) 2 in
  (first, second) = ([true; true; false; true], [false; true]).
Proof. vm_compute. reflexivity. Qed.

Example a_torn_failure_leaves_a_placeholder :
  let j := with_plan Journal_default (λ p, plan_fail_next (plan_fail_next p true) false) in
  let '(oks, j) := attempts j 3 in
  (oks, journal_entries j) = ([false; false; true], [Entry.Torn; Entry.Record_ Rec.DrainStarted]).
Proof. vm_compute. reflexivity. Qed.

Example fail_after_queues_behind_fail_next :
  let j := with_plan Journal_default
             (λ p, plan_set_fail_after (plan_fail_next (plan_fail_next p false) false) 0) in
  (attempts j 4).1 = [false; false; false; true].
Proof. vm_compute. reflexivity. Qed.
