(* ===== verification/StoreFrame.v ===== *)
(** * The store frame ([host-enforcement/crates/effect-gate/src/frame.rs])

    The frame of every stored record, marker and index entry, the streaming scanner that reads a
    file of them back, and the strict decoders of the payloads.  Section and function names are
    the source's; a decoder is its own function, under [Module Decode]. *)

From S2P Require Import Prelude Slices Sha256 Json.
From S2P Require Import Frame Render Types Journal.
(** The six bytes every frame starts with. *)
Definition MAGIC : list Z := [0xFF; 0; 72; 69; 74; 49].
Definition HEADER_BYTES : Z := 146.
Definition MAX_PAYLOAD_BYTES : Z := 0x100000.
Definition PENDING : Z := 80.
Definition COMMITTED : Z := 67.
Definition REVOKED : Z := 82.
Definition DIGESTED_HEADER_BYTES : Z := 80.

Definition hex_digest (bytes : list Z) : list Z := bytes_of (hex (digest bytes)).

(** [format!("{:08x}", n)], for [n] below [2 ^ 32]. *)
Definition lower_hex8 (n : Z) : list Z :=
  map (λ i, hex_digit (Z.land (Z.shiftr n (4 * i)) 15)) [7; 6; 5; 4; 3; 2; 1; 0].

(** The frame for [payload] with [status]. *)
Definition frame_encode (payload : list Z) (status : Z) : option (list Z) :=
  if bool_decide (payload = []) || (MAX_PAYLOAD_BYTES <? zlen payload) then None
  else
    let frame := MAGIC ++ [32] ++ lower_hex8 (zlen payload) ++ [32] ++ hex_digest payload in
    let header_digest := hex_digest frame in
    Some (frame ++ [32] ++ header_digest ++ [10] ++ payload ++ [status; 10]).

(** ** The scanner *)

Module Scanned.
Inductive t := Frame (payload : list Z) | Torn.
#[global] Instance t_eq_dec : EqDecision t.
Proof. solve_decision. Defined.
End Scanned.

Module Attempt.
Inductive t :=
| Nothing
| Leading
| Collecting (bytes : list Z) (total : option Z)
| Torn
| Committed
| Trailing.
End Attempt.

Record Scanner := mkScanner { attempt : Attempt.t; found : list Scanned.t }.
Definition Scanner_default : Scanner := mkScanner Attempt.Nothing [].

Definition lower_hex (field : list Z) : bool :=
  forallb (λ byte, is_digit byte || ((97 <=? byte) && (byte <=? 102))) field.

(** [usize::from_str_radix(text, 16)] of hex digits (a sign never reaches it). *)
Definition from_hex (text : list Z) : option Z :=
  match hex_go (length text) 0 text with Ok (value, _) => Some value | Err _ => None end.

(** The payload length a complete header announces. *)
Definition announced_length (header : list Z) : option Z :=
  let* magic := get_range header 0 6 in
  let* b6 := get_at header 6 in
  let* b15 := get_at header 15 in
  let* b80 := get_at header 80 in
  let* b145 := get_at header 145 in
  let separators_hold :=
    bool_decide (magic = MAGIC) && (b6 =? 32) && (b15 =? 32) && (b80 =? 32) && (b145 =? 10) in
  let* length_ := get_range header 7 15 in
  let* payload_digest := get_range header 16 80 in
  let* header_digest := get_range header 81 145 in
  if negb separators_hold || negb (lower_hex length_) || negb (lower_hex payload_digest)
     || negb (lower_hex header_digest)
  then None
  else
    let* digested := get_range header 0 DIGESTED_HEADER_BYTES in
    if negb (bool_decide (header_digest = hex_digest digested)) then None
    else
      let* length_ := from_hex length_ in
      if (1 <=? length_) && (length_ <=? MAX_PAYLOAD_BYTES) then Some length_ else None.

(** The payload of a complete frame whose payload digest matches and whose status is committed. *)
Definition committed_payload (frame : list Z) : option (list Z) :=
  let* end_ := usize_checked_sub (zlen frame) 2 in
  let* payload := get_range frame HEADER_BYTES end_ in
  let* status := get_range frame end_ (zlen frame) in
  let committed := bool_decide (status = [COMMITTED; 10]) in
  let* payload_digest := get_range frame 16 80 in
  if committed && bool_decide (payload_digest = hex_digest payload) then Some payload else None.

(** The bytes collected so far against the header, then against the whole frame. *)
Fixpoint collect_loop (fuel : nat) (found : list Scanned.t) (collected : list Z) (total : option Z)
    (rest : list Z) : option Scanner :=
  match fuel with
  | O => None
  | S fuel =>
      let target := default HEADER_BYTES total in
      let wanted := Z.min (Z.max 0 (target - zlen collected)) (zlen rest) in
      let collected := collected ++ take (Z.to_nat wanted) rest in
      let rest := drop (Z.to_nat wanted) rest in
      if zlen collected <? target then Some (mkScanner (Attempt.Collecting collected total) found)
      else
        match total with
        | None =>
            match (let* length_ := announced_length collected in usize_checked_add length_ (HEADER_BYTES + 2)) with
            | Some frame_length => collect_loop fuel found collected (Some frame_length) rest
            | None => Some (mkScanner Attempt.Torn found)
            end
        | Some _ =>
            match committed_payload collected with
            | Some payload =>
                Some (mkScanner (if bool_decide (rest = []) then Attempt.Committed else Attempt.Trailing)
                        (found ++ [Scanned.Frame payload]))
            | None => Some (mkScanner Attempt.Torn found)
            end
        end
  end.

(** Two turns are enough: the header, then the frame. *)
Definition collect (found : list Scanned.t) (collected : list Z) (total : option Z) (bytes : list Z) : Scanner :=
  default (mkScanner Attempt.Torn found) (collect_loop 2 found collected total bytes).

Definition end_attempt (s : Scanner) : Scanner :=
  match attempt s with
  | Attempt.Nothing | Attempt.Committed => mkScanner Attempt.Nothing (found s)
  | Attempt.Leading | Attempt.Collecting _ _ | Attempt.Torn | Attempt.Trailing =>
      mkScanner Attempt.Nothing (found s ++ [Scanned.Torn])
  end.

(** Bytes of the current attempt (they hold no [0xFF]). *)
Definition extend (s : Scanner) (bytes : list Z) : Scanner :=
  if bool_decide (bytes = []) then s
  else
    match attempt s with
    | Attempt.Nothing | Attempt.Leading => mkScanner Attempt.Leading (found s)
    | Attempt.Torn => mkScanner Attempt.Torn (found s)
    | Attempt.Committed | Attempt.Trailing => mkScanner Attempt.Trailing (found s)
    | Attempt.Collecting collected total => collect (found s) collected total bytes
    end.

(** [while !rest.is_empty()]: every turn takes at least one byte. *)
Fixpoint feed_loop (fuel : nat) (s : Scanner) (rest : list Z) : option Scanner :=
  match rest with
  | [] => Some s
  | _ :: _ =>
      match fuel with
      | O => None
      | S fuel =>
          match position (λ byte, byte =? 0xFF) rest with
          | Some O =>
              feed_loop fuel (mkScanner (Attempt.Collecting [0xFF] None) (found (end_attempt s))) (drop 1 rest)
          | Some at_ => feed_loop fuel (extend s (take at_ rest)) (drop at_ rest)
          | None => feed_loop fuel (extend s rest) []
          end
      end
  end.

Definition feed (s : Scanner) (bytes : list Z) : Scanner := default s (feed_loop (length bytes) s bytes).

(** The items found, once every byte was fed. *)
Definition scanner_finish (s : Scanner) : list Scanned.t := found (end_attempt s).

(** The items found when the rest cannot be read: the attempt in progress and the rest are one TORN. *)
Definition abort (s : Scanner) : list Scanned.t := found s ++ [Scanned.Torn].

Definition scan_bytes (bytes : list Z) : list Scanned.t := scanner_finish (feed Scanner_default bytes).

(** ** Payloads *)

(** The generation index's payload, [["GENERATION", generation]]. *)
Definition generation_payload (generation : string) : list Z :=
  doc_canonical (DArray [DStr "GENERATION"; DStr generation]).

(** The failure marker's payload, [["MARKER", generation, reason]]. *)
Definition marker_payload (generation reason : string) : list Z :=
  doc_canonical (DArray [DStr "MARKER"; DStr generation; DStr reason]).

(** The JSON value of a payload that is UTF-8 JSON in its canonical encoding. *)
Definition canonical_value (payload : list Z) : option Value :=
  if negb (utf8_valid payload) then None
  else
    match parse payload with
    | Ok value =>
        match canonical value with
        | Ok out => if bool_decide (out = payload) then Some value else None
        | Err _ => None
        end
    | Err _ => None
    end.

Module Decode.

Definition text (value : Value) : option string := as_str value.

Definition optional_text (value : Value) : option (option string) :=
  match value with
  | VNull => Some None
  | other => let* t := text other in Some (Some t)
  end.

Definition texts (value : Value) : option (list string) := let* items := as_array value in mapM text items.
Definition integer (value : Value) : option Z := let* i := as_int value in to_i64 i.
Definition small (value : Value) : option Z := let* n := integer value in u16_try_from n.
Definition state (value : Value) : option State.t := let* name := as_str value in State.parse name.

Definition named {T} (value : Value) (candidates : list T) (name : T → string) : option T :=
  let* wanted := as_str value in List.find (λ candidate, bool_decide (name candidate = wanted)) candidates.

Definition CLASSIFICATIONS : list Classification.t :=
  [Classification.NotForwarded; Classification.DeliveredResult; Classification.IoAmbiguous].

Definition FATAL_REASONS : list FatalReason.t :=
  [FatalReason.InvalidFrame F00; FatalReason.InvalidFrame F01; FatalReason.InvalidFrame F02;
   FatalReason.InvalidFrame F03; FatalReason.InvalidFrame F04; FatalReason.InvalidFrame F05;
   FatalReason.InvalidFrame F06; FatalReason.InvalidFrame F07; FatalReason.Direction;
   FatalReason.ChainBroken; FatalReason.GenerationMismatch; FatalReason.OpeningFrameRequired;
   FatalReason.ChallengeMismatch; FatalReason.PeerQualificationMismatch; FatalReason.PeerLost;
   FatalReason.PeerChanged; FatalReason.ResponseOutOfBounds; FatalReason.AnswerLate].

Definition MAINTENANCE_ENDS : list MaintenanceEnd.t :=
  [MaintenanceEnd.WriteEnd; MaintenanceEnd.Session SessionEnd.Ended; MaintenanceEnd.Session SessionEnd.Fatal].

Definition SESSION_ENDS : list SessionEnd.t := [SessionEnd.Ended; SessionEnd.Fatal].

Definition ABORT_REASONS : list AbortReason.t :=
  [AbortReason.WriterChannelLost; AbortReason.WriterPeerDeviation; AbortReason.WriterProtocolFailure;
   AbortReason.UpstreamTimeout].

Definition classification (value : Value) : option Classification.t :=
  named value CLASSIFICATIONS Classification.as_str.

Definition invalidation (value : Value) : option Invalidation.t :=
  let* name := as_str value in
  if bool_decide (name = Invalidation.as_str Invalidation.WriterPeerDeviation)
  then Some Invalidation.WriterPeerDeviation
  else
    match CloseReason.parse name with
    | Some reason => Some (Invalidation.Close reason)
    | None => Invalidation.Fatal <$> named value FATAL_REASONS FatalReason.as_str
    end.

Definition terminal_details (value : Value) : option TerminalDetails.t :=
  let* members := as_object value in
  match length members with
  | 0%nat => Some TerminalDetails.None
  | 1%nat =>
      let* aborted := value_get value "aborted" in
      if bool_decide (as_str aborted = Some "UPSTREAM_TIMEOUT") then Some TerminalDetails.Aborted else None
  | 2%nat =>
      let* http_status := value_get value "httpStatus" in let* http_status := integer http_status in
      let* result_digest := value_get value "resultDigest" in let* result_digest := text result_digest in
      Some (TerminalDetails.Reconciliation http_status result_digest)
  | 4%nat =>
      let* http_status := value_get value "httpStatus" in let* http_status := integer http_status in
      let* result_digest := value_get value "resultDigest" in let* result_digest := text result_digest in
      let* uid := value_get value "observedUid" in let* uid := optional_text uid in
      let* version := value_get value "observedResourceVersion" in let* version := optional_text version in
      Some (TerminalDetails.Delivered http_status result_digest uid version)
  | _ => None
  end.

Definition write_details (value : Value) : option WriteDetails.t :=
  let* members := as_object value in
  match length members with
  | 0%nat => Some WriteDetails.Lost
  | 1%nat =>
      let* aborted := value_get value "aborted" in
      WriteDetails.Aborted <$> named aborted ABORT_REASONS AbortReason.as_str
  | 2%nat =>
      let* http_status := value_get value "httpStatus" in let* http_status := integer http_status in
      let* result_digest := value_get value "resultDigest" in let* result_digest := text result_digest in
      Some (WriteDetails.Reconciliation http_status result_digest)
  | 4%nat =>
      let* http_status := value_get value "httpStatus" in let* http_status := integer http_status in
      let* result_digest := value_get value "resultDigest" in let* result_digest := text result_digest in
      let* uid := value_get value "observedUid" in let* uid := optional_text uid in
      let* version := value_get value "observedResourceVersion" in let* version := optional_text version in
      Some (WriteDetails.Delivered http_status result_digest uid version)
  | _ => None
  end.

Definition prior (value : Value) : option (option Prior) :=
  if is_null value then Some None
  else
    let* uid := value_get value "uid" in let* uid := text uid in
    let* version := value_get value "resourceVersion" in let* version := text version in
    let* projection := value_get value "projectionDigest" in let* projection := text projection in
    Some (Some (mkPrior uid version projection)).

Definition channel_end (value : Value) : option ChannelEnd.t :=
  let* name := as_str value in
  match name with
  | "BEFORE_FIRST_FRAME" => Some ChannelEnd.BeforeFirstFrame
  | "ORDERLY" => Some ChannelEnd.Orderly
  | _ => None
  end.

End Decode.

Section DecodeRecord.
Import Decode.

(** [match (tag, fields)]. *)
Definition decode_fields (tag : string) (fields : list Value) : option Rec.t :=
  match tag with
  | "BIND" =>
      match fields with
      | [execution_id; run_nonce; reservation_digest; digests; identities] =>
          let* execution_id := text execution_id in let* run_nonce := text run_nonce in
          let* reservation_digest := text reservation_digest in
          let* digests := texts digests in let* identities := texts identities in
          Some (Rec.Bind execution_id run_nonce reservation_digest digests identities)
      | _ => None
      end
  | "ARM" =>
      match fields with
      | [action_id; verb; manifest_digest; recorded_uid; template_digest] =>
          let* action_id := small action_id in
          let* verb := as_str verb in let* verb := Verb_parse verb in
          let* manifest_digest := text manifest_digest in
          let* recorded_uid := optional_text recorded_uid in
          let* template_digest := text template_digest in
          Some (Rec.Arm action_id verb manifest_digest recorded_uid template_digest)
      | _ => None
      end
  | "CONSUMED" => match fields with [action_id] => Rec.Consumed <$> small action_id | _ => None end
  | "TERMINAL" =>
      match fields with
      | [action_id; class; after; details] =>
          let* action_id := small action_id in let* class := classification class in
          let* after := as_bool after in let* details := terminal_details details in
          Some (Rec.Terminal action_id class after details)
      | _ => None
      end
  | "SEALED" =>
      match fields with
      | [action_id; class; after] =>
          let* action_id := small action_id in let* class := classification class in
          let* after := as_bool after in Some (Rec.Sealed action_id class after)
      | _ => None
      end
  | "DENIED" => match fields with [action_id] => Rec.Denied <$> small action_id | _ => None end
  | "INVALIDATED" =>
      match fields with
      | [reason; recorded] =>
          let* reason := invalidation reason in let* recorded := state recorded in
          Some (Rec.Invalidated reason recorded)
      | _ => None
      end
  | "CLOSED" =>
      match fields with
      | [reason; recorded] =>
          let* reason := as_str reason in let* reason := CloseReason.parse reason in
          let* recorded := state recorded in Some (Rec.Closed reason recorded)
      | _ => None
      end
  | "DRAINED" => match fields with [recorded] => Rec.Drained <$> state recorded | _ => None end
  | "DRAIN_STARTED" => match fields with [] => Some Rec.DrainStarted | _ => None end
  | "CHANNEL_ENDED" => match fields with [end_] => Rec.ChannelEnded <$> channel_end end_ | _ => None end
  | "EXPIRED" => match fields with [execution_id] => Rec.Expired <$> text execution_id | _ => None end
  | "LATE_UPSTREAM" => match fields with [action_id] => Rec.LateUpstream <$> small action_id | _ => None end
  | "RESTARTED" => match fields with [recorded] => Rec.Restarted <$> state recorded | _ => None end
  | "MAINT_REQUESTED" => match fields with [generation] => Rec.MaintRequested <$> text generation | _ => None end
  | "MAINT_OPEN" => match fields with [recorded] => Rec.MaintOpen <$> state recorded | _ => None end
  | "MAINT_HELD" => match fields with [recorded] => Rec.MaintHeld <$> state recorded | _ => None end
  | "WRITE_FORWARDED" =>
      match fields with
      | [write_id; operation; api_version; kind; namespace; name; request_digest; written_prior] =>
          let* write_id := small write_id in
          let* operation := as_str operation in let* operation := WriteOperation.parse operation in
          let* api_version := text api_version in let* kind := text kind in
          let* namespace := optional_text namespace in let* name := text name in
          let* request_digest := text request_digest in let* written_prior := prior written_prior in
          Some (Rec.WriteForwarded write_id operation api_version kind namespace name request_digest written_prior)
      | _ => None
      end
  | "WRITE_TERMINAL" =>
      match fields with
      | [write_id; class; details] =>
          let* write_id := small write_id in let* class := classification class in
          let* details := write_details details in Some (Rec.WriteTerminal write_id class details)
      | _ => None
      end
  | "MAINT_ENDED" =>
      match fields with
      | [reason; writes; ambiguous] =>
          let* reason := named reason MAINTENANCE_ENDS MaintenanceEnd.as_str in
          let* writes := small writes in
          let* ambiguous := as_array ambiguous in let* ambiguous := mapM small ambiguous in
          Some (Rec.MaintEnded reason writes ambiguous)
      | _ => None
      end
  | "WRITER_SESSION_ENDED" =>
      match fields with [how] => Rec.WriterSessionEnded <$> named how SESSION_ENDS SessionEnd.as_str | _ => None end
  | "WRITE_LATE_UPSTREAM" => match fields with [write_id] => Rec.WriteLateUpstream <$> small write_id | _ => None end
  | _ => None
  end.

(** A journal record's payload back to its record: exactly the gate's own tuple. *)
Definition decode_record (payload : list Z) : option Rec.t :=
  let* value := canonical_value payload in
  let* items := as_array value in
  match items with
  | [] => None
  | tag :: fields =>
      let* tag := as_str tag in
      let* record := decode_fields tag fields in
      if bool_decide (doc_canonical (Rec.to_doc record) = payload) then Some record else None
  end.

(** A generation index entry's generation. *)
Definition decode_generation (payload : list Z) : option string :=
  let* value := canonical_value payload in
  let* items := as_array value in
  match items with
  | [tag; generation] => if bool_decide (as_str tag = Some "GENERATION") then text generation else None
  | _ => None
  end.

(** A marker's generation and reason. *)
Definition decode_marker (payload : list Z) : option (string * string) :=
  let* value := canonical_value payload in
  let* items := as_array value in
  match items with
  | [tag; generation; reason] =>
      if bool_decide (as_str tag = Some "MARKER")
      then let* generation := text generation in let* reason := text reason in Some (generation, reason)
      else None
  | _ => None
  end.

End DecodeRecord.

(** Journal entries from a scan: a committed frame whose payload decodes is its record, anything
    else TORN ([journal_entries]). *)
Definition scanned_entry (item : Scanned.t) : Entry.t :=
  match item with
  | Scanned.Frame payload =>
      match decode_record payload with Some record => Entry.Record_ record | None => Entry.Torn end
  | Scanned.Torn => Entry.Torn
  end.
Definition frame_journal_entries (found : list Scanned.t) : list Entry.t := map scanned_entry found.
