(* ===== verification/StoreScan.v ===== *)
(** * What a scan of a store file returns

    The streaming scanner is the recursion that splits the bytes at each [0xFF] and classifies
    every region on its own; so the pieces the bytes arrive in do not matter, records already
    committed are found whatever follows them, and the file a crash leaves in the middle of an
    append is the records before it and at most one TORN. *)

From S2P Require Import Prelude Slices Sha256 Json Journal StoreFrame.
(** ** The reference: one region at a time *)

(** What has been decided of an attempt once its bytes so far are [bytes]. *)
Definition read_attempt (bytes : list Z) : list Scanned.t * Attempt.t :=
  if zlen bytes <? HEADER_BYTES then ([], Attempt.Collecting bytes None)
  else
    match announced_length (take (Z.to_nat HEADER_BYTES) bytes) with
    | None => ([], Attempt.Torn)
    | Some n =>
        let total := n + (HEADER_BYTES + 2) in
        if zlen bytes <? total then ([], Attempt.Collecting bytes (Some total))
        else
          match committed_payload (take (Z.to_nat total) bytes) with
          | None => ([], Attempt.Torn)
          | Some payload =>
              ([Scanned.Frame payload], if zlen bytes =? total then Attempt.Committed else Attempt.Trailing)
          end
    end.

(** A region is the bytes before the first [0xFF] or the bytes from one [0xFF] up to the next. *)
Definition region_state (region : list Z) : list Scanned.t * Attempt.t :=
  match region with
  | [] => ([], Attempt.Nothing)
  | byte :: _ => if byte =? 0xFF then read_attempt region else ([], Attempt.Leading)
  end.

Definition region_items (region : list Z) : list Scanned.t :=
  (region_state region).1 ++
    match (region_state region).2 with
    | Attempt.Nothing | Attempt.Committed => []
    | _ => [Scanned.Torn]
    end.

(** The regions before the current one, and the current one, after more bytes. *)
Fixpoint split_regions (current l : list Z) : list (list Z) * list Z :=
  match l with
  | [] => ([], current)
  | byte :: l =>
      if byte =? 0xFF then let '(before, last) := split_regions [byte] l in (current :: before, last)
      else split_regions (current ++ [byte]) l
  end.

Definition regions (l : list Z) : list (list Z) :=
  let '(before, last) := split_regions [] l in before ++ [last].

Definition scan_spec (l : list Z) : list Scanned.t := flat_map region_items (regions l).

(** ** The scanner follows it *)

Definition no_ff (l : list Z) : Prop := Forall (λ byte, byte ≠ 0xFF) l.

Lemma announced_length_bounds header n : announced_length header = Some n → 1 ≤ n ≤ MAX_PAYLOAD_BYTES.
Proof.
  unfold announced_length. intros H.
  repeat (apply bind_Some in H as (? & _ & H)). case_match; [done|].
  apply bind_Some in H as (? & _ & H). case_match; [done|].
  apply bind_Some in H as (? & _ & H). destruct (1 <=? _) eqn:?, (_ <=? MAX_PAYLOAD_BYTES) eqn:?; simplify_eq/=; lia.
Qed.

Lemma frame_total header n :
  announced_length header = Some n →
  usize_checked_add n (HEADER_BYTES + 2) = Some (n + (HEADER_BYTES + 2)) ∧ HEADER_BYTES < n + (HEADER_BYTES + 2).
Proof.
  intros H%announced_length_bounds. unfold usize_checked_add, HEADER_BYTES, MAX_PAYLOAD_BYTES, U64 in *.
  rewrite (proj2 (Z.ltb_lt _ _)) by lia. split; [done|lia].
Qed.

Lemma zlen_take {A} n (l : list A) : 0 ≤ n → zlen (take (Z.to_nat n) l) = Z.min n (zlen l).
Proof. intros. unfold zlen. rewrite length_take. lia. Qed.

Lemma take_app_upto (a l : list Z) n :
  zlen a ≤ n → take (Z.to_nat n) (a ++ l) = a ++ take (Z.to_nat (Z.min (n - zlen a) (zlen l))) l.
Proof.
  intros Hn. unfold zlen in *. rewrite take_app, take_ge by lia. f_equal.
  destruct (Z.min_spec (n - Z.of_nat (length a)) (Z.of_nat (length l))) as [[? ->]|[? ->]]; [f_equal; lia|].
  rewrite Nat2Z.id, firstn_all, take_ge by lia. done.
Qed.

Lemma drop_upto (l : list Z) n : 0 ≤ n →
  drop (Z.to_nat (Z.min n (zlen l))) l = drop (Z.to_nat n) l.
Proof.
  intros Hn. unfold zlen. destruct (Z.min_spec n (Z.of_nat (length l))) as [[? ->]|[? ->]]; [done|].
  rewrite !drop_ge by lia. done.
Qed.

(** The turn that reads up to [target]. *)
Lemma collected_target (a l : list Z) target :
  zlen a ≤ target →
  let wanted := Z.min (Z.max 0 (target - zlen a)) (zlen l) in
  a ++ take (Z.to_nat wanted) l = take (Z.to_nat target) (a ++ l) ∧
  drop (Z.to_nat wanted) l = drop (Z.to_nat target) (a ++ l).
Proof.
  intros Hn. cbn zeta. rewrite Z.max_r by lia. split; [by rewrite take_app_upto|].
  rewrite drop_upto by lia. unfold zlen in *. rewrite drop_app, (drop_ge a) by lia. simpl. f_equal. lia.
Qed.

Lemma take_short {A} n (l : list A) : zlen l ≤ n → take (Z.to_nat n) l = l.
Proof. unfold zlen. intros. apply take_ge. lia. Qed.

(** The second turn, on a header that announces [n] bytes. *)
Lemma collect_frame fuel items a l n :
  0 ≤ n → zlen a ≤ n →
  collect_loop (S fuel) items a (Some n) l =
  Some (if zlen (a ++ l) <? n then mkScanner (Attempt.Collecting (a ++ l) (Some n)) items
        else match committed_payload (take (Z.to_nat n) (a ++ l)) with
             | Some payload =>
                 mkScanner (if zlen (a ++ l) =? n then Attempt.Committed else Attempt.Trailing)
                   (items ++ [Scanned.Frame payload])
             | None => mkScanner Attempt.Torn items
             end).
Proof.
  intros Hn Ha. cbn [collect_loop]. change (default HEADER_BYTES (Some n)) with n. cbn zeta. destruct (collected_target a l n Ha) as [-> ->].
  rewrite zlen_take by done.
  destruct (Z.ltb_spec (Z.min n (zlen (a ++ l))) n), (Z.ltb_spec (zlen (a ++ l)) n); try lia.
  { by rewrite take_short by lia. }
  destruct (committed_payload _); [|done]. do 2 f_equal.
  destruct (Z.eqb_spec (zlen (a ++ l)) n) as [He|He]; case_bool_decide as Hd; try done; exfalso.
  - apply Hd. unfold zlen in *. apply drop_ge. lia.
  - apply (f_equal zlen) in Hd. unfold zlen in *. rewrite length_drop in Hd. simpl in Hd. lia.
Qed.

Definition state_of (items : list Scanned.t) (s : list Scanned.t * Attempt.t) : Scanner :=
  mkScanner s.2 (items ++ s.1).

Lemma collect_header items a l :
  zlen a < HEADER_BYTES → collect items a None l = state_of items (read_attempt (a ++ l)).
Proof.
  intros Ha. unfold collect. remember 1%nat as turn eqn:Hturn. cbn [collect_loop]. change (default HEADER_BYTES None) with HEADER_BYTES. cbn zeta.
  destruct (collected_target a l HEADER_BYTES ltac:(lia)) as [-> ->]. rewrite zlen_take by done.
  unfold read_attempt, state_of.
  destruct (Z.ltb_spec (Z.min HEADER_BYTES (zlen (a ++ l))) HEADER_BYTES),
    (Z.ltb_spec (zlen (a ++ l)) HEADER_BYTES) as [|Hge]; try lia.
  { simpl. by rewrite app_nil_r, take_short by lia. }
  destruct (announced_length _) as [n|] eqn:Hn; [|by rewrite app_nil_r].
  destruct (frame_total _ _ Hn) as [Hadd Hlt]. cbn [mbind option_bind].
  rewrite Hadd. set (total := n + _) in *.
  subst turn. rewrite collect_frame; [|unfold HEADER_BYTES in *; lia|rewrite zlen_take by done; lia].
  rewrite take_drop. cbn [default]. destruct (zlen (a ++ l) <? total); [by rewrite app_nil_r|].
  destruct (committed_payload _); simpl; [done|by rewrite app_nil_r].
Qed.

(** More bytes of an attempt: its state is that of all its bytes. *)
Lemma extend_attempt items a l :
  extend (state_of items (read_attempt a)) l = state_of items (read_attempt (a ++ l)).
Proof.
  unfold extend. case_bool_decide as Hl; [subst l; by rewrite app_nil_r|].
  assert (Hpos : 0 < zlen l) by (destruct l; [done|]; rewrite zlen_cons; pose proof (zlen_nonneg l); lia).
  pose proof (zlen_app a l) as Hlen.
  assert (Ht : ∀ n, n ≤ zlen a → take (Z.to_nat n) (a ++ l) = take (Z.to_nat n) a).
  { intros n Hn. apply take_app_le. unfold zlen in Hn. lia. }
  destruct (read_attempt a) as [its st] eqn:Hr. unfold state_of. cbn [attempt found fst snd].
  unfold read_attempt in Hr. destruct (Z.ltb_spec (zlen a) HEADER_BYTES) as [Ha|Ha].
  { injection Hr as <- <-. rewrite app_nil_r. by apply collect_header. }
  unfold read_attempt. rewrite (Ht HEADER_BYTES) by done.
  rewrite (proj2 (Z.ltb_ge (zlen (a ++ l)) HEADER_BYTES)) by lia.
  destruct (announced_length _) as [n|] eqn:Hn; [|by injection Hr as <- <-].
  destruct (frame_total _ _ Hn) as [_ Hlt]. set (total := n + _) in *.
  destruct (Z.ltb_spec (zlen a) total) as [Hs|Hs].
  { injection Hr as <- <-. unfold collect. rewrite app_nil_r, collect_frame by (unfold HEADER_BYTES in *; lia).
    cbn [default]. destruct (zlen (a ++ l) <? total); [by rewrite app_nil_r|].
    destruct (committed_payload _); simpl; [done|by rewrite app_nil_r]. }
  rewrite (proj2 (Z.ltb_ge (zlen (a ++ l)) total)), (Ht total) by lia.
  destruct (committed_payload _) as [payload|]; [|by injection Hr as <- <-].
  rewrite (proj2 (Z.eqb_neq (zlen (a ++ l)) total)) by lia.
  injection Hr as <- <-. cbn [fst snd]. by destruct (zlen a =? total).
Qed.

Lemma extend_region items a l :
  no_ff l → extend (state_of items (region_state a)) l = state_of items (region_state (a ++ l)).
Proof.
  intros Hl. destruct a as [|byte a].
  - destruct Hl as [|x l Hx _]; [done|]. cbn [app region_state]. rewrite (proj2 (Z.eqb_neq x 255)) by done.
    reflexivity.
  - cbn [app region_state]. destruct (byte =? 255).
    + rewrite extend_attempt. done.
    + unfold extend. by case_bool_decide; subst.
Qed.

Lemma split_regions_inside current inside l :
  no_ff inside → split_regions current (inside ++ l) = split_regions (current ++ inside) l.
Proof.
  intros Hi. revert current. induction Hi as [|b inside Hb _ IH]; intros current; simpl.
  - by rewrite app_nil_r.
  - rewrite (proj2 (Z.eqb_neq b 255)), IH, <-app_assoc by done. done.
Qed.

Lemma end_attempt_region items region :
  found (end_attempt (state_of items (region_state region))) = items ++ region_items region.
Proof.
  unfold end_attempt, region_items, state_of. destruct (region_state region) as [its []]; simpl;
    by rewrite ?app_nil_r, <-?app_assoc.
Qed.

Lemma no_ff_position l : Forall (λ byte, (byte =? 0xFF) = false) l → no_ff l.
Proof. intros H. eapply Forall_impl; [exact H|]. intros x. by rewrite Z.eqb_neq. Qed.

Definition fed (items : list Scanned.t) (current l : list Z) : Scanner :=
  let '(before, last) := split_regions current l in
  state_of (items ++ flat_map region_items before) (region_state last).

Lemma feed_loop_regions fuel items current l :
  (length l ≤ fuel)%nat →
  feed_loop fuel (state_of items (region_state current)) l = Some (fed items current l).
Proof.
  revert items current l. induction fuel as [|fuel IH]; intros items current [|b l] Hf;
    try (by cbn; unfold fed; simpl; rewrite app_nil_r); [simpl in Hf; lia|].
  cbn [feed_loop]. destruct (position _ (b :: l)) as [[|at_]|] eqn:Hp.
  - apply position_Some in Hp as (x & k & Hx & Hb%Z.eqb_eq & _). simpl in Hx. injection Hx as -> ->. subst x.
    rewrite end_attempt_region. unfold fed. cbn [drop split_regions]. rewrite Z.eqb_refl.
    replace (mkScanner _ _) with (state_of (items ++ region_items current) (region_state [255])).
    2: { unfold state_of. change (region_state [255]) with (@nil Scanned.t, Attempt.Collecting [255] None).
         cbn [fst snd]. by rewrite app_nil_r. }
    rewrite drop_0, IH by (simpl in *; lia). unfold fed. destruct (split_regions [255] k) as [before last].
    cbn [flat_map]. by rewrite <-app_assoc.
  - apply position_Some in Hp as (x & k & Hx & _ & Hn & Hd). rewrite Hd.
    apply no_ff_position in Hn. rewrite extend_region by done.
    assert (Hlen : (length (x :: k) ≤ fuel)%nat).
    { apply (f_equal length) in Hd. rewrite length_drop in Hd. simpl in *. lia. }
    rewrite IH by done. unfold fed. rewrite Hx at 2. by rewrite split_regions_inside.
  - apply position_None, no_ff_position in Hp. rewrite extend_region, IH by (simpl; lia || done).
    unfold fed. rewrite <-(app_nil_r (b :: l)) at 2. by rewrite split_regions_inside.
Qed.

Lemma feed_regions items current l :
  feed (state_of items (region_state current)) l = fed items current l.
Proof. unfold feed. by rewrite feed_loop_regions. Qed.

Lemma split_regions_app current a b :
  split_regions current (a ++ b) =
  let '(before, last) := split_regions current a in
  let '(after, last) := split_regions last b in (before ++ after, last).
Proof.
  revert current. induction a as [|x a IH]; intros current; simpl.
  - by destruct (split_regions current b).
  - destruct (x =? 255); rewrite IH; [|done].
    destruct (split_regions [x] a) as [before last]. by destruct (split_regions last b).
Qed.

Lemma feed_fed items current a b : feed (fed items current a) b = fed items current (a ++ b).
Proof.
  unfold fed. rewrite split_regions_app. destruct (split_regions current a) as [before last].
  rewrite feed_regions. unfold fed. destruct (split_regions last b) as [after last'].
  by rewrite flat_map_app, app_assoc.
Qed.

Lemma fed_finish l : scanner_finish (fed [] [] l) = scan_spec l.
Proof.
  unfold scanner_finish, fed, scan_spec, regions. destruct (split_regions [] l) as [before last].
  rewrite end_attempt_region, flat_map_app. simpl. by rewrite app_nil_r.
Qed.

Lemma feed_pieces pieces items current l :
  fold_left feed pieces (fed items current l) = fed items current (l ++ concat pieces).
Proof.
  revert l. induction pieces as [|p pieces IH]; intros l; simpl; [by rewrite app_nil_r|].
  by rewrite feed_fed, IH, app_assoc.
Qed.

(** Records found do not depend on what follows: a new [0xFF] ends the region before it. *)
Lemma scan_spec_app a b : scan_spec (a ++ 0xFF :: b) = scan_spec a ++ scan_spec (0xFF :: b).
Proof.
  unfold scan_spec, regions. rewrite split_regions_app. cbn [split_regions]. rewrite Z.eqb_refl.
  destruct (split_regions [] a) as [before last]. destruct (split_regions [255] b) as [after last'].
  by rewrite !flat_map_app, <-!app_assoc; simpl; rewrite ?app_nil_r, <-?app_assoc.
Qed.

Lemma scan_bytes_spec l : scan_bytes l = scan_spec l.
Proof.
  unfold scan_bytes. change Scanner_default with (state_of [] (region_state [])).
  rewrite feed_regions. apply fed_finish.
Qed.

Lemma scan_spec_region l : no_ff l → scan_spec (0xFF :: l) = region_items (0xFF :: l).
Proof.
  intros Hl. unfold scan_spec, regions. cbn [split_regions]. rewrite Z.eqb_refl.
  rewrite <-(app_nil_r l) at 1. rewrite split_regions_inside by done. cbn. by rewrite app_nil_r.
Qed.

(** ** Hex fields *)

Lemma length_sha_round s kw : length (sha_round s kw) = length s.
Proof. unfold sha_round. by repeat (case_match; [done|]). Qed.

Lemma length_digest data : length (digest data) = 32%nat.
Proof.
  rewrite digest_spec. unfold sha256_spec.
  assert (H : ∀ blocks s, length s = 8%nat → length (fold_left compress blocks s) = 8%nat).
  { induction blocks as [|b blocks IH]; intros s Hs; [done|]. simpl. apply IH. unfold compress.
    rewrite length_zip_with. assert (Hr : ∀ l s, length (fold_left sha_round l s) = length s).
    { induction l as [|x l IHl]; intros t; [done|]. simpl. by rewrite IHl, length_sha_round. }
    rewrite Hr. lia. }
  specialize (H (chunks 64 (sha_pad data)) INITIAL eq_refl).
  destruct (fold_left compress _ _) as [|x l]; [done|]. by do 8 (destruct l as [|? l]; try done).
Qed.

Lemma to_be_bytes_range n x : Forall is_byte (to_be_bytes n x).
Proof.
  induction n as [|n IH]; [constructor|]. cbn [to_be_bytes]. constructor; [|done].
  change 255 with (2 ^ 8 - 1). rewrite land_ones_mod by lia. unfold is_byte.
  pose proof (Z.mod_pos_bound (Z.shiftr x (8 * Z.of_nat n)) (2 ^ 8)). lia.
Qed.

Lemma digest_range data : Forall is_byte (digest data).
Proof.
  rewrite digest_spec. unfold sha256_spec. apply Forall_concat, Forall_map, Forall_forall.
  intros x _. apply to_be_bytes_range.
Qed.

Definition is_lower_hex (byte : Z) : bool := is_digit byte || ((97 <=? byte) && (byte <=? 102)).

Lemma hex_digit_lower n : 0 ≤ n < 16 → is_lower_hex (hex_digit n) = true ∧ hex_value (hex_digit n) = Some n.
Proof.
  intros Hn. assert (Hin : n ∈ map Z.of_nat (seq 0 16)).
  { rewrite list_elem_of_fmap. exists (Z.to_nat n). rewrite elem_of_seq. lia. }
  cbn in Hin. repeat (apply elem_of_cons in Hin as [-> | Hin]; [by split|]). by apply elem_of_nil in Hin.
Qed.

Lemma lower_hex_byte b : is_lower_hex b = true → is_byte b ∧ b ≠ 0xFF.
Proof. unfold is_lower_hex, is_digit, is_byte. lia. Qed.

Lemma hex_digest_spec data : lower_hex (hex_digest data) = true ∧ zlen (hex_digest data) = 64.
Proof.
  unfold hex_digest, hex. set (l := flat_map _ (digest data)).
  assert (Hl : Forall (λ b, is_lower_hex b = true) l ∧ zlen l = 2 * zlen (digest data)).
  { unfold l. pose proof (digest_range data) as Hr. induction Hr as [|b bs Hb _ [IH1 IH2]]; [by split|].
    cbn [flat_map]. rewrite zlen_app, zlen_cons, IH2. split; [|unfold zlen; simpl; lia].
    apply Forall_app. split; [|done]. unfold is_byte in Hb.
    assert (0 ≤ Z.shiftr b 4 < 16) by (rewrite Z.shiftr_div_pow2 by lia; Z.div_mod_to_equations; lia).
    assert (0 ≤ Z.land b 15 < 16).
    { change 15 with (2 ^ 4 - 1). rewrite land_ones_mod by lia. Z.div_mod_to_equations; lia. }
    by repeat constructor; apply hex_digit_lower. }
  destruct Hl as [Hf Hz]. rewrite bytes_string_bytes.
  - split; [|by rewrite Hz; unfold zlen; rewrite length_digest]. unfold lower_hex. rewrite forallb_forall.
    rewrite Forall_forall in Hf. intros x Hx. by apply Hf, list_elem_of_In.
  - eapply Forall_impl; [exact Hf|]. by intros x [? _]%lower_hex_byte.
Qed.

Lemma lower_hex8_spec n :
  0 ≤ n < U32 → lower_hex (lower_hex8 n) = true ∧ zlen (lower_hex8 n) = 8 ∧ from_hex (lower_hex8 n) = Some n.
Proof.
  intros Hn. unfold U32 in Hn.
  assert (Hd : ∀ i, 0 ≤ Z.land (Z.shiftr n (4 * i)) 15 < 16).
  { intros i. change 15 with (2 ^ 4 - 1). rewrite land_ones_mod by lia. apply Z.mod_pos_bound. lia. }
  split; [|split; [done|]].
  - unfold lower_hex, lower_hex8. rewrite forallb_forall. intros x Hx.
    apply list_elem_of_In, list_elem_of_fmap in Hx as (i & -> & _). apply (hex_digit_lower _ (Hd i)).
  - unfold from_hex, lower_hex8. cbn [map length hex_go].
    rewrite !(proj2 (hex_digit_lower _ (Hd _))). f_equal.
    change 15 with (2 ^ 4 - 1). rewrite !land_ones_mod, !Z.shiftr_div_pow2 by lia.
    rewrite !lor_shiftl_add by (try apply Z.mod_pos_bound; lia).
    change (2 ^ 32) with 4294967296 in Hn. cbn -[Z.div Z.modulo Z.add Z.mul]. Z.div_mod_to_equations. lia.
Qed.

(** ** Frames *)

#[local] Opaque hex_digest lower_hex8.

(** A frame's bytes: the 80 digested bytes, then the rest of the header, then the body. *)
Definition digested_header (payload : list Z) : list Z :=
  MAGIC ++ [32] ++ lower_hex8 (zlen payload) ++ [32] ++ hex_digest payload.
Definition frame_header (payload : list Z) : list Z :=
  digested_header payload ++ [32] ++ hex_digest (digested_header payload) ++ [10].

Definition storable (payload : list Z) : Prop := 1 ≤ zlen payload ≤ MAX_PAYLOAD_BYTES.

Lemma frame_encode_Some payload status :
  storable payload →
  frame_encode payload status = Some (frame_header payload ++ payload ++ [status; 10]).
Proof.
  intros Hp. unfold frame_encode, storable in *.
  rewrite bool_decide_eq_false_2 by (intros ->; change (zlen []) with 0 in Hp; lia).
  rewrite (proj2 (Z.ltb_ge _ _)) by lia. cbn [orb]. cbn zeta.
  fold (digested_header payload). unfold frame_header. by rewrite <-!(app_assoc (digested_header payload)), <-(app_assoc [32]), <-(app_assoc (hex_digest _)).
Qed.

Lemma frame_encode_storable payload status frame : frame_encode payload status = Some frame → storable payload.
Proof.
  unfold frame_encode, storable. case_bool_decide as Hn; [done|]. destruct (Z.ltb_spec MAX_PAYLOAD_BYTES (zlen payload)); [done|].
  intros _. destruct payload; [done|]. rewrite zlen_cons in *. pose proof (zlen_nonneg payload). lia.
Qed.

(** The positions of a header's fields. *)
Lemma header_fields (length8 payload_digest header_digest more : list Z) :
  zlen length8 = 8 → zlen payload_digest = 64 → zlen header_digest = 64 →
  let h := (MAGIC ++ [32] ++ length8 ++ [32] ++ payload_digest) ++ [32] ++ header_digest ++ [10] ++ more in
  get_range h 0 6 = Some MAGIC ∧ get_at h 6 = Some 32 ∧ get_at h 15 = Some 32 ∧ get_at h 80 = Some 32 ∧
  get_at h 145 = Some 10 ∧ get_range h 7 15 = Some length8 ∧ get_range h 16 80 = Some payload_digest ∧
  get_range h 81 145 = Some header_digest ∧
  get_range h 0 80 = Some (MAGIC ++ [32] ++ length8 ++ [32] ++ payload_digest).
Proof.
  intros H1 H2 H3 h.
  assert (Hh : h = MAGIC ++ 32 :: length8 ++ 32 :: payload_digest ++ 32 :: header_digest ++ 10 :: more).
  { unfold h. by rewrite <-!app_assoc. }
  split_and!.
  - by apply (get_range_at _ [] _ _ 0 6 Hh).
  - by apply (get_at_middle _ _ _ _ 6 Hh).
  - apply (get_at_middle _ (MAGIC ++ [32] ++ length8) (payload_digest ++ 32 :: header_digest ++ 10 :: more));
      [rewrite Hh; by rewrite <-!app_assoc|by rewrite !zlen_app, H1].
  - apply (get_at_middle _ (MAGIC ++ [32] ++ length8 ++ [32] ++ payload_digest) (header_digest ++ 10 :: more));
      [done|by rewrite !zlen_app, H1, H2].
  - apply (get_at_middle _ ((MAGIC ++ [32] ++ length8 ++ [32] ++ payload_digest) ++ [32] ++ header_digest) more);
      [unfold h; by rewrite <-!app_assoc|by rewrite !zlen_app, H1, H2, H3].
  - apply (get_range_at _ (MAGIC ++ [32]) _ (32 :: payload_digest ++ 32 :: header_digest ++ 10 :: more));
      [rewrite Hh; by rewrite <-!app_assoc|done|by rewrite H1].
  - apply (get_range_at _ (MAGIC ++ [32] ++ length8 ++ [32]) _ (32 :: header_digest ++ 10 :: more));
      [rewrite Hh; by rewrite <-!app_assoc|by rewrite !zlen_app, H1|by rewrite !zlen_app, H1, H2].
  - apply (get_range_at _ ((MAGIC ++ [32] ++ length8 ++ [32] ++ payload_digest) ++ [32]) _ (10 :: more));
      [unfold h; by rewrite <-!app_assoc|by rewrite !zlen_app, H1, H2|by rewrite !zlen_app, H1, H2, H3].
  - apply (get_range_at _ [] _ ([32] ++ header_digest ++ [10] ++ more)); [done|done|by rewrite !zlen_app, H1, H2].
Qed.

(** The body behind a header, against the digest the header names. *)
Lemma committed_body (header payload named : list Z) status :
  zlen header = HEADER_BYTES → get_range (header ++ payload ++ [status; 10]) 16 80 = Some named →
  committed_payload (header ++ payload ++ [status; 10]) =
  if (status =? COMMITTED) && bool_decide (named = hex_digest payload) then Some payload else None.
Proof.
  intros Hh Hd. pose proof (zlen_nonneg payload) as Hp. set (frame := header ++ payload ++ [status; 10]) in *.
  assert (Hl : zlen frame = 146 + zlen payload + 2).
  { unfold frame. rewrite !zlen_app, Hh. unfold HEADER_BYTES. change (zlen [status; 10]) with 2. lia. }
  unfold committed_payload, usize_checked_sub. rewrite Hl, (proj2 (Z.leb_le 2 _)) by lia. cbn [mbind option_bind].
  set (end_ := 146 + zlen payload + 2 - 2).
  assert (Hbody : get_range frame HEADER_BYTES end_ = Some payload).
  { apply (get_range_at frame header payload [status; 10]); [done|done|].
    rewrite Hh. unfold HEADER_BYTES, end_. lia. }
  assert (Hstatus : get_range frame end_ (146 + zlen payload + 2) = Some [status; 10]).
  { apply (get_range_at frame (header ++ payload) [status; 10] []).
    - unfold frame. by rewrite <-app_assoc.
    - rewrite zlen_app, Hh. unfold HEADER_BYTES, end_. lia.
    - rewrite zlen_app, Hh. unfold HEADER_BYTES. change (zlen [status; 10]) with 2. lia. }
  rewrite Hbody. cbn [mbind option_bind]. rewrite Hstatus.
  cbn [mbind option_bind]. rewrite Hd. cbn [mbind option_bind].
  destruct (Z.eqb_spec status COMMITTED) as [->|Hs]; [by rewrite (bool_decide_eq_true_2 ([COMMITTED; 10] = _) eq_refl)|].
  by rewrite (bool_decide_eq_false_2 ([status; 10] = _)) by congruence.
Qed.

Section FrameOf.
Context (payload : list Z) (Hstorable : storable payload).

Lemma length_field :
  lower_hex (lower_hex8 (zlen payload)) = true ∧ zlen (lower_hex8 (zlen payload)) = 8 ∧
  from_hex (lower_hex8 (zlen payload)) = Some (zlen payload).
Proof using Hstorable. apply lower_hex8_spec. unfold storable, MAX_PAYLOAD_BYTES, U32 in *. lia. Qed.

Lemma zlen_hex_digest data : zlen (hex_digest data) = 64.
Proof. apply hex_digest_spec. Qed.

Lemma zlen_frame_header : zlen (frame_header payload) = HEADER_BYTES.
Proof using Hstorable.
  destruct length_field as (_ & Hz & _). unfold frame_header, digested_header.
  by rewrite !zlen_app, !zlen_hex_digest, Hz.
Qed.

Definition own_digest : list Z := hex_digest (digested_header payload).

Lemma frame_header_fields more :
  let h := frame_header payload ++ more in
  get_range h 0 6 = Some MAGIC ∧ get_at h 6 = Some 32 ∧ get_at h 15 = Some 32 ∧ get_at h 80 = Some 32 ∧
  get_at h 145 = Some 10 ∧ get_range h 7 15 = Some (lower_hex8 (zlen payload)) ∧
  get_range h 16 80 = Some (hex_digest payload) ∧ get_range h 81 145 = Some own_digest ∧
  get_range h 0 80 = Some (digested_header payload).
Proof using Hstorable.
  cbn zeta. destruct length_field as (_ & Hz & _).
  pose proof (header_fields (lower_hex8 (zlen payload)) (hex_digest payload) own_digest more Hz
                (zlen_hex_digest _) (zlen_hex_digest _)) as H.
  unfold frame_header. rewrite <-!(app_assoc (digested_header payload)), <-(app_assoc [32]), <-(app_assoc (hex_digest _)).
  exact H.
Qed.

Lemma header_announces : announced_length (frame_header payload) = Some (zlen payload).
Proof using Hstorable.
  destruct length_field as (Hx & _ & Hv). pose proof (frame_header_fields []) as H.
  rewrite app_nil_r in H. cbn zeta in H. destruct H as (H1 & H2 & H3 & H4 & H5 & H6 & H7 & H8 & H9).
  unfold announced_length, DIGESTED_HEADER_BYTES.
  rewrite H1, H2, H3, H4, H5, H6, H7, H8, H9. cbn [mbind option_bind].
  assert (Hd : ∀ data, lower_hex (hex_digest data) = true) by (intros; apply hex_digest_spec).
  unfold own_digest. rewrite Hx, !Hd, !bool_decide_eq_true_2 by done. rewrite !Z.eqb_refl. cbn [andb orb negb].
  rewrite Hv. cbn [mbind option_bind]. unfold storable in Hstorable.
  by rewrite (proj2 (Z.leb_le 1 _)), (proj2 (Z.leb_le _ MAX_PAYLOAD_BYTES)) by lia.
Qed.

Lemma frame_payload status :
  committed_payload (frame_header payload ++ payload ++ [status; 10]) =
  if status =? COMMITTED then Some payload else None.
Proof using Hstorable.
  pose proof (frame_header_fields (payload ++ [status; 10])) as H. cbn zeta in H.
  destruct H as (_ & _ & _ & _ & _ & _ & Hd & _ & _).
  rewrite (committed_body _ _ _ _ zlen_frame_header Hd).
  rewrite (bool_decide_eq_true_2 (hex_digest payload = hex_digest payload) eq_refl). by rewrite andb_true_r.
Qed.
End FrameOf.

Lemma frame_shape payload status :
  storable payload → no_ff payload → status ≠ 0xFF →
  ∃ tail, frame_header payload ++ payload ++ [status; 10] = 0xFF :: tail ∧ no_ff tail.
Proof.
  intros Hp Hn Hs. destruct (length_field payload Hp) as (Hl & _ & _).
  assert (Hhex : ∀ l, lower_hex l = true → no_ff l).
  { intros l. unfold lower_hex. rewrite forallb_forall. intros H. apply Forall_forall. intros x Hx.
    by apply lower_hex_byte, H, list_elem_of_In. }
  unfold frame_header, digested_header, MAGIC. rewrite <-!app_assoc. cbn [app]. eexists. split; [done|].
  assert (Hd : ∀ data, no_ff (hex_digest data)) by (intros; apply Hhex, hex_digest_spec).
  specialize (Hhex _ Hl).
  unfold no_ff in *. repeat first [apply Forall_app; split | apply Forall_cons; split | apply Forall_nil]; try done; auto.
Qed.

Lemma zlen_frame payload status :
  storable payload → zlen (frame_header payload ++ payload ++ [status; 10]) = zlen payload + (HEADER_BYTES + 2).
Proof. intros Hp. rewrite !zlen_app, zlen_frame_header by done. change (zlen [status; 10]) with 2. lia. Qed.

(** A whole frame, and what a write left behind when it stopped in the middle of one. *)
Lemma scan_frame payload status :
  storable payload → no_ff payload → status ≠ 0xFF →
  scan_spec (frame_header payload ++ payload ++ [status; 10]) =
  [if status =? COMMITTED then Scanned.Frame payload else Scanned.Torn].
Proof.
  intros Hp Hn Hs. destruct (frame_shape payload status Hp Hn Hs) as (tail & Hf & Ht).
  pose proof (zlen_frame_header payload Hp) as Hh. pose proof (frame_payload payload Hp status) as Hc.
  pose proof (zlen_frame payload status Hp) as Hlen.
  assert (Htake : take (Z.to_nat HEADER_BYTES) (frame_header payload ++ payload ++ [status; 10]) = frame_header payload).
  { rewrite take_app_le, take_short by (rewrite ?Hh; unfold zlen, HEADER_BYTES in *; lia). done. }
  rewrite Hf in *. rewrite scan_spec_region by done.
  assert (Hr : region_state (255 :: tail) = read_attempt (255 :: tail)) by done.
  unfold region_items. rewrite Hr. unfold storable in Hp. unfold read_attempt.
  rewrite (proj2 (Z.ltb_ge _ HEADER_BYTES)) by (unfold HEADER_BYTES in *; lia).
  rewrite Htake, header_announces by done.
  replace (zlen payload + (HEADER_BYTES + 2)) with (zlen (255 :: tail)) by lia.
  rewrite Z.ltb_irrefl, take_short, Hc, Z.eqb_refl by lia. by destruct (status =? COMMITTED).
Qed.

Lemma scan_prefix payload status k :
  storable payload → no_ff payload → status ≠ 0xFF →
  (0 < k)%nat → Z.of_nat k < zlen (frame_header payload ++ payload ++ [status; 10]) →
  scan_spec (take k (frame_header payload ++ payload ++ [status; 10])) = [Scanned.Torn].
Proof.
  intros Hp Hn Hs Hk Hbound. destruct (frame_shape payload status Hp Hn Hs) as (tail & Hf & Ht).
  pose proof (zlen_frame_header payload Hp) as Hh.
  pose proof (zlen_frame payload status Hp) as Hlen.
  set (frame := frame_header payload ++ payload ++ [status; 10]) in *.
  assert (Htake : ∀ n, (Z.to_nat HEADER_BYTES ≤ n)%nat →
    take (Z.to_nat HEADER_BYTES) (take n frame) = frame_header payload).
  { intros n Hl. rewrite take_take, Nat.min_l by done. unfold frame.
    rewrite take_app_le, take_short by (rewrite ?Hh; unfold zlen, HEADER_BYTES in *; lia). done. }
  destruct k as [|k]; [lia|]. assert (Hshape : take (S k) frame = 255 :: take k tail) by (rewrite Hf; done).
  rewrite Hshape, scan_spec_region by (unfold no_ff; by apply Forall_take). rewrite <-Hshape.
  assert (Hr : region_state (take (S k) frame) = read_attempt (take (S k) frame)) by (rewrite Hshape; done).
  unfold region_items. rewrite Hr.
  assert (Hz : zlen (take (S k) frame) = Z.of_nat (S k)) by (unfold zlen in *; rewrite length_take; lia).
  unfold read_attempt. rewrite Hz. destruct (Z.ltb_spec (Z.of_nat (S k)) HEADER_BYTES) as [|Hge]; [done|].
  rewrite Htake, header_announces by (done || lia).
  by rewrite (proj2 (Z.ltb_lt _ (zlen payload + (HEADER_BYTES + 2)))) by lia.
Qed.

Lemma frame_encode_frame payload status frame :
  frame_encode payload status = Some frame →
  storable payload ∧ frame = frame_header payload ++ payload ++ [status; 10].
Proof.
  intros H. pose proof (frame_encode_storable _ _ _ H) as Hs. split; [done|].
  rewrite frame_encode_Some in H by done. by injection H as <-.
Qed.

(** Behind any bytes, a whole frame adds its item; frames add theirs in order. *)
Lemma scan_spec_frame base payload status frame :
  frame_encode payload status = Some frame → no_ff payload → status ≠ 0xFF →
  scan_spec (base ++ frame) =
  scan_spec base ++ [if status =? COMMITTED then Scanned.Frame payload else Scanned.Torn].
Proof.
  intros [Hs ->]%frame_encode_frame Hn Hst. destruct (frame_shape payload status Hs Hn Hst) as (tail & Hf & _).
  rewrite <-scan_frame by done. rewrite Hf. apply scan_spec_app.
Qed.

Definition committed_frames (payloads frames : list (list Z)) : Prop :=
  Forall2 (λ payload frame, frame_encode payload COMMITTED = Some frame ∧ no_ff payload) payloads frames.

Lemma scan_spec_frames base payloads frames :
  committed_frames payloads frames →
  scan_spec (base ++ concat frames) = scan_spec base ++ map Scanned.Frame payloads.
Proof.
  intros H. revert base. induction H as [|payload frame payloads frames [Hf Hn] _ IH]; intros base; cbn [concat map].
  - by rewrite !app_nil_r.
  - rewrite app_assoc, IH, (scan_spec_frame _ _ _ _ Hf Hn) by done. by rewrite <-app_assoc.
Qed.

(** What [k] bytes of a frame with [status] leave behind. *)
Definition crash_items (payload : list Z) (status : Z) (frame : list Z) (k : nat) : list Scanned.t :=
  if Nat.eqb k 0 then []
  else if Nat.leb (length frame) k && (status =? COMMITTED) then [Scanned.Frame payload]
  else [Scanned.Torn].

Lemma scan_spec_crash base payload status frame k :
  frame_encode payload status = Some frame → no_ff payload → status ≠ 0xFF →
  scan_spec (base ++ take k frame) = scan_spec base ++ crash_items payload status frame k.
Proof.
  intros Hf Hn Hst. unfold crash_items. destruct (Nat.eqb_spec k 0) as [->|Hk]; [by rewrite !app_nil_r|].
  destruct (Nat.leb_spec (length frame) k) as [Hle|Hlt].
  { rewrite take_ge by lia. rewrite (scan_spec_frame _ _ _ _ Hf) by done. simpl. by destruct (status =? COMMITTED). }
  simpl. apply frame_encode_frame in Hf as [Hs ->].
  destruct (frame_shape payload status Hs Hn Hst) as (tail & Hf & _).
  pose proof (scan_prefix payload status k Hs Hn Hst ltac:(lia) ltac:(unfold zlen; lia)) as Hp.
  destruct k as [|k]; [lia|]. rewrite Hf in *. cbn [take] in *. rewrite <-Hp. apply scan_spec_app.
Qed.

(** [C31] Feeding a file in any pieces finds what splitting all of it at its [0xFF] bytes and
    classifying every region on its own finds; and where the reading stops instead, the attempt in
    progress is reported TORN behind the records already found. *)
Theorem scan_in_any_pieces pieces :
  scanner_finish (fold_left feed pieces Scanner_default) = scan_spec (concat pieces) ∧
  abort (fold_left feed pieces Scanner_default) =
    (let '(before, last) := split_regions [] (concat pieces) in
     flat_map region_items before ++ (region_state last).1 ++ [Scanned.Torn]).
Proof.
  change Scanner_default with (fed [] [] []). rewrite feed_pieces. cbn [app]. split; [apply fed_finish|].
  unfold abort, fed. destruct (split_regions [] (concat pieces)) as [before last]. simpl. by rewrite <-app_assoc.
Qed.

(** A crash in the middle of an append: after any number of committed frames and the first [k]
    bytes of a frame, the scan returns the committed payloads, and then nothing when no byte was
    written, the payload only when its whole frame is there with the committed status, and one TORN
    otherwise. *)
Theorem scan_after_crash payloads frames payload status frame k :
  committed_frames payloads frames →
  frame_encode payload status = Some frame → no_ff payload → status ≠ 0xFF →
  scan_bytes (concat frames ++ take k frame) =
  map Scanned.Frame payloads ++ crash_items payload status frame k.
Proof.
  intros Hc Hf Hn Hs. rewrite scan_bytes_spec, (scan_spec_crash _ _ _ _ _ Hf) by done.
  by rewrite <-(app_nil_l (concat frames)), (scan_spec_frames [] _ _ Hc).
Qed.

Lemma scan_after_crash_witness :
  let frame status payload := default [] (frame_encode (bytes_of payload) status) in
  scan_bytes ((frame COMMITTED "[1]" ++ frame COMMITTED "[2]" ++ []) ++ take 148 (frame PENDING "[3]")) =
  [Scanned.Frame (bytes_of "[1]"); Scanned.Frame (bytes_of "[2]"); Scanned.Torn].
Proof.
  apply (scan_after_crash [bytes_of "[1]"; bytes_of "[2]"]
           [default [] (frame_encode (bytes_of "[1]") COMMITTED); default [] (frame_encode (bytes_of "[2]") COMMITTED)]
           (bytes_of "[3]") PENDING (default [] (frame_encode (bytes_of "[3]") PENDING)) 148).
  - repeat constructor; by vm_compute.
  - vm_compute. reflexivity.
  - repeat constructor; by vm_compute.
  - by vm_compute.
Defined.
