(* ===== verification/RecordCodec.v ===== *)
(** * The record codec is a bijection onto the gate's tuples

    A record whose text is UTF-8 and whose counters fit their types is written as canonical JSON
    and read back as itself, the decoder accepts nothing else, and distinct records have distinct
    payloads; so for the markers and the index entries. *)

From S2P Require Import Prelude Slices Sha256 Json JsonParse JsonEncode JsonRoundtrip JsonInt.
From S2P Require Import Frame Render Types Journal StoreFrame StoreScan.
(** ** What Rust's types say of a record *)

Definition u16 (n : Z) : Prop := 0 ≤ n < U16.
Definition i64 (n : Z) : Prop := in_i64 n = true.
Definition opt_text (o : option string) : Prop := match o with Some s => utf8_text s | None => True end.

Definition typed_terminal (d : TerminalDetails.t) : Prop :=
  match d with
  | TerminalDetails.Delivered http_status result_digest uid version =>
      i64 http_status ∧ utf8_text result_digest ∧ opt_text uid ∧ opt_text version
  | TerminalDetails.Reconciliation http_status result_digest => i64 http_status ∧ utf8_text result_digest
  | TerminalDetails.None | TerminalDetails.Aborted => True
  end.

Definition typed_write (d : WriteDetails.t) : Prop :=
  match d with
  | WriteDetails.Delivered http_status result_digest uid version =>
      i64 http_status ∧ utf8_text result_digest ∧ opt_text uid ∧ opt_text version
  | WriteDetails.Reconciliation http_status result_digest => i64 http_status ∧ utf8_text result_digest
  | WriteDetails.Lost | WriteDetails.Aborted _ => True
  end.

Definition typed_prior (p : option Prior) : Prop :=
  match p with
  | Some p => utf8_text (prior_uid p) ∧ utf8_text (prior_resource_version p) ∧ utf8_text (prior_projection_digest p)
  | None => True
  end.

Definition typed_record (r : Rec.t) : Prop :=
  match r with
  | Rec.Bind execution_id run_nonce reservation_digest digests identities =>
      utf8_text execution_id ∧ utf8_text run_nonce ∧ utf8_text reservation_digest ∧
      Forall utf8_text digests ∧ Forall utf8_text identities
  | Rec.Arm action_id _ manifest_digest recorded_uid template_digest =>
      u16 action_id ∧ utf8_text manifest_digest ∧ opt_text recorded_uid ∧ utf8_text template_digest
  | Rec.Consumed id | Rec.Sealed id _ _ | Rec.Denied id | Rec.LateUpstream id | Rec.WriteLateUpstream id => u16 id
  | Rec.Terminal id _ _ details => u16 id ∧ typed_terminal details
  | Rec.Expired text | Rec.MaintRequested text => utf8_text text
  | Rec.WriteForwarded id _ api_version kind namespace name request_digest prior =>
      u16 id ∧ utf8_text api_version ∧ utf8_text kind ∧ opt_text namespace ∧ utf8_text name ∧
      utf8_text request_digest ∧ typed_prior prior
  | Rec.WriteTerminal id _ details => u16 id ∧ typed_write details
  | Rec.MaintEnded _ writes ambiguous => u16 writes ∧ Forall u16 ambiguous
  | _ => True
  end.

(** ** The document of a record is well formed *)

Create HintDb codec.
Create Rewrite HintDb codec.

Lemma u16_i64 n : u16 n → in_i64 n = true.
Proof. unfold u16, U16, in_i64, I64_MIN, I64_MAX. lia. Qed.

Lemma ascii_text s : forallb (λ b, (0 <=? b) && (b <? 128)) (bytes_of s) = true → utf8_text s.
Proof.
  intros H. apply utf8_ascii. apply Forall_forall. intros b Hb.
  rewrite forallb_forall in H. specialize (H b (proj1 (list_elem_of_In _ _) Hb)). lia.
Qed.

(** The names the gate writes are ASCII. *)
Ltac name_text := match goal with |- utf8_text ?s => apply ascii_text; vm_compute; reflexivity end.

Lemma state_text s : utf8_text (State.as_str s). Proof. destruct s; name_text. Qed.
Lemma classification_text c : utf8_text (Classification.as_str c). Proof. destruct c; name_text. Qed.
Lemma close_text r : utf8_text (CloseReason.as_str r). Proof. destruct r; name_text. Qed.
Lemma fatal_text r : utf8_text (FatalReason.as_str r). Proof. destruct r as [[]| | | | | | | | | |]; name_text. Qed.
Lemma invalidation_text i : utf8_text (Invalidation.as_str i).
Proof. destruct i; [apply close_text|apply fatal_text|name_text]. Qed.
Lemma verb_text v : utf8_text (Verb_as_str v). Proof. destruct v; name_text. Qed.
Lemma operation_text o : utf8_text (WriteOperation.as_str o). Proof. destruct o; name_text. Qed.
Lemma abort_text r : utf8_text (AbortReason.as_str r). Proof. destruct r; name_text. Qed.
Lemma channel_text e : utf8_text (ChannelEnd.as_str e). Proof. destruct e; name_text. Qed.
Lemma session_text e : utf8_text (SessionEnd.as_str e). Proof. destruct e; name_text. Qed.
Lemma maintenance_text e : utf8_text (MaintenanceEnd.as_str e). Proof. destruct e as [|[]]; name_text. Qed.

#[export] Hint Resolve u16_i64 state_text classification_text close_text invalidation_text verb_text
  operation_text abort_text channel_text session_text maintenance_text : codec.
#[export] Hint Extern 1 (utf8_text _) => name_text : codec.

Lemma wf_opt_str o : opt_text o → wf_doc (doc_opt_str o).
Proof. by destruct o. Qed.
Lemma wf_strings l : Forall utf8_text l → wf_doc (Rec.strings l).
Proof. intros H. apply wf_doc_array, Forall_map. exact H. Qed.
Lemma wf_ints l : Forall u16 l → wf_doc (DArray (map DInt l)).
Proof. intros H. apply wf_doc_array, Forall_map. eapply Forall_impl; [exact H|]. apply u16_i64. Qed.

Lemma wf_members members :
  NoDup (map fst members) → Forall (λ e, utf8_text e.1 ∧ wf_doc e.2) members → wf_doc (DObject members).
Proof. intros Hn H. apply wf_doc_object. split; [done|]. by apply Forall_and in H. Qed.

#[export] Hint Resolve wf_opt_str wf_strings wf_ints : codec.

(** Solves the well-formedness of a literal object. *)
Ltac wf_members :=
  apply wf_members; [by apply (bool_decide_unpack _); vm_compute|];
  repeat (apply Forall_cons; split; [split; [by name_text|simpl; auto with codec]|]); apply Forall_nil; done.

Lemma wf_terminal d : typed_terminal d → wf_doc (TerminalDetails.to_doc d).
Proof. destruct d; simpl typed_terminal; intros H; destruct_and?; unfold TerminalDetails.to_doc; wf_members. Qed.
Lemma wf_write d : typed_write d → wf_doc (WriteDetails.to_doc d).
Proof. destruct d; simpl typed_write; intros H; destruct_and?; unfold WriteDetails.to_doc; wf_members. Qed.
Lemma wf_prior p : typed_prior p → wf_doc match p with Some p => Prior_to_doc p | None => DNull end.
Proof. destruct p as [p|]; [|done]. intros (? & ? & ?). unfold Prior_to_doc. wf_members. Qed.

#[export] Hint Resolve wf_terminal wf_write wf_prior : codec.

(** The same, of a tuple. *)
Ltac wf_tuple :=
  apply wf_doc_array; repeat (apply Forall_cons; split); try apply Forall_nil; auto with codec; simpl; auto with codec.

Lemma wf_record r : typed_record r → wf_doc (Rec.to_doc r).
Proof. intros H. destruct r; simpl typed_record in H; destruct_and?; unfold Rec.to_doc; wf_tuple. Qed.

(** ** Reading the fields back *)

Definition written (d : Doc) : Value := normalize (doc_to_value d).

Lemma written_text s : utf8_text s → as_str (written (DStr s)) = Some s.
Proof. intros H. unfold written. cbn. unfold jstr_as_str, from_utf8, jstr, utf8_text in *. by rewrite H, string_bytes_string. Qed.

Lemma written_opt o : opt_text o → Decode.optional_text (written (doc_opt_str o)) = Some o.
Proof. destruct o as [s|]; [|done]. intros H. change (Decode.optional_text _) with (let* t := as_str (written (DStr s)) in Some (Some t)).
  by rewrite written_text. Qed.

Lemma mapM_written {A} (f : Value → option A) (g : A → Doc) l :
  Forall (λ x, f (written (g x)) = Some x) l → mapM f (map written (map g l)) = Some l.
Proof. induction 1 as [|x l Hx _ IH]; [done|]. simpl. by rewrite Hx; simpl; rewrite IH. Qed.

Lemma written_array ds : as_array (written (DArray ds)) = Some (map written ds).
Proof. unfold written. cbn. by rewrite map_map. Qed.

Lemma written_texts l : Forall utf8_text l → Decode.texts (written (Rec.strings l)) = Some l.
Proof.
  intros H. unfold Decode.texts, Rec.strings. rewrite written_array. cbn [mbind option_bind]. apply mapM_written.
  eapply Forall_impl; [exact H|]. intros s. apply written_text.
Qed.

Lemma written_int n : i64 n → Decode.integer (written (DInt n)) = Some n.
Proof.
  intros Hn. unfold Decode.integer, written. cbn [doc_to_value value_int normalize as_int mbind option_bind].
  destruct (int_of_value n) as [Hw Hv].
  pose proof (to_i128_value _ I64_MIN I64_MAX Hw ltac:(by vm_compute) ltac:(by vm_compute)) as H.
  unfold to_i64. unfold int_from_i64, i64, in_i64 in *. rewrite Hv in H. by rewrite Hn in H.
Qed.

Lemma written_small n : u16 n → Decode.small (written (DInt n)) = Some n.
Proof.
  intros Hn. unfold Decode.small. rewrite written_int by by apply u16_i64. cbn. unfold u16_try_from, u16 in *.
  by rewrite (proj2 (andb_true_iff _ _)) by lia.
Qed.

Lemma written_smalls l : Forall u16 l → mapM Decode.small (map written (map DInt l)) = Some l.
Proof. intros H. apply mapM_written. eapply Forall_impl; [exact H|]. apply written_small. Qed.

Lemma written_bool b : as_bool (written (DBool b)) = Some b.
Proof. done. Qed.

(** A name of a closed vocabulary. *)
Lemma written_named {T} (t : T) candidates name :
  utf8_text (name t) → List.find (λ c, bool_decide (name c = name t)) candidates = Some t →
  Decode.named (written (DStr (name t))) candidates name = Some t.
Proof. intros Hu Hf. unfold Decode.named. rewrite written_text by done. exact Hf. Qed.

Lemma written_classification c : Decode.classification (written (DStr (Classification.as_str c))) = Some c.
Proof. apply written_named; [auto with codec|by destruct c]. Qed.
Lemma written_session e : Decode.named (written (DStr (SessionEnd.as_str e))) Decode.SESSION_ENDS SessionEnd.as_str = Some e.
Proof. apply written_named; [auto with codec|by destruct e]. Qed.
Lemma written_maintenance e :
  Decode.named (written (DStr (MaintenanceEnd.as_str e))) Decode.MAINTENANCE_ENDS MaintenanceEnd.as_str = Some e.
Proof. apply written_named; [auto with codec|by destruct e as [|[]]]. Qed.
Lemma written_abort r : Decode.named (written (DStr (AbortReason.as_str r))) Decode.ABORT_REASONS AbortReason.as_str = Some r.
Proof. apply written_named; [auto with codec|by destruct r]. Qed.
Lemma written_state s : Decode.state (written (DStr (State.as_str s))) = Some s.
Proof. unfold Decode.state. rewrite written_text by auto with codec. apply State_parse_as_str. Qed.
Lemma written_channel e : Decode.channel_end (written (DStr (ChannelEnd.as_str e))) = Some e.
Proof. unfold Decode.channel_end. rewrite written_text by auto with codec. by destruct e. Qed.
Lemma written_invalidation i : Decode.invalidation (written (DStr (Invalidation.as_str i))) = Some i.
Proof.
  destruct i as [r|r|]; cbn [Invalidation.as_str].
  - unfold Decode.invalidation. rewrite written_text by apply close_text. cbn [mbind option_bind].
    rewrite bool_decide_eq_false_2 by by destruct r. by rewrite CloseReason_parse_as_str.
  - unfold Decode.invalidation. rewrite written_text by apply fatal_text. cbn [mbind option_bind].
    rewrite bool_decide_eq_false_2 by by destruct r as [[]| | | | | | | | | |].
    replace (CloseReason.parse (FatalReason.as_str r)) with (@None CloseReason.t) by by destruct r as [[]| | | | | | | | | |].
    rewrite written_named; [done|apply fatal_text|]. by destruct r as [[]| | | | | | | | | |].
  - by vm_compute.
Qed.

#[export] Hint Rewrite written_int written_small written_smalls written_texts written_opt written_text
  using (first [assumption | auto with codec; fail]) : codec.
#[export] Hint Rewrite written_classification written_session written_maintenance written_abort written_state
  written_channel written_invalidation written_array : codec.

(** Reads every field of a written tuple back. *)
Ltac read_back :=
  unfold Decode.text; repeat (cbn [mbind option_bind]; progress autorewrite with codec); cbn [mbind option_bind fmap option_map option_fmap]; try done.

(** The members of a written literal object. *)
Lemma written_object members :
  NoDup (map fst members) →
  written (DObject members) = VObject (sort_members (map (λ e, (bytes_of e.1, written e.2)) members)).
Proof.
  intros Hn. unfold written. rewrite doc_object_value by done. cbn [normalize]. by rewrite map_map.
Qed.

Section Details.
Context (h d u v : Doc).

Lemma written_two :
  let o := written (DObject [("httpStatus", h); ("resultDigest", d)]) in
  (∃ l, as_object o = Some l ∧ length l = 2%nat) ∧
  value_get o "httpStatus" = Some (written h) ∧ value_get o "resultDigest" = Some (written d).
Proof.
  cbn zeta. rewrite written_object by (by apply (bool_decide_unpack _); vm_compute).
  cbn [map fst snd]. generalize (written h) (written d). intros h' d'. split; [eexists; split; vm_compute; reflexivity|].
  by vm_compute.
Qed.

Lemma written_four :
  let o := written (DObject [("httpStatus", h); ("resultDigest", d); ("observedUid", u); ("observedResourceVersion", v)]) in
  (∃ l, as_object o = Some l ∧ length l = 4%nat) ∧
  value_get o "httpStatus" = Some (written h) ∧ value_get o "resultDigest" = Some (written d) ∧
  value_get o "observedUid" = Some (written u) ∧ value_get o "observedResourceVersion" = Some (written v).
Proof.
  cbn zeta. rewrite written_object by (by apply (bool_decide_unpack _); vm_compute).
  cbn [map fst snd]. generalize (written h) (written d) (written u) (written v). intros h' d' u' v'.
  split; [eexists; split; vm_compute; reflexivity|]. by vm_compute.
Qed.

Lemma written_one :
  let o := written (DObject [("aborted", h)]) in
  (∃ l, as_object o = Some l ∧ length l = 1%nat) ∧ value_get o "aborted" = Some (written h).
Proof.
  cbn zeta. rewrite written_object by (by apply (bool_decide_unpack _); vm_compute).
  cbn [map fst snd]. generalize (written h). intros h'. split; [eexists; split; vm_compute; reflexivity|by vm_compute].
Qed.
End Details.

Lemma written_terminal d : typed_terminal d → Decode.terminal_details (written (TerminalDetails.to_doc d)) = Some d.
Proof.
  destruct d as [h r u v|h r| |]; cbn [typed_terminal TerminalDetails.to_doc].
  - intros (Hh & Hr & Hu & Hv).
    destruct (written_four (DInt h) (DStr r) (doc_opt_str u) (doc_opt_str v)) as ((l & Ho & Hl) & E1 & E2 & E3 & E4).
    unfold Decode.terminal_details. rewrite Ho. cbn [mbind option_bind]. rewrite Hl, E1, E2, E3, E4.
    read_back.
  - intros (Hh & Hr). destruct (written_two (DInt h) (DStr r)) as ((l & Ho & Hl) & E1 & E2).
    unfold Decode.terminal_details. rewrite Ho. cbn [mbind option_bind]. rewrite Hl, E1, E2. read_back.
  - by vm_compute.
  - by vm_compute.
Qed.

Lemma written_write d : typed_write d → Decode.write_details (written (WriteDetails.to_doc d)) = Some d.
Proof.
  destruct d as [h r u v|h r| |r]; cbn [typed_write WriteDetails.to_doc].
  - intros (Hh & Hr & Hu & Hv).
    destruct (written_four (DInt h) (DStr r) (doc_opt_str u) (doc_opt_str v)) as ((l & Ho & Hl) & E1 & E2 & E3 & E4).
    unfold Decode.write_details. rewrite Ho. cbn [mbind option_bind]. rewrite Hl, E1, E2, E3, E4.
    read_back.
  - intros (Hh & Hr). destruct (written_two (DInt h) (DStr r)) as ((l & Ho & Hl) & E1 & E2).
    unfold Decode.write_details. rewrite Ho. cbn [mbind option_bind]. rewrite Hl, E1, E2. read_back.
  - by vm_compute.
  - intros _. destruct r; by vm_compute.
Qed.

Lemma written_prior p :
  typed_prior p → Decode.prior (written match p with Some p => Prior_to_doc p | None => DNull end) = Some p.
Proof.
  destruct p as [[uid version projection]|]; [|done]. intros (Hu & Hv & Hp). unfold Prior_to_doc.
  cbn [prior_uid prior_resource_version prior_projection_digest] in *.
  rewrite written_object by (by apply (bool_decide_unpack _); vm_compute). cbn [map fst snd].
  apply written_text in Hu, Hv, Hp. revert Hu Hv Hp. generalize (written (DStr uid)) (written (DStr version)) (written (DStr projection)).
  intros u v p Hu Hv Hp. unfold Decode.prior.
  set (o := VObject _).
  assert (E : is_null o = false ∧ value_get o "uid" = Some u ∧ value_get o "resourceVersion" = Some v ∧
    value_get o "projectionDigest" = Some p) by (split_and!; vm_compute; reflexivity).
  destruct E as (-> & -> & -> & ->). unfold Decode.text. cbn [mbind option_bind]. rewrite Hu. cbn [mbind option_bind]. rewrite Hv.
  cbn [mbind option_bind]. by rewrite Hp.
Qed.

#[export] Hint Rewrite written_terminal written_write written_prior using assumption : codec.

Lemma Verb_parse_as_str v : Verb_parse (Verb_as_str v) = Some v.
Proof. by destruct v. Qed.
Lemma WriteOperation_parse_as_str o : WriteOperation.parse (WriteOperation.as_str o) = Some o.
Proof. by destruct o. Qed.
#[export] Hint Rewrite Verb_parse_as_str WriteOperation_parse_as_str CloseReason_parse_as_str : codec.

Lemma canonical_value_doc d : wf_doc d → canonical_value (doc_canonical d) = Some (written d).
Proof.
  intros Hw. unfold canonical_value. rewrite utf8_doc_canonical, doc_parses, doc_canonical_again by done. cbn [negb].
  by rewrite bool_decide_eq_true_2.
Qed.

Lemma decode_record_doc r : typed_record r → decode_record (doc_canonical (Rec.to_doc r)) = Some r.
Proof.
  intros Hr. unfold decode_record. rewrite canonical_value_doc by by apply wf_record. cbn [mbind option_bind].
  assert (H : ∃ tag fields name, as_array (written (Rec.to_doc r)) = Some (tag :: fields) ∧
    as_str tag = Some name ∧ decode_fields name fields = Some r).
  { destruct r; cbn [typed_record] in Hr; destruct_and?; unfold Rec.to_doc; rewrite written_array; cbn [map];
      do 3 eexists; (split; [reflexivity|]); (split; [apply written_text; name_text|]); cbn [decode_fields];
      read_back. }
  destruct H as (tag & fields & name & Ha & Ht & Hd).
  rewrite Ha. cbn [mbind option_bind]. rewrite Ht. cbn [mbind option_bind]. rewrite Hd. cbn [mbind option_bind].
  by rewrite bool_decide_eq_true_2.
Qed.

Lemma decode_record_accepts payload r : decode_record payload = Some r → doc_canonical (Rec.to_doc r) = payload.
Proof.
  unfold decode_record. intros (value & _ & H)%bind_Some. apply bind_Some in H as (items & _ & H).
  destruct items as [|tag fields]; [done|]. apply bind_Some in H as (name & _ & H).
  apply bind_Some in H as (record & _ & H). by case_bool_decide; simplify_eq.
Qed.

(** [C33] The record codec: every record whose fields fit their types is read back from its payload,
    the decoder accepts no other payload for it, and its payload is UTF-8 without the byte that
    starts a frame. *)
Theorem records_read_back r payload :
  typed_record r →
  (decode_record payload = Some r ↔ payload = doc_canonical (Rec.to_doc r)) ∧
  utf8_valid (doc_canonical (Rec.to_doc r)) = true ∧ no_ff (doc_canonical (Rec.to_doc r)).
Proof.
  intros Hr. pose proof (utf8_doc_canonical _ (wf_record r Hr)) as Hu. split; [|split; [done|by apply utf8_no_ff]].
  split; [intros H%decode_record_accepts; done|intros ->; by apply decode_record_doc].
Qed.

Lemma decode_generation_payload g : utf8_text g → decode_generation (generation_payload g) = Some g.
Proof.
  intros Hg. unfold decode_generation, generation_payload. rewrite canonical_value_doc.
  - cbn [mbind option_bind]. rewrite written_array. cbn [map mbind option_bind].
    rewrite (written_text "GENERATION") by name_text. rewrite bool_decide_eq_true_2 by done. by apply written_text.
  - wf_tuple.
Qed.

Lemma decode_marker_payload g m : utf8_text g → utf8_text m → decode_marker (marker_payload g m) = Some (g, m).
Proof.
  intros Hg Hm. unfold decode_marker, marker_payload. rewrite canonical_value_doc.
  - cbn [mbind option_bind]. rewrite written_array. cbn [map mbind option_bind].
    rewrite (written_text "MARKER") by name_text. rewrite bool_decide_eq_true_2 by done. read_back.
  - wf_tuple.
Qed.

Lemma records_read_back_witness :
  let r := Rec.WriteForwarded 7 WriteOperation.Update "v1" "ConfigMap" (Some "ns") "settings" "sha256:0a"
             (Some (mkPrior "uid-1" "42" "sha256:0b")) in
  decode_record (doc_canonical (Rec.to_doc r)) = Some r ∧
  decode_record (bytes_of "[ ]") = None.
Proof.
  cbn zeta. split; [|vm_compute; reflexivity].
  apply (records_read_back _ (doc_canonical (Rec.to_doc _))); [|done].
  cbn. split_and!; try name_text; by vm_compute.
Defined.
