(* ===== verification/FileStore.v ===== *)
(** * The file-backed stores ([host-enforcement/crates/effect-gate/src/file_store.rs])

    The journal, the failure marker, the generation index and the document binding of one
    generation, in files: the two-phase append with its revocation, the bounded scan, the opening
    with its checks in order, and the [Stores] implementation the gate runs on.

    The operating system is the interface [Disk]: each operation may fail, and its laws are what
    the standard library documents of the calls ([read_exact_at], [write_all_at], [metadata],
    [fsync], [openat]). *)

From S2P Require Import Prelude Slices Sha256 Json.
From S2P Require Import Frame Render Types Journal StoreFrame.
Definition MAX_FILE_BYTES : Z := 64 * 1024 * 1024.
Definition CHUNK_BYTES : Z := 64 * 1024.
Definition INDEX_NAME : string := "generations".
Definition STORAGE_FAILURE : string := "STORAGE_FAILURE".
Definition UNREADABLE : string := "UNREADABLE".

(** ** Names *)

Module StoreDir.
Inductive t := Journal | Marker.
#[global] Instance t_eq_dec : EqDecision t.
Proof. solve_decision. Defined.
End StoreDir.

Definition is_ascii_alphanumeric (b : Z) : bool :=
  is_digit b || ((65 <=? b) && (b <=? 90)) || ((97 <=? b) && (b <=? 122)).

(** R19: [^[A-Za-z0-9][A-Za-z0-9._-]{0,127}$], and not the index's name. *)
Definition valid_generation (generation : string) : bool :=
  let bytes := bytes_of generation in
  match bytes with first :: _ => is_ascii_alphanumeric first | [] => false end
  && (zlen bytes <=? 128)
  && forallb (λ b, is_ascii_alphanumeric b || (b =? 46) || (b =? 95) || (b =? 45)) bytes
  && negb (bool_decide (generation = INDEX_NAME)).

Definition journal_name (generation : string) : string := generation +:+ ".journal".
Definition marker_name (generation : string) : string := generation +:+ ".marker".
Definition document_name (generation : string) : string := generation +:+ ".document".

Definition document_payload (generation digest : string) : list Z :=
  doc_canonical (DArray [DStr "DOCUMENT"; DStr generation; DStr digest]).

Definition decode_document (payload : list Z) : option (string * string) :=
  let* value := canonical_value payload in
  let* items := as_array value in
  match items with
  | [tag; generation; digest] =>
      if bool_decide (as_str tag = Some "DOCUMENT")
      then let* generation := as_str generation in let* digest := as_str digest in Some (generation, digest)
      else None
  | _ => None
  end.

(** ** The operating system *)

(** A file: its directory and its name there. *)
Record FileId := mkFileId { file_dir : StoreDir.t; file_name : string }.
#[export] Instance FileId_eq_dec : EqDecision FileId.
Proof. solve_decision. Defined.

Module FileMode.
Inductive t := Existing | CreateOrExisting.
End FileMode.

(** [None] is an I/O error; every operation returns the next world. *)
Class Disk (W : Type) := {
  metadata_len : FileId → W → W * option Z;
  read_exact_at : FileId → Z → Z → W → W * option (list Z);
  write_all_at : FileId → list Z → Z → W → W * option unit;
  sync_all : FileId → W → W * option unit;
  lock : FileId → W → W * option unit;
  try_lock : FileId → W → W * option unit;
  release : FileId → W → W;
  dir_at : StoreDir.t → W → W * option unit;
  (** [Dir::file]: the file and whether it was created, or no file. *)
  dir_file : StoreDir.t → string → FileMode.t → W → W * option (option (FileId * bool));
  dir_sync : StoreDir.t → W → W * option unit;
  (** The bytes of a file, as the kernel holds them. *)
  contents : W → FileId → list Z;
}.

(** [bytes] written at [offset], which is at most the length. *)
Definition overwrite (file bytes : list Z) (offset : Z) : list Z :=
  take (Z.to_nat offset) file ++ bytes ++ drop (Z.to_nat (offset + zlen bytes)) file.

(** What the calls document: reads, syncs and locks change no byte; a write reaches a prefix of its
    bytes, all of them when it succeeds and not all when it fails; a created file is empty. *)
Class DiskLaws (W : Type) `{Disk W} := {
  metadata_len_law f w w' r :
    metadata_len f w = (w', r) →
    (∀ g, contents w' g = contents w g) ∧ (∀ n, r = Some n → n = zlen (contents w f));
  read_law f n offset w w' r :
    read_exact_at f n offset w = (w', r) →
    (∀ g, contents w' g = contents w g) ∧
    (∀ bytes, r = Some bytes → get_range (contents w f) offset (offset + n) = Some bytes);
  write_law f bytes offset w w' r :
    write_all_at f bytes offset w = (w', r) → 0 ≤ offset ≤ zlen (contents w f) →
    (∀ g, g ≠ f → contents w' g = contents w g) ∧
    ∃ k, contents w' f = overwrite (contents w f) (take k bytes) offset ∧
      (r = Some tt → (length bytes ≤ k)%nat) ∧ (r = None → k = 0%nat ∨ (k < length bytes)%nat);
  sync_law f w w' r : sync_all f w = (w', r) → ∀ g, contents w' g = contents w g;
  lock_law f w w' r : lock f w = (w', r) → ∀ g, contents w' g = contents w g;
  try_lock_law f w w' r : try_lock f w = (w', r) → ∀ g, contents w' g = contents w g;
  release_law f w : ∀ g, contents (release f w) g = contents w g;
  dir_at_law d w w' r : dir_at d w = (w', r) → ∀ g, contents w' g = contents w g;
  dir_sync_law d w w' r : dir_sync d w = (w', r) → ∀ g, contents w' g = contents w g;
  dir_file_law d name mode w w' r :
    dir_file d name mode w = (w', r) →
    (∀ g, g ≠ mkFileId d name → contents w' g = contents w g) ∧
    (∀ file created, r = Some (Some (file, created)) →
      file = mkFileId d name ∧ contents w' file = (if (created : bool) then [] else contents w file)) ∧
    (∀ file created, r = Some (Some (file, created)) → mode = FileMode.Existing → created = false) ∧
    (r = Some None ∨ r = None → contents w' (mkFileId d name) = contents w (mkFileId d name));
}.

(** ** I/O steps: a world, and a value or an error *)

Definition io (W A : Type) : Type := W → W * option A.
Definition io_bind {W A B} (m : io W A) (k : A → io W B) : io W B :=
  λ w, match m w with (w, Some a) => k a w | (w, None) => (w, None) end.
Definition io_ret {W A} (a : A) : io W A := λ w, (w, Some a).
Definition io_fail {W A} : io W A := λ w, (w, None).
Notation "'do!' x := m 'in' k" := (io_bind m (λ x, k)) (at level 10, x pattern, m at level 100, k at level 200).
Notation "m ;; k" := (io_bind m (λ _, k)) (at level 100, k at level 200, right associativity).

(** Why an opening refused. *)
Module OpenError.
Inductive t :=
| Name
| SameDevice
| NotNewest
| MissingEarlierJournal (generation : string)
| EarlierGenerationLive (generation : string)
| JournalLocked
| IndexAppend
| Document
| Io.
#[global] Instance t_eq_dec : EqDecision t.
Proof. solve_decision. Defined.
End OpenError.

(** What the marker file holds. *)
Module MarkerState.
Inductive t := Absent | Committed (reason : string) | Unreadable.
#[global] Instance t_eq_dec : EqDecision t.
Proof. solve_decision. Defined.
End MarkerState.

Section Files.
Context {W : Type} `{Disk W}.

(** ** Scanning a file *)

(** [Scan]: what was found, and whether every byte up to the file's length was read. *)
Record Scan := mkScan { scan_found : list Scanned.t; scan_complete : bool }.

(** [while offset < limit]: every turn reads up to [CHUNK_BYTES]. *)
Fixpoint scan_loop (fuel : nat) (file : FileId) (limit offset : Z) (scanner : Scanner) (w : W)
    : W * option (result Scanner Scanner) :=
  if limit <=? offset then (w, Some (Ok scanner))
  else
    match fuel with
    | O => (w, None)
    | S fuel =>
        let wanted := Z.min (limit - offset) CHUNK_BYTES in
        match read_exact_at file wanted offset w with
        | (w, Some chunk) => scan_loop fuel file limit (offset + wanted) (feed scanner chunk) w
        | (w, None) => (w, Some (Err scanner))
        end
    end.

(** The turns of a scan: one per chunk of [limit] bytes. *)
Definition scan_turns (limit : Z) : nat := Z.to_nat (limit / CHUNK_BYTES + 1).

(** R20: at most 64 MiB; the rest, or the rest after a read error, is one TORN. *)
Definition scan_file (file : FileId) (w : W) : W * Scan :=
  match metadata_len file w with
  | (w, None) => (w, mkScan (abort Scanner_default) false)
  | (w, Some length_) =>
      let limit := Z.min length_ MAX_FILE_BYTES in
      match scan_loop (scan_turns limit) file limit 0 Scanner_default w with
      | (w, Some (Ok scanner)) =>
          (w, if limit <? length_ then mkScan (abort scanner) false else mkScan (scanner_finish scanner) true)
      | (w, Some (Err scanner)) => (w, mkScan (abort scanner) false)
      | (w, None) => (w, mkScan (abort Scanner_default) false)
      end
  end.

(** ** The two-phase append *)

(** Reads [expected.len()] bytes at [at_] and compares them with [expected]. *)
Definition read_back (file : FileId) (expected : list Z) (at_ : Z) : io W unit :=
  do! read := read_exact_at file (zlen expected) at_ in
  if bool_decide (read = expected) then io_ret tt else io_fail.

Definition fail_at (points : list FilePoint.t) (point : FilePoint.t) : io W unit :=
  if bool_decide (point ∈ points) then io_fail else io_ret tt.

(** The pending frame: written, synced and read back. *)
Definition first_phase (file : FileId) (frame : list Z) (end_ : Z) (points : list FilePoint.t) : io W unit :=
  fail_at points FilePoint.FirstWrite ;;
  (if bool_decide (FilePoint.PartialFrame ∈ points)
   then write_all_at file (take (length frame / 2) frame) end_ ;; io_fail
   else io_ret tt) ;;
  write_all_at file frame end_ ;;
  fail_at points FilePoint.FirstSync ;;
  sync_all file ;;
  fail_at points FilePoint.FirstReadBack ;;
  read_back file frame end_.

Definition commit_write (file : FileId) (status_at : Z) (points : list FilePoint.t) : io W unit :=
  fail_at points FilePoint.CommitWrite ;; write_all_at file [COMMITTED] status_at.

(** The committed status: synced and read back. *)
Definition commit_check (file : FileId) (status_at : Z) (points : list FilePoint.t) : io W unit :=
  fail_at points FilePoint.CommitSync ;;
  sync_all file ;;
  fail_at points FilePoint.CommitReadBack ;;
  read_back file [COMMITTED] status_at.

(** The two phases: [(commit_written, whether they succeeded)]. *)
Definition two_phases (file : FileId) (frame : list Z) (end_ status_at : Z) (points : list FilePoint.t) (w : W)
    : W * (bool * bool) :=
  match (first_phase file frame end_ points ;; commit_write file status_at points) w with
  | (w, None) => (w, (false, false))
  | (w, Some _) =>
      match commit_check file status_at points w with
      | (w, None) => (w, (true, false))
      | (w, Some _) => (w, (true, true))
      end
  end.

(** R29: rewrites a frame's status to [R]. *)
Definition revoke (file : FileId) (status_at : Z) (points : list FilePoint.t) : io W unit :=
  fail_at points FilePoint.Revoke ;;
  write_all_at file [REVOKED] status_at ;;
  sync_all file ;;
  read_back file [REVOKED] status_at.

(** One two-phase append of [payload] at the file's end. *)
Definition append_frame (file : FileId) (payload : list Z) (points : list FilePoint.t) (w : W) : W * Appended.t :=
  let clean := Appended.Failed false in
  match frame_encode payload PENDING with
  | None => (w, clean)
  | Some frame =>
      match metadata_len file w with
      | (w, None) => (w, clean)
      | (w, Some end_) =>
          match u64_checked_add end_ (zlen frame) with
          | None => (w, clean)
          | Some after =>
              if MAX_FILE_BYTES <? after then (w, clean)
              else
                match usize_checked_sub after 2 with
                | None => (w, clean)
                | Some status_at =>
                    match two_phases file frame end_ status_at points w with
                    | (w, (_, true)) => (w, Appended.Durable)
                    | (w, (commit_written, false)) =>
                        let '(w, length_) := metadata_len file w in
                        if bool_decide (length_ = Some end_) then (w, clean)
                        else
                          let w := if commit_written then (revoke file status_at points w).1 else w in
                          (w, Appended.Failed true)
                    end
                end
          end
      end
  end.

(** ** The marker's state and earlier bindings *)

(** What a marker file found at opening holds (R22). *)
Definition marker_state_of (file : FileId) (generation : string) (w : W) : W * MarkerState.t :=
  match metadata_len file w with
  | (w, None) => (w, MarkerState.Unreadable)
  | (w, Some length_) =>
      if length_ =? 0 then (w, MarkerState.Absent)
      else
        let '(w, scan) := scan_file file w in
        (w, match scan_found scan with
            | [Scanned.Frame payload] =>
                if scan_complete scan then
                  match decode_marker payload with
                  | Some (written, reason) =>
                      if bool_decide (written = generation) && bool_decide (reason = STORAGE_FAILURE)
                      then MarkerState.Committed reason else MarkerState.Unreadable
                  | None => MarkerState.Unreadable
                  end
                else MarkerState.Unreadable
            | _ => MarkerState.Unreadable
            end)
  end.

(** Every committed BIND record's execution, run nonce, manifest digests and identities. *)
Definition add_binding (prior : PriorBindings) (entry : Entry.t) : PriorBindings :=
  match entry with
  | Entry.Record_ (Rec.Bind execution_id run_nonce _ digests identities) =>
      mkPriorBindings ({[execution_id]} ∪ execution_ids prior) ({[run_nonce]} ∪ run_nonces prior)
        (list_to_set digests ∪ Journal.manifest_digests prior)
        (list_to_set identities ∪ Journal.manifest_identities prior)
  | _ => prior
  end.
Definition add_bindings (prior : PriorBindings) (entries : list Entry.t) : PriorBindings :=
  fold_left add_binding entries prior.

(** ** The stores *)

(** The world is the operating system the handles belong to; [fs_marker_dir] is the directory
    itself. *)
Record FileStores := mkFileStores {
  fs_world : W;
  fs_generation : string;
  fs_journal : FileId;
  fs_mirror : list Entry.t;
  fs_marker : option FileId;
  fs_marker_synced : bool;
  fs_marker_state : MarkerState.t;
  fs_prior : PriorBindings;
  fs_plan : option FaultPlan;
  fs_journal_created : bool;
  fs_indexed_now : bool;
  fs_journal_dir_syncs : Z;
  fs_marker_dir_syncs : Z;
}.

Definition fs_with_plan (s : FileStores) (plan : option FaultPlan) : FileStores :=
  mkFileStores (fs_world s) (fs_generation s) (fs_journal s) (fs_mirror s) (fs_marker s) (fs_marker_synced s)
    (fs_marker_state s) (fs_prior s) plan (fs_journal_created s) (fs_indexed_now s) (fs_journal_dir_syncs s)
    (fs_marker_dir_syncs s).

Definition fs_with_journal (s : FileStores) (w : W) (mirror : list Entry.t) : FileStores :=
  mkFileStores w (fs_generation s) (fs_journal s) mirror (fs_marker s) (fs_marker_synced s)
    (fs_marker_state s) (fs_prior s) (fs_plan s) (fs_journal_created s) (fs_indexed_now s) (fs_journal_dir_syncs s)
    (fs_marker_dir_syncs s).

Definition fs_with_marker (s : FileStores) (w : W) (marker : option FileId) (synced : bool) (state : MarkerState.t)
    (syncs : Z) : FileStores :=
  mkFileStores w (fs_generation s) (fs_journal s) (fs_mirror s) marker synced state (fs_prior s) (fs_plan s)
    (fs_journal_created s) (fs_indexed_now s) (fs_journal_dir_syncs s) syncs.

(** The points a plan has armed, or the contract injection due, for the next journal append. *)
Definition journal_points (plan : option FaultPlan) : option FaultPlan * list FilePoint.t :=
  match plan with
  | None => (None, [])
  | Some plan =>
      match record_failure plan with
      | (plan, Some true) => (Some plan, [FilePoint.PartialFrame])
      | (plan, Some false) => (Some plan, [FilePoint.FirstWrite])
      | (plan, None) => let '(plan, points) := plan_take plan StoreFile.Journal in (Some plan, points)
      end
  end.

(** The points armed for a file, where there is a plan. *)
Definition take_points (plan : option FaultPlan) (file : StoreFile.t) : option FaultPlan * list FilePoint.t :=
  match plan with
  | Some plan => let '(plan, points) := plan_take plan file in (Some plan, points)
  | None => (None, [])
  end.

Definition fs_append (s : FileStores) (record : Rec.t) : FileStores * Appended.t :=
  let '(plan, points) := journal_points (fs_plan s) in
  let '(w, appended) := append_frame (fs_journal s) (doc_canonical (Rec.to_doc record)) points (fs_world s) in
  let mirror :=
    match appended with
    | Appended.Durable => fs_mirror s ++ [Entry.Record_ record]
    | Appended.Failed true => fs_mirror s ++ [Entry.Torn]
    | Appended.Failed false => fs_mirror s
    end in
  (fs_with_journal (fs_with_plan s plan) w mirror, appended).

Definition fs_marker_present (s : FileStores) : bool :=
  negb (bool_decide (fs_marker_state s = MarkerState.Absent)).

(** The marker file, created at the first write. *)
Definition open_marker (s : FileStores) : FileStores * bool :=
  match fs_marker s with
  | Some _ => (s, true)
  | None =>
      match dir_file StoreDir.Marker (marker_name (fs_generation s)) FileMode.CreateOrExisting (fs_world s) with
      | (w, Some (Some (file, _))) =>
          (fs_with_marker s w (Some file) (fs_marker_synced s) (fs_marker_state s) (fs_marker_dir_syncs s), true)
      | (w, _) => (fs_with_marker s w None (fs_marker_synced s) (fs_marker_state s) (fs_marker_dir_syncs s), false)
      end
  end.

(** R26: the marker directory is synced before the first marker frame. *)
Definition sync_marker_dir (s : FileStores) : FileStores * bool :=
  if fs_marker_synced s then (s, true)
  else
    match dir_sync StoreDir.Marker (fs_world s) with
    | (w, None) => (fs_with_marker s w (fs_marker s) false (fs_marker_state s) (fs_marker_dir_syncs s), false)
    | (w, Some _) =>
        (fs_with_marker s w (fs_marker s) true (fs_marker_state s) (Z.min (U32 - 1) (fs_marker_dir_syncs s + 1)), true)
    end.

(** The marker frame itself. *)
Definition append_marker (s : FileStores) (generation reason : string) (points : list FilePoint.t)
    : FileStores * bool :=
  match fs_marker s with
  | None => (s, false)
  | Some file =>
      let '(w, appended) := append_frame file (marker_payload generation reason) points (fs_world s) in
      let '(w, state) :=
        match appended with
        | Appended.Durable => (w, MarkerState.Committed reason)
        | Appended.Failed _ =>
            let '(w, length_) := metadata_len file w in
            (w, if bool_decide (length_ = Some 0) then MarkerState.Absent else MarkerState.Unreadable)
        end in
      (fs_with_marker s w (Some file) (fs_marker_synced s) state (fs_marker_dir_syncs s),
       bool_decide (appended = Appended.Durable))
  end.

Definition fs_write_marker (s : FileStores) (generation reason : string) : FileStores * bool :=
  if fs_marker_present s then (s, true)
  else
    let '(plan, refused, points) :=
      match fs_plan s with
      | Some plan =>
          let '(plan, failed) := marker_failure plan in
          let '(plan, points) := plan_take plan StoreFile.Marker in (Some plan, failed, points)
      | None => (None, false, [])
      end in
    let s := fs_with_plan s plan in
    if refused || bool_decide (FilePoint.MarkerWrite ∈ points) then (s, false)
    else
      match open_marker s with
      | (s, false) => (s, false)
      | (s, true) =>
          match sync_marker_dir s with
          | (s, false) => (s, false)
          | (s, true) => append_marker s generation reason points
          end
      end.

Definition fs_marker_doc (s : FileStores) : Doc :=
  let one reason := DArray [DArray [DStr (fs_generation s); DStr reason]] in
  match fs_marker_state s with
  | MarkerState.Absent => DArray []
  | MarkerState.Committed reason => one reason
  | MarkerState.Unreadable => one UNREADABLE
  end.

#[export] Instance FileStores_Stores : Stores FileStores := {
  append := fs_append;
  entries := fs_mirror;
  marker_present := fs_marker_present;
  write_marker := fs_write_marker;
  marker_doc := fs_marker_doc;
  fail_next s torn := fs_with_plan s ((λ p, plan_fail_next p torn) <$> fs_plan s);
  fail_after s k := fs_with_plan s ((λ p, plan_set_fail_after p k) <$> fs_plan s);
  marker_fail_next s := fs_with_plan s (plan_marker_fail_next <$> fs_plan s);
  prior_bindings := fs_prior;
}.

(** ** Opening a generation *)

(** A step of the opening: on the world and the shared fault plan, with a refusal. *)
Definition op (A : Type) : Type := W * option FaultPlan → (W * option FaultPlan) * result A OpenError.t.
Definition op_ret {A} (a : A) : op A := λ s, (s, Ok a).
Definition op_fail {A} (e : OpenError.t) : op A := λ s, (s, Err e).
Definition op_bind {A B} (m : op A) (k : A → op B) : op B :=
  λ s, match m s with (s, Ok a) => k a s | (s, Err e) => (s, Err e) end.
Definition on_disk {A} (m : io W A) (e : OpenError.t) : op A :=
  λ '(w, plan), let '(w, r) := m w in ((w, plan), result_of_option r e).
Definition reading {A} (m : W → W * A) : op A := λ '(w, plan), let '(w, a) := m w in ((w, plan), Ok a).
Definition taking (file : StoreFile.t) : op (list FilePoint.t) :=
  λ '(w, plan), let '(plan, points) := take_points plan file in ((w, plan), Ok points).

(** [m], then the handle's lock is released whatever [m] returned. *)
Definition holding {A} (file : FileId) (m : op A) : op A :=
  λ s, let '((w, plan), r) := m s in ((release file w, plan), r).

(** The same, where only a refusal drops the handle. *)
Definition keeping {A} (file : FileId) (m : op A) : op A :=
  λ s, match m s with
       | (s, Ok a) => (s, Ok a)
       | ((w, plan), Err e) => ((release file w, plan), Err e)
       end.
End Files.

Notation "'op!' x := m 'in' k" := (op_bind m (λ x, k)) (at level 10, x pattern, m at level 100, k at level 200).

Section Opening.
Context {W : Type} `{Disk W}.

(** Opens a name that must exist afterwards. *)
Definition opened (dir : StoreDir.t) (name : string) (mode : FileMode.t) : op (W := W) (FileId * bool) :=
  op! found := on_disk (dir_file dir name mode) OpenError.Io in
  match found with Some found => op_ret found | None => op_fail OpenError.Io end.

(** The generation an index item names. *)
Definition indexed_generation (item : Scanned.t) : option string :=
  match item with
  | Scanned.Frame payload =>
      let* generation := decode_generation payload in
      if valid_generation generation then Some generation else None
  | Scanned.Torn => None
  end.

(** The index's committed generations, in order (R23). *)
Definition committed_generations (index : FileId) : op (W := W) (list string) :=
  op! scan := reading (scan_file index) in
  if scan_complete scan then op_ret (omap indexed_generation (scan_found scan)) else op_fail OpenError.Io.

(** Whether a document file holds exactly one committed frame binding [generation] to [digest]. *)
Definition document_matches (file : FileId) (generation digest : string) (w : W) : W * bool :=
  let '(w, scan) := scan_file file w in
  (w, match scan_found scan with
      | [Scanned.Frame payload] =>
          scan_complete scan &&
          match decode_document payload with
          | Some (written, bound) => bool_decide (written = generation) && bool_decide (bound = digest)
          | None => false
          end
      | _ => false
      end).

(** The generation's binding to the signed configuration's digest. *)
Definition bind_document (generation digest : string) (indexed : bool) : op (W := W) unit :=
  let name := document_name generation in
  if (indexed : bool) then
    op! found := on_disk (dir_file StoreDir.Journal name FileMode.Existing) OpenError.Io in
    match found with
    | None => op_fail OpenError.Document
    | Some (file, _) =>
        op! matches := reading (document_matches file generation digest) in
        if (matches : bool) then op_ret tt else op_fail OpenError.Document
    end
  else
    op! (file, created) := opened StoreDir.Journal name FileMode.CreateOrExisting in
    if negb created then
      op! matches := reading (document_matches file generation digest) in
      if (matches : bool) then op_ret tt else op_fail OpenError.Document
    else
      op! points := taking StoreFile.Document in
      op! appended := reading (append_frame file (document_payload generation digest) points) in
      if bool_decide (appended = Appended.Durable) then op_ret tt else op_fail OpenError.Document.

(** One earlier generation's journal: it must exist, not be locked, and be read whole. *)
Definition read_earlier (earlier : string) (prior : PriorBindings) : op (W := W) PriorBindings :=
  op! found := on_disk (dir_file StoreDir.Journal (journal_name earlier) FileMode.Existing) OpenError.Io in
  match found with
  | None => op_fail (OpenError.MissingEarlierJournal earlier)
  | Some (file, _) =>
      op! _ := on_disk (try_lock file) (OpenError.EarlierGenerationLive earlier) in
      holding file
        (op! scan := reading (scan_file file) in
         if scan_complete scan
         then op_ret (add_bindings prior (frame_journal_entries (scan_found scan)))
         else op_fail OpenError.Io)
  end.

(** Every earlier committed generation, once each. *)
Fixpoint earlier_bindings (visited : gset string) (prior : PriorBindings) (earlier : list string)
    : op (W := W) PriorBindings :=
  match earlier with
  | [] => op_ret prior
  | generation :: earlier =>
      if bool_decide (generation ∈ visited) then earlier_bindings visited prior earlier
      else
        op! prior := read_earlier generation prior in
        earlier_bindings ({[generation]} ∪ visited) prior earlier
  end.

(** Step 5: the marker file, if any, and its state. *)
Definition find_marker (generation : string) : op (W := W) (option FileId * MarkerState.t) :=
  op! found := on_disk (dir_file StoreDir.Marker (marker_name generation) FileMode.Existing) OpenError.Io in
  match found with
  | None => op_ret (None, MarkerState.Absent)
  | Some (file, _) => op! state := reading (marker_state_of file generation) in op_ret (Some file, state)
  end.

(** Steps 6 and 7: the journal, then the index entry of a generation that has none.  The result
    is the stores but for the world they end up in. *)
Definition open_journal (index : FileId) (generation : string) (indexed : bool) (prior : PriorBindings)
    (marker : option FileId) (marker_state : MarkerState.t) : op (W := W) (W → option FaultPlan → FileStores (W := W)) :=
  op! (journal, journal_created) := opened StoreDir.Journal (journal_name generation) FileMode.CreateOrExisting in
  op! syncs := (if journal_created || negb indexed
                then op! _ := on_disk (dir_sync StoreDir.Journal) OpenError.Io in op_ret 2
                else op_ret 1) in
  op! _ := on_disk (try_lock journal) OpenError.JournalLocked in
  keeping journal
    (op! scan := reading (scan_file journal) in
     op! indexed_now :=
       (if indexed : bool then op_ret false
        else
          op! points := taking StoreFile.Index in
          op! appended := reading (append_frame index (generation_payload generation) points) in
          if bool_decide (appended = Appended.Durable) then op_ret true else op_fail OpenError.IndexAppend) in
     op_ret (λ w plan,
       mkFileStores w generation journal (frame_journal_entries (scan_found scan)) marker false marker_state
         prior plan journal_created indexed_now syncs 0)).

(** The whole opening under the index's lock. *)
Definition opening (generation : string) (document : option string) (probe : StoreDir.t → option Z)
    : op (W := W) (FileStores (W := W)) :=
  if negb (valid_generation generation) then op_fail OpenError.Name
  else
    op! _ := on_disk (dir_at StoreDir.Journal) OpenError.Io in
    op! _ := on_disk (dir_at StoreDir.Marker) OpenError.Io in
    match probe StoreDir.Journal with
    | None => op_fail OpenError.Io
    | Some journal_device =>
        match probe StoreDir.Marker with
        | None => op_fail OpenError.Io
        | Some marker_device =>
            if journal_device =? marker_device then op_fail OpenError.SameDevice
            else
              op! (index, _) := opened StoreDir.Journal INDEX_NAME FileMode.CreateOrExisting in
              op! _ := on_disk (dir_sync StoreDir.Journal) OpenError.Io in
              op! _ := on_disk (lock index) OpenError.Io in
              op! stores := holding index
                (op! committed := committed_generations index in
                 let indexed := bool_decide (generation ∈ committed) in
                 if indexed && negb (bool_decide (last committed = Some generation))
                 then op_fail OpenError.NotNewest
                 else
                   op! prior :=
                     earlier_bindings ∅ PriorBindings_default (filter (.≠ generation) committed) in
                   op! (marker, marker_state) := find_marker generation in
                   op! _ := match document with
                            | Some digest => bind_document generation digest indexed
                            | None => op_ret tt
                            end in
                   open_journal index generation indexed prior marker marker_state) in
              λ '(w, plan), ((w, plan), Ok (stores w plan))
        end
    end.

Definition fs_open (generation : string) (probe : StoreDir.t → option Z) : op (W := W) (FileStores (W := W)) :=
  opening generation None probe.
Definition open_bound (generation digest : string) (probe : StoreDir.t → option Z)
    : op (W := W) (FileStores (W := W)) :=
  opening generation (Some digest) probe.

End Opening.
