(* ===== verification/FileStoreProofs.v ===== *)
(** * What the file stores leave in their files

    Against every disk that keeps the documented laws: a durable append is a committed record at
    the end of the file, a clean failure changes no byte, and a torn one leaves at most one more
    item; so the file always reads back as the in-process mirror, and an opening finds it. *)

From S2P Require Import Prelude Slices Sha256 Json.
From S2P Require Import Frame Render Types Journal StoreFrame StoreScan JsonInt RecordCodec FileStore.
(** ** The mirror and the file

    Position by position the file holds what the mirror does, but where the mirror has a TORN: the
    file may hold nothing there (no byte arrived and the length could not be read), or a record
    whose revocation failed. *)

Inductive reflects : list Entry.t → list Entry.t → Prop :=
| reflects_nil : reflects [] []
| reflects_same mirror file e : reflects mirror file → reflects (mirror ++ [e]) (file ++ [e])
| reflects_unread mirror file : reflects mirror file → reflects (mirror ++ [Entry.Torn]) file
| reflects_window mirror file r :
    reflects mirror file → reflects (mirror ++ [Entry.Torn]) (file ++ [Entry.Record_ r]).

Definition entry_record (e : Entry.t) : option Rec.t :=
  match e with Entry.Record_ r => Some r | Entry.Torn => None end.

Lemma reflects_refl l : reflects l l.
Proof. induction l using rev_ind; by constructor. Qed.

Lemma reflects_records mirror file :
  reflects mirror file → omap entry_record mirror `sublist_of` omap entry_record file.
Proof.
  induction 1 as [|mirror file e _ IH|mirror file _ IH|mirror file r _ IH]; [done|..];
    rewrite ?omap_app; cbn; rewrite ?app_nil_r; [by apply sublist_app|done|by apply sublist_inserts_r].
Qed.

Lemma reflects_exact mirror file : reflects mirror file → Entry.Torn ∉ mirror → file = mirror.
Proof.
  induction 1 as [|mirror file e _ IH|mirror file _ IH|mirror file r _ IH]; [done|..];
    rewrite elem_of_app, list_elem_of_singleton; intros Hn; [|naive_solver..]. f_equal. apply IH. naive_solver.
Qed.

(** ** Steps that change no byte *)

Section Disks.
Context {W : Type} `{DiskLaws W}.

Definition keeps (w w' : W) : Prop := ∀ g, contents w' g = contents w g.

Lemma keeps_refl w : keeps w w.
Proof. by intros g. Qed.
Lemma keeps_trans w1 w2 w3 : keeps w1 w2 → keeps w2 w3 → keeps w1 w3.
Proof. intros H1 H2 g. by rewrite H2, H1. Qed.

(** An I/O step that changes no byte, whatever it returns. *)
Definition quiet {A} (m : io W A) : Prop := ∀ w w' r, m w = (w', r) → keeps w w'.

Lemma quiet_bind {A B} (m : io W A) (k : A → io W B) : quiet m → (∀ a, quiet (k a)) → quiet (io_bind m k).
Proof.
  intros Hm Hk w w' r. unfold io_bind. destruct (m w) as [w1 [a|]] eqn:E; intros Hr.
  - eapply keeps_trans; [by eapply Hm|by eapply Hk].
  - injection Hr as <- <-. by eapply Hm.
Qed.
Lemma quiet_ret {A} (a : A) : quiet (io_ret a).
Proof. intros w w' r [= <- <-]. apply keeps_refl. Qed.
Lemma quiet_fail {A} : quiet (@io_fail W A).
Proof. intros w w' r [= <- <-]. apply keeps_refl. Qed.
Lemma quiet_sync f : quiet (sync_all f).
Proof. intros w w' r Hr. exact (sync_law _ _ _ _ Hr). Qed.
Lemma quiet_read f n offset : quiet (read_exact_at f n offset).
Proof. intros w w' r Hr. exact (proj1 (read_law _ _ _ _ _ _ Hr)). Qed.
Lemma quiet_fail_at points point : quiet (fail_at points point).
Proof. unfold fail_at. case_bool_decide; [apply quiet_fail|apply quiet_ret]. Qed.
Lemma quiet_read_back f expected at_ : quiet (read_back f expected at_).
Proof.
  apply quiet_bind; [apply quiet_read|]. intros bytes. case_bool_decide; [apply quiet_ret|apply quiet_fail].
Qed.
Lemma quiet_check f status_at points : quiet (commit_check f status_at points).
Proof.
  do 2 (apply quiet_bind; [first [apply quiet_fail_at|apply quiet_sync]|intros _]).
  apply quiet_bind; [apply quiet_fail_at|intros _; apply quiet_read_back].
Qed.

(** ** Calls and where they lead *)

(** One call of the disk, whatever it answers. *)
Inductive called : W → W → Prop :=
| called_metadata f w : called w (metadata_len f w).1
| called_read f n offset w : called w (read_exact_at f n offset w).1
| called_write f bytes offset w : called w (write_all_at f bytes offset w).1
| called_sync f w : called w (sync_all f w).1
| called_lock f w : called w (lock f w).1
| called_try_lock f w : called w (try_lock f w).1
| called_release f w : called w (release f w)
| called_dir_at d w : called w (dir_at d w).1
| called_dir_file d name mode w : called w (dir_file d name mode w).1
| called_dir_sync d w : called w (dir_sync d w).1.
Definition reaches : W → W → Prop := rtc called.

Lemma reaches_trans w1 w2 w3 : reaches w1 w2 → reaches w2 w3 → reaches w1 w3.
Proof. intros. by etrans. Qed.

(** A step that is calls of the disk. *)
Definition calls {A} (m : W → W * A) : Prop := ∀ w, reaches w (m w).1.
Lemma calls_eq {A} (m : W → W * A) w w' r : calls m → m w = (w', r) → reaches w w'.
Proof. intros Hm E. specialize (Hm w). by rewrite E in Hm. Qed.
Lemma calls_bind {A B} (m : io W A) (k : A → io W B) : calls m → (∀ a, calls (k a)) → calls (io_bind m k).
Proof.
  intros Hm Hk w. unfold io_bind. specialize (Hm w). destruct (m w) as [w1 [a|]]; [|done].
  eapply reaches_trans; [exact Hm|apply Hk].
Qed.
Lemma calls_ret {A} (a : A) : calls (io_ret a).
Proof. intros w. apply rtc_refl. Qed.
Lemma calls_fail {A} : calls (@io_fail W A).
Proof. intros w. apply rtc_refl. Qed.
Lemma calls_metadata f : calls (metadata_len f).
Proof. intros w. apply rtc_once. constructor. Qed.
Lemma calls_read f n offset : calls (read_exact_at f n offset).
Proof. intros w. apply rtc_once. constructor. Qed.
Lemma calls_write f bytes offset : calls (write_all_at f bytes offset).
Proof. intros w. apply rtc_once. constructor. Qed.
Lemma calls_sync f : calls (sync_all f).
Proof. intros w. apply rtc_once. constructor. Qed.
Lemma calls_fail_at points point : calls (fail_at points point).
Proof. unfold fail_at. case_bool_decide; [apply calls_fail|apply calls_ret]. Qed.
Lemma calls_read_back f expected at_ : calls (read_back f expected at_).
Proof. apply calls_bind; [apply calls_read|]. intros bytes. case_bool_decide; [apply calls_ret|apply calls_fail]. Qed.

Ltac calling :=
  repeat first
    [ apply calls_read_back | apply calls_bind; [|intros ?] | apply calls_ret | apply calls_fail | apply calls_write | apply calls_sync
    | apply calls_fail_at
    | match goal with |- calls (if ?b then _ else _) => destruct b end ].

Lemma calls_scan_loop fuel f limit offset scanner : calls (scan_loop fuel f limit offset scanner).
Proof.
  revert offset scanner. induction fuel as [|fuel IH]; intros offset scanner w; cbn [scan_loop]; destruct (limit <=? offset);
    try apply rtc_refl. destruct (read_exact_at f _ offset w) as [w1 [chunk|]] eqn:E; apply calls_eq in E; try apply calls_read; [|exact E].
  eapply reaches_trans; [exact E|apply IH].
Qed.
Lemma calls_scan_file f : calls (scan_file f).
Proof.
  intros w. unfold scan_file. destruct (metadata_len f w) as [w1 [n|]] eqn:E; apply calls_eq in E; try apply calls_metadata; [|exact E].
  destruct (scan_loop _ f _ 0 Scanner_default w1) as [w2 r] eqn:E2. apply calls_eq in E2; [|apply calls_scan_loop].
  assert (reaches w w2) by (by eapply reaches_trans). by destruct r as [[]|].
Qed.
Lemma calls_first_phase f frame end_ points : calls (first_phase f frame end_ points).
Proof. unfold first_phase. calling. Qed.
Lemma calls_commit_write f status_at points : calls (commit_write f status_at points).
Proof. unfold commit_write. calling. Qed.
Lemma calls_commit_check f status_at points : calls (commit_check f status_at points).
Proof. unfold commit_check. calling. Qed.
Lemma calls_revoke f status_at points : calls (revoke f status_at points).
Proof. unfold revoke. calling. Qed.
Lemma calls_two_phases f frame end_ status_at points : calls (two_phases f frame end_ status_at points).
Proof.
  intros w. unfold two_phases. destruct (io_bind _ _ w) as [w1 r] eqn:E.
  apply calls_eq in E; [|apply calls_bind; [apply calls_first_phase|intros ?; apply calls_commit_write]].
  destruct r; [|exact E]. destruct (commit_check f status_at points w1) as [w2 r2] eqn:E2. apply calls_eq in E2; [|apply calls_commit_check].
  assert (reaches w w2) by (by eapply reaches_trans). by destruct r2.
Qed.
Lemma calls_append f payload points : calls (append_frame f payload points).
Proof.
  intros w. unfold append_frame. destruct (frame_encode payload PENDING) as [frame|]; [|apply rtc_refl].
  destruct (metadata_len f w) as [w1 [n|]] eqn:E; apply calls_eq in E; try apply calls_metadata; [|exact E].
  destruct (u64_checked_add n (zlen frame)) as [after|]; [|exact E]. destruct (_ <? _); [exact E|].
  destruct (usize_checked_sub after 2) as [status_at|]; [|exact E].
  destruct (two_phases f frame n status_at points w1) as [w2 [written ok]] eqn:E2. apply calls_eq in E2; [|apply calls_two_phases].
  pose proof (reaches_trans _ _ _ E E2) as E12. destruct ok; [exact E12|].
  destruct (metadata_len f w2) as [w3 length_] eqn:E3. apply calls_eq in E3; [|apply calls_metadata].
  pose proof (reaches_trans _ _ _ E12 E3) as E13. case_bool_decide; [exact E13|]. destruct written; [|exact E13].
  eapply reaches_trans; [exact E13|apply calls_revoke].
Qed.

(** ** Scans *)

(** Where a scan of the file stops short, and the state after: its length is not read, or the chunk at [n] is not, or
    the file is longer than a scan reads. *)
Inductive cut_off (w : W) (f : FileId) : Z → W → Prop :=
| cut_length w' : metadata_len f w = (w', None) → cut_off w f 0 w'
| cut_read n w' :
    let limit := Z.min (zlen (contents w f)) MAX_FILE_BYTES in
    0 ≤ n < limit → read_exact_at f (Z.min (limit - n) CHUNK_BYTES) n w = (w', None) → cut_off w f n w'
| cut_size : MAX_FILE_BYTES < zlen (contents w f) → cut_off w f MAX_FILE_BYTES w.

Lemma scan_loop_reads fuel f limit offset scanner w w' r read_ :
  0 ≤ offset ≤ limit → limit ≤ zlen (contents w f) → read_ = take (Z.to_nat offset) (contents w f) →
  scanner = fed [] [] read_ → (Z.to_nat ((limit - offset + CHUNK_BYTES - 1) / CHUNK_BYTES) ≤ fuel)%nat →
  scan_loop fuel f limit offset scanner w = (w', r) →
  keeps w w' ∧
  match r with
  | Some (Ok scanner') => scanner' = fed [] [] (take (Z.to_nat limit) (contents w f))
  | Some (Err scanner') =>
      ∃ w1 n, reaches w w1 ∧ keeps w w1 ∧ 0 ≤ n < limit ∧ read_exact_at f (Z.min (limit - n) CHUNK_BYTES) n w1 = (w', None) ∧
        scanner' = fed [] [] (take (Z.to_nat n) (contents w f))
  | None => False
  end.
Proof.
  revert offset scanner w read_. induction fuel as [|fuel IH]; intros offset scanner w read_ Ho Hl -> -> Hf Hr;
    cbn [scan_loop] in Hr; destruct (Z.leb_spec limit offset) as [Hle|Hgt].
  1,3: injection Hr as <- <-; split; [apply keeps_refl|]; by replace limit with offset by lia.
  - exfalso. unfold CHUNK_BYTES in Hf.
    assert (1 ≤ (limit - offset + 64 * 1024 - 1) / (64 * 1024)) by (apply Z.div_le_lower_bound; lia). lia.
  - destruct (read_exact_at f _ offset w) as [w1 [chunk|]] eqn:Hread.
    2: { injection Hr as <- <-. split; [exact (proj1 (read_law _ _ _ _ _ _ Hread))|]. exists w, offset.
         split; [apply rtc_refl|]. split; [apply keeps_refl|]. split; [lia|done]. }
    set (wanted := Z.min (limit - offset) CHUNK_BYTES) in *.
    destruct (read_law _ _ _ _ _ _ Hread) as [Hk Hbytes]. specialize (Hbytes chunk eq_refl).
    assert (Hw : 0 < wanted) by (unfold wanted, CHUNK_BYTES; lia).
    assert (Hchunk : take (Z.to_nat offset) (contents w f) ++ chunk = take (Z.to_nat (offset + wanted)) (contents w f)).
    { unfold get_range in Hbytes. destruct (_ && _) eqn:E; [|done]. injection Hbytes as <-.
      replace (offset + wanted - offset) with wanted by lia.
      rewrite Z2Nat.inj_add, <-take_take_drop by lia. done. }
    apply (IH (offset + wanted) _ w1 (take (Z.to_nat (offset + wanted)) (contents w f))) in Hr as [Hk' Hres].
    + split; [by eapply keeps_trans|]. destruct r as [[scanner'|scanner']|]; [by rewrite <-(Hk f)| |done].
      destruct Hres as (w2 & n & Hw2 & Hk2 & Hn & Hfail & ->). exists w2, n. rewrite <-(Hk f).
      split; [eapply reaches_trans; [|exact Hw2]; by eapply calls_eq; [apply calls_read|]|]. split; [by eapply keeps_trans|done].
    + unfold wanted. lia.
    + by rewrite (Hk f).
    + by rewrite (Hk f).
    + by rewrite feed_fed, Hchunk.
    + assert ((limit - (offset + wanted) + CHUNK_BYTES - 1) / CHUNK_BYTES ≤
        (limit - offset + CHUNK_BYTES - 1) / CHUNK_BYTES - 1 ∨ limit = offset + wanted) as [Hd|Hd].
      { destruct (Z.le_gt_cases (limit - offset) CHUNK_BYTES); [right; unfold wanted; lia|left].
        replace wanted with CHUNK_BYTES by (unfold wanted; lia).
        replace (limit - (offset + CHUNK_BYTES) + CHUNK_BYTES - 1)
          with ((limit - offset + CHUNK_BYTES - 1) + (-1) * CHUNK_BYTES) by lia.
        rewrite Z.div_add by done. lia. }
      * lia.
      * rewrite Hd. replace (offset + wanted - (offset + wanted) + CHUNK_BYTES - 1) with (CHUNK_BYTES - 1) by lia.
        change ((CHUNK_BYTES - 1) / CHUNK_BYTES) with 0. lia.
Qed.

(** A complete scan is the specification on the file's bytes; an incomplete one has what the bytes before the cut
    decide, and then a TORN. *)
Lemma scan_file_reads f w w' scan :
  scan_file f w = (w', scan) →
  keeps w w' ∧ (scan_complete scan = true → scan_found scan = scan_spec (contents w f)) ∧
  (scan_complete scan = false →
   ∃ w1 n, reaches w w1 ∧ keeps w w1 ∧ cut_off w1 f n w' ∧
     scan_found scan = abort (feed Scanner_default (take (Z.to_nat n) (contents w f)))).
Proof.
  assert (Hfeed : ∀ l, feed Scanner_default l = fed [] [] l) by (intros l; apply (feed_fed [] [] [] l)). setoid_rewrite Hfeed. clear Hfeed.
  unfold scan_file. destruct (metadata_len f w) as [w1 [n|]] eqn:Hm; destruct (metadata_len_law _ _ _ _ Hm) as [Hk Hn].
  2: { intros [= <- <-]. split; [done|]. split; [done|]. intros _. exists w, 0. split; [apply rtc_refl|].
       split; [apply keeps_refl|]. split; [by apply cut_length|done]. }
  pose proof (calls_eq _ _ _ _ (calls_metadata f) Hm) as Hw1.
  specialize (Hn n eq_refl). subst n. pose proof (zlen_nonneg (contents w f)) as Hpos.
  set (limit := Z.min _ MAX_FILE_BYTES).
  destruct (scan_loop _ f limit 0 Scanner_default w1) as [w2 r] eqn:Hl.
  pose proof Hl as Hl0. apply (scan_loop_reads _ _ _ _ _ _ _ _ []) in Hl as [Hk2 Hr];
    [|unfold limit, MAX_FILE_BYTES; lia|rewrite (Hk f); unfold limit; lia|done|done|].
  2: { unfold scan_turns. rewrite Z.sub_0_r. apply Z2Nat.inj_le.
       - apply Z.div_pos; unfold limit, MAX_FILE_BYTES, CHUNK_BYTES; lia.
       - assert (0 ≤ limit / CHUNK_BYTES) by (apply Z.div_pos; unfold limit, MAX_FILE_BYTES, CHUNK_BYTES; lia). lia.
       - rewrite <-Z.div_add by done. apply Z.div_le_mono; unfold CHUNK_BYTES; lia. }
  pose proof (keeps_trans _ _ _ Hk Hk2) as Hkeep. pose proof (calls_eq _ _ _ _ (calls_scan_loop _ _ _ _ _) Hl0) as Hw2.
  destruct r as [[scanner|scanner]|]; [| |done]; intros Hres.
  - subst scanner. destruct (Z.ltb_spec limit (zlen (contents w f))) as [Hlt|Hge]; injection Hres as <- <-.
    + split; [done|]. split; [done|]. intros _. exists w2, MAX_FILE_BYTES. split; [by eapply reaches_trans|]. split; [done|].
      split; [apply cut_size; rewrite (Hkeep f); unfold limit in Hlt; lia|]. cbn [scan_found]. rewrite (Hk f). unfold limit in *.
      by rewrite Z.min_r by lia.
    + split; [done|]. split; [|done]. intros _. cbn [scan_found]. rewrite fed_finish, (Hk f).
      f_equal. unfold limit in *. apply take_short. lia.
  - injection Hres as <- <-. split; [done|]. split; [done|]. intros _. destruct Hr as (w3 & n & Hw3 & Hk3 & Hn' & Hfail & ->).
    exists w3, n. split; [exact (reaches_trans _ _ _ Hw1 Hw3)|]. split; [exact (keeps_trans _ _ _ Hk Hk3)|]. cbn [scan_found]. rewrite (Hk f).
    split; [|done]. apply cut_read; rewrite (Hk3 f), (Hk f); done.
Qed.

(** What is found stays found. *)
Lemma collect_loop_grows fuel fnd a total l s : collect_loop fuel fnd a total l = Some s → fnd `prefix_of` found s.
Proof.
  revert fnd a total l. induction fuel as [|fuel IH]; intros fnd a total l; cbn [collect_loop]; [done|].
  destruct (_ <? _); [by intros [= <-]|]. destruct total as [n|].
  - destruct (committed_payload _); intros [= <-]; [by apply prefix_app_r|done].
  - destruct (_ ≫= _); [apply IH|by intros [= <-]].
Qed.
Lemma collect_grows fnd a total l : fnd `prefix_of` found (collect fnd a total l).
Proof. unfold collect. destruct (collect_loop 2 fnd a total l) eqn:E; [by eapply collect_loop_grows|done]. Qed.
Lemma extend_grows s l : found s `prefix_of` found (extend s l).
Proof. unfold extend. case_bool_decide; [done|]. destruct (attempt s); try done. apply collect_grows. Qed.
Lemma end_attempt_grows s : found s `prefix_of` found (end_attempt s).
Proof. unfold end_attempt. destruct (attempt s); try done; by apply prefix_app_r. Qed.
Lemma feed_grows s l : found s `prefix_of` found (feed s l).
Proof.
  unfold feed. generalize (length l) as fuel. intros fuel.
  assert (∀ s', feed_loop fuel s l = Some s' → found s `prefix_of` found s') as Hf.
  { revert s l. induction fuel as [|fuel IH]; intros s [|b l] s'; cbn [feed_loop]; try done; try (by intros [= <-]).
    destruct (position _ (b :: l)) as [[|at_]|]; intros H1%IH; (etrans; [|exact H1]); [apply end_attempt_grows|apply extend_grows..]. }
  destruct (feed_loop fuel s l) eqn:E; [by apply Hf|done].
Qed.

(** A scan cut off after [n] bytes finds the first items of the whole file, and a TORN. *)
Lemma abort_prefix l n :
  ∃ items, abort (feed Scanner_default (take n l)) = items ++ [Scanned.Torn] ∧ items `prefix_of` scan_spec l.
Proof.
  exists (found (feed Scanner_default (take n l))). split; [done|]. rewrite <-fed_finish.
  rewrite <-(take_drop n l) at 2. rewrite <-feed_fed.
  assert (feed Scanner_default (take n l) = fed [] [] (take n l)) as -> by apply (feed_fed [] [] [] (take n l)).
  etrans; [apply feed_grows|apply end_attempt_grows].
Qed.

(** ** The two-phase append *)

Lemma io_bind_inv {A B} (m : io W A) (k : A → io W B) w w' r :
  io_bind m k w = (w', r) →
  ∃ w1 x, m w = (w1, x) ∧ match x with Some a => k a w1 = (w', r) | None => w' = w1 ∧ r = None end.
Proof. unfold io_bind. destruct (m w) as [w1 [a|]]; [by eauto|]. intros [= <- <-]. by exists w1, None. Qed.

Lemma overwrite_end c bytes : overwrite c bytes (zlen c) = c ++ bytes.
Proof.
  unfold overwrite. pose proof (zlen_nonneg bytes). unfold zlen in *.
  by rewrite take_ge, drop_ge, app_nil_r by lia.
Qed.

Lemma overwrite_nothing c offset : 0 ≤ offset → overwrite c [] offset = c.
Proof. intros Ho. unfold overwrite. change (zlen []) with 0. rewrite Z.add_0_r. cbn [app]. apply take_drop. Qed.

Lemma overwrite_status c status status' :
  overwrite (c ++ [status; 10]) [status'] (zlen c) = c ++ [status'; 10].
Proof.
  unfold overwrite. change (zlen [status']) with 1. unfold zlen. rewrite Z2Nat.inj_add, Nat2Z.id by lia.
  rewrite take_app_length. change (Z.to_nat 1) with 1%nat.
  rewrite drop_app_ge by lia. by replace (length c + 1 - length c)%nat with 1%nat by lia.
Qed.

Definition only (f : FileId) (w w' : W) : Prop := ∀ g, g ≠ f → contents w' g = contents w g.

Lemma keeps_only f w w' : keeps w w' → only f w w'.
Proof. intros Hk g _. apply Hk. Qed.
Lemma only_trans f w1 w2 w3 : only f w1 w2 → only f w2 w3 → only f w1 w3.
Proof. intros H1 H2 g Hg. by rewrite H2, H1. Qed.

(** A write at the end leaves a prefix of its bytes, all of them when it succeeds. *)
Lemma write_end f bytes w w' r :
  write_all_at f bytes (zlen (contents w f)) w = (w', r) →
  only f w w' ∧ ∃ k, contents w' f = contents w f ++ take k bytes ∧ (r = Some tt → (length bytes ≤ k)%nat).
Proof.
  intros Hw. pose proof (zlen_nonneg (contents w f)) as Hpos.
  destruct (write_law _ _ _ _ _ _ Hw) as [Ho (k & Hk & Hs & _)]; [lia|]. split; [done|].
  exists k. rewrite Hk, overwrite_end. done.
Qed.

(** A write of one status byte happens or does not. *)
Lemma write_status f c status status' w w' r :
  contents w f = c ++ [status; 10] → write_all_at f [status'] (zlen c) w = (w', r) →
  only f w w' ∧ contents w' f = c ++ [if r is Some _ then status' else status; 10].
Proof.
  intros Hc Hw. destruct (write_law _ _ _ _ _ _ Hw) as [Ho (k & Hk & Hs & Hn)].
  { rewrite Hc, zlen_app. change (zlen [status; 10]) with 2. pose proof (zlen_nonneg c). lia. }
  split; [done|]. rewrite Hk, Hc. destruct r as [[]|].
  - specialize (Hs eq_refl). rewrite take_ge by done. apply overwrite_status.
  - replace (take k [status']) with (@nil Z); [apply overwrite_nothing, zlen_nonneg|].
    destruct (Hn eq_refl) as [->|Hk0]; [done|]. simpl in Hk0. by replace k with 0%nat by lia.
Qed.

Lemma first_phase_bytes f frame points w w' r :
  first_phase f frame (zlen (contents w f)) points w = (w', r) →
  only f w w' ∧ ∃ k, contents w' f = contents w f ++ take k frame ∧ (r = Some tt → (length frame ≤ k)%nat).
Proof.
  unfold first_phase. set (end_ := zlen (contents w f)). intros Hr.
  apply io_bind_inv in Hr as (w1 & x1 & H1 & Hr). apply quiet_fail_at in H1.
  destruct x1 as [[]|]; [|destruct Hr as [-> ->]; split; [by apply keeps_only|]; exists 0%nat; split; [|done];
    by rewrite H1, app_nil_r].
  assert (Hend : end_ = zlen (contents w1 f)) by (by rewrite (H1 f)).
  apply io_bind_inv in Hr as (w2 & x2 & H2 & Hr). case_bool_decide as Hpartial.
  { apply io_bind_inv in H2 as (w3 & x3 & H3 & H2). rewrite Hend in H3.
    apply write_end in H3 as (Ho & k & Hk & _).
    assert (w2 = w3 ∧ x2 = None) as [-> ->] by (destruct x3 as [[]|]; [by injection H2 as <- <-|done]).
    destruct Hr as [-> ->]. split; [eapply only_trans; [by apply keeps_only|done]|].
    exists (Nat.min k (length frame / 2)). split; [|done]. by rewrite Hk, (H1 f), take_take. }
  injection H2 as <- <-. apply io_bind_inv in Hr as (w3 & x3 & H3 & Hr). rewrite Hend in H3.
  apply write_end in H3 as (Ho & k & Hk & Hs). rewrite (H1 f) in Hk.
  assert (Hquiet : quiet (fail_at points FilePoint.FirstSync ;; sync_all f ;;
    fail_at points FilePoint.FirstReadBack ;; read_back f frame end_)).
  { apply quiet_bind; [apply quiet_fail_at|intros _]. apply quiet_bind; [apply quiet_sync|intros _].
    apply quiet_bind; [apply quiet_fail_at|intros _; apply quiet_read_back]. }
  assert (Ho' : only f w w3) by (eapply only_trans; [by apply keeps_only|done]).
  destruct x3 as [[]|]; [|destruct Hr as [-> ->]; split; [done|]; by exists k].
  apply Hquiet in Hr. split; [eapply only_trans; [done|by apply keeps_only]|].
  exists k. split; [by rewrite Hr|]. intros _. by apply Hs.
Qed.

(** What the two phases leave: a prefix of the pending frame, or the whole frame with its status. *)
Lemma two_phases_bytes f payload frame points w w' commit_written ok :
  frame_encode payload PENDING = Some frame →
  two_phases f frame (zlen (contents w f)) (zlen (contents w f) + zlen frame - 2) points w = (w', (commit_written, ok)) →
  only f w w' ∧
  if commit_written then contents w' f = contents w f ++ frame_header payload ++ payload ++ [COMMITTED; 10]
  else ok = false ∧ ∃ k, contents w' f = contents w f ++ take k frame.
Proof.
  intros [Hst ->]%frame_encode_frame. unfold two_phases.
  set (c := contents w f). set (body := frame_header payload ++ payload).
  rewrite (app_assoc (frame_header payload)). fold body.
  destruct (io_bind _ _ w) as [w1 x] eqn:Hb. apply io_bind_inv in Hb as (w2 & x2 & H1 & Hb).
  apply first_phase_bytes in H1 as (Ho1 & k & Hk & Hs). fold c in Hk.
  destruct x2 as [[]|].
  2: { destruct Hb as [-> ->]. intros [= <- <- <-]. split; [done|]. split; [done|]. by exists k. }
  specialize (Hs eq_refl). rewrite take_ge in Hk by done.
  assert (Hat : zlen c + zlen (body ++ [PENDING; 10]) - 2 = zlen (c ++ body)).
  { rewrite !zlen_app. change (zlen [PENDING; 10]) with 2. lia. }
  rewrite Hat in *. rewrite app_assoc in Hk.
  unfold commit_write in Hb. apply io_bind_inv in Hb as (w3 & x3 & H3 & Hb). apply quiet_fail_at in H3.
  assert (Hpending : ∀ v, contents v f = (c ++ body) ++ [PENDING; 10] →
    ∃ k, contents v f = c ++ take k (body ++ [PENDING; 10])).
  { intros v Hv. exists (length (body ++ [PENDING; 10])). rewrite Hv, take_ge by lia. by rewrite <-app_assoc. }
  destruct x3 as [[]|].
  2: { destruct Hb as [-> ->]. intros [= <- <- <-]. split; [eapply only_trans; [done|by apply keeps_only]|].
       split; [done|]. apply Hpending. by rewrite H3. }
  eapply write_status in Hb as [Ho2 Hc2]; [|by rewrite H3].
  assert (Ho3 : only f w w1).
  { eapply only_trans; [exact Ho1|]. eapply only_trans; [by apply keeps_only|done]. }
  destruct x as [[]|].
  - destruct (commit_check f (zlen (c ++ body)) points w1) as [w4 x4] eqn:Hcheck. apply quiet_check in Hcheck.
    assert (Hdone : only f w w4 ∧ contents w4 f = c ++ frame_header payload ++ payload ++ [COMMITTED; 10]).
    { split; [eapply only_trans; [exact Ho3|by apply keeps_only]|]. rewrite Hcheck, Hc2. unfold body. by rewrite <-!app_assoc. }
    destruct x4; by intros [= <- <- <-].
  - intros [= <- <- <-]. split; [done|]. split; [done|]. by apply Hpending.
Qed.

Lemma revoke_bytes f c points w w' r :
  contents w f = c ++ [COMMITTED; 10] → revoke f (zlen c) points w = (w', r) →
  only f w w' ∧ (contents w' f = c ++ [COMMITTED; 10] ∨ contents w' f = c ++ [REVOKED; 10]).
Proof.
  intros Hc. unfold revoke. intros Hr. apply io_bind_inv in Hr as (w1 & x1 & H1 & Hr). apply quiet_fail_at in H1.
  destruct x1 as [[]|]; [|destruct Hr as [-> ->]; split; [by apply keeps_only|]; left; by rewrite H1].
  apply io_bind_inv in Hr as (w2 & x2 & H2 & Hr). eapply write_status in H2 as [Ho Hc2]; [|by rewrite H1].
  assert (Ho' : only f w w2) by (eapply only_trans; [by apply keeps_only|done]).
  destruct x2 as [[]|]; [|destruct Hr as [-> ->]; split; [done|by left]].
  assert (Hquiet : quiet (sync_all f ;; read_back f [REVOKED] (zlen c))).
  { apply quiet_bind; [apply quiet_sync|intros _; apply quiet_read_back]. }
  apply Hquiet in Hr. split; [eapply only_trans; [done|by apply keeps_only]|]. right. by rewrite Hr.
Qed.
(** The bytes an append leaves, by what it returned. *)
Inductive left_by (payload file : list Z) : Appended.t → list Z → Prop :=
| left_durable :
    storable payload → zlen (file ++ frame_header payload ++ payload ++ [COMMITTED; 10]) ≤ MAX_FILE_BYTES →
    left_by payload file Appended.Durable (file ++ frame_header payload ++ payload ++ [COMMITTED; 10])
| left_clean : left_by payload file (Appended.Failed false) file
| left_partial k :
    storable payload →
    left_by payload file (Appended.Failed true) (file ++ take k (frame_header payload ++ payload ++ [PENDING; 10]))
| left_revoked :
    storable payload →
    left_by payload file (Appended.Failed true) (file ++ frame_header payload ++ payload ++ [REVOKED; 10])
| left_window :
    storable payload →
    left_by payload file (Appended.Failed true) (file ++ frame_header payload ++ payload ++ [COMMITTED; 10]).

Lemma append_frame_leaves f payload points w w' a :
  append_frame f payload points w = (w', a) → only f w w' ∧ left_by payload (contents w f) a (contents w' f).
Proof.
  unfold append_frame. set (c := contents w f).
  destruct (frame_encode payload PENDING) as [frame|] eqn:Hf; [|intros [= <- <-]; by split; [|constructor]].
  destruct (frame_encode_frame _ _ _ Hf) as [Hst Hframe].
  destruct (metadata_len f w) as [w1 n] eqn:Hm. destruct (metadata_len_law _ _ _ _ Hm) as [Hk1 Hn].
  assert (Hclean : only f w w1 ∧ left_by payload c (Appended.Failed false) (contents w1 f)).
  { split; [by apply keeps_only|]. rewrite (Hk1 f). constructor. }
  destruct n as [end_|]; [|by intros [= <- <-]]. specialize (Hn end_ eq_refl). fold c in Hn. subst end_.
  unfold u64_checked_add. destruct (_ <? U64); [|by intros [= <- <-]].
  destruct (Z.ltb_spec MAX_FILE_BYTES (zlen c + zlen frame)) as [|Hmax]; [by intros [= <- <-]|].
  unfold usize_checked_sub. destruct (2 <=? _); [|by intros [= <- <-]].
  destruct (two_phases f frame _ _ points w1) as [w2 [commit_written ok]] eqn:Ht.
  assert (Hc1 : contents w1 f = c) by apply Hk1.
  rewrite <-Hc1 in Ht. eapply two_phases_bytes in Ht as [Ho2 Hb2]; [|done]. rewrite Hc1 in Hb2.
  assert (Ho : only f w w2) by (eapply only_trans; [by apply keeps_only|done]).
  destruct ok.
  { intros [= <- <-]. split; [done|]. destruct commit_written; [|by destruct Hb2]. rewrite Hb2. constructor; [done|].
    rewrite Hframe in Hmax. rewrite !zlen_app in *. done. }
  destruct (metadata_len f w2) as [w3 n] eqn:Hm3. destruct (metadata_len_law _ _ _ _ Hm3) as [Hk3 Hn3].
  assert (Ho3 : only f w w3) by (eapply only_trans; [done|by apply keeps_only]).
  case_bool_decide as Hlen.
  - intros [= <- <-]. split; [done|]. subst n. specialize (Hn3 _ eq_refl). rewrite (Hk3 f).
    assert (Hsame : contents w2 f = c); [|rewrite Hsame; constructor].
    destruct commit_written.
    + exfalso. rewrite Hb2, !zlen_app in Hn3. change (zlen [COMMITTED; 10]) with 2 in Hn3.
      pose proof (zlen_nonneg (frame_header payload)). pose proof (zlen_nonneg payload). lia.
    + destruct Hb2 as [_ (k & Hk)]. rewrite Hk, zlen_app in Hn3.
      rewrite Hk, (zlen_nil (take k frame)) by lia. by rewrite app_nil_r.
  - destruct commit_written.
    + destruct (revoke f _ points w3) as [w4 r] eqn:Hr. intros [= <- <-].
      assert (Hat : zlen c + zlen frame - 2 = zlen (c ++ frame_header payload ++ payload)).
      { rewrite Hframe, !zlen_app. change (zlen [PENDING; 10]) with 2. lia. }
      rewrite Hat in Hr. eapply revoke_bytes in Hr as [Ho4 Hb4]; [|rewrite (Hk3 f), Hb2; by rewrite <-!app_assoc].
      split; [eapply only_trans; [exact Ho3|done]|].
      destruct Hb4 as [-> | ->]; rewrite <-!app_assoc; by constructor.
    + intros [= <- <-]. split; [done|]. destruct Hb2 as [_ (k & Hk)]. rewrite (Hk3 f), Hk, Hframe. by constructor.
Qed.

(** The items an append adds to the scan of its file. *)
Definition added (payload : list Z) (a : Appended.t) (items : list Scanned.t) : Prop :=
  match a with
  | Appended.Durable => items = [Scanned.Frame payload]
  | Appended.Failed false => items = []
  | Appended.Failed true => items = [] ∨ items = [Scanned.Torn] ∨ items = [Scanned.Frame payload]
  end.

Lemma left_by_scan payload file a file' :
  no_ff payload → left_by payload file a file' →
  ∃ items, scan_spec file' = scan_spec file ++ items ∧ added payload a items.
Proof.
  intros Hn [Hs _| |k Hs|Hs|Hs]; try (pose proof (frame_encode_Some payload COMMITTED Hs) as Hc).
  - eexists. split; [exact (scan_spec_frame _ _ _ _ Hc Hn ltac:(done))|done].
  - exists []. by rewrite app_nil_r.
  - eexists. split; [exact (scan_spec_crash _ _ _ _ k (frame_encode_Some payload PENDING Hs) Hn ltac:(done))|].
    unfold crash_items. destruct (Nat.eqb k 0); [by left|]. rewrite andb_false_r. right. by left.
  - eexists. split; [exact (scan_spec_frame _ _ _ _ (frame_encode_Some payload REVOKED Hs) Hn ltac:(done))|].
    right. by left.
  - eexists. split; [exact (scan_spec_frame _ _ _ _ Hc Hn ltac:(done))|]. right. by right.
Qed.
(** ** The stores keep the gate's laws *)

Lemma open_marker_mirror s : fs_mirror (open_marker s).1 = fs_mirror s.
Proof. unfold open_marker. destruct (fs_marker s); [done|]. by destruct (dir_file _ _ _ _) as [w [[[file created]|]|]]. Qed.
Lemma sync_marker_mirror s : fs_mirror (sync_marker_dir s).1 = fs_mirror s.
Proof. unfold sync_marker_dir. destruct (fs_marker_synced s); [done|]. by destruct (dir_sync _ _) as [w []]. Qed.
Lemma append_marker_mirror s g m points : fs_mirror (append_marker s g m points).1 = fs_mirror s.
Proof.
  unfold append_marker. destruct (fs_marker s); [|done]. destruct (append_frame _ _ _ _) as [w []]; [done|].
  by destruct (metadata_len _ _).
Qed.

(** A marker write: refused before anything, stopped at the file or its directory, or the frame. *)
Lemma fs_write_marker_cases s g m :
  fs_marker_present s = false →
  (fs_mirror (fs_write_marker s g m).1 = fs_mirror s ∧ (fs_write_marker s g m).2 = false) ∨
  ∃ s' points, fs_mirror s' = fs_mirror s ∧ fs_write_marker s g m = append_marker s' g m points.
Proof.
  intros Hp. unfold fs_write_marker. rewrite Hp.
  destruct (match fs_plan s with Some _ => _ | None => _ end) as [[plan refused] points].
  destruct (refused || _); [by left|].
  pose proof (open_marker_mirror (fs_with_plan s plan)) as H1. destruct (open_marker _) as [s1 []]; [|by left].
  pose proof (sync_marker_mirror s1) as H2. destruct (sync_marker_dir s1) as [s2 []]; cbn [fst snd] in *.
  - right. exists s2, points. split; [|done]. by rewrite H2, H1.
  - left. split; [|done]. by rewrite H2, H1.
Qed.

#[export] Instance FileStores_laws : StoresLaws (FileStores (W := W)).
Proof.
  split; try done.
  - intros s r. cbn [append entries FileStores_Stores]. unfold fs_append.
    destruct (journal_points _) as [plan points]. destruct (append_frame _ _ _ _) as [w a]. cbn [fst snd].
    destruct a as [|[]]; cbn; by rewrite ?app_nil_r.
  - intros s r. cbn [append marker_present FileStores_Stores]. unfold fs_append.
    destruct (journal_points _) as [plan points]. by destruct (append_frame _ _ _ _) as [w a].
  - intros s g m. cbn [write_marker entries FileStores_Stores]. destruct (fs_marker_present s) eqn:Hp.
    { unfold fs_write_marker. by rewrite Hp. }
    destruct (fs_write_marker_cases s g m Hp) as [[H1 _]|(s' & points & H1 & ->)]; [done|].
    by rewrite append_marker_mirror.
  - intros s g m. cbn [write_marker marker_present FileStores_Stores]. destruct (fs_marker_present s) eqn:Hp.
    { unfold fs_write_marker. by rewrite Hp. }
    destruct (fs_write_marker_cases s g m Hp) as [[_ ->]|(s' & points & _ & ->)]; [done|].
    unfold append_marker. destruct (fs_marker s'); [|done]. destruct (append_frame _ _ _ _) as [w []]; [done|].
    destruct (metadata_len _ _). cbn [snd]. by case_bool_decide.
  - intros s g m Hp. cbn [write_marker marker_present FileStores_Stores] in *. unfold fs_write_marker. by rewrite Hp.
Qed.

(** ** The journal file follows the mirror *)

Definition file_entries (s : FileStores (W := W)) : list Entry.t :=
  frame_journal_entries (scan_spec (contents (fs_world s) (fs_journal s))).

Definition fs_ok (s : FileStores (W := W)) : Prop :=
  reflects (fs_mirror s) (file_entries s) ∧ file_dir (fs_journal s) = StoreDir.Journal ∧
  ∀ file, fs_marker s = Some file → file_dir file = StoreDir.Marker.

Lemma fs_append_ok s r : typed_record r → fs_ok s → fs_ok (fs_append s r).1.
Proof.
  intros Hr (Hm & Hj & Hk). unfold fs_append. destruct (journal_points _) as [plan points].
  destruct (append_frame _ _ _ _) as [w a] eqn:Ha. cbn [fst]. apply append_frame_leaves in Ha as [_ Hl].
  pose proof (utf8_no_ff _ (utf8_doc_canonical _ (wf_record r Hr))) as Hn.
  apply left_by_scan in Hl as (items & Hscan & Hadd); [|done].
  split; [|by split]. unfold file_entries in *. cbn [fs_world fs_journal fs_mirror fs_with_journal fs_with_plan].
  unfold frame_journal_entries in *. rewrite Hscan, map_app.
  assert (Hd : scanned_entry (Scanned.Frame (doc_canonical (Rec.to_doc r))) = Entry.Record_ r).
  { unfold scanned_entry. by rewrite decode_record_doc. }
  destruct a as [|[]]; cbn [added] in Hadd.
  - subst items. cbn [map]. rewrite Hd. by constructor.
  - destruct Hadd as [-> | [-> | ->]]; cbn [map]; rewrite ?app_nil_r, ?Hd; by constructor.
  - subst items. cbn [map]. by rewrite app_nil_r.
Qed.

(** Steps on the marker's side: the journal's file and mirror stay. *)
Definition marker_side (s s' : FileStores (W := W)) : Prop :=
  fs_mirror s' = fs_mirror s ∧ fs_journal s' = fs_journal s ∧
  (file_dir (fs_journal s) = StoreDir.Journal →
   contents (fs_world s') (fs_journal s) = contents (fs_world s) (fs_journal s)) ∧
  ((∀ file, fs_marker s = Some file → file_dir file = StoreDir.Marker) →
   ∀ file, fs_marker s' = Some file → file_dir file = StoreDir.Marker).

Lemma marker_side_trans s1 s2 s3 : marker_side s1 s2 → marker_side s2 s3 → marker_side s1 s3.
Proof.
  intros (H1 & H2 & H3 & H4) (K1 & K2 & K3 & K4). rewrite H2 in *. split_and!; [congruence..| |auto].
  intros Hd. rewrite K3, H3; done.
Qed.

Lemma marker_side_ok s s' : marker_side s s' → fs_ok s → fs_ok s'.
Proof.
  intros (H1 & H2 & H3 & H4) (Hm & Hj & Hk). unfold fs_ok, file_entries in *. rewrite H1, H2, H3 by done.
  split; [done|]. split; [done|]. by apply H4.
Qed.

Lemma open_marker_side s : marker_side s (open_marker s).1.
Proof.
  unfold open_marker. destruct (fs_marker s) as [file|] eqn:Hm; [by split_and!|].
  destruct (dir_file _ _ _ _) as [w r] eqn:Hd. destruct (dir_file_law _ _ _ _ _ _ Hd) as (Ho & Hf & _ & _).
  assert (Hj : file_dir (fs_journal s) = StoreDir.Journal → contents w (fs_journal s) = contents (fs_world s) (fs_journal s)).
  { intros Hj. apply Ho. intros Heq. by rewrite Heq in Hj. }
  destruct r as [[[file created]|]|]; cbn [fst]; split_and!; try done; cbn.
  intros _ f [= <-]. by destruct (Hf _ _ eq_refl) as [-> _].
Qed.

Lemma sync_marker_side s : marker_side s (sync_marker_dir s).1.
Proof.
  unfold sync_marker_dir. destruct (fs_marker_synced s); [by split_and!|].
  destruct (dir_sync _ _) as [w r] eqn:Hd. pose proof (dir_sync_law _ _ _ _ Hd) as Hk.
  destruct r; split_and!; try done; intros _; apply Hk.
Qed.

Lemma append_marker_side s g m points :
  (∀ file, fs_marker s = Some file → file_dir file = StoreDir.Marker) →
  marker_side s (append_marker s g m points).1.
Proof.
  intros Hk. unfold append_marker. destruct (fs_marker s) as [file|] eqn:Hm; [|by split_and!].
  specialize (Hk file eq_refl). destruct (append_frame _ _ _ _) as [w a] eqn:Ha. apply append_frame_leaves in Ha as [Ho _].
  assert (Hj : ∀ v state, keeps w v → marker_side s (fs_with_marker s v (Some file) (fs_marker_synced s) state (fs_marker_dir_syncs s))).
  { intros v state Hv. split_and!; [done|done| |by intros _ f [= <-]]. intros Hj. cbn. rewrite Hv. apply Ho.
    intros Heq. by rewrite Heq, Hk in Hj. }
  destruct a; [apply Hj, keeps_refl|]. destruct (metadata_len _ _) as [w' n] eqn:Hn.
  apply Hj. exact (proj1 (metadata_len_law _ _ _ _ Hn)).
Qed.

Lemma fs_write_marker_ok s g m : fs_ok s → fs_ok (fs_write_marker s g m).1.
Proof.
  intros Hs. unfold fs_write_marker. destruct (fs_marker_present s); [done|].
  destruct (match fs_plan s with Some _ => _ | None => _ end) as [[plan refused] points].
  assert (Hp : marker_side s (fs_with_plan s plan)) by by split_and!.
  apply marker_side_ok in Hp; [|done]. destruct (refused || _); [done|].
  pose proof (marker_side_ok _ _ (open_marker_side (fs_with_plan s plan)) Hp) as H1.
  destruct (open_marker _) as [s1 []]; [|done]. cbn [fst] in H1.
  pose proof (marker_side_ok _ _ (sync_marker_side s1) H1) as H2.
  destruct (sync_marker_dir s1) as [s2 []]; [|done]. cbn [fst] in H2.
  eapply marker_side_ok; [apply append_marker_side; apply H2|done].
Qed.
End Disks.
