(* ===== verification/FileStoreOpen.v ===== *)
(** * Opening a generation's stores

    An opening succeeds only for a valid name on two devices, as the last committed entry of the
    index, over every earlier generation's bindings; its mirror is what its journal file reads
    back as, or what the bytes before a failed read decide.  So a restart finds what the previous process left. *)

From S2P Require Import Prelude Slices Sha256 Json.
From S2P Require Import Frame Render Types Journal StoreFrame StoreScan JsonInt RecordCodec FileStore FileStoreProofs.
(** ** Names do not collide *)

Lemma last_app_suffix (g s : string) : s ≠ EmptyString → last (bytes_of (g +:+ s)) = last (bytes_of s).
Proof.
  intros Hs. rewrite bytes_of_app, last_app. destruct (bytes_of s) as [|b l] eqn:E; [by destruct s|].
  destruct (last (b :: l)) eqn:El; [done|]. by apply last_None in El.
Qed.

Lemma journal_name_inj g g' : journal_name g = journal_name g' → g = g'.
Proof.
  unfold journal_name. intros Heq%(f_equal bytes_of). rewrite !bytes_of_app in Heq.
  by apply app_inv_tail, bytes_of_inj in Heq.
Qed.

Lemma journal_not_index g : journal_name g ≠ INDEX_NAME.
Proof. unfold journal_name. intros Heq%(f_equal (last ∘ bytes_of)). simpl in Heq. by rewrite last_app_suffix in Heq. Qed.
Lemma journal_not_document g g' : journal_name g ≠ document_name g'.
Proof.
  unfold journal_name, document_name. intros Heq%(f_equal (last ∘ bytes_of)). simpl in Heq.
  by rewrite !last_app_suffix in Heq.
Qed.
Lemma document_not_index g : document_name g ≠ INDEX_NAME.
Proof. unfold document_name. intros Heq%(f_equal (last ∘ bytes_of)). simpl in Heq. by rewrite last_app_suffix in Heq. Qed.

Lemma valid_generation_text g : valid_generation g = true → utf8_text g.
Proof.
  unfold valid_generation. intros [[_ Hall]%andb_prop _]%andb_prop. apply ascii_text. rewrite forallb_forall in *.
  intros b Hb. specialize (Hall b Hb). unfold is_ascii_alphanumeric, is_digit in Hall. lia.
Qed.

(** ** What the earlier bindings cover *)

Definition covers (prior : PriorBindings) (r : Rec.t) : Prop :=
  match r with
  | Rec.Bind execution_id run_nonce _ digests identities =>
      execution_id ∈ execution_ids prior ∧ run_nonce ∈ run_nonces prior ∧
      (∀ d, d ∈ digests → d ∈ Journal.manifest_digests prior) ∧
      (∀ i, i ∈ identities → i ∈ Journal.manifest_identities prior)
  | _ => True
  end.

Definition within (p q : PriorBindings) : Prop :=
  execution_ids p ⊆ execution_ids q ∧ run_nonces p ⊆ run_nonces q ∧
  Journal.manifest_digests p ⊆ Journal.manifest_digests q ∧ Journal.manifest_identities p ⊆ Journal.manifest_identities q.

#[export] Instance within_preorder : PreOrder within.
Proof. split; [by intros p|]. intros p q r (?&?&?&?) (?&?&?&?). split_and!; by etrans. Qed.

Lemma covers_within p q r : within p q → covers p r → covers q r.
Proof. intros (H1&H2&H3&H4). destruct r; try done. simpl. set_solver. Qed.

Lemma add_binding_within p e : within p (add_binding p e).
Proof. destruct e as [[]|]; simpl; split_and!; set_solver. Qed.

Lemma add_bindings_cover p entries :
  within p (add_bindings p entries) ∧ ∀ r, Entry.Record_ r ∈ entries → covers (add_bindings p entries) r.
Proof.
  revert p. induction entries as [|e entries IH]; intros p; [split; [done|]; by intros r Hr%elem_of_nil|].
  destruct (IH (add_binding p e)) as [Hw Hc]. cbn. split; [etrans; [apply add_binding_within|exact Hw]|].
  intros r [<-|Hr]%elem_of_cons; [|by apply Hc]. eapply covers_within; [exact Hw|].
  destruct r; simpl; set_solver.
Qed.

Section Opened.
Context {W : Type} `{DiskLaws W}.

Definition index_file : FileId := mkFileId StoreDir.Journal INDEX_NAME.
Definition journal_file (g : string) : FileId := mkFileId StoreDir.Journal (journal_name g).

(** The committed generations of the index, and the records of a generation's journal. *)
Definition index_of (w : W) : list string := omap indexed_generation (scan_spec (contents w index_file)).
Definition journal_of (w : W) (g : string) : list Entry.t := frame_journal_entries (scan_spec (contents w (journal_file g))).
Definition binds_covered (w : W) (prior : PriorBindings) (g : string) : Prop :=
  ∀ r, Entry.Record_ r ∈ journal_of w g → covers prior r.

(** ** Steps of the opening that succeed *)

Lemma op_bind_inv {A B} (m : op (W := W) A) (k : A → op B) s s' b :
  op_bind m k s = (s', Ok b) → ∃ s1 a, m s = (s1, Ok a) ∧ k a s1 = (s', Ok b).
Proof. unfold op_bind. destruct (m s) as [s1 [a|e]]; [eauto|done]. Qed.

(** Only files selected by [P] change. *)
Definition leaves {A} (P : FileId → Prop) (m : op (W := W) A) : Prop :=
  ∀ s s' a, m s = (s', Ok a) → ∀ g, ¬ P g → contents s'.1 g = contents s.1 g.

Lemma readings_bind {A B} P (m : op (W := W) A) (k : A → op B) :
  leaves P m → (∀ a, leaves P (k a)) → leaves P (op_bind m k).
Proof.
  intros Hm Hk s s' b (s1 & a & H1 & H2)%op_bind_inv g Hg. rewrite (Hk _ _ _ _ H2 g Hg). by apply (Hm _ _ _ H1).
Qed.
Lemma leaves_weaken {A} (P Q : FileId → Prop) (m : op (W := W) A) : (∀ g, P g → Q g) → leaves P m → leaves Q m.
Proof. intros HPQ Hm s s' a Hr g Hg. apply (Hm _ _ _ Hr). auto. Qed.
Lemma leaves_ret {A} P (a : A) : leaves P (op_ret a).
Proof. by intros s s' b [= <- <-]. Qed.
Lemma leaves_fail {A} P e : leaves P (op_fail (A := A) e).
Proof. by intros s s' b [=]. Qed.
Lemma leaves_taking P file : leaves P (taking file).
Proof. intros [w plan] s' b. unfold taking. destruct (take_points plan file). by intros [= <- <-]. Qed.

Lemma on_disk_inv {A} (m : io W A) e w plan s' a :
  on_disk m e (w, plan) = (s', Ok a) → ∃ w', m w = (w', Some a) ∧ s' = (w', plan).
Proof. unfold on_disk. destruct (m w) as [w' [x|]]; [|done]. intros [= <- <-]. eauto. Qed.
Lemma reading_inv {A} (m : W → W * A) w plan s' a :
  reading m (w, plan) = (s', Ok a) → ∃ w', m w = (w', a) ∧ s' = (w', plan).
Proof. unfold reading. destruct (m w) as [w' x]. intros [= <- <-]. eauto. Qed.

Lemma leaves_on_disk {A} P (m : io W A) e : quiet m → leaves P (on_disk m e).
Proof. intros Hq [w plan] s' a (w' & Hm & ->)%on_disk_inv g _. by apply Hq in Hm. Qed.
Lemma leaves_scan P f : leaves P (reading (scan_file f)).
Proof. intros [w plan] s' a (w' & Hm & ->)%reading_inv g _. apply scan_file_reads in Hm as [Hk _]. apply Hk. Qed.
Lemma leaves_append f payload points : leaves (.= f) (reading (append_frame f payload points)).
Proof. intros [w plan] s' a (w' & Hm & ->)%reading_inv g Hg. apply append_frame_leaves in Hm as [Ho _]. by apply Ho. Qed.
Lemma leaves_holding {A} P f (m : op (W := W) A) : leaves P m → leaves P (holding f m).
Proof.
  intros Hm s s' a. unfold holding. destruct (m s) as [[w plan] r] eqn:E. intros [= <- ->] g Hg. cbn.
  rewrite release_law. by apply (Hm _ _ _ E).
Qed.

Lemma quiet_existing d name : quiet (dir_file d name FileMode.Existing).
Proof.
  intros w w' r Hr g. destruct (dir_file_law _ _ _ _ _ _ Hr) as (Ho & Hf & Hc & Hn).
  destruct (decide (g = mkFileId d name)) as [->|Hg]; [|by apply Ho].
  destruct r as [[[file created]|]|]; [|by apply Hn; left|by apply Hn; right].
  specialize (Hc _ _ eq_refl eq_refl). subst created. by destruct (Hf _ _ eq_refl) as [-> ?].
Qed.
Lemma quiet_dir_sync d : quiet (dir_sync d).
Proof. intros w w' r Hr. exact (dir_sync_law _ _ _ _ Hr). Qed.
Lemma quiet_dir_at d : quiet (dir_at d).
Proof. intros w w' r Hr. exact (dir_at_law _ _ _ _ Hr). Qed.
Lemma quiet_lock f : quiet (lock f).
Proof. intros w w' r Hr. exact (lock_law _ _ _ _ Hr). Qed.
Lemma quiet_try_lock f : quiet (try_lock f).
Proof. intros w w' r Hr. exact (try_lock_law _ _ _ _ Hr). Qed.

(** A file opened or created: its own bytes, and no other file's. *)
Lemma opened_inv d name mode w plan s' file created :
  opened d name mode (w, plan) = (s', Ok (file, created)) →
  file = mkFileId d name ∧ contents s'.1 file = (if (created : bool) then [] else contents w file) ∧
  ∀ g, g ≠ file → contents s'.1 g = contents w g.
Proof.
  unfold opened. intros (s1 & found & H1 & H2)%op_bind_inv. apply on_disk_inv in H1 as (w1 & H1 & ->).
  destruct found as [[file' created']|]; [|done]. injection H2 as <- <- <-.
  destruct (dir_file_law _ _ _ _ _ _ H1) as (Ho & Hf & _ & _). destruct (Hf _ _ eq_refl) as [-> Hc]. done.
Qed.
Lemma leaves_opened d name mode : leaves (.= mkFileId d name) (opened d name mode).
Proof. intros [w plan] s' [file created] (-> & _ & Ho)%opened_inv g Hg. by apply Ho. Qed.

(** ** The calls of the opening *)

(** A step that is calls of the disk, whether it succeeds or refuses. *)
Definition walks {A} (m : op (W := W) A) : Prop := ∀ s, reaches s.1 (m s).1.1.
Lemma walks_eq {A} (m : op (W := W) A) s s' r : walks m → m s = (s', r) → reaches s.1 s'.1.
Proof. intros Hm E. specialize (Hm s). by rewrite E in Hm. Qed.
Lemma walks_bind {A B} (m : op (W := W) A) (k : A → op B) : walks m → (∀ a, walks (k a)) → walks (op_bind m k).
Proof.
  intros Hm Hk s. unfold op_bind. specialize (Hm s). destruct (m s) as [s1 [a|e]]; [|done].
  eapply reaches_trans; [exact Hm|apply Hk].
Qed.
Lemma walks_ret {A} (a : A) : walks (op_ret a).
Proof. intros s. apply rtc_refl. Qed.
Lemma walks_fail {A} e : walks (op_fail (A := A) e).
Proof. intros s. apply rtc_refl. Qed.
Lemma walks_on_disk {A} (m : io W A) e : calls m → walks (on_disk m e).
Proof. intros Hm [w plan]. unfold on_disk. specialize (Hm w). by destruct (m w). Qed.
Lemma walks_reading {A} (m : W → W * A) : calls m → walks (reading m).
Proof. intros Hm [w plan]. unfold reading. specialize (Hm w). by destruct (m w). Qed.
Lemma walks_taking file : walks (taking file).
Proof. intros [w plan]. unfold taking. destruct (take_points plan file). apply rtc_refl. Qed.
Lemma walks_holding {A} f (m : op (W := W) A) : walks m → walks (holding f m).
Proof.
  intros Hm s. unfold holding. specialize (Hm s). destruct (m s) as [[w plan] r].
  eapply rtc_r; [exact Hm|apply called_release].
Qed.

Lemma calls_matches f g digest : calls (document_matches f g digest).
Proof.
  intros w. unfold document_matches. destruct (scan_file f w) as [w1 scan] eqn:E. eapply calls_eq; [apply calls_scan_file|exact E].
Qed.
Lemma calls_marker_state f g : calls (marker_state_of f g).
Proof.
  intros w. unfold marker_state_of. destruct (metadata_len f w) as [w1 [n|]] eqn:E; apply calls_eq in E; try apply calls_metadata; [|exact E].
  destruct (n =? 0); [exact E|]. destruct (scan_file f w1) as [w2 scan] eqn:E2. apply calls_eq in E2; [|apply calls_scan_file].
  by eapply reaches_trans.
Qed.
Lemma calls_dir d name mode : calls (dir_file d name mode).
Proof. intros w. apply rtc_once. constructor. Qed.

Ltac walking :=
  repeat first
    [ apply walks_bind; [|intros ?] | apply walks_ret | apply walks_fail | apply walks_taking | apply walks_holding
    | apply walks_reading; (apply calls_scan_file || apply calls_append || apply calls_matches || apply calls_marker_state)
    | apply walks_on_disk; (apply calls_dir || by (intros ?; apply rtc_once; constructor))
    | match goal with |- walks (match ?x with _ => _ end) => destruct x end ].

Lemma walks_opened d name mode : walks (opened d name mode).
Proof. unfold opened. walking. Qed.
Lemma walks_committed index : walks (committed_generations index).
Proof. unfold committed_generations. walking. Qed.
Lemma walks_earlier visited prior l : walks (earlier_bindings visited prior l).
Proof.
  revert visited prior. induction l as [|g l IH]; intros visited prior; cbn [earlier_bindings]; [apply walks_ret|].
  case_bool_decide; [apply IH|]. apply walks_bind; [|intros p; apply IH]. unfold read_earlier. walking.
Qed.
Lemma walks_find_marker g : walks (find_marker g).
Proof. unfold find_marker. walking. Qed.
Lemma calls_dir_at d : calls (dir_at d).
Proof. intros w. apply rtc_once. constructor. Qed.
Lemma calls_dir_sync d : calls (dir_sync d).
Proof. intros w. apply rtc_once. constructor. Qed.
Lemma calls_lock f : calls (lock f).
Proof. intros w. apply rtc_once. constructor. Qed.
Lemma walks_bind_document g digest indexed : walks (bind_document g digest indexed).
Proof.
  unfold bind_document. destruct indexed; cbn zeta; [walking|]. apply walks_bind; [apply walks_opened|]. intros [file created].
  walking.
Qed.

Lemma walks_document g document indexed :
  walks (match document with Some digest => bind_document g digest indexed | None => op_ret () end).
Proof. destruct document; [apply walks_bind_document|apply walks_ret]. Qed.

(** ** The parts of the opening *)

Lemma committed_generations_inv index w plan s' l :
  committed_generations index (w, plan) = (s', Ok l) →
  keeps w s'.1 ∧ l = omap indexed_generation (scan_spec (contents w index)).
Proof.
  unfold committed_generations. intros (s1 & scan & H1 & H2)%op_bind_inv. apply reading_inv in H1 as (w1 & H1 & ->).
  apply scan_file_reads in H1 as (Hk & Hc & _). destruct (scan_complete scan); [|done]. injection H2 as <- <-.
  split; [done|]. by rewrite Hc.
Qed.

Lemma read_earlier_inv g prior w plan s' prior' :
  read_earlier g prior (w, plan) = (s', Ok prior') →
  keeps w s'.1 ∧ within prior prior' ∧ binds_covered w prior' g.
Proof.
  unfold read_earlier. intros (s1 & found & H1 & H2)%op_bind_inv. apply on_disk_inv in H1 as (w1 & H1 & ->).
  pose proof (quiet_existing _ _ _ _ _ H1) as Hk1. destruct found as [[file created]|]; [|done].
  destruct (dir_file_law _ _ _ _ _ _ H1) as (_ & Hf & _). destruct (Hf _ _ eq_refl) as [-> _].
  apply op_bind_inv in H2 as (s2 & [] & H2 & H3). apply on_disk_inv in H2 as (w2 & H2 & ->). apply quiet_try_lock in H2.
  unfold holding in H3. destruct (op_bind _ _ _) as [[w3 plan3] r] eqn:E. injection H3 as <- ->.
  apply op_bind_inv in E as (s4 & scan & H4 & H5). apply reading_inv in H4 as (w4 & H4 & ->).
  apply scan_file_reads in H4 as (Hk4 & Hc & _). destruct (scan_complete scan); [|done]. injection H5 as <- <- <-.
  specialize (Hc eq_refl). split; [|split].
  - intros g'. cbn. by rewrite release_law, Hk4, H2, Hk1.
  - apply add_bindings_cover.
  - unfold binds_covered, journal_of, journal_file. intros r Hr.
    apply (add_bindings_cover prior). by rewrite Hc, H2, Hk1.
Qed.

Lemma earlier_bindings_inv visited prior l w plan s' prior' :
  (∀ g, g ∈ visited → binds_covered w prior g) →
  earlier_bindings visited prior l (w, plan) = (s', Ok prior') →
  keeps w s'.1 ∧ ∀ g, g ∈ visited ∨ g ∈ l → binds_covered w prior' g.
Proof.
  revert visited prior w plan. induction l as [|g l IH]; intros visited prior w plan Hv Hr; cbn [earlier_bindings] in Hr.
  { injection Hr as <- <-. split; [apply keeps_refl|]. intros g [Hg|Hg%elem_of_nil]; [by apply Hv|done]. }
  case_bool_decide as Hin.
  - apply IH in Hr as [Hk Hc]; [|done]. split; [done|]. intros g' [Hg|[->|Hg]%elem_of_cons]; apply Hc; auto.
  - apply op_bind_inv in Hr as ([w1 plan1] & p1 & H1 & Hr).
    apply read_earlier_inv in H1 as (Hk1 & Hw & Hg). cbn [fst] in Hk1.
    assert (Hsame : ∀ p g', binds_covered w1 p g' ↔ binds_covered w p g').
    { intros p g'. unfold binds_covered, journal_of. by rewrite Hk1. }
    apply IH in Hr as [Hk Hc].
    + split; [by eapply keeps_trans|]. intros g' Hg'. apply Hsame, Hc. set_solver.
    + intros g' Hg'. apply Hsame. apply elem_of_union in Hg' as [->%elem_of_singleton|Hg']; [done|].
      intros r Hr'. eapply covers_within; [exact Hw|]. by apply (Hv g').
Qed.

Lemma find_marker_inv g w plan s' marker state :
  find_marker g (w, plan) = (s', Ok (marker, state)) →
  keeps w s'.1 ∧ ∀ file, marker = Some file → file_dir file = StoreDir.Marker.
Proof.
  unfold find_marker. intros (s1 & found & H1 & H2)%op_bind_inv. apply on_disk_inv in H1 as (w1 & H1 & ->).
  pose proof (quiet_existing _ _ _ _ _ H1) as Hk1. destruct (dir_file_law _ _ _ _ _ _ H1) as (_ & Hf & _).
  destruct found as [[file created]|]; [|by injection H2 as <- <- <-].
  destruct (Hf _ _ eq_refl) as [-> _]. apply op_bind_inv in H2 as (s2 & st & H2 & H3). injection H3 as <- <- <-.
  apply reading_inv in H2 as (w2 & H2 & ->). split; [|by intros f [= <-]]. eapply keeps_trans; [exact Hk1|].
  unfold marker_state_of in H2. destruct (metadata_len _ _) as [w3 [n|]] eqn:Hm;
    pose proof (proj1 (metadata_len_law _ _ _ _ Hm)) as Hk3; [|by injection H2 as <- <-].
  destruct (n =? 0); [by injection H2 as <- <-|]. destruct (scan_file _ _) as [w4 scan] eqn:Hs.
  apply scan_file_reads in Hs as [Hk4 _]. injection H2 as <- _. by eapply keeps_trans.
Qed.

Lemma leaves_matches P f g digest : leaves P (reading (document_matches f g digest)).
Proof.
  intros [w plan] s' a (w' & Hm & ->)%reading_inv h _. unfold document_matches in Hm.
  destruct (scan_file f w) as [w1 scan] eqn:Hs. apply scan_file_reads in Hs as [Hk _]. injection Hm as <- _. apply Hk.
Qed.

Lemma leaves_bind_document g digest indexed :
  leaves (.= mkFileId StoreDir.Journal (document_name g)) (bind_document g digest indexed).
Proof.
  unfold bind_document. destruct indexed.
  - apply readings_bind; [apply leaves_on_disk, quiet_existing|]. intros [[file created]|]; [|apply leaves_fail].
    apply readings_bind; [apply leaves_matches|]. intros []; [apply leaves_ret|apply leaves_fail].
  - intros [w plan] s' [] (s1 & [file created] & H1 & H2)%op_bind_inv h Hh.
    apply opened_inv in H1 as (-> & _ & Ho). cbn [fst]. rewrite <-(Ho h Hh). revert h Hh. revert H2. destruct s1 as [w1 plan1].
    generalize (w1, plan1). intros s1 H2.
    assert (Hl : leaves (.= mkFileId StoreDir.Journal (document_name g))
      (if negb created
       then op! matches := reading (document_matches (mkFileId StoreDir.Journal (document_name g)) g digest) in
            if (matches : bool) then op_ret tt else op_fail OpenError.Document
       else op! points := taking StoreFile.Document in
            op! appended := reading (append_frame (mkFileId StoreDir.Journal (document_name g)) (document_payload g digest) points) in
            if bool_decide (appended = Appended.Durable) then op_ret tt else op_fail OpenError.Document)).
    { destruct created; cbn [negb].
      - apply readings_bind; [apply leaves_taking|]. intros points. apply readings_bind; [apply leaves_append|].
        intros a. case_bool_decide; [apply leaves_ret|apply leaves_fail].
      - apply readings_bind; [apply leaves_matches|]. intros []; [apply leaves_ret|apply leaves_fail]. }
    exact (Hl _ _ _ H2).
Qed.

(** The journal could not be read whole: on the way of the disk's calls from [w] to [w'], its length or its next chunk was
    not read, or it is longer than a scan reads; the mirror is what the bytes before that decide, and a TORN. *)
Definition cut_short (w w' : W) (g : string) (mirror : list Entry.t) : Prop :=
  ∃ w1 n w2, reaches w w1 ∧ cut_off w1 (journal_file g) n w2 ∧ reaches w2 w' ∧
    contents w1 (journal_file g) = contents w' (journal_file g) ∧
    mirror = frame_journal_entries (abort (feed Scanner_default (take (Z.to_nat n) (contents w' (journal_file g))))).

(** Steps 6 and 7. *)
Record journal_opened (w w' : W) (g : string) (indexed : bool) (s : FileStores (W := W)) : Prop := {
  jo_journal : fs_journal s = journal_file g;
  jo_bytes : contents w' (journal_file g) = (if fs_journal_created s then [] else contents w (journal_file g));
  jo_others : ∀ f, f ≠ journal_file g → f ≠ index_file → contents w' f = contents w f;
  jo_index : if indexed then contents w' index_file = contents w index_file
             else left_by (generation_payload g) (contents w index_file) Appended.Durable (contents w' index_file);
  jo_mirror : fs_mirror s = journal_of w' g ∨ cut_short w w' g (fs_mirror s);
}.

Lemma journal_not_index_file g : journal_file g ≠ index_file.
Proof. intros [=Hn]. by eapply journal_not_index. Qed.

Lemma keeping_inv {A} f (m : op (W := W) A) s s' a : keeping f m s = (s', Ok a) → m s = (s', Ok a).
Proof. unfold keeping. destruct (m s) as [[w plan] [x|e]]; [done|]. by intros [=]. Qed.

Lemma open_journal_inv g indexed prior marker state w plan s' build v vplan :
  open_journal index_file g indexed prior marker state (w, plan) = (s', Ok build) → keeps s'.1 v → reaches s'.1 v →
  let s := build v vplan in
  journal_opened w v g indexed s ∧ fs_world s = v ∧ fs_generation s = g ∧ fs_marker s = marker ∧ fs_prior s = prior.
Proof.
  unfold open_journal. intros (s1 & [journal created] & H1 & H2)%op_bind_inv Hv Rv.
  pose proof (walks_eq _ _ _ _ (walks_opened _ _ _) H1) as Hw1.
  apply opened_inv in H1 as (-> & Hb1 & Ho1). fold (journal_file g) in *. destruct s1 as [w1 plan1]. cbn [fst] in *.
  apply op_bind_inv in H2 as ([w2 plan2] & syncs & H2 & H3).
  assert (reaches w1 w2) as Hw2.
  { refine (walks_eq _ (w1, plan1) _ _ _ H2). destruct (created || negb indexed); walking. }
  assert (Hk2 : keeps w1 w2).
  { destruct (created || negb indexed); [|by injection H2 as <- <- <-].
    apply op_bind_inv in H2 as (s2 & [] & H2 & [= -> <-]). apply on_disk_inv in H2 as (w2' & H2 & [= -> ->]).
    by apply quiet_dir_sync in H2. }
  apply op_bind_inv in H3 as (s3 & [] & H3 & H4). apply on_disk_inv in H3 as (w3 & H3 & ->).
  assert (reaches w w3) as Hw3.
  { eapply rtc_r; [exact (reaches_trans _ _ _ Hw1 Hw2)|]. pose proof (called_try_lock (journal_file g) w2) as Hc. by rewrite H3 in Hc. }
  apply quiet_try_lock in H3.
  apply keeping_inv, op_bind_inv in H4 as (s4 & scan & H4 & H5). apply reading_inv in H4 as (w4 & H4 & ->).
  apply scan_file_reads in H4 as (Hk4 & Hc & Hi). pose proof (keeps_trans _ _ _ Hk2 (keeps_trans _ _ _ H3 Hk4)) as Hk14.
  apply op_bind_inv in H5 as ([w5 plan5] & indexed_now & H5 & H6). injection H6 as <- <-. cbn [fst] in Hv, Rv.
  assert (reaches w4 w5) as R5.
  { refine (walks_eq _ (w4, _) (w5, _) _ _ H5). destruct indexed; [apply walks_ret|]. walking. }
  assert (Hindex : (∀ f, f ≠ index_file → contents w5 f = contents w4 f) ∧
    if indexed then contents w5 index_file = contents w4 index_file
    else left_by (generation_payload g) (contents w4 index_file) Appended.Durable (contents w5 index_file)).
  { destruct indexed; [by injection H5 as <- <- <-|].
    apply op_bind_inv in H5 as ([w6 plan6] & points & H5 & H7).
    assert (w6 = w4) as -> by (unfold taking in H5; destruct (take_points _ _); by injection H5).
    apply op_bind_inv in H7 as (s7 & a & H7 & H8). apply reading_inv in H7 as (w7 & H7 & ->).
    case_bool_decide as Ha; [|done]. injection H8 as <- <- <-. subst a. apply append_frame_leaves in H7 as [Ho Hl]. done. }
  destruct Hindex as [Ho5 Hindex]. pose proof (journal_not_index_file g) as Hji.
  assert (Hjournal : contents v (journal_file g) = contents w3 (journal_file g)).
  { by rewrite Hv, Ho5, Hk4. }
  cbn. split; [|done]. split; cbn [fs_journal fs_journal_created fs_mirror]; try done.
  - by rewrite Hjournal, H3, Hk2.
  - intros f Hf Hfi. by rewrite Hv, Ho5, Hk14, Ho1.
  - assert (Hw4 : contents w4 index_file = contents w index_file) by (rewrite Hk14; by apply Ho1).
    rewrite Hv, <-Hw4. exact Hindex.
  - destruct (scan_complete scan).
    + left. unfold journal_of. by rewrite Hc, Hjournal.
    + right. destruct (Hi eq_refl) as (w6 & n & Hw6 & Hk6 & Hcut & ->). exists w6, n, w4. rewrite Hjournal.
      split; [by eapply reaches_trans|]. split; [done|]. split; [by eapply reaches_trans|]. split; [apply Hk6|done].
Qed.

(** ** The whole opening *)

Definition stores_opened (w : W) (generation : string) (probe : StoreDir.t → option Z) (s : FileStores (W := W)) : Prop :=
  let w' := fs_world s in
  valid_generation generation = true ∧
  (∃ j m, probe StoreDir.Journal = Some j ∧ probe StoreDir.Marker = Some m ∧ j ≠ m) ∧
  fs_generation s = generation ∧ fs_journal s = journal_file generation ∧
  (∀ file, fs_marker s = Some file → file_dir file = StoreDir.Marker) ∧
  contents w' (journal_file generation) = (if fs_journal_created s then [] else contents w (journal_file generation)) ∧
  (fs_mirror s = file_entries s ∨ cut_short w w' generation (fs_mirror s)) ∧
  last (index_of w') = Some generation ∧
  (∀ g, g ∈ index_of w' → g ≠ generation → binds_covered w' (fs_prior s) g).

Lemma indexed_generation_payload g :
  valid_generation g = true → indexed_generation (Scanned.Frame (generation_payload g)) = Some g.
Proof.
  intros Hg. unfold indexed_generation. rewrite decode_generation_payload by by apply valid_generation_text.
  cbn. by rewrite Hg.
Qed.

Lemma generation_payload_no_ff g : utf8_text g → no_ff (generation_payload g).
Proof. intros Hg. apply utf8_no_ff, utf8_doc_canonical. wf_tuple. Qed.

Lemma omap_one {A B} (f : A → option B) x y : f x = Some y → omap f [x] = [y].
Proof. intros Hx. simpl. by rewrite Hx. Qed.

(** The index after the opening: its entries, and the new one where the generation had none. *)
Lemma index_after w v g indexed s :
  valid_generation g = true → journal_opened w v g indexed s →
  index_of v = if indexed then index_of w else index_of w ++ [g].
Proof.
  intros Hg Hj. pose proof (jo_index _ _ _ _ _ Hj) as Hi. unfold index_of. destruct indexed; [by rewrite Hi|].
  apply left_by_scan in Hi as (items & Hs & Hadd); [|by apply generation_payload_no_ff, valid_generation_text].
  cbn in Hadd. subst items. rewrite Hs, omap_app. f_equal.
  by apply omap_one, indexed_generation_payload.
Qed.

Lemma opening_opens generation document probe w plan s' s :
  opening generation document probe (w, plan) = (s', Ok s) → stores_opened w generation probe s.
Proof.
  unfold opening. destruct (valid_generation generation) eqn:Hg; [|done]. cbn [negb].
  intros (s1 & [] & H1 & Hr)%op_bind_inv. apply on_disk_inv in H1 as (w1 & H1 & ->).
  pose proof (calls_eq _ _ _ _ (calls_dir_at _) H1) as R1. apply quiet_dir_at in H1.
  apply op_bind_inv in Hr as (s2 & [] & H2 & Hr). apply on_disk_inv in H2 as (w2 & H2 & ->).
  pose proof (calls_eq _ _ _ _ (calls_dir_at _) H2) as R2. apply quiet_dir_at in H2.
  destruct (probe StoreDir.Journal) as [j|] eqn:Hpj; [|done]. destruct (probe StoreDir.Marker) as [m|] eqn:Hpm; [|done].
  destruct (Z.eqb_spec j m) as [|Hjm]; [done|].
  apply op_bind_inv in Hr as ([w3 plan3] & [index created] & H3 & Hr).
  pose proof (walks_eq _ _ _ _ (walks_opened _ _ _) H3) as R3. apply opened_inv in H3 as (-> & _ & Ho3).
  fold index_file in *. cbn [fst] in Ho3.
  apply op_bind_inv in Hr as (s4 & [] & H4 & Hr). apply on_disk_inv in H4 as (w4 & H4 & ->).
  pose proof (calls_eq _ _ _ _ (calls_dir_sync _) H4) as R4. apply quiet_dir_sync in H4.
  apply op_bind_inv in Hr as (s5 & [] & H5 & Hr). apply on_disk_inv in H5 as (w5 & H5 & ->).
  pose proof (calls_eq _ _ _ _ (calls_lock _) H5) as R5. apply quiet_lock in H5.
  apply op_bind_inv in Hr as ([w9 plan9] & build & Hheld & Hr). injection Hr as <- <-.
  unfold holding in Hheld. destruct (op_bind _ _ _) as [[w8 plan8] r] eqn:E. injection Hheld as <- -> ->.
  apply op_bind_inv in E as ([w6 plan6] & committed & H6 & E).
  pose proof (walks_eq _ _ _ _ (walks_committed _) H6) as R6. apply committed_generations_inv in H6 as [Hk6 Hcommitted].
  cbn [fst] in Hk6. set (indexed := bool_decide (generation ∈ committed)) in E.
  destruct (indexed && _) eqn:Hnewest; [done|].
  apply op_bind_inv in E as ([w7 plan7] & prior & H7 & E).
  pose proof (walks_eq _ _ _ _ (walks_earlier _ _ _) H7) as R7. apply earlier_bindings_inv in H7 as [Hk7 Hprior]; [|set_solver].
  cbn [fst] in Hk7.
  apply op_bind_inv in E as ([wm planm] & [marker state] & Hm & E).
  pose proof (walks_eq _ _ _ _ (walks_find_marker _) Hm) as Rm. apply find_marker_inv in Hm as [Hkm Hmarker].
  cbn [fst] in Hkm.
  apply op_bind_inv in E as ([wd pland] & [] & Hd & E).
  assert (Hwalk : reaches w wd).
  { pose proof (walks_eq _ _ _ _ (walks_document _ _ _) Hd) as Rd. cbn [fst] in *.
    repeat (eapply reaches_trans; [eassumption|]). apply rtc_refl. }
  clear R1 R2 R3 R4 R5 R6 R7 Rm.
  assert (Hd' : ∀ f, f ≠ mkFileId StoreDir.Journal (document_name generation) → contents wd f = contents wm f).
  { intros f Hf. destruct document as [digest|]; [|by injection Hd as <- <-].
    by apply (leaves_bind_document _ _ _ _ _ _ Hd). }
  apply (open_journal_inv _ _ _ _ _ _ _ _ _ (release index_file w8) plan9) in E as (Hj & Hworld & Hgen & Hmk & Hpr);
    [|intros f; apply release_law|apply rtc_once, called_release].
  set (s := build (release index_file w8) plan9) in *. set (v := release index_file w8) in *.
  assert (Hk : keeps w5 wm) by (repeat (eapply keeps_trans; [eassumption|]); apply keeps_refl).
  assert (Hindex : index_of wd = committed).
  { rewrite Hcommitted. unfold index_of. rewrite Hd' by (intros [=Hn]; by apply (document_not_index generation)).
    by rewrite Hk. }
  assert (Hjournals : ∀ g, contents wd (journal_file g) = contents w6 (journal_file g)).
  { intros g. rewrite Hd' by (intros [=Hn]; by apply (journal_not_document g generation)). by rewrite Hkm, Hk7. }
  pose proof (index_after _ _ _ _ _ Hg Hj) as Hafter. rewrite Hindex in Hafter.
  unfold stores_opened. rewrite Hworld. split_and!; try done.
  - by exists j, m.
  - exact (jo_journal _ _ _ _ _ Hj).
  - by rewrite Hmk.
  - rewrite (jo_bytes _ _ _ _ _ Hj), Hjournals, Hk6, H5, H4, Ho3, H2, H1; [done|apply journal_not_index_file].
  - unfold file_entries. rewrite Hworld, (jo_journal _ _ _ _ _ Hj).
    destruct (jo_mirror _ _ _ _ _ Hj) as [Hmir|(wc & n & we & Hwc & ?)]; [by left|]. right. exists wc, n, we.
    split; [by eapply reaches_trans|done].
  - rewrite Hafter. destruct indexed; [|by rewrite last_snoc]. cbn in Hnewest. by case_bool_decide.
  - intros g Hin Hne. rewrite Hpr. rewrite Hafter in Hin.
    assert (Hc : g ∈ committed).
    { destruct indexed; [done|]. apply elem_of_app in Hin as [?|Heq%list_elem_of_singleton]; [done|by subst]. }
    assert (Hb : binds_covered w6 prior g) by (apply Hprior; right; by apply list_elem_of_filter).
    intros r Hr. apply Hb. unfold journal_of in *.
    rewrite (jo_others _ _ _ _ _ Hj), Hjournals in Hr; [done| |by apply journal_not_index_file].
    intros [=Hn%journal_name_inj]. by subst.
Qed.
End Opened.

(** * The file stores' properties, and a disk to run them on

    The theorems over every disk, and their witnesses on a simulated one: files in memory and a
    script of the calls that fail. *)

(** ** A simulated disk *)

(** [Some k] fails the call, a write after [k] bytes; calls past the script succeed. *)
Record Sim := mkSim { sim_files : FileId → option (list Z); sim_script : list (option nat) }.

Definition sim_outcome (s : Sim) : Sim * option nat :=
  match sim_script s with
  | [] => (s, None)
  | outcome :: script => (mkSim (sim_files s) script, outcome)
  end.

Definition sim_contents (s : Sim) (f : FileId) : list Z := default [] (sim_files s f).
Definition sim_set (s : Sim) (f : FileId) (bytes : list Z) : Sim :=
  mkSim (λ g, if decide (g = f) then Some bytes else sim_files s g) (sim_script s).

Definition sim_call {A} (s : Sim) (a : A) : Sim * option A :=
  let '(s, outcome) := sim_outcome s in (s, match outcome with None => Some a | Some _ => None end).

Definition sim_read (f : FileId) (n offset : Z) (s : Sim) : Sim * option (list Z) :=
  let '(s, r) := sim_call s tt in
  (s, match r with Some _ => get_range (sim_contents s f) offset (offset + n) | None => None end).

Definition sim_write (f : FileId) (bytes : list Z) (offset : Z) (s : Sim) : Sim * option unit :=
  let '(s, outcome) := sim_outcome s in
  match outcome with
  | None => (sim_set s f (overwrite (sim_contents s f) bytes offset), Some tt)
  | Some k => (sim_set s f (overwrite (sim_contents s f) (take (Nat.min k (pred (length bytes))) bytes) offset), None)
  end.

Definition sim_dir_file (d : StoreDir.t) (name : string) (mode : FileMode.t) (s : Sim)
    : Sim * option (option (FileId * bool)) :=
  let f := mkFileId d name in
  match sim_call s tt with
  | (s, None) => (s, None)
  | (s, Some _) =>
      match sim_files s f, mode with
      | Some _, _ => (s, Some (Some (f, false)))
      | None, FileMode.Existing => (s, Some None)
      | None, FileMode.CreateOrExisting => (sim_set s f [], Some (Some (f, true)))
      end
  end.

#[export] Instance Sim_Disk : Disk Sim := {
  metadata_len f s := sim_call s (zlen (sim_contents s f));
  read_exact_at := sim_read;
  write_all_at := sim_write;
  sync_all _ s := sim_call s tt;
  lock _ s := sim_call s tt;
  try_lock _ s := sim_call s tt;
  release _ s := s;
  dir_at _ s := sim_call s tt;
  dir_file := sim_dir_file;
  dir_sync _ s := sim_call s tt;
  contents := sim_contents;
}.

Lemma sim_outcome_contents s s' o : sim_outcome s = (s', o) → ∀ g, sim_contents s' g = sim_contents s g.
Proof. unfold sim_outcome. by destruct (sim_script s); intros [= <- <-]. Qed.
Lemma sim_call_contents {A} s (a : A) s' r :
  sim_call s a = (s', r) → (∀ g, sim_contents s' g = sim_contents s g) ∧ ∀ x, r = Some x → x = a.
Proof.
  unfold sim_call. destruct (sim_outcome s) as [s1 o] eqn:E. intros [= <- <-].
  split; [by eapply sim_outcome_contents|]. intros x. destruct o; [done|]. by intros [= <-].
Qed.
Lemma sim_set_contents s f bytes g : sim_contents (sim_set s f bytes) g = if decide (g = f) then bytes else sim_contents s g.
Proof. unfold sim_contents, sim_set. cbn. by destruct (decide (g = f)). Qed.

#[export] Instance Sim_laws : DiskLaws Sim.
Proof.
  split; cbn.
  - intros f w w' r [Hk Hr]%sim_call_contents. done.
  - intros f n offset w w' r. unfold sim_read. destruct (sim_call w tt) as [s1 x] eqn:E.
    apply sim_call_contents in E as [Hk _]. intros [= <- <-]. split; [done|]. intros bytes.
    destruct x; [by rewrite Hk|done].
  - intros f bytes offset w w' r. unfold sim_write. destruct (sim_outcome w) as [s1 o] eqn:E.
    pose proof (sim_outcome_contents _ _ _ E) as Hk. intros Hr _.
    assert (Hset : ∀ k, (∀ g, g ≠ f → sim_contents (sim_set s1 f (overwrite (sim_contents s1 f) (take k bytes) offset)) g
        = sim_contents w g) ∧
      sim_contents (sim_set s1 f (overwrite (sim_contents s1 f) (take k bytes) offset)) f
        = overwrite (sim_contents w f) (take k bytes) offset).
    { intros k. split; [intros g Hg|]; rewrite sim_set_contents; destruct (decide _); done || by rewrite Hk. }
    destruct o as [k|]; injection Hr as <- <-.
    + destruct (Hset (Nat.min k (pred (length bytes)))) as [H1 H2]. split; [done|]. eexists. split; [exact H2|].
      split; [done|]. intros _. lia.
    + destruct (Hset (length bytes)) as [H1 H2]. rewrite take_ge in H1, H2 by lia. split; [done|].
      exists (length bytes). rewrite take_ge by lia. done.
  - intros f w w' r [Hk _]%sim_call_contents. done.
  - intros f w w' r [Hk _]%sim_call_contents. done.
  - intros f w w' r [Hk _]%sim_call_contents. done.
  - done.
  - intros d w w' r [Hk _]%sim_call_contents. done.
  - intros d w w' r [Hk _]%sim_call_contents. done.
  - intros d name mode w w' r. unfold sim_dir_file. destruct (sim_call w tt) as [s1 x] eqn:E.
    apply sim_call_contents in E as [Hk _]. destruct x; [|intros [= <- <-]; by split_and!].
    destruct (sim_files s1 (mkFileId d name)) as [bytes|] eqn:Hf.
    { intros [= <- <-]. split_and!; [done| | |by intros [?|?]]; by intros file created [= <- <-]. }
    destruct mode; intros [= <- <-]; [by split_and!|].
    split_and!; [| | |by intros [?|?]].
    + intros g Hg. rewrite sim_set_contents. destruct (decide _); [done|apply Hk].
    + intros file created [= <- <-]. split; [done|]. rewrite sim_set_contents. by destruct (decide _).
    + by intros file created _ [=].
Qed.

(** ** The properties *)

(** A call of the stores by the gate. *)
Inductive StoreCall :=
| CallAppend (r : Rec.t)
| CallWriteMarker (generation reason : string)
| CallFailNext (torn : bool)
| CallFailAfter (after : Z)
| CallMarkerFailNext.

Definition store_call {S} `{Stores S} (s : S) (c : StoreCall) : S :=
  match c with
  | CallAppend r => (append s r).1
  | CallWriteMarker generation reason => (write_marker s generation reason).1
  | CallFailNext torn => fail_next s torn
  | CallFailAfter after => fail_after s after
  | CallMarkerFailNext => marker_fail_next s
  end.

Definition typed_call (c : StoreCall) : Prop := match c with CallAppend r => typed_record r | _ => True end.

Section Properties.
Context {W : Type} `{DiskLaws W}.

(** A two-phase append, on every disk: no other file changes, a durable append is the
    committed record at the end of the file, within its bound, a clean failure changes no byte, a
    torn failure leaves a pending, revoked or partial frame, or the committed one whose revocation
    failed; so the scan of the file grows by the record, nothing, or at most one item. *)
Theorem append_is_two_phase f payload points (w w' : W) a :
  append_frame f payload points w = (w', a) → no_ff payload →
  only f w w' ∧ left_by payload (contents w f) a (contents w' f) ∧
  ∃ items, scan_bytes (contents w' f) = scan_bytes (contents w f) ++ items ∧ added payload a items.
Proof.
  intros [Ho Hl]%append_frame_leaves Hn. split; [done|]. split; [done|]. rewrite !scan_bytes_spec.
  by apply left_by_scan.
Qed.

Lemma store_calls_ok calls (s : FileStores (W := W)) :
  fs_ok s → Forall typed_call calls → fs_ok (fold_left store_call calls s).
Proof.
  intros Hs Hc. revert s Hs. induction Hc as [|c calls Hc _ IH]; intros s Hs; [done|]. cbn. apply IH.
  destruct c; cbn; [by apply fs_append_ok|by apply fs_write_marker_ok|..]; done.
Qed.

(** [C30] The file stores refine the in-memory journal: whatever calls the gate makes and whatever
    the disk fails, every record of the mirror is on file in its order, and the file reads back as
    the mirror itself as long as no append was torn. *)
Theorem files_follow_the_mirror (s : FileStores (W := W)) calls :
  fs_ok s → Forall typed_call calls →
  let s' := fold_left store_call calls s in
  fs_ok s' ∧ omap entry_record (entries s') `sublist_of` omap entry_record (file_entries s') ∧
  (Entry.Torn ∉ entries s' → file_entries s' = entries s').
Proof.
  intros Hs Hc. cbn zeta. pose proof (store_calls_ok calls s Hs Hc) as Hok. split; [done|].
  destruct Hok as [Hr _]. split; [by apply reflects_records|by apply reflects_exact].
Qed.

(** An opening succeeds only under a valid name, on two devices, as the last committed entry
    of the index, and covers every binding of every earlier generation's journal; the mirror is
    what the journal's file reads back as, or, where it could not be read whole, what the bytes before that point decide
    and a TORN. *)
Theorem opening_accepts generation document probe (w : W) plan s' s :
  opening generation document probe (w, plan) = (s', Ok s) → stores_opened w generation probe s.
Proof. apply opening_opens. Qed.

(** [C32] A restart: stores opened where the previous process left its journal find its records; without a torn append,
    the very mirror.  The one exception is a journal that was not read whole: on the way of the disk's calls from the
    opening's start to the stores, its length or a chunk was not read, or it is longer than a scan reads; then they find
    exactly what the bytes before that point decide, the first entries of the file, and a TORN. *)
Theorem restart_reads_the_mirror (s : FileStores (W := W)) generation document probe w plan s2 s' :
  let file := journal_file generation in
  fs_ok s → fs_journal s = file → contents w file = contents (fs_world s) file →
  opening generation document probe (w, plan) = (s2, Ok s') → fs_journal_created s' = false →
  (fs_ok s' ∧ reflects (entries s) (entries s') ∧ (Entry.Torn ∉ entries s → entries s' = entries s)) ∨
  (∃ w1 n w2, reaches w w1 ∧ cut_off w1 file n w2 ∧ reaches w2 (fs_world s') ∧ contents w1 file = contents w file ∧
    entries s' = frame_journal_entries (abort (feed Scanner_default (take (Z.to_nat n) (contents w file)))) ∧
    ∃ before, entries s' = before ++ [Entry.Torn] ∧ before `prefix_of` file_entries s).
Proof.
  cbn zeta. intros (Hr & Hd & Hm) Hj Hc (_ & _ & _ & Hj' & Hm' & Hb & Hmirror & _ & _)%opening_opens Hnew.
  rewrite Hnew in Hb. cbn [entries FileStores_Stores].
  destruct Hmirror as [Heq|(w1 & n & w2 & Hw1 & Hcut & Hw2 & Hk & Hcutm)]; [left|right].
  - assert (Hfile : file_entries s' = file_entries s) by (unfold file_entries; by rewrite Hj', Hb, Hj, Hc).
    rewrite Heq, Hfile. split; [|split; [done|by apply reflects_exact]].
    split; [rewrite Heq; apply reflects_refl|]. by rewrite Hj'.
  - rewrite Hb in Hk, Hcutm. exists w1, n, w2. do 5 (split; [done|]).
    destruct (abort_prefix (contents w (journal_file generation)) (Z.to_nat n)) as (items & Ha & Hp).
    exists (frame_journal_entries items). rewrite Hcutm, Ha. unfold frame_journal_entries, file_entries.
    rewrite map_app, Hj, <-Hc. split; [done|]. destruct Hp as [rest Hrest]. rewrite Hrest. unfold frame_journal_entries. rewrite map_app. by apply prefix_app_r.
Qed.
End Properties.

(** ** On the simulated disk *)

Definition devices (d : StoreDir.t) : option Z := match d with StoreDir.Journal => Some 1 | StoreDir.Marker => Some 2 end.
Definition empty_disk : Sim := mkSim (λ _, None) [].

(** The stores an opening returns (a store of its own where it refuses). *)
Definition no_stores (w : Sim) : FileStores (W := Sim) :=
  mkFileStores w "" (journal_file "") [] None false MarkerState.Absent PriorBindings_default None false false 0 0.
Definition open_on (w : Sim) (generation : string) : FileStores (W := Sim) :=
  match opening generation (Some "sha256:00") devices (w, Some FaultPlan_default) with
  | (_, Ok s) => s
  | (_, Err _) => no_stores w
  end.

Definition a_bind : Rec.t := Rec.Bind "execution-1" "nonce-1" "sha256:01" ["sha256:02"] ["Pod/ns/probe"].

(** A first generation: a durable record, a torn append, the marker. *)
Definition first_calls : list StoreCall :=
  [CallAppend a_bind; CallFailNext true; CallAppend Rec.DrainStarted; CallWriteMarker "gen-1" STORAGE_FAILURE].
Definition first_stores : FileStores (W := Sim) := open_on empty_disk "gen-1".
Definition torn_stores : FileStores (W := Sim) := fold_left store_call first_calls first_stores.

(** The same without the torn append. *)
Definition clean_stores : FileStores (W := Sim) := fold_left store_call [CallAppend a_bind; CallAppend Rec.DrainStarted] first_stores.

Lemma first_stores_ok : fs_ok first_stores.
Proof.
  assert (E : fs_mirror first_stores = [] ∧ file_entries first_stores = [] ∧ fs_journal first_stores = journal_file "gen-1" ∧
    fs_marker first_stores = None) by (vm_compute; repeat split).
  destruct E as (E1 & E2 & E3 & E4). unfold fs_ok. rewrite E1, E2, E3, E4. split; [constructor|by split].
Qed.

Lemma a_bind_typed : typed_record a_bind.
Proof. cbn. split_and!; try name_text; (apply Forall_cons; split; [name_text|by apply Forall_nil]). Qed.

Lemma append_is_two_phase_witness :
  let '(w, a) := append_frame (journal_file "gen-1") (bytes_of "[1]") [FilePoint.CommitSync; FilePoint.Revoke] empty_disk in
  a = Appended.Failed true ∧
  ∃ items, scan_bytes (contents w (journal_file "gen-1")) = [] ++ items ∧ added (bytes_of "[1]") a items.
Proof.
  destruct (append_frame (journal_file "gen-1") (bytes_of "[1]") [FilePoint.CommitSync; FilePoint.Revoke] empty_disk)
    as [w a] eqn:E.
  destruct (append_is_two_phase _ _ _ _ _ _ E) as (_ & _ & H).
  - repeat constructor; by vm_compute.
  - split; [by vm_compute in E; simplify_eq|exact H].
Defined.

Lemma files_follow_the_mirror_witness :
  entries torn_stores = [Entry.Record_ a_bind; Entry.Torn] ∧ marker_present torn_stores = true ∧
  omap entry_record (entries torn_stores) `sublist_of` omap entry_record (file_entries torn_stores).
Proof.
  split; [vm_compute; reflexivity|]. split; [vm_compute; reflexivity|].
  apply (files_follow_the_mirror first_stores first_calls first_stores_ok).
  repeat (apply Forall_cons; split); try apply Forall_nil; try done. apply a_bind_typed.
Defined.

(** An opening that succeeds returns the stores of [open_on]. *)
Lemma open_on_opens w generation :
  match (opening generation (Some "sha256:00") devices (w, Some FaultPlan_default)).2 with Ok _ => true | Err _ => false end = true →
  opening generation (Some "sha256:00") devices (w, Some FaultPlan_default) =
  ((opening generation (Some "sha256:00") devices (w, Some FaultPlan_default)).1, Ok (open_on w generation)).
Proof. unfold open_on. by destruct (opening _ _ _ _) as [s' []]. Qed.

(** The next generation's opening, on the disk the first one left. *)
Lemma opening_accepts_witness :
  let s := open_on (fs_world clean_stores) "gen-2" in
  execution_ids (fs_prior s) = {["execution-1"]} ∧ last (index_of (fs_world s)) = Some "gen-2" ∧
  binds_covered (fs_world s) (fs_prior s) "gen-1".
Proof.
  cbn zeta. split; [vm_compute; reflexivity|].
  destruct (opening_accepts _ _ _ _ _ _ _ (open_on_opens (fs_world clean_stores) "gen-2" ltac:(vm_compute; reflexivity)))
    as (_ & _ & _ & _ & _ & _ & _ & Hl & Hb).
  split; [exact Hl|]. apply Hb; [|done]. apply (bool_decide_unpack _). vm_compute. exact I.
Defined.

Lemma clean_stores_ok : fs_ok clean_stores.
Proof.
  apply store_calls_ok; [apply first_stores_ok|]. apply Forall_cons. split; [apply a_bind_typed|].
  apply Forall_cons. by split; [|apply Forall_nil].
Qed.

Lemma restart_reads_the_mirror_witness :
  entries (open_on (fs_world clean_stores) "gen-1") = [Entry.Record_ a_bind; Entry.Record_ Rec.DrainStarted].
Proof.
  assert (Hold : entries clean_stores = [Entry.Record_ a_bind; Entry.Record_ Rec.DrainStarted]) by (vm_compute; reflexivity).
  assert (Hlast : last (entries (open_on (fs_world clean_stores) "gen-1")) = Some (Entry.Record_ Rec.DrainStarted))
    by (vm_compute; reflexivity).
  destruct (restart_reads_the_mirror clean_stores "gen-1" _ _ _ _ _ _ clean_stores_ok
    ltac:(vm_compute; reflexivity) eq_refl (open_on_opens (fs_world clean_stores) "gen-1" ltac:(vm_compute; reflexivity))
    ltac:(vm_compute; reflexivity)) as [(_ & _ & Hexact)|(w1 & n & w2 & _ & _ & _ & _ & _ & l & Hl & _)].
  - rewrite Hexact; [exact Hold|]. rewrite Hold. apply (bool_decide_unpack _). vm_compute. exact I.
  - exfalso. rewrite Hl, last_snoc in Hlast. discriminate Hlast.
Defined.
