(* ===== verification/Policy.v ===== *)
(** * The closed policy-kind table ([host-enforcement/crates/effect-gate/src/policy.rs])

    The table the policy gate reads, which of its rows a requested resource falls into, the checks
    of a write against its row, the one request a checked write renders to, and which upstream
    statuses settle it.  [WriteOperation] and [Prior] are in [Journal]. *)

From S2P Require Import Prelude Sha256 Json.
From S2P Require Import Render Types Journal.
Definition KINDS_VERSION : string := "planeon.internal.i07-policy-kinds/v2".

Inductive Scope := QualificationNamespace | QualificationNamespaceObject.
Inductive Disposition := RebootMaintenanceOnly | MustStayAbsent | SealedStaticManifest.

#[export] Instance Scope_eq_dec : EqDecision Scope.
Proof. solve_decision. Defined.
#[export] Instance Disposition_eq_dec : EqDecision Disposition.
Proof. solve_decision. Defined.

(** One writable row of the table. *)
Record WritableKind := mkWritableKind {
  wk_group : string;
  wk_version : string;
  wk_resource : string;
  wk_kind : string;
  wk_scope : Scope;
  wk_operations : list WriteOperation.t;
  wk_top_level_keys : list string;
}.

Definition api_version (row : WritableKind) : string :=
  if bool_decide (wk_group row = "") then wk_version row else wk_group row +:+ "/" +:+ wk_version row.

Record GroupResource := mkGroupResource { gr_group : string; gr_resource : string }.
Record NotWritableKind := mkNotWritable { nw_group : string; nw_resource : string; nw_disposition : Disposition }.

Record PolicyKinds := mkPolicyKinds {
  writable : list WritableKind;
  effect : list GroupResource;
  not_writable : list NotWritableKind;
}.

(** ** Reading the table *)

Definition KindsError : Type := string.

Definition row_text (row : Object) (key : string) : result string KindsError :=
  match (let* v := object_get row (jstr key) in as_str v) with
  | Some text => Ok text
  | None => Err ("a table row's " +:+ key +:+ " is missing or not text")
  end.

Definition row_list (row : Object) (key : string) : result (list string) KindsError :=
  match (let* v := object_get row (jstr key) in as_array v) with
  | None => Err ("a table row's " +:+ key +:+ " is not a list")
  | Some items =>
      result_mapM (λ item, result_of_option (as_str item) (key +:+ " holds a value that is not text")) items
  end.

Definition table_rows (root : Object) (key : string) : result (list Object) KindsError :=
  match (let* v := object_get root (jstr key) in as_array v) with
  | None => Err ("the table's " +:+ key +:+ " is not a list")
  | Some items =>
      result_mapM (λ item, result_of_option (as_object item) ("a " +:+ key +:+ " row is not an object")) items
  end.

Definition parse_scope (name : string) : result Scope KindsError :=
  match name with
  | "QUALIFICATION_NAMESPACE" => Ok QualificationNamespace
  | "QUALIFICATION_NAMESPACE_OBJECT" => Ok QualificationNamespaceObject
  | _ => Err "a writable row has a scope outside the closed set"
  end.

Definition parse_disposition (name : string) : result Disposition KindsError :=
  match name with
  | "REBOOT_MAINTENANCE_ONLY" => Ok RebootMaintenanceOnly
  | "MUST_STAY_ABSENT" => Ok MustStayAbsent
  | "SEALED_STATIC_MANIFEST" => Ok SealedStaticManifest
  | _ => Err "a notWritable row has an unknown disposition"
  end.

Definition read_writable (row : Object) : result WritableKind KindsError :=
  let? scope := row_text row "scope" in
  let? scope := parse_scope scope in
  let? names := row_list row "operations" in
  let? operations :=
    result_mapM (λ name, result_of_option (WriteOperation.parse name) "a writable row names an unknown operation") names in
  let? group := row_text row "group" in
  let? version := row_text row "version" in
  let? resource := row_text row "resource" in
  let? kind := row_text row "kind" in
  let? keys := row_list row "topLevelKeys" in
  Ok (mkWritableKind group version resource kind scope operations keys).

Definition read_effect (row : Object) : result GroupResource KindsError :=
  let? group := row_text row "group" in
  let? resource := row_text row "resource" in
  Ok (mkGroupResource group resource).

Definition read_not_writable (row : Object) : result NotWritableKind KindsError :=
  let? disposition := row_text row "disposition" in
  let? disposition := parse_disposition disposition in
  let? group := row_text row "group" in
  let? resource := row_text row "resource" in
  Ok (mkNotWritable group resource disposition).

Definition PolicyKinds_from_value (document : Value) : result PolicyKinds KindsError :=
  match as_object document with
  | None => Err "the table is not an object"
  | Some root =>
      if negb (bool_decide ((let* v := object_get root (jstr "schemaVersion") in as_str v) = Some KINDS_VERSION))
      then Err "the table is not planeon.internal.i07-policy-kinds/v2"
      else
        let? rows := table_rows root "writable" in
        let? writable := result_mapM read_writable rows in
        let? rows := table_rows root "effectKinds" in
        let? effect := result_mapM read_effect rows in
        let? rows := table_rows root "notWritable" in
        let? not_writable := result_mapM read_not_writable rows in
        Ok (mkPolicyKinds writable effect not_writable)
  end.

(** ** Requests *)

Module WriteRefusal.
Inductive t :=
| EffectKind | PolicyKindNotWritable | AdmissionObjectSealed | KindOutsideTable | VerbNotAllowed | ScopeMismatch
| PriorRule | ObjectRule.
#[global] Instance t_eq_dec : EqDecision t.
Proof. solve_decision. Defined.
Definition as_str (r : t) : string :=
  match r with
  | EffectKind => "EFFECT_KIND" | PolicyKindNotWritable => "POLICY_KIND_NOT_WRITABLE"
  | AdmissionObjectSealed => "ADMISSION_OBJECT_SEALED" | KindOutsideTable => "KIND_OUTSIDE_TABLE"
  | VerbNotAllowed => "VERB_NOT_ALLOWED" | ScopeMismatch => "SCOPE_MISMATCH"
  | PriorRule => "PRIOR_RULE" | ObjectRule => "OBJECT_RULE"
  end.
End WriteRefusal.

(** API group (empty for the core group), version and plural resource name. *)
Record ResourceRef := mkResourceRef { rr_group : string; rr_version : string; rr_resource : string }.

Record WriteRequest := mkWriteRequest {
  wr_write_id : Z;
  wr_operation : WriteOperation.t;
  wr_resource : ResourceRef;
  wr_namespace : option string;
  wr_name : string;
  wr_object : option Value;
  wr_prior : option Prior;
}.

Definition payload_text (value : Value) (key : string) : option string :=
  let* v := value_get value key in as_str v.

Definition parse_prior (prior : Value) : option (option Prior) :=
  match prior with
  | VNull => Some None
  | prior =>
      let* uid := payload_text prior "uid" in
      let* version := payload_text prior "resourceVersion" in
      let* projection := payload_text prior "projectionDigest" in
      Some (Some (mkPrior uid version projection))
  end.

(** [WriteRequest::from_payload] *)
Definition WriteRequest_from_payload (payload : Value) : option WriteRequest :=
  let* resource := value_get payload "resource" in
  let* prior := value_get payload "prior" in
  let* prior := parse_prior prior in
  let* write_id := value_get payload "writeId" in
  let* write_id := as_int write_id in
  let* write_id := to_u64 write_id in
  let* write_id := u16_try_from write_id in
  let* operation := payload_text payload "operation" in
  let* operation := WriteOperation.parse operation in
  let* group := payload_text resource "group" in
  let* version := payload_text resource "version" in
  let* name_ := payload_text resource "resource" in
  let* namespace := value_get payload "namespace" in
  let* namespace := match namespace with VNull => Some None | v => let* text := as_str v in Some (Some text) end in
  let* name := payload_text payload "name" in
  let* object := value_get payload "object" in
  let* object := match object with VNull => Some None | VObject o => Some (Some (VObject o)) | _ => None end in
  Some (mkWriteRequest write_id operation (mkResourceRef group version name_) namespace name object prior).

(** ** The table's checks *)

Definition writable_row (resource : ResourceRef) (row : WritableKind) : bool :=
  bool_decide (wk_group row = rr_group resource) && bool_decide (wk_version row = rr_version resource)
  && bool_decide (wk_resource row = rr_resource resource).

Definition same_resource (resource : ResourceRef) (group name : string) : bool :=
  bool_decide (group = rr_group resource) && bool_decide (name = rr_resource resource).

Definition classify (kinds : PolicyKinds) (resource : ResourceRef) : result WritableKind WriteRefusal.t :=
  match List.find (writable_row resource) (writable kinds) with
  | Some row => Ok row
  | None =>
      if existsb (λ row, same_resource resource (gr_group row) (gr_resource row)) (effect kinds)
      then Err WriteRefusal.EffectKind
      else
        match List.find (λ row, same_resource resource (nw_group row) (nw_resource row)) (not_writable kinds) with
        | Some row =>
            if bool_decide (nw_disposition row = SealedStaticManifest) then Err WriteRefusal.AdmissionObjectSealed
            else Err WriteRefusal.PolicyKindNotWritable
        | None => Err WriteRefusal.KindOutsideTable
        end
  end.

Definition METADATA_MEMBERS : list string :=
  ["annotations"; "labels"; "name"; "namespace"; "resourceVersion"; "uid"].

Definition is_text (value : option Value) (expected : string) : bool :=
  bool_decide ((let* v := value in as_str v) = Some expected).

Definition is_string_map (value : Value) : bool :=
  match as_object value with
  | Some members => forallb (λ e : JStr * Value, match e.2 with VStr _ => true | _ => false end) members
  | None => false
  end.

(** A member name that is text and one of [names]. *)
Definition key_among (names : list string) (key : JStr) : bool :=
  match jstr_as_str key with Some name => bool_decide (name ∈ names) | None => false end.

Definition metadata_fits (row : WritableKind) (namespace : string) (request : WriteRequest) (metadata : Object) : bool :=
  let get key := object_get metadata (jstr key) in
  if negb (forallb (λ e : JStr * Value, key_among METADATA_MEMBERS e.1) metadata) then false
  else if negb (is_text (get "name") (wr_name request)) then false
  else if negb (match wk_scope row with
                | QualificationNamespace => is_text (get "namespace") namespace
                | QualificationNamespaceObject => bool_decide (get "namespace" = None)
                end) then false
  else if existsb (λ key, match get key with Some map => negb (is_string_map map) | None => false end)
            ["labels"; "annotations"] then false
  else
    match wr_operation request, wr_prior request with
    | WriteOperation.Create, _ =>
        match get "uid", get "resourceVersion" with None, None => true | _, _ => false end
    | _, Some prior =>
        is_text (get "uid") (prior_uid prior) && is_text (get "resourceVersion") (prior_resource_version prior)
    | _, None => false
    end.

(** The OBJECT_RULE checks on a CREATE or UPDATE object. *)
Definition object_fits (row : WritableKind) (namespace : string) (request : WriteRequest) (object : Value) : bool :=
  match as_object object with
  | None => false
  | Some members =>
      let get key := object_get members (jstr key) in
      if negb (forallb (λ e : JStr * Value, key_among (["apiVersion"; "kind"; "metadata"] ++ wk_top_level_keys row) e.1)
                 members) then false
      else if negb (is_text (get "apiVersion") (api_version row)) || negb (is_text (get "kind") (wk_kind row)) then false
      else
        match (let* metadata := get "metadata" in as_object metadata) with
        | None => false
        | Some metadata => metadata_fits row namespace request metadata
        end
  end.

Definition in_scope (row : WritableKind) (namespace : string) (request : WriteRequest) : bool :=
  match wk_scope row with
  | QualificationNamespace => bool_decide (wr_namespace request = Some namespace)
  | QualificationNamespaceObject =>
      bool_decide (wr_namespace request = None) && bool_decide (wr_name request = namespace)
  end.

(** The kind, the operation, the scope, the prior rule and the object rule. *)
Definition check_write (kinds : PolicyKinds) (namespace : string) (request : WriteRequest)
    : result WritableKind WriteRefusal.t :=
  let? row := classify kinds (wr_resource request) in
  if negb (bool_decide (wr_operation request ∈ wk_operations row)) then Err WriteRefusal.VerbNotAllowed
  else if negb (in_scope row namespace request) then Err WriteRefusal.ScopeMismatch
  else if negb (eqb (bool_decide (wr_operation request = WriteOperation.Create))
                    (bool_decide (wr_prior request = None))) then Err WriteRefusal.PriorRule
  else if negb (eqb (bool_decide (wr_operation request = WriteOperation.Delete))
                    (match wr_object request with None => true | Some _ => false end)) then Err WriteRefusal.ObjectRule
  else
    match wr_object request with
    | None => Ok row
    | Some object =>
        if object_fits row namespace request object then Ok row else Err WriteRefusal.ObjectRule
    end.

(** ** The request a write permits *)

Record RenderedWrite := mkRenderedWrite { rw_head : string; rw_body : list Z; rw_body_digest : string }.

Definition delete_preconditions (prior : Prior) : Doc :=
  DObject [("apiVersion", DStr "v1"); ("kind", DStr "DeleteOptions");
           ("preconditions", DObject [("resourceVersion", DStr (prior_resource_version prior));
                                      ("uid", DStr (prior_uid prior))])].

Definition canonical_ok (value : Value) : option (list Z) :=
  match canonical value with Ok out => Some out | Err _ => None end.

Definition collection_path (row : WritableKind) (namespace : string) : string :=
  let root := if bool_decide (wk_group row = "") then "/api/" +:+ wk_version row
              else "/apis/" +:+ wk_group row +:+ "/" +:+ wk_version row in
  match wk_scope row with
  | QualificationNamespace => root +:+ "/namespaces/" +:+ namespace +:+ "/" +:+ wk_resource row
  | QualificationNamespaceObject => root +:+ "/" +:+ wk_resource row
  end.

Definition render_write (row : WritableKind) (request : WriteRequest) (namespace authority : string)
    : option RenderedWrite :=
  let collection := collection_path row namespace in
  let item := collection +:+ "/" +:+ wr_name request in
  let* (method, target, body) :=
    match wr_operation request with
    | WriteOperation.Create =>
        let* object := wr_object request in let* body := canonical_ok object in Some ("POST", collection, body)
    | WriteOperation.Update =>
        let* object := wr_object request in let* body := canonical_ok object in Some ("PUT", item, body)
    | WriteOperation.Delete =>
        let* prior := wr_prior request in Some ("DELETE", item, doc_canonical (delete_preconditions prior))
    end in
  let head := method +:+ " " +:+ target +:+ " HTTP/1.1" +:+ crlf +:+ "Host: " +:+ authority +:+ crlf
              +:+ "Accept: application/json" +:+ crlf +:+ "Content-Type: application/json" +:+ crlf
              +:+ "Content-Length: " +:+ decimal_str (Z.of_nat (length body)) +:+ crlf +:+ crlf in
  Some (mkRenderedWrite head body (prefixed body)).

(** The digest of the canonical [{"bodyDigest", "head"}] object. *)
Definition request_digest (rendered : RenderedWrite) : string :=
  prefixed (doc_canonical (DObject [("bodyDigest", DStr (rw_body_digest rendered)); ("head", DStr (rw_head rendered))])).

(** Whether a delivered status settles a write. *)
Definition write_outcome_is_final (operation : WriteOperation.t) (status : Z) : bool :=
  WriteOperation.is_success operation status || ((400 <=? status) && (status <=? 499) && negb (status =? 408)).

(** ** What a forwarded request may contain *)

(** The metadata of an object in a request body. *)
Definition metadata_of (object : Value) : option Object :=
  let* members := as_object object in
  let* metadata := object_get members (jstr "metadata") in
  as_object metadata.
Definition metadata_text (object : Value) (key : string) : option string :=
  let* metadata := metadata_of object in
  let* v := object_get metadata (jstr key) in
  as_str v.
Definition has_metadata (object : Value) (key : string) : bool :=
  match (let* metadata := metadata_of object in object_get metadata (jstr key)) with Some _ => true | None => false end.

Lemma is_text_spec v text : is_text v text = true ↔ (let* v := v in as_str v) = Some text.
Proof. unfold is_text. apply bool_decide_eq_true. Qed.

Lemma classify_row kinds resource row : classify kinds resource = Ok row → row ∈ writable kinds.
Proof.
  unfold classify. destruct (List.find _ _) as [row'|] eqn:E.
  - intros [= <-]. apply find_some in E as [E _]. by apply list_elem_of_In.
  - repeat case_match; done.
Qed.

Lemma metadata_fits_spec row namespace request metadata :
  metadata_fits row namespace request metadata = true →
  let text key := let* v := object_get metadata (jstr key) in as_str v in
  text "name" = Some (wr_name request) ∧
  (wk_scope row = QualificationNamespace → text "namespace" = Some namespace) ∧
  match wr_operation request, wr_prior request with
  | WriteOperation.Create, _ =>
      object_get metadata (jstr "uid") = None ∧ object_get metadata (jstr "resourceVersion") = None
  | _, Some prior => text "uid" = Some (prior_uid prior) ∧ text "resourceVersion" = Some (prior_resource_version prior)
  | _, None => False
  end.
Proof.
  unfold metadata_fits. destruct (negb (forallb _ _)); [done|].
  destruct (is_text (object_get metadata (jstr "name")) (wr_name request)) eqn:Hn; [|done].
  destruct (match wk_scope row with QualificationNamespace => _ | _ => _ end) eqn:Hs; [|done].
  destruct (existsb _ _); [done|]. cbn [negb]. intros H. apply is_text_spec in Hn. split; [done|]. split.
  - intros Hsc. rewrite Hsc in Hs. by apply is_text_spec.
  - destruct (wr_operation request), (wr_prior request); try done;
      repeat case_match; try done; by apply andb_prop in H as [?%is_text_spec ?%is_text_spec].
Qed.

Lemma object_fits_spec row namespace request object :
  object_fits row namespace request object = true →
  ∃ metadata, metadata_of object = Some metadata ∧ metadata_fits row namespace request metadata = true.
Proof.
  unfold object_fits, metadata_of. destruct (as_object object) as [members|]; [|done]. cbn [mbind option_bind].
  destruct (negb _); [done|]. destruct (_ || _); [done|].
  destruct (let* metadata := _ in _) as [metadata|]; [|done]. eauto.
Qed.

(** A checked write stays inside the qualification namespace and is conditional on what the
    writer saw: its row is a row of the closed table that allows the operation; a namespaced
    object names the namespace, in the request and in its metadata, and a cluster-scoped one is the
    namespace object itself; a CREATE carries no uid and no resource version, an UPDATE those of
    its prior, and a DELETE has no object but a prior, which its preconditions repeat. *)
Theorem checked_write_is_confined kinds namespace request row :
  check_write kinds namespace request = Ok row →
  row ∈ writable kinds ∧ wr_operation request ∈ wk_operations row ∧
  match wk_scope row with
  | QualificationNamespace => wr_namespace request = Some namespace
  | QualificationNamespaceObject => wr_namespace request = None ∧ wr_name request = namespace
  end ∧
  match wr_operation request, wr_object request, wr_prior request with
  | WriteOperation.Create, Some object, None =>
      has_metadata object "uid" = false ∧ has_metadata object "resourceVersion" = false
  | WriteOperation.Update, Some object, Some prior =>
      metadata_text object "uid" = Some (prior_uid prior) ∧
      metadata_text object "resourceVersion" = Some (prior_resource_version prior)
  | WriteOperation.Delete, None, Some prior =>
      ∀ authority rendered, render_write row request namespace authority = Some rendered →
        rw_body rendered = doc_canonical (delete_preconditions prior)
  | _, _, _ => False
  end ∧
  (∀ object, wr_object request = Some object →
     metadata_text object "name" = Some (wr_name request) ∧
     (wk_scope row = QualificationNamespace → metadata_text object "namespace" = Some namespace)).
Proof.
  unfold check_write. destruct (classify _ _) as [row'|] eqn:Hcl; [|done]. cbn [result_bind].
  destruct (bool_decide (wr_operation request ∈ wk_operations row')) eqn:Hop; [|done]. apply bool_decide_eq_true in Hop.
  destruct (in_scope row' namespace request) eqn:Hs; [|done]. cbn [negb].
  destruct (eqb (bool_decide (wr_operation request = WriteOperation.Create)) _) eqn:Hp; [|done]. cbn [negb].
  destruct (eqb (bool_decide (wr_operation request = WriteOperation.Delete)) _) eqn:Hd; [|done]. cbn [negb].
  apply eqb_prop in Hp, Hd. intros H.
  assert (row' = row ∧ ∀ object, wr_object request = Some object → object_fits row' namespace request object = true)
    as [-> Hfit].
  { destruct (wr_object request) as [object|]; [|by simplify_eq].
    destruct (object_fits _ _ _ _) eqn:Ho; [|done]. injection H as <-. split; [done|]. by intros ? [= <-]. }
  split; [by eapply classify_row|]. split; [done|]. split.
  { unfold in_scope in Hs. destruct (wk_scope row); [by apply bool_decide_eq_true in Hs|].
    by apply andb_prop in Hs as [?%bool_decide_eq_true ?%bool_decide_eq_true]. }
  assert (Hmeta : ∀ object, wr_object request = Some object →
     ∃ metadata, metadata_of object = Some metadata ∧ metadata_fits row namespace request metadata = true).
  { intros object Ho. by apply object_fits_spec, Hfit. }
  split.
  - destruct (wr_operation request) eqn:Eo, (wr_prior request) as [prior|] eqn:Epr; try done;
      destruct (wr_object request) as [object|] eqn:Eob; try done.
    + destruct (Hmeta object eq_refl) as (m & Hm & Hf). unfold has_metadata. rewrite Hm.
      apply metadata_fits_spec in Hf as (_ & _ & Hf). rewrite Eo in Hf. cbn [mbind option_bind]. by destruct Hf as [-> ->].
    + destruct (Hmeta object eq_refl) as (m & Hm & Hf). unfold metadata_text. rewrite Hm.
      apply metadata_fits_spec in Hf as (_ & _ & Hf). by rewrite Eo, Epr in Hf.
    + intros authority rendered. unfold render_write. rewrite Eo, Epr. cbn [mbind option_bind]. by intros [= <-].
  - intros object Ho. destruct (Hmeta object Ho) as (m & Hm & Hf). unfold metadata_text. rewrite Hm.
    by apply metadata_fits_spec in Hf as (? & ? & _).
Qed.
