(* ===== verification/Observation.v ===== *)
(** * The observation of a BIND's worker
    ([host-enforcement/crates/effect-gate/src/observation.rs])

    The gate's seam [WorkerObserver] with its default [Unobserved], the five-step kernel
    observation over the reads of a [KernelReads], the two strict byte parsers, and the bounded
    diagnostic log.  The theorems: which bytes each parser accepts and what it reads, exactly
    which kernel answers make a worker observed, and the log's bound. *)

From S2P Require Import Prelude.
Definition LEAF_PROCS_LIMIT : nat := Z.to_nat 65536.
Definition STAT_LIMIT : nat := Z.to_nat 4096.
Definition ENOENT : Z := 2.
Definition ESRCH : Z := 3.
Definition LOG_ENTRIES : nat := 64.
Definition I32_MAX : Z := 2 ^ 31 - 1.

Module Step.
Inductive t := Membership | PidfdOpen | StartTime | Recheck | Liveness.
#[global] Instance t_eq_dec : EqDecision t.
Proof. solve_decision. Defined.
End Step.

Module Cause.
Inductive t := Unreadable | NotListed | Gone | OpenFailed | StartDiffers | PollFailed | Exited.
#[global] Instance t_eq_dec : EqDecision t.
Proof. solve_decision. Defined.
End Cause.

Module Observation.
Inductive t := Observed | NotObserved (step : Step.t) (cause : Cause.t).
#[global] Instance t_eq_dec : EqDecision t.
Proof. solve_decision. Defined.
End Observation.

(** [trait WorkerObserver]: one observation, and the observer after it. *)
Class WorkerObserver (O : Type) := observe : O → Z → Z → O * Observation.t.

(** The default observer. *)
Inductive Unobserved := unobserved.
#[export] Instance Unobserved_observer : WorkerObserver Unobserved :=
  λ o _ _, (o, Observation.NotObserved Step.Membership Cause.Unreadable).

(** ** Kernel reads *)

Inductive KernelFail := Os (errno : Z) | TooLong | NoErrno.
Inductive PidState := Alive | PidExited.

Class KernelReads (K Pidfd : Type) := {
  read_leaf_procs : K → K * result (list Z) KernelFail;
  pidfd_open : K → Z → K * result Pidfd KernelFail;
  read_stat : K → Z → K * result (list Z) KernelFail;
  poll_zero : K → Pidfd → K * result PidState KernelFail;
}.

(** ** Byte parsers *)

(** [slice::split] on one byte: one more piece than separators. *)
Fixpoint split_on (sep : Z) (l : list Z) : list (list Z) :=
  match l with
  | [] => [[]]
  | b :: l =>
      match split_on sep l with
      | piece :: pieces => if b =? sep then [] :: piece :: pieces else (b :: piece) :: pieces
      | [] => [[b]]
      end
  end.

Definition NEWLINE : Z := 10.
Definition SPACE : Z := 32.

(** [[body @ .., b'\n']] *)
Definition strip_suffix_byte (sep : Z) (l : list Z) : option (list Z) :=
  match last l with
  | Some b => if b =? sep then Some (removelast l) else None
  | None => None
  end.

Definition leaf_line (line : list Z) : option Z :=
  let canonical :=
    if bool_decide (line = [48]) then true
    else match line with first :: _ => negb (first =? 48) | [] => false end in
  if negb canonical || negb (forallb is_digit line) then None
  else
    let value := digits_value line in
    if value <=? I32_MAX then Some value else None.

Definition parse_leaf_procs (bytes : list Z) : option (list Z) :=
  if Nat.ltb LEAF_PROCS_LIMIT (length bytes) then None
  else
    match bytes with
    | [] => Some []
    | _ => let* body := strip_suffix_byte NEWLINE bytes in mapM leaf_line (split_on NEWLINE body)
    end.

(** [iter().rposition(..)] *)
Fixpoint rposition (b : Z) (l : list Z) : option nat :=
  match l with
  | [] => None
  | x :: l => match rposition b l with
              | Some i => Some (S i)
              | None => if x =? b then Some O else None
              end
  end.

Definition contains (b : Z) (l : list Z) : bool := existsb (Z.eqb b) l.

(** The field loop: every field is non-empty and holds no newline; the field at index 19 is the
    start time. *)
Fixpoint stat_fields (index : nat) (start : option (list Z)) (fields : list (list Z)) : option (list Z) :=
  match fields with
  | [] => start
  | field :: fields =>
      if bool_decide (field = []) || contains NEWLINE field then None
      else stat_fields (S index) (if Nat.eqb index 19 then Some field else start) fields
  end.

Definition parse_stat_start (bytes : list Z) : option Z :=
  if Nat.ltb STAT_LIMIT (length bytes) then None
  else
    let* close := rposition 41 bytes in
    if negb (contains 40 (take close bytes)) then None
    else
      let* rest := strip_suffix_byte NEWLINE (drop (S close) bytes) in
      let* rest := match rest with b :: rest => if b =? SPACE then Some rest else None | [] => None end in
      let* start := stat_fields 0 None (split_on SPACE rest) in
      if negb (forallb is_digit start) then None
      else let value := digits_value start in if value <=? U64_MAX then Some value else None.

(** ** The five steps *)

Definition stopped (step : Step.t) (cause : Cause.t) : Observation.t := Observation.NotObserved step cause.

Definition listing (read : result (list Z) KernelFail) (pid : Z) : option Cause.t :=
  match read with
  | Err _ => Some Cause.Unreadable
  | Ok bytes =>
      match parse_leaf_procs bytes with
      | None => Some Cause.Unreadable
      | Some tgids =>
          if existsb (λ tgid, negb (tgid =? 0) && (tgid =? pid)) tgids then None else Some Cause.NotListed
      end
  end.

Definition i32_try_from (x : Z) : option Z := if (- 2 ^ 31 <=? x) && (x <=? I32_MAX) then Some x else None.

(** [KernelObserver::observe] *)
Definition kernel_observe {K Pidfd} `{KernelReads K Pidfd} (k : K) (pid start_ticks : Z) : K * Observation.t :=
  let '(k, members) := read_leaf_procs k in
  match listing members pid with
  | Some cause => (k, stopped Step.Membership cause)
  | None =>
  match (let* number := i32_try_from pid in if 1 <=? number then Some number else None) with
  | None => (k, stopped Step.Membership Cause.NotListed)
  | Some number =>
  let '(k, opened) := pidfd_open k number in
  match opened with
  | Err (Os errno) => (k, stopped Step.PidfdOpen (if errno =? ESRCH then Cause.Gone else Cause.OpenFailed))
  | Err _ => (k, stopped Step.PidfdOpen Cause.OpenFailed)
  | Ok pidfd =>
  let '(k, stat) := read_stat k number in
  let start_time :=
    match stat with
    | Ok bytes =>
        match parse_stat_start bytes with
        | Some start => if bool_decide (u64_try_from start_ticks = Some start) then None else Some Cause.StartDiffers
        | None => Some Cause.Unreadable
        end
    | Err (Os errno) => Some (if (errno =? ENOENT) || (errno =? ESRCH) then Cause.Gone else Cause.Unreadable)
    | Err _ => Some Cause.Unreadable
    end in
  match start_time with
  | Some cause => (k, stopped Step.StartTime cause)
  | None =>
  let '(k, members) := read_leaf_procs k in
  match listing members pid with
  | Some cause => (k, stopped Step.Recheck cause)
  | None =>
  let '(k, polled) := poll_zero k pidfd in
  match polled with
  | Ok Alive => (k, Observation.Observed)
  | Ok PidExited => (k, stopped Step.Liveness Cause.Exited)
  | Err _ => (k, stopped Step.Liveness Cause.PollFailed)
  end end end end end end.

#[export] Instance KernelObserver {K Pidfd} `{KernelReads K Pidfd} : WorkerObserver K := kernel_observe.

(** ** The diagnostic log *)

Record Logged := mkLogged { l_pid : Z; l_start_ticks : Z; l_observation : Observation.t }.

Record ObservationLog := mkLog { log_entries : list Logged; log_dropped : Z }.
Definition ObservationLog_default : ObservationLog := mkLog [] 0.

Definition log_record (log : ObservationLog) (entry : Logged) : ObservationLog :=
  let log := if Nat.leb LOG_ENTRIES (length (log_entries log))
             then mkLog (tail (log_entries log)) (sat_add_u64 (log_dropped log) 1)
             else log in
  mkLog (log_entries log ++ [entry]) (log_dropped log).

(** ** Splitting and joining *)

(** The pieces, each followed by the separator. *)
Definition terminated (sep : Z) (pieces : list (list Z)) : list Z := concat (map (λ p, p ++ [sep]) pieces).

Lemma split_on_nonempty sep l : split_on sep l ≠ [].
Proof. destruct l as [|b l]; simpl; [done|]. destruct (split_on sep l); [done|]. by case_match. Qed.

Lemma split_on_terminated sep l : terminated sep (split_on sep l) = l ++ [sep].
Proof.
  induction l as [|b l IH]; [done|]. simpl. pose proof (split_on_nonempty sep l).
  destruct (split_on sep l) as [|p ps]; [done|]. rewrite <-IH.
  destruct (Z.eqb_spec b sep) as [->|]; done.
Qed.

Lemma split_on_pieces sep l : Forall (λ p, sep ∉ p) (split_on sep l).
Proof.
  induction l as [|b l IH]; simpl; [constructor; [apply not_elem_of_nil|constructor]|].
  pose proof (split_on_nonempty sep l). destruct (split_on sep l) as [|p ps]; [done|].
  apply Forall_cons in IH as [Hp Hps]. destruct (Z.eqb_spec b sep) as [->|Hb].
  - constructor; [apply not_elem_of_nil|by constructor].
  - constructor; [|done]. rewrite not_elem_of_cons. split; [congruence|done].
Qed.

Lemma terminated_inj sep ps qs :
  Forall (λ p, sep ∉ p) ps → Forall (λ p, sep ∉ p) qs → terminated sep ps = terminated sep qs → ps = qs.
Proof.
  revert qs. induction ps as [|p ps IH]; intros [|q qs] Hps Hqs H; unfold terminated in *; simpl in *.
  - done.
  - by destruct q.
  - by destruct p.
  - apply Forall_cons in Hps as [Hp Hps]. apply Forall_cons in Hqs as [Hq Hqs].
    assert (p = q) as <-.
    { clear IH Hps Hqs. revert q Hq H. induction p as [|x p IHp]; intros [|y q] Hq H; simpl in *.
      - done.
      - injection H as <- _. rewrite not_elem_of_cons in Hq. tauto.
      - injection H as -> _. rewrite not_elem_of_cons in Hp. tauto.
      - injection H as <- H. rewrite not_elem_of_cons in Hp, Hq. f_equal. apply IHp; tauto. }
    f_equal. apply IH; [done..|]. rewrite <-!app_assoc in H. apply app_inv_head in H. by injection H.
Qed.

Lemma split_on_spec sep l ps :
  split_on sep l = ps ↔ Forall (λ p, sep ∉ p) ps ∧ terminated sep ps = l ++ [sep].
Proof.
  split.
  - intros <-. split; [apply split_on_pieces|apply split_on_terminated].
  - intros [Hps Ht]. apply (terminated_inj sep); [apply split_on_pieces|done|].
    by rewrite split_on_terminated.
Qed.

Lemma strip_suffix_byte_spec sep l body : strip_suffix_byte sep l = Some body ↔ l = body ++ [sep].
Proof.
  unfold strip_suffix_byte. destruct l as [|b l _] using rev_ind.
  { simpl. split; [done|]. by destruct body. }
  rewrite last_snoc, removelast_last. destruct (Z.eqb_spec b sep) as [->|Hb].
  - split; [by intros [= ->]|]. by intros [-> _]%app_inj_tail.
  - split; [done|]. by intros [_ ->]%app_inj_tail.
Qed.

Lemma contains_spec b l : contains b l = true ↔ b ∈ l.
Proof.
  unfold contains. rewrite existsb_exists. setoid_rewrite <-list_elem_of_In. split.
  - by intros (x & ? & ->%Z.eqb_eq).
  - intros ?. exists b. by rewrite Z.eqb_refl.
Qed.

Lemma contains_false b l : contains b l = false ↔ b ∉ l.
Proof. rewrite <-contains_spec. by destruct (contains b l). Qed.

Lemma rposition_spec b l i :
  rposition b l = Some i ↔ ∃ pre post, l = pre ++ b :: post ∧ length pre = i ∧ b ∉ post.
Proof.
  revert i. induction l as [|x l IH]; intros i; simpl.
  { split; [done|]. by intros ([] & ? & ? & _). }
  assert (Hnone : rposition b l = None → b ∉ l).
  { clear IH i. induction l as [|y l IHl]; simpl; [intros _; apply not_elem_of_nil|].
    destruct (rposition b l); [done|]. destruct (Z.eqb_spec y b); [done|].
    intros _. rewrite not_elem_of_cons. split; [congruence|by apply IHl]. }
  destruct (rposition b l) as [j|] eqn:Hj.
  - split.
    + intros [= <-]. destruct (IH j) as [(pre & post & -> & <- & Hb) _]; [done|].
      by exists (x :: pre), post.
    + intros ([|y pre] & post & [= -> ->] & <- & Hb); simpl.
      * destruct (IH j) as [(pre & post' & -> & _) _]; [done|].
        rewrite elem_of_app, elem_of_cons in Hb. tauto.
      * f_equal. assert (Some j = Some (length pre)) as [= ->]; [|done].
        apply IH. by exists pre, post.
  - specialize (Hnone eq_refl). destruct (Z.eqb_spec x b) as [->|Hx].
    + split.
      * intros [= <-]. by exists [], l.
      * intros ([|y pre] & post & Hl & <- & Hb); [done|]. injection Hl as _ Hl.
        exfalso. apply Hnone. rewrite Hl, elem_of_app, elem_of_cons. tauto.
    + split; [done|]. intros ([|y pre] & post & Hl & <- & Hb); injection Hl as ? Hl; [done|].
      exfalso. apply Hnone. rewrite Hl, elem_of_app, elem_of_cons. tauto.
Qed.

(** ** What the parsers accept *)

Lemma leaf_line_spec line t : leaf_line line = Some t ↔ 0 ≤ t ≤ I32_MAX ∧ line = digits_of t.
Proof.
  unfold leaf_line. set (canonical := if bool_decide _ then _ else _).
  assert (Hc : negb canonical || negb (forallb is_digit line) = false ↔ canonical_digits line).
  { rewrite orb_false_iff, !negb_false_iff, forallb_digits. unfold canonical_digits, canonical.
    case_bool_decide as H48; [subst line; naive_solver|].
    destruct line as [|x line]; simpl; [naive_solver|].
    rewrite negb_true_iff, Z.eqb_neq. split; [|naive_solver].
    intros [Hx ?]. split; [done|]. split; [done|]. congruence. }
  clearbody canonical. destruct (negb canonical || _) eqn:E.
  - split; [done|]. intros [Ht ->]. pose proof (digits_of_canonical t ltac:(lia)) as Hd.
    apply Hc in Hd. congruence.
  - pose proof (proj1 Hc eq_refl) as Hd. pose proof (digits_value_nonneg line ltac:(apply Hd)).
    destruct (Z.leb_spec (digits_value line) I32_MAX).
    + split.
      * intros [= <-]. split; [lia|]. by rewrite digits_of_value.
      * intros [Ht ->]. f_equal. apply digits_of_spec. lia.
    + split; [done|]. intros [Ht ->]. destruct (digits_of_spec t) as (_ & Hv & _); lia.
Qed.

(** The member file that lists [tgids]: each in shortest decimal form on a line of its own. *)
Definition leaf_file (tgids : list Z) : list Z := terminated NEWLINE (map digits_of tgids).

Lemma digits_no_byte n b : 0 ≤ n → is_digit b = false → b ∉ digits_of n.
Proof.
  intros Hn Hb Hin. destruct (digits_of_spec n Hn) as [Hf _].
  rewrite Forall_forall in Hf. specialize (Hf _ Hin). congruence.
Qed.

Lemma mapM_leaf_line lines tgids :
  mapM leaf_line lines = Some tgids ↔ Forall (λ t, 0 ≤ t ≤ I32_MAX) tgids ∧ lines = map digits_of tgids.
Proof.
  rewrite mapM_Some. split.
  - induction 1 as [|line t lines tgids H _ [IH ->]]; [done|].
    apply leaf_line_spec in H as [? ->]. split; [by constructor|done].
  - intros [Ht ->]. induction Ht; constructor; [|done]. by apply leaf_line_spec.
Qed.

(** The member-file parser accepts exactly the canonical listings of [i32] thread-group ids
    within the file bound, and reads back what they list. *)
Theorem parse_leaf_procs_accepts bytes tgids :
  parse_leaf_procs bytes = Some tgids ↔
  (length bytes ≤ LEAF_PROCS_LIMIT)%nat ∧ Forall (λ t, 0 ≤ t ≤ I32_MAX) tgids ∧ bytes = leaf_file tgids.
Proof.
  unfold parse_leaf_procs. destruct (Nat.ltb_spec LEAF_PROCS_LIMIT (length bytes)).
  { split; [done|]. lia. }
  destruct (decide (bytes = [])) as [->|Hne].
  { split; [by intros [= <-]|]. intros (_ & _ & Hb). destruct tgids as [|t tgids]; [done|].
    unfold leaf_file, terminated in Hb. simpl in Hb. destruct (digits_of t); discriminate Hb. }
  assert (Hm : match bytes with
               | [] => Some []
               | _ => let* body := strip_suffix_byte NEWLINE bytes in mapM leaf_line (split_on NEWLINE body)
               end = (let* body := strip_suffix_byte NEWLINE bytes in mapM leaf_line (split_on NEWLINE body)))
    by (by destruct bytes).
  rewrite Hm. clear Hm. rewrite bind_Some. setoid_rewrite strip_suffix_byte_spec.
  setoid_rewrite mapM_leaf_line. setoid_rewrite split_on_spec. split.
  - intros (body & -> & Ht & _ & Hs). split; [done|]. split; [done|]. symmetry. exact Hs.
  - intros (_ & Ht & Hs).
    destruct bytes as [|x body _] using rev_ind; [done|].
    destruct (decide (x = NEWLINE)) as [->|Hx].
    + exists body. split; [done|]. split; [done|]. split; [|done].
      apply Forall_map. eapply Forall_impl; [exact Ht|]. intros t [? _]. by apply digits_no_byte.
    + exfalso. apply Hx. clear -Hs. unfold leaf_file, terminated in Hs.
      destruct tgids as [|t tgids _] using rev_ind; [destruct body; discriminate Hs|].
      rewrite !map_app, concat_app in Hs. simpl in Hs. rewrite app_nil_r, app_assoc in Hs.
      by apply app_inj_tail in Hs as [_ ->].
Qed.

(** The field loop succeeds when no field is empty or holds a newline; it keeps the field at
    index 19. *)
Lemma stat_fields_spec index start fields f :
  stat_fields index start fields = Some f ↔
  Forall (λ f, f ≠ [] ∧ NEWLINE ∉ f) fields ∧
  (if (index <=? 19)%nat then
     match fields !! (19 - index)%nat with Some g => g = f | None => start = Some f end
   else start = Some f).
Proof.
  revert index start. induction fields as [|g fields IH]; intros index start; simpl.
  { destruct (index <=? 19)%nat; naive_solver. }
  rewrite Forall_cons. destruct (bool_decide (g = []) || contains NEWLINE g) eqn:E.
  { apply orb_true_iff in E. rewrite bool_decide_eq_true, contains_spec in E. split; [done|tauto]. }
  apply orb_false_iff in E as [E1%bool_decide_eq_false E2%contains_false]. rewrite IH.
  destruct (Nat.eqb_spec index 19) as [->|Hi]; [simpl; naive_solver|].
  destruct (Nat.leb_spec index 19).
  - rewrite (proj2 (Nat.leb_le (S index) 19)) by lia.
    replace (19 - index)%nat with (S (19 - S index)) by lia. cbn [lookup list_lookup]. tauto.
  - rewrite (proj2 (Nat.leb_gt (S index) 19)) by lia. tauto.
Qed.

(** The [stat] parser accepts exactly the files that end with [") "], at least twenty
    non-empty space-separated fields and one newline, after a [(]; the start time is the
    twentieth of those fields, all digits and within [u64]. *)
Theorem parse_stat_start_accepts bytes start :
  parse_stat_start bytes = Some start ↔
  (length bytes ≤ STAT_LIMIT)%nat ∧ start ≤ U64_MAX ∧
  ∃ pre rest fields field,
    bytes = pre ++ [41; SPACE] ++ rest ++ [NEWLINE] ∧ 40 ∈ pre ∧ 41 ∉ rest ∧
    rest ++ [SPACE] = terminated SPACE fields ∧
    Forall (λ f, f ≠ [] ∧ NEWLINE ∉ f ∧ SPACE ∉ f) fields ∧
    fields !! 19%nat = Some field ∧ Forall (λ b, is_digit b = true) field ∧ digits_value field = start.
Proof.
  unfold parse_stat_start. destruct (Nat.ltb_spec STAT_LIMIT (length bytes)).
  { split; [done|]. lia. }
  split.
  - intros (close & (pre & post & -> & <- & Hpost)%rposition_spec & H')%bind_Some.
    rewrite take_app_length in H'. destruct (contains 40 pre) eqn:Hc; [|done]. simpl in H'.
    rewrite <-Nat.add_1_r, <-drop_drop, drop_app_length in H'. simpl in H'. rewrite drop_0 in H'.
    apply bind_Some in H' as (body & Hbody%strip_suffix_byte_spec & H').
    apply bind_Some in H' as (rest & Hrest & H').
    destruct body as [|b rest']; [done|]. destruct (Z.eqb_spec b SPACE) as [->|]; [|done].
    injection Hrest as ->. subst post.
    apply bind_Some in H' as (field & [Hf Hfield]%stat_fields_spec & H'). simpl in Hfield.
    destruct (forallb is_digit field) eqn:Hd; [|done]. apply forallb_digits in Hd.
    destruct (Z.leb_spec (digits_value field) U64_MAX); [|done]. injection H' as <-.
    split; [done|]. split; [done|]. exists pre, rest, (split_on SPACE rest), field.
    split; [done|]. split; [by apply contains_spec|]. split; [set_solver|].
    split; [by rewrite split_on_terminated|]. split; [|by destruct (_ !! _); simplify_eq].
    pose proof (split_on_pieces SPACE rest) as Hp. rewrite Forall_forall in *. intros f Hin.
    destruct (Hf f Hin). split; [done|]. split; [done|]. by apply Hp.
  - intros (_ & Hs & pre & rest & fields & field & -> & Hpre & Hrest & Ht & Hf & Hl & Hd & Hv).
    assert (Hsplit : split_on SPACE rest = fields).
    { apply split_on_spec. split; [|done]. eapply Forall_impl; [exact Hf|]. by intros ? (? & ? & ?). }
    assert (rposition 41 (pre ++ [41; SPACE] ++ rest ++ [NEWLINE]) = Some (length pre)) as ->.
    { apply rposition_spec. exists pre, (SPACE :: rest ++ [NEWLINE]). split; [done|]. split; [done|].
      rewrite elem_of_cons, elem_of_app, elem_of_cons, elem_of_nil. unfold SPACE, NEWLINE.
      intros [?|[?|[?|[]]]]; [lia|done|lia]. }
    simpl. rewrite take_app_length, (proj2 (contains_spec _ _) Hpre). simpl.
    rewrite <-Nat.add_1_r, <-drop_drop, drop_app_length. simpl. rewrite ?drop_0.
    rewrite (proj2 (strip_suffix_byte_spec NEWLINE (SPACE :: rest ++ [NEWLINE]) (SPACE :: rest)) eq_refl).
    simpl. rewrite Hsplit.
    rewrite (proj2 (stat_fields_spec 0 None fields field)).
    2:{ split; [|simpl; by rewrite Hl]. eapply Forall_impl; [exact Hf|]. by intros ? (? & ? & ?). }
    simpl. rewrite (proj2 (forallb_digits _) Hd). simpl. rewrite Hv.
    by rewrite (proj2 (Z.leb_le _ _) Hs).
Qed.

(** ** The observation *)

(** The member file [m] lists [pid]. *)
Definition lists (m : list Z) (pid : Z) : Prop :=
  pid ≠ 0 ∧ ∃ tgids, parse_leaf_procs m = Some tgids ∧ pid ∈ tgids.

Lemma listing_None read pid : listing read pid = None ↔ ∃ m, read = Ok m ∧ lists m pid.
Proof.
  unfold listing, lists. destruct read as [m|]; [|split; [done|by intros (? & ? & _)]].
  destruct (parse_leaf_procs m) as [tgids|] eqn:Hp.
  - destruct (existsb _ tgids) eqn:E.
    + apply existsb_exists in E as (t & Ht%list_elem_of_In & [H0%negb_true_iff%Z.eqb_neq ->%Z.eqb_eq]%andb_prop).
      split; [|done]. intros _. exists m. split; [done|]. split; [done|]. eauto.
    + split; [done|]. intros (? & [= <-] & Hpid & ? & ? & Hin). simplify_eq.
      apply not_true_iff_false in E. exfalso. apply E. apply existsb_exists. exists pid.
      split; [by apply list_elem_of_In|]. rewrite (proj2 (Z.eqb_neq _ _) Hpid), Z.eqb_refl. done.
  - split; [done|]. intros (? & [= <-] & _ & ? & ? & _). congruence.
Qed.

Lemma parse_leaf_procs_range bytes tgids :
  parse_leaf_procs bytes = Some tgids → Forall (λ t, 0 ≤ t ≤ I32_MAX) tgids.
Proof.
  unfold parse_leaf_procs. destruct (Nat.ltb _ _); [done|].
  destruct bytes as [|b bytes]; [by intros [= <-]|].
  intros (body & _ & H)%bind_Some. by apply mapM_leaf_line in H as [? _].
Qed.

Lemma lists_range m pid : lists m pid → 1 ≤ pid ≤ I32_MAX.
Proof.
  intros (Hp & tgids & Hr%parse_leaf_procs_range & Hin).
  rewrite Forall_forall in Hr. specialize (Hr _ Hin). simpl in Hr. lia.
Qed.

Lemma parse_stat_start_range bytes start : parse_stat_start bytes = Some start → 0 ≤ start ≤ U64_MAX.
Proof.
  unfold parse_stat_start. destruct (Nat.ltb _ _); [done|].
  intros (close & _ & H)%bind_Some. destruct (negb _); [done|].
  apply bind_Some in H as (? & _ & H). apply bind_Some in H as (? & _ & H).
  apply bind_Some in H as (field & _ & H).
  destruct (forallb is_digit field) eqn:Hd; [|done]. apply forallb_digits in Hd. simpl in H.
  destruct (Z.leb_spec (digits_value field) U64_MAX); [|done]. injection H as <-.
  split; [by apply digits_value_nonneg|done].
Qed.

Lemma u64_try_from_Some x y : u64_try_from x = Some y ↔ x = y ∧ 0 ≤ y ≤ U64_MAX.
Proof.
  unfold u64_try_from, U64, U64_MAX. destruct (Z.leb_spec 0 x), (Z.ltb_spec x (2 ^ 64)); simpl;
    (split; [intros [=]|intros [-> ?]; f_equal]); lia.
Qed.

(** A worker is observed exactly when, in this order and each on the kernel state the step
    before it left: the member file lists the pid, a pidfd opens for it, its [stat] start time is
    the BIND's, the member file, read afresh, still lists it, and the pidfd reports no event. *)
Theorem kernel_observe_observed {K Pidfd} `{KernelReads K Pidfd} k pid start_ticks k' :
  kernel_observe k pid start_ticks = (k', Observation.Observed) ↔
  ∃ k1 m1 k2 pidfd k3 stat k4 m2,
    read_leaf_procs k = (k1, Ok m1) ∧ lists m1 pid ∧
    pidfd_open k1 pid = (k2, Ok pidfd) ∧
    read_stat k2 pid = (k3, Ok stat) ∧ parse_stat_start stat = Some start_ticks ∧
    read_leaf_procs k3 = (k4, Ok m2) ∧ lists m2 pid ∧
    poll_zero k4 pidfd = (k', Ok Alive).
Proof.
  unfold kernel_observe, stopped. split.
  - destruct (read_leaf_procs k) as [k1 r1] eqn:E1. destruct (listing r1 pid) eqn:L1; [done|].
    apply listing_None in L1 as (m1 & -> & L1). pose proof (lists_range _ _ L1).
    assert ((let* number := i32_try_from pid in if 1 <=? number then Some number else None) = Some pid) as ->.
    { unfold i32_try_from. rewrite (proj2 (Z.leb_le (- 2 ^ 31) pid)), (proj2 (Z.leb_le pid I32_MAX)) by lia.
      simpl. by rewrite (proj2 (Z.leb_le 1 pid)) by lia. }
    destruct (pidfd_open k1 pid) as [k2 [pidfd|[]]] eqn:E2; [|done..].
    destruct (read_stat k2 pid) as [k3 r3] eqn:E3.
    destruct r3 as [stat|[]]; [|done..]. destruct (parse_stat_start stat) as [start|] eqn:P3; [|done].
    case_bool_decide as Hs; [|done]. apply u64_try_from_Some in Hs as [-> _].
    destruct (read_leaf_procs k3) as [k4 r4] eqn:E4. destruct (listing r4 pid) eqn:L4; [done|].
    apply listing_None in L4 as (m2 & -> & L4).
    destruct (poll_zero k4 pidfd) as [k5 [[]|]] eqn:E5; [|done..]. intros [= ->]. naive_solver.
  - intros (k1 & m1 & k2 & pidfd & k3 & stat & k4 & m2 & -> & L1 & E2 & E3 & P3 & E4 & L4 & E5).
    pose proof (lists_range _ _ L1).
    rewrite (proj2 (listing_None (Ok m1) pid)) by eauto.
    assert ((let* number := i32_try_from pid in if 1 <=? number then Some number else None) = Some pid) as ->.
    { unfold i32_try_from. rewrite (proj2 (Z.leb_le (- 2 ^ 31) pid)), (proj2 (Z.leb_le pid I32_MAX)) by lia.
      simpl. by rewrite (proj2 (Z.leb_le 1 pid)) by lia. }
    rewrite E2, E3, P3. rewrite bool_decide_eq_true_2
      by (apply u64_try_from_Some; split; [done|by eapply parse_stat_start_range]).
    rewrite E4, (proj2 (listing_None (Ok m2) pid)) by eauto. by rewrite E5.
Qed.

(** The diagnostic log keeps exactly the last 64 observations and counts, saturating at
    [u64::MAX], the ones it dropped. *)
Theorem log_keeps_the_last_64 observed :
  fold_left log_record observed ObservationLog_default =
  mkLog (drop (length observed - LOG_ENTRIES) observed)
        (Z.min U64_MAX (Z.of_nat (length observed - LOG_ENTRIES))).
Proof.
  induction observed as [|entry observed IH] using rev_ind; [done|].
  rewrite fold_left_app, IH. cbn [fold_left]. unfold log_record. cbn [log_entries log_dropped].
  rewrite length_drop, length_app. cbn [length].
  destruct (Nat.leb_spec LOG_ENTRIES (length observed - (length observed - LOG_ENTRIES))) as [Hf|Hf].
  - replace (length observed + 1 - LOG_ENTRIES)%nat with (S (length observed - LOG_ENTRIES)) by lia.
    cbn [log_entries log_dropped]. f_equal.
    + rewrite drop_app_le by (unfold LOG_ENTRIES in *; lia). f_equal.
      by rewrite <-Nat.add_1_r, <-drop_drop.
    + unfold sat_add_u64, U64_MAX. lia.
  - replace (length observed - LOG_ENTRIES)%nat with 0%nat by lia.
    replace (length observed + 1 - LOG_ENTRIES)%nat with 0%nat by lia.
    by rewrite !drop_0.
Qed.
