(* ===== verification/Inet.v ===== *)
(** * Literal TCP authorities ([host-enforcement/crates/gate-sys/src/inet.rs])

    [a.b.c.d:port] and [[v6]:port] as bytes: no name is ever resolved.  Text is the list of its
    bytes, which the first check makes printable ASCII.  The theorems: the dotted quad that
    [parse_ipv4] reads is the canonical one, and what a literal authority parses to. *)

From S2P Require Import Prelude.
From S2P Require Import Slices.
From S2P Require Import Observation.
Module IpLiteral.
Inductive t := V4 (octets : list Z) | V6 (octets : list Z).
#[global] Instance t_eq_dec : EqDecision t.
Proof. solve_decision. Defined.
End IpLiteral.

Record InetAddress := mkInetAddress { ia_ip : IpLiteral.t; ia_port : Z }.

Module AuthorityError.
Inductive t := Text | Form | Ipv4 | Ipv6 | Port.
#[global] Instance t_eq_dec : EqDecision t.
Proof. solve_decision. Defined.
End AuthorityError.

Definition AUTHORITY_LIMIT : nat := 64.

Definition COLON : Z := 58.
Definition DOT : Z := 46.

(** [u8::is_ascii_graphic], [is_ascii_hexdigit] *)
Definition is_graphic (b : Z) : bool := (33 <=? b) && (b <=? 126).
Definition is_hexdigit (b : Z) : bool :=
  is_digit b || ((65 <=? b) && (b <=? 70)) || ((97 <=? b) && (b <=? 102)).
Definition hexdigit_value (b : Z) : Z :=
  if is_digit b then b - 48 else if b <=? 70 then b - 55 else b - 87.

(** [str::split_once] on one character *)
Fixpoint split_once (sep : Z) (l : list Z) : option (list Z * list Z) :=
  match l with
  | [] => None
  | b :: l =>
      if b =? sep then Some ([], l)
      else match split_once sep l with Some (head, tail) => Some (b :: head, tail) | None => None end
  end.

(** [str::split_once("::")] *)
Fixpoint split_double_colon (l : list Z) : option (list Z * list Z) :=
  match l with
  | [] => None
  | b :: l' =>
      if (b =? COLON) && bool_decide (head l' = Some COLON) then Some ([], tail l')
      else match split_double_colon l' with Some (head, tail) => Some (b :: head, tail) | None => None end
  end.

Definition parse_port (text : list Z) : result Z AuthorityError.t :=
  if bool_decide (text = []) || Nat.ltb 5 (length text) || negb (forallb is_digit text)
     || bool_decide (head text = Some 48)
  then Err AuthorityError.Port
  else
    let value := digits_value text in
    if (1 <=? value) && (value <=? 65535) then Ok value else Err AuthorityError.Port.

(** One decimal part: [u8::try_from] of at most three digits. *)
Definition parse_octet (part : list Z) : option Z :=
  if bool_decide (part = []) || Nat.ltb 3 (length part) || negb (forallb is_digit part) then None
  else if Nat.ltb 1 (length part) && bool_decide (head part = Some 48) then None
  else let value := digits_value part in if value <? U8 then Some value else None.

Definition parse_ipv4 (text : list Z) : option (list Z) :=
  match split_on DOT text with
  | [a; b; c; d] => mapM parse_octet [a; b; c; d]
  | _ => None
  end.

(** One hexadecimal group. *)
Definition parse_group (piece : list Z) : option Z :=
  if bool_decide (piece = []) || Nat.ltb 4 (length piece) || negb (forallb is_hexdigit piece) then None
  else Some (fold_left (λ a b, a * 16 + hexdigit_value b) piece 0).

(** The pieces of one side; [last] pieces may be an IPv4 tail, which counts as two groups. *)
Fixpoint groups_loop (tail : bool) (pieces : list (list Z)) : option (list Z) :=
  match pieces with
  | [] => Some []
  | piece :: rest =>
      if tail && bool_decide (rest = []) && contains DOT piece then
        let* quad := parse_ipv4 piece in
        match quad with
        | [a; b; c; d] => Some [a * 256 + b; c * 256 + d]
        | _ => None
        end
      else
        let* word := parse_group piece in
        let* words := groups_loop tail rest in
        Some (word :: words)
  end.

Definition groups (text : list Z) (tail : bool) : option (list Z) :=
  if bool_decide (text = []) then Some [] else groups_loop tail (split_on COLON text).

Definition word_bytes (word : Z) : list Z := [word / 256; word mod 256].

Definition parse_ipv6 (text : list Z) : option (list Z) :=
  let* words :=
    match split_double_colon text with
    | Some (head, tail) =>
        if bool_decide (is_Some (split_double_colon tail)) then None
        else
          let* head := groups head false in
          let* tail := groups tail true in
          if Nat.ltb 7 (length head + length tail) then None
          else Some (head ++ replicate (8 - length tail - length head) 0 ++ tail)
    | None =>
        let* words := groups text true in
        if Nat.eqb (length words) 8 then Some words else None
    end in
  Some (concat (map word_bytes words)).

Definition parse_authority (text : list Z) : result InetAddress AuthorityError.t :=
  if bool_decide (text = []) || Nat.ltb AUTHORITY_LIMIT (length text) || negb (forallb is_graphic text)
  then Err AuthorityError.Text
  else
    match text with
    | 91 :: rest =>
        match split_once 93 rest with
        | None => Err AuthorityError.Form
        | Some (inner, after) =>
            match after with
            | 58 :: port =>
                let? ip := result_of_option (parse_ipv6 inner) AuthorityError.Ipv6 in
                let? port := parse_port port in
                Ok (mkInetAddress (IpLiteral.V6 ip) port)
            | _ => Err AuthorityError.Form
            end
        end
    | _ =>
        match split_once COLON text with
        | None => Err AuthorityError.Form
        | Some (host, port) =>
            if contains COLON port then Err AuthorityError.Form
            else
              let? ip := result_of_option (parse_ipv4 host) AuthorityError.Ipv4 in
              let? port := parse_port port in
              Ok (mkInetAddress (IpLiteral.V4 ip) port)
        end
    end.

(** ** The source's unit cases *)

Definition authority (text : string) : result InetAddress AuthorityError.t := parse_authority (bytes_of text).

Example loopback_authorities :
  (authority "127.0.0.1:6443", authority "[::1]:6443") =
  (Ok (mkInetAddress (IpLiteral.V4 [127; 0; 0; 1]) 6443),
   Ok (mkInetAddress (IpLiteral.V6 [0; 0; 0; 0; 0; 0; 0; 0; 0; 0; 0; 0; 0; 0; 0; 1]) 6443)).
Proof. vm_compute. reflexivity. Qed.

Example refused_authorities :
  map authority ["localhost:6443"; "127.0.0.01:1"; "127.0.0.1"; "127.0.0.1:0"; "[::1]"; "[1::2::3]:1"; ""; "127.0.0.1:1:2"] =
  map Err [AuthorityError.Ipv4; AuthorityError.Ipv4; AuthorityError.Form; AuthorityError.Port; AuthorityError.Form;
           AuthorityError.Ipv6; AuthorityError.Text; AuthorityError.Form].
Proof. vm_compute. reflexivity. Qed.

Example embedded_quad :
  authority "[::ffff:127.0.0.1]:1" =
  Ok (mkInetAddress (IpLiteral.V6 [0; 0; 0; 0; 0; 0; 0; 0; 0; 0; 255; 255; 127; 0; 0; 1]) 1).
Proof. vm_compute. reflexivity. Qed.

(** ** Dotted quads *)

Definition dotted (octets : list Z) : list Z :=
  match octets with
  | [a; b; c; d] => decimal a ++ DOT :: decimal b ++ DOT :: decimal c ++ DOT :: decimal d
  | _ => []
  end.

Definition is_octet (b : Z) : Prop := 0 ≤ b < 256.

Lemma parse_octet_Some part o :
  parse_octet part = Some o ↔ is_octet o ∧ part = decimal o.
Proof.
  assert (Hdec : ∀ o, is_octet o → decimal o = digits_of o).
  { intros x [Hx _]. unfold decimal. by rewrite (proj2 (Z.ltb_ge _ _)) by lia. }
  unfold parse_octet. split.
  - destruct (bool_decide (part = [])) eqn:E0; [done|]. apply bool_decide_eq_false in E0. simpl.
    destruct (Nat.ltb_spec 3 (length part)) as [|Hl]; [done|]. simpl.
    destruct (forallb is_digit part) eqn:Hd; [|done]. simpl. apply forallb_digits in Hd.
    destruct (Nat.ltb 1 (length part) && bool_decide (head part = Some 48)) eqn:Hz; [done|].
    destruct (Z.ltb_spec (digits_value part) U8) as [Hv|]; [|done]. intros [= <-].
    pose proof (digits_value_nonneg part Hd). unfold U8 in Hv. split; [unfold is_octet; lia|].
    rewrite Hdec by (unfold is_octet; lia). symmetry. apply digits_of_value. split_and!; [done|done|].
    intros Hh. rewrite Hh, bool_decide_true, andb_true_r in Hz by done.
    apply Nat.ltb_ge in Hz. destruct part as [|x [|]]; simpl in *; simplify_eq; [done|lia].
  - intros [Ho ->]. rewrite Hdec by done. destruct Ho as [Ho0 Ho1].
    destruct (digits_of_spec o Ho0) as (Hf & Hv & Hpos & Hh & H0).
    rewrite bool_decide_eq_false_2 by (intros Hn; rewrite Hn in Hpos; simpl in Hpos; lia). simpl.
    assert (Hlen : (length (digits_of o) ≤ 3)%nat).
    { destruct (decide (o = 0)) as [->|Hn]; [rewrite H0 by done; simpl; lia|].
      destruct (digits_of o) as [|d [|d2 [|d3 [|d4 l]]]] eqn:E; simpl; try lia. exfalso.
      rewrite digits_value_cons in Hv. apply Forall_cons in Hf as [Hd%is_digit_bounds Hf].
      assert (d ≠ 48) by (intros ->; by destruct (Hh Hn)).
      pose proof (digits_value_nonneg _ Hf).
      assert (10 ^ 3 ≤ 10 ^ Z.of_nat (length (d2 :: d3 :: d4 :: l)))
        by (apply Z.pow_le_mono_r; simpl; lia). nia. }
    rewrite (proj2 (Nat.ltb_ge 3 _)) by done. simpl.
    rewrite (proj2 (forallb_digits _) Hf). simpl.
    destruct (Nat.ltb 1 (length (digits_of o)) && bool_decide (head (digits_of o) = Some 48)) eqn:Hz.
    { apply andb_prop in Hz as [Hz1%Nat.ltb_lt Hz2%bool_decide_eq_true].
      destruct (decide (o = 0)) as [->|Hn]; [rewrite H0 in Hz1 by done; simpl in Hz1; lia|].
      by destruct (Hh Hn). }
    rewrite Hv. rewrite (proj2 (Z.ltb_lt o U8)) by (unfold U8; lia). done.
Qed.

Lemma split_on_join sep ps q :
  Forall (λ p, sep ∉ p) (ps ++ [q]) → split_on sep (concat (map (λ p, p ++ [sep]) ps) ++ q) = ps ++ [q].
Proof.
  intros H. apply split_on_spec. split; [done|]. unfold terminated.
  by rewrite map_app, concat_app, <-app_assoc; simpl; rewrite app_nil_r.
Qed.

Lemma decimal_no_dot o : is_octet o → DOT ∉ decimal o.
Proof.
  intros [Ho _] Hin. unfold decimal in Hin. rewrite (proj2 (Z.ltb_ge _ _)) in Hin by lia.
  destruct (digits_of_spec o Ho) as (Hf & _). rewrite Forall_forall in Hf.
  apply Hf, is_digit_bounds in Hin. unfold DOT in Hin. lia.
Qed.

(** A text is read as an IPv4 literal exactly when it is the dotted decimal form of its four
    octets: no leading zeros, no other notation of the same address. *)
Lemma parse_ipv4_accepts text octets :
  parse_ipv4 text = Some octets ↔ length octets = 4%nat ∧ Forall is_octet octets ∧ text = dotted octets.
Proof.
  unfold parse_ipv4. split.
  - destruct (split_on DOT text) as [|pa [|pb [|pc [|pd [|]]]]] eqn:E; try done. intros H.
    apply mapM_Some in H.
    repeat match goal with
      | H : Forall2 _ (_ :: _) _ |- _ => inversion H; clear H; subst
      | H : Forall2 _ [] _ |- _ => inversion H; clear H; subst
      end.
    repeat match goal with H : parse_octet _ = Some _ |- _ => apply parse_octet_Some in H as [? ->] end.
    split; [done|]. split; [repeat (apply Forall_cons; split; [done|]); by apply Forall_nil|].
    apply split_on_spec in E as [_ E]. unfold terminated in E. simpl in E.
    assert (Heq : dotted [y; y0; y1; y2] ++ [DOT] = text ++ [DOT]) by (rewrite <-E; cbn [map concat dotted]; rewrite app_nil_r, <-!app_assoc; repeat (cbn [app]; rewrite <-?app_assoc); done).
    by apply app_inv_tail in Heq.
  - intros (Hl & Hf & ->). destruct octets as [|a [|b [|c [|d [|]]]]]; try done.
    repeat (apply Forall_cons in Hf as [? Hf]).
    assert (E : split_on DOT (dotted [a; b; c; d]) = [decimal a; decimal b; decimal c; decimal d]).
    { apply split_on_spec. split; [repeat (apply Forall_cons; split; [by apply decimal_no_dot|]); by apply Forall_nil|].
      unfold terminated. cbn [map concat dotted]. rewrite app_nil_r, <-!app_assoc.
      repeat (cbn [app]; rewrite <-?app_assoc). done. }
    rewrite E. apply mapM_Some. repeat (apply Forall2_cons; split; [by apply parse_octet_Some|]). by apply Forall2_nil.
Qed.

Lemma parse_ipv6_length text octets : parse_ipv6 text = Some octets → length octets = 16%nat.
Proof.
  assert (Hc : ∀ ws, length (concat (map word_bytes ws)) = (2 * length ws)%nat).
  { induction ws as [|w ws IH]; [done|]. simpl. rewrite IH. lia. }
  unfold parse_ipv6. intros H. apply bind_Some in H as (ws & Hws & [= <-]). rewrite Hc.
  destruct (split_double_colon text) as [[h t]|].
  - case_bool_decide; [done|]. apply bind_Some in Hws as (gh & _ & Hws). apply bind_Some in Hws as (gt & _ & Hws).
    destruct (Nat.ltb_spec 7 (length gh + length gt)); [done|]. injection Hws as <-.
    rewrite !length_app, length_replicate. lia.
  - apply bind_Some in Hws as (g & _ & Hws). destruct (Nat.eqb_spec (length g) 8); [|done].
    injection Hws as <-. lia.
Qed.
