(* ===== verification/PeerWire.v ===== *)
(** * The peers of the two channels ([host-enforcement/crates/gate-sys/src/peer_wire.rs],
    [host-enforcement/crates/effect-gate/src/peers.rs])

    The control messages of a datagram, the identity reads of a peer process, the label rule, and
    the expected peers.  The theorem: a delivery is accepted exactly when its control bytes are one
    credentials and one security message, in either order, and nothing else. *)

From S2P Require Import Prelude Slices Observation.
Definition FRAME_BUFFER_BYTES : Z := 16385.
Definition CREDENTIALS_BYTES : Z := 12.
Definition LABEL_LIMIT : Z := 4096.
Definition CMSG_HEADER_BYTES : Z := 16.
Definition ALIGNMENT : Z := 8.
Definition SOL_SOCKET : Z := 1.
Definition SCM_RIGHTS : Z := 1.
Definition SCM_CREDENTIALS : Z := 2.
Definition SCM_SECURITY : Z := 3.

Definition cmsg_align (length_ : Z) : option Z :=
  (λ padded, Z.ldiff padded (ALIGNMENT - 1)) <$> usize_checked_add length_ (ALIGNMENT - 1).
Definition cmsg_len (length_ : Z) : option Z := usize_checked_add CMSG_HEADER_BYTES length_.
Definition cmsg_space (length_ : Z) : option Z :=
  let* aligned := cmsg_align length_ in usize_checked_add CMSG_HEADER_BYTES aligned.

(** The control buffer for an accept-time label of [label_length] bytes. *)
Definition control_capacity (label_length : Z) : option Z :=
  if (label_length =? 0) || (LABEL_LIMIT <? label_length) then None
  else
    let* credentials := cmsg_space CREDENTIALS_BYTES in
    let* label := cmsg_space label_length in
    usize_checked_add credentials label.

(** ** Little-endian integers *)

Fixpoint from_le (bytes : list Z) : Z :=
  match bytes with
  | [] => 0
  | b :: bytes => b + 256 * from_le bytes
  end.
(** [i32::from_le_bytes] *)
Definition from_le_i32 (bytes : list Z) : Z :=
  let value := from_le bytes in if value <? 2 ^ 31 then value else value - 2 ^ 32.

Record Credentials := mkCredentials { c_pid : Z; c_uid : Z; c_gid : Z }.

Definition Credentials_from_bytes (bytes : list Z) : option Credentials :=
  if negb (zlen bytes =? CREDENTIALS_BYTES) then None
  else Some (mkCredentials (from_le_i32 (take 4 bytes)) (from_le (take 4 (drop 4 bytes))) (from_le (drop 8 bytes))).

Record Control := mkControl { ct_credentials : Credentials; ct_security : list Z }.

Module ControlViolation.
Inductive t :=
| Truncated
| Malformed
| Foreign (level kind : Z)
| CredentialsLength
| MissingCredentials
| RepeatedCredentials
| MissingSecurity
| RepeatedSecurity.
#[global] Instance t_eq_dec : EqDecision t.
Proof. solve_decision. Defined.
End ControlViolation.

Definition read_u64 (bytes : list Z) (at_ : Z) : option Z :=
  let* end_ := usize_checked_add at_ 8 in from_le <$> get_range bytes at_ end_.
Definition read_i32 (bytes : list Z) (at_ : Z) : option Z :=
  let* end_ := usize_checked_add at_ 4 in from_le_i32 <$> get_range bytes at_ end_.

(** ** Control messages *)

(** The header of the message at [at_] and its payload: length, level, kind. *)
Definition message_at (control : list Z) (at_ : Z) : result (Z * Z * Z * list Z) ControlViolation.t :=
  let? length_ := result_of_option (read_u64 control at_) ControlViolation.Malformed in
  let? level := result_of_option (read_i32 control (sat_add_u64 at_ 8)) ControlViolation.Malformed in
  let? kind := result_of_option (read_i32 control (sat_add_u64 at_ 12)) ControlViolation.Malformed in
  let? end_ := result_of_option (usize_checked_add at_ length_) ControlViolation.Malformed in
  if (length_ <? CMSG_HEADER_BYTES) || (zlen control <? end_) then Err ControlViolation.Malformed
  else
    let? payload := result_of_option (get_range control (sat_add_u64 at_ CMSG_HEADER_BYTES) end_)
                      ControlViolation.Malformed in
    Ok (length_, level, kind, payload).

(** One message taken into what the earlier ones delivered. *)
Definition take_message (length_ level kind : Z) (payload : list Z) (credentials : option Credentials)
    (security : option (list Z)) : result (option Credentials * option (list Z)) ControlViolation.t :=
  if (level =? SOL_SOCKET) && (kind =? SCM_CREDENTIALS) then
    match credentials with
    | Some _ => Err ControlViolation.RepeatedCredentials
    | None =>
        if negb (bool_decide (Some length_ = cmsg_len CREDENTIALS_BYTES)) then Err ControlViolation.CredentialsLength
        else
          let? credentials := result_of_option (Credentials_from_bytes payload) ControlViolation.CredentialsLength in
          Ok (Some credentials, security)
    end
  else if (level =? SOL_SOCKET) && (kind =? SCM_SECURITY) then
    match security with
    | Some _ => Err ControlViolation.RepeatedSecurity
    | None => Ok (credentials, Some payload)
    end
  else Err (ControlViolation.Foreign level kind).

Fixpoint control_loop (fuel : nat) (control : list Z) (at_ : Z) (credentials : option Credentials)
    (security : option (list Z)) : run (option Credentials * option (list Z)) ControlViolation.t :=
  if zlen control <=? at_ then Done (credentials, security)
  else
    match fuel with
    | O => OutOfFuel
    | S fuel =>
        let! message := run_of_result (message_at control at_) in
        let '(length_, level, kind, payload) := message in
        let! taken := run_of_result (take_message length_ level kind payload credentials security) in
        let! next := run_of_result (result_of_option
          (let* aligned := cmsg_align length_ in usize_checked_add at_ aligned) ControlViolation.Malformed) in
        control_loop fuel control next taken.1 taken.2
    end.

(** Every message has at least its header, so as many turns as bytes are enough. *)
Definition parse_control (control : list Z) (truncated : bool) : result Control ControlViolation.t :=
  if truncated then Err ControlViolation.Truncated
  else
    match control_loop (length control) control 0 None None with
    | Done (credentials, security) =>
        let? credentials := result_of_option credentials ControlViolation.MissingCredentials in
        let? security := result_of_option security ControlViolation.MissingSecurity in
        Ok (mkControl credentials security)
    | Fail violation => Err violation
    | OutOfFuel => Err ControlViolation.Malformed
    end.

(** ** Identity reads *)

(** One trailing NUL of the delivered label is not compared. *)
Definition label_matches (delivered expected : list Z) : bool :=
  let stripped := default delivered (strip_suffix_byte 0 delivered) in
  negb (bool_decide (expected = [])) && bool_decide (stripped = expected).

Definition strip_newline (text : list Z) : list Z := default text (strip_suffix_byte NEWLINE text).

(** Field 22 of a [stat] line. *)
Definition stat_start_time (stat : list Z) : option Z :=
  let* opens := position (Z.eqb 40) stat in
  let* close := rposition 41 stat in
  if Nat.ltb close opens then None
  else
    let rest := strip_newline (drop (S close) stat) in
    let* rest := match rest with b :: rest => if b =? SPACE then Some rest else None | [] => None end in
    let* field := split_on SPACE rest !! 19%nat in
    if bool_decide (field = []) || negb (forallb is_digit field) then None
    else let value := digits_value field in if value <=? U64_MAX then Some value else None.

(** The set of lines of a [cgroup] file. *)
Definition line_set (text : list Z) : option (gset (list Z)) :=
  let body := strip_newline text in
  if bool_decide (body = []) then None
  else
    let lines := split_on NEWLINE body in
    if existsb (λ line, bool_decide (line = [])) lines then None else Some (list_to_set lines).

Definition same_lines (observed expected : list Z) : bool :=
  match line_set observed, line_set expected with
  | Some observed, Some expected => bool_decide (observed = expected)
  | _, _ => false
  end.

Record ProcIdentity := mkProcIdentity { pi_start_time : Z; pi_cgroup : list Z; pi_label : list Z }.

Definition ProcIdentity_from_files (stat cgroup label : list Z) : option ProcIdentity :=
  let* start_time := stat_start_time stat in
  let* _ := line_set cgroup in
  Some (mkProcIdentity start_time cgroup label).

(** ** The expected peers *)

Definition BROKER_LABEL : string := "system_u:system_r:planeon_broker_t:s0".
Definition BROKER_UID : Z := 0.
Definition BROKER_GID : Z := 0.
Definition BROKER_CGROUP : string := "0::/planeon.slice/planeon-capacity-broker.service/broker".
Definition WRITER_LABEL : string := "system_u:system_r:planeon_policy_writer_t:s0".
Definition WRITER_UID : Z := 0.
Definition I05_SOCKET_CONTEXT : string := "system_u:object_r:planeon_i05_socket_t:s0".
Definition I05_SOCKET_PATH : string := "/run/planeon/live-proxy/effect-admission.sock".
Definition I07_SOCKET_CONTEXT : string := "system_u:object_r:planeon_i07_socket_t:s0".
Definition I07_SOCKET_PATH : string := "/run/planeon/maintenance/policy-write.sock".

Record ExpectedPeer := mkExpectedPeer {
  ep_label : list Z;
  ep_uid : Z;
  ep_gid : option Z;
  ep_cgroup : option (list Z)
}.
Record ExpectedPeers := mkExpectedPeers { ep_i05 : ExpectedPeer; ep_i07 : ExpectedPeer }.

Definition ExpectedPeers_r10 : ExpectedPeers :=
  mkExpectedPeers
    (mkExpectedPeer (bytes_of BROKER_LABEL) BROKER_UID (Some BROKER_GID) (Some (bytes_of BROKER_CGROUP)))
    (mkExpectedPeer (bytes_of WRITER_LABEL) WRITER_UID None None).

(** [usize::saturating_add] *)
Definition writer_exe_buffer_len (expected : list Z) : Z := sat_add_u64 (zlen expected) 1.
Definition writer_exe_matches (link expected : list Z) : bool :=
  negb (bool_decide (link = [])) && bool_decide (link = expected).

Record ListenerPlan := mkListenerPlan { lp_path : string; lp_context : list Z }.
Definition ListenerPlan_i05 : ListenerPlan := mkListenerPlan I05_SOCKET_PATH (bytes_of I05_SOCKET_CONTEXT).
Definition ListenerPlan_i07 : ListenerPlan := mkListenerPlan I07_SOCKET_PATH (bytes_of I07_SOCKET_CONTEXT).

(** ** The grammar of an accepted delivery *)

Fixpoint le_bytes (n : nat) (v : Z) : list Z :=
  match n with
  | O => []
  | S n => v mod 256 :: le_bytes n (v / 256)
  end.

Definition in_i32 (v : Z) : Prop := - 2 ^ 31 ≤ v < 2 ^ 31.

(** A control message without its padding. *)
Definition message (level kind : Z) (payload : list Z) : list Z :=
  le_bytes 8 (CMSG_HEADER_BYTES + zlen payload) ++ le_bytes 4 (level mod 2 ^ 32) ++ le_bytes 4 (kind mod 2 ^ 32) ++ payload.

(** [length_] rounded up to the next multiple of eight. *)
Definition aligned (length_ : Z) : Z := (length_ + 7) / 8 * 8.

(** The control bytes of one credentials message and one security message, in either order: the first padded to the
    alignment, the last one's padding whole, partial or absent. *)
Inductive delivery (payload security : list Z) : list Z → Prop :=
| credentials_first padding tail :
    zlen (message SOL_SOCKET SCM_CREDENTIALS payload) + zlen padding =
      aligned (zlen (message SOL_SOCKET SCM_CREDENTIALS payload)) →
    zlen (message SOL_SOCKET SCM_SECURITY security) + zlen tail ≤
      aligned (zlen (message SOL_SOCKET SCM_SECURITY security)) →
    delivery payload security
      (message SOL_SOCKET SCM_CREDENTIALS payload ++ padding ++ message SOL_SOCKET SCM_SECURITY security ++ tail)
| security_first padding tail :
    zlen (message SOL_SOCKET SCM_SECURITY security) + zlen padding =
      aligned (zlen (message SOL_SOCKET SCM_SECURITY security)) →
    zlen (message SOL_SOCKET SCM_CREDENTIALS payload) + zlen tail ≤
      aligned (zlen (message SOL_SOCKET SCM_CREDENTIALS payload)) →
    delivery payload security
      (message SOL_SOCKET SCM_SECURITY security ++ padding ++ message SOL_SOCKET SCM_CREDENTIALS payload ++ tail).

(** ** Little-endian integers are read back *)

Lemma from_le_bound bytes : Forall is_byte bytes → 0 ≤ from_le bytes < 256 ^ zlen bytes.
Proof.
  induction 1 as [|b bytes Hb Hf IH]; [done|]. cbn [from_le]. rewrite zlen_cons.
  pose proof (zlen_nonneg bytes). rewrite Z.pow_add_r by lia. unfold is_byte in Hb. lia.
Qed.

Lemma le_from_le bytes : Forall is_byte bytes → le_bytes (length bytes) (from_le bytes) = bytes.
Proof.
  induction 1 as [|b bytes Hb Hf IH]; [done|]. cbn [from_le length le_bytes]. unfold is_byte in Hb.
  replace (b + 256 * from_le bytes) with (from_le bytes * 256 + b) by lia.
  rewrite Z.div_add_l, (Z.div_small b), Z.add_0_r, IH by lia. f_equal.
  rewrite Z.add_comm, Z_mod_plus_full. by apply Z.mod_small.
Qed.

Lemma length_le_bytes n v : length (le_bytes n v) = n.
Proof. revert v; induction n as [|n IH]; intros v; simpl; [done|]. by rewrite IH. Qed.

Lemma from_le_le n v : 0 ≤ v < 256 ^ Z.of_nat n → from_le (le_bytes n v) = v.
Proof.
  revert v; induction n as [|n IH]; intros v Hv; [change (256 ^ Z.of_nat 0) with 1 in Hv; simpl; lia|].
  rewrite Nat2Z.inj_succ, Z.pow_succ_r in Hv by lia. cbn [le_bytes from_le].
  rewrite IH by (Z.div_mod_to_equations; nia). Z.div_mod_to_equations; lia.
Qed.

Lemma from_le_i32_mod bytes :
  Forall is_byte bytes → length bytes = 4%nat →
  in_i32 (from_le_i32 bytes) ∧ le_bytes 4 (from_le_i32 bytes mod 2 ^ 32) = bytes.
Proof.
  intros Hf Hl. pose proof (from_le_bound bytes Hf) as Hb. unfold zlen in Hb. rewrite Hl in Hb.
  change (256 ^ Z.of_nat 4) with (2 ^ 32) in Hb.
  assert (from_le_i32 bytes mod 2 ^ 32 = from_le bytes) as ->.
  { unfold from_le_i32. destruct (_ <? _) eqn:E; [by apply Z.mod_small|].
    replace (from_le bytes - 2 ^ 32) with (from_le bytes + (-1) * 2 ^ 32) by lia.
    rewrite Z_mod_plus_full. by apply Z.mod_small. }
  split; [|rewrite <-Hl; by apply le_from_le].
  unfold in_i32, from_le_i32. destruct (Z.ltb_spec (from_le bytes) (2 ^ 31)); lia.
Qed.

Lemma from_le_i32_le v : in_i32 v → from_le_i32 (le_bytes 4 (v mod 2 ^ 32)) = v.
Proof.
  unfold in_i32, from_le_i32. intros Hv. rewrite from_le_le by (apply Z.mod_pos_bound; done).
  destruct (Z.ltb_spec v 0).
  - replace (v mod 2 ^ 32) with (v + 2 ^ 32); [destruct (Z.ltb_spec (v + 2 ^ 32) (2 ^ 31)); lia|].
    rewrite <-(Z_mod_plus_full v 1). symmetry. apply Z.mod_small. lia.
  - rewrite Z.mod_small by lia. destruct (Z.ltb_spec v (2 ^ 31)); lia.
Qed.

Lemma cmsg_align_aligned length_ :
  0 ≤ length_ < 2 ^ 63 → cmsg_align length_ = Some (aligned length_).
Proof.
  intros H. unfold cmsg_align, usize_checked_add, aligned, U64. change (ALIGNMENT - 1) with 7.
  rewrite (proj2 (Z.ltb_lt _ _)) by lia. cbn [fmap option_fmap option_map]. f_equal.
  change 7 with (Z.ones 3). rewrite Z.ldiff_ones_r by lia.
  by rewrite Z.shiftl_mul_pow2, Z.shiftr_div_pow2 by lia.
Qed.

Lemma aligned_bounds length_ : 0 ≤ length_ → length_ ≤ aligned length_ < length_ + 8.
Proof. unfold aligned. intros. Z.div_mod_to_equations; lia. Qed.

Lemma zlen_le_bytes n v : zlen (le_bytes n v) = Z.of_nat n.
Proof. unfold zlen. by rewrite length_le_bytes. Qed.

Lemma zlen_message level kind payload : zlen (message level kind payload) = 16 + zlen payload.
Proof. unfold message. rewrite !zlen_app, !zlen_le_bytes. lia. Qed.

(** ** One message *)

Lemma get_range_split {A} (l : list A) first last m :
  get_range l first last = Some m → ∃ l1 l2, l = l1 ++ m ++ l2 ∧ zlen l1 = first ∧ zlen m = last - first.
Proof.
  unfold get_range, zlen. destruct (_ && _) eqn:E; [|done]. intros [= <-].
  rewrite !andb_true_iff, !Z.leb_le in E.
  exists (take (Z.to_nat first) l), (drop (Z.to_nat last) l). split_and!.
  - rewrite <-(take_drop (Z.to_nat first) l) at 1. f_equal.
    rewrite <-(take_drop (Z.to_nat (last - first)) (drop (Z.to_nat first) l)) at 1. f_equal.
    rewrite drop_drop. f_equal. lia.
  - rewrite length_take. lia.
  - rewrite length_take, length_drop. lia.
Qed.

Lemma message_at_here before level kind payload after :
  in_i32 level → in_i32 kind → zlen (before ++ message level kind payload ++ after) < 2 ^ 62 →
  message_at (before ++ message level kind payload ++ after) (zlen before) =
    Ok (16 + zlen payload, level, kind, payload).
Proof.
  intros Hl Hk Hz. rewrite !zlen_app, zlen_message in Hz.
  pose proof (zlen_nonneg before). pose proof (zlen_nonneg payload). pose proof (zlen_nonneg after).
  unfold message_at, read_u64, read_i32, usize_checked_add, sat_add_u64, CMSG_HEADER_BYTES, U64, U64_MAX.
  rewrite !Z.min_r by lia.
  rewrite (proj2 (Z.ltb_lt (zlen before + 8) _)), (proj2 (Z.ltb_lt (zlen before + 8 + 4) _)),
    (proj2 (Z.ltb_lt (zlen before + 12 + 4) _)) by lia. cbn [mbind option_bind].
  unfold message, CMSG_HEADER_BYTES.
  assert (Hv8 : from_le (le_bytes 8 (16 + zlen payload)) = 16 + zlen payload)
    by (apply from_le_le; change (256 ^ Z.of_nat 8) with (2 ^ 64); lia).
  pose proof (from_le_i32_le level Hl) as Hvl. pose proof (from_le_i32_le kind Hk) as Hvk.
  pose proof (zlen_le_bytes 8 (16 + zlen payload)) as H8. pose proof (zlen_le_bytes 4 (level mod 2 ^ 32)) as Hl4.
  pose proof (zlen_le_bytes 4 (kind mod 2 ^ 32)) as Hk4.
  generalize dependent (le_bytes 8 (16 + zlen payload)). intros l8 Hv8 H8.
  generalize dependent (le_bytes 4 (level mod 2 ^ 32)). intros l4 Hvl Hl4.
  generalize dependent (le_bytes 4 (kind mod 2 ^ 32)). intros k4 Hvk Hk4.
  rewrite (get_range_at _ before l8 (l4 ++ k4 ++ payload ++ after) (zlen before) _)
    by (rewrite ?zlen_app, <-?app_assoc; first [done|lia]).
  rewrite (get_range_at _ (before ++ l8) l4 (k4 ++ payload ++ after) (zlen before + 8) _)
    by (rewrite ?zlen_app, <-?app_assoc; first [done|lia]).
  rewrite (get_range_at _ (before ++ l8 ++ l4) k4 (payload ++ after) (zlen before + 12) _)
    by (rewrite ?zlen_app, <-?app_assoc; first [done|lia]).
  cbn [fmap option_fmap option_map result_of_option result_bind].
  rewrite Hv8, Hvl, Hvk.
  rewrite (proj2 (Z.ltb_lt (zlen before + _) _)) by lia. cbn [result_of_option result_bind].
  rewrite (proj2 (Z.ltb_ge (16 + zlen payload) 16)) by lia.
  rewrite !zlen_app, H8, Hl4, Hk4. rewrite (proj2 (Z.ltb_ge _ (zlen before + (16 + zlen payload)))) by lia.
  cbn [orb].
  rewrite (get_range_at _ (before ++ l8 ++ l4 ++ k4) payload after (zlen before + 16) _)
    by (rewrite ?zlen_app, <-?app_assoc; first [done|lia]).
  done.
Qed.

Lemma get_range_concat {A} (l : list A) a b c m k :
  get_range l a b = Some m → get_range l b c = Some k → get_range l a c = Some (m ++ k).
Proof.
  intros (l1 & l2 & -> & <- & Hm)%get_range_split (k1 & k2 & Hk & <- & Hkl)%get_range_split.
  rewrite app_assoc in Hk. apply app_inj_1 in Hk as [<- ->]; [|rewrite length_app; unfold zlen in *; lia].
  apply (get_range_at _ l1 (m ++ k) k2); rewrite ?zlen_app, <-?app_assoc; first [done|lia].
Qed.

Lemma Forall_range {A} (P : A → Prop) (l : list A) first last m :
  Forall P l → get_range l first last = Some m → Forall P m.
Proof. intros Hf (l1 & l2 & -> & _ & _)%get_range_split. rewrite !Forall_app in Hf. apply Hf. Qed.

Lemma message_at_Ok control at_ length_ level kind payload :
  Forall is_byte control → zlen control < 2 ^ 62 → 0 ≤ at_ ≤ zlen control →
  message_at control at_ = Ok (length_, level, kind, payload) →
  ∃ before after, control = before ++ message level kind payload ++ after ∧ zlen before = at_ ∧
    length_ = 16 + zlen payload ∧ in_i32 level ∧ in_i32 kind.
Proof.
  intros Hf Hz Hat. unfold message_at, read_u64, read_i32, usize_checked_add, sat_add_u64, CMSG_HEADER_BYTES, U64, U64_MAX.
  rewrite !Z.min_r by lia.
  rewrite (proj2 (Z.ltb_lt (at_ + 8) _)), (proj2 (Z.ltb_lt (at_ + 8 + 4) _)),
    (proj2 (Z.ltb_lt (at_ + 12 + 4) _)) by lia. cbn [mbind option_bind].
  destruct (get_range control at_ (at_ + 8)) as [l8|] eqn:E8; [|done].
  destruct (get_range control (at_ + 8) (at_ + 8 + 4)) as [l4|] eqn:E4; [|done].
  destruct (get_range control (at_ + 12) (at_ + 12 + 4)) as [k4|] eqn:Ek; [|done].
  cbn [fmap option_fmap option_map result_of_option result_bind].
  destruct (at_ + from_le l8 <? 2 ^ 64) eqn:Ee; [|done]. cbn [result_of_option result_bind].
  destruct (Z.ltb_spec (from_le l8) 16); [done|].
  destruct (Z.ltb_spec (zlen control) (at_ + from_le l8)); [done|]. cbn [orb].
  destruct (get_range control (at_ + 16) (at_ + from_le l8)) as [p|] eqn:Ep; [|done].
  cbn [result_of_option result_bind]. intros [= <- <- <- <-].
  pose proof (Forall_range _ _ _ _ _ Hf E8) as F8. pose proof (Forall_range _ _ _ _ _ Hf E4) as F4.
  pose proof (Forall_range _ _ _ _ _ Hf Ek) as Fk.
  pose proof (get_range_Some _ _ _ _ E8) as [L8 _]. pose proof (get_range_Some _ _ _ _ E4) as [L4 _].
  pose proof (get_range_Some _ _ _ _ Ek) as [Lk _]. pose proof (get_range_Some _ _ _ _ Ep) as [Lp _].
  replace (at_ + 8 + 4) with (at_ + 12) in E4 by lia. replace (at_ + 12 + 4) with (at_ + 16) in Ek by lia.
  pose proof (get_range_concat _ _ _ _ _ _ E8 (get_range_concat _ _ _ _ _ _ E4 (get_range_concat _ _ _ _ _ _ Ek Ep))) as E.
  destruct (get_range_split _ _ _ _ E) as (before & after & -> & Hb & _).
  destruct (from_le_i32_mod l4) as [Hr4 Hm4]; [done|unfold zlen in L4; lia|].
  destruct (from_le_i32_mod k4) as [Hrk Hmk]; [done|unfold zlen in Lk; lia|].
  exists before, after. split; [|split_and!; [done|lia|done|done]].
  unfold message, CMSG_HEADER_BYTES. rewrite Hm4, Hmk. replace (16 + zlen p) with (from_le l8) by lia.
  replace 8%nat with (length l8) by (unfold zlen in L8; lia). rewrite le_from_le by done. by rewrite <-!app_assoc.
Qed.

Lemma take_message_Ok length_ level kind payload credentials security taken :
  length_ = 16 + zlen payload →
  take_message length_ level kind payload credentials security = Ok taken ↔
  level = SOL_SOCKET ∧
    ((kind = SCM_CREDENTIALS ∧ credentials = None ∧
        ∃ c, Credentials_from_bytes payload = Some c ∧ taken = (Some c, security)) ∨
     (kind = SCM_SECURITY ∧ security = None ∧ taken = (credentials, Some payload))).
Proof.
  intros ->. unfold take_message. destruct (Z.eqb_spec level SOL_SOCKET) as [->|Hl]; [|naive_solver]. cbn [andb].
  assert (SCM_CREDENTIALS ≠ SCM_SECURITY) as Hne by done.
  destruct (Z.eqb_spec kind SCM_CREDENTIALS) as [->|Hk].
  - destruct credentials as [c|]; [naive_solver|].
    destruct (Credentials_from_bytes payload) as [c|] eqn:Ec.
    + assert (zlen payload = 12) as ->.
      { unfold Credentials_from_bytes in Ec. by destruct (Z.eqb_spec (zlen payload) CREDENTIALS_BYTES). }
      rewrite bool_decide_true by done. cbn. naive_solver.
    + destruct (negb _); naive_solver.
  - destruct (Z.eqb_spec kind SCM_SECURITY) as [->|Hk']; [|naive_solver]. destruct security; naive_solver.
Qed.

Section loop.
Context (control : list Z) (Hf : Forall is_byte control) (Hz : zlen control < 2 ^ 62).

Lemma loop_end fuel at_ c s : zlen control ≤ at_ → control_loop fuel control at_ c s = Done (c, s).
Proof. intros H. destruct fuel; cbn [control_loop]; by rewrite (proj2 (Z.leb_le _ _)). Qed.

(** A turn that goes on took one message where it stands. *)
Lemma loop_turn fuel at_ c s r :
  0 ≤ at_ < zlen control → control_loop fuel control at_ c s = Done r →
  ∃ fuel' before after level kind payload taken,
    control = before ++ message level kind payload ++ after ∧ zlen before = at_ ∧
    take_message (16 + zlen payload) level kind payload c s = Ok taken ∧
    control_loop fuel' control (at_ + aligned (16 + zlen payload)) taken.1 taken.2 = Done r.
Proof.
  intros Hat. destruct fuel as [|fuel]; cbn [control_loop]; rewrite (proj2 (Z.leb_gt _ _)) by lia; [done|].
  destruct (message_at control at_) as [[[[length_ level] kind] payload]|v] eqn:Em; [|done].
  cbn [run_of_result run_bind].
  destruct (message_at_Ok control at_ _ _ _ _ Hf Hz ltac:(lia) Em) as (before & after & Hc & Hb & -> & _).
  destruct (take_message _ _ _ _ _ _) as [taken|] eqn:Et; [|done]. cbn [run_of_result run_bind].
  assert (zlen before + (16 + zlen payload) ≤ zlen control) as Hle.
  { rewrite Hc, !zlen_app, zlen_message. pose proof (zlen_nonneg after). lia. }
  pose proof (zlen_nonneg payload). pose proof (aligned_bounds (16 + zlen payload) ltac:(lia)).
  rewrite cmsg_align_aligned by lia. cbn [mbind option_bind]. unfold usize_checked_add, U64.
  rewrite (proj2 (Z.ltb_lt (at_ + _) _)) by lia. cbn [result_of_option run_of_result run_bind].
  intros Hr. by exists fuel, before, after, level, kind, payload, taken.
Qed.

Lemma loop_step fuel before level kind payload after c s taken :
  in_i32 level → in_i32 kind → control = before ++ message level kind payload ++ after →
  take_message (16 + zlen payload) level kind payload c s = Ok taken →
  control_loop (S fuel) control (zlen before) c s =
    control_loop fuel control (zlen before + aligned (16 + zlen payload)) taken.1 taken.2.
Proof.
  intros Hl Hk Hc Ht. pose proof (zlen_nonneg before). pose proof (zlen_nonneg payload). pose proof (zlen_nonneg after).
  assert (zlen control = zlen before + (16 + zlen payload) + zlen after) as Hlen
    by (rewrite Hc, !zlen_app, zlen_message; lia).
  pose proof (aligned_bounds (16 + zlen payload) ltac:(lia)).
  cbn [control_loop]. rewrite (proj2 (Z.leb_gt _ _)) by lia.
  replace (message_at control (zlen before)) with
    (@Ok (Z * Z * Z * list Z) ControlViolation.t (16 + zlen payload, level, kind, payload))
    by (symmetry; rewrite Hc; apply message_at_here; [done..|by rewrite <-Hc]).
  cbn [run_of_result run_bind]. rewrite Ht. cbn [run_of_result run_bind].
  rewrite cmsg_align_aligned by lia. cbn [mbind option_bind]. unfold usize_checked_add, U64.
  by rewrite (proj2 (Z.ltb_lt (zlen before + _) _)) by lia.
Qed.

(** Enough fuel: a message is never shorter than its header. *)
Lemma control_loop_runs fuel at_ c s :
  0 ≤ at_ → zlen control - at_ ≤ Z.of_nat fuel → control_loop fuel control at_ c s ≠ OutOfFuel.
Proof.
  revert at_ c s. induction fuel as [|fuel IH]; intros at_ c s Hat Hfuel; cbn [control_loop];
    (destruct (Z.leb_spec (zlen control) at_); [done|]); [lia|].
  destruct (message_at control at_) as [[[[length_ level] kind] payload]|v] eqn:Em; [|done].
  cbn [run_of_result run_bind]. destruct (take_message _ _ _ _ _ _) as [taken|]; [|done].
  cbn [run_of_result run_bind].
  destruct (message_at_Ok control at_ _ _ _ _ Hf Hz ltac:(lia) Em) as (before & after & Hc & Hb & -> & _).
  assert (zlen before + (16 + zlen payload) ≤ zlen control) as Hle.
  { rewrite Hc, !zlen_app, zlen_message. pose proof (zlen_nonneg after). lia. }
  pose proof (zlen_nonneg payload). pose proof (aligned_bounds (16 + zlen payload) ltac:(lia)).
  rewrite cmsg_align_aligned by lia. cbn [mbind option_bind]. unfold usize_checked_add, U64.
  rewrite (proj2 (Z.ltb_lt (at_ + _) _)) by lia. cbn [result_of_option run_of_result run_bind]. apply IH; lia.
Qed.

(** Both messages taken: the control bytes end there. *)
Lemma loop_full fuel at_ c s r :
  0 ≤ at_ → control_loop fuel control at_ (Some c) (Some s) = Done r → zlen control ≤ at_ ∧ r = (Some c, Some s).
Proof.
  intros Hat Hr. destruct (decide (zlen control ≤ at_)) as [Hle|Hgt].
  { rewrite loop_end in Hr by done. by simplify_eq. }
  destruct (loop_turn fuel at_ (Some c) (Some s) r ltac:(lia) Hr) as (? & ? & ? & level & kind & payload & taken & _ & _ & Ht & _).
  apply take_message_Ok in Ht; naive_solver.
Qed.

(** The second message follows the padding of the first. *)
Lemma second_message fuel m1 after1 c s r :
  control = m1 ++ after1 → zlen m1 ≤ aligned (zlen m1) →
  control_loop fuel control (aligned (zlen m1)) c s = Done r → r.1 ≠ c ∨ r.2 ≠ s →
  ∃ fuel' padding level kind payload after taken,
    control = m1 ++ padding ++ message level kind payload ++ after ∧
    zlen m1 + zlen padding = aligned (zlen m1) ∧
    take_message (16 + zlen payload) level kind payload c s = Ok taken ∧
    control_loop fuel' control (aligned (zlen m1) + aligned (16 + zlen payload)) taken.1 taken.2 = Done r.
Proof.
  intros Hc Hal Hr Hne. pose proof (zlen_nonneg m1).
  destruct (decide (zlen control ≤ aligned (zlen m1))) as [Hle|Hgt].
  { rewrite loop_end in Hr by done. simplify_eq. simpl in Hne. tauto. }
  destruct (loop_turn fuel (aligned (zlen m1)) c s r ltac:(lia) Hr)
    as (fuel' & before & after & level & kind & payload & taken & Hc2 & Hb & Ht & Hr').
  assert (∃ padding, before = m1 ++ padding) as [padding ->].
  { exists (drop (length m1) before). rewrite <-(take_drop (length m1) before) at 1. f_equal.
    transitivity (take (length m1) control); [|rewrite Hc; apply take_app_length].
    rewrite Hc2. symmetry. apply take_app_le. unfold zlen in *. lia. }
  exists fuel', padding, level, kind, payload, after, taken. rewrite zlen_app in Hb.
  split_and!; [by rewrite <-app_assoc in Hc2|done..].
Qed.
End loop.

Lemma i32_constants : in_i32 SOL_SOCKET ∧ in_i32 SCM_CREDENTIALS ∧ in_i32 SCM_SECURITY.
Proof. unfold in_i32, SOL_SOCKET, SCM_CREDENTIALS, SCM_SECURITY. lia. Qed.

Lemma delivery_of_loop control fuel c s :
  Forall is_byte control → zlen control < 2 ^ 62 →
  control_loop fuel control 0 None None = Done (Some c, Some s) →
  ∃ payload, Credentials_from_bytes payload = Some c ∧ delivery payload s control.
Proof.
  intros Hf Hz Hr. destruct (decide (zlen control ≤ 0)) as [Hle|Hgt].
  { rewrite loop_end in Hr by done. done. }
  destruct (loop_turn control Hf Hz _ 0 _ _ _ ltac:(lia) Hr)
    as (fuel1 & before & after1 & level & kind & p1 & taken & Hc & Hb & Ht & Hr1).
  apply zlen_nil in Hb as ->. cbn [app] in Hc. pose proof (zlen_nonneg p1).
  pose proof (aligned_bounds (16 + zlen p1) ltac:(lia)) as Hal1. rewrite Z.add_0_l in Hr1.
  rewrite <-(zlen_message level kind p1) in Hr1.
  apply take_message_Ok in Ht as (-> & Ht); [|done]. destruct Ht as [(-> & _ & c' & Hc' & ->)|(-> & _ & ->)]; cbn [fst snd] in Hr1;
    (destruct (second_message control Hf Hz _ _ _ _ _ _ Hc ltac:(by rewrite zlen_message; lia) Hr1 ltac:(first [by left|by right]))
      as (fuel2 & padding & level & kind & p2 & after & taken & Hc2 & Hpad & Ht & Hr2));
    pose proof (zlen_nonneg p2); pose proof (aligned_bounds (16 + zlen p2) ltac:(lia)) as Hal2;
    apply take_message_Ok in Ht as (-> & Ht); try done; 
    destruct Ht as [(-> & ? & c2 & Hc'2 & ->)|(-> & ? & ->)]; try done; cbn [fst snd] in Hr2;
    (apply loop_full in Hr2 as [Hend Hr2]; [|done|done|rewrite zlen_message; lia]); simplify_eq Hr2; intros; subst;
    rewrite Hc2, !zlen_app, !zlen_message in Hend; rewrite zlen_message in Hpad; rewrite Hc2.
  - exists p1. split; [done|]. apply credentials_first; rewrite !zlen_message; lia.
  - exists p2. split; [done|]. apply security_first; rewrite !zlen_message; lia.
Qed.

Lemma loop_of_delivery control payload c s :
  Forall is_byte control → zlen control < 2 ^ 62 → Credentials_from_bytes payload = Some c →
  delivery payload s control → control_loop (length control) control 0 None None = Done (Some c, Some s).
Proof.
  intros Hf Hz Hc Hd. destruct i32_constants as (Hl & Hk2 & Hk3).
  assert (32 ≤ zlen control) as Hlen.
  { destruct Hd; rewrite !zlen_app, !zlen_message; pose proof (zlen_nonneg s); pose proof (zlen_nonneg payload);
      pose proof (zlen_nonneg padding); pose proof (zlen_nonneg tail); lia. }
  destruct (length control) as [|[|fuel]] eqn:Ef; [unfold zlen in Hlen; lia..|]. clear Ef Hlen.
  inversion Hd as [padding tail Hp Ht Hcontrol|padding tail Hp Ht Hcontrol]; rewrite Hcontrol in *.
  - etransitivity; [apply (loop_step control Hz (S fuel) [] SOL_SOCKET SCM_CREDENTIALS payload
      (padding ++ message SOL_SOCKET SCM_SECURITY s ++ tail) None None (Some c, None)); [done..|by rewrite Hcontrol|]|].
    { apply take_message_Ok; [done|]. split; [done|]. left. eauto. }
    cbn [fst snd]. rewrite zlen_message in Hp. change (zlen []) with 0. rewrite Z.add_0_l, <-Hp.
    rewrite <-(zlen_message SOL_SOCKET SCM_CREDENTIALS payload), <-zlen_app.
    rewrite (loop_step control Hz fuel _ SOL_SOCKET SCM_SECURITY s tail (Some c) None (Some c, Some s));
      [|done..|by rewrite <-Hcontrol, <-!app_assoc|apply take_message_Ok; [done|]; split; [done|]; right; eauto].
    cbn [fst snd]. apply loop_end. rewrite <-Hcontrol, !zlen_app. rewrite !zlen_message in *. lia.
  - etransitivity; [apply (loop_step control Hz (S fuel) [] SOL_SOCKET SCM_SECURITY s
      (padding ++ message SOL_SOCKET SCM_CREDENTIALS payload ++ tail) None None (None, Some s)); [done..|by rewrite Hcontrol|]|].
    { apply take_message_Ok; [done|]. split; [done|]. right. eauto. }
    cbn [fst snd]. rewrite zlen_message in Hp. change (zlen []) with 0. rewrite Z.add_0_l, <-Hp.
    rewrite <-(zlen_message SOL_SOCKET SCM_SECURITY s), <-zlen_app.
    rewrite (loop_step control Hz fuel _ SOL_SOCKET SCM_CREDENTIALS payload tail None (Some s) (Some c, Some s));
      [|done..|by rewrite <-Hcontrol, <-!app_assoc|apply take_message_Ok; [done|]; split; [done|]; left; eauto].
    cbn [fst snd]. apply loop_end. rewrite <-Hcontrol, !zlen_app. rewrite !zlen_message in *. lia.
Qed.

(** A datagram's control bytes are accepted exactly when the kernel cut nothing off and they are one credentials
    message and one security message, in either order and with nothing else, the last one's padding whole, partial or
    absent: no descriptor, no repeated message and no message of another level or kind is ever accepted.  What is
    accepted is exactly what the two messages carried. *)
Theorem parse_control_accepts control truncated c s :
  Forall is_byte control → zlen control < 2 ^ 62 →
  parse_control control truncated = Ok (mkControl c s) ↔
  truncated = false ∧ ∃ payload, Credentials_from_bytes payload = Some c ∧ delivery payload s control.
Proof.
  intros Hf Hz. unfold parse_control. destruct truncated; [by split; [|intros [? _]]|].
  pose proof (control_loop_runs control Hf Hz (length control) 0 None None ltac:(lia) ltac:(unfold zlen; lia)) as Hrun.
  split.
  - destruct (control_loop _ _ _ _ _) as [[c' s']|v|] eqn:Er; [|done..].
    destruct c' as [c'|], s' as [s'|]; try done. cbn [result_of_option result_bind]. intros [= -> ->].
    split; [done|]. by apply (delivery_of_loop control (length control)).
  - intros (_ & payload & Hc & Hd). by rewrite (loop_of_delivery control payload c s) by done.
Qed.

Lemma parse_control_accepts_witness :
  let control := message 1 3 (bytes_of "s0") ++ replicate 6 0 ++ message 1 2 (replicate 11 0 ++ [7]) in
  Forall is_byte control ∧
  parse_control control false = Ok (mkControl (mkCredentials 0 0 (7 * 2 ^ 24)) (bytes_of "s0")).
Proof.
  set (control := _ ++ _ ++ _).
  assert (Forall is_byte control) as Hf by (vm_compute; repeat constructor; discriminate).
  split; [exact Hf|]. apply (parse_control_accepts control); [exact Hf|reflexivity|].
  split; [reflexivity|]. exists (replicate 11 0 ++ [7]). split; [reflexivity|].
  unfold control. rewrite <-(app_nil_r (message 1 2 _)). apply security_first; [reflexivity|].
  vm_compute. discriminate.
Defined.

(** The receive buffer for an accepted label of [length_] bytes holds every delivery with a label of that length, and
    no delivery followed by the header of a further message. *)
Lemma control_capacity_exact length_ capacity payload s control :
  control_capacity length_ = Some capacity → zlen payload = CREDENTIALS_BYTES → zlen s = length_ →
  delivery payload s control → zlen control ≤ capacity < zlen control + CMSG_HEADER_BYTES.
Proof.
  unfold control_capacity. destruct (_ || _) eqn:E; [done|].
  apply orb_false_iff in E as [E1%Z.eqb_neq E2%Z.ltb_ge]. unfold LABEL_LIMIT in E2.
  intros Hc Hp Hs Hd. pose proof (zlen_nonneg s). unfold cmsg_space in Hc.
  rewrite !cmsg_align_aligned in Hc by (unfold CREDENTIALS_BYTES; lia).
  pose proof (aligned_bounds length_ ltac:(lia)). change (aligned CREDENTIALS_BYTES) with 16 in Hc.
  cbn [mbind option_bind] in Hc. unfold usize_checked_add, CMSG_HEADER_BYTES, U64 in *.
  rewrite (proj2 (Z.ltb_lt (16 + 16) _)), (proj2 (Z.ltb_lt (16 + aligned _) _)) in Hc by lia.
  cbn [mbind option_bind] in Hc. rewrite (proj2 (Z.ltb_lt _ _)) in Hc by lia. injection Hc as <-.
  unfold CREDENTIALS_BYTES in Hp.
  assert (aligned (16 + length_) = 16 + aligned length_) as Hal by (unfold aligned; Z.div_mod_to_equations; lia).
  destruct Hd as [padding tail H1 H2|padding tail H1 H2]; rewrite !zlen_app; rewrite !zlen_message, ?Hs, ?Hp, ?Hal in *;
    change (aligned (16 + 12)) with 32 in *; pose proof (zlen_nonneg padding); pose proof (zlen_nonneg tail); lia.
Qed.
