(* ===== verification/Http1.v ===== *)
(** * HTTP/1.1 on I04 ([host-enforcement/crates/gate-tls/src/http1.rs])

    Request framing, response rendering, and the incremental reader of the upstream's answer.
    Bytes are [list Z]; a [usize] length is a [Z] from [zlen].  [String::from_utf8_lossy] is the
    standard library's: every maximal ill-formed part becomes one U+FFFD. *)

From S2P Require Import Prelude Slices Sha256 Json Observation Inet.
Definition HEAD_LIMIT : Z := 16384.
Definition BODY_LIMIT : Z := 16384.
Definition RESPONSE_BODY_LIMIT : Z := 4194304.

Definition CR : Z := 13.
Definition LF : Z := 10.
Definition CRLF : list Z := [CR; LF].
(** [b"\r\n\r\n"] *)
Definition HEAD_END : list Z := CRLF ++ CRLF.

(** ** Byte slices of the standard library *)

(** [strip_prefix] of a literal, [strip_suffix(b"\r").unwrap_or(line)], [ends_with] *)
Definition strip_prefix (prefix l : list Z) : option (list Z) :=
  if starts_with prefix l then Some (drop (length prefix) l) else None.
Definition strip_cr (line : list Z) : list Z := default line (strip_suffix_byte CR line).
Definition ends_with (suffix l : list Z) : bool :=
  bool_decide (suffix = drop (length l - length suffix) l) && Nat.leb (length suffix) (length l).

(** [to_ascii_lowercase], [eq_ignore_ascii_case], [trim_ascii] *)
Definition lower_byte (b : Z) : Z := if (65 <=? b) && (b <=? 90) then b + 32 else b.
Definition to_ascii_lowercase (l : list Z) : list Z := map lower_byte l.
Definition eq_ignore_ascii_case (l k : list Z) : bool :=
  bool_decide (to_ascii_lowercase l = to_ascii_lowercase k).
Definition is_ascii_whitespace (b : Z) : bool := (b =? 32) || (b =? 9) || (b =? 10) || (b =? 12) || (b =? 13).
Fixpoint trim_start (l : list Z) : list Z :=
  match l with
  | [] => []
  | b :: l' => if is_ascii_whitespace b then trim_start l' else l
  end.
Definition trim_ascii (l : list Z) : list Z := rev (trim_start (rev (trim_start l))).

(** [windows(4).position(|four| four == b"\r\n\r\n")] *)
Fixpoint find_head_end (l : list Z) : option nat :=
  match l with
  | [] => None
  | _ :: l' => if starts_with HEAD_END l then Some O else S <$> find_head_end l'
  end.

(** How many bytes the next part of [l] has, and whether it is one well-formed character
    ([Utf8Chunks]: an ill-formed part ends before the first byte that cannot continue it). *)
Definition second_in_range (b c : Z) : bool :=
  if b =? 224 then (160 <=? c) && (c <=? 191)
  else if b =? 237 then (128 <=? c) && (c <=? 159)
  else if b =? 240 then (144 <=? c) && (c <=? 191)
  else if b =? 244 then (128 <=? c) && (c <=? 143)
  else continuation c.

Definition utf8_part (l : list Z) : nat * bool :=
  match l with
  | [] => (0%nat, true)
  | b :: l1 =>
      if b <? 128 then (1%nat, true)
      else
        let second := match l1 with c :: _ => second_in_range b c | [] => false end in
        let third := match l1 with _ :: c :: _ => continuation c | _ => false end in
        let fourth := match l1 with _ :: _ :: c :: _ => continuation c | _ => false end in
        if (194 <=? b) && (b <=? 223) then if second then (2%nat, true) else (1%nat, false)
        else if (224 <=? b) && (b <=? 239) then
          if negb second then (1%nat, false) else if third then (3%nat, true) else (2%nat, false)
        else if (240 <=? b) && (b <=? 244) then
          if negb second then (1%nat, false)
          else if negb third then (2%nat, false) else if fourth then (4%nat, true) else (3%nat, false)
        else (1%nat, false)
  end.

Definition REPLACEMENT : list Z := [0xEF; 0xBF; 0xBD].

(** A part has at least one byte, so as many turns as bytes are enough. *)
Fixpoint lossy_loop (fuel : nat) (l : list Z) : list Z :=
  match fuel, l with
  | S fuel, _ :: _ =>
      let '(n, valid) := utf8_part l in
      (if valid then take n l else REPLACEMENT) ++ lossy_loop fuel (drop n l)
  | _, _ => []
  end.

Definition from_utf8_lossy (l : list Z) : string := string_of (lossy_loop (length l) l).

(** ** Request framing *)

Module HttpFrame.
Inductive t :=
| NeedMore
| OversizeHead
| Request (head : string) (body : list Z) (body_digest : option string).
#[global] Instance t_eq_dec : EqDecision t.
Proof. solve_decision. Defined.
End HttpFrame.

(** The length lines of a head, after its first line. *)
Definition is_length_line (line : list Z) : bool :=
  let lower := to_ascii_lowercase line in
  starts_with (bytes_of "content-length") lower || starts_with (bytes_of "transfer-encoding") lower.

Definition length_lines (head : list Z) : list (list Z) :=
  List.filter is_length_line (map strip_cr (drop 1 (split_on LF head))).

(** A [Content-Length] value: one to five digits without a leading zero. *)
Definition canonical_length (digits : list Z) : bool :=
  negb (bool_decide (digits = [])) && Nat.leb (length digits) 5 && forallb is_digit digits
  && (Nat.eqb (length digits) 1 || negb (bool_decide (head digits = Some 48))).

(** The body length a head's length lines give; [Err] for a head that can never be framed. *)
Definition body_length (head : list Z) : result (option Z) unit :=
  match length_lines head with
  | [] => Ok None
  | [line] =>
      match strip_prefix (bytes_of "Content-Length: ") line with
      | None => Err tt
      | Some digits =>
          if negb (canonical_length digits) then Err tt
          else
            let value := digits_value digits in
            if BODY_LIMIT <? value then Err tt else Ok (Some value)
      end
  | _ => Err tt
  end.

Definition frame (received : list Z) : HttpFrame.t :=
  let window := take (Z.to_nat (Z.min (zlen received) HEAD_LIMIT)) received in
  match find_head_end window with
  | None => if HEAD_LIMIT <=? zlen received then HttpFrame.OversizeHead else HttpFrame.NeedMore
  | Some position =>
      let end_ := (position + 4)%nat in
      let head_bytes := take end_ received in
      let head := from_utf8_lossy head_bytes in
      match body_length head_bytes with
      | Err _ => HttpFrame.Request head [] None
      | Ok None => HttpFrame.Request head [] None
      | Ok (Some length_) =>
          match get_range received (Z.of_nat end_) (Z.of_nat end_ + length_) with
          | Some body => HttpFrame.Request head body (Some (prefixed body))
          | None => HttpFrame.NeedMore
          end
      end
  end.

(** ** Response rendering *)

Module RenderRefusal.
Inductive t := Status | Size | Body.
#[global] Instance t_eq_dec : EqDecision t.
Proof. solve_decision. Defined.
End RenderRefusal.

Definition reason (status : Z) : string :=
  match status with
  | 200 => "OK"
  | 201 => "Created"
  | 202 => "Accepted"
  | 203 => "Non-Authoritative Information"
  | 204 => "No Content"
  | 205 => "Reset Content"
  | 206 => "Partial Content"
  | 300 => "Multiple Choices"
  | 301 => "Moved Permanently"
  | 302 => "Found"
  | 303 => "See Other"
  | 304 => "Not Modified"
  | 305 => "Use Proxy"
  | 307 => "Temporary Redirect"
  | 308 => "Permanent Redirect"
  | 400 => "Bad Request"
  | 401 => "Unauthorized"
  | 402 => "Payment Required"
  | 403 => "Forbidden"
  | 404 => "Not Found"
  | 405 => "Method Not Allowed"
  | 406 => "Not Acceptable"
  | 407 => "Proxy Authentication Required"
  | 408 => "Request Timeout"
  | 409 => "Conflict"
  | 410 => "Gone"
  | 411 => "Length Required"
  | 412 => "Precondition Failed"
  | 413 => "Content Too Large"
  | 414 => "URI Too Long"
  | 415 => "Unsupported Media Type"
  | 416 => "Range Not Satisfiable"
  | 417 => "Expectation Failed"
  | 421 => "Misdirected Request"
  | 422 => "Unprocessable Content"
  | 426 => "Upgrade Required"
  | 500 => "Internal Server Error"
  | 501 => "Not Implemented"
  | 502 => "Bad Gateway"
  | 503 => "Service Unavailable"
  | 504 => "Gateway Timeout"
  | 505 => "HTTP Version Not Supported"
  | _ => ""
  end.

Definition render_response (status : Z) (body : list Z) : result (list Z) RenderRefusal.t :=
  if negb ((200 <=? status) && (status <=? 599)) then Err RenderRefusal.Status
  else if RESPONSE_BODY_LIMIT <? zlen body then Err RenderRefusal.Size
  else
    let no_length := (status =? 204) || (status =? 304) in
    if no_length && negb (bool_decide (body = [])) then Err RenderRefusal.Body
    else
      let head := bytes_of "HTTP/1.1 " ++ decimal status ++ [32] ++ bytes_of (reason status) ++ CRLF
                  ++ bytes_of "Content-Type: application/json" ++ CRLF in
      let head := if negb no_length
                  then head ++ bytes_of "Content-Length: " ++ decimal (zlen body) ++ CRLF else head in
      let head := head ++ bytes_of "Connection: close" ++ CRLF ++ CRLF in
      Ok (head ++ body).

(** ** The upstream answer *)

Definition INTERIM_LIMIT : Z := 4.
Definition CHUNKED_RAW_LIMIT : Z := RESPONSE_BODY_LIMIT + 64 * 1024.
Definition CHUNK_SIZE_DIGITS : Z := 7.
Definition LENGTH_DIGITS : nat := 7.

Module ResponseRefusal.
Inductive t := StatusLine | Interim | HeadSize | Field | Length | Coding | Body | Chunk | Size | Surplus.
#[global] Instance t_eq_dec : EqDecision t.
Proof. solve_decision. Defined.
End ResponseRefusal.

Module ResponseProgress.
Inductive t := NeedMore | Complete | Refused (refusal : ResponseRefusal.t).
#[global] Instance t_eq_dec : EqDecision t.
Proof. solve_decision. Defined.
End ResponseProgress.

Module Chunk.
Inductive t :=
| Size (digits value : Z)
| SizeLf (size : Z)
| Data (left_ : Z)
| DataCr
| DataLf
| EndCr
| EndLf.
#[global] Instance t_eq_dec : EqDecision t.
Proof. solve_decision. Defined.
End Chunk.

Module Stage.
Inductive t := Head | Length (left_ : Z) | Chunked (chunk : Chunk.t) | Done | Refused (refusal : ResponseRefusal.t).
#[global] Instance t_eq_dec : EqDecision t.
Proof. solve_decision. Defined.
End Stage.

Record ResponseReader := mkReader {
  rr_stage : Stage.t;
  rr_head : list Z;
  rr_heads : Z;
  rr_interim : Z;
  rr_status : Z;
  rr_body : list Z;
  rr_raw : Z
}.

Definition ResponseReader_new : ResponseReader := mkReader Stage.Head [] 0 0 0 [] 0.

Definition with_stage (s : Stage.t) (r : ResponseReader) : ResponseReader :=
  mkReader s (rr_head r) (rr_heads r) (rr_interim r) (rr_status r) (rr_body r) (rr_raw r).
Definition with_head (head : list Z) (r : ResponseReader) : ResponseReader :=
  mkReader (rr_stage r) head (rr_heads r) (rr_interim r) (rr_status r) (rr_body r) (rr_raw r).
Definition with_heads (heads : Z) (r : ResponseReader) : ResponseReader :=
  mkReader (rr_stage r) (rr_head r) heads (rr_interim r) (rr_status r) (rr_body r) (rr_raw r).
Definition with_interim (interim : Z) (r : ResponseReader) : ResponseReader :=
  mkReader (rr_stage r) (rr_head r) (rr_heads r) interim (rr_status r) (rr_body r) (rr_raw r).
Definition with_status (status : Z) (r : ResponseReader) : ResponseReader :=
  mkReader (rr_stage r) (rr_head r) (rr_heads r) (rr_interim r) status (rr_body r) (rr_raw r).
Definition with_body (body : list Z) (r : ResponseReader) : ResponseReader :=
  mkReader (rr_stage r) (rr_head r) (rr_heads r) (rr_interim r) (rr_status r) body (rr_raw r).
Definition with_raw (raw : Z) (r : ResponseReader) : ResponseReader :=
  mkReader (rr_stage r) (rr_head r) (rr_heads r) (rr_interim r) (rr_status r) (rr_body r) raw.

(** The value of a field line whose name equals [name], with optional whitespace trimmed. *)
Definition field_value (line name : list Z) : option (list Z) :=
  let* colon := position (λ byte, byte =? 58) line in
  if negb (eq_ignore_ascii_case (take colon line) name) then None
  else Some (trim_ascii (drop (S colon) line)).

Definition is_ascii_alphanumeric (b : Z) : bool :=
  is_digit b || ((65 <=? b) && (b <=? 90)) || ((97 <=? b) && (b <=? 122)).
Definition is_tchar (byte : Z) : bool :=
  is_ascii_alphanumeric byte || bool_decide (byte ∈ bytes_of "!#$%&'*+-.^_`|~").

(** Tabs, spaces, visible bytes and obs-text. *)
Definition is_field_byte (byte : Z) : bool :=
  (byte =? 9) || (byte =? 32) || ((0x21 <=? byte) && (byte <=? 0x7E)) || (0x80 <=? byte).

Definition field_line_ok (line : list Z) : bool :=
  match position (λ byte, byte =? 58) line with
  | None => false
  | Some colon =>
      Nat.ltb 0 colon && forallb is_tchar (take colon line) && forallb is_field_byte (drop (S colon) line)
  end.

Definition status_line (line : list Z) : option Z :=
  let* rest := strip_prefix (bytes_of "HTTP/1.1 ") line in
  let* digits := get_range rest 0 3 in
  let* reason := get_range rest 3 (zlen rest) in
  let* reason := strip_prefix [32] reason in
  if negb (forallb is_digit digits) || negb (forallb is_field_byte reason) then None
  else
    let status := digits_value digits in
    if (100 <=? status) && (status <=? 599) then Some status else None.

Definition progress (r : ResponseReader) : ResponseProgress.t :=
  match rr_stage r with
  | Stage.Done => ResponseProgress.Complete
  | Stage.Refused refusal => ResponseProgress.Refused refusal
  | _ => ResponseProgress.NeedMore
  end.

Definition answer (r : ResponseReader) : option (Z * list Z) :=
  if bool_decide (rr_stage r = Stage.Done) then Some (rr_status r, rr_body r) else None.

Definition refuse (refusal : ResponseRefusal.t) (r : ResponseReader) : ResponseReader * ResponseProgress.t :=
  (with_head [] (with_body [] (with_stage (Stage.Refused refusal) r)), ResponseProgress.Refused refusal).

(** One step of the chunked decoder over [byte :: rest]: the reader and how many bytes it took. *)
Definition chunked (chunk : Chunk.t) (byte : Z) (rest : list Z) (r : ResponseReader)
    : result (ResponseReader * Z) ResponseRefusal.t :=
  let next chunk := Ok (with_stage (Stage.Chunked chunk) r, 1) in
  match chunk with
  | Chunk.Size digits value =>
      if (byte =? CR) && (0 <? digits) then next (Chunk.SizeLf value)
      else if is_hexdigit byte && (digits <? CHUNK_SIZE_DIGITS)
      then next (Chunk.Size (digits + 1) (value * 16 + hexdigit_value byte))
      else Err ResponseRefusal.Chunk
  | Chunk.SizeLf size =>
      if byte =? LF then
        if size =? 0 then next Chunk.EndCr
        else if RESPONSE_BODY_LIMIT <? sat_add_u64 (zlen (rr_body r)) size then Err ResponseRefusal.Size
        else next (Chunk.Data size)
      else Err ResponseRefusal.Chunk
  | Chunk.Data left_ =>
      let bytes := byte :: rest in
      let taken := Z.min left_ (zlen bytes) in
      let r := with_body (rr_body r ++ take (Z.to_nat taken) bytes) r in
      let chunk := if left_ =? taken then Chunk.DataCr else Chunk.Data (left_ - taken) in
      Ok (with_stage (Stage.Chunked chunk) r, taken)
  | Chunk.DataCr => if byte =? CR then next Chunk.DataLf else Err ResponseRefusal.Chunk
  | Chunk.DataLf => if byte =? LF then next (Chunk.Size 0 0) else Err ResponseRefusal.Chunk
  | Chunk.EndCr => if byte =? CR then next Chunk.EndLf else Err ResponseRefusal.Chunk
  | Chunk.EndLf =>
      if byte =? LF then Ok (with_stage Stage.Done r, 1) else Err ResponseRefusal.Chunk
  end.

(** The status and the field lines of a head's text, line by line. *)
Fixpoint head_lines (index : nat) (lines : list (list Z)) (status : option Z) (fields : list (list Z))
    : result (option Z * list (list Z)) ResponseRefusal.t :=
  match lines with
  | [] => Ok (status, fields)
  | line :: lines =>
      let? line :=
        if bool_decide (lines = []) then Ok line
        else result_of_option (strip_suffix_byte CR line) ResponseRefusal.Field in
      if bool_decide (CR ∈ line) then Err ResponseRefusal.Field
      else if Nat.eqb index 0 then
        let? status := result_of_option (status_line line) ResponseRefusal.StatusLine in
        head_lines (S index) lines (Some status) fields
      else if field_line_ok line then head_lines (S index) lines status (fields ++ [line])
      else Err ResponseRefusal.Field
  end.

(** The framing a final head's field lines give. *)
Fixpoint framing_fields (fields : list (list Z)) (length_ : option Z) (is_chunked : bool)
    : result (option Z * bool) ResponseRefusal.t :=
  match fields with
  | [] => Ok (length_, is_chunked)
  | line :: fields =>
      match field_value line (bytes_of "content-length") with
      | Some value =>
          if bool_decide (is_Some length_) || bool_decide (value = []) || Nat.ltb LENGTH_DIGITS (length value)
             || negb (forallb is_digit value)
          then Err ResponseRefusal.Length
          else
            let parsed := digits_value value in
            if RESPONSE_BODY_LIMIT <? parsed then Err ResponseRefusal.Length
            else framing_fields fields (Some parsed) is_chunked
      | None =>
          match field_value line (bytes_of "transfer-encoding") with
          | Some value =>
              if is_chunked then Err ResponseRefusal.Length
              else if negb (eq_ignore_ascii_case value (bytes_of "chunked")) then Err ResponseRefusal.Coding
              else framing_fields fields length_ true
          | None =>
              match field_value line (bytes_of "content-encoding") with
              | Some value =>
                  if negb (eq_ignore_ascii_case value (bytes_of "identity")) then Err ResponseRefusal.Coding
                  else framing_fields fields length_ is_chunked
              | None => framing_fields fields length_ is_chunked
              end
          end
      end
  end.

Definition body_stage (status : Z) (length_ : option Z) (is_chunked : bool) : result Stage.t ResponseRefusal.t :=
  let no_body := (status =? 204) || (status =? 304) in
  match length_, is_chunked with
  | Some 0, false => Ok Stage.Done
  | None, false => if no_body then Ok Stage.Done else Err ResponseRefusal.Body
  | Some left_, false => if no_body then Err ResponseRefusal.Body else Ok (Stage.Length left_)
  | None, true => if no_body then Err ResponseRefusal.Body else Ok (Stage.Chunked (Chunk.Size 0 0))
  | Some _, true => Err ResponseRefusal.Body
  end.

(** A head ended: an interim answer is skipped, a final one picks the body's framing. *)
Definition end_of_head (r : ResponseReader) : ResponseReader * result unit ResponseRefusal.t :=
  let head := rr_head r in
  let r := with_head [] r in
  let r := with_heads (rr_heads r + zlen head) r in
  let text := take (length head - 4) head in
  match head_lines 0 (split_on LF text) None [] with
  | Err refusal => (r, Err refusal)
  | Ok (None, _) => (r, Err ResponseRefusal.StatusLine)
  | Ok (Some status, fields) =>
      if (status =? 100) || (status =? 102) || (status =? 103) then
        let r := with_interim (rr_interim r + 1) r in
        (r, if INTERIM_LIMIT <? rr_interim r then Err ResponseRefusal.Interim else Ok tt)
      else if (101 <=? status) && (status <=? 199) then (r, Err ResponseRefusal.Interim)
      else
        let r := with_status status r in
        match framing_fields fields None false with
        | Err refusal => (r, Err refusal)
        | Ok (length_, is_chunked) =>
            if is_chunked && bool_decide (is_Some length_) then (r, Err ResponseRefusal.Length)
            else
              match body_stage status length_ is_chunked with
              | Err refusal => (r, Err refusal)
              | Ok stage => (with_stage stage r, Ok tt)
              end
        end
  end.

(** One turn of the reader's loop over [byte :: rest]: the bytes still to read, or the answer. *)
Definition turn (byte : Z) (rest : list Z) (r : ResponseReader)
    : ResponseReader * (list Z + ResponseProgress.t) :=
  let refused refusal r := let '(r, p) := refuse refusal r in (r, inr p) in
  match rr_stage r with
  | Stage.Refused refusal => (r, inr (ResponseProgress.Refused refusal))
  | Stage.Done => refused ResponseRefusal.Surplus r
  | Stage.Head =>
      let r := with_head (rr_head r ++ [byte]) r in
      if HEAD_LIMIT <? rr_heads r + zlen (rr_head r) then refused ResponseRefusal.HeadSize r
      else if ends_with HEAD_END (rr_head r) then
        match end_of_head r with
        | (r, Err refusal) => refused refusal r
        | (r, Ok _) => (r, inl rest)
        end
      else (r, inl rest)
  | Stage.Length left_ =>
      let bytes := byte :: rest in
      let taken := Z.min left_ (zlen bytes) in
      let r := with_body (rr_body r ++ take (Z.to_nat taken) bytes) r in
      let stage := if left_ =? taken then Stage.Done else Stage.Length (left_ - taken) in
      (with_stage stage r, inl (drop (Z.to_nat taken) bytes))
  | Stage.Chunked chunk =>
      match chunked chunk byte rest r with
      | Err refusal => refused refusal r
      | Ok (r, taken) =>
          let r := with_raw (sat_add_u64 (rr_raw r) taken) r in
          if CHUNKED_RAW_LIMIT <? rr_raw r then refused ResponseRefusal.Size r
          else (r, inl (drop (Z.to_nat taken) (byte :: rest)))
      end
  end.

Fixpoint push_loop (fuel : nat) (r : ResponseReader) (bytes : list Z)
    : run (ResponseReader * ResponseProgress.t) Empty_set :=
  match bytes with
  | [] => Done (r, progress r)
  | byte :: rest =>
      match fuel with
      | O => OutOfFuel
      | S fuel =>
          match turn byte rest r with
          | (r, inr p) => Done (r, p)
          | (r, inl bytes) => push_loop fuel r bytes
          end
      end
  end.

(** Two turns a byte, and one more, are always enough ([push_loop_returns]). *)
Definition push (bytes : list Z) (r : ResponseReader) : ResponseReader * ResponseProgress.t :=
  match push_loop (S (2 * length bytes)) r bytes with
  | Done out => out
  | _ => (r, progress r)
  end.
