(* ===== verification/Http1Reader.v ===== *)
(** * The upstream's answer, read in pieces: the reader and what it accepts

    The loop ends, the pieces the bytes come in do not matter, nothing is buffered past the
    limits, and a complete answer is exactly one the grammar [response_text] describes. *)

From S2P Require Import Prelude Slices Json Observation Inet Http1.
(** ** The loop ends *)

Definition idle (r : ResponseReader) : bool :=
  match rr_stage r with
  | Stage.Length left_ => left_ <=? 0
  | Stage.Chunked (Chunk.Data left_) => left_ <=? 0
  | _ => false
  end.

Definition turns (r : ResponseReader) (bytes : list Z) : nat := 2 * length bytes + (if idle r then 1 else 0).

Lemma turns_bounds r l : (2 * length l ≤ turns r l ≤ S (2 * length l))%nat.
Proof. unfold turns. destruct (idle r); lia. Qed.

(** A turn that takes nothing leaves a stage that takes something. *)
Lemma taken_drop {A} (x : A) l (k : Z) :
  let taken := Z.min k (zlen (x :: l)) in
  length (drop (Z.to_nat taken) (x :: l)) = (S (length l) - Z.to_nat taken)%nat ∧
  (k ≤ 0 → taken = k) ∧ (0 < k → 0 < taken).
Proof.
  cbv zeta. rewrite length_drop. pose proof (zlen_nonneg l). rewrite zlen_cons. simpl. repeat split; lia.
Qed.

(** What a turn of the chunked decoder takes. *)
Lemma chunked_taken c x l r r' n :
  chunked c x l r = Ok (r', n) →
  (∃ left_, c = Chunk.Data left_ ∧ n = Z.min left_ (zlen (x :: l)) ∧
     r' = with_stage (Stage.Chunked (if left_ =? n then Chunk.DataCr else Chunk.Data (left_ - n)))
            (with_body (rr_body r ++ take (Z.to_nat n) (x :: l)) r)) ∨
  (n = 1 ∧ (∀ left_, c ≠ Chunk.Data left_) ∧ ∃ stage, r' = with_stage stage r).
Proof.
  destruct c as [| |k| | | |].
  3: { intros [= <- <-]. left. by exists k. }
  all: unfold chunked; intros H; right; repeat (case_match; try done); simplify_eq;
    (split; [done|split; [done|by eexists]]).
Qed.

Lemma turn_decreases x l r r' l' :
  turn x l r = (r', inl l') → (turns r' l' < turns r (x :: l))%nat.
Proof.
  unfold turn. destruct (rr_stage r) as [|k|c| |] eqn:Hs; try done.
  - destruct (_ <? _); [done|]. pose proof (turns_bounds r (x :: l)). destruct (ends_with _ _).
    + destruct (end_of_head _) as [r0 []]; [|done]. intros [= <- <-].
      pose proof (turns_bounds r0 l). simpl in *. lia.
    + intros [= <- <-]. unfold turns at 1, idle. cbn [rr_stage with_head].
      rewrite Hs. simpl in *. lia.
  - destruct (taken_drop x l k) as (Hd & Hz & Hp). intros [= <- <-]. unfold turns, idle. rewrite Hs.
    cbn [rr_stage with_stage]. rewrite Hd. simpl length. destruct (Z.leb_spec k 0) as [Hk|Hk].
    + rewrite (Hz Hk), Z.eqb_refl. lia.
    + specialize (Hp Hk). repeat case_match; lia.
  - destruct (chunked c x l r) as [[r0 n]|] eqn:Hc; [|done]. destruct (_ <? _); [done|]. intros [= <- <-].
    apply chunked_taken in Hc as [(k & -> & Hn & ->)|(-> & Hc & stage & ->)].
    + destruct (taken_drop x l k) as (Hd & Hz & Hp). rewrite <-Hn in *. unfold turns, idle. rewrite Hs.
      cbn [rr_stage with_stage with_raw]. rewrite Hd. simpl length. destruct (Z.leb_spec k 0) as [Hk|Hk].
      * rewrite (Hz Hk), Z.eqb_refl. lia.
      * specialize (Hp Hk). repeat case_match; simplify_eq; lia.
    + change (drop (Z.to_nat 1) (x :: l)) with l.
      match goal with |- (turns ?q l < _)%nat => pose proof (turns_bounds q l) end.
      pose proof (turns_bounds r (x :: l)). simpl in *. lia.
Qed.

Lemma push_loop_returns fuel r l :
  (turns r l ≤ fuel)%nat → ∃ out, push_loop fuel r l = Done out ∧ ∀ more, push_loop (fuel + more) r l = Done out.
Proof.
  revert r l. induction fuel as [|fuel IH]; intros r [|x l] Hf.
  - exists (r, progress r). split; [done|]. by intros [].
  - pose proof (turns_bounds r (x :: l)). simpl in *. lia.
  - exists (r, progress r). done.
  - cbn [push_loop Nat.add]. destruct (turn x l r) as [r' [l'|p]] eqn:Ht; [|by eexists].
    apply IH. apply turn_decreases in Ht. lia.
Qed.

(** The loop, without its fuel. *)
Lemma push_nil r : push [] r = (r, progress r).
Proof. done. Qed.

Lemma push_cons x l r :
  push (x :: l) r =
  match turn x l r with
  | (r', inr p) => (r', p)
  | (r', inl l') => push l' r'
  end.
Proof.
  unfold push. set (f := S (2 * length (x :: l))).
  destruct (push_loop_returns f r (x :: l)) as (out & Ho & _); [pose proof (turns_bounds r (x :: l)); lia|].
  rewrite Ho. unfold f in Ho. cbn [push_loop] in Ho. destruct (turn x l r) as [r' [l'|p]] eqn:Ht; [|by injection Ho].
  apply turn_decreases in Ht. pose proof (turns_bounds r (x :: l)).
  destruct (push_loop_returns (turns r' l') r' l' ltac:(lia)) as (out' & _ & Hm).
  assert (out = out') as ->.
  { pose proof (Hm (2 * length (x :: l) - turns r' l')%nat) as H1.
    replace (turns r' l' + _)%nat with (2 * length (x :: l))%nat in H1 by lia. congruence. }
  pose proof (Hm (S (2 * length l') - turns r' l')%nat) as H1.
  pose proof (turns_bounds r' l'). replace (turns r' l' + _)%nat with (S (2 * length l')) in H1 by lia. by rewrite H1.
Qed.

(** Induction over a reading, one turn at a time. *)
Lemma reading_ind (P : list Z → ResponseReader → Prop) :
  (∀ r, P [] r) →
  (∀ x l r r' p, turn x l r = (r', inr p) → P (x :: l) r) →
  (∀ x l r r' l', turn x l r = (r', inl l') → P l' r' → P (x :: l) r) →
  ∀ l r, P l r.
Proof.
  intros Hn Hs Ht l r. remember (turns r l) as m eqn:Hm. revert l r Hm.
  induction m as [m IH] using lt_wf_ind. intros [|x l] r ->; [done|].
  destruct (turn x l r) as [r' [l'|p]] eqn:E; [|by eapply Hs]. eapply Ht; [done|]. eapply IH; [|done].
  by apply turn_decreases.
Qed.

(** The progress reported is the reader's. *)
Lemma refuse_progress refusal r r' p : refuse refusal r = (r', p) → p = progress r'.
Proof. by intros [= <- <-]. Qed.

Lemma turn_progress x l r r' p : turn x l r = (r', inr p) → p = progress r' ∧ ∃ q, rr_stage r' = Stage.Refused q.
Proof.
  unfold turn, refuse. destruct (rr_stage r) eqn:Hs; intros H; repeat (case_match; try done); simplify_eq;
    try (split; [done|by eexists]).
  unfold progress. rewrite Hs. by eauto.
Qed.

Lemma push_progress l r : (push l r).2 = progress (push l r).1.
Proof.
  induction l, r as [r|x l r r' p Ht|x l r r' l' Ht IH] using reading_ind; [done| |]; rewrite push_cons, Ht; [|done].
  by apply turn_progress in Ht as [-> _].
Qed.

(** ** The pieces do not matter *)

(** Two readers that differ only where a refused one is never read again. *)
Definition same_reader (r r' : ResponseReader) : Prop :=
  r = r' ∨ ∃ q, rr_stage r = Stage.Refused q ∧ rr_stage r' = Stage.Refused q.

#[export] Instance same_reader_equivalence : Equivalence same_reader.
Proof.
  split.
  - intros r. red. by left.
  - intros r r' [->|(q & ? & ?)]; red; [by left|right; eauto].
  - intros r r' r'' [->|(q & Hq & Hq')] [->|(q' & Hq1 & Hq2)]; red; [by left|right; eauto..|].
    right. exists q. split; [done|]. congruence.
Qed.

Lemma push_refused l r q : rr_stage r = Stage.Refused q → (push l r).1 = r.
Proof. intros Hs. destruct l as [|x l]; [done|]. rewrite push_cons. unfold turn. by rewrite Hs. Qed.

#[export] Instance push_proper : Proper ((=) ==> same_reader ==> same_reader) (λ l r, (push l r).1).
Proof.
  intros l ? <- r r' [->|(q & Hr & Hr')]; [done|].
  right. exists q. by rewrite (push_refused _ _ _ Hr), (push_refused _ _ _ Hr').
Qed.

#[export] Instance progress_proper : Proper (same_reader ==> (=)) progress.
Proof. intros r r' [->|(q & Hr & Hr')]; [done|]. unfold progress. by rewrite Hr, Hr'. Qed.

#[export] Instance answer_proper : Proper (same_reader ==> (=)) answer.
Proof. intros r r' [->|(q & Hr & Hr')]; [done|]. unfold answer. by rewrite Hr, Hr'. Qed.

(** What a turn takes of two pieces: from the first alone, or all of it and some of the second. *)
Lemma takes_first {A} (l k : list A) n :
  n ≤ zlen l →
  Z.min n (zlen (l ++ k)) = n ∧ Z.min n (zlen l) = n ∧
  take (Z.to_nat n) (l ++ k) = take (Z.to_nat n) l ∧ drop (Z.to_nat n) (l ++ k) = drop (Z.to_nat n) l ++ k.
Proof.
  intros Hn. rewrite zlen_app. pose proof (zlen_nonneg k). split; [lia|]. split; [lia|]. unfold zlen in Hn.
  by rewrite take_app_le, drop_app_le by lia.
Qed.

Lemma takes_both {A} (l k : list A) n :
  zlen l < n →
  let m := Z.min (n - zlen l) (zlen k) in
  Z.min n (zlen (l ++ k)) = zlen l + m ∧ Z.min n (zlen l) = zlen l ∧ 0 ≤ m ∧
  take (Z.to_nat (zlen l + m)) (l ++ k) = l ++ take (Z.to_nat m) k ∧
  drop (Z.to_nat (zlen l + m)) (l ++ k) = drop (Z.to_nat m) k ∧
  take (Z.to_nat (zlen l)) l = l ∧ drop (Z.to_nat (zlen l)) l = [] ∧
  (n =? zlen l + m) = (n - zlen l =? m) ∧ n - (zlen l + m) = n - zlen l - m.
Proof.
  intros Hn. pose proof (zlen_nonneg l). pose proof (zlen_nonneg k). rewrite zlen_app. cbv zeta.
  set (m := Z.min (n - zlen l) (zlen k)). assert (0 ≤ m) by lia.
  replace (Z.to_nat (zlen l + m)) with (length l + Z.to_nat m)%nat by (unfold zlen; lia).
  replace (Z.to_nat (zlen l)) with (length l) by (unfold zlen; lia).
  rewrite take_app_add, drop_app_add, firstn_all, drop_all. repeat split; lia.
Qed.

(** The next turn over [l ++ k]: the same as over [l], or one that the turn over [l] began. *)
Definition same_turn (t t' : ResponseReader * (list Z + ResponseProgress.t)) : Prop :=
  t = t' ∨ ∃ r p r' p', t = (r, inr p) ∧ t' = (r', inr p') ∧ same_reader r r'.

Lemma same_turn_push x l x' l' r r' :
  same_turn (turn x l r) (turn x' l' r') → same_reader (push (x :: l) r).1 (push (x' :: l') r').1.
Proof.
  rewrite !push_cons. intros [<-|(? & ? & ? & ? & -> & -> & ?)]; done.
Qed.

Definition goes_on (k : list Z) (t t' : ResponseReader * (list Z + ResponseProgress.t)) : Prop :=
  match t with
  | (r, inr p) => ∃ r' p', t' = (r', inr p') ∧ same_reader r' r
  | (r, inl l) => t' = (r, inl (l ++ k)) ∨ l = [] ∧ ∀ y k', k = y :: k' → same_turn t' (turn y k' r)
  end.

Lemma goes_on_refuse k q r r' : goes_on k (let '(r, p) := refuse q r in (r, inr p)) (let '(r, p) := refuse q r' in (r, inr p)).
Proof. do 2 eexists. split; [done|]. right. by exists q. Qed.

Lemma length_goes_on x l k r left_ :
  rr_stage r = Stage.Length left_ → goes_on k (turn x l r) (turn x (l ++ k) r).
Proof.
  intros Hs. unfold turn. rewrite Hs. change (x :: l ++ k) with ((x :: l) ++ k). generalize (x :: l). clear x l. intros l.
  destruct (Z.le_gt_cases left_ (zlen l)) as [Hle|Hgt].
  - destruct (takes_first l k left_ Hle) as (-> & -> & -> & ->). by left.
  - destruct (takes_both l k left_ Hgt) as (-> & -> & Hm & -> & -> & -> & -> & -> & ->).
    rewrite (proj2 (Z.eqb_neq left_ (zlen l))) by lia.
    right. split; [done|]. intros y k' ->. left. cbn [turn rr_stage with_stage]. by rewrite app_assoc.
Qed.

Lemma data_goes_on x l k r left_ :
  rr_stage r = Stage.Chunked (Chunk.Data left_) → goes_on k (turn x l r) (turn x (l ++ k) r).
Proof.
  intros Hs. unfold turn, chunked. rewrite Hs. change (x :: l ++ k) with ((x :: l) ++ k).
  generalize (x :: l). clear x l. intros l.
  destruct (Z.le_gt_cases left_ (zlen l)) as [Hle|Hgt].
  - destruct (takes_first l k left_ Hle) as (-> & -> & -> & ->).
    cbn [rr_raw with_raw with_stage with_body]. destruct (_ <? _); [apply goes_on_refuse|by left].
  - destruct (takes_both l k left_ Hgt) as (-> & -> & Hm & -> & -> & -> & -> & -> & ->).
    rewrite (proj2 (Z.eqb_neq left_ (zlen l))) by lia. pose proof (zlen_nonneg l).
    cbn [rr_raw with_raw with_stage with_body]. set (m := Z.min _ _) in *.
    assert (Hraw : sat_add_u64 (rr_raw r) (zlen l + m) = sat_add_u64 (sat_add_u64 (rr_raw r) (zlen l)) m).
    { unfold sat_add_u64. lia. }
    assert (Hmono : sat_add_u64 (rr_raw r) (zlen l) ≤ sat_add_u64 (sat_add_u64 (rr_raw r) (zlen l)) m).
    { unfold sat_add_u64. lia. }
    rewrite Hraw. destruct (Z.ltb_spec CHUNKED_RAW_LIMIT (sat_add_u64 (rr_raw r) (zlen l))) as [Hl|Hl].
    + rewrite (proj2 (Z.ltb_lt _ _)) by lia. apply goes_on_refuse.
    + right. split; [done|]. intros y k' ->. cbn [turn chunked rr_stage rr_raw with_stage with_raw with_body].
      fold m. destruct (_ <? sat_add_u64 _ m).
      * right. do 4 eexists. split; [done|]. split; [done|]. right. by eexists.
      * left. by rewrite app_assoc.
Qed.

Lemma turn_goes_on x l k r : goes_on k (turn x l r) (turn x (l ++ k) r).
Proof.
  destruct (rr_stage r) as [|k'|c| |q] eqn:Hs.
  - unfold turn. rewrite Hs. destruct (_ <? _); [apply goes_on_refuse|]. destruct (ends_with _ _); [|by left].
    destruct (end_of_head _) as [r0 []]; [by left|apply goes_on_refuse].
  - by eapply length_goes_on.
  - destruct c; try (by eapply data_goes_on); unfold turn, chunked; rewrite Hs; cbn [rr_raw with_raw with_stage];
      repeat (case_match; simplify_eq; try apply goes_on_refuse; try by left).
  - unfold turn. rewrite Hs. apply goes_on_refuse.
  - unfold turn. rewrite Hs. do 2 eexists. split; [done|]. by left.
Qed.

Lemma push_app k l r : same_reader (push (l ++ k) r).1 (push k (push l r).1).1.
Proof.
  induction l, r as [r|x l r r' p Ht|x l r r' l' Ht IH] using reading_ind; [done|..].
  - pose proof (turn_goes_on x l k r) as Hg. rewrite push_cons, Ht in *. simpl in Hg.
    destruct Hg as (r'' & p' & Hk & Hsame). simpl. rewrite push_cons, Hk.
    apply turn_progress in Ht as (_ & q & Hq). by rewrite (push_refused _ _ _ Hq).
  - pose proof (turn_goes_on x l k r) as Hg. rewrite (push_cons x l), Ht in *. cbn [goes_on] in Hg.
    simpl app. destruct Hg as [Hk|[-> Hk]]; [by rewrite push_cons, Hk|]. destruct k as [|y k'].
    + rewrite app_nil_r, push_cons, Ht. done.
    + rewrite push_nil. apply same_turn_push. by apply Hk.
Qed.

Lemma push_pieces pieces r :
  same_reader (fold_left (λ r piece, (push piece r).1) pieces r) (push (concat pieces) r).1.
Proof. revert r. induction pieces as [|l pieces IH]; intros r; [done|]. simpl. rewrite IH. symmetry. apply push_app. Qed.

(** The pieces the upstream's bytes arrive in do not matter: after any pieces the reader
    reports the progress, and gives the answer, it would give for all the bytes at once. *)
Theorem push_in_any_pieces pieces r :
  let read := fold_left (λ r piece, (push piece r).1) pieces r in
  same_reader read (push (concat pieces) r).1 ∧
  progress read = (push (concat pieces) r).2 ∧ answer read = answer (push (concat pieces) r).1.
Proof.
  cbv zeta. pose proof (push_pieces pieces r) as Hs. split; [done|]. rewrite push_progress. by rewrite Hs.
Qed.

(** ** Nothing is buffered past the limits *)

(** The body bytes still announced. *)
Definition announced (s : Stage.t) : Z :=
  match s with Stage.Length left_ => left_ | Stage.Chunked (Chunk.Data left_) => left_ | _ => 0 end.

Definition stage_ok (s : Stage.t) : Prop :=
  match s with
  | Stage.Length left_ => 0 < left_
  | Stage.Chunked (Chunk.Data left_) => 0 < left_
  | Stage.Chunked (Chunk.Size digits value) => 0 ≤ digits ≤ CHUNK_SIZE_DIGITS ∧ 0 ≤ value < 16 ^ digits
  | Stage.Chunked (Chunk.SizeLf size) => 0 ≤ size < 16 ^ CHUNK_SIZE_DIGITS
  | _ => True
  end.

Record reader_ok (r : ResponseReader) : Prop := mkReaderOk {
  ok_stage : stage_ok (rr_stage r);
  ok_head : 0 ≤ rr_heads r ∧ rr_heads r + zlen (rr_head r) ≤ HEAD_LIMIT;
  ok_body : zlen (rr_body r) + announced (rr_stage r) ≤ RESPONSE_BODY_LIMIT;
  ok_reading : rr_stage r = Stage.Head → rr_body r = [];
  ok_raw : 0 ≤ rr_raw r ∧ (rr_raw r ≤ CHUNKED_RAW_LIMIT ∨ ∃ q, rr_stage r = Stage.Refused q);
}.

Lemma new_reader_ok : reader_ok ResponseReader_new.
Proof. split; try done. split; [done|]. by left. Qed.

Lemma refuse_ok q r r' p :
  refuse q r = (r', p) → 0 ≤ rr_heads r ≤ HEAD_LIMIT → 0 ≤ rr_raw r → reader_ok r'.
Proof.
  intros [= <- <-] Hh Hr. split; simpl; try done; [|by eauto]. unfold zlen. simpl. lia.
Qed.

Lemma framing_fields_length fields length_ chunked length' chunked' :
  framing_fields fields length_ chunked = Ok (length', chunked') →
  (∀ n, length_ = Some n → 0 ≤ n ≤ RESPONSE_BODY_LIMIT) → ∀ n, length' = Some n → 0 ≤ n ≤ RESPONSE_BODY_LIMIT.
Proof.
  revert length_ chunked. induction fields as [|line fields IH]; intros length_ chunked; cbn [framing_fields].
  { by intros [= <- <-]. }
  destruct (field_value line (bytes_of "content-length")) as [value|].
  - destruct (_ || _) eqn:Ho; [done|]. destruct (Z.ltb_spec RESPONSE_BODY_LIMIT (digits_value value)) as [|Hle]; [done|].
    intros H Hn. eapply IH; [done|]. intros n [= <-]. apply orb_false_iff in Ho as [_ Ho].
    apply negb_false_iff, forallb_digits, digits_value_nonneg in Ho. lia.
  - repeat (case_match; try done); intros Hf Hn; by eapply IH.
Qed.

Lemma body_stage_ok status length_ is_chunked stage :
  body_stage status length_ is_chunked = Ok stage → (∀ n, length_ = Some n → 0 ≤ n ≤ RESPONSE_BODY_LIMIT) →
  stage_ok stage ∧ 0 ≤ announced stage ≤ RESPONSE_BODY_LIMIT.
Proof.
  intros H Hl. unfold body_stage in H. destruct length_ as [n|].
  - specialize (Hl n eq_refl). repeat (case_match; try done); simplify_eq; simpl; unfold RESPONSE_BODY_LIMIT in *; lia.
  - repeat (case_match; try done); simplify_eq; simpl; unfold RESPONSE_BODY_LIMIT, CHUNK_SIZE_DIGITS; lia.
Qed.

Lemma end_of_head_ok r r' e :
  end_of_head r = (r', e) → reader_ok r → rr_stage r = Stage.Head →
  (0 ≤ rr_heads r' ≤ HEAD_LIMIT ∧ 0 ≤ rr_raw r') ∧ (e = Ok tt → reader_ok r').
Proof.
  intros H [_ [H1 H2] H3 H4 [H5 H6]] Hs. specialize (H4 Hs). pose proof (zlen_nonneg (rr_head r)).
  assert (Hb : rr_heads r' = rr_heads r + zlen (rr_head r) ∧ rr_raw r' = rr_raw r ∧ rr_head r' = [] ∧ rr_body r' = [] ∧
    (e = Ok tt → stage_ok (rr_stage r') ∧ 0 ≤ announced (rr_stage r') ≤ RESPONSE_BODY_LIMIT)).
  { unfold end_of_head in H. destruct (head_lines _ _ _ _) as [[[status|] fields]|]; [|by simplify_eq..].
    destruct (_ || _ || _).
    { simplify_eq. split_and!; try done. simpl. by rewrite Hs. }
    destruct (_ && _); [by simplify_eq|].
    destruct (framing_fields _ _ _) as [[length_ is_chunked]|] eqn:Hf; [|by simplify_eq].
    destruct (_ && _); [by simplify_eq|].
    destruct (body_stage _ _ _) as [stage|] eqn:Hbs; [|by simplify_eq]. simplify_eq.
    split_and!; try done. intros _. by eapply body_stage_ok, framing_fields_length. }
  destruct Hb as (Hhs & Hr & Hh & Hb & He). split; [lia|]. intros ->. destruct (He eq_refl) as [? ?]. split.
  - done.
  - rewrite Hh, Hhs. change (zlen []) with 0. lia.
  - rewrite Hb. unfold zlen. simpl. lia.
  - done.
  - rewrite Hr. destruct H6 as [|(q & Hq)]; [by eauto|]. congruence.
Qed.

Lemma hexdigit_value_range b : is_hexdigit b = true → 0 ≤ hexdigit_value b < 16.
Proof. unfold is_hexdigit, hexdigit_value, is_digit. intros H. repeat case_match; lia. Qed.

(** The chunked decoder keeps its counts within their widths. *)
Lemma chunked_ok c x l r r' n :
  chunked c x l r = Ok (r', n) → stage_ok (Stage.Chunked c) →
  zlen (rr_body r) + announced (Stage.Chunked c) ≤ RESPONSE_BODY_LIMIT →
  stage_ok (rr_stage r') ∧ zlen (rr_body r') + announced (rr_stage r') ≤ RESPONSE_BODY_LIMIT ∧
  rr_stage r' ≠ Stage.Head ∧ 0 ≤ n ∧ rr_raw r' = rr_raw r ∧ rr_heads r' = rr_heads r ∧ rr_head r' = rr_head r.
Proof.
  intros Hc Hok Hb. destruct (chunked_taken _ _ _ _ _ _ Hc) as [(k & -> & Hn & ->)|(-> & Hk & stage & ->)].
  - simpl in *. destruct (taken_drop x l k) as (Hd & _ & Hp). rewrite <-Hn in *. specialize (Hp Hok).
    pose proof (zlen_cons x l). pose proof (zlen_nonneg l). rewrite zlen_app.
    assert (Ht : zlen (take (Z.to_nat n) (x :: l)) = n) by (unfold zlen in *; rewrite length_take; lia).
    rewrite Ht. destruct (Z.eqb_spec k n); simpl; split_and!; try done; lia.
  - cbn [rr_stage rr_body rr_raw rr_heads rr_head with_stage].
    cut (stage_ok stage ∧ zlen (rr_body r) + announced stage ≤ RESPONSE_BODY_LIMIT ∧ stage ≠ Stage.Head).
    { intros (? & ? & ?). split_and!; done. }
    destruct c; [| |by destruct (Hk left_)|..]; unfold chunked in Hc; simpl in Hok, Hb;
      repeat (case_match; try done); simplify_eq; simpl; unfold CHUNK_SIZE_DIGITS in *;
      (split; [|split; [|done]]); try lia; try done.
    + pose proof (Z.pow_le_mono_r 16 digits 7). lia.
    + match goal with H : _ && _ = true |- _ => apply andb_prop in H as [Hx%hexdigit_value_range ?%Z.ltb_lt] end.
      rewrite Z.pow_add_r by lia. lia.
    + unfold sat_add_u64, RESPONSE_BODY_LIMIT in *. pose proof (zlen_nonneg (rr_body r)).
      match goal with H : (_ <? Z.min _ _) = false |- _ => apply Z.ltb_ge in H end. unfold U64_MAX in *. lia.
Qed.

Lemma turn_ok x l r r' o : turn x l r = (r', o) → reader_ok r → reader_ok r'.
Proof.
  intros Ht Hr. destruct Hr as [H1 [H2 H2'] H3 H4 [H5 H6]]. unfold turn in Ht.
  destruct (rr_stage r) as [|k|c| |q] eqn:Hs.
  - destruct (Z.ltb_spec HEAD_LIMIT (rr_heads (with_head (rr_head r ++ [x]) r) + zlen (rr_head (with_head (rr_head r ++ [x]) r))))
      as [Hl|Hl]; simpl in Hl.
    { apply (refuse_ok ResponseRefusal.HeadSize (with_head (rr_head r ++ [x]) r) r' (progress r'));
        simpl in *; [|pose proof (zlen_nonneg (rr_head r)); lia|done]. by injection Ht as <- _. }
    assert (Hr0 : reader_ok (with_head (rr_head r ++ [x]) r)) by (split; simpl; rewrite ?Hs in *; try done; lia).
    destruct (ends_with _ _); [|by simplify_eq].
    destruct (end_of_head _) as [r0 e] eqn:He.
    destruct (end_of_head_ok _ _ _ He Hr0 Hs) as [[Hh Hraw] Hok]. destruct e as [[]|q]; [by simplify_eq; apply Hok|].
    apply (refuse_ok q r0 r' (progress r')); [by injection Ht as <- _|done..].
  - injection Ht as <- <-. simpl in *. destruct (taken_drop x l k) as (_ & _ & Hp). specialize (Hp H1).
    pose proof (zlen_cons x l). pose proof (zlen_nonneg l). set (n := Z.min k (zlen (x :: l))) in *.
    assert (Hn : zlen (take (Z.to_nat n) (x :: l)) = n) by (unfold zlen in *; rewrite length_take; lia).
    destruct (Z.eqb_spec k n); split; simpl; rewrite ?zlen_app, ?Hn; try done; try lia.
    all: destruct H6 as [|(q & ?)]; [by eauto|congruence].
  - destruct (chunked c x l r) as [[r0 n]|q] eqn:Hc.
    + destruct (chunked_ok _ _ _ _ _ _ Hc H1 H3) as (H1' & H3' & Hnh & Hn & Hraw & Hhs & Hh).
      assert (H5' : 0 ≤ sat_add_u64 (rr_raw r0) n) by (unfold sat_add_u64, U64_MAX; lia).
      destruct (Z.ltb_spec CHUNKED_RAW_LIMIT (rr_raw (with_raw (sat_add_u64 (rr_raw r0) n) r0))) as [Hl|Hl]; simpl in Hl.
      * apply (refuse_ok ResponseRefusal.Size (with_raw (sat_add_u64 (rr_raw r0) n) r0) r' (progress r'));
          [by injection Ht as <- _|simpl; rewrite Hhs; pose proof (zlen_nonneg (rr_head r)); lia|done].
      * injection Ht as <- <-. split; simpl; try done; [by rewrite Hhs, Hh|by eauto].
    + apply (refuse_ok q r r' (progress r')); [by injection Ht as <- _| |done]. pose proof (zlen_nonneg (rr_head r)). lia.
  - apply (refuse_ok ResponseRefusal.Surplus r r' (progress r')); [by injection Ht as <- _| |done].
    pose proof (zlen_nonneg (rr_head r)). lia.
  - injection Ht as <- <-. split; rewrite ?Hs; eauto.
Qed.

Lemma push_ok l r : reader_ok r → reader_ok (push l r).1.
Proof.
  induction l, r as [r|x l r r' p Ht|x l r r' l' Ht IH] using reading_ind; [done|..]; rewrite push_cons, Ht; intros Hr.
  - by apply turn_ok in Ht.
  - apply IH. by apply turn_ok in Ht.
Qed.

(** Whatever the upstream sends, in whatever pieces, the reader holds at most one head of
    16,384 bytes, interim heads included, and a body of 4 MiB, and every count it keeps stays
    within the width of its limit. *)
Theorem reader_is_bounded pieces :
  reader_ok (fold_left (λ r piece, (push piece r).1) pieces ResponseReader_new).
Proof.
  generalize new_reader_ok. generalize ResponseReader_new. induction pieces as [|l pieces IH]; intros r Hr; [done|].
  simpl. apply IH. by apply push_ok.
Qed.
