(* ===== verification/Http1Answer.v ===== *)
(** * The answers the reader accepts

    A grammar of HTTP/1.1 answers, and the theorem that the incremental reader completes on
    exactly its texts, with their status and decoded body; what [render_response] writes is one. *)

From S2P Require Import Prelude Slices Json Observation Inet Http1 Http1Reader.
(** ** The grammar *)

(** A head: the status line, the field lines, an empty line. *)
Definition lines_text (lines : list (list Z)) : list Z := concat (map (λ line, line ++ CRLF) lines).
Definition head_text (line : list Z) (fields : list (list Z)) : list Z := lines_text (line :: fields) ++ CRLF.

(** A chunk size: one to seven hex digits. *)
Definition size_text (hex : list Z) (n : Z) : Prop :=
  forallb is_hexdigit hex = true ∧ (1 ≤ length hex ≤ 7)%nat ∧
  fold_left (λ value digit, value * 16 + hexdigit_value digit) hex 0 = n.

(** A chunked body and what it decodes to. *)
Inductive chunks_text : list Z → list Z → Prop :=
| last_chunk hex : size_text hex 0 → chunks_text (hex ++ CRLF ++ CRLF) []
| next_chunk hex data text decoded :
    size_text hex (zlen data) → data ≠ [] → chunks_text text decoded →
    chunks_text (hex ++ CRLF ++ data ++ CRLF ++ text) (data ++ decoded).

(** The body's bytes after a final head: none, as many as announced, or chunked. *)
Definition body_text (status : Z) (fields : list (list Z)) (text body : list Z) : Prop :=
  let no_body := status = 204 ∨ status = 304 in
  match framing_fields fields None false with
  | Ok (Some n, false) => text = body ∧ zlen body = n ∧ (no_body → n = 0)
  | Ok (None, false) => text = [] ∧ body = [] ∧ no_body
  | Ok (None, true) =>
      chunks_text text body ∧ zlen body ≤ RESPONSE_BODY_LIMIT ∧ zlen text ≤ CHUNKED_RAW_LIMIT ∧ ¬ no_body
  | _ => False
  end.

Definition lines_ok (head : list Z * list (list Z)) (status : Z) : Prop :=
  status_line head.1 = Some status ∧ Forall (λ field, field_line_ok field = true) head.2.

Definition interim_head (head : list Z * list (list Z)) : Prop :=
  ∃ status, lines_ok head status ∧ (status = 100 ∨ status = 102 ∨ status = 103).

Definition heads_text (heads : list (list Z * list (list Z))) : list Z :=
  concat (map (λ head, head_text head.1 head.2) heads).

(** At most [room] more interim answers in at most [limit] bytes of heads, the final head, the body. *)
Definition answer_text (room limit : Z) (bytes : list Z) (status : Z) (body : list Z) : Prop :=
  ∃ interims line fields text,
    bytes = heads_text interims ++ head_text line fields ++ text ∧
    Forall interim_head interims ∧ Z.of_nat (length interims) ≤ room ∧
    zlen (heads_text interims ++ head_text line fields) ≤ limit ∧
    lines_ok (line, fields) status ∧ 200 ≤ status ∧ body_text status fields text body.

(** ** Heads *)

Lemma lines_text_cons line lines : lines_text (line :: lines) = line ++ CRLF ++ lines_text lines.
Proof. unfold lines_text. simpl. by rewrite <-app_assoc. Qed.

(** The pieces between line feeds: every line but the last still ends in its CR. *)
Fixpoint cr_pieces (lines : list (list Z)) : list (list Z) :=
  match lines with
  | [] => []
  | [line] => [line]
  | line :: lines => (line ++ [CR]) :: cr_pieces lines
  end.

Lemma cr_pieces_text lines : lines ≠ [] → ∃ text, lines_text lines = text ++ CRLF ∧ terminated LF (cr_pieces lines) = text ++ [LF].
Proof.
  induction lines as [|line [|line' lines] IH]; intros Hn; [done| |].
  - exists line. unfold lines_text, terminated. simpl. by rewrite !app_nil_r.
  - destruct IH as (text & Ht & Hp); [done|]. exists (line ++ CRLF ++ text). rewrite lines_text_cons, Ht.
    split; [by rewrite <-!app_assoc|]. change (cr_pieces (line :: line' :: lines)) with ((line ++ [CR]) :: cr_pieces (line' :: lines)).
    unfold terminated in *. simpl map. simpl concat. simpl in Hp. rewrite Hp. by rewrite <-!app_assoc.
Qed.

Lemma split_lines text lines :
  lines ≠ [] → Forall (λ line, LF ∉ line) lines → lines_text lines = text ++ CRLF → split_on LF text = cr_pieces lines.
Proof.
  intros Hn Hl Ht. destruct (cr_pieces_text lines Hn) as (text' & Ht' & Hp).
  assert (text = text') as -> by (apply (app_inv_tail CRLF); congruence). apply split_on_spec. split; [|done].
  clear -Hl. induction lines as [|line [|line' lines] IH]; simpl; [constructor|done|].
  apply Forall_cons in Hl as [Hl Hls]. constructor; [|by apply IH].
  rewrite elem_of_app, list_elem_of_singleton. intros [|]; done.
Qed.

(** A line of a head holds no CR and no LF, and is not empty. *)
Definition plain_line (line : list Z) : Prop := (CR ∉ line) ∧ (LF ∉ line) ∧ (line ≠ []).

Lemma field_byte_plain b : is_field_byte b = true → (b ≠ CR) ∧ (b ≠ LF).
Proof. unfold is_field_byte, CR, LF. lia. Qed.

Lemma tchar_plain b : is_tchar b = true → (b ≠ CR) ∧ (b ≠ LF).
Proof.
  unfold is_tchar. intros [H|H%bool_decide_eq_true]%orb_prop.
  - unfold is_ascii_alphanumeric, is_digit, CR, LF in *. lia.
  - split; intros ->; revert H; apply (bool_decide_unpack _); vm_compute; done.
Qed.

Lemma plain_all f l : (∀ b, f b = true → (b ≠ CR) ∧ (b ≠ LF)) → forallb f l = true → (CR ∉ l) ∧ (LF ∉ l).
Proof.
  intros Hf H. rewrite forallb_forall in H. split; intros Hin%list_elem_of_In%H%Hf; by destruct Hin.
Qed.

Lemma field_line_plain line : field_line_ok line = true → plain_line line.
Proof.
  unfold field_line_ok. destruct (position _ line) as [n|] eqn:Hp; [|done].
  intros [[Hn Ht]%andb_prop Hf]%andb_prop. apply position_Some in Hp as (x & k & Hl & Hx & _ & Hd).
  assert (Hk : drop (S n) line = k) by (change (S n) with (1 + n)%nat; rewrite <-skipn_skipn, Hd; done).
  rewrite Hk in Hf. apply (plain_all _ _ tchar_plain) in Ht as [Ht1 Ht2].
  apply (plain_all _ _ field_byte_plain) in Hf as [Hf1 Hf2]. apply Z.eqb_eq in Hx as ->.
  unfold plain_line. rewrite Hl, !elem_of_app, !elem_of_cons. unfold CR, LF in *.
  split; [naive_solver|]. split; [naive_solver|]. by destruct (take n line).
Qed.

Lemma starts_with_spec prefix l : starts_with prefix l = true ↔ ∃ k, l = prefix ++ k.
Proof.
  unfold starts_with. rewrite bool_decide_eq_true. split.
  - intros H. exists (drop (length prefix) l). rewrite <-H at 1. by rewrite take_drop.
  - intros (k & ->). by rewrite take_app_length.
Qed.

Lemma strip_prefix_spec prefix l k : strip_prefix prefix l = Some k ↔ l = prefix ++ k.
Proof.
  unfold strip_prefix. destruct (starts_with prefix l) eqn:E.
  - apply starts_with_spec in E as (k' & ->). rewrite drop_app_length. split; [congruence|].
    intros H%app_inv_head. congruence.
  - split; [done|]. intros ->. assert (starts_with prefix (prefix ++ k) = true) by (apply starts_with_spec; eauto). congruence.
Qed.

(** A status line: the version, three digits, the reason. *)
Lemma status_line_spec line status :
  status_line line = Some status ↔
  ∃ digits reason, line = bytes_of "HTTP/1.1 " ++ digits ++ [32] ++ reason ∧ length digits = 3%nat ∧
    forallb is_digit digits = true ∧ forallb is_field_byte reason = true ∧
    status = digits_value digits ∧ 100 ≤ status ≤ 599.
Proof.
  unfold status_line. split.
  - intros H. apply bind_Some in H as (rest & Hrest%strip_prefix_spec & H).
    apply bind_Some in H as (digits & Hd & H). apply bind_Some in H as (reason' & Hr & H).
    apply bind_Some in H as (reason & Hs%strip_prefix_spec & H). destruct (_ || _) eqn:E; [done|].
    apply orb_false_iff in E as [E1%negb_false_iff E2%negb_false_iff]. destruct (_ && _) eqn:E3; [|done].
    injection H as <-. exists digits, reason. pose proof (get_range_Some _ _ _ _ Hd) as [Hlen _].
    assert (Hrd : rest = digits ++ reason').
    { unfold get_range in Hd, Hr. destruct (_ && _) eqn:Eb in Hd; [|done]. injection Hd as <-.
      destruct (_ && _) in Hr; [|done]. injection Hr as <-.
      change (Z.to_nat 0) with 0%nat. change (Z.to_nat (3 - 0)) with 3%nat. change (Z.to_nat 3) with 3%nat.
      rewrite drop_0. rewrite (take_ge (drop 3 rest)) by (rewrite length_drop; unfold zlen; lia). by rewrite take_drop. }
    split; [by rewrite Hrest, Hrd, Hs|]. unfold zlen in Hlen. split; [lia|]. split_and!; try done; lia.
  - intros (digits & reason & -> & Hlen & Hd & Hr & -> & Hs). rewrite (proj2 (strip_prefix_spec _ _ _) eq_refl).
    cbn [mbind option_bind]. set (rest := [32] ++ reason).
    rewrite (get_range_at (digits ++ rest) [] digits rest 0 3) by (done || (unfold zlen; simpl; lia)). cbn [mbind option_bind].
    rewrite (get_range_at (digits ++ rest) digits rest [] 3)
      by ((by rewrite app_nil_r) || (unfold zlen; lia) || (rewrite zlen_app; unfold zlen; lia)).
    cbn [mbind option_bind]. unfold rest. rewrite (proj2 (strip_prefix_spec _ _ _) eq_refl). cbn [mbind option_bind].
    rewrite Hd, Hr. simpl. rewrite (proj2 (andb_true_iff _ _)) by (split; lia). done.
Qed.

Lemma digit_plain b : is_digit b = true → (b ≠ CR) ∧ (b ≠ LF).
Proof. unfold is_digit, CR, LF. lia. Qed.

Lemma status_line_plain line status : status_line line = Some status → plain_line line.
Proof.
  intros (digits & reason & -> & _ & Hd & Hr & _)%status_line_spec.
  apply (plain_all _ _ digit_plain) in Hd as [? ?]. apply (plain_all _ _ field_byte_plain) in Hr as [? ?].
  assert (Hv : (CR ∉ bytes_of "HTTP/1.1 ") ∧ (LF ∉ bytes_of "HTTP/1.1 "))
    by (split; apply (bool_decide_unpack _); vm_compute; done). destruct Hv.
  unfold plain_line. rewrite !elem_of_app, !list_elem_of_singleton. unfold CR, LF in *.
  split; [naive_solver|]. split; [naive_solver|]. done.
Qed.

(** A line loses its CR, except the last, which has none. *)
Definition stripped_line (line : list Z) (lines : list (list Z)) : result (list Z) ResponseRefusal.t :=
  if bool_decide (lines = []) then Ok line
  else result_of_option (strip_suffix_byte CR line) ResponseRefusal.Field.

Lemma cr_pieces_nil lines : cr_pieces lines = [] → lines = [].
Proof. by destruct lines as [|? []]. Qed.

Lemma stripped_pieces line lines stripped :
  stripped_line line (cr_pieces lines) = Ok stripped → line :: cr_pieces lines = cr_pieces (stripped :: lines).
Proof.
  unfold stripped_line. destruct lines as [|l lines]; [by intros [= ->]|].
  rewrite bool_decide_eq_false_2 by (by intros ?%cr_pieces_nil). unfold strip_suffix_byte.
  destruct (last line) as [b|] eqn:Hl; [|done]. destruct (Z.eqb_spec b CR) as [->|]; [|done]. intros [= <-].
  apply last_Some in Hl as (l' & ->). by rewrite removelast_last.
Qed.

Lemma cr_pieces_stripped line lines :
  ∃ piece, cr_pieces (line :: lines) = piece :: cr_pieces lines ∧ stripped_line piece (cr_pieces lines) = Ok line.
Proof.
  destruct lines as [|l lines]; [by exists line|]. exists (line ++ [CR]). split; [done|]. unfold stripped_line.
  rewrite bool_decide_eq_false_2 by (by intros ?%cr_pieces_nil). unfold strip_suffix_byte.
  by rewrite last_snoc, Z.eqb_refl, removelast_last.
Qed.

(** What the walk over a head's lines returns. *)
Lemma head_lines_fields index lines status fields out :
  index ≠ 0%nat →
  head_lines index lines status fields = Ok out ↔
  ∃ more, lines = cr_pieces more ∧ out = (status, fields ++ more) ∧ Forall (λ field, field_line_ok field = true) more.
Proof.
  revert index fields. induction lines as [|line lines IH]; intros index fields Hi; cbn [head_lines].
  { split.
    - intros [= <-]. exists []. by rewrite app_nil_r.
    - intros (more & Hm & -> & _). symmetry in Hm. apply cr_pieces_nil in Hm as ->. by rewrite app_nil_r. }
  fold (stripped_line line lines). rewrite result_bind_Ok. setoid_rewrite (proj2 (Nat.eqb_neq index 0) Hi). split.
  - intros (stripped & Hs & H). destruct (bool_decide (CR ∈ stripped)); [done|].
    destruct (field_line_ok stripped) eqn:Hf; [|done]. apply IH in H as (more & -> & -> & Hm); [|done].
    exists (stripped :: more). rewrite <-app_assoc. split; [by apply stripped_pieces|]. split; [done|by constructor].
  - intros (more & Hm & -> & Hok). destruct more as [|field more]; [done|].
    destruct (cr_pieces_stripped field more) as (piece & Hp & Hs). rewrite Hp in Hm. injection Hm as -> ->.
    apply Forall_cons in Hok as [Hf Hok]. exists field. split; [done|].
    rewrite bool_decide_eq_false_2 by (by apply field_line_plain in Hf as (? & _)). rewrite Hf.
    apply IH; [done|]. exists more. by rewrite <-app_assoc.
Qed.

Lemma head_lines_text lines status fields :
  head_lines 0 lines None [] = Ok (Some status, fields) ↔
  ∃ line, lines = cr_pieces (line :: fields) ∧ lines_ok (line, fields) status.
Proof.
  destruct lines as [|line lines].
  { split; [done|]. intros (line & Hl & _). symmetry in Hl. by apply cr_pieces_nil in Hl. }
  cbn [head_lines]. fold (stripped_line line lines). rewrite result_bind_Ok. simpl Nat.eqb. cbv iota. split.
  - intros (stripped & Hs & H). destruct (bool_decide (CR ∈ stripped)); [done|].
    destruct (status_line stripped) as [status'|] eqn:Hst; [|done]. simpl in H.
    apply head_lines_fields in H as (more & -> & [= <- ->] & Hm); [|done]. exists stripped.
    split; [by apply stripped_pieces|by split].
  - intros (first & Hl & Hst & Hok). destruct (cr_pieces_stripped first fields) as (piece & Hp & Hs).
    rewrite Hp in Hl. injection Hl as -> ->. exists first. split; [done|]. simpl in Hst, Hok.
    rewrite bool_decide_eq_false_2 by (by apply status_line_plain in Hst as (? & _)). rewrite Hst. simpl.
    apply head_lines_fields; [done|]. by exists fields.
Qed.

Lemma lines_ok_plain line fields status : lines_ok (line, fields) status → Forall plain_line (line :: fields).
Proof.
  intros [Hs Hf]. simpl in *. constructor; [by eapply status_line_plain|]. eapply Forall_impl; [done|]. apply field_line_plain.
Qed.

Lemma ends_with_spec suffix l : ends_with suffix l = true ↔ ∃ k, l = k ++ suffix.
Proof.
  unfold ends_with. rewrite andb_true_iff, bool_decide_eq_true, Nat.leb_le. split.
  - intros [H _]. exists (take (length l - length suffix) l). rewrite H at 2. by rewrite take_drop.
  - intros (k & ->). rewrite length_app. split; [|lia]. rewrite Nat.add_sub. by rewrite drop_app_length.
Qed.

(** The bytes the reader has when a head ends, and what it makes of them. *)
Lemma head_is_text head status fields :
  ends_with HEAD_END head = true →
  head_lines 0 (split_on LF (take (length head - 4) head)) None [] = Ok (Some status, fields) ↔
  ∃ line, head = head_text line fields ∧ lines_ok (line, fields) status.
Proof.
  intros (text & ->)%ends_with_spec. rewrite length_app. change (length HEAD_END) with 4%nat. rewrite Nat.add_sub, take_app_length.
  rewrite head_lines_text. split; intros (line & Hl & Hok); exists line; (split; [|done]).
  - unfold head_text. destruct (cr_pieces_text (line :: fields)) as (text' & -> & Ht); [done|].
    apply split_on_spec in Hl as [_ Hl]. rewrite Ht in Hl. apply app_inj_tail in Hl as [-> _]. unfold HEAD_END. by rewrite <-app_assoc.
  - unfold head_text, HEAD_END in Hl. rewrite app_assoc in Hl. apply app_inv_tail in Hl. symmetry. symmetry.
    apply split_lines; [done| |done]. apply lines_ok_plain in Hok. eapply Forall_impl; [done|]. by intros ? (_ & ? & _).
Qed.

(** A head ends nowhere before its empty line. *)
Lemma head_ends_once lines before after :
  Forall plain_line lines → lines_text lines ++ CRLF = before ++ HEAD_END ++ after → after = [].
Proof.
  revert before. induction lines as [|line lines IH]; intros before Hp He.
  { apply (f_equal length) in He. rewrite !length_app in He. simpl in He. lia. }
  apply Forall_cons in Hp as [(Hcr & Hlf & Hne) Hp]. rewrite lines_text_cons, <-!app_assoc in He.
  destruct (Nat.lt_trichotomy (length before) (length line)) as [Hl|[Hl|Hl]].
  - exfalso. apply Hcr. apply (f_equal (λ l, l !! length before)) in He. rewrite lookup_app_l in He by done.
    change (HEAD_END ++ after) with (CR :: [LF; CR; LF] ++ after) in He.
    rewrite list_lookup_middle in He by done. by eapply list_elem_of_lookup_2.
  - apply app_inj_1 in He as [-> He]; [|done]. change (HEAD_END ++ after) with (CRLF ++ CRLF ++ after) in He.
    apply app_inv_head in He.
    destruct lines as [|line' lines]; [symmetry; apply (app_inv_head CRLF); by rewrite app_nil_r|].
    apply Forall_cons in Hp as [(Hcr' & _ & Hne') _]. rewrite lines_text_cons in He.
    destruct line' as [|b line']; [done|]. simpl in He. injection He as -> _. destruct Hcr'. by left.
  - apply (IH (drop (length line + 2) before)); [done|].
    assert (Hb : before = line ++ drop (length line) before).
    { rewrite <-(take_drop (length line) before) at 1. f_equal. apply (f_equal (take (length line))) in He.
      by rewrite take_app_length, take_app_le in He by lia. }
    rewrite Hb, <-app_assoc in He. apply app_inv_head in He. rewrite Nat.add_comm, <-skipn_skipn.
    destruct (drop (length line) before) as [|b1 [|b2 rest]] eqn:Hd.
    + apply (f_equal length) in Hd. rewrite length_drop in Hd. simpl in Hd. lia.
    + simpl in He. by injection He as _ ?.
    + simpl in He. by injection He as _ _ He.
Qed.

(** ** Reading heads *)

(** The reader after the head it holds, and after what the head says of the answer. *)
Definition after_head (r : ResponseReader) : ResponseReader :=
  with_heads (rr_heads r + zlen (rr_head r)) (with_head [] r).

Lemma end_of_head_Ok r r' :
  ends_with HEAD_END (rr_head r) = true →
  end_of_head r = (r', Ok tt) ↔
  ∃ line fields status,
    rr_head r = head_text line fields ∧ lines_ok (line, fields) status ∧
    ((status = 100 ∨ status = 102 ∨ status = 103) ∧ rr_interim r < INTERIM_LIMIT ∧
       r' = with_interim (rr_interim r + 1) (after_head r) ∨
     200 ≤ status ∧ ∃ length_ is_chunked stage,
       framing_fields fields None false = Ok (length_, is_chunked) ∧ (is_chunked = true → length_ = None) ∧
       body_stage status length_ is_chunked = Ok stage ∧ r' = with_stage stage (with_status status (after_head r))).
Proof.
  intros Hend. unfold end_of_head. set (lines := split_on LF _). split.
  - destruct (head_lines 0 lines None []) as [[[status|] fields]|] eqn:Hl; [|done..].
    apply (head_is_text _ _ _ Hend) in Hl as (line & Hh & Hok).
    pose proof Hok as [(? & ? & _ & _ & _ & _ & _ & Hs)%status_line_spec _]. intros H. exists line, fields, status.
    split; [done|]. split; [done|]. destruct (_ || _ || _) eqn:E1 in H.
    + destruct (INTERIM_LIMIT <? _) eqn:Hi in H; [done|]. apply Z.ltb_ge in Hi. simpl in Hi. injection H as <-.
      left. split; [lia|]. split; [lia|done].
    + destruct (_ && _) eqn:E2 in H; [done|]. right. split; [lia|].
      destruct (framing_fields fields None false) as [[length_ is_chunked]|] eqn:Hf; [|done].
      destruct (_ && _) eqn:E3 in H; [done|]. destruct (body_stage status length_ is_chunked) as [stage|] eqn:Hb; [|done].
      injection H as <-. exists length_, is_chunked, stage. split; [done|]. split; [|done].
      intros ->. by destruct length_.
  - intros (line & fields & status & Hh & Hok & H).
    unfold lines. rewrite (proj2 (head_is_text _ _ _ Hend)) by eauto.
    pose proof Hok as [(? & ? & _ & _ & _ & _ & _ & Hs)%status_line_spec _].
    destruct H as [(Hi & Hlt & ->)|(H2 & length_ & is_chunked & stage & -> & Hc & Hb & ->)].
    + replace (_ || _ || _) with true by lia. fold (after_head r). cbn [rr_interim with_interim after_head with_heads with_head].
      by rewrite (proj2 (Z.ltb_ge INTERIM_LIMIT (rr_interim r + 1))) by lia.
    + replace (_ || _ || _) with false by lia. replace (_ && _) with false by lia.
      replace (is_chunked && _) with false by (destruct is_chunked; [by rewrite Hc|done]). by rewrite Hb.
Qed.

(** A reader that completes from inside a head finds the head's end. *)
Lemma answer_head l r x :
  rr_stage r = Stage.Head → answer (push l r).1 = Some x →
  ∃ h k r', l = h ++ k ∧ k ≠ l ∧ ends_with HEAD_END (rr_head r ++ h) = true ∧
    rr_heads r + zlen (rr_head r ++ h) ≤ HEAD_LIMIT ∧
    end_of_head (with_head (rr_head r ++ h) r) = (r', Ok tt) ∧ answer (push k r').1 = Some x.
Proof.
  revert r. induction l as [|b l IH]; intros r Hs; [by unfold push, answer; simpl; rewrite Hs|].
  rewrite push_cons. unfold turn. rewrite Hs.
  destruct (Z.ltb_spec HEAD_LIMIT (rr_heads (with_head (rr_head r ++ [b]) r) + zlen (rr_head (with_head (rr_head r ++ [b]) r))))
    as [Hl|Hl]; [done|]. simpl in Hl. cbn [rr_head with_head]. destruct (ends_with HEAD_END (rr_head r ++ [b])) eqn:He.
  - destruct (end_of_head _) as [r' [[]|q]] eqn:Heh; [|done]. intros Ha. exists [b], l, r'.
    split; [done|]. split; [|done]. intros Heq. apply (f_equal length) in Heq. simpl in Heq. lia.
  - intros Ha. apply IH in Ha as (h & k & r' & -> & _ & He' & Hl' & Heh & Ha); [|done].
    cbn [rr_head with_head] in *. rewrite <-app_assoc in *. exists (b :: h), k, r'.
    split; [done|]. split; [|done]. intros Heq. apply (f_equal length) in Heq. simpl in Heq. rewrite length_app in Heq. lia.
Qed.

(** A head the reader is fed leaves it where the head's end does. *)
Lemma push_head h k r r' :
  rr_stage r = Stage.Head → h ≠ [] →
  (∀ p s, h = p ++ s → s ≠ [] → ends_with HEAD_END (rr_head r ++ p) = false) →
  ends_with HEAD_END (rr_head r ++ h) = true → rr_heads r + zlen (rr_head r ++ h) ≤ HEAD_LIMIT →
  end_of_head (with_head (rr_head r ++ h) r) = (r', Ok tt) →
  push (h ++ k) r = push k r'.
Proof.
  revert r. induction h as [|b h IH]; intros r Hs Hne Hp He Hl Heh; [done|].
  simpl app. rewrite push_cons. unfold turn. rewrite Hs. cbn [rr_heads rr_head with_head].
  assert (Hz : zlen (rr_head r ++ [b]) ≤ zlen (rr_head r ++ b :: h)).
  { rewrite !zlen_app, !zlen_cons. pose proof (zlen_nonneg h). unfold zlen at 2. simpl. lia. }
  rewrite (proj2 (Z.ltb_ge _ _)) by lia. destruct h as [|b' h].
  - by rewrite He, Heh.
  - rewrite (Hp [b] (b' :: h)) by done. apply IH; try done; cbn [rr_head rr_heads with_head].
    + intros p s Hps Hsn. rewrite <-app_assoc. apply (Hp (b :: p) s); [|done]. by rewrite Hps.
    + by rewrite <-app_assoc.
    + by rewrite <-app_assoc.
    + by rewrite <-app_assoc.
Qed.

Lemma head_text_ends line fields : ends_with HEAD_END (head_text line fields) = true.
Proof.
  apply ends_with_spec. destruct (cr_pieces_text (line :: fields)) as (text & Ht & _); [done|]. exists text.
  unfold head_text. rewrite Ht. by rewrite <-app_assoc.
Qed.

Lemma push_head_text line fields status k r r' :
  rr_stage r = Stage.Head → rr_head r = [] → lines_ok (line, fields) status →
  rr_heads r + zlen (head_text line fields) ≤ HEAD_LIMIT →
  end_of_head (with_head (head_text line fields) r) = (r', Ok tt) →
  push (head_text line fields ++ k) r = push k r'.
Proof.
  intros Hs Hh Hok Hl Heh. apply push_head; rewrite ?Hh; try done.
  - unfold head_text. intros Heq. apply app_eq_nil in Heq as [_ [=]].
  - intros p s Hps Hsn. apply not_true_is_false. intros (q & Hq)%ends_with_spec. simpl in Hq. subst p.
    apply lines_ok_plain in Hok. rewrite <-app_assoc in Hps. by apply head_ends_once in Hps.
  - apply head_text_ends.
Qed.

(** ** Reading bodies *)

Lemma answer_done l r x :
  rr_stage r = Stage.Done → answer (push l r).1 = Some x ↔ l = [] ∧ x = (rr_status r, rr_body r).
Proof.
  intros Hs. destruct l as [|b l].
  - rewrite push_nil. unfold answer. simpl. rewrite Hs. simpl. split; [by intros [= <-]|by intros [_ ->]].
  - rewrite push_cons. unfold turn. rewrite Hs. by split; [|intros []].
Qed.

Lemma answer_length l r n x :
  rr_stage r = Stage.Length n → 0 < n →
  answer (push l r).1 = Some x ↔ zlen l = n ∧ x = (rr_status r, rr_body r ++ l).
Proof.
  intros Hs Hn. destruct l as [|b l].
  { rewrite push_nil. unfold answer. simpl. rewrite Hs. unfold zlen. simpl. split; [done|lia]. }
  rewrite push_cons. unfold turn. rewrite Hs. generalize (b :: l). clear b l. intros l.
  destruct (Z.lt_trichotomy n (zlen l)) as [H|[H|H]].
  - rewrite (Z.min_l n) by lia. rewrite Z.eqb_refl, answer_done by done. split; [|lia].
    intros [Hd _]. apply (f_equal length) in Hd. rewrite length_drop in Hd. unfold zlen in *. simpl in Hd. lia.
  - rewrite (Z.min_l n) by lia. rewrite Z.eqb_refl, answer_done by done. rewrite take_ge, drop_ge by (unfold zlen in *; lia).
    simpl. split; [by intros [_ ->]|by intros [_ ->]].
  - rewrite (Z.min_r n) by lia. rewrite (proj2 (Z.eqb_neq n (zlen l))) by lia. rewrite drop_ge by (unfold zlen in *; lia).
    split; [done|lia].
Qed.

(** What is still to come in each state of the chunked decoder. *)
Definition data_tail (n : Z) (l d : list Z) : Prop :=
  ∃ data text decoded, l = data ++ CRLF ++ text ∧ zlen data = n ∧ d = data ++ decoded ∧ chunks_text text decoded.

Definition size_tail (n : Z) (l d : list Z) : Prop :=
  if n =? 0 then l = CRLF ∧ d = [] else data_tail n l d.

Definition chunk_tail (c : Chunk.t) (l d : list Z) : Prop :=
  match c with
  | Chunk.Size digits value =>
      ∃ hex l', l = hex ++ CRLF ++ l' ∧ forallb is_hexdigit hex = true ∧ 1 ≤ digits + zlen hex ≤ 7 ∧
        size_tail (fold_left (λ value digit, value * 16 + hexdigit_value digit) hex value) l' d
  | Chunk.SizeLf size => ∃ l', l = LF :: l' ∧ size_tail size l' d
  | Chunk.Data left_ => data_tail left_ l d
  | Chunk.DataCr => ∃ text, l = CRLF ++ text ∧ chunks_text text d
  | Chunk.DataLf => ∃ text, l = LF :: text ∧ chunks_text text d
  | Chunk.EndCr => l = CRLF ∧ d = []
  | Chunk.EndLf => l = [LF] ∧ d = []
  end.

Lemma chunk_tail_size l d : chunk_tail (Chunk.Size 0 0) l d ↔ chunks_text l d.
Proof.
  split.
  - intros (hex & l' & -> & Hh & Hl & Hs). unfold size_tail in Hs. unfold zlen in Hl.
    destruct (Z.eqb_spec (fold_left (λ value digit, value * 16 + hexdigit_value digit) hex 0) 0) as [H0|H0].
    + destruct Hs as [-> ->]. apply last_chunk. repeat split; [done|lia|lia|done].
    + destruct Hs as (data & text & decoded & -> & Hz & -> & Ht). apply next_chunk; [|by intros ->|done].
      repeat split; [done|lia|lia|done].
  - intros [hex [Hh [Hl Hv]]|hex data text decoded [Hh [Hl Hv]] Hne Ht].
    + exists hex, CRLF. split; [done|]. split; [done|]. split; [unfold zlen; lia|]. by rewrite Hv.
    + exists hex, (data ++ CRLF ++ text). split; [done|]. split; [done|]. split; [unfold zlen; lia|]. rewrite Hv.
      unfold size_tail. rewrite (proj2 (Z.eqb_neq _ _)) by (by intros ?%zlen_nil). by exists data, text, decoded.
Qed.

Lemma size_tail_nil n d : 0 ≤ n → ¬ size_tail n [] d.
Proof. unfold size_tail. destruct (n =? 0); [by intros _ [? _]|]. by intros _ ([|] & ? & ? & ? & _). Qed.

Lemma chunk_tail_nil c d : ¬ chunk_tail c [] d.
Proof. destruct c; simpl; try (by intros [? _]); try (by intros (? & ? & _)); try (by intros ([|] & ? & ? & _)).
  by intros ([|] & ? & ? & ? & _).
Qed.

(** One byte of it. *)
Definition next_tail (c : Chunk.t) (x : Z) (l d : list Z) : Prop :=
  match c with
  | Chunk.Size digits value =>
      x = CR ∧ 0 < digits ∧ chunk_tail (Chunk.SizeLf value) l d ∨
      is_hexdigit x = true ∧ digits < 7 ∧ chunk_tail (Chunk.Size (digits + 1) (value * 16 + hexdigit_value x)) l d
  | Chunk.SizeLf size =>
      x = LF ∧ (if size =? 0 then chunk_tail Chunk.EndCr l d else chunk_tail (Chunk.Data size) l d)
  | Chunk.Data left_ =>
      ∃ d', d = x :: d' ∧ (if left_ =? 1 then chunk_tail Chunk.DataCr l d' else chunk_tail (Chunk.Data (left_ - 1)) l d')
  | Chunk.DataCr => x = CR ∧ chunk_tail Chunk.DataLf l d
  | Chunk.DataLf => x = LF ∧ chunk_tail (Chunk.Size 0 0) l d
  | Chunk.EndCr => x = CR ∧ chunk_tail Chunk.EndLf l d
  | Chunk.EndLf => x = LF ∧ l = [] ∧ d = []
  end.

Lemma chunk_tail_cons c x l d :
  stage_ok (Stage.Chunked c) → chunk_tail c (x :: l) d ↔ next_tail c x l d.
Proof.
  intros Hok. destruct c as [digits value|size|n| | | |]; simpl in Hok |- *; unfold CHUNK_SIZE_DIGITS in *.
  - split.
    + intros ([|y hex] & l' & Hl & Hh & Hb & Ht).
      * left. simpl in Hl. injection Hl as -> ->. unfold zlen in Hb. simpl in *. split; [done|]. split; [lia|]. by exists l'.
      * right. simpl in Hl. injection Hl as -> ->. simpl in Hh. apply andb_prop in Hh as [Hy Hh].
        rewrite zlen_cons in Hb. pose proof (zlen_nonneg hex). split; [done|]. split; [lia|]. exists hex, l'.
        split; [done|]. split; [done|]. split; [lia|done].
    + intros [(-> & Hd & l' & -> & Ht)|(Hx & Hd & hex & l' & -> & Hh & Hb & Ht)].
      * exists [], l'. split; [done|]. split; [done|]. unfold zlen. simpl. split; [lia|done].
      * exists (x :: hex), l'. rewrite zlen_cons. simpl. rewrite Hx. split; [done|]. split; [done|]. split; [lia|done].
  - unfold size_tail. split.
    + intros (l' & [= -> ->] & Ht). split; [done|]. by destruct (size =? 0).
    + intros [-> Ht]. exists l. split; [done|]. by destruct (size =? 0).
  - split.
    + intros ([|y data] & text & decoded & Hl & Hz & -> & Ht); [unfold zlen in Hz; simpl in *; lia|].
      simpl in Hl. injection Hl as -> ->. rewrite zlen_cons in Hz. exists (data ++ decoded). split; [done|].
      destruct (Z.eqb_spec n 1) as [->|Hn].
      * assert (data = []) as -> by (apply zlen_nil; lia). by exists text.
      * exists data, text, decoded. split; [done|]. split; [lia|done].
    + intros (d' & -> & Ht). destruct (Z.eqb_spec n 1) as [->|Hn].
      * destruct Ht as (text & -> & Ht). exists [x], text, d'. done.
      * destruct Ht as (data & text & decoded & -> & Hz & -> & Ht). exists (x :: data), text, decoded.
        rewrite zlen_cons. split; [done|]. split; [lia|done].
  - split; [intros (text & [= -> ->] & Ht); split; [done|by exists text]|intros [-> (text & -> & Ht)]; by exists text].
  - pose proof (chunk_tail_size l d) as Hc. simpl in Hc. rewrite Hc. split; [intros (text & [= -> ->] & Ht); done|intros [-> Ht]; by exists l].
  - split; [by intros [[= -> ->] ->]|by intros [-> [-> ->]]].
  - split; [by intros [[= -> ->] ->]|by intros [-> [-> ->]]].
Qed.

Lemma answer_refused l r q : rr_stage r = Stage.Refused q → answer (push l r).1 = None.
Proof. intros Hs. rewrite (push_refused _ _ _ Hs). unfold answer. by rewrite Hs. Qed.

(** One byte of the chunked decoder, and the rest. *)
Lemma answer_chunk_byte x l r c out :
  rr_stage r = Stage.Chunked c → stage_ok (Stage.Chunked c) → 0 ≤ rr_raw r ≤ CHUNKED_RAW_LIMIT →
  answer (push (x :: l) r).1 = Some out ↔
  rr_raw r + 1 ≤ CHUNKED_RAW_LIMIT ∧
  ∃ r', chunked c x [] r = Ok (r', 1) ∧ answer (push l (with_raw (rr_raw r + 1) r')).1 = Some out.
Proof.
  intros Hs Hok Hraw. change (x :: l) with ([x] ++ l).
  assert (Hsame : answer (push ([x] ++ l) r).1 = answer (push l (push [x] r).1).1) by (by rewrite push_app).
  rewrite Hsame, push_cons. unfold turn. rewrite Hs. destruct (chunked c x [] r) as [[r' n]|q] eqn:Hc.
  2: { cbn [refuse fst]. rewrite (answer_refused _ _ q) by done. split; [done|]. by intros (_ & ? & [=] & _). }
  assert (n = 1 ∧ rr_raw r' = rr_raw r) as [-> Hr].
  { destruct (chunked_taken _ _ _ _ _ _ Hc) as [(k & -> & -> & ->)|(-> & _ & stage & ->)]; [|done].
    simpl in Hok. unfold zlen. simpl. split; [lia|done]. }
  assert (Hsat : sat_add_u64 (rr_raw r') 1 = rr_raw r + 1) by (rewrite Hr; unfold sat_add_u64, U64_MAX, CHUNKED_RAW_LIMIT, RESPONSE_BODY_LIMIT in *; lia).
  rewrite Hsat. change (drop (Z.to_nat 1) [x]) with (@nil Z). cbn [rr_raw with_raw].
  destruct (Z.ltb_spec CHUNKED_RAW_LIMIT (rr_raw r + 1)) as [Hl|Hl].
  - cbn [refuse fst]. rewrite (answer_refused _ _ ResponseRefusal.Size) by done. split; [done|lia].
  - rewrite push_nil. cbn [fst]. split.
    + intros Ha. split; [lia|]. by exists r'.
    + intros (_ & r'' & [= <-] & Ha). done.
Qed.

(** The answers from a state, as the reader gives them and as the grammar does. *)
Definition read_answers (l : list Z) (r : ResponseReader) (c : Chunk.t) (out : Z * list Z) : Prop :=
  answer (push l r).1 = Some out ↔
  ∃ d, chunk_tail c l d ∧ out = (rr_status r, rr_body r ++ d) ∧
    zlen (rr_body r ++ d) ≤ RESPONSE_BODY_LIMIT ∧ rr_raw r + zlen l ≤ CHUNKED_RAW_LIMIT.

Definition chunk_reader (c : Chunk.t) (r : ResponseReader) : Prop :=
  rr_stage r = Stage.Chunked c ∧ stage_ok (Stage.Chunked c) ∧ 0 ≤ rr_raw r ≤ CHUNKED_RAW_LIMIT ∧
  zlen (rr_body r) + announced (Stage.Chunked c) ≤ RESPONSE_BODY_LIMIT.

Section Bytes.
Context (x : Z) (l : list Z) (r : ResponseReader) (c : Chunk.t) (out : Z * list Z).
Hypothesis IH : ∀ r c, chunk_reader c r → read_answers l r c out.
Hypothesis Hr : chunk_reader c r.

Lemma read_byte :
  (rr_raw r + 1 ≤ CHUNKED_RAW_LIMIT ∧
   ∃ r', chunked c x [] r = Ok (r', 1) ∧ answer (push l (with_raw (rr_raw r + 1) r')).1 = Some out) ↔
  (∃ d, next_tail c x l d ∧ out = (rr_status r, rr_body r ++ d) ∧
    zlen (rr_body r ++ d) ≤ RESPONSE_BODY_LIMIT ∧ rr_raw r + (zlen l + 1) ≤ CHUNKED_RAW_LIMIT) →
  read_answers (x :: l) r c out.
Proof.
  destruct Hr as (Hs & Hok & Hraw & Hb). intros H. unfold read_answers. rewrite (answer_chunk_byte x l r c), zlen_cons by done.
  rewrite H. by setoid_rewrite (chunk_tail_cons c x l).
Qed.

Lemma read_step c' body :
  chunked c x [] r = Ok (with_stage (Stage.Chunked c') (with_body body r), 1) →
  stage_ok (Stage.Chunked c') → zlen body + announced (Stage.Chunked c') ≤ RESPONSE_BODY_LIMIT →
  (∀ d', chunk_tail c' l d' → ∃ d, next_tail c x l d ∧ rr_body r ++ d = body ++ d') →
  (∀ d, next_tail c x l d → ∃ d', chunk_tail c' l d' ∧ rr_body r ++ d = body ++ d') →
  read_answers (x :: l) r c out.
Proof.
  intros Hc Hok' Hb' H1 H2. apply read_byte. destruct Hr as (_ & _ & Hraw & _). pose proof (zlen_nonneg l).
  set (r' := with_raw (rr_raw r + 1) (with_stage (Stage.Chunked c') (with_body body r))).
  assert (Hn : rr_raw r + 1 ≤ CHUNKED_RAW_LIMIT → read_answers l r' c' out) by (intros; apply IH; split_and!; simpl; done || lia).
  unfold read_answers in Hn. cbn [r' rr_raw rr_status rr_body with_raw with_stage with_body] in Hn. split.
  - intros (Hl & q & Hq & Ha). rewrite Hc in Hq. injection Hq as <-. apply Hn in Ha as (d' & Ht & -> & ? & ?); [|done].
    destruct (H1 d' Ht) as (d & ? & Heq). exists d. rewrite Heq. split_and!; try done. lia.
  - intros (d & Ht & -> & Hl & ?). destruct (H2 d Ht) as (d' & Ht' & Heq). split; [lia|]. eexists. split; [exact Hc|].
    apply Hn; [lia|]. exists d'. rewrite <-Heq. split_and!; try done. lia.
Qed.

Lemma read_same c' :
  chunked c x [] r = Ok (with_stage (Stage.Chunked c') r, 1) → stage_ok (Stage.Chunked c') →
  zlen (rr_body r) + announced (Stage.Chunked c') ≤ RESPONSE_BODY_LIMIT →
  (∀ d, next_tail c x l d ↔ chunk_tail c' l d) → read_answers (x :: l) r c out.
Proof.
  intros Hc Hok Hb H. apply (read_step c' (rr_body r)); [|done|done|..].
  - rewrite Hc. by destruct r.
  - intros d Hd. exists d. split; [by apply H|done].
  - intros d Hd. exists d. split; [by apply H|done].
Qed.

Lemma read_none q :
  chunked c x [] r = Err q →
  (∀ d, next_tail c x l d → zlen (rr_body r ++ d) ≤ RESPONSE_BODY_LIMIT → False) → read_answers (x :: l) r c out.
Proof.
  intros Hc Hf. apply read_byte. rewrite Hc. split; [by intros (_ & ? & [=] & _)|].
  intros (d & Ht & _ & Hl & _). by destruct (Hf d Ht).
Qed.
End Bytes.

Lemma read_size digits value x l r out :
  (∀ r c, chunk_reader c r → read_answers l r c out) → chunk_reader (Chunk.Size digits value) r →
  read_answers (x :: l) r (Chunk.Size digits value) out.
Proof.
  intros IH Hr. pose proof Hr as (_ & Hok & _ & Hb). simpl in Hok, Hb. unfold CHUNK_SIZE_DIGITS in Hok.
  destruct ((x =? CR) && (0 <? digits)) eqn:E1; [|destruct (is_hexdigit x && (digits <? CHUNK_SIZE_DIGITS)) eqn:E2].
  - apply andb_prop in E1 as [Hx%Z.eqb_eq Hd%Z.ltb_lt]. apply (read_same x l r _ out IH Hr (Chunk.SizeLf value)).
    + unfold chunked. by rewrite Hx, (proj2 (Z.ltb_lt 0 digits)) by done.
    + simpl. unfold CHUNK_SIZE_DIGITS. pose proof (Z.pow_le_mono_r 16 digits 7). lia.
    + done.
    + intros d. subst x. simpl. split; [intros [(_ & _ & H)|([=] & _)]; done|]. intros H. by left.
  - apply (read_same x l r _ out IH Hr (Chunk.Size (digits + 1) (value * 16 + hexdigit_value x))).
    + unfold chunked. by rewrite E1, E2.
    + apply andb_prop in E2 as [Hx%hexdigit_value_range Hd%Z.ltb_lt]. simpl. unfold CHUNK_SIZE_DIGITS in *.
      rewrite Z.pow_add_r by lia. lia.
    + done.
    + apply andb_prop in E2 as [Hx Hd%Z.ltb_lt]. intros d. unfold next_tail. split.
      * intros [(-> & _)|(_ & _ & H)]; [done|exact H].
      * intros H. right. unfold CHUNK_SIZE_DIGITS in Hd. done.
  - apply (read_none x l r _ out Hr ResponseRefusal.Chunk).
    + unfold chunked. by rewrite E1, E2.
    + intros d Ht _. unfold next_tail, CHUNK_SIZE_DIGITS in *. destruct Ht as [(-> & Hd & _)|(Hx & Hd & _)].
      * rewrite Z.eqb_refl in E1. lia.
      * rewrite Hx in E2. simpl in E2. lia.
Qed.

(** A decoder state that waits for one byte [b]. *)
Lemma read_expected b c c' x l r out :
  (∀ r c, chunk_reader c r → read_answers l r c out) → chunk_reader c r →
  (∀ y, chunked c y [] r = if y =? b then Ok (with_stage (Stage.Chunked c') r, 1) else Err ResponseRefusal.Chunk) →
  stage_ok (Stage.Chunked c') → announced (Stage.Chunked c') = announced (Stage.Chunked c) →
  (∀ y d, next_tail c y l d ↔ y = b ∧ chunk_tail c' l d) → read_answers (x :: l) r c out.
Proof.
  intros IH Hr Hc Hok Ha H. pose proof Hr as (_ & _ & _ & Hb). rewrite <-Ha in Hb. specialize (Hc x).
  destruct (Z.eqb_spec x b) as [->|Hx].
  - apply (read_same b l r c out IH Hr c'); [done..|]. intros d. rewrite H. naive_solver.
  - apply (read_none x l r c out Hr ResponseRefusal.Chunk); [done|]. by intros d [? _]%H.
Qed.

Lemma read_size_lf size x l r out :
  (∀ r c, chunk_reader c r → read_answers l r c out) → chunk_reader (Chunk.SizeLf size) r →
  read_answers (x :: l) r (Chunk.SizeLf size) out.
Proof.
  intros IH Hr. pose proof Hr as (_ & Hok & _ & Hb). simpl in Hok, Hb. unfold CHUNK_SIZE_DIGITS in Hok.
  destruct (Z.eqb_spec size 0) as [->|Hn].
  { apply (read_expected LF (Chunk.SizeLf 0) Chunk.EndCr x l r out IH Hr); done. }
  destruct (Z.eqb_spec x LF) as [->|Hx].
  - assert (Hc : chunked (Chunk.SizeLf size) LF [] r =
      if RESPONSE_BODY_LIMIT <? zlen (rr_body r) + size then Err ResponseRefusal.Size
      else Ok (with_stage (Stage.Chunked (Chunk.Data size)) r, 1)).
    { unfold chunked. rewrite Z.eqb_refl, (proj2 (Z.eqb_neq size 0)) by done. replace (sat_add_u64 _ _) with (zlen (rr_body r) + size); [done|].
      unfold sat_add_u64, U64_MAX, RESPONSE_BODY_LIMIT in *. lia. }
    destruct (Z.ltb_spec RESPONSE_BODY_LIMIT (zlen (rr_body r) + size)) as [Hl|Hl].
    + apply (read_none LF l r _ out Hr ResponseRefusal.Size); [done|]. intros d [_ Ht] Hd.
      rewrite (proj2 (Z.eqb_neq size 0)) in Ht by done. destruct Ht as (data & text & decoded & -> & <- & -> & _).
      rewrite !zlen_app in Hd. pose proof (zlen_nonneg decoded). lia.
    + apply (read_same LF l r _ out IH Hr (Chunk.Data size)); [done|simpl; lia|simpl; lia|].
      intros d. unfold next_tail. rewrite (proj2 (Z.eqb_neq size 0)) by done. naive_solver.
  - apply (read_none x l r _ out Hr ResponseRefusal.Chunk); [unfold chunked; by rewrite (proj2 (Z.eqb_neq x LF))|].
    by intros d [? _].
Qed.

Lemma read_data n x l r out :
  (∀ r c, chunk_reader c r → read_answers l r c out) → chunk_reader (Chunk.Data n) r →
  read_answers (x :: l) r (Chunk.Data n) out.
Proof.
  intros IH Hr. pose proof Hr as (_ & Hok & _ & Hb). simpl in Hok, Hb.
  assert (Hz : zlen (rr_body r ++ [x]) = zlen (rr_body r) + 1) by (by rewrite zlen_app).
  apply (read_step x l r _ out IH Hr (if n =? 1 then Chunk.DataCr else Chunk.Data (n - 1)) (rr_body r ++ [x])).
  - unfold chunked. change (zlen [x]) with 1. by rewrite (Z.min_r n 1) by lia.
  - destruct (Z.eqb_spec n 1); simpl; [done|lia].
  - rewrite Hz. destruct (Z.eqb_spec n 1); simpl; lia.
  - intros d' Hd'. exists (x :: d'). split; [|by rewrite <-app_assoc]. exists d'. split; [done|]. by destruct (n =? 1).
  - intros d (d' & -> & Hd'). exists d'. split; [by destruct (n =? 1)|by rewrite <-app_assoc].
Qed.

Lemma read_end_lf x l r out : chunk_reader Chunk.EndLf r → read_answers (x :: l) r Chunk.EndLf out.
Proof.
  intros Hr. apply read_byte; [done|]. pose proof Hr as (_ & _ & Hraw & Hb). simpl in Hb. cbn [chunked next_tail].
  destruct (Z.eqb_spec x LF) as [->|Hx].
  - split.
    + intros (Hl & r' & [= <-] & [-> ->]%answer_done); [|done]. exists []. rewrite app_nil_r.
      change (zlen (@nil Z)) with 0. split_and!; done || lia.
    + intros (d & (_ & -> & ->) & -> & _ & Hl). unfold zlen in Hl. simpl in Hl. split; [lia|]. eexists. split; [done|].
      apply answer_done; [done|]. rewrite app_nil_r. done.
  - split; [by intros (_ & ? & [=] & _)|]. by intros (? & (? & _) & _).
Qed.

Lemma chunked_answers l r c out : chunk_reader c r → read_answers l r c out.
Proof.
  revert r c. induction l as [|x l IH]; intros r c Hr.
  { destruct Hr as (Hs & _). unfold read_answers, answer. rewrite push_nil. simpl. rewrite Hs. split; [done|].
    by intros (d & ?%chunk_tail_nil & _). }
  destruct c as [digits value|size|n| | | |]; [by apply read_size|by apply read_size_lf|by apply read_data|..].
  - by apply (read_expected CR Chunk.DataCr Chunk.DataLf).
  - by apply (read_expected LF Chunk.DataLf (Chunk.Size 0 0)).
  - by apply (read_expected CR Chunk.EndCr Chunk.EndLf).
  - by apply read_end_lf.
Qed.

(** The body after a final head. *)
Lemma answer_body r k status fields length_ is_chunked stage out :
  rr_body r = [] → rr_raw r = 0 →
  framing_fields fields None false = Ok (length_, is_chunked) → (is_chunked = true → length_ = None) →
  body_stage status length_ is_chunked = Ok stage →
  answer (push k (with_stage stage (with_status status (after_head r)))).1 = Some out ↔
  ∃ body, out = (status, body) ∧ body_text status fields k body.
Proof.
  intros Hb Hraw Hf Hc Hs. pose proof (framing_fields_length _ _ _ _ _ Hf ltac:(done)) as Hn.
  unfold body_text. rewrite Hf. unfold body_stage in Hs.
  assert (Hno : (status =? 204) || (status =? 304) = true ↔ status = 204 ∨ status = 304) by lia.
  destruct ((status =? 204) || (status =? 304)) eqn:E; destruct length_ as [n|], is_chunked; try (by specialize (Hc eq_refl)).
  - destruct n; simplify_eq. rewrite answer_done by done. simpl. rewrite Hb. split.
    + intros [-> ->]. by exists [].
    + intros (body & -> & -> & ->%zlen_nil & _). done.
  - injection Hs as <-. rewrite answer_done by done. simpl. rewrite Hb. split.
    + intros [-> ->]. exists []. naive_solver.
    + by intros (body & -> & -> & -> & _).
  - assert (Hs' : (if n =? 0 then Stage.Done else Stage.Length n) = stage) by (destruct n; by simplify_eq). subst stage.
    destruct (Z.eqb_spec n 0) as [->|Hne].
    + rewrite answer_done by done. simpl. rewrite Hb. split.
      * intros [-> ->]. by exists [].
      * intros (body & -> & -> & ->%zlen_nil & _). done.
    + rewrite (answer_length k _ n) by (done || (specialize (Hn n eq_refl); lia)). simpl. rewrite Hb. split.
      * intros [Hz ->]. exists k. split_and!; try done. intros ?%Hno. done.
      * by intros (body & -> & -> & ? & _).
  - injection Hs as <-. destruct out as [status' body].
    pose proof (chunked_answers k (with_stage (Stage.Chunked (Chunk.Size 0 0)) (with_status status (after_head r)))
      (Chunk.Size 0 0) (status', body)) as Ha.
    unfold read_answers in Ha. rewrite Ha by (split_and!; simpl; rewrite ?Hb, ?Hraw; done). clear Ha.
    cbn [rr_body rr_raw rr_status with_stage with_status with_heads with_head after_head]. rewrite Hb, Hraw.
    setoid_rewrite chunk_tail_size. split.
    + intros (d & Ht & [= -> ->] & Hl & Hr). exists d. split; [done|]. split_and!; try done. intros ?%Hno. done.
    + intros (body' & [= -> ->] & Ht & Hl & Hr & _). by exists body'.
  - by simplify_eq/=.
Qed.

(** A reader between heads. *)
Definition head_reader (r : ResponseReader) : Prop :=
  rr_stage r = Stage.Head ∧ rr_head r = [] ∧ rr_body r = [] ∧ rr_raw r = 0 ∧ rr_interim r ≤ INTERIM_LIMIT.

Lemma with_head_id r : rr_head r = [] → with_head [] r = r.
Proof. intros H. destruct r. simpl in *. by subst. Qed.

Lemma read_answer_text l r status body :
  head_reader r → answer (push l r).1 = Some (status, body) →
  answer_text (INTERIM_LIMIT - rr_interim r) (HEAD_LIMIT - rr_heads r) l status body.
Proof.
  revert r. induction l as [l IH] using (induction_ltof1 _ (@length Z)). unfold ltof in IH.
  intros r (Hs & Hh & Hb & Hraw & Hint) Ha. destruct (answer_head _ _ _ Hs Ha) as (h & k & r' & -> & Hk & He & Hl & Heh & Ha').
  rewrite Hh in He, Hl, Heh. simpl in He, Hl, Heh.
  apply end_of_head_Ok in Heh as (line & fields & status' & Htext & Hok & H); [|done]. simpl in Htext, H. subst h.
  assert (Hkl : (length k < length (head_text line fields ++ k))%nat).
  { rewrite length_app. unfold head_text. rewrite length_app. simpl. lia. }
  destruct H as [(Hi & Hlt & ->)|(H2 & length_ & is_chunked & stage & Hf & Hc & Hbs & ->)].
  - apply IH in Ha' as (interims & line' & fields' & text & -> & Hints & Hroom & Hlimit & Hok' & H2 & Hbody); [|done|split_and!; simpl; done || lia].
    cbn [rr_interim rr_heads rr_head with_interim after_head with_heads with_head] in *.
    exists ((line, fields) :: interims), line', fields', text. unfold heads_text in *. simpl.
    split; [by rewrite <-!app_assoc|]. split; [constructor; [by exists status'|done]|]. split; [lia|].
    split; [|done]. rewrite <-!app_assoc, zlen_app. lia.
  - apply (answer_body _ k status' fields length_ is_chunked stage) in Ha' as (body' & [= -> ->] & Hbody); try done.
    exists [], line, fields, k. unfold heads_text. simpl. split_and!; try done; simpl; lia.
Qed.

Lemma answer_text_read room limit l r status body :
  head_reader r → answer_text room limit l status body →
  room ≤ INTERIM_LIMIT - rr_interim r → limit ≤ HEAD_LIMIT - rr_heads r →
  answer (push l r).1 = Some (status, body).
Proof.
  intros Hr (interims & line & fields & text & -> & Hints & Hroom & Hlimit & Hok & H2 & Hbody).
  revert r room limit Hr Hroom Hlimit. induction interims as [|[line' fields'] interims IH]; intros r room limit Hr Hroom Hlimit Hi Hh.
  - simpl in *. destruct Hr as (Hs & Hhd & Hb & Hraw & _). unfold body_text in Hbody.
    destruct (framing_fields fields None false) as [[length_ is_chunked]|] eqn:Hf; [|done].
    assert (Hc : is_chunked = true → length_ = None) by (intros ->; by destruct length_).
    assert (∃ stage, body_stage status length_ is_chunked = Ok stage) as [stage Hbs].
    { unfold body_stage. destruct length_ as [n|], is_chunked; try done.
      - destruct Hbody as (_ & _ & Hn). destruct n; [by eexists|..]; (destruct (_ || _) eqn:E; [|by eexists]); exfalso; lia.
      - destruct Hbody as (_ & _ & _ & Hn). destruct (_ || _) eqn:E; [exfalso; lia|by eexists].
      - destruct Hbody as (_ & _ & Hn). destruct (_ || _) eqn:E; [by eexists|exfalso; lia]. }
    erewrite push_head_text; [|done..|lia|].
    2: { apply end_of_head_Ok; [apply head_text_ends|]. exists line, fields, status. split; [done|]. split; [done|].
         right. split; [done|]. by exists length_, is_chunked, stage. }
    apply (answer_body (with_head (head_text line fields) r) text status fields length_ is_chunked stage); try done.
    exists body. split; [done|]. unfold body_text. by rewrite Hf.
  - apply Forall_cons in Hints as [(status' & Hok' & Hs') Hints]. unfold heads_text in *. simpl in Hroom, Hlimit |- *.
    rewrite <-!app_assoc, zlen_app in Hlimit. rewrite <-!app_assoc.
    destruct Hr as (Hs & Hhd & Hb & Hraw & Hint). pose proof (zlen_nonneg (heads_text interims ++ head_text line fields)) as Hz.
    unfold heads_text in Hz. erewrite push_head_text; [|done..|lia|].
    2: { apply end_of_head_Ok; [apply head_text_ends|]. exists line', fields', status'. split; [done|]. split; [done|].
         left. split; [done|]. split; [simpl; lia|done]. }
    apply (IH Hints _ (room - 1) (limit - zlen (head_text line' fields'))); simpl; try lia.
    split_and!; simpl; done || lia.
Qed.

(** The upstream reader accepts exactly the grammar: fed any bytes, it completes with a status
    and a body just when the bytes are at most four interim answers (100, 102 or 103) and a final
    one of status 200 to 599, their heads together within 16,384 bytes and every line well formed,
    followed by exactly the body their framing fields announce, as such or in chunks, within its
    limits, and nothing after it. *)
Theorem reader_accepts bytes status body :
  answer (push bytes ResponseReader_new).1 = Some (status, body) ↔
  answer_text INTERIM_LIMIT HEAD_LIMIT bytes status body.
Proof.
  split.
  - apply (read_answer_text bytes ResponseReader_new). done.
  - intros H. by apply (answer_text_read INTERIM_LIMIT HEAD_LIMIT).
Qed.

