(* ===== verification/Http1Render.v ===== *)
(** * What the gate writes, read back; and what it frames

    Every response [render_response] writes is read back by the upstream reader, and [frame]
    finds exactly one request, whatever follows it. *)

From S2P Require Import Prelude Slices Sha256 Json Render Observation Inet Http1 Http1Reader Http1Answer.
(** ** Responses *)

(** A property of every status the gate relays, checked for each. *)
Lemma every_status (P : Z → bool) :
  forallb P (seqZ 200 400) = true → ∀ status, 200 ≤ status ≤ 599 → P status = true.
Proof. rewrite forallb_forall. intros H status Hs. apply H, list_elem_of_In, elem_of_seqZ. lia. Qed.

Lemma status_digits status :
  200 ≤ status ≤ 599 →
  length (decimal status) = 3%nat ∧ forallb is_digit (decimal status) = true ∧ digits_value (decimal status) = status ∧
  forallb is_field_byte (bytes_of (reason status)) = true ∧ (length (bytes_of (reason status)) ≤ 40)%nat.
Proof.
  intros Hs. pose proof (every_status (λ s, Nat.eqb (length (decimal s)) 3 && forallb is_digit (decimal s)
    && (digits_value (decimal s) =? s) && forallb is_field_byte (bytes_of (reason s))
    && Nat.leb (length (bytes_of (reason s))) 40) ltac:(vm_compute; reflexivity) status Hs) as H.
  repeat apply andb_prop in H as [H ?]. apply Nat.eqb_eq in H. split_and!; try done; [lia|by apply Nat.leb_le].
Qed.

Lemma decimal_length_line n : 0 ≤ n → decimal n = digits_of n.
Proof. intros Hn. unfold decimal. by rewrite (proj2 (Z.ltb_ge n 0)). Qed.

Definition response_line (status : Z) : list Z := bytes_of "HTTP/1.1 " ++ decimal status ++ [32] ++ bytes_of (reason status).
Definition length_line (n : Z) : list Z := bytes_of "Content-Length: " ++ decimal n.
Definition response_fields (status n : Z) : list (list Z) :=
  [bytes_of "Content-Type: application/json"]
  ++ (if (status =? 204) || (status =? 304) then [] else [length_line n]) ++ [bytes_of "Connection: close"].

Lemma render_response_text status body bytes :
  render_response status body = Ok bytes →
  200 ≤ status ≤ 599 ∧ zlen body ≤ RESPONSE_BODY_LIMIT ∧ ((status = 204 ∨ status = 304) → body = []) ∧
  bytes = head_text (response_line status) (response_fields status (zlen body)) ++ body.
Proof.
  unfold render_response. destruct (_ && _) eqn:E1; [|done]. cbn [negb].
  destruct (Z.ltb_spec RESPONSE_BODY_LIMIT (zlen body)); [done|]. destruct (_ && negb _) eqn:E2; [done|]. intros Hr.
  apply (f_equal (λ out, match out with Ok b => b | Err _ => [] end)) in Hr. cbv beta iota in Hr. subst bytes. split; [lia|]. split; [done|]. split.
  { intros Hn. apply andb_false_iff in E2 as [E2|E2]; [lia|]. apply negb_false_iff, bool_decide_eq_true in E2. done. }
  unfold response_fields, head_text, response_line, length_line.
  generalize (bytes_of "HTTP/1.1 "), (bytes_of "Content-Type: application/json"), (bytes_of "Content-Length: "),
    (bytes_of "Connection: close"), (bytes_of (reason status)). intros version media length_name connection why.
  destruct ((status =? 204) || (status =? 304)); cbn [negb app]; rewrite !lines_text_cons;
    change (lines_text []) with (@nil Z); rewrite app_nil_r, <-!app_assoc; cbn [app]; by rewrite <-!app_assoc.
Qed.

Lemma digit_not_space b : is_digit b = true → is_ascii_whitespace b = false.
Proof. unfold is_digit, is_ascii_whitespace. lia. Qed.

Lemma trim_digits l : Forall (λ b, is_digit b = true) l → trim_ascii (32 :: l) = l.
Proof.
  intros H. unfold trim_ascii. simpl. assert (Hs : ∀ k, Forall (λ b, is_digit b = true) k → trim_start k = k).
  { intros k Hk. destruct Hk as [|b k Hb]; [done|]. simpl. by rewrite (digit_not_space b Hb). }
  rewrite (Hs l H), (Hs (rev l)) by (by apply Forall_rev). apply rev_involutive.
Qed.

Lemma length_line_value n : 0 ≤ n → field_value (length_line n) (bytes_of "content-length") = Some (decimal n).
Proof.
  intros Hn. unfold length_line. destruct (digits_of_spec n Hn) as (Hd & _). rewrite <-(decimal_length_line n Hn) in Hd.
  generalize dependent (decimal n). intros digits Hd. unfold field_value.
  change (bytes_of "Content-Length: ") with (bytes_of "Content-Length" ++ [58; 32]). rewrite <-app_assoc.
  change (position _ _) with (Some 14%nat). cbn [mbind option_bind].
  change (take 14 _) with (bytes_of "Content-Length"). change (drop 15 _) with (32 :: digits).
  rewrite trim_digits by done. reflexivity.
Qed.

Lemma decimal_digits n : 0 ≤ n → forallb is_digit (decimal n) = true ∧ digits_value (decimal n) = n ∧ decimal n ≠ [].
Proof.
  intros Hn. rewrite decimal_length_line by done. destruct (digits_of_spec n Hn) as (Hd & Hv & Hl & _).
  split; [by apply forallb_digits|]. split; [done|]. by destruct (digits_of n); [simpl in Hl; lia|].
Qed.

Lemma decimal_short n k : 0 ≤ n < 10 ^ Z.of_nat k → (0 < k)%nat → (length (decimal n) ≤ k)%nat.
Proof.
  intros Hn Hk. rewrite decimal_length_line by lia. destruct (digits_of_canonical n ltac:(lia)) as (Hd & Hne & Hh).
  destruct (digits_of_spec n ltac:(lia)) as (_ & Hv & _). destruct (digits_of n) as [|d l] eqn:E; [done|].
  destruct (Nat.le_gt_cases (length (d :: l)) k) as [|Hl]; [done|]. exfalso. simpl in Hl.
  assert (Hd48 : d ≠ 48) by (intros ->; specialize (Hh eq_refl); injection Hh as ->; simpl in Hl; lia).
  apply Forall_cons in Hd as [Hd0%is_digit_bounds Hd]. rewrite digits_value_cons in Hv.
  pose proof (digits_value_nonneg l Hd). pose proof (Z.pow_le_mono_r 10 (Z.of_nat k) (Z.of_nat (length l))). nia.
Qed.


Lemma response_fields_ok status n : 0 ≤ n → Forall (λ field, field_line_ok field = true) (response_fields status n).
Proof.
  intros Hn. unfold response_fields. apply Forall_app. split; [by repeat constructor|]. apply Forall_app.
  split; [|by repeat constructor]. destruct (_ || _); repeat constructor.
  destruct (decimal_digits n Hn) as (Hd & _). unfold length_line. generalize dependent (decimal n). intros digits Hd.
  unfold field_line_ok. change (bytes_of "Content-Length: ") with (bytes_of "Content-Length" ++ [58; 32]). rewrite <-app_assoc.
  change (position _ _) with (Some 14%nat). cbn [mbind option_bind].
  change (take 14 _) with (bytes_of "Content-Length"). change (drop 15 _) with (32 :: digits). apply andb_true_intro.
  split; [reflexivity|]. cbn [forallb]. apply andb_true_intro. split; [reflexivity|].
  apply forallb_forall. intros b Hb. rewrite forallb_forall in Hd. specialize (Hd b Hb).
  unfold is_digit, is_field_byte in *. lia.
Qed.

Lemma response_framing status n :
  0 ≤ n ≤ RESPONSE_BODY_LIMIT →
  framing_fields (response_fields status n) None false =
  Ok (if (status =? 204) || (status =? 304) then None else Some n, false).
Proof.
  intros Hn. unfold response_fields. destruct (_ || _); [reflexivity|].
  destruct (decimal_digits n ltac:(lia)) as (Hd & Hv & Hne). cbn [app]. cbn [framing_fields].
  change (field_value (bytes_of "Content-Type: application/json") (bytes_of "content-length")) with (@None (list Z)).
  change (field_value (bytes_of "Content-Type: application/json") (bytes_of "transfer-encoding")) with (@None (list Z)).
  change (field_value (bytes_of "Content-Type: application/json") (bytes_of "content-encoding")) with (@None (list Z)).
  cbv iota. rewrite length_line_value by lia.
  assert (Hl : Nat.ltb LENGTH_DIGITS (length (decimal n)) = false).
  { apply Nat.ltb_ge. apply (decimal_short n 7); [unfold RESPONSE_BODY_LIMIT in Hn; lia|lia]. }
  rewrite Hl, Hd, Hv. rewrite (bool_decide_eq_false_2 (is_Some None)) by (by intros []).
  rewrite bool_decide_eq_false_2 by done. cbn [orb negb]. rewrite (proj2 (Z.ltb_ge RESPONSE_BODY_LIMIT n)) by lia.
  reflexivity.
Qed.

(** Every response the gate renders reads back as itself: fed to the upstream reader, in any
    pieces, it completes with the same status and the same body. *)
Theorem rendered_response_is_read_back status body bytes pieces :
  render_response status body = Ok bytes → concat pieces = bytes →
  answer (fold_left (λ r piece, (push piece r).1) pieces ResponseReader_new) = Some (status, body).
Proof.
  intros Hr Hp. rewrite push_pieces, Hp. clear pieces Hp. apply render_response_text in Hr as (Hs & Hl & Hno & ->).
  destruct (status_digits status Hs) as (Hd3 & Hd & Hv & Hrf & Hrl). pose proof (zlen_nonneg body) as Hb0.
  apply (answer_text_read INTERIM_LIMIT HEAD_LIMIT); [by split_and!| |done..].
  exists [], (response_line status), (response_fields status (zlen body)), body. split; [done|]. split; [done|]. split; [done|].
  split; [|split; [|split; [lia|]]].
  - pose proof (decimal_short (zlen body) 7 ltac:(unfold RESPONSE_BODY_LIMIT in *; lia) ltac:(lia)) as H7.
    unfold heads_text, head_text, response_line, response_fields, length_line. cbn [map concat app]. clear - Hd3 Hrl H7.
    generalize dependent (decimal (zlen body)). intros digits H7. rewrite lines_text_cons.
    unfold zlen, HEAD_LIMIT. destruct (_ || _); cbn [app]; rewrite !lines_text_cons; rewrite !length_app; simpl length; lia.
  - split; [|apply response_fields_ok; done]. apply status_line_spec. exists (decimal status), (bytes_of (reason status)).
    split_and!; done || lia.
  - unfold body_text. rewrite response_framing by done. destruct ((status =? 204) || (status =? 304)) eqn:E.
    + rewrite Hno by lia. split_and!; done || lia.
    + split_and!; [done..|]. lia.
Qed.

Lemma rendered_response_is_read_back_witness :
  answer (fold_left (λ r piece, (push piece r).1)
    (chunks 5 (match render_response 404 (bytes_of "{}") with Ok bytes => bytes | Err _ => [] end)) ResponseReader_new)
  = Some (404, bytes_of "{}").
Proof.
  apply (rendered_response_is_read_back 404 (bytes_of "{}")
    (match render_response 404 (bytes_of "{}") with Ok bytes => bytes | Err _ => [] end)); vm_compute; reflexivity.
Defined.

(** ** Requests *)

(** A head: what ends with the first CRLF CRLF. *)
Definition is_head (text : list Z) : Prop :=
  (∃ before, text = before ++ HEAD_END) ∧ ∀ before after, text = before ++ HEAD_END ++ after → after = [].

Lemma head_unique text text' rest rest' :
  is_head text → is_head text' → text ++ rest = text' ++ rest' → text' = text ∧ rest' = rest.
Proof.
  intros [(b & Hb) Hf] [(b' & Hb') Hf'] Heq. apply app_eq_app in Heq as (k & [[H1 H2]|[H1 H2]]).
  - assert (k = []) as -> by (apply (Hf b'); by rewrite H1, Hb', <-app_assoc). by rewrite app_nil_r in H1.
  - assert (k = []) as -> by (apply (Hf' b); by rewrite H1, Hb, <-app_assoc). by rewrite app_nil_r in H1.
Qed.

Lemma find_head_end_spec l n :
  find_head_end l = Some n ↔ ∃ text rest, l = text ++ rest ∧ is_head text ∧ length text = (n + 4)%nat.
Proof.
  revert n. induction l as [|x l IH]; intros n; cbn [find_head_end].
  { split; [done|]. intros (text & rest & Hl & _ & Hn). apply (f_equal length) in Hl. rewrite length_app in Hl. simpl in Hl. lia. }
  destruct (starts_with HEAD_END (x :: l)) eqn:E.
  - apply starts_with_spec in E as (k & Hk). rewrite Hk. split.
    + intros [= <-]. exists HEAD_END, k. split; [done|]. split; [|done]. split; [by exists []|].
      intros before after H. apply (f_equal length) in H. rewrite !length_app in H. simpl in H.
      apply length_zero_iff_nil. lia.
    + intros (text & rest & Hl & [_ Hfirst] & Hn). f_equal.
      assert (Ht : text = HEAD_END ++ drop 4 text).
      { rewrite <-(take_drop 4 text) at 1. f_equal. apply (f_equal (take 4)) in Hl.
        rewrite (take_app_length' HEAD_END) in Hl by done. by rewrite take_app_le in Hl by lia. }
      apply (Hfirst [] _) in Ht. apply (f_equal length) in Ht. rewrite length_drop in Ht. simpl in Ht. lia.
  - split.
    + destruct (find_head_end l) as [m|]; [|done]. intros [= <-].
      destruct (proj1 (IH m) eq_refl) as (text & rest & -> & [(b & Hb) Hfirst] & Hm). exists (x :: text), rest.
      split; [done|]. split; [|simpl; lia]. split; [by exists (x :: b); rewrite Hb|]. intros [|y before] after H.
      * exfalso. assert (starts_with HEAD_END (x :: text ++ rest) = true); [|congruence]. apply starts_with_spec.
        exists (after ++ rest). change (x :: text ++ rest) with ((x :: text) ++ rest). by rewrite H, <-app_assoc.
      * simpl in H. injection H as _ H. by apply Hfirst in H.
    + intros (text & rest & Hl & [(b & Hb) Hfirst] & Hn). destruct text as [|y text]; [simpl in Hn; lia|].
      simpl in Hl. injection Hl as <- ->. destruct b as [|z b].
      { exfalso. assert (starts_with HEAD_END (x :: text ++ rest) = true); [|congruence]. apply starts_with_spec.
        exists rest. change (x :: text ++ rest) with ((x :: text) ++ rest). by rewrite Hb. }
      destruct n as [|n]; [apply (f_equal length) in Hb; rewrite length_app in Hb; simpl in *; lia|].
      rewrite (proj2 (IH n)); [done|]. exists text, rest. split; [done|]. split; [|simpl in Hn; lia].
      simpl in Hb. injection Hb as <- Hb. split; [by exists b|]. intros before after H.
      apply (Hfirst (x :: before) after). by rewrite H.
Qed.

(** What the head announces, and the body found for it. *)
Definition request_body (head rest body : list Z) (digest : option string) : Prop :=
  match body_length head with
  | Ok (Some n) => (∃ more, rest = body ++ more) ∧ zlen body = n ∧ digest = Some (prefixed body)
  | _ => body = [] ∧ digest = None
  end.

(** The window the head is looked for in. *)
Lemma window_take (received : list Z) :
  take (Z.to_nat (Z.min (zlen received) HEAD_LIMIT)) received = take (Z.to_nat HEAD_LIMIT) received.
Proof.
  unfold HEAD_LIMIT. destruct (Z.le_gt_cases (zlen received) 16384) as [H|H].
  - rewrite Z.min_l, !take_ge by (unfold zlen in *; lia). done.
  - by rewrite Z.min_r by lia.
Qed.

Lemma window_head (received : list Z) n :
  find_head_end (take (Z.to_nat HEAD_LIMIT) received) = Some n ↔
  ∃ text rest, received = text ++ rest ∧ is_head text ∧ length text = (n + 4)%nat ∧ zlen text ≤ HEAD_LIMIT.
Proof.
  rewrite find_head_end_spec. split.
  - intros (text & rest & Hw & Ht & Hn). exists text, (rest ++ drop (Z.to_nat HEAD_LIMIT) received).
    split; [by rewrite app_assoc, <-Hw, take_drop|]. split; [done|]. split; [done|].
    apply (f_equal length) in Hw. rewrite length_take, length_app in Hw. unfold zlen, HEAD_LIMIT in *. lia.
  - intros (text & rest & -> & Ht & Hn & Hl). exists text, (take (Z.to_nat HEAD_LIMIT - length text) rest).
    split; [|done]. by rewrite take_app, (take_ge text) by (unfold zlen in Hl; lia).
Qed.

Lemma body_length_range head n : body_length head = Ok (Some n) → 0 ≤ n ≤ BODY_LIMIT.
Proof.
  unfold body_length. destruct (length_lines head) as [|line [|]]; [done| |done].
  destruct (strip_prefix _ line) as [digits|]; [|done]. destruct (canonical_length digits) eqn:Hc; [|done]. cbn [negb].
  destruct (Z.ltb_spec BODY_LIMIT (digits_value digits)) as [|Hle]; [done|]. intros [= <-].
  unfold canonical_length in Hc. apply andb_prop in Hc as [[_ Hc%forallb_digits%digits_value_nonneg]%andb_prop _]. lia.
Qed.

(** The frame of a head and what follows it. *)
Definition frame_after (text rest : list Z) : HttpFrame.t :=
  match body_length text with
  | Ok (Some n) =>
      if n <=? zlen rest
      then HttpFrame.Request (from_utf8_lossy text) (take (Z.to_nat n) rest) (Some (prefixed (take (Z.to_nat n) rest)))
      else HttpFrame.NeedMore
  | _ => HttpFrame.Request (from_utf8_lossy text) [] None
  end.

Lemma frame_head text rest :
  is_head text → zlen text ≤ HEAD_LIMIT → frame (text ++ rest) = frame_after text rest.
Proof.
  intros Ht Hl. unfold frame, frame_after. rewrite window_take.
  pose proof Ht as [(before & Hb) _]. assert (Hlen : length text = (length before + 4)%nat) by (by rewrite Hb, length_app).
  rewrite (proj2 (window_head _ (length before))) by eauto 10. cbv zeta. rewrite <-Hlen, take_app_length.
  destruct (body_length text) as [[n|]|] eqn:E; [|done..]. apply body_length_range in E.
  change (Z.of_nat (length text)) with (zlen text).
  destruct (Z.leb_spec n (zlen rest)) as [Hn|Hn].
  - rewrite (get_range_at _ text (take (Z.to_nat n) rest) (drop (Z.to_nat n) rest)); [done| |done|].
    + by rewrite take_drop.
    + f_equal. unfold zlen in *. rewrite length_take. lia.
  - unfold get_range. rewrite (proj2 (Z.leb_gt (zlen text + n) _)) by (rewrite zlen_app; lia). by rewrite andb_false_r.
Qed.

Lemma frame_no_head received :
  find_head_end (take (Z.to_nat HEAD_LIMIT) received) = None →
  frame received = if HEAD_LIMIT <=? zlen received then HttpFrame.OversizeHead else HttpFrame.NeedMore.
Proof. intros H. unfold frame. by rewrite window_take, H. Qed.

(** Framing finds the request's end and nothing else: the head is the bytes through the first
    CRLF CRLF, of at most 16,384; the body is exactly as many bytes as its one canonical length
    line says, none without one or where it cannot be framed, and its digest is of those bytes;
    and whatever arrives after a request, or after 16,384 bytes without a head, changes nothing. *)
Theorem frame_finds_the_request received head body digest :
  (frame received = HttpFrame.Request head body digest ↔
   ∃ text rest, received = text ++ rest ∧ is_head text ∧ zlen text ≤ HEAD_LIMIT ∧
     head = from_utf8_lossy text ∧ request_body text rest body digest) ∧
  (∀ more, frame received ≠ HttpFrame.NeedMore → frame (received ++ more) = frame received).
Proof.
  destruct (find_head_end (take (Z.to_nat HEAD_LIMIT) received)) as [n|] eqn:E.
  - apply window_head in E as (text & rest & -> & Ht & Hn & Hl). split.
    + rewrite frame_head by done. split.
      * intros H. exists text, rest. split; [done|]. split; [done|]. split; [done|]. unfold frame_after in H.
        unfold request_body. destruct (body_length text) as [[m|]|] eqn:Eb; [|by simplify_eq..].
        apply body_length_range in Eb. destruct (Z.leb_spec m (zlen rest)); [|done]. simplify_eq. split; [done|].
        split; [exists (drop (Z.to_nat m) rest); by rewrite take_drop|]. split; [|done].
        unfold zlen in *. rewrite length_take. lia.
      * intros (text' & rest' & Heq & Ht' & Hl' & -> & Hb).
        assert (text' = text ∧ rest' = rest) as [-> ->].
        { by apply head_unique. }
        unfold frame_after. unfold request_body in Hb. destruct (body_length text) as [[m|]|]; [|by destruct Hb as [-> ->]..].
        destruct Hb as ((more & ->) & Hz & ->). rewrite zlen_app. pose proof (zlen_nonneg more).
        rewrite (proj2 (Z.leb_le _ _)) by lia. rewrite take_app_length' by (unfold zlen in Hz; lia). done.
    + intros more. rewrite <-app_assoc, !frame_head by done. unfold frame_after.
      destruct (body_length text) as [[m|]|] eqn:Eb; [|done..]. apply body_length_range in Eb.
      destruct (Z.leb_spec m (zlen rest)); [|done]. intros _. rewrite zlen_app. pose proof (zlen_nonneg more).
      rewrite (proj2 (Z.leb_le _ _)) by lia. by rewrite take_app_le by (unfold zlen in *; lia).
  - rewrite frame_no_head by done. split.
    + split; [by destruct (_ <=? _)|]. intros (text & rest & -> & Ht & Hl & _).
      destruct (window_head (text ++ rest) (length text - 4)) as [_ H]. rewrite E in H. discriminate H.
      exists text, rest. split; [done|]. split; [done|]. split; [|done]. destruct Ht as [(b & ->) _]. rewrite length_app. simpl. lia.
    + intros more. destruct (Z.leb_spec HEAD_LIMIT (zlen received)) as [Hl|]; [|done]. intros _.
      rewrite frame_no_head by (rewrite take_app_le; [done|unfold zlen in Hl; lia]).
      rewrite zlen_app. pose proof (zlen_nonneg more). by rewrite (proj2 (Z.leb_le _ _)) by lia.
Qed.

(** ** The one permitted request, framed *)

(** Text of visible ASCII: what names, namespaces and the endpoint are made of. *)
Definition visible (text : string) : Prop := forallb is_graphic (bytes_of text) = true.

Lemma lines_head lines : lines ≠ [] → Forall plain_line lines → is_head (lines_text lines ++ CRLF).
Proof.
  intros Hn Hp. split.
  - destruct (cr_pieces_text lines Hn) as (text & -> & _). exists text. unfold HEAD_END. by rewrite <-app_assoc.
  - intros before after H. by eapply head_ends_once.
Qed.

Lemma length_lines_text first fields :
  Forall plain_line (first :: fields) →
  length_lines (lines_text (first :: fields) ++ CRLF) = List.filter is_length_line fields.
Proof.
  intros Hp. unfold length_lines.
  assert (Hs : split_on LF (lines_text (first :: fields) ++ CRLF) = map (λ line, line ++ [CR]) (first :: fields) ++ [[CR]; []]).
  { apply split_on_spec. split.
    - apply Forall_app. split; [|repeat constructor; unfold CR, LF; set_solver]. apply Forall_map.
      eapply Forall_impl; [done|]. intros line (_ & Hl & _). simpl. rewrite elem_of_app, list_elem_of_singleton. by intros [|].
    - unfold terminated, lines_text. rewrite map_app, concat_app, map_map. unfold CRLF. rewrite <-!app_assoc. f_equal.
      f_equal. apply map_ext. intros line. by rewrite <-app_assoc. }
  rewrite Hs. change (drop 1 _) with (map (λ line, line ++ [CR]) fields ++ [[CR]; []]). rewrite map_app, List.filter_app. simpl (List.filter _ (map _ [_; _])). rewrite app_nil_r. f_equal.
  rewrite map_map. rewrite <-(map_id fields) at 2. apply map_ext. intros line. unfold strip_cr, strip_suffix_byte.
  by rewrite last_snoc, Z.eqb_refl, removelast_last.
Qed.

(** The lines of the rendered request. *)
Definition request_target (verb : Verb) (m : Manifest) : string :=
  let base := "/api/v1/namespaces/" +:+ m_namespace m +:+ "/" +:+ Kind_plural (m_kind m) in
  match verb with Create => "POST " +:+ base | Get => "GET " +:+ base +:+ "/" +:+ m_name m
                | Delete => "DELETE " +:+ base +:+ "/" +:+ m_name m end.
Definition request_length (verb : Verb) (m : Manifest) (uid : option string) : option Z :=
  match verb with Create => Some (m_size m) | Get => None
                | Delete => Some (Z.of_nat (length (delete_options uid))) end.
Definition request_line (verb : Verb) (m : Manifest) : list Z := bytes_of (request_target verb m +:+ " HTTP/1.1").
Definition request_fields (verb : Verb) (m : Manifest) (uid : option string) (endpoint : string) : list (list Z) :=
  [bytes_of ("Host: " +:+ endpoint); bytes_of "Accept: application/json"]
  ++ match request_length verb m uid with
     | Some n => [bytes_of "Content-Type: application/json"; length_line n]
     | None => []
     end.

Lemma bytes_of_decimal n : 0 ≤ n → bytes_of (decimal_str n) = decimal n.
Proof.
  intros Hn. unfold decimal_str. apply bytes_string_bytes. destruct (decimal_digits n Hn) as (Hd%forallb_digits & _).
  eapply Forall_impl; [done|]. intros b Hb%is_digit_bounds. unfold is_byte. lia.
Qed.

Lemma render_request_text verb m uid endpoint :
  0 ≤ m_size m →
  bytes_of (r_head (render_request verb m uid endpoint)) =
  lines_text (request_line verb m :: request_fields verb m uid endpoint) ++ CRLF.
Proof.
  intros Hm. unfold request_line, request_fields, request_target, request_length.
  assert (Hc : bytes_of crlf = CRLF) by reflexivity.
  destruct verb; cbn [render_request r_head app]; rewrite !lines_text_cons; change (lines_text []) with (@nil Z);
    unfold length_line; rewrite !bytes_of_app, ?bytes_of_decimal, Hc, <-!app_assoc by lia; reflexivity.
Qed.

(** Printable ASCII, which every line of the rendered request is. *)
Definition is_text_byte (b : Z) : bool := is_graphic b || (b =? 32).
Definition text_line (line : list Z) : Prop := forallb is_text_byte line = true ∧ line ≠ [].

Lemma text_byte_plain b : is_text_byte b = true → (b ≠ CR) ∧ (b ≠ LF).
Proof. unfold is_text_byte, is_graphic, CR, LF. lia. Qed.

Lemma text_line_plain line : text_line line → plain_line line.
Proof. intros [H Hn]. apply (plain_all _ _ text_byte_plain) in H as [? ?]. done. Qed.

Lemma forallb_impl (f g : Z → bool) l : (∀ b, f b = true → g b = true) → forallb f l = true → forallb g l = true.
Proof. rewrite !forallb_forall. auto. Qed.

Lemma visible_text text : visible text → forallb is_text_byte (bytes_of text) = true.
Proof. apply forallb_impl. unfold is_text_byte. by intros b ->. Qed.

Lemma digits_text l : forallb is_digit l = true → forallb is_text_byte l = true.
Proof. apply forallb_impl. unfold is_digit, is_text_byte, is_graphic. lia. Qed.

Lemma app_nonempty {A} (l k : list A) : l ≠ [] → l ++ k ≠ [].
Proof. by destruct l. Qed.

Lemma request_lines_text verb m uid endpoint :
  visible (m_namespace m) → visible (m_name m) → visible endpoint → 0 ≤ m_size m →
  Forall text_line (request_line verb m :: request_fields verb m uid endpoint).
Proof.
  intros Hns%visible_text Hname%visible_text Hend%visible_text Hm.
  assert (Hk : forallb is_text_byte (bytes_of (Kind_plural (m_kind m))) = true) by (by destruct (m_kind m)).
  constructor.
  - unfold request_line, request_target. destruct verb; rewrite !bytes_of_app;
      (split; [rewrite !forallb_app, Hns, Hk, ?Hname; reflexivity|by apply app_nonempty, app_nonempty]).
  - unfold request_fields. apply Forall_app. split.
    + apply Forall_cons. split; [|by apply Forall_singleton]. rewrite bytes_of_app.
      split; [by rewrite forallb_app, Hend|by apply app_nonempty].
    + destruct (request_length verb m uid) as [n|] eqn:E; [|done]. assert (0 ≤ n) by (destruct verb; simplify_eq/=; lia).
      destruct (decimal_digits n) as (Hd%digits_text & _); [done|].
      apply Forall_cons. split; [done|]. apply Forall_singleton. unfold length_line.
      split; [by rewrite forallb_app, Hd|by apply app_nonempty].
Qed.

(** ASCII is converted as it is. *)
Lemma lossy_ascii l : Forall (λ b, b < 128) l → lossy_loop (length l) l = l.
Proof.
  induction 1 as [|b l Hb _ IH]; [done|]. cbn [length lossy_loop utf8_part]. rewrite (proj2 (Z.ltb_lt b 128)) by done.
  cbn [take drop app]. change (drop 0 l) with l. by rewrite IH.
Qed.

Lemma text_lines_ascii lines : Forall text_line lines → Forall (λ b, b < 128) (lines_text lines ++ CRLF).
Proof.
  intros H. apply Forall_app. split; [|by repeat constructor]. unfold lines_text. apply Forall_concat, Forall_map.
  eapply Forall_impl; [done|]. intros line [Hl _]. apply Forall_app. split; [|by repeat constructor].
  apply forallb_True in Hl || rewrite forallb_forall in Hl. apply Forall_forall. intros b Hb%list_elem_of_In%Hl.
  unfold is_text_byte, is_graphic in Hb. lia.
Qed.

Lemma starts_differently (prefix line : list Z) b c : head prefix = Some b → head line = Some c → b ≠ c → starts_with prefix line = false.
Proof.
  intros Hp Hl Hn. apply not_true_is_false. intros (k & ->)%starts_with_spec. destruct prefix; [done|]. simpl in *. congruence.
Qed.

Lemma host_line_no_length text : is_length_line (bytes_of ("Host: " +:+ text)) = false.
Proof.
  unfold is_length_line. rewrite bytes_of_app. unfold to_ascii_lowercase. rewrite map_app.
  by rewrite (starts_differently (bytes_of "content-length") _ 99 104), (starts_differently (bytes_of "transfer-encoding") _ 116 104).
Qed.

Lemma length_line_is_length n : is_length_line (length_line n) = true.
Proof.
  unfold is_length_line, length_line, to_ascii_lowercase. rewrite map_app. apply orb_true_iff. left. apply starts_with_spec.
  exists (bytes_of ": " ++ map lower_byte (decimal n)). reflexivity.
Qed.

Lemma request_length_lines verb m uid endpoint :
  List.filter is_length_line (request_fields verb m uid endpoint) =
  match request_length verb m uid with Some n => [length_line n] | None => [] end.
Proof.
  unfold request_fields. cbn [app List.filter]. rewrite host_line_no_length.
  change (is_length_line (bytes_of "Accept: application/json")) with false. cbv iota.
  destruct (request_length verb m uid) as [n|]; [|done]. cbn [List.filter].
  change (is_length_line (bytes_of "Content-Type: application/json")) with false. cbv iota.
  by rewrite length_line_is_length.
Qed.

Lemma canonical_decimal n : 0 ≤ n ≤ BODY_LIMIT → canonical_length (decimal n) = true.
Proof.
  intros Hn. unfold canonical_length. destruct (decimal_digits n) as (Hd & _ & Hne); [lia|].
  pose proof (decimal_short n 5 ltac:(unfold BODY_LIMIT in *; lia) ltac:(lia)) as Hl.
  rewrite bool_decide_eq_false_2, (proj2 (Nat.leb_le _ _) Hl), Hd by done. cbn [negb andb].
  rewrite decimal_length_line in * by lia. destruct (digits_of_canonical n) as (_ & _ & Hh); [lia|].
  destruct (Nat.eqb (length (digits_of n)) 1) eqn:E; [done|]. cbn [orb]. rewrite bool_decide_eq_false_2; [done|].
  intros H%Hh. rewrite H in E. done.
Qed.

(** The one request an armed action permits is framed as itself: sent on I04 with a body of
    the announced length, in a head of at most 16,384 bytes, it is framed as the very head and
    body digest the gate compares it with, whatever bytes follow it. *)
Theorem permitted_request_is_framed verb m uid endpoint body more :
  visible (m_namespace m) → visible (m_name m) → visible endpoint → 0 ≤ m_size m →
  let rendered := render_request verb m uid endpoint in
  zlen (bytes_of (r_head rendered)) ≤ HEAD_LIMIT → zlen body ≤ BODY_LIMIT →
  match verb with
  | Create => zlen body = m_size m ∧ prefixed body = m_digest m
  | Get => body = []
  | Delete => body = delete_options uid
  end →
  frame (bytes_of (r_head rendered) ++ body ++ more) = HttpFrame.Request (r_head rendered) body (r_body_digest rendered).
Proof.
  cbv zeta. intros Hns Hname Hend Hm Hl Hb Hbody.
  pose proof (request_lines_text verb m uid endpoint Hns Hname Hend Hm) as Hp.
  pose proof (render_request_text verb m uid endpoint Hm) as Ht.
  pose proof (Forall_impl _ _ _ Hp text_line_plain) as Hplain.
  assert (Hhead : is_head (bytes_of (r_head (render_request verb m uid endpoint)))) by (rewrite Ht; by apply lines_head).
  rewrite frame_head by done. unfold frame_after, from_utf8_lossy.
  rewrite lossy_ascii, string_bytes_string by (rewrite Ht; by apply text_lines_ascii).
  unfold body_length. rewrite Ht, length_lines_text, request_length_lines by done. pose proof (zlen_nonneg body) as Hb0.
  assert (Hn : match request_length verb m uid with
    | Some n => zlen body = n ∧ r_body_digest (render_request verb m uid endpoint) = Some (prefixed body)
    | None => body = [] ∧ r_body_digest (render_request verb m uid endpoint) = None end).
  { destruct verb; simpl; [by destruct Hbody as [-> ->]|done|by rewrite Hbody]. }
  destruct (request_length verb m uid) as [n|]; [|by destruct Hn as [-> ->]]. destruct Hn as [<- ->].
  destruct (decimal_digits (zlen body) Hb0) as (_ & Hv & _). unfold length_line.
  rewrite (proj2 (strip_prefix_spec _ _ _) eq_refl), canonical_decimal, Hv by done. cbn [negb].
  rewrite (proj2 (Z.ltb_ge BODY_LIMIT _)) by lia. rewrite zlen_app. pose proof (zlen_nonneg more).
  rewrite (proj2 (Z.leb_le _ _)) by lia. by rewrite take_app_length' by (unfold zlen; lia).
Qed.

Lemma permitted_request_is_framed_witness :
  let uid := Some "11111111-aaaa-4bbb-8ccc-000000000001" in
  let rendered := render_request Delete pod uid "198.51.100.7:6443" in
  frame (bytes_of (r_head rendered) ++ delete_options uid ++ bytes_of "GET /") =
  HttpFrame.Request (r_head rendered) (delete_options uid) (r_body_digest rendered).
Proof.
  apply (permitted_request_is_framed Delete pod (Some "11111111-aaaa-4bbb-8ccc-000000000001") "198.51.100.7:6443"
    (delete_options (Some "11111111-aaaa-4bbb-8ccc-000000000001")) (bytes_of "GET /"));
    first [reflexivity | apply Z.leb_le; vm_compute; reflexivity].
Defined.

(** A smuggled second request is left where it is. *)
Example surplus_is_not_looked_at :
  frame (bytes_of "GET / HTTP/1.1" ++ CRLF ++ bytes_of "Content-Length: 3" ++ CRLF ++ CRLF ++ bytes_of "abcGET /") =
  frame (bytes_of "GET / HTTP/1.1" ++ CRLF ++ bytes_of "Content-Length: 3" ++ CRLF ++ CRLF ++ bytes_of "abc").
Proof. vm_compute. reflexivity. Qed.

Example length_lines_refused :
  map (λ text, body_length (bytes_of "GET / HTTP/1.1" ++ CRLF ++ bytes_of text ++ CRLF ++ CRLF))
    ["Content-Length: 16384"; "Content-Length: 16385"; "Content-Length: 03"; "content-length: 3";
     "Transfer-Encoding: chunked"; "Host: content-length"] =
  [Ok (Some 16384); Err tt; Err tt; Err tt; Err tt; Ok None].
Proof. vm_compute. reflexivity. Qed.
