(* ===== verification/Config.v ===== *)
(** * The gate's configuration ([host-enforcement/crates/effect-gate/src/config.rs])

    [Config_from_value] with its refusals in the source's order and wording.  The theorem: what
    every accepted configuration satisfies (the facts BIND and ARM rely on). *)

From S2P Require Import Prelude Json Render Types Journal.
Record Run := mkRun {
  run_binding_digest : string;
  run_case_id : string;
  run_request_digest : string;
  run_server_certificate_digest : string;
  run_manifests : list string;
}.

Record Config := mkConfig {
  c_generation : string;
  c_state : State.t;
  c_peer_qualification_digest : string;
  c_endpoint : string;
  c_manifests : gmap string Manifest;
  c_runs : gmap string Run;
  c_prior : PriorBindings;
}.

Definition FIELDS : list string :=
  ["generation"; "brokerChallenge"; "state"; "peerQualificationDigest"; "endpoint"; "manifests";
   "runs"; "priorBindings"].

Definition STATIC_WORKERS_REFUSED : string :=
  "v4 observes the kernel; a static observedWorkers list is refused (convert_v3_config)".

(** [Object::get] with a text key. *)
Definition get (o : Object) (key : string) : option Value := object_get o (jstr key).

Definition text (o : Object) (key : string) : result string string :=
  match (let* v := get o key in as_str v) with
  | Some value => Ok value
  | None => Err ("configuration field " +:+ key +:+ " is missing or not text")
  end.

Definition object (value : option Value) (what : string) : result Object string :=
  match (let* v := value in as_object v) with
  | Some o => Ok o
  | None => Err ("configuration field " +:+ what +:+ " is not an object")
  end.

Definition text_list (value : option Value) (what : string) : result (list string) string :=
  match (let* v := value in as_array v) with
  | None => Err ("configuration field " +:+ what +:+ " is not a list")
  | Some items =>
      match mapM as_str items with
      | Some texts => Ok texts
      | None => Err ("configuration field " +:+ what +:+ " holds a value that is not text")
      end
  end.

Definition manifest_entry (member : JStr * Value) : result (string * Manifest) string :=
  let? digest := result_of_option (jstr_as_str member.1) "a manifest digest is not text" in
  let? entry := object (Some member.2) "manifests entry" in
  let? kind := text entry "kind" in
  let? kind := result_of_option (Kind_parse kind) "a manifest kind is not renderable" in
  let size := let* v := get entry "size" in let* i := as_int v in to_u64 i in
  let? size := result_of_option size "a manifest size is not a byte count" in
  let? api_version := text entry "apiVersion" in
  let? namespace := text entry "namespace" in
  let? name := text entry "name" in
  let? own_digest := text entry "digest" in
  Ok (digest, mkManifest api_version kind namespace name own_digest size).

Definition run_entry (member : JStr * Value) : result (string * Run) string :=
  let? nonce := result_of_option (jstr_as_str member.1) "a run nonce is not text" in
  let? entry := object (Some member.2) "runs entry" in
  let? binding_digest := text entry "bindingDigest" in
  let? case_id := text entry "caseId" in
  let? request_digest := text entry "requestDigest" in
  let? server_certificate_digest := text entry "serverCertificateDigest" in
  let? manifests := text_list (get entry "manifests") "runs manifests" in
  Ok (nonce, mkRun binding_digest case_id request_digest server_certificate_digest manifests).

Definition collect {V} (members : list (string * V)) : gmap string V :=
  fold_left (λ m e, <[e.1 := e.2]> m) members ∅.

(** [collect::<BTreeSet<_>>().len() != len()] *)
Definition has_duplicates (l : list string) : bool :=
  negb (Nat.eqb (size (list_to_set l : gset string)) (length l)).

Definition is_array (v : option Value) : bool := match v with Some (VArray _) => true | _ => false end.

Definition prior_keys : list string := ["executionIds"; "runNonces"; "manifestDigests"; "manifestIdentities"].

Definition prior_from (root : Object) : result PriorBindings string :=
  match get root "priorBindings" with
  | Some (VObject prior) =>
      if Nat.eqb (length prior) 4 && forallb (λ key, is_array (get prior key)) prior_keys then
        let set key := result_map (λ l, list_to_set l : gset string) (text_list (get prior key) "priorBindings") in
        let? execution_ids := set "executionIds" in
        let? run_nonces := set "runNonces" in
        let? manifest_digests := set "manifestDigests" in
        let? manifest_identities := set "manifestIdentities" in
        Ok (mkPriorBindings execution_ids run_nonces manifest_digests manifest_identities)
      else Err "an incomplete priorBindings record"
  | _ => Err "an incomplete priorBindings record"
  end.

Definition require_ok (ok : bool) (message : string) : result unit string := if ok then Ok tt else Err message.

Definition known_field (key : JStr) : bool :=
  match jstr_as_str key with Some name => bool_decide (name ∈ FIELDS) | None => false end.

Definition Config_from_value (document : Value) : result Config string :=
  let? root := object (Some document) "configuration" in
  let? _ := require_ok (negb (bool_decide (is_Some (get root "observedWorkers")))) STATIC_WORKERS_REFUSED in
  let? _ := require_ok (forallb (λ e : JStr * Value, known_field e.1) root) "unknown configuration field" in
  let? generation := text root "generation" in
  let? state := text root "state" in
  let? state := result_of_option (State.parse state) "configuration field state is not a state" in
  let? peer_qualification_digest := text root "peerQualificationDigest" in
  let? endpoint := text root "endpoint" in
  let? members := object (get root "manifests") "manifests" in
  let? manifests := result_map collect (result_mapM manifest_entry members) in
  let? members := object (get root "runs") "runs" in
  let? runs := result_map collect (result_mapM run_entry members) in
  let listed := concat (map run_manifests (str_values runs)) in
  let? _ := require_ok (forallb (λ digest, bool_decide (is_Some (manifests !! digest))) listed)
              "a run manifest is not in the signed profile" in
  let? _ := require_ok (negb (has_duplicates listed)) "a manifest digest resolves to more than one run" in
  let identities := map Manifest_identity (omap (λ digest, manifests !! digest) listed) in
  let? _ := require_ok (negb (has_duplicates identities)) "a manifest identity resolves to more than one manifest" in
  let? prior := prior_from root in
  Ok (mkConfig generation state peer_qualification_digest endpoint manifests runs prior).

(** ** What an accepted configuration satisfies *)

(** Every run's manifests are in the signed profile, a manifest digest belongs to one run and is
    listed once there, and no two listed manifests have the same identity. *)
Record wf_config (c : Config) : Prop := {
  wf_in_profile n r d :
    c_runs c !! n = Some r → d ∈ run_manifests r → is_Some (c_manifests c !! d);
  wf_one_run n1 r1 n2 r2 d :
    c_runs c !! n1 = Some r1 → c_runs c !! n2 = Some r2 →
    d ∈ run_manifests r1 → d ∈ run_manifests r2 → n1 = n2;
  wf_listed_once n r : c_runs c !! n = Some r → NoDup (run_manifests r);
  wf_identities n1 r1 n2 r2 d1 d2 m1 m2 :
    c_runs c !! n1 = Some r1 → c_runs c !! n2 = Some r2 →
    d1 ∈ run_manifests r1 → d2 ∈ run_manifests r2 →
    c_manifests c !! d1 = Some m1 → c_manifests c !! d2 = Some m2 →
    Manifest_identity m1 = Manifest_identity m2 → d1 = d2;
}.

Lemma require_ok_Ok ok message : require_ok ok message = Ok tt ↔ ok = true.
Proof. by destruct ok. Qed.

Lemma size_list_to_set_le (l : list string) : (size (list_to_set l : gset string) ≤ length l)%nat.
Proof.
  induction l as [|x l IH]; [done|]. rewrite list_to_set_cons. cbn [length].
  destruct (decide (x ∈ (list_to_set l : gset string))).
  - replace ({[x]} ∪ list_to_set l) with (list_to_set l : gset string) by set_solver. lia.
  - rewrite size_union, size_singleton by set_solver. lia.
Qed.

Lemma has_duplicates_false l : has_duplicates l = false ↔ NoDup l.
Proof.
  unfold has_duplicates. rewrite negb_false_iff, Nat.eqb_eq.
  induction l as [|x l IH]; [by split; [constructor|]|]. rewrite list_to_set_cons. cbn [length].
  pose proof (size_list_to_set_le l). rewrite NoDup_cons, <-IH.
  destruct (decide (x ∈ l)) as [Hx|Hx].
  - replace ({[x]} ∪ list_to_set l) with (list_to_set l : gset string) by set_solver.
    split; [lia|tauto].
  - rewrite size_union, size_singleton by set_solver. split; [intros; split; [done|lia]|lia].
Qed.

Lemma NoDup_concat_inj {A B} (f : A → list B) (l : list A) i j a b x :
  NoDup (concat (map f l)) → l !! i = Some a → l !! j = Some b → x ∈ f a → x ∈ f b → i = j.
Proof.
  revert i j. induction l as [|c l IH]; intros i j Hl Hi Hj Ha Hb; [done|].
  simpl in Hl. apply NoDup_app in Hl as (_ & Hdisj & Hl).
  assert (Hin : ∀ k y, l !! k = Some y → x ∈ f y → x ∉ f c).
  { intros k y Hk Hy Hc. apply (Hdisj x Hc). apply list_elem_of_In, in_concat.
    exists (f y). split; [|by apply list_elem_of_In].
    apply in_map, list_elem_of_In. by eapply list_elem_of_lookup_2. }
  destruct i as [|i], j as [|j]; simpl in *; simplify_eq; [done|exfalso; by eapply Hin..|].
  f_equal. by eapply IH.
Qed.

Lemma omap_lookup_all {V} (m : gmap string V) (keys : list string) (i : nat) k :
  (∀ k, k ∈ keys → is_Some (m !! k)) → keys !! i = Some k → omap (λ k, m !! k) keys !! i = m !! k.
Proof.
  revert i. induction keys as [|k' keys IH]; intros i Hall Hi; [done|].
  destruct (Hall k') as [v Hv]; [by left|]. cbn [omap list_omap]. rewrite Hv.
  destruct i as [|i]; simpl in *; [congruence|]. apply IH; [|done]. intros ? ?. apply Hall. by right.
Qed.

Lemma str_values_lookup {V} (m : gmap string V) n v :
  m !! n = Some v → ∃ i, str_keys m !! i = Some n ∧ str_values m !! i = Some v.
Proof.
  intros Hn. destruct (list_elem_of_lookup_1 (str_keys m) n) as [i Hi].
  { apply elem_of_str_keys. eauto. }
  exists i. split; [done|]. unfold str_values. rewrite (omap_lookup_all m _ i n); [done| |done].
  intros k. apply elem_of_str_keys.
Qed.

Lemma NoDup_concat_each {A B} (f : A → list B) (l : list A) a :
  NoDup (concat (map f l)) → a ∈ l → NoDup (f a).
Proof.
  induction l as [|c l IH]; simpl; [by intros _ ?%elem_of_nil|].
  intros (Hc & _ & Hl)%NoDup_app [->|Ha]%elem_of_cons; auto.
Qed.

Lemma elem_of_listed {A B} (f : A → list B) (l : list A) a x : a ∈ l → x ∈ f a → x ∈ concat (map f l).
Proof.
  intros Ha Hx. apply list_elem_of_In, in_concat. exists (f a).
  split; [apply in_map|]; by apply list_elem_of_In.
Qed.

Lemma NoDup_map_omap_inj (m : gmap string Manifest) (l : list string) d1 d2 m1 m2 :
  NoDup (map Manifest_identity (omap (λ d, m !! d) l)) → d1 ∈ l → d2 ∈ l →
  m !! d1 = Some m1 → m !! d2 = Some m2 → Manifest_identity m1 = Manifest_identity m2 → d1 = d2.
Proof.
  induction l as [|d l IH]; intros Hl H1 H2 Hm1 Hm2 He; [by apply elem_of_nil in H1|].
  cbn [omap list_omap] in Hl.
  assert (Hin : ∀ d' m', d' ∈ l → m !! d' = Some m' →
                 Manifest_identity m' ∈ map Manifest_identity (omap (λ d, m !! d) l)).
  { intros d' m' ? ?. apply list_elem_of_fmap_2, list_elem_of_omap. eauto. }
  apply elem_of_cons in H1 as [->|H1], H2 as [->|H2]; [done| | |].
  - rewrite Hm1 in Hl. simpl in Hl. apply NoDup_cons in Hl as [Hn _]. exfalso. apply Hn. rewrite He. eauto.
  - rewrite Hm2 in Hl. simpl in Hl. apply NoDup_cons in Hl as [Hn _]. exfalso. apply Hn. rewrite <-He. eauto.
  - destruct (m !! d); [simpl in Hl; apply NoDup_cons in Hl as [_ Hl]|]; by apply IH.
Qed.

(** A configuration the gate accepts is well formed. *)
Theorem Config_from_value_wf document c : Config_from_value document = Ok c → wf_config c.
Proof.
  unfold Config_from_value. rewrite result_bind_Ok. intros (root & _ & H).
  do 7 (apply result_bind_Ok in H as (? & _ & H)).
  apply result_bind_Ok in H as (members & _ & H).
  apply result_bind_Ok in H as (manifests & _ & H).
  apply result_bind_Ok in H as (members' & _ & H).
  apply result_bind_Ok in H as (runs & _ & H).
  apply result_bind_Ok in H as ([] & Hin%require_ok_Ok & H).
  apply result_bind_Ok in H as ([] & Hdup%require_ok_Ok & H).
  apply result_bind_Ok in H as ([] & Hid%require_ok_Ok & H).
  apply result_bind_Ok in H as (prior & _ & H). injection H as <-.
  apply negb_true_iff, has_duplicates_false in Hdup, Hid.
  assert (Hlisted : ∀ n r d, runs !! n = Some r → d ∈ run_manifests r →
            d ∈ concat (map run_manifests (str_values runs))).
  { intros n r d Hn Hd. eapply elem_of_listed; [|done]. apply elem_of_str_values. eauto. }
  split; simpl.
  - intros n r d Hn Hd. rewrite forallb_forall in Hin. specialize (Hin d).
    rewrite <-list_elem_of_In, bool_decide_eq_true in Hin. eauto.
  - intros n1 r1 n2 r2 d H1 H2 Hd1 Hd2.
    destruct (str_values_lookup _ _ _ H1) as (i & Hi & Hvi).
    destruct (str_values_lookup _ _ _ H2) as (j & Hj & Hvj).
    assert (i = j) as -> by (by eapply NoDup_concat_inj). congruence.
  - intros n r Hn. eapply (NoDup_concat_each run_manifests); [done|]. apply elem_of_str_values. eauto.
  - intros. eapply NoDup_map_omap_inj; eauto.
Qed.

(** ** A concrete configuration *)

Definition sample_run : Doc :=
  DObject [("bindingDigest", DStr "binding"); ("caseId", DStr "case"); ("requestDigest", DStr "request");
           ("serverCertificateDigest", DStr "certificate"); ("manifests", DArray [DStr (m_digest pod)])].

Definition sample_document (runs : list (string * Doc)) : Doc :=
  DObject [("generation", DStr "generation-1"); ("state", DStr "ACTIVE");
           ("peerQualificationDigest", DStr "peer"); ("endpoint", DStr "198.51.100.7:6443");
           ("manifests", DObject [(m_digest pod,
              DObject [("apiVersion", DStr "v1"); ("kind", DStr "Pod"); ("namespace", DStr (m_namespace pod));
                       ("name", DStr (m_name pod)); ("digest", DStr (m_digest pod)); ("size", DInt 1234)])]);
           ("runs", DObject runs);
           ("priorBindings", DObject (map (λ key, (key, DArray [])) prior_keys))].

Definition sample_config : Config :=
  mkConfig "generation-1" State.Active "peer" "198.51.100.7:6443" {[ m_digest pod := pod ]}
    {[ "nonce" := mkRun "binding" "case" "request" "certificate" [m_digest pod] ]} PriorBindings_default.

Lemma Config_from_value_wf_witness :
  Config_from_value (doc_to_value (sample_document [("nonce", sample_run)])) = Ok sample_config ∧
  wf_config sample_config.
Proof.
  split; [vm_compute; reflexivity|].
  apply (Config_from_value_wf (doc_to_value (sample_document [("nonce", sample_run)]))).
  vm_compute. reflexivity.
Defined.

(** A digest in two runs is refused. *)
Example a_digest_in_two_runs :
  Config_from_value (doc_to_value (sample_document [("nonce", sample_run); ("other", sample_run)])) =
  Err "a manifest digest resolves to more than one run".
Proof. vm_compute. reflexivity. Qed.
