(* ===== verification/Gate.v ===== *)
(** * The gate ([host-enforcement/crates/effect-gate/src/gate.rs]): definitions

    The I05 gate state machine for one generation and its single channel, as the source has it:
    the [Gate] record, every event handler as a function from the gate to the gate and what the
    event produced, composed as [Gate::handle] composes them.  The theorems are in [GateSteps]
    and the files after it.

    A [&mut self] method of the source is a function [Gate → Gate * R]; [actions] is the source's
    [BTreeMap<u16, Action>], read in key order through [btree_values].  The gate is generic in its
    stores ([Stores]) and its worker observation ([WorkerObserver]), which the source holds as
    [Box<dyn ..>]. *)

From S2P Require Import Prelude Sha256 Json Schema Frame Render Types Journal Observation Config.
(** ** Vocabulary *)

Record Stamp := mkStamp { st_execution_id : string; st_action_id : Z }.
#[export] Instance Stamp_eq_dec : EqDecision Stamp.
Proof. solve_decision. Defined.

Module FrameInput.
Inductive t := Bytes (raw : list Z) | NotBytes | Value (v : Json.Value).
End FrameInput.

Record Upstream := mkUpstreamResponse {
  u_http_status : Z;
  u_body_digest : string;
  u_uid : option string;
  u_resource_version : option string;
}.

Module Event.
Inductive t :=
| Frame (input : FrameInput.t)
| Backlog (conn : string)
| Accept (conn : string)
| Request (conn certificate_digest head : string) (body_digest : option string)
| UpstreamResponse (conn : string) (response : Upstream)
| UpstreamLost (conn : string)
| UpstreamTimeout (conn : string)
| StorageFailNext (torn : bool)
| MarkerFailNext
| StorageFailAfter (after : Z)
| DrainRequest
| Expire
| ChannelLost
| SecondChannel
| PeerChanged
| GateRestart
| AnswerLate
| Disconnect (conn : string).
End Event.

Module ChannelRefusal.
Inductive t := ChannelExists | GenerationChannelUsed.
#[global] Instance t_eq_dec : EqDecision t.
Proof. solve_decision. Defined.
End ChannelRefusal.

Module ConnectionRefusal.
Inductive t :=
| ConnectionClosed | ProtocolViolation | NotActive | ExecutionExpired | StampNone | StampMismatch
| AlreadyConsumed | CertificateMismatch | RequestMismatch | StorageFailure.
#[global] Instance t_eq_dec : EqDecision t.
Proof. solve_decision. Defined.
Definition as_str (r : t) : string :=
  match r with
  | ConnectionClosed => "CONNECTION_CLOSED"
  | ProtocolViolation => "PROTOCOL_VIOLATION"
  | NotActive => "NOT_ACTIVE"
  | ExecutionExpired => "EXECUTION_EXPIRED"
  | StampNone => "STAMP_NONE"
  | StampMismatch => "STAMP_MISMATCH"
  | AlreadyConsumed => "ALREADY_CONSUMED"
  | CertificateMismatch => "CERTIFICATE_MISMATCH"
  | RequestMismatch => "REQUEST_MISMATCH"
  | StorageFailure => "STORAGE_FAILURE"
  end.
(** The refusals the [correlationRefusals] counter counts. *)
Definition is_correlation (r : t) : bool :=
  match r with
  | StampNone | CertificateMismatch | RequestMismatch | StampMismatch | AlreadyConsumed => true
  | _ => false
  end.
End ConnectionRefusal.

Module OutputKind.
Inductive t :=
| Nothing
| Response (payload : Doc)
| Fatal (reason : FatalReason.t)
| RefusedChannel (refusal : ChannelRefusal.t)
| Stamp (stamp : option Gate.Stamp)
| Forward (action_id : Z)
| Close (reason : ConnectionRefusal.t)
| Upstream (classification : Classification.t) (relayed aborted : bool)
| LateUpstream
| ChannelEnd (how : ChannelEnd.t)
| RestartState (state : State.t)
| Denied (ids : list Z).
End OutputKind.

Record Output := mkOutput {
  o_kind : OutputKind.t;
  o_drain : option DrainAnswer.t;
  o_response_frame : option (list Z);
}.

Definition output_of (kind : OutputKind.t) : Output := mkOutput kind None None.

Definition stamp_doc (s : Stamp) : Doc :=
  DObject [("executionId", DStr (st_execution_id s)); ("actionId", DInt (st_action_id s))].
Definition ids_doc (ids : list Z) : Doc := DArray (map DInt ids).
Definition count_doc (count : Z) : Doc := DInt (default I64_MAX (i64_try_from count)).

Definition Output_to_doc (o : Output) : Doc :=
  let members :=
    match o_kind o with
    | OutputKind.Nothing => []
    | OutputKind.Response payload => [("response", payload)]
    | OutputKind.Fatal reason => [("fatal", DStr (FatalReason.as_str reason))]
    | OutputKind.RefusedChannel refusal =>
        [("refusedChannel", DStr match refusal with
                                 | ChannelRefusal.ChannelExists => "CHANNEL_EXISTS"
                                 | ChannelRefusal.GenerationChannelUsed => "GENERATION_CHANNEL_USED"
                                 end)]
    | OutputKind.Stamp stamp => [("stamp", match stamp with Some s => stamp_doc s | None => DNull end)]
    | OutputKind.Forward action_id => [("decision", DStr "FORWARD"); ("actionId", DInt action_id)]
    | OutputKind.Close reason => [("decision", DStr "CLOSE"); ("reason", DStr (ConnectionRefusal.as_str reason))]
    | OutputKind.Upstream classification relayed aborted =>
        [("classification", DStr (Classification.as_str classification)); ("relayed", DBool relayed)]
        ++ (if aborted then [("aborted", DStr "UPSTREAM_TIMEOUT")] else [])
    | OutputKind.LateUpstream => [("lateUpstream", DStr "NOT_RELAYED")]
    | OutputKind.ChannelEnd how =>
        [("channelEnd", DStr match how with ChannelEnd.BeforeFirstFrame => "UNUSED" | ChannelEnd.Orderly => "ORDERLY" end)]
    | OutputKind.RestartState state => [("restartState", DStr (State.as_str state))]
    | OutputKind.Denied ids => [("denied", ids_doc ids)]
    end in
  DObject (members ++ match o_drain o with
                      | Some answer => [("drain", DStr (DrainAnswer.as_str answer))]
                      | None => []
                      end).

(** ** State *)

Record Counters := mkCounters {
  stamps_issued : Z;
  consumptions : Z;
  correlation_refusals : Z;
  flush_closures : Z;
}.
Definition Counters_default : Counters := mkCounters 0 0 0 0.

Definition counters_doc (c : Counters) : Doc :=
  DObject [("stampsIssued", count_doc (stamps_issued c)); ("consumptions", count_doc (consumptions c));
           ("correlationRefusals", count_doc (correlation_refusals c));
           ("flushClosures", count_doc (flush_closures c))].

Definition count_stamp (c : Counters) : Counters :=
  mkCounters (sat_add_u64 (stamps_issued c) 1) (consumptions c) (correlation_refusals c) (flush_closures c).
Definition count_consumption (c : Counters) : Counters :=
  mkCounters (stamps_issued c) (sat_add_u64 (consumptions c) 1) (correlation_refusals c) (flush_closures c).
Definition count_correlation (c : Counters) : Counters :=
  mkCounters (stamps_issued c) (consumptions c) (sat_add_u64 (correlation_refusals c) 1) (flush_closures c).
Definition count_flush (closed : Z) (c : Counters) : Counters :=
  mkCounters (stamps_issued c) (consumptions c) (correlation_refusals c) (sat_add_u64 (flush_closures c) closed).

Module Channel.
Inductive t := Unopened | Open | Closed.
#[global] Instance t_eq_dec : EqDecision t.
Proof. solve_decision. Defined.
Definition as_str (c : t) : string :=
  match c with Unopened => "UNOPENED" | Open => "OPEN" | Closed => "CLOSED" end.
End Channel.

Module Status.
Inductive t := Armed | Consumed | Terminal.
#[global] Instance t_eq_dec : EqDecision t.
Proof. solve_decision. Defined.
Definition as_str (s : t) : string :=
  match s with Armed => "ARMED" | Consumed => "CONSUMED" | Terminal => "TERMINAL" end.
End Status.

Record Armed := mkArmed { ar_verb : Verb; ar_manifest_digest : string; ar_uid : option string }.

Record Delivered := mkDelivered {
  d_http_status : Z;
  d_result_digest : string;
  d_observed_uid : option string;
  d_observed_resource_version : option string;
}.

Record Action := mkAction {
  a_id : Z;
  a_status : Status.t;
  a_classification : option Classification.t;
  a_after_invalidation : bool;
  a_sealed : bool;
  a_armed : option Armed;
  a_conn : option string;
  a_delivered : option Delivered;
}.

Definition Action_rebuilt (id : Z) : Action := mkAction id Status.Armed None false false None None None.
Definition settled (a : Action) : bool := bool_decide (a_status a = Status.Terminal) && a_sealed a.
Definition has_status (s : Status.t) (a : Action) : bool := bool_decide (a_status a = s).
Definition ambiguous (a : Action) : bool := bool_decide (a_classification a = Some Classification.IoAmbiguous).

Definition act_status (v : Status.t) (a : Action) : Action :=
  mkAction (a_id a) v (a_classification a) (a_after_invalidation a) (a_sealed a) (a_armed a) (a_conn a) (a_delivered a).
Definition act_classify (v : option Classification.t) (a : Action) : Action :=
  mkAction (a_id a) (a_status a) v (a_after_invalidation a) (a_sealed a) (a_armed a) (a_conn a) (a_delivered a).
Definition act_after (v : bool) (a : Action) : Action :=
  mkAction (a_id a) (a_status a) (a_classification a) v (a_sealed a) (a_armed a) (a_conn a) (a_delivered a).
Definition act_sealed (v : bool) (a : Action) : Action :=
  mkAction (a_id a) (a_status a) (a_classification a) (a_after_invalidation a) v (a_armed a) (a_conn a) (a_delivered a).
Definition act_conn (v : option string) (a : Action) : Action :=
  mkAction (a_id a) (a_status a) (a_classification a) (a_after_invalidation a) (a_sealed a) (a_armed a) v (a_delivered a).
Definition act_delivered (v : option Delivered) (a : Action) : Action :=
  mkAction (a_id a) (a_status a) (a_classification a) (a_after_invalidation a) (a_sealed a) (a_armed a) (a_conn a) v.
(** [status = Terminal; classification = Some(c)] *)
Definition act_terminal (c : Classification.t) (a : Action) : Action :=
  act_classify (Some c) (act_status Status.Terminal a).

Record Connection := mkConnection {
  cn_stamp : option Stamp;
  cn_open : bool;
  cn_requests : Z;
  cn_consumed : bool;
}.
Definition conn_close (c : Connection) : Connection :=
  mkConnection (cn_stamp c) false (cn_requests c) (cn_consumed c).
Definition conn_count (c : Connection) : Connection :=
  mkConnection (cn_stamp c) (cn_open c) (sat_add_u64 (cn_requests c) 1) (cn_consumed c).
Definition conn_consume (c : Connection) : Connection :=
  mkConnection (cn_stamp c) (cn_open c) (cn_requests c) true.

Record Bound := mkBound { b_execution_id : string; b_run_nonce : string }.

Inductive MutationKey := MutationCreate (digest : string) | MutationDelete (uid : string).
#[export] Instance MutationKey_eq_dec : EqDecision MutationKey.
Proof. solve_decision. Defined.
#[export] Instance MutationKey_countable : Countable MutationKey.
Proof.
  refine (inj_countable' (λ k, match k with MutationCreate d => inl d | MutationDelete u => inr u end)
            (λ s, match s with inl d => MutationCreate d | inr u => MutationDelete u end) _).
  by intros [].
Defined.

(** ** Requests *)

Record BindRequest := mkBindRequest {
  bi_execution_id : string;
  bi_binding_digest : string;
  bi_reservation_digest : string;
  bi_run_nonce : string;
  bi_case_id : string;
  bi_request_digest : string;
  bi_dispatch_generation : string;
  bi_server_certificate_digest : string;
  bi_worker_pid : Z;
  bi_worker_start_ticks : Z;
  bi_peer_qualification_digest : string;
}.

Record ArmRequest := mkArmRequest {
  am_execution_id : string;
  am_action_id : Z;
  am_verb : Verb;
  am_manifest_digest : string;
  am_request_template_digest : string;
  am_recorded_uid : option string;
}.

Module Request.
Inductive t :=
| GenerationStatus
| Bind (p : BindRequest)
| Arm (p : ArmRequest)
| Outcome (execution_id : string) (action_id : Z)
| Close (reason : CloseReason.t).
End Request.

Definition member_text (payload : Value) (key : string) : option string :=
  let* v := value_get payload key in as_str v.
Definition member_int (payload : Value) (key : string) : option Z :=
  let* v := value_get payload key in let* i := as_int v in to_i64 i.
Definition member_id (payload : Value) (key : string) : option Z :=
  let* v := member_int payload key in u16_try_from v.

Definition parse_bind (payload : Value) : option BindRequest :=
  let* execution_id := member_text payload "executionId" in
  let* binding_digest := member_text payload "bindingDigest" in
  let* reservation_digest := member_text payload "reservationDigest" in
  let* run_nonce := member_text payload "runNonce" in
  let* case_id := member_text payload "caseId" in
  let* request_digest := member_text payload "requestDigest" in
  let* dispatch_generation := member_text payload "dispatchGeneration" in
  let* server_certificate_digest := member_text payload "serverCertificateDigest" in
  let* worker_pid := member_int payload "workerPid" in
  let* worker_start_ticks := member_int payload "workerStartTicks" in
  let* peer_qualification_digest := member_text payload "peerQualificationDigest" in
  Some (mkBindRequest execution_id binding_digest reservation_digest run_nonce case_id request_digest
          dispatch_generation server_certificate_digest worker_pid worker_start_ticks peer_qualification_digest).

Definition parse_arm (payload : Value) : option ArmRequest :=
  let* execution_id := member_text payload "executionId" in
  let* action_id := member_id payload "actionId" in
  let* verb := member_text payload "verb" in
  let* verb := Verb_parse verb in
  let* manifest_digest := member_text payload "manifestDigest" in
  let* request_template_digest := member_text payload "requestTemplateDigest" in
  let* recorded := value_get payload "recordedUid" in
  let* recorded_uid := match recorded with
                       | VNull => Some None
                       | other => let* uid := as_str other in Some (Some uid)
                       end in
  Some (mkArmRequest execution_id action_id verb manifest_digest request_template_digest recorded_uid).

Definition Request_parse (operation : string) (payload : Value) : option Request.t :=
  match operation with
  | "GENERATION_STATUS" => Some Request.GenerationStatus
  | "BIND_EXECUTION" => let* p := parse_bind payload in Some (Request.Bind p)
  | "ARM_ACTION" => let* p := parse_arm payload in Some (Request.Arm p)
  | "ACTION_OUTCOME" =>
      let* execution_id := member_text payload "executionId" in
      let* action_id := member_id payload "actionId" in
      Some (Request.Outcome execution_id action_id)
  | "CLOSE_GENERATION" =>
      let* text := member_text payload "reason" in
      let* reason := CloseReason.parse text in
      Some (Request.Close reason)
  | _ => None
  end.

Module Reply.
Inductive t := Payload (payload : Doc) | Fatal (output : Output).
End Reply.

Definition refused (reason : string) : Reply.t :=
  Reply.Payload (DObject [("result", DStr "REFUSED"); ("reason", DStr reason)]).

Module GateError.
Inductive t := Schema (error : SchemaError) | NotFresh | GenerationMismatch.
End GateError.

Definition unite (into from : PriorBindings) : PriorBindings :=
  mkPriorBindings (execution_ids into ∪ execution_ids from) (run_nonces into ∪ run_nonces from)
    (manifest_digests into ∪ manifest_digests from) (manifest_identities into ∪ manifest_identities from).

(** ** What a process restart derives from the journal alone *)

Record Derived := mkDerived {
  dv_bound : option Bound;
  dv_expired : bool;
  dv_bound_ids : list string;
  dv_bound_nonces : list string;
}.

Definition derive_step (d : Derived) (e : Entry.t) : Derived :=
  match e with
  | Entry.Record_ (Rec.Bind execution_id run_nonce _ _ _) =>
      mkDerived (Some (mkBound execution_id run_nonce)) false
        (dv_bound_ids d ++ [execution_id]) (dv_bound_nonces d ++ [run_nonce])
  | Entry.Record_ (Rec.Expired execution_id) =>
      match dv_bound d with
      | Some bound =>
          if bool_decide (b_execution_id bound = execution_id)
          then mkDerived (dv_bound d) true (dv_bound_ids d) (dv_bound_nonces d)
          else d
      | None => d
      end
  | _ => d
  end.

Definition derived_from_journal (entries : list Entry.t) : Derived :=
  fold_left derive_step entries (mkDerived None false [] []).

(** ** The gate *)

Record Gate (St Ob : Type) := mkGate {
  g_config : Config;
  g_schema : Schema;
  g_state : State.t;
  g_drain_pending : bool;
  g_channel : Channel.t;
  g_challenge : option string;
  g_next_sequence : Z;
  g_last_digest : string;
  g_bound : option Bound;
  g_bound_ids : list string;
  g_bound_nonces : list string;
  g_expired : bool;
  g_actions : gmap Z Action;
  g_mutation_keys : gset MutationKey;
  g_created_uids : gmap string (gset string);
  g_backlog : list string;
  g_connections : gmap string Connection;
  g_counters : Counters;
  g_stores : St;
  g_failing : bool;
  g_observer : Ob;
  g_observations : ObservationLog;
}.
Arguments mkGate {St Ob}.
Arguments g_config {St Ob}.
Arguments g_schema {St Ob}.
Arguments g_state {St Ob}.
Arguments g_drain_pending {St Ob}.
Arguments g_channel {St Ob}.
Arguments g_challenge {St Ob}.
Arguments g_next_sequence {St Ob}.
Arguments g_last_digest {St Ob}.
Arguments g_bound {St Ob}.
Arguments g_bound_ids {St Ob}.
Arguments g_bound_nonces {St Ob}.
Arguments g_expired {St Ob}.
Arguments g_actions {St Ob}.
Arguments g_mutation_keys {St Ob}.
Arguments g_created_uids {St Ob}.
Arguments g_backlog {St Ob}.
Arguments g_connections {St Ob}.
Arguments g_counters {St Ob}.
Arguments g_stores {St Ob}.
Arguments g_failing {St Ob}.
Arguments g_observer {St Ob}.
Arguments g_observations {St Ob}.

(** Field assignments. *)
Definition with_state {St Ob} (v : State.t) (g : Gate St Ob) : Gate St Ob :=
  mkGate (g_config g) (g_schema g) v (g_drain_pending g) (g_channel g) (g_challenge g)
    (g_next_sequence g) (g_last_digest g) (g_bound g) (g_bound_ids g) (g_bound_nonces g)
    (g_expired g) (g_actions g) (g_mutation_keys g) (g_created_uids g) (g_backlog g)
    (g_connections g) (g_counters g) (g_stores g) (g_failing g) (g_observer g) (g_observations g).
Definition with_drain_pending {St Ob} (v : bool) (g : Gate St Ob) : Gate St Ob :=
  mkGate (g_config g) (g_schema g) (g_state g) v (g_channel g) (g_challenge g) (g_next_sequence g)
    (g_last_digest g) (g_bound g) (g_bound_ids g) (g_bound_nonces g) (g_expired g) (g_actions g)
    (g_mutation_keys g) (g_created_uids g) (g_backlog g) (g_connections g) (g_counters g)
    (g_stores g) (g_failing g) (g_observer g) (g_observations g).
Definition with_channel {St Ob} (v : Channel.t) (g : Gate St Ob) : Gate St Ob :=
  mkGate (g_config g) (g_schema g) (g_state g) (g_drain_pending g) v (g_challenge g)
    (g_next_sequence g) (g_last_digest g) (g_bound g) (g_bound_ids g) (g_bound_nonces g)
    (g_expired g) (g_actions g) (g_mutation_keys g) (g_created_uids g) (g_backlog g)
    (g_connections g) (g_counters g) (g_stores g) (g_failing g) (g_observer g) (g_observations g).
Definition with_challenge {St Ob} (v : option string) (g : Gate St Ob) : Gate St Ob :=
  mkGate (g_config g) (g_schema g) (g_state g) (g_drain_pending g) (g_channel g) v
    (g_next_sequence g) (g_last_digest g) (g_bound g) (g_bound_ids g) (g_bound_nonces g)
    (g_expired g) (g_actions g) (g_mutation_keys g) (g_created_uids g) (g_backlog g)
    (g_connections g) (g_counters g) (g_stores g) (g_failing g) (g_observer g) (g_observations g).
Definition with_next_sequence {St Ob} (v : Z) (g : Gate St Ob) : Gate St Ob :=
  mkGate (g_config g) (g_schema g) (g_state g) (g_drain_pending g) (g_channel g) (g_challenge g) v
    (g_last_digest g) (g_bound g) (g_bound_ids g) (g_bound_nonces g) (g_expired g) (g_actions g)
    (g_mutation_keys g) (g_created_uids g) (g_backlog g) (g_connections g) (g_counters g)
    (g_stores g) (g_failing g) (g_observer g) (g_observations g).
Definition with_last_digest {St Ob} (v : string) (g : Gate St Ob) : Gate St Ob :=
  mkGate (g_config g) (g_schema g) (g_state g) (g_drain_pending g) (g_channel g) (g_challenge g)
    (g_next_sequence g) v (g_bound g) (g_bound_ids g) (g_bound_nonces g) (g_expired g) (g_actions g)
    (g_mutation_keys g) (g_created_uids g) (g_backlog g) (g_connections g) (g_counters g)
    (g_stores g) (g_failing g) (g_observer g) (g_observations g).
Definition with_bound {St Ob} (v : option Bound) (g : Gate St Ob) : Gate St Ob :=
  mkGate (g_config g) (g_schema g) (g_state g) (g_drain_pending g) (g_channel g) (g_challenge g)
    (g_next_sequence g) (g_last_digest g) v (g_bound_ids g) (g_bound_nonces g) (g_expired g)
    (g_actions g) (g_mutation_keys g) (g_created_uids g) (g_backlog g) (g_connections g)
    (g_counters g) (g_stores g) (g_failing g) (g_observer g) (g_observations g).
Definition with_bound_ids {St Ob} (v : list string) (g : Gate St Ob) : Gate St Ob :=
  mkGate (g_config g) (g_schema g) (g_state g) (g_drain_pending g) (g_channel g) (g_challenge g)
    (g_next_sequence g) (g_last_digest g) (g_bound g) v (g_bound_nonces g) (g_expired g)
    (g_actions g) (g_mutation_keys g) (g_created_uids g) (g_backlog g) (g_connections g)
    (g_counters g) (g_stores g) (g_failing g) (g_observer g) (g_observations g).
Definition with_bound_nonces {St Ob} (v : list string) (g : Gate St Ob) : Gate St Ob :=
  mkGate (g_config g) (g_schema g) (g_state g) (g_drain_pending g) (g_channel g) (g_challenge g)
    (g_next_sequence g) (g_last_digest g) (g_bound g) (g_bound_ids g) v (g_expired g) (g_actions g)
    (g_mutation_keys g) (g_created_uids g) (g_backlog g) (g_connections g) (g_counters g)
    (g_stores g) (g_failing g) (g_observer g) (g_observations g).
Definition with_expired {St Ob} (v : bool) (g : Gate St Ob) : Gate St Ob :=
  mkGate (g_config g) (g_schema g) (g_state g) (g_drain_pending g) (g_channel g) (g_challenge g)
    (g_next_sequence g) (g_last_digest g) (g_bound g) (g_bound_ids g) (g_bound_nonces g) v
    (g_actions g) (g_mutation_keys g) (g_created_uids g) (g_backlog g) (g_connections g)
    (g_counters g) (g_stores g) (g_failing g) (g_observer g) (g_observations g).
Definition with_actions {St Ob} (v : gmap Z Action) (g : Gate St Ob) : Gate St Ob :=
  mkGate (g_config g) (g_schema g) (g_state g) (g_drain_pending g) (g_channel g) (g_challenge g)
    (g_next_sequence g) (g_last_digest g) (g_bound g) (g_bound_ids g) (g_bound_nonces g)
    (g_expired g) v (g_mutation_keys g) (g_created_uids g) (g_backlog g) (g_connections g)
    (g_counters g) (g_stores g) (g_failing g) (g_observer g) (g_observations g).
Definition with_mutation_keys {St Ob} (v : gset MutationKey) (g : Gate St Ob) : Gate St Ob :=
  mkGate (g_config g) (g_schema g) (g_state g) (g_drain_pending g) (g_channel g) (g_challenge g)
    (g_next_sequence g) (g_last_digest g) (g_bound g) (g_bound_ids g) (g_bound_nonces g)
    (g_expired g) (g_actions g) v (g_created_uids g) (g_backlog g) (g_connections g) (g_counters g)
    (g_stores g) (g_failing g) (g_observer g) (g_observations g).
Definition with_created_uids {St Ob} (v : gmap string (gset string)) (g : Gate St Ob) : Gate St Ob :=
  mkGate (g_config g) (g_schema g) (g_state g) (g_drain_pending g) (g_channel g) (g_challenge g)
    (g_next_sequence g) (g_last_digest g) (g_bound g) (g_bound_ids g) (g_bound_nonces g)
    (g_expired g) (g_actions g) (g_mutation_keys g) v (g_backlog g) (g_connections g) (g_counters g)
    (g_stores g) (g_failing g) (g_observer g) (g_observations g).
Definition with_backlog {St Ob} (v : list string) (g : Gate St Ob) : Gate St Ob :=
  mkGate (g_config g) (g_schema g) (g_state g) (g_drain_pending g) (g_channel g) (g_challenge g)
    (g_next_sequence g) (g_last_digest g) (g_bound g) (g_bound_ids g) (g_bound_nonces g)
    (g_expired g) (g_actions g) (g_mutation_keys g) (g_created_uids g) v (g_connections g)
    (g_counters g) (g_stores g) (g_failing g) (g_observer g) (g_observations g).
Definition with_connections {St Ob} (v : gmap string Connection) (g : Gate St Ob) : Gate St Ob :=
  mkGate (g_config g) (g_schema g) (g_state g) (g_drain_pending g) (g_channel g) (g_challenge g)
    (g_next_sequence g) (g_last_digest g) (g_bound g) (g_bound_ids g) (g_bound_nonces g)
    (g_expired g) (g_actions g) (g_mutation_keys g) (g_created_uids g) (g_backlog g) v
    (g_counters g) (g_stores g) (g_failing g) (g_observer g) (g_observations g).
Definition with_counters {St Ob} (v : Counters) (g : Gate St Ob) : Gate St Ob :=
  mkGate (g_config g) (g_schema g) (g_state g) (g_drain_pending g) (g_channel g) (g_challenge g)
    (g_next_sequence g) (g_last_digest g) (g_bound g) (g_bound_ids g) (g_bound_nonces g)
    (g_expired g) (g_actions g) (g_mutation_keys g) (g_created_uids g) (g_backlog g)
    (g_connections g) v (g_stores g) (g_failing g) (g_observer g) (g_observations g).
Definition with_stores {St Ob} (v : St) (g : Gate St Ob) : Gate St Ob :=
  mkGate (g_config g) (g_schema g) (g_state g) (g_drain_pending g) (g_channel g) (g_challenge g)
    (g_next_sequence g) (g_last_digest g) (g_bound g) (g_bound_ids g) (g_bound_nonces g)
    (g_expired g) (g_actions g) (g_mutation_keys g) (g_created_uids g) (g_backlog g)
    (g_connections g) (g_counters g) v (g_failing g) (g_observer g) (g_observations g).
Definition with_failing {St Ob} (v : bool) (g : Gate St Ob) : Gate St Ob :=
  mkGate (g_config g) (g_schema g) (g_state g) (g_drain_pending g) (g_channel g) (g_challenge g)
    (g_next_sequence g) (g_last_digest g) (g_bound g) (g_bound_ids g) (g_bound_nonces g)
    (g_expired g) (g_actions g) (g_mutation_keys g) (g_created_uids g) (g_backlog g)
    (g_connections g) (g_counters g) (g_stores g) v (g_observer g) (g_observations g).
Definition with_observer {St Ob} (v : Ob) (g : Gate St Ob) : Gate St Ob :=
  mkGate (g_config g) (g_schema g) (g_state g) (g_drain_pending g) (g_channel g) (g_challenge g)
    (g_next_sequence g) (g_last_digest g) (g_bound g) (g_bound_ids g) (g_bound_nonces g)
    (g_expired g) (g_actions g) (g_mutation_keys g) (g_created_uids g) (g_backlog g)
    (g_connections g) (g_counters g) (g_stores g) (g_failing g) v (g_observations g).
Definition with_observations {St Ob} (v : ObservationLog) (g : Gate St Ob) : Gate St Ob :=
  mkGate (g_config g) (g_schema g) (g_state g) (g_drain_pending g) (g_channel g) (g_challenge g)
    (g_next_sequence g) (g_last_digest g) (g_bound g) (g_bound_ids g) (g_bound_nonces g)
    (g_expired g) (g_actions g) (g_mutation_keys g) (g_created_uids g) (g_backlog g)
    (g_connections g) (g_counters g) (g_stores g) (g_failing g) (g_observer g) v.

Section Gate.
Context {St Ob : Type} `{Stores St, WorkerObserver Ob}.
Abbreviation gate := (Gate St Ob).
Implicit Types (g : gate).

(** [Gate::with_stores] followed by [with_observer]. *)
Definition with_stores_new (i05_v3_schema : result Schema SchemaError) (config : Config) (stores : St)
    (observer : Ob) : result gate GateError.t :=
  match i05_v3_schema with
  | Err error => Err (GateError.Schema error)
  | Ok schema =>
      let config := mkConfig (c_generation config) (c_state config) (c_peer_qualification_digest config)
                      (c_endpoint config) (c_manifests config) (c_runs config)
                      (unite (c_prior config) (prior_bindings stores)) in
      let derived := derived_from_journal (entries stores) in
      Ok (mkGate config schema (c_state config) false Channel.Unopened None 1 ZERO_DIGEST
            (dv_bound derived) (dv_bound_ids derived) (dv_bound_nonces derived) (dv_expired derived)
            ∅ ∅ ∅ [] ∅ Counters_default stores false observer ObservationLog_default)
  end.

Definition journal g : list Entry.t := entries (g_stores g).
Definition journal_digest g : string := journal_digest_of (journal g).

(** *** Helpers *)

Definition armed g : option Action := List.find (has_status Status.Armed) (btree_values (g_actions g)).
Definition in_flight g : option Action := List.find (has_status Status.Consumed) (btree_values (g_actions g)).
Definition armed_ids g : list Z := map a_id (filter (λ a, a_status a = Status.Armed) (btree_values (g_actions g))).
Definition in_flight_id g : option Z := a_id <$> in_flight g.

Definition update_action (id : Z) (f : Action → Action) g : gate :=
  with_actions (alter f id (g_actions g)) g.
Definition update_connection (conn : string) (f : Connection → Connection) g : gate :=
  with_connections (alter f conn (g_connections g)) g.

Definition mark_in_flight_after_invalidation g : gate :=
  match in_flight g with
  | Some action => update_action (a_id action) (act_after true) g
  | None => g
  end.

Definition action_has (s : Status.t) g (id : Z) : bool :=
  match g_actions g !! id with Some a => has_status s a | None => false end.

Definition denied_since g (ids : list Z) : list Z := filter (λ id, action_has Status.Terminal g id = true) ids.

Definition stamp_of g (action_id : Z) : option Stamp :=
  (λ bound, mkStamp (b_execution_id bound) action_id) <$> g_bound g.

(** Closes every open connection the predicate selects; each counts as a flush closure. *)
Definition close_connections (select : Connection → bool) g : gate * Z :=
  let closing c := cn_open c && select c in
  let closed := map_fold (λ _ c n, if closing c then sat_add_u64 n 1 else n) 0 (g_connections g) in
  let g := with_connections ((λ c, if closing c then conn_close c else c) <$> g_connections g) g in
  (with_counters (count_flush closed (g_counters g)) g, closed).

Definition close_unconsumed_stamped (stamp : option Stamp) g : gate :=
  match stamp with
  | Some stamp =>
      (close_connections (λ c, bool_decide (cn_stamp c = Some stamp) && negb (cn_consumed c)) g).1
  | None => g
  end.

(** *** Journal and marker

    [record], [storage_failure] and [deny_armed] call each other; the [failing] flag cuts the
    recursion.  [record_fuel] bounds the nesting; [record_fuel_enough] (in [GateProofs]) proves
    that one level is all there is. *)

Definition deny_armed_with (rec : gate → Rec.t → gate * bool) g : gate :=
  fold_left (λ g id,
    if action_has Status.Armed g id then
      let g := close_unconsumed_stamped (stamp_of g id) g in
      let g := update_action id (act_terminal Classification.NotForwarded) g in
      (rec g (Rec.Denied id)).1
    else g) (armed_ids g) g.

Definition storage_failure_with (rec : gate → Rec.t → gate * bool) g : gate :=
  if g_failing g then g
  else
    let g := with_failing true g in
    let g := with_state State.Held g in
    let g := mark_in_flight_after_invalidation g in
    let g := with_stores (write_marker (g_stores g) (c_generation (g_config g))
                            (CloseReason.as_str CloseReason.StorageFailure)).1 g in
    let g := (rec g (Rec.Invalidated (Invalidation.Close CloseReason.StorageFailure) State.Held)).1 in
    let g := deny_armed_with rec g in
    with_failing false g.

Definition attempt g (r : Rec.t) : gate * bool :=
  let '(stores, appended) := append (g_stores g) r in
  (with_stores stores g, bool_decide (appended = Appended.Durable)).

Fixpoint record_fuel (n : nat) g (r : Rec.t) : gate * bool :=
  let '(g, durable) := attempt g r in
  if durable then (g, true)
  else match n with
       | O => (g, false)
       | S n => (storage_failure_with (record_fuel n) g, false)
       end.

Definition record g (r : Rec.t) : gate * bool := record_fuel 2 g r.
Definition storage_failure g : gate := storage_failure_with record g.
Definition deny_armed g : gate := deny_armed_with record g.

(** [record] where the source drops its answer. *)
Definition note (r : Rec.t) g : gate := (record g r).1.

(** *** The rebuild of GATE_RESTART *)

Record Rebuild := mkRebuild {
  rb_actions : gmap Z Action;
  rb_state : State.t;
  rb_torn : bool;
  rb_inconsistent : bool;
}.

(** [update]: a record for an action no ARM introduced is inconsistent. *)
Definition rb_update (id : Z) (f : Action → Action) (b : Rebuild) : Rebuild :=
  match rb_actions b !! id with
  | Some action => mkRebuild (<[id := f action]> (rb_actions b)) (rb_state b) (rb_torn b) (rb_inconsistent b)
  | None => mkRebuild (rb_actions b) (rb_state b) (rb_torn b) true
  end.

Definition rb_with_actions (actions : gmap Z Action) (b : Rebuild) : Rebuild :=
  mkRebuild actions (rb_state b) (rb_torn b) (rb_inconsistent b).

Definition rebuild_record (b : Rebuild) (r : Rec.t) : Rebuild :=
  let b := match r with
           | Rec.Invalidated _ recorded | Rec.Closed _ recorded | Rec.Drained recorded
           | Rec.Restarted recorded =>
               mkRebuild (rb_actions b) recorded (rb_torn b) (rb_inconsistent b)
           | _ => b
           end in
  match r with
  | Rec.Bind _ _ _ _ _ => rb_with_actions ∅ b
  | Rec.Arm action_id _ _ _ _ => rb_with_actions (<[action_id := Action_rebuilt action_id]> (rb_actions b)) b
  | Rec.Consumed action_id => rb_update action_id (λ a, act_after false (act_status Status.Consumed a)) b
  | Rec.Invalidated _ _ | Rec.Expired _ =>
      rb_with_actions ((λ a, if has_status Status.Consumed a then act_after true a else a) <$> rb_actions b) b
  | Rec.Terminal action_id classification after_invalidation _ =>
      rb_update action_id (λ a, act_after after_invalidation (act_terminal classification a)) b
  | Rec.Denied action_id => rb_update action_id (act_terminal Classification.NotForwarded) b
  | Rec.Sealed action_id classification after_invalidation =>
      rb_update action_id (λ a,
        act_after (after_invalidation && negb (bool_decide (classification = Classification.NotForwarded)))
          (act_sealed true (act_terminal classification a))) b
  | _ => b
  end.

Definition rebuild_entry (b : Rebuild) (e : Entry.t) : Rebuild :=
  match e with
  | Entry.Torn => mkRebuild (rb_actions b) (rb_state b) true (rb_inconsistent b)
  | Entry.Record_ r => rebuild_record b r
  end.

Definition rebuild_journal (l : list Entry.t) : Rebuild :=
  fold_left rebuild_entry l (mkRebuild ∅ State.Held false false).

(** Consumed without a TERMINAL record is IO_AMBIGUOUS, still armed is NOT_FORWARDED. *)
Definition rebuild_settle (a : Action) : Action :=
  match a_status a with
  | Status.Consumed => act_after true (act_terminal Classification.IoAmbiguous a)
  | Status.Armed => act_terminal Classification.NotForwarded a
  | Status.Terminal => a
  end.

Definition rebuild g : gate * State.t :=
  let b := rebuild_journal (journal g) in
  let clean := forallb (λ a, settled a && negb (ambiguous a)) (btree_values (rb_actions b)) in
  let g := with_actions (rebuild_settle <$> rb_actions b) g in
  (g,
   if marker_present (g_stores g) || rb_torn b || rb_inconsistent b then State.Held
   else if clean && bool_decide (rb_state b = State.Closed ∨ rb_state b = State.Invalidated)
   then rb_state b else State.Held).

(** *** Urgent, fatal and drain steps *)

Definition is_closed_or_invalidated (s : State.t) : bool :=
  bool_decide (s = State.Closed ∨ s = State.Invalidated).

Definition fence g : DrainAnswer.t :=
  if bool_decide (g_state g = State.Held) then DrainAnswer.Held
  else if negb (is_closed_or_invalidated (g_state g)) || bool_decide (is_Some (in_flight g))
  then DrainAnswer.Pending
  else DrainAnswer.Open.

Definition urgent (state : State.t) (reason : Invalidation.t) g : gate :=
  let g := if bool_decide (g_state g = State.Held) then g else with_state state g in
  let g := mark_in_flight_after_invalidation g in
  let g := note (Rec.Invalidated reason (g_state g)) g in
  deny_armed g.

Definition fatal (reason : FatalReason.t) g : gate * Output :=
  let g := with_channel Channel.Closed g in
  let g := urgent State.Held (Invalidation.Fatal reason) g in
  let g := with_state State.Held g in
  (g, output_of (OutputKind.Fatal reason)).

Definition all_settled g : bool := forallb settled (btree_values (g_actions g)).
Definition any_ambiguous g : bool := existsb ambiguous (btree_values (g_actions g)).

Definition orderly g : bool :=
  is_closed_or_invalidated (g_state g) && bool_decide (in_flight g = None) && all_settled g.

(** [if self.any_ambiguous() { Held } else { Closed }] *)
Definition closed_state g : State.t := if any_ambiguous g then State.Held else State.Closed.

Definition settle_drain g : gate * option DrainAnswer.t :=
  if negb (g_drain_pending g) then (g, None)
  else
    let g := if bool_decide (g_state g = State.Draining) && bool_decide (in_flight g = None)
             then with_state (closed_state g) g else g in
    if bool_decide (fence g = DrainAnswer.Pending) then (g, None)
    else
      let g := with_drain_pending false g in
      let g := note (Rec.Drained (g_state g)) g in
      (g, Some (fence g)).

Definition drain g : gate * Output :=
  let armed := armed_ids g in
  let g := if bool_decide (g_state g = State.Active ∨ g_state g = State.Inspecting)
           then with_state State.Draining g else g in
  let g := if g_drain_pending g then g else note Rec.DrainStarted (with_drain_pending true g) in
  let g := deny_armed g in
  let '(g, answer) := settle_drain g in
  (g, mkOutput (OutputKind.Denied (denied_since g armed)) (Some (default DrainAnswer.Pending answer)) None).

Definition restart_with (floor : option State.t) g : gate * Output :=
  let '(g, rebuilt) := rebuild g in
  let g := with_state (if bool_decide (floor = Some State.Held) then State.Held else rebuilt) g in
  let g := with_connections (conn_close <$> g_connections g) g in
  let g := with_backlog [] g in
  let g := with_channel Channel.Closed g in
  let g := with_drain_pending false g in
  let g := note (Rec.Restarted (g_state g)) g in
  (g, output_of (OutputKind.RestartState (g_state g))).

Definition expire g : gate * Output :=
  match g_bound g with
  | None => (g, output_of (OutputKind.Denied []))
  | Some bound =>
      if g_expired g then (g, output_of (OutputKind.Denied []))
      else
        let armed := armed_ids g in
        let g := with_expired true g in
        let g := mark_in_flight_after_invalidation g in
        let g := note (Rec.Expired (b_execution_id bound)) g in
        let g := deny_armed g in
        (g, output_of (OutputKind.Denied (denied_since g armed)))
  end.

(** *** I04 connections *)

Fixpoint remove_first (conn : string) (l : list string) : list string :=
  match l with
  | [] => []
  | queued :: l => if bool_decide (queued = conn) then l else queued :: remove_first conn l
  end.

Definition accept (conn : string) g : gate * result Output string :=
  if negb (bool_decide (conn ∈ g_backlog g)) then (g, Err "accept outside the backlog")
  else
    let g := with_backlog (remove_first conn (g_backlog g)) g in
    let stamp := let* action := armed g in stamp_of g (a_id action) in
    let g := match stamp with Some _ => with_counters (count_stamp (g_counters g)) g | None => g end in
    let g := with_connections (<[conn := mkConnection stamp true 0 false]> (g_connections g)) g in
    (g, Ok (output_of (OutputKind.Stamp stamp))).

Definition disconnect (conn : string) g : gate * result Output string :=
  match g_connections g !! conn with
  | None => (g, Err "disconnect of an unaccepted connection")
  | Some connection =>
      if 0 <? cn_requests connection then (g, Err "disconnect after a request")
      else (with_connections (delete conn (g_connections g)) g, Ok (output_of OutputKind.Nothing))
  end.

(** The admission checks for one request; the armed action it may consume. *)
Definition admit_request g (opened : bool) (requests : Z) (stamp : option Stamp) (certificate head : string)
    (body_digest : option string) : result Z ConnectionRefusal.t :=
  if negb opened then Err ConnectionRefusal.ConnectionClosed
  else if 1 <? requests then Err ConnectionRefusal.ProtocolViolation
  else
  match g_bound g with
  | None => Err ConnectionRefusal.NotActive
  | Some bound =>
  if negb (bool_decide (g_state g = State.Active)) || g_drain_pending g
     || negb (bool_decide (g_channel g = Channel.Open))
  then Err ConnectionRefusal.NotActive
  else if g_expired g then Err ConnectionRefusal.ExecutionExpired
  else
  match stamp with
  | None => Err ConnectionRefusal.StampNone
  | Some stamp =>
  if negb (bool_decide (st_execution_id stamp = b_execution_id bound)) then Err ConnectionRefusal.StampMismatch
  else
  match g_actions g !! st_action_id stamp with
  | None => Err ConnectionRefusal.StampMismatch
  | Some action =>
  if negb (has_status Status.Armed action) then Err ConnectionRefusal.AlreadyConsumed
  else
  match c_runs (g_config g) !! b_run_nonce bound with
  | None => Err ConnectionRefusal.CertificateMismatch
  | Some run =>
  if negb (bool_decide (certificate = run_server_certificate_digest run))
  then Err ConnectionRefusal.CertificateMismatch
  else
  match a_armed action with
  | None => Err ConnectionRefusal.RequestMismatch
  | Some armed =>
  match c_manifests (g_config g) !! ar_manifest_digest armed with
  | None => Err ConnectionRefusal.RequestMismatch
  | Some manifest =>
      let rendered := render_request (ar_verb armed) manifest (ar_uid armed) (c_endpoint (g_config g)) in
      if negb (bool_decide (r_head rendered = head)) || negb (bool_decide (r_body_digest rendered = body_digest))
      then Err ConnectionRefusal.RequestMismatch
      else Ok (a_id action)
  end end end end end end.

(** A1: record the consumption, then forward; [None] when the CONSUMED record failed. *)
Definition consume (conn : string) (action_id : Z) g : gate * option Output :=
  let '(g, durable) := record g (Rec.Consumed action_id) in
  if negb durable then (g, None)
  else
    let g := update_action action_id
               (λ a, act_after false (act_conn (Some conn) (act_status Status.Consumed a))) g in
    let g := update_connection conn conn_consume g in
    let g := with_counters (count_consumption (g_counters g)) g in
    let g := close_unconsumed_stamped (stamp_of g action_id) g in
    (g, Some (output_of (OutputKind.Forward action_id))).

Definition request (conn certificate head : string) (body_digest : option string) g
    : gate * result Output string :=
  match g_connections g !! conn with
  | None => (g, Err "request on an unaccepted connection")
  | Some connection =>
      let connection := conn_count connection in
      let g := with_connections (<[conn := connection]> (g_connections g)) g in
      let '(g, decided) :=
        match admit_request g (cn_open connection) (cn_requests connection) (cn_stamp connection)
                certificate head body_digest with
        | Ok action_id =>
            let '(g, output) := consume conn action_id g in
            (g, match output with Some output => Ok output | None => Err ConnectionRefusal.StorageFailure end)
        | Err refusal => (g, Err refusal)
        end in
      match decided with
      | Ok output => (g, Ok output)
      | Err refusal =>
          let g := update_connection conn conn_close g in
          let g := if ConnectionRefusal.is_correlation refusal
                   then with_counters (count_correlation (g_counters g)) g else g in
          (g, Ok (output_of (OutputKind.Close refusal)))
      end
  end.

Definition forwarded_on g (conn : string) (consumed_only : bool) : option Z :=
  a_id <$> List.find (λ a,
    bool_decide (a_conn a = Some conn) &&
    (if consumed_only then has_status Status.Consumed a else negb (has_status Status.Armed a)))
    (btree_values (g_actions g)).

(** *** Upstream outcomes *)

(** What a response (or its loss) settles: classification, record details, delivered result. *)
Definition classify_upstream (verb : option Verb) (response : option Upstream)
    : Classification.t * TerminalDetails.t * option Delivered :=
  match response with
  | None => (Classification.IoAmbiguous, TerminalDetails.None, None)
  | Some response =>
      if negb match verb with Some verb => outcome_is_final verb (u_http_status response) | None => false end
      then (Classification.IoAmbiguous,
            TerminalDetails.Reconciliation (u_http_status response) (u_body_digest response), None)
      else
        (Classification.DeliveredResult,
         TerminalDetails.Delivered (u_http_status response) (u_body_digest response) (u_uid response)
           (u_resource_version response),
         Some (mkDelivered (u_http_status response) (u_body_digest response) (u_uid response)
                 (u_resource_version response)))
  end.

(** The server-assigned UID of an object the armed CREATE made (201). *)
Definition created_uid (armed : option Armed) (delivered : option Delivered) : option (string * string) :=
  match armed, delivered with
  | Some armed, Some delivered =>
      if bool_decide (ar_verb armed = Create) && (d_http_status delivered =? 201)
      then (λ uid, (ar_manifest_digest armed, uid)) <$> d_observed_uid delivered
      else None
  | _, _ => None
  end.

Definition upstream (conn : string) (response : option Upstream) g : gate * result Output string :=
  match (let* id := forwarded_on g conn false in let* action := g_actions g !! id in Some (id, action)) with
  | None => (g, Err "upstream event without a forwarded action")
  | Some (id, action) =>
      if has_status Status.Terminal action
      then (note (Rec.LateUpstream id) g, Ok (output_of OutputKind.LateUpstream))
      else
        let '(classification, details, delivered) := classify_upstream (ar_verb <$> a_armed action) response in
        let '(g, recorded) := record g (Rec.Terminal id classification (a_after_invalidation action) details) in
        let classification := if recorded then classification else Classification.IoAmbiguous in
        let delivered := if recorded then delivered else None in
        let created := created_uid (a_armed action) delivered in
        let g := update_action id (λ a,
                   let a := act_terminal classification a in
                   match delivered with Some _ => act_delivered delivered a | None => a end) g in
        let g :=
          if bool_decide (classification = Classification.IoAmbiguous) then with_state State.Held g
          else match created with
               | Some (manifest_digest, uid) =>
                   with_created_uids
                     (<[manifest_digest := {[uid]} ∪ default ∅ (g_created_uids g !! manifest_digest)]>
                        (g_created_uids g)) g
               | None => g
               end in
        let g := update_connection conn conn_close g in
        (g, Ok (output_of (OutputKind.Upstream classification
                             (recorded && bool_decide (is_Some response)) false)))
  end.

(** Decision 12: the 900-second bound of a forwarded exchange expired. *)
Definition timeout (conn : string) g : gate * result Output string :=
  match forwarded_on g conn true with
  | None => (g, Err "timeout without an outstanding exchange")
  | Some id =>
      let after := match g_actions g !! id with Some action => a_after_invalidation action | None => false end in
      let g := note (Rec.Terminal id Classification.IoAmbiguous after TerminalDetails.Aborted) g in
      let g := update_action id (act_terminal Classification.IoAmbiguous) g in
      let g := with_state State.Held g in
      let g := update_connection conn conn_close g in
      (g, Ok (output_of (OutputKind.Upstream Classification.IoAmbiguous false true)))
  end.

(** *** I05 operations *)

Definition opt_int (id : option Z) : Doc := match id with Some id => DInt id | None => DNull end.

Definition generation_status g : Doc :=
  DObject [("result", DStr "OK"); ("state", DStr (State.as_str (g_state g)));
           ("drainPending", DBool (g_drain_pending g));
           ("boundExecutionId", doc_opt_str (b_execution_id <$> g_bound g));
           ("armedActionId", opt_int (a_id <$> armed g)); ("inFlightActionId", opt_int (in_flight_id g));
           ("counters", counters_doc (g_counters g)); ("journalDigest", DStr (journal_digest g))].

Definition sort_text (l : list string) : list string := merge_sort str_le l.

Definition bind (p : BindRequest) g : gate * Reply.t :=
  let config := g_config g in
  let prior := c_prior config in
  if negb (bool_decide (bi_peer_qualification_digest p = c_peer_qualification_digest config))
  then let '(g, output) := fatal FatalReason.PeerQualificationMismatch g in (g, Reply.Fatal output)
  else if negb (bool_decide (g_state g = State.Active)) then (g, refused "NOT_ACTIVE")
  else if negb (all_settled g) then (g, refused "ACTION_OUTSTANDING")
  else if bool_decide (bi_execution_id p ∈ g_bound_ids g) || bool_decide (bi_run_nonce p ∈ g_bound_nonces g)
          || bool_decide (bi_execution_id p ∈ execution_ids prior) || bool_decide (bi_run_nonce p ∈ run_nonces prior)
  then (g, refused "EXECUTION_REPLAY")
  else if negb (bool_decide (bi_dispatch_generation p = c_generation config))
  then (g, refused "GENERATION_MISMATCH")
  else
  match c_runs config !! bi_run_nonce p with
  | None => (g, refused "UNKNOWN_BINDING")
  | Some run =>
  if negb (bool_decide (run_binding_digest run = bi_binding_digest p))
     || negb (bool_decide (run_case_id run = bi_case_id p))
     || negb (bool_decide (run_request_digest run = bi_request_digest p))
  then (g, refused "UNKNOWN_BINDING")
  else if negb (bool_decide (bi_server_certificate_digest p = run_server_certificate_digest run))
  then (g, refused "CERTIFICATE_MISMATCH")
  else
  let digests := sort_text (run_manifests run) in
  let identities := sort_text (map Manifest_identity (omap (λ d, c_manifests config !! d) digests)) in
  if existsb (λ d, bool_decide (d ∈ manifest_digests prior)) digests
     || existsb (λ i, bool_decide (i ∈ manifest_identities prior)) identities
  then (g, refused "MANIFEST_REUSED")
  else
  let '(observer, observation) := observe (g_observer g) (bi_worker_pid p) (bi_worker_start_ticks p) in
  let g := with_observer observer g in
  let g := with_observations
             (log_record (g_observations g)
                (mkLogged (bi_worker_pid p) (bi_worker_start_ticks p) observation)) g in
  if negb (bool_decide (observation = Observation.Observed)) then (g, refused "WORKER_NOT_OBSERVED")
  else
  let set_digest := prefixed (doc_canonical (DArray (map DStr digests))) in
  let '(g, durable) := record g (Rec.Bind (bi_execution_id p) (bi_run_nonce p) (bi_reservation_digest p)
                                   digests identities) in
  if negb durable then (g, refused "STORAGE_FAILURE")
  else
  let g := with_bound (Some (mkBound (bi_execution_id p) (bi_run_nonce p))) g in
  let g := with_expired false g in
  let g := with_actions ∅ g in
  let g := with_mutation_keys ∅ g in
  let g := with_created_uids ∅ g in
  let g := with_bound_ids (g_bound_ids g ++ [bi_execution_id p]) g in
  let g := with_bound_nonces (g_bound_nonces g ++ [bi_run_nonce p]) g in
  (g, Reply.Payload (DObject [("result", DStr "OK"); ("executionId", DStr (bi_execution_id p));
                              ("caseManifestSetDigest", DStr set_digest)]))
  end.

Definition mutation_key (p : ArmRequest) : option MutationKey :=
  match am_verb p with
  | Create => Some (MutationCreate (am_manifest_digest p))
  | Delete => MutationDelete <$> am_recorded_uid p
  | Get => None
  end.

(** [for conn in std::mem::take(&mut self.backlog)] *)
Definition flush_backlog g (flushed : Z) : gate * Z :=
  let backlog := g_backlog g in
  fold_left (λ gf conn,
    let '(g, flushed) := gf in
    let g := with_connections (<[conn := mkConnection None false 0 false]> (g_connections g)) g in
    (with_counters (count_flush 1 (g_counters g)) g, sat_add_u64 flushed 1))
    backlog (with_backlog [] g, flushed).

Definition arm (p : ArmRequest) g : gate * Reply.t :=
  let config := g_config g in
  if negb (bool_decide (g_state g = State.Active))
  then (g, refused (if bool_decide (g_state g = State.Draining) then "DRAIN_PENDING" else "NOT_ACTIVE"))
  else
  match g_bound g with
  | None => (g, refused "EXECUTION_NOT_BOUND")
  | Some bound =>
  if negb (bool_decide (b_execution_id bound = am_execution_id p)) then (g, refused "EXECUTION_NOT_BOUND")
  else if g_expired g then (g, refused "EXECUTION_EXPIRED")
  else if negb (all_settled g) then (g, refused "ACTION_OUTSTANDING")
  else if negb (am_action_id p =? Z.of_nat (size (g_actions g)) + 1) then (g, refused "ACTION_ID_OUT_OF_ORDER")
  else
  let in_run := match c_runs config !! b_run_nonce bound with
                | Some run => bool_decide (am_manifest_digest p ∈ run_manifests run)
                | None => false
                end in
  match (if in_run then c_manifests config !! am_manifest_digest p else None) with
  | None => (g, refused "MANIFEST_OUTSIDE_CASE")
  | Some manifest =>
  if negb (eqb (bool_decide (am_verb p = Delete)) (bool_decide (is_Some (am_recorded_uid p))))
  then (g, refused "UID_RULE")
  else if bool_decide (am_verb p = Delete) &&
          negb match am_recorded_uid p with
               | Some uid => bool_decide (uid ∈ default ∅ (g_created_uids g !! am_manifest_digest p))
               | None => false
               end
  then (g, refused "UID_NOT_CREATED")
  else
  let expected := template_digest (am_verb p) (m_api_version manifest) (m_kind manifest) (m_namespace manifest)
                    (m_name manifest) (am_recorded_uid p) (am_manifest_digest p) in
  if negb (bool_decide (am_request_template_digest p = expected)) then (g, refused "TEMPLATE_MISMATCH")
  else if match mutation_key p with Some key => bool_decide (key ∈ g_mutation_keys g) | None => false end
  then (g, refused "MUTATION_KEY_REUSED")
  else
  let '(g, flushed) := close_connections (λ c, negb (cn_consumed c)) g in
  let '(g, flushed) := flush_backlog g flushed in
  let '(g, durable) := record g (Rec.Arm (am_action_id p) (am_verb p) (am_manifest_digest p)
                                   (am_recorded_uid p) expected) in
  if negb durable then (g, refused "STORAGE_FAILURE")
  else
  let g := match mutation_key p with
           | Some key => with_mutation_keys ({[key]} ∪ g_mutation_keys g) g
           | None => g
           end in
  let g := with_actions (<[am_action_id p :=
             mkAction (am_action_id p) Status.Armed None false false
               (Some (mkArmed (am_verb p) (am_manifest_digest p) (am_recorded_uid p))) None None]>
             (g_actions g)) g in
  (g, Reply.Payload (DObject [("result", DStr "OK"); ("actionId", DInt (am_action_id p));
                              ("flushedConnections", count_doc flushed)]))
  end end.

(** The answer of ACTION_OUTCOME for a sealed action. *)
Definition outcome_doc (action_id : Z) (action : Action) : Doc :=
  let classification := default Classification.IoAmbiguous (a_classification action) in
  let delivered := if bool_decide (classification = Classification.DeliveredResult)
                   then a_delivered action else None in
  DObject [("result", DStr "OK"); ("actionId", DInt action_id);
           ("classification", DStr (Classification.as_str classification));
           ("admittedBeforeInvalidation",
             DBool (a_after_invalidation action &&
                    negb (bool_decide (classification = Classification.NotForwarded))));
           ("httpStatus", match delivered with Some d => DInt (d_http_status d) | None => DNull end);
           ("resultDigest", match delivered with Some d => DStr (d_result_digest d) | None => DNull end);
           ("observedUid", doc_opt_str (let* d := delivered in d_observed_uid d));
           ("observedResourceVersion", doc_opt_str (let* d := delivered in d_observed_resource_version d))].

(** The in-memory part of the seal, before SEALED is journaled. *)
Definition seal_step (action_id : Z) (status : Status.t) (conn : option string) g : gate :=
  match status with
  | Status.Armed =>
      let g := close_unconsumed_stamped (stamp_of g action_id) g in
      update_action action_id (act_terminal Classification.NotForwarded) g
  | Status.Consumed =>
      let g := match conn with Some conn => update_connection conn conn_close g | None => g end in
      let g := update_action action_id (act_terminal Classification.IoAmbiguous) g in
      with_state State.Held g
  | Status.Terminal => g
  end.

Definition outcome (execution_id : string) (action_id : Z) g : gate * Reply.t :=
  if negb match g_bound g with
          | Some bound => bool_decide (b_execution_id bound = execution_id)
          | None => false
          end
  then (g, refused "EXECUTION_NOT_BOUND")
  else
  match g_actions g !! action_id with
  | None => (g, refused "UNKNOWN_ACTION")
  | Some action =>
      let answer g :=
        match g_actions g !! action_id with
        | None => (g, refused "UNKNOWN_ACTION")
        | Some action => (g, Reply.Payload (outcome_doc action_id action))
        end in
      if a_sealed action then answer g
      else
        let g := seal_step action_id (a_status action) (a_conn action) g in
        match g_actions g !! action_id with
        | None => (g, refused "UNKNOWN_ACTION")
        | Some action =>
            let classification := default Classification.IoAmbiguous (a_classification action) in
            let '(g, durable) :=
              record g (Rec.Sealed action_id classification (a_after_invalidation action)) in
            if negb durable then (g, refused "STORAGE_FAILURE")
            else answer (update_action action_id (act_sealed true) g)
        end
  end.

Definition close_reply g (armed : list Z) : Doc :=
  DObject [("result", DStr "OK"); ("state", DStr (State.as_str (g_state g)));
           ("deniedActionIds", ids_doc (denied_since g armed))].

Definition close (reason : CloseReason.t) g : gate * Doc :=
  let armed := armed_ids g in
  let reply g := (g, close_reply g armed) in
  if bool_decide (g_state g = State.Closed ∨ g_state g = State.Invalidated ∨ g_state g = State.Held) then
    let g := if bool_decide (reason = CloseReason.ReconciliationRequired)
                && negb (bool_decide (g_state g = State.Held))
             then note (Rec.Invalidated (Invalidation.Close reason) State.Held) (with_state State.Held g)
             else g in
    reply (deny_armed g)
  else if bool_decide (reason = CloseReason.NormalDrain) then
    if bool_decide (is_Some (in_flight g))
    then (g, DObject [("result", DStr "REFUSED"); ("reason", DStr "ACTION_IN_FLIGHT")])
    else
      let g := with_state (closed_state g) g in
      let g := note (Rec.Closed reason (g_state g)) g in
      reply (deny_armed g)
  else
    let target := if bool_decide (reason = CloseReason.ReconciliationRequired)
                  then State.Held else State.Invalidated in
    reply (urgent target (Invalidation.Close reason) g).

(** *** I05 frames *)

Definition perform (request : Request.t) g : gate * Reply.t :=
  match request with
  | Request.GenerationStatus => (g, Reply.Payload (generation_status g))
  | Request.Bind p => bind p g
  | Request.Arm p => arm p g
  | Request.Outcome execution_id action_id => outcome execution_id action_id g
  | Request.Close reason => let '(g, payload) := close reason g in (g, Reply.Payload payload)
  end.

(** The frame and the bytes it encodes to, or the decoder's refusal. *)
Definition checked_frame (schema : Schema) (input : FrameInput.t) : result (Value * list Z) FrameError :=
  match input with
  | FrameInput.Value value => result_map (λ encoded, (value, encoded)) (check_frame_encoded value schema)
  | FrameInput.Bytes raw => result_map (λ value, (value, raw)) (decode_frame (Bytes raw) schema)
  | FrameInput.NotBytes => Err F07
  end.

Record Envelope := mkEnvelope {
  e_direction : string;
  e_sequence : Z;
  e_previous : string;
  e_generation : string;
  e_challenge : string;
  e_operation : string;
}.

Definition parse_envelope (value : Value) : option Envelope :=
  let* direction := member_text value "direction" in
  let* sequence := member_int value "sequence" in
  let* previous := member_text value "previousDigest" in
  let* generation := member_text value "generation" in
  let* challenge := member_text value "challenge" in
  let* operation := member_text value "operation" in
  Some (mkEnvelope direction sequence previous generation challenge operation).

Definition response_doc g (sequence : Z) (encoded : list Z) (operation : string) (payload : Doc) : Doc :=
  DObject [("schemaVersion", DStr FRAME_VERSION); ("generation", DStr (c_generation (g_config g)));
           ("challenge", doc_opt_str (g_challenge g)); ("sequence", DInt (sat_add_i64 sequence 1));
           ("previousDigest", DStr (prefixed encoded)); ("direction", DStr "GATE_TO_BROKER");
           ("operation", DStr operation); ("payload", payload)].

(** Answers a performed operation: the response frame, and the chain's next state. *)
Definition respond (sequence : Z) (encoded : list Z) (operation : string) (payload : Doc) g : gate * Output :=
  match check_frame_encoded (doc_to_value (response_doc g sequence encoded operation payload)) (g_schema g) with
  | Err _ => fatal FatalReason.ResponseOutOfBounds g
  | Ok bytes =>
      let g := with_next_sequence (sat_add_i64 sequence 2) g in
      let g := with_last_digest (prefixed bytes) g in
      (g, mkOutput (OutputKind.Response payload) None (Some bytes))
  end.

(** The channel after a frame's challenge check; [None] when the frame is fatal. *)
Definition open_channel (e : Envelope) g : result gate FatalReason.t :=
  if bool_decide (g_channel g = Channel.Unopened) then
    if negb (bool_decide (e_operation e = "GENERATION_STATUS")) then Err FatalReason.OpeningFrameRequired
    else Ok (with_challenge (Some (e_challenge e)) (with_channel Channel.Open g))
  else if negb (bool_decide (g_challenge g = Some (e_challenge e))) then Err FatalReason.ChallengeMismatch
  else Ok g.

Definition frame (input : FrameInput.t) g : gate * Output :=
  if bool_decide (g_channel g = Channel.Closed)
  then (g, output_of (OutputKind.RefusedChannel ChannelRefusal.GenerationChannelUsed))
  else
  match checked_frame (g_schema g) input with
  | Err error => fatal (FatalReason.InvalidFrame error) g
  | Ok (value, encoded) =>
  match parse_envelope value with
  | None => fatal (FatalReason.InvalidFrame F00) g
  | Some e =>
  if negb (bool_decide (e_direction e = "BROKER_TO_GATE")) || negb (Z.rem (e_sequence e) 2 =? 1)
  then fatal FatalReason.Direction g
  else if negb (e_sequence e =? g_next_sequence g) || negb (bool_decide (e_previous e = g_last_digest g))
  then fatal FatalReason.ChainBroken g
  else if negb (bool_decide (e_generation e = c_generation (g_config g)))
  then fatal FatalReason.GenerationMismatch g
  else
  match open_channel e g with
  | Err reason => fatal reason g
  | Ok g =>
  match (let* payload := value_get value "payload" in Request_parse (e_operation e) payload) with
  | None => fatal (FatalReason.InvalidFrame F00) g
  | Some request =>
      let '(g, reply) := perform request g in
      match reply with
      | Reply.Fatal output => (g, output)
      | Reply.Payload payload => respond (e_sequence e) encoded (e_operation e) payload g
      end
  end end end end.

(** *** Events *)

Definition channel_lost g : gate * Output :=
  match g_channel g with
  | Channel.Unopened =>
      let g := with_channel Channel.Closed g in
      (note (Rec.ChannelEnded ChannelEnd.BeforeFirstFrame) g,
       output_of (OutputKind.ChannelEnd ChannelEnd.BeforeFirstFrame))
  | Channel.Closed => (g, output_of OutputKind.Nothing)
  | Channel.Open =>
      if orderly g then
        let g := with_channel Channel.Closed g in
        (note (Rec.ChannelEnded ChannelEnd.Orderly) g, output_of (OutputKind.ChannelEnd ChannelEnd.Orderly))
      else fatal FatalReason.PeerLost g
  end.

(** A handler that cannot refuse its event. *)
Definition always (r : gate * Output) : gate * result Output string := (r.1, Ok r.2).

Definition nothing g : gate * result Output string := (g, Ok (output_of OutputKind.Nothing)).

Definition dispatch (event : Event.t) g : gate * result Output string :=
  match event with
  | Event.Frame input => always (frame input g)
  | Event.Backlog conn => nothing (with_backlog (g_backlog g ++ [conn]) g)
  | Event.Accept conn => accept conn g
  | Event.Disconnect conn => disconnect conn g
  | Event.Request conn certificate_digest head body_digest => request conn certificate_digest head body_digest g
  | Event.UpstreamResponse conn response => upstream conn (Some response) g
  | Event.UpstreamLost conn => upstream conn None g
  | Event.UpstreamTimeout conn => timeout conn g
  | Event.StorageFailNext torn => nothing (with_stores (fail_next (g_stores g) torn) g)
  | Event.MarkerFailNext => nothing (with_stores (marker_fail_next (g_stores g)) g)
  | Event.StorageFailAfter after => nothing (with_stores (fail_after (g_stores g) after) g)
  | Event.DrainRequest => always (drain g)
  | Event.Expire => always (expire g)
  | Event.ChannelLost => always (channel_lost g)
  | Event.SecondChannel =>
      match g_channel g with
      | Channel.Unopened => (g, Err "second channel before the first")
      | Channel.Open => always (g, output_of (OutputKind.RefusedChannel ChannelRefusal.ChannelExists))
      | Channel.Closed => always (g, output_of (OutputKind.RefusedChannel ChannelRefusal.GenerationChannelUsed))
      end
  | Event.PeerChanged =>
      if bool_decide (g_channel g = Channel.Open) then always (fatal FatalReason.PeerChanged g) else nothing g
  | Event.GateRestart => always (restart_with None g)
  | Event.AnswerLate =>
      match g_channel g with
      | Channel.Open => always (fatal FatalReason.AnswerLate g)
      | _ => (g, Err "answer late without an open channel")
      end
  end.

(** [Gate::handle]: the event, then any drain still waiting for its fence. *)
Definition handle (event : Event.t) g : gate * result Output string :=
  let '(g, dispatched) := dispatch event g in
  match dispatched with
  | Err error => (g, Err error)
  | Ok output =>
      let '(g, answer) := settle_drain g in
      (g, Ok match answer with
             | Some answer => mkOutput (o_kind output) (Some answer) (o_response_frame output)
             | None => output
             end)
  end.

(** The contract's final snapshot. *)
Definition snapshot g : Doc :=
  let action_doc a :=
    (decimal_str (a_id a),
     DObject [("status", DStr (Status.as_str (a_status a)));
              ("classification", doc_opt_str (Classification.as_str <$> a_classification a));
              ("admittedBeforeInvalidation", DBool (a_after_invalidation a)); ("sealed", DBool (a_sealed a))]) in
  let connection_doc name :=
    (λ c, (name, DStr (if cn_open c then "OPEN" else "CLOSED"))) <$> g_connections g !! name in
  DObject [("state", DStr (State.as_str (g_state g))); ("drainPending", DBool (g_drain_pending g));
           ("channel", DStr (Channel.as_str (g_channel g)));
           ("boundExecutionId", doc_opt_str (b_execution_id <$> g_bound g));
           ("actions", DObject (map action_doc (btree_values (g_actions g))));
           ("connections", DObject (omap connection_doc (str_keys (g_connections g))));
           ("counters", counters_doc (g_counters g)); ("journal", journal_doc (journal g));
           ("failureMarker", marker_doc (g_stores g))].

(** What the substrate reads. *)
Record BoundRun := mkBoundRun { br_execution_id : string; br_run_nonce : string; br_expired : bool }.
Definition bound_run g : option BoundRun :=
  (λ b, mkBoundRun (b_execution_id b) (b_run_nonce b) (g_expired g)) <$> g_bound g.
Definition connection_open g (conn : string) : bool :=
  match g_connections g !! conn with Some c => cn_open c | None => false end.
End Gate.
