(* ===== verification/PolicyGate.v ===== *)
(** * The policy gate ([host-enforcement/crates/effect-gate/src/policy_gate.rs]): definitions

    The policy-writer channel around the base gate: the writer session, the generation's one
    maintenance, the writes and the one outstanding write.  Its records go into the base gate's
    journal.  The types come first; [Module Writer] holds the gate and every event handler, so
    that [Writer.handle], [Writer.restart] and the others keep the source's names beside the base
    gate's.  The theorems are in [PolicySteps] and the files after it. *)

From S2P Require Import Prelude Sha256 Json Schema Frame.
From S2P Require Import Inet.
From S2P Require Import Render Types Journal Observation Config FileStore Policy Gate.
Definition WRITER_FRAME_VERSION : string := "planeon.internal.policy-write-frame/v3".

(** The schema's largest sequence. *)
Definition MAX_SEQUENCE : Z := 2147483647.

(** ** The [policyWriter] configuration member *)

Record PolicyWriter := mkPolicyWriter { qualification_namespace : string; apiserver_authority : string }.

Definition is_lower (b : Z) : bool := (97 <=? b) && (b <=? 122).
Definition label_edge (b : option Z) : bool :=
  match b with Some b => is_lower b || is_digit b | None => false end.

Definition is_dns_label (text : string) : bool :=
  let bytes := bytes_of text in
  Nat.leb 1 (length bytes) && Nat.leb (length bytes) 63
  && forallb (λ b, is_lower b || is_digit b || (b =? 45)) bytes
  && label_edge (head bytes) && label_edge (last bytes).

Definition LOOPBACK_V6 : list Z := [0; 0; 0; 0; 0; 0; 0; 0; 0; 0; 0; 0; 0; 0; 0; 1].

Definition loopback_authority (text : string) : option InetAddress :=
  match parse_authority (bytes_of text) with
  | Err _ => None
  | Ok address =>
      let loopback :=
        match ia_ip address with
        | IpLiteral.V4 octets => bool_decide (head octets = Some 127)
        | IpLiteral.V6 octets => bool_decide (octets = LOOPBACK_V6)
        end in
      if loopback then Some address else None
  end.

Module PolicyGateError.
Inductive t :=
| Config (error : string)
| PolicyWriter (message : string)
| Kinds (error : KindsError)
| Gate (error : GateError.t)
| Schema (error : SchemaError).
End PolicyGateError.

Definition from_member (member : option Value) : result (PolicyWriter * InetAddress) PolicyGateError.t :=
  let refuse message := Err (PolicyGateError.PolicyWriter message) in
  match (let* v := member in as_object v) with
  | None => refuse "policyWriter is missing or not an object"
  | Some member =>
  if negb (Nat.eqb (length member) 2)
  then refuse "policyWriter must hold exactly qualificationNamespace and apiserverAuthority"
  else
  match (let* v := object_get member (jstr "qualificationNamespace") in as_str v),
        (let* v := object_get member (jstr "apiserverAuthority") in as_str v) with
  | Some namespace, Some authority =>
      if negb (is_dns_label namespace)
      then refuse "policyWriter.qualificationNamespace is not a DNS-1123 label"
      else
        match loopback_authority authority with
        | None =>
            refuse "policyWriter.apiserverAuthority is not a loopback IP literal with a port (127.0.0.0/8 or ::1)"
        | Some address => Ok (mkPolicyWriter namespace authority, address)
        end
  | _, _ => refuse "policyWriter must hold exactly qualificationNamespace and apiserverAuthority as text"
  end end.

(** ** Events and outputs *)

Module UpstreamOutcome.
Inductive t := Lost | Timeout | Response (response : Upstream).
End UpstreamOutcome.

Module PolicyEvent.
Inductive t :=
| Base (event : Event.t)
| WConnect (challenge : string)
| WFrame (input : FrameInput.t)
| WChannelLost
| WPeerChanged
| WUpstream (write_id : Z) (outcome : UpstreamOutcome.t)
| WAnswerLate.
End PolicyEvent.

Module WriterFatal.
Inductive t :=
| Lockstep | InvalidFrame (e : FrameError) | Direction | ChainBroken | OpeningFrameRequired
| ChallengeMismatch | PeerChanged | ResponseOutOfBounds | AnswerLate.
#[global] Instance t_eq_dec : EqDecision t.
Proof. solve_decision. Defined.
Definition as_str (r : t) : string :=
  match r with
  | Lockstep => "LOCKSTEP"
  | InvalidFrame code => FatalReason.as_str (FatalReason.InvalidFrame code)
  | Direction => "DIRECTION"
  | ChainBroken => "CHAIN_BROKEN"
  | OpeningFrameRequired => "OPENING_FRAME_REQUIRED"
  | ChallengeMismatch => "CHALLENGE_MISMATCH"
  | PeerChanged => "PEER_CHANGED"
  | ResponseOutOfBounds => "RESPONSE_OUT_OF_BOUNDS"
  | AnswerLate => FatalReason.as_str FatalReason.AnswerLate
  end.
End WriterFatal.

Module PolicyOutputKind.
Inductive t :=
| Base (output : Output)
| Restart (output : Output) (maintenance : Maintenance.t)
| Session
| RefusedSession
| Response (payload : Doc)
| Forwarded (write_id : Z)
| SessionEnd (how : SessionEnd.t) (maintenance : Maintenance.t) (fatal : option WriterFatal.t)
| Upstream (classification : Classification.t) (response : option Doc)
| LateUpstream
| Empty.
End PolicyOutputKind.

Record PolicyOutput := mkPolicyOutput {
  po_kind : PolicyOutputKind.t;
  po_drain : option DrainAnswer.t;
  po_response_frame : option (list Z);
}.

Definition policy_output (kind : PolicyOutputKind.t) : PolicyOutput := mkPolicyOutput kind None None.

(** [PolicyOutput::to_doc]: a base or restart output carries its own drain answer. *)
Definition PolicyOutput_to_doc (o : PolicyOutput) : Doc :=
  let answer members :=
    DObject (members ++ match po_drain o with
                        | Some answer => [("drain", DStr (DrainAnswer.as_str answer))]
                        | None => []
                        end) in
  match po_kind o with
  | PolicyOutputKind.Base output => Output_to_doc output
  | PolicyOutputKind.Restart output maintenance =>
      match Output_to_doc output with
      | DObject members => DObject (members ++ [("maintenance", DStr (Maintenance.as_str maintenance))])
      | doc => doc
      end
  | PolicyOutputKind.Session => answer [("session", DStr "CONNECTED")]
  | PolicyOutputKind.RefusedSession => answer [("refusedSession", DStr "SESSION_EXISTS")]
  | PolicyOutputKind.Response payload => answer [("response", payload)]
  | PolicyOutputKind.Forwarded write_id => answer [("forwarded", DInt write_id)]
  | PolicyOutputKind.SessionEnd how maintenance fatal =>
      answer ([("sessionEnd", DStr (SessionEnd.as_str how)); ("maintenance", DStr (Maintenance.as_str maintenance))]
              ++ match fatal with Some fatal => [("fatal", DStr (WriterFatal.as_str fatal))] | None => [] end)
  | PolicyOutputKind.Upstream classification response =>
      answer ([("classification", DStr (Classification.as_str classification));
               ("relayed", DBool (bool_decide (is_Some response)))]
              ++ match response with Some payload => [("response", payload)] | None => [] end)
  | PolicyOutputKind.LateUpstream => answer [("lateUpstream", DStr "NOT_RELAYED")]
  | PolicyOutputKind.Empty => answer []
  end.

Record WriteCounters := mkWriteCounters { sessions : Z; writes_forwarded : Z; writes_refused : Z }.
Definition WriteCounters_default : WriteCounters := mkWriteCounters 0 0 0.

Definition WriteCounters_to_doc (c : WriteCounters) : Doc :=
  DObject [("sessions", count_doc (sessions c)); ("writesForwarded", count_doc (writes_forwarded c));
           ("writesRefused", count_doc (writes_refused c))].

Definition count_session (c : WriteCounters) : WriteCounters :=
  mkWriteCounters (sat_add_u64 (sessions c) 1) (writes_forwarded c) (writes_refused c).
Definition count_forwarded (c : WriteCounters) : WriteCounters :=
  mkWriteCounters (sessions c) (sat_add_u64 (writes_forwarded c) 1) (writes_refused c).
Definition count_refused (c : WriteCounters) : WriteCounters :=
  mkWriteCounters (sessions c) (writes_forwarded c) (sat_add_u64 (writes_refused c) 1).

(** ** State *)

(** The writer session: its chain position, its challenge once opened, and whether it began the
    maintenance. *)
Record Session := mkSession {
  ss_opened : bool;
  ss_challenge : option string;
  ss_next_sequence : Z;
  ss_last_digest : string;
  ss_owner : bool;
}.
Definition session_new : Session := mkSession false None 1 ZERO_DIGEST false.

Module WriteStatus.
Inductive t := Forwarded | Terminal.
#[global] Instance t_eq_dec : EqDecision t.
Proof. solve_decision. Defined.
Definition as_str (s : t) : string := match s with Forwarded => "FORWARDED" | Terminal => "TERMINAL" end.
End WriteStatus.

Record WriteEntry := mkWriteEntry { we_status : WriteStatus.t; we_classification : option Classification.t }.
#[export] Instance WriteEntry_eq_dec : EqDecision WriteEntry.
Proof. solve_decision. Defined.

Definition WRITE_FORWARDED : WriteEntry := mkWriteEntry WriteStatus.Forwarded None.
Definition write_terminal (c : Classification.t) : WriteEntry := mkWriteEntry WriteStatus.Terminal (Some c).
Definition write_ambiguous (e : WriteEntry) : bool :=
  bool_decide (we_classification e = Some Classification.IoAmbiguous).

Record PendingWrite := mkPendingWrite {
  pw_write_id : Z;
  pw_operation : WriteOperation.t;
  pw_request_digest : string;
  pw_sequence : Z;
  pw_frame_digest : string;
  pw_rendered : RenderedWrite;
}.

(** ** Requests *)

Module WriterRequest.
Inductive t := Status | Begin (expected_generation : string) | Object (request : WriteRequest) | End.
End WriterRequest.

Definition WriterRequest_parse (operation : string) (payload : Value) : option WriterRequest.t :=
  match operation with
  | "MAINTENANCE_STATUS" => Some WriterRequest.Status
  | "WRITE_BEGIN" => let* text := member_text payload "expectedGeneration" in Some (WriterRequest.Begin text)
  | "WRITE_OBJECT" => let* request := WriteRequest_from_payload payload in Some (WriterRequest.Object request)
  | "WRITE_END" => Some WriterRequest.End
  | _ => None
  end.

Module WriterReply.
Inductive t := Payload (payload : Doc) | Forwarded (write_id : Z).
End WriterReply.

Definition write_refused (reason : string) : Doc :=
  DObject [("result", DStr "REFUSED"); ("reason", DStr reason)].

Definition is_alphanumeric (b : Z) : bool := is_digit b || is_lower b || ((65 <=? b) && (b <=? 90)).

Definition is_digest (text : string) : bool :=
  let bytes := bytes_of text in
  starts_with (bytes_of "sha256:") bytes &&
  let hex := drop 7 bytes in
  Nat.eqb (length hex) 64 && forallb (λ b, is_digit b || ((97 <=? b) && (b <=? 102))) hex.

Definition is_token (text : string) (max : nat) (dash : bool) : bool :=
  let bytes := bytes_of text in
  Nat.leb 1 (length bytes) && Nat.leb (length bytes) max &&
  forallb (λ b, is_alphanumeric b || (dash && (b =? 45))) bytes.

(** A response the WRITE_OBJECT answer can carry unchanged. *)
Definition response_in_schema (response : Upstream) : bool :=
  (100 <=? u_http_status response) && (u_http_status response <=? 599)
  && is_digest (u_body_digest response)
  && match u_uid response with Some uid => is_token uid 128 true | None => true end
  && match u_resource_version response with Some version => is_token version 64 false | None => true end.

(** ** The rebuild of a restart, from the journal alone *)

Record WritesRebuild := mkWritesRebuild {
  wb_writes : gmap Z WriteEntry;
  wb_begun : bool;
  wb_ended : option MaintenanceEnd.t;
}.

Definition writes_step (b : WritesRebuild) (e : Entry.t) : WritesRebuild :=
  match e with
  | Entry.Record_ (Rec.WriteForwarded write_id _ _ _ _ _ _ _) =>
      mkWritesRebuild (<[write_id := WRITE_FORWARDED]> (wb_writes b)) (wb_begun b) (wb_ended b)
  | Entry.Record_ (Rec.WriteTerminal write_id classification _) =>
      mkWritesRebuild (<[write_id := write_terminal classification]> (wb_writes b)) (wb_begun b) (wb_ended b)
  | Entry.Record_ (Rec.MaintRequested _) => mkWritesRebuild (wb_writes b) true (wb_ended b)
  | Entry.Record_ (Rec.MaintEnded reason _ _) => mkWritesRebuild (wb_writes b) (wb_begun b) (Some reason)
  | _ => b
  end.

Definition writes_journal (l : list Entry.t) : WritesRebuild :=
  fold_left writes_step l (mkWritesRebuild ∅ false None).

Definition write_settle (e : WriteEntry) : WriteEntry :=
  if bool_decide (we_status e = WriteStatus.Forwarded) then write_terminal Classification.IoAmbiguous else e.

Definition rebuild_writes (l : list Entry.t) : gmap Z WriteEntry * MaintenanceReason.t :=
  let b := writes_journal l in
  (write_settle <$> wb_writes b,
   match wb_begun b, wb_ended b with
   | false, _ => MaintenanceReason.GenerationRebuilt
   | true, Some how => MaintenanceReason.Ended how
   | true, None => MaintenanceReason.GateRestart
   end).

(** [values().any(..)] *)
Definition any_write_ambiguous (writes : gmap Z WriteEntry) : bool := existsb write_ambiguous (btree_values writes).

(** The floor of a process restart of the base gate. *)
Definition write_floor (l : list Entry.t) : option State.t :=
  if any_write_ambiguous (rebuild_writes l).1 then Some State.Held else None.

(** ** The policy gate *)

Record PolicyGate (St Ob : Type) := mkPolicyGate {
  pg_gate : Gate St Ob;
  pg_kinds : PolicyKinds;
  pg_schema : Schema;
  pg_writer : PolicyWriter;
  pg_address : InetAddress;
  pg_maintenance : Maintenance.t;
  pg_reason : option MaintenanceReason.t;
  pg_session : option Session;
  pg_writes : gmap Z WriteEntry;
  pg_pending : option PendingWrite;
  pg_counters : WriteCounters;
}.
Arguments mkPolicyGate {St Ob}.
Arguments pg_gate {St Ob}.
Arguments pg_kinds {St Ob}.
Arguments pg_schema {St Ob}.
Arguments pg_writer {St Ob}.
Arguments pg_address {St Ob}.
Arguments pg_maintenance {St Ob}.
Arguments pg_reason {St Ob}.
Arguments pg_session {St Ob}.
Arguments pg_writes {St Ob}.
Arguments pg_pending {St Ob}.
Arguments pg_counters {St Ob}.

(** Field assignments. *)
Definition with_gate {St Ob} (v : Gate St Ob) (p : PolicyGate St Ob) : PolicyGate St Ob :=
  mkPolicyGate v (pg_kinds p) (pg_schema p) (pg_writer p) (pg_address p) (pg_maintenance p) (pg_reason p)
    (pg_session p) (pg_writes p) (pg_pending p) (pg_counters p).
Definition with_maintenance {St Ob} (v : Maintenance.t) (p : PolicyGate St Ob) : PolicyGate St Ob :=
  mkPolicyGate (pg_gate p) (pg_kinds p) (pg_schema p) (pg_writer p) (pg_address p) v (pg_reason p)
    (pg_session p) (pg_writes p) (pg_pending p) (pg_counters p).
Definition with_reason {St Ob} (v : option MaintenanceReason.t) (p : PolicyGate St Ob) : PolicyGate St Ob :=
  mkPolicyGate (pg_gate p) (pg_kinds p) (pg_schema p) (pg_writer p) (pg_address p) (pg_maintenance p) v
    (pg_session p) (pg_writes p) (pg_pending p) (pg_counters p).
Definition with_session {St Ob} (v : option Session) (p : PolicyGate St Ob) : PolicyGate St Ob :=
  mkPolicyGate (pg_gate p) (pg_kinds p) (pg_schema p) (pg_writer p) (pg_address p) (pg_maintenance p)
    (pg_reason p) v (pg_writes p) (pg_pending p) (pg_counters p).
Definition with_writes {St Ob} (v : gmap Z WriteEntry) (p : PolicyGate St Ob) : PolicyGate St Ob :=
  mkPolicyGate (pg_gate p) (pg_kinds p) (pg_schema p) (pg_writer p) (pg_address p) (pg_maintenance p)
    (pg_reason p) (pg_session p) v (pg_pending p) (pg_counters p).
Definition with_pending {St Ob} (v : option PendingWrite) (p : PolicyGate St Ob) : PolicyGate St Ob :=
  mkPolicyGate (pg_gate p) (pg_kinds p) (pg_schema p) (pg_writer p) (pg_address p) (pg_maintenance p)
    (pg_reason p) (pg_session p) (pg_writes p) v (pg_counters p).
Definition with_write_counters {St Ob} (v : WriteCounters) (p : PolicyGate St Ob) : PolicyGate St Ob :=
  mkPolicyGate (pg_gate p) (pg_kinds p) (pg_schema p) (pg_writer p) (pg_address p) (pg_maintenance p)
    (pg_reason p) (pg_session p) (pg_writes p) (pg_pending p) v.

Module Writer.
Section Handlers.
Context {St Ob : Type} `{Stores St, WorkerObserver Ob}.
Abbreviation policy := (PolicyGate St Ob).
Implicit Types (p : policy).

(** *** Helpers *)

(** [self.gate.record(..)] *)
Definition record (r : Rec.t) p : policy * bool :=
  let '(g, durable) := Gate.record (pg_gate p) r in (with_gate g p, durable).
(** [record] where the source drops its answer. *)
Definition note (r : Rec.t) p : policy := (record r p).1.

(** [self.gate.set_state(..)] *)
Definition set_state (s : State.t) p : policy := with_gate (with_state s (pg_gate p)) p.

Definition with_drain p (output : PolicyOutput) : policy * PolicyOutput :=
  let '(g, answer) := settle_drain (pg_gate p) in
  (with_gate g p,
   match answer with
   | Some answer => mkPolicyOutput (po_kind output) (Some answer) (po_response_frame output)
   | None => output
   end).

Definition write_count p : Z := Z.min (U16 - 1) (Z.of_nat (size (pg_writes p))).

Definition ambiguous_writes p : list Z :=
  filter (λ id, match pg_writes p !! id with Some e => write_ambiguous e | None => false end = true)
    (btree_keys (pg_writes p)).

(** The first step: a waiting maintenance opens when the fence is OPEN and MAINT_OPEN is durable. *)
Definition open_maintenance p : policy :=
  if bool_decide (pg_maintenance p = Maintenance.Pending) && bool_decide (fence (pg_gate p) = DrainAnswer.Open)
  then
    let '(p, durable) := record (Rec.MaintOpen (g_state (pg_gate p))) p in
    if durable then with_maintenance Maintenance.Open p else p
  else p.

(** The second: a waiting or open one is held when the fence is HELD. *)
Definition hold_maintenance p : policy :=
  if bool_decide (pg_maintenance p = Maintenance.Pending ∨ pg_maintenance p = Maintenance.Open)
     && bool_decide (fence (pg_gate p) = DrainAnswer.Held)
  then
    let p := with_maintenance Maintenance.Held p in
    note (Rec.MaintHeld (g_state (pg_gate p))) p
  else p.

Definition settle_maintenance p : policy := hold_maintenance (open_maintenance p).

Definition maint_ended (how : MaintenanceEnd.t) p : Rec.t :=
  Rec.MaintEnded how (write_count p) (ambiguous_writes p).

Definition end_maintenance (how : MaintenanceEnd.t) p : policy :=
  let p := with_maintenance Maintenance.Ended p in
  let p := with_reason (Some (MaintenanceReason.Ended how)) p in
  note (maint_ended how p) p.

Definition abort_pending (reason : AbortReason.t) p : policy :=
  match pg_pending p with
  | None => p
  | Some pending =>
      let id := pw_write_id pending in
      let p := with_pending None p in
      let p := note (Rec.WriteTerminal id Classification.IoAmbiguous (WriteDetails.Aborted reason)) p in
      let p := with_writes (<[id := write_terminal Classification.IoAmbiguous]> (pg_writes p)) p in
      set_state State.Held p
  end.

Definition end_session (how : SessionEnd.t) (fatal : option WriterFatal.t) p : policy * PolicyOutput :=
  let owner := match pg_session p with Some session => ss_owner session | None => false end in
  let p := with_session None p in
  let p := note (Rec.WriterSessionEnded how) p in
  let p := if owner && negb (bool_decide (pg_maintenance p = Maintenance.Ended))
           then end_maintenance (MaintenanceEnd.Session how) p else p in
  (p, policy_output (PolicyOutputKind.SessionEnd how (pg_maintenance p) fatal)).

Definition writer_fatal (reason : WriterFatal.t) p : policy * PolicyOutput :=
  end_session SessionEnd.Fatal (Some reason) (abort_pending AbortReason.WriterProtocolFailure p).

Definition response_doc (session : Session) (sequence : Z) (request_digest operation : string) (payload : Doc)
    : Doc :=
  DObject [("schemaVersion", DStr WRITER_FRAME_VERSION); ("challenge", doc_opt_str (ss_challenge session));
           ("sequence", DInt (sat_add_i64 sequence 1)); ("previousDigest", DStr request_digest);
           ("direction", DStr "GATE_TO_WRITER"); ("operation", DStr operation); ("payload", payload)].

(** Frames a response to the request at [sequence] and advances the session's chain; [None] when
    there is no session or the response would leave the schema. *)
Definition frame_response (sequence : Z) (request_digest operation : string) (payload : Doc) p
    : policy * option (list Z) :=
  match pg_session p with
  | None => (p, None)
  | Some session =>
      match check_frame_encoded (doc_to_value (response_doc session sequence request_digest operation payload))
              (pg_schema p) with
      | Err _ => (p, None)
      | Ok bytes =>
          (with_session (Some (mkSession (ss_opened session) (ss_challenge session) (sat_add_i64 sequence 2)
                                 (prefixed bytes) (ss_owner session))) p,
           Some bytes)
      end
  end.

(** *** Restart *)

Definition restart p : policy * PolicyOutput :=
  let p := with_pending None p in
  let '(writes, reason) := rebuild_writes (journal (pg_gate p)) in
  let ambiguous := any_write_ambiguous writes in
  let p := with_writes writes p in
  let p := with_maintenance Maintenance.Ended p in
  let p := with_reason (Some reason) p in
  let '(g, output) := restart_with (if ambiguous then Some State.Held else None) (pg_gate p) in
  let '(g, answer) := settle_drain g in
  let output := match answer with
                | Some answer => mkOutput (o_kind output) (Some answer) (o_response_frame output)
                | None => output
                end in
  let p := with_session None (with_gate g p) in
  (p, policy_output (PolicyOutputKind.Restart output (pg_maintenance p))).

(** *** Operations *)

Definition status p : Doc :=
  DObject [("result", DStr "OK"); ("generation", DStr (c_generation (g_config (pg_gate p))));
           ("gateState", DStr (State.as_str (g_state (pg_gate p))));
           ("maintenance", DStr (Maintenance.as_str (pg_maintenance p)));
           ("inFlightActionId", opt_int (in_flight_id (pg_gate p))); ("writes", DInt (write_count p));
           ("ambiguousWriteIds", ids_doc (ambiguous_writes p));
           ("journalDigest", DStr (journal_digest (pg_gate p)))].

Definition own_session p : policy :=
  match pg_session p with
  | Some s =>
      with_session (Some (mkSession (ss_opened s) (ss_challenge s) (ss_next_sequence s) (ss_last_digest s) true)) p
  | None => p
  end.

Definition begin_reply (denied : list Z) p : Doc :=
  DObject [("result", DStr "OK"); ("maintenance", DStr (Maintenance.as_str (pg_maintenance p)));
           ("gateState", DStr (State.as_str (g_state (pg_gate p)))); ("deniedActionIds", ids_doc denied)].

(** WRITE_BEGIN *)
Definition begin (expected_generation : string) p : policy * Doc :=
  let generation := c_generation (g_config (pg_gate p)) in
  if negb (bool_decide (expected_generation = generation)) then (p, write_refused "GENERATION_MISMATCH")
  else if bool_decide (pg_maintenance p = Maintenance.Ended) then (p, write_refused "MAINTENANCE_ENDED")
  else if bool_decide (pg_maintenance p = Maintenance.NotBegun) then
    let armed := armed_ids (pg_gate p) in
    let '(p, durable) := record (Rec.MaintRequested generation) p in
    if negb durable then (p, write_refused "STORAGE_FAILURE")
    else
      let p := own_session p in
      let p := with_maintenance Maintenance.Pending p in
      let p := with_gate (drain (pg_gate p)).1 p in
      let denied := denied_since (pg_gate p) armed in
      let p := settle_maintenance p in
      (p, begin_reply denied p)
  else
    let p := settle_maintenance p in
    (p, begin_reply [] p).

Definition refuse_write (reason : string) p : policy * WriterReply.t :=
  (with_write_counters (count_refused (pg_counters p)) p, WriterReply.Payload (write_refused reason)).

(** WRITE_OBJECT *)
Definition write_object (request : WriteRequest) (sequence : Z) (frame_digest : string) p
    : policy * WriterReply.t :=
  if negb (bool_decide (pg_maintenance p = Maintenance.Open))
  then refuse_write (if bool_decide (pg_maintenance p = Maintenance.Held) then "MAINTENANCE_HELD"
                     else "MAINTENANCE_NOT_OPEN") p
  else if negb (wr_write_id request =? Z.of_nat (size (pg_writes p)) + 1)
  then refuse_write "WRITE_ID_OUT_OF_ORDER" p
  else
  let namespace := qualification_namespace (pg_writer p) in
  match check_write (pg_kinds p) namespace request with
  | Err reason => refuse_write (WriteRefusal.as_str reason) p
  | Ok row =>
  match render_write row request namespace (apiserver_authority (pg_writer p)) with
  | None => refuse_write "OBJECT_RULE" p
  | Some rendered =>
      let digest := request_digest rendered in
      let id := wr_write_id request in
      let '(p, durable) :=
        record (Rec.WriteForwarded id (wr_operation request) (api_version row) (wk_kind row)
                  (wr_namespace request) (wr_name request) digest (wr_prior request)) p in
      if negb durable then (p, WriterReply.Payload (write_refused "STORAGE_FAILURE"))
      else
        let p := with_writes (<[id := WRITE_FORWARDED]> (pg_writes p)) p in
        let p := with_write_counters (count_forwarded (pg_counters p)) p in
        let p := with_pending
                   (Some (mkPendingWrite id (wr_operation request) digest sequence frame_digest rendered)) p in
        (p, WriterReply.Forwarded id)
  end end.

(** WRITE_END *)
Definition end_ p : policy * Doc :=
  if bool_decide (pg_maintenance p = Maintenance.NotBegun) then (p, write_refused "MAINTENANCE_NOT_BEGUN")
  else if bool_decide (pg_maintenance p = Maintenance.Ended) then (p, write_refused "MAINTENANCE_ENDED")
  else
    let '(p, durable) := record (maint_ended MaintenanceEnd.WriteEnd p) p in
    if negb durable then (p, write_refused "STORAGE_FAILURE")
    else
      let p := with_maintenance Maintenance.Ended p in
      let p := with_reason (Some (MaintenanceReason.Ended MaintenanceEnd.WriteEnd)) p in
      (p, DObject [("result", DStr "OK"); ("maintenance", DStr (Maintenance.as_str Maintenance.Ended));
                   ("gateState", DStr (State.as_str (g_state (pg_gate p)))); ("writes", DInt (write_count p));
                   ("ambiguousWriteIds", ids_doc (ambiguous_writes p))]).

(** *** Writer events *)

Definition connect p : policy * PolicyOutput :=
  match pg_session p with
  | Some _ => (p, policy_output PolicyOutputKind.RefusedSession)
  | None =>
      let p := with_session (Some session_new) p in
      (with_write_counters (count_session (pg_counters p)) p, policy_output PolicyOutputKind.Session)
  end.

Definition empty_output p : policy * PolicyOutput := (p, policy_output PolicyOutputKind.Empty).

Definition channel_lost p : policy * PolicyOutput :=
  match pg_session p with
  | None => empty_output p
  | Some _ => end_session SessionEnd.Ended None (abort_pending AbortReason.WriterChannelLost p)
  end.

(** [self.gate.urgent(Held, reason)] then [set_state(Held)] *)
Definition hold_urgently (reason : Invalidation.t) p : policy :=
  set_state State.Held (with_gate (urgent State.Held reason (pg_gate p)) p).

Definition peer_changed p : policy * PolicyOutput :=
  match pg_session p with
  | None => empty_output p
  | Some _ =>
      let p := abort_pending AbortReason.WriterPeerDeviation p in
      let p := hold_urgently Invalidation.WriterPeerDeviation p in
      end_session SessionEnd.Fatal (Some WriterFatal.PeerChanged) p
  end.

Definition answer_late p : policy * PolicyOutput :=
  match pg_session p with
  | None => empty_output p
  | Some _ =>
      let p := abort_pending AbortReason.WriterProtocolFailure p in
      let p := hold_urgently (Invalidation.Fatal FatalReason.AnswerLate) p in
      end_session SessionEnd.Fatal (Some WriterFatal.AnswerLate) p
  end.

Definition writer_next_sequence p : Z :=
  match pg_session p with Some session => ss_next_sequence session | None => 1 end.
Definition writer_last_digest p : string :=
  match pg_session p with Some session => ss_last_digest session | None => ZERO_DIGEST end.

Record WriterEnvelope := mkWriterEnvelope {
  we_direction : string;
  we_sequence : Z;
  we_previous : string;
  we_challenge : string;
  we_operation : string;
}.

Definition parse_writer_envelope (value : Value) : option WriterEnvelope :=
  let* direction := member_text value "direction" in
  let* sequence := member_int value "sequence" in
  let* previous := member_text value "previousDigest" in
  let* challenge := member_text value "challenge" in
  let* operation := member_text value "operation" in
  Some (mkWriterEnvelope direction sequence previous challenge operation).

(** The session after a frame's opening and challenge checks, or the reason they fail. *)
Definition open_session (e : WriterEnvelope) (session : Session) : result Session WriterFatal.t :=
  if negb (ss_opened session) then
    if negb (bool_decide (we_operation e = "MAINTENANCE_STATUS")) then Err WriterFatal.OpeningFrameRequired
    else Ok (mkSession true (Some (we_challenge e)) (ss_next_sequence session) (ss_last_digest session) (ss_owner session))
  else if negb (bool_decide (ss_challenge session = Some (we_challenge e))) then Err WriterFatal.ChallengeMismatch
  else Ok session.

Definition perform (request : WriterRequest.t) (sequence : Z) (digest : string) p : policy * WriterReply.t :=
  match request with
  | WriterRequest.Status => (p, WriterReply.Payload (status p))
  | WriterRequest.Begin expected => let '(p, payload) := begin expected p in (p, WriterReply.Payload payload)
  | WriterRequest.Object request => write_object request sequence digest p
  | WriterRequest.End => let '(p, payload) := end_ p in (p, WriterReply.Payload payload)
  end.

(** Answers a performed operation: the response frame, or the session's end. *)
Definition respond (sequence : Z) (digest operation : string) (payload : Doc) p : policy * PolicyOutput :=
  let '(p, framed) := frame_response sequence digest operation payload p in
  match framed with
  | Some bytes => (p, mkPolicyOutput (PolicyOutputKind.Response payload) None (Some bytes))
  | None => writer_fatal WriterFatal.ResponseOutOfBounds p
  end.

Definition writer_frame (input : FrameInput.t) p : policy * PolicyOutput :=
  match pg_pending p with
  | Some _ => writer_fatal WriterFatal.Lockstep p
  | None =>
  match checked_frame (pg_schema p) input with
  | Err code => writer_fatal (WriterFatal.InvalidFrame code) p
  | Ok (value, encoded) =>
  match parse_writer_envelope value with
  | None => writer_fatal (WriterFatal.InvalidFrame F00) p
  | Some e =>
  if negb (bool_decide (we_direction e = "WRITER_TO_GATE")) || negb (we_sequence e mod 2 =? 1)
  then writer_fatal WriterFatal.Direction p
  else if negb (we_sequence e =? writer_next_sequence p) || negb (bool_decide (we_previous e = writer_last_digest p))
  then writer_fatal WriterFatal.ChainBroken p
  else
  match pg_session p with
  | None => empty_output p
  | Some session =>
  match open_session e session with
  | Err reason => writer_fatal reason p
  | Ok session =>
  let p := with_session (Some session) p in
  if MAX_SEQUENCE <=? we_sequence e then writer_fatal WriterFatal.ResponseOutOfBounds p
  else
  match (let* payload := value_get value "payload" in WriterRequest_parse (we_operation e) payload) with
  | None => writer_fatal (WriterFatal.InvalidFrame F00) p
  | Some request =>
      let digest := prefixed encoded in
      let '(p, reply) := perform request (we_sequence e) digest p in
      match reply with
      | WriterReply.Forwarded id => (p, policy_output (PolicyOutputKind.Forwarded id))
      | WriterReply.Payload payload => respond (we_sequence e) digest (we_operation e) payload p
      end
  end end end end end end.

(** *** Upstream outcomes *)

(** What an outcome of the outstanding write settles: classification and record details. *)
Definition classify_write (operation : WriteOperation.t) (outcome : UpstreamOutcome.t)
    : Classification.t * WriteDetails.t :=
  match outcome with
  | UpstreamOutcome.Lost => (Classification.IoAmbiguous, WriteDetails.Lost)
  | UpstreamOutcome.Timeout => (Classification.IoAmbiguous, WriteDetails.Aborted AbortReason.UpstreamTimeout)
  | UpstreamOutcome.Response response =>
      let status := u_http_status response in
      if negb (write_outcome_is_final operation status)
      then (Classification.IoAmbiguous, WriteDetails.Reconciliation status (u_body_digest response))
      else
        let success := WriteOperation.is_success operation status in
        (Classification.DeliveredResult,
         WriteDetails.Delivered status (u_body_digest response)
           (if success then u_uid response else None)
           (if success then u_resource_version response else None))
  end.

(** What stands after the record: without a durable terminal record nothing settled. *)
Definition write_settled (recorded : bool) (classification : Classification.t) (details : WriteDetails.t)
    : Classification.t * option WriteDetails.t :=
  if negb recorded then (Classification.IoAmbiguous, None)
  else match details with
       | WriteDetails.Delivered _ _ _ _ => (classification, Some details)
       | _ => (classification, None)
       end.

Definition write_result (pending : PendingWrite) (classification : Classification.t)
    (delivered : option WriteDetails.t) : Doc :=
  let '(http_status, result_digest, observed_uid, observed_version) :=
    match delivered with
    | Some (WriteDetails.Delivered http_status result_digest uid version) =>
        (DInt http_status, DStr result_digest, doc_opt_str uid, doc_opt_str version)
    | _ => (DNull, DNull, DNull, DNull)
    end in
  DObject [("result", DStr "OK"); ("writeId", DInt (pw_write_id pending));
           ("classification", DStr (Classification.as_str classification));
           ("requestDigest", DStr (pw_request_digest pending)); ("httpStatus", http_status);
           ("resultDigest", result_digest); ("observedUid", observed_uid);
           ("observedResourceVersion", observed_version)].

(** The outcome of the outstanding write. *)
Definition settle_write (pending : PendingWrite) (outcome : UpstreamOutcome.t) p : policy * PolicyOutput :=
  let id := pw_write_id pending in
  let p := with_pending None p in
  let '(classification, details) := classify_write (pw_operation pending) outcome in
  let '(p, recorded) := record (Rec.WriteTerminal id classification details) p in
  let '(classification, delivered) := write_settled recorded classification details in
  let p := with_writes (<[id := write_terminal classification]> (pg_writes p)) p in
  let p := if bool_decide (classification = Classification.IoAmbiguous) then set_state State.Held p else p in
  let payload := write_result pending classification delivered in
  let unanswered := policy_output (PolicyOutputKind.Upstream classification None) in
  match pg_session p with
  | None => (p, unanswered)
  | Some _ =>
      let '(p, framed) :=
        frame_response (pw_sequence pending) (pw_frame_digest pending) "WRITE_OBJECT" payload p in
      match framed with
      | Some bytes => (p, mkPolicyOutput (PolicyOutputKind.Upstream classification (Some payload)) None (Some bytes))
      | None => ((writer_fatal WriterFatal.ResponseOutOfBounds p).1, unanswered)
      end
  end.

Definition upstream (write_id : Z) (outcome : UpstreamOutcome.t) p : policy * result PolicyOutput string :=
  if match outcome with UpstreamOutcome.Response response => negb (response_in_schema response) | _ => false end
  then (p, Err "upstream response outside the I07 v3 response patterns")
  else
  match pg_pending p with
  | Some pending =>
      if pw_write_id pending =? write_id
      then let '(p, output) := settle_write pending outcome p in (p, Ok output)
      else if negb (bool_decide (is_Some (pg_writes p !! write_id)))
      then (p, Err "upstream outcome for a write the gate never forwarded")
      else (note (Rec.WriteLateUpstream write_id) p, Ok (policy_output PolicyOutputKind.LateUpstream))
  | None =>
      if negb (bool_decide (is_Some (pg_writes p !! write_id)))
      then (p, Err "upstream outcome for a write the gate never forwarded")
      else (note (Rec.WriteLateUpstream write_id) p, Ok (policy_output PolicyOutputKind.LateUpstream))
  end.

(** *** Events *)

(** A writer handler's output, with the drain answer it settled. *)
Definition drained (r : policy * PolicyOutput) : policy * result PolicyOutput string :=
  let '(p, output) := with_drain r.1 r.2 in (p, Ok output).

Definition dispatch (event : PolicyEvent.t) p : policy * result PolicyOutput string :=
  match event with
  | PolicyEvent.Base Event.GateRestart => let '(p, output) := restart p in (p, Ok output)
  | PolicyEvent.Base event =>
      let '(g, handled) := Gate.handle event (pg_gate p) in
      (with_gate g p, result_map (λ output, policy_output (PolicyOutputKind.Base output)) handled)
  | PolicyEvent.WConnect _ => drained (connect p)
  | PolicyEvent.WUpstream write_id outcome =>
      let '(p, settled) := upstream write_id outcome p in
      match settled with
      | Err error => (p, Err error)
      | Ok output => drained (p, output)
      end
  | PolicyEvent.WFrame input =>
      match pg_session p with
      | None => (p, Err "writer frame without a session")
      | Some _ => drained (writer_frame input p)
      end
  | PolicyEvent.WChannelLost => drained (channel_lost p)
  | PolicyEvent.WPeerChanged => drained (peer_changed p)
  | PolicyEvent.WAnswerLate => drained (answer_late p)
  end.

(** [PolicyGate::handle]: the event, then the maintenance follows the fence. *)
Definition handle (event : PolicyEvent.t) p : policy * result PolicyOutput string :=
  let '(p, handled) := dispatch event p in
  match handled with
  | Err error => (p, Err error)
  | Ok output => (settle_maintenance p, Ok output)
  end.

(** The contract's final snapshot. *)
Definition snapshot p : Doc :=
  let write_doc id :=
    (λ e, (decimal_str id,
           DObject [("status", DStr (WriteStatus.as_str (we_status e)));
                    ("classification", doc_opt_str (Classification.as_str <$> we_classification e))]))
    <$> pg_writes p !! id in
  match Gate.snapshot (pg_gate p) with
  | DObject members =>
      DObject (members ++
        [("maintenance", DStr (Maintenance.as_str (pg_maintenance p)));
         ("maintenanceReason", doc_opt_str (MaintenanceReason.as_str <$> pg_reason p));
         ("writerSession",
           doc_opt_str ((λ s, if ss_opened s then "OPEN" else "UNOPENED") <$> pg_session p));
         ("pendingWriteId", match pg_pending p with Some w => DInt (pw_write_id w) | None => DNull end);
         ("writes", DObject (omap write_doc (btree_keys (pg_writes p))));
         ("writeCounters", WriteCounters_to_doc (pg_counters p))])
  | doc => doc
  end.

(** What the substrate reads. *)
Definition session_held p : bool := bool_decide (is_Some (pg_session p)).
Definition pending_write p : option Z := pw_write_id <$> pg_pending p.
Definition forwarded_write p : option (Z * RenderedWrite) := (λ w, (pw_write_id w, pw_rendered w)) <$> pg_pending p.

(** *** Construction *)

Record Parts := mkParts {
  pt_writer : PolicyWriter;
  pt_address : InetAddress;
  pt_kinds : PolicyKinds;
  pt_schema : Schema;
}.

(** [Parts::around] *)
Definition around (parts : Parts) (g : Gate St Ob) : policy :=
  mkPolicyGate g (pt_kinds parts) (pt_schema parts) (pt_writer parts) (pt_address parts) Maintenance.NotBegun None
    None ∅ None WriteCounters_default.

Definition map_err {T E E'} (f : E → E') (r : result T E) : result T E' :=
  match r with Ok t => Ok t | Err e => Err (f e) end.

(** [Parts::read]: the configuration without its [policyWriter] member goes to [Config]. *)
Definition read (i07_v3_schema : result Schema SchemaError) (config_value kinds_value : Value)
    : result (Config * Parts) PolicyGateError.t :=
  match as_object config_value with
  | None => Err (PolicyGateError.PolicyWriter "the configuration is not an object")
  | Some root =>
      let? (writer, address) := from_member (object_get root (jstr "policyWriter")) in
      let rest := object_remove root (jstr "policyWriter") in
      let? config := map_err PolicyGateError.Config (Config_from_value (VObject rest)) in
      let? kinds := map_err PolicyGateError.Kinds (PolicyKinds_from_value kinds_value) in
      let? schema := map_err PolicyGateError.Schema i07_v3_schema in
      Ok (config, mkParts writer address kinds schema)
  end.

(** [PolicyGate::new], on the stores it is given. *)
Definition new (i05_v3_schema i07_v3_schema : result Schema SchemaError) (config_value kinds_value : Value)
    (stores : St) (observer : Ob) : result policy PolicyGateError.t :=
  let? (config, parts) := read i07_v3_schema config_value kinds_value in
  let? g := map_err PolicyGateError.Gate (with_stores_new i05_v3_schema config stores observer) in
  Ok (around parts g).
End Handlers.

(** *** On file stores *)

Section OnFiles.
Context {W Ob : Type} `{Disk W, WorkerObserver Ob}.
Abbreviation policy := (PolicyGate (FileStores (W := W)) Ob).

(** [Gate::reopened] *)
Definition reopened (i05_v3_schema : result Schema SchemaError) (config : Config) (stores : FileStores (W := W))
    (observer : Ob) : result (Gate (FileStores (W := W)) Ob) GateError.t :=
  if negb (bool_decide (c_generation config = fs_generation stores)) then Err GateError.GenerationMismatch
  else with_stores_new i05_v3_schema config stores observer.

(** [Gate::create] *)
Definition create_gate (i05_v3_schema : result Schema SchemaError) (config : Config) (stores : FileStores (W := W))
    (observer : Ob) : result (Gate (FileStores (W := W)) Ob) GateError.t :=
  if negb (bool_decide (c_generation config = fs_generation stores)) then Err GateError.GenerationMismatch
  else if negb (fs_journal_created stores && fs_indexed_now stores && bool_decide (entries stores = [])
                && bool_decide (fs_marker stores = None))
  then Err GateError.NotFresh
  else with_stores_new i05_v3_schema config stores observer.

(** [Gate::open] *)
Definition open_gate (i05_v3_schema : result Schema SchemaError) (config : Config) (stores : FileStores (W := W))
    (observer : Ob) : result (Gate (FileStores (W := W)) Ob * Output) GateError.t :=
  let floor := write_floor (entries stores) in
  let? g := reopened i05_v3_schema config stores observer in
  Ok (restart_with floor g).

(** [PolicyGate::create] *)
Definition create (i05_v3_schema i07_v3_schema : result Schema SchemaError) (config_value kinds_value : Value)
    (stores : FileStores (W := W)) (observer : Ob) : result policy PolicyGateError.t :=
  let? (config, parts) := read i07_v3_schema config_value kinds_value in
  let? g := map_err PolicyGateError.Gate (create_gate i05_v3_schema config stores observer) in
  Ok (around parts g).

(** [PolicyGate::open] *)
Definition open (i05_v3_schema i07_v3_schema : result Schema SchemaError) (config_value kinds_value : Value)
    (stores : FileStores (W := W)) (observer : Ob) : result (policy * PolicyOutput) PolicyGateError.t :=
  let? (config, parts) := read i07_v3_schema config_value kinds_value in
  let? g := map_err PolicyGateError.Gate (reopened i05_v3_schema config stores observer) in
  let '(p, output) := restart (around parts g) in
  Ok (settle_maintenance p, output).
End OnFiles.
End Writer.
