(* ===== verification/Scenario.v ===== *)
(** * A concrete run of the gate

    The configuration of [Config.sample_config], in-memory stores and a fake process table
    behind the real five-step observation.  The run opens the channel, binds, arms a CREATE, forwards its
    request, and delivers 201; its gates are the concrete inputs of the other files' witnesses.
    The frame schema accepts every value here: the gate's own checks decide. *)

From S2P Require Import Prelude Sha256 Json Schema Frame Render Types Journal Observation Config.
From S2P Require Import Gate.
(** A process table with one worker. *)
Record FakeKernel := mkFakeKernel { fk_leaf : list Z; fk_stat : list Z }.

#[export] Instance FakeKernel_reads : KernelReads FakeKernel unit := {
  read_leaf_procs k := (k, Ok (fk_leaf k));
  pidfd_open k _ := (k, Ok tt);
  read_stat k _ := (k, Ok (fk_stat k));
  poll_zero k _ := (k, Ok Alive);
}.

Definition stat_line : string :=
  "4100 (worker) S 1 2 3 4 5 6 7 8 9 10 11 12 13 14 15 16 17 18 900001 0".
Definition worker_kernel : FakeKernel :=
  mkFakeKernel (leaf_file [1; 4100]) (bytes_of stat_line ++ [NEWLINE]).

Definition gate_type : Type := Gate MemoryStores FakeKernel.

Definition any_schema : Schema := mkSchema (NBool true) [].

(** A second run of the same generation. *)
Definition config_map : Manifest :=
  mkManifest "v1" ConfigMap "planeon-qual" "probe-config"
    "sha256:2222222222222222222222222222222222222222222222222222222222222222" 321.
Definition run_config : Config :=
  mkConfig (c_generation sample_config) (c_state sample_config) (c_peer_qualification_digest sample_config)
    (c_endpoint sample_config) (<[m_digest config_map := config_map]> (c_manifests sample_config))
    (<["nonce-2" := mkRun "binding" "case-2" "request" "certificate" [m_digest config_map]]> (c_runs sample_config))
    (c_prior sample_config).

Definition new_gate : gate_type :=
  match with_stores_new (Ok any_schema) run_config MemoryStores_default worker_kernel with
  | Ok g => g
  | Err _ => mkGate run_config any_schema State.Held false Channel.Closed None 1 ZERO_DIGEST None [] [] false
               ∅ ∅ ∅ [] ∅ Counters_default MemoryStores_default false worker_kernel ObservationLog_default
  end.

(** The broker's next frame. *)
Definition broker_frame (g : gate_type) (operation : string) (payload : Doc) : Event.t :=
  Event.Frame (FrameInput.Value (doc_to_value (DObject
    [("schemaVersion", DStr FRAME_VERSION); ("generation", DStr "generation-1"); ("challenge", DStr "challenge");
     ("sequence", DInt (g_next_sequence g)); ("previousDigest", DStr (g_last_digest g));
     ("direction", DStr "BROKER_TO_GATE"); ("operation", DStr operation); ("payload", payload)]))).

Definition bind_payload_of (execution_id nonce case_id : string) : Doc := DObject
  [("executionId", DStr execution_id); ("bindingDigest", DStr "binding"); ("reservationDigest", DStr "reservation");
   ("runNonce", DStr nonce); ("caseId", DStr case_id); ("requestDigest", DStr "request");
   ("dispatchGeneration", DStr "generation-1"); ("serverCertificateDigest", DStr "certificate");
   ("workerPid", DInt 4100); ("workerStartTicks", DInt 900001); ("peerQualificationDigest", DStr "peer")].

Definition bind_payload : Doc := bind_payload_of "execution-1" "nonce" "case".

Definition arm_payload : Doc := DObject
  [("executionId", DStr "execution-1"); ("actionId", DInt 1); ("verb", DStr "CREATE");
   ("manifestDigest", DStr (m_digest pod));
   ("requestTemplateDigest", DStr "sha256:3a27a2635d71e1c068c2be15e3f027bec15470b7ec035fd421bb51179337f57c");
   ("recordedUid", DNull)].

Definition outcome_payload : Doc := DObject [("executionId", DStr "execution-1"); ("actionId", DInt 1)].
Definition delete_payload : Doc := DObject
  [("executionId", DStr "execution-1"); ("actionId", DInt 2); ("verb", DStr "DELETE");
   ("manifestDigest", DStr (m_digest pod));
   ("requestTemplateDigest", DStr "sha256:0279912274007d6531f156764fbe84ceea63fa4ca37a652ffb59dcaf56798e37");
   ("recordedUid", DStr "uid-1")].
Definition second_arm_payload : Doc := DObject
  [("executionId", DStr "execution-2"); ("actionId", DInt 1); ("verb", DStr "CREATE");
   ("manifestDigest", DStr (m_digest config_map));
   ("requestTemplateDigest", DStr "sha256:11bf1f7916c698c04c4b3cda90e2c0d6ee50beef7be5acab6a17c88498e7e7c2");
   ("recordedUid", DNull)].

Definition after (g : gate_type) (event : Event.t) : gate_type := (handle event g).1.

(** The gates of the run, evaluated once. *)
Definition opened_gate : gate_type :=
  Eval vm_compute in after new_gate (broker_frame new_gate "GENERATION_STATUS" (DObject [])).
Definition bound_gate : gate_type :=
  Eval vm_compute in after opened_gate (broker_frame opened_gate "BIND_EXECUTION" bind_payload).
Definition armed_gate : gate_type :=
  Eval vm_compute in after bound_gate (broker_frame bound_gate "ARM_ACTION" arm_payload).

Definition rendered_pod : RenderedRequest := render_request Create pod None "198.51.100.7:6443".
Definition pod_request : Event.t :=
  Event.Request "c1" "certificate" (r_head rendered_pod) (r_body_digest rendered_pod).
Definition pod_created : Event.t :=
  Event.UpstreamResponse "c1" (mkUpstreamResponse 201 "sha256:body" (Some "uid-1") (Some "7")).

Definition accepted_gate : gate_type :=
  Eval vm_compute in after (after armed_gate (Event.Backlog "c1")) (Event.Accept "c1").
Definition forwarded_gate : gate_type := Eval vm_compute in after accepted_gate pod_request.
Definition settled_gate : gate_type := Eval vm_compute in after forwarded_gate pod_created.
Definition drained_gate : gate_type := Eval vm_compute in after settled_gate Event.DrainRequest.

(** The outcome of the CREATE is sealed; then a DELETE of the object it created is armed, ... *)
Definition sealed_gate : gate_type :=
  Eval vm_compute in after settled_gate (broker_frame settled_gate "ACTION_OUTCOME" outcome_payload).
Definition delete_gate : gate_type :=
  Eval vm_compute in after sealed_gate (broker_frame sealed_gate "ARM_ACTION" delete_payload).

(** ... or the generation's second run is bound and its CREATE forwarded. *)
Definition rebound_gate : gate_type :=
  Eval vm_compute in
    after sealed_gate (broker_frame sealed_gate "BIND_EXECUTION" (bind_payload_of "execution-2" "nonce-2" "case-2")).
Definition rearmed_gate : gate_type :=
  Eval vm_compute in after rebound_gate (broker_frame rebound_gate "ARM_ACTION" second_arm_payload).
Definition rendered_config_map : RenderedRequest := render_request Create config_map None "198.51.100.7:6443".
Definition config_map_request : Event.t :=
  Event.Request "c2" "certificate" (r_head rendered_config_map) (r_body_digest rendered_config_map).
Definition reforwarded_gate : gate_type :=
  Eval vm_compute in after (after (after rearmed_gate (Event.Backlog "c2")) (Event.Accept "c2")) config_map_request.

(** A drain that waits for the exchange in flight. *)
Definition draining_gate : gate_type := Eval vm_compute in after forwarded_gate Event.DrainRequest.

(** The evaluated gates are the run's. *)
Lemma opened_step : opened_gate = after new_gate (broker_frame new_gate "GENERATION_STATUS" (DObject [])).
Proof. vm_compute. reflexivity. Qed.
Lemma bound_step : bound_gate = after opened_gate (broker_frame opened_gate "BIND_EXECUTION" bind_payload).
Proof. vm_compute. reflexivity. Qed.
Lemma armed_step : armed_gate = after bound_gate (broker_frame bound_gate "ARM_ACTION" arm_payload).
Proof. vm_compute. reflexivity. Qed.
Lemma accepted_step : accepted_gate = after (after armed_gate (Event.Backlog "c1")) (Event.Accept "c1").
Proof. vm_compute. reflexivity. Qed.
Lemma forwarded_step : forwarded_gate = after accepted_gate pod_request.
Proof. vm_compute. reflexivity. Qed.
Lemma settled_step : settled_gate = after forwarded_gate pod_created.
Proof. vm_compute. reflexivity. Qed.
Lemma drained_step : drained_gate = after settled_gate Event.DrainRequest.
Proof. vm_compute. reflexivity. Qed.

Lemma sealed_step : sealed_gate = after settled_gate (broker_frame settled_gate "ACTION_OUTCOME" outcome_payload).
Proof. vm_compute. reflexivity. Qed.
Lemma delete_step : delete_gate = after sealed_gate (broker_frame sealed_gate "ARM_ACTION" delete_payload).
Proof. vm_compute. reflexivity. Qed.
Lemma rebound_step :
  rebound_gate =
  after sealed_gate (broker_frame sealed_gate "BIND_EXECUTION" (bind_payload_of "execution-2" "nonce-2" "case-2")).
Proof. vm_compute. reflexivity. Qed.
Lemma rearmed_step : rearmed_gate = after rebound_gate (broker_frame rebound_gate "ARM_ACTION" second_arm_payload).
Proof. vm_compute. reflexivity. Qed.
Lemma reforwarded_step :
  reforwarded_gate = after (after (after rearmed_gate (Event.Backlog "c2")) (Event.Accept "c2")) config_map_request.
Proof. vm_compute. reflexivity. Qed.
Lemma draining_step : draining_gate = after forwarded_gate Event.DrainRequest.
Proof. vm_compute. reflexivity. Qed.

(** What the run journaled. *)
Example journal_of_the_run :
  journal drained_gate =
  map Entry.Record_
    [Rec.Bind "execution-1" "nonce" "reservation" [m_digest pod] [Manifest_identity pod];
     Rec.Arm 1 Create (m_digest pod) None "sha256:3a27a2635d71e1c068c2be15e3f027bec15470b7ec035fd421bb51179337f57c";
     Rec.Consumed 1;
     Rec.Terminal 1 Classification.DeliveredResult false
       (TerminalDetails.Delivered 201 "sha256:body" (Some "uid-1") (Some "7"));
     Rec.DrainStarted; Rec.Drained State.Closed].
Proof. vm_compute. reflexivity. Qed.

Example journals_of_the_branches :
  (drop 4 (journal delete_gate), drop 5 (journal reforwarded_gate)) =
  (map Entry.Record_
     [Rec.Sealed 1 Classification.DeliveredResult false;
      Rec.Arm 2 Delete (m_digest pod) (Some "uid-1")
        "sha256:0279912274007d6531f156764fbe84ceea63fa4ca37a652ffb59dcaf56798e37"],
   map Entry.Record_
     [Rec.Bind "execution-2" "nonce-2" "reservation" [m_digest config_map] [Manifest_identity config_map];
      Rec.Arm 1 Create (m_digest config_map) None "sha256:11bf1f7916c698c04c4b3cda90e2c0d6ee50beef7be5acab6a17c88498e7e7c2"; Rec.Consumed 1]).
Proof. vm_compute. reflexivity. Qed.
