(* ===== verification/Protocol.v ===== *)
(** * The action protocol: what the gate promises about actions and their journal

    An abstract machine of its own: no connections, channel, frames or stores, only the
    generation's state, the bound execution, the actions, the deletion and mutation ledgers and
    the journal.  [kstep] is everything that may ever happen to them.  [GateSteps] proves that every
    event of [gate.rs] is a sequence of such steps; the invariants are proved here, once. *)

From S2P Require Import Prelude Json Render Types Journal Observation Config Gate.
Record Core := mkCore {
  k_config : Config;
  k_state : State.t;
  k_bound : option Bound;
  k_bound_ids : list string;
  k_bound_nonces : list string;
  k_actions : gmap Z Action;
  k_mutation_keys : gset MutationKey;
  k_created_uids : gmap string (gset string);
  k_journal : list Entry.t;
}.

Definition k_append (es : list Entry.t) (k : Core) : Core :=
  mkCore (k_config k) (k_state k) (k_bound k) (k_bound_ids k) (k_bound_nonces k) (k_actions k)
    (k_mutation_keys k) (k_created_uids k) (k_journal k ++ es).
Definition k_with_state (s : State.t) (k : Core) : Core :=
  mkCore (k_config k) s (k_bound k) (k_bound_ids k) (k_bound_nonces k) (k_actions k)
    (k_mutation_keys k) (k_created_uids k) (k_journal k).
Definition k_with_actions (actions : gmap Z Action) (k : Core) : Core :=
  mkCore (k_config k) (k_state k) (k_bound k) (k_bound_ids k) (k_bound_nonces k) actions
    (k_mutation_keys k) (k_created_uids k) (k_journal k).
Definition k_with_created (created : gmap string (gset string)) (k : Core) : Core :=
  mkCore (k_config k) (k_state k) (k_bound k) (k_bound_ids k) (k_bound_nonces k) (k_actions k)
    (k_mutation_keys k) created (k_journal k).
Definition k_log (r : Rec.t) (k : Core) : Core := k_append [Entry.Record_ r] k.
Definition k_update (id : Z) (f : Action → Action) (k : Core) : Core :=
  k_with_actions (alter f id (k_actions k)) k.

(** Nothing consumed still waits for its outcome; no outcome is unknown. *)
Definition none_in_flight (actions : gmap Z Action) : Prop :=
  ∀ id a, actions !! id = Some a → a_status a ≠ Status.Consumed.
Definition none_ambiguous (actions : gmap Z Action) : Prop :=
  ∀ id a, actions !! id = Some a → a_classification a ≠ Some Classification.IoAmbiguous.
Definition every_settled (actions : gmap Z Action) : Prop :=
  ∀ id a, actions !! id = Some a → settled a = true.

(** A state change never loosens the generation, and a generation only becomes CLOSED when
    nothing is in flight and no outcome is unknown. *)
Inductive tightens (k : Core) : State.t → Prop :=
| tighten_drain :
    k_state k = State.Active ∨ k_state k = State.Inspecting → tightens k State.Draining
| tighten_close :
    (rank (k_state k) ≤ 1)%nat → none_in_flight (k_actions k) → none_ambiguous (k_actions k) →
    tightens k State.Closed
| tighten_invalidate : (rank (k_state k) ≤ 1)%nat → tightens k State.Invalidated
| tighten_hold : tightens k State.Held.

(** Records that say something about the generation, not about an action's progress. *)
Definition neutral (k : Core) (r : Rec.t) : Prop :=
  match r with
  | Rec.Invalidated _ s | Rec.Closed _ s | Rec.Drained s => s = k_state k
  | Rec.DrainStarted | Rec.ChannelEnded _ => True
  | Rec.Expired execution_id => ∃ b, k_bound k = Some b ∧ b_execution_id b = execution_id
  | Rec.LateUpstream id => ∃ a, k_actions k !! id = Some a ∧ a_status a = Status.Terminal
  | Rec.Denied id =>
      ∃ a, k_actions k !! id = Some a ∧ a_status a = Status.Terminal ∧
           a_classification a = Some Classification.NotForwarded ∧ a_sealed a = false
  | Rec.Restarted s => s = k_state k
  | _ => False
  end.

(** What a delivered classification needs. *)
Definition delivers (a : Action) (details : TerminalDetails.t) : Prop :=
  match details with
  | TerminalDetails.Delivered status _ _ _ =>
      ∃ armed, a_armed a = Some armed ∧ outcome_is_final (ar_verb armed) status = true
  | _ => False
  end.

(** The UID a durable TERMINAL record makes deletable. *)
Definition created_by (a : Action) (details : TerminalDetails.t) : option (string * string) :=
  match a_armed a, details with
  | Some armed, TerminalDetails.Delivered status _ (Some uid) _ =>
      if bool_decide (ar_verb armed = Create) && (status =? 201)
      then Some (ar_manifest_digest armed, uid) else None
  | _, _ => None
  end.

Definition add_created (created : option (string * string)) (m : gmap string (gset string))
    : gmap string (gset string) :=
  match created with
  | Some (digest, uid) => <[digest := {[uid]} ∪ default ∅ (m !! digest)]> m
  | None => m
  end.

(** The key under which an armed mutation may be armed once per execution. *)
Definition arm_key (verb : Verb) (digest : string) (uid : option string) : option MutationKey :=
  match verb with
  | Create => Some (MutationCreate digest)
  | Delete => MutationDelete <$> uid
  | Get => None
  end.

Definition add_key (key : option MutationKey) (keys : gset MutationKey) : gset MutationKey :=
  match key with Some key => {[key]} ∪ keys | None => keys end.

(** Earlier executions and manifests that may not be bound again. *)
Record fresh_binding (k : Core) (execution_id nonce : string) (digests identities : list string) : Prop := {
  fresh_execution : execution_id ∉ k_bound_ids k;
  fresh_nonce : nonce ∉ k_bound_nonces k;
  fresh_prior_execution : execution_id ∉ execution_ids (c_prior (k_config k));
  fresh_prior_nonce : nonce ∉ run_nonces (c_prior (k_config k));
  fresh_digests d : d ∈ digests → d ∉ manifest_digests (c_prior (k_config k));
  fresh_identities i : i ∈ identities → i ∉ manifest_identities (c_prior (k_config k));
}.

(** What ARM_ACTION may arm. *)
Record armable (k : Core) (id : Z) (verb : Verb) (digest : string) (uid : option string)
    (template : string) : Prop := {
  armable_active : k_state k = State.Active;
  armable_settled : every_settled (k_actions k);
  armable_id : id = Z.of_nat (size (k_actions k)) + 1;
  armable_run : ∃ b run manifest,
    k_bound k = Some b ∧ c_runs (k_config k) !! b_run_nonce b = Some run ∧ digest ∈ run_manifests run ∧
    c_manifests (k_config k) !! digest = Some manifest ∧
    template = template_digest verb (m_api_version manifest) (m_kind manifest) (m_namespace manifest)
                 (m_name manifest) uid digest;
  armable_uid_rule : verb = Delete ↔ is_Some uid;
  armable_uid : verb = Delete → ∃ u, uid = Some u ∧ u ∈ default ∅ (k_created_uids k !! digest);
  armable_key : match arm_key verb digest uid with Some key => key ∉ k_mutation_keys k | None => True end;
}.

Definition armed_action (id : Z) (verb : Verb) (digest : string) (uid : option string) : Action :=
  mkAction id Status.Armed None false false (Some (mkArmed verb digest uid)) None None.

(** The states a restart may come back in. *)
Definition restart_state (k : Core) (s : State.t) : Prop :=
  s = State.Held ∨
  let b := rebuild_journal (k_journal k) in
  s = rb_state b ∧ (s = State.Closed ∨ s = State.Invalidated) ∧
  rb_torn b = false ∧ rb_inconsistent b = false ∧
  every_settled (rb_actions b) ∧ none_ambiguous (rb_actions b).

Inductive kstep : Core → Core → Prop :=
| k_torn k : kstep k (k_append [Entry.Torn] k)
| k_tighten k s : tightens k s → kstep k (k_with_state s k)
| k_note k r : neutral k r → kstep k (k_log r k)
| k_mark k id : kstep k (k_update id (act_after true) k)
| k_deny k id a :
    k_actions k !! id = Some a → a_status a = Status.Armed →
    kstep k (k_update id (act_terminal Classification.NotForwarded) k)
| k_consume k id a conn :
    k_actions k !! id = Some a → a_status a = Status.Armed → k_state k = State.Active →
    kstep k (k_update id (λ a, act_after false (act_conn (Some conn) (act_status Status.Consumed a)))
               (k_log (Rec.Consumed id) k))
| k_lose k id a :
    k_actions k !! id = Some a → a_status a = Status.Consumed →
    kstep k (k_update id (act_terminal Classification.IoAmbiguous) k)
| k_terminal k id a c details delivered :
    k_actions k !! id = Some a → a_status a = Status.Consumed →
    (c = Classification.IoAmbiguous ∧ delivered = None ∧ created_by a details = None ∨
     c = Classification.DeliveredResult ∧ delivers a details ∧ is_Some delivered) →
    kstep k
      (k_with_created (add_created (created_by a details) (k_created_uids k))
         (k_update id (λ a, let a := act_terminal c a in
                            match delivered with Some _ => act_delivered delivered a | None => a end)
            (k_log (Rec.Terminal id c (a_after_invalidation a) details) k)))
| k_seal k id a c :
    k_actions k !! id = Some a → a_status a = Status.Terminal → a_classification a = Some c →
    a_sealed a = false →
    kstep k (k_update id (act_sealed true) (k_log (Rec.Sealed id c (a_after_invalidation a)) k))
| k_bind k execution_id nonce reservation digests identities :
    k_state k = State.Active → every_settled (k_actions k) →
    fresh_binding k execution_id nonce digests identities →
    kstep k (mkCore (k_config k) (k_state k) (Some (mkBound execution_id nonce))
               (k_bound_ids k ++ [execution_id]) (k_bound_nonces k ++ [nonce]) ∅ ∅ ∅
               (k_journal k ++ [Entry.Record_ (Rec.Bind execution_id nonce reservation digests identities)]))
| k_arm k id verb digest uid template :
    armable k id verb digest uid template →
    kstep k (mkCore (k_config k) (k_state k) (k_bound k) (k_bound_ids k) (k_bound_nonces k)
               (<[id := armed_action id verb digest uid]> (k_actions k))
               (add_key (arm_key verb digest uid) (k_mutation_keys k)) (k_created_uids k)
               (k_journal k ++ [Entry.Record_ (Rec.Arm id verb digest uid template)]))
| k_restart k s :
    restart_state k s →
    kstep k (k_with_state s (k_with_actions (rebuild_settle <$> rb_actions (rebuild_journal (k_journal k))) k)).

Definition ksteps : Core → Core → Prop := rtc kstep.

(** ** The journal alone *)

Lemma rebuild_journal_snoc l e : rebuild_journal (l ++ [e]) = rebuild_entry (rebuild_journal l) e.
Proof. unfold rebuild_journal. by rewrite fold_left_app. Qed.

Lemma derived_snoc l e : derived_from_journal (l ++ [e]) = derive_step (derived_from_journal l) e.
Proof. unfold derived_from_journal. by rewrite fold_left_app. Qed.

(** The records of the current binding: those after the last BIND. *)
Definition since_bind_step (acc : list Rec.t) (e : Entry.t) : list Rec.t :=
  match e with
  | Entry.Record_ (Rec.Bind _ _ _ _ _) => []
  | Entry.Record_ r => acc ++ [r]
  | Entry.Torn => acc
  end.
Definition since_bind (l : list Entry.t) : list Rec.t := fold_left since_bind_step l [].

Lemma since_bind_snoc l e : since_bind (l ++ [e]) = since_bind_step (since_bind l) e.
Proof. unfold since_bind. by rewrite fold_left_app. Qed.

(** An object of the manifest [digest] that this binding created (201) with [uid]. *)
Definition created_in (l : list Rec.t) (digest uid : string) : Prop :=
  ∃ id template result version after,
    Rec.Arm id Create digest None template ∈ l ∧
    Rec.Terminal id Classification.DeliveredResult after
      (TerminalDetails.Delivered 201 result (Some uid) version) ∈ l.

(** [key] was armed in this binding. *)
Definition armed_in (l : list Rec.t) (key : MutationKey) : Prop :=
  ∃ id verb digest uid template,
    Rec.Arm id verb digest uid template ∈ l ∧ arm_key verb digest uid = Some key.

(** Which record may follow the journal [l]: the protocol of actions, in terms of the journal
    only. *)
Definition legal (l : list Entry.t) (r : Rec.t) : Prop :=
  let actions := rb_actions (rebuild_journal l) in
  match r with
  | Rec.Bind execution_id nonce _ _ _ =>
      execution_id ∉ dv_bound_ids (derived_from_journal l) ∧
      nonce ∉ dv_bound_nonces (derived_from_journal l) ∧ every_settled actions
  | Rec.Arm id verb digest uid _ =>
      id = Z.of_nat (size actions) + 1 ∧ every_settled actions ∧
      (verb = Delete ↔ is_Some uid) ∧
      (∀ key, arm_key verb digest uid = Some key → ¬ armed_in (since_bind l) key) ∧
      (∀ u, verb = Delete → uid = Some u → created_in (since_bind l) digest u)
  | Rec.Consumed id => ∃ b, actions !! id = Some b ∧ a_status b = Status.Armed
  | Rec.Terminal id c _ _ =>
      c ≠ Classification.NotForwarded ∧ ∃ b, actions !! id = Some b ∧ a_status b = Status.Consumed
  | Rec.Sealed id c _ =>
      ∃ b, actions !! id = Some b ∧ a_sealed b = false ∧
        match a_status b with
        | Status.Armed => c = Classification.NotForwarded
        | Status.Consumed => c = Classification.IoAmbiguous
        | Status.Terminal => a_classification b = Some c
        end
  | Rec.Denied id =>
      ∃ b, actions !! id = Some b ∧ a_sealed b = false ∧
        (a_status b = Status.Armed ∨
         a_status b = Status.Terminal ∧ a_classification b = Some Classification.NotForwarded)
  | Rec.LateUpstream id => is_Some (actions !! id)
  | Rec.Expired execution_id => b_execution_id <$> dv_bound (derived_from_journal l) = Some execution_id
  | _ => True
  end.

Inductive legal_journal : list Entry.t → Prop :=
| legal_nil : legal_journal []
| legal_torn l : legal_journal l → legal_journal (l ++ [Entry.Torn])
| legal_snoc l r : legal_journal l → legal l r → legal_journal (l ++ [Entry.Record_ r]).

(** ** Invariants *)

(** A memory action against its replay: the replay lags behind only where a record could not be
    written, and then the memory already holds what a restart would conclude. *)
Definition replayed (b a : Action) : Prop :=
  a_id b = a_id a ∧ a_sealed b = a_sealed a ∧ (a_sealed b = true → a_status b = Status.Terminal) ∧
  match a_status b with
  | Status.Armed =>
      a_classification b = None ∧
      (a_status a = Status.Armed ∧ a_classification a = None ∨
       a_status a = Status.Terminal ∧ a_classification a = Some Classification.NotForwarded)
  | Status.Consumed =>
      a_classification b = None ∧
      (a_status a = Status.Consumed ∧ a_classification a = None ∨
       a_status a = Status.Terminal ∧ a_classification a = Some Classification.IoAmbiguous)
  | Status.Terminal =>
      a_status a = Status.Terminal ∧ a_classification a = a_classification b ∧
      is_Some (a_classification b)
  end.

Record k_inv (k : Core) : Prop := {
  inv_ids id a : k_actions k !! id = Some a → a_id a = id ∧ 1 ≤ id ≤ Z.of_nat (size (k_actions k));
  inv_replay id : option_Forall2 replayed (rb_actions (rebuild_journal (k_journal k)) !! id) (k_actions k !! id);
  inv_consistent : rb_inconsistent (rebuild_journal (k_journal k)) = false;
  inv_one_open id a :
    k_actions k !! id = Some a → id ≠ Z.of_nat (size (k_actions k)) → settled a = true;
  inv_closed : k_state k = State.Closed → none_in_flight (k_actions k) ∧ none_ambiguous (k_actions k);
  inv_derived :
    dv_bound (derived_from_journal (k_journal k)) = k_bound k ∧
    dv_bound_ids (derived_from_journal (k_journal k)) = k_bound_ids k ∧
    dv_bound_nonces (derived_from_journal (k_journal k)) = k_bound_nonces k;
  inv_nodup : NoDup (k_bound_ids k) ∧ NoDup (k_bound_nonces k);
  inv_armed id a armed :
    k_actions k !! id = Some a → a_armed a = Some armed →
    ∃ template, Rec.Arm id (ar_verb armed) (ar_manifest_digest armed) (ar_uid armed) template
                  ∈ since_bind (k_journal k);
  inv_uid_rule id verb digest uid template :
    Rec.Arm id verb digest uid template ∈ since_bind (k_journal k) → (verb = Delete ↔ is_Some uid);
  inv_created digest uid :
    uid ∈ default ∅ (k_created_uids k !! digest) → created_in (since_bind (k_journal k)) digest uid;
  inv_keys key :
    (rank (k_state k) ≤ 1)%nat → armed_in (since_bind (k_journal k)) key → key ∈ k_mutation_keys k;
  inv_legal : legal_journal (k_journal k);
}.
