(* ===== verification/ProtocolProofs.v ===== *)
(** * The action protocol: its invariants

    [kstep_inv]: every step of the protocol keeps [k_inv], so every gate reachable by events has
    it.  The replay of the journal follows the memory ([inv_replay]), and the journal alone is a
    legal run ([inv_legal]). *)

From S2P Require Import Prelude Json Render Types Journal Observation Config Gate Protocol.
(** ** Maps *)

Lemma size_alter {V} (f : V → V) i (m : gmap Z V) : size (alter f i m) = size m.
Proof. by rewrite <-!size_dom, dom_alter_L. Qed.

Lemma size_fmap {V} (f : V → V) (m : gmap Z V) : size (f <$> m) = size m.
Proof. by rewrite <-!size_dom, dom_fmap_L. Qed.

Lemma alter_Some {V} (f : V → V) (m : gmap Z V) i j y :
  alter f i m !! j = Some y ↔ (∃ x, m !! j = Some x ∧ y = if decide (i = j) then f x else x).
Proof.
  rewrite lookup_alter_Some. split.
  - intros [(<- & x & Hx & ->)|[Hij Hy]].
    + exists x. by rewrite decide_True.
    + exists y. by rewrite decide_False.
  - intros (x & Hx & ->). destruct (decide (i = j)) as [->|]; eauto.
Qed.

Lemma alter_opt_rel {V} (R : V → V → Prop) (f g : V → V) (m n : gmap Z V) i :
  (∀ j, option_Forall2 R (m !! j) (n !! j)) →
  (∀ x y, m !! i = Some x → n !! i = Some y → R x y → R (f x) (g y)) →
  ∀ j, option_Forall2 R (alter f i m !! j) (alter g i n !! j).
Proof.
  intros H Hfg j. destruct (decide (i = j)) as [<-|].
  - rewrite !lookup_alter_eq. specialize (H i). destruct H; simpl; constructor. eauto.
  - by rewrite !lookup_alter_ne.
Qed.

Lemma alter_right {V} (R : V → V → Prop) (g : V → V) (m n : gmap Z V) i :
  (∀ j, option_Forall2 R (m !! j) (n !! j)) →
  (∀ x y, m !! i = Some x → n !! i = Some y → R x y → R x (g y)) →
  ∀ j, option_Forall2 R (m !! j) (alter g i n !! j).
Proof.
  intros H Hg j. destruct (decide (i = j)) as [<-|].
  - rewrite lookup_alter_eq. specialize (Hg).
    pose proof (H i) as Hi. destruct (m !! i) eqn:Em, (n !! i) eqn:En; inversion Hi; subst; simpl; constructor. eauto.
  - by rewrite lookup_alter_ne.
Qed.

(** [rb_update] on an action that exists. *)
Lemma rb_update_Some id f b x :
  rb_actions b !! id = Some x →
  rb_update id f b = mkRebuild (alter f id (rb_actions b)) (rb_state b) (rb_torn b) (rb_inconsistent b).
Proof.
  intros Hx. unfold rb_update. rewrite Hx. f_equal. apply map_eq. intros j.
  destruct (decide (id = j)) as [<-|].
  - by rewrite lookup_insert_eq, lookup_alter_eq, Hx.
  - by rewrite lookup_insert_ne, lookup_alter_ne.
Qed.

Section Invariants.
Implicit Types k : Core.

Lemma replay_Some_r k id a :
  k_inv k → k_actions k !! id = Some a →
  ∃ b, rb_actions (rebuild_journal (k_journal k)) !! id = Some b ∧ replayed b a.
Proof. intros Hk Ha. pose proof (inv_replay _ Hk id) as H. rewrite Ha in H. inversion H; subst. eauto. Qed.

Lemma replay_Some_l k id b :
  k_inv k → rb_actions (rebuild_journal (k_journal k)) !! id = Some b →
  ∃ a, k_actions k !! id = Some a ∧ replayed b a.
Proof. intros Hk Hb. pose proof (inv_replay _ Hk id) as H. rewrite Hb in H. inversion H; subst. eauto. Qed.

Lemma replay_dom k :
  k_inv k → dom (rb_actions (rebuild_journal (k_journal k))) = dom (k_actions k).
Proof.
  intros Hk. apply set_eq. intros id. rewrite !elem_of_dom.
  pose proof (inv_replay _ Hk id) as H. inversion H; subst; split; intros []; eauto; done.
Qed.

Lemma replay_size k : k_inv k → size (rb_actions (rebuild_journal (k_journal k))) = size (k_actions k).
Proof. intros Hk. by rewrite <-!size_dom, replay_dom. Qed.

Lemma replay_settled k : k_inv k → every_settled (k_actions k) → every_settled (rb_actions (rebuild_journal (k_journal k))).
Proof.
  intros Hk Hs id b Hb. destruct (replay_Some_l _ _ _ Hk Hb) as (a & Ha & _ & Hsealed & Hterm & _).
  specialize (Hs _ _ Ha). unfold settled in *. apply andb_true_iff in Hs as [_ Hs].
  rewrite Hsealed, Hs in *. rewrite Hterm by done. done.
Qed.

Lemma settled_not_armed a : a_status a = Status.Armed → settled a = false.
Proof. unfold settled. by intros ->. Qed.
Lemma settled_not_consumed a : a_status a = Status.Consumed → settled a = false.
Proof. unfold settled. by intros ->. Qed.

(** *** Identifiers *)

Definition ids_ok (m : gmap Z Action) : Prop :=
  ∀ id a, m !! id = Some a → a_id a = id ∧ 1 ≤ id ≤ Z.of_nat (size m).

Lemma ids_ok_alter m i f : (∀ a, a_id (f a) = a_id a) → ids_ok m → ids_ok (alter f i m).
Proof.
  intros Hf Hm id a (x & Hx & ->)%alter_Some. rewrite size_alter.
  destruct (decide (i = id)); [rewrite Hf|]; by apply Hm.
Qed.

Lemma kstep_ids k k' : k_inv k → kstep k k' → ids_ok (k_actions k').
Proof.
  intros Hk Hs. pose proof (inv_ids _ Hk) as Hids. change (ids_ok (k_actions k)) in Hids.
  destruct Hs; simpl in *; try done; try (apply ids_ok_alter; [|done]; intros; by repeat case_match).
  - destruct H as [_ _ -> _ _ _ _].
    assert (Hn : k_actions k !! (Z.of_nat (size (k_actions k)) + 1) = None).
    { destruct (k_actions k !! _) eqn:E; [|done]. apply Hids in E. lia. }
    intros id a [[<- <-]|[? Ha]]%lookup_insert_Some; rewrite map_size_insert_None by done; [simpl; lia|].
    apply Hids in Ha. lia.
  - intros id a Ha. rewrite lookup_fmap, fmap_Some in Ha. destruct Ha as (b & Hb & ->).
    rewrite size_fmap, replay_size by done.
    destruct (replay_Some_l _ _ _ Hk Hb) as (a & Ha & Hid & _).
    destruct (Hids _ _ Ha) as [Hid' ?]. split; [|done].
    unfold rebuild_settle. destruct (a_status b); simpl; congruence.
Qed.

(** *** Replay *)

Lemma replayed_update f g b a :
  replayed b a → a_id (f b) = a_id b → a_id (g a) = a_id a →
  (replayed b a → a_sealed (f b) = a_sealed (g a) ∧ (a_sealed (f b) = true → a_status (f b) = Status.Terminal) ∧
    match a_status (f b) with
    | Status.Armed =>
        a_classification (f b) = None ∧
        (a_status (g a) = Status.Armed ∧ a_classification (g a) = None ∨
         a_status (g a) = Status.Terminal ∧ a_classification (g a) = Some Classification.NotForwarded)
    | Status.Consumed =>
        a_classification (f b) = None ∧
        (a_status (g a) = Status.Consumed ∧ a_classification (g a) = None ∨
         a_status (g a) = Status.Terminal ∧ a_classification (g a) = Some Classification.IoAmbiguous)
    | Status.Terminal =>
        a_status (g a) = Status.Terminal ∧ a_classification (g a) = a_classification (f b) ∧
        is_Some (a_classification (f b))
    end) → replayed (f b) (g a).
Proof. intros Hr Hf Hg H. destruct (H Hr) as (? & ? & ?). destruct Hr as [? _]. unfold replayed. split; [congruence|]. tauto. Qed.

(** A record of an existing action, and the matching change in memory. *)
Lemma replay_log k id r f g :
  k_inv k → is_Some (k_actions k !! id) →
  rebuild_record (rebuild_journal (k_journal k)) r = rb_update id f (rebuild_journal (k_journal k)) →
  (∀ b a, rb_actions (rebuild_journal (k_journal k)) !! id = Some b → k_actions k !! id = Some a →
          replayed b a → replayed (f b) (g a)) →
  (∀ j, option_Forall2 replayed (rb_actions (rebuild_journal (k_journal k ++ [Entry.Record_ r])) !! j)
          (alter g id (k_actions k) !! j)) ∧
  rb_inconsistent (rebuild_journal (k_journal k ++ [Entry.Record_ r])) = false.
Proof.
  intros Hk [a Ha] Hr Hfg. destruct (replay_Some_r _ _ _ Hk Ha) as (b & Hb & Hba).
  rewrite rebuild_journal_snoc. cbn [rebuild_entry]. rewrite Hr, (rb_update_Some _ _ _ _ Hb). simpl.
  split; [|apply (inv_consistent _ Hk)].
  apply alter_opt_rel; [apply (inv_replay _ Hk)|]. intros x y Hx Hy Hxy. by apply Hfg.
Qed.

Definition replay_ok k : Prop :=
  (∀ id, option_Forall2 replayed (rb_actions (rebuild_journal (k_journal k)) !! id) (k_actions k !! id)) ∧
  rb_inconsistent (rebuild_journal (k_journal k)) = false.

Lemma replayed_settle b a : replayed b a → replayed b (rebuild_settle b).
Proof.
  intros (Hid & Hse & Ht & H). unfold replayed, rebuild_settle.
  destruct (a_status b) eqn:Hb; simpl; rewrite ?Hb; repeat split; try done; try tauto.
Qed.

Lemma kstep_replay_note k r : k_inv k → neutral k r → replay_ok (k_log r k).
Proof.
  intros Hk Hn. unfold replay_ok. cbn [k_log k_append k_journal k_actions].
  assert (Hsame : ∀ b, rebuild_entry (rebuild_journal (k_journal k)) (Entry.Record_ r) = b →
     (∀ id, option_Forall2 replayed (rb_actions b !! id) (k_actions k !! id)) → rb_inconsistent b = false →
     (∀ id, option_Forall2 replayed (rb_actions (rebuild_journal (k_journal k ++ [Entry.Record_ r])) !! id)
              (k_actions k !! id)) ∧
     rb_inconsistent (rebuild_journal (k_journal k ++ [Entry.Record_ r])) = false).
  { intros b Hb ? ?. by rewrite rebuild_journal_snoc, Hb. }
  assert (Hmarked : ∀ id, option_Forall2 replayed
     (((λ a, if has_status Status.Consumed a then act_after true a else a) <$>
        rb_actions (rebuild_journal (k_journal k))) !! id) (k_actions k !! id)).
  { intros id. rewrite lookup_fmap. destruct (inv_replay _ Hk id) as [b a Hba|]; constructor.
    unfold has_status. case_bool_decide; [|done]. exact Hba. }
  destruct r; try done;
    try (eapply Hsame; [reflexivity|simpl; first [apply (inv_replay _ Hk)|apply Hmarked]|apply (inv_consistent _ Hk)]).
  destruct Hn as (a & Ha & Hst & Hcl & Hse).
  rewrite <-(alter_id (λ a, a) (k_actions k) action_id) by done.
  eapply replay_log; [done|eauto|reflexivity|].
  intros b a' Hb Ha' Hba. simplify_eq. destruct Hba as (? & Hs' & ? & ?). repeat split; simpl; eauto; congruence.
Qed.

Lemma kstep_replay k k' : k_inv k → kstep k k' → replay_ok k'.
Proof.
  intros Hk Hs. destruct Hs.
  - split; simpl; rewrite rebuild_journal_snoc; [apply (inv_replay _ Hk)|apply (inv_consistent _ Hk)].
  - split; [apply (inv_replay _ Hk)|apply (inv_consistent _ Hk)].
  - by apply kstep_replay_note.
  - split; [|apply (inv_consistent _ Hk)]. simpl. apply alter_right; [apply (inv_replay _ Hk)|].
    intros x y _ _ Hxy. exact Hxy.
  - split; [|apply (inv_consistent _ Hk)]. simpl. apply alter_right; [apply (inv_replay _ Hk)|].
    intros x y Hx Hy (? & ? & ? & Hxy). simplify_eq. repeat split; try done.
    destruct (a_status x); simpl; naive_solver congruence.
  - unfold replay_ok. cbn. eapply replay_log; [done|eauto|reflexivity|]. intros b a' Hb Ha' (? & ? & ? & Hba). simplify_eq.
    assert (a_status b = Status.Armed ∧ a_classification a = None) as [Hbs Hcl].
    { destruct (a_status b); naive_solver congruence. }
    rewrite Hbs in *. repeat split; simpl; try done; [|tauto|tauto].
    intros Hsl. naive_solver.
  - split; [|apply (inv_consistent _ Hk)]. simpl. apply alter_right; [apply (inv_replay _ Hk)|].
    intros x y Hx Hy (? & ? & ? & Hxy). simplify_eq. repeat split; try done.
    destruct (a_status x); simpl; naive_solver congruence.
  - unfold replay_ok. cbn. eapply replay_log; [done|eauto|reflexivity|]. intros b a' Hb Ha' (? & ? & ? & Hba).
    unfold replayed. destruct delivered; simpl; repeat split; eauto; done.
  - unfold replay_ok. cbn. eapply replay_log; [done|eauto|reflexivity|]. intros b a' Hb Ha' (? & ? & ? & Hba). simplify_eq.
    unfold replayed. simpl. repeat split; eauto.
  - unfold replay_ok. cbn [k_journal k_actions]. rewrite rebuild_journal_snoc. cbn. split; [|apply (inv_consistent _ Hk)].
    intros j. by rewrite !lookup_empty; constructor.
  - unfold replay_ok. cbn [k_journal k_actions]. rewrite rebuild_journal_snoc. cbn. split; [|apply (inv_consistent _ Hk)].
    intros j. destruct (decide (id = j)) as [<-|].
    + rewrite !lookup_insert_eq. constructor. repeat split; simpl; try done. by left.
    + rewrite !lookup_insert_ne by done. apply (inv_replay _ Hk).
  - split; [|apply (inv_consistent _ Hk)]. simpl. intros id. rewrite lookup_fmap.
    destruct (inv_replay _ Hk id) as [b a Hba|]; constructor. by eapply replayed_settle.
Qed.
(** *** One action open at a time, and a CLOSED generation is clean *)

Definition one_open (m : gmap Z Action) : Prop :=
  ∀ id a, m !! id = Some a → id ≠ Z.of_nat (size m) → settled a = true.

Lemma one_open_alter m i f :
  one_open m → (∀ a, m !! i = Some a → settled a = true → settled (f a) = true) → one_open (alter f i m).
Proof.
  intros Hm Hf id a (x & Hx & ->)%alter_Some. rewrite size_alter. intros Hne.
  specialize (Hm _ _ Hx Hne). destruct (decide (i = id)) as [<-|]; auto.
Qed.

Lemma settled_terminal c a : settled a = true → settled (act_terminal c a) = true.
Proof. unfold settled. simpl. by intros [_ ->]%andb_true_iff. Qed.

Lemma kstep_one_open k k' : k_inv k → kstep k k' → one_open (k_actions k').
Proof.
  intros Hk Hs. pose proof (inv_one_open _ Hk) as Ho. change (one_open (k_actions k)) in Ho.
  destruct Hs; simpl; try done; try (apply one_open_alter; [done|]; intros x Hx Hset; simplify_eq).
  - done.
  - by apply settled_terminal.
  - by rewrite settled_not_armed in Hset.
  - by apply settled_terminal.
  - by rewrite settled_not_consumed in Hset.
  - unfold settled. simpl. by rewrite H0.
  - pose proof (armable_settled _ _ _ _ _ _ H) as Hset. pose proof (armable_id _ _ _ _ _ _ H) as ->.
    intros i a [[<- <-]|[_ Ha]]%lookup_insert_Some Hne; [|by eapply Hset].
    exfalso. apply Hne. rewrite map_size_insert_None; [lia|].
    destruct (k_actions k !! _) eqn:E; [|done]. apply (inv_ids _ Hk) in E. lia.
  - intros i a Ha Hne. rewrite lookup_fmap, fmap_Some in Ha. destruct Ha as (b & Hb & ->).
    rewrite size_fmap, replay_size in Hne by done.
    destruct (replay_Some_l _ _ _ Hk Hb) as (a & Ha & _ & Hse & Ht & _).
    specialize (Ho _ _ Ha Hne). apply andb_true_iff in Ho as [_ Ho]. rewrite <-Hse in Ho.
    unfold settled, rebuild_settle. rewrite (Ht Ho). simpl. by rewrite (Ht Ho), Ho.
Qed.

Definition clean (m : gmap Z Action) : Prop := none_in_flight m ∧ none_ambiguous m.

Lemma clean_alter m i f :
  clean m →
  (∀ a, m !! i = Some a → a_status a ≠ Status.Consumed → a_classification a ≠ Some Classification.IoAmbiguous →
    a_status (f a) ≠ Status.Consumed ∧ a_classification (f a) ≠ Some Classification.IoAmbiguous) →
  clean (alter f i m).
Proof.
  intros [Hf Ha] H.
  split; intros id a (x & Hx & ->)%alter_Some; destruct (decide (i = id)) as [<-|];
    [apply H| |apply H|]; eauto.
Qed.

Lemma settled_rebuilt_clean m :
  every_settled m → none_ambiguous m → clean (rebuild_settle <$> m).
Proof.
  intros Hs Ha. split; intros id a Hl; rewrite lookup_fmap, fmap_Some in Hl; destruct Hl as (b & Hb & ->);
    specialize (Hs _ _ Hb); apply andb_true_iff in Hs as [Hs%bool_decide_eq_true _];
    unfold rebuild_settle; rewrite Hs; [congruence|eauto].
Qed.

Lemma kstep_closed k k' :
  k_inv k → kstep k k' → k_state k' = State.Closed → clean (k_actions k').
Proof.
  intros Hk Hs. pose proof (inv_closed _ Hk) as Hc. change (k_state k = State.Closed → clean (k_actions k)) in Hc.
  destruct Hs; simpl; intros Hst; try (by apply Hc); try congruence.
  - by destruct H; try done.
  - apply clean_alter; [by apply Hc|]. done.
  - apply clean_alter; [by apply Hc|]. done.
  - destruct (Hc Hst) as [Hf _]. by destruct (Hf _ _ H).
  - destruct (Hc Hst) as [Hf _]. by destruct (Hf _ _ H).
  - apply clean_alter; [by apply Hc|]. done.
  - pose proof (armable_active _ _ _ _ _ _ H). congruence.
  - destruct H as [->|(_ & _ & _ & _ & ? & ?)]; [done|]. by apply settled_rebuilt_clean.
Qed.

(** *** Bindings *)

Definition derived_ok k : Prop :=
  dv_bound (derived_from_journal (k_journal k)) = k_bound k ∧
  dv_bound_ids (derived_from_journal (k_journal k)) = k_bound_ids k ∧
  dv_bound_nonces (derived_from_journal (k_journal k)) = k_bound_nonces k.

(** Only a BIND changes what a restart derives about bindings. *)
Lemma derive_step_other d e :
  (∀ x n r ds ms, e ≠ Entry.Record_ (Rec.Bind x n r ds ms)) →
  dv_bound (derive_step d e) = dv_bound d ∧ dv_bound_ids (derive_step d e) = dv_bound_ids d ∧
  dv_bound_nonces (derive_step d e) = dv_bound_nonces d.
Proof.
  intros He. destruct e as [r|]; [|done]. destruct r; try done; [by destruct (He _ _ _ _ _ eq_refl)|].
  simpl. destruct (dv_bound d) eqn:E; [|done]. case_bool_decide; simpl; by rewrite ?E.
Qed.

Lemma derived_other k es e :
  derived_ok k → es = k_journal k ++ [e] → (∀ x n r ds ms, e ≠ Entry.Record_ (Rec.Bind x n r ds ms)) →
  dv_bound (derived_from_journal es) = k_bound k ∧ dv_bound_ids (derived_from_journal es) = k_bound_ids k ∧
  dv_bound_nonces (derived_from_journal es) = k_bound_nonces k.
Proof.
  intros (H1 & H2 & H3) -> He. rewrite derived_snoc.
  destruct (derive_step_other (derived_from_journal (k_journal k)) e He) as (-> & -> & ->). done.
Qed.

Lemma neutral_not_bind k r x n rs ds ms : neutral k r → Entry.Record_ r ≠ Entry.Record_ (Rec.Bind x n rs ds ms).
Proof. by intros Hn [= ->]. Qed.

Lemma kstep_derived k k' : k_inv k → kstep k k' → derived_ok k'.
Proof.
  intros Hk Hs. pose proof (inv_derived _ Hk) as Hd. change (derived_ok k) in Hd.
  destruct Hs; try exact Hd;
    try (unfold derived_ok; simpl; eapply derived_other; [exact Hd|reflexivity|];
         first [done|intros; by eapply neutral_not_bind]).
  unfold derived_ok. cbn [k_bound k_bound_ids k_bound_nonces k_journal]. rewrite derived_snoc. simpl.
  by destruct Hd as (_ & -> & ->).
Qed.

Lemma kstep_nodup k k' : k_inv k → kstep k k' → NoDup (k_bound_ids k') ∧ NoDup (k_bound_nonces k').
Proof.
  intros Hk Hs. pose proof (inv_nodup _ Hk) as [Hi Hn]. destruct Hs; try done. simpl.
  destruct H1. split; apply NoDup_app; (split; [done|]); (split; [|apply NoDup_singleton]); set_solver.
Qed.
(** *** What the current binding armed and created *)

Definition not_arm (r : Rec.t) : Prop :=
  match r with Rec.Arm _ _ _ _ _ | Rec.Bind _ _ _ _ _ => False | _ => True end.

Lemma since_bind_not_arm l r :
  not_arm r → since_bind (l ++ [Entry.Record_ r]) = since_bind l ++ [r].
Proof. intros Hr. rewrite since_bind_snoc. by destruct r. Qed.

Lemma neutral_not_arm k r : neutral k r → not_arm r.
Proof. by destruct r. Qed.

Lemma arm_in_snoc l r id verb digest uid template :
  not_arm r → Rec.Arm id verb digest uid template ∈ l ++ [r] → Rec.Arm id verb digest uid template ∈ l.
Proof. intros Hr [?|Hin%list_elem_of_singleton]%elem_of_app; [done|]. by subst r. Qed.

Lemma created_in_mono l l' digest uid : created_in l digest uid → created_in (l ++ l') digest uid.
Proof.
  intros (id & t & res & v & after & ? & ?). exists id, t, res, v, after. rewrite !elem_of_app. tauto.
Qed.

(** What one step does to the ledgers of the current binding. *)
Inductive ledger_step k k' : Prop :=
| ledger_bind :
    since_bind (k_journal k') = [] → k_actions k' = ∅ → k_created_uids k' = ∅ → ledger_step k k'
| ledger_arm id verb digest uid template :
    armable k id verb digest uid template →
    since_bind (k_journal k') = since_bind (k_journal k) ++ [Rec.Arm id verb digest uid template] →
    k_actions k' = <[id := armed_action id verb digest uid]> (k_actions k) →
    k_mutation_keys k' = add_key (arm_key verb digest uid) (k_mutation_keys k) →
    k_created_uids k' = k_created_uids k → ledger_step k k'
| ledger_other rs :
    since_bind (k_journal k') = since_bind (k_journal k) ++ rs → Forall not_arm rs →
    (∀ id a', k_actions k' !! id = Some a' → a_armed a' = None ∨
      ∃ a, k_actions k !! id = Some a ∧ a_armed a' = a_armed a) →
    k_mutation_keys k' = k_mutation_keys k →
    (k_created_uids k' = k_created_uids k ∨
     ∃ id a details, k_actions k !! id = Some a ∧ delivers a details ∧
       rs = [Rec.Terminal id Classification.DeliveredResult (a_after_invalidation a) details] ∧
       k_created_uids k' = add_created (created_by a details) (k_created_uids k)) →
    ledger_step k k'.

Lemma alter_armed (m : gmap Z Action) (i : Z) f :
  (∀ a, a_armed (f a) = a_armed a) →
  ∀ id a', alter f i m !! id = Some a' → a_armed a' = None ∨ ∃ a, m !! id = Some a ∧ a_armed a' = a_armed a.
Proof.
  intros Hf id a' (x & Hx & ->)%alter_Some. right. exists x. split; [done|].
  destruct (decide _); [apply Hf|done].
Qed.

(** A rebuilt action carries no armed request. *)
Definition unarmed (m : gmap Z Action) : Prop := ∀ id b, m !! id = Some b → a_armed b = None.

Lemma unarmed_update id f b :
  (∀ a, a_armed (f a) = a_armed a) → unarmed (rb_actions b) → unarmed (rb_actions (rb_update id f b)).
Proof.
  intros Hf Hb. unfold rb_update. destruct (rb_actions b !! id) as [x|] eqn:Hx; simpl; [|done].
  intros j y [[<- <-]|[_ ?]]%lookup_insert_Some; [rewrite Hf|]; by eapply Hb.
Qed.

Lemma unarmed_rebuilt l : unarmed (rb_actions (rebuild_journal l)).
Proof.
  induction l as [|e l IH] using rev_ind; [by intros ? ?|].
  rewrite rebuild_journal_snoc. destruct e as [r|]; [|done].
  assert (Hmark : unarmed ((λ a, if has_status Status.Consumed a then act_after true a else a) <$>
                    rb_actions (rebuild_journal l))).
  { intros i b Hl. rewrite lookup_fmap, fmap_Some in Hl. destruct Hl as (x & Hx & ->).
    case_match; simpl; by eapply IH. }
  destruct r; simpl; try exact IH; try exact Hmark; try (by apply unarmed_update); [by intros ? ?|].
  intros i b [[<- <-]|[_ ?]]%lookup_insert_Some; [done|]. by eapply IH.
Qed.

Lemma kstep_ledger k k' : kstep k k' → ledger_step k k'.
Proof.
  intros Hs.
  assert (Hsame : ∀ id a', k_actions k !! id = Some a' → a_armed a' = None ∨
            ∃ a, k_actions k !! id = Some a ∧ a_armed a' = a_armed a) by eauto.
  destruct Hs.
  - apply (ledger_other _ _ []); [|by constructor|done..|by left]. simpl. by rewrite since_bind_snoc, app_nil_r.
  - apply (ledger_other _ _ []); [|by constructor|done..|by left]. simpl. by rewrite app_nil_r.
  - pose proof (neutral_not_arm _ _ H). apply (ledger_other _ _ [r]); [|by repeat constructor|done..|by left].
    by apply since_bind_not_arm.
  - apply (ledger_other _ _ []); [simpl; by rewrite app_nil_r|by constructor|by apply alter_armed|done|by left].
  - apply (ledger_other _ _ []); [simpl; by rewrite app_nil_r|by constructor|by apply alter_armed|done|by left].
  - apply (ledger_other _ _ [Rec.Consumed id]);
      [by apply since_bind_not_arm|by repeat constructor|by apply alter_armed|done|by left].
  - apply (ledger_other _ _ []); [simpl; by rewrite app_nil_r|by constructor|by apply alter_armed|done|by left].
  - apply (ledger_other _ _ [Rec.Terminal id c (a_after_invalidation a) details]);
      [by apply since_bind_not_arm|by repeat constructor|by apply alter_armed; intros; case_match|done|].
    simpl. destruct H1 as [(-> & -> & ->)|(-> & Hd & _)]; [by left|]. right. eauto 10.
  - apply (ledger_other _ _ [Rec.Sealed id c (a_after_invalidation a)]);
      [by apply since_bind_not_arm|by repeat constructor|by apply alter_armed|done|by left].
  - apply ledger_bind; [|done..]. simpl. by rewrite since_bind_snoc.
  - eapply ledger_arm; [done|..]; try done. simpl. by rewrite since_bind_snoc.
  - apply (ledger_other _ _ []); [simpl; by rewrite app_nil_r|by constructor| |done|by left].
    intros id a' Hl. simpl in Hl. rewrite lookup_fmap, fmap_Some in Hl. destruct Hl as (b & Hb & ->). left.
    apply unarmed_rebuilt in Hb. unfold rebuild_settle. by destruct (a_status b).
Qed.

Lemma arm_in_app l rs id verb digest uid template :
  Forall not_arm rs → Rec.Arm id verb digest uid template ∈ l ++ rs → Rec.Arm id verb digest uid template ∈ l.
Proof.
  intros Hr [?|Hin]%elem_of_app; [done|]. rewrite Forall_forall in Hr. by apply Hr in Hin.
Qed.

Lemma arm_in_journal k k' :
  k_inv k → kstep k k' → ∀ id a armed,
  k_actions k' !! id = Some a → a_armed a = Some armed →
  ∃ template, Rec.Arm id (ar_verb armed) (ar_manifest_digest armed) (ar_uid armed) template
                ∈ since_bind (k_journal k').
Proof.
  intros Hk Hs id a armed Ha Harmed.
  destruct (kstep_ledger _ _ Hs) as [? Hact ?|i v d u t ? Hj Hact ? ?|rs Hj Hrs Hact ? ?].
  - rewrite Hact in Ha. by rewrite lookup_empty in Ha.
  - rewrite Hact in Ha. rewrite Hj. apply lookup_insert_Some in Ha as [[<- <-]|[_ Ha]].
    + injection Harmed as <-. exists t. set_solver.
    + destruct (inv_armed _ Hk _ _ _ Ha Harmed) as [t' ?]. exists t'. set_solver.
  - destruct (Hact _ _ Ha) as [?|(a0 & Ha0 & He)]; [congruence|].
    destruct (inv_armed _ Hk _ _ armed Ha0) as [t' ?]; [congruence|]. exists t'. rewrite Hj. set_solver.
Qed.

Lemma kstep_uid_rule k k' :
  k_inv k → kstep k k' → ∀ id verb digest uid template,
  Rec.Arm id verb digest uid template ∈ since_bind (k_journal k') → (verb = Delete ↔ is_Some uid).
Proof.
  intros Hk Hs id verb digest uid template Hin.
  destruct (kstep_ledger _ _ Hs) as [Hj ? ?|i v d u t Harm Hj ? ? ?|rs Hj Hrs ? ? ?]; rewrite Hj in Hin.
  - by apply elem_of_nil in Hin.
  - apply elem_of_app in Hin as [Hin|Hin%list_elem_of_singleton]; [by eapply (inv_uid_rule _ Hk)|].
    simplify_eq. apply (armable_uid_rule _ _ _ _ _ _ Harm).
  - apply arm_in_app in Hin; [|done]. by eapply (inv_uid_rule _ Hk).
Qed.

Lemma kstep_created k k' :
  k_inv k → kstep k k' → ∀ digest uid,
  uid ∈ default ∅ (k_created_uids k' !! digest) → created_in (since_bind (k_journal k')) digest uid.
Proof.
  intros Hk Hs digest uid Hin.
  destruct (kstep_ledger _ _ Hs) as [? ? Hc|i v d u t ? Hj ? ? Hc|rs Hj Hrs ? ? Hc].
  - rewrite Hc in Hin. by apply not_elem_of_empty in Hin.
  - rewrite Hj. apply created_in_mono, (inv_created _ Hk). by rewrite <-Hc.
  - rewrite Hj. destruct Hc as [Hc|(id & a & details & Ha & Hd & -> & Hc)].
    { apply created_in_mono, (inv_created _ Hk). by rewrite <-Hc. }
    rewrite Hc in Hin. unfold created_by in Hin.
    destruct (a_armed a) as [armed|] eqn:Harmed; [|by apply created_in_mono, (inv_created _ Hk)].
    destruct details as [status result [u|] version| | |]; try by apply created_in_mono, (inv_created _ Hk).
    case_bool_decide as Hv; [|by apply created_in_mono, (inv_created _ Hk)].
    destruct (Z.eqb_spec status 201) as [->|]; [|by apply created_in_mono, (inv_created _ Hk)].
    cbn [andb add_created] in Hin.
    assert (Hnew : created_in (since_bind (k_journal k) ++
       [Rec.Terminal id Classification.DeliveredResult (a_after_invalidation a)
          (TerminalDetails.Delivered 201 result (Some u) version)]) (ar_manifest_digest armed) u).
    { destruct (inv_armed _ Hk _ _ _ Ha Harmed) as [t Ht].
      assert (ar_uid armed = None) as Hu.
      { pose proof (inv_uid_rule _ Hk _ _ _ _ _ Ht) as Hr. rewrite Hv in Hr.
        destruct (ar_uid armed); [|done]. discriminate (proj2 Hr (mk_is_Some _ _ eq_refl)). }
      rewrite Hv, Hu in Ht. exists id, t, result, version, (a_after_invalidation a). set_solver. }
    destruct (decide (digest = ar_manifest_digest armed)) as [->|Hne].
    + rewrite lookup_insert_eq in Hin. simpl in Hin.
      apply elem_of_union in Hin as [->%elem_of_singleton|Hin]; [done|].
      by apply created_in_mono, (inv_created _ Hk).
    + rewrite lookup_insert_ne in Hin by done. by apply created_in_mono, (inv_created _ Hk).
Qed.

Lemma kstep_rank k k' : kstep k k' → (rank (k_state k') ≤ 1)%nat → (rank (k_state k) ≤ 1)%nat.
Proof.
  intros Hs. destruct Hs; simpl; try done.
  - destruct H as [[-> | ->]| | |]; simpl; lia.
  - destruct H as [->|(_ & [-> | ->] & _)]; simpl; lia.
Qed.

Lemma kstep_keys k k' :
  k_inv k → kstep k k' → ∀ key,
  (rank (k_state k') ≤ 1)%nat → armed_in (since_bind (k_journal k')) key → key ∈ k_mutation_keys k'.
Proof.
  intros Hk Hs key Hr%(kstep_rank _ _ Hs) (id & verb & digest & uid & template & Hin & Hkey).
  destruct (kstep_ledger _ _ Hs) as [Hj ? ?|i v d u t Harm Hj ? Hm ?|rs Hj Hrs ? Hm ?]; rewrite Hj in Hin.
  - by apply elem_of_nil in Hin.
  - rewrite Hm. apply elem_of_app in Hin as [Hin|Hin%list_elem_of_singleton].
    + assert (key ∈ k_mutation_keys k) by (apply (inv_keys _ Hk); [done|]; unfold armed_in; eauto 10).
      unfold add_key. case_match; set_solver.
    + simplify_eq. rewrite Hkey. simpl. set_solver.
  - rewrite Hm. apply arm_in_app in Hin; [|done]. apply (inv_keys _ Hk); [done|]. unfold armed_in. eauto 10.
Qed.

(** *** The journal is a legal run *)

Lemma neutral_legal k r : k_inv k → neutral k r → legal (k_journal k) r.
Proof.
  intros Hk Hn. destruct r; try done; simpl in *.
  - destruct Hn as (a & Ha & Hst & Hcl & Hse).
    destruct (replay_Some_r _ _ _ Hk Ha) as (b & Hb & _ & Hse' & _ & Hba).
    exists b. split; [done|]. split; [congruence|].
    destruct (a_status b); [by left|naive_solver congruence|]. right. split; [done|]. naive_solver congruence.
  - destruct (inv_derived _ Hk) as (-> & _). destruct Hn as (b & -> & <-). done.
  - destruct Hn as (a & Ha & _). destruct (replay_Some_r _ _ _ Hk Ha) as (b & Hb & _). eauto.
Qed.

Lemma replay_armed k id a :
  k_inv k → k_actions k !! id = Some a → a_status a = Status.Armed →
  ∃ b, rb_actions (rebuild_journal (k_journal k)) !! id = Some b ∧ a_status b = Status.Armed.
Proof.
  intros Hk Ha Hst. destruct (replay_Some_r _ _ _ Hk Ha) as (b & Hb & _ & _ & _ & Hba).
  exists b. split; [done|]. destruct (a_status b); naive_solver congruence.
Qed.

Lemma replay_consumed k id a :
  k_inv k → k_actions k !! id = Some a → a_status a = Status.Consumed →
  ∃ b, rb_actions (rebuild_journal (k_journal k)) !! id = Some b ∧ a_status b = Status.Consumed.
Proof.
  intros Hk Ha Hst. destruct (replay_Some_r _ _ _ Hk Ha) as (b & Hb & _ & _ & _ & Hba).
  exists b. split; [done|]. destruct (a_status b); naive_solver congruence.
Qed.

Lemma kstep_legal k k' : k_inv k → kstep k k' → legal_journal (k_journal k').
Proof.
  intros Hk Hs. pose proof (inv_legal _ Hk) as Hl.
  destruct Hs; simpl; try done; try (constructor; [done|]).
  - by constructor.
  - by apply neutral_legal.
  - by eapply replay_armed.
  - split; [naive_solver|]. by eapply replay_consumed.
  - destruct (replay_Some_r _ _ _ Hk H) as (b & Hb & _ & Hse & _ & Hba).
    exists b. split; [done|]. split; [congruence|]. destruct (a_status b); naive_solver congruence.
  - destruct (inv_derived _ Hk) as (_ & Hi & Hn). destruct H1. simpl. rewrite Hi, Hn.
    split; [done|]. split; [done|]. by apply replay_settled.
  - destruct H as [Hact Hset Hid Hrun Hrule Huid Hkey']. simpl. rewrite replay_size by done.
    split; [done|]. split; [by apply replay_settled|]. split; [done|]. split.
    + intros key Hkey Hin. apply (inv_keys _ Hk) in Hin; [by rewrite Hkey in Hkey'|]. rewrite Hact. simpl. lia.
    + intros u -> ->. destruct Huid as (u' & [= <-] & ?); [done|]. by apply (inv_created _ Hk).
Qed.

Lemma kstep_inv k k' : k_inv k → kstep k k' → k_inv k'.
Proof.
  intros Hk Hs. split.
  - by eapply kstep_ids.
  - by eapply kstep_replay.
  - by eapply kstep_replay.
  - by eapply kstep_one_open.
  - by eapply kstep_closed.
  - by eapply kstep_derived.
  - by eapply kstep_nodup.
  - by eapply arm_in_journal.
  - by eapply kstep_uid_rule.
  - by eapply kstep_created.
  - by eapply kstep_keys.
  - by eapply kstep_legal.
Qed.

Lemma ksteps_inv k k' : k_inv k → ksteps k k' → k_inv k'.
Proof. intros Hk Hs. induction Hs; eauto using kstep_inv. Qed.
End Invariants.
