(* ===== verification/GateSteps.v ===== *)
(** * Every event of the gate is a run of the action protocol

    [core] forgets what the protocol does not speak of (channel, connections, counters, stores
    but their entries); [handle_follows] proves that each event of [Gate::handle] moves the core
    by protocol steps, so that the protocol's invariants are the gate's. *)

From S2P Require Import Prelude Sha256 Json Schema Frame Render Types Journal Observation Config.
From S2P Require Import Gate Protocol ProtocolProofs.
(** A protocol step that does not loosen the state: every step but a restart. *)
Definition lstep (k k' : Core) : Prop := kstep k k' ∧ (rank (k_state k) ≤ rank (k_state k'))%nat.
Definition lsteps : Core → Core → Prop := rtc lstep.

Lemma lsteps_ksteps k k' : lsteps k k' → ksteps k k'.
Proof. induction 1 as [|k1 k2 k3 [? _]]; [constructor|]. by eapply rtc_l. Qed.

Lemma lsteps_inv k k' : k_inv k → lsteps k k' → k_inv k'.
Proof. intros Hk Hs. eapply ksteps_inv; [done|]. by apply lsteps_ksteps. Qed.

Lemma lsteps_rank k k' : lsteps k k' → (rank (k_state k) ≤ rank (k_state k'))%nat.
Proof. induction 1 as [|k1 k2 k3 [_ ?]]; lia. Qed.

(** A step whose state is unchanged. *)
Lemma lstep_same k k' : kstep k k' → k_state k' = k_state k → lsteps k k'.
Proof. intros Hs Hst. apply rtc_once. split; [done|]. by rewrite Hst. Qed.

Lemma lstep_tighten k s : tightens k s → lsteps k (k_with_state s k).
Proof.
  intros Hs. apply rtc_once. split; [by constructor|].
  destruct Hs as [[-> | ->]| | |]; simpl; try lia. destruct (k_state k); simpl; lia.
Qed.

Section Steps.
Context {St Ob : Type} {HS : Stores St} {HL : StoresLaws St} {HO : WorkerObserver Ob}.
Implicit Types (g : Gate St Ob).

Definition core g : Core :=
  mkCore (g_config g) (g_state g) (g_bound g) (g_bound_ids g) (g_bound_nonces g) (g_actions g)
    (g_mutation_keys g) (g_created_uids g) (journal g).

(** [g'] is reached from [g] by protocol steps. *)
Definition follows g g' : Prop := k_inv (core g) → lsteps (core g) (core g').

#[export] Instance follows_refl : Reflexive follows.
Proof. intros g _. constructor. Qed.
#[export] Instance follows_trans : Transitive follows.
Proof.
  intros g1 g2 g3 H12 H23 Hk. specialize (H12 Hk). etrans; [done|]. apply H23. by eapply lsteps_inv.
Qed.

Lemma follows_quiet g g' : core g' = core g → follows g g'.
Proof. intros Hc _. rewrite Hc. constructor. Qed.

Lemma follows_inv g g' : k_inv (core g) → follows g g' → k_inv (core g').
Proof. intros Hk Hf. by eapply lsteps_inv; [|apply Hf]. Qed.

(** An action that is no longer ARMED is only ever marked, and none becomes ARMED. *)
Definition keeps g g' : Prop :=
  ((∀ id a, g_actions g !! id = Some a → a_status a ≠ Status.Armed →
            ∃ b, g_actions g' !! id = Some (act_after b a)) ∧
   dom (g_actions g') = dom (g_actions g)) ∧
  (∀ id, action_has Status.Armed g' id = true → action_has Status.Armed g id = true).

Lemma action_has_Some s g id :
  action_has s g id = true ↔ ∃ a, g_actions g !! id = Some a ∧ a_status a = s.
Proof.
  unfold action_has, has_status. destruct (g_actions g !! id) as [a|].
  - rewrite bool_decide_eq_true. naive_solver.
  - naive_solver.
Qed.

Lemma act_after_id a : act_after (a_after_invalidation a) a = a.
Proof. by destruct a. Qed.

#[export] Instance keeps_refl : Reflexive keeps.
Proof. intros g. split; [|done]. split; [|done]. intros id a Ha _. exists (a_after_invalidation a). by rewrite act_after_id. Qed.
#[export] Instance keeps_trans : Transitive keeps.
Proof.
  intros g1 g2 g3 [[H12 D12] A12] [[H23 D23] A23]. split; [split; [|congruence]|auto].
  intros id a Ha Hs. destruct (H12 id a Ha Hs) as (b & Hb). destruct (H23 _ _ Hb Hs) as (b' & Hb'). eauto.
Qed.

Lemma keeps_same g g' : g_actions g' = g_actions g → keeps g g'.
Proof.
  intros Hg. split; [split; [|by rewrite Hg]|unfold action_has; by rewrite Hg].
  intros id a Ha _. rewrite Hg, Ha. exists (a_after_invalidation a). by rewrite act_after_id.
Qed.

(** *** The journal write *)

Lemma attempt_cases g r :
  (∃ s, attempt g r = (with_stores s g, true) ∧ entries s = journal g ++ [Entry.Record_ r]) ∨
  (∃ s (torn : bool), attempt g r = (with_stores s g, false) ∧
     entries s = journal g ++ (if torn then [Entry.Torn] else [])).
Proof.
  unfold attempt. pose proof (append_entries (g_stores g) r) as He.
  destruct (append (g_stores g) r) as [s [|torn]]; simpl in He.
  - left. exists s. done.
  - right. exists s, torn. split; [done|]. unfold journal. rewrite He. by destruct torn.
Qed.

Lemma core_with_stores s g es :
  entries s = journal g ++ es → core (with_stores s g) = k_append es (core g).
Proof. intros He. unfold core, k_append. simpl. by rewrite <-He. Qed.

Lemma follows_failed s g (torn : bool) :
  entries s = journal g ++ (if torn then [Entry.Torn] else []) → follows g (with_stores s g).
Proof.
  intros He _. rewrite (core_with_stores _ _ _ He). destruct torn.
  - by apply lstep_same; [constructor|].
  - unfold k_append. rewrite app_nil_r. by destruct (core g).
Qed.

Lemma armed_not_sealed g id a :
  k_inv (core g) → g_actions g !! id = Some a → a_status a = Status.Armed → a_sealed a = false.
Proof.
  intros Hk Ha Hst. destruct (replay_Some_r _ _ _ Hk Ha) as (b & _ & _ & Hse & Ht & Hb).
  destruct (a_sealed a); [|done]. rewrite Hse in Ht. rewrite (Ht eq_refl) in Hb. naive_solver congruence.
Qed.

Lemma core_update_action id f g : core (update_action id f g) = k_update id f (core g).
Proof. done. Qed.

Lemma follows_deny_memory g id a :
  g_actions g !! id = Some a → a_status a = Status.Armed →
  follows g (update_action id (act_terminal Classification.NotForwarded) g).
Proof. intros Ha Hst _. rewrite core_update_action. by eapply lstep_same; [eapply k_deny|]. Qed.

Lemma follows_mark g : follows g (mark_in_flight_after_invalidation g).
Proof.
  unfold mark_in_flight_after_invalidation. destruct (in_flight g); [|done].
  intros _. rewrite core_update_action. by apply lstep_same; [constructor|].
Qed.

Lemma keeps_mark g : keeps g (mark_in_flight_after_invalidation g).
Proof.
  unfold mark_in_flight_after_invalidation. destruct (in_flight g) as [x|]; [|done].
  split; [split; [|by simpl; rewrite dom_alter_L]|].
  - intros id a Ha _. simpl. destruct (decide (a_id x = id)) as [<-|].
    + exists true. by rewrite lookup_alter_eq, Ha.
    + exists (a_after_invalidation a). by rewrite lookup_alter_ne, Ha, act_after_id.
  - intros id (a & (a0 & Ha0 & ->)%alter_Some & Hst)%action_has_Some. apply action_has_Some.
    exists a0. split; [done|]. by destruct (decide _).
Qed.

Lemma follows_tighten g s : tightens (core g) s → follows g (with_state s g).
Proof. intros Hs _. by apply (lstep_tighten (core g)). Qed.

Lemma follows_hold g : follows g (with_state State.Held g).
Proof. apply follows_tighten. constructor. Qed.

Lemma core_close_connections select g : core (close_connections select g).1 = core g.
Proof. done. Qed.

Lemma core_close_unconsumed stamp g : core (close_unconsumed_stamped stamp g) = core g.
Proof. by destruct stamp. Qed.

(** What a journal write and a denial leave alone. *)
Definition outer g :=
  (g_channel g, g_challenge g, g_next_sequence g, g_last_digest g, g_schema g, g_drain_pending g,
   g_backlog g, g_expired g, g_failing g).

(** Protocol steps that only touch the core, and no action that has left ARMED. *)
Definition moves g g' : Prop :=
  k_inv (core g) → lsteps (core g) (core g') ∧ keeps g g' ∧ outer g' = outer g.

#[export] Instance moves_refl : Reflexive moves.
Proof. intros g _. done. Qed.
#[export] Instance moves_trans : Transitive moves.
Proof.
  intros g1 g2 g3 H12 H23 Hk. destruct (H12 Hk) as (S1 & K1 & O1).
  destruct (H23 (lsteps_inv _ _ Hk S1)) as (S2 & K2 & O2).
  split; [by etrans|]. split; [by etrans|congruence].
Qed.

Lemma moves_follows g g' : moves g g' → follows g g'.
Proof. intros Hm Hk. by apply Hm. Qed.

Lemma moves_quiet g g' : core g' = core g → outer g' = outer g → moves g g'.
Proof.
  intros Hc Ho _. split; [rewrite Hc; constructor|]. split; [|done].
  apply keeps_same. exact (f_equal k_actions Hc).
Qed.

(** A journal write a caller may make: [rec] is [record_fuel n]. *)
Definition writes (rec : Gate St Ob → Rec.t → Gate St Ob * bool) : Prop :=
  ∀ g r, neutral (core g) r → moves g (rec g r).1.

Lemma moves_mark g : moves g (mark_in_flight_after_invalidation g).
Proof.
  intros Hk. split; [by apply follows_mark|]. split; [apply keeps_mark|].
  unfold mark_in_flight_after_invalidation. by destruct (in_flight g).
Qed.

Lemma moves_hold g : moves g (with_state State.Held g).
Proof. intros Hk. split; [by apply follows_hold|]. split; [by apply keeps_same|done]. Qed.

Lemma moves_close_unconsumed stamp g : moves g (close_unconsumed_stamped stamp g).
Proof. apply moves_quiet; [apply core_close_unconsumed|by destruct stamp]. Qed.

Lemma moves_deny_memory g id a :
  g_actions g !! id = Some a → a_status a = Status.Armed →
  moves g (update_action id (act_terminal Classification.NotForwarded) g).
Proof.
  intros Ha Hst Hk. split; [by eapply follows_deny_memory|]. split; [|done].
  split; [split; [|by simpl; rewrite dom_alter_L]|].
  - intros j x Hx Hxs. simpl. destruct (decide (id = j)) as [<-|]; [congruence|].
    rewrite lookup_alter_ne, Hx by done. exists (a_after_invalidation x). by rewrite act_after_id.
  - intros j (x & (x0 & Hx0 & ->)%alter_Some & Hxs)%action_has_Some. apply action_has_Some.
    exists x0. split; [done|]. by destruct (decide _).
Qed.

Lemma deny_one_moves rec g id a :
  writes rec → g_actions g !! id = Some a → a_status a = Status.Armed →
  moves g (rec (update_action id (act_terminal Classification.NotForwarded)
                  (close_unconsumed_stamped (stamp_of g id) g)) (Rec.Denied id)).1.
Proof.
  intros Hrec Ha Hst Hk. pose proof (armed_not_sealed _ _ _ Hk Ha Hst) as Hse.
  set (g1 := close_unconsumed_stamped (stamp_of g id) g).
  assert (Ha1 : g_actions g1 !! id = Some a).
  { change (k_actions (core g1) !! id = Some a). unfold g1. by rewrite core_close_unconsumed. }
  revert Hk. change (moves g (rec (update_action id (act_terminal Classification.NotForwarded) g1) (Rec.Denied id)).1).
  etrans; [apply moves_close_unconsumed|]. etrans; [by eapply moves_deny_memory|]. apply Hrec.
  exists (act_terminal Classification.NotForwarded a). simpl. by rewrite lookup_alter_eq, Ha1.
Qed.

Lemma deny_armed_with_moves rec g : writes rec → moves g (deny_armed_with rec g).
Proof.
  intros Hrec. unfold deny_armed_with. generalize (armed_ids g) as ids. intros ids.
  revert g. induction ids as [|id ids IH]; intros g; simpl; [done|].
  destruct (action_has Status.Armed g id) eqn:Hid; [|by apply IH].
  apply action_has_Some in Hid as (a & Ha & Hst). etrans; [by eapply deny_one_moves|]. apply IH.
Qed.

(** After the denials no action is ARMED. *)
Lemma fold_denied rec g ids :
  writes rec → k_inv (core g) →
  let g' := fold_left (λ g id,
    if action_has Status.Armed g id then
      (rec (update_action id (act_terminal Classification.NotForwarded)
              (close_unconsumed_stamped (stamp_of g id) g)) (Rec.Denied id)).1
    else g) ids g in
  keeps g g' ∧ ∀ id, id ∈ ids → action_has Status.Armed g' id = false.
Proof.
  intros Hrec. revert g. induction ids as [|id ids IH]; intros g Hk; simpl.
  { split; [done|]. by intros ? ?%elem_of_nil. }
  destruct (action_has Status.Armed g id) eqn:Hid.
  - pose proof Hid as (a & Ha & Hst)%action_has_Some.
    set (g1 := close_unconsumed_stamped (stamp_of g id) g). set (g2 := update_action id _ g1).
    pose proof (deny_one_moves rec g id a Hrec Ha Hst Hk) as (S & K & _). fold g1 g2 in S, K.
    assert (Hk3 : k_inv (core (rec g2 (Rec.Denied id)).1)) by by eapply lsteps_inv.
    destruct (IH _ Hk3) as [K' Hd]. split; [by etrans|].
    intros j [->|Hj]%elem_of_cons; [|by apply Hd]. apply not_true_iff_false. intros Harmed.
    apply (proj2 K') in Harmed.
    assert (Ha1 : g_actions g1 !! id = Some a).
    { change (k_actions (core g1) !! id = Some a). unfold g1. by rewrite core_close_unconsumed. }
    assert (Hn : neutral (core g2) (Rec.Denied id)).
    { exists (act_terminal Classification.NotForwarded a). simpl. rewrite lookup_alter_eq, Ha1.
      split; [done|]. split; [done|]. split; [done|]. exact (armed_not_sealed g id a Hk Ha Hst). }
    assert (Hk2 : k_inv (core g2)).
    { eapply lsteps_inv; [exact Hk|]. assert (M : moves g g2); [|by apply M].
      etrans; [apply moves_close_unconsumed|]. by eapply moves_deny_memory. }
    destruct (Hrec g2 _ Hn Hk2) as (_ & K2 & _). apply (proj2 K2) in Harmed.
    apply action_has_Some in Harmed as (x & (x0 & _ & ->)%alter_Some & Hx).
    by rewrite decide_True in Hx.
  - destruct (IH _ Hk) as [K' Hd]. split; [done|].
    intros j [->|Hj]%elem_of_cons; [|by apply Hd]. apply not_true_iff_false. intros Harmed.
    apply (proj2 K') in Harmed. congruence.
Qed.

Lemma elem_of_armed_ids g id : k_inv (core g) → action_has Status.Armed g id = true → id ∈ armed_ids g.
Proof.
  intros Hk (a & Ha & Hs)%action_has_Some. unfold armed_ids. apply list_elem_of_fmap.
  exists a. split; [symmetry; apply (inv_ids _ Hk _ _ Ha)|].
  apply list_elem_of_filter. split; [done|]. apply elem_of_btree_values. eauto.
Qed.

Lemma deny_armed_with_none rec g :
  writes rec → k_inv (core g) → ∀ id, action_has Status.Armed (deny_armed_with rec g) id = false.
Proof.
  intros Hrec Hk id. destruct (fold_denied rec g (armed_ids g) Hrec Hk) as [K Hd].
  apply not_true_iff_false. intros Harmed. pose proof (proj2 K _ Harmed) as Hg.
  apply elem_of_armed_ids in Hg; [|done]. apply Hd in Hg. unfold deny_armed_with in Harmed. congruence.
Qed.

Lemma moves_write_marker g generation reason :
  moves g (with_stores (write_marker (g_stores g) generation reason).1 g).
Proof. apply moves_quiet; [|done]. unfold core, journal. simpl. by rewrite write_marker_entries. Qed.

Lemma storage_failure_with_moves rec g : writes rec → moves g (storage_failure_with rec g).
Proof.
  intros Hrec. unfold storage_failure_with. destruct (g_failing g) eqn:Hf; [done|].
  set (g1 := mark_in_flight_after_invalidation (with_state State.Held (with_failing true g))).
  assert (Hst : g_state g1 = State.Held).
  { unfold g1, mark_in_flight_after_invalidation. by destruct (in_flight _). }
  set (g2 := with_stores _ g1). set (r := Rec.Invalidated _ _).
  assert (M : moves (with_failing true g) (deny_armed_with rec (rec g2 r).1)).
  { etrans; [apply moves_hold|]. etrans; [apply moves_mark|]. fold g1.
    etrans; [apply moves_write_marker|]. fold g2. etrans; [apply (Hrec g2 r); exact (eq_sym Hst)|].
    by apply deny_armed_with_moves. }
  intros Hk. destruct (M Hk) as (S & K & O). split; [exact S|]. split; [exact K|].
  unfold outer in *. simpl in *. rewrite Hf. congruence.
Qed.

Lemma writes_record_fuel n : writes (record_fuel n).
Proof.
  induction n as [|n IH]; intros g r Hr; cbn [record_fuel];
    destruct (attempt_cases g r) as [(s & -> & He)|(s & torn & -> & He)].
  1,3: intros Hk; split; [|split; [by apply keeps_same|done]];
    change (lsteps (core g) (core (with_stores s g))); rewrite (core_with_stores _ _ _ He);
    by apply (lstep_same (core g)); [by apply k_note|].
  - intros Hk. split; [by eapply follows_failed|]. split; [by apply keeps_same|done].
  - simpl. trans (with_stores s g).
    + intros Hk. split; [by eapply follows_failed|]. split; [by apply keeps_same|done].
    + by apply storage_failure_with_moves.
Qed.

Lemma moves_note g r : neutral (core g) r → moves g (note r g).
Proof. apply (writes_record_fuel 2). Qed.

Lemma moves_deny_armed g : moves g (deny_armed g).
Proof. apply deny_armed_with_moves, (writes_record_fuel 2). Qed.

(** A record that is not durable leaves the gate where the storage-failure path does. *)
Lemma record_cases g r :
  (∃ s, record g r = (with_stores s g, true) ∧ core (with_stores s g) = k_log r (core g)) ∨
  (∃ g', record g r = (g', false) ∧ moves g g').
Proof.
  unfold record. cbn [record_fuel].
  destruct (attempt_cases g r) as [(s & -> & He)|(s & torn & -> & He)].
  - left. exists s. split; [done|]. by apply core_with_stores.
  - right. eexists. split; [done|]. trans (with_stores s g).
    + intros Hk. split; [by eapply follows_failed|]. split; [by apply keeps_same|done].
    + apply storage_failure_with_moves, (writes_record_fuel 1).
Qed.
(** *** Handlers *)

Lemma in_flight_None g : in_flight g = None → none_in_flight (g_actions g).
Proof.
  unfold in_flight. rewrite find_None_btree. intros Hf id a Ha Hst.
  specialize (Hf _ _ Ha). unfold has_status in Hf. by apply bool_decide_eq_false in Hf.
Qed.

Lemma in_flight_Some g a :
  in_flight g = Some a → a_status a = Status.Consumed ∧ ∃ id, g_actions g !! id = Some a.
Proof. intros [[id Ha] Hs%bool_decide_eq_true]%find_Some_btree. eauto. Qed.

Lemma any_ambiguous_false g : any_ambiguous g = false → none_ambiguous (g_actions g).
Proof.
  unfold any_ambiguous. intros Hf id a Ha Hc. apply not_true_iff_false in Hf. apply Hf.
  apply existsb_btree_values. exists id, a. split; [done|]. unfold ambiguous. by rewrite Hc.
Qed.

Lemma all_settled_spec g : all_settled g = true ↔ every_settled (g_actions g).
Proof. apply forallb_btree_values. Qed.

Lemma moves_tighten g s : tightens (core g) s → moves g (with_state s g).
Proof. intros Hs Hk. split; [by apply follows_tighten|]. split; [by apply keeps_same|done]. Qed.

Lemma tightens_closed_state g :
  (rank (g_state g) ≤ 1)%nat → in_flight g = None → tightens (core g) (closed_state g).
Proof.
  intros Hr Hf. unfold closed_state. destruct (any_ambiguous g) eqn:Ha; [constructor|].
  constructor; [done|by apply in_flight_None|by apply any_ambiguous_false].
Qed.

Lemma moves_urgent g s reason :
  s = State.Held ∨ s = State.Invalidated ∧ (rank (g_state g) ≤ 1)%nat → moves g (urgent s reason g).
Proof.
  intros Hs. unfold urgent. set (g1 := if bool_decide _ then _ else _).
  trans g1.
  { unfold g1. case_bool_decide; [done|]. apply moves_tighten. destruct Hs as [->|[-> ?]]; by constructor. }
  etrans; [apply moves_mark|]. etrans; [|apply moves_deny_armed]. by apply moves_note.
Qed.

Lemma fatal_moves reason g : moves (with_channel Channel.Closed g) (fatal reason g).1.
Proof.
  unfold fatal. cbn [fst]. etrans; [apply moves_urgent; by left|]. apply moves_hold.
Qed.

Lemma follows_fatal reason g : follows g (fatal reason g).1.
Proof.
  trans (with_channel Channel.Closed g); [by apply follows_quiet|]. apply moves_follows, fatal_moves.
Qed.

Lemma follows_settle_drain g : follows g (settle_drain g).1.
Proof.
  unfold settle_drain. destruct (negb (g_drain_pending g)); [done|].
  set (g1 := if _ && _ then _ else _). trans g1.
  { unfold g1. case_bool_decide as Hd; [|done]. case_bool_decide as Hf; [|done]. simpl.
    apply follows_tighten, tightens_closed_state; [by rewrite Hd; simpl; lia|done]. }
  case_bool_decide; [done|]. cbn [fst]. trans (with_drain_pending false g1); [by apply follows_quiet|].
  by apply moves_follows, moves_note.
Qed.

Lemma follows_drain g : follows g (drain g).1.
Proof.
  unfold drain. set (g1 := if bool_decide _ then _ else _).
  set (g2 := if g_drain_pending g1 then _ else _).
  assert (F : follows g (deny_armed g2)).
  { trans g1.
    { unfold g1. case_bool_decide; [|done]. apply follows_tighten. by constructor. }
    trans g2; [|apply moves_follows, moves_deny_armed].
    unfold g2. destruct (g_drain_pending g1); [done|].
    trans (with_drain_pending true g1); [by apply follows_quiet|]. by apply moves_follows, moves_note. }
  pose proof (follows_settle_drain (deny_armed g2)) as Hs.
  destruct (settle_drain (deny_armed g2)) as [g3 answer]. cbn [fst] in *. by etrans.
Qed.

Lemma follows_expire g : follows g (expire g).1.
Proof.
  unfold expire. destruct (g_bound g) as [bound|] eqn:Hb; [|done]. destruct (g_expired g); [done|].
  cbn [fst]. trans (with_expired true g); [by apply follows_quiet|].
  etrans; [apply follows_mark|]. etrans; [|apply moves_follows, moves_deny_armed]. apply moves_follows, moves_note.
  exists bound. split; [|done]. simpl. unfold mark_in_flight_after_invalidation.
  by destruct (in_flight _).
Qed.

Lemma follows_channel_lost g : follows g (channel_lost g).1.
Proof.
  unfold channel_lost. destruct (g_channel g); [|destruct (orderly g)|done].
  - trans (with_channel Channel.Closed g); [by apply follows_quiet|]. by apply moves_follows, moves_note.
  - trans (with_channel Channel.Closed g); [by apply follows_quiet|]. by apply moves_follows, moves_note.
  - apply follows_fatal.
Qed.

Lemma follows_accept conn g : follows g (accept conn g).1.
Proof.
  apply follows_quiet. unfold accept. destruct (negb _); [done|]. cbn zeta. by case_match.
Qed.

Lemma follows_disconnect conn g : follows g (disconnect conn g).1.
Proof. apply follows_quiet. unfold disconnect. by repeat case_match. Qed.

(** *** Requests *)

(** The admission rules: when the gate may forward. *)
Definition admissible g (opened : bool) (requests : Z) (stamp : option Stamp) (certificate head : string)
    (body_digest : option string) (id : Z) : Prop :=
  ∃ bound s action run armed manifest,
    opened = true ∧ requests ≤ 1 ∧
    g_state g = State.Active ∧ g_drain_pending g = false ∧ g_channel g = Channel.Open ∧
    g_bound g = Some bound ∧ g_expired g = false ∧
    stamp = Some s ∧ st_execution_id s = b_execution_id bound ∧
    g_actions g !! st_action_id s = Some action ∧ a_status action = Status.Armed ∧ a_id action = id ∧
    c_runs (g_config g) !! b_run_nonce bound = Some run ∧ certificate = run_server_certificate_digest run ∧
    a_armed action = Some armed ∧ c_manifests (g_config g) !! ar_manifest_digest armed = Some manifest ∧
    render_request (ar_verb armed) manifest (ar_uid armed) (c_endpoint (g_config g)) = mkRendered head body_digest.

Lemma admit_Ok g opened requests stamp certificate head body_digest id :
  admit_request g opened requests stamp certificate head body_digest = Ok id ↔
  admissible g opened requests stamp certificate head body_digest id.
Proof.
  unfold admit_request, admissible. split.
  - destruct opened; [|done]. destruct (Z.ltb_spec 1 requests); [done|]. cbn [negb].
    destruct (g_bound g) as [bound|]; [|done].
    destruct (negb _ || _ || _) eqn:E; [done|].
    apply orb_false_iff in E as [[E1%negb_false_iff%bool_decide_eq_true E2]%orb_false_iff
                                 E3%negb_false_iff%bool_decide_eq_true].
    destruct (g_expired g) eqn:Hx; [done|]. destruct stamp as [s|]; [|done].
    case_bool_decide; [|done]. cbn [negb].
    destruct (g_actions g !! st_action_id s) as [action|] eqn:Ha; [|done].
    unfold has_status. case_bool_decide; [|done]. cbn [negb].
    destruct (c_runs (g_config g) !! b_run_nonce bound) as [run|] eqn:Hrun; [|done].
    case_bool_decide; [|done]. cbn [negb]. destruct (a_armed action) as [armed|] eqn:Harmed; [|done].
    destruct (c_manifests (g_config g) !! ar_manifest_digest armed) as [manifest|] eqn:Hm; [|done].
    case_bool_decide as Hhead; [|done]. case_bool_decide as Hbody; [|done]. cbn [negb orb]. intros [= <-].
    exists bound, s, action, run, armed, manifest. repeat split; try done.
    rewrite <-Hhead, <-Hbody. by destruct (render_request _ _ _ _).
  - intros (bound & s & action & run & armed & manifest & -> & Hr & -> & -> & -> & -> & -> & -> & He & Ha &
            Hst & Hid & Hrun & Hcert & Harmed & Hm & Hrender).
    rewrite (proj2 (Z.ltb_ge 1 requests)) by done. cbn [negb]. rewrite !bool_decide_eq_true_2 by done. cbn [negb orb].
    rewrite Ha. unfold has_status.
    rewrite bool_decide_eq_true_2 by done. cbn [negb]. rewrite Hrun, bool_decide_eq_true_2 by done. cbn [negb].
    rewrite Harmed, Hm, Hrender. cbn [r_head r_body_digest]. rewrite !bool_decide_eq_true_2 by done.
    cbn [negb orb]. by rewrite Hid.
Qed.

Lemma core_after_consume conn id g :
  core (let g := update_connection conn conn_consume g in
        let g := with_counters (count_consumption (g_counters g)) g in
        close_unconsumed_stamped (stamp_of g id) g) = core g.
Proof. cbn zeta. by rewrite core_close_unconsumed. Qed.

Lemma follows_consume conn id a g :
  g_state g = State.Active → g_actions g !! id = Some a → a_status a = Status.Armed →
  follows g (consume conn id g).1.
Proof.
  intros Hst Ha Hs. unfold consume.
  destruct (record_cases g (Rec.Consumed id)) as [(s & -> & Hc)|(g' & -> & Hm)];
    cbn [negb]; [|by apply moves_follows].
  set (g1 := update_action _ _ _). intros Hk.
  assert (Hfin : core (update_connection conn conn_consume g1) = core g1) by done.
  cbn [fst]. rewrite core_close_unconsumed.
  change (lsteps (core g) (core g1)). unfold g1. rewrite core_update_action, Hc.
  apply lstep_same; [by eapply k_consume|done].
Qed.

Lemma follows_request conn certificate head body_digest g :
  follows g (request conn certificate head body_digest g).1.
Proof.
  unfold request. destruct (g_connections g !! conn) as [c|]; [|done].
  set (g1 := with_connections _ g).
  assert (F1 : follows g g1) by by apply follows_quiet.
  destruct (admit_request g1 _ _ _ _ _ _) as [id|refusal] eqn:Hadmit.
  - apply admit_Ok in Hadmit as (bound & s & a & run & armed & manifest & _ & _ & Hst & _ & _ & _ & _ & _ & _ & Ha &
                                Hs & Hid & _).
    intros Hk. assert (Ha' : g_actions g1 !! id = Some a).
    { rewrite <-Hid, (proj1 (inv_ids _ Hk _ _ Ha)). exact Ha. }
    pose proof (follows_consume conn id a g1 Hst Ha' Hs) as F2.
    destruct (consume conn id g1) as [g2 [output|]]; cbn [fst] in *.
    + exact (follows_trans _ _ _ F1 F2 Hk).
    + exact (follows_trans _ _ _ F1 (follows_trans _ _ _ F2 (follows_quiet _ _ eq_refl)) Hk).
  - etrans; [exact F1|]. apply follows_quiet. by destruct refusal.
Qed.

(** *** Upstream outcomes *)

Lemma forwarded_on_Some g conn only id :
  k_inv (core g) → forwarded_on g conn only = Some id →
  ∃ a, g_actions g !! id = Some a ∧ a_conn a = Some conn ∧
       (if only then a_status a = Status.Consumed else a_status a ≠ Status.Armed).
Proof.
  unfold forwarded_on. intros Hk Hf. apply fmap_Some in Hf as (a & Hf & ->).
  apply find_Some_btree in Hf as [[id Ha] [Hc%bool_decide_eq_true Hs]%andb_prop].
  exists a. pose proof (proj1 (inv_ids _ Hk _ _ Ha)) as ->. split; [done|]. split; [done|].
  destruct only; unfold has_status in Hs; [by apply bool_decide_eq_true in Hs|].
  by apply negb_true_iff, bool_decide_eq_false in Hs.
Qed.

(** A TERMINAL record, durable or not, with the memory change after it. *)
Lemma follows_settled g id a c details delivered after :
  g_actions g !! id = Some a → a_status a = Status.Consumed → after = a_after_invalidation a →
  (c = Classification.IoAmbiguous ∧ delivered = None ∧ created_by a details = None ∨
   c = Classification.DeliveredResult ∧ delivers a details ∧ is_Some delivered) →
  ∀ g' recorded, record g (Rec.Terminal id c after details) = (g', recorded) →
  let c := if recorded then c else Classification.IoAmbiguous in
  let delivered := if recorded then delivered else None in
  let created := if recorded then created_by a details else None in
  let g1 := update_action id (λ a, let a := act_terminal c a in
              match delivered with Some _ => act_delivered delivered a | None => a end) g' in
  follows g (with_created_uids (add_created created (g_created_uids g1)) g1).
Proof.
  intros Ha Hs -> Hc g' recorded Hr. cbn zeta.
  destruct (record_cases g (Rec.Terminal id c (a_after_invalidation a) details)) as [(s & Hr' & Hcore)|(g2 & Hr' & Hm)];
    rewrite Hr' in Hr; injection Hr as <- <-; intros Hk.
  - match goal with |- lsteps _ (core ?X) => assert (core X =
      k_with_created (add_created (created_by a details) (k_created_uids (core g)))
         (k_update id (λ a, let a := act_terminal c a in
                            match delivered with Some _ => act_delivered delivered a | None => a end)
            (k_log (Rec.Terminal id c (a_after_invalidation a) details) (core g)))) as -> end.
    { rewrite <-Hcore. done. }
    apply lstep_same; [by apply k_terminal|done].
  - destruct (Hm Hk) as (S & K & _). destruct (proj1 (proj1 K) id a Ha) as [b Hb]; [by rewrite Hs|].
    etrans; [exact S|]. apply lstep_same; [|done].
    apply (k_lose (core g2) id (act_after b a)); [exact Hb|done].
Qed.

Lemma with_created_uids_same u g : u = g_created_uids g → with_created_uids u g = g.
Proof. intros ->. by destruct g. Qed.

Lemma created_uid_by a details delivered verb response c :
  classify_upstream verb response = (c, details, delivered) →
  created_uid (a_armed a) delivered = created_by a details.
Proof.
  unfold classify_upstream, created_uid, created_by. destruct response as [r|].
  - destruct (negb _); intros [= <- <- <-]; destruct (a_armed a); try done. simpl.
    destruct (u_uid r); [done|]. by case_match.
  - intros [= <- <- <-]. by destruct (a_armed a).
Qed.

Lemma follows_upstream conn response g : follows g (upstream conn response g).1.
Proof.
  intros Hk. unfold upstream. destruct (forwarded_on g conn false) as [id|] eqn:Hf; [|constructor].
  destruct (forwarded_on_Some _ _ _ _ Hk Hf) as (a & Ha & _ & Hs).
  cbn [mbind option_bind]. rewrite Ha. cbn [mbind option_bind].
  unfold has_status. destruct (decide (a_status a = Status.Terminal)) as [Ht|Ht].
  { rewrite bool_decide_eq_true_2 by done. cbn [fst]. apply moves_note; [|done]. by exists a. }
  rewrite bool_decide_eq_false_2 by done.
  assert (Hcons : a_status a = Status.Consumed) by by destruct (a_status a).
  destruct (classify_upstream (ar_verb <$> a_armed a) response) as [[c details] delivered] eqn:Hcl.
  pose proof (created_uid_by a _ _ _ _ _ Hcl) as Hcreated.
  assert (Hshape : c = Classification.IoAmbiguous ∧ delivered = None ∧ created_by a details = None ∨
    c = Classification.DeliveredResult ∧ delivers a details ∧ is_Some delivered).
  { unfold classify_upstream in Hcl. destruct response as [r|].
    - destruct (negb _) eqn:Hn; injection Hcl as <- <- <-.
      + left. unfold created_by. by destruct (a_armed a).
      + right. split; [done|]. split; [|done]. apply negb_false_iff in Hn. simpl.
        destruct (a_armed a) as [armed|]; [|done]. by exists armed.
    - injection Hcl as <- <- <-. left. unfold created_by. by destruct (a_armed a). }
  destruct (record g _) as [g' recorded] eqn:Hrec.
  pose proof (follows_settled g id a c details delivered _ Ha Hcons eq_refl Hshape _ _ Hrec) as F.
  cbn zeta in F |- *. cbn [fst].
  set (g1 := update_action id _ g') in *.
  assert (Hmid : follows g
    (if bool_decide ((if recorded then c else Classification.IoAmbiguous) = Classification.IoAmbiguous)
     then with_state State.Held g1
     else match created_uid (a_armed a) (if recorded then delivered else None) with
          | Some (manifest_digest, uid) =>
              with_created_uids
                (<[manifest_digest := {[uid]} ∪ default ∅ (g_created_uids g1 !! manifest_digest)]>
                   (g_created_uids g1)) g1
          | None => g1
          end)).
  { destruct recorded; cbn in F |- *.
    - rewrite Hcreated. case_bool_decide as Hamb.
      + destruct Hshape as [(_ & _ & Hn)|(Hd & _)]; [|congruence]. rewrite Hn in F. simpl in F.
        rewrite with_created_uids_same in F by done. etrans; [exact F|apply follows_hold].
      + destruct (created_by a details) as [[digest uid]|]; simpl in F; [exact F|].
        by rewrite with_created_uids_same in F by done.
    - rewrite with_created_uids_same in F by done. etrans; [exact F|apply follows_hold]. }
  refine (follows_trans _ _ _ Hmid _ Hk). by apply follows_quiet.
Qed.

Lemma follows_timeout conn g : follows g (timeout conn g).1.
Proof.
  intros Hk. unfold timeout. destruct (forwarded_on g conn true) as [id|] eqn:Hf; [|constructor].
  destruct (forwarded_on_Some _ _ _ _ Hk Hf) as (a & Ha & _ & Hs). rewrite Ha. cbn [fst].
  unfold note. destruct (record g _) as [g' recorded] eqn:Hrec. cbn [fst].
  pose proof (follows_settled g id a Classification.IoAmbiguous TerminalDetails.Aborted None _ Ha Hs eq_refl) as F.
  specialize (F ltac:(left; unfold created_by; by destruct (a_armed a)) _ _ Hrec). cbn zeta in F.
  replace (if recorded then Classification.IoAmbiguous else Classification.IoAmbiguous)
    with Classification.IoAmbiguous in F by by destruct recorded.
  replace (if recorded then None else None) with (@None Delivered) in F by by destruct recorded.
  replace (add_created (if recorded then created_by a TerminalDetails.Aborted else None)) with (add_created None)
    in F by (destruct recorded; [unfold created_by; by destruct (a_armed a)|done]).
  simpl in F. rewrite with_created_uids_same in F by done.
  refine (follows_trans _ _ _ F _ Hk). etrans; [apply follows_hold|]. by apply follows_quiet.
Qed.
(** *** I05 operations *)

Lemma follows_bind p g : follows g (bind p g).1.
Proof.
  unfold bind. destruct (negb (bool_decide (bi_peer_qualification_digest p = _))).
  { pose proof (follows_fatal FatalReason.PeerQualificationMismatch g) as F. by destruct (fatal _ g). }
  case_bool_decide as Hst; [|done]. destruct (all_settled g) eqn:Hset; [|done]. cbn [negb].
  destruct (bool_decide _ || _ || _ || _) eqn:Hrep; [done|].
  apply orb_false_iff in Hrep as [[[R1%bool_decide_eq_false R2%bool_decide_eq_false]%orb_false_iff
    R3%bool_decide_eq_false]%orb_false_iff R4%bool_decide_eq_false].
  destruct (negb (bool_decide (bi_dispatch_generation p = _))); [done|].
  destruct (c_runs (g_config g) !! bi_run_nonce p) as [run|]; [|done].
  destruct (negb _ || _ || _); [done|].
  destruct (negb (bool_decide (bi_server_certificate_digest p = _))); [done|].
  set (digests := sort_text (run_manifests run)). set (identities := sort_text (map _ _)).
  destruct (existsb _ digests || _) eqn:Hreuse; [done|].
  apply orb_false_iff in Hreuse as [U1 U2].
  destruct (observe _ _ _) as [observer observation].
  set (g1 := with_observations _ (with_observer observer g)).
  assert (F1 : follows g g1) by by apply follows_quiet.
  destruct (negb (bool_decide (observation = _))); [exact F1|].
  destruct (record_cases g1 (Rec.Bind (bi_execution_id p) (bi_run_nonce p) (bi_reservation_digest p) digests identities))
    as [(s & -> & Hc)|(g' & -> & Hm)]; cbn [negb fst]; [|etrans; [exact F1|by apply moves_follows]].
  intros Hk. pose proof (F1 Hk) as S1. etrans; [exact S1|]. clear S1.
  match goal with |- lsteps _ (core ?X) => assert (core X =
    mkCore (k_config (core g1)) (k_state (core g1)) (Some (mkBound (bi_execution_id p) (bi_run_nonce p)))
      (k_bound_ids (core g1) ++ [bi_execution_id p]) (k_bound_nonces (core g1) ++ [bi_run_nonce p]) ∅ ∅ ∅
      (k_journal (core g1) ++ [Entry.Record_ (Rec.Bind (bi_execution_id p) (bi_run_nonce p)
                                               (bi_reservation_digest p) digests identities)])) as -> end.
  { apply (f_equal k_journal) in Hc. unfold core in *. cbn in *. by rewrite <-Hc. }
  assert (Hnone : ∀ (l : list string) (s : gset string),
    existsb (λ d, bool_decide (d ∈ s)) l = false → ∀ d, d ∈ l → d ∉ s).
  { intros l u Hl d Hd Hin. apply not_true_iff_false in Hl. apply Hl. apply existsb_exists.
    exists d. split; [by apply list_elem_of_In|]. by apply bool_decide_eq_true. }
  apply lstep_same; [|done]. apply k_bind; [exact Hst|by apply all_settled_spec|].
  split; try done; by apply Hnone.
Qed.

Lemma flush_backlog_core g n : core (flush_backlog g n).1 = core g.
Proof.
  unfold flush_backlog. change (core g) with (core (with_backlog [] g)).
  generalize (with_backlog [] g) as g0. revert n. induction (g_backlog g) as [|conn l IH]; intros n g0; [done|].
  cbn [fold_left]. by rewrite IH.
Qed.

Lemma mutation_key_arm p : mutation_key p = arm_key (am_verb p) (am_manifest_digest p) (am_recorded_uid p).
Proof. done. Qed.

Lemma follows_arm p g : follows g (arm p g).1.
Proof.
  unfold arm. case_bool_decide as Hst; [|done]. cbn [negb].
  destruct (g_bound g) as [bound|] eqn:Hb; [|done].
  case_bool_decide as He; [|done]. cbn [negb].
  destruct (g_expired g); [done|]. destruct (all_settled g) eqn:Hset; [|done]. cbn [negb].
  destruct (Z.eqb_spec (am_action_id p) (Z.of_nat (size (g_actions g)) + 1)) as [Hid|]; [|done]. cbn [negb].
  destruct (c_runs (g_config g) !! b_run_nonce bound) as [run|] eqn:Hrun; [|done].
  case_bool_decide as Hin; [|done].
  destruct (c_manifests (g_config g) !! am_manifest_digest p) as [manifest|] eqn:Hm; [|done].
  destruct (eqb _ _) eqn:Hrule; [|done]. cbn [negb]. apply eqb_prop in Hrule.
  destruct (bool_decide (am_verb p = Delete) && _) eqn:Huid; [done|].
  destruct (negb (bool_decide (am_request_template_digest p = _))); [done|].
  destruct (match mutation_key p with Some _ => _ | None => _ end) eqn:Hkey; [done|].
  pose proof (core_close_connections (λ c, negb (cn_consumed c)) g) as C1.
  destruct (close_connections (λ c, negb (cn_consumed c)) g) as [g1 flushed]. cbn [fst] in C1.
  pose proof (flush_backlog_core g1 flushed) as C2. destruct (flush_backlog g1 flushed) as [g2 flushed'].
  cbn [fst] in C2. assert (C : core g2 = core g) by congruence. clear C1 C2 g1.
  destruct (record_cases g2 (Rec.Arm (am_action_id p) (am_verb p) (am_manifest_digest p) (am_recorded_uid p)
    (template_digest (am_verb p) (m_api_version manifest) (m_kind manifest) (m_namespace manifest)
       (m_name manifest) (am_recorded_uid p) (am_manifest_digest p)))) as [(s & -> & Hc)|(g' & -> & Hmv)];
    cbn [negb fst]; [|etrans; [by apply follows_quiet|by apply moves_follows]].
  intros Hk.
  match type of Hc with _ = k_log (Rec.Arm _ _ _ _ ?t) _ => set (template := t) in * end.
  match goal with |- lsteps _ (core ?X) => assert (core X =
    mkCore (k_config (core g)) (k_state (core g)) (k_bound (core g)) (k_bound_ids (core g)) (k_bound_nonces (core g))
      (<[am_action_id p := armed_action (am_action_id p) (am_verb p) (am_manifest_digest p) (am_recorded_uid p)]>
         (k_actions (core g)))
      (add_key (arm_key (am_verb p) (am_manifest_digest p) (am_recorded_uid p)) (k_mutation_keys (core g)))
      (k_created_uids (core g))
      (k_journal (core g) ++ [Entry.Record_ (Rec.Arm (am_action_id p) (am_verb p) (am_manifest_digest p)
                                              (am_recorded_uid p) template)])) as -> end.
  { rewrite <-C in *. rewrite <-mutation_key_arm. apply (f_equal k_journal) in Hc.
    unfold core in *. cbn in *. rewrite <-Hc. by destruct (mutation_key p). }
  apply lstep_same; [|done]. apply k_arm. split.
  - exact Hst.
  - by apply all_settled_spec.
  - exact Hid.
  - by exists bound, run, manifest.
  - split; intros Hd.
    + rewrite bool_decide_eq_true_2 in Hrule by done. symmetry in Hrule. by apply bool_decide_eq_true in Hrule.
    + rewrite (bool_decide_eq_true_2 (is_Some _)) in Hrule by done. by apply bool_decide_eq_true in Hrule.
  - intros Hd. rewrite bool_decide_eq_true_2 in Huid by done. cbn [andb] in Huid.
    apply negb_false_iff in Huid. destruct (am_recorded_uid p) as [uid|]; [|done].
    exists uid. split; [done|]. by apply bool_decide_eq_true in Huid.
  - rewrite <-mutation_key_arm. destruct (mutation_key p); [|done]. by apply bool_decide_eq_false in Hkey.
Qed.

Lemma action_classified g id a :
  k_inv (core g) → g_actions g !! id = Some a → a_status a = Status.Terminal → is_Some (a_classification a).
Proof.
  intros Hk Ha Hs. destruct (replay_Some_r _ _ _ Hk Ha) as (b & _ & _ & _ & _ & Hb).
  destruct (a_status b); [destruct Hb as [_ [[? _]|[_ ->]]]|destruct Hb as [_ [[? _]|[_ ->]]]|destruct Hb as (_ & -> & ?)];
    eauto; congruence.
Qed.

(** The seal's memory part leaves the action TERMINAL, unsealed, and otherwise as it was. *)
Lemma seal_step_spec g id a :
  k_inv (core g) → g_actions g !! id = Some a →
  follows g (seal_step id (a_status a) (a_conn a) g) ∧
  ∃ a', g_actions (seal_step id (a_status a) (a_conn a) g) !! id = Some a' ∧
        a_status a' = Status.Terminal ∧ a_sealed a' = a_sealed a.
Proof.
  intros Hk Ha. destruct (a_status a) eqn:Hs; cbn [seal_step].
  - set (g1 := close_unconsumed_stamped (stamp_of g id) g).
    assert (Hc1 : core g1 = core g) by apply core_close_unconsumed.
    assert (Ha1 : g_actions g1 !! id = Some a) by (change (k_actions (core g1) !! id = Some a); by rewrite Hc1).
    split.
    + etrans; [by apply follows_quiet|]. by eapply follows_deny_memory.
    + exists (act_terminal Classification.NotForwarded a). simpl. by rewrite lookup_alter_eq, Ha1.
  - set (g1 := match a_conn a with Some conn => _ | None => g end).
    assert (Hc1 : core g1 = core g) by (unfold g1; by destruct (a_conn a)).
    assert (Ha1 : g_actions g1 !! id = Some a) by (change (k_actions (core g1) !! id = Some a); by rewrite Hc1).
    split.
    + etrans; [by apply follows_quiet|]. etrans; [|apply follows_hold].
      intros _. rewrite core_update_action. apply lstep_same; [by eapply k_lose|done].
    + exists (act_terminal Classification.IoAmbiguous a). simpl. by rewrite lookup_alter_eq, Ha1.
  - split; [done|]. by exists a.
Qed.

Lemma follows_outcome execution_id id g : follows g (outcome execution_id id g).1.
Proof.
  intros Hk. unfold outcome. destruct (negb _); [constructor|].
  destruct (g_actions g !! id) as [a|] eqn:Ha; [|constructor].
  destruct (a_sealed a) eqn:Hse; [constructor|].
  destruct (seal_step_spec g id a Hk Ha) as (F & a' & Ha' & Hs' & Hse').
  set (g1 := seal_step id (a_status a) (a_conn a) g) in *. rewrite Ha'.
  pose proof (follows_inv _ _ Hk F) as Hk1. specialize (F Hk).
  destruct (action_classified _ _ _ Hk1 Ha' Hs') as [c Hcl].
  replace (default Classification.IoAmbiguous (a_classification a')) with c by by rewrite Hcl.
  destruct (record_cases g1 (Rec.Sealed id c (a_after_invalidation a'))) as [(s & -> & Hc)|(g' & -> & Hm)];
    cbn [negb fst]; [|etrans; [exact F|]; by apply Hm].
  set (g2 := update_action id (act_sealed true) (with_stores s g1)).
  assert (S2 : lsteps (core g) (core g2)).
  { etrans; [exact F|]. unfold g2. rewrite core_update_action, Hc.
    apply lstep_same; [|done]. eapply k_seal; [exact Ha'|done|done|congruence]. }
  by destruct (g_actions g2 !! id).
Qed.

Lemma follows_close reason g : follows g (close reason g).1.
Proof.
  unfold close. destruct (bool_decide (g_state g = State.Closed ∨ _)) eqn:Hst.
  - cbn [fst]. etrans; [|apply moves_follows, moves_deny_armed].
    destruct (_ && _); [|done]. etrans; [apply follows_hold|]. by apply moves_follows, moves_note.
  - apply bool_decide_eq_false in Hst.
    assert (Hr : (rank (g_state g) ≤ 1)%nat) by (destruct (g_state g); simpl; try lia; tauto).
    destruct (bool_decide (reason = CloseReason.NormalDrain)).
    + case_bool_decide as Hf; [done|]. cbn [fst].
      etrans; [|apply moves_follows, moves_deny_armed].
      etrans; [apply follows_tighten, tightens_closed_state; [done|by apply eq_None_not_Some]|].
      by apply moves_follows, moves_note.
    + cbn [fst]. apply moves_follows, moves_urgent. case_bool_decide; auto.
Qed.

Lemma follows_perform request g : follows g (perform request g).1.
Proof.
  destruct request; cbn [perform]; [done|apply follows_bind|apply follows_arm|apply follows_outcome|].
  pose proof (follows_close reason g). by destruct (close reason g).
Qed.

Lemma follows_respond sequence encoded operation payload g :
  follows g (respond sequence encoded operation payload g).1.
Proof. unfold respond. destruct (check_frame_encoded _ _); [by apply follows_quiet|apply follows_fatal]. Qed.

Lemma follows_frame input g : follows g (frame input g).1.
Proof.
  unfold frame. destruct (bool_decide _); [done|].
  destruct (checked_frame _ _) as [[value encoded]|]; [|apply follows_fatal].
  destruct (parse_envelope value) as [e|]; [|apply follows_fatal].
  destruct (_ || _); [apply follows_fatal|]. destruct (_ || _); [apply follows_fatal|].
  destruct (negb _); [apply follows_fatal|].
  destruct (open_channel e g) as [g1|] eqn:Hopen; [|apply follows_fatal].
  assert (F1 : follows g g1).
  { apply follows_quiet. unfold open_channel in Hopen. by repeat case_match; simplify_eq. }
  etrans; [exact F1|]. destruct (let* payload := _ in _) as [request|]; [|apply follows_fatal].
  pose proof (follows_perform request g1) as F2. destruct (perform request g1) as [g2 [payload|output]]; [|done].
  etrans; [exact F2|]. apply follows_respond.
Qed.

(** *** Restart *)

Lemma rebuild_settled b : forallb (λ a, settled a && negb (ambiguous a)) (btree_values (rb_actions b)) = true →
  every_settled (rb_actions b) ∧ none_ambiguous (rb_actions b).
Proof.
  rewrite forallb_btree_values. intros Hf. split; intros id a Ha; specialize (Hf _ _ Ha);
    apply andb_prop in Hf as [Hs Hn]; [done|].
  apply negb_true_iff, bool_decide_eq_false in Hn. done.
Qed.

Lemma rebuild_state g : restart_state (core g) (rebuild g).2.
Proof.
  unfold rebuild, restart_state. cbn [snd core k_journal].
  destruct (marker_present _ || _ || _) eqn:E; [by left|].
  apply orb_false_iff in E as [[_ Ht]%orb_false_iff Hi].
  destruct (forallb _ _) eqn:Hclean; [|by left]. case_bool_decide as Hs; [|by left].
  right. apply rebuild_settled in Hclean as [? ?]. done.
Qed.

Lemma restart_ksteps floor g : k_inv (core g) → ksteps (core g) (core (restart_with floor g).1).
Proof.
  intros Hk. unfold restart_with. pose proof (rebuild_state g) as Hs.
  destruct (rebuild g) as [g1 s1] eqn:Hr. cbn [fst snd] in *.
  match goal with |- ksteps _ (core (note ?r ?X)) => set (g2 := X) end.
  assert (S1 : kstep (core g) (core g2)).
  { assert (core g2 = k_with_state (if bool_decide (floor = Some State.Held) then State.Held else s1)
      (k_with_actions (rebuild_settle <$> rb_actions (rebuild_journal (k_journal (core g)))) (core g))) as ->.
    { unfold rebuild in Hr. by injection Hr as <- <-. }
    apply k_restart. case_bool_decide; [by left|done]. }
  eapply rtc_l; [exact S1|]. apply lsteps_ksteps, moves_note; [done|]. by eapply kstep_inv.
Qed.

(** *** Events *)

#[local] Hint Resolve follows_frame follows_accept follows_request follows_upstream follows_timeout : gate.
#[local] Hint Resolve follows_drain follows_expire follows_channel_lost follows_disconnect : gate.

Definition is_restart (event : Event.t) : bool := match event with Event.GateRestart => true | _ => false end.

Lemma follows_dispatch event g : is_restart event = false → follows g (dispatch event g).1.
Proof.
  intros He. destruct event; try done; cbn [dispatch always nothing fst]; auto with gate.
  - by apply follows_quiet.
  - apply follows_quiet. unfold core, journal. simpl. by rewrite fail_next_entries.
  - apply follows_quiet. unfold core, journal. simpl. by rewrite marker_fail_next_entries.
  - apply follows_quiet. unfold core, journal. simpl. by rewrite fail_after_entries.
  - by destruct (g_channel g).
  - case_bool_decide; [apply follows_fatal|done].
  - destruct (g_channel g); [done|apply follows_fatal|done].
Qed.

Lemma handle_unfold event g :
  (handle event g).1 = match (dispatch event g).2 with
                       | Err _ => (dispatch event g).1
                       | Ok _ => (settle_drain (dispatch event g).1).1
                       end.
Proof.
  unfold handle. destruct (dispatch event g) as [g1 [output|]]; [|done]. simpl.
  by destruct (settle_drain g1).
Qed.

Lemma follows_handle event g : is_restart event = false → follows g (handle event g).1.
Proof.
  intros He. rewrite handle_unfold. pose proof (follows_dispatch event g He).
  destruct (dispatch event g).2; [|done]. etrans; [done|]. apply follows_settle_drain.
Qed.

Lemma handle_ksteps event g : k_inv (core g) → ksteps (core g) (core (handle event g).1).
Proof.
  intros Hk. destruct (is_restart event) eqn:He; [|by apply lsteps_ksteps, follows_handle].
  destruct event; try done. rewrite handle_unfold. cbn [dispatch always fst snd].
  pose proof (restart_ksteps None g Hk) as S1. etrans; [exact S1|].
  apply lsteps_ksteps, follows_settle_drain. by eapply ksteps_inv.
Qed.

Lemma handle_inv event g : k_inv (core g) → k_inv (core (handle event g).1).
Proof. intros Hk. eapply ksteps_inv; [done|]. by apply handle_ksteps. Qed.
End Steps.
