(* ===== verification/GateSafety.v ===== *)
(** * Safety of the gate over all its runs

    A reachable gate is a new one, the process restart of a reachable gate's journal, or a
    reachable gate after one more event.  The theorems follow from [handle_ksteps] and the
    protocol's invariants: the journal is a legal run of the action protocol, a restart concludes
    what the memory knew, an open fence is final, the state only tightens, and nothing is ever
    consumed twice. *)

From S2P Require Import Prelude Sha256 Json Schema Frame Render Types Journal Observation Config.
From S2P Require Import Gate Protocol ProtocolProofs GateSteps.
From S2P Require Import Scenario.
Section Safety.
Context {St Ob : Type} {HS : Stores St} {HL : StoresLaws St} {HO : WorkerObserver Ob}.
Implicit Types (g : Gate St Ob).

(** [Gate::open] and [Gate::create] read a journal; [floor] is [write_floor]'s answer. *)
Inductive reachable : Gate St Ob → Prop :=
| reachable_new schema config stores observer g :
    with_stores_new schema config stores observer = Ok g → entries stores = [] → reachable g
| reachable_open g0 schema config stores observer g floor :
    reachable g0 → with_stores_new schema config stores observer = Ok g → entries stores = journal g0 →
    reachable (restart_with floor g).1
| reachable_handle g event : reachable g → reachable (handle event g).1.

(** The gate after a run of events. *)
Definition run_events (events : list Event.t) g : Gate St Ob := fold_left (λ g e, (handle e g).1) events g.

(** *** The invariant of every reachable gate *)

Lemma new_inv config state bound ids nonces :
  bound = None → ids = [] → nonces = [] →
  k_inv (mkCore config state bound ids nonces ∅ ∅ ∅ []).
Proof.
  intros -> -> ->. split; simpl; try done.
  - intros id. by rewrite !lookup_empty; constructor.
  - repeat constructor.
  - intros id verb digest uid template Hin. by apply elem_of_nil in Hin.
  - intros key _ (? & ? & ? & ? & ? & Hin & _). by apply elem_of_nil in Hin.
  - constructor.
Qed.

(** A process restart: bindings and actions from the journal, ledgers empty. *)
Lemma reopened_inv k config s :
  k_inv k → restart_state k s →
  k_inv (mkCore config s (k_bound k) (k_bound_ids k) (k_bound_nonces k)
           (rebuild_settle <$> rb_actions (rebuild_journal (k_journal k))) ∅ ∅ (k_journal k)).
Proof.
  intros Hk Hs. pose proof (kstep_inv _ _ Hk (k_restart _ _ Hs)) as Hk'. destruct Hk'. split; simpl in *; try done.
  - intros key Hr. destruct Hs as [->|(_ & [-> | ->] & _)]; simpl in Hr; lia.
Qed.

(** The gate between the rebuild and the RESTARTED record. *)
Definition restarting (floor : option State.t) g : Gate St Ob :=
  let '(g, rebuilt) := rebuild g in
  let g := with_state (if bool_decide (floor = Some State.Held) then State.Held else rebuilt) g in
  let g := with_connections (conn_close <$> g_connections g) g in
  let g := with_backlog [] g in
  let g := with_channel Channel.Closed g in
  with_drain_pending false g.

Lemma restart_with_note floor g :
  restart_with floor g =
  (let g1 := note (Rec.Restarted (g_state (restarting floor g))) (restarting floor g) in
   (g1, output_of (OutputKind.RestartState (g_state g1)))).
Proof. unfold restart_with, restarting. by destruct (rebuild g). Qed.

Lemma restarting_core floor g :
  ∃ s, restart_state (core g) s ∧ (floor = Some State.Held → s = State.Held) ∧
       core (restarting floor g) =
         k_with_state s (k_with_actions (rebuild_settle <$> rb_actions (rebuild_journal (journal g))) (core g)).
Proof.
  pose proof (rebuild_state g) as Hs. unfold restarting. destruct (rebuild g) as [g1 s] eqn:Hr. cbn [snd] in Hs.
  exists (if bool_decide (floor = Some State.Held) then State.Held else s). split_and!.
  - case_bool_decide; [by left|done].
  - intros ->. by rewrite bool_decide_eq_true_2.
  - unfold rebuild in Hr. by injection Hr as <- <-.
Qed.

Lemma restarting_step floor g : kstep (core g) (core (restarting floor g)).
Proof. destruct (restarting_core floor g) as (s & Hs & _ & ->). by apply (k_restart (core g)). Qed.

(** A restart leaves the generation decided and nothing in flight. *)
Lemma restart_state_rank k s : restart_state k s → (2 ≤ rank s)%nat.
Proof. intros [->|(_ & [-> | ->] & _)]; simpl; lia. Qed.

Lemma new_gate_inv schema config stores observer g :
  with_stores_new schema config stores observer = Ok g → entries stores = [] → k_inv (core g).
Proof.
  unfold with_stores_new. destruct schema; [|done]. intros [= <-] He.
  unfold core, journal. simpl. rewrite He. by apply new_inv.
Qed.

Lemma new_gate_journal schema config stores observer g :
  with_stores_new schema config stores observer = Ok g → journal g = entries stores.
Proof. unfold with_stores_new. destruct schema; [|done]. by intros [= <-]. Qed.

(** The process restart of a journal that a gate with the invariant left. *)
Lemma reopened_restarting k0 schema config stores observer g floor :
  k_inv k0 → with_stores_new schema config stores observer = Ok g → entries stores = k_journal k0 →
  k_inv (core (restarting floor g)).
Proof.
  intros Hk0 Hnew He. destruct (restarting_core floor g) as (s & Hs & _ & ->).
  assert (Hj : k_journal (core g) = k_journal k0) by (rewrite <-He; by eapply new_gate_journal).
  assert (Hs0 : restart_state k0 s) by (unfold restart_state in *; by rewrite <-Hj).
  pose proof (reopened_inv _ (g_config g) _ Hk0 Hs0) as Hk.
  destruct (inv_derived _ Hk0) as (Hb & Hi & Hn). rewrite <-He in Hb, Hi, Hn, Hk. rewrite <-Hb, <-Hi, <-Hn in Hk.
  unfold with_stores_new in Hnew. destruct schema; [|done]. injection Hnew as <-. exact Hk.
Qed.

Lemma reachable_inv g : reachable g → k_inv (core g).
Proof.
  induction 1 as [schema config stores observer g Hnew He|g0 schema config stores observer g floor _ IH Hnew He|g e _ IH].
  - by eapply new_gate_inv.
  - rewrite restart_with_note. cbn zeta. cbn [fst].
    pose proof (reopened_restarting _ _ _ _ _ _ floor IH Hnew He) as Hk.
    eapply follows_inv; [exact Hk|]. by apply moves_follows, moves_note.
  - by apply handle_inv.
Qed.
(** *** The journal *)

(** [C1] The journal of every reachable gate is a legal run of the action protocol: each record
    is one the protocol allows after the records before it. *)
Theorem journal_is_legal g : reachable g → legal_journal (journal g).
Proof. intros Hg. apply (inv_legal _ (reachable_inv _ Hg)). Qed.

Lemma kstep_journal k k' : kstep k k' → ∃ es, k_journal k' = k_journal k ++ es.
Proof.
  intros Hs. destruct Hs; simpl; eauto; try (exists []; by rewrite app_nil_r).
Qed.

Lemma ksteps_journal k k' : ksteps k k' → ∃ es, k_journal k' = k_journal k ++ es.
Proof.
  induction 1 as [k|k1 k2 k3 H12 _ [es IH]]; [exists []; by rewrite app_nil_r|].
  destruct (kstep_journal _ _ H12) as [es' He]. exists (es' ++ es). by rewrite IH, He, app_assoc.
Qed.

(** No event removes or rewrites a journal record. *)
Theorem journal_only_grows g event :
  reachable g → ∃ es, journal (handle event g).1 = journal g ++ es.
Proof. intros Hg. apply (ksteps_journal (core g) (core _)), handle_ksteps, reachable_inv, Hg. Qed.

(** *** Restart *)

(** What a restart must conclude about an action. *)
Definition concluded (a : Action) : option Classification.t :=
  match a_status a with
  | Status.Armed => Some Classification.NotForwarded
  | Status.Consumed => Some Classification.IoAmbiguous
  | Status.Terminal => a_classification a
  end.

Lemma replayed_concluded b a :
  replayed b a →
  a_classification (rebuild_settle b) = concluded a ∧ a_sealed (rebuild_settle b) = a_sealed a ∧
  a_status (rebuild_settle b) = Status.Terminal.
Proof.
  intros (_ & Hse & _ & Hb). unfold rebuild_settle, concluded.
  destruct (a_status b) eqn:Hs; cbn [act_after act_terminal act_classify act_status a_classification a_sealed a_status];
    (split; [|split; [done|done]]).
  - destruct Hb as [_ [[-> _]|[-> ->]]]; done.
  - destruct Hb as [_ [[-> _]|[-> ->]]]; done.
  - destruct Hb as (-> & -> & _). done.
Qed.

Lemma restart_keeps floor g : k_inv (core g) → keeps (restarting floor g) (restart_with floor g).1.
Proof.
  intros Hk. rewrite restart_with_note. cbn zeta. cbn [fst].
  apply moves_note; [done|]. eapply kstep_inv; [exact Hk|apply restarting_step].
Qed.

Lemma restarting_actions floor g :
  g_actions (restarting floor g) = rebuild_settle <$> rb_actions (rebuild_journal (journal g)).
Proof. unfold restarting, rebuild. done. Qed.

(** [C2] Crash safety: a restart, which sees only the journal, concludes about every action what
    the memory it lost knew: an armed action was not forwarded, a consumed one is ambiguous, and
    a classified one keeps its classification and its seal, even where a record of it could not
    be written. *)
Theorem restart_concludes floor g id a :
  reachable g → g_actions g !! id = Some a →
  ∃ a', g_actions (restart_with floor g).1 !! id = Some a' ∧ a_status a' = Status.Terminal ∧
        a_classification a' = concluded a ∧ a_sealed a' = a_sealed a.
Proof.
  intros Hg Ha. pose proof (reachable_inv _ Hg) as Hk.
  destruct (replay_Some_r _ _ _ Hk Ha) as (b & Hb & Hba).
  destruct (replayed_concluded _ _ Hba) as (Hc & Hse & Hst).
  destruct (proj1 (proj1 (restart_keeps floor g Hk)) id (rebuild_settle b)) as [after Ha'].
  - rewrite restarting_actions, lookup_fmap. change (journal g) with (k_journal (core g)). by rewrite Hb.
  - by rewrite Hst.
  - eexists. split; [exact Ha'|]. done.
Qed.

(** A restarted generation is CLOSED, INVALIDATED or HELD. *)
Theorem restart_never_reactivates floor g :
  reachable g →
  let s := g_state (restart_with floor g).1 in
  s = State.Closed ∨ s = State.Invalidated ∨ s = State.Held.
Proof.
  intros Hg. pose proof (reachable_inv _ Hg) as Hk. rewrite restart_with_note. cbn zeta. cbn [fst].
  set (g1 := restarting floor g).
  assert (Hk1 : k_inv (core g1)) by (eapply kstep_inv; [exact Hk|apply restarting_step]).
  destruct (moves_note g1 (Rec.Restarted (g_state g1)) eq_refl Hk1) as (S & _ & _).
  apply lsteps_rank in S. change (k_state (core ?x)) with (g_state x) in S.
  assert (Hr : (2 ≤ rank (g_state g1))%nat).
  { pose proof (rebuild_state g) as Hs. unfold g1, restarting.
    destruct (rebuild g) as [g2 s]. cbn [snd g_state with_drain_pending with_channel with_backlog with_connections with_state] in *.
    case_bool_decide; simpl; [lia|]. destruct Hs as [->|(_ & [-> | ->] & _)]; simpl; lia. }
  pose proof (Nat.le_trans _ _ _ Hr S) as Hr'. clear Hr S.
  destruct (g_state (note _ g1)); simpl in Hr'; auto; lia.
Qed.

(** [C34] Outside restarts, the generation only gets stricter; HELD is final. *)
Theorem state_only_tightens g event :
  reachable g → is_restart event = false →
  (rank (g_state g) ≤ rank (g_state (handle event g).1))%nat ∧
  (g_state g = State.Held → g_state (handle event g).1 = State.Held).
Proof.
  intros Hg He. pose proof (lsteps_rank _ _ (follows_handle event g He (reachable_inv _ Hg))) as Hr.
  change (k_state (core ?x)) with (g_state x) in Hr. split; [done|]. intros Hs. rewrite Hs in Hr.
  destruct (g_state (handle event g).1); simpl in Hr; auto; lia.
Qed.

(** *** The fence *)

(** Nothing is in flight and nothing can be forwarded any more. *)
Definition quiesced (k : Core) : Prop := (2 ≤ rank (k_state k))%nat ∧ none_in_flight (k_actions k).

Lemma kstep_quiesced k k' : quiesced k → kstep k k' → quiesced k'.
Proof.
  intros [Hr Hf] Hs.
  assert (Halter : ∀ i f, (∀ a, a_status a ≠ Status.Consumed → a_status (f a) ≠ Status.Consumed) →
    none_in_flight (alter f i (k_actions k))).
  { intros i f H id a (x & Hx & ->)%alter_Some. destruct (decide _); eauto. }
  assert (Hact : k_state k ≠ State.Active) by (intros E; rewrite E in Hr; simpl in Hr; lia).
  destruct Hs; try done; try (by split; [|apply Halter]).
  - split; [|done]. destruct H as [[Heq|Heq]| | |]; simpl; rewrite ?Heq in *; simpl in *; lia.
  - by destruct (Hf _ _ H).
  - by destruct (armable_active _ _ _ _ _ _ H).
  - split.
    + destruct H as [->|(_ & [-> | ->] & _)]; simpl; lia.
    + intros id a Ha. simpl in Ha. rewrite lookup_fmap, fmap_Some in Ha. destruct Ha as (b & _ & ->).
      unfold rebuild_settle. destruct (a_status b) eqn:Hb; simpl; congruence.
Qed.

Lemma ksteps_quiesced k k' : quiesced k → ksteps k k' → quiesced k'.
Proof. intros Hq Hs. induction Hs; eauto using kstep_quiesced. Qed.

Lemma fence_decided g : fence g ≠ DrainAnswer.Pending → g_state g = State.Held ∨ quiesced (core g).
Proof.
  unfold fence. case_bool_decide; [by left|]. intros Hf. right.
  destruct (negb _ || _) eqn:E; [done|]. apply orb_false_iff in E as [E1 E2].
  apply negb_false_iff, bool_decide_eq_true in E1. apply bool_decide_eq_false in E2.
  split; [|by apply in_flight_None, eq_None_not_Some]. destruct E1 as [Hs|Hs]; simpl; rewrite Hs; simpl; lia.
Qed.

Lemma none_in_flight_None g : none_in_flight (g_actions g) → in_flight g = None.
Proof.
  intros Hf. unfold in_flight. apply find_None_btree. intros id a Ha.
  apply bool_decide_eq_false_2. by eapply Hf.
Qed.

Lemma quiesced_fence g : quiesced (core g) → fence g = DrainAnswer.Open ∨ fence g = DrainAnswer.Held.
Proof.
  intros [Hr Hf]. unfold fence. case_bool_decide as Hs; [by right|]. left.
  rewrite (none_in_flight_None _ Hf). rewrite bool_decide_eq_false_2 by by intros [? [=]].
  unfold is_closed_or_invalidated. simpl in Hr.
  rewrite bool_decide_eq_true_2; [done|]. destruct (g_state g); simpl in *; try lia; auto; done.
Qed.

Lemma run_events_ksteps events g : k_inv (core g) → ksteps (core g) (core (run_events events g)).
Proof.
  revert g. induction events as [|e events IH]; intros g Hk; [constructor|]. simpl.
  etrans; [by apply handle_ksteps|]. apply IH. by apply handle_inv.
Qed.

(** [C5] An open fence is final: after any further events, restarts included, the fence is OPEN or
    HELD, nothing is in flight, and the generation is not ACTIVE. *)
Theorem open_fence_is_final g events :
  reachable g → fence g = DrainAnswer.Open →
  let g' := run_events events g in
  (fence g' = DrainAnswer.Open ∨ fence g' = DrainAnswer.Held) ∧
  in_flight g' = None ∧ g_state g' ≠ State.Active.
Proof.
  intros Hg Hf. cbn zeta.
  assert (Hq : quiesced (core g)).
  { destruct (fence_decided g) as [Hs|]; [congruence| |done]. unfold fence in Hf. by rewrite Hs in Hf. }
  assert (Hq' : quiesced (core (run_events events g))).
  { eapply ksteps_quiesced; [done|]. apply run_events_ksteps, reachable_inv, Hg. }
  split; [by apply quiesced_fence|]. split; [by apply none_in_flight_None, Hq'|].
  destruct Hq' as [Hr _]. simpl in Hr. intros Hs. rewrite Hs in Hr. simpl in Hr. lia.
Qed.
End Safety.

(** * What the gate forwards, relays and refuses

    The connection side of the gate: exactly when a request is forwarded and what forwarding
    leaves behind, what an upstream answer does, that a storage failure and a fatal channel
    failure fail closed, and that a refused event changes nothing. *)

Section Requests.
Context {St Ob : Type} {HS : Stores St} {HL : StoresLaws St} {HO : WorkerObserver Ob}.
Implicit Types (g : Gate St Ob).

(** *** Journal writes *)

Lemma record_answer g r : (record g r).2 = bool_decide ((append (g_stores g) r).2 = Appended.Durable).
Proof.
  unfold record. cbn [record_fuel]. unfold attempt. destruct (append (g_stores g) r) as [s a]. simpl.
  by case_bool_decide.
Qed.

Lemma record_durable g r :
  (append (g_stores g) r).2 = Appended.Durable →
  record g r = (with_stores (append (g_stores g) r).1 g, true).
Proof.
  intros Ha. unfold record. cbn [record_fuel]. unfold attempt.
  destruct (append (g_stores g) r) as [s a]. simpl in *. by subst a.
Qed.

Lemma record_failed g r :
  (append (g_stores g) r).2 ≠ Appended.Durable →
  record g r = (storage_failure_with (record_fuel 1) (with_stores (append (g_stores g) r).1 g), false).
Proof.
  intros Ha. unfold record. cbn [record_fuel]. unfold attempt.
  destruct (append (g_stores g) r) as [s a]. simpl in *. by rewrite bool_decide_eq_false_2 by done.
Qed.

(** One level of nesting is all there is: with the [failing] flag set no failure path runs. *)
Lemma record_fuel_failing n m g r : g_failing g = true → record_fuel n g r = record_fuel m g r.
Proof.
  intros Hf. destruct n as [|n], m as [|m]; cbn [record_fuel]; unfold attempt;
    destruct (append (g_stores g) r) as [s a]; destruct (bool_decide _); try done;
    unfold storage_failure_with; cbn [g_failing with_stores]; by rewrite Hf.
Qed.

Definition keeps_failing (rec : Gate St Ob → Rec.t → Gate St Ob * bool) : Prop :=
  ∀ g r, g_failing g = true → g_failing (rec g r).1 = true.

Lemma record_fuel_keeps_failing n : keeps_failing (record_fuel n).
Proof.
  intros g r Hf. rewrite (record_fuel_failing n 0) by done. cbn [record_fuel]. unfold attempt.
  destruct (append (g_stores g) r) as [s a]. by destruct (bool_decide _).
Qed.

Lemma deny_armed_with_ext rec rec' g :
  (∀ g r, g_failing g = true → rec g r = rec' g r) → keeps_failing rec → g_failing g = true →
  deny_armed_with rec g = deny_armed_with rec' g.
Proof.
  intros He Hk. unfold deny_armed_with. generalize (armed_ids g) as ids. intros ids. revert g.
  induction ids as [|id ids IH]; intros g Hf; [done|]. cbn [fold_left].
  destruct (action_has Status.Armed g id); [|by apply IH].
  set (g1 := update_action id _ _).
  assert (Hf1 : g_failing g1 = true) by (unfold g1; simpl; by destruct (stamp_of g id)).
  rewrite <-He by done. apply IH. by apply Hk.
Qed.

Lemma storage_failure_with_ext n m g : storage_failure_with (record_fuel n) g = storage_failure_with (record_fuel m) g.
Proof.
  unfold storage_failure_with. destruct (g_failing g); [done|].
  set (g1 := with_stores _ _).
  assert (Hf : g_failing g1 = true).
  { unfold g1, mark_in_flight_after_invalidation. simpl. by destruct (in_flight _). }
  rewrite (record_fuel_failing n m) by done.
  rewrite (deny_armed_with_ext (record_fuel n) (record_fuel m)); [done|..].
  - intros. by apply record_fuel_failing.
  - apply record_fuel_keeps_failing.
  - by apply record_fuel_keeps_failing.
Qed.

(** The bounded [record] is the source's: any greater bound gives the same gate and answer,
    and it satisfies the mutual recursion of [record] and [storage_failure]. *)
Theorem record_is_the_recursion g r :
  (∀ n, record_fuel (S n) g r = record g r) ∧
  record g r = (let '(g, durable) := attempt g r in
                if durable then (g, true) else (storage_failure g, false)).
Proof.
  assert (He : ∀ n m, record_fuel (S n) g r = record_fuel (S m) g r).
  { intros n m. cbn [record_fuel]. destruct (attempt g r) as [g1 []]; [done|].
    by rewrite (storage_failure_with_ext n m). }
  split; [intros n; apply He|].
  unfold record at 1. cbn [record_fuel]. destruct (attempt g r) as [g1 []]; [done|].
  unfold storage_failure. f_equal. exact (storage_failure_with_ext 1 2 g1).
Qed.

(** A record that cannot be made durable fails closed: the generation is HELD and no action
    is left armed. *)
Theorem failed_record_holds g r :
  k_inv (core g) → g_failing g = false → (record g r).2 = false →
  let g' := (record g r).1 in
  g_state g' = State.Held ∧ g_failing g' = false ∧ ∀ id, action_has Status.Armed g' id = false.
Proof.
  intros Hk Hf Hr. cbn zeta.
  destruct (attempt_cases g r) as [(s & Ha & He)|(s & torn & Ha & He)].
  { unfold record in Hr. cbn [record_fuel] in Hr. by rewrite Ha in Hr. }
  unfold record. cbn [record_fuel]. rewrite Ha. cbn [fst].
  pose proof (follows_inv _ _ Hk (follows_failed s g torn He)) as Hk1.
  set (g1 := with_stores s g) in *. unfold storage_failure_with. change (g_failing g1) with (g_failing g). rewrite Hf.
  set (g2 := with_stores _ (mark_in_flight_after_invalidation _)).
  set (r' := Rec.Invalidated _ _).
  assert (M2 : moves (with_failing true g1) g2).
  { etrans; [apply moves_hold|]. etrans; [apply moves_mark|]. apply moves_write_marker. }
  assert (Hst : g_state g2 = State.Held).
  { unfold g2, mark_in_flight_after_invalidation. simpl. by destruct (in_flight _). }
  destruct (M2 Hk1) as (S2 & _ & _).
  assert (Hk2 : k_inv (core g2)) by by eapply lsteps_inv; [exact Hk1|].
  destruct (writes_record_fuel 1 g2 r' (eq_sym Hst) Hk2) as (S3 & _ & _).
  set (g3 := (record_fuel 1 g2 r').1) in *.
  assert (Hk3 : k_inv (core g3)) by by eapply lsteps_inv.
  destruct (deny_armed_with_moves _ g3 (writes_record_fuel 1) Hk3) as (S4 & _ & _).
  split; [|split; [done|]].
  - pose proof (lsteps_rank _ _ S3) as R3. pose proof (lsteps_rank _ _ S4) as R4.
    apply rank_held. etrans; [|exact R4]. etrans; [|exact R3]. by rewrite <-Hst.
  - intros id. exact (deny_armed_with_none _ g3 (writes_record_fuel 1) Hk3 id).
Qed.
(** *** Forwarding *)

Lemma settle_idle g : g_drain_pending g = false → settle_drain g = (g, None).
Proof. intros Hd. unfold settle_drain. by rewrite Hd. Qed.

(** The gate once a request was counted on its connection. *)
Definition counted conn c g : Gate St Ob := with_connections (<[conn := conn_count c]> (g_connections g)) g.

(** The gate after a durable CONSUMED record. *)
Definition consumed conn id g : Gate St Ob :=
  let g := with_stores (append (g_stores g) (Rec.Consumed id)).1 g in
  let g := update_action id (λ a, act_after false (act_conn (Some conn) (act_status Status.Consumed a))) g in
  let g := update_connection conn conn_consume g in
  let g := with_counters (count_consumption (g_counters g)) g in
  close_unconsumed_stamped (stamp_of g id) g.

Lemma consume_durable conn id g :
  (append (g_stores g) (Rec.Consumed id)).2 = Appended.Durable →
  consume conn id g = (consumed conn id g, Some (output_of (OutputKind.Forward id))).
Proof. intros Ha. unfold consume. by rewrite record_durable. Qed.

Lemma consume_failed conn id g :
  (append (g_stores g) (Rec.Consumed id)).2 ≠ Appended.Durable → (consume conn id g).2 = None.
Proof. intros Ha. unfold consume. by rewrite record_failed. Qed.

Lemma consumed_drain conn id g : g_drain_pending (consumed conn id g) = g_drain_pending g.
Proof. unfold consumed. cbn zeta. by destruct (stamp_of _ id). Qed.

Lemma request_forwarded conn certificate head body_digest g c id :
  g_connections g !! conn = Some c →
  admissible g (cn_open c) (sat_add_u64 (cn_requests c) 1) (cn_stamp c) certificate head body_digest id →
  (append (g_stores g) (Rec.Consumed id)).2 = Appended.Durable →
  handle (Event.Request conn certificate head body_digest) g =
    (consumed conn id (counted conn c g), Ok (output_of (OutputKind.Forward id))).
Proof.
  intros Hc Had Ha. unfold handle. cbn [dispatch]. unfold request. rewrite Hc.
  fold (counted conn c g). set (g1 := counted conn c g).
  assert (Had1 : admissible g1 (cn_open (conn_count c)) (cn_requests (conn_count c)) (cn_stamp (conn_count c))
                   certificate head body_digest id) by exact Had.
  rewrite (proj2 (admit_Ok g1 _ _ _ _ _ _ _) Had1).
  rewrite consume_durable by exact Ha. cbn beta iota zeta.
  destruct Had as (? & ? & ? & ? & ? & ? & _ & _ & _ & Hd & _).
  rewrite settle_idle; [done|]. by rewrite consumed_drain.
Qed.

Lemma forward_admitted conn certificate head body_digest g id :
  (∃ out, (handle (Event.Request conn certificate head body_digest) g).2 = Ok out ∧ o_kind out = OutputKind.Forward id) →
  ∃ c, g_connections g !! conn = Some c ∧
       admissible g (cn_open c) (sat_add_u64 (cn_requests c) 1) (cn_stamp c) certificate head body_digest id ∧
       (append (g_stores g) (Rec.Consumed id)).2 = Appended.Durable.
Proof.
  intros (out & Hout & Hkind).
  assert (Hd : (request conn certificate head body_digest g).2 = Ok out ∨
               ∃ out', (request conn certificate head body_digest g).2 = Ok out' ∧ o_kind out' = o_kind out).
  { unfold handle in Hout. cbn [dispatch] in Hout.
    destruct (request _ _ _ _ g) as [g1 [out'|]]; [|done]. destruct (settle_drain g1) as [g2 [answer|]];
      injection Hout as <-; [right; by exists out'|by left]. }
  assert (Hd' : ∃ out', (request conn certificate head body_digest g).2 = Ok out' ∧ o_kind out' = OutputKind.Forward id).
  { destruct Hd as [Hd|(out' & Hd & He)]; [by exists out|exists out'; split; [done|congruence]]. }
  clear out Hout Hkind Hd. destruct Hd' as (out & Hout & Hkind).
  unfold request in Hout. destruct (g_connections g !! conn) as [c|]; [|done].
  exists c. split; [done|]. fold (counted conn c g) in Hout. set (g1 := counted conn c g) in *.
  destruct (admit_request g1 _ _ _ _ _ _) as [id'|refusal] eqn:Had.
  + destruct (decide ((append (g_stores g) (Rec.Consumed id')).2 = Appended.Durable)) as [Hdur|Hdur].
    * rewrite consume_durable in Hout by exact Hdur. cbn in Hout. injection Hout as <-.
      injection Hkind as <-. split; [|done]. by apply admit_Ok in Had.
    * pose proof (consume_failed conn id' g1 Hdur) as Hn. destruct (consume conn id' g1) as [g2 o].
      simpl in Hn. subst o. cbn in Hout. by injection Hout as <-.
  + cbn in Hout. by injection Hout as <-.
Qed.

Lemma consumed_journal conn id g :
  (append (g_stores g) (Rec.Consumed id)).2 = Appended.Durable →
  journal (consumed conn id g) = journal g ++ [Entry.Record_ (Rec.Consumed id)].
Proof.
  intros Ha. unfold journal. replace (g_stores (consumed conn id g)) with (append (g_stores g) (Rec.Consumed id)).1.
  - by rewrite append_entries, Ha.
  - unfold consumed. cbn zeta. by destruct (stamp_of _ id).
Qed.

(** [C3] The gate forwards a request exactly when every admission rule holds and its CONSUMED record is
    durable: an execution is bound and unexpired, the generation is ACTIVE with no drain waiting and
    an open channel, the connection is open, on its first request and stamped for the armed
    action, the client certificate is the run's, and the head and body digest are byte for byte
    the rendered request. *)
Theorem forwards_iff_admissible conn certificate head body_digest g id :
  (∃ out, (handle (Event.Request conn certificate head body_digest) g).2 = Ok out ∧
          o_kind out = OutputKind.Forward id) ↔
  ∃ c, g_connections g !! conn = Some c ∧
       admissible g (cn_open c) (sat_add_u64 (cn_requests c) 1) (cn_stamp c) certificate head body_digest id ∧
       (append (g_stores g) (Rec.Consumed id)).2 = Appended.Durable.
Proof.
  split.
  - apply forward_admitted.
  - intros (c & Hc & Had & Ha). rewrite (request_forwarded _ _ _ _ _ _ _ Hc Had Ha). eauto.
Qed.

Lemma consumed_connection conn id g j :
  g_connections (consumed conn id g) !! j =
  (λ c, if cn_open c && (bool_decide (cn_stamp c = stamp_of g id) && negb (cn_consumed c))
           && bool_decide (is_Some (stamp_of g id))
        then conn_close c else c)
  <$> alter conn_consume conn (g_connections g) !! j.
Proof.
  unfold consumed. cbn zeta. change (stamp_of (with_counters _ _) id) with (stamp_of g id).
  destruct (stamp_of g id) as [s|]; cbn [close_unconsumed_stamped].
  - unfold close_connections. cbn [fst with_counters with_connections g_connections]. rewrite lookup_fmap.
    cbn [update_connection with_counters with_connections g_connections update_action with_actions with_stores].
    destruct (alter conn_consume conn (g_connections g) !! j) as [c|]; [|done]. cbn [fmap option_fmap option_map].
    by rewrite andb_true_r.
  - cbn [update_connection with_counters with_connections g_connections update_action with_actions with_stores].
    destruct (alter conn_consume conn (g_connections g) !! j) as [c|]; [|done]. cbn [fmap option_fmap option_map].
    by rewrite andb_false_r.
Qed.

(** [C4] What forwarding leaves behind: one CONSUMED record, written before the request goes out;
    the action consumed by this connection; and every other connection stamped for the same
    action closed unless it consumed an action itself. *)
Theorem forward_consumes conn certificate head body_digest g c id a :
  reachable g → g_connections g !! conn = Some c →
  admissible g (cn_open c) (sat_add_u64 (cn_requests c) 1) (cn_stamp c) certificate head body_digest id →
  (append (g_stores g) (Rec.Consumed id)).2 = Appended.Durable →
  g_actions g !! id = Some a →
  let g' := (handle (Event.Request conn certificate head body_digest) g).1 in
  journal g' = journal g ++ [Entry.Record_ (Rec.Consumed id)] ∧
  (∃ a', g_actions g' !! id = Some a' ∧ a_status a' = Status.Consumed ∧ a_conn a' = Some conn) ∧
  ∀ conn' c', conn' ≠ conn → g_connections g' !! conn' = Some c' → cn_stamp c' = cn_stamp c →
    cn_open c' = false ∨ cn_consumed c' = true.
Proof.
  intros Hg Hc Had Ha Hact. rewrite (request_forwarded _ _ _ _ _ _ _ Hc Had Ha). cbn zeta. cbn [fst].
  set (g1 := counted conn c g). split; [|split].
  - by apply (consumed_journal conn id g1).
  - exists (act_after false (act_conn (Some conn) (act_status Status.Consumed a))). split; [|done].
    replace (g_actions (consumed conn id g1))
      with (alter (λ a, act_after false (act_conn (Some conn) (act_status Status.Consumed a))) id (g_actions g)).
    + by rewrite lookup_alter_eq, Hact.
    + unfold consumed. cbn zeta. by destruct (stamp_of _ id).
  - intros conn' c' Hne Hc' Hst.
    assert (Hstamp : stamp_of g1 id = cn_stamp c).
    { destruct Had as (bound & s & a' & run & armed & manifest & _ & _ & _ & _ & _ & Hb & _ & Hs & He & Hact' & _ & Hid & _).
      unfold stamp_of. change (g_bound g1) with (g_bound g). rewrite Hb, Hs. simpl. f_equal.
      destruct s as [e i]. simpl in *. f_equal; [done|]. rewrite <-Hid.
      apply (inv_ids _ (reachable_inv _ Hg) _ _ Hact'). }
    assert (Hsome : is_Some (stamp_of g1 id)).
    { rewrite Hstamp. destruct Had as (? & s & ? & ? & ? & ? & _ & _ & _ & _ & _ & _ & _ & -> & _). eauto. }
    rewrite consumed_connection, lookup_alter_ne in Hc' by done.
    apply fmap_Some in Hc' as (c0 & _ & ->). rewrite (bool_decide_eq_true_2 _ Hsome), andb_true_r in *.
    destruct (cn_open c0 && _) eqn:E; [by left|].
    apply andb_false_iff in E as [E|E]; [by left|]. apply andb_false_iff in E as [E|E].
    + apply bool_decide_eq_false in E. rewrite Hstamp in E. congruence.
    + right. by apply negb_false_iff in E.
Qed.

(** *** Refused events *)

(** An event outside the gate's preconditions changes nothing. *)
Lemma refused_event event g error :
  (handle event g).2 = Err error → (handle event g).1 = g.
Proof.
  assert (Hd : ∀ e, (dispatch event g).2 = Err e → (dispatch event g).1 = g).
  { destruct event; cbn [dispatch always nothing]; try done; intros e.
    - unfold accept. destruct (negb _); [done|]. by case_match.
    - unfold request. destruct (g_connections g !! conn) as [c|]; [|done].
      destruct (match admit_request _ _ _ _ _ _ _ with Ok _ => _ | Err _ => _ end) as [g1 [output|refusal]]; [done|].
      by destruct (ConnectionRefusal.is_correlation refusal).
    - unfold upstream. destruct (let* id := _ in _) as [[id a]|]; [|done].
      destruct (has_status _ a); [done|]. destruct (classify_upstream _ _) as [[c d] dl].
      by destruct (record _ _).
    - unfold upstream. destruct (let* id := _ in _) as [[id a]|]; [|done].
      destruct (has_status _ a); [done|]. destruct (classify_upstream _ _) as [[c d] dl].
      by destruct (record _ _).
    - unfold timeout. by destruct (forwarded_on g conn true).
    - by destruct (g_channel g).
    - by case_bool_decide.
    - by destruct (g_channel g).
    - unfold disconnect. destruct (g_connections g !! conn); [|done]. by case_match. }
  unfold handle. destruct (dispatch event g) as [g1 [output|e]] eqn:Hdis; simpl in Hd.
  - by destruct (settle_drain g1).
  - intros _. simpl. by eapply Hd.
Qed.

(** *** Fatal failures *)

Lemma fatal_spec reason g :
  k_inv (core g) →
  g_state (fatal reason g).1 = State.Held ∧ g_channel (fatal reason g).1 = Channel.Closed ∧
  ∀ id, action_has Status.Armed (fatal reason g).1 id = false.
Proof.
  intros Hk. split; [done|]. destruct (fatal_moves reason g Hk) as (_ & _ & Ho).
  split; [by injection Ho|]. intros id. unfold fatal, urgent. cbn zeta. cbn [fst].
  set (g1 := if bool_decide _ then _ else _). set (g2 := mark_in_flight_after_invalidation g1).
  assert (M : moves (with_channel Channel.Closed g) (note (Rec.Invalidated (Invalidation.Fatal reason) (g_state g2)) g2)).
  { trans g1; [unfold g1; case_bool_decide; [done|apply moves_hold]|].
    etrans; [apply moves_mark|]. by apply moves_note. }
  destruct (M Hk) as (S & _ & _). pose proof (lsteps_inv _ _ (Hk : k_inv (core (with_channel Channel.Closed g))) S) as Hk'.
  exact (deny_armed_with_none _ _ (writes_record_fuel 2) Hk' id).
Qed.
End Requests.
