(* ===== verification/GateFrames.v ===== *)
(** * The I05 channel: frames, their chain, and fatal closes

    Which frames the gate answers, what the answer carries, that the frame chain admits no replay
    and no reordering, and that the channel, once closed, stays closed. *)

From S2P Require Import Prelude Sha256 Json Schema Frame Render Types Journal Observation Config.
From S2P Require Import Gate Protocol ProtocolProofs GateSteps GateSafety Scenario.
Section Frames.
Context {St Ob : Type} {HS : Stores St} {HL : StoresLaws St} {HO : WorkerObserver Ob}.
Implicit Types (g : Gate St Ob).

(** The channel's own state. *)
Definition wire g := (g_channel g, g_challenge g, g_next_sequence g, g_last_digest g, g_schema g).

Lemma moves_wire g g' : moves g g' → k_inv (core g) → wire g' = wire g.
Proof. intros Hm Hk. destruct (Hm Hk) as (_ & _ & Ho). unfold outer, wire in *. congruence. Qed.

Lemma record_wire g r : k_inv (core g) → wire (record g r).1 = wire g.
Proof.
  intros Hk. destruct (record_cases g r) as [(s & -> & _)|(g' & -> & Hm)]; [done|]. by apply moves_wire.
Qed.

Lemma note_wire g r : k_inv (core g) → wire (note r g) = wire g.
Proof. apply record_wire. Qed.

Lemma deny_armed_wire g : k_inv (core g) → wire (deny_armed g) = wire g.
Proof. apply moves_wire, moves_deny_armed. Qed.

Lemma urgent_wire s reason g :
  s = State.Held ∨ s = State.Invalidated ∧ (rank (g_state g) ≤ 1)%nat → k_inv (core g) →
  wire (urgent s reason g) = wire g.
Proof. intros Hs. by apply moves_wire, moves_urgent. Qed.

Lemma close_unconsumed_wire stamp g : wire (close_unconsumed_stamped stamp g) = wire g.
Proof. by destruct stamp. Qed.

Lemma flush_backlog_wire n g : wire (flush_backlog g n).1 = wire g.
Proof.
  unfold flush_backlog. change (wire g) with (wire (with_backlog [] g)).
  generalize (with_backlog [] g) as g0. revert n. induction (g_backlog g) as [|conn l IH]; intros n g0; [done|].
  cbn [fold_left]. by rewrite IH.
Qed.

Lemma bind_wire p g payload :
  k_inv (core g) → (bind p g).2 = Reply.Payload payload → wire (bind p g).1 = wire g.
Proof.
  intros Hk. unfold bind. destruct (negb _); [by destruct (fatal _ g)|].
  destruct (negb _); [done|]. destruct (negb _); [done|]. destruct (_ || _); [done|].
  destruct (negb _); [done|]. destruct (c_runs _ !! _) as [run|]; [|done].
  destruct (_ || _); [done|]. destruct (negb _); [done|]. destruct (_ || _); [done|].
  destruct (observe _ _ _) as [observer observation]. destruct (negb _); [done|].
  match goal with |- context [record ?g1 ?r] => pose proof (record_wire g1 r Hk) as Hw;
    destruct (record g1 r) as [g2 []] end; done.
Qed.

Lemma arm_wire p g : k_inv (core g) → wire (arm p g).1 = wire g.
Proof.
  intros Hk. unfold arm. destruct (negb _); [done|]. destruct (g_bound g) as [b|]; [|done].
  destruct (negb _); [done|]. destruct (g_expired g); [done|]. destruct (negb _); [done|].
  destruct (negb _); [done|].
  match goal with |- context [if ?b then c_manifests ?c !! ?d else None] =>
    destruct (if b then c_manifests c !! d else None) as [manifest|]; [|done] end.
  destruct (negb _); [done|]. destruct (_ && _); [done|]. destruct (negb _); [done|].
  match goal with |- context [if (match mutation_key p with Some k => @?f k | None => false end) then _ else _] =>
    destruct (match mutation_key p with Some k => f k | None => false end); [done|] end.
  destruct (close_connections _ g) as [g1 n] eqn:E1.
  assert (W1 : wire g1 = wire g) by (by injection E1 as <- <-).
  assert (C1 : core g1 = core g) by (by injection E1 as <- <-).
  pose proof (flush_backlog_wire n g1) as W2. pose proof (flush_backlog_core g1 n) as C2.
  destruct (flush_backlog g1 n) as [g2 n2]. cbn [fst] in *.
  assert (Hk2 : k_inv (core g2)) by by rewrite C2, C1.
  match goal with |- context [record ?g1 ?r] => pose proof (record_wire g1 r Hk2) as Hw;
    destruct (record g1 r) as [g3 []] end; cbn [negb fst] in *; [|congruence].
  rewrite <-W1, <-W2, <-Hw. by destruct (mutation_key p).
Qed.

Lemma seal_step_wire id status conn g : wire (seal_step id status conn g) = wire g.
Proof. destruct status; simpl; [by destruct (stamp_of g id)|by destruct conn|done]. Qed.

Lemma outcome_wire x id g : k_inv (core g) → wire (outcome x id g).1 = wire g.
Proof.
  intros Hk. unfold outcome. destruct (negb _); [done|]. destruct (g_actions g !! id) as [a|] eqn:Ha; [|done].
  destruct (a_sealed a); [done|]. destruct (seal_step_spec g id a Hk Ha) as (F & _).
  pose proof (follows_inv _ _ Hk F) as Hk1. rewrite <-(seal_step_wire id (a_status a) (a_conn a) g).
  set (g1 := seal_step _ _ _ g) in *. destruct (g_actions g1 !! id) as [a1|]; [|done].
  match goal with |- context [record ?g1 ?r] => pose proof (record_wire g1 r Hk1) as Hw;
    destruct (record g1 r) as [g2 []] end; cbn [negb fst] in *; [|congruence].
  rewrite <-Hw. by case_match.
Qed.

Lemma close_wire reason g : k_inv (core g) → wire (close reason g).1 = wire g.
Proof.
  intros Hk. unfold close. destruct (bool_decide (g_state g = State.Closed ∨ _)) eqn:Hst;
    [|destruct (bool_decide (reason = CloseReason.NormalDrain))].
  - cbn [fst]. set (g1 := if _ && _ then _ else g).
    assert (M : moves g g1).
    { unfold g1. destruct (_ && _); [|done]. etrans; [apply moves_hold|]. by apply moves_note. }
    rewrite (moves_wire g1); [by apply moves_wire|apply moves_deny_armed|].
    eapply follows_inv; [done|by apply moves_follows].
  - apply bool_decide_eq_false in Hst. case_bool_decide as Hf; [done|]. cbn [fst].
    assert (Hr : (rank (g_state g) ≤ 1)%nat) by (destruct (g_state g); simpl; try lia; tauto).
    assert (M : moves g (note (Rec.Closed reason (g_state (with_state (closed_state g) g))) (with_state (closed_state g) g))).
    { etrans; [apply moves_tighten, tightens_closed_state; [done|by apply eq_None_not_Some]|]. by apply moves_note. }
    rewrite deny_armed_wire; [by apply moves_wire|]. eapply follows_inv; [done|by apply moves_follows].
  - cbn [fst]. apply bool_decide_eq_false in Hst. apply urgent_wire; [|done].
    assert (Hr : (rank (g_state g) ≤ 1)%nat) by (destruct (g_state g); simpl; try lia; tauto).
    case_bool_decide; auto.
Qed.

Lemma perform_wire request g payload :
  k_inv (core g) → (perform request g).2 = Reply.Payload payload → wire (perform request g).1 = wire g.
Proof.
  intros Hk. destruct request; cbn [perform].
  - done.
  - by apply bind_wire.
  - intros _. by apply arm_wire.
  - intros _. by apply outcome_wire.
  - intros _. pose proof (close_wire reason g Hk) as Hw. by destruct (close reason g).
Qed.

Lemma perform_fatal request g output :
  k_inv (core g) → (perform request g).2 = Reply.Fatal output →
  (perform request g) = ((fatal FatalReason.PeerQualificationMismatch g).1, Reply.Fatal output) ∧
  output = (fatal FatalReason.PeerQualificationMismatch g).2.
Proof.
  intros Hk. destruct request; cbn [perform]; try done.
  - unfold bind. destruct (negb _).
    { destruct (fatal _ g) as [g1 o]. by intros [= <-]. }
    destruct (negb _); [done|]. destruct (negb _); [done|]. destruct (_ || _); [done|].
    destruct (negb _); [done|]. destruct (c_runs _ !! _) as [run|]; [|done].
    destruct (_ || _); [done|]. destruct (negb _); [done|]. destruct (_ || _); [done|].
    destruct (observe _ _ _) as [observer observation]. destruct (negb _); [done|].
    destruct (record _ _) as [g2 []]; done.
  - unfold arm. destruct (negb _); [done|]. destruct (g_bound g) as [b|]; [|done].
    destruct (negb _); [done|]. destruct (g_expired g); [done|]. destruct (negb _); [done|].
    destruct (negb _); [done|].
  match goal with |- context [if ?b then c_manifests ?c !! ?d else None] =>
    destruct (if b then c_manifests c !! d else None) as [manifest|]; [|done] end.
    destruct (negb _); [done|]. destruct (_ && _); [done|]. destruct (negb _); [done|].
    match goal with |- context [if (match mutation_key p with Some k => @?f k | None => false end) then _ else _] =>
    destruct (match mutation_key p with Some k => f k | None => false end); [done|] end.
    destruct (close_connections _ g) as [g1 n]. destruct (flush_backlog g1 n) as [g2 n2].
    destruct (record g2 _) as [g3 []]; done.
  - unfold outcome. destruct (negb _); [done|]. destruct (g_actions g !! action_id); [|done].
    destruct (a_sealed _); [done|]. destruct (_ !! action_id); [|done].
    destruct (record _ _) as [g2 []]; [|done]. cbn [negb snd]. by case_match.
  - by destruct (close reason g).
Qed.
(** *** Answers *)

(** The checks a frame passes before its operation runs. *)
Record in_order g (e : Envelope) : Prop := {
  order_direction : e_direction e = "BROKER_TO_GATE";
  order_parity : Z.rem (e_sequence e) 2 = 1;
  order_sequence : e_sequence e = g_next_sequence g;
  order_previous : e_previous e = g_last_digest g;
  order_generation : e_generation e = c_generation (g_config g);
  order_opening : g_channel g = Channel.Unopened → e_operation e = "GENERATION_STATUS";
  order_challenge : g_channel g = Channel.Open → g_challenge g = Some (e_challenge e);
}.

(** The response frame and the chain state after it. *)
Definition answered (g' : Gate St Ob) (e : Envelope) (encoded : list Z) (payload : Doc) (out : Output) : Prop :=
  ∃ bytes, out = mkOutput (OutputKind.Response payload) None (Some bytes) ∧
    check_frame_encoded (doc_to_value (response_doc g' (e_sequence e) encoded (e_operation e) payload)) (g_schema g')
      = Ok bytes ∧
    g_channel g' = Channel.Open ∧ g_challenge g' = Some (e_challenge e) ∧
    g_next_sequence g' = sat_add_i64 (e_sequence e) 2 ∧ g_last_digest g' = prefixed bytes.

Inductive frame_result g (input : FrameInput.t) : Gate St Ob * Output → Prop :=
| frame_refused : g_channel g = Channel.Closed →
    frame_result g input (g, output_of (OutputKind.RefusedChannel ChannelRefusal.GenerationChannelUsed))
| frame_fatal g0 reason : follows g g0 → g_channel g ≠ Channel.Closed → frame_result g input (fatal reason g0)
| frame_answered g' out value encoded e payload :
    g_channel g ≠ Channel.Closed → checked_frame (g_schema g) input = Ok (value, encoded) →
    parse_envelope value = Some e → in_order g e → g_schema g' = g_schema g →
    answered g' e encoded payload out → frame_result g input (g', out).

Lemma open_channel_Ok e g g1 :
  open_channel e g = Ok g1 → g_channel g ≠ Channel.Closed →
  core g1 = core g ∧ g_schema g1 = g_schema g ∧ g_channel g1 = Channel.Open ∧ g_challenge g1 = Some (e_challenge e) ∧
  (g_channel g = Channel.Unopened → e_operation e = "GENERATION_STATUS") ∧
  (g_channel g = Channel.Open → g_challenge g = Some (e_challenge e)).
Proof.
  unfold open_channel. intros Ho Hc. case_bool_decide as Hu.
  - case_bool_decide; [|done]. simpl in Ho. injection Ho as <-. repeat split; try done. by intros E; rewrite E in Hu.
  - case_bool_decide; [|done]. simpl in Ho. injection Ho as <-. repeat split; try done.
    by destruct (g_channel g).
Qed.

Lemma frame_cases g input : k_inv (core g) → frame_result g input (frame input g).
Proof.
  intros Hk. unfold frame. case_bool_decide as Hc; [by constructor|].
  destruct (checked_frame _ _) as [[value encoded]|] eqn:Hchk; [|by constructor].
  destruct (parse_envelope value) as [e|] eqn:Henv; [|by constructor].
  destruct (negb (bool_decide (e_direction e = _)) || _) eqn:E1; [by constructor|].
  destruct (negb (e_sequence e =? _) || _) eqn:E2; [by constructor|].
  destruct (negb (bool_decide (e_generation e = _))) eqn:E3; [by constructor|].
  apply orb_false_iff in E1 as [D1%negb_false_iff%bool_decide_eq_true D2%negb_false_iff%Z.eqb_eq].
  apply orb_false_iff in E2 as [D3%negb_false_iff%Z.eqb_eq D4%negb_false_iff%bool_decide_eq_true].
  apply negb_false_iff, bool_decide_eq_true in E3.
  destruct (open_channel e g) as [g1|] eqn:Hopen; [|by constructor].
  destruct (open_channel_Ok _ _ _ Hopen Hc) as (C1 & Sc & Ch & Cl & Hun & Hop).
  assert (F1 : follows g g1) by by apply follows_quiet.
  assert (Hk1 : k_inv (core g1)) by by rewrite C1.
  destruct (let* payload := _ in _) as [request|]; [|by constructor].
  pose proof (follows_perform request g1) as F2.
  destruct (perform request g1) as [g2 [payload|output]] eqn:Hp; cbn [fst] in F2.
  - pose proof (perform_wire request g1 payload Hk1) as Hw. rewrite Hp in Hw. specialize (Hw eq_refl). cbn [fst] in Hw.
    unfold wire in Hw. injection Hw as Wc Wl Wn Wd Ws.
    unfold respond. destruct (check_frame_encoded _ (g_schema g2)) as [bytes|] eqn:Hb.
    + eapply frame_answered; [done|exact Hchk|exact Henv|by split|simpl; congruence|].
      exists bytes. split; [done|]. split; [exact Hb|]. simpl. split; [congruence|]. split; [congruence|]. done.
    + constructor; [|done]. by etrans.
  - destruct (perform_fatal request g1 output Hk1) as [Hf ->]; [by rewrite Hp|].
    rewrite Hp in Hf. injection Hf as ->.
    change (frame_result g input (fatal FatalReason.PeerQualificationMismatch g1)). by constructor.
Qed.

(** A frame is answered only in order: right direction and parity, the expected sequence
    number, chained to the last digest, for this generation, on the opened channel's challenge;
    the answer carries the next sequence number and the digest of the received frame, and the
    chain continues from the answer's digest. *)
Theorem answer_continues_the_chain g input payload :
  reachable g → o_kind (frame input g).2 = OutputKind.Response payload →
  ∃ value encoded e, checked_frame (g_schema g) input = Ok (value, encoded) ∧
    parse_envelope value = Some e ∧ in_order g e ∧
    answered (frame input g).1 e encoded payload (frame input g).2.
Proof.
  intros Hg Hk. pose proof (frame_cases g input (reachable_inv _ Hg)) as Hf.
  destruct (frame input g) as [g' out]. cbn [fst snd] in *.
  inversion Hf as [? Heq|g0 reason F Hc Heq|g1 out1 value encoded e payload1 Hc Hchk Henv Hord Hsc Hans Heq]; subst.
  - done.
  - done.
  - destruct Hans as (bytes & -> & Hrest). injection Hk as ->. exists value, encoded, e.
    split; [done|]. split; [done|]. split; [done|]. exists bytes. done.
Qed.

Lemma chain_broken g input value encoded e :
  checked_frame (g_schema g) input = Ok (value, encoded) → parse_envelope value = Some e →
  e_direction e = "BROKER_TO_GATE" → Z.rem (e_sequence e) 2 = 1 → g_channel g ≠ Channel.Closed →
  e_sequence e ≠ g_next_sequence g → frame input g = fatal FatalReason.ChainBroken g.
Proof.
  intros Hchk Henv Hd Hp Hc Hs. unfold frame. rewrite bool_decide_eq_false_2 by done. rewrite Hchk, Henv.
  rewrite bool_decide_eq_true_2, Hp by done. cbn [negb orb Z.eqb Pos.eqb].
  by rewrite (proj2 (Z.eqb_neq _ _) Hs).
Qed.

(** No frame is answered twice: replaying an answered frame closes the channel. *)
Theorem replayed_frame_is_fatal g input payload :
  reachable g → o_kind (frame input g).2 = OutputKind.Response payload → g_next_sequence g + 2 ≤ I64_MAX →
  frame input (frame input g).1 = fatal FatalReason.ChainBroken (frame input g).1.
Proof.
  intros Hg Hk Hmax. pose proof (frame_cases g input (reachable_inv _ Hg)) as Hf.
  destruct (frame input g) as [g' out]. cbn [fst snd] in *.
  inversion Hf as [? Heq|g0 reason F Hc Heq|g1 out1 value encoded e payload1 Hc Hchk Henv Hord Hsc Hans Heq];
    subst; [done|done|].
  destruct Hans as (bytes & -> & _ & Hch & _ & Hn & _). destruct Hord as [Hd Hp Hs _ _ _ _].
  eapply chain_broken; [rewrite Hsc; exact Hchk|exact Henv|exact Hd|exact Hp|by rewrite Hch|].
  rewrite Hn, Hs. unfold sat_add_i64, I64_MIN, I64_MAX in *. lia.
Qed.

(** *** Fatal closes *)

Lemma settle_drain_keeps g :
  k_inv (core g) → wire (settle_drain g).1 = wire g ∧ keeps g (settle_drain g).1.
Proof.
  intros Hk. unfold settle_drain. destruct (negb (g_drain_pending g)); [done|].
  set (g1 := if _ && _ then _ else _).
  assert (M1 : moves g g1).
  { unfold g1. case_bool_decide as Hd; [|done]. case_bool_decide as Hf; [|done]. simpl.
    apply moves_tighten, tightens_closed_state; [by rewrite Hd; simpl; lia|done]. }
  destruct (M1 Hk) as (S1 & K1 & _). pose proof (moves_wire _ _ M1 Hk) as W1.
  case_bool_decide; [done|]. cbn [fst]. set (g2 := with_drain_pending false g1).
  assert (Hk2 : k_inv (core g2)) by (eapply lsteps_inv; [exact Hk|exact S1]).
  pose proof (moves_note g2 (Rec.Drained (g_state g2)) eq_refl) as M2.
  split; [by rewrite (moves_wire _ _ M2 Hk2)|]. etrans; [exact K1|]. by destruct (M2 Hk2) as (_ & K2 & _).
Qed.

Lemma frame_fatal_gate g input reason :
  k_inv (core g) → o_kind (frame input g).2 = OutputKind.Fatal reason →
  ∃ g0, follows g g0 ∧ frame input g = fatal reason g0.
Proof.
  intros Hk Hf. pose proof (frame_cases g input Hk) as Hr. destruct (frame input g) as [g' out]. cbn [snd] in Hf.
  inversion Hr as [? Heq|g0 reason0 F Hc Heq|g1 out1 value encoded e payload1 Hc Hchk Henv Hord Hsc Hans Heq]; subst.
  - done.
  - injection Hf as ->. by exists g0.
  - by destruct Hans as (bytes & -> & _).
Qed.

Lemma request_not_fatal conn certificate head body_digest g out reason :
  (request conn certificate head body_digest g).2 = Ok out → o_kind out ≠ OutputKind.Fatal reason.
Proof.
  unfold request. destruct (g_connections g !! conn) as [c|]; [|done].
  destruct (admit_request _ _ _ _ _ _ _) as [id|refusal]; [|by intros [= <-]].
  unfold consume. destruct (record _ _) as [g1 []]; cbn; by intros [= <-].
Qed.

Lemma upstream_not_fatal conn response g out reason :
  (upstream conn response g).2 = Ok out → o_kind out ≠ OutputKind.Fatal reason.
Proof.
  unfold upstream. destruct (let* id := _ in _) as [[id a]|]; [|done].
  destruct (has_status _ a); [by intros [= <-]|]. destruct (classify_upstream _ _) as [[c d] dl].
  destruct (record _ _). by intros [= <-].
Qed.

Lemma dispatch_fatal event g out reason :
  k_inv (core g) → (dispatch event g).2 = Ok out → o_kind out = OutputKind.Fatal reason →
  ∃ g0, follows g g0 ∧ dispatch event g = always (fatal reason g0).
Proof.
  intros Hk Hout Hf. destruct event; cbn [dispatch always nothing snd] in *; try (by injection Hout as <-).
  - injection Hout as <-. destruct (frame_fatal_gate g input reason Hk Hf) as (g0 & ? & ->). by exists g0.
  - unfold accept in Hout. destruct (negb _); [done|]. by injection Hout as <-.
  - by apply request_not_fatal with (reason := reason) in Hout.
  - by apply upstream_not_fatal with (reason := reason) in Hout.
  - by apply upstream_not_fatal with (reason := reason) in Hout.
  - unfold timeout in Hout. destruct (forwarded_on _ _ _); [|done]. by injection Hout as <-.
  - injection Hout as <-. unfold drain in Hf. by destruct (settle_drain _).
  - injection Hout as <-. unfold expire in Hf. destruct (g_bound g); [|done]. by destruct (g_expired g).
  - injection Hout as <-. unfold channel_lost in *. destruct (g_channel g) eqn:Hc; [done| |done].
    destruct (orderly g); [done|]. injection Hf as <-. by exists g.
  - destruct (g_channel g); [done|by injection Hout as <-..].
  - case_bool_decide; [|by injection Hout as <-]. injection Hout as <-. injection Hf as <-. by exists g.
  - destruct (g_channel g) eqn:Hc; [done| |done]. injection Hout as <-. injection Hf as <-. by exists g.
  - unfold disconnect in Hout. destruct (g_connections g !! conn); [|done]. case_match; [done|]. by injection Hout as <-.
Qed.

(** [C36] A fatal channel failure is final: no response frame goes out, the generation is HELD, the
    channel is closed, and no action is left armed. *)
Theorem fatal_fails_closed event g out reason :
  reachable g → (handle event g).2 = Ok out → o_kind out = OutputKind.Fatal reason →
  let g' := (handle event g).1 in
  g_state g' = State.Held ∧ g_channel g' = Channel.Closed ∧ o_response_frame out = None ∧
  ∀ id, action_has Status.Armed g' id = false.
Proof.
  intros Hg Hout Hf. pose proof (reachable_inv _ Hg) as Hk. cbn zeta. unfold handle in *.
  destruct (dispatch event g) as [g1 [out1|]] eqn:Hdis; [|done].
  assert (Hf1 : o_kind out1 = OutputKind.Fatal reason ∧ o_response_frame out = o_response_frame out1).
  { destruct (settle_drain g1) as [g2 [answer|]]; injection Hout as <-; done. }
  destruct Hf1 as [Hf1 Hrf].
  destruct (dispatch_fatal event g out1 reason Hk) as (g0 & F0 & Hd0); [by rewrite Hdis|done|].
  rewrite Hdis in Hd0. pose proof (f_equal fst Hd0) as Hg1. apply (f_equal snd) in Hd0.
  cbn [fst snd always] in Hg1, Hd0. injection Hd0 as ->. subst g1. clear Hdis.
  pose proof (follows_inv _ _ Hk F0) as Hk0. destruct (fatal_spec reason g0 Hk0) as (Hs & Hc & Ha).
  pose proof (follows_inv _ _ Hk0 (follows_fatal reason g0)) as Hk1. set (g1 := (fatal reason g0).1) in *.
  destruct (settle_drain_keeps g1 Hk1) as [W K]. pose proof (lsteps_rank _ _ (follows_settle_drain g1 Hk1)) as R.
  destruct (settle_drain g1) as [g2 answer]. cbn [fst] in *.
  split; [|split; [|split]].
  - apply rank_held. etrans; [|exact R]. change (k_state (core g1)) with (g_state g1). by rewrite Hs.
  - unfold wire in W. congruence.
  - by rewrite Hrf.
  - intros id. apply not_true_iff_false. intros Harm%(proj2 K). by rewrite Ha in Harm.
Qed.
End Frames.

(** * Actions over all runs: single use, bindings, deletions, and drains

    What the protocol's invariants mean for the journal and for a drain: an action is consumed
    once, an execution is bound once, a deletion names an object this execution created, one
    action is open at a time, relayed outcomes are durable, and a waiting drain is answered by the
    outcome of the exchange it waits for. *)

(** *** Journals *)

Lemma legal_inv l : legal_journal l →
  match last l with
  | Some (Entry.Record_ r) => legal (removelast l) r ∧ legal_journal (removelast l)
  | Some Entry.Torn => legal_journal (removelast l)
  | None => True
  end.
Proof. destruct 1; [done|..]; rewrite last_snoc, removelast_last; done. Qed.

Lemma legal_prefix l1 l2 : legal_journal (l1 ++ l2) → legal_journal l1.
Proof.
  induction l2 as [|e l2 IH] using rev_ind; [by rewrite app_nil_r|].
  rewrite app_assoc. intros H%legal_inv. rewrite last_snoc, removelast_last in H.
  destruct e; [destruct H as [_ H]|]; by apply IH.
Qed.

Lemma legal_at l1 r l2 : legal_journal (l1 ++ Entry.Record_ r :: l2) → legal l1 r.
Proof.
  change (Entry.Record_ r :: l2) with ([Entry.Record_ r] ++ l2). rewrite app_assoc.
  intros H%legal_prefix%legal_inv. rewrite last_snoc, removelast_last in H. apply H.
Qed.

Lemma rb_update_ids id f b :
  (∀ a, a_id (f a) = a_id a) → ids_ok (rb_actions b) → ids_ok (rb_actions (rb_update id f b)).
Proof.
  intros Hf Hb. destruct (rb_actions b !! id) as [x|] eqn:Hx.
  - rewrite (rb_update_Some _ _ _ _ Hx). by apply ids_ok_alter.
  - unfold rb_update. by rewrite Hx.
Qed.

Lemma legal_ids l : legal_journal l → ids_ok (rb_actions (rebuild_journal l)).
Proof.
  induction 1 as [|l _ IH|l r _ IH Hr]; [done|by rewrite rebuild_journal_snoc|].
  rewrite rebuild_journal_snoc. cbn [rebuild_entry].
  assert (Hmark : ids_ok ((λ a, if has_status Status.Consumed a then act_after true a else a) <$>
                    rb_actions (rebuild_journal l))).
  { intros i b Hl. rewrite lookup_fmap, fmap_Some in Hl. destruct Hl as (x & Hx & ->). rewrite size_fmap.
    destruct (IH _ _ Hx). by destruct (has_status _ x). }
  destruct r; simpl; try exact IH; try exact Hmark; try (by apply rb_update_ids); [done|].
  destruct Hr as (-> & _).
  assert (Hn : rb_actions (rebuild_journal l) !! (Z.of_nat (size (rb_actions (rebuild_journal l))) + 1) = None).
  { destruct (rb_actions (rebuild_journal l) !! _) eqn:E; [|done]. apply IH in E. lia. }
  intros i b [[<- <-]|[? Hb]]%lookup_insert_Some; rewrite map_size_insert_None by done; [simpl; lia|].
  apply IH in Hb. lia.
Qed.

(** An action that left ARMED in the replay. *)
Definition spent (l : list Entry.t) (id : Z) : Prop :=
  ∃ b, rb_actions (rebuild_journal l) !! id = Some b ∧ a_status b ≠ Status.Armed.

Lemma rb_update_spent id f b j x :
  (∀ a, a_status (f a) ≠ Status.Armed) → rb_actions b !! j = Some x → a_status x ≠ Status.Armed →
  ∃ y, rb_actions (rb_update id f b) !! j = Some y ∧ a_status y ≠ Status.Armed.
Proof.
  intros Hf Hx Hs. destruct (rb_actions b !! id) as [z|] eqn:Hz.
  - rewrite (rb_update_Some _ _ _ _ Hz). simpl. destruct (decide (id = j)) as [<-|].
    + exists (f x). rewrite lookup_alter_eq, Hx. done.
    + exists x. by rewrite lookup_alter_ne.
  - unfold rb_update. rewrite Hz. by exists x.
Qed.

Definition is_bind (e : Entry.t) : Prop := ∃ x n r ds ms, e = Entry.Record_ (Rec.Bind x n r ds ms).

Lemma spent_stays l e id :
  legal_journal (l ++ [e]) → ¬ is_bind e → spent l id → spent (l ++ [e]) id.
Proof.
  intros Hl Hb (b & Hid & Hs). unfold spent. rewrite rebuild_journal_snoc.
  destruct e as [r|]; [|by exists b]. cbn [rebuild_entry].
  assert (Hmark : ∃ y, ((λ a, if has_status Status.Consumed a then act_after true a else a) <$>
                    rb_actions (rebuild_journal l)) !! id = Some y ∧ a_status y ≠ Status.Armed).
  { eexists. rewrite lookup_fmap, Hid. split; [done|]. by destruct (has_status _ b). }
  destruct r; simpl; try (by exists b); try exact Hmark; try (by eapply rb_update_spent).
  - destruct Hb. unfold is_bind. eauto 10.
  - assert (action_id ≠ id).
    { intros ->. pose proof (legal_ids _ (legal_prefix _ _ Hl) _ _ Hid). apply legal_at in Hl as (-> & _). lia. }
    exists b. by rewrite lookup_insert_ne.
Qed.

Lemma spent_through l es id :
  legal_journal (l ++ es) → Forall (λ e, ¬ is_bind e) es → spent l id → spent (l ++ es) id.
Proof.
  induction es as [|e es IH] using rev_ind; [by rewrite app_nil_r|].
  rewrite app_assoc, Forall_app, Forall_singleton. intros Hl [Hes He] Hs.
  apply spent_stays; [done|done|]. apply IH; [by eapply legal_prefix|done|done].
Qed.

Lemma consumed_spent l id : legal_journal (l ++ [Entry.Record_ (Rec.Consumed id)]) →
  spent (l ++ [Entry.Record_ (Rec.Consumed id)]) id.
Proof.
  intros Hl. apply legal_at in Hl as (b & Hb & _). unfold spent. rewrite rebuild_journal_snoc. simpl.
  rewrite (rb_update_Some _ _ _ _ Hb). simpl. eexists. rewrite lookup_alter_eq, Hb. done.
Qed.

Lemma consumed_twice l1 id l2 l3 :
  legal_journal (l1 ++ Entry.Record_ (Rec.Consumed id) :: l2 ++ Entry.Record_ (Rec.Consumed id) :: l3) →
  Exists is_bind l2.
Proof.
  intros Hl. assert (Hdec : ∀ e, Decision (is_bind e)).
  { intros [[]|]; try (right; by intros (? & ? & ? & ? & ? & ?)). left. unfold is_bind. eauto 10. }
  destruct (decide (Exists is_bind l2)) as [|Hn]; [done|]. apply not_Exists_Forall in Hn; [|done]. exfalso.
  set (l := l1 ++ [Entry.Record_ (Rec.Consumed id)]).
  assert (He : l1 ++ Entry.Record_ (Rec.Consumed id) :: l2 ++ Entry.Record_ (Rec.Consumed id) :: l3 =
               (l ++ l2) ++ Entry.Record_ (Rec.Consumed id) :: l3) by (unfold l; by rewrite <-!app_assoc).
  rewrite He in Hl. destruct (legal_at _ _ _ Hl) as (b & Hb & Hs).
  apply legal_prefix in Hl. destruct (spent_through l l2 id Hl Hn) as (b' & Hb' & Hs'); [|congruence].
  apply consumed_spent. by eapply legal_prefix.
Qed.

Section Actions.
Context {St Ob : Type} {HS : Stores St} {HL : StoresLaws St} {HO : WorkerObserver Ob}.
Implicit Types (g : Gate St Ob).

(** Single use: between two CONSUMED records of one action id the journal holds a BIND, over
    restarts and storage failures alike. *)
Theorem consumed_once g l1 id l2 l3 :
  reachable g →
  journal g = l1 ++ Entry.Record_ (Rec.Consumed id) :: l2 ++ Entry.Record_ (Rec.Consumed id) :: l3 →
  Exists is_bind l2.
Proof. intros Hg He. apply (consumed_twice l1 id l2 l3). rewrite <-He. apply (inv_legal _ (reachable_inv _ Hg)). Qed.

(** A journaled DELETE names a UID that a 201 response to a CREATE of the same manifest, armed
    in the same binding, returned and was journaled with. *)
Theorem delete_names_a_created_object g l1 id digest uid template l2 :
  reachable g → journal g = l1 ++ Entry.Record_ (Rec.Arm id Delete digest uid template) :: l2 →
  ∃ u, uid = Some u ∧ created_in (since_bind l1) digest u.
Proof.
  intros Hg He. pose proof (inv_legal _ (reachable_inv _ Hg)) as Hl. change (k_journal (core g)) with (journal g) in Hl.
  rewrite He in Hl. apply legal_at in Hl as (_ & _ & [Hr _] & _ & Hc).
  destruct (Hr eq_refl) as [u ->]. exists u. split; [done|]. by apply Hc.
Qed.

(** A mutation is armed once per binding: no journaled ARM repeats the CREATE of a manifest or
    the DELETE of a UID armed since the last BIND. *)
Theorem mutation_armed_once g l1 id verb digest uid template l2 key :
  reachable g → journal g = l1 ++ Entry.Record_ (Rec.Arm id verb digest uid template) :: l2 →
  arm_key verb digest uid = Some key → ¬ armed_in (since_bind l1) key.
Proof.
  intros Hg He. pose proof (inv_legal _ (reachable_inv _ Hg)) as Hl. change (k_journal (core g)) with (journal g) in Hl.
  rewrite He in Hl. apply legal_at in Hl as (_ & _ & _ & Hk & _). apply Hk.
Qed.

(** An execution id or run nonce is bound once over the life of the journal, and the gate's
    memory of them is what a process restart derives from it. *)
Theorem bound_once g :
  reachable g →
  let d := derived_from_journal (journal g) in
  NoDup (dv_bound_ids d) ∧ NoDup (dv_bound_nonces d) ∧
  dv_bound d = g_bound g ∧ dv_bound_ids d = g_bound_ids g ∧ dv_bound_nonces d = g_bound_nonces g.
Proof.
  intros Hg. pose proof (reachable_inv _ Hg) as Hk. destruct (inv_derived _ Hk) as (Hb & Hi & Hn).
  destruct (inv_nodup _ Hk) as [Ni Nn]. cbn zeta. change (k_journal (core g)) with (journal g) in *.
  rewrite Hi, Hn. done.
Qed.

(** Action ids are 1, 2, ... in order, and at most one action (the last) is still open. *)
Theorem one_action_open g :
  reachable g →
  (∀ id a, g_actions g !! id = Some a → a_id a = id ∧ 1 ≤ id ≤ Z.of_nat (size (g_actions g))) ∧
  (∀ id a, g_actions g !! id = Some a → settled a = false → id = Z.of_nat (size (g_actions g))).
Proof.
  intros Hg. pose proof (reachable_inv _ Hg) as Hk. split; [apply (inv_ids _ Hk)|].
  intros id a Ha Hs. destruct (decide (id = Z.of_nat (size (g_actions g)))) as [|Hne]; [done|].
  pose proof (inv_one_open _ Hk _ _ Ha Hne). congruence.
Qed.

(** A CLOSED generation is clean: nothing is in flight and no outcome is unknown. *)
Theorem closed_is_clean g :
  reachable g → g_state g = State.Closed → none_in_flight (g_actions g) ∧ none_ambiguous (g_actions g).
Proof. intros Hg Hs. by apply (inv_closed _ (reachable_inv _ Hg)). Qed.

(** *** Upstream outcomes *)

(** The gate relays a response only after its TERMINAL record, with the classification it
    relays, is durable in the journal. *)
Theorem relayed_is_durable g conn response out classification aborted :
  reachable g → (upstream conn response g).2 = Ok out →
  o_kind out = OutputKind.Upstream classification true aborted →
  ∃ id after details, forwarded_on g conn false = Some id ∧ is_Some response ∧
    journal (upstream conn response g).1 = journal g ++ [Entry.Record_ (Rec.Terminal id classification after details)].
Proof.
  intros Hg. unfold upstream. destruct (forwarded_on g conn false) as [id|] eqn:Hf; [|done].
  cbn [mbind option_bind]. destruct (g_actions g !! id) as [a|]; [|done]. cbn [mbind option_bind].
  destruct (has_status Status.Terminal a); [by intros [= <-]|].
  destruct (classify_upstream _ response) as [[c details] delivered].
  destruct (record_cases g (Rec.Terminal id c (a_after_invalidation a) details)) as [(s & -> & Hc)|(g' & -> & _)].
  - intros [= <-] [= <- Hr _]. apply bool_decide_eq_true in Hr.
    exists id, (a_after_invalidation a), details. split; [done|]. split; [done|].
    apply (f_equal k_journal) in Hc. change (k_journal (core ?x)) with (journal x) in Hc. cbn [fst].
    match goal with |- journal ?X = _ => replace (journal X) with (journal (with_stores s g)); [exact Hc|] end.
    case_bool_decide; [done|]. by destruct (created_uid _ _) as [[]|].
  - cbn. by intros [= <-] [= ].
Qed.

(** *** Drains *)

Lemma fence_after_drained g r :
  k_inv (core g) → neutral (core g) r → fence g ≠ DrainAnswer.Pending → fence (note r g) ≠ DrainAnswer.Pending.
Proof.
  intros Hk Hn Hf. destruct (moves_note g r Hn Hk) as (S & _ & _). destruct (fence_decided g Hf) as [Hs|Hq].
  - assert (Hs' : g_state (note r g) = State.Held).
    { apply rank_held. etrans; [|apply (lsteps_rank _ _ S)]. simpl. by rewrite Hs. }
    unfold fence. by rewrite bool_decide_eq_true_2.
  - pose proof (ksteps_quiesced _ _ Hq (lsteps_ksteps _ _ S)) as Hq'.
    destruct (quiesced_fence _ Hq') as [-> | ->]; done.
Qed.

(** A drain whose generation drains with nothing in flight is answered. *)
Lemma settle_drain_answers g :
  k_inv (core g) → g_drain_pending g = true → (1 ≤ rank (g_state g))%nat → in_flight g = None →
  ∃ answer, (settle_drain g).2 = Some answer ∧ answer ≠ DrainAnswer.Pending ∧
            g_drain_pending (settle_drain g).1 = false.
Proof.
  intros Hk Hp Hr Hf. unfold settle_drain. rewrite Hp. cbn [negb].
  rewrite (bool_decide_eq_true_2 (in_flight g = None)) by done. rewrite andb_true_r.
  set (g1 := if bool_decide _ then _ else g).
  assert (M1 : moves g g1).
  { unfold g1. case_bool_decide as Hd; [|done].
    apply moves_tighten, tightens_closed_state; [by rewrite Hd; simpl; lia|done]. }
  assert (Hf1 : in_flight g1 = None) by (unfold g1; by case_bool_decide).
  assert (Hd1 : fence g1 ≠ DrainAnswer.Pending).
  { assert (Hq : quiesced (core g1)).
    { split; [|by apply in_flight_None]. unfold g1. case_bool_decide as Hd; simpl.
      - unfold closed_state. destruct (any_ambiguous g); simpl; lia.
      - destruct (g_state g); simpl in *; try lia; done. }
    destruct (quiesced_fence _ Hq) as [-> | ->]; done. }
  rewrite bool_decide_eq_false_2 by done. cbn [fst snd]. set (g2 := with_drain_pending false g1).
  assert (Hk2 : k_inv (core g2)) by by apply (follows_inv g g1); [|apply moves_follows].
  eexists. split; [done|]. split; [by apply fence_after_drained|].
  destruct (moves_note g2 (Rec.Drained (g_state g2)) eq_refl Hk2) as (_ & _ & Ho).
  unfold outer in Ho. injection Ho as _ _ _ _ _ Ho _ _ _. exact Ho.
Qed.

(** The forwarded exchange's outcome leaves nothing in flight. *)
Lemma none_in_flight_after g g1 id a a1 :
  k_inv (core g) → k_inv (core g1) → g_actions g !! id = Some a → a_status a = Status.Consumed →
  dom (g_actions g1) = dom (g_actions g) → g_actions g1 !! id = Some a1 → a_status a1 = Status.Terminal →
  in_flight g1 = None.
Proof.
  intros Hk Hk1 Ha Hs Hd Ha1 Hs1.
  assert (Hid : ∀ g0 i x, k_inv (core g0) → g_actions g0 !! i = Some x → a_status x = Status.Consumed →
                  i = Z.of_nat (size (g_actions g0))).
  { intros g0 i x Hk0 Hx Hxs. destruct (decide (i = Z.of_nat (size (g_actions g0)))) as [|Hne]; [done|].
    pose proof (inv_one_open _ Hk0 i x Hx Hne) as Hset. by rewrite settled_not_consumed in Hset. }
  apply none_in_flight_None. intros i x Hx Hxs. pose proof (Hid _ _ _ Hk1 Hx Hxs) as Hi.
  pose proof (Hid _ _ _ Hk Ha Hs) as Hi'. rewrite <-!size_dom, Hd in *. congruence.
Qed.

Lemma record_keeps g r : k_inv (core g) → keeps g (record g r).1 ∧ outer (record g r).1 = outer g.
Proof.
  intros Hk. destruct (record_cases g r) as [(s & -> & _)|(g' & -> & Hm)].
  - split; [by apply keeps_same|done].
  - by destruct (Hm Hk) as (_ & ? & ?).
Qed.

Lemma record_action g r id a :
  k_inv (core g) → g_actions g !! id = Some a → a_status a ≠ Status.Armed →
  (∃ a', g_actions (record g r).1 !! id = Some a' ∧ a_status a' = a_status a) ∧
  dom (g_actions (record g r).1) = dom (g_actions g) ∧
  g_drain_pending (record g r).1 = g_drain_pending g.
Proof.
  intros Hk Ha Hs. destruct (record_keeps g r Hk) as [[[K D] _] Ho].
  destruct (K id a Ha Hs) as [b Hb]. split; [by eexists|]. split; [done|]. by injection Ho.
Qed.

Definition exchange_outcome (conn : string) (event : Event.t) : Prop :=
  event = Event.UpstreamTimeout conn ∨ event = Event.UpstreamLost conn ∨
  ∃ response, event = Event.UpstreamResponse conn response.

Lemma upstream_settles g conn response id a :
  k_inv (core g) → forwarded_on g conn false = Some id → g_actions g !! id = Some a →
  a_status a = Status.Consumed →
  ∃ out, (upstream conn response g).2 = Ok out ∧
    g_drain_pending (upstream conn response g).1 = g_drain_pending g ∧
    dom (g_actions (upstream conn response g).1) = dom (g_actions g) ∧
    ∃ a1, g_actions (upstream conn response g).1 !! id = Some a1 ∧ a_status a1 = Status.Terminal.
Proof.
  intros Hk Hf Ha Hs. unfold upstream. rewrite Hf. cbn [mbind option_bind]. rewrite Ha. cbn [mbind option_bind].
  unfold has_status. rewrite Hs, bool_decide_eq_false_2 by done.
  destruct (classify_upstream _ response) as [[c details] delivered].
  destruct (record_action g (Rec.Terminal id c (a_after_invalidation a) details) id a Hk Ha) as ((a' & Ha' & _) & D & P);
    [by rewrite Hs|].
  destruct (record g _) as [g1 recorded]. cbn [fst] in *. eexists. split; [done|].
  match goal with |- context [update_action id ?f g1] => set (f0 := f); set (g2 := update_action id f0 g1) end.
  assert (Ha2 : g_actions g2 !! id = Some (f0 a')) by (simpl; by rewrite lookup_alter_eq, Ha').
  assert (D2 : dom (g_actions g2) = dom (g_actions g)) by (simpl; rewrite dom_alter_L; done).
  match goal with |- context [update_connection conn conn_close ?X] => set (g3 := X) end.
  assert (H3 : g_actions g3 = g_actions g2 ∧ g_drain_pending g3 = g_drain_pending g2).
  { unfold g3. case_bool_decide; [done|]. by destruct (created_uid _ _) as [[]|]. }
  destruct H3 as [A3 P3]. simpl. rewrite A3, P3. split; [exact P|]. split; [exact D2|].
  exists (f0 a'). split; [exact Ha2|]. unfold f0. by destruct (if recorded then delivered else None).
Qed.

Lemma timeout_settles g conn id a :
  k_inv (core g) → forwarded_on g conn true = Some id → g_actions g !! id = Some a →
  a_status a = Status.Consumed →
  ∃ out, (timeout conn g).2 = Ok out ∧ g_drain_pending (timeout conn g).1 = g_drain_pending g ∧
    dom (g_actions (timeout conn g).1) = dom (g_actions g) ∧
    ∃ a1, g_actions (timeout conn g).1 !! id = Some a1 ∧ a_status a1 = Status.Terminal.
Proof.
  intros Hk Hf Ha Hs. unfold timeout. rewrite Hf, Ha. eexists. split; [done|]. unfold note.
  destruct (record_action g (Rec.Terminal id Classification.IoAmbiguous (a_after_invalidation a) TerminalDetails.Aborted)
              id a Hk Ha) as ((a' & Ha' & _) & D & P); [by rewrite Hs|].
  destruct (record g _) as [g1 recorded]. cbn [fst] in *. simpl. split; [exact P|].
  rewrite dom_alter_L. split; [exact D|]. exists (act_terminal Classification.IoAmbiguous a').
  by rewrite lookup_alter_eq, Ha'.
Qed.

(** [C35] A waiting drain is answered, OPEN or HELD, by the outcome of the exchange it waits for:
    its response, its loss, or its 900-second timeout, whatever the stores do. *)
Theorem drain_is_answered g conn id event :
  reachable g → g_drain_pending g = true → (1 ≤ rank (g_state g))%nat →
  forwarded_on g conn true = Some id → forwarded_on g conn false = Some id → exchange_outcome conn event →
  ∃ out answer, (handle event g).2 = Ok out ∧ o_drain out = Some answer ∧ answer ≠ DrainAnswer.Pending ∧
                g_drain_pending (handle event g).1 = false.
Proof.
  intros Hg Hp Hr Hf Hf' He. pose proof (reachable_inv _ Hg) as Hk.
  destruct (forwarded_on_Some _ _ _ _ Hk Hf) as (a & Ha & _ & Hs).
  assert (Hd : ∃ out, (dispatch event g).2 = Ok out ∧ g_drain_pending (dispatch event g).1 = true ∧
     dom (g_actions (dispatch event g).1) = dom (g_actions g) ∧
     ∃ a1, g_actions (dispatch event g).1 !! id = Some a1 ∧ a_status a1 = Status.Terminal).
  { destruct He as [->|[->|[response ->]]]; cbn [dispatch]; rewrite <-Hp.
    - by apply timeout_settles with (a := a).
    - by apply upstream_settles with (a := a).
    - by apply upstream_settles with (a := a). }
  assert (Hnr : is_restart event = false) by by destruct He as [->|[->|[? ->]]].
  pose proof (follows_dispatch event g Hnr Hk) as S.
  destruct Hd as (out & Hout & Hp1 & D & a1 & Ha1 & Hs1). unfold handle.
  destruct (dispatch event g) as [g1 r]. cbn [fst snd] in *. subst r.
  pose proof (lsteps_inv _ _ Hk S) as Hk1. pose proof (lsteps_rank _ _ S) as R.
  destruct (settle_drain_answers g1) as (answer & Ha2 & Hn & Hp2); [done|done| |exact (none_in_flight_after g g1 id a a1 Hk Hk1 Ha Hs D Ha1 Hs1)|].
  { etrans; [exact Hr|exact R]. }
  destruct (settle_drain g1) as [g2 o]. cbn [fst snd] in *. subst o. eauto 10.
Qed.
End Actions.
