(* ===== verification/PolicyProtocol.v ===== *)
(** * The write protocol: what the policy gate promises about maintenance and writes

    An abstract machine like [Protocol]'s, around it: the base gate's core, the maintenance, the
    writer session (only whether it owns the maintenance), the outstanding write and the writes.
    [wstep] is everything that may happen to them.  [PolicySteps] proves that every event of
    [policy_gate.rs] is a sequence of such steps; the invariants are proved here. *)

From S2P Require Import Prelude Json Render Types Journal Observation Config Gate PolicyGate.
From S2P Require Import Protocol ProtocolProofs GateSteps GateSafety.
Record WCore := mkWCore {
  w_core : Core;
  w_maint : Maintenance.t;
  w_session : option bool;
  w_pending : option Z;
  w_writes : gmap Z WriteEntry;
}.

Abbreviation w_journal w := (k_journal (w_core w)).

Definition w_with_core (v : Core) (w : WCore) : WCore :=
  mkWCore v (w_maint w) (w_session w) (w_pending w) (w_writes w).
Definition w_with_maint (v : Maintenance.t) (w : WCore) : WCore :=
  mkWCore (w_core w) v (w_session w) (w_pending w) (w_writes w).
Definition w_with_session (v : option bool) (w : WCore) : WCore :=
  mkWCore (w_core w) (w_maint w) v (w_pending w) (w_writes w).
Definition w_with_pending (v : option Z) (w : WCore) : WCore :=
  mkWCore (w_core w) (w_maint w) (w_session w) v (w_writes w).
Definition w_with_writes (v : gmap Z WriteEntry) (w : WCore) : WCore :=
  mkWCore (w_core w) (w_maint w) (w_session w) (w_pending w) v.
Definition w_log (r : Rec.t) (w : WCore) : WCore := w_with_core (k_log r (w_core w)) w.
Definition w_hold (w : WCore) : WCore := w_with_core (k_with_state State.Held (w_core w)) w.

Definition DELIVERED : WriteEntry := write_terminal Classification.DeliveredResult.
Definition AMBIGUOUS : WriteEntry := write_terminal Classification.IoAmbiguous.

(** The maintenance is under way: requested and not ended. *)
Definition under_way (m : Maintenance.t) : Prop :=
  m = Maintenance.Pending ∨ m = Maintenance.Open ∨ m = Maintenance.Held.

(** Nothing of the worker is in flight and nothing can be: the base fence is OPEN. *)
Definition fenced (k : Core) : Prop := k_state k ≠ State.Held ∧ quiesced k.

(** The outstanding write becomes terminal. *)
Definition w_terminal (id : Z) (e : WriteEntry) (w : WCore) : WCore :=
  w_with_pending None (w_with_writes (<[id := e]> (w_writes w)) w).

(** Every state change of the policy gate. *)
Inductive wstep : WCore → WCore → Prop :=
(** the base gate moves *)
| w_base w k' : lsteps (w_core w) k' → wstep w (w_with_core k' w)
(** sessions *)
| w_connect w : w_session w = None → wstep w (w_with_session (Some false) w)
| w_note w r :
    match r with
    | Rec.WriterSessionEnded _ | Rec.MaintHeld _ => True
    | Rec.WriteLateUpstream id => is_Some (w_writes w !! id)
    | _ => False
    end → wstep w (w_log r w)
| w_disconnect w : w_pending w = None → ¬ (under_way (w_maint w) ∧ w_session w = Some true) → wstep w (w_with_session None w)
(** the maintenance *)
| w_request w owner generation :
    w_maint w = Maintenance.NotBegun → w_session w = Some owner →
    wstep w (w_with_maint Maintenance.Pending (w_with_session (Some true) (w_log (Rec.MaintRequested generation) w)))
| w_open w :
    w_maint w = Maintenance.Pending → fenced (w_core w) →
    wstep w (w_with_maint Maintenance.Open (w_log (Rec.MaintOpen (k_state (w_core w))) w))
| w_held w :
    w_maint w = Maintenance.Pending ∨ w_maint w = Maintenance.Open → k_state (w_core w) = State.Held →
    wstep w (w_with_maint Maintenance.Held w)
| w_end w how n ids :
    under_way (w_maint w) → w_pending w = None →
    wstep w (w_with_maint Maintenance.Ended (w_log (Rec.MaintEnded how n ids) w))
| w_end_unrecorded w : w_pending w = None → wstep w (w_with_maint Maintenance.Ended w)
(** the writes *)
| w_forward w id op version kind namespace name digest prior :
    w_maint w = Maintenance.Open → fenced (w_core w) → w_pending w = None →
    id = Z.of_nat (size (w_writes w)) + 1 →
    wstep w (w_with_pending (Some id) (w_with_writes (<[id := WRITE_FORWARDED]> (w_writes w))
               (w_log (Rec.WriteForwarded id op version kind namespace name digest prior) w)))
| w_deliver w id details :
    w_pending w = Some id →
    wstep w (w_terminal id DELIVERED (w_log (Rec.WriteTerminal id Classification.DeliveredResult details) w))
| w_lose w id details :
    w_pending w = Some id →
    wstep w (w_hold (w_terminal id AMBIGUOUS (w_log (Rec.WriteTerminal id Classification.IoAmbiguous details) w)))
| w_lose_unrecorded w id : w_pending w = Some id → wstep w (w_hold (w_terminal id AMBIGUOUS w))
(** GATE_RESTART: everything from the journal *)
| w_restart w s :
    let writes := (rebuild_writes (w_journal w)).1 in
    restart_state (w_core w) s →
    (any_write_ambiguous writes = true → s = State.Held) →
    wstep w (mkWCore (k_with_state s (k_with_actions
                        (rebuild_settle <$> rb_actions (rebuild_journal (w_journal w))) (w_core w)))
               Maintenance.Ended None None writes).

Definition wsteps : WCore → WCore → Prop := rtc wstep.

(** ** The journal alone *)

Definition is_maint_open (e : Entry.t) : bool :=
  match e with Entry.Record_ (Rec.MaintOpen _) => true | _ => false end.
Definition opened (l : list Entry.t) : bool := existsb is_maint_open l.

Lemma writes_journal_snoc l e : writes_journal (l ++ [e]) = writes_step (writes_journal l) e.
Proof. unfold writes_journal. by rewrite fold_left_app. Qed.

Lemma opened_app l k : opened (l ++ k) = opened l || opened k.
Proof. apply existsb_app. Qed.

(** Which record may follow the journal [l]: the protocol of maintenance and writes, in terms of
    the journal only. *)
Definition write_legal (l : list Entry.t) (r : Rec.t) : Prop :=
  let b := writes_journal l in
  match r with
  | Rec.MaintRequested _ => wb_begun b = false
  | Rec.MaintOpen s =>
      (s = State.Closed ∨ s = State.Invalidated) ∧ wb_begun b = true ∧ wb_ended b = None ∧ opened l = false
  | Rec.WriteForwarded id _ _ _ _ _ _ _ =>
      opened l = true ∧ wb_ended b = None ∧ id = Z.of_nat (size (wb_writes b)) + 1 ∧
      ∀ j e, wb_writes b !! j = Some e → e = DELIVERED
  | Rec.WriteTerminal id c _ =>
      wb_writes b !! id = Some WRITE_FORWARDED ∧ c ≠ Classification.NotForwarded
  | Rec.MaintEnded _ _ _ => wb_begun b = true ∧ wb_ended b = None
  | Rec.WriteLateUpstream id => is_Some (wb_writes b !! id)
  | Rec.Bind _ _ _ _ _ | Rec.Arm _ _ _ _ _ | Rec.Consumed _ => opened l = false
  | _ => True
  end.

Inductive write_legal_journal : list Entry.t → Prop :=
| write_legal_nil : write_legal_journal []
| write_legal_torn l : write_legal_journal l → write_legal_journal (l ++ [Entry.Torn])
| write_legal_snoc l r : write_legal_journal l → write_legal l r → write_legal_journal (l ++ [Entry.Record_ r]).

(** ** Invariants *)

(** A write in memory against its replay, which lags behind only where a record could not be
    written; then the memory holds what a restart would conclude. *)
Definition write_replayed (b a : WriteEntry) : Prop :=
  a = b ∨ b = WRITE_FORWARDED ∧ a = AMBIGUOUS.

Record w_inv (w : WCore) : Prop := {
  wi_core : k_inv (w_core w);
  wi_ids id : is_Some (w_writes w !! id) ↔ 1 ≤ id ≤ Z.of_nat (size (w_writes w));
  wi_pending id : w_pending w = Some id → w_writes w !! id = Some WRITE_FORWARDED;
  wi_terminal id e :
    w_writes w !! id = Some e → w_pending w ≠ Some id → e = DELIVERED ∨ e = AMBIGUOUS;
  wi_ambiguous id : w_writes w !! id = Some AMBIGUOUS → k_state (w_core w) = State.Held;
  wi_replay id :
    option_Forall2 write_replayed (wb_writes (writes_journal (w_journal w)) !! id) (w_writes w !! id);
  wi_owner : under_way (w_maint w) → w_session w = Some true;
  wi_owned : w_session w = Some true → w_maint w ≠ Maintenance.NotBegun;
  wi_outstanding id : w_pending w = Some id → w_maint w = Maintenance.Open ∨ w_maint w = Maintenance.Held;
  wi_open : w_maint w = Maintenance.Open → opened (w_journal w) = true;
  wi_not_opened : w_maint w = Maintenance.NotBegun ∨ w_maint w = Maintenance.Pending → opened (w_journal w) = false;
  wi_quiesced : opened (w_journal w) = true → quiesced (w_core w);
  wi_begun : under_way (w_maint w) → wb_begun (writes_journal (w_journal w)) = true;
  wi_not_begun : w_maint w = Maintenance.NotBegun → wb_begun (writes_journal (w_journal w)) = false;
  wi_ended : w_maint w ≠ Maintenance.Ended → wb_ended (writes_journal (w_journal w)) = None;
  wi_legal : write_legal_journal (w_journal w);
}.

(** *** The action protocol does not see the write records *)

Definition is_write_record (r : Rec.t) : bool :=
  match r with
  | Rec.MaintRequested _ | Rec.MaintOpen _ | Rec.MaintHeld _ | Rec.WriteForwarded _ _ _ _ _ _ _ _
  | Rec.WriteTerminal _ _ _ | Rec.MaintEnded _ _ _ | Rec.WriterSessionEnded _ | Rec.WriteLateUpstream _ => true
  | _ => false
  end.

Lemma k_inv_write_record k r : is_write_record r = true → k_inv k → k_inv (k_log r k).
Proof.
  intros Hr Hk. assert (Hna : not_arm r) by by destruct r.
  assert (Hb : rebuild_journal (k_journal k ++ [Entry.Record_ r]) = rebuild_journal (k_journal k)).
  { rewrite rebuild_journal_snoc. by destruct r. }
  assert (Hs : since_bind (k_journal k ++ [Entry.Record_ r]) = since_bind (k_journal k) ++ [r])
    by by apply since_bind_not_arm.
  destruct Hk. split; cbn [k_log k_append k_config k_state k_bound k_bound_ids k_bound_nonces k_actions k_mutation_keys
    k_created_uids k_journal]; rewrite ?Hb, ?Hs; try done.
  - eapply derived_other; [exact inv_derived|reflexivity|]. intros ????? [= ->]. done.
  - intros id a armed Ha Harmed. destruct (inv_armed _ _ _ Ha Harmed) as [t Ht]. exists t. set_solver.
  - intros ????? Hin. apply (inv_uid_rule id verb digest uid template). by eapply arm_in_snoc.
  - intros digest uid Hin. by apply created_in_mono, inv_created.
  - intros key Hrank (id & verb & digest & uid & template & Hin & Hkey). apply inv_keys; [done|].
    exists id, verb, digest, uid, template. split; [by eapply arm_in_snoc|done].
  - apply legal_snoc; [done|]. by destruct r.
Qed.

Lemma quiesced_log r k : quiesced k → quiesced (k_log r k).
Proof. done. Qed.

(** What one action step writes: no record of the write protocol, and no worker record once the
    generation is quiesced. *)
Definition base_entry (e : Entry.t) : Prop :=
  match e with Entry.Record_ r => is_write_record r = false | Entry.Torn => True end.
Definition worker_entry (e : Entry.t) : Prop :=
  match e with
  | Entry.Record_ (Rec.Bind _ _ _ _ _) | Entry.Record_ (Rec.Arm _ _ _ _ _) | Entry.Record_ (Rec.Consumed _) => True
  | _ => False
  end.

Lemma kstep_entries k k' :
  kstep k k' → ∃ es, k_journal k' = k_journal k ++ es ∧ (length es ≤ 1)%nat ∧ Forall base_entry es ∧
                     (quiesced k → Forall (λ e, ¬ worker_entry e) es).
Proof.
  intros Hs.
  assert (Hact : quiesced k → k_state k ≠ State.Active) by (intros [Hr _] E; rewrite E in Hr; simpl in Hr; lia).
  assert (Hnone : ∃ es, k_journal k = k_journal k ++ es ∧ (length es ≤ 1)%nat ∧ Forall base_entry es ∧
                        (quiesced k → Forall (λ e, ¬ worker_entry e) es)).
  { exists []. rewrite app_nil_r. split_and!; [done|simpl; lia|constructor|constructor]. }
  assert (Hone : ∀ e, base_entry e → (quiesced k → ¬ worker_entry e) →
     ∃ es, k_journal k ++ [e] = k_journal k ++ es ∧ (length es ≤ 1)%nat ∧ Forall base_entry es ∧
           (quiesced k → Forall (λ e, ¬ worker_entry e) es)).
  { intros e H1 H2. exists [e]. split_and!; [done|simpl; lia|by repeat constructor|].
    intros Hq. repeat constructor. by apply H2. }
  assert (Hneutral : ∀ r, neutral k r → base_entry (Entry.Record_ r) ∧ ¬ worker_entry (Entry.Record_ r)).
  { intros r Hr. destruct r; try done; (split; [done|by intros []]). }
  destruct Hs; try exact Hnone; (refine (Hone _ _ _); [|intros Hq]); try (by apply Hneutral); try done; try tauto.
  by destruct (Hact Hq (armable_active _ _ _ _ _ _ H)).
Qed.

Lemma lsteps_entries k k' :
  lsteps k k' → ∃ es, k_journal k' = k_journal k ++ es ∧ Forall base_entry es ∧
                      (quiesced k → Forall (λ e, ¬ worker_entry e) es).
Proof.
  induction 1 as [k|k1 k2 k3 [Hs _] _ (es & -> & Hb & Hq)].
  { exists []. rewrite app_nil_r. repeat split; constructor. }
  destruct (kstep_entries _ _ Hs) as (es' & -> & _ & Hb' & Hq'). exists (es' ++ es).
  rewrite app_assoc. split; [done|]. split; [by apply Forall_app|].
  intros Hk. apply Forall_app. split; [by apply Hq'|]. apply Hq. by eapply kstep_quiesced.
Qed.

Lemma base_entries_silent l es :
  Forall base_entry es → writes_journal (l ++ es) = writes_journal l ∧ opened (l ++ es) = opened l.
Proof.
  induction es as [|e es IH] using rev_ind; [by rewrite app_nil_r|].
  intros [Hes [He _]%Forall_cons]%Forall_app. destruct (IH Hes) as [H1 H2].
  rewrite app_assoc, writes_journal_snoc, opened_app, H1, H2.
  destruct e as [r|]; [destruct r|]; try done; by rewrite orb_false_r.
Qed.

Lemma write_legal_app l es :
  write_legal_journal l → Forall base_entry es → (opened l = true → Forall (λ e, ¬ worker_entry e) es) →
  write_legal_journal (l ++ es).
Proof.
  intros Hl. induction es as [|e es IH] using rev_ind; [by rewrite app_nil_r|].
  intros [Hes [He _]%Forall_cons]%Forall_app Hw. rewrite app_assoc.
  assert (Hpre : write_legal_journal (l ++ es)).
  { apply IH; [done|]. intros Ho. by apply Forall_app in Hw as [??]. }
  destruct e as [r|]; [|by constructor]. apply write_legal_snoc; [done|].
  destruct (base_entries_silent l es Hes) as [_ Ho].
  assert (Hnw : worker_entry (Entry.Record_ r) → opened (l ++ es) = false).
  { intros Hr. destruct (opened (l ++ es)); [|done].
    apply Forall_app in Hw as [_ [Hn _]%Forall_cons]; [|done]. by destruct Hn. }
  destruct r; simpl in He; try done; by apply Hnw.
Qed.

(** *** Preservation *)

(** A step of the core that the writes do not see. *)
Lemma w_inv_core w k' :
  w_inv w → k_inv k' →
  writes_journal (k_journal k') = writes_journal (w_journal w) → opened (k_journal k') = opened (w_journal w) →
  write_legal_journal (k_journal k') →
  (k_state (w_core w) = State.Held → k_state k' = State.Held) → (quiesced (w_core w) → quiesced k') →
  w_inv (w_with_core k' w).
Proof.
  intros Hw Hk Hj Ho Hl Hh Hq. destruct Hw.
  split; cbn [w_with_core w_core w_maint w_session w_pending w_writes]; rewrite ?Hj, ?Ho; try done; eauto.
Qed.

Lemma fenced_state k : fenced k → k_state k = State.Closed ∨ k_state k = State.Invalidated.
Proof. intros [Hh [Hr _]]. destruct (rank_decided _ Hr) as [|[|]]; auto. done. Qed.

(** Every earlier write was delivered, in memory and in the journal, when the state is not HELD. *)
Lemma writes_delivered w j e :
  w_inv w → k_state (w_core w) ≠ State.Held → w_pending w = None →
  wb_writes (writes_journal (w_journal w)) !! j = Some e → e = DELIVERED.
Proof.
  intros Hw Hh Hp Hj. pose proof (wi_replay _ Hw j) as Hr. rewrite Hj in Hr. inversion Hr as [? a Ha E|]; subst.
  symmetry in H. destruct (wi_terminal _ Hw _ _ H) as [->| ->]; [by rewrite Hp| |].
  - destruct Ha as [?|[_ ?]]; done.
  - by destruct Hh; eapply wi_ambiguous.
Qed.

Lemma replay_dom_writes w :
  w_inv w → dom (wb_writes (writes_journal (w_journal w))) = dom (w_writes w).
Proof.
  intros Hw. apply set_eq. intros id. rewrite !elem_of_dom. destruct (wi_replay _ Hw id); split; eauto.
  all: by intros [].
Qed.

Lemma replay_size_writes w :
  w_inv w → size (wb_writes (writes_journal (w_journal w))) = size (w_writes w).
Proof. intros Hw. by rewrite <-!size_dom, replay_dom_writes. Qed.

Lemma next_write_fresh w : w_inv w → w_writes w !! (Z.of_nat (size (w_writes w)) + 1) = None.
Proof.
  intros Hw. apply eq_None_not_Some. intros H%(wi_ids _ Hw). lia.
Qed.

Lemma insert_size_eq {V} (m : gmap Z V) i x : is_Some (m !! i) → size (<[i:=x]> m) = size m.
Proof. intros [y Hy]. rewrite map_size_insert, Hy. done. Qed.

(** The outstanding write settles: [e] is what the memory holds, [b] what the journal says. *)
Lemma terminal_fields w id e l' :
  w_inv w → w_pending w = Some id → e = DELIVERED ∨ e = AMBIGUOUS →
  (∀ j, j ≠ id → wb_writes (writes_journal l') !! j = wb_writes (writes_journal (w_journal w)) !! j) →
  (∃ b, wb_writes (writes_journal l') !! id = Some b ∧ write_replayed b e) →
  let m := <[id := e]> (w_writes w) in
  (∀ j, is_Some (m !! j) ↔ 1 ≤ j ≤ Z.of_nat (size m)) ∧
  (∀ j x, m !! j = Some x → x = DELIVERED ∨ x = AMBIGUOUS) ∧
  (∀ j, option_Forall2 write_replayed (wb_writes (writes_journal l') !! j) (m !! j)) ∧
  (∀ j, m !! j = Some AMBIGUOUS → e = AMBIGUOUS ∨ k_state (w_core w) = State.Held).
Proof.
  intros Hw Hp He Hother (b & Hb & Hr). cbn zeta. pose proof (wi_pending _ Hw _ Hp) as Hid.
  rewrite insert_size_eq by eauto. split_and!.
  - intros j. rewrite <-(wi_ids _ Hw). destruct (decide (j = id)) as [->|Hj].
    + rewrite lookup_insert_eq. split; eauto.
    + by rewrite lookup_insert_ne by done.
  - intros j x [[<- <-]|[Hj Hx]]%lookup_insert_Some; [done|]. eapply (wi_terminal _ Hw); [done|]. congruence.
  - intros j. destruct (decide (j = id)) as [->|Hj].
    + rewrite lookup_insert_eq, Hb. by constructor.
    + rewrite lookup_insert_ne, Hother by done. apply (wi_replay _ Hw).
  - intros j [[<- <-]|[Hj Hx]]%lookup_insert_Some; [by left|right]. by eapply wi_ambiguous.
Qed.

(** A record that says nothing a restart rebuilds writes from. *)
Definition silent_record (w : WCore) (r : Rec.t) : Prop :=
  match r with
  | Rec.WriterSessionEnded _ | Rec.MaintHeld _ => True
  | Rec.WriteLateUpstream id => is_Some (w_writes w !! id)
  | _ => False
  end.

Lemma inv_note w r : w_inv w → silent_record w r → w_inv (w_log r w).
Proof.
  intros Hw Hr. apply w_inv_core; try done; cbn [k_log k_append k_journal].
  - apply k_inv_write_record; [by destruct r|apply (wi_core _ Hw)].
  - rewrite writes_journal_snoc. by destruct r.
  - rewrite opened_app. destruct r; try done; simpl; by rewrite orb_false_r.
  - apply write_legal_snoc; [apply (wi_legal _ Hw)|]. destruct r; try done. simpl in *.
    rewrite <-elem_of_dom, replay_dom_writes by done. by apply elem_of_dom.
Qed.

Lemma inv_base w k' : w_inv w → lsteps (w_core w) k' → w_inv (w_with_core k' w).
Proof.
  intros Hw Hs. destruct (lsteps_entries _ _ Hs) as (es & Hj & Hb & Hq).
  destruct (base_entries_silent (w_journal w) es Hb) as [H1 H2].
  apply w_inv_core; rewrite ?Hj; try done.
  - by eapply lsteps_inv; [apply (wi_core _ Hw)|].
  - apply write_legal_app; [apply (wi_legal _ Hw)|done|]. intros Ho. by apply Hq, (wi_quiesced _ Hw).
  - intros Hh. apply rank_held. etrans; [|by apply lsteps_rank]. by rewrite Hh.
  - intros Hk. eapply ksteps_quiesced; [done|]. by apply lsteps_ksteps.
Qed.

Lemma inv_hold w : w_inv w → w_inv (w_hold w).
Proof. intros Hw. apply inv_base; [done|]. apply lstep_tighten, tighten_hold. Qed.

(** The fields a step leaves alone are read off the invariant before it; the fields about another
    phase of the maintenance hold vacuously. *)
Ltac w_kept Hw :=
  first [exact (wi_core _ Hw) | exact (wi_ids _ Hw) | exact (wi_pending _ Hw) | exact (wi_terminal _ Hw)
        | exact (wi_ambiguous _ Hw) | exact (wi_replay _ Hw) | exact (wi_owner _ Hw) | exact (wi_owned _ Hw) | exact (wi_outstanding _ Hw)
        | exact (wi_open _ Hw) | exact (wi_not_opened _ Hw) | exact (wi_quiesced _ Hw) | exact (wi_begun _ Hw)
        | exact (wi_not_begun _ Hw) | exact (wi_ended _ Hw) | exact (wi_legal _ Hw)].
Ltac w_split Hw :=
  split; cbn [w_with_core w_with_maint w_with_session w_with_pending w_with_writes w_log w_hold w_terminal
              w_core w_maint w_session w_pending w_writes k_log k_append k_journal k_state];
  rewrite ?writes_journal_snoc, ?opened_app; cbn [writes_step wb_writes wb_begun wb_ended opened existsb is_maint_open]; rewrite ?orb_false_r;
  try w_kept Hw; try done; unfold under_way in *; try (intros; exfalso; intuition congruence).

Lemma inv_connect w : w_inv w → w_session w = None → w_inv (w_with_session (Some false) w).
Proof. intros Hw Hs. pose proof (wi_owner _ Hw). w_split Hw. Qed.

Lemma inv_disconnect w :
  w_inv w → w_pending w = None → ¬ (under_way (w_maint w) ∧ w_session w = Some true) → w_inv (w_with_session None w).
Proof. intros Hw Hp Hn. pose proof (wi_owner _ Hw). w_split Hw. Qed.

Lemma k_inv_hold k : k_inv k → k_inv (k_with_state State.Held k).
Proof. intros Hk. eapply kstep_inv; [done|]. by constructor; constructor. Qed.

Lemma quiesced_hold k : quiesced k → quiesced (k_with_state State.Held k).
Proof. intros [_ ?]. by split; [simpl; lia|]. Qed.

Lemma inv_request w owner generation :
  w_inv w → w_maint w = Maintenance.NotBegun → w_session w = Some owner →
  w_inv (w_with_maint Maintenance.Pending (w_with_session (Some true) (w_log (Rec.MaintRequested generation) w))).
Proof.
  intros Hw Hm Hs. w_split Hw.
  - by apply k_inv_write_record, wi_core.
  - intros id Hp. destruct (wi_outstanding _ Hw _ Hp); congruence.
  - intros _. apply (wi_not_opened _ Hw). by left.
  - intros _. apply (wi_ended _ Hw). congruence.
  - apply write_legal_snoc; [apply (wi_legal _ Hw)|]. by apply (wi_not_begun _ Hw).
Qed.

Lemma inv_open w :
  w_inv w → w_maint w = Maintenance.Pending → fenced (w_core w) →
  w_inv (w_with_maint Maintenance.Open (w_log (Rec.MaintOpen (k_state (w_core w))) w)).
Proof.
  intros Hw Hm Hf. assert (Hu : under_way (w_maint w)) by by left. w_split Hw.
  - by apply k_inv_write_record, wi_core.
  - intros _. by apply (wi_owner _ Hw).
  - by left.
  - intros _. apply orb_true_r.
  - intros _. apply Hf.
  - intros _. by apply (wi_begun _ Hw).
  - intros _. apply (wi_ended _ Hw). congruence.
  - apply write_legal_snoc; [apply (wi_legal _ Hw)|]. split_and!.
    + by apply fenced_state.
    + by apply (wi_begun _ Hw).
    + apply (wi_ended _ Hw). congruence.
    + apply (wi_not_opened _ Hw). by right.
Qed.

Lemma inv_held w :
  w_inv w → w_maint w = Maintenance.Pending ∨ w_maint w = Maintenance.Open → k_state (w_core w) = State.Held →
  w_inv (w_with_maint Maintenance.Held w).
Proof.
  intros Hw Hm Hs. assert (Hu : under_way (w_maint w)) by (unfold under_way; tauto). w_split Hw.
  - intros _. by apply (wi_owner _ Hw).
  - by right.
  - intros _. by apply (wi_begun _ Hw).
  - intros _. apply (wi_ended _ Hw). destruct Hm; congruence.
Qed.

Lemma inv_end w how n ids :
  w_inv w → under_way (w_maint w) → w_pending w = None →
  w_inv (w_with_maint Maintenance.Ended (w_log (Rec.MaintEnded how n ids) w)).
Proof.
  intros Hw Hm Hp. w_split Hw.
  - by apply k_inv_write_record, wi_core.
  - apply write_legal_snoc; [apply (wi_legal _ Hw)|]. split; [by apply (wi_begun _ Hw)|].
    apply (wi_ended _ Hw). unfold under_way in *. intuition congruence.
Qed.

Lemma inv_end_unrecorded w : w_inv w → w_pending w = None → w_inv (w_with_maint Maintenance.Ended w).
Proof. intros Hw Hp. w_split Hw. Qed.

Lemma inv_forward w id op version kind namespace name digest prior :
  w_inv w → w_maint w = Maintenance.Open → fenced (w_core w) → w_pending w = None →
  id = Z.of_nat (size (w_writes w)) + 1 →
  w_inv (w_with_pending (Some id) (w_with_writes (<[id := WRITE_FORWARDED]> (w_writes w))
           (w_log (Rec.WriteForwarded id op version kind namespace name digest prior) w))).
Proof.
  intros Hw Hm Hf Hp Hid. pose proof (next_write_fresh _ Hw) as Hfresh. rewrite <-Hid in Hfresh. w_split Hw.
  - by apply k_inv_write_record, wi_core.
  - intros j. rewrite map_size_insert, Hfresh. pose proof (wi_ids _ Hw j) as Hj.
    destruct (decide (j = id)) as [->|].
    + rewrite lookup_insert_eq. split; [lia|eauto].
    + rewrite lookup_insert_ne, Hj by done. simpl. lia.
  - intros j [= <-]. apply lookup_insert_eq.
  - intros j e [[-> _]|[_ He]]%lookup_insert_Some Hj; [by destruct Hj|].
    apply (wi_terminal _ Hw _ _ He). by rewrite Hp.
  - intros j [[_ ?]|[_ He]]%lookup_insert_Some; [done|]. by apply (wi_ambiguous _ Hw _ He).
  - intros j. destruct (decide (j = id)) as [->|].
    + rewrite !lookup_insert_eq. constructor. by left.
    + rewrite !lookup_insert_ne by done. apply (wi_replay _ Hw).
  - by left.
  - apply write_legal_snoc; [apply (wi_legal _ Hw)|]. split_and!.
    + by apply (wi_open _ Hw).
    + apply (wi_ended _ Hw). congruence.
    + by rewrite replay_size_writes.
    + intros j e. apply writes_delivered; [done|apply Hf|done].
Qed.

(** The outstanding write settles as [e]; [k'] is the core after its record and its hold. *)
Lemma inv_terminal w id e k' :
  w_inv w → w_pending w = Some id → e = DELIVERED ∨ e = AMBIGUOUS ∧ k_state k' = State.Held → k_inv k' →
  opened (k_journal k') = opened (w_journal w) →
  (wb_begun (writes_journal (k_journal k')) = wb_begun (writes_journal (w_journal w)) ∧
   wb_ended (writes_journal (k_journal k')) = wb_ended (writes_journal (w_journal w))) →
  (∀ j, j ≠ id → wb_writes (writes_journal (k_journal k')) !! j = wb_writes (writes_journal (w_journal w)) !! j) →
  (∃ b, wb_writes (writes_journal (k_journal k')) !! id = Some b ∧ write_replayed b e) →
  write_legal_journal (k_journal k') → (k_state (w_core w) = State.Held → k_state k' = State.Held) →
  (quiesced (w_core w) → quiesced k') →
  w_inv (w_terminal id e (w_with_core k' w)).
Proof.
  intros Hw Hp He Hk Ho [Hb Hend] Hother Hid Hl Hh Hq.
  destruct (terminal_fields w id e (k_journal k') Hw Hp) as (T1 & T2 & T3 & T4); [tauto|done|done|].
  w_split Hw; rewrite ?Ho, ?Hb, ?Hend; try w_kept Hw.
  - intros j x Hx _. by eapply T2.
  - intros j [->|?]%T4; [|by apply Hh]. by destruct He as [?|[_ ?]].
  - intros Hopen. by apply Hq, (wi_quiesced _ Hw).
Qed.

(** The fields of [inv_terminal] about the journal, when WRITE_TERMINAL was recorded. *)
Lemma terminal_journal w id c details :
  w_inv w → w_pending w = Some id → c ≠ Classification.NotForwarded →
  let l := w_journal w ++ [Entry.Record_ (Rec.WriteTerminal id c details)] in
  opened l = opened (w_journal w) ∧
  (wb_begun (writes_journal l) = wb_begun (writes_journal (w_journal w)) ∧
   wb_ended (writes_journal l) = wb_ended (writes_journal (w_journal w))) ∧
  (∀ j, j ≠ id → wb_writes (writes_journal l) !! j = wb_writes (writes_journal (w_journal w)) !! j) ∧
  (∃ b, wb_writes (writes_journal l) !! id = Some b ∧ write_replayed b (write_terminal c)) ∧
  write_legal_journal l.
Proof.
  intros Hw Hp Hc. cbn zeta. rewrite opened_app, writes_journal_snoc. simpl. rewrite orb_false_r. split_and!; try done.
  - intros j Hj. by rewrite lookup_insert_ne.
  - eexists. rewrite lookup_insert_eq. split; [done|]. by left.
  - apply write_legal_snoc; [apply (wi_legal _ Hw)|]. split; [|done].
    pose proof (wi_replay _ Hw id) as Hr. rewrite (wi_pending _ Hw _ Hp) in Hr.
    inversion Hr as [b a Hba Hb Ha|]; subst. destruct Hba as [<-|[-> ?]]; done.
Qed.

Lemma inv_deliver w id details :
  w_inv w → w_pending w = Some id →
  w_inv (w_terminal id DELIVERED (w_log (Rec.WriteTerminal id Classification.DeliveredResult details) w)).
Proof.
  intros Hw Hp.
  destruct (terminal_journal w id Classification.DeliveredResult details Hw Hp) as (? & ? & ? & ? & ?); [done|].
  apply inv_terminal; try done; [by left|]. by apply k_inv_write_record, wi_core.
Qed.

Lemma inv_lose w id details :
  w_inv w → w_pending w = Some id →
  w_inv (w_hold (w_terminal id AMBIGUOUS (w_log (Rec.WriteTerminal id Classification.IoAmbiguous details) w))).
Proof.
  intros Hw Hp.
  destruct (terminal_journal w id Classification.IoAmbiguous details Hw Hp) as (? & ? & ? & ? & ?); [done|].
  apply (inv_terminal w id AMBIGUOUS (k_with_state State.Held (k_log _ (w_core w)))); try done; [by right| |].
  - by apply k_inv_hold, k_inv_write_record, wi_core.
  - apply quiesced_hold.
Qed.

Lemma inv_lose_unrecorded w id : w_inv w → w_pending w = Some id → w_inv (w_hold (w_terminal id AMBIGUOUS w)).
Proof.
  intros Hw Hp. apply (inv_terminal w id AMBIGUOUS (k_with_state State.Held (w_core w))); try done; [by right| | | |].
  - by apply k_inv_hold, wi_core.
  - pose proof (wi_replay _ Hw id) as Hr. rewrite (wi_pending _ Hw _ Hp) in Hr.
    inversion Hr as [b a Hba Hb Ha|]; subst. exists b. split; [done|]. destruct Hba as [<-|[-> ?]]; [by right|done].
  - apply (wi_legal _ Hw).
  - apply quiesced_hold.
Qed.

(** What a rebuild concludes is what the memory, settled, held. *)
Lemma rebuilt_writes w : w_inv w → (rebuild_writes (w_journal w)).1 = write_settle <$> w_writes w.
Proof.
  intros Hw. apply map_eq. intros id. cbn [rebuild_writes fst]. rewrite !lookup_fmap.
  destruct (wi_replay _ Hw id) as [b a Hba|]; [|done]. simpl. f_equal.
  by destruct Hba as [->|[-> ->]].
Qed.

Lemma write_cases w id a :
  w_inv w → w_writes w !! id = Some a → a = WRITE_FORWARDED ∨ a = DELIVERED ∨ a = AMBIGUOUS.
Proof.
  intros Hw Ha. destruct (decide (w_pending w = Some id)) as [Hp|Hp].
  - rewrite (wi_pending _ Hw _ Hp) in Ha. injection Ha as <-. by left.
  - right. by eapply (wi_terminal _ Hw).
Qed.

Lemma any_write_ambiguous_spec m : any_write_ambiguous m = false → ∀ id, m !! id ≠ Some AMBIGUOUS.
Proof.
  unfold any_write_ambiguous. intros Hn id Hid.
  assert (existsb write_ambiguous (btree_values m) = true) by (apply existsb_btree_values; eauto). congruence.
Qed.

(** The state a restart leaves, on any core with the same journal. *)
Lemma inv_restarted w k :
  w_inv w → k_inv k → k_journal k = w_journal w → (quiesced (w_core w) → quiesced k) →
  (any_write_ambiguous (rebuild_writes (w_journal w)).1 = true → k_state k = State.Held) →
  w_inv (mkWCore k Maintenance.Ended None None (rebuild_writes (w_journal w)).1).
Proof.
  intros Hw Hk Hj Hq Hamb. pose proof (rebuilt_writes _ Hw) as Hr. rewrite Hr in *. w_split Hw; rewrite ?Hj; try w_kept Hw.
  - intros id. rewrite lookup_fmap, fmap_is_Some, map_size_fmap. apply (wi_ids _ Hw).
  - intros id e He _. rewrite lookup_fmap, fmap_Some in He. destruct He as (a & Ha & ->).
    destruct (write_cases _ _ _ Hw Ha) as [->|[->| ->]]; [by right|by left|by right].
  - intros id Hid. destruct (any_write_ambiguous _) eqn:E; [by apply Hamb|].
    by destruct (any_write_ambiguous_spec _ E id).
  - intros id. rewrite lookup_fmap. pose proof (wi_replay _ Hw id) as Hrep.
    destruct (w_writes w !! id) as [a|] eqn:Ha; inversion Hrep as [b a' Hba|]; subst; constructor.
    destruct (write_cases _ _ _ Hw Ha) as [->|[->| ->]]; unfold write_replayed in *; cbn; naive_solver.
  - intros Ho. by apply Hq, (wi_quiesced _ Hw).
Qed.

Lemma wstep_inv w w' : w_inv w → wstep w w' → w_inv w'.
Proof.
  intros Hw Hs. destruct Hs.
  - by apply inv_base.
  - by apply inv_connect.
  - by apply inv_note.
  - by apply inv_disconnect.
  - by eapply inv_request.
  - by apply inv_open.
  - by apply inv_held.
  - by apply inv_end.
  - by apply inv_end_unrecorded.
  - by apply inv_forward.
  - by apply inv_deliver.
  - by apply inv_lose.
  - by apply inv_lose_unrecorded.
  - assert (Hk := k_restart _ _ H). apply inv_restarted; [done| |done| |done].
    + eapply kstep_inv; [apply (wi_core _ Hw)|exact Hk].
    + intros Hq. eapply kstep_quiesced; [exact Hq|exact Hk].
Qed.

Lemma wsteps_inv w w' : w_inv w → wsteps w w' → w_inv w'.
Proof. intros Hw Hs. induction Hs; eauto using wstep_inv. Qed.

(** *** What a legal journal says *)

Lemma write_legal_inv l : write_legal_journal l →
  match reverse l with
  | [] => True
  | Entry.Torn :: l' => write_legal_journal (reverse l')
  | Entry.Record_ r :: l' => write_legal_journal (reverse l') ∧ write_legal (reverse l') r
  end.
Proof.
  destruct 1 as [|l H|l r H Hr]; [done|..]; rewrite reverse_app, reverse_singleton; simpl; by rewrite reverse_involutive.
Qed.

Lemma write_legal_snoc_inv l e :
  write_legal_journal (l ++ [e]) →
  write_legal_journal l ∧ match e with Entry.Record_ r => write_legal l r | Entry.Torn => True end.
Proof.
  intros H%write_legal_inv. rewrite reverse_app, reverse_singleton in H. simpl in H.
  by destruct e; rewrite reverse_involutive in H.
Qed.

Lemma write_legal_at l1 r l2 : write_legal_journal (l1 ++ Entry.Record_ r :: l2) → write_legal l1 r.
Proof.
  induction l2 as [|e l2 IH] using rev_ind.
  - by intros [_ ?]%write_legal_snoc_inv.
  - rewrite app_comm_cons, app_assoc. intros [H _]%write_legal_snoc_inv. by apply IH.
Qed.

(** The write identifiers the journal forwards, in order. *)
Definition forwarded_id (e : Entry.t) : option Z :=
  match e with Entry.Record_ (Rec.WriteForwarded id _ _ _ _ _ _ _) => Some id | _ => None end.
Definition forwarded_ids (l : list Entry.t) : list Z := omap forwarded_id l.

Lemma legal_write_ids l :
  write_legal_journal l →
  ∀ id, is_Some (wb_writes (writes_journal l) !! id) ↔ 1 ≤ id ≤ Z.of_nat (size (wb_writes (writes_journal l))).
Proof.
  induction 1 as [|l _ IH|l r _ IH Hr]; [|rewrite writes_journal_snoc; exact IH|].
  { intros id. simpl. rewrite lookup_empty, map_size_empty. split; [by intros []|lia]. }
  rewrite writes_journal_snoc. destruct r; try exact IH; intros id; cbn [writes_step wb_writes] in *; simpl in Hr.
  - destruct Hr as (_ & _ & -> & _). pose proof (IH id) as Hi.
    assert (Hn : wb_writes (writes_journal l) !! (Z.of_nat (size (wb_writes (writes_journal l))) + 1) = None).
    { apply eq_None_not_Some. rewrite IH. lia. }
    rewrite map_size_insert, Hn. simpl.
    destruct (decide (id = Z.of_nat (size (wb_writes (writes_journal l))) + 1)) as [->|].
    + rewrite lookup_insert_eq. split; [lia|eauto].
    + rewrite lookup_insert_ne, IH by done. lia.
  - destruct Hr as [Hr _]. rewrite insert_size_eq, <-IH by eauto. destruct (decide (id = write_id)) as [->|].
    + rewrite lookup_insert_eq. split; eauto.
    + by rewrite lookup_insert_ne.
Qed.

Lemma forwarded_ids_legal l :
  write_legal_journal l → forwarded_ids l = seqZ 1 (Z.of_nat (size (wb_writes (writes_journal l)))).
Proof.
  unfold forwarded_ids. induction 1 as [|l Hl IH|l r Hl IH Hr]; [done|..]; rewrite omap_app, writes_journal_snoc, IH.
  { by rewrite app_nil_r. }
  destruct r; cbn [writes_step wb_writes omap list_omap forwarded_id]; rewrite ?app_nil_r; try done; simpl in Hr.
  - destruct Hr as (_ & _ & -> & _).
    assert (Hn : wb_writes (writes_journal l) !! (Z.of_nat (size (wb_writes (writes_journal l))) + 1) = None).
    { apply eq_None_not_Some. rewrite (legal_write_ids _ Hl). lia. }
    rewrite map_size_insert, Hn. rewrite seqZ_S. do 2 f_equal; lia.
  - destruct Hr as [Hr _]. by rewrite insert_size_eq by eauto.
Qed.

(** Once the maintenance opened, the worker's records are over. *)
Lemma opened_excludes l1 l2 :
  write_legal_journal (l1 ++ l2) → opened l1 = true → Forall (λ e, ¬ worker_entry e) l2.
Proof.
  induction l2 as [|e l2 IH] using rev_ind; [constructor|]. rewrite app_assoc.
  intros [Hl He]%write_legal_snoc_inv Ho. apply Forall_app. split; [by apply IH|]. constructor; [|constructor].
  intros Hw. assert (Hop : opened (l1 ++ l2) = true) by by rewrite opened_app, Ho.
  destruct e as [r|]; [|done]. destruct r; simpl in *; try done; congruence.
Qed.
