(* ===== verification/PolicySteps.v ===== *)
(** * Every event of the policy gate is a run of the write protocol

    [wcore] forgets what the write protocol does not speak of; [handle_wfollows] proves that each
    event of [PolicyGate::handle] moves it by protocol steps, so that the protocol's invariants
    are the policy gate's. *)

From S2P Require Import Prelude Sha256 Json Schema Frame Render Types Journal Observation Config Policy Gate PolicyGate.
From S2P Require Import Protocol ProtocolProofs GateSteps GateSafety PolicyProtocol.
Section PolicySteps.
Context {St Ob : Type} {HS : Stores St} {HL : StoresLaws St} {HO : WorkerObserver Ob}.
Implicit Types (p : PolicyGate St Ob) (g : Gate St Ob).

Definition wcore p : WCore :=
  mkWCore (core (pg_gate p)) (pg_maintenance p) (ss_owner <$> pg_session p) (pw_write_id <$> pg_pending p)
    (pg_writes p).

(** [p'] is reached from [p] by protocol steps. *)
Definition wfollows p p' : Prop := w_inv (wcore p) → wsteps (wcore p) (wcore p').

#[export] Instance wfollows_refl : Reflexive wfollows.
Proof. intros p _. constructor. Qed.
#[export] Instance wfollows_trans : Transitive wfollows.
Proof.
  intros p1 p2 p3 H12 H23 Hw. specialize (H12 Hw). etrans; [done|]. apply H23. by eapply wsteps_inv.
Qed.

Lemma wfollows_quiet p p' : wcore p' = wcore p → wfollows p p'.
Proof. intros Hc _. rewrite Hc. constructor. Qed.

Lemma wfollows_inv p p' : w_inv (wcore p) → wfollows p p' → w_inv (wcore p').
Proof. intros Hw Hf. by eapply wsteps_inv; [|apply Hf]. Qed.

Lemma wfollows_step p p' : wstep (wcore p) (wcore p') → wfollows p p'.
Proof. intros Hs _. by apply rtc_once. Qed.

(** The base gate moves. *)
Lemma wfollows_gate p g' : follows (pg_gate p) g' → wfollows p (with_gate g' p).
Proof. intros Hf Hw. apply rtc_once, (w_base (wcore p)), Hf, (wi_core _ Hw). Qed.

Lemma wfollows_set_held p : wfollows p (Writer.set_state State.Held p).
Proof. apply wfollows_gate, follows_hold. Qed.

(** *** Records *)

Lemma wrecord_cases r p :
  (∃ g', Writer.record r p = (with_gate g' p, true) ∧ core g' = k_log r (core (pg_gate p)) ∧
         outer g' = outer (pg_gate p)) ∨
  (∃ g', Writer.record r p = (with_gate g' p, false) ∧ moves (pg_gate p) g').
Proof.
  unfold Writer.record. destruct (record_cases (pg_gate p) r) as [(s & -> & Hc)|(g' & -> & Hm)]; [left|right]; eauto 10.
Qed.

Lemma wfollows_note r p : silent_record (wcore p) r → wfollows p (Writer.note r p).
Proof.
  intros Hr. unfold Writer.note. destruct (wrecord_cases r p) as [(g' & -> & Hc & _)|(g' & -> & Hm)]; cbn [fst].
  - apply wfollows_step. unfold wcore. cbn [with_gate pg_gate pg_maintenance pg_session pg_pending pg_writes].
    rewrite Hc. by apply (w_note (wcore p)).
  - by apply wfollows_gate, moves_follows.
Qed.

(** *** The maintenance follows the fence *)

Lemma fence_open_fenced g : fence g = DrainAnswer.Open → fenced (core g).
Proof.
  intros Hf. split.
  - intros Hs. unfold fence in Hf. change (g_state g = State.Held) in Hs. by rewrite bool_decide_eq_true_2 in Hf.
  - destruct (fence_decided g) as [Hs|Hq]; [congruence| |done].
    unfold fence in Hf. by rewrite bool_decide_eq_true_2 in Hf.
Qed.

Lemma fence_held g : fence g = DrainAnswer.Held ↔ g_state g = State.Held.
Proof.
  unfold fence. case_bool_decide; [done|]. split; [|done]. by destruct (negb _ || _).
Qed.

Lemma fenced_open g : fenced (core g) → fence g = DrainAnswer.Open.
Proof. intros [Hh Hq]. destruct (quiesced_fence g Hq) as [|H%fence_held]; done. Qed.

Lemma wfollows_open_maintenance p : wfollows p (Writer.open_maintenance p).
Proof.
  unfold Writer.open_maintenance. destruct (_ && _) eqn:E; [|done].
  apply andb_prop in E as [Hm%bool_decide_eq_true Hf%bool_decide_eq_true].
  destruct (wrecord_cases (Rec.MaintOpen (g_state (pg_gate p))) p) as [(g' & -> & Hc & _)|(g' & -> & Hmv)].
  - apply wfollows_step. unfold wcore.
    cbn [with_maintenance with_gate pg_gate pg_maintenance pg_session pg_pending pg_writes]. rewrite Hc.
    apply (w_open (wcore p)); [done|]. by apply fence_open_fenced.
  - by apply wfollows_gate, moves_follows.
Qed.

Lemma wfollows_hold_maintenance p : wfollows p (Writer.hold_maintenance p).
Proof.
  unfold Writer.hold_maintenance. destruct (_ && _) eqn:E; [|done].
  apply andb_prop in E as [Hm%bool_decide_eq_true Hf%bool_decide_eq_true].
  trans (with_maintenance Maintenance.Held p).
  - apply wfollows_step, (w_held (wcore p)); [done|]. by apply fence_held.
  - by apply wfollows_note.
Qed.

Lemma wfollows_settle p : wfollows p (Writer.settle_maintenance p).
Proof. etrans; [apply wfollows_open_maintenance|apply wfollows_hold_maintenance]. Qed.

(** *** Aborting the outstanding write *)

Lemma abort_pending_spec reason p :
  wfollows p (Writer.abort_pending reason p) ∧ pg_pending (Writer.abort_pending reason p) = None ∧
  pg_session (Writer.abort_pending reason p) = pg_session p ∧
  pg_maintenance (Writer.abort_pending reason p) = pg_maintenance p.
Proof.
  unfold Writer.abort_pending. destruct (pg_pending p) as [w|] eqn:Hp; [|done].
  assert (Hid : w_pending (wcore p) = Some (pw_write_id w)) by (unfold wcore; simpl; by rewrite Hp).
  unfold Writer.note.
  destruct (wrecord_cases (Rec.WriteTerminal (pw_write_id w) Classification.IoAmbiguous (WriteDetails.Aborted reason))
              (with_pending None p)) as [(g' & -> & Hc & _)|(g' & -> & Hm)].
  - split; [|done]. apply wfollows_step. pose proof (w_lose (wcore p) _ (WriteDetails.Aborted reason) Hid) as Hs.
    unfold w_hold, w_terminal, w_log in Hs. cbn in Hs, Hc. rewrite <-Hc in Hs. exact Hs.
  - split; [|done]. trans (with_gate g' p); [by apply wfollows_gate, moves_follows|].
    apply wfollows_step, (w_lose_unrecorded (wcore (with_gate g' p))). exact Hid.
Qed.

(** *** Sessions *)

(** A record does not see the session. *)
Lemma note_session r v p : Writer.note r (with_session v p) = with_session v (Writer.note r p).
Proof. unfold Writer.note, Writer.record. simpl. by destruct (record (pg_gate p) r). Qed.

Lemma note_fields r p :
  pg_pending (Writer.note r p) = pg_pending p ∧ pg_session (Writer.note r p) = pg_session p ∧
  pg_maintenance (Writer.note r p) = pg_maintenance p ∧ pg_writes (Writer.note r p) = pg_writes p.
Proof. unfold Writer.note, Writer.record. by destruct (record (pg_gate p) r). Qed.

Lemma end_maintenance_follows how p :
  pg_pending p = None → under_way (pg_maintenance p) → wfollows p (Writer.end_maintenance how p).
Proof.
  intros Hp Hu. unfold Writer.end_maintenance, Writer.note.
  set (p1 := with_reason _ _). destruct (wrecord_cases (Writer.maint_ended how p1) p1) as [(g' & -> & Hc & _)|(g' & -> & Hm)].
  - apply wfollows_step. unfold wcore. simpl. rewrite Hc.
    apply (w_end (wcore p)); [done|]. simpl. by rewrite Hp.
  - trans (with_gate g' p); [by apply wfollows_gate, moves_follows|].
    apply wfollows_step, (w_end_unrecorded (wcore (with_gate g' p))). simpl. by rewrite Hp.
Qed.

Lemma wfollows_disconnect p :
  pg_pending p = None → ¬ (under_way (pg_maintenance p) ∧ ss_owner <$> pg_session p = Some true) →
  wfollows p (with_session None p).
Proof. intros Hp Hn. apply wfollows_step, (w_disconnect (wcore p)); [by simpl; rewrite Hp|done]. Qed.

Lemma end_session_follows how fatal p :
  pg_pending p = None → wfollows p (Writer.end_session how fatal p).1.
Proof.
  intros Hp. unfold Writer.end_session. cbn zeta. rewrite note_session.
  assert (Hn : wfollows p (Writer.note (Rec.WriterSessionEnded how) p)) by by apply wfollows_note.
  destruct (note_fields (Rec.WriterSessionEnded how) p) as (N1 & N2 & N3 & _).
  set (p1 := Writer.note _ p) in *. cbn [with_session pg_maintenance pg_writes fst].
  change (pg_maintenance (with_session None p1)) with (pg_maintenance p1).
  destruct (_ && negb _) eqn:E; cbn [fst].
  - apply andb_prop in E as [Ho He%negb_true_iff%bool_decide_eq_false].
    assert (Hcomm : Writer.end_maintenance (MaintenanceEnd.Session how) (with_session None p1) =
                    with_session None (Writer.end_maintenance (MaintenanceEnd.Session how) p1)).
    { unfold Writer.end_maintenance. by rewrite <-note_session. }
    rewrite Hcomm. intros Hw. etrans; [by apply Hn|].
    assert (Hw1 : w_inv (wcore p1)) by by eapply wfollows_inv.
    assert (Hs : ss_owner <$> pg_session p1 = Some true) by (rewrite N2; destruct (pg_session p); [|done]; simpl in *; by rewrite Ho).
    assert (Hu : under_way (pg_maintenance p1)).
    { pose proof (wi_owned _ Hw1 Hs) as Hnb. simpl in Hnb. unfold under_way. destruct (pg_maintenance p1); auto; done. }
    assert (Hem : wfollows p1 (Writer.end_maintenance (MaintenanceEnd.Session how) p1)).
    { apply end_maintenance_follows; [congruence|done]. }
    etrans; [by apply Hem|]. apply wfollows_disconnect.
    + unfold Writer.end_maintenance. destruct (note_fields (Writer.maint_ended (MaintenanceEnd.Session how) (with_reason (Some (MaintenanceReason.Ended (MaintenanceEnd.Session how))) (with_maintenance Maintenance.Ended p1))) (with_reason (Some (MaintenanceReason.Ended (MaintenanceEnd.Session how))) (with_maintenance Maintenance.Ended p1))) as (-> & _). simpl. congruence.
    + unfold Writer.end_maintenance. intros [Hum _]. revert Hum.
      set (p2 := with_reason _ _). destruct (note_fields (Writer.maint_ended (MaintenanceEnd.Session how) p2) p2) as (_ & _ & -> & _).
      by intros [|[|]].
    + by eapply wfollows_inv.
  - etrans; [exact Hn|]. apply wfollows_disconnect; [congruence|]. rewrite N2.
    intros [Hu Hs]. apply andb_false_iff in E as [E|E%negb_false_iff%bool_decide_eq_true].
    + destruct (pg_session p); [|done]. simpl in *. congruence.
    + rewrite E in Hu. by destruct Hu as [|[|]].
Qed.

Lemma writer_fatal_follows reason p : wfollows p (Writer.writer_fatal reason p).1.
Proof.
  destruct (abort_pending_spec AbortReason.WriterProtocolFailure p) as (H & Hp & _ & _).
  etrans; [exact H|]. by apply end_session_follows.
Qed.

Lemma connect_follows p : wfollows p (Writer.connect p).1.
Proof.
  unfold Writer.connect. destruct (pg_session p) eqn:E; [done|].
  apply wfollows_step, (w_connect (wcore p)). simpl. by rewrite E.
Qed.

Lemma hold_urgently_follows reason p :
  wfollows p (Writer.hold_urgently reason p).
Proof.
  unfold Writer.hold_urgently. etrans; [|apply wfollows_set_held].
  apply wfollows_gate, moves_follows, moves_urgent. by left.
Qed.

Lemma ended_after_hold how fatal abort reason p :
  wfollows p (Writer.end_session how fatal (Writer.hold_urgently reason (Writer.abort_pending abort p))).1.
Proof.
  destruct (abort_pending_spec abort p) as (H & Hp & _ & _). etrans; [exact H|].
  etrans; [apply hold_urgently_follows|]. by apply end_session_follows.
Qed.

Lemma channel_lost_follows p : wfollows p (Writer.channel_lost p).1.
Proof.
  unfold Writer.channel_lost. destruct (pg_session p); [|done].
  destruct (abort_pending_spec AbortReason.WriterChannelLost p) as (H & Hp & _ & _).
  etrans; [exact H|]. by apply end_session_follows.
Qed.

Lemma peer_changed_follows p : wfollows p (Writer.peer_changed p).1.
Proof. unfold Writer.peer_changed. destruct (pg_session p); [apply ended_after_hold|done]. Qed.

Lemma answer_late_follows p : wfollows p (Writer.answer_late p).1.
Proof. unfold Writer.answer_late. destruct (pg_session p); [apply ended_after_hold|done]. Qed.

(** *** Operations *)

Lemma frame_response_core sequence digest operation payload p :
  wcore (Writer.frame_response sequence digest operation payload p).1 = wcore p.
Proof.
  unfold Writer.frame_response. destruct (pg_session p) as [s|] eqn:E; [|done].
  destruct (check_frame_encoded _ _); [|done]. unfold wcore. simpl. by rewrite E.
Qed.

Lemma begin_follows expected p : is_Some (pg_session p) → wfollows p (Writer.begin expected p).1.
Proof.
  intros [s Hs]. unfold Writer.begin. case_bool_decide; [|done]. case_bool_decide; [done|]. cbn [negb].
  case_bool_decide as Hm; [|cbn [fst]; apply wfollows_settle].
  destruct (wrecord_cases (Rec.MaintRequested (c_generation (g_config (pg_gate p)))) p)
    as [(g' & -> & Hc & _)|(g' & -> & Hmv)]; cbn [negb fst].
  - set (p1 := with_maintenance _ _).
    assert (H1 : wfollows p p1).
    { apply wfollows_step.
      assert (wcore p1 = w_with_maint Maintenance.Pending (w_with_session (Some true)
                (w_log (Rec.MaintRequested (c_generation (g_config (pg_gate p)))) (wcore p)))) as ->.
      { unfold p1, Writer.own_session. cbn [with_gate pg_session]. rewrite Hs. unfold wcore, w_log. simpl. by rewrite Hc. }
      apply (w_request (wcore p) (ss_owner s)); [done|]. simpl. by rewrite Hs. }
    etrans; [exact H1|]. etrans; [|apply wfollows_settle]. by apply wfollows_gate, follows_drain.
  - by apply wfollows_gate, moves_follows.
Qed.

(** At an event boundary a maintenance that waits or is open is not held back by a HELD generation. *)
Definition in_step p : Prop :=
  pg_maintenance p = Maintenance.Pending ∨ pg_maintenance p = Maintenance.Open → g_state (pg_gate p) ≠ State.Held.

Lemma open_fenced p :
  w_inv (wcore p) → in_step p → pg_maintenance p = Maintenance.Open → fenced (core (pg_gate p)).
Proof.
  intros Hw Hs Hm. split; [by apply Hs; right|]. by apply (wi_quiesced _ Hw), (wi_open _ Hw).
Qed.

Lemma write_object_follows request sequence digest p :
  pg_pending p = None → in_step p → wfollows p (Writer.write_object request sequence digest p).1.
Proof.
  intros Hp Hs. unfold Writer.write_object, Writer.refuse_write.
  case_bool_decide as Hm; [cbn [negb]|by apply wfollows_quiet].
  destruct (Z.eqb_spec (wr_write_id request) (Z.of_nat (size (pg_writes p)) + 1)) as [Hid|];
    [cbn [negb]|by apply wfollows_quiet].
  destruct (check_write _ _ _) as [row|]; [|by apply wfollows_quiet].
  destruct (render_write _ _ _ _) as [rendered|]; [|by apply wfollows_quiet].
  set (r := Rec.WriteForwarded _ _ _ _ _ _ _ _).
  destruct (wrecord_cases r p) as [(g' & -> & Hc & _)|(g' & -> & Hmv)]; cbn [negb fst].
  - intros Hw. apply rtc_once. unfold wcore. simpl. rewrite Hc.
    apply (w_forward (wcore p)); [done|by apply open_fenced|by simpl; rewrite Hp|done].
  - by apply wfollows_gate, moves_follows.
Qed.

Lemma end_follows p : pg_pending p = None → wfollows p (Writer.end_ p).1.
Proof.
  intros Hp. unfold Writer.end_. case_bool_decide; [done|]. case_bool_decide; [done|].
  destruct (wrecord_cases (Writer.maint_ended MaintenanceEnd.WriteEnd p) p) as [(g' & -> & Hc & _)|(g' & -> & Hm)]; cbn [negb fst].
  - apply wfollows_step. unfold wcore. simpl. rewrite Hc. apply (w_end (wcore p)); [|by simpl; rewrite Hp].
    unfold under_way. simpl. destruct (pg_maintenance p); auto; done.
  - by apply wfollows_gate, moves_follows.
Qed.

(** *** Frames *)

Lemma perform_follows request sequence digest p :
  is_Some (pg_session p) → pg_pending p = None → in_step p → wfollows p (Writer.perform request sequence digest p).1.
Proof.
  intros Hses Hp Hs. destruct request as [|expected|request|]; cbn [Writer.perform]; [done|..].
  - pose proof (begin_follows expected p Hses). by destruct (Writer.begin expected p).
  - by apply write_object_follows.
  - pose proof (end_follows p Hp). by destruct (Writer.end_ p).
Qed.

Lemma respond_follows sequence digest operation payload p :
  wfollows p (Writer.respond sequence digest operation payload p).1.
Proof.
  unfold Writer.respond. pose proof (frame_response_core sequence digest operation payload p) as Hc.
  destruct (Writer.frame_response _ _ _ _ p) as [p1 [bytes|]]; cbn [fst] in *.
  - by apply wfollows_quiet.
  - etrans; [by apply wfollows_quiet|]. apply writer_fatal_follows.
Qed.

Lemma open_session_owner e s s' : Writer.open_session e s = Ok s' → ss_owner s' = ss_owner s.
Proof. unfold Writer.open_session. repeat case_match; intros; by simplify_eq. Qed.

Lemma writer_frame_follows input p : in_step p → wfollows p (Writer.writer_frame input p).1.
Proof.
  intros Hs. unfold Writer.writer_frame. destruct (pg_pending p) eqn:Hp; [apply writer_fatal_follows|].
  destruct (checked_frame _ _) as [[value encoded]|]; [|apply writer_fatal_follows].
  destruct (Writer.parse_writer_envelope value) as [e|]; [|apply writer_fatal_follows].
  destruct (_ || _); [apply writer_fatal_follows|]. destruct (_ || _); [apply writer_fatal_follows|].
  destruct (pg_session p) as [s|] eqn:Hses; [|done].
  destruct (Writer.open_session e s) as [s'|] eqn:Ho; [|apply writer_fatal_follows].
  trans (with_session (Some s') p).
  { apply wfollows_quiet. unfold wcore. simpl. rewrite Hses. simpl. by rewrite (open_session_owner _ _ _ Ho). }
  set (p1 := with_session (Some s') p).
  destruct (_ <=? _); [apply writer_fatal_follows|]. destruct (let* payload := _ in _) as [request|]; [|apply writer_fatal_follows].
  pose proof (perform_follows request (Writer.we_sequence e) (prefixed encoded) p1 ltac:(by eexists) Hp Hs) as Hf.
  destruct (Writer.perform _ _ _ p1) as [p2 [payload|id]]; cbn [fst] in *; [|done].
  etrans; [exact Hf|]. apply respond_follows.
Qed.

(** *** Upstream outcomes *)

(** The write's record, its memory and the hold of [settle_write]. *)
Definition settled_write w outcome p : PolicyGate St Ob * Classification.t * option WriteDetails.t :=
  let id := pw_write_id w in
  let '(classification, details) := Writer.classify_write (pw_operation w) outcome in
  let '(p, recorded) := Writer.record (Rec.WriteTerminal id classification details) (with_pending None p) in
  let '(classification, delivered) := Writer.write_settled recorded classification details in
  let p := with_writes (<[id := write_terminal classification]> (pg_writes p)) p in
  (if bool_decide (classification = Classification.IoAmbiguous) then Writer.set_state State.Held p else p,
   classification, delivered).

Lemma settle_write_unfold w outcome p :
  Writer.settle_write w outcome p =
  (let '(p, classification, delivered) := settled_write w outcome p in
   let unanswered := policy_output (PolicyOutputKind.Upstream classification None) in
   match pg_session p with
   | None => (p, unanswered)
   | Some _ =>
       let payload := Writer.write_result w classification delivered in
       let '(p, framed) := Writer.frame_response (pw_sequence w) (pw_frame_digest w) "WRITE_OBJECT" payload p in
       match framed with
       | Some bytes => (p, mkPolicyOutput (PolicyOutputKind.Upstream classification (Some payload)) None (Some bytes))
       | None => ((Writer.writer_fatal WriterFatal.ResponseOutOfBounds p).1, unanswered)
       end
   end).
Proof.
  unfold Writer.settle_write, settled_write. destruct (Writer.classify_write _ _) as [c d].
  destruct (Writer.record _ _) as [p1 b]. by destruct (Writer.write_settled _ _ _) as [c' d'].
Qed.

Lemma classify_write_cases op outcome c details :
  Writer.classify_write op outcome = (c, details) →
  c = Classification.DeliveredResult ∧
    (∃ response, outcome = UpstreamOutcome.Response response ∧
       write_outcome_is_final op (u_http_status response) = true ∧
       details = WriteDetails.Delivered (u_http_status response) (u_body_digest response)
         (if WriteOperation.is_success op (u_http_status response) then u_uid response else None)
         (if WriteOperation.is_success op (u_http_status response) then u_resource_version response else None)) ∨
  c = Classification.IoAmbiguous ∧ ∀ b, Writer.write_settled b c details = (Classification.IoAmbiguous, None).
Proof.
  unfold Writer.classify_write. destruct outcome as [| |response].
  1,2: by intros [= <- <-]; right; split; [|intros []].
  destruct (write_outcome_is_final _ _) eqn:E; intros [= <- <-]; [left; split; [done|]; eauto|right].
  by split; [|intros []].
Qed.

Lemma settled_write_follows w outcome p p' c d :
  pg_pending p = Some w → settled_write w outcome p = (p', c, d) → wfollows p p' ∧ pg_pending p' = None ∧
  pg_session p' = pg_session p.
Proof.
  intros Hp. unfold settled_write. destruct (Writer.classify_write _ _) as [c0 d0] eqn:Hcl.
  assert (Hid : w_pending (wcore p) = Some (pw_write_id w)) by (simpl; by rewrite Hp).
  assert (Hlost : ∀ g', moves (pg_gate p) g' →
    wfollows p (Writer.set_state State.Held (with_writes (<[pw_write_id w := AMBIGUOUS]> (pg_writes p))
                  (with_gate g' (with_pending None p))))).
  { intros g' Hm. trans (with_gate g' p); [by apply wfollows_gate, moves_follows|].
    apply wfollows_step, (w_lose_unrecorded (wcore (with_gate g' p))). exact Hid. }
  destruct (wrecord_cases (Rec.WriteTerminal (pw_write_id w) c0 d0) (with_pending None p))
    as [(g' & -> & Hc & _)|(g' & -> & Hm)].
  - destruct (classify_write_cases _ _ _ _ Hcl) as [(-> & r & -> & _ & ->)|(-> & ->)]; cbn; intros [= <- <- <-].
    + split; [|done]. apply wfollows_step. pose proof (w_deliver (wcore p) _ (WriteDetails.Delivered (u_http_status r)
         (u_body_digest r) (if WriteOperation.is_success (pw_operation w) (u_http_status r) then u_uid r else None)
         (if WriteOperation.is_success (pw_operation w) (u_http_status r) then u_resource_version r else None)) Hid) as Hs.
      unfold w_terminal, w_log in Hs. cbn in Hs, Hc. rewrite <-Hc in Hs. exact Hs.
    + split; [|done]. apply wfollows_step. pose proof (w_lose (wcore p) _ d0 Hid) as Hs.
      unfold w_hold, w_terminal, w_log in Hs. cbn in Hs, Hc. rewrite <-Hc in Hs. exact Hs.
  - cbn. intros [= <- <- <-]. by split; [apply Hlost|].
Qed.

Lemma settle_write_follows w outcome p :
  pg_pending p = Some w → wfollows p (Writer.settle_write w outcome p).1.
Proof.
  intros Hp. rewrite settle_write_unfold. destruct (settled_write w outcome p) as [[p1 c] d] eqn:E.
  destruct (settled_write_follows _ _ _ _ _ _ Hp E) as (Hf & Hp1 & _). etrans; [exact Hf|].
  destruct (pg_session p1); [|done]. cbn zeta.
  match goal with |- context [Writer.frame_response ?a ?b ?c ?d p1] =>
    pose proof (frame_response_core a b c d p1) as Hc; destruct (Writer.frame_response a b c d p1) as [p2 [bytes|]] end;
    cbn [fst] in *.
  - by apply wfollows_quiet.
  - etrans; [by apply wfollows_quiet|]. apply writer_fatal_follows.
Qed.

Lemma late_follows id p : is_Some (pg_writes p !! id) → wfollows p (Writer.note (Rec.WriteLateUpstream id) p).
Proof. intros H. by apply wfollows_note. Qed.

Lemma upstream_follows id outcome p : wfollows p (Writer.upstream id outcome p).1.
Proof.
  unfold Writer.upstream. destruct (match outcome with UpstreamOutcome.Response _ => _ | _ => _ end); [done|].
  destruct (pg_pending p) as [w|] eqn:Hp.
  - destruct (_ =? _); [by pose proof (settle_write_follows w outcome p Hp); destruct (Writer.settle_write _ _ _)|].
    case_bool_decide; [by apply late_follows|done].
  - case_bool_decide; [by apply late_follows|done].
Qed.

(** *** Restart *)

Definition restart_floor (l : list Entry.t) : option State.t :=
  if any_write_ambiguous (rebuild_writes l).1 then Some State.Held else None.

Lemma restart_spec p :
  let g1 := restarting (restart_floor (journal (pg_gate p))) (pg_gate p) in
  k_inv (core g1) →
  ∃ k', lsteps (core g1) k' ∧
    wcore (Writer.restart p).1 =
      mkWCore k' Maintenance.Ended None None (rebuild_writes (journal (pg_gate p))).1.
Proof.
  cbn zeta. intros Hk. unfold Writer.restart, restart_floor in *.
  change (pg_gate (with_pending None p)) with (pg_gate p).
  destruct (rebuild_writes _) as [writes reason]. cbn [fst with_writes with_maintenance with_reason pg_gate] in *.
  rewrite restart_with_note. cbn zeta. change (pg_gate (with_pending None p)) with (pg_gate p).
  set (g1 := restarting _ (pg_gate p)) in *. set (g2 := note _ g1).
  pose proof (follows_settle_drain g2) as Hsd. destruct (settle_drain g2) as [g3 answer] eqn:Hd. cbn [fst] in Hsd.
  exists (core g3). split; [|by cbv beta iota; rewrite Hd]. assert (M : moves g1 g2) by by apply moves_note.
  destruct (M Hk) as (S1 & _ & _). etrans; [exact S1|]. apply Hsd. by eapply lsteps_inv.
Qed.

Lemma restart_follows p : wfollows p (Writer.restart p).1.
Proof.
  intros Hw. destruct (restarting_core (restart_floor (journal (pg_gate p))) (pg_gate p)) as (s & Hs & Hfl & Hcore).
  assert (Hs1 : wstep (wcore p) (mkWCore (core (restarting (restart_floor (journal (pg_gate p))) (pg_gate p)))
                  Maintenance.Ended None None (rebuild_writes (journal (pg_gate p))).1)).
  { rewrite Hcore. apply (w_restart (wcore p)); [done|]. intros Ha. apply Hfl. unfold restart_floor.
    change (w_journal (wcore p)) with (journal (pg_gate p)) in Ha. by rewrite Ha. }
  destruct (restart_spec p) as (k' & Hl & ->); [apply (wi_core _ (wstep_inv _ _ Hw Hs1))|].
  eapply rtc_l; [exact Hs1|]. apply rtc_once.
  exact (w_base (mkWCore _ Maintenance.Ended None None (rebuild_writes (journal (pg_gate p))).1) _ Hl).
Qed.

(** *** Events *)

Lemma with_drain_follows p output : wfollows p (Writer.with_drain p output).1.
Proof.
  unfold Writer.with_drain. pose proof (follows_settle_drain (pg_gate p)) as H.
  destruct (settle_drain (pg_gate p)) as [g a]. by apply wfollows_gate.
Qed.

Lemma drained_follows p r : wfollows p r.1 → wfollows p (Writer.drained r).1.
Proof.
  intros H. unfold Writer.drained. pose proof (with_drain_follows r.1 r.2) as Hd.
  destruct (Writer.with_drain r.1 r.2). by etrans.
Qed.

Lemma wdispatch_follows event p : in_step p → wfollows p (Writer.dispatch event p).1.
Proof.
  intros Hs. destruct event as [e| | | | |id outcome|]; cbn [Writer.dispatch].
  - destruct (is_restart e) eqn:He.
    + destruct e; try done. pose proof (restart_follows p). by destruct (Writer.restart p).
    + assert (wfollows p (with_gate (handle e (pg_gate p)).1 p)) by by apply wfollows_gate, follows_handle.
      destruct e; try done; by destruct (handle _ (pg_gate p)).
  - apply drained_follows, connect_follows.
  - destruct (pg_session p); [|done]. by apply drained_follows, writer_frame_follows.
  - apply drained_follows, channel_lost_follows.
  - apply drained_follows, peer_changed_follows.
  - pose proof (upstream_follows id outcome p). destruct (Writer.upstream id outcome p) as [p1 [output|]]; [|done].
    by apply drained_follows.
  - apply drained_follows, answer_late_follows.
Qed.

Lemma handle_wfollows event p : in_step p → wfollows p (Writer.handle event p).1.
Proof.
  intros Hs. unfold Writer.handle. pose proof (wdispatch_follows event p Hs).
  destruct (Writer.dispatch event p) as [p1 [output|]]; [|done]. etrans; [done|]. apply wfollows_settle.
Qed.

End PolicySteps.
