(* ===== verification/PolicySafety.v ===== *)
(** * Safety of the policy gate over all its runs

    A reachable policy gate is a new one, the process restart of a reachable one's journal, or a
    reachable one after one more event.  The theorems: its journal is a legal run of both
    protocols, the policy writes and the worker's actions never overlap, the writes are numbered
    once each and what became of them survives every restart, and nothing is relayed that is not
    durable. *)

From S2P Require Import Prelude Sha256 Json Schema Frame Render Types Journal Observation Config Policy Gate PolicyGate.
From S2P Require Import Protocol ProtocolProofs GateSteps GateSafety PolicyProtocol PolicySteps.
Section PolicySafety.
Context {St Ob : Type} {HS : Stores St} {HL : StoresLaws St} {HO : WorkerObserver Ob}.
Implicit Types (p : PolicyGate St Ob) (g : Gate St Ob).

(** [PolicyGate::new] and [create] start on empty stores, [open] on a journal that an earlier
    process left. *)
Inductive policy_reachable : PolicyGate St Ob → Prop :=
| policy_new schema config stores observer g parts :
    with_stores_new schema config stores observer = Ok g → entries stores = [] →
    policy_reachable (Writer.around parts g)
| policy_open p0 schema config stores observer g parts :
    policy_reachable p0 → with_stores_new schema config stores observer = Ok g →
    entries stores = journal (pg_gate p0) →
    policy_reachable (Writer.settle_maintenance (Writer.restart (Writer.around parts g)).1)
| policy_handle p event : policy_reachable p → policy_reachable (Writer.handle event p).1.

(** *** At event boundaries *)

Lemma settle_in_step p : in_step (Writer.settle_maintenance p).
Proof.
  unfold Writer.settle_maintenance. set (p1 := Writer.open_maintenance p). unfold Writer.hold_maintenance.
  destruct (_ && _) eqn:E.
  - destruct (note_fields (Rec.MaintHeld (g_state (pg_gate (with_maintenance Maintenance.Held p1))))
                (with_maintenance Maintenance.Held p1)) as (_ & _ & Hm & _).
    intros Hp. rewrite Hm in Hp. by destruct Hp.
  - intros Hp Hs%fence_held. rewrite Hs in E. rewrite !bool_decide_eq_true_2 in E by done. done.
Qed.

(** An event outside the preconditions changes nothing. *)
Lemma refused_policy_event event p error : (Writer.dispatch event p).2 = Err error → (Writer.dispatch event p).1 = p.
Proof.
  assert (Hg : with_gate (pg_gate p) p = p) by by destruct p.
  destruct event as [e|c|input| | |id outcome|]; cbn [Writer.dispatch].
  - pose proof (refused_event e (pg_gate p)) as Hr.
    destruct e; try (by destruct (Writer.restart p));
      destruct (handle _ (pg_gate p)) as [g' [output|e']]; cbn in Hr |- *; try done; intros _; by rewrite (Hr e').
  - unfold Writer.drained. by destruct (Writer.with_drain _ _).
  - destruct (pg_session p); [|done]. unfold Writer.drained. by destruct (Writer.with_drain _ _).
  - unfold Writer.drained. by destruct (Writer.with_drain _ _).
  - unfold Writer.drained. by destruct (Writer.with_drain _ _).
  - unfold Writer.drained, Writer.upstream. destruct (match outcome with UpstreamOutcome.Response _ => _ | _ => _ end); [done|].
    destruct (pg_pending p) as [w|].
    + destruct (_ =? _); [destruct (Writer.settle_write _ _ _); cbn; by destruct (Writer.with_drain _ _)|].
      case_bool_decide; [cbn; by destruct (Writer.with_drain _ _)|done].
    + case_bool_decide; [cbn; by destruct (Writer.with_drain _ _)|done].
  - unfold Writer.drained. by destruct (Writer.with_drain _ _).
Qed.

Definition p_inv p : Prop := w_inv (wcore p) ∧ in_step p.

Lemma handle_p_inv event p : p_inv p → p_inv (Writer.handle event p).1.
Proof.
  intros [Hw Hs]. split; [by eapply wfollows_inv; [|apply handle_wfollows]|].
  unfold Writer.handle. pose proof (refused_policy_event event p) as Hr.
  destruct (Writer.dispatch event p) as [p1 [output|error]]; cbn [fst snd] in *; [apply settle_in_step|].
  by rewrite (Hr error).
Qed.

Lemma new_p_inv parts g : k_inv (core g) → journal g = [] → p_inv (Writer.around parts g).
Proof.
  intros Hk Hj. split; [|by intros [|]]. split; cbn [wcore Writer.around w_core w_maint w_session w_pending w_writes
    pg_gate pg_maintenance pg_session pg_pending pg_writes fmap option_fmap option_map]; try done;
    change (k_journal (core g)) with (journal g); rewrite ?Hj; try done; try by (intros [|[|]]).
  - intros id. rewrite lookup_empty, map_size_empty. split; [by intros []|lia].
  - intros id. rewrite !lookup_empty. constructor.
  - constructor.
Qed.

(** The gate a process restart builds from the journal of [w]. *)
Lemma open_p_inv w schema config stores observer g parts :
  w_inv w → with_stores_new schema config stores observer = Ok g → entries stores = w_journal w →
  p_inv (Writer.settle_maintenance (Writer.restart (Writer.around parts g)).1).
Proof.
  intros Hw Hnew He. split; [|apply settle_in_step].
  eapply wfollows_inv; [|apply wfollows_settle]. set (p := Writer.around parts g).
  assert (Hj : journal g = w_journal w) by (rewrite <-He; by eapply new_gate_journal).
  pose proof (reopened_restarting _ _ _ _ _ _ (restart_floor (journal g)) (wi_core _ Hw) Hnew He) as Hk.
  destruct (restart_spec p) as (k' & Hl & ->); [exact Hk|]. change (pg_gate p) with g in *.
  destruct (restarting_core (restart_floor (journal g)) g) as (s & Hs & Hfl & Hcore).
  set (k := core (restarting (restart_floor (journal g)) g)) in *.
  assert (Hw1 : w_inv (mkWCore k Maintenance.Ended None None (rebuild_writes (w_journal w)).1)).
  { apply inv_restarted; [done|done|by rewrite Hcore| |].
    - intros _. rewrite Hcore. split; [by eapply restart_state_rank|].
      intros id a Ha. cbn [k_with_state k_with_actions k_actions] in Ha. rewrite lookup_fmap, fmap_Some in Ha.
      destruct Ha as (b & _ & ->). unfold rebuild_settle. destruct (a_status b) eqn:Hb; simpl; congruence.
    - intros Ha. rewrite Hcore. apply Hfl. unfold restart_floor. by rewrite Hj, Ha. }
  rewrite Hj. exact (inv_base (mkWCore k Maintenance.Ended None None _) k' Hw1 Hl).
Qed.

Lemma policy_reachable_inv p : policy_reachable p → p_inv p.
Proof.
  induction 1 as [schema config stores observer g parts Hnew He|p0 schema config stores observer g parts _ IH Hnew He|p event _ IH].
  - apply new_p_inv; [by eapply new_gate_inv|]. rewrite <-He. by eapply new_gate_journal.
  - destruct IH as [Hw _]. by eapply open_p_inv.
  - by apply handle_p_inv.
Qed.

(** *** Theorems *)

(** [C6] The journal of every reachable policy gate is at once a legal run of the action protocol
    and of the write protocol: the maintenance is requested once, opens once and only in a
    CLOSED or INVALIDATED generation, a write is forwarded only while it is open and not ended,
    with the next number and after every earlier write was delivered, and each outcome settles
    the write that was forwarded. *)
Theorem policy_journal_is_legal p :
  policy_reachable p → write_legal_journal (journal (pg_gate p)) ∧ legal_journal (journal (pg_gate p)).
Proof. intros [Hw _]%policy_reachable_inv. split; [apply (wi_legal _ Hw)|apply (inv_legal _ (wi_core _ Hw))]. Qed.

(** [C7] The worker and the policy writer never overlap: from the moment a maintenance opens, over
    every later event, restart and process, no execution is bound, no action armed and none
    forwarded; and no policy write is forwarded before it. *)
Theorem maintenance_excludes_actions p l1 s l2 :
  policy_reachable p → journal (pg_gate p) = l1 ++ Entry.Record_ (Rec.MaintOpen s) :: l2 →
  Forall (λ e, ¬ worker_entry e) l2 ∧ forwarded_ids l1 = [].
Proof.
  intros [Hw _]%policy_reachable_inv He. pose proof (wi_legal _ Hw) as Hl.
  change (w_journal (wcore p)) with (journal (pg_gate p)) in Hl. rewrite He in Hl. split.
  - apply (opened_excludes (l1 ++ [Entry.Record_ (Rec.MaintOpen s)])).
    + by rewrite <-app_assoc.
    + rewrite opened_app. simpl. apply orb_true_r.
  - destruct (forwarded_ids l1) as [|id ids] eqn:E; [done|]. exfalso.
    assert (Hin : id ∈ forwarded_ids l1) by (rewrite E; left).
    apply list_elem_of_omap in Hin as (e & Hin & Hid). apply list_elem_of_split in Hin as (k1 & k2 & ->).
    destruct e as [r|]; [|done]. destruct r; try done.
    pose proof (write_legal_at _ _ _ Hl) as (_ & _ & _ & Ho).
    rewrite <-app_assoc in Hl. apply write_legal_at in Hl as (Ho1 & _). by rewrite opened_app, Ho1 in Ho.
Qed.

(** While the maintenance is OPEN the base gate's fence is OPEN: nothing of the worker is in
    flight and nothing can be forwarded; and a maintenance under way always has its owning
    session. *)
Theorem open_maintenance_is_fenced p :
  policy_reachable p →
  (pg_maintenance p = Maintenance.Open → fence (pg_gate p) = DrainAnswer.Open) ∧
  (under_way (pg_maintenance p) → ∃ session, pg_session p = Some session ∧ ss_owner session = true).
Proof.
  intros [Hw Hs]%policy_reachable_inv. split.
  - intros Hm. apply fenced_open. by apply open_fenced.
  - intros Hu%(wi_owner _ Hw). simpl in Hu. destruct (pg_session p) as [s|]; [|done]. exists s. split; [done|].
    by injection Hu.
Qed.

(** [C9] The writes are numbered 1, 2, .. in the order the journal forwards them, each once; the
    memory knows exactly these; and at most one of them, the outstanding one, has no outcome. *)
Theorem writes_forwarded_once p :
  policy_reachable p →
  forwarded_ids (journal (pg_gate p)) = seqZ 1 (Z.of_nat (size (pg_writes p))) ∧
  (∀ id, is_Some (pg_writes p !! id) ↔ id ∈ forwarded_ids (journal (pg_gate p))) ∧
  (∀ id e, pg_writes p !! id = Some e → we_status e = WriteStatus.Forwarded ↔ Writer.pending_write p = Some id).
Proof.
  intros [Hw _]%policy_reachable_inv.
  assert (Hf : forwarded_ids (journal (pg_gate p)) = seqZ 1 (Z.of_nat (size (pg_writes p)))).
  { pose proof (forwarded_ids_legal _ (wi_legal _ Hw)) as H. by rewrite replay_size_writes in H. }
  split_and!; [done| |].
  - intros id. rewrite Hf, elem_of_seqZ. pose proof (wi_ids _ Hw id) as H. simpl in H. rewrite H. lia.
  - intros id e He. unfold Writer.pending_write. split.
    + intros Hst. destruct (decide (w_pending (wcore p) = Some id)) as [|Hn]; [done|].
      destruct (wi_terminal _ Hw _ _ He Hn) as [-> | ->]; done.
    + intros Hp. pose proof (wi_pending _ Hw _ Hp) as H. simpl in H. rewrite He in H. by injection H as ->.
Qed.

(** [C11] A write whose outcome is unknown holds the generation: whenever some write is
    IO_AMBIGUOUS, the gate is HELD, and so is every gate restarted from its journal. *)
Theorem ambiguous_write_holds p id :
  policy_reachable p → id ∈ Writer.ambiguous_writes p →
  g_state (pg_gate p) = State.Held ∧ write_floor (journal (pg_gate p)) = Some State.Held.
Proof.
  intros [Hw _]%policy_reachable_inv Hin. unfold Writer.ambiguous_writes in Hin.
  apply list_elem_of_filter in Hin as [Ha _]. destruct (pg_writes p !! id) as [e|] eqn:He; [|done].
  assert (e = AMBIGUOUS) as ->.
  { destruct (write_cases (wcore p) _ _ Hw He) as [->|[->| ->]]; done. }
  split; [exact (wi_ambiguous _ Hw _ He)|]. unfold write_floor.
  pose proof (rebuilt_writes _ Hw) as Hr. change (w_journal (wcore p)) with (journal (pg_gate p)) in Hr. rewrite Hr.
  replace (any_write_ambiguous _) with true; [done|]. symmetry. apply existsb_btree_values.
  exists id, AMBIGUOUS. split; [|done]. rewrite lookup_fmap. simpl. by rewrite He.
Qed.

(** [C10] Crash safety of the writes: a restart, in process or of the process, knows of every write
    exactly what the lost memory knew, except that the outstanding one is IO_AMBIGUOUS. *)
Theorem restart_recovers_writes p schema config stores observer g parts :
  policy_reachable p → with_stores_new schema config stores observer = Ok g →
  entries stores = journal (pg_gate p) →
  pg_writes (Writer.restart p).1 = write_settle <$> pg_writes p ∧
  pg_writes (Writer.restart (Writer.around parts g)).1 = write_settle <$> pg_writes p.
Proof.
  intros [Hw _]%policy_reachable_inv Hnew He. pose proof (rebuilt_writes _ Hw) as Hr.
  change (w_journal (wcore p)) with (journal (pg_gate p)) in Hr. cbn [wcore w_writes] in Hr.
  assert (Hpw : ∀ q : PolicyGate St Ob, pg_writes (Writer.restart q).1 = (rebuild_writes (journal (pg_gate q))).1).
  { intros q. unfold Writer.restart. change (pg_gate (with_pending None q)) with (pg_gate q).
    destruct (rebuild_writes (journal (pg_gate q))) as [writes reason]. cbn beta iota.
    destruct (restart_with _ _) as [g1 o]. by destruct (settle_drain g1). }
  split; rewrite Hpw; [done|]. cbn [Writer.around pg_gate]. by rewrite (new_gate_journal _ _ _ _ _ Hnew), He.
Qed.

(** The phases of a maintenance, in order. *)
Definition phase (m : Maintenance.t) : nat :=
  match m with
  | Maintenance.NotBegun => 0 | Maintenance.Pending => 1 | Maintenance.Open => 2 | Maintenance.Held => 3
  | Maintenance.Ended => 4
  end.

Lemma wsteps_phase w w' : wsteps w w' → (phase (w_maint w) ≤ phase (w_maint w'))%nat.
Proof.
  induction 1 as [|w1 w2 w3 Hs _ IH]; [done|]. etrans; [|exact IH]. clear IH.
  destruct Hs; cbn [w_maint w_with_core w_with_maint w_with_session w_with_pending w_with_writes w_log w_hold w_terminal];
    try done; try (rewrite H; simpl; lia); try (destruct (w_maint w); simpl; lia).
  destruct H as [-> | ->]; simpl; lia.
Qed.

(** The maintenance only advances (NONE, PENDING, OPEN, HELD, ENDED), so an ended one never
    opens again. *)
Theorem maintenance_only_advances p event :
  policy_reachable p → (phase (pg_maintenance p) ≤ phase (pg_maintenance (Writer.handle event p).1))%nat.
Proof.
  intros [Hw Hs]%policy_reachable_inv. exact (wsteps_phase _ _ (handle_wfollows event p Hs Hw)).
Qed.

(** An event outside the gate's preconditions, base or writer, changes nothing. *)
Theorem refused_event_changes_nothing event p error :
  (Writer.handle event p).2 = Err error → (Writer.handle event p).1 = p.
Proof.
  unfold Writer.handle. pose proof (refused_policy_event event p) as Hr.
  destruct (Writer.dispatch event p) as [p1 [output|e]]; cbn in *; [done|]. intros _. by eapply Hr.
Qed.
End PolicySafety.

(** * What the policy gate forwards, and what it relays

    The functional theorems of the write path: when WRITE_OBJECT forwards and what it leaves, what
    a forwarded request may contain, and which answers are relayed as delivered. *)

Section PolicyWrites.
Context {St Ob : Type} {HS : Stores St} {HL : StoresLaws St} {HO : WorkerObserver Ob}.
Implicit Types (p : PolicyGate St Ob) (g : Gate St Ob).

(** *** Forwarding *)

(** The record of a forwarded write. *)
Definition forward_record (request : WriteRequest) (row : WritableKind) (rendered : RenderedWrite) : Rec.t :=
  Rec.WriteForwarded (wr_write_id request) (wr_operation request) (api_version row) (wk_kind row)
    (wr_namespace request) (wr_name request) (request_digest rendered) (wr_prior request).

(** What a write must pass before its record. *)
Record may_forward p (request : WriteRequest) (row : WritableKind) (rendered : RenderedWrite) : Prop := {
  mf_open : pg_maintenance p = Maintenance.Open;
  mf_next : wr_write_id request = Z.of_nat (size (pg_writes p)) + 1;
  mf_checked : check_write (pg_kinds p) (qualification_namespace (pg_writer p)) request = Ok row;
  mf_rendered :
    render_write row request (qualification_namespace (pg_writer p)) (apiserver_authority (pg_writer p)) = Some rendered;
}.

(** The journal after a record that is durable. *)
Lemma durable_journal r p p' :
  Writer.record r p = (p', true) → journal (pg_gate p') = journal (pg_gate p) ++ [Entry.Record_ r] ∧
  pg_maintenance p' = pg_maintenance p ∧ pg_writes p' = pg_writes p ∧ pg_session p' = pg_session p.
Proof.
  destruct (wrecord_cases r p) as [(g' & -> & Hc & _)|(g' & -> & _)]; [|done]. intros [= <-].
  split; [|done]. exact (f_equal k_journal Hc).
Qed.

(** The gate after the write is forwarded. *)
Definition forwarded_gate (request : WriteRequest) (rendered : RenderedWrite) (sequence : Z) (digest : string) p :=
  with_pending (Some (mkPendingWrite (wr_write_id request) (wr_operation request) (request_digest rendered)
                        sequence digest rendered))
    (with_write_counters (count_forwarded (pg_counters p))
       (with_writes (<[wr_write_id request := WRITE_FORWARDED]> (pg_writes p)) p)).

Lemma write_object_cases request sequence digest p :
  (∃ row rendered, may_forward p request row rendered ∧
     Writer.write_object request sequence digest p =
       (let '(p1, durable) := Writer.record (forward_record request row rendered) p in
        if durable then (forwarded_gate request rendered sequence digest p1, WriterReply.Forwarded (wr_write_id request))
        else (p1, WriterReply.Payload (write_refused "STORAGE_FAILURE")))) ∨
  (∃ reason, (∀ row rendered, ¬ may_forward p request row rendered) ∧
     Writer.write_object request sequence digest p = Writer.refuse_write reason p).
Proof.
  unfold Writer.write_object. case_bool_decide as Hm; cbn [negb].
  2: { right. eexists. split; [|reflexivity]. by intros row rendered []. }
  destruct (Z.eqb_spec (wr_write_id request) (Z.of_nat (size (pg_writes p)) + 1)) as [Hid|Hid]; cbn [negb].
  2: { right. eexists. split; [|reflexivity]. by intros row rendered []. }
  destruct (check_write _ _ _) as [row|] eqn:Hc.
  2: { right. eexists. split; [|reflexivity]. intros row rendered []. congruence. }
  destruct (render_write _ _ _ _) as [rendered|] eqn:Hr.
  2: { right. eexists. split; [|reflexivity]. intros row' rendered []. congruence. }
  left. exists row, rendered. split; [done|]. unfold forward_record, forwarded_gate.
  by destruct (Writer.record _ p) as [p1 []].
Qed.

(** [C8] WRITE_OBJECT forwards a write exactly when the maintenance is OPEN, the write carries the
    next number, passes the closed table and renders, and its WRITE_FORWARDED record is durable;
    then the journal gains that record and nothing else, and the write becomes the one
    outstanding write. *)
Theorem write_forwarded_iff request sequence digest p p' id :
  Writer.write_object request sequence digest p = (p', WriterReply.Forwarded id) ↔
  ∃ row rendered p1,
    may_forward p request row rendered ∧ id = wr_write_id request ∧
    Writer.record (forward_record request row rendered) p = (p1, true) ∧
    journal (pg_gate p1) = journal (pg_gate p) ++ [Entry.Record_ (forward_record request row rendered)] ∧
    p' = forwarded_gate request rendered sequence digest p1.
Proof.
  split.
  - destruct (write_object_cases request sequence digest p) as [(row & rendered & Hm & ->)|(reason & _ & ->)]; [|done].
    destruct (Writer.record _ p) as [p1 []] eqn:Hr; [|done]. intros [= <- <-]. exists row, rendered, p1.
    destruct (durable_journal _ _ _ Hr) as (Hj & _). done.
  - intros (row & rendered & p1 & Hm & -> & Hr & _ & ->).
    destruct (write_object_cases request sequence digest p) as [(row' & rendered' & Hm' & ->)|(reason & Hn & _)].
    + assert (row' = row ∧ rendered' = rendered) as [-> ->].
      { destruct Hm, Hm'. assert (row' = row) by congruence. subst. split; [done|congruence]. }
      by rewrite Hr.
    + by destruct (Hn _ _ Hm).
Qed.

(** *** Answering *)

Lemma wstep_journal w w' : wstep w w' → ∃ es, w_journal w' = w_journal w ++ es.
Proof.
  assert (Hn : ∀ l : list Entry.t, ∃ es, l = l ++ es) by (intros l; exists []; by rewrite app_nil_r).
  destruct 1; cbn [w_core w_with_core w_with_maint w_with_session w_with_pending w_with_writes w_log w_hold w_terminal
    k_log k_append k_journal k_with_state k_with_actions]; try apply Hn; eauto.
  destruct (lsteps_entries _ _ H) as (es & -> & _). eauto.
Qed.

Lemma wsteps_journal w w' : wsteps w w' → ∃ es, w_journal w' = w_journal w ++ es.
Proof.
  induction 1 as [|w1 w2 w3 Hs _ (es & ->)]; [exists []; by rewrite app_nil_r|].
  destruct (wstep_journal _ _ Hs) as (es' & ->). exists (es' ++ es). by rewrite app_assoc.
Qed.

Lemma end_maintenance_writes how p : pg_writes (Writer.end_maintenance how p) = pg_writes p.
Proof. unfold Writer.end_maintenance, Writer.note, Writer.record. by destruct (record _ _). Qed.

(** Ending a session settles no write when none is outstanding. *)
Lemma writer_fatal_writes reason p :
  pg_pending p = None →
  pg_writes (Writer.writer_fatal reason p).1 = pg_writes p ∧ pg_pending (Writer.writer_fatal reason p).1 = None.
Proof.
  intros Hp. unfold Writer.writer_fatal, Writer.abort_pending. rewrite Hp. unfold Writer.end_session. cbn zeta.
  rewrite note_session. destruct (note_fields (Rec.WriterSessionEnded SessionEnd.Fatal) p) as (N1 & _ & _ & N4).
  destruct (_ && _); cbn [fst with_session pg_writes pg_pending].
  - rewrite end_maintenance_writes. cbn [with_session pg_writes]. split; [done|].
    unfold Writer.end_maintenance. set (q := with_reason _ _).
    destruct (note_fields (Writer.maint_ended (MaintenanceEnd.Session SessionEnd.Fatal) q) q) as (-> & _).
    simpl. congruence.
  - split; congruence.
Qed.

(** What [settled_write] leaves of the outstanding write. *)
Lemma settled_write_spec w outcome p p' c d :
  pg_pending p = Some w → settled_write w outcome p = (p', c, d) →
  pg_writes p' !! pw_write_id w = Some (write_terminal c) ∧
  (c = Classification.DeliveredResult ∧
     (∃ r details, outcome = UpstreamOutcome.Response r ∧
       write_outcome_is_final (pw_operation w) (u_http_status r) = true ∧ d = Some details ∧
       details = WriteDetails.Delivered (u_http_status r) (u_body_digest r)
         (if WriteOperation.is_success (pw_operation w) (u_http_status r) then u_uid r else None)
         (if WriteOperation.is_success (pw_operation w) (u_http_status r) then u_resource_version r else None) ∧
       journal (pg_gate p') = journal (pg_gate p) ++
         [Entry.Record_ (Rec.WriteTerminal (pw_write_id w) Classification.DeliveredResult details)]) ∨
   c = Classification.IoAmbiguous ∧ d = None).
Proof.
  intros Hp. unfold settled_write. destruct (Writer.classify_write _ _) as [c0 d0] eqn:Hcl.
  destruct (Writer.record _ (with_pending None p)) as [p1 recorded] eqn:Hr.
  destruct (classify_write_cases _ _ _ _ Hcl) as [(-> & r & -> & Hfin & ->)|(-> & Hs)].
  - destruct recorded; cbn; intros [= <- <- <-].
    + split; [apply lookup_insert_eq|]. left. split; [done|]. apply durable_journal in Hr as (Hj & _). eauto 10.
    + split; [apply lookup_insert_eq|]. by right.
  - rewrite Hs. cbn. intros [= <- <- <-]. split; [apply lookup_insert_eq|]. by right.
Qed.

(** The answer to the outstanding write: it is DELIVERED_RESULT only for a response whose
    status settles the operation and whose WRITE_TERMINAL record, with that response's status
    and digest, is durable; otherwise it is IO_AMBIGUOUS and holds the generation.  The write is
    terminal either way, and nothing is outstanding any more. *)
Theorem upstream_settles_the_write p w outcome p' out :
  policy_reachable p → pg_pending p = Some w → Writer.upstream (pw_write_id w) outcome p = (p', Ok out) →
  ∃ c response,
    po_kind out = PolicyOutputKind.Upstream c response ∧
    pg_pending p' = None ∧ pg_writes p' !! pw_write_id w = Some (write_terminal c) ∧
    (c = Classification.DeliveredResult ∧
       (∃ r details l, outcome = UpstreamOutcome.Response r ∧ response_in_schema r = true ∧
          write_outcome_is_final (pw_operation w) (u_http_status r) = true ∧
          details = WriteDetails.Delivered (u_http_status r) (u_body_digest r)
            (if WriteOperation.is_success (pw_operation w) (u_http_status r) then u_uid r else None)
            (if WriteOperation.is_success (pw_operation w) (u_http_status r) then u_resource_version r else None) ∧
          journal (pg_gate p') = journal (pg_gate p) ++
            Entry.Record_ (Rec.WriteTerminal (pw_write_id w) Classification.DeliveredResult details) :: l ∧
          (∀ payload, response = Some payload → payload = Writer.write_result w c (Some details))) ∨
     c = Classification.IoAmbiguous ∧ g_state (pg_gate p') = State.Held ∧
       (∀ payload, response = Some payload → payload = Writer.write_result w c None)).
Proof.
  intros [Hw _]%policy_reachable_inv Hp Hu.
  assert (Hfol : w_inv (wcore p')).
  { pose proof (upstream_follows (pw_write_id w) outcome p) as Hf. rewrite Hu in Hf. by eapply wfollows_inv. }
  unfold Writer.upstream in Hu. destruct (match outcome with UpstreamOutcome.Response _ => _ | _ => _ end) eqn:Hsch; [done|].
  rewrite Hp, Z.eqb_refl, settle_write_unfold in Hu.
  destruct (settled_write w outcome p) as [[p1 c] d] eqn:E.
  destruct (settled_write_spec _ _ _ _ _ _ Hp E) as [Hid Hcases].
  destruct (settled_write_follows _ _ _ _ _ _ Hp E) as (Hf1 & Hp1 & _).
  assert (Hend : ∃ response, po_kind out = PolicyOutputKind.Upstream c response ∧ pg_pending p' = None ∧
    pg_writes p' = pg_writes p1 ∧ (∃ l, journal (pg_gate p') = journal (pg_gate p1) ++ l) ∧
    (∀ payload, response = Some payload → payload = Writer.write_result w c d)).
  { destruct (pg_session p1) as [s|] eqn:Hs.
    2: { injection Hu as <- <-. exists None. split_and!; try done. exists []. by rewrite app_nil_r. }
    unfold Writer.frame_response in Hu. rewrite Hs in Hu. destruct (check_frame_encoded _ _) as [bytes|]; cbn in Hu.
    - injection Hu as <- <-. eexists. split_and!; try done; [exists []; by rewrite app_nil_r|]. by intros payload [= <-].
    - injection Hu as <- <-. exists None. destruct (writer_fatal_writes WriterFatal.ResponseOutOfBounds p1 Hp1) as [F1 F2].
      split_and!; try done. destruct (wsteps_journal (wcore p1) _ (writer_fatal_follows WriterFatal.ResponseOutOfBounds p1 (wfollows_inv _ _ Hw Hf1))) as [l Hl].
      by exists l. }
  destruct Hend as (response & Ho & Hpn & Hwr & [l Hl] & Hpay). exists c, response.
  split; [done|]. split; [done|]. split; [by rewrite Hwr|].
  destruct Hcases as [(-> & r & details & -> & Hfin & -> & Hdet & Hj)|(-> & ->)]; [left|right].
  - split; [done|]. exists r, details, l. split_and!; try done.
    + by apply negb_false_iff in Hsch.
    + by rewrite Hl, Hj, <-app_assoc.
  - split_and!; try done. eapply (wi_ambiguous _ Hfol (pw_write_id w)). simpl. by rewrite Hwr.
Qed.
End PolicyWrites.
