(* ===== verification/PolicyChannels.v ===== *)
(** * What an event does to the I05 channel and to the writer session

    The substrate keeps no channel state of its own: after every event it reads the gate's.  These
    lemmas say what it will read, by event and output. *)

From S2P Require Import Prelude Sha256 Json Schema Frame Render Types Journal Observation Config Policy Gate PolicyGate.
From S2P Require Import Protocol ProtocolProofs GateSteps GateSafety GateFrames PolicyProtocol PolicySteps PolicySafety.
Section Channels.
Context {St Ob : Type} {HS : Stores St} {HL : StoresLaws St} {HO : WorkerObserver Ob}.
Implicit Types (p : PolicyGate St Ob) (g : Gate St Ob).

(** *** Records leave the channel, the bound run and its expiry as they are *)

Definition fixed g := (g_channel g, g_bound g, g_expired g).

Lemma close_unconsumed_fixed stamp g : fixed (close_unconsumed_stamped stamp g) = fixed g.
Proof. by destruct stamp. Qed.

Lemma deny_armed_with_fixed rec g :
  (∀ g r, fixed (rec g r).1 = fixed g) → fixed (deny_armed_with rec g) = fixed g.
Proof.
  intros Hrec. unfold deny_armed_with. generalize (armed_ids g) as ids. intros ids. revert g.
  induction ids as [|id ids IH]; intros g; [done|]. cbn [fold_left]. rewrite IH.
  destruct (action_has _ _ _); [|done]. rewrite Hrec. by destruct (stamp_of g id).
Qed.

Lemma mark_fixed g : fixed (mark_in_flight_after_invalidation g) = fixed g.
Proof. unfold mark_in_flight_after_invalidation. by destruct (in_flight g). Qed.

Lemma record_fuel_fixed n g r : fixed (record_fuel n g r).1 = fixed g.
Proof.
  revert g r. induction n as [|n IH]; intros g r; cbn [record_fuel]; unfold attempt;
    destruct (append (g_stores g) r) as [stores appended]; destruct (bool_decide _); try done.
  cbn [fst]. unfold storage_failure_with. cbn [with_stores g_failing]. destruct (g_failing g); [done|].
  set (g1 := deny_armed_with _ _). transitivity (fixed g1); [done|]. unfold g1.
  rewrite deny_armed_with_fixed by apply IH. rewrite IH. set (g2 := with_state State.Held _).
  transitivity (fixed (mark_in_flight_after_invalidation g2)); [done|]. by rewrite mark_fixed.
Qed.

Lemma note_fixed g r : fixed (note r g) = fixed g.
Proof. apply record_fuel_fixed. Qed.
Lemma deny_armed_fixed g : fixed (deny_armed g) = fixed g.
Proof. apply deny_armed_with_fixed, record_fuel_fixed. Qed.

Lemma settle_drain_fixed g : fixed (settle_drain g).1 = fixed g.
Proof.
  unfold settle_drain. destruct (negb _); [done|]. set (g1 := if _ && _ then _ else _).
  assert (fixed g1 = fixed g) as H1 by (unfold g1; by destruct (_ && _)).
  case_bool_decide; [done|]. cbn [fst]. by rewrite note_fixed.
Qed.

Lemma fixed_channel g g' : fixed g' = fixed g → g_channel g' = g_channel g.
Proof. unfold fixed. by intros [= ->]. Qed.

Lemma close_unconsumed_channel stamp g : g_channel (close_unconsumed_stamped stamp g) = g_channel g.
Proof. apply fixed_channel, close_unconsumed_fixed. Qed.
Lemma mark_channel g : g_channel (mark_in_flight_after_invalidation g) = g_channel g.
Proof. apply fixed_channel, mark_fixed. Qed.
Lemma record_channel g r : g_channel (Gate.record g r).1 = g_channel g.
Proof. apply fixed_channel, record_fuel_fixed. Qed.
Lemma note_channel g r : g_channel (note r g) = g_channel g.
Proof. apply fixed_channel, record_fuel_fixed. Qed.
Lemma deny_armed_channel g : g_channel (deny_armed g) = g_channel g.
Proof. apply fixed_channel, deny_armed_fixed. Qed.
Lemma settle_drain_channel g : g_channel (settle_drain g).1 = g_channel g.
Proof. apply fixed_channel, settle_drain_fixed. Qed.

Lemma urgent_channel state reason g : g_channel (urgent state reason g) = g_channel g.
Proof.
  unfold urgent. rewrite deny_armed_channel, note_channel, mark_channel. by case_bool_decide.
Qed.

Lemma fatal_channel reason g : g_channel (fatal reason g).1 = Channel.Closed.
Proof. unfold fatal. cbn [fst with_state g_channel]. by rewrite urgent_channel. Qed.

Lemma fatal_output reason g :
  ∃ g1, fatal reason g = (g1, output_of (OutputKind.Fatal reason)) ∧ g_channel g1 = Channel.Closed.
Proof. exists (fatal reason g).1. split; [done|apply fatal_channel]. Qed.

(** After the expiry event no unexpired run is bound. *)
Lemma expire_expires g run :
  bound_run (expire g).1 = Some run → br_expired run = true.
Proof.
  unfold expire, bound_run. destruct (g_bound g) as [b|] eqn:Eb; [|cbn; by rewrite Eb].
  destruct (g_expired g) eqn:Ee; [cbn; rewrite Eb; cbn; by intros [= <-]|]. cbn [fst].
  match goal with |- context [deny_armed ?g1] => pose proof (deny_armed_fixed g1) as Hd end.
  rewrite note_fixed, mark_fixed in Hd. unfold fixed in Hd. injection Hd as _ Hb He. rewrite Hb, He. cbn. rewrite Eb. cbn. by intros [= <-].
Qed.

(** *** The base gate's events *)

Definition closing_kind (kind : OutputKind.t) : Prop :=
  match kind with OutputKind.Fatal _ | OutputKind.ChannelEnd _ => True | _ => False end.
Definition answering_kind (kind : OutputKind.t) : Prop :=
  match kind with OutputKind.Response _ => True | _ => False end.
Definition refusing_kind (kind : OutputKind.t) : Prop :=
  match kind with OutputKind.RefusedChannel _ => True | _ => False end.
Definition restarting_kind (kind : OutputKind.t) : Prop :=
  match kind with OutputKind.RestartState _ => True | _ => False end.

Definition is_frame (event : Event.t) : bool := match event with Event.Frame _ => true | _ => false end.

(** The channel after an accepted event, and what kind its output is. *)
Record channel_effect (event : Event.t) (before after : Channel.t) (kind : OutputKind.t) : Prop := {
  ce_answered : answering_kind kind → is_frame event = true ∧ after = Channel.Open;
  ce_frame : is_frame event = true → before ≠ Channel.Closed →
    after = Channel.Open ∧ answering_kind kind ∨ after = Channel.Closed ∧ closing_kind kind;
  ce_closing : closing_kind kind → after = Channel.Closed;
  ce_refused : refusing_kind kind → after = before ∧ (is_frame event = true ∧ before = Channel.Closed ∨ event = Event.SecondChannel);
  ce_not_restarting : ¬ restarting_kind kind;
  ce_lost : event = Event.ChannelLost → after = Channel.Closed ∧ ¬ answering_kind kind;
  ce_late : event = Event.AnswerLate → after = Channel.Closed;
  ce_peer : event = Event.PeerChanged → after ≠ Channel.Open;
  ce_open : after = Channel.Open → before = Channel.Open ∨ is_frame event = true;
  ce_closed : before = Channel.Closed → after = Channel.Closed;
  ce_quiet : is_frame event = false → event ≠ Event.ChannelLost → event ≠ Event.PeerChanged →
    event ≠ Event.AnswerLate → after = before;
}.

(** The channel as it was, and an output of no concern to it. *)
Definition plain_kind (kind : OutputKind.t) : Prop :=
  ¬ closing_kind kind ∧ ¬ answering_kind kind ∧ ¬ refusing_kind kind ∧ ¬ restarting_kind kind.
Definition plain g (r : Gate St Ob * result Output string) : Prop :=
  ∀ out, r.2 = Ok out → g_channel r.1 = g_channel g ∧ plain_kind (o_kind out).

Lemma plain_always g g' output :
  g_channel g' = g_channel g → plain_kind (o_kind output) → plain g (always (g', output)).
Proof. intros ??? [= <-]. done. Qed.

Lemma plain_Ok g g' output :
  g_channel g' = g_channel g → plain_kind (o_kind output) → plain g (g', Ok output).
Proof. intros ??? [= <-]. done. Qed.

Lemma plain_Err g g' error : plain g (g', Err error).
Proof. by intros out [=]. Qed.

Ltac plain_kind := unfold plain_kind; simpl; tauto.

Lemma request_plain conn certificate head body_digest g : plain g (request conn certificate head body_digest g).
Proof.
  unfold request. destruct (g_connections g !! conn) as [c|]; [|apply plain_Err].
  assert (Hrefuse : ∀ g1 refusal, g_channel g1 = g_channel g →
    plain g (if ConnectionRefusal.is_correlation refusal
             then with_counters (count_correlation (g_counters (update_connection conn conn_close g1)))
                    (update_connection conn conn_close g1)
             else update_connection conn conn_close g1, Ok (output_of (OutputKind.Close refusal)))).
  { intros g1 refusal Hg1. apply plain_Ok; [by destruct (ConnectionRefusal.is_correlation refusal)|plain_kind]. }
  destruct (admit_request _ _ _ _ _ _ _) as [id|refusal]; [|by apply Hrefuse].
  unfold consume. match goal with |- context [Gate.record ?g1 ?r] => pose proof (record_channel g1 r) as Hr;
    destruct (Gate.record g1 r) as [g2 []] end; cbn [fst negb] in Hr |- *; [|by apply Hrefuse].
  apply plain_Ok; [rewrite close_unconsumed_channel; exact Hr|plain_kind].
Qed.

Lemma upstream_plain conn response g : plain g (Gate.upstream conn response g).
Proof.
  unfold Gate.upstream. destruct (let* id := _ in _) as [[id a]|]; [|apply plain_Err].
  destruct (has_status _ a); [apply plain_Ok; [apply note_channel|plain_kind]|].
  destruct (classify_upstream _ _) as [[c d] dl].
  match goal with |- context [Gate.record ?g1 ?r] => pose proof (record_channel g1 r) as Hr;
    destruct (Gate.record g1 r) as [g2 recorded] end. cbn [fst] in Hr.
  apply plain_Ok; [|plain_kind]. rewrite <-Hr. unfold update_connection. cbn [with_connections g_channel].
  case_bool_decide; [done|]. by destruct (created_uid _ _) as [[]|].
Qed.

Lemma timeout_plain conn g : plain g (timeout conn g).
Proof.
  unfold timeout. destruct (forwarded_on g conn true); [|apply plain_Err].
  apply plain_Ok; [|plain_kind]. unfold update_connection, update_action.
  cbn [with_connections with_state with_actions g_channel]. apply note_channel.
Qed.

Lemma drain_plain g : plain g (always (drain g)).
Proof.
  unfold drain. set (g1 := if bool_decide _ then _ else g). set (g2 := if g_drain_pending g1 then _ else _).
  pose proof (settle_drain_channel (deny_armed g2)) as Hs. destruct (settle_drain (deny_armed g2)) as [g3 answer].
  cbn [fst] in Hs. apply plain_always; [|plain_kind]. rewrite Hs, deny_armed_channel.
  assert (g_channel g2 = g_channel g1) as -> by (unfold g2; destruct (g_drain_pending g1); [done|by rewrite note_channel]).
  unfold g1. by case_bool_decide.
Qed.

Lemma expire_plain g : plain g (always (expire g)).
Proof.
  unfold expire. destruct (g_bound g) as [b|]; [|apply plain_always; [done|plain_kind]].
  destruct (g_expired g); [apply plain_always; [done|plain_kind]|].
  apply plain_always; [|plain_kind]. by rewrite deny_armed_channel, note_channel, mark_channel.
Qed.

Lemma plain_effect event g r out :
  plain g r → r.2 = Ok out → is_frame event = false → event ≠ Event.ChannelLost → event ≠ Event.AnswerLate →
  event ≠ Event.PeerChanged →
  channel_effect event (g_channel g) (g_channel r.1) (o_kind out).
Proof. intros Hp Hr ????. destruct (Hp out Hr) as (-> & ? & ? & ? & ?). split; try done; try tauto; congruence. Qed.

Lemma frame_effect input g :
  k_inv (core g) →
  channel_effect (Event.Frame input) (g_channel g) (g_channel (frame input g).1) (o_kind (frame input g).2).
Proof.
  intros Hk. destruct (frame_cases g input Hk) as [Hc|g0 reason _ Hc|g' out value encoded e payload Hc _ _ _ _ Ha].
  - cbn [fst snd output_of o_kind]. split; simpl; try done; try tauto; try congruence.
  - rewrite fatal_channel. split; simpl; try done; try tauto; try congruence.
  - destruct Ha as (bytes & -> & _ & Ho & _). cbn [fst snd o_kind]. rewrite Ho.
    split; simpl; try done; try tauto; try congruence.
Qed.

Lemma dispatch_effect event g g' out :
  k_inv (core g) → event ≠ Event.GateRestart → dispatch event g = (g', Ok out) →
  channel_effect event (g_channel g) (g_channel g') (o_kind out).
Proof.
  intros Hk Hr Hd.
  assert (∀ r, plain g r → dispatch event g = r → is_frame event = false → event ≠ Event.ChannelLost →
    event ≠ Event.AnswerLate → event ≠ Event.PeerChanged →
    channel_effect event (g_channel g) (g_channel g') (o_kind out)) as Hplain.
  { intros r Hp He ????. rewrite Hd in He. subst r. by apply (plain_effect event g (g', Ok out)). }
  destruct event; cbn [dispatch] in *; try (eapply Hplain; [|reflexivity|done..];
    first [apply request_plain | apply upstream_plain | apply timeout_plain | apply drain_plain | apply expire_plain
          | by apply plain_Ok; [|plain_kind]]).
  - injection Hd as <- <-. by apply frame_effect.
  - eapply Hplain; [|reflexivity|done..]. unfold accept. destruct (negb _); [apply plain_Err|].
    apply plain_Ok; [|plain_kind]. by destruct (let* action := _ in _).
  - injection Hd as <- <-. unfold channel_lost. destruct (g_channel g) eqn:Hc.
    + cbn [fst snd]. rewrite note_channel. split; simpl; try done; try tauto; try congruence.
    + destruct (orderly g); [cbn [fst snd]; rewrite note_channel|rewrite fatal_channel];
        split; simpl; try done; try tauto; try congruence.
    + cbn [fst snd]. rewrite Hc. split; simpl; try done; try tauto; try congruence.
  - assert (o_kind out = OutputKind.RefusedChannel ChannelRefusal.ChannelExists ∧ g_channel g = Channel.Open ∧ g' = g ∨
            o_kind out = OutputKind.RefusedChannel ChannelRefusal.GenerationChannelUsed ∧ g_channel g = Channel.Closed ∧ g' = g)
      as [(-> & Hc & ->)|(-> & Hc & ->)].
    { destruct (g_channel g); [done|injection Hd as <- <-; eauto..]. }
    all: rewrite Hc; split; simpl; try done; try tauto; try congruence.
  - case_bool_decide as Hc.
    + destruct (fatal_output FatalReason.PeerChanged g) as (g1 & E & H1). rewrite E in Hd. injection Hd as <- <-.
      rewrite H1. split; simpl; try done; try tauto; try congruence.
    + injection Hd as <- <-. split; simpl; try done; try tauto; try congruence.
  - destruct (g_channel g) eqn:Hc; [done| |done].
    destruct (fatal_output FatalReason.AnswerLate g) as (g1 & E & H1). rewrite E in Hd. injection Hd as <- <-.
    rewrite H1. split; simpl; try done; try tauto; try congruence.
  - eapply Hplain; [|reflexivity|done..]. unfold disconnect. destruct (g_connections g !! conn); [|apply plain_Err].
    case_match; [apply plain_Err|]. apply plain_Ok; [done|plain_kind].
Qed.

Lemma handle_effect event g g' out :
  k_inv (core g) → event ≠ Event.GateRestart → Gate.handle event g = (g', Ok out) →
  channel_effect event (g_channel g) (g_channel g') (o_kind out).
Proof.
  intros Hk Hr. unfold Gate.handle. destruct (dispatch event g) as [g1 [out1|]] eqn:Hd; [|done].
  pose proof (settle_drain_channel g1) as Hs. destruct (settle_drain g1) as [g2 answer]. cbn [fst] in Hs.
  intros [= <- <-]. rewrite Hs. replace (o_kind _) with (o_kind out1) by by destruct answer.
  by apply dispatch_effect.
Qed.

(** *** The policy gate's events *)

Definition p_channel p : Channel.t := g_channel (pg_gate p).
Definition same_channel p p' : Prop := p_channel p' = p_channel p.
Definition same_session p p' : Prop := is_Some (pg_session p') ↔ is_Some (pg_session p).

Lemma wnote_keeps r p : same_channel p (Writer.note r p) ∧ pg_session (Writer.note r p) = pg_session p.
Proof.
  unfold Writer.note, Writer.record, same_channel, p_channel.
  pose proof (record_channel (pg_gate p) r) as Hr. by destruct (Gate.record (pg_gate p) r).
Qed.

Lemma wrecord_keeps r p :
  p_channel (Writer.record r p).1 = p_channel p ∧ pg_session (Writer.record r p).1 = pg_session p.
Proof. apply wnote_keeps. Qed.

Lemma settle_maintenance_keeps p :
  p_channel (Writer.settle_maintenance p) = p_channel p ∧ pg_session (Writer.settle_maintenance p) = pg_session p.
Proof.
  assert (∀ q, p_channel (Writer.hold_maintenance q) = p_channel q ∧
               pg_session (Writer.hold_maintenance q) = pg_session q) as Hh.
  { intros q. unfold Writer.hold_maintenance. destruct (_ && _); [|done].
    by destruct (wnote_keeps (Rec.MaintHeld (g_state (pg_gate (with_maintenance Maintenance.Held q))))
                  (with_maintenance Maintenance.Held q)) as [-> ->]. }
  unfold Writer.settle_maintenance. destruct (Hh (Writer.open_maintenance p)) as [-> ->].
  unfold Writer.open_maintenance. destruct (_ && _); [|done].
  match goal with |- context [Writer.record ?r p] => destruct (wrecord_keeps r p) as [H1 H2];
    destruct (Writer.record r p) as [p1 []] end; done.
Qed.

Lemma with_drain_keeps p output :
  p_channel (Writer.with_drain p output).1 = p_channel p ∧ pg_session (Writer.with_drain p output).1 = pg_session p ∧
  po_kind (Writer.with_drain p output).2 = po_kind output ∧
  po_response_frame (Writer.with_drain p output).2 = po_response_frame output.
Proof.
  unfold Writer.with_drain. pose proof (settle_drain_channel (pg_gate p)) as Hs.
  destruct (settle_drain (pg_gate p)) as [g answer]. unfold p_channel. cbn in *. by destruct answer.
Qed.

Lemma abort_pending_keeps reason p :
  p_channel (Writer.abort_pending reason p) = p_channel p ∧
  pg_session (Writer.abort_pending reason p) = pg_session p.
Proof.
  unfold Writer.abort_pending. destruct (pg_pending p) as [w|]; [|done].
  match goal with |- context [Writer.note ?r ?q] => destruct (wnote_keeps r q) as [H1 H2] end.
  unfold same_channel, p_channel in *. cbn. by rewrite H1, H2.
Qed.

Lemma end_session_effect how fatal p :
  p_channel (Writer.end_session how fatal p).1 = p_channel p ∧ pg_session (Writer.end_session how fatal p).1 = None ∧
  (∃ m, po_kind (Writer.end_session how fatal p).2 = PolicyOutputKind.SessionEnd how m fatal).
Proof.
  unfold Writer.end_session. cbn zeta. set (p1 := Writer.note _ _).
  assert (p_channel p1 = p_channel p ∧ pg_session p1 = None) as [H1 H2].
  { unfold p1. match goal with |- context [Writer.note ?r ?q] => destruct (wnote_keeps r q) as [-> ->] end. done. }
  destruct (_ && _); cbn [fst snd].
  - unfold Writer.end_maintenance. match goal with |- context [Writer.note ?r ?q] => destruct (wnote_keeps r q) as [E1 E2] end.
    unfold same_channel in E1. rewrite E1, E2. split; [exact H1|]. split; [exact H2|]. eauto.
  - eauto.
Qed.

Lemma writer_fatal_effect reason p :
  p_channel (Writer.writer_fatal reason p).1 = p_channel p ∧ pg_session (Writer.writer_fatal reason p).1 = None ∧
  (∃ m, po_kind (Writer.writer_fatal reason p).2 = PolicyOutputKind.SessionEnd SessionEnd.Fatal m (Some reason)).
Proof.
  unfold Writer.writer_fatal. destruct (end_session_effect SessionEnd.Fatal (Some reason)
    (Writer.abort_pending AbortReason.WriterProtocolFailure p)) as (-> & -> & m & ->).
  split; [apply abort_pending_keeps|]. eauto.
Qed.

Definition ending_kind (kind : PolicyOutputKind.t) : Prop :=
  match kind with PolicyOutputKind.SessionEnd _ _ _ | PolicyOutputKind.Upstream _ None => True | _ => False end.
Definition answers_writer (kind : PolicyOutputKind.t) : Prop :=
  match kind with PolicyOutputKind.Response _ | PolicyOutputKind.Upstream _ (Some _) => True | _ => False end.
(** An output that only a connect, a restart or a base event gives. *)
Definition foreign_kind (kind : PolicyOutputKind.t) : Prop :=
  match kind with
  | PolicyOutputKind.Session | PolicyOutputKind.RefusedSession | PolicyOutputKind.Base _ | PolicyOutputKind.Restart _ _ => True
  | _ => False
  end.

(** The session after an accepted writer event other than a connect. *)
Record writer_effect p p' (kind : PolicyOutputKind.t) : Prop := {
  we_channel : p_channel p' = p_channel p;
  we_ending : ending_kind kind → pg_session p' = None;
  we_session : ¬ ending_kind kind → same_session p p';
  we_foreign : ¬ foreign_kind kind;
}.

Lemma effect_of_fatal reason p1 p :
  p_channel p1 = p_channel p →
  writer_effect p (Writer.writer_fatal reason p1).1 (po_kind (Writer.writer_fatal reason p1).2).
Proof. intros Hc. destruct (writer_fatal_effect reason p1) as (E1 & E2 & m & E3). rewrite E3. by split; [congruence|..]; simpl; tauto. Qed.

Lemma effect_of_end how fatal p1 p :
  p_channel p1 = p_channel p →
  writer_effect p (Writer.end_session how fatal p1).1 (po_kind (Writer.end_session how fatal p1).2).
Proof. intros Hc. destruct (end_session_effect how fatal p1) as (E1 & E2 & m & E3). rewrite E3. by split; [congruence|..]; simpl; tauto. Qed.

(** What keeps both. *)
Definition keeps_both p p' : Prop := p_channel p' = p_channel p ∧ same_session p p'.

Lemma keeps_both_refl p : keeps_both p p.
Proof. done. Qed.
Lemma keeps_both_trans p1 p2 p3 : keeps_both p1 p2 → keeps_both p2 p3 → keeps_both p1 p3.
Proof. unfold keeps_both, same_session. intros [-> ->] [-> ->]. done. Qed.
Lemma keeps_both_of p p' : p_channel p' = p_channel p ∧ pg_session p' = pg_session p → keeps_both p p'.
Proof. unfold keeps_both, same_session. by intros [-> ->]. Qed.

Lemma begin_keeps expected p : keeps_both p (Writer.begin expected p).1.
Proof.
  unfold Writer.begin. destruct (negb _); [done|]. case_bool_decide; [done|].
  case_bool_decide; [|apply keeps_both_of, settle_maintenance_keeps].
  match goal with |- context [Writer.record ?r ?q] => pose proof (wrecord_keeps r q) as Hr;
    destruct (Writer.record r q) as [p1 []] end; cbn [fst negb] in *; [|by apply keeps_both_of].
  eapply keeps_both_trans; [apply keeps_both_of, Hr|].
  match goal with |- context [Writer.settle_maintenance ?q] => pose proof (settle_maintenance_keeps q) as Hs;
    eapply keeps_both_trans; [|apply keeps_both_of, Hs] end.
  set (p2 := with_maintenance _ _). split.
  - unfold p_channel. cbn [with_gate pg_gate].
    transitivity (g_channel (pg_gate p2)); [|unfold p2, Writer.own_session; by destruct (pg_session p1)].
    pose proof (drain_plain (pg_gate p2) (drain (pg_gate p2)).2 eq_refl) as [Hd _]. exact Hd.
  - unfold same_session, p2, Writer.own_session. cbn [with_gate pg_session with_maintenance].
    destruct (pg_session p1) eqn:E; cbn; rewrite ?E; [|done]. split; intros _; eauto.
Qed.

Lemma write_object_keeps request sequence digest p : keeps_both p (Writer.write_object request sequence digest p).1.
Proof.
  unfold Writer.write_object. destruct (negb _); [done|]. destruct (negb _); [done|].
  destruct (check_write _ _ _) as [row|]; [|done]. destruct (render_write _ _ _ _) as [rendered|]; [|done].
  match goal with |- context [Writer.record ?r ?q] => pose proof (wrecord_keeps r q) as Hr;
    destruct (Writer.record r q) as [p1 []] end; apply keeps_both_of; exact Hr.
Qed.

Lemma end_keeps p : keeps_both p (Writer.end_ p).1.
Proof.
  unfold Writer.end_. case_bool_decide; [done|]. case_bool_decide; [done|].
  match goal with |- context [Writer.record ?r ?q] => pose proof (wrecord_keeps r q) as Hr;
    destruct (Writer.record r q) as [p1 []] end; apply keeps_both_of; exact Hr.
Qed.

Lemma perform_keeps request sequence digest p : keeps_both p (Writer.perform request sequence digest p).1.
Proof.
  destruct request; cbn [Writer.perform].
  - done.
  - pose proof (begin_keeps expected_generation p) as Hb. by destruct (Writer.begin expected_generation p).
  - apply write_object_keeps.
  - pose proof (end_keeps p) as Hb. by destruct (Writer.end_ p).
Qed.

Lemma frame_response_keeps sequence digest operation payload p :
  keeps_both p (Writer.frame_response sequence digest operation payload p).1.
Proof.
  unfold Writer.frame_response. destruct (pg_session p) as [session|] eqn:E; [|done].
  destruct (check_frame_encoded _ _); [|done]. split; [done|]. unfold same_session. cbn. rewrite E.
  split; intros _; eauto.
Qed.

Lemma frame_response_session sequence digest operation payload p bytes :
  (Writer.frame_response sequence digest operation payload p).2 = Some bytes → is_Some (pg_session p).
Proof. unfold Writer.frame_response. destruct (pg_session p); [eauto|done]. Qed.

Lemma effect_trans p p1 p2 kind :
  keeps_both p p1 → writer_effect p1 p2 kind → writer_effect p p2 kind.
Proof.
  intros [Hc Hs] [Ec Ee Es Ef]. split; [congruence|done| |done]. intros Hk. specialize (Es Hk).
  unfold same_session in *. tauto.
Qed.

Lemma effect_keeps p p' kind :
  keeps_both p p' → ¬ ending_kind kind → ¬ foreign_kind kind → writer_effect p p' kind.
Proof. intros [Hc Hs] ??. split; tauto. Qed.

Lemma respond_effect sequence digest operation payload p :
  writer_effect p (Writer.respond sequence digest operation payload p).1
    (po_kind (Writer.respond sequence digest operation payload p).2).
Proof.
  unfold Writer.respond. pose proof (frame_response_keeps sequence digest operation payload p) as Hk.
  destruct (Writer.frame_response _ _ _ _ _) as [p1 [bytes|]]; cbn [fst] in Hk.
  - apply effect_keeps; simpl; tauto.
  - eapply effect_trans; [exact Hk|]. by apply effect_of_fatal.
Qed.

Lemma writer_frame_effect input p :
  is_Some (pg_session p) →
  writer_effect p (Writer.writer_frame input p).1 (po_kind (Writer.writer_frame input p).2).
Proof.
  intros [session Hsession]. unfold Writer.writer_frame. destruct (pg_pending p); [by apply effect_of_fatal|].
  destruct (checked_frame _ _) as [[value encoded]|]; [|by apply effect_of_fatal].
  destruct (Writer.parse_writer_envelope value) as [e|]; [|by apply effect_of_fatal].
  destruct (_ || _); [by apply effect_of_fatal|]. destruct (_ || _); [by apply effect_of_fatal|].
  rewrite Hsession. destruct (Writer.open_session e session) as [session1|]; [|by apply effect_of_fatal].
  set (p1 := with_session (Some session1) p).
  assert (keeps_both p p1) as H1.
  { split; [done|]. unfold same_session, p1. cbn. rewrite Hsession. split; intros _; eauto. }
  eapply effect_trans; [exact H1|]. destruct (_ <=? _); [by apply effect_of_fatal|].
  destruct (let* payload := _ in _) as [request|]; [|by apply effect_of_fatal].
  pose proof (perform_keeps request (Writer.we_sequence e) (prefixed encoded) p1) as Hp.
  destruct (Writer.perform _ _ _ p1) as [p2 [payload|id]]; cbn [fst] in Hp; (eapply effect_trans; [exact Hp|]).
  - apply respond_effect.
  - apply effect_keeps; simpl; [done|tauto..].
Qed.

Lemma settled_write_keeps w outcome p :
  p_channel (settled_write w outcome p).1.1 = p_channel p ∧
  pg_session (settled_write w outcome p).1.1 = pg_session p.
Proof.
  unfold settled_write. destruct (Writer.classify_write _ _) as [c d].
  match goal with |- context [Writer.record ?r ?q] => pose proof (wrecord_keeps r q) as Hr;
    destruct (Writer.record r q) as [p1 b] end. cbn [fst] in Hr.
  destruct (Writer.write_settled _ _ _) as [c' d']. cbn [fst]. by case_bool_decide.
Qed.

Lemma settle_write_effect w outcome p :
  writer_effect p (Writer.settle_write w outcome p).1 (po_kind (Writer.settle_write w outcome p).2).
Proof.
  rewrite settle_write_unfold. pose proof (settled_write_keeps w outcome p) as Hk.
  destruct (settled_write w outcome p) as [[p1 c] d]. cbn [fst] in Hk. cbn zeta.
  destruct (pg_session p1) as [session|] eqn:Es.
  - pose proof (frame_response_keeps (pw_sequence w) (pw_frame_digest w) "WRITE_OBJECT" (Writer.write_result w c d) p1) as Hf.
    destruct (Writer.frame_response _ _ _ _ p1) as [p2 [bytes|]]; cbn [fst] in Hf;
      (eapply effect_trans; [apply keeps_both_of; rewrite Es; exact Hk|]); (eapply effect_trans; [exact Hf|]).
    + apply effect_keeps; [apply keeps_both_refl|simpl; tauto..].
    + destruct (writer_fatal_effect WriterFatal.ResponseOutOfBounds p2) as (E1 & E2 & _).
      split; simpl; [done|done|tauto|tauto].
  - destruct Hk as [Hc Hs]. split; simpl; [done|done|tauto|tauto].
Qed.

Lemma writer_upstream_effect id outcome p p' out :
  Writer.upstream id outcome p = (p', Ok out) → writer_effect p p' (po_kind out).
Proof.
  unfold Writer.upstream. destruct (match outcome with UpstreamOutcome.Response _ => _ | _ => _ end); [done|].
  assert (writer_effect p (Writer.note (Rec.WriteLateUpstream id) p) PolicyOutputKind.LateUpstream) as Hlate.
  { apply effect_keeps; [apply keeps_both_of, wnote_keeps|simpl; tauto..]. }
  destruct (pg_pending p) as [w|]; [destruct (_ =? _)|].
  - pose proof (settle_write_effect w outcome p) as Hs. destruct (Writer.settle_write w outcome p) as [p1 o].
    intros [= <- <-]. exact Hs.
  - case_bool_decide; [|done]. intros [= <- <-]. exact Hlate.
  - case_bool_decide; [|done]. intros [= <- <-]. exact Hlate.
Qed.

Lemma drained_effect p p1 output p' out :
  writer_effect p p1 (po_kind output) → Writer.drained (p1, output) = (p', Ok out) → writer_effect p p' (po_kind out).
Proof.
  unfold Writer.drained. cbn [fst snd]. destruct (with_drain_keeps p1 output) as (E1 & E2 & E3 & E4).
  destruct (Writer.with_drain p1 output) as [p2 out2]. cbn [fst snd] in *. intros [Ec Ee Es Ef] [= <- <-].
  rewrite E3. split; unfold same_session in *; rewrite ?E1, ?E2; tauto.
Qed.

(** The session-ending writer events. *)
Definition ends_session (event : PolicyEvent.t) : bool :=
  match event with
  | PolicyEvent.WChannelLost | PolicyEvent.WPeerChanged | PolicyEvent.WAnswerLate => true
  | _ => false
  end.
Definition is_connect (event : PolicyEvent.t) : bool :=
  match event with PolicyEvent.WConnect _ => true | _ => false end.

Definition writer_kind (kind : PolicyOutputKind.t) : Prop := ¬ foreign_kind kind ∧ ¬ answers_writer kind.

(** What the policy gate's [handle] does to the channel and the session, by event. *)
Inductive handled p : PolicyEvent.t → PolicyGate St Ob → PolicyOutputKind.t → Prop :=
| handled_base event output p' :
    event ≠ Event.GateRestart →
    channel_effect event (p_channel p) (p_channel p') (o_kind output) → pg_session p' = pg_session p →
    handled p (PolicyEvent.Base event) p' (PolicyOutputKind.Base output)
| handled_restart output maintenance p' :
    handled p (PolicyEvent.Base Event.GateRestart) p' (PolicyOutputKind.Restart output maintenance)
| handled_connect challenge p' :
    pg_session p = None → p_channel p' = p_channel p → is_Some (pg_session p') →
    handled p (PolicyEvent.WConnect challenge) p' PolicyOutputKind.Session
| handled_reconnect challenge p' :
    is_Some (pg_session p) → p_channel p' = p_channel p → same_session p p' →
    handled p (PolicyEvent.WConnect challenge) p' PolicyOutputKind.RefusedSession
| handled_end event p' kind :
    ends_session event = true → p_channel p' = p_channel p → pg_session p' = None → writer_kind kind →
    handled p event p' kind
| handled_writer event p' kind :
    (∃ input, event = PolicyEvent.WFrame input) ∨ (∃ id outcome, event = PolicyEvent.WUpstream id outcome) →
    writer_effect p p' kind → handled p event p' kind.

Lemma end_effect_handled p event p1 output p' out :
  ends_session event = true → writer_effect p p1 (po_kind output) → pg_session p1 = None →
  ¬ answers_writer (po_kind output) → Writer.drained (p1, output) = (p', Ok out) → handled p event p' (po_kind out).
Proof.
  intros He [Ec _ _ Ef] Hn Ha. unfold Writer.drained. cbn [fst snd].
  destruct (with_drain_keeps p1 output) as (E1 & E2 & E3 & E4).
  destruct (Writer.with_drain p1 output) as [p2 out2]. cbn [fst snd] in *. intros [= <- <-].
  apply handled_end; [done|congruence|congruence|rewrite E3; by split].
Qed.

Lemma empty_effect p : writer_effect p p PolicyOutputKind.Empty.
Proof. by apply effect_keeps; [apply keeps_both_refl|simpl; tauto..]. Qed.

Lemma policy_dispatch_handled event p p' out :
  k_inv (core (pg_gate p)) → Writer.dispatch event p = (p', Ok out) → handled p event p' (po_kind out).
Proof.
  intros Hk Hd. destruct event as [e|c|input| | |id outcome|]; cbn [Writer.dispatch] in Hd.
  - assert (e = Event.GateRestart ∨ e ≠ Event.GateRestart) as [->|Hne] by (destruct e; first [by left|by right]).
    + unfold Writer.restart in Hd. destruct (rebuild_writes _) as [ws reason]. cbn zeta in Hd.
      destruct (restart_with _ _) as [g output]. destruct (settle_drain g) as [g2 answer]. injection Hd as <- <-. constructor.
    + assert (∃ g' output, Gate.handle e (pg_gate p) = (g', Ok output) ∧ p' = with_gate g' p ∧
        po_kind out = PolicyOutputKind.Base output) as (g' & output & Hg & -> & ->).
      { destruct e; try done; destruct (Gate.handle _ (pg_gate p)) as [g' [output|]]; try done;
          injection Hd as <- <-; eauto. }
      by constructor; [|apply handle_effect|].
  - unfold Writer.connect in Hd. destruct (pg_session p) as [session|] eqn:Es; unfold Writer.drained in Hd; cbn [fst snd] in Hd;
      match type of Hd with context [Writer.with_drain ?q ?o] => destruct (with_drain_keeps q o) as (E1 & E2 & E3 & E4);
        destruct (Writer.with_drain q o) as [p2 out2] end; cbn [fst snd] in *; injection Hd as <- <-; rewrite E3.
    + apply handled_reconnect; [by rewrite Es|done|]. unfold same_session. by rewrite E2.
    + apply handled_connect; [done|done|]. rewrite E2. cbn. eauto.
  - destruct (pg_session p) as [session|] eqn:Es; [|done]. pose proof (writer_frame_effect input p ltac:(by rewrite Es)) as Hw.
    destruct (Writer.writer_frame input p) as [p1 output]. apply handled_writer; [eauto|].
    by eapply drained_effect.
  - unfold Writer.channel_lost in Hd. destruct (pg_session p) as [session|] eqn:Es.
    + destruct (abort_pending_keeps AbortReason.WriterChannelLost p) as [A1 A2].
      pose proof (effect_of_end SessionEnd.Ended None _ _ A1) as Hw.
      destruct (end_session_effect SessionEnd.Ended None (Writer.abort_pending AbortReason.WriterChannelLost p)) as (_ & E2 & m & E3).
      destruct (Writer.end_session _ _ _) as [p1 output]. cbn [fst snd] in *.
      eapply end_effect_handled; [done|exact Hw|exact E2|rewrite E3; simpl; tauto|exact Hd].
    + apply (end_effect_handled p _ p (policy_output PolicyOutputKind.Empty)); [done|apply empty_effect|exact Es|simpl; tauto|exact Hd].
  - unfold Writer.peer_changed in Hd. destruct (pg_session p) as [session|] eqn:Es.
    + set (p0 := Writer.hold_urgently _ _) in Hd.
      assert (p_channel p0 = p_channel p) as A1.
      { unfold p0, Writer.hold_urgently, Writer.set_state, p_channel. cbn [with_gate pg_gate with_state g_channel].
        rewrite urgent_channel. apply abort_pending_keeps. }
      pose proof (effect_of_end SessionEnd.Fatal (Some WriterFatal.PeerChanged) _ _ A1) as Hw.
      destruct (end_session_effect SessionEnd.Fatal (Some WriterFatal.PeerChanged) p0) as (_ & E2 & m & E3).
      destruct (Writer.end_session _ _ _) as [p1 output]. cbn [fst snd] in *.
      eapply end_effect_handled; [done|exact Hw|exact E2|rewrite E3; simpl; tauto|exact Hd].
    + apply (end_effect_handled p _ p (policy_output PolicyOutputKind.Empty)); [done|apply empty_effect|exact Es|simpl; tauto|exact Hd].
  - destruct (Writer.upstream id outcome p) as [p1 [output|]] eqn:Hu; [|done].
    apply handled_writer; [eauto|]. eapply drained_effect; [|exact Hd]. by eapply writer_upstream_effect.
  - unfold Writer.answer_late in Hd. destruct (pg_session p) as [session|] eqn:Es.
    + set (p0 := Writer.hold_urgently _ _) in Hd.
      assert (p_channel p0 = p_channel p) as A1.
      { unfold p0, Writer.hold_urgently, Writer.set_state, p_channel. cbn [with_gate pg_gate with_state g_channel].
        rewrite urgent_channel. apply abort_pending_keeps. }
      pose proof (effect_of_end SessionEnd.Fatal (Some WriterFatal.AnswerLate) _ _ A1) as Hw.
      destruct (end_session_effect SessionEnd.Fatal (Some WriterFatal.AnswerLate) p0) as (_ & E2 & m & E3).
      destruct (Writer.end_session _ _ _) as [p1 output]. cbn [fst snd] in *.
      eapply end_effect_handled; [done|exact Hw|exact E2|rewrite E3; simpl; tauto|exact Hd].
    + apply (end_effect_handled p _ p (policy_output PolicyOutputKind.Empty)); [done|apply empty_effect|exact Es|simpl; tauto|exact Hd].
Qed.

Lemma handle_handled event p p' out :
  k_inv (core (pg_gate p)) → Writer.handle event p = (p', Ok out) → handled p event p' (po_kind out).
Proof.
  intros Hk. unfold Writer.handle. destruct (Writer.dispatch event p) as [p1 [output|]] eqn:Hd; [|done].
  intros [= <- <-]. pose proof (policy_dispatch_handled _ _ _ _ Hk Hd) as Hh.
  destruct (settle_maintenance_keeps p1) as [E1 E2]. destruct Hh as [e o p2 ? Hc Hs|o m p2|c p2|c p2|e p2 k|e p2 k ? Hw].
  - constructor; [done|by rewrite E1|congruence].
  - constructor.
  - constructor; [done|congruence|by rewrite E2].
  - constructor; [done|congruence|unfold same_session in *; by rewrite E2].
  - apply handled_end; [done|congruence|congruence|done].
  - apply handled_writer; [done|]. destruct Hw. split; unfold same_session in *; rewrite ?E1, ?E2; done.
Qed.
(** *** The expiry event *)

Lemma bound_run_fixed g g' : fixed g' = fixed g → bound_run g' = bound_run g.
Proof. unfold fixed, bound_run. by intros [= _ -> ->]. Qed.

Lemma settle_maintenance_fixed p : fixed (pg_gate (Writer.settle_maintenance p)) = fixed (pg_gate p).
Proof.
  assert (∀ r q, fixed (pg_gate (Writer.record r q).1) = fixed (pg_gate q)) as Hr.
  { intros r q. unfold Writer.record. pose proof (record_fuel_fixed 2 (pg_gate q) r) as Hf. unfold Gate.record.
    by destruct (record_fuel 2 (pg_gate q) r). }
  unfold Writer.settle_maintenance, Writer.hold_maintenance.
  transitivity (fixed (pg_gate (Writer.open_maintenance p))).
  - destruct (_ && _); [|done]. apply (Hr _ (with_maintenance Maintenance.Held (Writer.open_maintenance p))).
  - unfold Writer.open_maintenance. destruct (_ && _); [|done].
    match goal with |- context [Writer.record ?r p] => pose proof (Hr r p) as H1; destruct (Writer.record r p) as [p1 []] end; done.
Qed.

Lemma expire_handled p p' out run :
  Writer.handle (PolicyEvent.Base Event.Expire) p = (p', Ok out) → bound_run (pg_gate p') = Some run →
  br_expired run = true.
Proof.
  unfold Writer.handle, Writer.dispatch, Gate.handle, dispatch, always.
  pose proof (expire_expires (pg_gate p)) as He. destruct (expire (pg_gate p)) as [g1 o]. cbn [fst snd] in *.
  pose proof (settle_drain_fixed g1) as Hs. destruct (settle_drain g1) as [g2 answer]. cbn [fst result_map] in *.
  intros [= <- <-]. rewrite (bound_run_fixed _ _ (settle_maintenance_fixed _)). cbn [with_gate pg_gate].
  rewrite (bound_run_fixed _ _ Hs). apply He.
Qed.
End Channels.
