(* ===== verification/Substrate.v ===== *)
(** * The channel substrate ([host-enforcement/crates/effect-gate/src/substrate.rs])

    A single-threaded event loop over one policy gate: the two channel listeners, the custody of
    every datagram, the expiry, the answer bound, and the two ports through which the I04 and the
    upstream events enter.  The system calls and the ports are type classes ([Os], [Port],
    [I04Port], [UpstreamPort]), as they are traits in the source; the loop is a state monad over
    the substrate.  Instants and durations are nanoseconds. *)

From S2P Require Import Prelude Slices Json Policy Render Types Journal Observation Config Gate PolicyGate PeerWire.
Definition ANSWER_BOUND : Z := 2 * 10 ^ 9.
Definition EXPIRY_WAIT_CAP : Z := 10 ^ 9.
Definition PORT_VALUE_BITS : Z := 56.
Definition PORT_VALUE_MASK : Z := Z.shiftl 1 PORT_VALUE_BITS - 1.
Definition I05_LISTENER_TOKEN : Z := 1.
Definition I07_LISTENER_TOKEN : Z := 2.
Definition I05_CONN_TOKEN : Z := 3.
Definition I07_CONN_TOKEN : Z := 4.
Definition I05_PIDFD_TOKEN : Z := 5.
Definition I07_PIDFD_TOKEN : Z := 6.
Definition I32_MAX : Z := 2 ^ 31 - 1.

(** [Instant::saturating_duration_since] *)
Definition duration_since (later earlier : Z) : Z := Z.max 0 (later - earlier).
(** [i64::saturating_mul] and [i64::saturating_sub] *)
Definition sat_mul_i64 (x y : Z) : Z := Z.max I64_MIN (Z.min I64_MAX (x * y)).
Definition sat_sub_i64 (x y : Z) : Z := Z.max I64_MIN (Z.min I64_MAX (x - y)).

Module Listen.
Inductive t := I05 | I07.
#[global] Instance t_eq_dec : EqDecision t.
Proof. solve_decision. Defined.
End Listen.

Record Interest := mkInterest { in_readable : bool; in_writable : bool }.
Record Readiness := mkReadiness { rd_readable : bool; rd_writable : bool; rd_error : bool; rd_hangup : bool }.

Record PeerCredentials := mkPeerCredentials { pc_pid : Z; pc_uid : Z; pc_gid : Z; pc_label : list Z }.

Module Received.
Inductive t :=
| WouldBlock
| Eof
| Error (errno : Z)
| Datagram (bytes : list Z) (truncated : bool) (control : list Z) (control_truncated : bool).
End Received.

Module Watch.
Inductive t := Listener (side : Listen.t) | Conn (conn : Z) | PidFd (conn : Z).
End Watch.

Module Owner.
Inductive t := I04 | Upstream.
#[global] Instance t_eq_dec : EqDecision t.
Proof. solve_decision. Defined.
Definition code (o : t) : Z := match o with I04 => 1 | Upstream => 2 end.
Definition token (o : t) (value : Z) : option Z :=
  if value <=? PORT_VALUE_MASK then Some (Z.lor (Z.shiftl (code o) PORT_VALUE_BITS) value) else None.
End Owner.

Module LoopExit.
Inductive t :=
| ModelPrecondition (error : string)
| UnexpectedOutput (what : string)
| Accept (side : Listen.t)
| Poll
| PortToken (owner : Owner.t)
| Port (owner : Owner.t) (reason : string).
End LoopExit.

(** ** What the loop asks of the system *)

Class PortPoll (O : Type) := {
  port_add : Owner.t → Z → Z → Interest → O → O * bool;
  port_modify : Owner.t → Z → Z → Interest → O → O * bool;
  port_delete : Owner.t → Z → O → O * bool;
}.

(** A failed [accept4] is [Err ()] ([OsFailure]). *)
Class Os (O : Type) := {
  os_port_poll :: PortPoll O;
  os_accept : Listen.t → O → O * result (option Z) unit;
  os_peer : Z → O → O * option PeerCredentials;
  os_open_proc : Z → Z → O → O * bool;
  os_read_proc : Z → O → O * option ProcIdentity;
  os_peer_exited : Z → O → O * bool;
  os_writer_exe_ok : Z → O → O * bool;
  os_recv : Z → Z → O → O * Received.t;
  os_send : Z → list Z → O → O * bool;
  os_close : Z → O → O;
  os_watch : Watch.t → Z → O → O * bool;
  os_wait : Z → O → O * option (list (Z * Readiness));
  os_monotonic : O → O * Z;
  os_realtime_ms : O → O * option Z;
}.

(** ** A port's access to the poller *)

Section Registry.
Context {O : Type} `{PortPoll O} (owner : Owner.t).

Definition Registry_add (source value : Z) (interest : Interest) (poll : O) : O * result unit LoopExit.t :=
  match Owner.token owner value with
  | None => (poll, Err (LoopExit.PortToken owner))
  | Some token =>
      let '(poll, added) := port_add owner source token interest poll in
      (poll, if added then Ok () else Err LoopExit.Poll)
  end.

Definition Registry_modify (source value : Z) (interest : Interest) (poll : O) : O * result unit LoopExit.t :=
  match Owner.token owner value with
  | None => (poll, Err (LoopExit.PortToken owner))
  | Some token =>
      let '(poll, modified) := port_modify owner source token interest poll in
      (poll, if modified then Ok () else Err LoopExit.Poll)
  end.

Definition Registry_delete (source : Z) (poll : O) : O * result unit LoopExit.t :=
  let '(poll, deleted) := port_delete owner source poll in
  (poll, if deleted then Ok () else Err LoopExit.Poll).
End Registry.

(** ** The ports *)

(** The model as a port's [sync] sees it. *)
Record GateView := mkGateView {
  gv_connection_open : string → bool;
  gv_pending_write : option Z;
  gv_forwarded_write : option (Z * RenderedWrite);
}.

Definition GateView_of {St Ob} (p : PolicyGate St Ob) : GateView :=
  mkGateView (connection_open (pg_gate p)) (Writer.pending_write p) (Writer.forwarded_write p).

(** [register] sees the poller only through the registry.  [M] is the memory the two ports share (in the source an
    [Rc] both hold); a method that may touch it takes it beside the port. *)
Class Port (M P : Type) := {
  register : ∀ {O : Type} `{PortPoll O}, P → O → P * O * result unit LoopExit.t;
  next_deadline : P → option Z;
  due : Z → P * M → P * M * list PolicyEvent.t;
  ready : Z → Readiness → P * M → P * M * list PolicyEvent.t;
  apply : PolicyOutput → P * M → P * M;
  sync : GateView → P * M → P * M;
  failure : P → option string;
}.

Class I04Port (M P : Type) := {
  i04_port :: Port M P;
  drain_backlog : P * M → P * M * list PolicyEvent.t;
}.

Class UpstreamPort (M P : Type) := { upstream_port :: Port M P }.

(** ** The substrate *)

(** [Lifetimes]: run nonce to lifetime end in seconds. *)
Definition Lifetimes : Type := gmap string Z.
Definition Lifetimes_end (l : Lifetimes) (run_nonce : string) : option Z := l !! run_nonce.

Record QualifiedIdentity := mkQualifiedIdentity {
  qi_pid : Z;
  qi_uid : Z;
  qi_gid : Z;
  qi_socket_label : list Z;
  qi_process_label : list Z;
  qi_start_time : Z;
  qi_cgroup : list Z;
}.

Record Held := mkHeld { hd_conn : Z; hd_identity : QualifiedIdentity; hd_control_capacity : Z }.

Module Concern.
Inductive t := Nothing | Held (side : Listen.t) | Fresh (side : Listen.t) (conn : Z).
End Concern.

Definition FollowUp : Type := option (PolicyEvent.t * Concern.t).

(** [div_ceil(1_000_000)], at most [i32::MAX]. *)
Definition ceil_ms (wait : Z) : Z :=
  let ms := (wait + 999999) / 1000000 in if ms <=? I32_MAX then ms else I32_MAX.

(** The operation member of a frame's bytes: [std::str::from_utf8], [json::parse], [get], [as_str]. *)
Definition frame_operation (bytes : list Z) : option string :=
  if negb (utf8_valid bytes) then None
  else
    match parse bytes with
    | Ok value => let* operation := value_get value "operation" in as_str operation
    | Err _ => None
    end.
Definition writer_answer_is_bounded (frame : option (list Z)) : bool :=
  negb (bool_decide ((let* bytes := frame in frame_operation bytes) = Some "WRITE_OBJECT")).

(** ** The tokens of one wake *)

Record Wake := mkWake {
  wk_own : list bool;
  wk_i04 : list (Z * Readiness);
  wk_upstream : list (Z * Readiness);
}.

Definition wake_token (w : Wake) (token : Z) (readiness : Readiness) : result Wake LoopExit.t :=
  let owner := Z.shiftr token PORT_VALUE_BITS in
  if owner =? 0 then
    if (I05_LISTENER_TOKEN <=? token) && (token <? Z.of_nat (length (wk_own w)))
    then Ok (mkWake (<[Z.to_nat token := true]> (wk_own w)) (wk_i04 w) (wk_upstream w))
    else Err LoopExit.Poll
  else if owner =? 1 then
    Ok (mkWake (wk_own w) (wk_i04 w ++ [(Z.land token PORT_VALUE_MASK, readiness)]) (wk_upstream w))
  else if owner =? 2 then
    Ok (mkWake (wk_own w) (wk_i04 w) (wk_upstream w ++ [(Z.land token PORT_VALUE_MASK, readiness)]))
  else Err LoopExit.Poll.

Fixpoint wake_tokens (w : Wake) (ready : list (Z * Readiness)) : result Wake LoopExit.t :=
  match ready with
  | [] => Ok w
  | (token, readiness) :: ready => let? w := wake_token w token readiness in wake_tokens w ready
  end.

Definition wake_of (ready : list (Z * Readiness)) : result Wake LoopExit.t :=
  wake_tokens (mkWake (replicate 7 false) [] []) ready.
Definition wake_flag (w : Wake) (token : Z) : bool := default false (wk_own w !! Z.to_nat token).

(** ** The loop *)

Record Substrate (St Ob O M I U : Type) := mkSubstrate {
  sub_gate : PolicyGate St Ob;
  sub_os : O;
  sub_i04 : I;
  sub_upstream : U;
  sub_board : M;
  sub_expected : ExpectedPeers;
  sub_lifetimes : Lifetimes;
  sub_i05 : option Held;
  sub_i07 : option Held;
}.
Arguments mkSubstrate {St Ob O M I U}.
Arguments sub_gate {St Ob O M I U}.
Arguments sub_os {St Ob O M I U}.
Arguments sub_i04 {St Ob O M I U}.
Arguments sub_upstream {St Ob O M I U}.
Arguments sub_board {St Ob O M I U}.
Arguments sub_expected {St Ob O M I U}.
Arguments sub_lifetimes {St Ob O M I U}.
Arguments sub_i05 {St Ob O M I U}.
Arguments sub_i07 {St Ob O M I U}.

Section Loop.
Context {St Ob O M I U : Type} `{Stores St, WorkerObserver Ob, Os O, I04Port M I, UpstreamPort M U}.
Abbreviation substrate := (Substrate St Ob O M I U).
Implicit Types (s : substrate).

(** Field assignments; a port is assigned with the board beside it. *)
Definition put_gate (v : PolicyGate St Ob) s : substrate :=
  mkSubstrate v (sub_os s) (sub_i04 s) (sub_upstream s) (sub_board s) (sub_expected s) (sub_lifetimes s) (sub_i05 s)
    (sub_i07 s).
Definition put_os (v : O) s : substrate :=
  mkSubstrate (sub_gate s) v (sub_i04 s) (sub_upstream s) (sub_board s) (sub_expected s) (sub_lifetimes s) (sub_i05 s)
    (sub_i07 s).
Definition put_i04 (v : I * M) s : substrate :=
  mkSubstrate (sub_gate s) (sub_os s) v.1 (sub_upstream s) v.2 (sub_expected s) (sub_lifetimes s) (sub_i05 s) (sub_i07 s).
Definition put_upstream (v : U * M) s : substrate :=
  mkSubstrate (sub_gate s) (sub_os s) (sub_i04 s) v.1 v.2 (sub_expected s) (sub_lifetimes s) (sub_i05 s) (sub_i07 s).
Definition put_slot (side : Listen.t) (v : option Held) s : substrate :=
  match side with
  | Listen.I05 =>
      mkSubstrate (sub_gate s) (sub_os s) (sub_i04 s) (sub_upstream s) (sub_board s) (sub_expected s) (sub_lifetimes s) v
        (sub_i07 s)
  | Listen.I07 =>
      mkSubstrate (sub_gate s) (sub_os s) (sub_i04 s) (sub_upstream s) (sub_board s) (sub_expected s) (sub_lifetimes s)
        (sub_i05 s) v
  end.
Definition at_i04 s : I * M := (sub_i04 s, sub_board s).
Definition at_upstream s : U * M := (sub_upstream s, sub_board s).

(** An action of the loop: the substrate after it, and its answer, the loop's exit, or no fuel. *)
Definition act (A : Type) : Type := substrate → substrate * run A LoopExit.t.
Definition ret {A} (a : A) : act A := λ s, (s, Done a).
Definition exit {A} (e : LoopExit.t) : act A := λ s, (s, Fail e).
Definition bind {A B} (m : act A) (k : A → act B) : act B :=
  λ s, let '(s, a) := m s in
       match a with Done a => k a s | Fail e => (s, Fail e) | OutOfFuel => (s, OutOfFuel) end.
Notation "'let>' x := m 'in' k" := (bind m (λ x, k)) (at level 10, x pattern, m at level 100, k at level 200).
Definition get : act substrate := λ s, (s, Done s).
Definition modify (f : substrate → substrate) : act unit := λ s, (f s, Done ()).
(** A system call. *)
Definition call {A} (f : O → O * A) : act A := λ s, let '(os, a) := f (sub_os s) in (put_os os s, Done a).
Definition when (b : bool) (m : act unit) : act unit := if b then m else ret ().

Definition slot (side : Listen.t) s : option Held :=
  match side with Listen.I05 => sub_i05 s | Listen.I07 => sub_i07 s end.
Definition expected (side : Listen.t) s : ExpectedPeer :=
  match side with Listen.I05 => ep_i05 (sub_expected s) | Listen.I07 => ep_i07 (sub_expected s) end.
Definition channel s : Channel.t := g_channel (pg_gate (sub_gate s)).
Definition close_conn (conn : Z) s : substrate := put_os (os_close conn (sub_os s)) s.

(** Closes the connection held on a channel, if any. *)
Definition drop_held (side : Listen.t) s : substrate :=
  match slot side s with
  | Some held => close_conn (hd_conn held) (put_slot side None s)
  | None => s
  end.

Definition close_concerned (concern : Concern.t) s : substrate :=
  match concern with
  | Concern.Nothing => s
  | Concern.Held side => drop_held side s
  | Concern.Fresh _ conn => close_conn conn s
  end.

(** The connection just fed on [side]: a fresh one, or the held one. *)
Definition close_fed (concern : Concern.t) (side : Listen.t) s : substrate :=
  match concern with
  | Concern.Fresh fed conn => if bool_decide (fed = side) then close_conn conn s else s
  | Concern.Held fed => if bool_decide (fed = side) then drop_held side s else s
  | Concern.Nothing => s
  end.

Definition check_ports : act unit := λ s,
  match failure (sub_i04 s), failure (sub_upstream s) with
  | Some reason, _ => (s, Fail (LoopExit.Port Owner.I04 reason))
  | None, Some reason => (s, Fail (LoopExit.Port Owner.Upstream reason))
  | None, None => (s, Done ())
  end.

Definition register_ports : act unit := λ s,
  let '(i04, os, registered) := register (sub_i04 s) (sub_os s) in
  let s := put_os os (put_i04 (i04, sub_board s) s) in
  match registered with
  | Err e => (s, Fail e)
  | Ok _ =>
      let '(upstream, os, registered) := register (sub_upstream s) (sub_os s) in
      (put_os os (put_upstream (upstream, sub_board s) s), run_of_result registered)
  end.

(** The model no longer holds what the substrate holds: close it. *)
Definition reconcile s : substrate :=
  let s := if bool_decide (is_Some (sub_i05 s)) && bool_decide (channel s = Channel.Closed)
           then drop_held Listen.I05 s else s in
  if bool_decide (is_Some (sub_i07 s)) && negb (Writer.session_held (sub_gate s)) then drop_held Listen.I07 s else s.

(** *** Answers and the output tables *)

Definition late_event (side : Listen.t) : PolicyEvent.t :=
  match side with Listen.I05 => PolicyEvent.Base Event.AnswerLate | Listen.I07 => PolicyEvent.WAnswerLate end.
Definition lost_event (side : Listen.t) : PolicyEvent.t :=
  match side with Listen.I05 => PolicyEvent.Base Event.ChannelLost | Listen.I07 => PolicyEvent.WChannelLost end.

(** The send of an answer that is in time: a failed send closes the connection and the loss follows. *)
Definition send_answer (side : Listen.t) (conn : Z) (frame : option (list Z)) : act FollowUp :=
  let> sent := match frame with Some bytes => call (os_send conn bytes) | None => ret false end in
  if sent then ret None
  else let> _ := modify (drop_held side) in ret (Some (lost_event side, Concern.Held side)).

Definition answer (side : Listen.t) (frame : option (list Z)) (bounded : bool) (received_at : option Z) : act FollowUp :=
  let> s := get in
  match slot side s with
  | None => ret None
  | Some held =>
      if bounded then
        let> now := call os_monotonic in
        if match received_at with Some at_ => duration_since now at_ <? ANSWER_BOUND | None => false end
        then send_answer side (hd_conn held) frame
        else ret (Some (late_event side, Concern.Held side))
      else send_answer side (hd_conn held) frame
  end.

Definition wire_i05 (output : Output) (concern : Concern.t) (received_at : option Z) : act FollowUp :=
  match o_kind output with
  | OutputKind.Nothing => ret None
  | OutputKind.Response _ => answer Listen.I05 (o_response_frame output) true received_at
  | OutputKind.Fatal _ | OutputKind.ChannelEnd _ =>
      let> _ := modify (close_fed concern Listen.I05) in
      let> _ := modify (drop_held Listen.I05) in
      ret None
  | OutputKind.RefusedChannel _ => let> _ := modify (close_fed concern Listen.I05) in ret None
  | OutputKind.Denied _ | OutputKind.Stamp _ | OutputKind.Close _ | OutputKind.Forward _
  | OutputKind.Upstream _ _ _ | OutputKind.LateUpstream => ret None
  | OutputKind.RestartState _ => exit (LoopExit.UnexpectedOutput "a restart state inside the loop")
  end.

Definition wire (output : PolicyOutput) (concern : Concern.t) (received_at : option Z) : act FollowUp :=
  match po_kind output with
  | PolicyOutputKind.Base base => wire_i05 base concern received_at
  | PolicyOutputKind.Restart _ _ => exit (LoopExit.UnexpectedOutput "a restart output inside the loop")
  | PolicyOutputKind.Session => ret None
  | PolicyOutputKind.RefusedSession => let> _ := modify (close_fed concern Listen.I07) in ret None
  | PolicyOutputKind.Response _ =>
      answer Listen.I07 (po_response_frame output) (writer_answer_is_bounded (po_response_frame output)) received_at
  | PolicyOutputKind.Forwarded _ => ret None
  | PolicyOutputKind.Upstream _ (Some _) => answer Listen.I07 (po_response_frame output) false None
  | PolicyOutputKind.Upstream _ None | PolicyOutputKind.SessionEnd _ _ _ =>
      let> _ := modify (drop_held Listen.I07) in ret None
  | PolicyOutputKind.LateUpstream | PolicyOutputKind.Empty => ret None
  end.

Definition apply_ports (output : PolicyOutput) s : substrate :=
  let s := put_i04 (apply output (at_i04 s)) s in
  put_upstream (apply output (at_upstream s)) s.
Definition sync_ports s : substrate :=
  let s := put_i04 (sync (GateView_of (sub_gate s)) (at_i04 s)) s in
  put_upstream (sync (GateView_of (sub_gate s)) (at_upstream s)) s.

(** Feeds one event and acts on its output; a follow-up event is fed the same way. *)
Fixpoint deliver_loop (fuel : nat) (event : PolicyEvent.t) (concern : Concern.t) (received_at : option Z)
    : act PolicyOutput :=
  let> s := get in
  let '(gate, handled) := Writer.handle event (sub_gate s) in
  let> _ := modify (put_gate gate) in
  match handled with
  | Err error => let> _ := modify (close_concerned concern) in exit (LoopExit.ModelPrecondition error)
  | Ok output =>
      let> _ := modify (apply_ports output) in
      let> follow_up := wire output concern received_at in
      let> _ := modify sync_ports in
      let> _ := modify reconcile in
      let> _ := check_ports in
      match follow_up with
      | None => ret output
      | Some (event, concern) =>
          match fuel with
          | 0%nat => λ s, (s, OutOfFuel)
          | S fuel => let> _ := deliver_loop fuel event concern None in ret output
          end
      end
  end.

(** A follow-up has none of its own. *)
Definition deliver := deliver_loop 1.

(** *** Expiry and deadlines *)

(** The time left to the bound run's lifetime end, zero once reached; the clock is read when there is one. *)
Definition expiry_remaining : act (option Z) :=
  let> s := get in
  match bound_run (pg_gate (sub_gate s)) with
  | None => ret None
  | Some run =>
      if br_expired run then ret None
      else
        let end_ := Lifetimes_end (sub_lifetimes s) (br_run_nonce run) in
        let> now := call os_realtime_ms in
        match end_, now with
        | Some end_, Some now =>
            ret (Some (default 0 (u64_try_from (sat_sub_i64 (sat_mul_i64 end_ 1000) now)) * 10 ^ 6))
        | _, _ => ret (Some 0)
        end
  end.

Definition check_expiry : act unit :=
  let> left_ := expiry_remaining in
  if bool_decide (left_ = Some 0)
  then let> _ := deliver (PolicyEvent.Base Event.Expire) Concern.Nothing None in ret ()
  else ret ().

Definition earliest (wait : option Z) (left_ : Z) : option Z :=
  Some match wait with Some earliest => Z.min earliest left_ | None => left_ end.

Definition timeout_ms : act Z :=
  let> now := call os_monotonic in
  let> s := get in
  let deadlines := omap id [next_deadline (sub_i04 s); next_deadline (sub_upstream s)] in
  let wait := fold_left (λ wait deadline, earliest wait (duration_since deadline now)) deadlines None in
  let> left_ := expiry_remaining in
  let wait := match left_ with Some left_ => earliest wait (Z.min left_ EXPIRY_WAIT_CAP) | None => wait end in
  ret match wait with Some wait => ceil_ms wait | None => -1 end.

(** A port's events, one at a time, with the expiry check before every request. *)
Fixpoint feed_port_events (events : list PolicyEvent.t) : act unit :=
  match events with
  | [] => ret ()
  | event :: events =>
      let> _ := when match event with PolicyEvent.Base (Event.Request _ _ _ _) => true | _ => false end check_expiry in
      let> _ := deliver event Concern.Nothing None in
      feed_port_events events
  end.

Definition i04_events (f : I * M → I * M * list PolicyEvent.t) : act unit :=
  let> s := get in
  let '(i04, events) := f (at_i04 s) in
  let> _ := modify (put_i04 i04) in
  let> _ := check_ports in
  feed_port_events events.
Definition upstream_events (f : U * M → U * M * list PolicyEvent.t) : act unit :=
  let> s := get in
  let '(upstream, events) := f (at_upstream s) in
  let> _ := modify (put_upstream upstream) in
  let> _ := check_ports in
  feed_port_events events.

Definition is_due (now : Z) (deadline : option Z) : option Z :=
  let* deadline := deadline in if deadline <=? now then Some deadline else None.

(** The due ports, the one with the earlier deadline first. *)
Definition due_order (i04 upstream : option Z) : list Owner.t :=
  match i04, upstream with
  | Some first, Some second =>
      if second <? first then [Owner.Upstream; Owner.I04] else [Owner.I04; Owner.Upstream]
  | Some _, None => [Owner.I04]
  | None, Some _ => [Owner.Upstream]
  | None, None => []
  end.

Fixpoint feed_due (now : Z) (owners : list Owner.t) : act unit :=
  match owners with
  | [] => ret ()
  | owner :: owners =>
      let> _ := match owner with
                | Owner.I04 => i04_events (due now)
                | Owner.Upstream => upstream_events (due now)
                end in
      feed_due now owners
  end.

Definition port_deadlines : act unit :=
  let> now := call os_monotonic in
  let> s := get in
  feed_due now (due_order (is_due now (next_deadline (sub_i04 s))) (is_due now (next_deadline (sub_upstream s)))).

(** *** Peers *)

(** The comparisons of the accept: labels, uid, and a pinned gid and cgroup. *)
Definition peer_matches (expected : ExpectedPeer) (process : ProcIdentity) (peer : PeerCredentials) : bool :=
  label_matches (pi_label process) (ep_label expected) && label_matches (pc_label peer) (ep_label expected)
  && (pc_uid peer =? ep_uid expected)
  && match ep_gid expected with Some gid => pc_gid peer =? gid | None => true end
  && match ep_cgroup expected with Some cgroup => same_lines (pi_cgroup process) cgroup | None => true end.

(** The writer's executable, on the writer channel only. *)
Definition exe_ok (side : Listen.t) (conn : Z) : act bool :=
  match side with Listen.I07 => call (os_writer_exe_ok conn) | Listen.I05 => ret true end.

Definition qualify (conn : Z) (side : Listen.t) : act (option (QualifiedIdentity * Z)) :=
  let> peer := call (os_peer conn) in
  match peer with
  | None => ret None
  | Some peer =>
  if pc_pid peer <=? 0 then ret None
  else
  let> opened := call (os_open_proc conn (pc_pid peer)) in
  if negb opened then ret None
  else
  let> process := call (os_read_proc conn) in
  match process with
  | None => ret None
  | Some process =>
  let> s := get in
  if negb (peer_matches (expected side s) process peer) then ret None
  else
  let> exe := exe_ok side conn in
  if negb exe then ret None
  else
  let> exited := call (os_peer_exited conn) in
  if exited then ret None
  else
  match control_capacity (zlen (pc_label peer)) with
  | None => ret None
  | Some capacity =>
      ret (Some (mkQualifiedIdentity (pc_pid peer) (pc_uid peer) (pc_gid peer) (pc_label peer) (pi_label process)
                   (pi_start_time process) (pi_cgroup process), capacity))
  end end end.

(** The frame's credentials and label are those the connection was qualified with. *)
Definition control_matches (identity : QualifiedIdentity) (delivered : Control) : bool :=
  (c_pid (ct_credentials delivered) =? qi_pid identity) && (c_uid (ct_credentials delivered) =? qi_uid identity)
  && (c_gid (ct_credentials delivered) =? qi_gid identity)
  && bool_decide (ct_security delivered = qi_socket_label identity).

(** The process directory still reads the qualified process. *)
Definition process_matches (expected : ExpectedPeer) (identity : QualifiedIdentity) (process : ProcIdentity) : bool :=
  (pi_start_time process =? qi_start_time identity)
  && same_lines (pi_cgroup process) (default (qi_cgroup identity) (ep_cgroup expected))
  && label_matches (pi_label process) (ep_label expected).

Definition custody (side : Listen.t) (control : list Z) (control_truncated : bool) : act bool :=
  let> s := get in
  match slot side s with
  | None => ret false
  | Some held =>
      let conn := hd_conn held in
      match parse_control control control_truncated with
      | Err _ => ret false
      | Ok delivered =>
          if negb (control_matches (hd_identity held) delivered) then ret false
          else
            let> process := call (os_read_proc conn) in
            match process with
            | None => ret false
            | Some process =>
                if negb (process_matches (expected side s) (hd_identity held) process) then ret false
                else
                  let> exe := exe_ok side conn in
                  if negb exe then ret false
                  else let> exited := call (os_peer_exited conn) in ret (negb exited)
            end
      end
  end.

(** [deliver] where the source drops its answer. *)
Definition feed (event : PolicyEvent.t) (concern : Concern.t) (received_at : option Z) : act unit :=
  let> _ := deliver event concern received_at in ret ().

Definition deviation (side : Listen.t) : act unit :=
  let> s := get in
  let> _ := match side with
            | Listen.I05 =>
                match channel s with
                | Channel.Open => feed (PolicyEvent.Base Event.PeerChanged) (Concern.Held side) None
                | Channel.Unopened =>
                    let> _ := feed (PolicyEvent.Base Event.PeerChanged) (Concern.Held side) None in
                    feed (PolicyEvent.Base Event.ChannelLost) (Concern.Held side) None
                | Channel.Closed => ret ()
                end
            | Listen.I07 => feed PolicyEvent.WPeerChanged (Concern.Held side) None
            end in
  modify (drop_held side).

(** *** Connections *)

(** The pre-frame steps and the frame of one datagram in custody; whether to read on. *)
Definition feed_datagram (side : Listen.t) (bytes : list Z) (received_at : Z) : act bool :=
  let bytes := take (Z.to_nat FRAME_BUFFER_BYTES) bytes in
  match side with
  | Listen.I05 =>
      let> _ := check_expiry in
      let> _ := i04_events drain_backlog in
      let> s := get in
      match sub_i05 s with
      | None => ret false
      | Some _ =>
          let> _ := feed (PolicyEvent.Base (Event.Frame (FrameInput.Bytes bytes))) (Concern.Held side) (Some received_at) in
          ret true
      end
  | Listen.I07 =>
      let> _ := feed (PolicyEvent.WFrame (FrameInput.Bytes bytes)) (Concern.Held side) (Some received_at) in
      ret true
  end.

(** One receive; whether to read on. *)
Definition read_one (side : Listen.t) (held : Held) : act bool :=
  let> received := call (os_recv (hd_conn held) (hd_control_capacity held)) in
  let> received_at := call os_monotonic in
  match received with
  | Received.WouldBlock => ret false
  | Received.Eof | Received.Error _ =>
      let> _ := modify (drop_held side) in
      let> _ := feed (lost_event side) (Concern.Held side) None in
      ret false
  | Received.Datagram bytes _ control control_truncated =>
      let> kept := custody side control control_truncated in
      if negb kept then let> _ := deviation side in ret false
      else feed_datagram side bytes received_at
  end.

Fixpoint read_conn (fuel : nat) (side : Listen.t) : act unit :=
  let> s := get in
  match slot side s with
  | None => ret ()
  | Some held =>
      match fuel with
      | 0%nat => λ s, (s, OutOfFuel)
      | S fuel =>
          let> go_on := read_one side held in
          if go_on : bool then read_conn fuel side else ret ()
      end
  end.

Definition pidfd_fired (fuel : nat) (side : Listen.t) : act unit :=
  let> s := get in
  match slot side s with
  | None => ret ()
  | Some _ =>
      let> _ := read_conn fuel side in
      let> s := get in
      match slot side s with
      | None => ret ()
      | Some held =>
          let> exited := call (os_peer_exited (hd_conn held)) in
          if exited : bool then deviation side else ret ()
      end
  end.

Definition conn_token (side : Listen.t) : Z :=
  match side with Listen.I05 => I05_CONN_TOKEN | Listen.I07 => I07_CONN_TOKEN end.
Definition pidfd_token (side : Listen.t) : Z :=
  match side with Listen.I05 => I05_PIDFD_TOKEN | Listen.I07 => I07_PIDFD_TOKEN end.

(** Holds a qualified connection and watches it and its pidfd. *)
Definition hold (side : Listen.t) (conn : Z) (identity : QualifiedIdentity) (control_capacity : Z) : act unit :=
  let> _ := modify (put_slot side (Some (mkHeld conn identity control_capacity))) in
  let> watched := call (os_watch (Watch.Conn conn) (conn_token side)) in
  let> both := if watched : bool then call (os_watch (Watch.PidFd conn) (pidfd_token side)) else ret false in
  if both : bool then ret ()
  else let> _ := modify (drop_held side) in exit LoopExit.Poll.

Definition accept_i05 (conn : Z) : act unit :=
  let> s := get in
  match channel s, sub_i05 s with
  | Channel.Unopened, None =>
      let> qualified := qualify conn Listen.I05 in
      match qualified with
      | Some (ident, capacity) => hold Listen.I05 conn ident capacity
      | None =>
          let fresh := Concern.Fresh Listen.I05 conn in
          let> _ := feed (PolicyEvent.Base Event.PeerChanged) fresh None in
          let> _ := feed (PolicyEvent.Base Event.ChannelLost) fresh None in
          modify (close_conn conn)
      end
  | Channel.Unopened, Some _ => modify (close_conn conn)
  | _, _ =>
      let> _ := feed (PolicyEvent.Base Event.SecondChannel) (Concern.Fresh Listen.I05 conn) None in
      modify (close_conn conn)
  end.

Definition accept_i07 (conn : Z) : act unit :=
  let connect := PolicyEvent.WConnect "" in
  let> s := get in
  if Writer.session_held (sub_gate s) then
    let> _ := feed connect (Concern.Fresh Listen.I07 conn) None in
    modify (close_conn conn)
  else
    let> qualified := qualify conn Listen.I07 in
    match qualified with
    | None => modify (close_conn conn)
    | Some (ident, capacity) =>
        let> output := deliver connect (Concern.Fresh Listen.I07 conn) None in
        match po_kind output with
        | PolicyOutputKind.Session => hold Listen.I07 conn ident capacity
        | _ => modify (close_conn conn)
        end
    end.

Fixpoint accept_all (fuel : nat) (side : Listen.t) : act unit :=
  let> accepted := call (os_accept side) in
  match accepted with
  | Err _ => exit (LoopExit.Accept side)
  | Ok None => ret ()
  | Ok (Some conn) =>
      let> _ := match side with Listen.I05 => accept_i05 conn | Listen.I07 => accept_i07 conn end in
      match fuel with
      | 0%nat => λ s, (s, OutOfFuel)
      | S fuel => accept_all fuel side
      end
  end.

(** *** One wake *)

Fixpoint i04_ready (events : list (Z * Readiness)) : act unit :=
  match events with
  | [] => ret ()
  | (value, readiness) :: events => let> _ := i04_events (ready value readiness) in i04_ready events
  end.
Fixpoint upstream_ready (events : list (Z * Readiness)) : act unit :=
  match events with
  | [] => ret ()
  | (value, readiness) :: events => let> _ := upstream_events (ready value readiness) in upstream_ready events
  end.

(** The wait, and the tokens it reported. *)
Definition wake : act Wake :=
  let> _ := check_ports in
  let> timeout := timeout_ms in
  let> ready := call (os_wait timeout) in
  match ready with
  | None => exit LoopExit.Poll
  | Some ready => λ s, (s, run_of_result (wake_of ready))
  end.

Definition turn (fuel : nat) : act unit :=
  let> w := wake in
  let> _ := check_expiry in
  let> _ := port_deadlines in
  let> _ := when (wake_flag w I05_CONN_TOKEN) (read_conn fuel Listen.I05) in
  let> _ := when (wake_flag w I07_CONN_TOKEN) (read_conn fuel Listen.I07) in
  let> _ := when (wake_flag w I05_PIDFD_TOKEN) (pidfd_fired fuel Listen.I05) in
  let> _ := when (wake_flag w I07_PIDFD_TOKEN) (pidfd_fired fuel Listen.I07) in
  let> _ := i04_ready (wk_i04 w) in
  let> _ := upstream_ready (wk_upstream w) in
  let> _ := when (wake_flag w I05_LISTENER_TOKEN) (accept_all fuel Listen.I05) in
  let> _ := when (wake_flag w I07_LISTENER_TOKEN) (accept_all fuel Listen.I07) in
  register_ports.

(** [Substrate::new]: both listeners watched, the ports registered. *)
Definition Substrate_new (gate : PolicyGate St Ob) (os : O) (i04 : I) (upstream : U) (board : M)
    (expected : ExpectedPeers) (lifetimes : Lifetimes) : substrate * run unit LoopExit.t :=
  (let> watched := call (os_watch (Watch.Listener Listen.I05) I05_LISTENER_TOKEN) in
   let> both := if watched : bool then call (os_watch (Watch.Listener Listen.I07) I07_LISTENER_TOKEN) else ret false in
   if both : bool then register_ports else exit LoopExit.Poll)
  (mkSubstrate gate os i04 upstream board expected lifetimes None None).

(** [run] for [n] wakes: the exit, or still running. *)
Fixpoint run_turns (n fuel : nat) : act unit :=
  match n with
  | 0%nat => ret ()
  | S n => let> _ := turn fuel in run_turns n fuel
  end.
End Loop.

Notation "'let>' x := m 'in' k" := (bind m (λ x, k))
  (at level 10, x pattern, m at level 100, k at level 200) : result_scope.
