(* ===== verification/SubstrateProofs.v ===== *)
(** * The loop keeps the gate's promises

    A small program logic for the loop's state monad: every action moves the policy gate by handled events and nothing
    else, and keeps the held connections in agreement with the gate's channel and session. *)

From S2P Require Import Prelude Slices Json Render Types Journal Observation Config Policy Gate PolicyGate.
From S2P Require Import GateSteps PolicyProtocol PolicySteps PolicySafety PolicyChannels PeerWire Substrate.
(** The events a port may feed: connections, requests and outcomes. *)
Definition port_event (event : PolicyEvent.t) : bool :=
  match event with
  | PolicyEvent.Base (Event.Backlog _) | PolicyEvent.Base (Event.Accept _) | PolicyEvent.Base (Event.Request _ _ _ _)
  | PolicyEvent.Base (Event.UpstreamResponse _ _) | PolicyEvent.Base (Event.UpstreamLost _)
  | PolicyEvent.Base (Event.UpstreamTimeout _) | PolicyEvent.Base (Event.Disconnect _)
  | PolicyEvent.WUpstream _ _ => true
  | _ => false
  end.

(** The events the loop itself makes. *)
Definition loop_event (event : PolicyEvent.t) : bool :=
  match event with
  | PolicyEvent.Base Event.Expire | PolicyEvent.Base Event.ChannelLost | PolicyEvent.Base Event.SecondChannel
  | PolicyEvent.Base Event.PeerChanged | PolicyEvent.Base Event.AnswerLate
  | PolicyEvent.WChannelLost | PolicyEvent.WPeerChanged | PolicyEvent.WAnswerLate | PolicyEvent.WConnect _ => true
  | _ => false
  end.

Definition side_peer (peers : ExpectedPeers) (side : Listen.t) : ExpectedPeer :=
  match side with Listen.I05 => ep_i05 peers | Listen.I07 => ep_i07 peers end.

Definition frame_event (side : Listen.t) (bytes : list Z) : PolicyEvent.t :=
  match side with
  | Listen.I05 => PolicyEvent.Base (Event.Frame (FrameInput.Bytes bytes))
  | Listen.I07 => PolicyEvent.WFrame (FrameInput.Bytes bytes)
  end.

(** What a port promises the loop. *)
Class PortLaws (M P : Type) `{Port M P} := {
  due_events now port : Forall (λ e, port_event e = true) (due now port).2;
  ready_events value readiness port : Forall (λ e, port_event e = true) (ready value readiness port).2;
}.
Class I04PortLaws (M P : Type) `{I04Port M P} := {
  i04_port_laws :: PortLaws M P;
  drain_events port : Forall (λ e, port_event e = true) (drain_backlog port).2;
}.

Section Proofs.
Context {St Ob O M I U : Type} {HS : Stores St} {HL : StoresLaws St} {HO : WorkerObserver Ob}.
Context {HOs : Os O} {HI : I04Port M I} {HU : UpstreamPort M U} {LI : I04PortLaws M I} {LU : PortLaws M U}.
Abbreviation substrate := (Substrate St Ob O M I U).
Implicit Types (s : substrate) (p : PolicyGate St Ob).

(** ** The program logic *)

(** From a state in [P] the action leaves a reachable gate and the same expected peers; when it is done, [Q]. *)
Definition spec {A} (P : substrate → Prop) (m : @act St Ob O M I U A) (Q : A → substrate → Prop) : Prop :=
  ∀ s, policy_reachable (sub_gate s) → P s →
    policy_reachable (sub_gate (m s).1) ∧ sub_expected (m s).1 = sub_expected s ∧
    ∀ a, (m s).2 = Done a → Q a (m s).1.

Lemma spec_bind {A B} P Q R (m : act A) (k : A → @act St Ob O M I U B) :
  spec P m Q → (∀ a, spec (Q a) (k a) R) → spec P (bind m k) R.
Proof.
  intros Hm Hk s Hr Hp. destruct (Hm s Hr Hp) as (Hf & He & Hq). unfold bind.
  destruct (m s) as [s1 r]. cbn [fst snd] in *. destruct r as [a|e|]; [|done..].
  destruct (Hk a s1 Hf (Hq a eq_refl)) as (Hf2 & He2 & Hq2). split; [done|]. split; [congruence|done].
Qed.

Lemma spec_ret {A} P Q (a : A) : (∀ s, P s → Q a s) → spec P (ret a) Q.
Proof. intros HPQ s Hr Hp. split; [done|]. split; [done|]. intros ? [= <-]. by apply HPQ. Qed.

Lemma spec_fail {A} P Q (m : @act St Ob O M I U A) :
  (∀ s, (m s).1 = s ∧ ∀ a, (m s).2 ≠ Done a) → spec P m Q.
Proof. intros Hm s Hr _. destruct (Hm s) as [-> Hn]. split; [done|]. split; [done|]. intros a Ha. by destruct (Hn a). Qed.

Lemma spec_exit {A} P (Q : A → substrate → Prop) e : spec P (exit e) Q.
Proof. by apply spec_fail. Qed.

Lemma spec_conseq {A} (P P' : substrate → Prop) (m : act A) (Q Q' : A → substrate → Prop) :
  spec P' m Q' → (∀ s, P s → P' s) → (∀ a s, Q' a s → Q a s) → spec P m Q.
Proof. intros Hm HP HQ s Hr Hp. destruct (Hm s Hr (HP s Hp)) as (? & ? & ?). eauto 6. Qed.

(** The state is read: the rest is proved for the state it was read in. *)
Lemma spec_get {A} P (k : substrate → act A) (Q : A → substrate → Prop) :
  (∀ s0, spec (λ s, s = s0 ∧ P s) (k s0) Q) → spec P (bind get k) Q.
Proof. intros Hk s Hr Hp. by apply (Hk s). Qed.

Lemma spec_pure {A} (φ : Prop) P (m : act A) (Q : A → substrate → Prop) :
  (φ → spec P m Q) → spec (λ s, φ ∧ P s) m Q.
Proof. intros Hm s Hr [Hphi Hp]. by apply Hm. Qed.

(** A change that leaves the gate alone. *)
Lemma spec_modify P f (Q : unit → substrate → Prop) :
  (∀ s, sub_gate (f s) = sub_gate s ∧ sub_expected (f s) = sub_expected s) →
  (∀ s, P s → Q () (f s)) → spec P (modify f) Q.
Proof.
  intros Hf HQ s Hr Hp. destruct (Hf s) as [Hg He]. unfold modify. cbn [fst snd]. rewrite Hg, He.
  split; [done|]. split; [done|]. intros [] _. by apply HQ.
Qed.

Lemma spec_call {A} P (f : O → O * A) (Q : A → substrate → Prop) :
  (∀ s, P s → Q (f (sub_os s)).2 (put_os (f (sub_os s)).1 s)) → spec P (call f) Q.
Proof.
  intros HQ s Hr Hp. specialize (HQ s Hp). unfold call. destruct (f (sub_os s)) as [os a]. cbn [fst snd] in *.
  split; [done|]. split; [done|]. by intros ? [= <-].
Qed.

Lemma spec_when P (b : bool) m (Q : unit → substrate → Prop) :
  (b = true → spec P m Q) → (∀ s, P s → Q () s) → spec P (when b m) Q.
Proof. destruct b; [auto|]. intros _ HQ. by apply spec_ret. Qed.

(** ** Agreement of the connections and the gate *)

Definition qualified (e : ExpectedPeer) (i : QualifiedIdentity) : Prop :=
  label_matches (qi_socket_label i) (ep_label e) = true ∧ qi_uid i = ep_uid e ∧
  ∀ gid, ep_gid e = Some gid → qi_gid i = gid.

Definition identities s : Prop :=
  (∀ h, sub_i05 s = Some h → qualified (ep_i05 (sub_expected s)) (hd_identity h)) ∧
  (∀ h, sub_i07 s = Some h → qualified (ep_i07 (sub_expected s)) (hd_identity h)).

Definition held_open s : Prop := channel s = Channel.Open → is_Some (sub_i05 s).
Definition held_live s : Prop := is_Some (sub_i05 s) → channel s ≠ Channel.Closed.
Definition held_session s : Prop := is_Some (sub_i07 s) ↔ is_Some (pg_session (sub_gate s)).

(** An open I05 channel has its connection, a closed one has none, and the writer's connection is
    held exactly while the gate has a writer session; both were qualified. *)
Record agrees s : Prop := {
  ag_open : held_open s;
  ag_live : held_live s;
  ag_session : held_session s;
  ag_identities : identities s;
}.

(** What the loop may feed in a state, about which connection. *)
Record feedable (event : PolicyEvent.t) (concern : Concern.t) s : Prop := {
  fd_identities : identities s;
  fd_i05 : event = PolicyEvent.Base Event.ChannelLost ∨ held_open s;
  fd_frame input : event = PolicyEvent.Base (Event.Frame input) → is_Some (sub_i05 s);
  fd_i07 : ends_session event = true ∨ held_session s;
  fd_second : event = PolicyEvent.Base Event.SecondChannel → concern ≠ Concern.Held Listen.I05;
  fd_connect : is_connect event = true → concern ≠ Concern.Held Listen.I07;
}.

(** The loop's own reports of a peer that is gone, changed or unanswered. *)
Definition closes_channel (event : PolicyEvent.t) : Prop :=
  event = PolicyEvent.Base Event.ChannelLost ∨ event = PolicyEvent.Base Event.PeerChanged ∨
  event = PolicyEvent.Base Event.AnswerLate.

(** After a fed event the connections agree; a new session waits for its connection. *)
Definition delivered (event : PolicyEvent.t) (output : PolicyOutput) s : Prop :=
  held_open s ∧ held_live s ∧ identities s ∧ (is_connect event = false → held_session s) ∧
  (closes_channel event → channel s ≠ Channel.Open) ∧ (ends_session event = true → pg_session (sub_gate s) = None) ∧
  match po_kind output with
  | PolicyOutputKind.Session => sub_i07 s = None ∧ is_Some (pg_session (sub_gate s))
  | _ => held_session s
  end.

(** *** Slots *)

Definition slots s := (sub_i05 s, sub_i07 s, sub_gate s, sub_expected s).

Lemma slots_put_os os s : slots (put_os os s) = slots s.
Proof. done. Qed.

Lemma drop_held_slots side s :
  slots (drop_held side s) =
  match side with
  | Listen.I05 => (None, sub_i07 s, sub_gate s, sub_expected s)
  | Listen.I07 => (sub_i05 s, None, sub_gate s, sub_expected s)
  end.
Proof. unfold drop_held, slots. destruct side; cbn [slot]; [destruct (sub_i05 s) eqn:E|destruct (sub_i07 s) eqn:E]; cbn; by rewrite ?E. Qed.

(** [s'] is [s] with connections possibly dropped, on [side] only. *)
Definition dropped_on (side : Listen.t) s s' : Prop :=
  slots s' = slots s ∨ slots s' = slots (drop_held side s).

Lemma close_fed_slots concern side s :
  slots (close_fed concern side s) = slots s ∨
  concern = Concern.Held side ∧ slots (close_fed concern side s) = slots (drop_held side s).
Proof. destruct concern as [|fed|fed conn]; cbn [close_fed]; [by left|..]; case_bool_decide; subst; auto. Qed.

Lemma slots_identities s s' : slots s' = slots s → identities s → identities s'.
Proof. unfold slots, identities. by intros [= -> -> _ ->]. Qed.
Lemma dropped_identities side s s' : dropped_on side s s' → identities s → identities s'.
Proof.
  intros [E|E]; [by apply slots_identities|]. rewrite drop_held_slots in E. unfold slots, identities in *.
  destruct side; injection E as -> -> _ ->; intros [H5 H7]; split; done.
Qed.
(** *** Answers *)

Inductive answered_on (side : Listen.t) s s' : FollowUp → Prop :=
| answered_same : slots s' = slots s → answered_on side s s' None
| answered_late : slots s' = slots s → is_Some (slot side s) →
    answered_on side s s' (Some (late_event side, Concern.Held side))
| answered_lost : slots s' = slots (drop_held side s) →
    answered_on side s s' (Some (lost_event side, Concern.Held side)).

Lemma send_answer_effect side conn frame s s0 s' r :
  slots s = slots s0 → send_answer side conn frame s = (s', r) → ∃ f, r = Done f ∧ answered_on side s0 s' f.
Proof.
  intros Hs. unfold send_answer, bind, call, ret, modify.
  assert (slots (drop_held side s) = slots (drop_held side s0)) as Hd.
  { rewrite !drop_held_slots. unfold slots in Hs. by injection Hs as -> -> -> ->. }
  destruct frame as [bytes|].
  - destruct (os_send conn bytes (sub_os s)) as [os [|]]; intros [= <- <-].
    + eexists. split; [done|]. by apply answered_same.
    + eexists. split; [done|]. apply answered_lost. rewrite <-Hd, !drop_held_slots. done.
  - intros [= <- <-]. eexists. split; [done|]. by apply answered_lost.
Qed.

Lemma answer_effect side frame bounded received_at s s' r :
  answer side frame bounded received_at s = (s', r) → ∃ f, r = Done f ∧ answered_on side s s' f.
Proof.
  unfold answer. unfold bind at 1, get. destruct (slot side s) as [held|] eqn:Es.
  - destruct bounded.
    + unfold bind at 1, call. destruct (os_monotonic (sub_os s)) as [os now].
      destruct (match received_at with Some at_ => _ | None => false end).
      * by apply send_answer_effect.
      * intros [= <- <-]. eexists. split; [done|]. apply answered_late; [done|by rewrite Es].
    + by apply send_answer_effect.
  - intros [= <- <-]. eexists. split; [done|]. by apply answered_same.
Qed.

(** What acting on an output does to the connections. *)
Definition wire_effect (kind : PolicyOutputKind.t) (concern : Concern.t) s s' (f : FollowUp) : Prop :=
  match kind with
  | PolicyOutputKind.Base base =>
      match o_kind base with
      | OutputKind.Response _ => answered_on Listen.I05 s s' f
      | OutputKind.Fatal _ | OutputKind.ChannelEnd _ => f = None ∧ slots s' = slots (drop_held Listen.I05 s)
      | OutputKind.RefusedChannel _ =>
          f = None ∧ (slots s' = slots s ∨ concern = Concern.Held Listen.I05 ∧ slots s' = slots (drop_held Listen.I05 s))
      | OutputKind.RestartState _ => False
      | _ => f = None ∧ slots s' = slots s
      end
  | PolicyOutputKind.Restart _ _ => False
  | PolicyOutputKind.RefusedSession =>
      f = None ∧ (slots s' = slots s ∨ concern = Concern.Held Listen.I07 ∧ slots s' = slots (drop_held Listen.I07 s))
  | PolicyOutputKind.Response _ | PolicyOutputKind.Upstream _ (Some _) => answered_on Listen.I07 s s' f
  | PolicyOutputKind.Upstream _ None | PolicyOutputKind.SessionEnd _ _ _ =>
      f = None ∧ slots s' = slots (drop_held Listen.I07 s)
  | _ => f = None ∧ slots s' = slots s
  end.

(** Either the output was acted on, or it is none the loop expects and nothing happened. *)
Definition wired (kind : PolicyOutputKind.t) (concern : Concern.t) s s' (r : run FollowUp LoopExit.t) : Prop :=
  (∃ f, r = Done f ∧ wire_effect kind concern s s' f) ∨ s' = s ∧ ∃ e, r = Fail e.

Lemma wire_i05_spec output concern received_at s s' r :
  wire_i05 output concern received_at s = (s', r) → wired (PolicyOutputKind.Base output) concern s s' r.
Proof.
  assert (slots (drop_held Listen.I05 (close_fed concern Listen.I05 s)) = slots (drop_held Listen.I05 s)) as Hd.
  { rewrite !drop_held_slots. destruct (close_fed_slots concern Listen.I05 s) as [E|[_ E]];
      rewrite ?drop_held_slots in E; unfold slots in E; congruence. }
  unfold wire_i05, wired, wire_effect. destruct (o_kind output); try (intros [= <- <-]; left; by eexists).
  - intros (f & -> & Hf)%answer_effect. left. eauto.
  - intros [= <- <-]. left. eexists. split; [done|]. split; [done|].
    destruct (close_fed_slots concern Listen.I05 s); tauto.
  - intros [= <- <-]. right. eauto.
Qed.

Lemma wire_spec output concern received_at s s' r :
  wire output concern received_at s = (s', r) → wired (po_kind output) concern s s' r.
Proof.
  unfold wire. destruct (po_kind output) as [base| | | | | | |c response| |] eqn:Ek;
    try (intros [= <- <-]; left; by eexists).
  - apply wire_i05_spec.
  - intros [= <- <-]. right. eauto.
  - intros [= <- <-]. left. eexists. split; [done|]. split; [done|].
    destruct (close_fed_slots concern Listen.I07 s); tauto.
  - intros (f & -> & Hf)%answer_effect. left. eauto.
  - destruct response; [intros (f & -> & Hf)%answer_effect|intros [= <- <-]]; left; eexists; (split; [done|]); [exact Hf|done].
Qed.

Lemma dropped_gate s s' side :
  slots s' = slots s ∨ slots s' = slots (drop_held side s) →
  sub_gate s' = sub_gate s ∧ sub_expected s' = sub_expected s ∧ (identities s → identities s').
Proof.
  intros Hd. split; [|split; [|by apply (dropped_identities side)]];
    (destruct Hd as [E|E]; [unfold slots in E; by injection E|]; rewrite drop_held_slots in E; unfold slots in E;
     destruct side; by injection E).
Qed.

Lemma answered_gate side s s' f :
  answered_on side s s' f →
  sub_gate s' = sub_gate s ∧ sub_expected s' = sub_expected s ∧ (identities s → identities s').
Proof. intros Ha. apply (dropped_gate s s' side). destruct Ha; auto. Qed.

Lemma wire_effect_gate kind concern s s' f :
  wire_effect kind concern s s' f →
  sub_gate s' = sub_gate s ∧ sub_expected s' = sub_expected s ∧ (identities s → identities s').
Proof.
  unfold wire_effect. intros Hw. destruct kind as [base| | | | | | |c response| |]; [destruct (o_kind base)|..]; try done;
    try (by eapply answered_gate);
    try (destruct Hw as [_ Hw]; apply (dropped_gate s s' Listen.I05); tauto).
  - destruct Hw as [_ Hw]. apply (dropped_gate s s' Listen.I07); tauto.
  - destruct Hw as [_ Hw]. apply (dropped_gate s s' Listen.I07); tauto.
  - destruct response; [by eapply answered_gate|]. destruct Hw as [_ Hw]. apply (dropped_gate s s' Listen.I07); tauto.
Qed.

(** *** One event *)

Definition settled_state s : substrate := reconcile (sync_ports s).

Lemma check_ports_state s : (check_ports s).1 = s.
Proof. unfold check_ports. destruct (failure (sub_i04 s)); [done|]. by destruct (failure (sub_upstream s)). Qed.

Lemma deliver_unfold fuel event concern received_at s :
  deliver_loop fuel event concern received_at s =
  match Writer.handle event (sub_gate s) with
  | (p, Err error) => (close_concerned concern (put_gate p s), Fail (LoopExit.ModelPrecondition error))
  | (p, Ok output) =>
      match wire output concern received_at (apply_ports output (put_gate p s)) with
      | (s2, Done f) =>
          match (check_ports (settled_state s2)).2 with
          | Done _ =>
              match f with
              | None => (settled_state s2, Done output)
              | Some (event, concern) =>
                  match fuel with
                  | 0%nat => (settled_state s2, OutOfFuel)
                  | S fuel =>
                      let '(s4, r) := deliver_loop fuel event concern None (settled_state s2) in
                      (s4, match r with Done _ => Done output | Fail e => Fail e | OutOfFuel => OutOfFuel end)
                  end
              end
          | Fail e => (settled_state s2, Fail e)
          | OutOfFuel => (settled_state s2, OutOfFuel)
          end
      | (s2, Fail e) => (s2, Fail e)
      | (s2, OutOfFuel) => (s2, OutOfFuel)
      end
  end.
Proof.
  destruct fuel; cbn [deliver_loop]; unfold bind, get, modify, exit, ret;
    destruct (Writer.handle event (sub_gate s)) as [p [output|error]]; try done;
    destruct (wire output concern received_at _) as [s2 [f|e|]]; try done;
    change (reconcile (sync_ports s2)) with (settled_state s2);
    pose proof (check_ports_state (settled_state s2)) as Hc; destruct (check_ports (settled_state s2)) as [s3 [[]|e|]];
    cbn [fst snd] in *; subst s3; try done; destruct f as [[e c]|]; try done.
  by destruct (deliver_loop fuel e c None (settled_state s2)) as [s4 [o|x|]].
Qed.

(** After reconciling: no connection outlives its channel or session. *)
Lemma settled_slots s :
  sub_gate (settled_state s) = sub_gate s ∧ sub_expected (settled_state s) = sub_expected s ∧
  sub_i05 (settled_state s) = (if bool_decide (channel s = Channel.Closed) then None else sub_i05 s) ∧
  sub_i07 (settled_state s) = (if bool_decide (is_Some (pg_session (sub_gate s))) then sub_i07 s else None).
Proof.
  unfold settled_state, reconcile. set (s1 := sync_ports s).
  assert (sub_i05 s1 = sub_i05 s) as E5 by done. assert (sub_i07 s1 = sub_i07 s) as E7 by done.
  assert (sub_gate s1 = sub_gate s) as Eg by done. assert (sub_expected s1 = sub_expected s) as Ee by done.
  clearbody s1.
  assert (channel s1 = channel s) as Ec by (unfold channel; by rewrite Eg).
  set (s2 := if _ && _ then drop_held Listen.I05 s1 else s1).
  assert (slots s2 = (if bool_decide (channel s = Channel.Closed) then None else sub_i05 s, sub_i07 s, sub_gate s, sub_expected s)) as E2.
  { unfold s2. rewrite Ec. case_bool_decide as H5; cbn [andb]; [case_bool_decide|].
    - rewrite drop_held_slots. congruence.
    - unfold slots. congruence.
    - apply eq_None_not_Some in H5. unfold slots. case_bool_decide; congruence. }
  unfold slots in E2. injection E2 as F5 F7 Fg Fe. unfold Writer.session_held. rewrite Fg.
  assert (∀ b : bool, slots (if b then drop_held Listen.I07 s2 else s2) =
    (sub_i05 s2, if b then None else sub_i07 s2, sub_gate s2, sub_expected s2)) as Hd.
  { intros []; [apply drop_held_slots|done]. }
  specialize (Hd (bool_decide (is_Some (sub_i07 s2)) && negb (bool_decide (is_Some (pg_session (sub_gate s)))))).
  unfold slots in Hd. injection Hd as G5 G7 Gg Ge. rewrite G5, G7, Gg, Ge, F5, F7, Fg, Fe. split_and!; try done.
  destruct (decide (is_Some (pg_session (sub_gate s)))) as [Hs|Hs];
    [rewrite !(bool_decide_eq_true_2 _ Hs)|rewrite !(bool_decide_eq_false_2 _ Hs)]; cbn [negb].
  - by rewrite andb_false_r.
  - rewrite andb_true_r. destruct (decide (is_Some (sub_i07 s))) as [H7|H7]; [by rewrite (bool_decide_eq_true_2 _ H7)|rewrite (bool_decide_eq_false_2 _ H7)]. by apply eq_None_not_Some.
Qed.
Lemma is_Some_if {A} (φ : Prop) `{Decision φ} (o : option A) :
  is_Some (if bool_decide φ then o else None) ↔ φ ∧ is_Some o.
Proof. destruct (decide φ) as [Hp|Hp]; [rewrite bool_decide_eq_true_2 by done; tauto|].
  rewrite bool_decide_eq_false_2 by done. split; [by intros [? ?]|tauto]. Qed.

(** The connections after the output was acted on and reconciled, for the follow-up to start from. *)
Definition resumable (event : PolicyEvent.t) (output : PolicyOutput) (f : FollowUp) s : Prop :=
  match f with
  | None => delivered event output s
  | Some (next, concern) =>
      feedable next concern s ∧ is_connect next = false ∧ ¬ closes_channel event ∧ ends_session event = false ∧
      po_kind output ≠ PolicyOutputKind.Session
  end.

(** The facts of one accepted event, before reconciling: [s] is the state after the wire. *)
Lemma resumable_of event output f s2 p :
  sub_gate s2 = p →
  identities s2 →
  (* the I05 side *)
  match f with
  | Some (PolicyEvent.Base Event.ChannelLost, _) => True
  | _ => p_channel p = Channel.Open → is_Some (sub_i05 s2)
  end →
  (* the I07 side *)
  match f with
  | Some (next, _) => ends_session next = true ∨ held_session s2
  | None => match po_kind output with
            | PolicyOutputKind.Session => sub_i07 s2 = None ∧ is_Some (pg_session p)
            | _ => is_Some (pg_session p) → is_Some (sub_i07 s2)
            end
  end →
  match f with
  | Some (next, concern) => loop_event next = true ∧ is_connect next = false ∧
      next ≠ PolicyEvent.Base Event.SecondChannel ∧ ¬ closes_channel event ∧ ends_session event = false ∧
      po_kind output ≠ PolicyOutputKind.Session
  | None => (closes_channel event → p_channel p ≠ Channel.Open) ∧ (ends_session event = true → pg_session p = None)
  end →
  (is_connect event = false → po_kind output ≠ PolicyOutputKind.Session) →
  resumable event output f (settled_state s2).
Proof.
  intros Hp Hi H5 H7 Hn Hcon. destruct (settled_slots s2) as (Sg & Se & S5 & S7).
  assert (channel s2 = p_channel p) as Hc by (unfold channel, p_channel; by rewrite Hp).
  assert (channel (settled_state s2) = p_channel p) as Hc' by (unfold channel, p_channel; by rewrite Sg, Hp).
  assert (identities (settled_state s2)) as Hi'.
  { destruct Hi as [I5 I7]. split; intros h; rewrite Se; [rewrite S5|rewrite S7];
      match goal with |- (if ?b then _ else _) = _ → _ => destruct b end; try done; auto. }
  assert (Hopen : (p_channel p = Channel.Open → is_Some (sub_i05 s2)) → held_open (settled_state s2)).
  { intros Ho Hch. rewrite Hc' in Hch. rewrite S5, Hc, Hch. rewrite bool_decide_eq_false_2 by done. auto. }
  assert (held_live (settled_state s2)) as Hlive.
  { intros [h Hh]. rewrite S5, Hc in Hh. rewrite Hc'. by case_bool_decide. }
  assert (Hsess : (is_Some (pg_session p) → is_Some (sub_i07 s2)) → held_session (settled_state s2)).
  { intros Hs. unfold held_session. rewrite S7, Sg, Hp, is_Some_if. tauto. }
  destruct f as [[next concern]|]; cbn [resumable].
  - destruct Hn as (Hl & Hnc & Hns & Hcl & Hes & Hk). split_and!; [|done..]. split; [done| | | |done|congruence].
    + destruct next as [[]| | | | | |]; try done; try (by left); right; apply Hopen; exact H5.
    + intros input ->. done.
    + destruct H7 as [|H7]; [by left|right]. apply Hsess. unfold held_session in H7. rewrite Hp in H7. tauto.
  - unfold delivered. split; [by apply Hopen|]. split; [done|]. split; [done|].
    rewrite Hc', Sg, Hp. destruct Hn as [Hn1 Hn2].
    split. { intros Hcf. apply Hsess. specialize (Hcon Hcf). by destruct (po_kind output). }
    split; [done|]. split; [done|].
    destruct (po_kind output); try (by apply Hsess). rewrite S7, Hp. destruct H7 as [-> Hs]. by rewrite bool_decide_eq_true_2.
Qed.
Lemma answered_slots side s s' f :
  answered_on side s s' f →
  (f = None ∧ slots s' = slots s) ∨
  (f = Some (late_event side, Concern.Held side) ∧ slots s' = slots s ∧ is_Some (slot side s)) ∨
  (f = Some (lost_event side, Concern.Held side) ∧ slots s' = slots (drop_held side s)).
Proof. destruct 1; auto. Qed.

Lemma open_after event before after kind :
  channel_effect event before after kind → after = Channel.Open → ¬ answering_kind kind →
  before = Channel.Open ∧ event ≠ Event.ChannelLost.
Proof.
  intros He Ho Hn. destruct (ce_open _ _ _ _ He Ho) as [Hb|Hf].
  - split; [done|]. intros ->. destruct (ce_lost _ _ _ _ He eq_refl). congruence.
  - exfalso. assert (before ≠ Channel.Closed) as Hb by (intros Hb; pose proof (ce_closed _ _ _ _ He Hb); congruence).
    destruct (ce_frame _ _ _ _ He Hf Hb) as [[_ ?]|[? _]]; [tauto|congruence].
Qed.

Definition slot_pair s := (sub_i05 s, sub_i07 s).

Lemma slots_pair s s' : slots s' = slots s → sub_i05 s' = sub_i05 s ∧ sub_i07 s' = sub_i07 s.
Proof. unfold slots. by intros [= -> ->]. Qed.
Lemma dropped_pair side s s' :
  slots s' = slots (drop_held side s) →
  match side with
  | Listen.I05 => sub_i05 s' = None ∧ sub_i07 s' = sub_i07 s
  | Listen.I07 => sub_i05 s' = sub_i05 s ∧ sub_i07 s' = None
  end.
Proof. rewrite drop_held_slots. unfold slots. destruct side; by intros [= -> ->]. Qed.

(** What acting on a base output leaves. *)
Lemma base_wire_cases base concern s s2 f :
  wire_effect (PolicyOutputKind.Base base) concern s s2 f →
  sub_i07 s2 = sub_i07 s ∧
  ((answering_kind (o_kind base) ∧
      (f = None ∧ sub_i05 s2 = sub_i05 s ∨
       f = Some (late_event Listen.I05, Concern.Held Listen.I05) ∧ sub_i05 s2 = sub_i05 s ∨
       f = Some (lost_event Listen.I05, Concern.Held Listen.I05))) ∨
   (¬ answering_kind (o_kind base) ∧ f = None ∧
      (sub_i05 s2 = sub_i05 s ∨ closing_kind (o_kind base) ∨
       refusing_kind (o_kind base) ∧ concern = Concern.Held Listen.I05))).
Proof.
  unfold wire_effect. destruct (o_kind base); simpl; try done;
    try (intros [-> [H5 H7]%slots_pair]; split; [done|]; right; tauto).
  - intros [(-> & [H5 H7]%slots_pair)|[(-> & [H5 H7]%slots_pair & _)|(-> & [H5 H7]%dropped_pair)]]%answered_slots;
      (split; [done|]); left; tauto.
  - intros [-> [H5 H7]%dropped_pair]. split; [done|]. right. tauto.
  - intros [-> [[H5 H7]%slots_pair|[-> [H5 H7]%dropped_pair]]]; (split; [done|]); right; tauto.
  - intros [-> [H5 H7]%dropped_pair]. split; [done|]. right. tauto.
Qed.

(** The same of a writer event's output. *)
Lemma writer_wire_cases kind concern s s2 f :
  ¬ foreign_kind kind → wire_effect kind concern s s2 f →
  sub_i05 s2 = sub_i05 s ∧
  ((f = None ∧ (sub_i07 s2 = sub_i07 s ∨ ending_kind kind)) ∨
   (answers_writer kind ∧ ∃ next, f = Some (next, Concern.Held Listen.I07) ∧ ends_session next = true ∧
      loop_event next = true ∧ is_connect next = false)).
Proof.
  intros Hk. unfold wire_effect. destruct kind as [base| | | | | | |c response| |]; simpl in Hk |- *; try tauto.
  - intros [(-> & [H5 H7]%slots_pair)|[(-> & [H5 H7]%slots_pair & _)|(-> & [H5 H7]%dropped_pair)]]%answered_slots;
      (split; [done|]); [left; tauto|right..]; (split; [done|]); by eexists.
  - intros [-> [H5 H7]%slots_pair]. tauto.
  - intros [-> [H5 H7]%dropped_pair]. tauto.
  - destruct response.
    + intros [(-> & [H5 H7]%slots_pair)|[(-> & [H5 H7]%slots_pair & _)|(-> & [H5 H7]%dropped_pair)]]%answered_slots;
        (split; [done|]); [left; tauto|right..]; (split; [done|]); by eexists.
    + intros [-> [H5 H7]%dropped_pair]. tauto.
  - intros [-> [H5 H7]%slots_pair]. tauto.
  - intros [-> [H5 H7]%slots_pair]. tauto.
Qed.

(** One accepted event, up to its follow-up. *)
Lemma event_resumable event concern output f s s2 p :
  policy_reachable (sub_gate s) → feedable event concern s →
  Writer.handle event (sub_gate s) = (p, Ok output) →
  wire_effect (po_kind output) concern (apply_ports output (put_gate p s)) s2 f →
  resumable event output f (settled_state s2).
Proof.
  intros Hr Hf Hh Hw. pose proof (policy_reachable_inv _ Hr) as [Hinv _].
  pose proof (handle_handled event _ _ _ (wi_core _ Hinv) Hh) as He.
  destruct (wire_effect_gate _ _ _ _ _ Hw) as (Hg & _ & Hi).
  assert (identities s2) as Hi2 by (apply Hi, Hf). clear Hi.
  assert (sub_gate s2 = p) as Hp by done. clear Hg Hh.
  assert (∀ s1, s1 = apply_ports output (put_gate p s) → sub_i05 s1 = sub_i05 s ∧ sub_i07 s1 = sub_i07 s) as Hs1
    by by intros ? ->.
  destruct Hf as [_ F5 Ff F7 F2 Fc]. unfold held_open, held_session, channel in *.
  change (g_channel (pg_gate (sub_gate s))) with (p_channel (sub_gate s)) in *.
  destruct (Hs1 _ eq_refl) as [E5 E7]. clear Hs1.
  set (s1 := apply_ports output (put_gate p s)) in *. clearbody s1.
  remember (po_kind output) as kind eqn:Ek.
  destruct He as [e o p' Hnr Hc Hs|o m p'|ch p' Hn Hc Hs|ch p' Hn Hc Hs|e p' k Hend Hc Hs [Hk Ha]|e p' k Hev [Wc We Ws Wf]].
  - destruct (base_wire_cases o concern s1 s2 f Hw) as [S7 Hcases].
    assert (is_Some (sub_i07 s) ↔ is_Some (pg_session (sub_gate s))) as F by (destruct F7; [done|tauto]).
    assert (is_Some (pg_session p') → is_Some (sub_i07 s2)) as Hs7 by (rewrite S7, E7, F, Hs; done).
    assert (held_session s2) as Hh7 by (unfold held_session; rewrite Hp, Hs, S7, E7; done).
    destruct Hcases as [(Hans & Hcases)|(Hans & -> & Hcases)].
    + destruct (ce_answered _ _ _ _ Hc Hans) as [Hfr Ho].
      assert (is_Some (sub_i05 s)) as Hs5 by (destruct e; try done; by eapply Ff).
      assert (¬ closes_channel (PolicyEvent.Base e)) as Hncl by (intros [[= ->]|[[= ->]|[= ->]]]; done).
      destruct Hcases as [(-> & S5)|[(-> & S5)| ->]]; apply resumable_of with (p := p'); rewrite <-?Ek; try done;
        rewrite ?S5, ?E5; cbn; auto; done.
    + apply resumable_of with (p := p'); rewrite <-?Ek; try done; cycle 1.
      { split; [|done]. intros [[= ->]|[[= ->]|[= ->]]]; [destruct (ce_lost _ _ _ _ Hc eq_refl) as [-> _]; done| |].
        - by apply (ce_peer _ _ _ _ Hc).
        - by rewrite (ce_late _ _ _ _ Hc eq_refl). }
      intros Ho. destruct (open_after _ _ _ _ Hc Ho Hans) as [Hb Hne].
      assert (is_Some (sub_i05 s)) as Hs5 by (destruct F5 as [F5|F5]; [congruence|by apply F5]).
      destruct Hcases as [->|[Hcl|[Hrf Hcn]]]; [by rewrite E5|..].
      * pose proof (ce_closing _ _ _ _ Hc Hcl). congruence.
      * destruct (ce_refused _ _ _ _ Hc Hrf) as [_ [[_ ?]| ->]]; [congruence|]. by destruct F2.
  - done.
  - destruct Hw as [-> [S5 S7]%slots_pair]. apply resumable_of with (p := p'); rewrite <-?Ek; try done.
    + rewrite S5, E5, Hc. destruct F5 as [|F5]; done.
    + split; [|done]. rewrite S7, E7. destruct F7 as [|F7]; [done|]. apply eq_None_not_Some. rewrite F7, Hn. by intros [].
    + by split; [intros [[=]|[[=]|[=]]]|].
  - destruct Hw as [-> Hw]. assert (slots s2 = slots s1) as [S5 S7]%slots_pair by (destruct Hw as [|[Hcn _]]; [done|by destruct Fc]).
    apply resumable_of with (p := p'); rewrite <-?Ek; try done.
    + rewrite S5, E5, Hc. destruct F5 as [|F5]; done.
    + rewrite S7, E7. destruct F7 as [|F7]; [done|]. by rewrite F7.
    + by split; [intros [[=]|[[=]|[=]]]|].
  - destruct (writer_wire_cases k concern s1 s2 f Hk Hw) as [S5 [(-> & _)|(? & _)]]; [|tauto].
    apply resumable_of with (p := p'); rewrite <-?Ek; try done.
    + rewrite S5, E5, Hc. destruct F5 as [->|F5]; done.
    + rewrite Hs. destruct k; try (by intros []). by destruct Hk.
    + split; [by intros [->|[->| ->]]|done].
    + intros _ ->. by destruct Hk.
  - assert (held_open s) as Ho.
    { destruct F5 as [->|F5]; [|exact F5]. by destruct Hev as [(? & ?)|(? & ? & ?)]. }
    assert (is_Some (sub_i07 s) ↔ is_Some (pg_session (sub_gate s))) as F.
    { destruct F7 as [F7|]; [|done]. by destruct Hev as [(? & ->)|(? & ? & ->)]. }
    assert (¬ closes_channel e ∧ ends_session e = false) as [Hncl Hnes].
    { by destruct Hev as [(? & ->)|(? & ? & ->)]; split; [intros [[=]|[[=]|[=]]]| |intros [[=]|[[=]|[=]]]|]. }
    destruct (writer_wire_cases k concern s1 s2 f Wf Hw) as [S5 [(-> & Hcases)|(Ha & next & -> & Hn1 & Hn2 & Hn3)]];
      apply resumable_of with (p := p'); rewrite <-?Ek; try done.
    + rewrite S5, E5, Wc. exact Ho.
    + assert (is_Some (pg_session p') → is_Some (sub_i07 s2)) as Hk7.
      { intros Hs. destruct Hcases as [->|He]; [|rewrite We in Hs by done; by destruct Hs].
        rewrite E7, F. destruct k; try (by apply Ws in Hs; [|simpl; tauto]); try (by rewrite We in Hs; [destruct Hs|]).
        destruct response; [by apply Ws in Hs; [|simpl; tauto]|by rewrite We in Hs; [destruct Hs|]]. }
      destruct k; try exact Hk7. by destruct Wf.
    + split; [tauto|]. by rewrite Hnes.
    + intros _ ->. by destruct Wf.
    + rewrite S5, E5, Wc. destruct next as [[]| | | | | |]; try done.
    + by left.
    + split_and!; [done|done|by destruct next as [[]| | | | | |]|done|done|]. by destruct k.
    + intros _ ->. by destruct Wf.
Qed.

Lemma slots_close_concerned concern s :
  sub_gate (close_concerned concern s) = sub_gate s ∧ sub_expected (close_concerned concern s) = sub_expected s.
Proof.
  destruct concern as [|side|side conn]; cbn [close_concerned]; try done.
  pose proof (drop_held_slots side s) as E. unfold slots in E. by destruct side; injection E.
Qed.

(** Feeding an event: agreement again once it is done. *)
Lemma deliver_loop_spec fuel event concern received_at :
  spec (feedable event concern) (deliver_loop fuel event concern received_at) (delivered event).
Proof.
  revert event concern received_at. induction fuel as [|fuel IH]; intros event concern received_at s Hr Hf;
    rewrite deliver_unfold; pose proof (policy_handle _ event Hr) as Hfed;
    destruct (Writer.handle event (sub_gate s)) as [p [output|error]] eqn:Hh; cbn [fst] in Hfed.
  all: try (cbn [fst snd]; destruct (slots_close_concerned concern (put_gate p s)) as [-> ->]; done).
  all: destruct (wire output concern received_at _) as [s2 r] eqn:Hw; apply wire_spec in Hw as [(f & -> & Hw)|[-> [e ->]]];
    [|by cbn [fst snd]].
  all: destruct (wire_effect_gate _ _ _ _ _ Hw) as (Hg & Hx & _);
    pose proof (event_resumable _ _ _ _ _ _ _ Hr Hf Hh Hw) as Hres;
    destruct (settled_slots s2) as (Sg & Se & _);
    assert (policy_reachable (sub_gate (settled_state s2)) ∧
            sub_expected (settled_state s2) = sub_expected s) as [Hfed2 Hx2] by (rewrite Sg, Se, Hg, Hx; done);
    destruct (check_ports (settled_state s2)).2 as [[]|e|]; [|by cbn [fst snd]..];
    destruct f as [[next concern']|]; [|cbn [fst snd]; split; [done|]; split; [done|]; by intros ? [= <-]].
  - by cbn [fst snd].
  - destruct Hres as (Hf' & Hnc & Hncl & Hnes & Hns).
    destruct (IH next concern' None (settled_state s2) Hfed2 Hf') as (G1 & G2 & G3).
    destruct (deliver_loop fuel next concern' None (settled_state s2)) as [s4 r]. cbn [fst snd] in *.
    split; [done|]. split; [congruence|]. intros a Ha. destruct r as [o|e|]; try done.
    injection Ha as <-. destruct (G3 o eq_refl) as (D1 & D2 & D3 & D4 & _). specialize (D4 Hnc).
    split_and!; try done; [by rewrite Hnes|]. by destruct (po_kind output).
Qed.
End Proofs.
