(* ===== verification/SubstrateLoop.v ===== *)
(** * The running loop: agreement with the gate

    Every action of a wake, from the expiry check to the listeners, and the wake itself: between wakes the held
    connections agree with the gate, and every reachable loop runs a reachable policy gate. *)

From S2P Require Import Prelude Slices Json Render Types Journal Observation Config Policy Gate PolicyGate.
From S2P Require Import GateSteps PolicyProtocol PolicySteps PolicySafety PolicyChannels PeerWire Substrate SubstrateProofs.
Section Loop.
Context {St Ob O M I U : Type} {HS : Stores St} {HL : StoresLaws St} {HO : WorkerObserver Ob}.
Context {HOs : Os O} {HI : I04Port M I} {HU : UpstreamPort M U} {LI : I04PortLaws M I} {LU : PortLaws M U}.
Abbreviation substrate := (Substrate St Ob O M I U).
Implicit Types (s : substrate) (p : PolicyGate St Ob).

(** ** More rules *)

(** The expected peers never change. *)
Lemma spec_peers {A} P (m : @act St Ob O M I U A) (Q : A → substrate → Prop) peers :
  spec P m Q → spec (λ s, sub_expected s = peers ∧ P s) m (λ a s, sub_expected s = peers ∧ Q a s).
Proof. intros Hm s Hr [He Hp]. destruct (Hm s Hr Hp) as (H1 & H2 & H3). split_and!; try done. intros a Ha. split; [congruence|auto]. Qed.

(** A fact about the answers alone. *)
Lemma spec_answer {A} P (m : @act St Ob O M I U A) (Q : A → substrate → Prop) (φ : A → Prop) :
  spec P m Q → (∀ s a, P s → (m s).2 = Done a → φ a) → spec P m (λ a s, φ a ∧ Q a s).
Proof. intros Hm Hphi s Hr Hp. destruct (Hm s Hr Hp) as (H1 & H2 & H3). split_and!; try done. intros a Ha. split; [by eapply Hphi|auto]. Qed.

(** A system call in a state whose description does not mention the system. *)
Definition os_blind (P : substrate → Prop) : Prop := ∀ s os, P s → P (put_os os s).

Lemma spec_call_blind {A} P (f : O → O * A) :
  os_blind P → spec P (call (St := St) (Ob := Ob) (I := I) (U := U) f) (λ a s, (∃ os, (f os).2 = a) ∧ P s).
Proof. intros Hb. apply spec_call. intros s Hp. split; [by eexists|]. by apply Hb. Qed.

Lemma spec_bind_call {A B} P (f : O → O * A) (k : A → @act St Ob O M I U B) (Q : B → substrate → Prop) :
  os_blind P → (∀ a, (∃ os, (f os).2 = a) → spec P (k a) Q) → spec P (bind (call f) k) Q.
Proof. intros Hb Hk. eapply spec_bind; [by apply spec_call_blind|]. intros a. apply spec_pure, Hk. Qed.

(** What was read is forgotten. *)
Lemma spec_read {A} P (m : @act St Ob O M I U A) (Q : A → substrate → Prop) s0 :
  spec P m Q → spec (λ s, s = s0 ∧ P s) m Q.
Proof. intros Hm. eapply spec_conseq; [exact Hm|by intros s [_ ?]|done]. Qed.

Lemma spec_look {A} P (k : substrate → @act St Ob O M I U A) (Q : A → substrate → Prop) :
  (∀ s0, P s0 → spec P (k s0) Q) → spec P (bind get k) Q.
Proof. intros Hk s Hr Hp. by apply (Hk s). Qed.

Lemma agrees_blind : os_blind agrees.
Proof. intros s os [? ? ? ?]. by split. Qed.

(** ** What the loop may feed in an agreeing state *)

Lemma agrees_feedable event concern s :
  agrees s →
  (∀ input, event = PolicyEvent.Base (Event.Frame input) → is_Some (sub_i05 s)) →
  (event = PolicyEvent.Base Event.SecondChannel → concern ≠ Concern.Held Listen.I05) →
  (is_connect event = true → concern ≠ Concern.Held Listen.I07) →
  feedable event concern s.
Proof. intros [? ? ? ?] ???. split; try done; by right. Qed.

Lemma delivered_agrees event output s : is_connect event = false → delivered event output s → agrees s.
Proof. intros Hc (? & ? & ? & Hs & _). split; auto. Qed.

(** After a fed event, also what the event itself ended. *)
Definition fed_state (event : PolicyEvent.t) s : Prop :=
  agrees s ∧ (closes_channel event → channel s ≠ Channel.Open) ∧
  (ends_session event = true → pg_session (sub_gate s) = None).

Lemma feed_spec event concern received_at :
  is_connect event = false → spec (feedable event concern) (feed event concern received_at) (λ _, fed_state event).
Proof.
  intros Hc. unfold feed. eapply spec_bind; [apply deliver_loop_spec|]. intros output. apply spec_ret.
  intros s Hd. split; [by eapply delivered_agrees|]. by destruct Hd as (_ & _ & _ & _ & ? & ? & _).
Qed.

Lemma feed_agrees event concern received_at :
  is_connect event = false → spec (feedable event concern) (feed event concern received_at) (λ _, agrees).
Proof. intros Hc. eapply spec_conseq; [by apply feed_spec|done|]. by intros ? s [? _]. Qed.

Lemma check_ports_spec (P : substrate → Prop) : spec P check_ports (λ _, P).
Proof.
  intros s Hr Hp. rewrite check_ports_state. split; [done|]. split; [done|]. auto.
Qed.

(** *** Expiry, deadlines and ports *)

Lemma expiry_remaining_spec (P : substrate → Prop) : os_blind P → spec P expiry_remaining (λ _, P).
Proof.
  intros Hb. unfold expiry_remaining. apply spec_get. intros s0.
  destruct (bound_run _) as [run|]; [destruct (br_expired run)|]; try (by apply spec_ret; intros s [_ ?]).
  apply spec_read, spec_bind_call; [done|]. intros now _.
  destruct (Lifetimes_end _ _), now; by apply spec_ret.
Qed.

Lemma check_expiry_spec : spec agrees check_expiry (λ _, agrees).
Proof.
  unfold check_expiry. eapply spec_bind; [apply expiry_remaining_spec, agrees_blind|]. intros left_.
  case_bool_decide; [|by apply spec_ret].
  eapply spec_conseq; [apply (feed_agrees (PolicyEvent.Base Event.Expire) Concern.Nothing None)|..]; [done| |done].
  intros s Hs. by apply agrees_feedable.
Qed.

Lemma timeout_ms_spec (P : substrate → Prop) : os_blind P → spec P timeout_ms (λ _, P).
Proof.
  intros Hb. unfold timeout_ms. apply spec_bind_call; [done|]. intros now _. apply spec_get. intros s0.
  apply spec_read.
  eapply spec_bind; [by apply expiry_remaining_spec|]. intros left_. by apply spec_ret.
Qed.

Lemma feed_port_events_spec events :
  Forall (λ e, port_event e = true) events → spec agrees (feed_port_events events) (λ _, agrees).
Proof.
  induction 1 as [|event events He _ IH]; cbn [feed_port_events]; [by apply spec_ret|].
  apply spec_bind with (Q := λ _, agrees); [apply spec_when; [intros _; apply check_expiry_spec|done]|]. intros _.
  eapply spec_bind; [|intros ?; exact IH].
  eapply spec_conseq; [apply deliver_loop_spec| |].
  - intros s Hs. apply (agrees_feedable event Concern.Nothing); [done|..].
    + intros input E. by rewrite E in He.
    + by intros _.
    + by intros _.
  - intros a s. apply delivered_agrees. clear -He. by destruct event as [[]| | | | | |].
Qed.

Lemma i04_events_spec f :
  (∀ port, Forall (λ e, port_event e = true) (f port).2) → spec agrees (i04_events f) (λ _, agrees).
Proof.
  intros Hf. unfold i04_events. apply spec_get. intros s0. pose proof (Hf (at_i04 s0)) as He.
  destruct (f (at_i04 s0)) as [i04 events]. cbn [snd] in He.
  eapply spec_bind; [apply spec_modify with (Q := λ _, agrees)|].
  - done.
  - intros s [_ Hs]. by destruct Hs; split.
  - intros ?. eapply spec_bind; [apply check_ports_spec|]. intros ?. by apply feed_port_events_spec.
Qed.

Lemma upstream_events_spec f :
  (∀ port, Forall (λ e, port_event e = true) (f port).2) → spec agrees (upstream_events f) (λ _, agrees).
Proof.
  intros Hf. unfold upstream_events. apply spec_get. intros s0. pose proof (Hf (at_upstream s0)) as He.
  destruct (f (at_upstream s0)) as [upstream events]. cbn [snd] in He.
  eapply spec_bind; [apply spec_modify with (Q := λ _, agrees)|].
  - done.
  - intros s [_ Hs]. by destruct Hs; split.
  - intros ?. eapply spec_bind; [apply check_ports_spec|]. intros ?. by apply feed_port_events_spec.
Qed.

Lemma feed_due_spec now owners : spec agrees (feed_due now owners) (λ _, agrees).
Proof.
  induction owners as [|[] owners IH]; cbn [feed_due]; [by apply spec_ret|..];
    (eapply spec_bind; [|intros ?; exact IH]).
  - apply i04_events_spec. intros port. apply due_events.
  - apply upstream_events_spec. intros port. apply due_events.
Qed.

Lemma port_deadlines_spec : spec agrees port_deadlines (λ _, agrees).
Proof.
  unfold port_deadlines. apply spec_bind_call; [apply agrees_blind|]. intros now _. apply spec_get. intros s0.
  apply spec_read, feed_due_spec.
Qed.

Lemma i04_ready_spec events : spec agrees (i04_ready events) (λ _, agrees).
Proof.
  induction events as [|[value readiness] events IH]; cbn [i04_ready]; [by apply spec_ret|].
  eapply spec_bind; [|intros ?; exact IH]. apply i04_events_spec. intros port. apply ready_events.
Qed.

Lemma upstream_ready_spec events : spec agrees (upstream_ready events) (λ _, agrees).
Proof.
  induction events as [|[value readiness] events IH]; cbn [upstream_ready]; [by apply spec_ret|].
  eapply spec_bind; [|intros ?; exact IH]. apply upstream_events_spec. intros port. apply ready_events.
Qed.

(** *** Custody *)

Lemma side_peer_expected side s : expected side s = side_peer (sub_expected s) side.
Proof. by destruct side. Qed.

Lemma exe_ok_spec (P : substrate → Prop) side conn : os_blind P → spec P (exe_ok (St := St) (Ob := Ob) (I := I) (U := U) side conn) (λ _, P).
Proof.
  intros Hb. destruct side; cbn [exe_ok]; [by apply spec_ret|].
  eapply spec_conseq; [by apply spec_call_blind|done|]. by intros exe s [_ ?].
Qed.

(** A qualified connection is the expected peer's. *)
Lemma qualify_spec P conn side peers :
  os_blind P → (∀ s, P s → sub_expected s = peers) →
  spec P (qualify conn side)
    (λ q s, (∀ ident capacity, q = Some (ident, capacity) → qualified (side_peer peers side) ident) ∧ P s).
Proof.
  intros Hb He. assert (∀ Q, spec P (ret (@None (QualifiedIdentity * Z))) (λ q s, (∀ i c, q = Some (i, c) → Q i) ∧ P s)) as Hnone.
  { intros Q. by apply spec_ret. }
  unfold qualify. apply spec_bind_call; [done|]. intros [peer|] _; [|apply Hnone].
  destruct (pc_pid peer <=? 0); [apply Hnone|]. apply spec_bind_call; [done|]. intros opened _.
  destruct (negb opened); [apply Hnone|]. apply spec_bind_call; [done|]. intros [process|] _; [|apply Hnone].
  apply spec_look. intros s0 Hp0. rewrite side_peer_expected, (He s0 Hp0).
  destruct (negb (peer_matches _ process peer)) eqn:Em; [apply Hnone|]. apply negb_false_iff in Em.
  eapply spec_bind; [by apply exe_ok_spec|]. intros exe.
  destruct (negb exe); [apply Hnone|]. apply spec_bind_call; [done|]. intros exited _.
  destruct exited; [apply Hnone|]. destruct (control_capacity _) as [capacity|]; [|apply Hnone].
  apply spec_ret. intros s1 Hp1. split; [|done]. intros ident cap [= <- <-].
  unfold peer_matches in Em. rewrite !andb_true_iff in Em. destruct Em as ((((E1 & E2) & E3) & E4) & E5).
  split; [done|]. cbn. split; [by apply Z.eqb_eq|]. intros gid Hg. rewrite Hg in E4. by apply Z.eqb_eq.
Qed.
(** The connection a slot holds, with agreement. *)
Definition holding (side : Listen.t) (held : Held) s : Prop := agrees s ∧ slot side s = Some held.

Lemma holding_blind side held : os_blind (holding side held).
Proof. intros s os [Ha Hs]. split; [by apply agrees_blind|by destruct side]. Qed.

Lemma custody_spec (P : substrate → Prop) side control truncated : os_blind P → spec P (custody side control truncated) (λ _, P).
Proof.
  intros Hb. assert (∀ b : bool, spec P (ret b) (λ _, P)) as Hret by (intros b; by apply spec_ret).
  unfold custody. apply spec_look. intros s0 _. destruct (slot side s0); [|apply Hret].
  destruct (parse_control control truncated); [|apply Hret]. destruct (negb _); [apply Hret|].
  apply spec_bind_call; [done|]. intros [process|] _; [|apply Hret]. destruct (negb _); [apply Hret|].
  eapply spec_bind; [by apply exe_ok_spec|]. intros []; [|apply Hret]. first [apply Hret|apply spec_bind_call; [done|]; intros exited _; apply Hret].
Qed.

(** *** Deviations, datagrams and receives *)

Lemma drop_none side s : slot side s = None → drop_held side s = s.
Proof. unfold drop_held. by intros ->. Qed.

(** A connection whose channel or session just ended can be dropped. *)
Lemma agrees_drop side s :
  agrees s → (side = Listen.I05 → channel s ≠ Channel.Open) → (side = Listen.I07 → pg_session (sub_gate s) = None) →
  agrees (drop_held side s).
Proof.
  intros [Ho Hl Hs Hi] H5 H7. pose proof (drop_held_slots side s) as E. unfold slots in E.
  assert (identities (drop_held side s)) as Hi'.
  { apply (dropped_identities side s); [|done]. by right. }
  destruct side.
  - injection E as E5 E7 Eg Ee. assert (channel (drop_held Listen.I05 s) = channel s) as Ec by (unfold channel; by rewrite Eg).
    split; [|by unfold held_live; rewrite E5; intros []|by unfold held_session in *; rewrite E7, Eg|done].
    intros Hc. rewrite Ec in Hc. by destruct H5.
  - rewrite drop_none; [done|]. cbn [slot]. apply eq_None_not_Some. unfold held_session in Hs. rewrite Hs, H7 by done.
    by intros [].
Qed.

Lemma modify_drop_spec P side :
  (∀ s, P s → agrees s ∧ (side = Listen.I05 → channel s ≠ Channel.Open) ∧
              (side = Listen.I07 → pg_session (sub_gate s) = None)) →
  spec P (modify (drop_held side)) (λ _, agrees).
Proof.
  intros HP. apply spec_modify.
  - intros s. pose proof (drop_held_slots side s) as E. unfold slots in E. by destruct side; injection E.
  - intros s Hp. destruct (HP s Hp) as (? & ? & ?). by apply agrees_drop.
Qed.

Lemma feed_held event side r :
  loop_event event = true → is_connect event = false → event ≠ PolicyEvent.Base Event.SecondChannel →
  spec agrees (feed event (Concern.Held side) r) (λ _, fed_state event).
Proof.
  intros Hl Hc Hs. eapply spec_conseq; [by apply feed_spec| |done]. intros s Ha.
  apply agrees_feedable; [done|..]; [intros input ->; done|done|congruence].
Qed.

Lemma deviation_spec side : spec agrees (deviation side) (λ _, agrees).
Proof.
  unfold deviation. apply spec_get. intros s0. destruct side.
  - apply spec_bind with (Q := λ _ s, agrees s ∧ channel s ≠ Channel.Open).
    + destruct (channel s0) eqn:Ec.
      * apply spec_read. eapply spec_bind.
        { eapply spec_conseq; [by apply feed_held|done|]. intros ? s [Ha _]. exact Ha. }
        intros ?. eapply spec_conseq; [by apply feed_held|done|]. intros ? s (Ha & Hc & _). split; [done|]. by apply Hc; left.
      * apply spec_read. eapply spec_conseq; [by apply feed_held|done|]. intros ? s (Ha & Hc & _).
        split; [done|]. by apply Hc; right; left.
      * apply spec_ret. intros s [-> Ha]. split; [done|]. by rewrite Ec.
    + intros ?. apply modify_drop_spec. by intros s [? ?].
  - apply spec_bind with (Q := λ _ s, agrees s ∧ pg_session (sub_gate s) = None).
    + apply spec_read. eapply spec_conseq; [by apply feed_held|done|]. intros ? s (Ha & _ & Hc). split; [done|]. by apply Hc.
    + intros ?. apply modify_drop_spec. by intros s [? ?].
Qed.

Lemma frame_event_feedable side bytes s :
  agrees s → is_Some (slot side s) → feedable (frame_event side bytes) (Concern.Held side) s.
Proof. intros Ha Hs. apply agrees_feedable; [done|..]; by destruct side. Qed.

Lemma feed_datagram_spec side bytes received_at held :
  spec (holding side held) (feed_datagram side bytes received_at) (λ _, agrees).
Proof.
  set (cut := take (Z.to_nat FRAME_BUFFER_BYTES) bytes). destruct side; cbn [feed_datagram].
  - apply spec_bind with (Q := λ _, agrees).
    { eapply spec_conseq; [apply check_expiry_spec|by intros s [? _]|done]. }
    intros ?. apply spec_bind with (Q := λ _, agrees).
    { apply i04_events_spec. intros port. apply drain_events. }
    intros ?. apply spec_get. intros s0. destruct (sub_i05 s0) as [held0|] eqn:E5; [|by apply spec_ret; intros s (_ & ?)].
    apply spec_bind with (Q := λ _, agrees); [|intros ?; by apply spec_ret].
    eapply spec_conseq; [apply (feed_agrees (frame_event Listen.I05 cut)); done| |done].
    intros s (-> & Ha). apply frame_event_feedable; [done|by cbn; rewrite E5].
  - apply spec_bind with (Q := λ _, agrees); [|intros ?; by apply spec_ret].
    eapply spec_conseq; [apply (feed_agrees (frame_event Listen.I07 cut)); done| |done].
    intros s [Ha Hs]. by apply frame_event_feedable.
Qed.

Lemma lost_feedable side s :
  agrees s → feedable (lost_event side) (Concern.Held side) (drop_held side s).
Proof.
  intros [Ho Hl Hs Hi]. pose proof (drop_held_slots side s) as E. unfold slots in E.
  assert (identities (drop_held side s)) as Hi'.
  { apply (dropped_identities side s); [|done]. by right. }
  split; [done|..]; destruct side; try done; injection E as E5 E7 Eg Ee.
  - by left.
  - right. unfold held_open, channel in *. by rewrite Eg, E5.
  - right. unfold held_session in *. by rewrite E7, Eg.
  - by left.
Qed.

Lemma drop_spec P side Q :
  (∀ s, P s → Q (drop_held side s)) → spec P (modify (drop_held side)) (λ _, Q).
Proof.
  intros HP. apply spec_modify; [|done].
  intros s. pose proof (drop_held_slots side s) as E. unfold slots in E. by destruct side; injection E.
Qed.

Lemma read_one_spec side held : spec (holding side held) (read_one side held) (λ _, agrees).
Proof.
  unfold read_one. apply spec_bind_call; [apply holding_blind|]. intros received _.
  apply spec_bind_call; [apply holding_blind|]. intros received_at _.
  assert (spec (holding side held) (let> _ := modify (drop_held side) in
    let> _ := feed (lost_event side) (Concern.Held side) None in ret false) (λ _, agrees)) as Hlost.
  { apply spec_bind with (Q := λ _, feedable (lost_event side) (Concern.Held side)).
    - apply drop_spec. intros s [Ha _]. by apply lost_feedable.
    - intros ?. apply spec_bind with (Q := λ _, agrees); [|intros ?; by apply spec_ret]. apply feed_agrees. by destruct side. }
  destruct received as [| |errno|bytes truncated control control_truncated]; try done.
  { apply spec_ret. by intros s [? _]. }
  eapply spec_bind; [apply custody_spec, holding_blind|]. intros []; cbn [negb]; [apply feed_datagram_spec|].
  apply spec_bind with (Q := λ _, agrees); [|intros ?; by apply spec_ret].
  eapply spec_conseq; [apply deviation_spec|by intros s [? _]|done].
Qed.

Lemma spec_slot {A} side (m : @act St Ob O M I U A) (k : Held → @act St Ob O M I U A) (Q : A → substrate → Prop) :
  spec agrees m Q → (∀ held, spec (holding side held) (k held) Q) →
  spec agrees (let> s := get in match slot side s with None => m | Some held => k held end) Q.
Proof.
  intros Hm Hk. apply spec_get. intros s0. destruct (slot side s0) as [held|] eqn:E.
  - intros s Hr [-> Ha]. by apply Hk.
  - by apply spec_read.
Qed.

Lemma holding_agrees {A} side held (m : @act St Ob O M I U A) (Q : A → substrate → Prop) :
  spec agrees m Q → spec (holding side held) m Q.
Proof. intros Hm. eapply spec_conseq; [exact Hm|by intros s [? _]|done]. Qed.

Lemma read_conn_spec fuel side : spec agrees (read_conn fuel side) (λ _, agrees).
Proof.
  induction fuel as [|fuel IH]; cbn [read_conn]; apply (spec_slot side); try (by apply spec_ret); intros held.
  - by apply spec_fail.
  - eapply spec_bind; [apply read_one_spec|]. intros []; [exact IH|by apply spec_ret].
Qed.

Lemma pidfd_fired_spec fuel side : spec agrees (pidfd_fired fuel side) (λ _, agrees).
Proof.
  unfold pidfd_fired. apply (spec_slot side); [by apply spec_ret|]. intros held.
  apply spec_bind with (Q := λ _, agrees); [apply holding_agrees, read_conn_spec|]. intros ?.
  apply (spec_slot side); [by apply spec_ret|]. intros held2.
  apply spec_bind_call; [apply holding_blind|]. intros exited _. apply holding_agrees.
  destruct exited; [apply deviation_spec|by apply spec_ret].
Qed.

(** *** Accepts *)

(** Free to hold a connection: the I05 channel unopened, or a new writer session. *)
Definition vacant (side : Listen.t) s : Prop :=
  match side with
  | Listen.I05 => agrees s ∧ channel s = Channel.Unopened ∧ sub_i05 s = None
  | Listen.I07 => held_open s ∧ held_live s ∧ identities s ∧ sub_i07 s = None ∧ is_Some (pg_session (sub_gate s))
  end.

Lemma put_slot_agrees side held s :
  vacant side s → qualified (side_peer (sub_expected s) side) (hd_identity held) → agrees (put_slot side (Some held) s).
Proof.
  destruct side; cbn [vacant put_slot side_peer].
  - intros ([Ho Hl Hs [Hi5 Hi7]] & Hc & H5) Hq. split.
    + intros _. cbn. eauto.
    + intros _. unfold channel in *. cbn. by rewrite Hc.
    + exact Hs.
    + split; [by intros ? [= <-]|exact Hi7].
  - intros (Ho & Hl & [Hi5 Hi7] & H7 & Hs) Hq. split; [exact Ho|exact Hl| |].
    + unfold held_session. cbn. split; [done|eauto].
    + split; [exact Hi5|by intros ? [= <-]].
Qed.

Lemma hold_spec side conn ident capacity peers :
  qualified (side_peer peers side) ident →
  spec (λ s, sub_expected s = peers ∧ vacant side s) (hold side conn ident capacity) (λ _, agrees).
Proof.
  intros Hq. unfold hold. apply spec_bind with (Q := λ _, agrees).
  { apply spec_modify; [by intros s; destruct side|]. intros s [<- Hv]. by apply put_slot_agrees. }
  intros ?. apply spec_bind_call; [apply agrees_blind|]. intros watched _.
  apply spec_bind with (Q := λ _, agrees).
  { destruct watched; [|by apply spec_ret]. eapply spec_conseq; [apply spec_call_blind, agrees_blind|done|by intros ? s [_ ?]]. }
  intros []; [by apply spec_ret|]. apply spec_bind with (Q := λ _ _, True); [|intros ?; apply spec_exit].
  by apply (drop_spec _ _ (λ _, True)).
Qed.

Lemma modify_close_spec P conn : os_blind P → spec P (modify (close_conn conn)) (λ _, P).
Proof. intros Hb. apply spec_modify; [done|]. intros s. apply Hb. Qed.

Lemma feed_fresh event side conn :
  loop_event event = true → is_connect event = false →
  spec agrees (feed event (Concern.Fresh side conn) None) (λ _, agrees).
Proof.
  intros Hl Hc. eapply spec_conseq; [by apply feed_agrees| |done]. intros s Ha.
  apply agrees_feedable; [done|..]; [intros input ->; done|by intros _|by intros _].
Qed.

Lemma accept_i05_spec conn : spec agrees (accept_i05 conn) (λ _, agrees).
Proof.
  unfold accept_i05. apply spec_get. intros s0.
  assert (spec agrees (let> _ := feed (PolicyEvent.Base Event.SecondChannel) (Concern.Fresh Listen.I05 conn) None in
                       modify (close_conn conn)) (λ _, agrees)) as Hsecond.
  { apply spec_bind with (Q := λ _, agrees); [by apply feed_fresh|]. intros ?. apply modify_close_spec, agrees_blind. }
  destruct (channel s0) eqn:Ec; [|by apply spec_read..].
  destruct (sub_i05 s0) eqn:E5; [apply spec_read, modify_close_spec, agrees_blind|].
  set (peers := sub_expected s0).
  apply spec_conseq with (P' := λ s, sub_expected s = peers ∧ vacant Listen.I05 s) (Q' := λ _, agrees);
    [|by intros s [-> Ha]|done].
  assert (os_blind (λ s, sub_expected s = peers ∧ vacant Listen.I05 s)) as Hb.
  { intros s os (He & Ha & Hc & Hn). split; [done|]. split; [by apply agrees_blind|done]. }
  eapply spec_bind; [apply (qualify_spec _ conn Listen.I05 peers Hb); by intros s [? _]|].
  intros [[ident capacity]|]; apply spec_pure; intros Hq.
  - apply hold_spec. by eapply Hq.
  - apply spec_conseq with (P' := agrees) (Q' := λ _, agrees); [|by intros s (_ & ? & _)|done].
    apply spec_bind with (Q := λ _, agrees); [by apply feed_fresh|]. intros ?.
    apply spec_bind with (Q := λ _, agrees); [by apply feed_fresh|]. intros ?.
    apply modify_close_spec, agrees_blind.
Qed.

(** The answer to a connect tells whether a session was held. *)
Lemma connect_kind fuel challenge concern r s output :
  (deliver_loop fuel (PolicyEvent.WConnect challenge) concern r s).2 = Done output →
  po_kind output = if Writer.session_held (sub_gate s) then PolicyOutputKind.RefusedSession else PolicyOutputKind.Session.
Proof.
  rewrite deliver_unfold.
  assert (∃ p out, Writer.handle (PolicyEvent.WConnect challenge) (sub_gate s) = (p, Ok out) ∧
    po_kind out = if Writer.session_held (sub_gate s) then PolicyOutputKind.RefusedSession else PolicyOutputKind.Session)
    as (p & out & -> & Hk).
  { unfold Writer.handle, Writer.dispatch, Writer.drained, Writer.connect, Writer.session_held.
    destruct (pg_session (sub_gate s)) as [session|]; cbn [fst snd];
      match goal with |- context [Writer.with_drain ?q ?o] => destruct (with_drain_keeps q o) as (_ & _ & E3 & _);
        destruct (Writer.with_drain q o) as [p2 out2] end; cbn [fst snd] in *; eexists _, _; (split; [done|]); by rewrite E3. }
  assert (∀ f s2, wire_effect (po_kind out) concern (apply_ports out (put_gate p s)) s2 f → f = None) as Hf.
  { intros f s2. rewrite Hk. by destruct (Writer.session_held _); intros [-> _]. }
  destruct (wire out concern r _) as [s2 r2] eqn:Hw. apply wire_spec in Hw as [(f & -> & Hw)|[_ [e ->]]]; [|done].
  rewrite (Hf _ _ Hw). destruct (check_ports (settled_state s2)).2; [|done..]. cbn [snd]. by intros [= <-].
Qed.

Lemma accept_i07_spec conn : spec agrees (accept_i07 conn) (λ _, agrees).
Proof.
  unfold accept_i07. apply spec_get. intros s0. set (peers := sub_expected s0).
  assert (∀ s, agrees s → feedable (PolicyEvent.WConnect "") (Concern.Fresh Listen.I07 conn) s) as Hfeed.
  { intros s Ha. by apply agrees_feedable. }
  destruct (Writer.session_held (sub_gate s0)) eqn:Es.
  - apply spec_bind with (Q := λ _, agrees); [|intros ?; apply modify_close_spec, agrees_blind]. unfold feed.
    apply spec_bind with (Q := λ output s, po_kind output = PolicyOutputKind.RefusedSession ∧ delivered (PolicyEvent.WConnect "") output s).
    + apply spec_answer.
      * eapply spec_conseq; [apply deliver_loop_spec|intros s [_ Ha]; by apply Hfeed|by intros].
      * intros s a [-> _] Ha. apply connect_kind in Ha. by rewrite Es in Ha.
    + intros output. apply spec_ret. intros s (Hk & Ho & Hl & Hi & _ & _ & _ & Hs). rewrite Hk in Hs. by split.
  - set (P := λ s, (sub_expected s = peers ∧ Writer.session_held (sub_gate s) = false) ∧ agrees s).
    apply spec_conseq with (P' := P) (Q' := λ _, agrees); [|by intros s [-> Ha]|done].
    assert (os_blind P) as Hb by (intros s os (He & Ha); split; [done|by apply agrees_blind]).
    eapply spec_bind; [apply (qualify_spec _ conn Listen.I07 peers Hb); by intros s [[? _] _]|].
    intros [[ident capacity]|]; apply spec_pure; intros Hq.
    + apply spec_bind with (Q := λ output s, po_kind output = PolicyOutputKind.Session ∧
        (sub_expected s = peers ∧ delivered (PolicyEvent.WConnect "") output s)).
      * apply spec_answer.
        -- apply spec_conseq with (P' := λ s, sub_expected s = peers ∧ feedable (PolicyEvent.WConnect "") (Concern.Fresh Listen.I07 conn) s)
             (Q' := λ a s, sub_expected s = peers ∧ delivered (PolicyEvent.WConnect "") a s);
             [apply spec_peers, deliver_loop_spec| |by intros].
           intros s ((? & _) & Ha). split; [done|by apply Hfeed].
        -- intros s a ((_ & Hs) & _) Ha. apply connect_kind in Ha. by rewrite Hs in Ha.
      * intros output. apply spec_pure. intros Hk. rewrite Hk.
        eapply spec_conseq; [apply (hold_spec Listen.I07 conn ident capacity peers); by eapply Hq| |done].
        intros s (He & Ho & Hl & Hi & _ & _ & _ & Hs). rewrite Hk in Hs. split; [done|]. cbn. tauto.
    + apply spec_conseq with (P' := agrees) (Q' := λ _, agrees); [|by intros s [_ ?]|done]. apply modify_close_spec, agrees_blind.
Qed.

Lemma accept_all_spec fuel side : spec agrees (accept_all fuel side) (λ _, agrees).
Proof.
  revert side. induction fuel as [|fuel IH]; intros side; cbn [accept_all];
    (apply spec_bind_call; [apply agrees_blind|]; intros [[conn|]|[]] _; [|by apply spec_ret|apply spec_exit]);
    (apply spec_bind with (Q := λ _, agrees); [destruct side; [apply accept_i05_spec|apply accept_i07_spec]|intros ?]);
    [by apply spec_fail|apply IH].
Qed.

(** *** The wake *)

Lemma register_ports_spec : spec agrees register_ports (λ _, agrees).
Proof.
  intros s Hr [Ho Hl Hs Hi]. unfold register_ports. destruct (register (sub_i04 s) (sub_os s)) as [[i04 os] [[]|e]].
  - cbn [sub_upstream put_os put_i04 sub_os]. destruct (register (sub_upstream s) os) as [[upstream os2] r].
    cbn [fst snd]. split; [done|]. split; [done|]. intros ? _. by split.
  - by cbn [fst snd].
Qed.

Lemma wake_spec (P : substrate → Prop) : os_blind P → spec P wake (λ _, P).
Proof.
  intros Hb. unfold wake. eapply spec_bind; [apply check_ports_spec|]. intros ?.
  eapply spec_bind; [by apply timeout_ms_spec|]. intros timeout. apply spec_bind_call; [done|]. intros [ready|] _; [|apply spec_exit].
  intros s Hr Hp. by cbn [fst snd].
Qed.

Lemma when_agrees (b : bool) (m : @act St Ob O M I U unit) : spec agrees m (λ _, agrees) → spec agrees (when b m) (λ _, agrees).
Proof. intros Hm. by apply spec_when. Qed.

Lemma turn_spec fuel : spec agrees (turn fuel) (λ _, agrees).
Proof.
  unfold turn. eapply spec_bind; [apply wake_spec, agrees_blind|]. intros w.
  eapply spec_bind; [apply check_expiry_spec|]. intros ?.
  eapply spec_bind; [apply port_deadlines_spec|]. intros ?.
  eapply spec_bind; [apply when_agrees, read_conn_spec|]. intros ?.
  eapply spec_bind; [apply when_agrees, read_conn_spec|]. intros ?.
  eapply spec_bind; [apply when_agrees, pidfd_fired_spec|]. intros ?.
  eapply spec_bind; [apply when_agrees, pidfd_fired_spec|]. intros ?.
  eapply spec_bind; [apply i04_ready_spec|]. intros ?.
  eapply spec_bind; [apply upstream_ready_spec|]. intros ?.
  eapply spec_bind; [apply when_agrees, accept_all_spec|]. intros ?.
  eapply spec_bind; [apply when_agrees, accept_all_spec|]. intros ?.
  apply register_ports_spec.
Qed.

(** ** Reachable loops *)

(** The gate a process starts with: a new one, or the restart of the journal an earlier one left. *)
Inductive started : PolicyGate St Ob → Prop :=
| started_new schema config stores observer g parts :
    with_stores_new schema config stores observer = Ok g → entries stores = [] → started (Writer.around parts g)
| started_again p0 schema config stores observer g parts :
    policy_reachable p0 → with_stores_new schema config stores observer = Ok g →
    entries stores = journal (pg_gate p0) →
    started (Writer.settle_maintenance (Writer.restart (Writer.around parts g)).1).

Lemma started_facts p : started p → policy_reachable p ∧ p_channel p ≠ Channel.Open ∧ pg_session p = None.
Proof.
  destruct 1 as [schema config stores observer g parts Hn He|p0 schema config stores observer g parts Hp Hn He].
  - split; [by eapply policy_new|]. split; [|done].
    unfold with_stores_new in Hn. destruct schema; [|done]. by injection Hn as <-.
  - split; [by eapply policy_open|]. destruct (settle_maintenance_keeps (Writer.restart (Writer.around parts g)).1) as [-> ->].
    unfold Writer.restart. destruct (rebuild_writes _) as [ws reason]. cbn zeta.
    match goal with |- context [restart_with ?f ?g1] => assert (g_channel (restart_with f g1).1 = Channel.Closed) as Hc;
      [|destruct (restart_with f g1) as [g2 output]] end.
    { unfold restart_with. destruct (rebuild _) as [g1 s]. cbn [fst]. by rewrite note_channel. }
    pose proof (settle_drain_channel g2) as Hs. destruct (settle_drain g2) as [g3 answer]. cbn [fst] in *.
    split; [|done]. unfold p_channel. cbn. congruence.
Qed.

(** A loop that was built over a started gate and has completed some wakes. *)
Inductive loop_reachable : substrate → Prop :=
| loop_built p os i04 upstream board peers lifetimes s :
    started p → Substrate_new p os i04 upstream board peers lifetimes = (s, Done ()) → loop_reachable s
| loop_turned s s' fuel : loop_reachable s → turn fuel s = (s', Done ()) → loop_reachable s'.

Lemma loop_reachable_agrees s : loop_reachable s → policy_reachable (sub_gate s) ∧ agrees s.
Proof.
  induction 1 as [p os i04 upstream board peers lifetimes s Hp Hn|s s' fuel _ [Hr Ha] Ht].
  - destruct (started_facts p Hp) as (Hr & Hc & Hs). set (s0 := mkSubstrate p os i04 upstream board peers lifetimes None None).
    assert (agrees s0) as Ha.
    { split; [by intros E|by intros []| |by split]. unfold held_session. cbn. rewrite Hs. done. }
    assert (spec agrees (let> watched := call (os_watch (Watch.Listener Listen.I05) I05_LISTENER_TOKEN) in
      let> both := if watched : bool then call (os_watch (Watch.Listener Listen.I07) I07_LISTENER_TOKEN) else ret false in
      if both : bool then register_ports else exit LoopExit.Poll) (λ _ : unit, agrees)) as Hspec.
    { apply spec_bind_call; [apply agrees_blind|]. intros watched _. apply spec_bind with (Q := λ _, agrees).
      { destruct watched; [|by apply spec_ret].
        eapply spec_conseq; [apply spec_call_blind, agrees_blind|done|by intros ? s1 [_ ?]]. }
      intros []; [apply register_ports_spec|apply spec_exit]. }
    unfold Substrate_new in Hn. fold s0 in Hn. destruct (Hspec s0 Hr Ha) as (G1 & _ & G3). rewrite Hn in *. cbn [fst snd] in *.
    split; [done|]. by apply (G3 ()).
  - destruct (turn_spec fuel s Hr Ha) as (G1 & _ & G3). rewrite Ht in *. cbn [fst snd] in *.
    split; [done|]. by apply (G3 ()).
Qed.

(** [C28] Between wakes the loop agrees with its gate, however the peers, the ports and the system behaved: the gate is a
    reachable policy gate, so that every safety property of its journal holds of the running process; a broker
    connection is held whenever the I05 channel is open and never once it is closed; a writer connection is held
    exactly while the gate has a writer session. *)
Theorem loop_agrees_with_the_gate s :
  loop_reachable s →
  policy_reachable (sub_gate s) ∧
  (channel s = Channel.Open → is_Some (sub_i05 s)) ∧ (is_Some (sub_i05 s) → channel s ≠ Channel.Closed) ∧
  (is_Some (sub_i07 s) ↔ is_Some (pg_session (sub_gate s))).
Proof. intros [Hr [Ho Hl Hs _]]%loop_reachable_agrees. done. Qed.
End Loop.
