(* ===== verification/SubstrateBounds.v ===== *)
(** * The loop's trace, and its bounds

    A wake as a trace: the system calls it made, each in the state the one before left and with its answer, and the
    events the gate was given, in their order.  A frame is given only out of a datagram in custody, and a wake that does
    not end keeps receiving.  Further: an I05 answer that is not sent within its bound ends the channel; no unexpired
    run passes an expiry check past its lifetime end; the wait is bounded and rounds up to no later than a millisecond
    after the earliest deadline. *)

From S2P Require Import Prelude Slices Json Render Types Journal Observation Config Policy Gate PolicyGate.
From S2P Require Import Protocol ProtocolProofs GateSteps PolicyProtocol PolicySteps PolicySafety PolicyChannels PeerWire Substrate SubstrateProofs SubstrateLoop.
(** ** Traces *)

(** A call of the loop, with its answer. *)
Module OsCall.
Inductive t :=
| Accept (side : Listen.t) (answer : result (option Z) unit)
| Peer (conn : Z) (answer : option PeerCredentials)
| OpenProc (conn pid : Z) (answer : bool)
| ReadProc (conn : Z) (answer : option ProcIdentity)
| Exited (conn : Z) (answer : bool)
| WriterExe (conn : Z) (answer : bool)
| Recv (conn capacity : Z) (answer : Received.t)
| Send (conn : Z) (bytes : list Z) (answer : bool)
| Close (conn : Z)
| Watching (watch : Watch.t) (token : Z) (answer : bool)
| Wait (timeout : Z) (answer : option (list (Z * Readiness)))
| Monotonic (answer : Z)
| Realtime (answer : option Z)
| Register (owner : Owner.t).
End OsCall.

Module Mark.
Inductive t := Did (call : OsCall.t) | Fed (event : PolicyEvent.t).
End Mark.

(** What happened, the newest first. *)
Abbreviation Trace := (list Mark.t).

(** Neither a frame nor a call that receives, accepts, reads a peer or waits. *)
Definition quiet (mark : Mark.t) : bool :=
  match mark with
  | Mark.Did (OsCall.Send _ _ _) | Mark.Did (OsCall.Close _) | Mark.Did (OsCall.Monotonic _) | Mark.Did (OsCall.Realtime _) => true
  | Mark.Did _ => false
  | Mark.Fed event => port_event event || loop_event event
  end.

(** A datagram received, or a connection accepted. *)
Definition arrival (mark : Mark.t) : bool :=
  match mark with
  | Mark.Did (OsCall.Recv _ _ (Received.Datagram _ _ _ _)) | Mark.Did (OsCall.Accept _ (Ok (Some _))) => true
  | _ => false
  end.
Definition arrivals (h : Trace) : nat := length (List.filter arrival h).

(** The reads that qualify a connection, and those of a datagram's custody after its receive; the writer's executable
    is read on the writer channel only. *)
Definition exe_reads (side : Listen.t) (conn : Z) : Trace :=
  match side with Listen.I05 => [] | Listen.I07 => [Mark.Did (OsCall.WriterExe conn true)] end.
Definition qualifying (side : Listen.t) (conn : Z) (peer : PeerCredentials) (process : ProcIdentity) : Trace :=
  Mark.Did (OsCall.Exited conn false) :: exe_reads side conn ++
    [Mark.Did (OsCall.ReadProc conn (Some process)); Mark.Did (OsCall.OpenProc conn (pc_pid peer) true);
     Mark.Did (OsCall.Peer conn (Some peer))].
Definition receiving (side : Listen.t) (conn capacity : Z) (received : Received.t) (process : ProcIdentity) (at_ : Z) : Trace :=
  Mark.Did (OsCall.Exited conn false) :: exe_reads side conn ++
    [Mark.Did (OsCall.ReadProc conn (Some process)); Mark.Did (OsCall.Monotonic at_);
     Mark.Did (OsCall.Recv conn capacity received)].

(** The peer the accept expects: its process's and its socket's label, its uid, and a pinned gid and cgroup. *)
Record expected_peer (e : ExpectedPeer) (process : ProcIdentity) (peer : PeerCredentials) : Prop := {
  xp_process : label_matches (pi_label process) (ep_label e) = true;
  xp_socket : label_matches (pc_label peer) (ep_label e) = true;
  xp_uid : pc_uid peer = ep_uid e;
  xp_gid gid : ep_gid e = Some gid → pc_gid peer = gid;
  xp_cgroup cgroup : ep_cgroup e = Some cgroup → same_lines (pi_cgroup process) cgroup = true;
  xp_pid : 0 < pc_pid peer;
}.

(** The same peer again: the control messages carry its credentials and label, and its process directory still reads as
    the process that was qualified, in the pinned cgroup (or the one it had), under the expected label. *)
Record same_peer (e : ExpectedPeer) (peer : PeerCredentials) (process : ProcIdentity) (delivered : Control) (now : ProcIdentity)
    : Prop := {
  sp_pid : c_pid (ct_credentials delivered) = pc_pid peer;
  sp_uid : c_uid (ct_credentials delivered) = pc_uid peer;
  sp_gid : c_gid (ct_credentials delivered) = pc_gid peer;
  sp_security : ct_security delivered = pc_label peer;
  sp_start : pi_start_time now = pi_start_time process;
  sp_cgroup : same_lines (pi_cgroup now) (default (pi_cgroup process) (ep_cgroup e)) = true;
  sp_label : label_matches (pi_label now) (ep_label e) = true;
}.

(** The connection was qualified: all its reads together, somewhere in the trace. *)
Definition qualified_in (e : ExpectedPeer) (side : Listen.t) (conn : Z) (peer : PeerCredentials) (process : ProcIdentity)
    (h : Trace) : Prop :=
  expected_peer e process peer ∧ ∃ later earlier, h = later ++ qualifying side conn peer process ++ earlier.

(** The trace ends with the receive of this datagram (cut to the receive buffer) and the checks of its custody, on a
    connection qualified before; and [in_custody]: since then nothing was received, accepted or read of a peer, and no
    frame given to the gate. *)
Definition just_received (e : ExpectedPeer) (side : Listen.t) (bytes : list Z) (h : Trace) : Prop :=
  ∃ earlier conn capacity datagram truncated control delivered now at_ peer process,
    h = receiving side conn capacity (Received.Datagram datagram truncated control false) now at_ ++ earlier ∧
    bytes = take (Z.to_nat FRAME_BUFFER_BYTES) datagram ∧ parse_control control false = Ok delivered ∧
    qualified_in e side conn peer process earlier ∧ same_peer e peer process delivered now.
Definition in_custody (e : ExpectedPeer) (side : Listen.t) (bytes : list Z) (h : Trace) : Prop :=
  ∃ later earlier, h = later ++ earlier ∧ Forall (λ mark, quiet mark = true) later ∧ just_received e side bytes earlier.

(** An event the gate may be given after a trace. *)
Inductive justified (peers : ExpectedPeers) (h : Trace) : PolicyEvent.t → Prop :=
| just_port event : port_event event = true → justified peers h event
| just_loop event : loop_event event = true → justified peers h event
| just_frame side bytes : in_custody (side_peer peers side) side bytes h → justified peers h (frame_event side bytes).

Section Bounds.
Context {St Ob O M I U : Type} {HS : Stores St} {HL : StoresLaws St} {HO : WorkerObserver Ob}.
Context {HOs : Os O} {HI : I04Port M I} {HU : UpstreamPort M U} {LI : I04PortLaws M I} {LU : PortLaws M U}.
Abbreviation substrate := (Substrate St Ob O M I U).
Implicit Types (s : substrate) (p : PolicyGate St Ob) (h : Trace).

(** A call takes the system from one state to the next. *)
Inductive did : OsCall.t → O → O → Prop :=
| did_accept side os : did (OsCall.Accept side (os_accept side os).2) os (os_accept side os).1
| did_peer conn os : did (OsCall.Peer conn (os_peer conn os).2) os (os_peer conn os).1
| did_open_proc conn pid os : did (OsCall.OpenProc conn pid (os_open_proc conn pid os).2) os (os_open_proc conn pid os).1
| did_read_proc conn os : did (OsCall.ReadProc conn (os_read_proc conn os).2) os (os_read_proc conn os).1
| did_exited conn os : did (OsCall.Exited conn (os_peer_exited conn os).2) os (os_peer_exited conn os).1
| did_exe conn os : did (OsCall.WriterExe conn (os_writer_exe_ok conn os).2) os (os_writer_exe_ok conn os).1
| did_recv conn capacity os : did (OsCall.Recv conn capacity (os_recv conn capacity os).2) os (os_recv conn capacity os).1
| did_send conn bytes os : did (OsCall.Send conn bytes (os_send conn bytes os).2) os (os_send conn bytes os).1
| did_close conn os : did (OsCall.Close conn) os (os_close conn os)
| did_watch watch token os : did (OsCall.Watching watch token (os_watch watch token os).2) os (os_watch watch token os).1
| did_wait timeout os : did (OsCall.Wait timeout (os_wait timeout os).2) os (os_wait timeout os).1
| did_monotonic os : did (OsCall.Monotonic (os_monotonic os).2) os (os_monotonic os).1
| did_realtime os : did (OsCall.Realtime (os_realtime_ms os).2) os (os_realtime_ms os).1
| did_register_i04 (port : I) os : did (OsCall.Register Owner.I04) os (register port os).1.2
| did_register_upstream (port : U) os : did (OsCall.Register Owner.Upstream) os (register port os).1.2.

(** A run of the gate and the system, with its trace: every call is made in the state the run is in, and every event is
    justified by the trace before it. *)
Inductive moves (peers : ExpectedPeers) (h : Trace) p (os : O) : Trace → PolicyGate St Ob → O → Prop :=
| moves_none : moves peers h p os h p os
| moves_call h1 p1 os1 call os2 :
    moves peers h p os h1 p1 os1 → did call os1 os2 → moves peers h p os (Mark.Did call :: h1) p1 os2
| moves_event h1 p1 os1 event :
    moves peers h p os h1 p1 os1 → justified peers h1 event →
    moves peers h p os (Mark.Fed event :: h1) (Writer.handle event p1).1 os1.

(** ** Follow-ups *)

(** A late or lost event has no answer of its own. *)
Lemma follow_up_is_last next concern p output f s s2 p' :
  (∃ side, next = late_event side ∨ next = lost_event side) → k_inv (core (pg_gate p)) →
  Writer.handle next p = (p', Ok output) → wire_effect (po_kind output) concern s s2 f → f = None.
Proof.
  intros [side Hn] Hk Hh Hw. pose proof (handle_handled next _ _ _ Hk Hh) as He.
  remember (po_kind output) as kind eqn:Ek. destruct He as [e o p2 Hnr Hc Hs|o m p2|ch p2|ch p2|e p2 k Hend Hc Hs [Hf Ha]|e p2 k Hev Hwe].
  - destruct (base_wire_cases o concern s s2 f Hw) as [_ [(Hans & _)|(_ & -> & _)]]; [|done].
    destruct (ce_answered _ _ _ _ Hc Hans) as [Hfr _]. exfalso. destruct Hn as [Hn|Hn]; destruct side; cbn in Hn; simplify_eq; done.
  - done.
  - by destruct Hw.
  - by destruct Hw.
  - destruct (writer_wire_cases k concern s s2 f Hf Hw) as [_ [(-> & _)|(? & _)]]; tauto.
  - exfalso. destruct Hev as [(? & ->)|(? & ? & ->)]; destruct Hn as [Hn|Hn]; by destruct side.
Qed.

Lemma wire_follow_ups kind concern s s2 f :
  wire_effect kind concern s s2 f →
  match f with Some (next, _) => ∃ side, next = late_event side ∨ next = lost_event side | None => True end.
Proof.
  assert (∀ side, answered_on side s s2 f →
    match f with Some (next, _) => ∃ side, next = late_event side ∨ next = lost_event side | None => True end) as Ha.
  { intros side Ha. destruct Ha; eauto. }
  unfold wire_effect. destruct kind as [base| | | | | | |c response| |]; [destruct (o_kind base)|..];
    try (intros [-> _]; done); try apply Ha; try done.
  destruct response; [apply Ha|by intros [-> _]].
Qed.

Lemma bind_call {A B} (f : O → O * A) (k : A → @act St Ob O M I U B) s :
  bind (call f) k s = k (f (sub_os s)).2 (put_os (f (sub_os s)).1 s).
Proof. unfold bind, call. by destruct (f (sub_os s)). Qed.

Lemma bind_get {A} (k : substrate → @act St Ob O M I U A) s : bind get k s = k s s.
Proof. done. Qed.

(** ** A logic of traces *)

Definition shrunk s s' : Prop := ∀ side, slot side s' = None ∨ slot side s' = slot side s.

(** Every held connection was qualified, with the identity it is held under. *)
Definition known h s : Prop :=
  ∀ side held, slot side s = Some held → ∃ peer process,
    hd_identity held = mkQualifiedIdentity (pc_pid peer) (pc_uid peer) (pc_gid peer) (pc_label peer) (pi_label process)
                         (pi_start_time process) (pi_cgroup process) ∧
    qualified_in (expected side s) side (hd_conn held) peer process h.

(** The state after [h'] more of the trace; quietly, when only quiet marks were made and no connection was taken up. *)
Record after (q : bool) h s h' s' : Prop := {
  af_moves : moves (sub_expected s) h (sub_gate s) (sub_os s) (h' ++ h) (sub_gate s') (sub_os s');
  af_peers : sub_expected s' = sub_expected s;
  af_reach : policy_reachable (sub_gate s');
  af_known : known (h' ++ h) s';
  af_quiet : q = true → Forall (λ mark, quiet mark = true) h' ∧ shrunk s s';
}.

(** From [P] the action's trace is a run; when it is done, [Q]; when it is out of fuel, the trace has [N] arrivals. *)
Definition traced {A} (q : bool) (N : nat) (P : Trace → substrate → Prop) (m : @act St Ob O M I U A)
    (Q : A → Trace → substrate → Prop) : Prop :=
  ∀ h s, policy_reachable (sub_gate s) → known h s → P h s →
    ∃ h', after q h s h' (m s).1 ∧ ((m s).2 = OutOfFuel → (N ≤ arrivals (h' ++ h))%nat) ∧
      ∀ a, (m s).2 = Done a → Q a (h' ++ h) (m s).1.

Lemma shrunk_refl s : shrunk s s.
Proof. intros side. by right. Qed.
Lemma shrunk_trans s1 s2 s3 : shrunk s1 s2 → shrunk s2 s3 → shrunk s1 s3.
Proof. intros H1 H2 side. destruct (H2 side) as [E|E]; [by left|]. rewrite E. apply H1. Qed.

Lemma qualified_in_app e side conn peer process h' h :
  qualified_in e side conn peer process h → qualified_in e side conn peer process (h' ++ h).
Proof. intros (He & later & earlier & ->). split; [done|]. exists (h' ++ later), earlier. by rewrite app_assoc. Qed.

Lemma expected_same side s s' : sub_expected s' = sub_expected s → expected side s' = expected side s.
Proof. destruct side; cbn; congruence. Qed.

Lemma known_shrunk h' h s s' : known h s → sub_expected s' = sub_expected s → shrunk s s' → known (h' ++ h) s'.
Proof.
  intros Hk He Hs side held Hh. destruct (Hs side) as [E|E]; [congruence|]. rewrite E in Hh.
  destruct (Hk side held Hh) as (peer & process & Hi & Hq). exists peer, process. split; [done|].
  rewrite (expected_same _ _ _ He). by apply qualified_in_app.
Qed.

Lemma moves_app peers h p os h1 p1 os1 h2 p2 os2 :
  moves peers h p os h1 p1 os1 → moves peers h1 p1 os1 h2 p2 os2 → moves peers h p os h2 p2 os2.
Proof. intros H1. induction 1; [done|by eapply moves_call|by eapply moves_event]. Qed.

Lemma after_refl q h s : policy_reachable (sub_gate s) → known h s → after q h s [] s.
Proof. intros Hr Hk. split; try done; [constructor|]. intros _. split; [constructor|apply shrunk_refl]. Qed.

Lemma after_app q h s h1 s1 h2 s2 : after q h s h1 s1 → after q (h1 ++ h) s1 h2 s2 → after q h s (h2 ++ h1) s2.
Proof.
  intros [M1 P1 R1 K1 Q1] [M2 P2 R2 K2 Q2]. rewrite P1 in M2. split; [|congruence|done|by rewrite <-app_assoc|].
  - rewrite <-app_assoc. by eapply moves_app.
  - intros Hq. destruct (Q1 Hq), (Q2 Hq). split; [by apply Forall_app|by eapply shrunk_trans].
Qed.

Lemma arrivals_app h' h : (arrivals h ≤ arrivals (h' ++ h))%nat.
Proof. unfold arrivals. rewrite List.filter_app, length_app. lia. Qed.

Lemma traced_bind {A B} q N P Q R (m : act A) (k : A → @act St Ob O M I U B) :
  traced q N P m Q → (∀ a, traced q N (Q a) (k a) R) → traced q N P (bind m k) R.
Proof.
  intros Hm Hk h s Hr Hn Hp. destruct (Hm h s Hr Hn Hp) as (h1 & H1 & O1 & Q1). unfold bind.
  destruct (m s) as [s1 [a|e|]]; cbn [fst snd] in *; [|exists h1; by split|exists h1; split; [done|]; split; [intros _; by apply O1|done]].
  destruct (Hk a (h1 ++ h) s1 (af_reach _ _ _ _ _ H1) (af_known _ _ _ _ _ H1) (Q1 a eq_refl)) as (h2 & H2 & O2 & Q2).
  exists (h2 ++ h1). split; [by eapply after_app|]. rewrite <-app_assoc. done.
Qed.

Lemma traced_ret {A} q N P Q (a : A) : (∀ h s, P h s → Q a h s) → traced q N P (ret a) Q.
Proof. intros HQ h s Hr Hk Hp. exists []. split; [by apply after_refl|]. split; [done|]. intros ? [= <-]. by apply HQ. Qed.

Lemma traced_exit {A} q N P (Q : A → Trace → substrate → Prop) e : traced q N P (exit e) Q.
Proof. intros h s Hr Hk Hp. exists []. by split; [apply after_refl|]. Qed.

Lemma traced_conseq {A} q N (P P' : Trace → substrate → Prop) (m : act A) (Q Q' : A → Trace → substrate → Prop) :
  traced q N P' m Q' → (∀ h s, P h s → P' h s) → (∀ a h s, Q' a h s → Q a h s) → traced q N P m Q.
Proof. intros Hm HP HQ h s Hr Hk Hp. destruct (Hm h s Hr Hk (HP _ _ Hp)) as (h' & H1 & H2 & H3). exists h'. eauto. Qed.

Lemma traced_get {A} q N P (k : substrate → act A) Q :
  (∀ s0, traced q N (λ h s, s = s0 ∧ P h s) (k s0) Q) → traced q N P (bind get k) Q.
Proof. intros Hk h s Hr Hn Hp. by apply (Hk s). Qed.

(** What was read is forgotten. *)
Lemma traced_read {A} q N P (m : act A) Q s0 : traced q N P m Q → traced q N (λ h s, s = s0 ∧ P h s) m Q.
Proof. intros Hm. eapply traced_conseq; [exact Hm|by intros h s [_ ?]|done]. Qed.

(** A quiet trace keeps what its length cannot undo, a longer trace what it only adds to. *)
Definition grows (K : Trace → ExpectedPeers → Prop) : Prop := ∀ h' h peers, K h peers → K (h' ++ h) peers.
Lemma traced_keep {A} q N P (m : act A) Q K :
  grows K → traced q N P m Q →
  traced q N (λ h s, K h (sub_expected s) ∧ P h s) m (λ a h s, K h (sub_expected s) ∧ Q a h s).
Proof.
  intros HK Hm h s Hr Hn [Hk Hp]. destruct (Hm h s Hr Hn Hp) as (h' & H1 & H2 & H3). exists h'. split; [done|].
  split; [done|]. intros a Ha. split; [|by apply H3]. rewrite (af_peers _ _ _ _ _ H1). by apply HK.
Qed.

Lemma traced_quiet {A} N P (m : act A) Q side bytes :
  traced true N P m Q →
  traced false N (λ h s, in_custody (expected side s) side bytes h ∧ P h s) m
    (λ a h s, in_custody (expected side s) side bytes h ∧ Q a h s).
Proof.
  intros Hm h s Hr Hn [(later & earlier & -> & Hl & He) Hp]. destruct (Hm _ s Hr Hn Hp) as (h' & H1 & H2 & H3).
  exists h'. destruct H1 as [M1 P1 R1 K1 Q1]. split; [by split|]. split; [done|]. intros a Ha. split; [|by apply H3].
  destruct (Q1 eq_refl) as [F1 _]. rewrite (expected_same _ _ _ P1). exists (h' ++ later), earlier.
  rewrite app_assoc. split; [done|]. split; [by apply Forall_app|done].
Qed.

(** A call, with the mark it leaves. *)
Lemma traced_call {A} q N P (f : O → O * A) (c : A → OsCall.t) Q :
  (∀ os, did (c (f os).2) os (f os).1) → (q = true → ∀ a, quiet (Mark.Did (c a)) = true) →
  (∀ h s a, P h s → Q a (Mark.Did (c a) :: h) (put_os (f (sub_os s)).1 s)) → traced q N P (call f) Q.
Proof.
  intros Hd Hq HQ h s Hr Hk Hp. exists [Mark.Did (c (f (sub_os s)).2)].
  specialize (HQ h s (f (sub_os s)).2 Hp). specialize (Hd (sub_os s)). unfold call. destruct (f (sub_os s)) as [os a]. cbn [fst snd] in *.
  assert (shrunk s (put_os os s)) as Hs by (intros []; by right).
  split; [|split; [done|by intros ? [= <-]]]. split; [|done|done|by apply (known_shrunk [_] h s)|].
  - eapply moves_call; [apply moves_none|exact Hd].
  - intros E. split; [by repeat constructor; apply Hq|done].
Qed.

(** [s'] is [s] with connections closed and perhaps dropped. *)
Definition closing s s' : Prop :=
  sub_gate s' = sub_gate s ∧ sub_expected s' = sub_expected s ∧ shrunk s s' ∧
  ∃ conns, sub_os s' = fold_left (λ os conn, os_close conn os) conns (sub_os s).

Lemma closing_trans s1 s2 s3 : closing s1 s2 → closing s2 s3 → closing s1 s3.
Proof.
  intros (G1 & E1 & S1 & c1 & O1) (G2 & E2 & S2 & c2 & O2). split; [congruence|]. split; [congruence|].
  split; [by eapply shrunk_trans|]. exists (c1 ++ c2). by rewrite fold_left_app, <-O1.
Qed.
Lemma closing_same s s' :
  sub_gate s' = sub_gate s → sub_expected s' = sub_expected s → sub_os s' = sub_os s → sub_i05 s' = sub_i05 s →
  sub_i07 s' = sub_i07 s → closing s s'.
Proof. intros ? ? ? E5 E7. split_and!; try done; [by intros []; right|by exists []]. Qed.

Lemma closing_after q h s s' :
  closing s s' → policy_reachable (sub_gate s) → known h s →
  ∃ h', after q h s h' s' ∧ Forall (λ mark, quiet mark = true) h'.
Proof.
  intros (Hg & He & Hs & conns & Ho) Hr Hk.
  assert (∃ h', moves (sub_expected s) h (sub_gate s) (sub_os s) (h' ++ h) (sub_gate s) (sub_os s') ∧
                Forall (λ mark, quiet mark = true) h') as (h' & Hm & Hq).
  { rewrite Ho. clear. induction conns as [|conn conns IH] using rev_ind; [exists []; split; constructor|].
    destruct IH as (h' & Hm & Hq). exists (Mark.Did (OsCall.Close conn) :: h'). rewrite fold_left_app.
    split; [|by constructor]. cbn. eapply moves_call; [exact Hm|constructor]. }
  exists h'. split; [|done]. split; [by rewrite Hg|done|by rewrite Hg|by apply (known_shrunk h' h s)|done].
Qed.

Lemma traced_modify q N P f (Q : unit → Trace → substrate → Prop) :
  (∀ s, closing s (f s)) → (∀ h h' s, P h s → Q () (h' ++ h) (f s)) → traced q N P (modify f) Q.
Proof.
  intros Hf HQ h s Hr Hk Hp. destruct (closing_after q h s (f s) (Hf s) Hr Hk) as (h' & Ha & _). exists h'.
  split; [done|]. split; [done|]. intros [] _. by apply HQ.
Qed.

(** Most actions promise no more than their trace. *)
Abbreviation plain := (λ (_ : Trace) (_ : substrate), True).
Definition runs {A} (q : bool) (N : nat) (m : @act St Ob O M I U A) : Prop := traced q N plain m (λ _, plain).

Lemma runs_bind {A B} q N (m : act A) (k : A → @act St Ob O M I U B) :
  runs q N m → (∀ a, runs q N (k a)) → runs q N (bind m k).
Proof. apply traced_bind. Qed.
Lemma runs_ret {A} q N (a : A) : runs q N (ret a).
Proof. by apply traced_ret. Qed.
Lemma runs_exit {A} q N e : runs q N (exit (A := A) e).
Proof. apply traced_exit. Qed.
Lemma runs_get {A} q N (k : substrate → act A) : (∀ s0, runs q N (k s0)) → runs q N (bind get k).
Proof. intros Hk. apply traced_get. intros s0. apply traced_read, Hk. Qed.
Lemma runs_call {A} q N (f : O → O * A) c :
  (∀ os, did (c (f os).2) os (f os).1) → (q = true → ∀ a, quiet (Mark.Did (c a)) = true) → runs q N (call f).
Proof. intros Hd Hq. by apply (traced_call _ _ _ _ c). Qed.
Lemma runs_modify q N f : (∀ s, closing s (f s)) → runs q N (modify f).
Proof. intros Hf. by apply traced_modify. Qed.
Lemma runs_when q N b (m : @act St Ob O M I U unit) : runs q N m → runs q N (when b m).
Proof. destruct b; [done|]. intros _. apply runs_ret. Qed.
(** An action from a state with more known of it. *)
Lemma runs_from {A} q N P (m : act A) : runs q N m → traced q N P m (λ _, plain).
Proof. intros Hm. by eapply traced_conseq; [exact Hm|..]. Qed.

Lemma drop_held_closing side s : closing s (drop_held side s).
Proof.
  unfold drop_held. destruct (slot side s) as [held|] eqn:E; [|by apply closing_same].
  split; [by destruct side|]. split; [by destruct side|]. split.
  - intros side'. destruct side, side'; cbn; auto.
  - exists [hd_conn held]. by destruct side.
Qed.
Lemma close_conn_closing conn s : closing s (close_conn conn s).
Proof. split; [done|]. split; [done|]. split; [by intros []; right|]. by exists [conn]. Qed.
Lemma close_fed_closing concern side s : closing s (close_fed concern side s).
Proof.
  destruct concern as [|fed|fed conn]; cbn [close_fed]; [by apply closing_same|..]; (case_bool_decide; [|by apply closing_same]).
  - apply drop_held_closing.
  - apply close_conn_closing.
Qed.
Lemma close_concerned_closing concern s : closing s (close_concerned concern s).
Proof. destruct concern; cbn [close_concerned]; [by apply closing_same|apply drop_held_closing|apply close_conn_closing]. Qed.
Lemma settled_state_closing s : closing s (settled_state s).
Proof.
  unfold settled_state, reconcile. set (s1 := sync_ports s).
  apply closing_trans with s1; [by apply closing_same|].
  assert (∀ (b : bool) side s2, closing s2 (if b then drop_held side s2 else s2)) as Hd.
  { intros [] side s2; [apply drop_held_closing|by apply closing_same]. }
  eapply closing_trans; apply Hd.
Qed.

(** ** The actions' traces *)

Lemma runs_drop q N side : runs q N (modify (drop_held side)).
Proof. apply runs_modify, drop_held_closing. Qed.
Lemma runs_close q N conn : runs q N (modify (close_conn conn)).
Proof. apply runs_modify, close_conn_closing. Qed.
Lemma runs_monotonic q N : runs q N (call os_monotonic).
Proof. by apply (runs_call _ _ _ OsCall.Monotonic); [constructor|]. Qed.
Lemma runs_realtime q N : runs q N (call os_realtime_ms).
Proof. by apply (runs_call _ _ _ OsCall.Realtime); [constructor|]. Qed.

Lemma runs_send_answer q N side conn frame : runs q N (send_answer side conn frame).
Proof.
  unfold send_answer. apply runs_bind.
  - destruct frame as [bytes|]; [|apply runs_ret]. by apply (runs_call _ _ _ (OsCall.Send conn bytes)); [constructor|].
  - intros []; [apply runs_ret|]. apply runs_bind; [apply runs_drop|]. intros ?. apply runs_ret.
Qed.

Lemma runs_answer q N side frame bounded received_at : runs q N (answer side frame bounded received_at).
Proof.
  unfold answer. apply runs_get. intros s0. destruct (slot side s0); [|apply runs_ret].
  destruct bounded; [|apply runs_send_answer]. apply runs_bind; [apply runs_monotonic|]. intros now.
  destruct (match received_at with Some _ => _ | None => _ end); [apply runs_send_answer|apply runs_ret].
Qed.

Lemma runs_wire q N output concern received_at : runs q N (wire output concern received_at).
Proof.
  assert (∀ side (f : FollowUp), runs q N (bind (modify (drop_held side)) (λ _, ret f))) as Hd.
  { intros side f. apply runs_bind; [apply runs_drop|]. intros ?. apply runs_ret. }
  assert (∀ side (m : act FollowUp), runs q N m → runs q N (bind (modify (close_fed concern side)) (λ _, m))) as Hc.
  { intros side f Hf. apply runs_bind; [apply runs_modify, close_fed_closing|by intros ?]. }
  unfold wire, wire_i05. destruct (po_kind output) as [base| | | | | | |c response| |];
    [destruct (o_kind base)|..]; try apply runs_ret; try apply runs_answer; try apply runs_exit; try apply Hd;
    try apply Hc; try apply runs_ret; try apply Hd.
  destruct response; [apply runs_answer|apply Hd].
Qed.

(** The gate is given a justified event. *)
Lemma event_after q h s event p r :
  policy_reachable (sub_gate s) → known h s → justified (sub_expected s) h event →
  (q = true → port_event event || loop_event event = true) → Writer.handle event (sub_gate s) = (p, r) →
  after q h s [Mark.Fed event] (put_gate p s).
Proof.
  intros Hr Hk Hj Hq Hh. assert (p = (Writer.handle event (sub_gate s)).1) as -> by by rewrite Hh.
  split; [|done|by apply policy_handle|by apply (known_shrunk [_] h s); [..|intros []; right]|].
  - eapply moves_event; [apply moves_none|done].
  - intros E. split; [by repeat constructor; apply Hq|]. intros []; by right.
Qed.

Lemma follow_up_loop next side : next = late_event side ∨ next = lost_event side → loop_event next = true.
Proof. by intros [-> | ->]; destruct side. Qed.

Lemma traced_deliver q N fuel event concern received_at :
  (q = true → port_event event || loop_event event = true) →
  (fuel = 0%nat → ∃ side, event = late_event side ∨ event = lost_event side) →
  traced q N (λ h s, justified (sub_expected s) h event) (deliver_loop fuel event concern received_at) (λ _, plain).
Proof.
  revert event concern received_at. induction fuel as [|fuel IH]; intros event concern received_at Hq Hfuel h s Hr Hk Hj;
    rewrite deliver_unfold; pose proof (policy_reachable_inv _ Hr) as [Hinv _];
    pose proof (follow_up_is_last event concern (sub_gate s)) as Hlast;
    destruct (Writer.handle event (sub_gate s)) as [p [output|error]] eqn:Hh;
    pose proof (event_after q h s event p _ Hr Hk Hj Hq Hh) as H1; pose proof (af_reach _ _ _ _ _ H1) as Hr1;
    pose proof (af_known _ _ _ _ _ H1) as Hk1.
  2, 4: destruct (closing_after q _ _ _ (close_concerned_closing concern (put_gate p s)) Hr1 Hk1) as (h2 & H2 & _);
    exists (h2 ++ [Mark.Fed event]); cbn [fst snd]; split; [by eapply after_app|done].
  all: assert (closing (put_gate p s) (apply_ports output (put_gate p s))) as Hc by (by apply closing_same);
    destruct (closing_after q _ _ _ Hc Hr1 Hk1) as (h2 & H2 & _); clear Hc; pose proof (after_app _ _ _ _ _ _ _ H1 H2) as H12;
    destruct (runs_wire q N output concern received_at (h2 ++ [Mark.Fed event] ++ h) (apply_ports output (put_gate p s))
      (af_reach _ _ _ _ _ H2) (af_known _ _ _ _ _ H2) Logic.I) as (h3 & H3 & _ & _);
    destruct (wire output concern received_at _) as [s2 r] eqn:Hw; cbn [fst snd] in H3;
    rewrite app_assoc in H3; pose proof (after_app _ _ _ _ _ _ _ H12 H3) as H13; clear H1 H2 H3 H12;
    apply wire_spec in Hw as [(f & -> & Hwe)|[-> [e ->]]]; [|eexists; cbn [fst snd]; by split];
    destruct (closing_after q _ _ _ (settled_state_closing s2) (af_reach _ _ _ _ _ H13) (af_known _ _ _ _ _ H13)) as (h4 & H4 & _);
    pose proof (after_app _ _ _ _ _ _ _ H13 H4) as H14; clear H13 H4;
    destruct (check_ports (settled_state s2)).2 as [[]|e|] eqn:Ec;
      [|eexists; cbn [fst snd]; by split|exfalso; unfold check_ports in Ec; by repeat case_match];
    destruct f as [[next concern']|]; [|eexists; cbn [fst snd]; by split].
  - exfalso. specialize (Hlast output (Some (next, concern')) _ s2 p (Hfuel eq_refl) (wi_core _ Hinv) eq_refl Hwe). done.
  - destruct (wire_follow_ups _ _ _ _ _ Hwe) as [side Hnext]. pose proof (follow_up_loop _ _ Hnext) as Hl.
    destruct (IH next concern' None ltac:(intros _; rewrite Hl; apply orb_true_r) ltac:(by exists side) _ (settled_state s2)
      (af_reach _ _ _ _ _ H14) (af_known _ _ _ _ _ H14) (just_loop _ _ _ Hl)) as (h5 & H5 & O5 & _).
    destruct (deliver_loop fuel next concern' None (settled_state s2)) as [s4 r]. cbn [fst snd] in *.
    eexists. split; [by eapply after_app|]. split; [|done]. intros E. rewrite <-app_assoc. apply O5. by destruct r.
Qed.

Lemma runs_deliver q N event concern received_at :
  port_event event || loop_event event = true → runs q N (deliver event concern received_at).
Proof.
  intros He. eapply traced_conseq; [by apply traced_deliver|..]; [|done]. intros h s _.
  apply orb_true_iff in He as [?|?]; [by apply just_port|by apply just_loop].
Qed.
Lemma runs_feed q N event concern received_at :
  port_event event || loop_event event = true → runs q N (feed event concern received_at).
Proof. intros He. apply runs_bind; [by apply runs_deliver|]. intros ?. apply runs_ret. Qed.

Ltac running :=
  repeat match goal with
    | |- runs _ _ (ret _) => apply runs_ret
    | |- runs _ _ (exit _) => apply runs_exit
    | |- runs _ _ (feed _ _ _) => apply runs_feed; done
    | |- runs _ _ (deliver _ _ _) => apply runs_deliver; done
    | |- runs _ _ (modify (drop_held _)) => apply runs_drop
    | |- runs _ _ (modify (close_conn _)) => apply runs_close
    | |- runs _ _ (call os_monotonic) => apply runs_monotonic
    | |- runs _ _ (call os_realtime_ms) => apply runs_realtime
    | |- runs _ _ (bind get _) => apply runs_get; intros ?
    | |- runs _ _ (bind _ _) => apply runs_bind; [|intros ?]
    | |- runs _ _ (match ?x with _ => _ end) => destruct x
    end.

Lemma runs_check_ports q N : runs q N check_ports.
Proof.
  intros h s Hr Hk _. rewrite check_ports_state. exists []. split; [by apply after_refl|]. split; [|done].
  unfold check_ports. by repeat case_match.
Qed.

Lemma runs_expiry_remaining q N : runs q N expiry_remaining.
Proof. unfold expiry_remaining. running. Qed.
Lemma runs_check_expiry q N : runs q N check_expiry.
Proof. unfold check_expiry. apply runs_bind; [apply runs_expiry_remaining|]. intros left_. running. Qed.

Lemma runs_feed_port_events q N events : Forall (λ e, port_event e = true) events → runs q N (feed_port_events events).
Proof.
  induction 1 as [|event events He _ IH]; cbn [feed_port_events]; [apply runs_ret|].
  apply runs_bind; [apply runs_when, runs_check_expiry|]. intros ?.
  apply runs_bind; [apply runs_deliver; by rewrite He|]. by intros ?.
Qed.

Lemma runs_i04_events q N f : (∀ port, Forall (λ e, port_event e = true) (f port).2) → runs q N (i04_events f).
Proof.
  intros Hf. unfold i04_events. apply runs_get. intros s0. specialize (Hf (at_i04 s0)). destruct (f (at_i04 s0)) as [i04 events].
  apply runs_bind; [apply runs_modify; intros s; by apply closing_same|]. intros ?. apply runs_bind; [apply runs_check_ports|]. intros ?.
  by apply runs_feed_port_events.
Qed.
Lemma runs_upstream_events q N f : (∀ port, Forall (λ e, port_event e = true) (f port).2) → runs q N (upstream_events f).
Proof.
  intros Hf. unfold upstream_events. apply runs_get. intros s0. specialize (Hf (at_upstream s0)). destruct (f (at_upstream s0)) as [up events].
  apply runs_bind; [apply runs_modify; intros s; by apply closing_same|]. intros ?. apply runs_bind; [apply runs_check_ports|]. intros ?.
  by apply runs_feed_port_events.
Qed.

Lemma runs_port_deadlines q N : runs q N port_deadlines.
Proof.
  assert (∀ now owners, runs q N (feed_due now owners)) as Hd.
  { intros now owners. induction owners as [|owner owners IH]; cbn [feed_due]; [apply runs_ret|].
    apply runs_bind; [|by intros ?].
    destruct owner; [apply runs_i04_events|apply runs_upstream_events]; intros port; apply due_events. }
  unfold port_deadlines. apply runs_bind; [apply runs_monotonic|]. intros now. apply runs_get. intros s0. apply Hd.
Qed.

Lemma runs_i04_ready q N events : runs q N (i04_ready events).
Proof.
  induction events as [|[value readiness] events IH]; cbn [i04_ready]; [apply runs_ret|].
  apply runs_bind; [apply runs_i04_events; intros port; apply ready_events|by intros ?].
Qed.
Lemma runs_upstream_ready q N events : runs q N (upstream_ready events).
Proof.
  induction events as [|[value readiness] events IH]; cbn [upstream_ready]; [apply runs_ret|].
  apply runs_bind; [apply runs_upstream_events; intros port; apply ready_events|by intros ?].
Qed.
Lemma runs_deviation q N side : runs q N (deviation side).
Proof. unfold deviation. running. Qed.

(** *** Qualification and custody *)

(** The trace ends with these marks, after one that satisfies [K]; [R] is what else is known of the state. *)
Definition ends_with (marks : Trace) (K : Trace → Prop) h : Prop := ∃ earlier, h = marks ++ earlier ∧ K earlier.

Lemma traced_bind_call {A B} q N marks K R (f : O → O * A) c (k : A → @act St Ob O M I U B) Q :
  (∀ os, did (c (f os).2) os (f os).1) → (q = true → ∀ a, quiet (Mark.Did (c a)) = true) → os_blind R →
  (∀ a, traced q N (λ h s, ends_with (Mark.Did (c a) :: marks) K h ∧ R s) (k a) Q) →
  traced q N (λ h s, ends_with marks K h ∧ R s) (bind (call f) k) Q.
Proof.
  intros Hd Hq Hb Hk. eapply traced_bind; [|exact Hk]. apply (traced_call _ _ _ _ c); [done|done|].
  intros h s a [(earlier & -> & HK) Hs]. split; [by exists earlier|by apply Hb].
Qed.

Lemma traced_exe_ok {B} N side conn marks K R (k : bool → @act St Ob O M I U B) Q :
  os_blind R →
  traced false N (λ h s, ends_with (exe_reads side conn ++ marks) K h ∧ R s) (k true) Q →
  (∀ marks, traced false N (λ h s, ends_with marks K h ∧ R s) (k false) Q) →
  traced false N (λ h s, ends_with marks K h ∧ R s) (bind (exe_ok side conn) k) Q.
Proof.
  intros Hb Ht Hf. destruct side; cbn [exe_ok].
  - eapply traced_bind with (Q := λ b h s, b = true ∧ ends_with marks K h ∧ R s); [by apply traced_ret|].
    intros []; [|intros h s _ _ [[=] _]]. eapply traced_conseq; [exact Ht|by intros h s (_ & ?)|done].
  - apply (traced_bind_call _ _ _ _ _ _ (OsCall.WriterExe conn)); [constructor|done|done|]. by intros [].
Qed.

(** The identity a connection is held under is that of a peer it was qualified with. *)
Definition identified (e : ExpectedPeer) (side : Listen.t) (conn : Z) (ident : QualifiedIdentity) h : Prop :=
  ∃ peer process,
    ident = mkQualifiedIdentity (pc_pid peer) (pc_uid peer) (pc_gid peer) (pc_label peer) (pi_label process)
              (pi_start_time process) (pi_cgroup process) ∧
    qualified_in e side conn peer process h.

Lemma peer_matches_expected e process peer :
  peer_matches e process peer = true → 0 < pc_pid peer → expected_peer e process peer.
Proof.
  unfold peer_matches. rewrite !andb_true_iff, Z.eqb_eq. intros ((((E1 & E2) & E3) & E4) & E5) Hp. split; try done.
  - intros gid Hg. rewrite Hg in E4. by apply Z.eqb_eq.
  - intros cgroup Hg. by rewrite Hg in E5.
Qed.

Lemma traced_qualify N conn side :
  traced false N plain (qualify conn side)
    (λ q h s, ∀ ident capacity, q = Some (ident, capacity) → identified (expected side s) side conn ident h).
Proof.
  intros h0 s0 Hr Hk _. set (e := expected side s0). set (R := λ s, expected side s = e).
  assert (os_blind R) as Hb by (intros s os; by destruct side).
  assert (∀ P Q, traced false N P (ret (@None (QualifiedIdentity * Z)))
    (λ q h s, ∀ ident capacity, q = Some (ident, capacity) → Q ident h s)) as Hnone by (intros P Q; by apply traced_ret).
  set (K := λ _ : Trace, True).
  cut (traced false N (λ h s, ends_with [] K h ∧ R s) (qualify conn side)
    (λ q h s, ∀ ident capacity, q = Some (ident, capacity) → identified (expected side s) side conn ident h)).
  { intros Hq. apply (Hq h0 s0 Hr Hk). split; [by exists h0|done]. }
  unfold qualify. apply (traced_bind_call _ _ _ _ _ _ (OsCall.Peer conn)); [constructor|done|done|].
  intros [peer|]; [|apply Hnone]. destruct (pc_pid peer <=? 0) eqn:Ep; [apply Hnone|]. apply Z.leb_gt in Ep.
  apply (traced_bind_call _ _ _ _ _ _ (OsCall.OpenProc conn (pc_pid peer))); [constructor|done|done|].
  intros []; cbn [negb]; [|apply Hnone].
  apply (traced_bind_call _ _ _ _ _ _ (OsCall.ReadProc conn)); [constructor|done|done|]. intros [process|]; [|apply Hnone].
  apply traced_get. intros s1. destruct (negb (peer_matches (expected side s1) process peer)) eqn:Em; [apply traced_read, Hnone|].
  intros h s Hr1 Hk1 [-> [Hh He]]. unfold R in He. rewrite He in Em. apply negb_false_iff in Em.
  revert h s1 Hr1 Hk1 Hh He. cut (traced false N (λ h s, ends_with [Mark.Did (OsCall.ReadProc conn (Some process));
    Mark.Did (OsCall.OpenProc conn (pc_pid peer) true); Mark.Did (OsCall.Peer conn (Some peer))] K h ∧ R s)
    (bind (exe_ok side conn) (λ exe, if negb exe then ret None else bind (call (os_peer_exited conn)) (λ exited : bool,
       if exited then ret None else match control_capacity (zlen (pc_label peer)) with
         | None => ret None
         | Some capacity => ret (Some (mkQualifiedIdentity (pc_pid peer) (pc_uid peer) (pc_gid peer) (pc_label peer)
             (pi_label process) (pi_start_time process) (pi_cgroup process), capacity)) end)))
    (λ q h s, ∀ ident capacity, q = Some (ident, capacity) → identified (expected side s) side conn ident h)).
  { intros Hq h s1 Hr1 Hk1 Hh He. by apply Hq. }
  apply traced_exe_ok; [done| |intros marks; apply Hnone]. cbn [negb].
  apply (traced_bind_call _ _ _ _ _ _ (OsCall.Exited conn)); [constructor|done|done|]. intros []; [apply Hnone|].
  destruct (control_capacity _) as [capacity|]; [|apply Hnone]. apply traced_ret.
  intros h s [(earlier & -> & _) He] ident cap [= <- <-]. exists peer, process. split; [done|]. unfold R in He. rewrite He.
  split; [by apply peer_matches_expected|]. exists [], earlier. unfold qualifying. cbn [app]. by rewrite <-!app_assoc.
Qed.

Lemma matches_same e peer process delivered now :
  control_matches (mkQualifiedIdentity (pc_pid peer) (pc_uid peer) (pc_gid peer) (pc_label peer) (pi_label process)
    (pi_start_time process) (pi_cgroup process)) delivered = true →
  process_matches e (mkQualifiedIdentity (pc_pid peer) (pc_uid peer) (pc_gid peer) (pc_label peer) (pi_label process)
    (pi_start_time process) (pi_cgroup process)) now = true →
  same_peer e peer process delivered now.
Proof.
  unfold control_matches, process_matches. cbn. rewrite !andb_true_iff, !Z.eqb_eq, bool_decide_eq_true.
  intros (((? & ?) & ?) & ?) ((? & ?) & ?). by split.
Qed.

Lemma traced_custody N side held e datagram truncated control cut at_ :
  traced false N
    (λ h s, ends_with [Mark.Did (OsCall.Monotonic at_);
                       Mark.Did (OsCall.Recv (hd_conn held) (hd_control_capacity held) (Received.Datagram datagram truncated control cut))]
              (identified e side (hd_conn held) (hd_identity held)) h ∧
            expected side s = e ∧ slot side s = Some held)
    (custody side control cut)
    (λ kept h s, (kept = true → just_received e side (take (Z.to_nat FRAME_BUFFER_BYTES) datagram) h) ∧
                 expected side s = e ∧ slot side s = Some held).
Proof.
  set (R := λ s, expected side s = e ∧ slot side s = Some held).
  assert (os_blind R) as Hb by (intros s os; by destruct side).
  set (Q := λ (kept : bool) h s, (kept = true → just_received e side (take (Z.to_nat FRAME_BUFFER_BYTES) datagram) h) ∧ R s).
  assert (∀ marks K, traced false N (λ h s, ends_with marks K h ∧ R s) (ret false) Q) as Hfalse.
  { intros marks K. apply traced_ret. by intros h s [_ ?]. }
  unfold custody. apply traced_get. intros s0 h s Hr Hk [-> [Hh [He Hs]]]. rewrite Hs, He.
  revert Hh He Hs Hr Hk. revert h s0. set (m := match parse_control control cut with Ok _ => _ | Err _ => _ end).
  cut (traced false N (λ h s, ends_with [Mark.Did (OsCall.Monotonic at_); Mark.Did (OsCall.Recv (hd_conn held)
    (hd_control_capacity held) (Received.Datagram datagram truncated control cut))]
    (identified e side (hd_conn held) (hd_identity held)) h ∧ R s) m Q).
  { intros Hm h s0 Hr Hk Hh He Hs. by apply Hm. }
  subst m. destruct (parse_control control cut) as [delivered|] eqn:Ec; [|apply Hfalse].
  assert (cut = false) as -> by (unfold parse_control in Ec; by destruct cut).
  destruct (negb (control_matches _ _)) eqn:Em; [apply Hfalse|]. apply negb_false_iff in Em.
  apply (traced_bind_call _ _ _ _ _ _ (OsCall.ReadProc (hd_conn held))); [constructor|done|done|]. intros [now|]; [|apply Hfalse].
  destruct (negb (process_matches _ _ _)) eqn:Ep; [apply Hfalse|]. apply negb_false_iff in Ep.
  apply traced_exe_ok; [done| |intros marks; apply Hfalse]. cbn [negb].
  apply (traced_bind_call _ _ _ _ _ _ (OsCall.Exited (hd_conn held))); [constructor|done|done|]. intros exited. apply traced_ret.
  intros h s [(earlier & -> & peer & process & Hi & Hq) HR]. split; [|done]. intros ->%negb_true_iff. rewrite Hi in Em, Ep.
  exists earlier, (hd_conn held), (hd_control_capacity held), datagram, truncated, control, delivered, now, at_, peer, process.
  split; [unfold receiving; cbn [app]; by rewrite <-!app_assoc|]. split_and!; try done. by apply matches_same.
Qed.

(** *** Datagrams and connections *)

Lemma runs_feed_datagram N side bytes received_at :
  traced false N (λ h s, just_received (expected side s) side (take (Z.to_nat FRAME_BUFFER_BYTES) bytes) h)
    (feed_datagram side bytes received_at) (λ _, plain).
Proof.
  set (cut := take (Z.to_nat FRAME_BUFFER_BYTES) bytes).
  assert (∀ P r, (∀ h s, P h s → in_custody (expected side s) side cut h) →
    traced false N P (feed (frame_event side cut) (Concern.Held side) r) (λ _, plain)) as Hframe.
  { intros P r HP. unfold feed. eapply traced_bind; [|intros ?; apply runs_from, runs_ret].
    eapply traced_conseq; [by apply traced_deliver| |done]. intros h s Hp. apply just_frame.
    replace (side_peer (sub_expected s) side) with (expected side s) by by destruct side. by apply HP. }
  assert (∀ h s, just_received (expected side s) side cut h → in_custody (expected side s) side cut h ∧ plain h s) as Hnow.
  { intros h s Hj. split; [|done]. exists [], h. by split_and!; [|constructor|]. }
  destruct side; cbn [feed_datagram].
  - eapply traced_conseq with (Q' := λ _, plain); [|exact Hnow|done].
    eapply traced_bind; [apply traced_quiet, runs_check_expiry|]. intros ?.
    eapply traced_bind; [apply traced_quiet, runs_i04_events; intros port; apply drain_events|]. intros ?.
    apply traced_get. intros s0. destruct (sub_i05 s0) as [held|]; [|apply runs_from, runs_ret].
    eapply traced_bind; [apply (Hframe _ (Some received_at)); by intros h s (_ & ? & _)|]. intros ?. apply runs_from, runs_ret.
  - eapply traced_bind; [apply (Hframe _ (Some received_at)); intros h s Hj; by apply Hnow|]. intros ?. apply runs_from, runs_ret.
Qed.

(** The arrivals wanted are there, or so many more are enough. *)
Definition wants (N n : nat) (h : Trace) (_ : ExpectedPeers) : Prop := (N ≤ arrivals h + n)%nat.
Lemma wants_grows N n : grows (wants N n).
Proof. intros h' h peers. unfold wants. pose proof (arrivals_app h' h). lia. Qed.

(** A receive that reads on took a datagram. *)
Lemma traced_read_one N n side held :
  traced false N (λ h s, slot side s = Some held ∧ wants N (S n) h (sub_expected s)) (read_one side held)
    (λ go_on h s, go_on = true → wants N n h (sub_expected s)).
Proof.
  intros h0 s0 Hr Hk [Hs Hn]. set (e := expected side s0). destruct (Hk side held Hs) as (peer & process & Hi & Hq).
  set (K := λ h, identified e side (hd_conn held) (hd_identity held) h ∧ (N ≤ arrivals h + S n)%nat).
  set (R := λ s, expected side s = e ∧ slot side s = Some held).
  assert (os_blind R) as Hb by (intros s os; by destruct side).
  cut (traced false N (λ h s, ends_with [] K h ∧ R s) (read_one side held) (λ go_on h s, go_on = true → wants N n h (sub_expected s))).
  { intros Ho. apply Ho; [done|done|]. split; [|done]. exists h0. split; [done|]. split; [|done]. by exists peer, process. }
  assert (∀ P (m : act unit), runs false N m →
    traced false N P (bind m (λ _, ret false)) (λ go_on h s, go_on = true → wants N n h (sub_expected s))) as Hstop.
  { intros P m Hm. eapply traced_bind; [by apply runs_from|]. intros ?. by apply traced_ret. }
  unfold read_one. apply (traced_bind_call _ _ _ _ _ _ (OsCall.Recv (hd_conn held) (hd_control_capacity held))); [constructor|done|done|].
  intros received. apply (traced_bind_call _ _ _ _ _ _ OsCall.Monotonic); [constructor|done|done|]. intros at_.
  destruct received as [| |errno|bytes truncated control cut]; [by apply traced_ret|..].
  1, 2: eapply traced_bind; [apply runs_from, runs_drop|]; intros ?; apply Hstop, runs_feed; by destruct side.
  eapply traced_bind with (Q := λ kept h s, wants N n h (sub_expected s) ∧
    (kept = true → just_received e side (take (Z.to_nat FRAME_BUFFER_BYTES) bytes) h) ∧ R s).
  - eapply traced_conseq; [apply traced_keep, (traced_custody N side held e bytes truncated control cut at_); apply (wants_grows N n)| |intros a h s Hq1; exact Hq1].
    intros h s [(earlier & -> & HK & HN) HR]. split; [|by split; [exists earlier|]]. unfold wants. unfold arrivals in *. cbn in *. lia.
  - intros []; cbn [negb]; [|eapply traced_conseq; [apply (Hstop plain), runs_deviation|done|done]].
    eapply traced_conseq; [apply traced_keep, (runs_feed_datagram N side bytes at_); apply (wants_grows N n)| |by intros a h s [? _]].
    intros h s (Hw & Hj & He & _). split; [done|]. rewrite He. by apply Hj.
Qed.

Lemma traced_read_conn N fuel side :
  traced false N (λ h s, wants N fuel h (sub_expected s)) (read_conn fuel side) (λ _, plain).
Proof.
  induction fuel as [|fuel IH]; cbn [read_conn]; apply traced_get; intros s0;
    (destruct (slot side s0) as [held|] eqn:Es; [|apply runs_from, runs_ret]).
  - intros h s Hr Hk [_ Hn]. exists []. split; [by apply after_refl|]. split; [|done]. intros _. unfold wants in Hn. cbn [app]. lia.
  - eapply traced_bind.
    + eapply traced_conseq; [apply (traced_read_one N fuel side held)|by intros h s [-> ?]|]. intros a h s Hq. exact Hq.
    + intros []; [|apply runs_from, runs_ret]. eapply traced_conseq; [exact IH|intros h s Hq; by apply Hq|done].
Qed.

(** An action with the fuel of a wake, which wants no more arrivals than that. *)
Definition bounded {A} (N fuel : nat) (m : @act St Ob O M I U A) : Prop :=
  traced false N (λ h s, wants N fuel h (sub_expected s)) m (λ _ h s, wants N fuel h (sub_expected s)).

Lemma bounded_of {A} N fuel (m : act A) :
  traced false N (λ h s, wants N fuel h (sub_expected s)) m (λ _, plain) → bounded N fuel m.
Proof.
  intros Hm. eapply traced_conseq; [apply traced_keep, Hm; apply (wants_grows N fuel)|done|by intros a h s [? _]].
Qed.
Lemma bounded_runs {A} N fuel (m : act A) : runs false N m → bounded N fuel m.
Proof. intros Hm. by apply bounded_of, runs_from. Qed.
Lemma bounded_bind {A B} N fuel (m : act A) (k : A → @act St Ob O M I U B) :
  bounded N fuel m → (∀ a, bounded N fuel (k a)) → bounded N fuel (bind m k).
Proof. apply traced_bind. Qed.
Lemma bounded_when N fuel b (m : @act St Ob O M I U unit) : bounded N fuel m → bounded N fuel (when b m).
Proof. destruct b; [done|]. intros _. apply bounded_runs, runs_ret. Qed.
Lemma bounded_get {A} N fuel (k : substrate → act A) : (∀ s0, bounded N fuel (k s0)) → bounded N fuel (bind get k).
Proof. intros Hk. apply traced_get. intros s0. apply traced_read, Hk. Qed.

Lemma bounded_read_conn N fuel side : bounded N fuel (read_conn fuel side).
Proof. apply bounded_of, traced_read_conn. Qed.

Lemma bounded_pidfd_fired N fuel side : bounded N fuel (pidfd_fired fuel side).
Proof.
  unfold pidfd_fired. apply bounded_get. intros s0. destruct (slot side s0); [|apply bounded_runs, runs_ret].
  apply bounded_bind; [apply bounded_read_conn|]. intros ?. apply bounded_runs, runs_get. intros s1.
  destruct (slot side s1) as [held|]; [|apply runs_ret].
  apply runs_bind; [by apply (runs_call _ _ _ (OsCall.Exited (hd_conn held))); [constructor|]|].
  intros []; [apply runs_deviation|apply runs_ret].
Qed.

(** *** Accepts *)

(** A connection taken up is a qualified one. *)
Lemma traced_hold N side conn ident capacity :
  traced false N (λ h s, identified (expected side s) side conn ident h) (hold side conn ident capacity) (λ _, plain).
Proof.
  unfold hold. eapply traced_bind with (Q := λ _, plain).
  - intros h s Hr Hk Hi. exists []. split; [|done]. split; try done; [by destruct side; apply moves_none|by destruct side|by destruct side|].
    intros side' held Hh. destruct (decide (side' = side)) as [->|Hne].
    + assert (held = mkHeld conn ident capacity) as -> by (destruct side; cbn in Hh; congruence).
      destruct Hi as (peer & process & Hi & Hq). exists peer, process. split; [done|].
      replace (expected side (modify (put_slot side (Some (mkHeld conn ident capacity))) s).1) with (expected side s) by by destruct side.
      done.
    + assert (slot side' s = Some held) as Hh' by (destruct side, side'; done).
      destruct (Hk side' held Hh') as (peer & process & ? & ?). exists peer, process. by destruct side, side'.
  - intros ?. apply runs_bind; [by apply (runs_call _ _ _ (OsCall.Watching (Watch.Conn conn) (conn_token side))); [constructor|]|].
    intros watched. apply runs_bind.
    + destruct watched; [|apply runs_ret]. by apply (runs_call _ _ _ (OsCall.Watching (Watch.PidFd conn) (pidfd_token side))); [constructor|].
    + intros []; running.
Qed.

Lemma runs_accept_i05 N conn : runs false N (accept_i05 conn).
Proof.
  unfold accept_i05. apply runs_get. intros s0. destruct (channel s0); [destruct (sub_i05 s0)|..]; try (by running).
  eapply traced_bind; [apply traced_qualify|]. intros [[ident capacity]|].
  - eapply traced_conseq; [apply traced_hold|by intros h s Hq; apply (Hq ident capacity)|done].
  - apply runs_from. running.
Qed.

Lemma identified_grows side conn ident : grows (λ h peers, identified (side_peer peers side) side conn ident h).
Proof. intros h' h peers (peer & process & ? & ?). exists peer, process. split; [done|]. by apply qualified_in_app. Qed.

Lemma runs_accept_i07 N conn : runs false N (accept_i07 conn).
Proof.
  unfold accept_i07. apply runs_get. intros s0. destruct (Writer.session_held _); [running|].
  eapply traced_bind; [apply traced_qualify|]. intros [[ident capacity]|]; [|apply runs_from; running].
  eapply traced_bind.
  - eapply traced_conseq; [apply traced_keep, (runs_deliver false N (PolicyEvent.WConnect "") (Concern.Fresh Listen.I07 conn) None);
      [apply (identified_grows Listen.I07 conn ident)|done]|by intros h s Hq; split; [apply (Hq ident capacity)|]|by intros a h s Hq; exact Hq].
  - intros output. assert (∀ P, traced false N P (modify (close_conn conn)) (λ _, plain)) as Hc by (intros P; apply runs_from, runs_close).
    destruct (po_kind output); try apply Hc. eapply traced_conseq; [apply traced_hold|by intros h s [? _]|done].
Qed.

(** A connection accepted is an arrival. *)
Lemma traced_accept N n side :
  traced false N (λ h s, wants N n h (sub_expected s)) (call (os_accept side))
    (λ accepted h s, match accepted with Ok (Some _) => wants N (Nat.pred n) h (sub_expected s) | _ => True end).
Proof.
  apply (traced_call _ _ _ _ (OsCall.Accept side)); [constructor|done|]. intros h s [[conn|]|] Hw; [|done..].
  unfold wants, arrivals in *. cbn. lia.
Qed.

Lemma traced_accept_all N fuel side :
  traced false N (λ h s, wants N fuel h (sub_expected s)) (accept_all fuel side) (λ _, plain).
Proof.
  assert (∀ n conn, traced false N (λ h s, wants N n h (sub_expected s))
    (match side with Listen.I05 => accept_i05 conn | Listen.I07 => accept_i07 conn end) (λ _ h s, wants N n h (sub_expected s))) as Ha.
  { intros n conn. apply bounded_runs. destruct side; [apply runs_accept_i05|apply runs_accept_i07]. }
  induction fuel as [|fuel IH]; cbn [accept_all]; (eapply traced_bind; [apply traced_accept|]);
    intros [[conn|]|[]]; try (apply runs_from; (apply runs_ret || apply runs_exit)); (eapply traced_bind; [apply Ha|]); intros [].
  - intros h s Hr Hk Hw. exists []. split; [by apply after_refl|]. split; [|done]. intros _. unfold wants in Hw. cbn [app]. lia.
  - exact IH.
Qed.
Lemma bounded_accept_all N fuel side : bounded N fuel (accept_all fuel side).
Proof. apply bounded_of, traced_accept_all. Qed.

(** *** The wake *)

Lemma runs_wake N : runs false N wake.
Proof.
  unfold wake. apply runs_bind; [apply runs_check_ports|]. intros ?. apply runs_bind.
  { unfold timeout_ms. apply runs_bind; [apply runs_monotonic|]. intros now. apply runs_get. intros s0.
    apply runs_bind; [apply runs_expiry_remaining|]. intros left_. apply runs_ret. }
  intros timeout. apply runs_bind; [by apply (runs_call _ _ _ (OsCall.Wait timeout)); [constructor|]|].
  intros [ready|]; [|apply runs_exit]. destruct (wake_of ready) as [w|e].
  - apply (runs_ret false N w).
  - apply (runs_exit (A := Wake) false N e).
Qed.

Lemma runs_register_ports N : runs false N register_ports.
Proof.
  intros h s Hr Hk _. unfold register_ports. destruct (register (sub_i04 s) (sub_os s)) as [[i04 os] r] eqn:E4.
  assert (did (OsCall.Register Owner.I04) (sub_os s) os) as H4 by (pose proof (did_register_i04 (sub_i04 s) (sub_os s)) as H; by rewrite E4 in H).
  destruct r as [[]|e].
  - cbn [sub_upstream put_os put_i04 sub_os]. destruct (register (sub_upstream s) os) as [[upstream os2] r] eqn:Eu.
    assert (did (OsCall.Register Owner.Upstream) os os2) as Hu by (pose proof (did_register_upstream (sub_upstream s) os) as H; by rewrite Eu in H).
    exists [Mark.Did (OsCall.Register Owner.Upstream); Mark.Did (OsCall.Register Owner.I04)]. cbn [fst snd].
    split; [|split; [by destruct r|done]]. split; [|done|done|by apply (known_shrunk [_; _] h s); [..|intros []; right]|done].
    eapply moves_call; [|exact Hu]. eapply moves_call; [apply moves_none|exact H4].
  - exists [Mark.Did (OsCall.Register Owner.I04)]. cbn [fst snd].
    split; [|done]. split; [|done|done|by apply (known_shrunk [_] h s); [..|intros []; right]|done].
    eapply moves_call; [apply moves_none|exact H4].
Qed.

Lemma bounded_turn N fuel : bounded N fuel (turn fuel).
Proof.
  unfold turn. apply bounded_bind; [apply bounded_runs, runs_wake|]. intros w.
  apply bounded_bind; [apply bounded_runs, runs_check_expiry|]. intros ?.
  apply bounded_bind; [apply bounded_runs, runs_port_deadlines|]. intros ?.
  apply bounded_bind; [apply bounded_when, bounded_read_conn|]. intros ?.
  apply bounded_bind; [apply bounded_when, bounded_read_conn|]. intros ?.
  apply bounded_bind; [apply bounded_when, bounded_pidfd_fired|]. intros ?.
  apply bounded_bind; [apply bounded_when, bounded_pidfd_fired|]. intros ?.
  apply bounded_bind; [apply bounded_runs, runs_i04_ready|]. intros ?.
  apply bounded_bind; [apply bounded_runs, runs_upstream_ready|]. intros ?.
  apply bounded_bind; [apply bounded_when, bounded_accept_all|]. intros ?.
  apply bounded_bind; [apply bounded_when, bounded_accept_all|]. intros ?.
  apply bounded_runs, runs_register_ports.
Qed.

Lemma turn_after fuel h s :
  policy_reachable (sub_gate s) → known h s →
  ∃ h', after false h s h' (turn fuel s).1 ∧ ((turn fuel s).2 = OutOfFuel → (fuel ≤ arrivals h')%nat).
Proof.
  intros Hr Hk. destruct (bounded_turn (arrivals h + fuel) fuel h s Hr Hk) as (h' & Ha & Ho & _); [by unfold wants|].
  exists h'. split; [done|]. intros E. specialize (Ho E). unfold arrivals in *. rewrite List.filter_app, length_app in Ho. lia.
Qed.

(** A loop's trace since its gate was started. *)
Definition since_start h s : Prop :=
  ∃ p0 (os0 : O), started p0 ∧ moves (sub_expected s) [] p0 os0 h (sub_gate s) (sub_os s).

Lemma loop_trace s : loop_reachable s → ∃ h, since_start h s ∧ known h s.
Proof.
  induction 1 as [p os i04 upstream board peers lifetimes s Hp Hn|s s' fuel Hl (h & (p0 & os0 & Hp & Hm) & Hk) Ht].
  - set (s0 := mkSubstrate p os i04 upstream board peers lifetimes None None : substrate).
    destruct (started_facts p Hp) as (Hr & _ & _). assert (known [] s0) as Hk by by intros [].
    assert (runs false 0 (let> watched := call (os_watch (Watch.Listener Listen.I05) I05_LISTENER_TOKEN) in
      let> both := if watched : bool then call (os_watch (Watch.Listener Listen.I07) I07_LISTENER_TOKEN) else ret false in
      if both : bool then register_ports else exit LoopExit.Poll : @act St Ob O M I U unit)) as Hb.
    { apply runs_bind; [by apply (runs_call _ _ _ (OsCall.Watching (Watch.Listener Listen.I05) I05_LISTENER_TOKEN)); [constructor|]|].
      intros watched. apply runs_bind.
      - destruct watched; [|apply runs_ret].
        by apply (runs_call _ _ _ (OsCall.Watching (Watch.Listener Listen.I07) I07_LISTENER_TOKEN)); [constructor|].
      - intros []; [apply runs_register_ports|apply runs_exit]. }
    destruct (Hb [] s0 Hr Hk Logic.I) as (h & Ha & _). unfold Substrate_new in Hn. fold s0 in Hn. rewrite Hn in Ha.
    cbn [fst] in Ha. destruct Ha as [Hm He _ Hk1 _]. rewrite app_nil_r in Hm, Hk1. exists h. split; [|done].
    exists p, os. split; [done|]. by rewrite He.
  - destruct (turn_after fuel h s (proj1 (loop_reachable_agrees s Hl)) Hk) as (h' & Ha & _). rewrite Ht in Ha. cbn [fst] in Ha.
    destruct Ha as [Hm1 He _ Hk1 _]. exists (h' ++ h). split; [|done]. exists p0, os0. split; [done|]. rewrite He.
    by eapply moves_app.
Qed.

(** [C29] Whatever a wake's outcome, the process is a run of its gate over the system's calls, from the gate's start to the
    end of that wake: every call is made in the state the one before left, and the gate is given justified events only.
    Those are what the ports may feed (connections, requests, outcomes), what the loop itself reports, and a frame only
    in custody: its bytes, cut to the receive buffer, were received on a connection that had been qualified before (the
    expected labels, uid, pinned gid and cgroup); the control messages of that datagram carry the credentials and the
    label of the peer it was qualified with; and after that receive the process directory was read and still names the
    process that was qualified (its start time, its cgroup, the expected label), the writer's executable was checked on
    its channel, and the process had not exited.  Between these and the frame nothing else was received, accepted or
    read of a peer, and no other frame was given. *)
Theorem wake_feeds_only_justified_events s fuel :
  loop_reachable s →
  ∃ h h', since_start h s ∧
    moves (sub_expected s) h (sub_gate s) (sub_os s) (h' ++ h) (sub_gate (turn fuel s).1) (sub_os (turn fuel s).1).
Proof.
  intros Hl. destruct (loop_trace s Hl) as (h & Hs & Hk).
  destruct (turn_after fuel h s (proj1 (loop_reachable_agrees s Hl)) Hk) as (h' & Ha & _). exists h, h'.
  split; [done|by eapply af_moves].
Qed.

(** [C40] A wake ends unless its peers keep sending: from the loop's state on, a wake whose read and accept loops are cut
    off after [fuel] turns has by then received that many datagrams or connections, by the trace of its calls.  So where
    no run of the system's calls from here can receive more than [n], every bound above [n] is enough for the wake to
    come to its outcome, whatever was sent and whatever the ports report; the one follow-up event a delivery allows for
    is enough too. *)
Theorem every_wake_terminates s :
  loop_reachable s →
  ∃ h, since_start h s ∧
    (∀ fuel, ∃ h',
      moves (sub_expected s) h (sub_gate s) (sub_os s) (h' ++ h) (sub_gate (turn fuel s).1) (sub_os (turn fuel s).1) ∧
      ((turn fuel s).2 = OutOfFuel → (fuel ≤ arrivals h')%nat)) ∧
    (∀ n, (∀ h' p' os', moves (sub_expected s) h (sub_gate s) (sub_os s) (h' ++ h) p' os' → (arrivals h' ≤ n)%nat) →
      ∀ fuel, (n < fuel)%nat → (turn fuel s).2 ≠ OutOfFuel).
Proof.
  intros Hl. destruct (loop_trace s Hl) as (h & Hs & Hk). exists h. split; [done|].
  pose proof (λ fuel, turn_after fuel h s (proj1 (loop_reachable_agrees s Hl)) Hk) as Ht. split.
  - intros fuel. destruct (Ht fuel) as (h' & Ha & Ho). exists h'. split; [by eapply af_moves|done].
  - intros n Hn fuel Hf Hout. destruct (Ht fuel) as (h' & Ha & Ho). pose proof (Hn h' _ _ (af_moves _ _ _ _ _ Ha)).
    specialize (Ho Hout). lia.
Qed.

(** ** The answer bound *)

(** The answer left in time: sent whole on the connection, less than two seconds of the monotonic clock after the
    receive that returned its request. *)
Definition sent_in_time (conn : Z) (frame : option (list Z)) (received_at : Z) : Prop :=
  ∃ bytes now (os0 os1 : O), frame = Some bytes ∧ (os_monotonic os0).2 = now ∧
    duration_since now received_at < ANSWER_BOUND ∧ (os_send conn bytes os1).2 = true.

Lemma answer_sent side frame received_at s s' held :
  slot side s = Some held → answer side frame true (Some received_at) s = (s', Done None) →
  sent_in_time (hd_conn held) frame received_at.
Proof.
  intros Hs. unfold answer. rewrite bind_get, Hs, bind_call.
  destruct (duration_since _ received_at <? ANSWER_BOUND) eqn:Et; [|done]. apply Z.ltb_lt in Et.
  set (os1 := (os_monotonic (sub_os s)).1) in *. unfold send_answer. destruct frame as [bytes|]; [|done].
  rewrite bind_call. destruct (os_send (hd_conn held) bytes _).2 eqn:Ee; [|done]. intros _.
  by exists bytes, (os_monotonic (sub_os s)).2, (sub_os s), os1.
Qed.

Lemma handled_frame p input p' kind :
  handled p (PolicyEvent.Base (Event.Frame input)) p' kind →
  ∃ base, kind = PolicyOutputKind.Base base ∧
    channel_effect (Event.Frame input) (p_channel p) (p_channel p') (o_kind base).
Proof.
  inversion 1 as [e base p2 Hnr Heff Hs|?|?|?|? ? ? Hend|? ? ? Hev]; simplify_eq; [eauto|].
  by destruct Hev as [(? & ?)|(? & ? & ?)].
Qed.

(** A broker frame leaves its channel open only when it was answered in time: an I05 answer that would leave at or
    after the two-second bound, or whose send failed, is followed by the event that closes the channel.  So a broker
    that still holds an open channel has the answer to every frame it sent, each within the bound. *)
Theorem unanswered_frame_ends_the_channel s s' bytes held received_at output :
  policy_reachable (sub_gate s) → agrees s → sub_i05 s = Some held →
  deliver (frame_event Listen.I05 bytes) (Concern.Held Listen.I05) (Some received_at) s = (s', Done output) →
  channel s' = Channel.Open →
  ∃ base payload, po_kind output = PolicyOutputKind.Base base ∧ o_kind base = OutputKind.Response payload ∧
    sent_in_time (hd_conn held) (o_response_frame base) received_at.
Proof.
  intros Hr Ha H5 Hd Ho.
  assert (feedable (frame_event Listen.I05 bytes) (Concern.Held Listen.I05) s) as Hf
    by (apply frame_event_feedable; [done|cbn; by rewrite H5]).
  unfold deliver in Hd. rewrite deliver_unfold in Hd. pose proof (policy_reachable_inv _ Hr) as [Hinv _].
  pose proof (event_resumable (frame_event Listen.I05 bytes) (Concern.Held Listen.I05)) as Hres.
  destruct (Writer.handle _ (sub_gate s)) as [p [out|error]] eqn:Hh; [|done].
  pose proof (policy_handle _ (frame_event Listen.I05 bytes) Hr) as Hrp. rewrite Hh in Hrp. cbn [fst] in Hrp.
  pose proof (handle_handled _ _ _ _ (wi_core _ Hinv) Hh) as He.
  destruct (handled_frame _ _ _ _ He) as (base & Ek & Heff). clear He.
  assert (p_channel (sub_gate s) ≠ Channel.Closed) as Hlive by (apply (ag_live _ Ha); by rewrite H5).
  destruct (wire out _ _ _) as [s2 r] eqn:Hw. pose proof Hw as Hwe.
  apply wire_spec in Hwe as [(f & -> & Hwe)|[-> [e' ->]]]; [|done]. destruct (wire_effect_gate _ _ _ _ _ Hwe) as (Hg & _ & _).
  specialize (Hres out f s s2 p Hr Hf Hh Hwe). destruct (settled_slots s2) as (Sg & _).
  destruct (check_ports (settled_state s2)).2; [|done..].
  assert (channel (settled_state s2) = p_channel p) as Hcp by (unfold channel; rewrite Sg, Hg; done).
  destruct (ce_frame _ _ _ _ Heff eq_refl Hlive) as [[Hop Hans]|[Hcl Hclk]].
  - destruct (o_kind base) as [|payload| | | | | | | | | |] eqn:Eb; try done. exists base, payload.
    destruct f as [[next concern]|].
    + exfalso. destruct Hres as (Hfd & _). pose proof (deliver_loop_spec 0 next concern None (settled_state s2)) as Hn.
      destruct (Hn ltac:(by rewrite Sg, Hg) Hfd) as (_ & _ & G3).
      destruct (deliver_loop 0 next concern None (settled_state s2)) as [s4 [o|e'|]]; [|done..]. injection Hd as <- <-.
      destruct (G3 o eq_refl) as (_ & _ & _ & _ & Hcc & _). apply Hcc; [|exact Ho].
      rewrite Ek in Hwe. unfold wire_effect in Hwe. rewrite Eb in Hwe.
      apply answered_slots in Hwe as [(? & _)|[([= -> _] & _)|([= -> _] & _)]]; [done|by right; right|by left].
    + injection Hd as <- <-. split; [done|]. split; [done|].
      unfold wire in Hw. rewrite Ek in Hw. unfold wire_i05 in Hw. rewrite Eb in Hw. by eapply answer_sent; [|exact Hw].
  - exfalso. rewrite Ek in Hwe. unfold wire_effect in Hwe.
    assert (f = None) as ->. { by destruct (o_kind base); try done; destruct Hwe as [-> _]. }
    injection Hd as <- <-. rewrite Hcp in Ho. congruence.
Qed.

(** ** The expiry *)

Lemma expiry_remaining_zero s s' run left_ :
  bound_run (pg_gate (sub_gate s)) = Some run → br_expired run = false →
  expiry_remaining s = (s', Done left_) → left_ ≠ Some 0 →
  ∃ end_ now (os : O), Lifetimes_end (sub_lifetimes s) (br_run_nonce run) = Some end_ ∧
    (os_realtime_ms os).2 = Some now ∧ now < sat_mul_i64 end_ 1000.
Proof.
  intros Hb He. unfold expiry_remaining. rewrite bind_get, Hb, He, bind_call.
  destruct (Lifetimes_end _ _) as [end_|]; [|intros [= _ <-]; done].
  destruct (os_realtime_ms (sub_os s)).2 as [now|] eqn:En; [|intros [= _ <-]; done].
  intros [= _ <-] Hl. exists end_, now, (sub_os s). split; [done|]. split; [done|].
  apply Z.nle_gt. intros Hle. apply Hl. f_equal. unfold u64_try_from.
  assert (sat_sub_i64 (sat_mul_i64 end_ 1000) now ≤ 0) as Hs.
  { unfold sat_sub_i64, I64_MIN, I64_MAX. lia. }
  destruct (0 <=? sat_sub_i64 _ _) eqn:E0; [|done]. apply Z.leb_le in E0.
  replace (sat_sub_i64 (sat_mul_i64 end_ 1000) now) with 0 by lia. done.
Qed.

Lemma expiry_remaining_state s : sub_gate (expiry_remaining s).1 = sub_gate s ∧ sub_lifetimes (expiry_remaining s).1 = sub_lifetimes s.
Proof.
  unfold expiry_remaining. rewrite bind_get. destruct (bound_run _) as [run|]; [|done].
  destruct (br_expired run); [done|]. rewrite bind_call. by destruct (Lifetimes_end _ _), (os_realtime_ms (sub_os s)).2.
Qed.

(** The expiry fails closed: after an expiry check the bound run, if any, is expired unless the realtime clock was
    read before the end of its signed lifetime.  A run without a lifetime, or a clock that cannot be read, is expired
    at once. *)
Theorem expiry_check_fails_closed s s' run :
  check_expiry s = (s', Done ()) → bound_run (pg_gate (sub_gate s')) = Some run → br_expired run = false →
  ∃ end_ now (os : O), Lifetimes_end (sub_lifetimes s) (br_run_nonce run) = Some end_ ∧
    (os_realtime_ms os).2 = Some now ∧ now < sat_mul_i64 end_ 1000.
Proof.
  unfold check_expiry. unfold bind at 1. pose proof (expiry_remaining_state s) as [Hg Hl].
  destruct (expiry_remaining s) as [s1 [left_|e|]] eqn:Er; [|done..]. cbn [fst] in Hg, Hl.
  case_bool_decide as Hz.
  - unfold bind, deliver. rewrite deliver_unfold. pose proof (expire_handled (sub_gate s1)) as Hx.
    destruct (Writer.handle _ (sub_gate s1)) as [p [output|error]] eqn:Hh; [|done].
    destruct (wire output _ _ _) as [s2 r] eqn:Hw. apply wire_spec in Hw as [(f & -> & Hw)|[_ [e' ->]]]; [|done].
    destruct (wire_effect_gate _ _ _ _ _ Hw) as (G & _ & _). destruct (settled_slots s2) as (Sg & _).
    destruct (check_ports (settled_state s2)).2; [|done..].
    destruct f as [[next concern]|].
    + exfalso. unfold Writer.handle, Writer.dispatch, Gate.handle, dispatch, always, expire in Hh.
      assert (∃ base, po_kind output = PolicyOutputKind.Base base ∧ ¬ answering_kind (o_kind base)) as (base & Hk & Hn).
      { destruct (g_bound (pg_gate (sub_gate s1))); [destruct (g_expired (pg_gate (sub_gate s1)))|]; cbn [fst snd] in Hh;
          match type of Hh with context [settle_drain ?g] => destruct (settle_drain g) as [g2 [answer|]] end;
          injection Hh as <- <-; cbn; eexists; (split; [done|]); simpl; tauto. }
      rewrite Hk in Hw. destruct (base_wire_cases _ _ _ _ _ Hw) as [_ [(? & _)|(_ & ? & _)]]; done.
    + intros [= <-] Hb Hne. rewrite Sg, G in Hb. rewrite (Hx _ _ _ eq_refl Hb) in Hne. done.
  - intros [= <-] Hb Hne. rewrite Hg in Hb. rewrite <-Hl in *. rewrite Hl. by eapply expiry_remaining_zero.
Qed.

(** ** The wait *)

Lemma ceil_ms_bounds wait : 0 ≤ wait → 0 ≤ ceil_ms wait ≤ I32_MAX ∧ ceil_ms wait * 10 ^ 6 < wait + 10 ^ 6.
Proof.
  intros Hw. unfold ceil_ms, I32_MAX. cbn zeta. destruct (Z.leb_spec ((wait + 999999) / 1000000) (2 ^ 31 - 1));
    Z.div_mod_to_equations; lia.
Qed.

Lemma expiry_remaining_bound s s' left_ :
  expiry_remaining s = (s', Done left_) →
  (∀ x, left_ = Some x → 0 ≤ x) ∧
  (left_ = None ↔ ∀ run, bound_run (pg_gate (sub_gate s)) = Some run → br_expired run = true).
Proof.
  unfold expiry_remaining. rewrite bind_get. destruct (bound_run _) as [run|].
  - destruct (br_expired run) eqn:Ee; [intros [= <- <-]; split; [done|]; split; [by intros _ ? [= <-]|done]|].
    rewrite bind_call. intros Hd. assert (∃ x, left_ = Some x ∧ 0 ≤ x) as (x & -> & Hx).
    { destruct (Lifetimes_end _ _), (os_realtime_ms (sub_os s)).2; injection Hd as _ <-; eexists; (split; [done|]); try lia.
      unfold u64_try_from. destruct (_ && _) eqn:Eb; cbn; [|lia]. apply andb_true_iff in Eb as [?%Z.leb_le _]. lia. }
    split; [by intros ? [= <-]|]. split; [done|]. intros Hr. specialize (Hr run eq_refl). congruence.
  - intros [= <- <-]. by split.
Qed.

(** The wait is bounded by the deadlines: its timeout is none only when no port has a deadline and no unexpired run
    is bound, at most one second while an unexpired run is bound (so that a step of the realtime clock is acted on), a
    32-bit number of milliseconds, and less than a millisecond longer than the time to any deadline. *)
Theorem wait_is_bounded s s' timeout :
  timeout_ms s = (s', Done timeout) →
  let now := (os_monotonic (sub_os s)).2 in
  -1 ≤ timeout ≤ I32_MAX ∧
  (timeout = -1 ↔ next_deadline (sub_i04 s) = None ∧ next_deadline (sub_upstream s) = None ∧
     ∀ run, bound_run (pg_gate (sub_gate s)) = Some run → br_expired run = true) ∧
  (∀ run, bound_run (pg_gate (sub_gate s)) = Some run → br_expired run = false → timeout ≤ 1000) ∧
  (∀ deadline, next_deadline (sub_i04 s) = Some deadline ∨ next_deadline (sub_upstream s) = Some deadline →
     timeout * 10 ^ 6 < duration_since deadline now + 10 ^ 6).
Proof.
  cbn zeta. unfold timeout_ms. rewrite bind_call, bind_get. set (now := (os_monotonic (sub_os s)).2).
  set (s1 := put_os (os_monotonic (sub_os s)).1 s).
  change (next_deadline (sub_i04 s)) with (next_deadline (sub_i04 s1)).
  change (next_deadline (sub_upstream s)) with (next_deadline (sub_upstream s1)).
  change (bound_run (pg_gate (sub_gate s))) with (bound_run (pg_gate (sub_gate s1))).
  unfold bind. destruct (expiry_remaining s1) as [s2 [left_|e|]] eqn:Er; [|done..].
  destruct (expiry_remaining_bound s1 s2 left_ Er) as [Hpos Hnone]. intros [= _ <-].
  assert (∀ d, 0 ≤ duration_since d now) as Hd by (intros d; unfold duration_since; lia).
  assert (∀ run, bound_run (pg_gate (sub_gate s1)) = Some run → br_expired run = false → left_ ≠ None) as Hrun.
  { intros run Hb He ->. destruct Hnone as [Hnone _]. specialize (Hnone eq_refl run Hb). congruence. }
  assert (I32_MAX = 2147483647) as Himax by done. assert (EXPIRY_WAIT_CAP = 10 ^ 9) as Hcap by done.
  assert (∀ w, (∃ x, w = Some x ∧ 0 ≤ x ∧ (left_ ≠ None → x ≤ 10 ^ 9) ∧
      (left_ = None → next_deadline (sub_i04 s1) = None → next_deadline (sub_upstream s1) ≠ None) ∧
      ∀ d, next_deadline (sub_i04 s1) = Some d ∨ next_deadline (sub_upstream s1) = Some d → x ≤ duration_since d now) ∨
      w = None ∧ left_ = None ∧ next_deadline (sub_i04 s1) = None ∧ next_deadline (sub_upstream s1) = None →
    let timeout := match w with Some wait => ceil_ms wait | None => -1 end in
    -1 ≤ timeout ≤ I32_MAX ∧
    (timeout = -1 ↔ next_deadline (sub_i04 s1) = None ∧ next_deadline (sub_upstream s1) = None ∧
       ∀ run, bound_run (pg_gate (sub_gate s1)) = Some run → br_expired run = true) ∧
    (∀ run, bound_run (pg_gate (sub_gate s1)) = Some run → br_expired run = false → timeout ≤ 1000) ∧
    (∀ deadline, next_deadline (sub_i04 s1) = Some deadline ∨ next_deadline (sub_upstream s1) = Some deadline →
       timeout * 10 ^ 6 < duration_since deadline now + 10 ^ 6)) as Hfin.
  { intros w [(x & -> & Hx & Hl & Hsrc & Hdl)|(-> & -> & E1 & E2)]; cbn zeta.
    - destruct (ceil_ms_bounds x Hx) as [[C1 C2] C3]. split; [lia|]. split; [|split].
      + split; [lia|]. intros (E1 & E2 & E3). exfalso. apply Hnone in E3. by apply Hsrc.
      + intros run Hb He. specialize (Hl (Hrun run Hb He)). lia.
      + intros d Hdd. specialize (Hdl d Hdd). lia.
    - split; [lia|]. split; [|split].
      + split; [|done]. intros _. split; [done|]. split; [done|]. by apply Hnone.
      + intros run Hb He. lia.
      + rewrite E1, E2. by intros d [|]. }
  apply Hfin. clear Hfin Hnone Hrun Er.
  change (next_deadline (sub_i04 s)) with (next_deadline (sub_i04 s1)).
  change (next_deadline (sub_upstream s)) with (next_deadline (sub_upstream s1)). clearbody s1.
  destruct (next_deadline (sub_i04 s1)) as [d1|], (next_deadline (sub_upstream s1)) as [d2|], left_ as [x|];
    cbn [omap list_omap id fold_left earliest].
  all: try (pose proof (Hd d1)); try (pose proof (Hd d2)); try (pose proof (Hpos x eq_refl)).
  all: try (by right).
  all: left; eexists; (split; [reflexivity|]); cbn [earliest]; unfold earliest; (split; [lia|]); (split; [intros ?; (done || lia)|]); (split; [done|]).
  all: intros d [[= <-]|[= <-]]; lia.
Qed.
End Bounds.
