(* ===== verification/Tls.v ===== *)
(** * Streams and TLS connections as the gate's ports see them ([host-enforcement/crates/effect-gate/src/net.rs])

    The traits [StreamNet] and [ConnectNet] are classes over the process's network state.  A TLS connection is a
    vendored library's ([ServerConnection], [ClientConnection]): the class [Tls] has the methods the ports call, and
    [TlsLaws] what their documentation states of the counts they return.  The loops over them end: [flush] and the
    reading of plaintext are the recursions of the source. *)

From S2P Require Import Prelude Slices Inet Sha256 Substrate.
From S2P Require Import Types Journal Render Observation Config Policy Gate PolicyGate Http1.
#[global] Instance Interest_eq_dec : EqDecision Interest.
Proof. solve_decision. Defined.

Module Accepted.
Inductive t := Conn (source : Z) | Empty | Skip | Failed (errno : Z).
End Accepted.

(** What a receive brought, or how many bytes a send took. *)
Module Transfer.
Inductive t (A : Type) := Data (a : A) | WouldBlock | Eof | Failed (errno : Z).
Arguments Data {A} a.
Arguments WouldBlock {A}.
Arguments Eof {A}.
Arguments Failed {A} errno.
End Transfer.

Module Connecting.
Inductive t := Connected | InProgress.
End Connecting.

(** [std::io::Result] of a read or write: the kinds the ports tell apart. *)
Module IoError.
Inductive t := WouldBlock | Other.
End IoError.
Definition io (A : Type) : Type := result A IoError.t.

(** The received bytes are given with the transfer; the buffer's length is the receive's bound. *)
Class StreamNet (N : Type) := {
  listener : N → Z;
  accept : N → N * Accepted.t;
  recv : Z → Z → N → N * Transfer.t (list Z);
  send : Z → list Z → N → N * Transfer.t Z;
  shutdown_write : Z → N → N * bool;
  net_close : Z → N → N;
  net_monotonic : N → N * Z;
}.

(** A receive brings at least one byte and at most the buffer's; a source number is never given out twice. *)
Class StreamNetLaws (N : Type) `{StreamNet N} := {
  recv_data source room net bytes :
    (recv source room net).2 = Transfer.Data bytes → 1 ≤ zlen bytes ≤ room;
  used : N → gset Z;
  accept_fresh net source :
    (accept net).2 = Accepted.Conn source → (source ∉ used net) ∧ used (accept net).1 = ({[source]} ∪ used net);
  accept_none net : (∀ source, (accept net).2 ≠ Accepted.Conn source) → used (accept net).1 = used net;
  recv_used source room net : used (recv source room net).1 = used net;
  send_used source bytes net : used (send source bytes net).1 = used net;
  shutdown_used source net : used (shutdown_write source net).1 = used net;
  close_used source net : used (net_close source net) = used net;
  monotonic_used net : used (net_monotonic net).1 = used net;
}.

Class ConnectNet (N : Type) := {
  connect : InetAddress → N → N * result (Z * Connecting.t) Z;
  connect_result : Z → N → N * result unit Z;
  c_recv : Z → Z → N → N * Transfer.t (list Z);
  c_send : Z → list Z → N → N * Transfer.t Z;
  c_shutdown_write : Z → N → N * bool;
  c_close : Z → N → N;
  c_monotonic : N → N * Z;
}.
Class ConnectNetLaws (N : Type) `{ConnectNet N} := {
  c_recv_data source room net bytes :
    (c_recv source room net).2 = Transfer.Data bytes → 1 ≤ zlen bytes ≤ room;
}.

(** ** [std::io::Read] and [std::io::Write] over them *)

(** [NetRead]: at most [budget] bytes in all; the state is the net and the budget left. *)
Definition net_read {N} (receive : Z → N → N * Transfer.t (list Z)) (room : Z) (w : N * Z) : N * Z * io (list Z) :=
  let '(net, budget) := w in
  let room := Z.min room budget in
  if room =? 0 then (net, budget, Err IoError.WouldBlock)
  else
    let '(net, received) := receive room net in
    match received with
    | Transfer.Data bytes => (net, budget - Z.min (zlen bytes) budget, Ok bytes)
    | Transfer.WouldBlock => (net, budget, Err IoError.WouldBlock)
    | Transfer.Eof => (net, budget, Ok [])
    | Transfer.Failed _ => (net, budget, Err IoError.Other)
    end.

(** [NetWrite] *)
Definition net_write {N} (transmit : list Z → N → N * Transfer.t Z) (bytes : list Z) (net : N) : N * io Z :=
  let '(net, sent) := transmit bytes net in
  (net, match sent with
        | Transfer.Data count => Ok count
        | Transfer.WouldBlock => Err IoError.WouldBlock
        | Transfer.Eof | Transfer.Failed _ => Err IoError.Other
        end).

(** ** A TLS connection *)

(** [read_tls] and [write_tls] see the stream only through the reader and the writer they are given. *)
Class Tls (T : Type) := {
  read_tls : ∀ {W : Type}, (Z → W → W * io (list Z)) → T → W → T * W * io Z;
  write_tls : ∀ {W : Type}, (list Z → W → W * io Z) → T → W → T * W * io Z;
  process_new_packets : T → T * bool;
  read_plaintext : Z → T → T * io (list Z);
  write_plaintext : list Z → T → T * io Z;
  send_close_notify : T → T;
  wants_read : T → bool;
  wants_write : T → bool;
  is_handshaking : T → bool;
  is_tls13 : T → bool;
  peer_leaf : T → option (list Z);
  (** What bounds the loops: the records not yet written, and the plaintext not yet read. *)
  queued_records : T → nat;
  held_plaintext : T → nat;
}.

(** The bytes some calls of a reader returned. *)
Inductive reads {W} (reader : Z → W → W * io (list Z)) : W → list Z → W → Prop :=
| reads_none w : reads reader w [] w
| reads_data w room w1 piece rest w2 :
    reader room w = (w1, Ok piece) → reads reader w1 rest w2 → reads reader w (piece ++ rest) w2
| reads_error w room w1 e rest w2 :
    reader room w = (w1, Err e) → reads reader w1 rest w2 → reads reader w rest w2.

Inductive writes {W} (writer : list Z → W → W * io Z) : W → W → Prop :=
| writes_none w : writes writer w w
| writes_step w bytes w2 : writes writer (writer bytes w).1 w2 → writes writer w w2.

(** The documented counts: [read_tls] returns the number of bytes the reader gave; [write_tls] a number of bytes taken
    from its buffer; the plaintext reader and writer keep the contracts of [Read] and [Write]. *)
Class TlsLaws (T : Type) `{Tls T} := {
  read_tls_reads {W} (reader : Z → W → W * io (list Z)) tls w :
    ∃ got, reads reader w got (read_tls reader tls w).1.2 ∧
      ∀ count, (read_tls reader tls w).2 = Ok count → count = zlen got ∨ count = 0;
  write_tls_queue {W} (writer : list Z → W → W * io Z) tls w count :
    (write_tls writer tls w).2 = Ok count → count ≠ 0 →
    (queued_records (write_tls writer tls w).1.1 < queued_records tls)%nat;
  write_tls_writes {W} (writer : list Z → W → W * io Z) tls w : writes writer w (write_tls writer tls w).1.2;
  read_plaintext_held room tls bytes :
    (read_plaintext room tls).2 = Ok bytes → bytes ≠ [] →
    zlen bytes ≤ room ∧ (held_plaintext (read_plaintext room tls).1 < held_plaintext tls)%nat;
  write_plaintext_count bytes tls count : (write_plaintext bytes tls).2 = Ok count → 0 ≤ count ≤ zlen bytes;
}.

(** [tls.rs]: the digest of the client's leaf certificate. *)
Definition certificate_digest {T} `{Tls T} (tls : T) : option string := prefixed <$> peer_leaf tls.

Section Flush.
Context {T W : Type} `{Tls T} (writer : list Z → W → W * io Z).

(** Writes pending output until nothing is pending or the socket would block; [false] on a failed send. *)
Fixpoint flush_loop (fuel : nat) (tls : T) (w : W) : T * W * bool :=
  if wants_write tls then
    match fuel with
    | 0%nat => (tls, w, true)
    | S fuel =>
        let '(tls, w, written) := write_tls writer tls w in
        match written with
        | Ok count => if count =? 0 then (tls, w, true) else flush_loop fuel tls w
        | Err IoError.WouldBlock => (tls, w, true)
        | Err IoError.Other => (tls, w, false)
        end
    end
  else (tls, w, true).

Definition flush (tls : T) (w : W) : T * W * bool := flush_loop (S (queued_records tls)) tls w.

Context {HL : TlsLaws T}.

Lemma flush_fuel fuel fuel' tls w :
  (queued_records tls < fuel)%nat → (queued_records tls < fuel')%nat → flush_loop fuel tls w = flush_loop fuel' tls w.
Proof.
  revert fuel' tls w. induction fuel as [|fuel IH]; intros [|fuel'] tls w H1 H2; [lia..|]. cbn [flush_loop].
  destruct (wants_write tls); [|done]. pose proof (write_tls_queue writer tls w) as Hq.
  destruct (write_tls writer tls w) as [[tls' w'] [count|[]]]; [|done..]. cbn [fst snd] in Hq.
  destruct (Z.eqb_spec count 0); [done|]. specialize (Hq count eq_refl). apply IH; lia.
Qed.

(** The loop of the source. *)
Lemma flush_unfold tls w :
  flush tls w =
  if wants_write tls then
    let '(tls, w, written) := write_tls writer tls w in
    match written with
    | Ok count => if count =? 0 then (tls, w, true) else flush tls w
    | Err IoError.WouldBlock => (tls, w, true)
    | Err IoError.Other => (tls, w, false)
    end
  else (tls, w, true).
Proof.
  unfold flush at 1. cbn [flush_loop]. destruct (wants_write tls); [|done].
  pose proof (write_tls_queue writer tls w) as Hq.
  destruct (write_tls writer tls w) as [[tls' w'] [count|[]]]; [|done..]. cbn [fst snd] in Hq.
  destruct (Z.eqb_spec count 0); [done|]. specialize (Hq count eq_refl). apply flush_fuel; lia.
Qed.

(** What every write keeps, a flush keeps. *)
Lemma writes_keep (P : W → Prop) w w' : (∀ bytes w, P w → P (writer bytes w).1) → writes writer w w' → P w → P w'.
Proof. intros Hw. induction 1 as [|w bytes w2 _ IH]; [done|]. intros Hp. by apply IH, Hw. Qed.

Lemma flush_loop_keeps (P : W → Prop) fuel tls w :
  (∀ bytes w, P w → P (writer bytes w).1) → P w → P (flush_loop fuel tls w).1.2.
Proof.
  intros Hw. revert tls w. induction fuel as [|fuel IH]; intros tls w Hp; cbn [flush_loop]; destruct (wants_write tls); try done.
  pose proof (writes_keep P w _ Hw (write_tls_writes writer tls w) Hp) as Hp2.
  destruct (write_tls writer tls w) as [[tls' w'] [count|[]]]; cbn [fst snd] in *; [|done..].
  destruct (count =? 0); [done|]. by apply IH.
Qed.
Lemma flush_keeps (P : W → Prop) tls w : (∀ bytes w, P w → P (writer bytes w).1) → P w → P (flush tls w).1.2.
Proof. apply flush_loop_keeps. Qed.
End Flush.

(** What every read keeps, [read_tls] keeps. *)
Lemma reads_keep {W} (reader : Z → W → W * io (list Z)) (P : W → Prop) w got w' :
  (∀ room w, P w → P (reader room w).1) → reads reader w got w' → P w → P w'.
Proof.
  intros Hr. induction 1 as [|w room w1 piece rest w2 E _ IH|w room w1 e rest w2 E _ IH]; [done|..]; intros Hp;
    apply IH; specialize (Hr room w Hp); by rewrite E in Hr.
Qed.


(** ** The budget of a reader *)

Section Budget.
Context {N : Type} (receive : Z → N → N * Transfer.t (list Z)).
Hypothesis Hreceive : ∀ room net bytes, (receive room net).2 = Transfer.Data bytes → 1 ≤ zlen bytes ≤ room.

Lemma net_read_budget room (w : N * Z) piece :
  0 ≤ w.2 → (net_read receive room w).2 = Ok piece →
  0 ≤ (net_read receive room w).1.2 ∧ (net_read receive room w).1.2 = w.2 - zlen piece.
Proof.
  destruct w as [net budget]. cbn [snd]. intros Hb. unfold net_read. destruct (Z.eqb_spec (Z.min room budget) 0); [done|].
  pose proof (Hreceive (Z.min room budget) net) as Hd. destruct (receive _ net) as [net' [bytes| | |]]; try done; cbn [fst snd].
  - intros [= <-]. specialize (Hd bytes eq_refl). lia.
  - intros [= <-]. unfold zlen. cbn. lia.
Qed.
Lemma net_read_budget_error room (w : N * Z) e :
  (net_read receive room w).2 = Err e → (net_read receive room w).1.2 = w.2.
Proof.
  destruct w as [net budget]. unfold net_read. destruct (_ =? 0); [done|]. by destruct (receive _ net) as [net' [bytes| | |]].
Qed.

Lemma reads_budget (w w' : N * Z) got :
  reads (net_read receive) w got w' → 0 ≤ w.2 → 0 ≤ w'.2 ∧ w'.2 = w.2 - zlen got.
Proof.
  induction 1 as [w|w room w1 piece rest w2 E _ IH|w room w1 e rest w2 E _ IH]; intros Hw.
  - unfold zlen. cbn. lia.
  - pose proof (net_read_budget room w piece Hw) as Hb. rewrite E in Hb. destruct (Hb eq_refl) as [H1 H2].
    destruct (IH H1) as [H3 H4]. cbn [fst] in *. rewrite zlen_app. lia.
  - pose proof (net_read_budget_error room w e) as Hb. rewrite E in Hb. cbn [fst snd] in Hb. rewrite (Hb eq_refl) in IH. by apply IH.
Qed.

Lemma read_tls_budget {T} `{TlsLaws T} (tls : T) net budget count :
  let read := read_tls (net_read receive) tls (net, budget) in
  0 ≤ budget → read.2 = Ok count → count ≠ 0 → 0 ≤ read.1.2.2 < budget.
Proof.
  cbv zeta. intros Hb. destruct (read_tls_reads (net_read receive) tls (net, budget)) as (got & Hr & Hc).
  destruct (read_tls _ _ _) as [[tls' [net' budget']] r]. cbn [fst snd] in *. intros -> Hn.
  destruct (reads_budget _ _ _ Hr Hb) as [H1 H2]. cbn [snd] in *. pose proof (zlen_nonneg got).
  destruct (Hc count eq_refl) as [->| ->]; lia.
Qed.
End Budget.

(** ** Transcripts *)

(** The application bytes given to a connection to send: only [write_plaintext] adds to them. *)
Class TlsTranscript (T : Type) `{Tls T} := {
  given : T → list Z;
  given_read_tls {W} (reader : Z → W → W * io (list Z)) tls w : given (read_tls reader tls w).1.1 = given tls;
  given_write_tls {W} (writer : list Z → W → W * io Z) tls w : given (write_tls writer tls w).1.1 = given tls;
  given_process tls : given (process_new_packets tls).1 = given tls;
  given_read_plaintext room tls : given (read_plaintext room tls).1 = given tls;
  given_close_notify tls : given (send_close_notify tls) = given tls;
  given_write_plaintext bytes tls :
    given (write_plaintext bytes tls).1 =
    given tls ++ match (write_plaintext bytes tls).2 with Ok count => take (Z.to_nat count) bytes | Err _ => [] end;
}.

(** The application bytes read from a connection: only [read_plaintext] adds to them. *)
Class TlsReceived (T : Type) `{Tls T} := {
  got : T → list Z;
  got_read_tls {W} (reader : Z → W → W * io (list Z)) tls w : got (read_tls reader tls w).1.1 = got tls;
  got_write_tls {W} (writer : list Z → W → W * io Z) tls w : got (write_tls writer tls w).1.1 = got tls;
  got_process tls : got (process_new_packets tls).1 = got tls;
  got_read_plaintext room tls :
    got (read_plaintext room tls).1 =
    got tls ++ match (read_plaintext room tls).2 with Ok bytes => bytes | Err _ => [] end;
  got_close_notify tls : got (send_close_notify tls) = got tls;
  got_write_plaintext bytes tls : got (write_plaintext bytes tls).1 = got tls;
}.

(** What no write to the socket changes, a flush does not change. *)
Lemma flush_tls {T W A} `{Tls T} (f : T → A) (writer : list Z → W → W * io Z) (tls : T) (w : W) :
  (∀ tls w, f (write_tls writer tls w).1.1 = f tls) → f (flush writer tls w).1.1 = f tls.
Proof.
  intros Hf. unfold flush. generalize (S (queued_records tls)). intros fuel. revert tls w.
  induction fuel as [|fuel IH]; intros tls w; cbn [flush_loop]; destruct (wants_write tls); try done.
  pose proof (Hf tls w) as Hg. destruct (write_tls writer tls w) as [[tls' w'] [count|[]]]; cbn [fst] in *; try done.
  destruct (count =? 0); [done|]. by rewrite IH.
Qed.
Lemma given_flush {T W} `{TlsTranscript T} (writer : list Z → W → W * io Z) (tls : T) (w : W) :
  given (flush writer tls w).1.1 = given tls.
Proof. apply flush_tls. intros. apply given_write_tls. Qed.
Lemma got_flush {T W} `{TlsReceived T} (writer : list Z → W → W * io Z) (tls : T) (w : W) :
  got (flush writer tls w).1.1 = got tls.
Proof. apply flush_tls. intros. apply got_write_tls. Qed.

(** * The exchange board ([host-enforcement/crates/gate-tls/src/exchange.rs])

    The memory the I04 port and the upstream port share (an [Rc<RefCell<Exchange>>] in the source, whose borrows never
    overlap): at most one request and one response are staged at a time.  A response is staged only with its body's
    digest, in the event the upstream port feeds. *)

Record StagedRequest := mkStagedRequest {
  sq_conn : string;
  sq_head : string;
  sq_body : list Z;
  sq_forwarded : option Z;
}.
Record StagedResponse := mkStagedResponse {
  sp_conn : string;
  sp_status : Z;
  sp_body : list Z;
  sp_body_digest : string;
  sp_uid : option string;
  sp_resource_version : option string;
}.

Module BoardError.
Inductive t := Occupied | Status | Size.
End BoardError.

Record Exchange := mkExchange { ex_request : option StagedRequest; ex_response : option StagedResponse }.
Definition Exchange_default : Exchange := mkExchange None None.

Definition stage_request (conn head : string) (body : list Z) (b : Exchange) : Exchange * result unit BoardError.t :=
  match ex_request b with
  | Some _ => (b, Err BoardError.Occupied)
  | None => (mkExchange (Some (mkStagedRequest conn head body None)) (ex_response b), Ok ())
  end.

Definition confirm_request (conn : string) (action_id : Z) (b : Exchange) : Exchange * bool :=
  match ex_request b with
  | Some request =>
      if bool_decide (sq_conn request = conn) && bool_decide (sq_forwarded request = None) then
        (mkExchange (Some (mkStagedRequest (sq_conn request) (sq_head request) (sq_body request) (Some action_id)))
           (ex_response b), true)
      else (b, false)
  | None => (b, false)
  end.

Definition drop_request (b : Exchange) : Exchange := mkExchange None (ex_response b).

Definition take_request (action_id : Z) (b : Exchange) : Exchange * option StagedRequest :=
  match ex_request b with
  | Some request =>
      if bool_decide (sq_forwarded request = Some action_id) then (mkExchange None (ex_response b), Some request)
      else (b, None)
  | None => (b, None)
  end.

Definition stage_response (conn : string) (status : Z) (body : list Z) (uid resource_version : option string)
    (b : Exchange) : Exchange * result PolicyEvent.t BoardError.t :=
  match ex_response b with
  | Some _ => (b, Err BoardError.Occupied)
  | None =>
      if negb ((200 <=? status) && (status <=? 599)) then (b, Err BoardError.Status)
      else if RESPONSE_BODY_LIMIT <? zlen body then (b, Err BoardError.Size)
      else
        let body_digest := prefixed body in
        let response := mkUpstreamResponse status body_digest uid resource_version in
        (mkExchange (ex_request b) (Some (mkStagedResponse conn status body body_digest uid resource_version)),
         Ok (PolicyEvent.Base (Event.UpstreamResponse conn response)))
  end.

Definition take_response (b : Exchange) : Exchange * option StagedResponse :=
  (mkExchange (ex_request b) None, ex_response b).
Definition drop_response (b : Exchange) : Exchange := mkExchange (ex_request b) None.

(** The UID and resourceVersion patterns. *)
Definition is_uid (text : string) : bool :=
  let bytes := bytes_of text in
  (1 <=? zlen bytes) && (zlen bytes <=? 128) && forallb (λ byte, is_ascii_alphanumeric byte || (byte =? 45)) bytes.
Definition is_resource_version (text : string) : bool :=
  let bytes := bytes_of text in
  (1 <=? zlen bytes) && (zlen bytes <=? 64) && forallb is_ascii_alphanumeric bytes.

(** An I07 write's upstream answer: LOST when it is outside the patterns. *)
Definition write_response (write_id status : Z) (body : list Z) (uid resource_version : option string) : PolicyEvent.t :=
  let in_patterns :=
    (100 <=? status) && (status <=? 599)
    && match uid with Some uid => is_uid uid | None => true end
    && match resource_version with Some version => is_resource_version version | None => true end in
  if negb in_patterns then PolicyEvent.WUpstream write_id UpstreamOutcome.Lost
  else PolicyEvent.WUpstream write_id
         (UpstreamOutcome.Response (mkUpstreamResponse status (prefixed body) uid resource_version)).
