(* ===== verification/I04.v ===== *)
(** * The I04 port ([host-enforcement/crates/gate-tls/src/i04.rs]): definitions

    The listener of the untrusted worker's connections: accepts, handshakes, reads one request a connection, hands it
    to the gate, and relays the one response.  The network is [StreamNet]'s, the TLS connections are [Tls]'s, the
    board is beside the port.  A [&mut self] method is a function from the port, and the board where it uses it. *)

From S2P Require Import Prelude Slices Render Types Journal Observation Config Policy Gate PolicyGate Http1 Sha256.
From S2P Require Import Substrate Tls.
Definition PHASE_DEADLINE : Z := 10 * 10 ^ 9.
Definition CONNECTION_CAP : Z := 16.
Definition ACCEPTS_PER_READY : Z := 64.
Definition DRAIN_LIMIT : Z := 1024.
Definition READ_BUDGET : Z := 64 * 1024.
Definition LISTENER : Z := 0.
Definition REQUEST_LIMIT : Z := HEAD_LIMIT + BODY_LIMIT.
Definition CHUNK : Z := 4096.

Module Phase.
Inductive t := Handshaking | Reading | Fed | InFlight | Relaying | Lingering.
#[global] Instance t_eq_dec : EqDecision t.
Proof. solve_decision. Defined.
End Phase.

Record Connection (T : Type) := mkConnection {
  cn_name : string;
  cn_tls : T;
  cn_phase : Phase.t;
  cn_confirmed : bool;
  cn_deadline : option Z;
  cn_plaintext : list Z;
  cn_certificate : option string;
  cn_registered : option Interest;
  cn_gone : bool;
  cn_response : list Z;
  cn_notified : bool;
}.
Arguments mkConnection {T}.
Arguments cn_name {T}.
Arguments cn_tls {T}.
Arguments cn_phase {T}.
Arguments cn_confirmed {T}.
Arguments cn_deadline {T}.
Arguments cn_plaintext {T}.
Arguments cn_certificate {T}.
Arguments cn_registered {T}.
Arguments cn_gone {T}.
Arguments cn_response {T}.
Arguments cn_notified {T}.

(** The port without the board, which it shares. *)
Record I04Server (N C T : Type) := mkI04Server {
  i4_net : N;
  i4_config : C;
  i4_conns : gmap Z (Connection T);
  i4_listener_registered : bool;
  i4_fed : option Z;
  i4_in_flight : option Z;
  i4_failure : option string;
}.
Arguments mkI04Server {N C T}.
Arguments i4_net {N C T}.
Arguments i4_config {N C T}.
Arguments i4_conns {N C T}.
Arguments i4_listener_registered {N C T}.
Arguments i4_fed {N C T}.
Arguments i4_in_flight {N C T}.
Arguments i4_failure {N C T}.

(** [ServerConnection::new]; the configuration's providers may change. *)
Class TlsServer (C T : Type) := { server_connection : C → C * option T }.

Definition conn_name (id : Z) : string := "i04-" +:+ decimal_str id.

Section Connection.
Context {T : Type}.
Implicit Types (c : Connection T).

(** Field assignments. *)
Definition with_tls (v : T) c :=
  mkConnection (cn_name c) v (cn_phase c) (cn_confirmed c) (cn_deadline c) (cn_plaintext c) (cn_certificate c)
    (cn_registered c) (cn_gone c) (cn_response c) (cn_notified c).
Definition with_phase (v : Phase.t) c :=
  mkConnection (cn_name c) (cn_tls c) v (cn_confirmed c) (cn_deadline c) (cn_plaintext c) (cn_certificate c)
    (cn_registered c) (cn_gone c) (cn_response c) (cn_notified c).
Definition with_confirmed (v : bool) c :=
  mkConnection (cn_name c) (cn_tls c) (cn_phase c) v (cn_deadline c) (cn_plaintext c) (cn_certificate c)
    (cn_registered c) (cn_gone c) (cn_response c) (cn_notified c).
Definition with_deadline (v : option Z) c :=
  mkConnection (cn_name c) (cn_tls c) (cn_phase c) (cn_confirmed c) v (cn_plaintext c) (cn_certificate c)
    (cn_registered c) (cn_gone c) (cn_response c) (cn_notified c).
Definition with_plaintext (v : list Z) c :=
  mkConnection (cn_name c) (cn_tls c) (cn_phase c) (cn_confirmed c) (cn_deadline c) v (cn_certificate c)
    (cn_registered c) (cn_gone c) (cn_response c) (cn_notified c).
Definition with_certificate (v : option string) c :=
  mkConnection (cn_name c) (cn_tls c) (cn_phase c) (cn_confirmed c) (cn_deadline c) (cn_plaintext c) v
    (cn_registered c) (cn_gone c) (cn_response c) (cn_notified c).
Definition with_registered (v : option Interest) c :=
  mkConnection (cn_name c) (cn_tls c) (cn_phase c) (cn_confirmed c) (cn_deadline c) (cn_plaintext c) (cn_certificate c)
    v (cn_gone c) (cn_response c) (cn_notified c).
Definition with_gone (v : bool) c :=
  mkConnection (cn_name c) (cn_tls c) (cn_phase c) (cn_confirmed c) (cn_deadline c) (cn_plaintext c) (cn_certificate c)
    (cn_registered c) v (cn_response c) (cn_notified c).
Definition with_response (v : list Z) c :=
  mkConnection (cn_name c) (cn_tls c) (cn_phase c) (cn_confirmed c) (cn_deadline c) (cn_plaintext c) (cn_certificate c)
    (cn_registered c) (cn_gone c) v (cn_notified c).
Definition with_notified (v : bool) c :=
  mkConnection (cn_name c) (cn_tls c) (cn_phase c) (cn_confirmed c) (cn_deadline c) (cn_plaintext c) (cn_certificate c)
    (cn_registered c) (cn_gone c) (cn_response c) v.

(** The interest a connection's phase asks for. *)
Definition interest `{Tls T} c : Interest :=
  let pending := wants_write (cn_tls c) || negb (bool_decide (cn_response c = [])) in
  match cn_phase c with
  | Phase.Handshaking | Phase.Reading | Phase.Lingering => mkInterest true pending
  | Phase.Fed | Phase.InFlight | Phase.Relaying => mkInterest false pending
  end.
End Connection.

Module Step.
Inductive t := Continue | Done (events : list PolicyEvent.t).
End Step.

Section I04.
Context {N C T : Type} `{StreamNet N, Tls T, TlsServer C T}.
Abbreviation server := (I04Server N C T).
Abbreviation conn_t := (Connection T).
Implicit Types (s : server) (c : Connection T) (b : Exchange).

Definition I04Server_new (net : N) (config : C) : server := mkI04Server net config ∅ false None None None.

Definition put_net (v : N) s : server :=
  mkI04Server v (i4_config s) (i4_conns s) (i4_listener_registered s) (i4_fed s) (i4_in_flight s) (i4_failure s).
Definition put_config (v : C) s : server :=
  mkI04Server (i4_net s) v (i4_conns s) (i4_listener_registered s) (i4_fed s) (i4_in_flight s) (i4_failure s).
Definition put_conns (v : gmap Z conn_t) s : server :=
  mkI04Server (i4_net s) (i4_config s) v (i4_listener_registered s) (i4_fed s) (i4_in_flight s) (i4_failure s).
Definition put_listener_registered (v : bool) s : server :=
  mkI04Server (i4_net s) (i4_config s) (i4_conns s) v (i4_fed s) (i4_in_flight s) (i4_failure s).
Definition put_fed (v : option Z) s : server :=
  mkI04Server (i4_net s) (i4_config s) (i4_conns s) (i4_listener_registered s) v (i4_in_flight s) (i4_failure s).
Definition put_in_flight (v : option Z) s : server :=
  mkI04Server (i4_net s) (i4_config s) (i4_conns s) (i4_listener_registered s) (i4_fed s) v (i4_failure s).
Definition put_failure (v : option string) s : server :=
  mkI04Server (i4_net s) (i4_config s) (i4_conns s) (i4_listener_registered s) (i4_fed s) (i4_in_flight s) v.

(** [if let Some(conn) = self.conns.get_mut(&id)] *)
Definition update (id : Z) (f : conn_t → conn_t) s : server := put_conns (alter f id (i4_conns s)) s.
Definition close_source (source : Z) s : server := put_net (net_close source (i4_net s)) s.
Definition now s : server * Z := let '(net, at_) := net_monotonic (i4_net s) in (put_net net s, at_).

Definition fail (reason : string) s : server :=
  match i4_failure s with None => put_failure (Some reason) s | Some _ => s end.

(** The connections held whose descriptor is open. *)
Definition live s : Z := zlen (filter (λ c, cn_gone c = false) (btree_values (i4_conns s))).

(** ** Accept *)

Definition new_connection (id : Z) (tls : T) (deadline : Z) : conn_t :=
  mkConnection (conn_name id) tls Phase.Handshaking false (Some deadline) [] None None false [] false.

Fixpoint accept_loop (fuel : nat) (limit : option Z) (calls : Z) s : server * list PolicyEvent.t :=
  if match limit with Some limit => limit <=? calls | None => false end then (s, [])
  else if bool_decide (limit = None) && (DRAIN_LIMIT <? calls)
  then (fail "the pre-frame drain passed 1,024 accepts" s, [])
  else
    match fuel with
    | 0%nat => (s, [])
    | S fuel =>
        let '(net, accepted) := accept (i4_net s) in
        let s := put_net net s in
        match accepted with
        | Accepted.Conn source =>
            if CONNECTION_CAP <=? live s then accept_loop fuel limit (calls + 1) (close_source source s)
            else
              let '(config, tls) := server_connection (i4_config s) in
              let s := put_config config s in
              match tls with
              | None => accept_loop fuel limit (calls + 1) (close_source source s)
              | Some tls =>
                  let '(s, at_) := now s in
                  let s := put_conns (<[source := new_connection source tls (at_ + PHASE_DEADLINE)]> (i4_conns s)) s in
                  let '(s, events) := accept_loop fuel limit (calls + 1) s in
                  (s, PolicyEvent.Base (Event.Backlog (conn_name source)) ::
                      PolicyEvent.Base (Event.Accept (conn_name source)) :: events)
              end
        | Accepted.Empty => (s, [])
        | Accepted.Skip => accept_loop fuel limit (calls + 1) s
        | Accepted.Failed _ => (fail "an accept on the I04 listener failed" s, [])
        end
    end.

(** Every turn is a call, and there are at most [DRAIN_LIMIT + 1] of them. *)
Definition accept_all (limit : option Z) s : server * list PolicyEvent.t :=
  accept_loop (Z.to_nat (match limit with Some limit => limit | None => DRAIN_LIMIT + 1 end)) limit 0 s.

(** ** Closing *)

(** A connection's [flush]: [false] on a failed send, or when it is not held. *)
Definition flush_conn (id : Z) s : server * bool :=
  match i4_conns s !! id with
  | None => (s, false)
  | Some c =>
      let '(tls, net, ok) := flush (net_write (send id)) (cn_tls c) (i4_net s) in
      (put_net net (update id (with_tls tls) s), ok)
  end.

Definition close (id : Z) (notify : bool) s : server :=
  let s :=
    match i4_conns s !! id with
    | Some c =>
        if notify && negb (cn_gone c) && negb (is_handshaking (cn_tls c)) && negb (cn_notified c)
        then
          let s := update id (λ c, with_notified true (with_tls (send_close_notify (cn_tls c)) c)) s in
          (flush_conn id s).1
        else s
    | None => s
    end in
  let removed := i4_conns s !! id in
  let s := put_conns (delete id (i4_conns s)) s in
  let s := match removed with Some c => if cn_gone c then s else close_source id s | None => s end in
  if bool_decide (i4_in_flight s = Some id) then put_in_flight None s else s.

(** The events it adds: [Disconnect] once the model holds the connection. *)
Definition disconnect (id : Z) s : server * list PolicyEvent.t :=
  let held := i4_conns s !! id in
  (close id true s,
   match held with
   | Some c => if cn_confirmed c then [PolicyEvent.Base (Event.Disconnect (cn_name c))] else []
   | None => []
   end).

(** ** Reading *)

(** The plaintext held, up to the request's limit: the text, and whether the client closed, or a read error. *)
Fixpoint plaintext_loop (fuel : nat) (tls : T) (plaintext : list Z) : T * list Z * result bool unit :=
  match fuel with
  | 0%nat => (tls, plaintext, Ok false)
  | S fuel =>
      let '(tls, read) := read_plaintext CHUNK tls in
      match read with
      | Ok [] => (tls, plaintext, Ok true)
      | Ok chunk =>
          let room := Z.max 0 (REQUEST_LIMIT - zlen plaintext) in
          plaintext_loop fuel tls (plaintext ++ take (Z.to_nat (Z.min (zlen chunk) room)) chunk)
      | Err IoError.WouldBlock => (tls, plaintext, Ok false)
      | Err IoError.Other => (tls, plaintext, Err ())
      end
  end.
Definition read_held (tls : T) (plaintext : list Z) : T * list Z * result bool unit :=
  plaintext_loop (S (held_plaintext tls)) tls plaintext.

Definition done_disconnect (id : Z) s b : server * Exchange * Step.t :=
  let '(s, events) := disconnect id s in (s, b, Step.Done events).

(** The framed request: staged, and returned as the event. *)
Definition feed_request (id : Z) c (head : string) (body : list Z) (body_digest : option string) s b
    : server * Exchange * Step.t :=
  let s := update id (λ c, with_plaintext [] (with_deadline None (with_phase Phase.Fed c))) s in
  let event := Event.Request (cn_name c) (default "" (cn_certificate c)) head body_digest in
  let '(b, staged) := stage_request (cn_name c) head body b in
  let s := match staged with
           | Ok _ => s
           | Err _ => fail "the exchange board's request slot was occupied or busy" s
           end in
  (put_fed (Some id) s, b, Step.Done [PolicyEvent.Base event]).

(** The handshake's end: TLS 1.3 and a client certificate, or [None]; the phase is then [Reading]. *)
Definition after_handshake (at_ : Z) c : option conn_t :=
  if bool_decide (cn_phase c = Phase.Handshaking) && negb (is_handshaking (cn_tls c)) then
    let certificate := certificate_digest (cn_tls c) in
    if negb (is_tls13 (cn_tls c)) || bool_decide (certificate = None) then None
    else Some (with_deadline (Some (at_ + PHASE_DEADLINE)) (with_phase Phase.Reading (with_certificate certificate c)))
  else Some c.

Definition after_packets (id : Z) s b : server * Exchange * Step.t :=
  let '(s, at_) := now s in
  match i4_conns s !! id with
  | None => (s, b, Step.Done [])
  | Some c =>
      match after_handshake at_ c with
      | None => done_disconnect id s b
      | Some c =>
          let s := put_conns (<[id := c]> (i4_conns s)) s in
          if negb (bool_decide (cn_phase c = Phase.Reading)) then (s, b, Step.Continue)
          else
            let '(tls, plaintext, closed) := read_held (cn_tls c) (cn_plaintext c) in
            let c := with_plaintext plaintext (with_tls tls c) in
            let s := put_conns (<[id := c]> (i4_conns s)) s in
            match closed with
            | Err _ => done_disconnect id s b
            | Ok closed =>
                match frame plaintext with
                | HttpFrame.NeedMore => if closed : bool then done_disconnect id s b else (s, b, Step.Continue)
                | HttpFrame.OversizeHead => done_disconnect id s b
                | HttpFrame.Request head body body_digest => feed_request id c head body body_digest s b
                end
            end
      end
  end.

(** [read_tls] within the budget. *)
Definition read_conn_tls (id budget : Z) c s : server * Z * io Z :=
  let '(tls, (net, budget), read) := read_tls (net_read (recv id)) (cn_tls c) (i4_net s, budget) in
  (put_net net (update id (with_tls tls) s), budget, read).

(** [process_new_packets]: [false] when the peer broke the protocol. *)
Definition process_conn (id : Z) s : server * bool :=
  match i4_conns s !! id with
  | None => (s, false)
  | Some c => let '(tls, ok) := process_new_packets (cn_tls c) in (update id (with_tls tls) s, ok)
  end.

(** The loop of [read]: what it returned, or [None] when the reads would block. *)
Fixpoint read_loop (fuel : nat) (id budget : Z) s b : server * Exchange * option (list PolicyEvent.t) :=
  match fuel with
  | 0%nat => (s, b, None)
  | S fuel =>
      match i4_conns s !! id with
      | None => (s, b, Some [])
      | Some c =>
          let '(s, budget, read) := read_conn_tls id budget c s in
          match read with
          | Err IoError.WouldBlock => (s, b, None)
          | Err IoError.Other => let '(s, events) := disconnect id s in (s, b, Some events)
          | Ok count =>
              if count =? 0 then let '(s, events) := disconnect id s in (s, b, Some events)
              else
                let '(s, ok) := process_conn id s in
                if negb ok then
                  let '(s, _) := flush_conn id s in
                  let s := update id (with_notified true) s in
                  let '(s, events) := disconnect id s in (s, b, Some events)
                else
                  let '(s, b, step) := after_packets id s b in
                  match step with
                  | Step.Continue => read_loop fuel id budget s b
                  | Step.Done events => (s, b, Some events)
                  end
          end
      end
  end.

(** Every turn but the last reads at least one byte of the budget. *)
Definition read (id : Z) s b : server * Exchange * list PolicyEvent.t :=
  let '(s, b, returned) := read_loop (S (Z.to_nat READ_BUDGET)) id READ_BUDGET s b in
  match returned with
  | Some events => (s, b, events)
  | None =>
      let '(s, ok) := flush_conn id s in
      if ok : bool then (s, b, []) else let '(s, events) := disconnect id s in (s, b, events)
  end.

(** ** Relaying *)

(** Gives the response to TLS and writes it out, until TLS or the socket takes no more; [false] on a failed send. *)
Fixpoint relay_loop (fuel : nat) (id : Z) (tls : T) (response : list Z) (net : N) : T * list Z * N * bool :=
  match response, fuel with
  | [], _ | _, 0%nat => (tls, response, net, true)
  | _, S fuel =>
      let '(tls, taken) := write_plaintext response tls in
      match taken with
      | Err _ => (tls, response, net, true)
      | Ok count =>
          if count =? 0 then (tls, response, net, true)
          else
            let response := drop (Z.to_nat (Z.min count (zlen response))) response in
            let '(tls, net, written) := write_tls (net_write (send id)) tls net in
            match written with
            | Ok _ => relay_loop fuel id tls response net
            | Err IoError.WouldBlock => (tls, response, net, true)
            | Err IoError.Other => (tls, response, net, false)
            end
      end
  end.

(** [close_notify], once, when all of the response was taken; [false] on a failed send. *)
Definition notify (id : Z) s : server * bool :=
  match i4_conns s !! id with
  | Some c =>
      if bool_decide (cn_response c = []) && negb (cn_notified c)
      then flush_conn id (update id (λ c, with_notified true (with_tls (send_close_notify (cn_tls c)) c)) s)
      else (s, true)
  | None => (s, true)
  end.

(** The write side is shut down when nothing is left to write; the linger follows. *)
Definition finish_relay (id : Z) s : server :=
  match i4_conns s !! id with
  | Some c =>
      if cn_notified c && bool_decide (cn_response c = []) && negb (wants_write (cn_tls c))
         && bool_decide (cn_phase c = Phase.Relaying)
      then
        let '(net, shut) := shutdown_write id (i4_net s) in
        let s := put_net net s in
        if shut : bool then update id (with_phase Phase.Lingering) s else close id false s
      else s
  | None => s
  end.

Definition relay (id : Z) s : server :=
  match i4_conns s !! id with
  | None => s
  | Some c =>
      let '(tls, response, net, ok) := relay_loop (length (cn_response c)) id (cn_tls c) (cn_response c) (i4_net s) in
      let s := put_net net (update id (λ c, with_response response (with_tls tls c)) s) in
      if negb ok then close id false s
      else
        let '(s, ok) := flush_conn id s in
        if negb ok then close id false s
        else
          let '(s, ok) := notify id s in
          if negb ok then close id false s else finish_relay id s
  end.

(** Reads and discards; [true] at the end of the stream. *)
Fixpoint linger_loop (fuel : nat) (id budget : Z) (net : N) : N * bool :=
  match fuel with
  | 0%nat => (net, false)
  | S fuel =>
      if budget <=? 0 then (net, false)
      else
        let '(net, received) := recv id (Z.min CHUNK budget) net in
        match received with
        | Transfer.Data bytes => linger_loop fuel id (budget - Z.min (zlen bytes) budget) net
        | Transfer.WouldBlock => (net, false)
        | Transfer.Eof | Transfer.Failed _ => (net, true)
        end
  end.

Definition linger (id : Z) s : server :=
  let '(net, ended) := linger_loop (S (Z.to_nat READ_BUDGET)) id READ_BUDGET (i4_net s) in
  let s := put_net net s in
  if ended : bool then close id false s else s.

Definition start_relay s b : server * Exchange :=
  let '(b, staged) := take_response b in
  match i4_in_flight s with
  | None => (fail "an upstream outcome with no connection in flight" s, b)
  | Some id =>
      let s := put_in_flight None s in
      match i4_conns s !! id with
      | None => (s, b)
      | Some c =>
          match staged with
          | None => (close id false (fail "a relayed outcome without a staged response" s), b)
          | Some response =>
              if negb (bool_decide (sp_conn response = cn_name c))
                 || negb (bool_decide (prefixed (sp_body response) = sp_body_digest response))
              then (close id false (fail "the staged response does not match the connection in flight" s), b)
              else if cn_gone c then (close id false s, b)
              else
                match render_response (sp_status response) (sp_body response) with
                | Err _ => (close id false s, b)
                | Ok bytes =>
                    let '(s, at_) := now s in
                    let s := update id (λ c, with_response bytes
                               (with_deadline (Some (at_ + PHASE_DEADLINE)) (with_phase Phase.Relaying c))) s in
                    (relay id s, b)
                end
          end
      end
  end.

(** ** The port *)

Section Register.
Context {O : Type} `{PortPoll O}.

Fixpoint register_conns (ids : list Z) s (poll : O) : server * O * result unit LoopExit.t :=
  match ids with
  | [] => (s, poll, Ok ())
  | id :: ids =>
      match i4_conns s !! id with
      | None => register_conns ids s poll
      | Some c =>
          if cn_gone c then register_conns ids s poll
          else
            let wanted := interest c in
            let '(poll, registered) :=
              match cn_registered c with
              | None => Registry_add Owner.I04 id id wanted poll
              | Some current =>
                  if bool_decide (current = wanted) then (poll, Ok ()) else Registry_modify Owner.I04 id id wanted poll
              end in
            match registered with
            | Err e => (s, poll, Err e)
            | Ok _ => register_conns ids (update id (with_registered (Some wanted)) s) poll
            end
      end
  end.

Definition I04_register s (poll : O) : server * O * result unit LoopExit.t :=
  if existsb (λ c, negb (cn_confirmed c)) (btree_values (i4_conns s))
  then (s, poll, Err (LoopExit.Port Owner.I04 "an accepted I04 connection was never confirmed by the model"))
  else
    let '(s, poll, listening) :=
      if i4_listener_registered s then (s, poll, Ok ())
      else
        let '(poll, added) := Registry_add Owner.I04 (listener (i4_net s)) LISTENER (mkInterest true false) poll in
        match added with
        | Ok _ => (put_listener_registered true s, poll, Ok ())
        | Err e => (s, poll, Err e)
        end in
    match listening with
    | Err e => (s, poll, Err e)
    | Ok _ => register_conns (btree_keys (i4_conns s)) s poll
    end.
End Register.

Definition I04_next_deadline s : option Z :=
  fold_left (λ earliest c,
    match earliest, cn_deadline c with
    | Some e, Some d => Some (Z.min e d)
    | Some e, None => Some e
    | None, d => d
    end) (btree_values (i4_conns s)) None.

(** The connections whose deadline fell due, with their phases. *)
Definition due_conns (at_ : Z) s : list (Z * Phase.t) :=
  omap (λ id,
    let* c := i4_conns s !! id in
    let* deadline := cn_deadline c in
    if deadline <=? at_ then Some (id, cn_phase c) else None) (btree_keys (i4_conns s)).

Fixpoint close_due (due : list (Z * Phase.t)) s : server * list PolicyEvent.t :=
  match due with
  | [] => (s, [])
  | (id, phase) :: due =>
      let '(s, events) :=
        match phase with
        | Phase.Handshaking | Phase.Reading => disconnect id s
        | _ => (close id false s, [])
        end in
      let '(s, more) := close_due due s in (s, events ++ more)
  end.

Definition I04_due (at_ : Z) (sb : server * Exchange) : server * Exchange * list PolicyEvent.t :=
  let '(s, b) := sb in
  let '(s, events) := close_due (due_conns at_ s) s in (s, b, events).

(** The client is gone: its descriptor closes now, the later relay is skipped. *)
Definition mark_gone (id : Z) s : server := update id (with_gone true) (close_source id s).

Definition I04_ready (value : Z) (readiness : Readiness) (sb : server * Exchange)
    : server * Exchange * list PolicyEvent.t :=
  let '(s, b) := sb in
  if value =? LISTENER then
    let '(s, events) := accept_all (Some ACCEPTS_PER_READY) s in (s, b, events)
  else
    match i4_conns s !! value with
    | None => (s, b, [])
    | Some c =>
        if cn_gone c then (s, b, [])
        else
          match cn_phase c with
          | Phase.Handshaking | Phase.Reading => read value s b
          | Phase.Fed => (s, b, [])
          | Phase.InFlight =>
              if rd_error readiness || rd_hangup readiness then (mark_gone value s, b, [])
              else if rd_writable readiness then
                let '(s, ok) := flush_conn value s in
                (if ok : bool then s else mark_gone value s, b, [])
              else (s, b, [])
          | Phase.Relaying =>
              (if rd_error readiness then close value false s else relay value s, b, [])
          | Phase.Lingering => (linger value s, b, [])
          end
    end.

(** What the port does with the outcome of the request it fed. *)
Definition apply_close s b : server * Exchange :=
  let s := match i4_fed s with Some id => close id true (put_fed None s) | None => s end in
  (s, drop_request b).

Definition apply_forward (action_id : Z) s b : server * Exchange :=
  match i4_fed s with
  | None => (fail "a forward without a fed connection" s, b)
  | Some id =>
      let s := put_fed None s in
      match i4_conns s !! id with
      | None => (fail "a forward for a connection already closed" s, b)
      | Some c =>
          let s := put_in_flight (Some id) (update id (with_phase Phase.InFlight) s) in
          let '(b, confirmed) := confirm_request (cn_name c) action_id b in
          (if confirmed : bool then s else fail "the forwarded request is not the staged one" s, b)
      end
  end.

Definition apply_unrelayed s b : server * Exchange :=
  let b := drop_response b in
  match i4_in_flight s with
  | Some id => (close id false (put_in_flight None s), b)
  | None => (fail "an upstream outcome with no connection in flight" s, b)
  end.

Definition I04_apply (output : PolicyOutput) (sb : server * Exchange) : server * Exchange :=
  let '(s, b) := sb in
  match po_kind output with
  | PolicyOutputKind.Base base =>
      match o_kind base with
      | OutputKind.Close _ => apply_close s b
      | OutputKind.Forward action_id => apply_forward action_id s b
      | OutputKind.Upstream _ true _ => start_relay s b
      | OutputKind.Upstream _ false _ => apply_unrelayed s b
      | OutputKind.LateUpstream => (s, drop_response b)
      | _ => (s, b)
      end
  | _ => (s, b)
  end.

Definition sync_conn (view : GateView) (id : Z) s : server :=
  match i4_conns s !! id with
  | None => s
  | Some c =>
      let open := gv_connection_open view (cn_name c) in
      if negb (cn_confirmed c) then (if open then update id (with_confirmed true) s else s)
      else if open then s
      else
        match cn_phase c with
        | Phase.Relaying | Phase.Lingering => s
        | Phase.InFlight => close id false s
        | Phase.Fed | Phase.Handshaking | Phase.Reading => close id true s
        end
  end.

Definition I04_sync (view : GateView) (sb : server * Exchange) : server * Exchange :=
  let '(s, b) := sb in (fold_left (λ s id, sync_conn view id s) (btree_keys (i4_conns s)) s, b).

Definition I04_drain_backlog (sb : server * Exchange) : server * Exchange * list PolicyEvent.t :=
  let '(s, b) := sb in let '(s, events) := accept_all None s in (s, b, events).

#[export] Instance I04Server_port : Port Exchange server := {
  register _ _ := I04_register;
  next_deadline := I04_next_deadline;
  due := I04_due;
  ready := I04_ready;
  apply := I04_apply;
  sync := I04_sync;
  failure := i4_failure;
}.
#[export] Instance I04Server_i04 : I04Port Exchange server := {
  i04_port := I04Server_port;
  drain_backlog := I04_drain_backlog;
}.
End I04.
