(* ===== verification/I04Proofs.v ===== *)
(** * What the I04 port does, whatever its clients do

    Every method of the port moves each connection along one life: accepted, then at most one request or one
    disconnect, then gone.  The port never holds more than its bounds.  The laws are [StreamNetLaws] and [TlsLaws]. *)

From S2P Require Import Prelude Slices Render Types Journal Observation Config Policy Gate PolicyGate Http1 Sha256.
From S2P Require Import Substrate SubstrateProofs Tls I04.
(** ** Names *)

Lemma decimal_bytes n : Forall is_byte (decimal n).
Proof.
  assert (∀ m, 0 ≤ m → Forall is_byte (digits_of m)) as Hd.
  { intros m Hm. destruct (digits_of_spec m Hm) as [Hf _]. eapply Forall_impl; [exact Hf|].
    intros b Hb%is_digit_bounds. unfold is_byte. lia. }
  unfold decimal. destruct (Z.ltb_spec n 0); [|by apply Hd].
  constructor; [unfold is_byte; lia|apply Hd; lia].
Qed.

Lemma decimal_inj n m : decimal n = decimal m → n = m.
Proof.
  assert (∀ i j, 0 ≤ i → 0 ≤ j → digits_of i = digits_of j → i = j) as Hd.
  { intros i j Hi Hj He. destruct (digits_of_spec i Hi) as (_ & <- & _), (digits_of_spec j Hj) as (_ & <- & _). by rewrite He. }
  assert (∀ i j, 0 ≤ i → 45 :: digits_of j ≠ digits_of i) as Hn.
  { intros i j Hi He. destruct (digits_of_spec i Hi) as [Hf _]. rewrite <-He in Hf.
    apply Forall_cons in Hf as [?%is_digit_bounds _]. lia. }
  unfold decimal. destruct (Z.ltb_spec n 0), (Z.ltb_spec m 0); intros He.
  - injection He as He%Hd; lia.
  - by apply Hn in He.
  - symmetry in He. by apply Hn in He.
  - by apply Hd.
Qed.

#[global] Instance conn_name_inj : Inj (=) (=) conn_name.
Proof.
  intros n m He%(f_equal bytes_of). unfold conn_name in He. rewrite !bytes_of_app in He. apply app_inv_head in He.
  unfold decimal_str in He. rewrite !bytes_string_bytes in He by apply decimal_bytes. by apply decimal_inj.
Qed.

(** ** The life of a connection *)

(** The connection an event of the port is about. *)
Definition event_conn (event : PolicyEvent.t) : option string :=
  match event with
  | PolicyEvent.Base (Event.Backlog conn) | PolicyEvent.Base (Event.Accept conn)
  | PolicyEvent.Base (Event.Request conn _ _ _) | PolicyEvent.Base (Event.Disconnect conn) => Some conn
  | _ => None
  end.
Definition life (id : Z) (events : list PolicyEvent.t) : list PolicyEvent.t :=
  filter (λ e, event_conn e = Some (conn_name id)) events.

Module Stage.
Inductive t := Fresh | Accepted | Requested | Gone.
End Stage.

Definition accepted_events (id : Z) : list PolicyEvent.t :=
  [PolicyEvent.Base (Event.Backlog (conn_name id)); PolicyEvent.Base (Event.Accept (conn_name id))].

(** A request or a disconnect of the connection. *)
Inductive closing (id : Z) : PolicyEvent.t → Prop :=
| closing_request certificate head digest :
    closing id (PolicyEvent.Base (Event.Request (conn_name id) certificate head digest))
| closing_disconnect : closing id (PolicyEvent.Base (Event.Disconnect (conn_name id))).

(** The events of one connection while it moves from one stage to another. *)
Inductive advance (id : Z) : Stage.t → list PolicyEvent.t → Stage.t → Prop :=
| adv_stays st : advance id st [] st
| adv_taken : advance id Stage.Fresh [] Stage.Gone
| adv_accepted : advance id Stage.Fresh (accepted_events id) Stage.Accepted
| adv_accepted_requested certificate head digest :
    advance id Stage.Fresh
      (accepted_events id ++ [PolicyEvent.Base (Event.Request (conn_name id) certificate head digest)]) Stage.Requested
| adv_accepted_gone : advance id Stage.Fresh (accepted_events id) Stage.Gone
| adv_accepted_closed event : closing id event → advance id Stage.Fresh (accepted_events id ++ [event]) Stage.Gone
| adv_requested certificate head digest :
    advance id Stage.Accepted [PolicyEvent.Base (Event.Request (conn_name id) certificate head digest)] Stage.Requested
| adv_gone : advance id Stage.Accepted [] Stage.Gone
| adv_closed event : closing id event → advance id Stage.Accepted [event] Stage.Gone
| adv_dropped : advance id Stage.Requested [] Stage.Gone.
#[export] Hint Constructors closing advance : core.

Lemma advance_app id st1 l1 st2 l2 st3 :
  advance id st1 l1 st2 → advance id st2 l2 st3 → advance id st1 (l1 ++ l2) st3.
Proof. intros H1 H2. inversion H1; subst; inversion H2; subst; rewrite ?app_nil_r; eauto. Qed.

Lemma life_app id l1 l2 : life id (l1 ++ l2) = life id l1 ++ life id l2.
Proof. apply filter_app. Qed.

(** ** Counting a [BTreeMap]'s values *)

Lemma btree_values_list {V} (m : gmap Z V) : btree_values m ≡ₚ (map_to_list m).*2.
Proof.
  unfold btree_values, btree_keys. rewrite merge_sort_Permutation.
  assert (elements (dom m) ≡ₚ (map_to_list m).*1) as ->.
  { apply NoDup_Permutation; [apply NoDup_elements|apply NoDup_fst_map_to_list|]. intros k.
    rewrite elem_of_elements, elem_of_dom, list_elem_of_fmap. split.
    - intros [v Hk]. exists (k, v). by rewrite elem_of_map_to_list.
    - intros ([k' v] & -> & Hk%elem_of_map_to_list). by exists v. }
  assert (∀ l, (∀ k v, (k, v) ∈ l → m !! k = Some v) → omap (λ k, m !! k) l.*1 = l.*2) as Hl.
  { intros l. induction l as [|[k v] l IH]; intros Hl; [done|]. csimpl.
    rewrite (Hl k v) by left. f_equal. apply IH. intros k' v' Hk. apply Hl. by right. }
  by rewrite Hl by (intros k v; apply elem_of_map_to_list).
Qed.

Section Count.
Context {V : Type} (P : V → Prop) `{∀ v, Decision (P v)}.
Definition count (m : gmap Z V) : nat := length (filter P (btree_values m)).
Definition weight (v : V) : nat := if decide (P v) then 1 else 0.

Lemma count_insert_new m k v : m !! k = None → count (<[k := v]> m) = (weight v + count m)%nat.
Proof.
  intros Hk. unfold count, weight. rewrite !btree_values_list, map_to_list_insert by done. csimpl.
  rewrite filter_cons. by destruct (decide (P v)).
Qed.
Lemma count_delete m k v : m !! k = Some v → count m = (weight v + count (delete k m))%nat.
Proof.
  intros Hk. rewrite <-(insert_delete_id m k v Hk) at 1. apply count_insert_new, lookup_delete_eq.
Qed.
Lemma count_insert m k v v' : m !! k = Some v → (weight v + count (<[k := v']> m) = weight v' + count m)%nat.
Proof.
  intros Hk. rewrite <-insert_delete_eq, count_insert_new by apply lookup_delete_eq.
  rewrite (count_delete m k v Hk). lia.
Qed.
End Count.

Section I04Proofs.
Context {N C T : Type} {HN : StreamNet N} {HT : Tls T} {HC : TlsServer C T} {LN : StreamNetLaws N} {LT : TlsLaws T}.
Abbreviation server := (I04Server N C T).
Implicit Types (s : server) (c : Connection T) (b : Exchange).

Definition stage s (id : Z) : Stage.t :=
  match i4_conns s !! id with
  | Some c => match cn_phase c with Phase.Handshaking | Phase.Reading => Stage.Accepted | _ => Stage.Requested end
  | None => if bool_decide (id ∈ used (i4_net s)) then Stage.Gone else Stage.Fresh
  end.

(** ** The invariant *)

(** A deadline bounds every phase but the two that wait for the gate. *)
Definition timed (phase : Phase.t) : bool :=
  match phase with Phase.Fed | Phase.InFlight => false | _ => true end.

Record conn_ok (id : Z) c : Prop := {
  ok_name : cn_name c = conn_name id;
  ok_deadline : is_Some (cn_deadline c) ↔ timed (cn_phase c) = true;
  ok_plaintext : zlen (cn_plaintext c) ≤ REQUEST_LIMIT;
  ok_surplus : cn_phase c ≠ Phase.Reading → cn_plaintext c = [];
  ok_gone : cn_gone c = true → cn_phase c = Phase.InFlight;
  ok_response : cn_phase c ≠ Phase.Relaying → cn_response c = [];
  ok_certificate : cn_phase c ≠ Phase.Handshaking →
    ∃ tls leaf, is_handshaking tls = false ∧ is_tls13 tls = true ∧ peer_leaf tls = Some leaf ∧
      cn_certificate c = Some (prefixed leaf);
}.

Record wf s : Prop := {
  wf_conns id c : i4_conns s !! id = Some c → conn_ok id c;
  wf_used id c : i4_conns s !! id = Some c → id ∈ used (i4_net s);
  wf_fed id c : i4_fed s = Some id → i4_conns s !! id = Some c → cn_phase c = Phase.Fed;
  wf_flight id c : i4_in_flight s = Some id → i4_conns s !! id = Some c → cn_phase c = Phase.InFlight;
  wf_live : live s ≤ CONNECTION_CAP;
  wf_ids id : i4_fed s = Some id ∨ i4_in_flight s = Some id → id ∈ used (i4_net s);
}.

(** The method kept the invariant, and moved each connection along its life with these events. *)
Definition follows s (events : list PolicyEvent.t) s' : Prop :=
  wf s → wf s' ∧ Forall (λ e, is_Some (event_conn e)) events ∧
    ∀ id, advance id (stage s id) (life id events) (stage s' id).

Lemma follows_refl s : follows s [] s.
Proof. intros Hw. split; [done|]. split; [constructor|]. intros id. apply adv_stays. Qed.

Lemma follows_trans s1 l1 s2 l2 s3 : follows s1 l1 s2 → follows s2 l2 s3 → follows s1 (l1 ++ l2) s3.
Proof.
  intros H1 H2 Hw. destruct (H1 Hw) as (Hw2 & F1 & A1), (H2 Hw2) as (Hw3 & F2 & A2). split; [done|].
  split; [by apply Forall_app|]. intros id. rewrite life_app. by eapply advance_app.
Qed.

Lemma follows_then s1 s2 l s3 : follows s1 [] s2 → follows s2 l s3 → follows s1 l s3.
Proof. intros H1 H2. exact (follows_trans _ _ _ _ _ H1 H2). Qed.
Lemma follows_before s1 l s2 s3 : follows s1 l s2 → follows s2 [] s3 → follows s1 l s3.
Proof. intros H1 H2. rewrite <-(app_nil_r l). by eapply follows_trans. Qed.

(** A step is proved under the invariant. *)
Lemma follows_wf s l s' : (wf s → follows s l s') → follows s l s'.
Proof. intros H Hw. by apply H. Qed.

(** Nothing the invariant or a stage speaks of changed. *)
Lemma follows_same s s' :
  i4_conns s' = i4_conns s → used (i4_net s') = used (i4_net s) → i4_fed s' = i4_fed s →
  i4_in_flight s' = i4_in_flight s → follows s [] s'.
Proof.
  intros Hc Hu Hf Hi [H1 H2 H3 H4 H5 H6]. split; [split; unfold live in *; rewrite ?Hc, ?Hu, ?Hf, ?Hi; eauto|].
  split; [constructor|]. intros id. replace (stage s' id) with (stage s id) by (unfold stage; by rewrite Hc, Hu).
  apply adv_stays.
Qed.

Lemma follows_net net s : used net = used (i4_net s) → follows s [] (put_net net s).
Proof. intros Hu. by apply follows_same. Qed.
Lemma follows_fail reason s : follows s [] (fail reason s).
Proof. unfold fail. destruct (i4_failure s); [apply follows_refl|by apply follows_same]. Qed.
Lemma follows_now s : follows s [] (now s).1.
Proof.
  unfold now. pose proof (monotonic_used (i4_net s)) as Hu. destruct (net_monotonic _) as [net at_]. by apply follows_net.
Qed.
Lemma follows_close_source source s : follows s [] (close_source source s).
Proof. apply follows_net, close_used. Qed.

(** ** How many connections are live *)

Lemma live_count s : live s = Z.of_nat (count (λ c, cn_gone c = false) (i4_conns s)).
Proof. done. Qed.

(** ** One connection changed or removed *)

Lemma update_Some id f s c : i4_conns s !! id = Some c → update id f s = put_conns (<[id := f c]> (i4_conns s)) s.
Proof.
  intros Hc. unfold update. f_equal. apply map_eq. intros j. destruct (decide (j = id)) as [->|Hj].
  - by rewrite lookup_alter_eq, Hc, lookup_insert_eq.
  - by rewrite lookup_alter_ne, lookup_insert_ne by done.
Qed.
Lemma update_None id f s : i4_conns s !! id = None → i4_conns (update id f s) = i4_conns s.
Proof.
  intros Hc. apply map_eq. intros j. cbn. destruct (decide (j = id)) as [->|Hj].
  - by rewrite lookup_alter_eq, Hc.
  - by rewrite lookup_alter_ne.
Qed.

Definition phase_stage (phase : Phase.t) : Stage.t :=
  match phase with Phase.Handshaking | Phase.Reading => Stage.Accepted | _ => Stage.Requested end.

Lemma stage_held s id c : i4_conns s !! id = Some c → stage s id = phase_stage (cn_phase c).
Proof. intros Hc. unfold stage. by rewrite Hc. Qed.

Lemma stage_other s s' j :
  i4_conns s' !! j = i4_conns s !! j → used (i4_net s') = used (i4_net s) → stage s' j = stage s j.
Proof. unfold stage. by intros -> ->. Qed.

(** What the invariant needs of a connection's new value. *)
Record may_put s (id : Z) c c' : Prop := {
  mp_ok : conn_ok id c → conn_ok id c';
  mp_gone : cn_gone c' = false → cn_gone c = false;
  mp_fed : i4_fed s = Some id → cn_phase c = Phase.Fed → cn_phase c' = Phase.Fed;
  mp_flight : i4_in_flight s = Some id → cn_phase c = Phase.InFlight → cn_phase c' = Phase.InFlight;
}.

Lemma wf_put s id c c' :
  wf s → i4_conns s !! id = Some c → may_put s id c c' → wf (put_conns (<[id := c']> (i4_conns s)) s).
Proof.
  intros [H1 H2 H3 H4 H5 H6] Hc [Mo Mg Mf Mi]. split; cbn; [..|exact H6].
  - intros j d [[<- <-]|[Hj Hd]]%lookup_insert_Some; eauto.
  - intros j d [[<- <-]|[Hj Hd]]%lookup_insert_Some; eauto.
  - intros j d Hf [[<- <-]|[Hj Hd]]%lookup_insert_Some; eauto.
  - intros j d Hf [[<- <-]|[Hj Hd]]%lookup_insert_Some; eauto.
  - rewrite live_count in *. cbn.
    pose proof (count_insert (λ c, cn_gone c = false) (i4_conns s) id c c' Hc) as Hcount. unfold weight in Hcount.
    destruct (decide (cn_gone c' = false)) as [Hg|Hg], (decide (cn_gone c = false)) as [Hg'|Hg']; try lia.
    by apply Mg in Hg.
Qed.

Lemma follows_put s id c c' :
  i4_conns s !! id = Some c → may_put s id c c' → phase_stage (cn_phase c') = phase_stage (cn_phase c) →
  follows s [] (put_conns (<[id := c']> (i4_conns s)) s).
Proof.
  intros Hc Hm Hp Hw. split; [by eapply wf_put|]. split; [constructor|]. intros j.
  set (s' := put_conns _ s). assert (stage s' j = stage s j) as ->; [|apply adv_stays]. destruct (decide (j = id)) as [->|Hj].
  - rewrite (stage_held s id c Hc), <-Hp. apply stage_held. apply lookup_insert_eq.
  - apply stage_other; [|done]. by apply lookup_insert_ne.
Qed.

(** The fields that say nothing of the invariant may change freely. *)
Record same_view c c' : Prop := {
  sv_name : cn_name c' = cn_name c;
  sv_phase : cn_phase c' = cn_phase c;
  sv_deadline : cn_deadline c' = cn_deadline c;
  sv_plaintext : cn_plaintext c' = cn_plaintext c;
  sv_certificate : cn_certificate c' = cn_certificate c;
  sv_gone : cn_gone c' = cn_gone c;
  sv_response : cn_response c' = cn_response c;
}.
Lemma same_view_put s id c c' : same_view c c' → may_put s id c c'.
Proof.
  intros [E1 E2 E3 E4 E5 E6 E7]. split; [|congruence..].
  intros [O1 O2 O3 O4 O5 O6 O7]. by split; rewrite ?E1, ?E2, ?E3, ?E4, ?E5, ?E6, ?E7.
Qed.

Lemma follows_update_view s id f :
  (∀ c, same_view c (f c)) → follows s [] (update id f s).
Proof.
  intros Hf. destruct (i4_conns s !! id) as [c|] eqn:Hc.
  - rewrite (update_Some id f s c Hc). apply (follows_put s id c); [done|by apply same_view_put|].
    by rewrite (sv_phase _ _ (Hf c)).
  - apply follows_same; [|done..]. by apply update_None.
Qed.

Lemma wf_remove s id : wf s → wf (put_conns (delete id (i4_conns s)) s).
Proof.
  intros [H1 H2 H3 H4 H5 H6]. split; cbn; [..|exact H6].
  - intros j d [Hj Hd]%lookup_delete_Some. eauto.
  - intros j d [Hj Hd]%lookup_delete_Some. eauto.
  - intros j d Hf [Hj Hd]%lookup_delete_Some. eauto.
  - intros j d Hf [Hj Hd]%lookup_delete_Some. eauto.
  - rewrite live_count in *. cbn. destruct (i4_conns s !! id) as [c|] eqn:Hc.
    + pose proof (count_delete (λ c, cn_gone c = false) (i4_conns s) id c Hc). lia.
    + by rewrite delete_id.
Qed.

Lemma follows_remove s id : follows s [] (put_conns (delete id (i4_conns s)) s).
Proof.
  intros Hw. set (s' := put_conns _ s). split; [by apply wf_remove|]. split; [constructor|].
  intros j. destruct (decide (j = id)) as [->|Hj].
  - destruct (i4_conns s !! id) as [c|] eqn:Hc.
    + assert (stage s' id = Stage.Gone) as ->.
      { unfold stage. cbn. rewrite lookup_delete_eq. by rewrite bool_decide_eq_true_2 by (by eapply wf_used). }
      rewrite (stage_held s id c Hc). destruct (cn_phase c); cbn; eauto.
    + rewrite (stage_other s s' id); [apply adv_stays|cbn; by rewrite lookup_delete_eq|done].
  - rewrite (stage_other s s' j); [apply adv_stays|cbn; by rewrite lookup_delete_ne|done].
Qed.

Lemma follows_put_flight s v :
  (∀ id, v = Some id → ∃ c, i4_conns s !! id = Some c ∧ cn_phase c = Phase.InFlight) → follows s [] (put_in_flight v s).
Proof.
  intros Hv [H1 H2 H3 H4 H5 H6]. split; [split; cbn; try done|].
  - intros id c Hid Hc. destruct (Hv id Hid) as (c' & Hc' & Hp). congruence.
  - intros id [Hid|Hid]; [eauto|]. destruct (Hv id Hid) as (c' & Hc' & Hp). eauto.
  - split; [constructor|]. intros id. by apply adv_stays.
Qed.
Lemma follows_put_fed s v :
  (∀ id, v = Some id → ∃ c, i4_conns s !! id = Some c ∧ cn_phase c = Phase.Fed) → follows s [] (put_fed v s).
Proof.
  intros Hv [H1 H2 H3 H4 H5 H6]. split; [split; cbn; try done|].
  - intros id c Hid Hc. destruct (Hv id Hid) as (c' & Hc' & Hp). congruence.
  - intros id [Hid|Hid]; [|eauto]. destruct (Hv id Hid) as (c' & Hc' & Hp). eauto.
  - split; [constructor|]. intros id. by apply adv_stays.
Qed.

(** ** Closing *)

Lemma net_write_used id : ∀ bytes (n : N), used (net_write (send id) bytes n).1 = used n.
Proof. intros bytes n. unfold net_write. pose proof (send_used id bytes n). by destruct (send id bytes n). Qed.

Lemma flush_used id (tls : T) (n : N) : used (flush (net_write (send id)) tls n).1.2 = used n.
Proof.
  apply (flush_keeps _ (λ n', used n' = used n)); [|done]. intros bytes n' Hn. by rewrite net_write_used.
Qed.

Lemma follows_flush_conn id s : follows s [] (flush_conn id s).1.
Proof.
  unfold flush_conn. destruct (i4_conns s !! id) as [c|] eqn:Hc; [|apply follows_refl].
  pose proof (flush_used id (cn_tls c) (i4_net s)) as Hu. destruct (flush _ _ _) as [[tls net] ok]. cbn [fst snd] in *.
  eapply follows_then; [apply (follows_update_view s id (with_tls tls)); by split|by apply follows_net].
Qed.

(** [close] removes the connection, and nothing else. *)
Lemma i4_follows_close id notify s : follows s [] (close id notify s).
Proof.
  unfold close. set (s1 := match i4_conns s !! id with Some _ => _ | None => s end).
  assert (follows s [] s1) as H1.
  { unfold s1. destruct (i4_conns s !! id) as [c|]; [|apply follows_refl].
    destruct (_ && _); [|apply follows_refl].
    eapply follows_then; [|apply follows_flush_conn]. apply follows_update_view. by split. }
  eapply follows_then; [exact H1|]. eapply follows_then; [apply (follows_remove s1 id)|].
  set (s2 := put_conns (delete id (i4_conns s1)) s1).
  set (s3 := match i4_conns s1 !! id with Some c => _ | None => s2 end).
  assert (follows s2 [] s3) as H3.
  { unfold s3. destruct (i4_conns s1 !! id) as [c|]; [|apply follows_refl].
    destruct (cn_gone c); [apply follows_refl|apply follows_close_source]. }
  eapply follows_then; [exact H3|]. destruct (bool_decide _); [|apply follows_refl]. by apply follows_put_flight.
Qed.

Lemma close_removes id notify s : i4_conns (close id notify s) !! id = None.
Proof.
  unfold close. set (s1 := match i4_conns s !! id with Some _ => _ | None => s end).
  set (s2 := put_conns (delete id (i4_conns s1)) s1).
  set (s3 := match i4_conns s1 !! id with Some c => _ | None => s2 end).
  assert (i4_conns s3 = delete id (i4_conns s1)) as H3.
  { unfold s3. destruct (i4_conns s1 !! id) as [c|]; [|done]. by destruct (cn_gone c). }
  destruct (bool_decide _); cbn; rewrite H3; apply lookup_delete_eq.
Qed.

(** A step without events keeps a connection that has made no request without one. *)
Lemma follows_unrequested s s' id :
  wf s → follows s [] s' → stage s id ≠ Stage.Requested → stage s' id ≠ Stage.Requested.
Proof. intros Hw Hf Hs. destruct (Hf Hw) as (_ & _ & Ha). specialize (Ha id). inversion Ha; congruence. Qed.

Lemma life_one id event conn : event_conn event = Some conn →
  life id [event] = if decide (conn = conn_name id) then [event] else [].
Proof.
  intros He. unfold life. rewrite filter_cons, filter_nil, He.
  destruct (decide (Some conn = Some (conn_name id))) as [[= E]|Hn], (decide (conn = conn_name id)); congruence.
Qed.
Lemma life_self id event : event_conn event = Some (conn_name id) → life id [event] = [event].
Proof. intros He. rewrite (life_one id event _ He). by rewrite decide_True. Qed.
Lemma life_other id j event : event_conn event = Some (conn_name id) → j ≠ id → life j [event] = [].
Proof.
  intros He Hj. rewrite (life_one j event _ He). rewrite decide_False; [done|]. by intros ->%(inj conn_name).
Qed.

Lemma i4_follows_disconnect id s :
  stage s id ≠ Stage.Requested → follows s (disconnect id s).2 (disconnect id s).1.
Proof.
  intros Hs Hw. unfold disconnect. cbn [fst snd]. destruct (i4_follows_close id true s Hw) as (Hw2 & _ & Ha).
  split; [done|]. destruct (i4_conns s !! id) as [c|] eqn:Hc; [|by split].
  destruct (cn_confirmed c); [|by split].
  pose proof (ok_name _ _ (wf_conns _ Hw id c Hc)) as Hn. split; [by constructor|]. intros j.
  rewrite Hn. destruct (decide (j = id)) as [->|Hj].
  - rewrite life_self by done. specialize (Ha id). rewrite (stage_held s id c Hc) in *.
    destruct (phase_stage (cn_phase c)) eqn:Ep; [by destruct (cn_phase c)| |done|by destruct (cn_phase c)].
    replace (stage (close id true s) id) with Stage.Gone; [by apply adv_closed|].
    unfold stage. rewrite close_removes.
    assert (stage (close id true s) id ≠ Stage.Fresh) as Hf by (inversion Ha; congruence).
    unfold stage in Hf. rewrite close_removes in Hf. by destruct (bool_decide _).
  - rewrite (life_other id j) by done. apply Ha.
Qed.

(** ** Accepting *)

Lemma follows_accept_net s :
  (∀ source, (accept (i4_net s)).2 ≠ Accepted.Conn source) → follows s [] (put_net (accept (i4_net s)).1 s).
Proof. intros Hn. by apply follows_net, accept_none. Qed.

(** A source just taken, not held yet: [s] with its net after the accept. *)
Record taking s0 s (source : Z) : Prop := {
  tk_conns : i4_conns s = i4_conns s0;
  tk_used : used (i4_net s) = {[source]} ∪ used (i4_net s0);
  tk_fresh : source ∉ used (i4_net s0);
  tk_fed : i4_fed s = i4_fed s0;
  tk_flight : i4_in_flight s = i4_in_flight s0;
}.

Lemma taking_wf s0 s source : taking s0 s source → wf s0 → wf s ∧ i4_conns s !! source = None.
Proof.
  intros [T1 T2 T3 T4 T5] Hw. pose proof Hw as [H1 H2 H3 H4 H5 H6]. split.
  - split; unfold live in *; rewrite ?T1, ?T2, ?T4, ?T5; eauto.
    + intros id c Hc. specialize (H2 id c Hc). set_solver.
    + intros id Hid. specialize (H6 id Hid). set_solver.
  - rewrite T1. apply eq_None_not_Some. intros [c Hc]. by apply H2 in Hc.
Qed.

(** The stages of the other connections do not see the accept. *)
Lemma taking_stage s0 s source id : taking s0 s source → id ≠ source → stage s id = stage s0 id.
Proof.
  intros [T1 T2 T3 T4 T5] Hid. unfold stage. rewrite T1, T2. destruct (i4_conns s0 !! id); [done|].
  destruct (decide (id ∈ used (i4_net s0))) as [Hu|Hu].
  - rewrite !bool_decide_eq_true_2; [done|done|set_solver].
  - rewrite !bool_decide_eq_false_2; [done|done|set_solver].
Qed.
Lemma taking_fresh s0 s source : taking s0 s source → wf s0 → stage s0 source = Stage.Fresh.
Proof.
  intros Ht Hw. destruct (taking_wf _ _ _ Ht Hw) as [_ Hc]. rewrite (tk_conns _ _ _ Ht) in Hc. unfold stage.
  rewrite Hc. by rewrite bool_decide_eq_false_2 by apply (tk_fresh _ _ _ Ht).
Qed.

(** The source is closed, unfed. *)
Lemma follows_refuse s0 s source : taking s0 s source → follows s0 [] s.
Proof.
  intros Ht Hw. destruct (taking_wf _ _ _ Ht Hw) as [Hw2 Hc]. split; [done|]. split; [constructor|].
  intros id. destruct (decide (id = source)) as [->|Hid].
  - rewrite (taking_fresh _ _ _ Ht Hw). replace (stage s source) with Stage.Gone; [apply adv_taken|].
    unfold stage. rewrite Hc, bool_decide_eq_true_2; [done|]. rewrite (tk_used _ _ _ Ht). set_solver.
  - rewrite (taking_stage _ _ _ _ Ht Hid). apply adv_stays.
Qed.

Lemma new_connection_ok source (tls : T) deadline : conn_ok source (new_connection source tls deadline).
Proof. by split. Qed.

(** The source is held, and its connection fed as [Backlog] then [Accept]. *)
Lemma i4_follows_hold s0 s source tls deadline :
  taking s0 s source → live s < CONNECTION_CAP →
  follows s0 (accepted_events source) (put_conns (<[source := new_connection source tls deadline]> (i4_conns s)) s).
Proof.
  intros Ht Hl Hw. pose proof (taking_wf _ _ _ Ht Hw) as [[H1 H2 H3 H4 H5 H6] Hc].
  pose proof (tk_fresh _ _ _ Ht) as Hn. set (s' := put_conns _ s).
  assert (∀ id, i4_fed s0 = Some id ∨ i4_in_flight s0 = Some id → id ≠ source) as Hids.
  { intros id Hid ->. by apply (wf_ids _ Hw) in Hid. }
  split; [|split; [by repeat constructor|]].
  - split; cbn; [..|exact H6].
    + intros j d [[<- <-]|[Hj Hd]]%lookup_insert_Some; [apply new_connection_ok|eauto].
    + intros j d [[<- <-]|[Hj Hd]]%lookup_insert_Some; [|eauto]. rewrite (tk_used _ _ _ Ht). set_solver.
    + intros j d Hf [[<- <-]|[Hj Hd]]%lookup_insert_Some; [|eauto]. exfalso.
      rewrite (tk_fed _ _ _ Ht) in Hf. exact (Hids source (or_introl Hf) eq_refl).
    + intros j d Hf [[<- <-]|[Hj Hd]]%lookup_insert_Some; [|eauto]. exfalso.
      rewrite (tk_flight _ _ _ Ht) in Hf. exact (Hids source (or_intror Hf) eq_refl).
    + rewrite live_count in *. cbn.
      rewrite (count_insert_new (λ c, cn_gone c = false) (i4_conns s) source _ Hc). unfold weight. cbn. rewrite decide_True by done. lia.
  - intros id. unfold accepted_events. change [?a; ?e] with ([a] ++ [e]) at 1. rewrite life_app.
    destruct (decide (id = source)) as [->|Hid].
    + rewrite (taking_fresh _ _ _ Ht Hw), !life_self by done. replace (stage s' source) with Stage.Accepted; [apply adv_accepted|].
      unfold stage. cbn. by rewrite lookup_insert_eq.
    + rewrite !(life_other source id) by done. rewrite <-(taking_stage _ _ _ _ Ht Hid).
      rewrite (stage_other s s' id); [apply adv_stays|cbn; by rewrite lookup_insert_ne|done].
Qed.

Lemma taking_put s0 s s' source :
  taking s0 s source → i4_conns s' = i4_conns s → used (i4_net s') = used (i4_net s) → i4_fed s' = i4_fed s →
  i4_in_flight s' = i4_in_flight s → taking s0 s' source.
Proof. intros [T1 T2 T3 T4 T5] E1 E2 E3 E4. split; congruence. Qed.

Lemma follows_accept_loop fuel limit calls s :
  follows s (accept_loop fuel limit calls s).2 (accept_loop fuel limit calls s).1.
Proof.
  revert calls s. induction fuel as [|fuel IH]; intros calls s; cbn [accept_loop];
    (destruct (match limit with Some _ => _ | None => false end); [apply follows_refl|]);
    (destruct (bool_decide (limit = None) && _); [apply follows_fail|]); [apply follows_refl|].
  pose proof (accept_fresh (i4_net s)) as Hfresh. pose proof (accept_none (i4_net s)) as Hnone.
  destruct (accept (i4_net s)) as [net accepted]. cbn [fst snd] in Hfresh, Hnone.
  assert ((∀ source, accepted ≠ Accepted.Conn source) → follows s [] (put_net net s)) as Hother
    by (intros Hn; by apply follows_net, Hnone).
  destruct accepted as [source| | |errno].
  - destruct (Hfresh source eq_refl) as [Hn Hu].
    assert (taking s (put_net net s) source) as Ht by by split.
    assert (∀ s', taking s s' source →
      follows s (accept_loop fuel limit (calls + 1) (close_source source s')).2
        (accept_loop fuel limit (calls + 1) (close_source source s')).1) as Hrefuse.
    { intros s' Ht'. eapply follows_then; [by eapply follows_refuse|]. eapply follows_then; [apply follows_close_source|apply IH]. }
    destruct (CONNECTION_CAP <=? live _) eqn:El; [by apply Hrefuse|]. apply Z.leb_gt in El.
    destruct (server_connection _) as [config [tls|]]; [|apply Hrefuse; by eapply taking_put].
    pose proof (monotonic_used (i4_net (put_config config (put_net net s)))) as Hm.
    unfold now. destruct (net_monotonic _) as [net' at_]. cbn [fst snd] in Hm.
    set (s1 := put_net net' _). assert (taking s s1 source) as Ht1 by (by eapply taking_put).
    assert (live s1 < CONNECTION_CAP) as El1 by done.
    set (s2 := put_conns _ s1). pose proof (IH (calls + 1) s2) as Hrest. destruct (accept_loop fuel limit _ s2) as [s3 events].
    cbn [fst snd] in *. change (PolicyEvent.Base (Event.Backlog ?n) :: PolicyEvent.Base (Event.Accept ?n) :: events)
      with (accepted_events source ++ events).
    eapply follows_trans; [by apply i4_follows_hold|exact Hrest].
  - by apply Hother.
  - eapply follows_then; [by apply Hother|apply IH].
  - eapply follows_then; [by apply Hother|apply follows_fail].
Qed.

Lemma follows_accept_all limit s : follows s (accept_all limit s).2 (accept_all limit s).1.
Proof. apply follows_accept_loop. Qed.

(** ** Reading *)

Lemma net_read_used id (P := λ w : N * Z, used w.1) room (w : N * Z) : P (net_read (recv id) room w).1 = P w.
Proof.
  unfold P, net_read. destruct w as [net budget]. destruct (_ =? 0); [done|].
  pose proof (recv_used id (Z.min room budget) net) as Hu. by destruct (recv id _ net) as [net' []].
Qed.

Lemma follows_read_conn_tls id budget c s : follows s [] (read_conn_tls id budget c s).1.1.
Proof.
  unfold read_conn_tls. destruct (read_tls_reads (net_read (recv id)) (cn_tls c) (i4_net s, budget)) as (got & Hr & _).
  apply (reads_keep _ (λ w, used w.1 = used (i4_net s))) in Hr;
    [|intros room w Hw; by rewrite net_read_used|done].
  destruct (read_tls _ _ _) as [[tls [net budget']] r]. cbn [fst snd] in *.
  eapply follows_then; [apply (follows_update_view s id (with_tls tls)); by split|by apply follows_net].
Qed.

Lemma follows_process_conn id s : follows s [] (process_conn id s).1.
Proof.
  unfold process_conn. destruct (i4_conns s !! id); [|apply follows_refl]. destruct (process_new_packets _) as [tls ok].
  apply follows_update_view. by split.
Qed.

Lemma plaintext_loop_bound fuel (tls : T) plaintext :
  zlen plaintext ≤ REQUEST_LIMIT → zlen (plaintext_loop fuel tls plaintext).1.2 ≤ REQUEST_LIMIT.
Proof.
  revert tls plaintext. induction fuel as [|fuel IH]; intros tls plaintext Hp; [done|]. cbn [plaintext_loop].
  destruct (read_plaintext CHUNK tls) as [tls' [[|x chunk]|[]]]; try done. apply IH.
  rewrite zlen_app. pose proof (zlen_nonneg plaintext). unfold zlen in *. rewrite length_take. lia.
Qed.

Lemma follows_done_disconnect id s b :
  stage s id ≠ Stage.Requested →
  follows s match (done_disconnect id s b).2 with Step.Done events => events | Step.Continue => [] end
    (done_disconnect id s b).1.1.
Proof.
  intros Hs. unfold done_disconnect. pose proof (i4_follows_disconnect id s Hs). by destruct (disconnect id s).
Qed.

(** A request is fed on a connection that is reading. *)
Lemma follows_feed_request id c head body digest s b :
  i4_conns s !! id = Some c → cn_phase c = Phase.Reading →
  follows s match (feed_request id c head body digest s b).2 with Step.Done events => events | Step.Continue => [] end
    (feed_request id c head body digest s b).1.1.
Proof.
  intros Hc Hp Hw. unfold feed_request. rewrite (update_Some id _ s c Hc). set (c' := with_plaintext [] _).
  set (s1 := put_conns _ s). destruct (stage_request _ _ _ _) as [b' staged].
  set (s2 := match staged with Ok _ => s1 | Err _ => _ end). cbn [fst snd].
  assert (may_put s id c c') as Hm.
  { split; [|done|intros _ E; by rewrite Hp in E|intros _ E; by rewrite Hp in E].
    intros [O1 O2 O3 O4 O5 O6 O7]. split; cbn; try done.
    - intros Hg. rewrite (O5 Hg) in Hp. done.
    - intros _. apply O6. by rewrite Hp.
    - intros _. apply O7. by rewrite Hp. }
  assert (follows s1 [] s2) as Hf2 by (unfold s2; destruct staged; [apply follows_refl|apply follows_fail]).
  assert (wf s1) as Hw1 by (by eapply wf_put).
  assert (i4_conns s2 = i4_conns s1 ∧ i4_net s2 = i4_net s1) as [Ec En].
  { unfold s2. destruct staged; [done|]. unfold fail. by destruct (i4_failure s1). }
  destruct (follows_put_fed s2 (Some id)) as (Hw3 & _ & _); [|by apply Hf2|].
  { intros ? [= <-]. exists c'. rewrite Ec. cbn. by rewrite lookup_insert_eq. }
  split; [done|]. pose proof (ok_name _ _ (wf_conns _ Hw id c Hc)) as Hn. rewrite Hn.
  split; [by constructor|]. intros j. destruct (decide (j = id)) as [->|Hj].
  - rewrite life_self by done. rewrite (stage_held s id c Hc), Hp.
    rewrite (stage_held (put_fed (Some id) s2) id c') by (cbn; rewrite Ec; apply lookup_insert_eq). apply adv_requested.
  - rewrite (life_other id j) by done. rewrite (stage_other s (put_fed (Some id) s2) j); [apply adv_stays|..].
    + cbn. rewrite Ec. by apply lookup_insert_ne.
    + cbn. by rewrite En.
Qed.

Lemma after_handshake_put s id at_ c c' :
  after_handshake at_ c = Some c' → may_put s id c c' ∧ phase_stage (cn_phase c') = phase_stage (cn_phase c) ∧
  (phase_stage (cn_phase c) = Stage.Accepted → cn_phase c' = Phase.Handshaking ∨ cn_phase c' = Phase.Reading).
Proof.
  unfold after_handshake. destruct (decide (cn_phase c = Phase.Handshaking)) as [Hp|Hp].
  - rewrite (bool_decide_eq_true_2 _ Hp). destruct (is_handshaking (cn_tls c)) eqn:Eh; cbn [andb negb].
    { intros [= <-]. split; [by apply same_view_put|]. rewrite Hp. split; [done|by left]. }
    unfold certificate_digest. destruct (is_tls13 (cn_tls c)) eqn:Et; [|done].
    destruct (peer_leaf (cn_tls c)) as [leaf|] eqn:El; [|done]. cbn.
    intros [= <-]. rewrite Hp. split; [|split; [done|by right]].
    split; cbn; [|done|congruence|congruence]. intros [O1 O2 O3 O4 O5 O6 O7]. split; cbn; try done.
    + intros Hg. by rewrite (O5 Hg) in Hp.
    + intros _. apply O6. by rewrite Hp.
    + intros _. by exists (cn_tls c), leaf.
  - rewrite (bool_decide_eq_false_2 _ Hp). intros [= <-]. split; [by apply same_view_put|]. split; [done|].
    destruct (cn_phase c); try done. by right.
Qed.

Definition step_events (step : Step.t) : list PolicyEvent.t :=
  match step with Step.Done events => events | Step.Continue => [] end.

Lemma follows_after_packets id s b :
  stage s id ≠ Stage.Requested → follows s (step_events (after_packets id s b).2) (after_packets id s b).1.1.
Proof.
  intros Hs. apply follows_wf. intros Hw. unfold after_packets. pose proof (follows_now s) as Hn.
  destruct (now s) as [s1 at_] eqn:En. cbn [fst] in Hn.
  pose proof (follows_unrequested s s1 id Hw Hn Hs) as Hs1. eapply follows_then; [exact Hn|]. clear Hn.
  destruct (i4_conns s1 !! id) as [c|] eqn:Hc; [|apply follows_refl].
  destruct (after_handshake at_ c) as [c1|] eqn:Ea; [|by apply follows_done_disconnect].
  destruct (after_handshake_put s1 id at_ c c1 Ea) as (Hm & Hp & Hq).
  set (s2 := put_conns (<[id := c1]> (i4_conns s1)) s1).
  assert (follows s1 [] s2) as Hf2 by (by eapply follows_put).
  eapply follows_then; [exact Hf2|].
  assert (i4_conns s2 !! id = Some c1) as Hc1 by apply lookup_insert_eq.
  destruct (decide (cn_phase c1 = Phase.Reading)) as [Hr|Hr];
    [rewrite (bool_decide_eq_true_2 _ Hr); cbn [negb]|rewrite (bool_decide_eq_false_2 _ Hr); apply follows_refl].
  pose proof (plaintext_loop_bound (S (held_plaintext (cn_tls c1))) (cn_tls c1) (cn_plaintext c1)) as Hb.
  unfold read_held. destruct (plaintext_loop _ _ _) as [[tls plaintext] closed]. cbn [fst snd] in Hb.
  set (c2 := with_plaintext plaintext (with_tls tls c1)). set (s3 := put_conns (<[id := c2]> (i4_conns s2)) s2).
  assert (follows s2 [] s3) as Hf3.
  { apply (follows_put s2 id c1); [done| |done]. split; cbn; [|done|congruence|congruence].
    intros [O1 O2 O3 O4 O5 O6 O7]. split; cbn; try done. by apply Hb. }
  eapply follows_then; [exact Hf3|].
  assert (i4_conns s3 !! id = Some c2) as Hc2 by apply lookup_insert_eq.
  assert (stage s3 id ≠ Stage.Requested) as Hs3.
  { rewrite (stage_held s3 id c2 Hc2). change (cn_phase c2) with (cn_phase c1). by rewrite Hr. }
  destruct closed as [closed|]; [|by apply follows_done_disconnect].
  destruct (frame plaintext) as [| |head body digest].
  - destruct closed; [by apply follows_done_disconnect|apply follows_refl].
  - by apply follows_done_disconnect.
  - by apply follows_feed_request.
Qed.

Lemma follows_read_loop fuel id budget s b :
  stage s id ≠ Stage.Requested →
  follows s (default [] (read_loop fuel id budget s b).2) (read_loop fuel id budget s b).1.1.
Proof.
  revert budget s b. induction fuel as [|fuel IH]; intros budget s b Hs; [apply follows_refl|]. cbn [read_loop].
  apply follows_wf. intros Hw. destruct (i4_conns s !! id) as [c|]; [|apply follows_refl].
  pose proof (follows_read_conn_tls id budget c s) as H1. destruct (read_conn_tls id budget c s) as [[s1 budget'] r].
  cbn [fst snd] in H1. pose proof (follows_unrequested s s1 id Hw H1 Hs) as Hs1.
  assert (follows s (disconnect id s1).2 (disconnect id s1).1) as Hd
    by (eapply follows_then; [exact H1|by apply i4_follows_disconnect]).
  destruct r as [count|[]]; [|exact H1|by destruct (disconnect id s1)].
  destruct (count =? 0); [by destruct (disconnect id s1)|].
  eapply follows_then; [exact H1|]. clear Hd. apply follows_wf. intros Hw1.
  pose proof (follows_process_conn id s1) as H2. destruct (process_conn id s1) as [s2 ok]. cbn [fst] in H2.
  pose proof (follows_unrequested s1 s2 id Hw1 H2 Hs1) as Hs2. eapply follows_then; [exact H2|].
  apply follows_wf. intros Hw2. destruct ok; cbn [negb].
  - pose proof (follows_after_packets id s2 b Hs2) as H3. destruct (after_packets id s2 b) as [[s3 b'] [|events]]; [|exact H3].
    cbn [fst snd step_events] in H3. eapply follows_then; [exact H3|]. apply IH. by eapply follows_unrequested.
  - pose proof (follows_flush_conn id s2) as H3. destruct (flush_conn id s2) as [s3 ok2]. cbn [fst] in H3.
    assert (follows s3 [] (update id (with_notified true) s3)) as H4 by (apply follows_update_view; by split).
    pose proof (follows_then _ _ _ _ H3 H4) as H5. pose proof (follows_unrequested _ _ id Hw2 H5 Hs2) as Hs4.
    pose proof (i4_follows_disconnect id _ Hs4) as Hd. destruct (disconnect id _) as [s5 events]. cbn [fst snd default] in *.
    eapply follows_then; [exact H5|exact Hd].
Qed.

Lemma follows_read id s b :
  stage s id ≠ Stage.Requested → follows s (read id s b).2 (read id s b).1.1.
Proof.
  intros Hs. apply follows_wf. intros Hw. unfold read.
  pose proof (follows_read_loop (S (Z.to_nat READ_BUDGET)) id READ_BUDGET s b Hs) as H1.
  destruct (read_loop _ _ _ _ _) as [[s1 b1] [events|]]; cbn [fst snd default] in *; [done|].
  pose proof (follows_flush_conn id s1) as H2. destruct (flush_conn id s1) as [s2 ok]. cbn [fst] in H2.
  pose proof (follows_then _ _ _ _ H1 H2) as H3. destruct ok; [done|].
  pose proof (i4_follows_disconnect id s2 (follows_unrequested _ _ id Hw H3 Hs)) as Hd.
  destruct (disconnect id s2) as [s3 events]. by eapply follows_then.
Qed.

(** ** Relaying *)

Lemma relay_loop_spec fuel id (tls : T) response (net : N) :
  used (relay_loop fuel id tls response net).1.2 = used net ∧
  (response = [] → (relay_loop fuel id tls response net).1.1.2 = []).
Proof.
  revert tls response net. induction fuel as [|fuel IH]; intros tls [|x response] net; try done.
  set (l := x :: response). cbn [relay_loop]. fold l. split; [|done].
  destruct (write_plaintext l tls) as [tls1 [count|]]; [|done]. destruct (count =? 0); [done|].
  pose proof (writes_keep _ (λ n', used n' = used net) net _ (λ bytes n' Hn, eq_trans (net_write_used id bytes n') Hn)
                (write_tls_writes (net_write (send id)) tls1 net) eq_refl) as Hu.
  destruct (write_tls _ tls1 net) as [[tls2 net2] [?|[]]]; cbn [fst snd] in *; [|done..].
  rewrite <-Hu. apply IH.
Qed.

Lemma follows_notify id s : follows s [] (notify id s).1.
Proof.
  unfold notify. destruct (i4_conns s !! id); [|apply follows_refl]. destruct (_ && _); [|apply follows_refl].
  eapply follows_then; [|apply follows_flush_conn]. apply follows_update_view. by split.
Qed.

Lemma follows_finish_relay id s : follows s [] (finish_relay id s).
Proof.
  unfold finish_relay. destruct (i4_conns s !! id) as [c|] eqn:Hc; [|apply follows_refl].
  destruct (cn_notified c); [|apply follows_refl].
  destruct (decide (cn_response c = [])) as [Hr|Hr];
    [rewrite (bool_decide_eq_true_2 _ Hr)|rewrite (bool_decide_eq_false_2 _ Hr); apply follows_refl].
  destruct (wants_write (cn_tls c)); [apply follows_refl|].
  destruct (decide (cn_phase c = Phase.Relaying)) as [Hp|Hp];
    [rewrite (bool_decide_eq_true_2 _ Hp)|rewrite (bool_decide_eq_false_2 _ Hp); apply follows_refl]. cbn [andb negb].
  pose proof (shutdown_used id (i4_net s)) as Hu. destruct (shutdown_write id (i4_net s)) as [net shut]. cbn [fst] in Hu.
  eapply follows_then; [by apply (follows_net net)|]. destruct shut; [|apply i4_follows_close].
  rewrite (update_Some id _ _ c) by done. apply (follows_put _ id c); [done| |cbn; by rewrite Hp].
  split; cbn; [|done|congruence|congruence]. intros [O1 O2 O3 O4 O5 O6 O7]. split; cbn; try done.
  - rewrite O2, Hp. done.
  - intros _. apply O4. by rewrite Hp.
  - intros Hg. by rewrite (O5 Hg) in Hp.
  - intros _. apply O7. by rewrite Hp.
Qed.

Lemma follows_relay id s : follows s [] (relay id s).
Proof.
  apply follows_wf. intros Hw. unfold relay. destruct (i4_conns s !! id) as [c|] eqn:Hc; [|apply follows_refl].
  destruct (relay_loop_spec (length (cn_response c)) id (cn_tls c) (cn_response c) (i4_net s)) as [Hu He].
  destruct (relay_loop _ _ _ _ _) as [[[tls response] net] ok]. cbn [fst snd] in Hu, He.
  set (s1 := put_net net _). assert (follows s [] s1) as H1.
  { eapply follows_then; [|by apply (follows_net net)]. rewrite (update_Some id _ s c Hc).
    apply (follows_put s id c); [done| |done]. split; cbn; [|done|congruence|congruence].
    intros [O1 O2 O3 O4 O5 O6 O7]. split; cbn; try done. intros Hp. by apply He, O6. }
  eapply follows_then; [exact H1|]. destruct ok; cbn [negb]; [|apply i4_follows_close].
  pose proof (follows_flush_conn id s1) as H2. destruct (flush_conn id s1) as [s2 ok]. cbn [fst] in H2.
  eapply follows_then; [exact H2|]. destruct ok; cbn [negb]; [|apply i4_follows_close].
  pose proof (follows_notify id s2) as H3. destruct (notify id s2) as [s3 ok]. cbn [fst] in H3.
  eapply follows_then; [exact H3|]. destruct ok; cbn [negb]; [apply follows_finish_relay|apply i4_follows_close].
Qed.

Lemma linger_loop_used fuel id budget (net : N) : used (linger_loop fuel id budget net).1 = used net.
Proof.
  revert budget net. induction fuel as [|fuel IH]; intros budget net; [done|]. cbn [linger_loop].
  destruct (budget <=? 0); [done|]. pose proof (recv_used id (Z.min CHUNK budget) net) as Hu.
  destruct (recv id _ net) as [net' [bytes| | |]]; cbn [fst] in *; [|done..]. by rewrite IH.
Qed.

Lemma follows_linger id s : follows s [] (linger id s).
Proof.
  unfold linger. pose proof (linger_loop_used (S (Z.to_nat READ_BUDGET)) id READ_BUDGET (i4_net s)) as Hu.
  destruct (linger_loop _ _ _ _) as [net ended]. cbn [fst] in Hu.
  eapply follows_then; [by apply (follows_net net)|]. destruct ended; [apply i4_follows_close|apply follows_refl].
Qed.

Lemma follows_start_relay s b : follows s [] (start_relay s b).1.
Proof.
  apply follows_wf. intros Hw. unfold start_relay, take_response.
  destruct (i4_in_flight s) as [id|] eqn:Hi; [|apply follows_fail].
  set (s1 := put_in_flight None s). assert (follows s [] s1) as H1 by by apply follows_put_flight.
  assert (∀ s2, follows s1 [] s2 → follows s [] s2) as Hthen by (intros s2 H2; by eapply follows_then).
  destruct (i4_conns s1 !! id) as [c|] eqn:Hc; [|exact H1].
  assert (∀ reason, follows s [] (close id false (fail reason s1))) as Hfail
    by (intros reason; apply Hthen; eapply follows_then; [apply follows_fail|apply i4_follows_close]).
  destruct (ex_response b) as [response|]; [|apply Hfail].
  destruct (_ || _); [apply Hfail|]. destruct (cn_gone c) eqn:Hg; [apply Hthen, i4_follows_close|].
  destruct (render_response _ _) as [bytes|]; [|apply Hthen, i4_follows_close].
  pose proof (follows_now s1) as H2. destruct (now s1) as [s2 at_] eqn:En. cbn [fst] in *.
  assert (i4_conns s2 = i4_conns s1 ∧ i4_in_flight s2 = None) as [Ec Ei]
    by (unfold now in En; destruct (net_monotonic _); by injection En as <- <-).
  apply Hthen. eapply follows_then; [exact H2|]. eapply follows_then; [|apply follows_relay].
  assert (cn_phase c = Phase.InFlight) as Hp by (by eapply wf_flight).
  rewrite (update_Some id _ s2 c) by congruence. apply (follows_put s2 id c); [congruence| |cbn; by rewrite Hp].
  split; cbn; [|done|congruence|congruence]. intros [O1 O2 O3 O4 O5 O6 O7]. split; cbn; try done.
  - intros _. apply O4. by rewrite Hp.
  - intros Hg'. congruence.
  - intros _. apply O7. by rewrite Hp.
Qed.

(** ** The port's methods *)

Lemma follows_close_due due s :
  wf s → NoDup due.*1 →
  (∀ id phase, (id, phase) ∈ due → phase_stage phase = Stage.Accepted → stage s id ≠ Stage.Requested) →
  follows s (close_due due s).2 (close_due due s).1.
Proof.
  revert s. induction due as [|[id phase] due IH]; intros s Hw Hn Hd; [apply follows_refl|]. cbn [close_due].
  set (r := match phase with Phase.Handshaking | Phase.Reading => _ | _ => _ end).
  assert (follows s r.2 r.1 ∧ ∀ j, j ≠ id → stage r.1 j = Stage.Requested → stage s j = Stage.Requested) as [H1 H2].
  { assert (∀ s', follows s [] s' → ∀ j, j ≠ id → stage s' j = Stage.Requested → stage s j = Stage.Requested) as Hj.
    { intros s' Hf j _ Hr. destruct (Hf Hw) as (_ & _ & Ha). specialize (Ha j). rewrite Hr in Ha. by inversion Ha. }
    assert (follows s [] (close id true s) ∧ follows s [] (close id false s)) as [Hc1 Hc2] by (split; apply i4_follows_close).
    assert (phase_stage phase = Stage.Accepted → follows s (disconnect id s).2 (disconnect id s).1) as Hdis.
    { intros Hp. apply i4_follows_disconnect. by apply (Hd id phase); [left|]. }
    unfold r. destruct phase; (split; [first [by apply Hdis|exact Hc2]|]); intros j; apply Hj; done. }
  cbn [list_fmap fmap fst] in Hn. apply NoDup_cons in Hn as [Hnot Hn].
  destruct (H1 Hw) as (Hw1 & _ & _). destruct r as [s1 events]. cbn [fst snd] in *.
  assert (follows s1 (close_due due s1).2 (close_due due s1).1) as H3.
  { apply IH; [done|done|]. intros j ph Hin Hp Hr. apply (Hd j ph); [by right|done|]. apply H2; [|done].
    intros ->. apply Hnot. apply list_elem_of_fmap. by exists (id, ph). }
  destruct (close_due due s1) as [s2 more]. cbn [fst snd] in *. by eapply follows_trans.
Qed.

Lemma due_conns_spec at_ s :
  NoDup (due_conns at_ s).*1 ∧
  ∀ id phase, (id, phase) ∈ due_conns at_ s → ∃ c d, i4_conns s !! id = Some c ∧ cn_phase c = phase ∧
    cn_deadline c = Some d ∧ d ≤ at_.
Proof.
  unfold due_conns. pose proof (btree_keys_NoDup (i4_conns s)) as Hn. split.
  - induction (btree_keys (i4_conns s)) as [|id ids IH]; [constructor|]. apply NoDup_cons in Hn as [Hnot Hn].
    specialize (IH Hn). csimpl. destruct (i4_conns s !! id) as [c|]; csimpl; [|done].
    destruct (cn_deadline c) as [d|]; csimpl; [|done]. destruct (d <=? at_); [|done]. csimpl. constructor; [|done].
    intros ([k ph] & -> & Hk)%list_elem_of_fmap. apply list_elem_of_omap in Hk as (k' & Hin & Hk).
    destruct (i4_conns s !! k') as [c'|]; [|done]. csimpl in Hk. destruct (cn_deadline c') as [d'|]; [|done].
    csimpl in Hk. destruct (d' <=? at_); [|done]. injection Hk as -> _. done.
  - intros id phase (k & Hk & He)%list_elem_of_omap. destruct (i4_conns s !! k) as [c|] eqn:Hc; [|done].
    csimpl in He. destruct (cn_deadline c) as [d|] eqn:Ed; [|done]. csimpl in He.
    destruct (Z.leb_spec d at_); [|done]. injection He as <- <-. eauto 10.
Qed.

Lemma follows_due at_ s b : follows s (I04_due at_ (s, b)).2 (I04_due at_ (s, b)).1.1.
Proof.
  apply follows_wf. intros Hw. unfold I04_due. destruct (due_conns_spec at_ s) as [Hn Hd].
  assert (follows s (close_due (due_conns at_ s) s).2 (close_due (due_conns at_ s) s).1) as Hf.
  { apply follows_close_due; [done|done|]. intros id phase Hin Hp. destruct (Hd id phase Hin) as (c & d & Hc & <- & _).
    by rewrite (stage_held s id c Hc), Hp. }
  by destruct (close_due _ _).
Qed.

Lemma follows_mark_gone id c s :
  i4_conns s !! id = Some c → cn_phase c = Phase.InFlight → follows s [] (mark_gone id s).
Proof.
  intros Hc Hp. unfold mark_gone. eapply follows_then; [apply (follows_close_source id s)|].
  rewrite (update_Some id _ _ c) by done. apply (follows_put _ id c); [done| |done].
  split; cbn; [|done|done|done]. intros [O1 O2 O3 O4 O5 O6 O7]. by split.
Qed.

Lemma flush_conn_phase id s j c' :
  i4_conns (flush_conn id s).1 !! j = Some c' → ∃ c, i4_conns s !! j = Some c ∧ cn_phase c' = cn_phase c.
Proof.
  unfold flush_conn. destruct (i4_conns s !! id) as [c|] eqn:Hc; [|cbn; eauto].
  destruct (flush _ _ _) as [[tls net] ok]. cbn. intros Hj. destruct (decide (j = id)) as [->|Hn].
  - rewrite lookup_alter_eq, Hc in Hj. injection Hj as <-. eauto.
  - rewrite lookup_alter_ne in Hj by done. eauto.
Qed.

Lemma follows_ready value readiness s b :
  follows s (I04_ready value readiness (s, b)).2 (I04_ready value readiness (s, b)).1.1.
Proof.
  apply follows_wf. intros Hw. unfold I04_ready. destruct (value =? LISTENER).
  { pose proof (follows_accept_all (Some ACCEPTS_PER_READY) s) as Hf. by destruct (accept_all _ s). }
  destruct (i4_conns s !! value) as [c|] eqn:Hc; [|apply follows_refl].
  destruct (cn_gone c) eqn:Hg; [apply follows_refl|].
  assert (phase_stage (cn_phase c) = Stage.Accepted → follows s (read value s b).2 (read value s b).1.1) as Hread.
  { intros Hp. apply follows_read. by rewrite (stage_held s value c Hc), Hp. }
  destruct (cn_phase c) eqn:Hp; [by apply Hread|by apply Hread|apply follows_refl| | |]; cbn [fst snd].
  - destruct (_ || _); [by eapply follows_mark_gone|]. destruct (rd_writable readiness); [|apply follows_refl].
    pose proof (follows_flush_conn value s) as Hf. pose proof (flush_conn_phase value s value) as Hph.
    destruct (flush_conn value s) as [s1 ok]. cbn [fst snd] in *. eapply follows_then; [exact Hf|].
    destruct ok; [apply follows_refl|]. destruct (i4_conns s1 !! value) as [c1|] eqn:Hc1.
    + destruct (Hph c1 eq_refl) as (c0 & Hc0 & E). apply (follows_mark_gone value c1); congruence.
    + unfold mark_gone. eapply follows_then; [apply follows_close_source|]. apply follows_same; [|done..].
      by apply update_None.
  - destruct (rd_error readiness); [apply i4_follows_close|apply follows_relay].
  - apply follows_linger.
Qed.

Lemma follows_apply output s b : follows s [] (I04_apply output (s, b)).1.
Proof.
  unfold I04_apply. destruct (po_kind output) as [base| | | | | | | | |]; try apply follows_refl.
  destruct (o_kind base) as [| | | | |action_id|reason|classification [] aborted| | | |]; try apply follows_refl.
  - apply follows_wf. intros Hw. unfold apply_forward. destruct (i4_fed s) as [id|] eqn:Hf; [|apply follows_fail].
    set (s1 := put_fed None s). assert (follows s [] s1) as H1 by by apply follows_put_fed.
    eapply follows_then; [exact H1|]. destruct (i4_conns s1 !! id) as [c|] eqn:Hc; [|apply follows_fail].
    destruct (confirm_request _ _ _) as [b' confirmed]. cbn [fst].
    assert (cn_phase c = Phase.Fed) as Hp by (by eapply wf_fed).
    rewrite (update_Some id _ s1 c Hc). set (c' := with_phase Phase.InFlight c).
    set (s2 := put_conns _ s1). assert (follows s1 [] s2) as H2.
    { apply (follows_put s1 id c); [done| |cbn; by rewrite Hp]. split; cbn; [|done|congruence|done].
      intros [O1 O2 O3 O4 O5 O6 O7]. split; cbn; try done.
      - by rewrite O2, Hp.
      - intros _. apply O4. by rewrite Hp.
      - intros _. apply O6. by rewrite Hp.
      - intros _. apply O7. by rewrite Hp. }
    eapply follows_then; [exact H2|].
    assert (follows s2 [] (put_in_flight (Some id) s2)) as H3.
    { apply follows_put_flight. intros ? [= <-]. exists c'. split; [apply lookup_insert_eq|done]. }
    eapply follows_then; [exact H3|]. destruct confirmed; [apply follows_refl|apply follows_fail].
  - unfold apply_close. cbn [fst]. destruct (i4_fed s) as [id|]; [|apply follows_refl].
    eapply follows_then; [by apply (follows_put_fed s None)|apply i4_follows_close].
  - apply follows_start_relay.
  - unfold apply_unrelayed. destruct (i4_in_flight s) as [id|]; cbn [fst]; [|apply follows_fail].
    eapply follows_then; [by apply (follows_put_flight s None)|apply i4_follows_close].
Qed.

Lemma follows_sync_conn view id s : follows s [] (sync_conn view id s).
Proof.
  unfold sync_conn. destruct (i4_conns s !! id) as [c|]; [|apply follows_refl].
  destruct (cn_confirmed c); cbn [negb].
  - destruct (gv_connection_open _ _); [apply follows_refl|]. destruct (cn_phase c); try apply follows_refl; apply i4_follows_close.
  - destruct (gv_connection_open _ _); [|apply follows_refl]. apply follows_update_view. by split.
Qed.

Lemma follows_sync view s b : follows s [] (I04_sync view (s, b)).1.
Proof.
  unfold I04_sync. cbn [fst]. generalize (btree_keys (i4_conns s)). intros ids. revert s.
  induction ids as [|id ids IH]; intros s; [apply follows_refl|]. cbn [fold_left].
  eapply follows_then; [apply follows_sync_conn|apply IH].
Qed.

Lemma follows_register {O} `{PortPoll O} s (poll : O) : follows s [] (I04_register s poll).1.1.
Proof.
  assert (∀ ids s poll, follows s [] (register_conns ids s poll).1.1) as Hr.
  { intros ids. induction ids as [|id ids IH]; intros s0 p0; [apply follows_refl|]. cbn [register_conns].
    destruct (i4_conns s0 !! id) as [c|]; [|apply IH]. destruct (cn_gone c); [apply IH|].
    destruct (match cn_registered c with Some _ => _ | None => _ end) as [p1 [?|e]]; [|apply follows_refl].
    eapply follows_then; [|apply IH]. apply follows_update_view. by split. }
  unfold I04_register. destruct (existsb _ _); [apply follows_refl|].
  destruct (i4_listener_registered s); [apply Hr|]. destruct (Registry_add _ _ _ _ _) as [p1 [?|e]]; [|apply follows_refl].
  eapply follows_then; [|apply Hr]. by apply follows_same.
Qed.

Lemma i4_follows_drain s b : follows s (I04_drain_backlog (s, b)).2 (I04_drain_backlog (s, b)).1.1.
Proof. unfold I04_drain_backlog. pose proof (follows_accept_all None s) as Hf. by destruct (accept_all None s). Qed.
End I04Proofs.
