(* ===== verification/I04Safety.v ===== *)
(** * The I04 port over all its runs

    A run of the port is any sequence of calls of its methods, with the board changed by the other port in between.
    The theorems: the life of a connection, the port's bounds, what a fed request is, and that nothing overdue is
    kept. *)

From S2P Require Import Prelude Slices Render Types Journal Observation Config Policy Gate PolicyGate Http1 Sha256.
From S2P Require Import Substrate SubstrateProofs Tls I04 I04Proofs.
Section Safety.
Context {N C T : Type} {HN : StreamNet N} {HT : Tls T} {HC : TlsServer C T} {LN : StreamNetLaws N} {LT : TlsLaws T}.
Abbreviation server := (I04Server N C T).
Implicit Types (s : server) (c : Connection T) (b : Exchange).

(** One call of a method, with the events it returned. *)
Inductive port_call : server * Exchange → list PolicyEvent.t → server * Exchange → Prop :=
| call_ready value readiness sb : port_call sb (I04_ready value readiness sb).2 (I04_ready value readiness sb).1
| call_due at_ sb : port_call sb (I04_due at_ sb).2 (I04_due at_ sb).1
| call_drain sb : port_call sb (I04_drain_backlog sb).2 (I04_drain_backlog sb).1
| call_apply output sb : port_call sb [] (I04_apply output sb)
| call_sync view sb : port_call sb [] (I04_sync view sb)
| call_register {O} `{PortPoll O} s b (poll : O) : port_call (s, b) [] ((I04_register s poll).1.1, b)
| other_port s b b' : port_call (s, b) [] (s, b').

Inductive port_run : list PolicyEvent.t → server * Exchange → Prop :=
| run_new net config b : port_run [] (I04Server_new net config, b)
| run_call events sb more sb' : port_run events sb → port_call sb more sb' → port_run (events ++ more) sb'.

Lemma call_follows sb events sb' : port_call sb events sb' → follows sb.1 events sb'.1.
Proof.
  destruct 1 as [value readiness [s b]|at_ [s b]|[s b]|output [s b]|view [s b]|O HO s b poll|s b b']; cbn [fst].
  - apply follows_ready.
  - apply follows_due.
  - apply i4_follows_drain.
  - apply follows_apply.
  - apply follows_sync.
  - apply follows_register.
  - apply follows_refl.
Qed.

Lemma new_wf net config : wf (I04Server_new net config : server).
Proof. split; cbn; try done. intros id [?|?]; done. Qed.

Lemma run_follows events sb :
  port_run events sb → wf sb.1 ∧ Forall (λ e, is_Some (event_conn e)) events ∧
  ∃ net, ∀ id, advance id (if bool_decide (id ∈ used (net : N)) then Stage.Gone else Stage.Fresh) (life id events) (stage sb.1 id).
Proof.
  induction 1 as [net config b|events sb more sb' _ (Hw & Hf & net & Ha) Hc].
  - split; [apply new_wf|]. split; [constructor|]. exists net. intros id. apply adv_stays.
  - destruct (call_follows _ _ _ Hc Hw) as (Hw' & Hf' & Ha'). split; [done|]. split; [by apply Forall_app|].
    exists net. intros id. rewrite life_app. by eapply advance_app.
Qed.

(** [C25] Each connection lives once: whatever the clients send and the network does, over any run of the port's
    methods, the events about one connection are none, or [Backlog] then [Accept], or these and then exactly one
    [Request] or exactly one [Disconnect].  So a connection makes at most one request, after its accept, and a
    connection that made one is never reported as disconnected. *)
Theorem connection_lives_once events sb id :
  port_run events sb →
  life id events = [] ∨ life id events = accepted_events id ∨
  ∃ event, closing id event ∧ life id events = accepted_events id ++ [event].
Proof.
  intros (_ & _ & net & Ha)%run_follows. specialize (Ha id).
  destruct (bool_decide (id ∈ used net)); inversion Ha; subst; eauto 6.
Qed.

(** [C27] The port is bounded: over any run it holds at most 16 open connections, no connection's plaintext exceeds one
    head and one body at their limits, plaintext is held only while a request is read and response bytes only while
    one is relayed, and every connection but those that wait for the gate has a deadline. *)
Theorem port_is_bounded events sb :
  port_run events sb →
  live sb.1 ≤ CONNECTION_CAP ∧
  ∀ id c, i4_conns sb.1 !! id = Some c →
    zlen (cn_plaintext c) ≤ REQUEST_LIMIT ∧
    (cn_plaintext c ≠ [] → cn_phase c = Phase.Reading) ∧ (cn_response c ≠ [] → cn_phase c = Phase.Relaying) ∧
    (cn_deadline c = None → cn_phase c = Phase.Fed ∨ cn_phase c = Phase.InFlight).
Proof.
  intros (Hw & _)%run_follows. split; [apply Hw|]. intros id c Hc. destruct (wf_conns _ Hw id c Hc) as [_ O2 O3 O4 _ O6 _].
  split; [done|]. split; [|split].
  - intros Hp. destruct (decide (cn_phase c = Phase.Reading)); [done|]. by destruct Hp; apply O4.
  - intros Hp. destruct (decide (cn_phase c = Phase.Relaying)); [done|]. by destruct Hp; apply O6.
  - intros Hd. rewrite Hd in O2. destruct (cn_phase c); cbn in O2; eauto;
      (destruct O2 as [_ O2]; by destruct (O2 eq_refl)).
Qed.

(** ** A fed request *)

(** What a [Request] event of connection [id] was made of. *)
Definition received_request (id : Z) s' b' (event : PolicyEvent.t) : Prop :=
  ∃ certificate head digest (tls : T) leaf plaintext body,
    event = PolicyEvent.Base (Event.Request (conn_name id) certificate head digest) ∧
    is_handshaking tls = false ∧ is_tls13 tls = true ∧ peer_leaf tls = Some leaf ∧ certificate = prefixed leaf ∧
    zlen plaintext ≤ REQUEST_LIMIT ∧ frame plaintext = HttpFrame.Request head body digest ∧
    i4_fed s' = Some id ∧
    (i4_failure s' = None → ex_request b' = Some (mkStagedRequest (conn_name id) head body None)).

Definition is_request (event : PolicyEvent.t) : bool :=
  match event with PolicyEvent.Base (Event.Request _ _ _ _) => true | _ => false end.

(** Events without a request, or one that was received. *)
Definition requests_received (id : Z) s' b' (events : list PolicyEvent.t) : Prop :=
  Forall (λ e, is_request e = false) events ∨ ∃ event, events = [event] ∧ received_request id s' b' event.

Lemma disconnect_no_request id s : Forall (λ e, is_request e = false) (disconnect id s).2.
Proof.
  unfold disconnect. cbn [snd]. destruct (i4_conns s !! id) as [c|]; [|constructor]. destruct (cn_confirmed c); by repeat constructor.
Qed.

Lemma done_disconnect_received id s b :
  requests_received id (done_disconnect id s b).1.1 (done_disconnect id s b).1.2 (step_events (done_disconnect id s b).2).
Proof.
  left. unfold done_disconnect. pose proof (disconnect_no_request id s). by destruct (disconnect id s).
Qed.

Lemma fail_fails reason s : i4_failure (fail reason s) ≠ None.
Proof. unfold fail. destruct (i4_failure s) eqn:E; [by rewrite E|done]. Qed.

Lemma after_packets_received id s b :
  wf s → requests_received id (after_packets id s b).1.1 (after_packets id s b).1.2 (step_events (after_packets id s b).2).
Proof.
  intros Hw. unfold after_packets. pose proof (follows_now s Hw) as (Hw1 & _). destruct (now s) as [s1 at_]. cbn [fst] in Hw1.
  destruct (i4_conns s1 !! id) as [c|] eqn:Hc; [|left; constructor].
  destruct (after_handshake at_ c) as [c1|] eqn:Ea; [|apply done_disconnect_received].
  destruct (after_handshake_put s1 id at_ c c1 Ea) as (Hm & _ & _).
  pose proof (mp_ok _ _ _ _ Hm (wf_conns _ Hw1 id c Hc)) as Hok.
  destruct (decide (cn_phase c1 = Phase.Reading)) as [Hr|Hr];
    [rewrite (bool_decide_eq_true_2 _ Hr); cbn [negb]|rewrite (bool_decide_eq_false_2 _ Hr); left; constructor].
  pose proof (plaintext_loop_bound (S (held_plaintext (cn_tls c1))) (cn_tls c1) (cn_plaintext c1) (ok_plaintext _ _ Hok)) as Hb.
  unfold read_held. destruct (plaintext_loop _ _ _) as [[tls plaintext] closed]. cbn [fst snd] in Hb.
  destruct closed as [closed|]; [|apply done_disconnect_received].
  destruct (frame plaintext) as [| |head body digest] eqn:Ef;
    [destruct closed; [apply done_disconnect_received|left; constructor]|apply done_disconnect_received|].
  right. unfold feed_request. cbn [cn_name with_plaintext with_tls cn_certificate].
  destruct (ok_certificate _ _ Hok ltac:(by rewrite Hr)) as (tls0 & leaf & H1 & H2 & H3 & H4).
  rewrite (ok_name _ _ Hok), H4. cbn [default].
  destruct (stage_request (conn_name id) head body b) as [b' staged] eqn:Es. cbn [fst snd step_events].
  eexists. split; [reflexivity|]. exists (prefixed leaf), head, digest, tls0, leaf, plaintext, body.
  repeat (split; [done|]). intros Hfail. unfold stage_request in Es. destruct (ex_request b).
  - injection Es as <- <-. by apply fail_fails in Hfail.
  - by injection Es as <- <-.
Qed.

Lemma read_loop_received fuel id budget s b :
  wf s → stage s id ≠ Stage.Requested →
  requests_received id (read_loop fuel id budget s b).1.1 (read_loop fuel id budget s b).1.2
    (default [] (read_loop fuel id budget s b).2).
Proof.
  revert budget s b. induction fuel as [|fuel IH]; intros budget s b Hw Hs; [left; constructor|]. cbn [read_loop].
  destruct (i4_conns s !! id) as [c|]; [|left; constructor].
  pose proof (follows_read_conn_tls id budget c s) as H1. destruct (read_conn_tls id budget c s) as [[s1 budget'] r].
  cbn [fst] in H1. pose proof (follows_unrequested s s1 id Hw H1 Hs) as Hs1. destruct (H1 Hw) as (Hw1 & _).
  pose proof (disconnect_no_request id s1) as Hd.
  destruct r as [count|[]]; [|left; constructor|by destruct (disconnect id s1); left].
  destruct (count =? 0); [by destruct (disconnect id s1); left|].
  pose proof (follows_process_conn id s1) as H2. destruct (process_conn id s1) as [s2 ok]. cbn [fst] in H2.
  pose proof (follows_unrequested s1 s2 id Hw1 H2 Hs1) as Hs2. destruct (H2 Hw1) as (Hw2 & _).
  destruct ok; cbn [negb].
  - pose proof (after_packets_received id s2 b Hw2) as H3. pose proof (follows_after_packets id s2 b Hs2) as H4.
    destruct (after_packets id s2 b) as [[s3 b'] [|events]]; [|exact H3]. cbn [fst snd step_events] in *.
    apply IH; [by apply H4|by eapply follows_unrequested].
  - destruct (flush_conn id s2) as [s3 ok2]. pose proof (disconnect_no_request id (update id (with_notified true) s3)) as Hd2.
    destruct (disconnect id _) as [s5 events]. by left.
Qed.

(** What a fed request is: a call that returns a [Request] returns nothing else; its connection is the one that was
    ready, its TLS 1.3 handshake had finished with the client certificate whose digest the event carries, its head and
    body digest are those of the request that frames first in the bytes received, at most one head and one body at
    their limits, and the same head and body are staged on the board, unless the port failed, which stops the loop
    before the event is fed. *)
Theorem fed_request_was_received events value readiness s b event :
  port_run events (s, b) → event ∈ (I04_ready value readiness (s, b)).2 → is_request event = true →
  let '((s', b'), fed) := I04_ready value readiness (s, b) in fed = [event] ∧ received_request value s' b' event.
Proof.
  intros (Hw & _)%run_follows. cbn [fst] in Hw.
  assert (requests_received value (I04_ready value readiness (s, b)).1.1 (I04_ready value readiness (s, b)).1.2
            (I04_ready value readiness (s, b)).2) as Hr.
  { unfold I04_ready. destruct (value =? LISTENER).
    { left. assert (∀ fuel limit calls s, Forall (λ e, is_request e = false) (accept_loop fuel limit calls s).2) as Ha.
      { intros fuel limit. induction fuel as [|fuel IH]; intros calls s0; cbn [accept_loop];
          (destruct (match limit with Some _ => _ | None => false end); [constructor|]);
          (destruct (bool_decide (limit = None) && _); [constructor|]); [constructor|].
        destruct (accept (i4_net s0)) as [net []]; [|constructor|apply IH|constructor].
        destruct (CONNECTION_CAP <=? _); [apply IH|]. destruct (server_connection _) as [config [tls|]]; [|apply IH].
        destruct (now _) as [s1 at_]. match goal with |- context [accept_loop fuel limit ?k ?x] => pose proof (IH k x) as Hx;
          destruct (accept_loop fuel limit k x) end. by repeat constructor. }
      unfold accept_all. pose proof (Ha (Z.to_nat ACCEPTS_PER_READY) (Some ACCEPTS_PER_READY) 0 s) as Hx.
      by destruct (accept_loop _ _ _ _). }
    destruct (i4_conns s !! value) as [c|] eqn:Hc; [|left; constructor]. destruct (cn_gone c); [left; constructor|].
    assert (phase_stage (cn_phase c) = Stage.Accepted →
      requests_received value (read value s b).1.1 (read value s b).1.2 (read value s b).2) as Hread.
    { intros Hp. assert (stage s value ≠ Stage.Requested) as Hs by (rewrite (stage_held s value c Hc), Hp; done).
      unfold read. pose proof (read_loop_received (S (Z.to_nat READ_BUDGET)) value READ_BUDGET s b Hw Hs) as Hl.
      destruct (read_loop _ _ _ _ _) as [[s1 b1] [more|]]; cbn [fst snd default] in *; [done|].
      destruct (flush_conn value s1) as [s2 []]; [left; constructor|]. pose proof (disconnect_no_request value s2).
      destruct (disconnect value s2). by left. }
    destruct (cn_phase c); try (by apply Hread); cbn [fst snd]; left; try constructor.
    destruct (_ || _); [constructor|]. destruct (rd_writable readiness); [|constructor].
    destruct (flush_conn value s). constructor. }
  destruct (I04_ready value readiness (s, b)) as [[s' b'] fed]. cbn [fst snd] in Hr. intros Hin Hreq.
  destruct Hr as [Hr|(e & -> & Hr)].
  - rewrite Forall_forall in Hr. rewrite (Hr event Hin) in Hreq. done.
  - by apply list_elem_of_singleton in Hin as ->.
Qed.

(** ** The loops end *)

Lemma plaintext_loop_fuel fuel fuel' (tls : T) plaintext :
  (held_plaintext tls < fuel)%nat → (held_plaintext tls < fuel')%nat →
  plaintext_loop fuel tls plaintext = plaintext_loop fuel' tls plaintext.
Proof.
  revert fuel' tls plaintext. induction fuel as [|fuel IH]; intros [|fuel'] tls plaintext H1 H2; [lia..|]. cbn [plaintext_loop].
  pose proof (read_plaintext_held CHUNK tls) as Hh. destruct (read_plaintext CHUNK tls) as [tls' [[|x chunk]|[]]]; try done.
  destruct (Hh (x :: chunk) eq_refl ltac:(done)) as [_ Hl]. cbn [fst] in Hl. apply IH; lia.
Qed.

Lemma read_conn_tls_budget id budget c s count :
  0 ≤ budget → (read_conn_tls id budget c s).2 = Ok count → count ≠ 0 → 0 ≤ (read_conn_tls id budget c s).1.2 < budget.
Proof.
  intros Hb. unfold read_conn_tls. pose proof (read_tls_budget (recv id) (recv_data id) (cn_tls c) (i4_net s) budget count Hb) as Hr.
  by destruct (read_tls _ _ _) as [[tls [net budget']] r].
Qed.

(** One more turn than bytes in the budget is enough for the read loop. *)
Lemma read_loop_fuel fuel fuel' id budget s b :
  0 ≤ budget → (Z.to_nat budget < fuel)%nat → (Z.to_nat budget < fuel')%nat →
  read_loop fuel id budget s b = read_loop fuel' id budget s b.
Proof.
  revert fuel' budget s b. induction fuel as [|fuel IH]; intros [|fuel'] budget s b Hb H1 H2; [lia..|]. cbn [read_loop].
  destruct (i4_conns s !! id) as [c|]; [|done]. pose proof (read_conn_tls_budget id budget c s) as Hl.
  destruct (read_conn_tls id budget c s) as [[s1 budget'] [count|[]]]; try done. cbn [fst snd] in Hl.
  destruct (Z.eqb_spec count 0); [done|]. specialize (Hl count Hb eq_refl ltac:(done)).
  destruct (process_conn id s1) as [s2 ok]. destruct (negb ok); [done|].
  destruct (after_packets id s2 b) as [[s3 b'] [|events]]; [|done]. apply IH; lia.
Qed.

Lemma linger_loop_fuel fuel fuel' id budget (net : N) :
  (Z.to_nat budget < fuel)%nat → (Z.to_nat budget < fuel')%nat →
  linger_loop fuel id budget net = linger_loop fuel' id budget net.
Proof.
  revert fuel' budget net. induction fuel as [|fuel IH]; intros [|fuel'] budget net H1 H2; [lia..|]. cbn [linger_loop].
  destruct (Z.leb_spec budget 0); [done|]. pose proof (recv_data id (Z.min CHUNK budget) net) as Hd.
  destruct (recv id _ net) as [net' [bytes| | |]]; try done. specialize (Hd bytes eq_refl). apply IH; lia.
Qed.

Lemma accept_loop_fuel fuel fuel' limit calls s :
  let bound := match limit with Some limit => limit | None => DRAIN_LIMIT + 1 end in
  (Z.to_nat (bound - calls) ≤ fuel)%nat → (Z.to_nat (bound - calls) ≤ fuel')%nat →
  accept_loop fuel limit calls s = accept_loop fuel' limit calls s.
Proof.
  cbn zeta. revert fuel' calls s. induction fuel as [|fuel IH]; intros [|fuel'] calls s H1 H2; cbn [accept_loop].
  - done.
  - destruct limit as [limit|]; cbn in *.
    + by rewrite (proj2 (Z.leb_le limit calls)) by lia.
    + by rewrite (proj2 (Z.ltb_lt DRAIN_LIMIT calls)) by lia.
  - destruct limit as [limit|]; cbn in *.
    + by rewrite (proj2 (Z.leb_le limit calls)) by lia.
    + by rewrite (proj2 (Z.ltb_lt DRAIN_LIMIT calls)) by lia.
  - destruct (match limit with Some _ => _ | None => false end) eqn:E1; [done|].
    destruct (bool_decide (limit = None) && _) eqn:E2; [done|].
    assert (∀ s, accept_loop fuel limit (calls + 1) s = accept_loop fuel' limit (calls + 1) s) as Hn.
    { intros s0. destruct limit as [limit|]; cbn in *.
      - apply Z.leb_gt in E1. apply IH; lia.
      - apply Z.ltb_ge in E2. apply IH; lia. }
    destruct (accept (i4_net s)) as [net [source| | |]]; rewrite ?Hn; try done.
    destruct (CONNECTION_CAP <=? _); [done|]. destruct (server_connection _) as [config [tls|]]; [|done].
    destruct (now _) as [s1 at_]. by rewrite Hn.
Qed.

(** ** Deadlines *)

Lemma flush_conn_only id s j : j ≠ id → i4_conns (flush_conn id s).1 !! j = i4_conns s !! j.
Proof.
  intros Hj. unfold flush_conn. destruct (i4_conns s !! id); [|done]. destruct (flush _ _ _) as [[tls net] ok].
  cbn. by apply lookup_alter_ne.
Qed.
Lemma close_only id notify s j : j ≠ id → i4_conns (close id notify s) !! j = i4_conns s !! j.
Proof.
  intros Hj. unfold close. set (s1 := match i4_conns s !! id with Some _ => _ | None => s end).
  assert (i4_conns s1 !! j = i4_conns s !! j) as H1.
  { unfold s1. destruct (i4_conns s !! id) as [c|]; [|done]. destruct (_ && _); [|done].
    rewrite flush_conn_only by done. cbn. by apply lookup_alter_ne. }
  set (s2 := put_conns (delete id (i4_conns s1)) s1).
  set (s3 := match i4_conns s1 !! id with Some c => _ | None => s2 end).
  assert (i4_conns s3 = delete id (i4_conns s1)) as H3.
  { unfold s3. destruct (i4_conns s1 !! id) as [c|]; [|done]. by destruct (cn_gone c). }
  destruct (bool_decide _); cbn; rewrite H3, lookup_delete_ne by done; exact H1.
Qed.

Lemma close_due_conns due s j :
  i4_conns (close_due due s).1 !! j = (if bool_decide (j ∈ due.*1) then None else i4_conns s !! j).
Proof.
  revert s. induction due as [|[id phase] due IH]; intros s; [done|]. cbn [close_due].
  set (r := match phase with Phase.Handshaking | Phase.Reading => _ | _ => _ end).
  assert (∃ notify, r.1 = close id notify s) as [notify Hr] by (unfold r, disconnect; destruct phase; cbn; eauto).
  destruct r as [s1 events]. cbn [fst] in Hr. subst s1. specialize (IH (close id notify s)).
  destruct (close_due due _) as [s2 more]. cbn [fst] in *. rewrite IH. csimpl.
  destruct (decide (j = id)) as [->|Hj].
  - rewrite (bool_decide_eq_true_2 (id ∈ id :: _)) by left. rewrite close_removes. by destruct (bool_decide _).
  - rewrite close_only by done. destruct (decide (j ∈ due.*1)).
    + by rewrite !bool_decide_eq_true_2 by (by try right).
    + rewrite !bool_decide_eq_false_2; [done|by intros [|]%elem_of_cons|done].
Qed.

Lemma disconnect_life id j s :
  wf s → life j (disconnect id s).2 = (if bool_decide (j = id) then (disconnect id s).2 else []).
Proof.
  intros Hw. unfold disconnect. cbn [snd]. destruct (i4_conns s !! id) as [c|] eqn:Hc; [|by destruct (bool_decide _)].
  destruct (cn_confirmed c); [|by destruct (bool_decide _)]. pose proof (ok_name _ _ (wf_conns _ Hw id c Hc)) as Hn.
  destruct (decide (j = id)) as [->|Hj].
  - rewrite bool_decide_eq_true_2 by done. apply life_self. cbn. by rewrite Hn.
  - rewrite bool_decide_eq_false_2 by done. apply (life_other id j); [|done]. cbn. by rewrite Hn.
Qed.

Lemma close_due_life due s j :
  wf s → NoDup due.*1 →
  life j (close_due due s).2 =
  match List.find (λ e, bool_decide (e.1 = j)) due with
  | Some (_, Phase.Handshaking) | Some (_, Phase.Reading) => (disconnect j s).2
  | _ => []
  end.
Proof.
  revert s. induction due as [|[id phase] due IH]; intros s Hw Hn; [done|]. cbn [close_due].
  set (r := match phase with Phase.Handshaking | Phase.Reading => _ | _ => _ end).
  assert (∃ notify, r.1 = close id notify s) as [notify Hr] by (unfold r, disconnect; destruct phase; cbn; eauto).
  csimpl in Hn. apply NoDup_cons in Hn as [Hnot Hn].
  assert (wf r.1) as Hw1 by (rewrite Hr; by apply i4_follows_close).
  assert (life j r.2 = if bool_decide (id = j) then
    match phase with Phase.Handshaking | Phase.Reading => (disconnect j s).2 | _ => [] end else []) as Hl.
  { destruct (decide (id = j)) as [->|Hj].
    - rewrite bool_decide_eq_true_2 by done. unfold r. destruct phase; try done; rewrite disconnect_life by done;
        by rewrite bool_decide_eq_true_2.
    - rewrite bool_decide_eq_false_2 by done. unfold r. destruct phase; try done; rewrite disconnect_life by done;
        by rewrite bool_decide_eq_false_2. }
  assert (j ≠ id → (disconnect j r.1).2 = (disconnect j s).2) as Hd.
  { intros Hj. unfold disconnect. cbn [snd]. by rewrite Hr, close_only. }
  specialize (IH r.1 Hw1 Hn). destruct r as [s1 events]. cbn [fst snd] in *.
  destruct (close_due due s1) as [s2 more]. cbn [fst snd] in *. rewrite life_app, Hl, IH. cbn [List.find fst].
  destruct (decide (id = j)) as [->|Hj].
  - rewrite bool_decide_eq_true_2 by done. assert (List.find (λ e, bool_decide (e.1 = j)) due = None) as ->.
    { destruct (List.find _ due) as [[k ph]|] eqn:Ef; [|done]. exfalso. apply find_some in Ef as [Hin He].
      apply bool_decide_eq_true in He. cbn in He. subst k. apply Hnot, list_elem_of_fmap. exists (j, ph).
      by rewrite list_elem_of_In. }
    rewrite app_nil_r. by destruct phase.
  - rewrite bool_decide_eq_false_2 by done. cbn [app]. destruct (List.find _ due) as [[k []]|]; try done; by apply Hd.
Qed.

Lemma find_due at_ s j :
  List.find (λ e, bool_decide (e.1 = j)) (due_conns at_ s) =
  (let* c := i4_conns s !! j in let* d := cn_deadline c in if d <=? at_ then Some (j, cn_phase c) else None).
Proof.
  destruct (due_conns_spec at_ s) as [Hn Hd]. destruct (List.find _ _) as [[k ph]|] eqn:Ef.
  - apply find_some in Ef as [Hin%list_elem_of_In He%bool_decide_eq_true]. cbn in He. subst k.
    destruct (Hd j ph Hin) as (c & d & Hc & <- & Ed & Hle). rewrite Hc. csimpl. rewrite Ed. csimpl.
    by rewrite (proj2 (Z.leb_le d at_)).
  - destruct (i4_conns s !! j) as [c|] eqn:Hc; csimpl; [|done]. destruct (cn_deadline c) as [d|] eqn:Ed; csimpl; [|done].
    destruct (Z.leb_spec d at_) as [Hle|]; [|done]. exfalso.
    assert ((j, cn_phase c) ∈ due_conns at_ s) as Hin%list_elem_of_In.
    { apply list_elem_of_omap. exists j. split; [apply elem_of_btree_keys; eauto|]. rewrite Hc. csimpl. rewrite Ed. csimpl.
      by rewrite (proj2 (Z.leb_le d at_)). }
    pose proof (find_none _ _ Ef _ Hin) as Hb. cbn in Hb. by rewrite bool_decide_eq_true_2 in Hb.
Qed.

(** A deadline that fell due ends its connection: after [due] no connection's deadline has passed, the others are
    untouched, and exactly the overdue connections that the gate holds and that made no request are reported, once, as
    disconnected. *)
Theorem due_leaves_nothing_due events at_ s b :
  port_run events (s, b) →
  let '((s', b'), fed) := I04_due at_ (s, b) in
  b' = b ∧
  (∀ id, i4_conns s' !! id =
     match i4_conns s !! id with
     | Some c => match cn_deadline c with Some d => if d <=? at_ then None else Some c | None => Some c end
     | None => None
     end) ∧
  (∀ id, life id fed = [PolicyEvent.Base (Event.Disconnect (conn_name id))] ∨ life id fed = []) ∧
  (∀ id, life id fed ≠ [] ↔
     ∃ c d, i4_conns s !! id = Some c ∧ cn_deadline c = Some d ∧ d ≤ at_ ∧ cn_confirmed c = true ∧
       (cn_phase c = Phase.Handshaking ∨ cn_phase c = Phase.Reading)).
Proof.
  intros (Hw & _)%run_follows. cbn [fst] in Hw. unfold I04_due. destruct (due_conns_spec at_ s) as [Hn Hd].
  pose proof (close_due_conns (due_conns at_ s) s) as Hc. pose proof (λ j, close_due_life (due_conns at_ s) s j Hw Hn) as Hl.
  destruct (close_due _ s) as [s' fed]. cbn [fst snd] in Hc, Hl. split; [done|]. split; [|split].
  - intros id. rewrite Hc. destruct (i4_conns s !! id) as [c|] eqn:Hid; [|by destruct (bool_decide _)].
    destruct (decide (id ∈ (due_conns at_ s).*1)) as [Hin|Hin].
    + rewrite bool_decide_eq_true_2 by done. apply list_elem_of_fmap in Hin as ([k ph] & -> & Hin).
      destruct (Hd _ _ Hin) as (c' & d & Hc' & _ & Ed & Hle). cbn in *. simplify_eq. rewrite Ed.
      by rewrite (proj2 (Z.leb_le d at_)).
    + rewrite bool_decide_eq_false_2 by done. destruct (cn_deadline c) as [d|] eqn:Ed; [|done].
      destruct (Z.leb_spec d at_) as [Hle|]; [|done]. exfalso. apply Hin, list_elem_of_fmap. exists (id, cn_phase c).
      split; [done|]. apply list_elem_of_omap. exists id. split; [apply elem_of_btree_keys; eauto|]. rewrite Hid. csimpl.
      rewrite Ed. csimpl. by rewrite (proj2 (Z.leb_le d at_)).
  - intros id. rewrite Hl, find_due. unfold disconnect. cbn [snd]. destruct (i4_conns s !! id) as [c|] eqn:Hid; csimpl; [|by right].
    destruct (cn_deadline c) as [d|]; csimpl; [|by right]. destruct (d <=? at_); [|by right].
    rewrite (ok_name _ _ (wf_conns _ Hw id c Hid)). destruct (cn_phase c), (cn_confirmed c); auto.
  - intros id. rewrite Hl, find_due. unfold disconnect. cbn [snd]. split.
    + destruct (i4_conns s !! id) as [c|] eqn:Hid; csimpl; [|done]. destruct (cn_deadline c) as [d|] eqn:Ed; csimpl; [|done].
      destruct (Z.leb_spec d at_); [|done]. intros Hne. exists c, d. destruct (cn_phase c), (cn_confirmed c); try done; auto 10.
    + intros (c & d & Hid & Ed & Hle & Hcf & Hp). rewrite Hid. csimpl. rewrite Ed. csimpl.
      rewrite (proj2 (Z.leb_le d at_)) by done. rewrite Hcf. by destruct Hp as [-> | ->].
Qed.

(** ** The laws the loop relies on, in every state *)

Lemma event_conn_port events : Forall (λ e, is_Some (event_conn e)) events → Forall (λ e, port_event e = true) events.
Proof. intros Hf. eapply Forall_impl; [exact Hf|]. by intros [[]| | | | | |] [? He]. Qed.

Lemma disconnect_events id s : Forall (λ e, is_Some (event_conn e)) (disconnect id s).2.
Proof.
  unfold disconnect. cbn [snd]. destruct (i4_conns s !! id) as [c|]; [|constructor]. destruct (cn_confirmed c); by repeat constructor.
Qed.

Lemma accept_events fuel limit calls s : Forall (λ e, is_Some (event_conn e)) (accept_loop fuel limit calls s).2.
Proof.
  revert calls s. induction fuel as [|fuel IH]; intros calls s; cbn [accept_loop];
    (destruct (match limit with Some _ => _ | None => false end); [constructor|]);
    (destruct (bool_decide (limit = None) && _); [constructor|]); [constructor|].
  destruct (accept (i4_net s)) as [net []]; [|constructor|apply IH|constructor].
  destruct (CONNECTION_CAP <=? _); [apply IH|]. destruct (server_connection _) as [config [tls|]]; [|apply IH].
  destruct (now _) as [s1 at_]. match goal with |- context [accept_loop fuel limit ?k ?x] => pose proof (IH k x) as Hx;
    destruct (accept_loop fuel limit k x) end. by repeat constructor.
Qed.

Lemma done_disconnect_events id s b : Forall (λ e, is_Some (event_conn e)) (step_events (done_disconnect id s b).2).
Proof. unfold done_disconnect. pose proof (disconnect_events id s). by destruct (disconnect id s). Qed.

Lemma after_packets_events id s b : Forall (λ e, is_Some (event_conn e)) (step_events (after_packets id s b).2).
Proof.
  unfold after_packets. destruct (now s) as [s1 at_]. destruct (i4_conns s1 !! id); [|constructor].
  destruct (after_handshake _ _) as [c1|]; [|apply done_disconnect_events]. destruct (negb _); [constructor|].
  destruct (read_held _ _) as [[tls plaintext] [closed|]]; [|apply done_disconnect_events].
  destruct (frame plaintext); [destruct closed; [apply done_disconnect_events|constructor]|apply done_disconnect_events|].
  unfold feed_request. destruct (stage_request _ _ _ _). by repeat constructor.
Qed.

Lemma read_loop_events fuel id budget s b :
  Forall (λ e, is_Some (event_conn e)) (default [] (read_loop fuel id budget s b).2).
Proof.
  revert budget s b. induction fuel as [|fuel IH]; intros budget s b; [constructor|]. cbn [read_loop].
  destruct (i4_conns s !! id); [|constructor]. destruct (read_conn_tls id budget _ s) as [[s1 budget'] r].
  pose proof (disconnect_events id s1) as Hd.
  destruct r as [count|[]]; [|constructor|by destruct (disconnect id s1)].
  destruct (count =? 0); [by destruct (disconnect id s1)|]. destruct (process_conn id s1) as [s2 []]; cbn [negb].
  - pose proof (after_packets_events id s2 b) as H3. destruct (after_packets id s2 b) as [[s3 b'] [|events]]; [apply IH|done].
  - destruct (flush_conn id s2) as [s3 ok]. pose proof (disconnect_events id (update id (with_notified true) s3)).
    by destruct (disconnect id _).
Qed.

#[export] Instance I04Server_laws : PortLaws Exchange server.
Proof.
  split.
  - intros at_ [s b]. apply event_conn_port. cbn. unfold I04_due. assert (∀ due s, Forall (λ e, is_Some (event_conn e)) (close_due due s).2) as Hc.
    { intros due. induction due as [|[id phase] due IH]; intros s0; [constructor|]. cbn [close_due].
      pose proof (disconnect_events id s0) as Hd. set (r := match phase with Phase.Handshaking | Phase.Reading => _ | _ => _ end).
      assert (Forall (λ e, is_Some (event_conn e)) r.2) as Hr by (unfold r; destruct phase; try done; constructor).
      destruct r as [s1 events]. specialize (IH s1). destruct (close_due due s1). by apply Forall_app. }
    specialize (Hc (due_conns at_ s) s). by destruct (close_due _ s).
  - intros value readiness [s b]. apply event_conn_port. cbn. unfold I04_ready. destruct (value =? LISTENER).
    { pose proof (accept_events (Z.to_nat ACCEPTS_PER_READY) (Some ACCEPTS_PER_READY) 0 s) as Ha.
      unfold accept_all. by destruct (accept_loop _ _ _ _). }
    destruct (i4_conns s !! value) as [c|]; [|constructor]. destruct (cn_gone c); [constructor|].
    assert (Forall (λ e, is_Some (event_conn e)) (read value s b).2) as Hread.
    { unfold read. pose proof (read_loop_events (S (Z.to_nat READ_BUDGET)) value READ_BUDGET s b) as Hl.
      destruct (read_loop _ _ _ _ _) as [[s1 b1] [more|]]; [done|]. destruct (flush_conn value s1) as [s2 []]; [constructor|].
      pose proof (disconnect_events value s2). by destruct (disconnect value s2). }
    destruct (cn_phase c); try done; try constructor. destruct (_ || _); [constructor|].
    destruct (rd_writable readiness); [|constructor]. destruct (flush_conn value s). constructor.
Qed.
#[export] Instance I04Server_i04_laws : I04PortLaws Exchange server.
Proof.
  split; [exact I04Server_laws|]. intros [s b]. apply event_conn_port. cbn. unfold I04_drain_backlog, accept_all.
  pose proof (accept_events (Z.to_nat (DRAIN_LIMIT + 1)) None 0 s) as Ha. by destruct (accept_loop _ _ _ _).
Qed.
End Safety.
