(* ===== verification/I04Relay.v ===== *)
(** * What a client of the I04 port is sent

    A TLS connection's transcript of the application bytes it was given ([TlsTranscript]) turns the relay into a
    safety property: a connection is sent nothing, or the rendering of the one response that was staged for it when
    the gate relayed the outcome. *)

From S2P Require Import Prelude Slices Render Types Journal Observation Config Policy Gate PolicyGate Http1 Sha256.
From S2P Require Import Substrate SubstrateProofs Tls I04 I04Proofs I04Safety.
From S2P Require Import Protocol ProtocolProofs GateSteps GateSafety PolicyProtocol PolicySteps PolicySafety.
Class ServerTranscript (C T : Type) `{TlsServer C T, TlsTranscript T} := {
  given_new (config : C) (tls : T) : (server_connection config).2 = Some tls → given tls = [];
}.

Section Relay.
Context {N C T : Type} {HN : StreamNet N} {HT : Tls T} {HC : TlsServer C T} {LN : StreamNetLaws N} {LT : TlsLaws T}.
Context {GT : TlsTranscript T} {GC : ServerTranscript C T}.
Abbreviation server := (I04Server N C T).
Implicit Types (s : server) (c : Connection T) (b : Exchange).

(** What the connection was given to send, and what it will be given next. *)
Definition outgoing c : list Z := given (cn_tls c) ++ cn_response c.
Definition before_relay (phase : Phase.t) : bool :=
  match phase with Phase.Relaying | Phase.Lingering => false | _ => true end.

Definition kept s (id : Z) c' : Prop :=
  outgoing c' = [] ∨
  ∃ c, i4_conns s !! id = Some c ∧ outgoing c' = outgoing c ∧
    (before_relay (cn_phase c') = true → before_relay (cn_phase c) = true).
Definition keeps s s' : Prop := ∀ id c', i4_conns s' !! id = Some c' → kept s id c'.

Lemma keeps_conns s s' : i4_conns s' = i4_conns s → keeps s s'.
Proof. intros Hc id c' Hc'. right. exists c'. rewrite <-Hc. eauto. Qed.
Lemma kept_refl s : keeps s s.
Proof. by apply keeps_conns. Qed.
Lemma kept_trans s1 s2 s3 : keeps s1 s2 → keeps s2 s3 → keeps s1 s3.
Proof.
  intros H1 H2 id c' Hc'. destruct (H2 id c' Hc') as [|(c & Hc & He & Hb)]; [by left|].
  destruct (H1 id c Hc) as [|(c0 & Hc0 & He0 & Hb0)]; [left; congruence|]. right. exists c0. split; [done|].
  split; [congruence|auto].
Qed.
Lemma keeps_net net s : keeps s (put_net net s).
Proof. by apply keeps_conns. Qed.
Lemma keeps_fail reason s : keeps s (fail reason s).
Proof. apply keeps_conns. unfold fail. by destruct (i4_failure s). Qed.

Lemma keeps_put s id c c' :
  i4_conns s !! id = Some c → outgoing c' = outgoing c →
  (before_relay (cn_phase c') = true → before_relay (cn_phase c) = true) →
  keeps s (put_conns (<[id := c']> (i4_conns s)) s).
Proof.
  intros Hc He Hb j d Hjd. cbn in Hjd. apply lookup_insert_Some in Hjd as [[<- <-]|[Hj Hd]]; [right; exists c; auto|]. right. exists d. auto.
Qed.
Lemma keeps_update s id f :
  (∀ c, outgoing (f c) = outgoing c ∧ cn_phase (f c) = cn_phase c) → keeps s (update id f s).
Proof.
  intros Hf. destruct (i4_conns s !! id) as [c|] eqn:Hc.
  - rewrite (update_Some id f s c Hc). destruct (Hf c) as [H1 H2]. apply (keeps_put s id c); [done|done|]. by rewrite H2.
  - apply keeps_conns. by apply update_None.
Qed.
Lemma keeps_tls s id (tls : T) c :
  i4_conns s !! id = Some c → given tls = given (cn_tls c) → keeps s (update id (with_tls tls) s).
Proof.
  intros Hc Hg. rewrite (update_Some id _ s c Hc). apply (keeps_put s id c); [done| |done]. unfold outgoing. cbn. by rewrite Hg.
Qed.
Lemma keeps_remove s id : keeps s (put_conns (delete id (i4_conns s)) s).
Proof. intros j d Hjd. cbn in Hjd. apply lookup_delete_Some in Hjd as [Hj Hd]. right. exists d. auto. Qed.

Lemma keeps_flush_conn id s : keeps s (flush_conn id s).1.
Proof.
  unfold flush_conn. destruct (i4_conns s !! id) as [c|] eqn:Hc; [|apply kept_refl].
  pose proof (given_flush (net_write (send id)) (cn_tls c) (i4_net s)) as Hg. destruct (flush _ _ _) as [[tls net] ok].
  cbn [fst] in *. eapply kept_trans; [by apply (keeps_tls s id tls c)|apply keeps_net].
Qed.

Lemma keeps_close id notify s : keeps s (close id notify s).
Proof.
  unfold close. set (s1 := match i4_conns s !! id with Some _ => _ | None => s end).
  assert (keeps s s1) as H1.
  { unfold s1. destruct (i4_conns s !! id) as [c|]; [|apply kept_refl]. destruct (_ && _); [|apply kept_refl].
    eapply kept_trans; [|apply keeps_flush_conn]. apply keeps_update. intros c0. unfold outgoing. cbn. by rewrite given_close_notify. }
  eapply kept_trans; [exact H1|]. eapply kept_trans; [apply (keeps_remove s1 id)|].
  set (s2 := put_conns (delete id (i4_conns s1)) s1).
  set (s3 := match i4_conns s1 !! id with Some c => _ | None => s2 end).
  apply keeps_conns. assert (i4_conns s3 = i4_conns s2) as H3.
  { unfold s3. destruct (i4_conns s1 !! id) as [c|]; [|done]. by destruct (cn_gone c). }
  by destruct (bool_decide _).
Qed.
Lemma keeps_disconnect id s : keeps s (disconnect id s).1.
Proof. apply keeps_close. Qed.

Lemma keeps_accept_loop fuel limit calls s : keeps s (accept_loop fuel limit calls s).1.
Proof.
  revert calls s. induction fuel as [|fuel IH]; intros calls s; cbn [accept_loop];
    (destruct (match limit with Some _ => _ | None => false end); [apply kept_refl|]);
    (destruct (bool_decide (limit = None) && _); [apply keeps_fail|]); [apply kept_refl|].
  destruct (accept (i4_net s)) as [net accepted].
  assert (∀ s', i4_conns s' = i4_conns s → keeps s (accept_loop fuel limit (calls + 1) s').1) as Hnext.
  { intros s' Hs. eapply kept_trans; [by apply keeps_conns|apply IH]. }
  destruct accepted as [source| | |errno]; [|by apply keeps_conns|by apply Hnext|eapply kept_trans; [apply (keeps_net net)|apply keeps_fail]].
  destruct (CONNECTION_CAP <=? live _); [by apply Hnext|].
  pose proof (given_new (i4_config (put_net net s))) as Hg.
  destruct (server_connection _) as [config [tls|]]; [|by apply Hnext]. specialize (Hg tls eq_refl).
  assert (∀ s', i4_conns s' = i4_conns s → keeps s (now s').1) as Hnow.
  { intros s' Hs. apply keeps_conns. unfold now. by destruct (net_monotonic _). }
  specialize (Hnow (put_config config (put_net net s)) eq_refl). destruct (now _) as [s1 at_]. cbn [fst] in Hnow.
  set (s2 := put_conns _ s1). assert (keeps s s2) as H2.
  { intros j d Hjd. cbn in Hjd. apply lookup_insert_Some in Hjd as [[<- <-]|[Hj Hd]]; [left|by apply Hnow]. unfold outgoing. cbn. by rewrite Hg. }
  pose proof (IH (calls + 1) s2) as H3. destruct (accept_loop fuel limit _ s2) as [s3 events]. cbn [fst] in *.
  by eapply kept_trans.
Qed.

Lemma keeps_now s : keeps s (now s).1.
Proof. apply keeps_conns. unfold now. by destruct (net_monotonic _). Qed.

(** *** Reading *)

Lemma keeps_read_conn_tls id budget c s : i4_conns s !! id = Some c → keeps s (read_conn_tls id budget c s).1.1.
Proof.
  intros Hc. unfold read_conn_tls. pose proof (given_read_tls (net_read (recv id)) (cn_tls c) (i4_net s, budget)) as Hg.
  destruct (read_tls _ _ _) as [[tls [net budget']] r]. cbn [fst] in *.
  eapply kept_trans; [by apply (keeps_tls s id tls c)|apply keeps_net].
Qed.
Lemma keeps_process_conn id s : keeps s (process_conn id s).1.
Proof.
  unfold process_conn. destruct (i4_conns s !! id) as [c|] eqn:Hc; [|apply kept_refl].
  pose proof (given_process (cn_tls c)) as Hg. destruct (process_new_packets _) as [tls ok]. by apply (keeps_tls s id tls c).
Qed.
Lemma plaintext_loop_given fuel (tls : T) plaintext : given (plaintext_loop fuel tls plaintext).1.1 = given tls.
Proof.
  revert tls plaintext. induction fuel as [|fuel IH]; intros tls plaintext; [done|]. cbn [plaintext_loop].
  pose proof (given_read_plaintext CHUNK tls) as Hg. destruct (read_plaintext CHUNK tls) as [tls' [[|x chunk]|[]]]; try done.
  by rewrite IH.
Qed.

Lemma keeps_done_disconnect id s b : keeps s (done_disconnect id s b).1.1.
Proof. unfold done_disconnect. pose proof (keeps_disconnect id s). by destruct (disconnect id s). Qed.

Lemma keeps_after_packets id s b : keeps s (after_packets id s b).1.1.
Proof.
  unfold after_packets. pose proof (keeps_now s) as Hn. destruct (now s) as [s1 at_]. cbn [fst] in Hn.
  eapply kept_trans; [exact Hn|]. clear Hn. destruct (i4_conns s1 !! id) as [c|] eqn:Hc; [|apply kept_refl].
  destruct (after_handshake at_ c) as [c1|] eqn:Ea; [|apply keeps_done_disconnect].
  assert (outgoing c1 = outgoing c ∧ before_relay (cn_phase c1) = before_relay (cn_phase c)) as [Ho Hb].
  { unfold after_handshake in Ea. destruct (decide (cn_phase c = Phase.Handshaking)) as [Hp|Hp].
    - rewrite (bool_decide_eq_true_2 _ Hp) in Ea. rewrite Hp. destruct (is_handshaking _); cbn [andb negb] in Ea.
      + injection Ea as <-. by rewrite Hp.
      + destruct (_ || _); [done|]. by injection Ea as <-.
    - rewrite (bool_decide_eq_false_2 _ Hp) in Ea. by injection Ea as <-. }
  set (s2 := put_conns (<[id := c1]> (i4_conns s1)) s1). assert (keeps s1 s2) as H2 by (apply (keeps_put s1 id c); [done|done|by rewrite Hb]).
  eapply kept_trans; [exact H2|]. destruct (negb _) eqn:Er; [apply kept_refl|].
  apply negb_false_iff, bool_decide_eq_true in Er.
  assert (i4_conns s2 !! id = Some c1) as Hc1 by apply lookup_insert_eq.
  pose proof (plaintext_loop_given (S (held_plaintext (cn_tls c1))) (cn_tls c1) (cn_plaintext c1)) as Hg.
  unfold read_held. destruct (plaintext_loop _ _ _) as [[tls plaintext] closed]. cbn [fst snd] in Hg.
  set (c2 := with_plaintext plaintext (with_tls tls c1)). set (s3 := put_conns (<[id := c2]> (i4_conns s2)) s2).
  assert (keeps s2 s3) as H3 by (apply (keeps_put s2 id c1); [done|unfold outgoing; cbn; by rewrite Hg|done]).
  eapply kept_trans; [exact H3|]. assert (i4_conns s3 !! id = Some c2) as Hc2 by apply lookup_insert_eq.
  destruct closed as [closed|]; [|apply keeps_done_disconnect].
  destruct (frame plaintext); [destruct closed; [apply keeps_done_disconnect|apply kept_refl]|apply keeps_done_disconnect|].
  unfold feed_request. destruct (stage_request _ _ _ _) as [b' staged]. cbn [fst].
  eapply kept_trans; [|by apply keeps_conns]. rewrite (update_Some id _ s3 c2 Hc2). set (s4 := put_conns _ s3).
  assert (keeps s3 s4) as H4 by (apply (keeps_put s3 id c2); [done|done|cbn; by rewrite Er]).
  destruct staged; [exact H4|]. eapply kept_trans; [exact H4|apply keeps_fail].
Qed.

Lemma keeps_read id s b : keeps s (read id s b).1.1.
Proof.
  assert (∀ fuel budget s b, keeps s (read_loop fuel id budget s b).1.1) as Hloop.
  { intros fuel. induction fuel as [|fuel IH]; intros budget s0 b0; [apply kept_refl|]. cbn [read_loop].
    destruct (i4_conns s0 !! id) as [c|] eqn:Hc; [|apply kept_refl].
    pose proof (keeps_read_conn_tls id budget c s0 Hc) as H1. destruct (read_conn_tls id budget c s0) as [[s1 budget'] r]. cbn [fst] in H1.
    eapply kept_trans; [exact H1|]. pose proof (keeps_disconnect id s1) as Hd.
    destruct r as [count|[]]; [|apply kept_refl|by destruct (disconnect id s1)].
    destruct (count =? 0); [by destruct (disconnect id s1)|].
    pose proof (keeps_process_conn id s1) as H2. destruct (process_conn id s1) as [s2 ok]. eapply kept_trans; [exact H2|].
    destruct ok; cbn [negb fst].
    - pose proof (keeps_after_packets id s2 b0) as H3. destruct (after_packets id s2 b0) as [[s3 b'] [|events]]; [|exact H3].
      eapply kept_trans; [exact H3|apply IH].
    - pose proof (keeps_flush_conn id s2) as H3. destruct (flush_conn id s2) as [s3 ok2]. cbn [fst] in H3.
      eapply kept_trans; [exact H3|]. eapply kept_trans; [apply (keeps_update s3 id (with_notified true)); by intros c0|].
      pose proof (keeps_disconnect id (update id (with_notified true) s3)). by destruct (disconnect id _). }
  unfold read. specialize (Hloop (S (Z.to_nat READ_BUDGET)) READ_BUDGET s b).
  destruct (read_loop _ _ _ _ _) as [[s1 b1] [events|]]; [done|]. cbn [fst] in Hloop. eapply kept_trans; [exact Hloop|].
  pose proof (keeps_flush_conn id s1) as H2. destruct (flush_conn id s1) as [s2 ok]. cbn [fst] in H2.
  eapply kept_trans; [exact H2|]. destruct ok; [apply kept_refl|].
  pose proof (keeps_disconnect id s2). by destruct (disconnect id s2).
Qed.

(** *** Relaying *)

Lemma relay_loop_S fuel id (tls : T) l (net : N) :
  l ≠ [] →
  relay_loop (S fuel) id tls l net =
  let '(tls, taken) := write_plaintext l tls in
  match taken with
  | Err _ => (tls, l, net, true)
  | Ok count =>
      if count =? 0 then (tls, l, net, true)
      else
        let response := drop (Z.to_nat (Z.min count (zlen l))) l in
        let '(tls, net, written) := write_tls (net_write (send id)) tls net in
        match written with
        | Ok _ => relay_loop fuel id tls response net
        | Err IoError.WouldBlock => (tls, response, net, true)
        | Err IoError.Other => (tls, response, net, false)
        end
  end.
Proof. by destruct l. Qed.

Lemma relay_loop_given fuel id (tls : T) response (net : N) :
  let r := relay_loop fuel id tls response net in given r.1.1.1 ++ r.1.1.2 = given tls ++ response.
Proof.
  cbn zeta. revert tls response net. induction fuel as [|fuel IH]; intros tls [|x response] net; try done.
  assert (x :: response ≠ []) as Hne by done. revert Hne. generalize (x :: response). intros l Hne.
  rewrite relay_loop_S by done.
  pose proof (given_write_plaintext l tls) as Hg. pose proof (write_plaintext_count l tls) as Hn.
  destruct (write_plaintext l tls) as [tls1 [count|]]; cbn [fst snd] in *; [|by rewrite Hg, app_nil_r].
  destruct (Z.eqb_spec count 0) as [->|]; [cbn [fst snd]; rewrite Hg; cbn; by rewrite app_nil_r|].
  specialize (Hn count eq_refl). rewrite Z.min_l by lia.
  assert (given tls1 ++ drop (Z.to_nat count) l = given tls ++ l) as Hl.
  { rewrite Hg, <-app_assoc. f_equal. apply take_drop. }
  pose proof (given_write_tls (net_write (send id)) tls1 net) as Hw.
  destruct (write_tls _ tls1 net) as [[tls2 net2] [?|[]]]; cbn [fst snd] in *; [|by rewrite Hw..].
  rewrite IH, Hw. exact Hl.
Qed.

Lemma keeps_notify id s : keeps s (notify id s).1.
Proof.
  unfold notify. destruct (i4_conns s !! id) as [c|]; [|apply kept_refl]. destruct (_ && _); [|apply kept_refl].
  eapply kept_trans; [|apply keeps_flush_conn]. apply keeps_update. intros c0. unfold outgoing. cbn. by rewrite given_close_notify.
Qed.

Lemma keeps_finish_relay id s : keeps s (finish_relay id s).
Proof.
  unfold finish_relay. destruct (i4_conns s !! id) as [c|] eqn:Hc; [|apply kept_refl].
  destruct (_ && _); [|apply kept_refl]. destruct (shutdown_write id (i4_net s)) as [net shut].
  eapply kept_trans; [apply (keeps_net net)|]. destruct shut; [|apply keeps_close].
  rewrite (update_Some id _ _ c) by done. by apply (keeps_put _ id c).
Qed.

Lemma keeps_relay id s : keeps s (relay id s).
Proof.
  unfold relay. destruct (i4_conns s !! id) as [c|] eqn:Hc; [|apply kept_refl].
  pose proof (relay_loop_given (length (cn_response c)) id (cn_tls c) (cn_response c) (i4_net s)) as Hg. cbn zeta in Hg.
  destruct (relay_loop _ _ _ _ _) as [[[tls response] net] ok]. cbn [fst snd] in Hg.
  set (s1 := put_net net _). assert (keeps s s1) as H1.
  { eapply kept_trans; [|apply (keeps_net net)]. rewrite (update_Some id _ s c Hc). by apply (keeps_put s id c). }
  eapply kept_trans; [exact H1|]. destruct ok; cbn [negb]; [|apply keeps_close].
  pose proof (keeps_flush_conn id s1) as H2. destruct (flush_conn id s1) as [s2 ok]. cbn [fst] in H2.
  eapply kept_trans; [exact H2|]. destruct ok; cbn [negb]; [|apply keeps_close].
  pose proof (keeps_notify id s2) as H3. destruct (notify id s2) as [s3 ok]. cbn [fst] in H3.
  eapply kept_trans; [exact H3|]. destruct ok; cbn [negb]; [apply keeps_finish_relay|apply keeps_close].
Qed.

Lemma keeps_linger id s : keeps s (linger id s).
Proof.
  unfold linger. destruct (linger_loop _ _ _ _) as [net ended]. eapply kept_trans; [apply (keeps_net net)|].
  destruct ended; [apply keeps_close|apply kept_refl].
Qed.

(** The relay of the staged response to connection [id], the one in flight. *)
Definition relayed s b (id : Z) c' : Prop :=
  ∃ c response bytes,
    i4_in_flight s = Some id ∧ i4_conns s !! id = Some c ∧ ex_response b = Some response ∧
    sp_conn response = cn_name c ∧ prefixed (sp_body response) = sp_body_digest response ∧
    render_response (sp_status response) (sp_body response) = Ok bytes ∧
    outgoing c' = given (cn_tls c) ++ bytes ∧ before_relay (cn_phase c') = false.

Lemma start_relay_sends s b id c' :
  i4_conns (start_relay s b).1 !! id = Some c' → kept s id c' ∨ relayed s b id c'.
Proof.
  unfold start_relay, take_response. destruct (i4_in_flight s) as [id0|] eqn:Hi;
    [|intros Hc; left; by apply (keeps_fail "an upstream outcome with no connection in flight" s)].
  set (s1 := put_in_flight None s). assert (keeps s s1) as H1 by by apply keeps_conns.
  assert (∀ s2, keeps s1 s2 → i4_conns s2 !! id = Some c' → kept s id c' ∨ relayed s b id c') as Hthen.
  { intros s2 H2 Hc. left. by apply (kept_trans _ _ _ H1 H2). }
  destruct (i4_conns s1 !! id0) as [c|] eqn:Hc; [|apply Hthen, kept_refl].
  assert (∀ reason, keeps s1 (close id0 false (fail reason s1))) as Hfail
    by (intros reason; eapply kept_trans; [apply keeps_fail|apply keeps_close]).
  destruct (ex_response b) as [response|] eqn:Hr; [|apply Hthen, Hfail].
  destruct (_ || _) eqn:Ematch; [apply Hthen, Hfail|]. destruct (cn_gone c); [apply Hthen, keeps_close|].
  destruct (render_response _ _) as [bytes|] eqn:Eb; [|apply Hthen, keeps_close].
  apply orb_false_iff in Ematch as [E1%negb_false_iff%bool_decide_eq_true E2%negb_false_iff%bool_decide_eq_true].
  assert (i4_conns (now s1).1 = i4_conns s1) as Hn by (unfold now; by destruct (net_monotonic _)).
  destruct (now s1) as [s2 at_]. cbn [fst] in *. set (f := λ c : Connection T, _).
  intros Hid. destruct (keeps_relay id0 (update id0 f s2) id c' Hid) as [|(c2 & Hc2 & Ho & Hb)]; [left; by left|].
  rewrite (update_Some id0 f s2 c) in Hc2 by congruence. cbn in Hc2. rewrite Hn in Hc2.
  apply lookup_insert_Some in Hc2 as [[<- <-]|[Hj Hd]].
  - right. exists c, response, bytes. repeat (split; [done|]).
    destruct (before_relay (cn_phase c')); [|done]. specialize (Hb eq_refl). done.
  - left. right. exists c2. auto.
Qed.

Lemma apply_sends output s b id c' :
  wf s → i4_conns (I04_apply output (s, b)).1 !! id = Some c' →
  kept s id c' ∨ relayed s b id c' ∧ ∃ classification aborted base,
    po_kind output = PolicyOutputKind.Base base ∧ o_kind base = OutputKind.Upstream classification true aborted.
Proof.
  assert (∀ s s', keeps s s' → i4_conns s' !! id = Some c' → ∀ P, kept s id c' ∨ P) as Hk by (intros s1 s2 H Hc P; left; by apply H).
  intros Hw Hc. unfold I04_apply in Hc. destruct (po_kind output) as [base| | | | | | | | |] eqn:Eo; try (eapply Hk; [apply kept_refl|exact Hc]).
  destruct (o_kind base) as [| | | | |action_id|reason|classification [] aborted| | | |] eqn:Ek; try (eapply Hk; [apply kept_refl|exact Hc]).
  - eapply Hk; [|exact Hc]. unfold apply_forward. destruct (i4_fed s) as [j|] eqn:Hfed; [|apply keeps_fail].
    set (s1 := put_fed None s). assert (keeps s s1) as H1 by by apply keeps_conns.
    eapply kept_trans; [exact H1|]. destruct (i4_conns s1 !! j) as [c|] eqn:Hj; [|apply keeps_fail].
    destruct (confirm_request _ _ _) as [b' confirmed]. cbn [fst].
    set (s2 := put_in_flight (Some j) _). assert (keeps s1 s2) as H2.
    { unfold s2. eapply kept_trans; [|by apply keeps_conns]. rewrite (update_Some j _ s1 c Hj).
      apply (keeps_put s1 j c); [done|done|]. cbn. intros _. by rewrite (wf_fed _ Hw j c). }
    destruct confirmed; [exact H2|]. eapply kept_trans; [exact H2|apply keeps_fail].
  - eapply Hk; [|exact Hc]. unfold apply_close. cbn [fst]. destruct (i4_fed s) as [j|]; [|apply kept_refl].
    eapply kept_trans; [|apply keeps_close]. by apply keeps_conns.
  - destruct (start_relay_sends s b id c' Hc) as [Hkept|Hr]; [by left|]. right. split; [exact Hr|]. by exists classification, aborted, base.
  - eapply Hk; [|exact Hc]. unfold apply_unrelayed. destruct (i4_in_flight s) as [j|]; cbn [fst]; [|apply keeps_fail].
    eapply kept_trans; [|apply keeps_close]. by apply keeps_conns.
Qed.

Lemma call_sends sb events sb' id c' :
  wf sb.1 → port_call sb events sb' → i4_conns sb'.1 !! id = Some c' →
  kept sb.1 id c' ∨ relayed sb.1 sb.2 id c' ∧ ∃ output classification aborted base,
    sb' = I04_apply output sb ∧ po_kind output = PolicyOutputKind.Base base ∧
    o_kind base = OutputKind.Upstream classification true aborted.
Proof.
  assert (∀ s s', keeps s s' → i4_conns s' !! id = Some c' → ∀ P, kept s id c' ∨ P) as Hk by (intros s s' H Hc P; left; by apply H).
  intros Hw. destruct 1 as [value readiness [s b]|at_ [s b]|[s b]|output [s b]|view [s b]|O HO s b poll|s b b'];
    cbn [fst snd]; intros Hc.
  - eapply Hk; [|exact Hc]. unfold I04_ready. destruct (value =? LISTENER).
    { unfold accept_all. pose proof (keeps_accept_loop (Z.to_nat ACCEPTS_PER_READY) (Some ACCEPTS_PER_READY) 0 s).
      by destruct (accept_loop _ _ _ _). }
    destruct (i4_conns s !! value) as [c|]; [|apply kept_refl]. destruct (cn_gone c); [apply kept_refl|].
    assert (∀ s, keeps s (mark_gone value s)) as Hgone.
    { intros s0. unfold mark_gone. eapply kept_trans; [apply (keeps_net (net_close value (i4_net s0)))|]. by apply keeps_update. }
    destruct (cn_phase c); [apply keeps_read|apply keeps_read|apply kept_refl| | |]; cbn [fst].
    + destruct (_ || _); [apply Hgone|]. destruct (rd_writable readiness); [|apply kept_refl].
      pose proof (keeps_flush_conn value s) as Hf. destruct (flush_conn value s) as [s1 ok]. cbn [fst] in *.
      destruct ok; [done|]. eapply kept_trans; [exact Hf|apply Hgone].
    + destruct (rd_error readiness); [apply keeps_close|apply keeps_relay].
    + apply keeps_linger.
  - eapply Hk; [|exact Hc]. unfold I04_due. assert (∀ due s, keeps s (close_due due s).1) as Hd.
    { intros due. induction due as [|[j phase] due IH]; intros s0; [apply kept_refl|]. cbn [close_due].
      set (r := match phase with Phase.Handshaking | Phase.Reading => _ | _ => _ end).
      assert (keeps s0 r.1) as Hr by (unfold r, disconnect; destruct phase; apply keeps_close).
      destruct r as [s1 e1]. specialize (IH s1). destruct (close_due due s1). cbn [fst] in *. by eapply kept_trans. }
    specialize (Hd (due_conns at_ s) s). by destruct (close_due _ s).
  - eapply Hk; [|exact Hc]. unfold I04_drain_backlog, accept_all.
    pose proof (keeps_accept_loop (Z.to_nat (DRAIN_LIMIT + 1)) None 0 s). by destruct (accept_loop _ _ _ _).
  - destruct (apply_sends output s b id c' Hw Hc) as [|(Hr & classification & aborted & base & Ho & Hk')]; [by left|].
    right. split; [exact Hr|]. by exists output, classification, aborted, base.
  - eapply Hk; [|exact Hc]. unfold I04_sync. cbn [fst]. generalize (btree_keys (i4_conns s)). intros ids. clear. revert s.
    induction ids as [|j ids IH]; intros s; [apply kept_refl|]. cbn [fold_left]. eapply kept_trans; [|apply IH].
    unfold sync_conn. destruct (i4_conns s !! j) as [c|]; [|apply kept_refl].
    destruct (negb _); [destruct (gv_connection_open _ _); [by apply keeps_update|apply kept_refl]|].
    destruct (gv_connection_open _ _); [apply kept_refl|]. destruct (cn_phase c); try apply kept_refl; apply keeps_close.
  - eapply Hk; [|exact Hc]. assert (∀ ids s poll, keeps s (register_conns ids s poll).1.1) as Hr.
    { intros ids. induction ids as [|j ids IH]; intros s0 p0; [apply kept_refl|]. cbn [register_conns].
      destruct (i4_conns s0 !! j) as [c|]; [|apply IH]. destruct (cn_gone c); [apply IH|].
      destruct (match cn_registered c with Some _ => _ | None => _ end) as [p1 [?|e]]; [|apply kept_refl].
      eapply kept_trans; [|apply IH]. by apply keeps_update. }
    unfold I04_register. destruct (existsb _ _); [apply kept_refl|].
    destruct (i4_listener_registered s); [apply Hr|]. destruct (Registry_add _ _ _ _ _) as [p1 [?|e]]; [|apply kept_refl].
    eapply kept_trans; [|apply Hr]. by apply keeps_conns.
  - eapply Hk; [|exact Hc]. apply kept_refl.
Qed.

(** *** Over all runs *)

Lemma run_unsent events sb id c :
  port_run events sb → i4_conns sb.1 !! id = Some c → before_relay (cn_phase c) = true → outgoing c = [].
Proof.
  intros Hrun. revert id c. induction Hrun as [net config b|events sb more sb' Hrun IH Hcall]; intros id c Hc Hb; [done|].
  destruct (call_sends sb more sb' id c (proj1 (run_follows _ _ Hrun)) Hcall Hc) as [[|(c0 & Hc0 & Ho & Hb0)]|[Hr _]]; [done| |].
  - rewrite Ho. by apply (IH id), Hb0.
  - destruct Hr as (? & ? & ? & _ & _ & _ & _ & _ & _ & _ & Hf). congruence.
Qed.

(** [C26] A client is sent nothing but the response staged for it: over any run, what one call makes of the bytes a
    connection was given and will be given to send is what it was before, or nothing, or, when the call applies a
    relayed upstream outcome and the connection is the one in flight and was sent nothing yet, exactly the rendering
    of the staged response, whose connection is this one and whose digest is its body's. *)
Theorem client_is_sent_the_staged_response events s b more sb' id c' :
  port_run events (s, b) → port_call (s, b) more sb' → i4_conns sb'.1 !! id = Some c' →
  outgoing c' = [] ∨ (∃ c, i4_conns s !! id = Some c ∧ outgoing c' = outgoing c) ∨
  ∃ c response output classification aborted base,
    sb' = I04_apply output (s, b) ∧ po_kind output = PolicyOutputKind.Base base ∧
    o_kind base = OutputKind.Upstream classification true aborted ∧
    i4_in_flight s = Some id ∧ i4_conns s !! id = Some c ∧ outgoing c = [] ∧
    ex_response b = Some response ∧ sp_conn response = conn_name id ∧
    sp_body_digest response = prefixed (sp_body response) ∧
    render_response (sp_status response) (sp_body response) = Ok (outgoing c').
Proof.
  intros Hrun Hcall Hc. pose proof (proj1 (run_follows _ _ Hrun)) as Hw. cbn [fst] in Hw.
  destruct (call_sends (s, b) more sb' id c' Hw Hcall Hc) as [[|(c & Hc0 & Ho & _)]|[Hr Ha]]; [by left|by eauto|].
  right. right. destruct Hr as (c & response & bytes & H1 & H2 & H3 & H4 & H5 & H6 & H7 & _).
  destruct Ha as (output & classification & aborted & base & A1 & A2 & A3).
  cbn [fst snd] in *. assert (outgoing c = []) as Ho.
  { apply (run_unsent events (s, b) id c Hrun H2). by rewrite (wf_flight _ Hw id c H1 H2). }
  exists c, response, output, classification, aborted, base. repeat (split; [done|]).
  split; [by rewrite H4, (ok_name _ _ (wf_conns _ Hw id c H2))|]. split; [done|].
  assert (given (cn_tls c) = []) as Hg by (by apply app_eq_nil in Ho as [? _]). by rewrite H7, Hg, H6.
Qed.
End Relay.

(** * What is relayed is what was journaled

    The board, the gate and the I04 port together: the bytes a client is sent are the rendering of a body whose digest
    and status are in the TERMINAL record of the journal, written before the relay. *)

Section RelayedRecord.
Context {St Ob : Type} {HS : Stores St} {HL : StoresLaws St} {HO : WorkerObserver Ob}.
Implicit Types (g : Gate St Ob) (p : PolicyGate St Ob).

(** The record details of an observed response: delivered, or kept for reconciliation. *)
Definition details_of (response : Upstream) (details : TerminalDetails.t) : Prop :=
  details = TerminalDetails.Delivered (u_http_status response) (u_body_digest response) (u_uid response)
              (u_resource_version response) ∨
  details = TerminalDetails.Reconciliation (u_http_status response) (u_body_digest response).

Lemma upstream_record g conn response g' out classification aborted :
  upstream conn (Some response) g = (g', Ok out) → o_kind out = OutputKind.Upstream classification true aborted →
  ∃ id after details, forwarded_on g conn false = Some id ∧ details_of response details ∧
    journal g' = journal g ++ [Entry.Record_ (Rec.Terminal id classification after details)].
Proof.
  unfold upstream. destruct (forwarded_on g conn false) as [id|] eqn:Hf; [|done].
  cbn [mbind option_bind]. destruct (g_actions g !! id) as [a|]; [|done]. cbn [mbind option_bind].
  destruct (has_status Status.Terminal a); [by intros [= _ <-]|].
  destruct (classify_upstream (ar_verb <$> a_armed a) (Some response)) as [[c details] delivered] eqn:Ec.
  assert (details_of response details) as Hd.
  { unfold classify_upstream in Ec. destruct (negb _); injection Ec as <- <- <-; [by right|by left]. }
  destruct (record_cases g (Rec.Terminal id c (a_after_invalidation a) details)) as [(s & -> & Hc)|(g1 & -> & _)].
  - intros [= <- <-] [= <- _]. exists id, (a_after_invalidation a), details. split; [done|]. split; [done|].
    apply (f_equal k_journal) in Hc. change (k_journal (core ?x)) with (journal x) in Hc.
    match goal with |- journal ?X = _ => replace (journal X) with (journal (with_stores s g)); [exact Hc|] end.
    case_bool_decide; [done|]. by destruct (created_uid _ _) as [[]|].
  - cbn. by intros [= <- <-] [= ].
Qed.

Lemma handled_journal p conn response p' output base classification aborted :
  policy_reachable p → Writer.handle (PolicyEvent.Base (Event.UpstreamResponse conn response)) p = (p', Ok output) →
  po_kind output = PolicyOutputKind.Base base → o_kind base = OutputKind.Upstream classification true aborted →
  ∃ id after details rest, details_of response details ∧
    journal (pg_gate p') =
    journal (pg_gate p) ++ Entry.Record_ (Rec.Terminal id classification after details) :: rest.
Proof.
  intros Hp. pose proof (policy_reachable_inv _ Hp) as [Hinv Hstep].
  set (event := PolicyEvent.Base _). pose proof (wdispatch_follows event p Hstep Hinv) as Hall.
  unfold Writer.handle. unfold event, Writer.dispatch, Gate.handle, dispatch in *.
  pose proof (upstream_record (pg_gate p) conn response) as Hrec.
  pose proof (follows_dispatch (Event.UpstreamResponse conn response) (pg_gate p) eq_refl (wi_core _ Hinv)) as Hup.
  cbn [dispatch] in Hup.
  destruct (upstream conn (Some response) (pg_gate p)) as [g1 [out|e]]; [|done]. cbn [fst] in Hup.
  assert (k_inv (core g1)) as Hk1 by (eapply ksteps_inv; [exact (wi_core _ Hinv)|by apply lsteps_ksteps]).
  destruct (lsteps_entries _ _ (follows_settle_drain g1 Hk1)) as (es & Hes & _).
  destruct (settle_drain g1) as [g2 answer]. cbn [fst result_map] in *. intros [= <- <-] [= <-] Hk.
  assert (w_inv (wcore (with_gate g2 p))) as Hw2 by (eapply wsteps_inv; [exact Hinv|exact Hall]).
  destruct (wsteps_journal _ _ (wfollows_settle (with_gate g2 p) Hw2)) as (es2 & Hes2).
  destruct (Hrec g1 out classification aborted eq_refl) as (id & after & details & _ & Hd & Hj); [by destruct answer|].
  exists id, after, details, (es ++ es2). split; [done|].
  change (w_journal (wcore ?q)) with (journal (pg_gate q)) in Hes2. change (k_journal (core ?q)) with (journal q) in Hes.
  rewrite Hes2. change (journal (pg_gate (with_gate g2 p))) with (journal g2). by rewrite Hes, Hj, <-!app_assoc.
Qed.
End RelayedRecord.

Section RelayedBytes.
Context {St Ob N C T : Type} {HS : Stores St} {HL : StoresLaws St} {HO : WorkerObserver Ob}.
Context {HN : StreamNet N} {HT : Tls T} {HC : TlsServer C T} {LN : StreamNetLaws N} {LT : TlsLaws T}.
Context {GT : TlsTranscript T} {GC : ServerTranscript C T}.

(** [C24] The bytes relayed are those journaled: when the upstream port stages a response, the gate handles its event and
    the I04 port applies the gate's output, any connection whose bytes to send thereby change was sent nothing before
    and is now given exactly the rendering of that status and body, and the journal already holds the TERMINAL record
    with that status and the SHA-256 digest of that body. *)
Theorem relayed_bytes_are_journaled (p p' : PolicyGate St Ob) output events s b0 b conn status body uid version event id
    (c' : Connection T) :
  policy_reachable p → stage_response conn status body uid version b0 = (b, Ok event) →
  Writer.handle event p = (p', Ok output) → port_run (N := N) (C := C) events (s, b) →
  i4_conns (I04_apply output (s, b)).1 !! id = Some c' →
  outgoing c' = [] ∨ (∃ c, i4_conns s !! id = Some c ∧ outgoing c' = outgoing c) ∨
  conn = conn_name id ∧ render_response status body = Ok (outgoing c') ∧
  ∃ action classification after details rest,
    journal (pg_gate p') =
      journal (pg_gate p) ++ Entry.Record_ (Rec.Terminal action classification after details) :: rest ∧
    (details = TerminalDetails.Delivered status (prefixed body) uid version ∨
     details = TerminalDetails.Reconciliation status (prefixed body)).
Proof.
  intros Hp Hst Hh Hrun Hc.
  pose proof (proj1 (run_follows _ _ Hrun)) as Hw. cbn [fst] in Hw.
  assert (ex_response b0 = None ∧ event = PolicyEvent.Base (Event.UpstreamResponse conn
            (mkUpstreamResponse status (prefixed body) uid version)) ∧
          ex_response b = Some (mkStagedResponse conn status body (prefixed body) uid version)) as (_ & -> & Hb).
  { unfold stage_response in Hst. destruct (ex_response b0); [done|]. destruct (negb _); [done|].
    destruct (_ <? _); [done|]. by injection Hst as <- <-. }
  destruct (apply_sends output s b id c' Hw Hc) as [[|(c & Hc0 & Ho & _)]|[Hr Ha]]; [by left|by eauto|].
  right. right. destruct Hr as (c & response & bytes & H1 & H2 & H3 & H4 & H5 & H6 & H7 & _). cbn [fst snd] in *.
  rewrite Hb in H3. injection H3 as <-. cbn in H4, H5, H6.
  destruct Ha as (classification & aborted & base & A2 & A3).
  assert (outgoing c = []) as Ho.
  { apply (run_unsent events (s, b) id c Hrun H2). by rewrite (wf_flight _ Hw id c H1 H2). }
  assert (given (cn_tls c) = []) as Hg by (by apply app_eq_nil in Ho as [? _]).
  split; [by rewrite H4, (ok_name _ _ (wf_conns _ Hw id c H2))|]. split; [by rewrite H7, Hg, H6|].
  destruct (handled_journal p _ _ p' output base classification aborted Hp Hh A2 A3)
    as (action & after & details & rest & Hd & Hj).
  exists action, classification, after, details, rest. split; [exact Hj|exact Hd].
Qed.
End RelayedBytes.
