(* ===== verification/UpstreamAnswer.v ===== *)
(** * The upstream port's exchanges ([host-enforcement/crates/gate-tls/src/upstream.rs], lines 52-235): which answer
    identifies an object

    The channel an exchange serves is read off the request's head, and the UID and resourceVersion of an answer off its
    JSON body, in the form the channel and the status require.  The theorems: the head the gate renders is read back as
    its verb, kind and name, and what a body must be for its identity to be reported. *)

From S2P Require Import Prelude Slices Inet Json Frame Render Types Journal Observation Config Policy Gate PolicyGate.
From S2P Require Import Sha256 Http1 Http1Answer Http1Render Tls.
(** The channel, with what its outcome event and its identity read need. *)
Module UpChannel.
Inductive t :=
| I05 (conn : string) (verb : Verb) (kind : Kind) (name : string)
| I07 (write_id : Z) (operation : WriteOperation.t) (plural name : string).
End UpChannel.

(** Where the identity fields are read from. *)
Module Form.
Inductive t := None_ | Object_ | Status (plural name : string) | Either (plural name : string).
#[global] Instance t_eq_dec : EqDecision t.
Proof. solve_decision. Defined.
End Form.

Definition channel_lost (c : UpChannel.t) : PolicyEvent.t :=
  match c with
  | UpChannel.I05 conn _ _ _ => PolicyEvent.Base (Event.UpstreamLost conn)
  | UpChannel.I07 write_id _ _ _ => PolicyEvent.WUpstream write_id UpstreamOutcome.Lost
  end.
Definition channel_timeout (c : UpChannel.t) : PolicyEvent.t :=
  match c with
  | UpChannel.I05 conn _ _ _ => PolicyEvent.Base (Event.UpstreamTimeout conn)
  | UpChannel.I07 write_id _ _ _ => PolicyEvent.WUpstream write_id UpstreamOutcome.Timeout
  end.
Definition is_i05 (c : UpChannel.t) : bool := match c with UpChannel.I05 _ _ _ _ => true | _ => false end.

(** The identity form an answer with [status] must carry. *)
Definition form (c : UpChannel.t) (status : Z) : Form.t :=
  match c with
  | UpChannel.I05 _ verb kind name =>
      match verb with
      | Get => if status =? 200 then Form.Object_ else Form.None_
      | Create => if status =? 201 then Form.Object_ else Form.None_
      | Delete =>
          if (status =? 200) || (status =? 202) then
            if bool_decide (kind = ConfigMap) then Form.Status (Kind_plural kind) name else Form.Object_
          else Form.None_
      end
  | UpChannel.I07 _ operation plural name =>
      if negb (WriteOperation.is_success operation status) then Form.None_
      else if bool_decide (operation = WriteOperation.Delete) then Form.Either plural name
      else Form.Object_
  end.

(** Whether the nesting of the brackets outside strings stays within [limit]. *)
Fixpoint depth_within_loop (body : list Z) (limit depth : Z) (in_string escaped : bool) : bool :=
  match body with
  | [] => true
  | byte :: body =>
      if in_string then
        if escaped then depth_within_loop body limit depth true false
        else if byte =? 92 then depth_within_loop body limit depth true true
        else if byte =? 34 then depth_within_loop body limit depth false false
        else depth_within_loop body limit depth true false
      else if byte =? 34 then depth_within_loop body limit depth true escaped
      else if (byte =? 91) || (byte =? 123) then
        if limit <? depth + 1 then false else depth_within_loop body limit (depth + 1) false escaped
      else if (byte =? 93) || (byte =? 125) then depth_within_loop body limit (Z.max 0 (depth - 1)) false escaped
      else depth_within_loop body limit depth false escaped
  end.
Definition depth_within (body : list Z) (limit : Z) : bool := depth_within_loop body limit 0 false false.

Definition text (value : option Value) : option string := let* value := value in as_str value.
Definition filtered (check : string → bool) (value : option string) : option string :=
  let* value := value in if check value then Some value else None.

(** What an identity reports: the UID and the resourceVersion. *)
Abbreviation identified := (option string * option string)%type.

Definition object_identity (value : Value) : option identified :=
  if bool_decide (text (value_get value "kind") = Some "Status") then None
  else
    let* metadata := value_get value "metadata" in
    let* uid := filtered is_uid (text (value_get metadata "uid")) in
    let* version := filtered is_resource_version (text (value_get metadata "resourceVersion")) in
    Some (Some uid, Some version).

Definition status_identity (value : Value) (plural name : string) : option identified :=
  if negb (bool_decide (text (value_get value "apiVersion") = Some "v1"))
     || negb (bool_decide (text (value_get value "kind") = Some "Status"))
     || negb (bool_decide (text (value_get value "status") = Some "Success")) then None
  else
    let* details := value_get value "details" in
    if negb (bool_decide (text (value_get details "name") = Some name))
       || negb (bool_decide (text (value_get details "kind") = Some plural)) then None
    else
      let* uid := filtered is_uid (text (value_get details "uid")) in Some (Some uid, None).

(** The identity of an answer's body, or [None] when the form requires one that cannot be read. *)
Definition identity (form : Form.t) (body : list Z) : option identified :=
  if bool_decide (form = Form.None_) then Some (None, None)
  else if negb (depth_within body (Z.of_nat MAX_DEPTH)) then None
  else if negb (utf8_valid body) then None
  else
    match parse body with
    | Err _ => None
    | Ok value =>
        let* _ := as_object value in
        match form with
        | Form.None_ => Some (None, None)
        | Form.Object_ => object_identity value
        | Form.Status plural name => status_identity value plural name
        | Form.Either plural name =>
            if bool_decide (text (value_get value "kind") = Some "Status") then status_identity value plural name
            else object_identity value
        end
    end.

(** ** The request's head *)

(** [split("\r\n").next()] *)
Fixpoint before_crlf (l : list Z) : list Z :=
  match l with
  | [] => []
  | b :: l' => if starts_with CRLF l then [] else b :: before_crlf l'
  end.

(** The method and the path segments of a head's request line. *)
Definition read_request_line (head : list Z) : option (list Z * list (list Z)) :=
  match split_on SPACE (before_crlf head) with
  | [method; target; version] =>
      if negb (bool_decide (version = bytes_of "HTTP/1.1")) then None
      else
        let* path := strip_prefix (bytes_of "/") target in Some (method, split_on 47 path)
  | _ => None
  end.

(** An I05 exchange from the staged head: one of [render_request]'s three forms. *)
Definition i05_channel (conn head : string) : option UpChannel.t :=
  let* (method, segments) := read_request_line (bytes_of head) in
  let* (verb, plural, name) :=
    match segments with
    | api :: v1 :: namespaces :: _ :: plural :: item =>
        if bool_decide (api = bytes_of "api") && bool_decide (v1 = bytes_of "v1")
           && bool_decide (namespaces = bytes_of "namespaces") then
          match item with
          | [] => if bool_decide (method = bytes_of "POST") then Some (Create, plural, []) else None
          | [name] =>
              if bool_decide (method = bytes_of "GET") then Some (Get, plural, name)
              else if bool_decide (method = bytes_of "DELETE") then Some (Delete, plural, name)
              else None
          | _ => None
          end
        else None
    | _ => None
    end in
  let* kind := List.find (λ kind, bool_decide (bytes_of (Kind_plural kind) = plural)) [Pod; ConfigMap; Service] in
  Some (UpChannel.I05 conn verb kind (string_of name)).

(** The last segment, or the last two. *)
Definition last_segment (segments : list (list Z)) : option (list Z) := last segments.
Definition last_two (segments : list (list Z)) : option (list Z * list Z) :=
  match rev segments with name :: plural :: _ => Some (plural, name) | _ => None end.

(** An I07 exchange from the rendered head: POST to the collection, PUT or DELETE of the item. *)
Definition i07_channel (write_id : Z) (head : string) : option UpChannel.t :=
  let* (method, segments) := read_request_line (bytes_of head) in
  let* (operation, plural, name) :=
    if bool_decide (method = bytes_of "POST") then
      let* plural := last_segment segments in Some (WriteOperation.Create, plural, [])
    else if bool_decide (method = bytes_of "PUT") then
      let* (plural, name) := last_two segments in Some (WriteOperation.Update, plural, name)
    else if bool_decide (method = bytes_of "DELETE") then
      let* (plural, name) := last_two segments in Some (WriteOperation.Delete, plural, name)
    else None in
  Some (UpChannel.I07 write_id operation (string_of plural) (string_of name)).

(** ** The rendered heads *)

Ltac not_in := apply (bool_decide_unpack _); exact I.
Ltac compare_texts :=
  repeat match goal with
    |- context [bool_decide (bytes_of ?a = bytes_of ?b)] =>
      let v := eval vm_compute in (bool_decide (bytes_of a = bytes_of b)) in
      change (bool_decide (bytes_of a = bytes_of b)) with v
    end.

(** Visible text without a slash: a path segment. *)
Definition segment (text : string) : Prop := visible text ∧ (47 ∉ bytes_of text).

Lemma before_crlf_line line rest : CR ∉ line → before_crlf (line ++ CRLF ++ rest) = line.
Proof.
  induction line as [|b line IH]; intros Hn; [done|]. apply not_elem_of_cons in Hn as [Hb Hn].
  cbn [app before_crlf]. rewrite IH by done. destruct (starts_with CRLF (b :: line ++ CRLF ++ rest)) eqn:E; [|done].
  apply starts_with_spec in E as (k & Hk). by injection Hk as -> _.
Qed.

Lemma read_rendered_line method path rest :
  SPACE ∉ method → CR ∉ method → SPACE ∉ path → CR ∉ path →
  read_request_line (method ++ bytes_of " /" ++ path ++ bytes_of " HTTP/1.1" ++ CRLF ++ rest) =
  Some (method, split_on 47 path).
Proof.
  intros Hm Hm' Hp Hp'. unfold read_request_line.
  replace (method ++ bytes_of " /" ++ path ++ bytes_of " HTTP/1.1" ++ CRLF ++ rest)
    with ((method ++ bytes_of " /" ++ path ++ bytes_of " HTTP/1.1") ++ CRLF ++ rest) by (by rewrite <-!app_assoc).
  assert (Hsep : ∀ b, ((b = SPACE ∨ b = CR) → b ∉ bytes_of "HTTP/1.1") ∧ (b = CR → (b ∉ bytes_of " /") ∧ (b ∉ bytes_of " HTTP/1.1"))).
  { intros b. split; [intros [->| ->]; not_in|].
    intros ->. split; not_in. }
  rewrite before_crlf_line by (rewrite !elem_of_app; destruct (Hsep CR) as [_ H]; destruct (H eq_refl); tauto).
  assert (Hs : split_on SPACE (method ++ bytes_of " /" ++ path ++ bytes_of " HTTP/1.1") =
    [method; 47 :: path; bytes_of "HTTP/1.1"]).
  { apply split_on_spec. split.
    - repeat constructor; [done|apply not_elem_of_cons; by split|by apply Hsep; left].
    - unfold terminated. cbn [map concat]. rewrite app_nil_r, <-!app_assoc. reflexivity. }
  rewrite Hs. rewrite bool_decide_eq_true_2 by done. reflexivity.
Qed.

Lemma visible_line text : visible text → (SPACE ∉ bytes_of text) ∧ (CR ∉ bytes_of text).
Proof.
  unfold visible. rewrite forallb_forall. intros H.
  split; intros Hin%list_elem_of_In%H; vm_compute in Hin; discriminate Hin.
Qed.
Lemma kind_segment kind : segment (Kind_plural kind).
Proof. destruct kind; (split; [done|not_in]). Qed.
Lemma find_kind kind :
  List.find (λ k, bool_decide (bytes_of (Kind_plural k) = bytes_of (Kind_plural kind))) [Pod; ConfigMap; Service] = Some kind.
Proof. by destruct kind. Qed.
Lemma visible_app s t : visible s → visible t → visible (s +:+ t).
Proof. unfold visible. rewrite bytes_of_app, forallb_app. by intros -> ->. Qed.

(** The path of a rendered request, in segments. *)
Lemma split_path segments last_ :
  Forall segment segments → segment last_ →
  split_on 47 (concat (map (λ s, bytes_of s ++ [47]) segments) ++ bytes_of last_) = map bytes_of (segments ++ [last_]).
Proof.
  intros Hs [_ Hl]. rewrite map_app, <-(map_map bytes_of (λ p, p ++ [47])). apply split_on_join.
  apply Forall_app. split; [|by apply Forall_singleton]. apply Forall_map. eapply Forall_impl; [done|]. by intros s [_ H].
Qed.

Lemma visible_path segments last_ :
  Forall segment segments → segment last_ →
  let path := concat (map (λ s, bytes_of s ++ [47]) segments) ++ bytes_of last_ in (SPACE ∉ path) ∧ (CR ∉ path).
Proof.
  intros Hs [Hl _]. cbv zeta. rewrite !elem_of_app. apply visible_line in Hl as [? ?].
  assert (∀ b, b = SPACE ∨ b = CR → b ∉ concat (map (λ s, bytes_of s ++ [47]) segments)) as Hc.
  { intros b Hb. induction Hs as [|s ss [Hv _] _ IH]; [by apply not_elem_of_nil|].
    cbn [map concat]. rewrite !elem_of_app. apply visible_line in Hv as [? ?].
    intros [[Hin|Hin]|Hin]; [by destruct Hb; subst|apply list_elem_of_singleton in Hin; destruct Hb; subst; discriminate|done]. }
  split; intros [Hin|Hin]; try done; by eapply Hc; [|exact Hin]; auto.
Qed.

(** The line of any rendered head. *)
Lemma read_path method segments last_ rest :
  SPACE ∉ method → CR ∉ method → Forall segment segments → segment last_ →
  read_request_line (method ++ bytes_of " /" ++ (concat (map (λ s, bytes_of s ++ [47]) segments) ++ bytes_of last_)
                       ++ bytes_of " HTTP/1.1" ++ CRLF ++ rest) =
  Some (method, map bytes_of (segments ++ [last_])).
Proof.
  intros Hm Hm' Hs Hl. destruct (visible_path segments last_ Hs Hl) as [Hp Hp'].
  rewrite read_rendered_line by done. by rewrite split_path.
Qed.

Definition request_segments (m : Manifest) : list string := ["api"; "v1"; "namespaces"; m_namespace m].
Lemma request_segments_ok m : segment (m_namespace m) → Forall segment (request_segments m).
Proof.
  intros H. unfold request_segments. repeat (apply Forall_cons; split); [split; [done|not_in]..|done|constructor].
Qed.

Definition rendered_name (verb : Verb) (m : Manifest) : string := match verb with Create => "" | _ => m_name m end.

Lemma render_request_line verb m uid endpoint :
  ∃ rest, bytes_of (r_head (render_request verb m uid endpoint)) = request_line verb m ++ CRLF ++ rest.
Proof.
  assert (Hc : bytes_of crlf = CRLF) by reflexivity. unfold request_line, request_target.
  destruct verb; cbn [render_request r_head]; rewrite !bytes_of_app, Hc; eexists; rewrite <-!app_assoc; reflexivity.
Qed.

Lemma names_its_exchange conn verb m uid endpoint :
  segment (m_namespace m) → segment (m_name m) →
  i05_channel conn (r_head (render_request verb m uid endpoint)) =
  Some (UpChannel.I05 conn verb (m_kind m) (rendered_name verb m)).
Proof.
  intros Hns Hname. unfold i05_channel. destruct (render_request_line verb m uid endpoint) as [rest ->].
  assert (Hk := kind_segment (m_kind m)). assert (Hs := request_segments_ok m Hns).
  assert (read_request_line (request_line verb m ++ CRLF ++ rest) =
    Some (bytes_of (match verb with Create => "POST" | Get => "GET" | Delete => "DELETE" end),
          map bytes_of (request_segments m ++ Kind_plural (m_kind m) :: match verb with Create => [] | _ => [m_name m] end)))
    as Hr.
  { destruct verb.
    - rewrite <-(read_path (bytes_of "POST") (request_segments m) _ rest) by (done || not_in). f_equal.
      unfold request_line, request_target, request_segments. rewrite !bytes_of_app. cbn [map concat].
      rewrite <-!app_assoc. reflexivity.
    - change (request_segments m ++ [Kind_plural (m_kind m); m_name m])
        with ((request_segments m ++ [Kind_plural (m_kind m)]) ++ [m_name m]).
      rewrite <-(read_path (bytes_of "GET") _ _ rest); [|not_in|not_in|apply Forall_app; auto|done]. f_equal.
      unfold request_line, request_target, request_segments. rewrite !bytes_of_app. cbn [map concat app].
      rewrite <-!app_assoc. reflexivity.
    - change (request_segments m ++ [Kind_plural (m_kind m); m_name m])
        with ((request_segments m ++ [Kind_plural (m_kind m)]) ++ [m_name m]).
      rewrite <-(read_path (bytes_of "DELETE") _ _ rest); [|not_in|not_in|apply Forall_app; auto|done]. f_equal.
      unfold request_line, request_target, request_segments. rewrite !bytes_of_app. cbn [map concat app].
      rewrite <-!app_assoc. reflexivity. }
  rewrite Hr. pose proof (find_kind (m_kind m)) as Hf.
  destruct verb; cbn [mbind option_bind map app request_segments]; rewrite !bool_decide_eq_true_2 by done; cbn [andb];
    rewrite ?bool_decide_eq_false_2, ?bool_decide_eq_true_2 by done; cbn [mbind option_bind] in *; rewrite Hf; by rewrite ?string_bytes_string.
Qed.

(** ** The rendered writes *)

(** The segments of a row's collection, and the text of a rendered write's head. *)
Definition write_segments (row : WritableKind) (namespace : string) : list string :=
  (if bool_decide (wk_group row = "") then ["api"; wk_version row] else ["apis"; wk_group row; wk_version row])
  ++ match wk_scope row with QualificationNamespace => ["namespaces"; namespace] | QualificationNamespaceObject => [] end.
Definition write_name (request : WriteRequest) : list string :=
  match wr_operation request with WriteOperation.Create => [] | _ => [wr_name request] end.
Definition write_method (operation : WriteOperation.t) : string :=
  match operation with
  | WriteOperation.Create => "POST" | WriteOperation.Update => "PUT" | WriteOperation.Delete => "DELETE"
  end.

Lemma write_segments_ok row namespace :
  segment (wk_group row) → segment (wk_version row) → segment namespace → Forall segment (write_segments row namespace).
Proof.
  intros Hg Hv Hn. assert (segment "api" ∧ segment "apis" ∧ segment "namespaces") as (? & ? & ?)
    by (repeat split; not_in).
  unfold write_segments. apply Forall_app. split; [destruct (bool_decide _)|destruct (wk_scope row)]; auto using Forall_nil_2, Forall_cons_2.
Qed.

(** A path in segments, as the rendering joins it. *)
Definition path_text (segments : list string) : list Z := concat (map (λ s, 47 :: bytes_of s) segments).
Lemma path_text_app l k : path_text (l ++ k) = path_text l ++ path_text k.
Proof. unfold path_text. by rewrite map_app, concat_app. Qed.
Lemma path_text_last segments last_ :
  path_text (segments ++ [last_]) = 47 :: concat (map (λ s, bytes_of s ++ [47]) segments) ++ bytes_of last_.
Proof.
  unfold path_text. rewrite map_app, concat_app. cbn [map concat]. rewrite app_nil_r.
  induction segments as [|s ss IH]; [done|]. cbn [map concat app]. rewrite <-!app_assoc. cbn [app]. by rewrite IH.
Qed.

Lemma collection_path_text row namespace :
  bytes_of (collection_path row namespace) = path_text (write_segments row namespace ++ [wk_resource row]).
Proof.
  unfold collection_path, write_segments, path_text.
  destruct (bool_decide _), (wk_scope row); rewrite ?bytes_of_app; cbn [map concat app]; rewrite ?app_nil_r, <-?app_assoc; reflexivity.
Qed.

Lemma render_write_head row request namespace authority rendered :
  render_write row request namespace authority = Some rendered →
  ∃ rest, bytes_of (rw_head rendered) =
    bytes_of (write_method (wr_operation request)) ++ bytes_of " "
    ++ path_text ((write_segments row namespace ++ [wk_resource row]) ++ write_name request)
    ++ bytes_of " HTTP/1.1" ++ CRLF ++ rest.
Proof.
  unfold render_write. set (collection := collection_path row namespace).
  assert (Hc : bytes_of collection = path_text (write_segments row namespace ++ [wk_resource row]))
    by apply collection_path_text.
  assert (Hi : bytes_of (collection +:+ "/" +:+ wr_name request) =
    path_text ((write_segments row namespace ++ [wk_resource row]) ++ [wr_name request])).
  { rewrite path_text_app, !bytes_of_app, Hc. unfold path_text. cbn [map concat]. by rewrite app_nil_r. }
  assert (Hline : ∀ method target rest, bytes_of (method +:+ " " +:+ target +:+ " HTTP/1.1" +:+ crlf +:+ rest) =
    bytes_of method ++ bytes_of " " ++ bytes_of target ++ bytes_of " HTTP/1.1" ++ CRLF ++ bytes_of rest)
    by (intros; by rewrite !bytes_of_app).
  unfold write_name. destruct (wr_operation request).
  - destruct (wr_object request) as [object|]; [|done]. cbn [mbind option_bind]. destruct (canonical_ok object) as [body|]; [|done].
    cbn [mbind option_bind]. intros [= <-]. cbn [rw_head]. eexists. rewrite Hline, Hc, app_nil_r. reflexivity.
  - destruct (wr_object request) as [object|]; [|done]. cbn [mbind option_bind]. destruct (canonical_ok object) as [body|]; [|done].
    cbn [mbind option_bind]. intros [= <-]. cbn [rw_head]. eexists. rewrite Hline, Hi. reflexivity.
  - destruct (wr_prior request) as [prior|]; [|done]. cbn [mbind option_bind]. intros [= <-]. cbn [rw_head]. eexists.
    rewrite Hline, Hi. reflexivity.
Qed.

(** A rendered write is recognised: its operation, resource plural and, of an item's request, its name. *)
Lemma rendered_write_names_its_exchange write_id row request namespace authority rendered :
  segment (wk_group row) → segment (wk_version row) → segment (wk_resource row) → segment namespace →
  segment (wr_name request) → render_write row request namespace authority = Some rendered →
  i07_channel write_id (rw_head rendered) =
  Some (UpChannel.I07 write_id (wr_operation request) (wk_resource row)
          match wr_operation request with WriteOperation.Create => "" | _ => wr_name request end).
Proof.
  intros Hg Hv Hr Hns Hname Hrendered. destruct (render_write_head _ _ _ _ _ Hrendered) as (rest & Hh).
  assert (Hs := write_segments_ok row namespace Hg Hv Hns).
  assert (read_request_line (bytes_of (rw_head rendered)) =
    Some (bytes_of (write_method (wr_operation request)),
          map bytes_of ((write_segments row namespace ++ [wk_resource row]) ++ write_name request))) as Hl.
  { rewrite Hh. unfold write_name, write_method. destruct (wr_operation request).
    - rewrite app_nil_r, path_text_last. exact (read_path (bytes_of "POST") _ _ rest ltac:(not_in) ltac:(not_in) Hs Hr).
    - rewrite path_text_last.
      exact (read_path (bytes_of "PUT") _ _ rest ltac:(not_in) ltac:(not_in) (Forall_app_2 _ _ _ Hs (Forall_cons_2 _ _ _ Hr (Forall_nil_2 _))) Hname).
    - rewrite path_text_last.
      exact (read_path (bytes_of "DELETE") _ _ rest ltac:(not_in) ltac:(not_in) (Forall_app_2 _ _ _ Hs (Forall_cons_2 _ _ _ Hr (Forall_nil_2 _))) Hname). }
  unfold i07_channel. rewrite Hl. unfold write_name, write_method, last_segment, last_two.
  destruct (wr_operation request); cbn [mbind option_bind];
    rewrite ?map_app, ?app_nil_r, ?rev_app_distr; cbn [map rev app];
    rewrite ?last_snoc; compare_texts; cbn [mbind option_bind]; by rewrite ?string_bytes_string.
Qed.

(** ** The identity *)

(** What is reported was read and is within the patterns. *)
Definition in_patterns (identified : option string * option string) : Prop :=
  (∀ uid, identified.1 = Some uid → is_uid uid = true) ∧
  (∀ version, identified.2 = Some version → is_resource_version version = true).

Lemma filtered_Some check value found : filtered check value = Some found → value = Some found ∧ check found = true.
Proof.
  unfold filtered. destruct value as [v|]; [|done]. cbn [mbind option_bind]. destruct (check v) eqn:E; [|done]. by intros [= <-].
Qed.

Lemma object_identity_in_patterns value found : object_identity value = Some found → in_patterns found.
Proof.
  unfold object_identity. destruct (bool_decide _); [done|]. destruct (value_get value "metadata") as [metadata|]; [|done].
  cbn [mbind option_bind]. destruct (filtered is_uid _) as [uid|] eqn:Eu; [|done]. cbn [mbind option_bind].
  destruct (filtered is_resource_version _) as [version|] eqn:Ev; [|done]. cbn [mbind option_bind]. intros [= <-].
  apply filtered_Some in Eu as [_ ?], Ev as [_ ?]. split; by intros ? [= <-].
Qed.
Lemma status_identity_in_patterns value plural name found :
  status_identity value plural name = Some found → in_patterns found.
Proof.
  unfold status_identity. destruct (_ || _); [done|]. destruct (value_get value "details") as [details|]; [|done].
  cbn [mbind option_bind]. destruct (_ || _); [done|].
  destruct (filtered is_uid _) as [uid|] eqn:Eu; [|done]. cbn [mbind option_bind]. intros [= <-].
  apply filtered_Some in Eu as [_ ?]. split; [by intros ? [= <-]|done].
Qed.
Lemma identity_in_patterns form body found : identity form body = Some found → in_patterns found.
Proof.
  unfold identity. destruct (bool_decide (form = Form.None_)) eqn:E; [by intros [= <-]|].
  destruct (negb (depth_within _ _)); [done|]. destruct (negb (utf8_valid body)); [done|].
  destruct (parse body) as [value|]; [|done]. destruct (as_object value); [|done]. cbn [mbind option_bind].
  destruct form as [| |plural name|plural name].
  - by intros [= <-].
  - apply object_identity_in_patterns.
  - apply status_identity_in_patterns.
  - destruct (bool_decide (text (value_get value "kind") = Some "Status")); [apply status_identity_in_patterns|apply object_identity_in_patterns].
Qed.

(** A write's answer with a reported identity and a status in range is never turned into a loss. *)
Lemma write_response_kept write_id status body found :
  in_patterns found → 100 ≤ status ≤ 599 →
  write_response write_id status body found.1 found.2 =
  PolicyEvent.WUpstream write_id
    (UpstreamOutcome.Response (mkUpstreamResponse status (prefixed body) found.1 found.2)).
Proof.
  destruct found as [uid version]. intros [Hu Hv] Hs. unfold write_response. cbn [fst snd] in *.
  rewrite (proj2 (Z.leb_le 100 status)), (proj2 (Z.leb_le status 599)) by lia. cbn [andb].
  destruct uid as [uid|]; [rewrite (Hu uid) by done|]; (destruct version as [version|]; [rewrite (Hv version) by done|]); done.
Qed.

(** The Decision's vectors: a POD's DELETE answers an object, a ConfigMap's a [Status]. *)
Example forms_of_a_delete :
  map (λ kind, form (UpChannel.I05 "c" Delete kind "n") 202) [Pod; ConfigMap; Service] =
  [Form.Object_; Form.Status "configmaps" "n"; Form.Object_].
Proof. reflexivity. Qed.
