(* ===== verification/Upstream.v ===== *)
(** * The upstream port ([host-enforcement/crates/gate-tls/src/upstream.rs]): definitions

    The gate's client of the one apiserver: at most one exchange at a time, armed by a forward (I05) or by the pending
    write (I07), then a connect, a handshake, exactly the staged bytes, and the answer.  The network is [ConnectNet]'s,
    the TLS connections are [Tls]'s, the board is the memory shared with the I04 port. *)

From S2P Require Import Prelude Slices Inet Json Frame Render Types Journal Observation Config Policy Gate PolicyGate Http1 Sha256.
From S2P Require Import Substrate Tls UpstreamAnswer.
Definition UPSTREAM_BOUND : Z := 900 * 10 ^ 9.
Definition WRITE_BOUND : Z := 10 * 10 ^ 9.
Definition CONNECT_DEADLINE : Z := 10 * 10 ^ 9.
Definition HANDSHAKE_DEADLINE : Z := 10 * 10 ^ 9.
(** [i04::READ_BUDGET], and the plaintext chunk. *)
Definition UP_READ_BUDGET : Z := 64 * 1024.
Definition UP_CHUNK : Z := 4096.

(** [Instant::checked_add]: an [i64] of seconds and their nanoseconds. *)
Definition INSTANT_MAX : Z := (2 ^ 63 - 1) * 10 ^ 9 + (10 ^ 9 - 1).
Definition checked_add (now by_ : Z) : option Z := if now + by_ <=? INSTANT_MAX then Some (now + by_) else None.
(** [after]: [now] itself when the clock cannot hold the deadline. *)
Definition deadline_after (now by_ : Z) : Z := default now (checked_add now by_).

(** ** [server_name] ([tls_client.rs]): the literal address *)

Module ServerName.
Inductive t := V4 (octets : list Z) | V6 (groups : list Z).
End ServerName.

(** The big-endian pairs. *)
Fixpoint pairs (octets : list Z) : list Z :=
  match octets with
  | high :: low :: octets => high * 256 + low :: pairs octets
  | _ => []
  end.
Definition server_name (address : InetAddress) : ServerName.t :=
  match ia_ip address with
  | IpLiteral.V4 octets => ServerName.V4 octets
  | IpLiteral.V6 octets => ServerName.V6 (pairs octets)
  end.

(** [ClientConnection::new]; the configuration's providers may change. *)
Class TlsClient (C T : Type) := { client_connection : C → ServerName.t → C * option T }.

Module UpPhase.
Inductive t := Armed | Connecting | Handshaking | Exchanging | Expired.
#[global] Instance t_eq_dec : EqDecision t.
Proof. solve_decision. Defined.
End UpPhase.

(** The one open exchange. *)
Record OpenExchange (T : Type) := mkOpen {
  ox_channel : UpChannel.t;
  ox_request : list Z;
  ox_sent : Z;
  ox_bound : Z;
  ox_start : option Z;
  ox_phase_deadline : option Z;
  ox_phase : UpPhase.t;
  ox_source : option Z;
  ox_registered : option Interest;
  ox_tls : option T;
  ox_reader : ResponseReader;
}.
Arguments mkOpen {T}.
Arguments ox_channel {T}.
Arguments ox_request {T}.
Arguments ox_sent {T}.
Arguments ox_bound {T}.
Arguments ox_start {T}.
Arguments ox_phase_deadline {T}.
Arguments ox_phase {T}.
Arguments ox_source {T}.
Arguments ox_registered {T}.
Arguments ox_tls {T}.
Arguments ox_reader {T}.

(** The port without the board, which it shares. *)
Record UpstreamClient (N C T : Type) := mkUpstreamClient {
  up_net : N;
  up_address : InetAddress;
  up_effect : C;
  up_writer : C;
  up_open : option (OpenExchange T);
  up_started_write : option Z;
  up_failure : option string;
}.
Arguments mkUpstreamClient {N C T}.
Arguments up_net {N C T}.
Arguments up_address {N C T}.
Arguments up_effect {N C T}.
Arguments up_writer {N C T}.
Arguments up_open {N C T}.
Arguments up_started_write {N C T}.
Arguments up_failure {N C T}.

Section OpenExchange.
Context {T : Type}.
Implicit Types (o : OpenExchange T).

(** Field assignments. *)
Definition ox_put_sent (v : Z) o :=
  mkOpen (ox_channel o) (ox_request o) v (ox_bound o) (ox_start o) (ox_phase_deadline o) (ox_phase o) (ox_source o)
    (ox_registered o) (ox_tls o) (ox_reader o).
Definition ox_put_start (v : option Z) o :=
  mkOpen (ox_channel o) (ox_request o) (ox_sent o) (ox_bound o) v (ox_phase_deadline o) (ox_phase o) (ox_source o)
    (ox_registered o) (ox_tls o) (ox_reader o).
Definition ox_put_phase_deadline (v : option Z) o :=
  mkOpen (ox_channel o) (ox_request o) (ox_sent o) (ox_bound o) (ox_start o) v (ox_phase o) (ox_source o)
    (ox_registered o) (ox_tls o) (ox_reader o).
Definition ox_put_phase (v : UpPhase.t) o :=
  mkOpen (ox_channel o) (ox_request o) (ox_sent o) (ox_bound o) (ox_start o) (ox_phase_deadline o) v (ox_source o)
    (ox_registered o) (ox_tls o) (ox_reader o).
Definition ox_put_source (v : option Z) o :=
  mkOpen (ox_channel o) (ox_request o) (ox_sent o) (ox_bound o) (ox_start o) (ox_phase_deadline o) (ox_phase o) v
    (ox_registered o) (ox_tls o) (ox_reader o).
Definition ox_put_registered (v : option Interest) o :=
  mkOpen (ox_channel o) (ox_request o) (ox_sent o) (ox_bound o) (ox_start o) (ox_phase_deadline o) (ox_phase o)
    (ox_source o) v (ox_tls o) (ox_reader o).
Definition ox_put_tls (v : option T) o :=
  mkOpen (ox_channel o) (ox_request o) (ox_sent o) (ox_bound o) (ox_start o) (ox_phase_deadline o) (ox_phase o)
    (ox_source o) (ox_registered o) v (ox_reader o).
Definition ox_put_reader (v : ResponseReader) o :=
  mkOpen (ox_channel o) (ox_request o) (ox_sent o) (ox_bound o) (ox_start o) (ox_phase_deadline o) (ox_phase o)
    (ox_source o) (ox_registered o) (ox_tls o) v.

(** The interest the open exchange asks for. *)
Definition up_interest `{Tls T} o : option Interest :=
  match ox_phase o with
  | UpPhase.Connecting => Some (mkInterest false true)
  | UpPhase.Handshaking | UpPhase.Exchanging =>
      (λ tls, mkInterest (wants_read tls)
                (wants_write tls || (negb (is_handshaking tls) && (ox_sent o <? zlen (ox_request o))))) <$> ox_tls o
  | UpPhase.Armed | UpPhase.Expired => None
  end.
End OpenExchange.

(** What reading the plaintext TLS holds found. *)
Module Drained.
Inductive t := More | Complete | Lost.
End Drained.

Section Upstream.
Context {N C T : Type} `{ConnectNet N, Tls T, TlsClient C T}.
Abbreviation client := (UpstreamClient N C T).
Abbreviation open_t := (OpenExchange T).
Implicit Types (p : client) (o : open_t) (b : Exchange).

Definition UpstreamClient_new (net : N) (address : InetAddress) (effect writer : C) : client :=
  mkUpstreamClient net address effect writer None None None.

Definition up_put_net (v : N) p : client :=
  mkUpstreamClient v (up_address p) (up_effect p) (up_writer p) (up_open p) (up_started_write p) (up_failure p).
Definition up_put_effect (v : C) p : client :=
  mkUpstreamClient (up_net p) (up_address p) v (up_writer p) (up_open p) (up_started_write p) (up_failure p).
Definition up_put_writer (v : C) p : client :=
  mkUpstreamClient (up_net p) (up_address p) (up_effect p) v (up_open p) (up_started_write p) (up_failure p).
Definition up_put_open (v : option open_t) p : client :=
  mkUpstreamClient (up_net p) (up_address p) (up_effect p) (up_writer p) v (up_started_write p) (up_failure p).
Definition up_put_started (v : option Z) p : client :=
  mkUpstreamClient (up_net p) (up_address p) (up_effect p) (up_writer p) (up_open p) v (up_failure p).
Definition up_put_failure (v : option string) p : client :=
  mkUpstreamClient (up_net p) (up_address p) (up_effect p) (up_writer p) (up_open p) (up_started_write p) v.

Definition up_fail (reason : string) p : client :=
  match up_failure p with None => up_put_failure (Some reason) p | Some _ => p end.
Definition up_close (source : Z) p : client := up_put_net (c_close source (up_net p)) p.
Definition up_now p : client * Z := let '(net, at_) := c_monotonic (up_net p) in (up_put_net net p, at_).

(** ** Writing and reading *)

(** The request bytes TLS has not taken, and their records; [false] on a refusal of TLS or a failed send. *)
Fixpoint send_loop (fuel : nat) (source : Z) (request : list Z) (tls : T) (sent : Z) (net : N) : T * Z * N * bool :=
  if zlen request <=? sent then (tls, sent, net, true)
  else
    match fuel with
    | 0%nat => (tls, sent, net, true)
    | S fuel =>
        let '(tls, taken) := write_plaintext (drop (Z.to_nat sent) request) tls in
        match taken with
        | Ok count =>
            if count =? 0 then (tls, sent, net, true)
            else
              let sent := sent + Z.min count (zlen request - sent) in
              let '(tls, net, written) := write_tls (net_write (c_send source)) tls net in
              match written with
              | Ok _ => send_loop fuel source request tls sent net
              | Err IoError.WouldBlock => (tls, sent, net, true)
              | Err IoError.Other => (tls, sent, net, false)
              end
        | Err _ => (tls, sent, net, false)
        end
    end.

(** Every turn but the last takes at least one byte of the request. *)
Definition write_out (net : N) o : N * open_t * bool :=
  match ox_source o, ox_tls o with
  | Some source, Some tls =>
      let '(tls, sent, net, ok) :=
        if negb (is_handshaking tls)
        then send_loop (length (ox_request o)) source (ox_request o) tls (ox_sent o) net
        else (tls, ox_sent o, net, true) in
      if negb ok then (net, ox_put_tls (Some tls) (ox_put_sent sent o), false)
      else
        let '(tls, net, ok) := flush (net_write (c_send source)) tls net in
        (net, ox_put_tls (Some tls) (ox_put_sent sent o), ok)
  | _, _ => (net, o, false)
  end.

(** The plaintext of one batch, read into the answer reader. *)
Fixpoint drain_loop (fuel : nat) (tls : T) (reader : ResponseReader) : T * ResponseReader * Drained.t :=
  let closed reader := match progress reader with ResponseProgress.Complete => Drained.Complete | _ => Drained.Lost end in
  match fuel with
  | 0%nat => (tls, reader, Drained.More)
  | S fuel =>
      let '(tls, read) := read_plaintext UP_CHUNK tls in
      match read with
      | Ok [] => (tls, reader, closed reader)
      | Ok chunk =>
          let '(reader, pushed) := Http1.push chunk reader in
          match pushed with
          | ResponseProgress.Refused _ => (tls, reader, Drained.Lost)
          | _ => drain_loop fuel tls reader
          end
      | Err IoError.WouldBlock =>
          (tls, reader,
           match progress reader with
           | ResponseProgress.Complete => Drained.Complete
           | ResponseProgress.NeedMore => Drained.More
           | ResponseProgress.Refused _ => Drained.Lost
           end)
      | Err IoError.Other => (tls, reader, closed reader)
      end
  end.
Definition drain_answer o : open_t * Drained.t :=
  match ox_tls o with
  | None => (o, Drained.Lost)
  | Some tls =>
      let '(tls, reader, drained) := drain_loop (S (held_plaintext tls)) tls (ox_reader o) in
      (ox_put_reader reader (ox_put_tls (Some tls) o), drained)
  end.

(** ** The exchange *)

(** The bound from the anchor now, and a start deadline at the anchor. *)
Definition arm_exchange (channel : UpChannel.t) (request : list Z) (bound : Z) p : client :=
  let '(p, anchor) := up_now p in
  match checked_add anchor bound with
  | None => up_fail "the monotonic clock cannot hold the upstream bound" p
  | Some bound =>
      up_put_open (Some (mkOpen channel request 0 bound (Some anchor) None UpPhase.Armed None None None ResponseReader_new)) p
  end.

Definition end_exchange (notify : bool) p : client * option UpChannel.t :=
  match up_open p with
  | None => (p, None)
  | Some o =>
      let p := up_put_open None p in
      let p :=
        match ox_source o, ox_tls o with
        | Some source, Some tls =>
            if notify && negb (is_handshaking tls) then
              let '(_, net, _) := flush (net_write (c_send source)) (send_close_notify tls) (up_net p) in up_put_net net p
            else p
        | _, _ => p
        end in
      let p := match ox_source o with Some source => up_close source p | None => p end in
      (p, Some (ox_channel o))
  end.

(** One LOST for the open exchange, which ends. *)
Definition lose p : client * list PolicyEvent.t :=
  let '(p, channel) := end_exchange false p in (p, option_list (channel_lost <$> channel)).

(** [self.open.as_mut()] replaced. *)
Definition put_ox o p : client := up_put_open (Some o) p.

(** The TLS client of the exchange's identity, its first flight sent. *)
Definition start_handshake (now : Z) p : client * list PolicyEvent.t :=
  match up_open p with
  | None => (p, [])
  | Some o =>
      let name := server_name (up_address p) in
      let '(p, tls) :=
        if is_i05 (ox_channel o)
        then let '(config, tls) := client_connection (up_effect p) name in (up_put_effect config p, tls)
        else let '(config, tls) := client_connection (up_writer p) name in (up_put_writer config p, tls) in
      match tls with
      | None => lose p
      | Some tls =>
          let deadline := if is_i05 (ox_channel o) then Some (deadline_after now HANDSHAKE_DEADLINE) else None in
          let o := ox_put_phase_deadline deadline (ox_put_phase UpPhase.Handshaking (ox_put_tls (Some tls) o)) in
          let '(net, o, ok) := write_out (up_net p) o in
          let p := put_ox o (up_put_net net p) in
          if negb ok then lose p else (p, [])
      end
  end.

(** The connect, from [due] at the start deadline. *)
Definition start_connect (now : Z) p : client * list PolicyEvent.t :=
  let '(net, started) := connect (up_address p) (up_net p) in
  let p := up_put_net net p in
  match up_open p with
  | None => (p, [])
  | Some o =>
      let o := ox_put_start None o in
      match started with
      | Err _ => lose (put_ox o p)
      | Ok (source, Connecting.InProgress) =>
          let deadline := if is_i05 (ox_channel o) then Some (deadline_after now CONNECT_DEADLINE) else None in
          (put_ox (ox_put_phase_deadline deadline (ox_put_phase UpPhase.Connecting (ox_put_source (Some source) o))) p, [])
      | Ok (source, Connecting.Connected) => start_handshake now (put_ox (ox_put_source (Some source) o) p)
      end
  end.

(** The outcome of an ended exchange's answer: its identity read where the model journals it, then staged or fed. *)
Definition build_outcome (channel : UpChannel.t) (reader : ResponseReader) p b
    : client * Exchange * list PolicyEvent.t :=
  let lost := channel_lost channel in
  match Http1.answer reader with
  | None => (p, b, [lost])
  | Some (status, body) =>
      match identity (form channel status) body with
      | None => (p, b, [lost])
      | Some (uid, version) =>
          match channel with
          | UpChannel.I05 conn _ _ _ =>
              let '(b, staged) := stage_response conn status body uid version b in
              match staged with
              | Ok event => (p, b, [event])
              | Err BoardError.Status | Err BoardError.Size => (p, b, [lost])
              | Err BoardError.Occupied => (up_fail "the exchange board's response slot was occupied or busy" p, b, [])
              end
          | UpChannel.I07 write_id _ _ _ => (p, b, [write_response write_id status body uid version])
          end
      end
  end.

(** A complete answer: past the bound nothing is fed; otherwise the identity is read and the outcome built. *)
Definition complete p b : client * Exchange * list PolicyEvent.t :=
  let '(p, at_) := up_now p in
  match up_open p with
  | None => (p, b, [])
  | Some o =>
      if ox_bound o <=? at_ then
        let p := match ox_source o with Some source => up_close source p | None => p end in
        (put_ox (ox_put_start None (ox_put_phase_deadline None (ox_put_phase UpPhase.Expired
           (ox_put_tls None (ox_put_source None o))))) p, b, [])
      else
        let reader := ox_reader o in
        let '(p, channel) := end_exchange true (put_ox (ox_put_reader ResponseReader_new o) p) in
        match channel with
        | None => (p, b, [])
        | Some channel => build_outcome channel reader p b
        end
  end.

Definition lose_with b p : client * Exchange * option (list PolicyEvent.t) :=
  let '(p, events) := lose p in (p, b, Some events).

(** The handshake's end: TLS 1.3, or [None]. *)
Definition after_client_handshake (tls : T) o : option open_t :=
  if bool_decide (ox_phase o = UpPhase.Handshaking) && negb (is_handshaking tls) then
    if negb (is_tls13 tls) then None
    else Some (ox_put_phase_deadline None (ox_put_phase UpPhase.Exchanging o))
  else Some o.

(** The loop of [drive]: what it returned, or [None] when the reads would block. *)
Fixpoint drive_loop (fuel : nat) (source budget : Z) o p b : client * Exchange * option (list PolicyEvent.t) :=
  match fuel with
  | 0%nat => (put_ox o p, b, None)
  | S fuel =>
      match ox_tls o with
      | None => lose_with b (put_ox o p)
      | Some tls =>
          let '(tls, (net, budget), read) := read_tls (net_read (c_recv source)) tls (up_net p, budget) in
          let p := up_put_net net p in
          let o := ox_put_tls (Some tls) o in
          match read with
          | Err IoError.WouldBlock => (put_ox o p, b, None)
          | Err IoError.Other => lose_with b (put_ox o p)
          | Ok count =>
              if count =? 0 then lose_with b (put_ox o p)
              else
                let '(tls, ok) := process_new_packets tls in
                let o := ox_put_tls (Some tls) o in
                if negb ok then
                  let '(tls, net, _) := flush (net_write (c_send source)) tls (up_net p) in
                  lose_with b (put_ox (ox_put_tls (Some tls) o) (up_put_net net p))
                else
                  match after_client_handshake tls o with
                  | None => lose_with b (put_ox o p)
                  | Some o =>
                      let '(o, drained) := drain_answer o in
                      match drained with
                      | Drained.Complete => let '(p, b, events) := complete (put_ox o p) b in (p, b, Some events)
                      | Drained.Lost => lose_with b (put_ox o p)
                      | Drained.More =>
                          let '(net, o, ok) := write_out (up_net p) o in
                          let p := up_put_net net p in
                          if negb ok then lose_with b (put_ox o p) else drive_loop fuel source budget o p b
                      end
                  end
          end
      end
  end.

(** Every turn of the loop but the last reads at least one byte of the budget. *)
Definition drive (readiness : Readiness) p b : client * Exchange * list PolicyEvent.t :=
  match up_open p with
  | None => (p, b, [])
  | Some o =>
      let '(net, o, ok) := write_out (up_net p) o in
      let p := put_ox o (up_put_net net p) in
      if negb ok then let '(p, events) := lose p in (p, b, events)
      else
        match ox_source o with
        | None => let '(p, events) := lose p in (p, b, events)
        | Some source =>
            let '(p, b, returned) := drive_loop (S (Z.to_nat UP_READ_BUDGET)) source UP_READ_BUDGET o p b in
            match returned with
            | Some events => (p, b, events)
            | None => if rd_error readiness then let '(p, events) := lose p in (p, b, events) else (p, b, [])
            end
        end
  end.

(** ** The port *)

Section Register.
Context {O : Type} `{PortPoll O}.

Definition up_register p (poll : O) : client * O * result unit LoopExit.t :=
  match up_open p with
  | None => (p, poll, Ok ())
  | Some o =>
      match ox_source o, up_interest o with
      | Some source, Some wanted =>
          let '(poll, registered) :=
            match ox_registered o with
            | None => Registry_add Owner.Upstream source source wanted poll
            | Some current =>
                if bool_decide (current = wanted) then (poll, Ok ()) else Registry_modify Owner.Upstream source source wanted poll
            end in
          match registered with
          | Err e => (p, poll, Err e)
          | Ok _ => (put_ox (ox_put_registered (Some wanted) o) p, poll, Ok ())
          end
      | _, _ => (p, poll, Ok ())
      end
  end.
End Register.

Definition opt_min (a b : option Z) : option Z :=
  match a, b with Some a, Some b => Some (Z.min a b) | Some a, None => Some a | None, b => b end.
Definition up_next_deadline p : option Z :=
  let* o := up_open p in opt_min (opt_min (Some (ox_bound o)) (ox_start o)) (ox_phase_deadline o).

Definition is_due_at (now : Z) (deadline : option Z) : bool :=
  match deadline with Some deadline => deadline <=? now | None => false end.

Definition up_due (now : Z) (pb : client * Exchange) : client * Exchange * list PolicyEvent.t :=
  let '(p, b) := pb in
  match up_open p with
  | None => (p, b, [])
  | Some o =>
      let '(p, events) :=
        if ox_bound o <=? now then
          let '(p, channel) := end_exchange false p in (p, option_list (channel_timeout <$> channel))
        else if is_due_at now (ox_start o) then start_connect now p
        else if is_due_at now (ox_phase_deadline o) then lose p
        else (p, []) in
      (p, b, events)
  end.

Definition up_ready (value : Z) (readiness : Readiness) (pb : client * Exchange) : client * Exchange * list PolicyEvent.t :=
  let '(p, b) := pb in
  match up_open p with
  | None => (p, b, [])
  | Some o =>
      match ox_source o with
      | None => (p, b, [])
      | Some source =>
          if negb (source =? value) then (p, b, [])
          else
            match ox_phase o with
            | UpPhase.Connecting =>
                if rd_error readiness || rd_hangup readiness then let '(p, events) := lose p in (p, b, events)
                else if negb (rd_writable readiness) then (p, b, [])
                else
                  let '(net, connected) := connect_result source (up_net p) in
                  let p := up_put_net net p in
                  match connected with
                  | Ok _ => let '(p, at_) := up_now p in let '(p, events) := start_handshake at_ p in (p, b, events)
                  | Err _ => let '(p, events) := lose p in (p, b, events)
                  end
            | UpPhase.Handshaking | UpPhase.Exchanging => drive readiness p b
            | UpPhase.Armed | UpPhase.Expired => (p, b, [])
            end
      end
  end.

Definition up_forward (action_id : Z) p b : client * Exchange :=
  match up_open p with
  | Some _ => (up_fail "an I05 exchange started while an exchange is open" p, b)
  | None =>
      let '(b, taken) := take_request action_id b in
      match taken with
      | None => (up_fail "a forward without the staged request confirmed with its action ID" p, b)
      | Some request =>
          match i05_channel (sq_conn request) (sq_head request) with
          | None => (up_fail "the forwarded request is not one of the rendered I05 forms" p, b)
          | Some channel => (arm_exchange channel (bytes_of (sq_head request) ++ sq_body request) UPSTREAM_BOUND p, b)
          end
      end
  end.

Definition up_apply (output : PolicyOutput) (pb : client * Exchange) : client * Exchange :=
  let '(p, b) := pb in
  match po_kind output with
  | PolicyOutputKind.Base base =>
      match o_kind base with
      | OutputKind.Forward action_id => up_forward action_id p b
      | _ => (p, b)
      end
  | _ => (p, b)
  end.

(** The model sealed the consumed action, or the writer session ended. *)
Definition aborted (view : GateView) p : bool :=
  match ox_channel <$> up_open p with
  | Some (UpChannel.I05 conn _ _ _) => negb (gv_connection_open view conn)
  | Some (UpChannel.I07 write_id _ _ _) => negb (bool_decide (gv_pending_write view = Some write_id))
  | None => false
  end.

(** The I07 start, from the rendered write the model forwarded. *)
Definition start_write (view : GateView) p : client :=
  match gv_pending_write view with
  | None => p
  | Some write_id =>
      if bool_decide (up_started_write p = Some write_id) then p
      else
        let p := up_put_started (Some write_id) p in
        match up_open p with
        | Some _ => up_fail "an I07 write started while an exchange is open" p
        | None =>
            match gv_forwarded_write view with
            | Some (forwarded, rendered) =>
                if negb (forwarded =? write_id) then up_fail "a pending write without its rendered request" p
                else
                  match i07_channel write_id (rw_head rendered) with
                  | None => up_fail "the pending write's request is not one of the rendered I07 forms" p
                  | Some channel => arm_exchange channel (bytes_of (rw_head rendered) ++ rw_body rendered) WRITE_BOUND p
                  end
            | None => up_fail "a pending write without its rendered request" p
            end
        end
  end.

Definition up_sync (view : GateView) (pb : client * Exchange) : client * Exchange :=
  let '(p, b) := pb in
  let p := if aborted view p then (end_exchange false p).1 else p in
  (start_write view p, b).

#[export] Instance UpstreamClient_port : Port Exchange client := {
  register _ _ := up_register;
  next_deadline := up_next_deadline;
  due := up_due;
  ready := up_ready;
  apply := up_apply;
  sync := up_sync;
  failure := up_failure;
}.
#[export] Instance UpstreamClient_upstream : UpstreamPort Exchange client := { upstream_port := UpstreamClient_port }.
End Upstream.
