(* ===== verification/UpstreamProofs.v ===== *)
(** * The upstream port: what its methods do to the open exchange

    [wf_open] is the invariant of an exchange; [moves] relates it before and after a step that keeps it open, with its
    connection's evolution; [effect] is what a method returns: nothing while the exchange is open, or its one outcome. *)

From S2P Require Import Prelude Slices Inet Json Frame Render Types Journal Observation Config Policy Gate PolicyGate Sha256.
From S2P Require Import Http1 Http1Reader Substrate SubstrateProofs Tls UpstreamAnswer Upstream.
(** What a connection becomes by the calls the port makes on it. *)
Inductive evolves {T} `{Tls T} : T → T → Prop :=
| evolves_none tls : evolves tls tls
| evolves_read {W} (reader : Z → W → W * io (list Z)) w tls tls' :
    evolves (read_tls reader tls w).1.1 tls' → evolves tls tls'
| evolves_write {W} (writer : list Z → W → W * io Z) w tls tls' :
    evolves (write_tls writer tls w).1.1 tls' → evolves tls tls'
| evolves_process tls tls' : evolves (process_new_packets tls).1 tls' → evolves tls tls'
| evolves_take room tls tls' : evolves (read_plaintext room tls).1 tls' → evolves tls tls'
| evolves_give bytes tls tls' : evolves (write_plaintext bytes tls).1 tls' → evolves tls tls'.

(** A new connection was given nothing and yielded nothing. *)
Class ClientTranscript (C T : Type) `{TlsClient C T, TlsTranscript T, !TlsReceived T} := {
  given_client (config : C) name (tls : T) : (client_connection config name).2 = Some tls → given tls = [];
  got_client (config : C) name (tls : T) : (client_connection config name).2 = Some tls → got tls = [];
}.

Section UpstreamProofs.
Context {N C T : Type} {HN : ConnectNet N} {HT : Tls T} {HC : TlsClient C T}.
Context {LN : ConnectNetLaws N} {LT : TlsLaws T} {GT : TlsTranscript T} {RT : TlsReceived T} {CT : ClientTranscript C T}.
Abbreviation client := (UpstreamClient N C T).
Abbreviation open_t := (OpenExchange T).
Implicit Types (p : client) (o : open_t) (b : Exchange).

Lemma evolves_trans (t1 t2 t3 : T) : evolves t1 t2 → evolves t2 t3 → evolves t1 t3.
Proof.
  induction 1 as [|W reader w tls t _ IH|W writer w tls t _ IH|tls t _ IH|room tls t _ IH|bytes tls t _ IH]; intros H3; [done|..].
  - by apply (evolves_read reader w), IH.
  - by apply (evolves_write writer w), IH.
  - by apply evolves_process, IH.
  - by apply (evolves_take room), IH.
  - by apply (evolves_give bytes), IH.
Qed.

Lemma evolves_flush {W} (writer : list Z → W → W * io Z) (tls : T) w : evolves tls (flush writer tls w).1.1.
Proof.
  unfold flush. generalize (S (queued_records tls)). intros fuel. revert tls w.
  induction fuel as [|fuel IH]; intros tls w; cbn [flush_loop]; destruct (wants_write tls); try apply evolves_none.
  apply (evolves_write writer w). specialize (IH (write_tls writer tls w).1.1 (write_tls writer tls w).1.2).
  destruct (write_tls writer tls w) as [[tls' w'] [count|[]]]; cbn [fst snd] in *; try apply evolves_none.
  destruct (count =? 0); [apply evolves_none|done].
Qed.

(** ** The invariant of an open exchange *)

Definition before_handshake (phase : UpPhase.t) : bool :=
  match phase with UpPhase.Armed | UpPhase.Connecting => true | _ => false end.
Definition has_tls (phase : UpPhase.t) : bool :=
  match phase with UpPhase.Handshaking | UpPhase.Exchanging => true | _ => false end.

Record wf_open o : Prop := mkWfOpen {
  wo_sent : 0 ≤ ox_sent o ≤ zlen (ox_request o);
  wo_fresh : before_handshake (ox_phase o) = true → ox_sent o = 0 ∧ ox_reader o = ResponseReader_new;
  wo_tls : is_Some (ox_tls o) ↔ has_tls (ox_phase o) = true;
  wo_source : is_Some (ox_source o) ↔ (ox_phase o ≠ UpPhase.Armed ∧ ox_phase o ≠ UpPhase.Expired);
  wo_start : is_Some (ox_start o) → ox_phase o = UpPhase.Armed;
  wo_deadline : is_Some (ox_phase_deadline o) →
    is_i05 (ox_channel o) = true ∧ (ox_phase o = UpPhase.Connecting ∨ ox_phase o = UpPhase.Handshaking);
  wo_given tls : ox_tls o = Some tls → given tls = take (Z.to_nat (ox_sent o)) (ox_request o);
  wo_got tls : ox_tls o = Some tls → same_reader (ox_reader o) (Http1.push (got tls) ResponseReader_new).1;
}.
Definition wf p : Prop := ∀ o, up_open p = Some o → wf_open o.

Definition same_exchange o o' : Prop :=
  ox_channel o' = ox_channel o ∧ ox_request o' = ox_request o ∧ ox_bound o' = ox_bound o.
Lemma same_exchange_refl o : same_exchange o o.
Proof. done. Qed.
Lemma same_exchange_trans o1 o2 o3 : same_exchange o1 o2 → same_exchange o2 o3 → same_exchange o1 o3.
Proof. unfold same_exchange. intuition congruence. Qed.

(** The same exchange, a step on: only its connection, its reader and what was sent changed. *)
Record moves o o' : Prop := mkMoves {
  mv_same : same_exchange o o';
  mv_phase : ox_phase o' = ox_phase o;
  mv_source : ox_source o' = ox_source o;
  mv_wf : wf_open o → wf_open o';
  mv_tls tls' : ox_tls o' = Some tls' → ∃ tls, ox_tls o = Some tls ∧ evolves tls tls';
}.
Lemma moves_refl o : moves o o.
Proof. split; try done. intros tls' H. exists tls'. split; [done|apply evolves_none]. Qed.
Lemma moves_trans o1 o2 o3 : moves o1 o2 → moves o2 o3 → moves o1 o3.
Proof.
  intros [S1 P1 Q1 W1 T1] [S2 P2 Q2 W2 T2]. split; [by eapply same_exchange_trans|congruence|congruence|auto|].
  intros tls' (t2 & H2 & E2)%T2. destruct (T1 _ H2) as (t1 & H1 & E1). exists t1. split; [done|by eapply evolves_trans].
Qed.

(** A step of the connection that the reader and the bytes sent follow. *)
Lemma moves_put o tls tls' sent reader :
  ox_tls o = Some tls → evolves tls tls' →
  (wf_open o → 0 ≤ sent ≤ zlen (ox_request o) ∧ given tls' = take (Z.to_nat sent) (ox_request o) ∧
     same_reader reader (Http1.push (got tls') ResponseReader_new).1) →
  moves o (ox_put_reader reader (ox_put_tls (Some tls') (ox_put_sent sent o))).
Proof.
  intros Ht He Hw. split; [done|done|done| |].
  - intros W. destruct (Hw W) as (H1 & H2 & H3). destruct W as [W1 W2 W3 W4 W5 W6 W7 W8].
    assert (has_tls (ox_phase o) = true) as Hp by (apply W3; rewrite Ht; eauto).
    split; cbn; try done.
    + by destruct (ox_phase o).
    + by intros t [= <-].
    + by intros t [= <-].
  - cbn. intros t [= <-]. eauto.
Qed.
Lemma ox_put_same_reader o : ox_put_reader (ox_reader o) o = o.
Proof. by destruct o. Qed.
Lemma ox_put_same_sent o : ox_put_sent (ox_sent o) o = o.
Proof. by destruct o. Qed.

(** A step of the connection that neither takes request bytes nor yields plaintext. *)
Lemma moves_tls o tls tls' :
  ox_tls o = Some tls → evolves tls tls' → given tls' = given tls → got tls' = got tls → moves o (ox_put_tls (Some tls') o).
Proof.
  intros Ht He Hg Hr.
  replace (ox_put_tls (Some tls') o) with (ox_put_reader (ox_reader o) (ox_put_tls (Some tls') (ox_put_sent (ox_sent o) o)))
    by (by destruct o).
  apply (moves_put o tls); [done..|]. intros W. split; [apply W|]. rewrite Hg, Hr. split; [by apply (wo_given o W)|by apply (wo_got o W)].
Qed.

(** ** Writing *)

Lemma send_loop_spec fuel source request tls sent net :
  0 ≤ sent ≤ zlen request →
  let '(tls', sent', net', ok) := send_loop fuel source request tls sent net in
  evolves tls tls' ∧ got tls' = got tls ∧ sent ≤ sent' ≤ zlen request ∧
  (given tls = take (Z.to_nat sent) request → given tls' = take (Z.to_nat sent') request).
Proof.
  revert tls sent net. induction fuel as [|fuel IH]; intros tls sent net Hs; cbn [send_loop];
    (destruct (Z.leb_spec (zlen request) sent); [split; [apply evolves_none|]; split; [done|]; split; [lia|done]|]);
    [split; [apply evolves_none|]; split; [done|]; split; [lia|done]|].
  pose proof (given_write_plaintext (drop (Z.to_nat sent) request) tls) as Hg.
  pose proof (got_write_plaintext (drop (Z.to_nat sent) request) tls) as Hr.
  pose proof (write_plaintext_count (drop (Z.to_nat sent) request) tls) as Hc.
  pose proof (evolves_give (drop (Z.to_nat sent) request) tls) as He.
  destruct (write_plaintext _ tls) as [tls1 [count|e]]; cbn [fst snd] in *.
  - specialize (Hc count eq_refl). assert (zlen (drop (Z.to_nat sent) request) = zlen request - sent) as Hd.
    { unfold zlen in *. rewrite length_drop. lia. }
    rewrite Hd in Hc. assert (Z.min count (zlen request - sent) = count) as -> by lia.
    assert (given tls = take (Z.to_nat sent) request → given tls1 = take (Z.to_nat (sent + count)) request) as Hgiven.
    { intros H0. rewrite Hg, H0, Z2Nat.inj_add by lia. by rewrite take_take_drop. }
    destruct (Z.eqb_spec count 0) as [->|].
    + split; [apply He; apply evolves_none|]. split; [done|]. split; [lia|]. rewrite Z.add_0_r in Hgiven. done.
    + pose proof (given_write_tls (net_write (c_send source)) tls1 net) as Hg2.
      pose proof (got_write_tls (net_write (c_send source)) tls1 net) as Hr2.
      pose proof (evolves_write (net_write (c_send source)) net tls1) as He2.
      destruct (write_tls _ tls1 net) as [[tls2 net2] written]; cbn [fst snd] in *.
      assert (evolves tls tls2) as He3 by (apply He, He2; apply evolves_none).
      destruct written as [taken|[]].
      * specialize (IH tls2 (sent + count) net2 ltac:(lia)). destruct (send_loop fuel source request tls2 (sent + count) net2) as [[[tls3 sent3] net3] ok].
        destruct IH as (I1 & I2 & I3 & I4). split; [by eapply evolves_trans|]. split; [congruence|]. split; [lia|].
        intros H0. apply I4. rewrite Hg2. auto.
      * split; [done|]. split; [congruence|]. split; [lia|]. intros H0. rewrite Hg2. auto.
      * split; [done|]. split; [congruence|]. split; [lia|]. intros H0. rewrite Hg2. auto.
  - split; [apply He; apply evolves_none|]. split; [done|]. split; [lia|]. intros H0. by rewrite Hg, app_nil_r.
Qed.

Lemma write_out_moves net o : wf_open o → moves o (write_out net o).1.2.
Proof.
  intros W. unfold write_out. destruct (ox_source o) as [source|]; [|apply moves_refl].
  destruct (ox_tls o) as [tls|] eqn:Ht; [|apply moves_refl].
  assert (∀ tls1 sent1 net1 ok,
    (if negb (is_handshaking tls) then send_loop (length (ox_request o)) source (ox_request o) tls (ox_sent o) net
     else (tls, ox_sent o, net, true)) = (tls1, sent1, net1, ok) →
    evolves tls tls1 ∧ got tls1 = got tls ∧ 0 ≤ sent1 ≤ zlen (ox_request o) ∧ given tls1 = take (Z.to_nat sent1) (ox_request o))
    as Hs.
  { intros tls1 sent1 net1 ok. pose proof (wo_sent o W) as Hsent. pose proof (wo_given o W tls Ht) as Hg. destruct (is_handshaking tls); cbn [negb].
    - intros [= <- <- <- <-]. split; [apply evolves_none|]. done.
    - intros E. pose proof (send_loop_spec (length (ox_request o)) source (ox_request o) tls (ox_sent o) net Hsent) as Hl.
      rewrite E in Hl. destruct Hl as (H1 & H2 & H3 & H4). split; [done|]. split; [done|]. split; [lia|auto]. }
  destruct (if negb (is_handshaking tls) then _ else _) as [[[tls1 sent1] net1] ok]. specialize (Hs _ _ _ _ eq_refl).
  destruct Hs as (H1 & H2 & H3 & H4).
  assert (∀ tls2, evolves tls1 tls2 → given tls2 = given tls1 → got tls2 = got tls1 →
    moves o (ox_put_tls (Some tls2) (ox_put_sent sent1 o))) as Hm.
  { intros tls2 E1 E2 E3.
    replace (ox_put_tls (Some tls2) (ox_put_sent sent1 o))
      with (ox_put_reader (ox_reader o) (ox_put_tls (Some tls2) (ox_put_sent sent1 o))) by (by destruct o).
    apply (moves_put o tls); [done|by eapply evolves_trans|]. intros _. split; [done|]. rewrite E2, E3, H2. split; [done|by apply (wo_got o W)]. }
  destruct ok; cbn [negb].
  - pose proof (evolves_flush (net_write (c_send source)) tls1 net1) as He.
    pose proof (given_flush (net_write (c_send source)) tls1 net1) as Hg.
    pose proof (got_flush (net_write (c_send source)) tls1 net1) as Hr.
    destruct (flush _ tls1 net1) as [[tls2 net2] ok]. cbn [fst snd] in *. by apply Hm.
  - apply Hm; [apply evolves_none|done|done].
Qed.

(** ** Reading *)

Lemma push_more l k r r0 :
  same_reader r (Http1.push l r0).1 → same_reader (Http1.push k r).1 (Http1.push (l ++ k) r0).1.
Proof. intros Hr. rewrite push_app. by apply push_proper. Qed.

Lemma drain_loop_spec fuel tls reader :
  let '(tls', reader', drained) := drain_loop fuel tls reader in
  evolves tls tls' ∧ given tls' = given tls ∧
  (same_reader reader (Http1.push (got tls) ResponseReader_new).1 →
   same_reader reader' (Http1.push (got tls') ResponseReader_new).1) ∧
  (drained = Drained.Complete → progress reader' = ResponseProgress.Complete).
Proof.
  revert tls reader. induction fuel as [|fuel IH]; intros tls reader; cbn [drain_loop]; [split; [apply evolves_none|done]|].
  pose proof (given_read_plaintext UP_CHUNK tls) as Hg. pose proof (got_read_plaintext UP_CHUNK tls) as Hr.
  pose proof (evolves_take UP_CHUNK tls) as He.
  destruct (read_plaintext UP_CHUNK tls) as [tls1 read]. cbn [fst snd] in *.
  assert (evolves tls tls1) as He1 by (apply He; apply evolves_none).
  destruct read as [[|x chunk]|[]].
  - rewrite app_nil_r in Hr. rewrite Hr. split; [done|]. split; [done|]. split; [done|]. by destruct (progress reader).
  - pose proof (push_more (got tls) (x :: chunk) reader ResponseReader_new) as Hm. rewrite <-Hr in Hm.
    destruct (Http1.push (x :: chunk) reader) as [reader1 pushed]. cbn [fst] in Hm.
    specialize (IH tls1 reader1). destruct (drain_loop fuel tls1 reader1) as [[tls2 reader2] drained].
    destruct IH as (I1 & I2 & I3 & I4).
    destruct pushed; (split; [first [done|by eapply evolves_trans]|]); (split; [congruence|]); by auto.
  - rewrite app_nil_r in Hr. rewrite Hr. split; [done|]. split; [done|]. split; [done|]. by destruct (progress reader).
  - rewrite app_nil_r in Hr. rewrite Hr. split; [done|]. split; [done|]. split; [done|]. by destruct (progress reader).
Qed.

Lemma drain_answer_moves o :
  wf_open o →
  moves o (drain_answer o).1 ∧
  ((drain_answer o).2 = Drained.Complete → progress (ox_reader (drain_answer o).1) = ResponseProgress.Complete).
Proof.
  intros W. unfold drain_answer. destruct (ox_tls o) as [tls|] eqn:Ht; [|split; [apply moves_refl|done]].
  pose proof (drain_loop_spec (S (held_plaintext tls)) tls (ox_reader o)) as Hd.
  destruct (drain_loop _ tls (ox_reader o)) as [[tls1 reader1] drained]. destruct Hd as (H1 & H2 & H3 & H4). cbn [fst snd].
  split; [|done].
  replace (ox_put_reader reader1 (ox_put_tls (Some tls1) o))
    with (ox_put_reader reader1 (ox_put_tls (Some tls1) (ox_put_sent (ox_sent o) o))) by (by destruct o).
  apply (moves_put o tls); [done..|]. intros _. split; [apply W|]. rewrite H2. split; [by apply (wo_given o W)|].
  by apply H3, (wo_got o W).
Qed.

(** ** Outcomes and effects *)

(** The event of a complete answer, and the board it is staged on. *)
Definition answer_event (c : UpChannel.t) (status : Z) (body : list Z) (uid version : option string) b
    : Exchange * option PolicyEvent.t :=
  match c with
  | UpChannel.I05 conn _ _ _ =>
      let '(b, staged) := stage_response conn status body uid version b in
      (b, match staged with Ok event => Some event | Err _ => None end)
  | UpChannel.I07 write_id _ _ _ => (b, Some (write_response write_id status body uid version))
  end.

(** The outcome an open exchange may end in: a loss; its timeout, in [due] at or after its bound; or the answer the
    server gave on its connection, read before the bound, with the identity its form requires. *)
Inductive outcome (due_at : option Z) o b : PolicyEvent.t → Exchange → Prop :=
| outcome_lost : outcome due_at o b (channel_lost (ox_channel o)) b
| outcome_timeout now : due_at = Some now → ox_bound o ≤ now → outcome due_at o b (channel_timeout (ox_channel o)) b
| outcome_answer (tls0 tls : T) (net : N) status body uid version event b' :
    due_at = None → ox_tls o = Some tls0 → evolves tls0 tls →
    Http1.answer (Http1.push (got tls) ResponseReader_new).1 = Some (status, body) →
    (c_monotonic net).2 < ox_bound o →
    identity (form (ox_channel o) status) body = Some (uid, version) →
    answer_event (ox_channel o) status body uid version b = (b', Some event) → outcome due_at o b event b'.

(** What one call makes of the open exchange. *)
Inductive effect (due_at : option Z) p b : list PolicyEvent.t → client → Exchange → Prop :=
| effect_idle p' : up_open p = None → up_open p' = None → effect due_at p b [] p' b
| effect_stays p' o o' :
    up_open p = Some o → up_open p' = Some o' → same_exchange o o' → wf_open o' → effect due_at p b [] p' b
| effect_ends p' o event b' :
    up_open p = Some o → up_open p' = None → outcome due_at o b event b' → effect due_at p b [event] p' b'
| effect_fails p' o :
    up_open p = Some o → up_open p' = None → is_Some (up_failure p') → is_Some (ex_response b) → effect due_at p b [] p' b.

Lemma end_exchange_spec notify p o :
  up_open p = Some o → up_open (end_exchange notify p).1 = None ∧ (end_exchange notify p).2 = Some (ox_channel o).
Proof.
  intros Ho. unfold end_exchange. rewrite Ho. split; [|done]. cbn [fst].
  assert (∀ p, up_open p = None → up_open (match ox_source o with Some source => up_close source p | None => p end) = None)
    as Hc by (by intros p0 H0; destruct (ox_source o)).
  apply Hc. destruct (ox_source o), (ox_tls o); try done. destruct (_ && _); [|done]. by destruct (flush _ _ _) as [[? ?] ?].
Qed.

Lemma lose_effect due_at p b p1 o o1 :
  up_open p = Some o → up_open p1 = Some o1 → ox_channel o1 = ox_channel o →
  effect due_at p b (lose p1).2 (lose p1).1 b.
Proof.
  intros Ho Ho1 Hc. unfold lose. destruct (end_exchange_spec false p1 o1 Ho1) as [H1 H2].
  destruct (end_exchange false p1) as [p2 channel]. cbn [fst snd] in *. rewrite H2. cbn [fmap option_fmap option_map option_list].
  rewrite Hc. eapply effect_ends; [done|done|apply outcome_lost].
Qed.

(** ** The handshake and the connect *)

Lemma start_handshake_effect due_at now p b p1 o o1 :
  up_open p = Some o → up_open p1 = Some o1 → same_exchange o o1 →
  before_handshake (ox_phase o1) = true → ox_start o1 = None → ox_sent o1 = 0 → ox_reader o1 = ResponseReader_new →
  is_Some (ox_source o1) →
  effect due_at p b (start_handshake now p1).2 (start_handshake now p1).1 b.
Proof.
  intros Ho Ho1 Hsame Hph Hst Hs Hr Hsrc. unfold start_handshake. rewrite Ho1. set (name := server_name (up_address p1)).
  assert (∀ p2 tls,
    (if is_i05 (ox_channel o1) then let '(config, tls) := client_connection (up_effect p1) name in (up_put_effect config p1, tls)
     else let '(config, tls) := client_connection (up_writer p1) name in (up_put_writer config p1, tls)) = (p2, tls) →
    up_open p2 = Some o1 ∧ ∀ t, tls = Some t → given t = [] ∧ got t = []) as Hnew.
  { intros p2 tls. destruct (is_i05 _).
    - pose proof (given_client (up_effect p1) name) as H1. pose proof (got_client (up_effect p1) name) as H2.
      destruct (client_connection (up_effect p1) name) as [config t]. intros [= <- <-]. split; [done|]. auto.
    - pose proof (given_client (up_writer p1) name) as H1. pose proof (got_client (up_writer p1) name) as H2.
      destruct (client_connection (up_writer p1) name) as [config t]. intros [= <- <-]. split; [done|]. auto. }
  destruct (if is_i05 _ then _ else _) as [p2 [tls|]]; specialize (Hnew _ _ eq_refl) as [Hp2 Hnew];
    [|apply (lose_effect _ _ _ _ o o1); [done|done|apply Hsame]].
  destruct (Hnew tls eq_refl) as [Hgiven Hgot].
  set (deadline := if is_i05 _ then _ else _).
  set (o2 := ox_put_phase_deadline deadline (ox_put_phase UpPhase.Handshaking (ox_put_tls (Some tls) o1))).
  assert (wf_open o2) as W.
  { split; cbn.
    - rewrite Hs. pose proof (zlen_nonneg (ox_request o1)). lia.
    - done.
    - by split.
    - by split.
    - rewrite Hst. by intros [? ?].
    - unfold deadline. destruct (is_i05 (ox_channel o1)); [by auto|by intros [? ?]].
    - intros t [= <-]. by rewrite Hgiven, Hs.
    - intros t [= <-]. rewrite Hgot, Hr. left. by rewrite push_nil. }
  pose proof (write_out_moves (up_net p2) o2 W) as Hm. destruct (write_out (up_net p2) o2) as [[net o3] ok]. cbn [fst snd] in Hm.
  assert (same_exchange o o3) as Hsame3 by (eapply same_exchange_trans; [exact Hsame|apply Hm]).
  destruct ok; cbn [negb].
  - eapply effect_stays; [done|done|done|]. by apply Hm.
  - by apply (lose_effect _ _ _ _ o o3); [..|apply Hsame3].
Qed.

Lemma start_connect_effect now p b o :
  up_open p = Some o → wf_open o → is_Some (ox_start o) →
  effect (Some now) p b (start_connect now p).2 (start_connect now p).1 b.
Proof.
  intros Ho W Hst. unfold start_connect. destruct (connect (up_address p) (up_net p)) as [net started].
  change (up_open (up_put_net net p)) with (up_open p). rewrite Ho.
  pose proof (wo_start o W Hst) as Hph. destruct (wo_fresh o W) as [Hsent Hreader]; [by rewrite Hph|].
  destruct started as [[source []]|errno].
  - by apply (start_handshake_effect _ _ _ _ _ o (ox_put_source (Some source) (ox_put_start None o))); try done; cbn; rewrite ?Hph.
  - cbn [fst snd]. eapply effect_stays; [done|done|done|]. destruct W as [W1 W2 W3 W4 W5 W6 W7 W8]. rewrite Hph in *. split; cbn; try done.
    + by destruct (is_i05 _) eqn:E; [auto|intros [? ?]].
  - by apply (lose_effect _ _ _ _ o (ox_put_start None o)).
Qed.

(** ** The answer *)

(** The exchange later in the same call, its connection evolved. *)
Record along o o1 : Prop := mkAlong {
  al_same : same_exchange o o1;
  al_wf : wf_open o1;
  al_tls tls1 : ox_tls o1 = Some tls1 → ∃ tls0, ox_tls o = Some tls0 ∧ evolves tls0 tls1;
}.
Lemma along_refl o : wf_open o → along o o.
Proof. intros W. split; [done|done|]. intros tls H. exists tls. split; [done|apply evolves_none]. Qed.
Lemma along_moves o o1 o2 : along o o1 → moves o1 o2 → along o o2.
Proof.
  intros [A1 A2 A3] [M1 _ _ M2 M3]. split; [by eapply same_exchange_trans|auto|].
  intros tls2 (tls1 & H1 & E1)%M3. destruct (A3 _ H1) as (tls0 & H0 & E0). exists tls0. split; [done|by eapply evolves_trans].
Qed.
Lemma along_tls o o1 tls tls' :
  along o o1 → ox_tls o1 = Some tls → evolves tls tls' → given tls' = given tls → got tls' = got tls →
  along o (ox_put_tls (Some tls') o1).
Proof. intros Ha Ht He Hg Hr. eapply along_moves; [done|by apply (moves_tls o1 tls)]. Qed.

Lemma along_lose due_at p b p1 o o1 :
  up_open p = Some o → up_open p1 = Some o1 → along o o1 → effect due_at p b (lose p1).2 (lose p1).1 b.
Proof. intros Ho Ho1 Ha. apply (lose_effect _ _ _ _ o o1); [done|done|apply (al_same _ _ Ha)]. Qed.

Lemma answer_cases (c : UpChannel.t) reader b (p : client) :
  let '(p', b', events) := build_outcome c reader p b in
  up_open p' = up_open p ∧
  (events = [channel_lost c] ∧ b' = b ∨
   events = [] ∧ b' = b ∧ is_Some (up_failure p') ∧ is_Some (ex_response b) ∨
   ∃ status body uid version event, events = [event] ∧ Http1.answer reader = Some (status, body) ∧
     identity (form c status) body = Some (uid, version) ∧ answer_event c status body uid version b = (b', Some event)).
Proof.
  unfold build_outcome. destruct (Http1.answer reader) as [[status body]|]; [|by auto].
  destruct (identity (form c status) body) as [[uid version]|] eqn:Ei; [|by auto].
  destruct c as [conn verb kind name|write_id operation plural name].
  - unfold stage_response at 1. destruct (ex_response b) as [r|] eqn:Er.
    + split; [by unfold up_fail; destruct (up_failure p)|]. right. left. split; [done|]. split; [done|].
      split; [unfold up_fail; destruct (up_failure p) eqn:Ef; [rewrite Ef|]; eauto|eauto].
    + destruct (negb _) eqn:E1; [by auto|]. destruct (_ <? _) eqn:E2; [by auto|].
      split; [done|]. right. right. do 5 eexists. split; [done|]. split; [done|]. split; [done|].
      cbn [answer_event]. unfold stage_response. by rewrite Er, E1, E2.
  - split; [done|]. right. right. do 5 eexists. split; [done|]. split; [done|]. split; [done|]. done.
Qed.

Lemma complete_effect p b p1 o o1 :
  up_open p = Some o → up_open p1 = Some o1 → along o o1 → is_Some (ox_tls o1) →
  effect None p b (complete p1 b).2 (complete p1 b).1.1 (complete p1 b).1.2.
Proof.
  intros Ho Ho1 [A1 A2 A3] [tls1 Ht]. unfold complete, up_now.
  destruct (c_monotonic (up_net p1)) as [net at_] eqn:Eclock. change (up_open (up_put_net net p1)) with (up_open p1). rewrite Ho1.
  destruct (Z.leb_spec (ox_bound o1) at_) as [Hb|Hb].
  - cbn [fst snd]. eapply effect_stays; [done|done|exact A1|].
    destruct A2 as [W1 W2 W3 W4 W5 W6 W7 W8]. split; cbn; try done; try (split; [by intros [? ?]|intuition congruence]); by intros [? ?].
  - set (p2 := put_ox (ox_put_reader ResponseReader_new o1) (up_put_net net p1)).
    destruct (end_exchange_spec true p2 (ox_put_reader ResponseReader_new o1) eq_refl) as [H1 H2].
    destruct (end_exchange true p2) as [p3 channel]. cbn [fst snd] in H1, H2. rewrite H2. cbn [ox_channel ox_put_reader].
    pose proof (answer_cases (ox_channel o1) (ox_reader o1) b p3) as Hcases.
    destruct (build_outcome _ _ p3 b) as [[p4 b4] events].
    destruct Hcases as [Hopen Hcases]. rewrite H1 in Hopen. destruct A1 as (C1 & C2 & C3). cbn [fst snd].
    destruct Hcases as [[-> ->]|[(-> & -> & Hf & Hr)|(status & body & uid & version & event & -> & Ha & Hi & He)]].
    + rewrite C1. by eapply effect_ends; [done..|apply outcome_lost].
    + by eapply effect_fails.
    + destruct (A3 tls1 Ht) as (tls0 & Ht0 & Hev). eapply effect_ends; [done|done|].
      eapply (outcome_answer None o b tls0 tls1 (up_net p1)); [done|done|done| | | |].
      * rewrite <-(wo_got o1 A2 tls1 Ht). exact Ha.
      * rewrite Eclock. cbn. by rewrite <-C3.
      * by rewrite <-C1.
      * by rewrite <-C1.
Qed.

Lemma after_client_handshake_along o o1 o2 tls :
  along o o1 → ox_tls o1 = Some tls → after_client_handshake tls o1 = Some o2 → along o o2 ∧ ox_tls o2 = Some tls.
Proof.
  intros [A1 A2 A3] Ht. unfold after_client_handshake. destruct (bool_decide _) eqn:Eph; cbn [andb]; [|by intros [= <-]].
  apply bool_decide_eq_true in Eph. destruct (is_handshaking tls); cbn [negb]; [by intros [= <-]|].
  destruct (is_tls13 tls); cbn [negb]; [|done]. intros [= <-]. split; [|done]. split; [done| |done].
  destruct A2 as [W1 W2 W3 W4 W5 W6 W7 W8]. rewrite Eph in *. split; cbn; try done.
  - rewrite W4. split; intros _; split; done.
  - intros H0. by apply W5 in H0.
Qed.

Lemma drive_loop_effect fuel source budget o1 p1 p b o :
  up_open p = Some o → along o o1 →
  let '(p', b', returned) := drive_loop fuel source budget o1 p1 b in
  match returned with
  | Some events => effect None p b events p' b'
  | None => b' = b ∧ ∃ o', up_open p' = Some o' ∧ along o o'
  end.
Proof.
  intros Ho. revert budget o1 p1. induction fuel as [|fuel IH]; intros budget o1 p1 Ha; cbn [drive_loop]; [by eauto|].
  assert (∀ p2 o2, up_open p2 = Some o2 → along o o2 →
    let '(p', b', returned) := lose_with b p2 in
    match returned with Some events => effect None p b events p' b'
    | None => b' = b ∧ ∃ o', up_open p' = Some o' ∧ along o o' end) as Hlose.
  { intros p2 o2 Ho2 Ha2. unfold lose_with. pose proof (along_lose None p b p2 o o2 Ho Ho2 Ha2) as Hl. by destruct (lose p2). }
  destruct (ox_tls o1) as [tls|] eqn:Ht; [|by apply (Hlose _ o1)].
  pose proof (given_read_tls (net_read (c_recv source)) tls (up_net p1, budget)) as Hg.
  pose proof (got_read_tls (net_read (c_recv source)) tls (up_net p1, budget)) as Hr.
  pose proof (evolves_read (net_read (c_recv source)) (up_net p1, budget) tls) as He.
  destruct (read_tls _ tls (up_net p1, budget)) as [[tls1 [net budget1]] read]. cbn [fst snd] in *.
  assert (along o (ox_put_tls (Some tls1) o1)) as Ha1 by (apply (along_tls o o1 tls); [done|done|apply He, evolves_none|done|done]).
  destruct read as [count|[]]; [|cbn; eauto|by apply (Hlose _ (ox_put_tls (Some tls1) o1))].
  destruct (count =? 0); [by apply (Hlose _ (ox_put_tls (Some tls1) o1))|].
  pose proof (given_process tls1) as Hg2. pose proof (got_process tls1) as Hr2. pose proof (evolves_process tls1) as He2.
  destruct (process_new_packets tls1) as [tls2 ok]. cbn [fst] in *.
  set (o2 := ox_put_tls (Some tls2) (ox_put_tls (Some tls1) o1)).
  assert (along o o2) as Ha2 by (apply (along_tls o _ tls1); [done|done|apply He2, evolves_none|done|done]).
  destruct ok; cbn [negb].
  2:{ pose proof (given_flush (net_write (c_send source)) tls2 (up_net (up_put_net net p1))) as Hg3.
      pose proof (got_flush (net_write (c_send source)) tls2 (up_net (up_put_net net p1))) as Hr3.
      pose proof (evolves_flush (net_write (c_send source)) tls2 (up_net (up_put_net net p1))) as He3.
      destruct (flush _ tls2 _) as [[tls3 net3] ok3]. cbn [fst] in *.
      apply (Hlose _ (ox_put_tls (Some tls3) o2)); [done|]. by apply (along_tls o o2 tls2). }
  destruct (after_client_handshake tls2 o2) as [o3|] eqn:Eh; [|by apply (Hlose _ o2)].
  destruct (after_client_handshake_along o o2 o3 tls2 Ha2 eq_refl Eh) as [Ha3 Ht3].
  destruct (drain_answer_moves o3 (al_wf _ _ Ha3)) as [Hm _].
  assert (is_Some (ox_tls (drain_answer o3).1)) as Ht4.
  { unfold drain_answer. rewrite Ht3. destruct (drain_loop _ _ _) as [[? ?] ?]. cbn. eauto. }
  destruct (drain_answer o3) as [o4 drained]. cbn [fst] in *. pose proof (along_moves _ _ _ Ha3 Hm) as Ha4.
  destruct drained; [| |by apply (Hlose _ o4)].
  - pose proof (write_out_moves (up_net (up_put_net net p1)) o4 (al_wf _ _ Ha4)) as Hm5.
    destruct (write_out _ o4) as [[net5 o5] ok5]. cbn [fst snd] in Hm5. pose proof (along_moves _ _ _ Ha4 Hm5) as Ha5.
    destruct ok5; cbn [negb]; [by apply IH|by apply (Hlose _ o5)].
  - pose proof (complete_effect p b (put_ox o4 (up_put_net net p1)) o o4 Ho eq_refl Ha4 Ht4) as Hc.
    by destruct (complete _ b) as [[p6 b6] events].
Qed.

Lemma along_stays due_at p b p1 o o1 :
  up_open p = Some o → up_open p1 = Some o1 → along o o1 → effect due_at p b [] p1 b.
Proof. intros Ho Ho1 [A1 A2 _]. by eapply effect_stays. Qed.

Lemma drive_effect readiness p b o :
  up_open p = Some o → wf_open o →
  effect None p b (drive readiness p b).2 (drive readiness p b).1.1 (drive readiness p b).1.2.
Proof.
  intros Ho W. unfold drive. rewrite Ho. pose proof (write_out_moves (up_net p) o W) as Hm.
  destruct (write_out (up_net p) o) as [[net o1] ok]. cbn [fst snd] in Hm.
  pose proof (along_moves _ _ _ (along_refl o W) Hm) as Ha. set (p1 := put_ox o1 (up_put_net net p)).
  assert (∀ p2 o2, up_open p2 = Some o2 → along o o2 →
    effect None p b (let '(p, events) := lose p2 in (p, b, events)).2 (let '(p, events) := lose p2 in (p, b, events)).1.1
      (let '(p, events) := lose p2 in (p, b, events)).1.2) as Hlose.
  { intros p2 o2 Ho2 Ha2. pose proof (along_lose None p b p2 o o2 Ho Ho2 Ha2) as Hl. by destruct (lose p2). }
  destruct ok; cbn [negb]; [|by apply (Hlose _ o1)].
  destruct (ox_source o1) as [source|]; [|by apply (Hlose _ o1)].
  pose proof (drive_loop_effect (S (Z.to_nat UP_READ_BUDGET)) source UP_READ_BUDGET o1 p1 p b o Ho Ha) as Hd.
  destruct (drive_loop _ source _ o1 p1 b) as [[p2 b2] [events|]]; [exact Hd|].
  destruct Hd as (-> & o2 & Ho2 & Ha2). destruct (rd_error readiness); [by apply (Hlose _ o2)|]. cbn [fst snd]. by apply (along_stays _ _ _ _ o o2).
Qed.

(** ** The port's methods *)

Lemma ready_effect value readiness p b :
  wf p →
  effect None p b (up_ready value readiness (p, b)).2 (up_ready value readiness (p, b)).1.1 (up_ready value readiness (p, b)).1.2.
Proof.
  intros W. unfold up_ready. destruct (up_open p) as [o|] eqn:Ho; [|by apply effect_idle].
  specialize (W o Ho). assert (effect None p b [] p b) as Hsame by (by apply (along_stays None p b p o o Ho Ho), along_refl).
  assert (∀ p2 o2, up_open p2 = Some o2 → along o o2 →
    effect None p b (let '(p, events) := lose p2 in (p, b, events)).2 (let '(p, events) := lose p2 in (p, b, events)).1.1
      (let '(p, events) := lose p2 in (p, b, events)).1.2) as Hlose.
  { intros p2 o2 Ho2 Ha2. pose proof (along_lose None p b p2 o o2 Ho Ho2 Ha2) as Hl. by destruct (lose p2). }
  destruct (ox_source o) as [source|] eqn:Hsrc; [|exact Hsame]. destruct (source =? value); cbn [negb]; [|exact Hsame].
  destruct (ox_phase o) eqn:Hph; [exact Hsame| |by apply (drive_effect _ p b o)|by apply (drive_effect _ p b o)|exact Hsame].
  destruct (_ || _); [by apply (Hlose _ o); [|apply along_refl]|].
  destruct (rd_writable readiness); cbn [negb]; [|exact Hsame].
  destruct (connect_result source (up_net p)) as [net [u|errno]].
  - unfold up_now. destruct (c_monotonic _) as [net2 at_].
    destruct (wo_fresh o W) as [Hs Hr]; [by rewrite Hph|].
    assert (ox_start o = None) as Hst.
    { destruct (ox_start o) eqn:E; [|done]. pose proof (wo_start o W ltac:(rewrite E; eauto)). congruence. }
    pose proof (start_handshake_effect None at_ p b (up_put_net net2 (up_put_net net p)) o o Ho Ho (same_exchange_refl o)
      ltac:(by rewrite Hph) Hst Hs Hr ltac:(rewrite Hsrc; eauto)) as Hh.
    by destruct (start_handshake _ _).
  - by apply (Hlose _ o); [|apply along_refl].
Qed.

Lemma due_effect now p b :
  wf p → effect (Some now) p b (up_due now (p, b)).2 (up_due now (p, b)).1.1 (up_due now (p, b)).1.2.
Proof.
  intros W. unfold up_due. destruct (up_open p) as [o|] eqn:Ho; [|by apply effect_idle]. specialize (W o Ho).
  destruct (Z.leb_spec (ox_bound o) now) as [Hb|Hb].
  { destruct (end_exchange_spec false p o Ho) as [H1 H2]. destruct (end_exchange false p) as [p2 channel]. cbn [fst snd] in *.
    rewrite H2. cbn. eapply effect_ends; [done|done|by eapply outcome_timeout]. }
  destruct (is_due_at now (ox_start o)) eqn:Es.
  { pose proof (start_connect_effect now p b o Ho W) as Hc. destruct (ox_start o); [|done]. specialize (Hc ltac:(eauto)).
    by destruct (start_connect now p). }
  destruct (is_due_at now (ox_phase_deadline o)); [pose proof (lose_effect (Some now) p b p o o Ho Ho eq_refl) as Hl; by destruct (lose p)|].
  by apply (along_stays _ p b p o o Ho Ho), along_refl.
Qed.

(** ** What arms an exchange *)

(** A fresh exchange: bound from its anchor, nothing sent, nothing received, no connection. *)
Definition armed_exchange (channel : UpChannel.t) (request : list Z) (bound : Z) o : Prop :=
  ∃ anchor, o = mkOpen channel request 0 (anchor + bound) (Some anchor) None UpPhase.Armed None None None ResponseReader_new.

Lemma armed_wf channel request bound o : armed_exchange channel request bound o → wf_open o.
Proof.
  intros (anchor & ->). split; cbn; try done.
  - pose proof (zlen_nonneg request). lia.
  - split; [by intros [? ?]|intros [Hn _]; by destruct Hn].
Qed.

Lemma up_fail_open reason p : up_open (up_fail reason p) = up_open p.
Proof. unfold up_fail. by destruct (up_failure p). Qed.
Lemma up_fail_failed reason p : is_Some (up_failure (up_fail reason p)).
Proof. unfold up_fail. destruct (up_failure p) eqn:E; [rewrite E|]; cbn; eauto. Qed.

Lemma arm_exchange_spec channel request bound p :
  (∃ o, up_open (arm_exchange channel request bound p) = Some o ∧ armed_exchange channel request bound o) ∨
  up_open (arm_exchange channel request bound p) = up_open p ∧ is_Some (up_failure (arm_exchange channel request bound p)).
Proof.
  unfold arm_exchange, up_now, checked_add. destruct (c_monotonic (up_net p)) as [net anchor].
  destruct (anchor + bound <=? INSTANT_MAX); [left|right].
  - eexists. split; [done|]. by exists anchor.
  - rewrite up_fail_open. split; [done|apply up_fail_failed].
Qed.

(** The I05 start: the board's request, confirmed with the forwarded action's number. *)
Definition armed_by_forward (output : PolicyOutput) b o : Prop :=
  ∃ base action request channel,
    po_kind output = PolicyOutputKind.Base base ∧ o_kind base = OutputKind.Forward action ∧
    ex_request b = Some request ∧ sq_forwarded request = Some action ∧
    i05_channel (sq_conn request) (sq_head request) = Some channel ∧
    armed_exchange channel (bytes_of (sq_head request) ++ sq_body request) UPSTREAM_BOUND o.

(** The I07 start: the rendered request of the pending write, which the port has not started. *)
Definition armed_by_write (view : GateView) p o : Prop :=
  ∃ write_id rendered channel,
    gv_pending_write view = Some write_id ∧ up_started_write p ≠ Some write_id ∧
    gv_forwarded_write view = Some (write_id, rendered) ∧ i07_channel write_id (rw_head rendered) = Some channel ∧
    armed_exchange channel (bytes_of (rw_head rendered) ++ rw_body rendered) WRITE_BOUND o.

Lemma apply_arms output p b :
  let '(p', b') := up_apply output (p, b) in
  ex_response b' = ex_response b ∧
  (up_open p' = up_open p ∨
   up_open p = None ∧ ∃ o, up_open p' = Some o ∧ armed_by_forward output b o ∧ b' = mkExchange None (ex_response b)).
Proof.
  unfold up_apply. destruct (po_kind output) as [base| | | | | | | | |] eqn:Ek; try by auto.
  destruct (o_kind base) as [| | | | |action| | | | | |] eqn:Eo; try by auto.
  unfold up_forward. destruct (up_open p) as [o|] eqn:Ho; [split; [done|left; by rewrite up_fail_open]|].
  unfold take_request. destruct (ex_request b) as [request|] eqn:Er; [|split; [done|left; by rewrite up_fail_open]].
  destruct (bool_decide (sq_forwarded request = Some action)) eqn:Ef; [|split; [done|left; by rewrite up_fail_open]].
  apply bool_decide_eq_true in Ef.
  destruct (i05_channel (sq_conn request) (sq_head request)) as [channel|] eqn:Ec; [|split; [done|left; by rewrite up_fail_open]].
  split; [done|].
  destruct (arm_exchange_spec channel (bytes_of (sq_head request) ++ sq_body request) UPSTREAM_BOUND p) as [(o & H1 & H2)|[H1 _]].
  - right. split; [done|]. exists o. split; [done|]. split; [|done]. by exists base, action, request, channel.
  - left. by rewrite H1.
Qed.

Lemma start_write_arms view p :
  up_open (start_write view p) = up_open p ∨
  up_open p = None ∧ ∃ o, up_open (start_write view p) = Some o ∧ armed_by_write view p o.
Proof.
  unfold start_write. destruct (gv_pending_write view) as [write_id|] eqn:Ep; [|by left].
  destruct (bool_decide (up_started_write p = Some write_id)) eqn:Es; [by left|]. apply bool_decide_eq_false in Es.
  change (up_open (up_put_started (Some write_id) p)) with (up_open p).
  destruct (up_open p) as [o|] eqn:Ho; [left; by rewrite up_fail_open|].
  destruct (gv_forwarded_write view) as [[forwarded rendered]|] eqn:Ef; [|left; by rewrite up_fail_open].
  destruct (Z.eqb_spec forwarded write_id) as [->|]; cbn [negb]; [|left; by rewrite up_fail_open].
  destruct (i07_channel write_id (rw_head rendered)) as [channel|] eqn:Ec; [|left; by rewrite up_fail_open].
  destruct (arm_exchange_spec channel (bytes_of (rw_head rendered) ++ rw_body rendered) WRITE_BOUND (up_put_started (Some write_id) p))
    as [(o & H1 & H2)|[H1 _]].
  - right. split; [done|]. exists o. split; [done|]. by exists write_id, rendered, channel.
  - left. by rewrite H1.
Qed.

Lemma sync_arms view p b :
  let p1 := if aborted view p then (end_exchange false p).1 else p in
  let '(p', b') := up_sync view (p, b) in
  b' = b ∧ (up_open p' = up_open p1 ∨ up_open p1 = None ∧ ∃ o, up_open p' = Some o ∧ armed_by_write view p1 o).
Proof. cbn. split; [done|]. apply start_write_arms. Qed.

Lemma aborted_open view p : aborted view p = true → up_open (end_exchange false p).1 = None.
Proof.
  unfold aborted. destruct (up_open p) as [o|] eqn:Ho; [|done]. intros _. by apply (end_exchange_spec false p o).
Qed.

Lemma register_open {O} `{PortPoll O} p (poll : O) :
  wf p →
  match up_open p with
  | None => up_open (up_register p poll).1.1 = None
  | Some o => ∃ o', up_open (up_register p poll).1.1 = Some o' ∧ same_exchange o o' ∧ wf_open o'
  end.
Proof.
  intros W. unfold up_register. destruct (up_open p) as [o|] eqn:Ho; [|done]. specialize (W o Ho).
  assert (wf_open (ox_put_registered (up_interest o) o)) as W' by (destruct W; by split).
  destruct (ox_source o) as [source|]; [|by exists o]. destruct (up_interest o) as [wanted|]; [|by exists o].
  destruct (match ox_registered o with Some _ => _ | None => _ end) as [poll' [u|e]]; cbn [fst]; [|by exists o].
  eexists. split; [done|]. by split.
Qed.
End UpstreamProofs.
