(* ===== verification/UpstreamSafety.v ===== *)
(** * The upstream port over any run

    [up_run]: any sequence of the port's calls, the other port changing the board between them.  An exchange ends once,
    in one outcome; it sends the staged bytes; it is bounded by its deadlines; and the loop's laws hold of the port. *)

From S2P Require Import Prelude Slices Inet Json Frame Render Types Journal Observation Config Policy Gate PolicyGate Sha256.
From S2P Require Import Protocol ProtocolProofs GateSteps GateSafety PolicyProtocol PolicySteps PolicySafety.
From S2P Require Import Http1 Http1Reader Http1Render Substrate SubstrateProofs Tls I04 I04Proofs I04Safety.
From S2P Require Import UpstreamAnswer Upstream UpstreamProofs.
Section UpstreamSafety.
Context {N C T : Type} {HN : ConnectNet N} {HT : Tls T} {HC : TlsClient C T}.
Context {LN : ConnectNetLaws N} {LT : TlsLaws T} {GT : TlsTranscript T} {RT : TlsReceived T} {CT : ClientTranscript C T}.
Abbreviation client := (UpstreamClient N C T).
Abbreviation open_t := (OpenExchange T).
Implicit Types (p : client) (o : open_t) (b : Exchange).

Inductive up_call : client * Exchange → list PolicyEvent.t → client * Exchange → Prop :=
| up_call_ready value readiness pb : up_call pb (up_ready value readiness pb).2 (up_ready value readiness pb).1
| up_call_due now pb : up_call pb (up_due now pb).2 (up_due now pb).1
| up_call_apply output pb : up_call pb [] (up_apply output pb)
| up_call_sync view pb : up_call pb [] (up_sync view pb)
| up_call_register {O} `{PortPoll O} p b (poll : O) : up_call (p, b) [] ((up_register p poll).1.1, b)
| up_other_port p b b' : up_call (p, b) [] (p, b').

Inductive up_run : list PolicyEvent.t → client * Exchange → Prop :=
| up_run_new net address effect writer b : up_run [] (UpstreamClient_new net address effect writer, b)
| up_run_call events pb more pb' : up_run events pb → up_call pb more pb' → up_run (events ++ more) pb'.

Lemma effect_wf due_at p b events p' b' : effect (C := C) due_at p b events p' b' → wf p'.
Proof.
  destruct 1 as [p' H1 H2|p' o o' H1 H2 H3 H4|p' o event b' H1 H2 H3|p' o H1 H2 H3 H4]; intros o2 Ho2; congruence.
Qed.

Lemma end_wf notify p : wf (end_exchange notify p).1.
Proof.
  intros o Ho. destruct (up_open p) as [o1|] eqn:E.
  - destruct (end_exchange_spec notify p o1 E). congruence.
  - unfold end_exchange in Ho. rewrite E in Ho. cbn in Ho. congruence.
Qed.

Lemma call_wf pb more pb' : up_call pb more pb' → wf pb.1 → wf pb'.1.
Proof.
  destruct 1 as [value readiness [p b]|now [p b]|output [p b]|view [p b]|O HO p b poll|p b b']; intros W; cbn [fst] in *.
  - eapply effect_wf, ready_effect, W.
  - eapply effect_wf, due_effect, W.
  - pose proof (apply_arms output p b) as Ha. destruct (up_apply output (p, b)) as [p' b']. cbn [fst].
    destruct Ha as [_ [Ha|(_ & o & Ho & (base & action & request & channel & _ & _ & _ & _ & _ & Harm) & _)]].
    + intros o. rewrite Ha. apply W.
    + intros o' Ho'. rewrite Ho in Ho'. injection Ho' as <-. by eapply armed_wf.
  - pose proof (sync_arms view p b) as Ha. cbv zeta in Ha. set (p1 := if aborted view p then _ else p) in *.
    assert (wf p1) as W1 by (unfold p1; destruct (aborted view p); [apply end_wf|done]).
    destruct (up_sync view (p, b)) as [p' b']. cbn [fst].
    destruct Ha as [_ [Ha|(_ & o & Ho & (write_id & rendered & channel & _ & _ & _ & _ & Harm))]].
    + intros o. rewrite Ha. apply W1.
    + intros o' Ho'. rewrite Ho in Ho'. injection Ho' as <-. by eapply armed_wf.
  - pose proof (register_open p poll W) as Hr. intros o' Ho'.
    destruct (up_open p) as [o|] eqn:Ho; [|congruence]. destruct Hr as (o1 & H1 & _ & H2). congruence.
  - exact W.
Qed.

Lemma run_wf events pb : up_run events pb → wf pb.1.
Proof. induction 1; [by intros o|]. by eapply call_wf. Qed.

(** The exchange ended without an outcome: the model no longer holds its action or write, or the port failed. *)
Definition given_up p b (pb' : client * Exchange) : Prop :=
  (∃ view, pb' = up_sync view (p, b) ∧ aborted view p = true) ∨
  up_open pb'.1 = None ∧ is_Some (up_failure pb'.1) ∧ is_Some (ex_response b).

(** What a call made while [o] is open makes of it. *)
Definition one_outcome (pb : client * Exchange) (more : list PolicyEvent.t) (pb' : client * Exchange) : Prop :=
  match up_open pb.1 with
  | None => more = []
  | Some o =>
      more = [] ∧ (∃ o', up_open pb'.1 = Some o' ∧ same_exchange o o') ∨
      (∃ event due_at, more = [event] ∧ up_open pb'.1 = None ∧ outcome (N := N) due_at o pb.2 event pb'.2) ∨
      more = [] ∧ given_up pb.1 pb.2 pb'
  end.

Lemma effect_one_outcome due_at p b more p' b' : effect due_at p b more p' b' → one_outcome (p, b) more (p', b').
Proof.
  intros [p2 H1 H2|p2 o o' H1 H2 H3 H4|p2 o event b2 H1 H2 H3|p2 o H1 H2 H3 H4]; unfold one_outcome; cbn [fst snd];
    rewrite H1; [done|eauto 6|eauto 8|].
  right. right. split; [done|]. by right.
Qed.

Lemma call_one_outcome pb more pb' : up_call pb more pb' → wf pb.1 → one_outcome pb more pb'.
Proof.
  destruct 1 as [value readiness [p b]|now [p b]|output [p b]|view [p b]|O HO p b poll|p b b']; intros W; cbn [fst] in *.
  - pose proof (ready_effect value readiness p b W) as H. destruct (up_ready value readiness (p, b)) as [[p' b'] more].
    by eapply effect_one_outcome.
  - pose proof (due_effect now p b W) as H. destruct (up_due now (p, b)) as [[p' b'] more]. by eapply effect_one_outcome.
  - pose proof (apply_arms output p b) as Ha. destruct (up_apply output (p, b)) as [p' b']. unfold one_outcome. cbn [fst].
    destruct (up_open p) as [o|] eqn:Ho; [|done]. left. split; [done|].
    destruct Ha as [_ [Ha|[Ha _]]]; [|done]. by exists o.
  - unfold one_outcome. cbn [fst snd]. destruct (up_open p) as [o|] eqn:Ho; [|done]. destruct (aborted view p) eqn:Eab.
    + right. right. split; [done|]. left. by exists view.
    + pose proof (sync_arms view p b) as Ha. cbv zeta in Ha. rewrite Eab in Ha. destruct (up_sync view (p, b)) as [p' b'].
      destruct Ha as [_ [Ha|[Ha _]]]; [|congruence]. left. split; [done|]. exists o. cbn [fst]. by rewrite Ha, Ho.
  - pose proof (register_open p poll W) as Hr. unfold one_outcome. cbn [fst]. destruct (up_open p) as [o|]; [|done]. left.
    split; [done|]. destruct Hr as (o' & H1 & H2 & _). eauto.
  - unfold one_outcome. cbn [fst]. destruct (up_open p) as [o|]; [|done]. left. split; [done|]. by exists o.
Qed.

(** An exchange has one outcome: over any run, a call made while no exchange is open returns no event, and a call
    made while one is open either leaves that exchange open and returns nothing, or closes it and returns exactly one
    event, an outcome of this very exchange (its loss; its timeout, from [due] at or after its bound; or the answer
    read on its connection before the bound, with the identity its form requires, staged on the board when it is an
    I05 answer), or closes it and returns nothing because the model no longer holds its action or write or because
    the port failed, which stops the loop. *)
Theorem exchange_has_one_outcome events p b more p' b' :
  up_run events (p, b) → up_call (p, b) more (p', b') →
  match up_open p with
  | None => more = []
  | Some o =>
      more = [] ∧ (∃ o', up_open p' = Some o' ∧ same_exchange o o') ∨
      (∃ event due_at, more = [event] ∧ up_open p' = None ∧ outcome (N := N) due_at o b event b') ∨
      more = [] ∧ given_up p b (p', b')
  end.
Proof. intros W%run_wf Hcall. exact (call_one_outcome _ _ _ Hcall W). Qed.

(** ** The bytes sent *)

Lemma call_arms pb more pb' :
  up_call pb more pb' → wf pb.1 → ∀ o', up_open pb'.1 = Some o' →
  (∃ o, up_open pb.1 = Some o ∧ same_exchange o o') ∨
  (∃ output, pb' = up_apply output pb ∧ armed_by_forward output pb.2 o' ∧ ex_request pb'.2 = None) ∨
  (∃ view, pb' = up_sync view pb ∧ armed_by_write view (if aborted view pb.1 then (end_exchange false pb.1).1 else pb.1) o').
Proof.
  assert (∀ due_at p b more p' b' o', effect due_at p b more p' b' → up_open p' = Some o' →
    ∃ o, up_open p = Some o ∧ same_exchange o o') as Heff.
  { intros due_at p b events p' b' o'. intros [p2 H1 H2|p2 o o2 H1 H2 H3 H4|p2 o event b2 H1 H2 H3|p2 o H1 H2 H3 H4] H;
      [congruence| |congruence|congruence]. exists o. split; [done|]. by simplify_eq. }
  destruct 1 as [value readiness [p b]|now [p b]|output [p b]|view [p b]|O HO p b poll|p b b']; intros W o' Ho'; cbn [fst snd] in *.
  - left. by eapply Heff; [apply (ready_effect value readiness p b W)|].
  - left. by eapply Heff; [apply (due_effect now p b W)|].
  - pose proof (apply_arms output p b) as Ha. destruct (up_apply output (p, b)) as [p' b'] eqn:E. cbn [fst snd] in *.
    destruct Ha as [_ [Ha|(_ & o & Ho & Harm & ->)]].
    + left. exists o'. split; [congruence|done].
    + right. left. exists output. split; [done|]. by simplify_eq.
  - pose proof (sync_arms view p b) as Ha. cbv zeta in Ha. set (p1 := if aborted view p then _ else p) in *.
    destruct (up_sync view (p, b)) as [p' b'] eqn:E. cbn [fst snd] in *. destruct Ha as [_ [Ha|(_ & o & Ho & Harm)]].
    + left. exists o'. rewrite Ha in Ho'. unfold p1 in Ho'. destruct (aborted view p) eqn:Eab; [|done].
      rewrite (aborted_open view p Eab) in Ho'. done.
    + right. right. exists view. split; [done|]. by simplify_eq.
  - pose proof (register_open p poll W) as Hr. destruct (up_open p) as [o|]; [|congruence].
    destruct Hr as (o1 & H1 & H2 & _). left. exists o. split; [done|]. by simplify_eq.
  - left. by exists o'.
Qed.

(** The apiserver is sent the staged request and nothing else: over any run, what the open exchange's connection
    was given to send is a beginning of the exchange's request; and that request is the one it had before the call, or
    the exchange was armed by this call: by a forward, from the board's request confirmed with the forwarded action's
    number, which the call takes off the board, or by the pending write that the port has not started, from the write
    the gate rendered. *)
Theorem staged_request_is_sent events p b more p' b' o' :
  up_run events (p, b) → up_call (p, b) more (p', b') → up_open p' = Some o' →
  (∀ tls, ox_tls o' = Some tls → ∃ unsent, ox_request o' = given tls ++ unsent) ∧
  ((∃ o, up_open p = Some o ∧ same_exchange o o') ∨
   (∃ output, (p', b') = up_apply output (p, b) ∧ armed_by_forward output b o' ∧ ex_request b' = None) ∨
   (∃ view, (p', b') = up_sync view (p, b) ∧
      armed_by_write view (if aborted view p then (end_exchange false p).1 else p) o')).
Proof.
  intros W%run_wf Hcall Ho. cbn [fst] in W. split.
  - intros tls Ht. pose proof (call_wf _ _ _ Hcall W) as W'. rewrite (wo_given o' (W' o' Ho) tls Ht).
    exists (drop (Z.to_nat (ox_sent o')) (ox_request o')). by rewrite take_drop.
  - exact (call_arms _ _ _ Hcall W o' Ho).
Qed.

(** ** Deadlines *)

(** A deadline set ten seconds ahead, unless the clock cannot hold it, which makes it due at once. *)
Definition ahead (now deadline : Z) : Prop := now < deadline ∨ deadline = now ∧ INSTANT_MAX < now + CONNECT_DEADLINE.
Lemma deadline_after_ahead now : ahead now (deadline_after now CONNECT_DEADLINE).
Proof.
  unfold ahead, deadline_after, checked_add. destruct (Z.leb_spec (now + CONNECT_DEADLINE) INSTANT_MAX) as [|Hm]; cbn.
  - left. unfold CONNECT_DEADLINE. lia.
  - by right.
Qed.

Lemma lose_closed p1 o1 : up_open p1 = Some o1 → up_open (lose p1).1 = None.
Proof.
  intros Ho. unfold lose. destruct (end_exchange_spec false p1 o1 Ho) as [H _]. by destruct (end_exchange false p1).
Qed.

Lemma write_out_fields net o :
  let o' := (write_out net o).1.2 in
  ox_bound o' = ox_bound o ∧ ox_start o' = ox_start o ∧ ox_phase_deadline o' = ox_phase_deadline o.
Proof.
  unfold write_out. destruct (ox_source o), (ox_tls o) as [tls|]; try done.
  destruct (if negb (is_handshaking tls) then _ else _) as [[[tls1 sent1] net1] []]; cbn [negb]; [|done]. by destruct (flush _ tls1 net1) as [[? ?] ?].
Qed.

(** What is left to wait for after a handshake or a connect began. *)
Definition waits_ahead (now : Z) (bound : Z) p : Prop :=
  ∀ o, up_open p = Some o → ox_bound o = bound ∧ ox_start o = None ∧
    ∀ deadline, ox_phase_deadline o = Some deadline → ahead now deadline.

Lemma start_handshake_waits now p o :
  up_open p = Some o → ox_start o = None → waits_ahead now (ox_bound o) (start_handshake now p).1.
Proof.
  intros Ho Hst. unfold start_handshake. rewrite Ho. set (name := server_name (up_address p)).
  assert (∀ p2 tls,
    (if is_i05 (ox_channel o) then let '(config, tls) := client_connection (up_effect p) name in (up_put_effect config p, tls)
     else let '(config, tls) := client_connection (up_writer p) name in (up_put_writer config p, tls)) = (p2, tls) →
    up_open p2 = Some o) as Hp2.
  { intros p2 tls. destruct (is_i05 _), (client_connection _ name); by intros [= <- <-]. }
  destruct (if is_i05 _ then _ else _) as [p2 [tls|]]; specialize (Hp2 _ _ eq_refl);
    [|intros o2 Ho2; pose proof (lose_closed p2 o Hp2); congruence].
  set (o2 := ox_put_phase_deadline _ _). pose proof (write_out_fields (up_net p2) o2) as Hf.
  destruct (write_out (up_net p2) o2) as [[net o3] ok]. cbn [fst snd] in Hf. destruct Hf as (H1 & H2 & H3).
  destruct ok; cbn [negb]; [|intros o4 Ho4; pose proof (lose_closed (put_ox o3 (up_put_net net p2)) o3 eq_refl); congruence].
  intros o4 [= <-]. rewrite H1, H2, H3. split; [done|]. split; [done|]. unfold o2. cbn.
  destruct (is_i05 (ox_channel o)); [|done]. intros d [= <-]. apply (deadline_after_ahead now).
Qed.

Lemma start_connect_waits now p o : up_open p = Some o → waits_ahead now (ox_bound o) (start_connect now p).1.
Proof.
  intros Ho. unfold start_connect. destruct (connect (up_address p) (up_net p)) as [net started].
  change (up_open (up_put_net net p)) with (up_open p). rewrite Ho. destruct started as [[source []]|errno].
  - by apply (start_handshake_waits now _ (ox_put_source (Some source) (ox_put_start None o))).
  - intros o1 [= <-]. cbn. split; [done|]. split; [done|]. destruct (is_i05 (ox_channel o)); [|done].
    intros d [= <-]. apply deadline_after_ahead.
  - intros o1 Ho1. pose proof (lose_closed (put_ox (ox_put_start None o) (up_put_net net p)) _ eq_refl). congruence.
Qed.

(** An exchange is bounded in time: the port asks to be woken at the exchange's bound or earlier; at or after the
    bound, [due] feeds the timeout, whatever phase deadline is due too, and closes the exchange; and after a [due] that
    leaves it open, its bound and its start lie in the future, and so does its phase deadline, unless the clock cannot
    hold one ten seconds ahead.  Without an open exchange [due] does nothing. *)
Theorem exchange_is_bounded p b now :
  let '((p', b'), fed) := up_due now (p, b) in
  match up_open p with
  | None => fed = [] ∧ up_open p' = None
  | Some o =>
      (∃ deadline, up_next_deadline p = Some deadline ∧ deadline ≤ ox_bound o) ∧
      (ox_bound o ≤ now → fed = [channel_timeout (ox_channel o)] ∧ up_open p' = None) ∧
      ∀ o', up_open p' = Some o' → now < ox_bound o' ∧
        (∀ start, ox_start o' = Some start → now < start) ∧
        (∀ deadline, ox_phase_deadline o' = Some deadline → ahead now deadline)
  end.
Proof.
  unfold up_due. destruct (up_open p) as [o|] eqn:Ho; [|done].
  assert (∃ deadline, up_next_deadline p = Some deadline ∧ deadline ≤ ox_bound o) as Hnext.
  { unfold up_next_deadline. rewrite Ho. cbn [mbind option_bind]. destruct (ox_start o), (ox_phase_deadline o); cbn; eexists; (split; [done|lia]). }
  destruct (Z.leb_spec (ox_bound o) now) as [Hb|Hb].
  { destruct (end_exchange_spec false p o Ho) as [H1 H2]. destruct (end_exchange false p) as [p1 channel]. cbn [fst snd] in *.
    rewrite H2, H1. split; [done|]. split; [done|]. done. }
  destruct (is_due_at now (ox_start o)) eqn:Es.
  { pose proof (start_connect_waits now p o Ho) as Hw. destruct (start_connect now p) as [p1 fed]. cbn [fst] in Hw.
    split; [done|]. split; [lia|]. intros o' Ho'. destruct (Hw o' Ho') as (H1 & H2 & H3). rewrite H1, H2. done. }
  destruct (is_due_at now (ox_phase_deadline o)) eqn:Ed.
  { pose proof (lose_closed p o Ho) as Hl. destruct (lose p) as [p1 fed]. cbn [fst] in Hl. rewrite Hl. split; [done|]. split; [lia|done]. }
  split; [done|]. split; [lia|]. rewrite Ho. intros o' [= <-]. split; [lia|]. unfold is_due_at in *. split.
  - intros d Hd. rewrite Hd in Es. apply Z.leb_gt in Es. done.
  - intros d Hd. rewrite Hd in Ed. apply Z.leb_gt in Ed. by left.
Qed.

(** ** The loops end *)

(** One byte of the request a turn, and the plaintext held, are enough fuel. *)
Lemma send_loop_fuel fuel fuel' source request (tls : T) sent (net : N) :
  0 ≤ sent → (Z.to_nat (zlen request - sent) ≤ fuel)%nat → (Z.to_nat (zlen request - sent) ≤ fuel')%nat →
  send_loop fuel source request tls sent net = send_loop fuel' source request tls sent net.
Proof.
  revert fuel' tls sent net. induction fuel as [|fuel IH]; intros [|fuel'] tls sent net Hs H1 H2; cbn [send_loop]; [done|..].
  - by rewrite (proj2 (Z.leb_le (zlen request) sent)) by lia.
  - by rewrite (proj2 (Z.leb_le (zlen request) sent)) by lia.
  - destruct (Z.leb_spec (zlen request) sent); [done|].
    pose proof (write_plaintext_count (drop (Z.to_nat sent) request) tls) as Hc.
    destruct (write_plaintext _ tls) as [tls1 [count|e]]; [|done]. specialize (Hc count eq_refl).
    destruct (Z.eqb_spec count 0); [done|]. destruct (write_tls _ tls1 net) as [[tls2 net2] [taken|[]]]; try done.
    apply IH; lia.
Qed.

Lemma drain_loop_fuel fuel fuel' (tls : T) reader :
  (held_plaintext tls < fuel)%nat → (held_plaintext tls < fuel')%nat →
  drain_loop fuel tls reader = drain_loop fuel' tls reader.
Proof.
  revert fuel' tls reader. induction fuel as [|fuel IH]; intros [|fuel'] tls reader H1 H2; [lia..|]. cbn [drain_loop].
  pose proof (read_plaintext_held UP_CHUNK tls) as Hh. destruct (read_plaintext UP_CHUNK tls) as [tls' [[|x chunk]|[]]]; try done.
  destruct (Hh (x :: chunk) eq_refl ltac:(done)) as [_ Hl]. cbn [fst] in Hl.
  destruct (Http1.push (x :: chunk) reader) as [reader' []]; try done; apply IH; lia.
Qed.

(** One more turn than bytes in the budget is enough for the loop of [drive]. *)
Lemma drive_loop_fuel fuel fuel' source budget o p b :
  0 ≤ budget → (Z.to_nat budget < fuel)%nat → (Z.to_nat budget < fuel')%nat →
  drive_loop fuel source budget o p b = drive_loop fuel' source budget o p b.
Proof.
  revert fuel' budget o p b. induction fuel as [|fuel IH]; intros [|fuel'] budget o p b Hb H1 H2; [lia..|]. cbn [drive_loop].
  destruct (ox_tls o) as [tls|]; [|done].
  pose proof (read_tls_budget (c_recv source) (c_recv_data source) tls (up_net p) budget) as Hl.
  destruct (read_tls _ tls _) as [[tls1 [net budget1]] [count|[]]]; try done. cbn [fst snd] in Hl.
  destruct (Z.eqb_spec count 0); [done|]. specialize (Hl count Hb eq_refl ltac:(done)).
  destruct (process_new_packets tls1) as [tls2 []]; cbn [negb]; [|done].
  destruct (after_client_handshake tls2 _) as [o3|]; [|done]. destruct (drain_answer o3) as [o4 []]; [|done|done].
  destruct (write_out _ o4) as [[net5 o5] []]; cbn [negb]; [|done]. apply IH; lia.
Qed.

(** ** What the port promises the loop *)

Lemma lost_port_event c : port_event (channel_lost c) = true.
Proof. by destruct c. Qed.
Lemma lose_events p : Forall (λ e, port_event e = true) (lose p).2.
Proof.
  unfold lose. destruct (end_exchange false p) as [p' [c|]]; [|constructor]. apply Forall_singleton, lost_port_event.
Qed.
Lemma handshake_events now p : Forall (λ e, port_event e = true) (start_handshake now p).2.
Proof.
  unfold start_handshake. destruct (up_open p) as [o|]; [|constructor].
  destruct (if is_i05 _ then _ else _) as [p2 [tls|]]; [|apply lose_events].
  destruct (write_out _ _) as [[net o3] []]; cbn [negb]; [constructor|apply lose_events].
Qed.
Lemma build_events c reader p b : Forall (λ e, port_event e = true) (build_outcome c reader p b).2.
Proof.
  unfold build_outcome. assert (Forall (λ e, port_event e = true) [channel_lost c]) as Hl by apply Forall_singleton, lost_port_event.
  destruct (Http1.answer reader) as [[status body]|]; [|done]. destruct (identity _ body) as [[uid version]|]; [|done].
  destruct c as [conn verb kind name|write_id operation plural name].
  - unfold stage_response. destruct (ex_response b); [constructor|]. destruct (negb _); [done|]. destruct (_ <? _); [done|].
    by apply Forall_singleton.
  - apply Forall_singleton. unfold write_response. by destruct (negb _).
Qed.
Lemma complete_events p b : Forall (λ e, port_event e = true) (complete p b).2.
Proof.
  unfold complete. destruct (up_now p) as [p1 at_]. destruct (up_open p1) as [o|]; [|constructor].
  destruct (_ <=? at_); [constructor|]. destruct (end_exchange true _) as [p2 [c|]]; [|constructor]. apply build_events.
Qed.
Lemma drive_loop_events fuel source budget o p b :
  Forall (λ e, port_event e = true) (default [] (drive_loop fuel source budget o p b).2).
Proof.
  assert (∀ b p, Forall (λ e, port_event e = true) (default [] (lose_with (N := N) (C := C) b p).2)) as Hl.
  { intros b0 p0. unfold lose_with. pose proof (lose_events p0). by destruct (lose p0). }
  revert budget o p b. induction fuel as [|fuel IH]; intros budget o p b; cbn [drive_loop]; [constructor|].
  destruct (ox_tls o) as [tls|]; [|apply Hl]. destruct (read_tls _ tls _) as [[tls1 [net budget1]] [count|[]]]; [|constructor|apply Hl].
  destruct (count =? 0); [apply Hl|]. destruct (process_new_packets tls1) as [tls2 []]; cbn [negb].
  2:{ destruct (flush _ tls2 _) as [[tls3 net3] ok3]. apply Hl. }
  destruct (after_client_handshake tls2 _) as [o3|]; [|apply Hl]. destruct (drain_answer o3) as [o4 []]; [| |apply Hl].
  - destruct (write_out _ o4) as [[net5 o5] []]; cbn [negb]; [apply IH|apply Hl].
  - match goal with |- context [complete ?x b] => pose proof (complete_events x b) as Hc; by destruct (complete x b) as [[p6 b6] events] end.
Qed.

#[export] Instance UpstreamClient_laws : PortLaws Exchange client.
Proof.
  assert (∀ p b, Forall (λ e, port_event e = true) (let '(p, events) := lose (N := N) (C := C) p in (p, b : Exchange, events)).2) as Hl.
  { intros p b. pose proof (lose_events p). by destruct (lose p). }
  split.
  - intros now [p b]. cbn. unfold up_due. destruct (up_open p) as [o|]; [|constructor].
    assert (Forall (λ e, port_event e = true) (start_connect now p).2) as Hc.
    { unfold start_connect. destruct (connect _ _) as [net started]. destruct (up_open _) as [o1|]; [|constructor].
      destruct started as [[source []]|errno]; [apply handshake_events|constructor|apply lose_events]. }
    destruct (_ <=? now).
    { destruct (end_exchange false p) as [p1 [c|]]; [|constructor]. apply Forall_singleton. by destruct c. }
    destruct (is_due_at now (ox_start o)); [by destruct (start_connect now p)|].
    destruct (is_due_at now (ox_phase_deadline o)); [apply Hl|constructor].
  - intros value readiness [p b]. cbn. unfold up_ready. destruct (up_open p) as [o|] eqn:Ho; [|constructor].
    destruct (ox_source o) as [source|]; [|constructor]. destruct (negb _); [constructor|].
    assert (Forall (λ e, port_event e = true) (drive readiness p b).2) as Hd.
    { unfold drive. rewrite Ho. destruct (write_out _ o) as [[net o1] []]; cbn [negb]; [|apply Hl].
      destruct (ox_source o1) as [source1|]; [|apply Hl].
      match goal with |- context [drive_loop ?f ?s ?k o1 ?x b] => pose proof (drive_loop_events f s k o1 x b) as Hx;
        destruct (drive_loop f s k o1 x b) as [[p2 b2] [events|]] end; [done|].
      destruct (rd_error readiness); [apply Hl|constructor]. }
    destruct (ox_phase o); [constructor| |done|done|constructor].
    destruct (_ || _); [apply Hl|]. destruct (negb _); [constructor|].
    destruct (connect_result source _) as [net []]; [|apply Hl]. destruct (up_now _) as [p1 at_].
    pose proof (handshake_events at_ p1). by destruct (start_handshake at_ p1).
Qed.
End UpstreamSafety.

(** * What is sent upstream is what was consumed

    The gate, the board and both ports together: the request the upstream port is armed with is the one received on
    I04, which the gate journaled as CONSUMED, and which is the rendering of the armed action. *)

(** The body a framed request carries is the one its digest is of. *)
Lemma frame_digest received head body digest :
  frame received = HttpFrame.Request head body digest → digest = Some (prefixed body) ∨ digest = None ∧ body = [].
Proof.
  unfold frame. destruct (find_head_end _) as [position|]; [|by destruct (_ <=? _)].
  destruct (body_length _) as [[n|]|]; [|by intros [= _ <- <-]; right|by intros [= _ <- <-]; right].
  destruct (get_range received _ _) as [found|]; [|done]. intros [= _ <- <-]. by left.
Qed.

Section ConsumedRequest.
Context {St Ob : Type} {HS : Stores St} {HL : StoresLaws St} {HO : WorkerObserver Ob}.
Implicit Types (p : PolicyGate St Ob).

(** The gate's answer to a request it forwards. *)
Lemma forwarded_journal p conn certificate head digest p' output base action :
  policy_reachable p → Writer.handle (PolicyEvent.Base (Event.Request conn certificate head digest)) p = (p', Ok output) →
  po_kind output = PolicyOutputKind.Base base → o_kind base = OutputKind.Forward action →
  ∃ c rest, g_connections (pg_gate p) !! conn = Some c ∧
    admissible (pg_gate p) (cn_open c) (sat_add_u64 (cn_requests c) 1) (cn_stamp c) certificate head digest action ∧
    journal (pg_gate p') = journal (pg_gate p) ++ Entry.Record_ (Rec.Consumed action) :: rest.
Proof.
  intros Hp. pose proof (policy_reachable_inv _ Hp) as [Hinv Hstep].
  set (event := PolicyEvent.Base _). pose proof (wdispatch_follows event p Hstep Hinv) as Hall.
  unfold Writer.handle. unfold event, Writer.dispatch in *.
  destruct (Gate.handle (Event.Request conn certificate head digest) (pg_gate p)) as [g1 [out|e]] eqn:Eh; [|done].
  cbn [fst result_map] in *. intros [= <- <-] [= <-] Hk.
  destruct (forward_admitted conn certificate head digest (pg_gate p) action) as (c & Hc & Had & Hd);
    [exists out; by rewrite Eh|].
  rewrite (request_forwarded _ _ _ _ _ _ _ Hc Had Hd) in Eh. injection Eh as <- _.
  set (g1 := consumed conn action (counted conn c (pg_gate p))) in *.
  assert (w_inv (wcore (with_gate g1 p))) as Hw2 by (eapply wsteps_inv; [exact Hinv|exact Hall]).
  destruct (wsteps_journal _ _ (wfollows_settle (with_gate g1 p) Hw2)) as (es & Hes).
  exists c, es. split; [done|]. split; [done|].
  change (w_journal (wcore ?q)) with (journal (pg_gate q)) in Hes. rewrite Hes.
  change (journal (pg_gate (with_gate g1 p))) with (journal g1). unfold g1.
  rewrite (consumed_journal conn action (counted conn c (pg_gate p)) Hd), <-app_assoc. done.
Qed.
End ConsumedRequest.

(** What a consumed request's body is: the manifest's, the delete options, or none. *)
Definition permitted_body (verb : Verb) (m : Manifest) (uid : option string) (body : list Z) : Prop :=
  match verb with
  | Create => prefixed body = m_digest m
  | Delete => prefixed body = prefixed (delete_options uid)
  | Get => body = []
  end.

Lemma rendered_digest verb m uid endpoint :
  r_body_digest (render_request verb m uid endpoint) =
  match verb with Create => Some (m_digest m) | Get => None | Delete => Some (prefixed (delete_options uid)) end.
Proof. by destruct verb. Qed.

Lemma permitted_by_digest received head body digest verb m uid endpoint :
  frame received = HttpFrame.Request head body digest → r_body_digest (render_request verb m uid endpoint) = digest →
  permitted_body verb m uid body.
Proof.
  intros Hf%frame_digest. rewrite rendered_digest. unfold permitted_body.
  destruct verb; destruct Hf as [-> |[-> ->]]; congruence.
Qed.

(** The channel of a forwarded request is the connection's. *)
Lemma i05_channel_form conn head channel :
  i05_channel conn head = Some channel → ∃ verb kind name, channel = UpChannel.I05 conn verb kind name.
Proof.
  unfold i05_channel. intros ([method segments] & _ & ([[verb plural] name] & _ & (kind & _ & [= <-])%bind_Some)%bind_Some)%bind_Some.
  by exists verb, kind, (string_of name).
Qed.

Section Composition.
Context {St Ob N C T N' C' T' : Type} {HS : Stores St} {HL : StoresLaws St} {HO : WorkerObserver Ob}.
Context {HN : StreamNet N} {HT : Tls T} {HC : TlsServer C T}.
Context {HN' : ConnectNet N'} {HT' : Tls T'} {HC' : TlsClient C' T'}.

(** The I04 port marks the request it staged as the forwarded action's. *)
Lemma staged_and_confirmed output base action conn head body b0 b1 (s : I04Server N C T) id (c : Connection T) :
  stage_request conn head body b0 = (b1, Ok ()) →
  po_kind output = PolicyOutputKind.Base base → o_kind base = OutputKind.Forward action →
  i4_fed s = Some id → i4_conns s !! id = Some c → cn_name c = conn →
  (I04_apply output (s, b1)).2 = mkExchange (Some (mkStagedRequest conn head body (Some action))) (ex_response b0).
Proof.
  intros Hst Hk Hfw Hfed Hc Hname.
  assert (b1 = mkExchange (Some (mkStagedRequest conn head body None)) (ex_response b0)) as ->.
  { unfold stage_request in Hst. destruct (ex_request b0); [done|]. by injection Hst as <-. }
  unfold I04_apply. rewrite Hk, Hfw. unfold apply_forward. rewrite Hfed. change (i4_conns (put_fed None s)) with (i4_conns s).
  rewrite Hc, Hname. unfold confirm_request. cbn [ex_request sq_conn sq_forwarded]. by rewrite !bool_decide_eq_true_2.
Qed.

Lemma up_fail_fails reason (u : UpstreamClient N' C' T') :
  up_failure (up_fail reason u) ≠ None ∧ up_open (up_fail reason u) = up_open u.
Proof. unfold up_fail. by destruct (up_failure u) eqn:E; rewrite ?E. Qed.

(** A forward of the confirmed request opens an exchange of its bytes, or fails the port. *)
Lemma forward_opens_or_fails (u : UpstreamClient N' C' T') conn head body action response :
  let '(u', b) := up_forward action u (mkExchange (Some (mkStagedRequest conn head body (Some action))) response) in
  (∃ o verb kind name, up_open u = None ∧ up_open u' = Some o ∧ ox_request o = bytes_of head ++ body ∧ ox_sent o = 0 ∧
     ox_channel o = UpChannel.I05 conn verb kind name ∧ ex_request b = None ∧
     i05_channel conn head = Some (UpChannel.I05 conn verb kind name)) ∨
  (up_open u' = up_open u ∧ up_failure u' ≠ None ∧
     (up_open u ≠ None ∨ INSTANT_MAX < (c_monotonic (up_net u)).2 + UPSTREAM_BOUND ∨ i05_channel conn head = None)).
Proof.
  unfold up_forward. destruct (up_open u) as [o|] eqn:Hu.
  { right. pose proof (up_fail_fails "an I05 exchange started while an exchange is open" u) as [H1 H2]. rewrite H2. auto. }
  unfold take_request. cbn [ex_request sq_forwarded sq_conn sq_head sq_body ex_response]. rewrite bool_decide_eq_true_2 by done.
  cbn [sq_conn sq_head sq_body]. destruct (i05_channel conn head) as [channel|] eqn:Hch.
  2: { right. match goal with |- context [up_fail ?r u] => pose proof (up_fail_fails r u) as [H1 H2] end. rewrite H2. auto. }
  destruct (i05_channel_form _ _ _ Hch) as (verb & kind & name & ->).
  unfold arm_exchange, up_now, checked_add. destruct (c_monotonic (up_net u)) as [net anchor] eqn:Ec. cbn [snd].
  destruct (Z.leb_spec (anchor + UPSTREAM_BOUND) INSTANT_MAX) as [Hle|Hgt].
  - left. by eexists _, verb, kind, name.
  - right. match goal with |- context [up_fail ?r ?v] => pose proof (up_fail_fails r v) as [H1 H2] end. rewrite H2. auto.
Qed.

(** [C12] The request sent upstream is the one consumed: when the I04 port stages the request it framed, the gate forwards
    its event, and the I04 port and then the upstream port apply the gate's output, the framed head and the body's digest
    are the one rendering of an action that was armed, the journal already holds the action's CONSUMED record, and the
    upstream port either opens an exchange, with exactly the framed head and body to send, none of it sent and the board
    cleared, or opens none and fails.  The exchange is named by the armed action's verb, kind and name where the
    manifest's namespace and name are single path segments; the port fails only where an exchange was open already, the
    clock cannot hold the upstream bound, or the namespace or the name is no such segment (the configuration checks
    neither). *)
Theorem consumed_request_goes_upstream (p p' : PolicyGate St Ob) received conn certificate head body digest output base
    action b0 b1 (s : I04Server N C T) id (c : Connection T) (u : UpstreamClient N' C' T') :
  policy_reachable p →
  frame received = HttpFrame.Request head body digest → stage_request conn head body b0 = (b1, Ok ()) →
  Writer.handle (PolicyEvent.Base (Event.Request conn certificate head digest)) p = (p', Ok output) →
  po_kind output = PolicyOutputKind.Base base → o_kind base = OutputKind.Forward action →
  i4_fed s = Some id → i4_conns s !! id = Some c → cn_name c = conn →
  let '(u', b) := up_apply output (u, (I04_apply output (s, b1)).2) in
  ∃ manifest armed rest,
    let verb := ar_verb armed in
    let path_names := segment (m_namespace manifest) ∧ segment (m_name manifest) in
    (∃ j a, g_actions (pg_gate p) !! j = Some a ∧ a_id a = action ∧ a_status a = Status.Armed ∧ a_armed a = Some armed) ∧
    c_manifests (g_config (pg_gate p)) !! ar_manifest_digest armed = Some manifest ∧
    render_request verb manifest (ar_uid armed) (c_endpoint (g_config (pg_gate p))) = mkRendered head digest ∧
    permitted_body verb manifest (ar_uid armed) body ∧
    journal (pg_gate p') = journal (pg_gate p) ++ Entry.Record_ (Rec.Consumed action) :: rest ∧
    ((∃ o verb' kind name, up_open u = None ∧ up_open u' = Some o ∧ ox_request o = bytes_of head ++ body ∧ ox_sent o = 0 ∧
        ox_channel o = UpChannel.I05 conn verb' kind name ∧ ex_request b = None ∧
        (path_names → verb' = verb ∧ kind = m_kind manifest ∧ name = rendered_name verb manifest)) ∨
     (up_open u' = up_open u ∧ up_failure u' ≠ None ∧
        (up_open u ≠ None ∨ INSTANT_MAX < (c_monotonic (up_net u)).2 + UPSTREAM_BOUND ∨ ¬ path_names))).
Proof.
  intros Hp Hf Hst Hh Hk Hfw Hfed Hc Hname.
  destruct (forwarded_journal p conn certificate head digest p' output base action Hp Hh Hk Hfw) as (cn & rest & _ & Had & Hj).
  destruct Had as (bound & stamp & a & run & armed & manifest & _ & _ & _ & _ & _ & _ & _ & _ & _ & Ha & Hs & Hid & _ & _ & Harm & Hm & Hr).
  rewrite (staged_and_confirmed _ _ _ _ _ _ _ _ _ _ _ Hst Hk Hfw Hfed Hc Hname).
  unfold up_apply. rewrite Hk, Hfw.
  pose proof (forward_opens_or_fails u conn head body action (ex_response b0)) as Hup.
  destruct (up_forward action u _) as [u' b]. exists manifest, armed, rest. cbn zeta.
  split; [by exists (st_action_id stamp), a|]. do 2 (split; [done|]).
  split; [apply (f_equal r_body_digest) in Hr; by eapply permitted_by_digest|]. split; [done|].
  assert (Hhead : head = r_head (render_request (ar_verb armed) manifest (ar_uid armed) (c_endpoint (g_config (pg_gate p)))))
    by (by rewrite Hr).
  destruct Hup as [(o & verb' & kind & name & H1 & H2 & H3 & H4 & H5 & H6 & Hch)|(H1 & H2 & H3)]; [left|right].
  - exists o, verb', kind, name. do 6 (split; [done|]). intros [Hns Hnm].
    rewrite Hhead, names_its_exchange in Hch by done. by injection Hch as <- <- <-.
  - do 2 (split; [done|]). destruct H3 as [H3|[H3|H3]]; [by left|by right; left|].
    right; right. intros [Hns Hnm]. by rewrite Hhead, names_its_exchange in H3.
Qed.
End Composition.
