(* ===== verification/I02.v ===== *)
(** * The server channel ([host-enforcement/crates/broker/src/i02.rs])

    The broker's side of I02: the datagram decoder and its limits, the DISPATCH with its binding check, the transcript
    of the frames that follow, a state machine over both directions, its frame builders, and the refusal map.
    [Transcript.accept] is [accept] here; a method that changes the transcript returns the new one. *)

From S2P Require Import Prelude Contracts Slices Sha256 Base64 Json Schema Frame.
Module I02.

Definition MAX_DATAGRAM_BYTES : Z := 65536.
Definition MAX_CONTROL_BYTES : Z := 16384.
Definition MAX_DEPTH : nat := 16.
Definition MAX_CHUNK_BYTES : Z := 24576.
Definition MAX_CHUNKS : Z := 171.
Definition MAX_RECEIPT_BYTES : Z := 4194304.
Definition DISPATCH_VERSION : string := "planeon.internal.broker-dispatch/v1".
Definition FRAME_VERSION : string := "planeon.internal.broker-frame/v1".
Definition BINDING_VERSION : string := "planeon.internal.broker-binding/v1".
Definition ZERO_DIGEST : string := "sha256:0000000000000000000000000000000000000000000000000000000000000000".
Definition ECHO_FIELDS : list string :=
  ["bindingDigest"; "reservationDigest"; "runNonce"; "caseId"; "requestDigest"; "observationDigest"; "generation"; "challenge"].
Definition CONFIGURED_FIELDS : list string :=
  ["brokerManifestDigest"; "brokerExecutableDigest"; "workerManifestDigest"; "workerArtifactDigest"].

Definition text (value : Value) (key : string) : option string := let* member := value_get value key in as_str member.
Definition integer (value : Value) (key : string) : option Z :=
  let* member := value_get value key in let* int := as_int member in to_i64 int.
(** 64 lowercase hexadecimal digits. *)
Definition is_hex64 (candidate : string) : bool :=
  Nat.eqb (String.length candidate) 64 && forallb (λ byte, is_digit byte || in_range 97 102 byte) (bytes_of candidate).
(** Strict base64 that re-encodes to the same text. *)
Definition canonical_base64 (encoded : string) : option (list Z) :=
  let* data := decode_strict (bytes_of encoded) in if bool_decide (encode data = encoded) then Some data else None.

(** ** Schemas *)

Record Schemas := mkSchemas { sc_channel : Schema; sc_binding : Schema; sc_worker_start : Schema }.

(** A schema document whose root refers to one definition, beside the document's [$defs]. *)
Definition definition (document : Value) (name : string) : Value :=
  let root := match value_get document "$defs" with
              | Some definitions => object_insert [] (jstr "$defs") definitions
              | None => []
              end in
  VObject (object_insert root (jstr "$ref") (value_str ("#/$defs/" +:+ name))).

Definition Schemas_from_json (raw : list Z) : result Schemas SchemaError :=
  if negb (utf8_valid raw) then Err "the I02 schema is not UTF-8"
  else
    match parse raw with
    | Err _ => Err "the I02 schema is not JSON"
    | Ok document =>
        let? channel := schema_from_value document in
        let? binding := schema_from_value (definition document "binding") in
        let? worker_start := schema_from_value (definition document "workerStart") in
        Ok (mkSchemas channel binding worker_start)
    end.
Definition Schemas_embedded : result Schemas SchemaError := Schemas_from_json BROKER_HANDOFF_SCHEMA.

(** ** Frame kinds and other wire texts *)

Module Peer.
Inductive t := Broker | Server.
#[global] Instance t_eq_dec : EqDecision t.
Proof. solve_decision. Defined.
End Peer.

Module Kind.
Inductive t := Started | ResourceAction | ResourceResult | ReceiptChunk | CleanupRecorded | Terminal | Abort | Refused.
#[global] Instance t_eq_dec : EqDecision t.
Proof. solve_decision. Defined.
Definition wire (k : t) : string :=
  match k with
  | Started => "STARTED" | ResourceAction => "RESOURCE_ACTION" | ResourceResult => "RESOURCE_RESULT"
  | ReceiptChunk => "RECEIPT_CHUNK" | CleanupRecorded => "CLEANUP_RECORDED" | Terminal => "TERMINAL"
  | Abort => "ABORT" | Refused => "REFUSED"
  end.
Definition from_wire (name : string) : option t :=
  match name with
  | "STARTED" => Some Started
  | "RESOURCE_ACTION" => Some ResourceAction
  | "RESOURCE_RESULT" => Some ResourceResult
  | "RECEIPT_CHUNK" => Some ReceiptChunk
  | "CLEANUP_RECORDED" => Some CleanupRecorded
  | "TERMINAL" => Some Terminal
  | "ABORT" => Some Abort
  | "REFUSED" => Some Refused
  | _ => None
  end.
Definition peer (k : t) : Peer.t :=
  match k with
  | Started | ResourceAction | ReceiptChunk | Terminal | Refused => Peer.Broker
  | ResourceResult | CleanupRecorded | Abort => Peer.Server
  end.
End Kind.

Module Verb.
Inductive t := Create | Get | Delete.
#[global] Instance t_eq_dec : EqDecision t.
Proof. solve_decision. Defined.
Definition wire (v : t) : string := match v with Create => "CREATE" | Get => "GET" | Delete => "DELETE" end.
End Verb.

Module TerminalStatus.
Inductive t := Completed | Failed | Unavailable.
Definition wire (s : t) : string :=
  match s with Completed => "COMPLETED" | Failed => "FAILED" | Unavailable => "UNAVAILABLE" end.
End TerminalStatus.

Module RefusedReason.
Inductive t := Unavailable | Replay | GenerationMismatch | CapacityHeld | InvalidAuthority.
#[global] Instance t_eq_dec : EqDecision t.
Proof. solve_decision. Defined.
Definition wire (r : t) : string :=
  match r with
  | Unavailable => "UNAVAILABLE" | Replay => "REPLAY" | GenerationMismatch => "GENERATION_MISMATCH"
  | CapacityHeld => "CAPACITY_HELD" | InvalidAuthority => "INVALID_AUTHORITY"
  end.
End RefusedReason.

(** ** Decoding *)

Definition decode_datagram (raw : list Z) (limit : Z) (schema : Schema) : result Value FrameError :=
  if limit <? Z.of_nat (length raw) then Err F02
  else if negb (utf8_valid raw) then Err F06
  else
    let? value := match parse raw with
                  | Ok value => Ok value
                  | Err Constant => Err F03
                  | Err Duplicate => Err F05
                  | Err Syntax => Err F06
                  end in
    let? encoded := match canonical value with Ok encoded => Ok encoded | Err _ => Err F06 end in
    if negb (bool_decide (encoded = raw)) then Err F06
    else if Nat.ltb MAX_DEPTH (depth value) then Err F01
    else if contains_float value then Err F03
    else if contains_control value then Err F04
    else if negb (is_valid schema value) then Err F00
    else Ok value.

Definition check_control_size (value : Value) (canonical_length : Z) : result unit FrameError :=
  let version := text value "schemaVersion" in
  let control :=
    bool_decide (version = Some DISPATCH_VERSION)
    || (bool_decide (version = Some FRAME_VERSION) && bool_decide (text value "kind" = Some (Kind.wire Kind.ResourceAction))) in
  if control && (MAX_CONTROL_BYTES <? canonical_length) then Err F02 else Ok tt.

Definition decode (raw : list Z) (schemas : Schemas) : result Value FrameError :=
  let? value := decode_datagram raw MAX_DATAGRAM_BYTES (sc_channel schemas) in
  let? _ := check_control_size value (Z.of_nat (length raw)) in
  Ok value.

(** ** DISPATCH *)

(** The DISPATCH's eight fields, in the order of [ECHO_FIELDS]. *)
Record Echo := mkEcho { echo_values : list string }.
Definition Echo_of (value : Value) : option Echo := mkEcho <$> mapM (text value) ECHO_FIELDS.
Definition Echo_get (e : Echo) (name : string) : option string :=
  snd <$> List.find (λ p : string * string, bool_decide (p.1 = name)) (zip ECHO_FIELDS (echo_values e)).
Definition echoed_by (e : Echo) (frame : Value) : bool :=
  forallb (λ p : string * string, bool_decide (text frame p.1 = Some p.2)) (zip ECHO_FIELDS (echo_values e)).

Record ConfiguredDigests := mkConfigured {
  cd_broker_manifest : string;
  cd_broker_executable : string;
  cd_worker_manifest : string;
  cd_worker_artifact : string;
}.
Record Dispatch := mkDispatch { d_echo : Echo; d_case_resources : gset string }.

Module DispatchError.
Inductive t := Frame (error : FrameError) | NotDispatch | Authority (echo : Echo).
End DispatchError.

(** The binding check; the bound case's resource set when all its parts hold. *)
Definition bound_case (binding : list Z) (echo : Echo) (configured : ConfiguredDigests) (schemas : Schemas)
    : option (gset string) :=
  match decode_datagram binding MAX_DATAGRAM_BYTES (sc_binding schemas) with
  | Err _ => None
  | Ok document =>
      if negb (bool_decide (Echo_get echo "bindingDigest" = Some (prefixed binding))) then None
      else
        let expected := [cd_broker_manifest configured; cd_broker_executable configured; cd_worker_manifest configured;
                         cd_worker_artifact configured] in
        if existsb (λ p : string * string, negb (bool_decide (text document p.1 = Some p.2))) (zip CONFIGURED_FIELDS expected)
        then None
        else
          let* cases := value_get document "caseResourceDigests" in
          let* name := Echo_get echo "caseId" in
          let* case := value_get cases name in
          let* case := as_array case in
          list_to_set <$> mapM as_str case
  end.

Definition check_dispatch (raw binding : list Z) (configured : ConfiguredDigests) (schemas : Schemas)
    : result Dispatch DispatchError.t :=
  match decode raw schemas with
  | Err error => Err (DispatchError.Frame error)
  | Ok value =>
      if negb (bool_decide (text value "schemaVersion" = Some DISPATCH_VERSION)) then Err DispatchError.NotDispatch
      else
        let? echo := result_of_option (Echo_of value) DispatchError.NotDispatch in
        match bound_case binding echo configured schemas with
        | Some case_resources => Ok (mkDispatch echo case_resources)
        | None => Err (DispatchError.Authority echo)
        end
  end.

(** ** The transcript *)

Module Breach.
Inductive t :=
| Frame (error : FrameError) | NotFrame | ExecutionIdForm | Direction | Sequence | Chain | Echo | Execution | FirstFrame
| StartedRepeated | RefusedNotFirst | ActionOutstanding | ActionAfterCleanup | ActionAfterAbort | ManifestOutsideCase
| NoActionOutstanding | ActionMismatch | ChunkAfterCleanup | ChunkIndex | ChunkEncoding | ChunkSize | ChunkCount
| ReceiptTooLarge | ChunksIncomplete | CleanupRepeated | TerminalBeforeCleanup | ReceiptSize | ReceiptDigest
| CleanupDigest | SecondAbort | Ended.
#[global] Instance t_eq_dec : EqDecision t.
Proof. solve_decision. Defined.
End Breach.

Module Phase.
Inductive t := First | RefuseOnly | Running | Cleaned | Over.
#[global] Instance t_eq_dec : EqDecision t.
Proof. solve_decision. Defined.
End Phase.

Record Accepted := mkAccepted { ac_kind : Kind.t; ac_sequence : Z; ac_frame : Value }.

Record Transcript := mkTranscript {
  t_echo : Echo;
  t_execution_id : string;
  t_case_resources : gset string;
  t_phase : Phase.t;
  t_next_sequence : Z;
  t_last_digest : string;
  t_outstanding : option Z;
  t_aborted : bool;
  t_next_index : Z;
  t_receipt_size : Z;
  t_receipt : Sha256;
  t_cleanup_digest : option string;
}.

Definition with_phase phase t :=
  mkTranscript (t_echo t) (t_execution_id t) (t_case_resources t) phase (t_next_sequence t) (t_last_digest t)
    (t_outstanding t) (t_aborted t) (t_next_index t) (t_receipt_size t) (t_receipt t) (t_cleanup_digest t).
Definition with_chain sequence digest t :=
  mkTranscript (t_echo t) (t_execution_id t) (t_case_resources t) (t_phase t) sequence digest
    (t_outstanding t) (t_aborted t) (t_next_index t) (t_receipt_size t) (t_receipt t) (t_cleanup_digest t).
Definition with_outstanding outstanding t :=
  mkTranscript (t_echo t) (t_execution_id t) (t_case_resources t) (t_phase t) (t_next_sequence t) (t_last_digest t)
    outstanding (t_aborted t) (t_next_index t) (t_receipt_size t) (t_receipt t) (t_cleanup_digest t).
Definition with_aborted aborted t :=
  mkTranscript (t_echo t) (t_execution_id t) (t_case_resources t) (t_phase t) (t_next_sequence t) (t_last_digest t)
    (t_outstanding t) aborted (t_next_index t) (t_receipt_size t) (t_receipt t) (t_cleanup_digest t).
Definition with_receipt index size receipt t :=
  mkTranscript (t_echo t) (t_execution_id t) (t_case_resources t) (t_phase t) (t_next_sequence t) (t_last_digest t)
    (t_outstanding t) (t_aborted t) index size receipt (t_cleanup_digest t).
Definition with_cleanup digest t :=
  mkTranscript (t_echo t) (t_execution_id t) (t_case_resources t) (t_phase t) (t_next_sequence t) (t_last_digest t)
    (t_outstanding t) (t_aborted t) (t_next_index t) (t_receipt_size t) (t_receipt t) digest.

Abbreviation checked T := (result T Breach.t).

Definition begin (echo : Echo) (case_resources : gset string) (execution_id : string) (phase : Phase.t) : checked Transcript :=
  if negb (is_hex64 execution_id) then Err Breach.ExecutionIdForm
  else Ok (mkTranscript echo execution_id case_resources phase 1 ZERO_DIGEST None false 0 0 sha_new None).
(** [Transcript::new] *)
Definition new (dispatch : Dispatch) (execution_id : string) : checked Transcript :=
  begin (d_echo dispatch) (d_case_resources dispatch) execution_id Phase.First.
Definition refusing (echo : Echo) (execution_id : string) : checked Transcript :=
  begin echo ∅ execution_id Phase.RefuseOnly.
Definition is_over (t : Transcript) : bool := bool_decide (t_phase t = Phase.Over).

(** The SHA-256 of the chunks' decoded bytes so far. *)
Definition receipt_digest (t : Transcript) : string := "sha256:" +:+ hex (finish (t_receipt t)).

(** [payload.field.ok_or(Breach::NotFrame)?] *)
Definition field {A} (member : option A) : checked A := result_of_option member Breach.NotFrame.

Definition running (t : Transcript) (kind : Kind.t) (payload : Value) : checked Transcript :=
  let cleaned := bool_decide (t_phase t = Phase.Cleaned) in
  let outstanding := bool_decide (t_outstanding t ≠ None) in
  match kind with
  | Kind.Started => Err Breach.StartedRepeated
  | Kind.Refused => Err Breach.RefusedNotFirst
  | Kind.ResourceAction =>
      if cleaned then Err Breach.ActionAfterCleanup
      else if t_aborted t then Err Breach.ActionAfterAbort
      else if outstanding then Err Breach.ActionOutstanding
      else
        let? manifest := field (text payload "manifestDigest") in
        if negb (bool_decide (manifest ∈ t_case_resources t)) then Err Breach.ManifestOutsideCase
        else let? action := field (integer payload "actionId") in Ok (with_outstanding (Some action) t)
  | Kind.ResourceResult =>
      let? action := field (integer payload "actionId") in
      match t_outstanding t with
      | None => Err Breach.NoActionOutstanding
      | Some outstanding =>
          if negb (outstanding =? action) then Err Breach.ActionMismatch else Ok (with_outstanding None t)
      end
  | Kind.ReceiptChunk =>
      if cleaned then Err Breach.ChunkAfterCleanup
      else if outstanding then Err Breach.ActionOutstanding
      else
        let? index := field (integer payload "index") in
        if negb (index =? t_next_index t) then Err Breach.ChunkIndex
        else if MAX_CHUNKS <=? index then Err Breach.ChunkCount
        else
          let? encoded := field (text payload "dataBase64") in
          let? data := result_of_option (canonical_base64 encoded) Breach.ChunkEncoding in
          if MAX_CHUNK_BYTES <? Z.of_nat (length data) then Err Breach.ChunkSize
          else
            let? size := result_of_option
              (let* size := usize_checked_add (t_receipt_size t) (Z.of_nat (length data)) in
               if size <=? MAX_RECEIPT_BYTES then Some size else None) Breach.ReceiptTooLarge in
            Ok (with_receipt (sat_add_i64 index 1) size (update (t_receipt t) data) t)
  | Kind.CleanupRecorded =>
      if cleaned then Err Breach.CleanupRepeated
      else if outstanding then Err Breach.ActionOutstanding
      else if t_next_index t <? 1 then Err Breach.ChunksIncomplete
      else
        let? digest := field (text payload "cleanupDigest") in
        Ok (with_phase Phase.Cleaned (with_cleanup (Some digest) t))
  | Kind.Terminal =>
      if negb cleaned then Err Breach.TerminalBeforeCleanup
      else if outstanding then Err Breach.ActionOutstanding
      else
        let? size := field (integer payload "receiptSize") in
        if negb (bool_decide (u64_try_from size = Some (t_receipt_size t))) then Err Breach.ReceiptSize
        else if negb (bool_decide (text payload "receiptDigest" = Some (receipt_digest t))) then Err Breach.ReceiptDigest
        else if negb (bool_decide (text payload "cleanupDigest" = t_cleanup_digest t)) then Err Breach.CleanupDigest
        else if negb (bool_decide ((let* member := value_get payload "workerReaped" in as_bool member) = Some true))
        then Err Breach.NotFrame
        else Ok (with_phase Phase.Over t)
  | Kind.Abort => if t_aborted t then Err Breach.SecondAbort else Ok (with_aborted true t)
  end.

Definition order (t : Transcript) (kind : Kind.t) (payload : Value) : checked Transcript :=
  match t_phase t with
  | Phase.Over => Err Breach.Ended
  | Phase.First =>
      match kind with
      | Kind.Started => Ok (with_phase Phase.Running t)
      | Kind.Refused => Ok (with_phase Phase.Over t)
      | _ => Err Breach.FirstFrame
      end
  | Phase.RefuseOnly =>
      match kind with Kind.Refused => Ok (with_phase Phase.Over t) | _ => Err Breach.FirstFrame end
  | Phase.Running | Phase.Cleaned => running t kind payload
  end.

(** [Transcript::check]: the transcript it leaves is the one of [Ok]; an error changes nothing. *)
Definition check_frame (t : Transcript) (raw : list Z) (from : Peer.t) (schemas : Schemas) : checked (Transcript * Accepted) :=
  match decode raw schemas with
  | Err error => Err (Breach.Frame error)
  | Ok frame =>
      if negb (bool_decide (text frame "schemaVersion" = Some FRAME_VERSION)) then Err Breach.NotFrame
      else
        let? kind := field (let* name := text frame "kind" in Kind.from_wire name) in
        if negb (bool_decide (Kind.peer kind = from)) then Err Breach.Direction
        else if negb (bool_decide (integer frame "sequence" = Some (t_next_sequence t))) then Err Breach.Sequence
        else if negb (bool_decide (text frame "previousDigest" = Some (t_last_digest t))) then Err Breach.Chain
        else if negb (echoed_by (t_echo t) frame) then Err Breach.Echo
        else if negb (bool_decide (text frame "executionId" = Some (t_execution_id t))) then Err Breach.Execution
        else
          let? payload := field (value_get frame "payload") in
          let? t := order t kind payload in
          let sequence := t_next_sequence t in
          Ok (with_chain (sat_add_i64 sequence 1) (prefixed raw) t, mkAccepted kind sequence frame)
  end.

Definition accept (t : Transcript) (raw : list Z) (from : Peer.t) (schemas : Schemas) : Transcript * checked Accepted :=
  if bool_decide (t_phase t = Phase.Over) then (t, Err Breach.Ended)
  else
    match check_frame t raw from schemas with
    | Ok (t, accepted) => (t, Ok accepted)
    | Err breach => (with_phase Phase.Over t, Err breach)
    end.

(** ** Builders *)

(** [Transcript::end] *)
Definition end_ {T} (t : Transcript) (breach : Breach.t) : Transcript * checked T :=
  if bool_decide (t_phase t = Phase.Over) then (t, Err Breach.Ended) else (with_phase Phase.Over t, Err breach).

(** [Object::insert], repeated. *)
Definition inserts (members : list (string * Value)) (object : Object) : Object :=
  fold_left (λ object member, object_insert object (jstr member.1) member.2) members object.

Definition frame_of (t : Transcript) (kind : Kind.t) (payload : list (string * Value)) : Value :=
  let frame := inserts [("schemaVersion", value_str FRAME_VERSION)] [] in
  let frame := inserts (map (λ p : string * string, (p.1, value_str p.2)) (zip ECHO_FIELDS (echo_values (t_echo t)))) frame in
  VObject (inserts
    [("executionId", value_str (t_execution_id t)); ("sequence", value_int (t_next_sequence t));
     ("previousDigest", value_str (t_last_digest t)); ("kind", value_str (Kind.wire kind));
     ("payload", VObject (inserts payload []))] frame).

Definition build (t : Transcript) (schemas : Schemas) (kind : Kind.t) (payload : list (string * Value))
    : Transcript * checked (list Z) :=
  if bool_decide (t_phase t = Phase.Over) then (t, Err Breach.Ended)
  else
    match canonical (frame_of t kind payload) with
    | Err _ => end_ t (Breach.Frame F06)
    | Ok raw => let '(t, accepted) := accept t raw Peer.Broker schemas in (t, result_map (λ _, raw) accepted)
    end.

Definition started (t : Transcript) (schemas : Schemas) (worker_pid worker_start_ticks : Z) :=
  build t schemas Kind.Started [("workerPid", value_int worker_pid); ("workerStartTicks", value_int worker_start_ticks)].
Definition resource_action (t : Transcript) (schemas : Schemas) (action_id : Z) (verb : Verb.t) (manifest_digest : string) :=
  build t schemas Kind.ResourceAction
    [("actionId", value_int action_id); ("verb", value_str (Verb.wire verb)); ("manifestDigest", value_str manifest_digest)].
Definition receipt_chunk (t : Transcript) (schemas : Schemas) (data : list Z) :=
  build t schemas Kind.ReceiptChunk [("index", value_int (t_next_index t)); ("dataBase64", value_str (encode data))].
Definition terminal (t : Transcript) (schemas : Schemas) (status : TerminalStatus.t) : Transcript * checked (list Z) :=
  match t_cleanup_digest t with
  | None => end_ t Breach.TerminalBeforeCleanup
  | Some cleanup =>
      match i64_try_from (t_receipt_size t) with
      | None => end_ t Breach.ReceiptSize
      | Some size =>
          build t schemas Kind.Terminal
            [("status", value_str (TerminalStatus.wire status)); ("receiptSize", value_int size);
             ("receiptDigest", value_str (receipt_digest t)); ("cleanupDigest", value_str cleanup);
             ("workerReaped", VBool true)]
      end
  end.
Definition refused (t : Transcript) (schemas : Schemas) (reason : RefusedReason.t) :=
  build t schemas Kind.Refused [("reason", value_str (RefusedReason.wire reason))].

(** ** The refusal map *)

Module BindRefusal.
Inductive t :=
| NotActive | ActionOutstanding | ExecutionReplay | GenerationMismatch | UnknownBinding | CertificateMismatch
| ManifestReused | WorkerNotObserved | StorageFailure.
#[global] Instance t_eq_dec : EqDecision t.
Proof. solve_decision. Defined.
Definition from_wire (name : string) : option t :=
  match name with
  | "NOT_ACTIVE" => Some NotActive
  | "ACTION_OUTSTANDING" => Some ActionOutstanding
  | "EXECUTION_REPLAY" => Some ExecutionReplay
  | "GENERATION_MISMATCH" => Some GenerationMismatch
  | "UNKNOWN_BINDING" => Some UnknownBinding
  | "CERTIFICATE_MISMATCH" => Some CertificateMismatch
  | "MANIFEST_REUSED" => Some ManifestReused
  | "WORKER_NOT_OBSERVED" => Some WorkerNotObserved
  | "STORAGE_FAILURE" => Some StorageFailure
  | _ => None
  end.
End BindRefusal.

Module Failure.
Inductive t :=
| Held | BindingMismatch | GateQualification | GateChannel | ScriptCheck | LeafCheck | Spawn
| BindRefused (reason : BindRefusal.t) | BindChannel | LeafNotEmpty.
End Failure.

Definition answer (failure : Failure.t) : option RefusedReason.t :=
  match failure with
  | Failure.Held => Some RefusedReason.CapacityHeld
  | Failure.BindingMismatch => Some RefusedReason.InvalidAuthority
  | Failure.GateQualification | Failure.GateChannel | Failure.ScriptCheck | Failure.LeafCheck =>
      Some RefusedReason.Unavailable
  | Failure.Spawn | Failure.BindChannel => Some RefusedReason.Unavailable
  | Failure.BindRefused _ => Some RefusedReason.Unavailable
  | Failure.LeafNotEmpty => None
  end.

End I02.

(** * START ([host-enforcement/crates/broker/src/i03.rs]) *)
Module I03.
Import I02.

Definition START_VERSION : string := "planeon.internal.broker-worker/v1".
Definition START_OPERATION : string := "START".
Definition START_FIELDS : list string := ["bindingDigest"; "caseId"; "requestDigest"; "generation"].

Definition start (dispatch : Dispatch) (execution_id : string) (schemas : Schemas) : result (list Z) FrameError :=
  let head := [("schemaVersion", value_str START_VERSION); ("operation", value_str START_OPERATION);
               ("executionId", value_str execution_id)] in
  let? fields := result_mapM (λ name, let? value := result_of_option (Echo_get (d_echo dispatch) name) F00 in
                                      Ok (name, value_str value)) START_FIELDS in
  let? raw := match canonical (VObject (inserts (head ++ fields) [])) with Ok raw => Ok raw | Err _ => Err F06 end in
  let? _ := decode_datagram raw MAX_CONTROL_BYTES (sc_worker_start schemas) in
  Ok raw.
End I03.
