(* ===== verification/I02Proofs.v ===== *)
(** * The server channel is lawful

    What a transcript accepts, stated on the history of the frames it has accepted: [may_follow] is the protocol's rule
    for the next frame, read off the frames before it; [accept] takes exactly the frames it allows, and
    the first datagram it refuses ends the conversation. *)

From S2P Require Import Prelude Slices Sha256 Base64 Json Schema Frame I02.
Import I02.

(** [decode_datagram] with the limit 16,384 answers as the gate's [decode_frame] does. *)
Theorem decode_datagram_is_decode_frame raw schema :
  decode_datagram raw MAX_FRAME_BYTES schema = decode_frame (Bytes raw) schema.
Proof.
  unfold decode_datagram, decode_frame, check_structure, I02.MAX_DEPTH, Frame.MAX_DEPTH.
  destruct (_ <? _); [done|]. destruct (negb (utf8_valid raw)); [done|].
  destruct (parse raw) as [value|[]]; try done. cbn [result_bind]. destruct (canonical value) as [encoded|]; [|done]. cbn [result_bind].
  destruct (negb _); [done|]. destruct (Nat.ltb _ _); [done|]. destruct (contains_float value); [done|].
  destruct (contains_control value); [done|]. by destruct (negb _).
Qed.

(** ** The protocol, on histories *)

(** One accepted frame; a history lists them newest first. *)
Record Turn := mkTurn { turn_raw : list Z; turn_kind : Kind.t; turn_payload : Value }.

Definition occurs (kind : Kind.t) (past : list Turn) : bool := existsb (λ turn, bool_decide (turn_kind turn = kind)) past.

(** The action a result may answer. *)
Fixpoint outstanding_of (past : list Turn) : option Z :=
  match past with
  | [] => None
  | turn :: past =>
      match turn_kind turn with
      | Kind.ResourceAction => integer (turn_payload turn) "actionId"
      | Kind.ResourceResult => None
      | _ => outstanding_of past
      end
  end.

(** A chunk's decoded bytes, and the chunks so far, the first one first. *)
Definition chunk_data (payload : Value) : option (list Z) := let* encoded := text payload "dataBase64" in canonical_base64 encoded.
Fixpoint pieces_of (past : list Turn) : list (list Z) :=
  match past with
  | [] => []
  | turn :: past =>
      match turn_kind turn with
      | Kind.ReceiptChunk => pieces_of past ++ [default [] (chunk_data (turn_payload turn))]
      | _ => pieces_of past
      end
  end.
Definition receipt_of (past : list Turn) : list Z := concat (pieces_of past).
Fixpoint cleanup_of (past : list Turn) : option string :=
  match past with
  | [] => None
  | turn :: past =>
      match turn_kind turn with Kind.CleanupRecorded => text (turn_payload turn) "cleanupDigest" | _ => cleanup_of past end
  end.

(** The worker runs: STARTED was sent and TERMINAL was not. *)
Definition under_way (past : list Turn) : Prop := occurs Kind.Started past = true ∧ occurs Kind.Terminal past = false.

(** The protocol's rule for the next frame. *)
Definition may_follow (refuse_only : bool) (case_resources : gset string) (past : list Turn) (kind : Kind.t) (payload : Value) : Prop :=
  match kind with
  | Kind.Started => refuse_only = false ∧ past = []
  | Kind.Refused => past = []
  | Kind.ResourceAction =>
      under_way past ∧ occurs Kind.CleanupRecorded past = false ∧ occurs Kind.Abort past = false ∧ outstanding_of past = None ∧
      (∃ manifest, text payload "manifestDigest" = Some manifest ∧ manifest ∈ case_resources) ∧
      is_Some (integer payload "actionId")
  | Kind.ResourceResult =>
      under_way past ∧ ∃ action, outstanding_of past = Some action ∧ integer payload "actionId" = Some action
  | Kind.ReceiptChunk =>
      under_way past ∧ occurs Kind.CleanupRecorded past = false ∧ outstanding_of past = None ∧
      integer payload "index" = Some (Z.of_nat (length (pieces_of past))) ∧ (length (pieces_of past) < 171)%nat ∧
      ∃ data, chunk_data payload = Some data ∧ zlen data ≤ 24576 ∧ zlen (receipt_of past) + zlen data ≤ 4194304
  | Kind.CleanupRecorded =>
      under_way past ∧ occurs Kind.CleanupRecorded past = false ∧ outstanding_of past = None ∧ pieces_of past ≠ [] ∧
      is_Some (text payload "cleanupDigest")
  | Kind.Terminal =>
      under_way past ∧ outstanding_of past = None ∧
      (∃ cleanup, cleanup_of past = Some cleanup ∧ text payload "cleanupDigest" = Some cleanup) ∧
      integer payload "receiptSize" = Some (zlen (receipt_of past)) ∧
      text payload "receiptDigest" = Some (prefixed (receipt_of past)) ∧
      (let* member := value_get payload "workerReaped" in as_bool member) = Some true
  | Kind.Abort => under_way past ∧ occurs Kind.Abort past = false
  end.

(** The frame carries its place in the conversation. *)
Record in_place (echo : Echo) (execution_id : string) (past : list Turn) (kind : Kind.t) (frame : Value) : Prop := {
  place_version : text frame "schemaVersion" = Some I02.FRAME_VERSION;
  place_kind : text frame "kind" = Some (Kind.wire kind);
  place_sequence : integer frame "sequence" = Some (Z.of_nat (length past) + 1);
  place_previous :
    text frame "previousDigest" = Some (match past with [] => I02.ZERO_DIGEST | turn :: _ => prefixed (turn_raw turn) end);
  place_echo : Forall (λ p : string * string, text frame p.1 = Some p.2) (zip ECHO_FIELDS (echo_values echo));
  place_execution : text frame "executionId" = Some execution_id;
}.

(** The histories of a transcript, by the frames it accepts. *)
Inductive conversation (schemas : Schemas) (t0 : Transcript) : list Turn → Transcript → Prop :=
| conversation_begins : conversation schemas t0 [] t0
| conversation_goes_on past t raw from t' a payload :
    conversation schemas t0 past t → accept t raw from schemas = (t', Ok a) → value_get (ac_frame a) "payload" = Some payload →
    conversation schemas t0 (mkTurn raw (ac_kind a) payload :: past) t'.

(** ** The state a history leads to *)

Definition phase_of (refuse_only : bool) (past : list Turn) : Phase.t :=
  match past with
  | [] => if refuse_only then Phase.RefuseOnly else Phase.First
  | _ =>
      if occurs Kind.Refused past || occurs Kind.Terminal past then Phase.Over
      else if occurs Kind.CleanupRecorded past then Phase.Cleaned else Phase.Running
  end.

Record reached (refuse_only : bool) (echo : Echo) (case_resources : gset string) (execution_id : string) (past : list Turn)
    (t : Transcript) : Prop := {
  reached_echo : t_echo t = echo;
  reached_case : t_case_resources t = case_resources;
  reached_id : t_execution_id t = execution_id;
  reached_phase : t_phase t = phase_of refuse_only past;
  reached_first : past ≠ [] → occurs Kind.Started past = negb (occurs Kind.Refused past);
  reached_sequence : t_next_sequence t = Z.of_nat (length past) + 1;
  reached_digest : t_last_digest t = match past with [] => I02.ZERO_DIGEST | turn :: _ => prefixed (turn_raw turn) end;
  reached_outstanding : t_outstanding t = outstanding_of past;
  reached_aborted : t_aborted t = occurs Kind.Abort past;
  reached_index : t_next_index t = Z.of_nat (length (pieces_of past));
  reached_count : (length (pieces_of past) ≤ 171)%nat;
  reached_size : t_receipt_size t = zlen (receipt_of past);
  reached_bound : zlen (receipt_of past) ≤ 4194304;
  reached_receipt : t_receipt t = fold_left update (pieces_of past) sha_new;
  reached_cleanup : t_cleanup_digest t = cleanup_of past;
  reached_recorded : is_Some (cleanup_of past) ↔ occurs Kind.CleanupRecorded past = true;
}.

Lemma wire_from_wire k : Kind.from_wire (Kind.wire k) = Some k.
Proof. by destruct k. Qed.
Lemma from_wire_wire name k : Kind.from_wire name = Some k → name = Kind.wire k.
Proof.
  unfold Kind.from_wire. intros H. repeat (case_match; try done); by injection H as <-.
Qed.

Lemma receipt_digest_of refuse_only echo case id past t :
  reached refuse_only echo case id past t → receipt_digest t = prefixed (receipt_of past).
Proof.
  intros H. unfold receipt_digest, prefixed. rewrite (reached_receipt _ _ _ _ _ _ H), update_pieces_sha256, digest_spec. done.
Qed.

Section Reached.
Context (refuse_only : bool) (echo : Echo) (case_resources : gset string) (execution_id : string).
Abbreviation reach := (reached refuse_only echo case_resources execution_id).
Abbreviation rule := (may_follow refuse_only case_resources).

Lemma under_way_phase past t :
  reach past t → under_way past →
  t_phase t = if occurs Kind.CleanupRecorded past then Phase.Cleaned else Phase.Running.
Proof.
  intros H [Hs Ht]. rewrite (reached_phase _ _ _ _ _ _ H). unfold phase_of. destruct past as [|turn past]; [done|].
  pose proof (reached_first _ _ _ _ _ _ H ltac:(done)) as Hf. rewrite Hs in Hf. symmetry in Hf. apply negb_true_iff in Hf.
  by rewrite Hf, Ht.
Qed.

Lemma running_under_way past t :
  reach past t → t_phase t = Phase.Running ∨ t_phase t = Phase.Cleaned → under_way past.
Proof.
  intros H Hp. rewrite (reached_phase _ _ _ _ _ _ H) in Hp. unfold phase_of in Hp.
  destruct past as [|turn past]; [destruct refuse_only; naive_solver|].
  pose proof (reached_first _ _ _ _ _ _ H ltac:(done)) as Hf. unfold under_way.
  destruct (occurs Kind.Refused (turn :: past)) eqn:Er, (occurs Kind.Terminal (turn :: past)) eqn:Et; cbn [orb] in Hp;
    [naive_solver..|]. by rewrite Hf.
Qed.

Lemma cleaned_occurs past t :
  reach past t → under_way past → bool_decide (t_phase t = Phase.Cleaned) = occurs Kind.CleanupRecorded past.
Proof. intros H Hu. rewrite (under_way_phase past t H Hu). by destruct (occurs _ past). Qed.

Lemma outstanding_decided past t :
  reach past t → bool_decide (t_outstanding t ≠ None) = negb (bool_decide (outstanding_of past = None)).
Proof. intros H. rewrite (reached_outstanding _ _ _ _ _ _ H). by destruct (outstanding_of past). Qed.

(** The fields of the next transcript that every kind sets alike. *)
Lemma reached_turn past t kind payload raw t' :
  reach past t → Z.of_nat (length past) + 2 ≤ I64_MAX →
  t_echo t' = t_echo t → t_case_resources t' = t_case_resources t → t_execution_id t' = t_execution_id t →
  t_next_sequence t' = t_next_sequence t → t_phase t' = phase_of refuse_only (mkTurn raw kind payload :: past) →
  (occurs Kind.Started (mkTurn raw kind payload :: past) = negb (occurs Kind.Refused (mkTurn raw kind payload :: past))) →
  t_outstanding t' = outstanding_of (mkTurn raw kind payload :: past) →
  t_aborted t' = occurs Kind.Abort (mkTurn raw kind payload :: past) →
  t_next_index t' = Z.of_nat (length (pieces_of (mkTurn raw kind payload :: past))) →
  (length (pieces_of (mkTurn raw kind payload :: past)) ≤ 171)%nat →
  t_receipt_size t' = zlen (receipt_of (mkTurn raw kind payload :: past)) →
  zlen (receipt_of (mkTurn raw kind payload :: past)) ≤ 4194304 →
  t_receipt t' = fold_left update (pieces_of (mkTurn raw kind payload :: past)) sha_new →
  t_cleanup_digest t' = cleanup_of (mkTurn raw kind payload :: past) →
  (is_Some (cleanup_of (mkTurn raw kind payload :: past)) ↔ occurs Kind.CleanupRecorded (mkTurn raw kind payload :: past) = true) →
  reach (mkTurn raw kind payload :: past) (with_chain (sat_add_i64 (t_next_sequence t') 1) (prefixed raw) t').
Proof.
  intros H Hl E1 E2 E3 E4 E5 E6 E7 E8 E9 E10 E11 E12 E13 E14 E15. destruct H. split; try done; cbn [with_chain t_echo t_case_resources t_execution_id]; try congruence.
  cbn [with_chain t_next_sequence length]. rewrite E4, reached_sequence0, Nat2Z.inj_succ. unfold sat_add_i64, I64_MIN, I64_MAX in *. lia.
Qed.

Lemma phase_goes_on past t kind raw payload :
  reach past t → under_way past → kind ≠ Kind.Started → kind ≠ Kind.Refused →
  phase_of refuse_only (mkTurn raw kind payload :: past) =
    (if bool_decide (kind = Kind.Terminal) then Phase.Over
     else if bool_decide (kind = Kind.CleanupRecorded) then Phase.Cleaned else t_phase t) ∧
  occurs Kind.Started (mkTurn raw kind payload :: past) = negb (occurs Kind.Refused (mkTurn raw kind payload :: past)).
Proof.
  intros H Hu Hs Hr. rewrite (under_way_phase past t H Hu). destruct Hu as [H1 H2].
  assert (Hf : occurs Kind.Refused past = false).
  { pose proof (reached_first _ _ _ _ _ _ H) as Hf. rewrite H1 in Hf. destruct past; [done|]. by destruct (occurs Kind.Refused _); [specialize (Hf ltac:(done))|]. }
  unfold phase_of. cbn [occurs existsb turn_kind]. fold (occurs Kind.Refused past) (occurs Kind.Terminal past)
    (occurs Kind.CleanupRecorded past) (occurs Kind.Started past). rewrite H1, H2, Hf. by destruct kind.
Qed.

(** A frame of [kind] while the worker runs: the common part of every case. *)
Ltac goes_on H Hu :=
  eapply reached_turn;
  [exact H|done|done|done|done|done
  |match goal with |- _ = phase_of _ (mkTurn ?raw ?kind ?payload :: _) =>
     rewrite (proj1 (phase_goes_on _ _ kind raw payload H Hu ltac:(done) ltac:(done))) end
  |match goal with |- occurs _ (mkTurn ?raw ?kind ?payload :: _) = _ =>
     exact (proj2 (phase_goes_on _ _ kind raw payload H Hu ltac:(done) ltac:(done))) end
  |..];
  destruct H; cbn; try done.

(** What [running] accepts the rule allows, and the transcript it leaves is the longer history's. *)
Lemma running_chunk past t payload t' raw :
  reach past t → under_way past → Z.of_nat (length past) + 2 ≤ I64_MAX → running t Kind.ReceiptChunk payload = Ok t' →
  rule past Kind.ReceiptChunk payload ∧
  reach (mkTurn raw Kind.ReceiptChunk payload :: past) (with_chain (sat_add_i64 (t_next_sequence t') 1) (prefixed raw) t').
Proof.
  intros H Hu Hl. unfold running. rewrite (cleaned_occurs past t H Hu), (outstanding_decided past t H).
  destruct (occurs Kind.CleanupRecorded past) eqn:Ec; [done|]. destruct (bool_decide _) eqn:Eo; [|done].
  apply bool_decide_eq_true in Eo. cbn [negb]. destruct (integer payload "index") as [index|] eqn:Ei; [|done].
  cbn [field result_of_option result_bind]. rewrite (reached_index _ _ _ _ _ _ H), (reached_size _ _ _ _ _ _ H).
  destruct (Z.eqb_spec index (Z.of_nat (length (pieces_of past)))) as [->|]; [|done]. cbn [negb].
  destruct (Z.leb_spec MAX_CHUNKS (Z.of_nat (length (pieces_of past)))) as [|Hc]; [done|]. unfold MAX_CHUNKS in Hc.
  destruct (text payload "dataBase64") as [encoded|] eqn:Ee; [|done]. cbn [field result_of_option result_bind].
  destruct (canonical_base64 encoded) as [data|] eqn:Ed; [|done]. cbn [result_of_option result_bind].
  destruct (Z.ltb_spec MAX_CHUNK_BYTES (Z.of_nat (length data))) as [|Hd]; [done|]. unfold MAX_CHUNK_BYTES in Hd.
  destruct (usize_checked_add _ _) as [size|] eqn:Es; [|done]. cbn [mbind option_bind].
  destruct (Z.leb_spec size MAX_RECEIPT_BYTES) as [Hz|]; [|done]. cbn [result_bind result_of_option]. intros [= <-].
  unfold MAX_RECEIPT_BYTES in Hz. unfold usize_checked_add in Es. destruct (_ <? U64); [|done]. injection Es as <-.
  assert (Edata : chunk_data payload = Some data) by (unfold chunk_data; by rewrite Ee).
  split.
  { repeat (split; [done || lia|]). exists data. split; [done|]. unfold zlen in *. lia. }
  goes_on H Hu; rewrite ?Edata; unfold receipt_of, zlen in *; cbn [pieces_of turn_kind turn_payload]; rewrite ?Edata; unfold default, from_option, id;
    rewrite ?length_app, ?concat_app, ?fold_left_app; cbn [length concat fold_left]; rewrite ?app_nil_r, ?length_app.
  + unfold sat_add_i64, I64_MIN, I64_MAX in *. lia.
  + lia.
  + lia.
  + lia.
  + cbn. congruence.
Qed.

Lemma running_terminal past t payload t' raw :
  reach past t → under_way past → Z.of_nat (length past) + 2 ≤ I64_MAX → running t Kind.Terminal payload = Ok t' →
  rule past Kind.Terminal payload ∧
  reach (mkTurn raw Kind.Terminal payload :: past) (with_chain (sat_add_i64 (t_next_sequence t') 1) (prefixed raw) t').
Proof.
  intros H Hu Hl. unfold running. rewrite (cleaned_occurs past t H Hu), (outstanding_decided past t H).
  destruct (occurs Kind.CleanupRecorded past) eqn:Ec; [|done]. cbn [negb]. destruct (bool_decide _) eqn:Eo; [|done].
  apply bool_decide_eq_true in Eo. cbn [negb]. rewrite (reached_size _ _ _ _ _ _ H), (reached_cleanup _ _ _ _ _ _ H).
  rewrite (receipt_digest_of _ _ _ _ _ _ H).
  destruct (integer payload "receiptSize") as [size|] eqn:Es; [|done]. cbn [field result_of_option result_bind].
  destruct (bool_decide (u64_try_from size = _)) eqn:E1; [|done]. apply bool_decide_eq_true in E1. cbn [negb].
  destruct (bool_decide (text payload "receiptDigest" = _)) eqn:E2; [|done]. apply bool_decide_eq_true in E2. cbn [negb].
  destruct (bool_decide (text payload "cleanupDigest" = _)) eqn:E3; [|done]. apply bool_decide_eq_true in E3. cbn [negb].
  destruct (bool_decide (_ = Some true)) eqn:E4; [|done]. apply bool_decide_eq_true in E4. cbn [negb]. intros [= <-].
  apply (reached_recorded _ _ _ _ _ _ H) in Ec as Hc. destruct Hc as [cleanup Hc].
  assert (size = zlen (receipt_of past)) as ->.
  { unfold u64_try_from in E1. destruct (_ && _); [|done]. congruence. }
  split; [split; [done|]; split; [done|]; split; [by exists cleanup; rewrite E3|done]|].
  goes_on H Hu.
Qed.

Lemma running_Ok past t kind payload t' raw :
  reach past t → under_way past → Z.of_nat (length past) + 2 ≤ I64_MAX → running t kind payload = Ok t' →
  rule past kind payload ∧
  reach (mkTurn raw kind payload :: past) (with_chain (sat_add_i64 (t_next_sequence t') 1) (prefixed raw) t').
Proof.
  intros H Hu Hl. destruct kind; [done| | |by apply running_chunk| |by apply running_terminal| |done];
    unfold running; rewrite ?(cleaned_occurs past t H Hu), ?(outstanding_decided past t H).
  - destruct (occurs Kind.CleanupRecorded past) eqn:Ec; [done|]. rewrite (reached_aborted _ _ _ _ _ _ H).
    destruct (occurs Kind.Abort past) eqn:Ea; [done|]. destruct (bool_decide _) eqn:Eo; [|done]. apply bool_decide_eq_true in Eo.
    cbn [negb]. destruct (text payload "manifestDigest") as [manifest|] eqn:Em; [|done]. cbn [field result_of_option result_bind].
    destruct (bool_decide (manifest ∈ _)) eqn:Ei; [|done]. apply bool_decide_eq_true in Ei. cbn [negb].
    destruct (integer payload "actionId") as [action|] eqn:Ex; [|done]. cbn [result_bind field result_of_option]. intros [= <-]. split.
    { rewrite (reached_case _ _ _ _ _ _ H) in Ei. cbn [may_follow]. rewrite Em, Ex. naive_solver. }
    goes_on H Hu.
  - destruct (integer payload "actionId") as [action|] eqn:Ex; [|done]. cbn [field result_of_option result_bind].
    destruct (t_outstanding t) as [outstanding|] eqn:Et; [|done]. destruct (Z.eqb_spec outstanding action) as [->|]; [|done].
    intros [= <-]. rewrite (reached_outstanding _ _ _ _ _ _ H) in Et. split; [split; [done|by exists action]|]. goes_on H Hu.
  - destruct (occurs Kind.CleanupRecorded past) eqn:Ec; [done|]. destruct (bool_decide _) eqn:Eo; [|done].
    apply bool_decide_eq_true in Eo. cbn [negb]. rewrite (reached_index _ _ _ _ _ _ H).
    destruct (Z.ltb_spec (Z.of_nat (length (pieces_of past))) 1) as [|Hp]; [done|].
    destruct (text payload "cleanupDigest") as [digest|] eqn:Ed; [|done]. intros [= <-]. split.
    { repeat (split; [done|]). split; [by destruct (pieces_of past)|]. by eexists. }
    goes_on H Hu.
  - rewrite (reached_aborted _ _ _ _ _ _ H). destruct (occurs Kind.Abort past) eqn:Ea; [done|]. intros [= <-].
    split; [done|]. goes_on H Hu.
Qed.
Lemma rule_running past t kind payload :
  reach past t → under_way past → kind ≠ Kind.Started → kind ≠ Kind.Refused → rule past kind payload →
  ∃ t', running t kind payload = Ok t'.
Proof.
  intros H Hu Hs Hr. unfold running. rewrite (cleaned_occurs past t H Hu), (outstanding_decided past t H).
  destruct kind; try done; cbn [may_follow].
  - intros (_ & -> & Ha & -> & (manifest & -> & Hm) & [action ->]). rewrite (reached_aborted _ _ _ _ _ _ H), Ha. cbn.
    rewrite (reached_case _ _ _ _ _ _ H), bool_decide_eq_true_2 by done. eauto.
  - intros (_ & action & Ho & ->). cbn. rewrite (reached_outstanding _ _ _ _ _ _ H), Ho, Z.eqb_refl. eauto.
  - intros (_ & -> & -> & -> & Hc & data & Hd & H1 & H2). cbn.
    rewrite (reached_index _ _ _ _ _ _ H), (reached_size _ _ _ _ _ _ H), Z.eqb_refl. cbn.
    rewrite (proj2 (Z.leb_gt _ _)) by (unfold MAX_CHUNKS; lia). unfold chunk_data in Hd.
    destruct (text payload "dataBase64") as [encoded|]; [|done]. cbn in *. rewrite Hd. cbn. unfold zlen in *.
    rewrite (proj2 (Z.ltb_ge _ _)) by (unfold MAX_CHUNK_BYTES; lia). unfold usize_checked_add.
    rewrite (proj2 (Z.ltb_lt _ _)) by (unfold U64; lia). cbn. rewrite (proj2 (Z.leb_le _ _)) by (unfold MAX_RECEIPT_BYTES; lia).
    cbn. eauto.
  - intros (_ & -> & -> & Hp & [digest ->]). cbn. rewrite (reached_index _ _ _ _ _ _ H).
    destruct (pieces_of past) as [|piece l]; [done|]. rewrite (proj2 (Z.ltb_ge _ _)) by (cbn [length]; lia). cbn. eauto.
  - intros (_ & -> & (cleanup & Hc & Hd) & -> & -> & ->). rewrite (receipt_digest_of _ _ _ _ _ _ H).
    rewrite (proj1 (reached_recorded _ _ _ _ _ _ H)) by by exists cleanup. cbn.
    rewrite (reached_size _ _ _ _ _ _ H), (reached_cleanup _ _ _ _ _ _ H), Hc, Hd. unfold u64_try_from.
    pose proof (reached_bound _ _ _ _ _ _ H). unfold zlen in *. rewrite (proj2 (andb_true_iff _ _)) by (unfold U64; lia).
    rewrite !bool_decide_eq_true_2 by done. cbn. eauto.
  - intros (_ & Ha). rewrite (reached_aborted _ _ _ _ _ _ H), Ha. eauto.
Qed.

Lemma first_phase past t : reach past t → t_phase t = Phase.First ↔ past = [] ∧ refuse_only = false.
Proof.
  intros H. rewrite (reached_phase _ _ _ _ _ _ H). unfold phase_of. destruct past; [destruct refuse_only; naive_solver|].
  destruct (_ || _); [naive_solver|]. destruct (occurs _ _); naive_solver.
Qed.
Lemma refuse_phase past t : reach past t → t_phase t = Phase.RefuseOnly ↔ past = [] ∧ refuse_only = true.
Proof.
  intros H. rewrite (reached_phase _ _ _ _ _ _ H). unfold phase_of. destruct past; [destruct refuse_only; naive_solver|].
  destruct (_ || _); [naive_solver|]. destruct (occurs _ _); naive_solver.
Qed.

(** STARTED and REFUSED, the first frame. *)
Lemma reached_first_turn t kind payload raw phase :
  reach [] t → kind = Kind.Started ∧ phase = Phase.Running ∨ kind = Kind.Refused ∧ phase = Phase.Over →
  reach [mkTurn raw kind payload] (with_chain (sat_add_i64 (t_next_sequence (with_phase phase t)) 1) (prefixed raw) (with_phase phase t)).
Proof.
  intros H [[-> ->]|[-> ->]]; eapply reached_turn; [exact H|..]; destruct H; cbn in *; try done.
Qed.

Lemma order_Ok past t kind payload t' raw :
  reach past t → Z.of_nat (length past) + 2 ≤ I64_MAX → order t kind payload = Ok t' →
  rule past kind payload ∧
  reach (mkTurn raw kind payload :: past) (with_chain (sat_add_i64 (t_next_sequence t') 1) (prefixed raw) t').
Proof.
  intros H Hl. unfold order. destruct (t_phase t) eqn:Ep; try done.
  - apply (first_phase past t H) in Ep as [-> Er]. destruct kind; intros [= <-]; (split; [done|]); apply reached_first_turn; auto.
  - apply (refuse_phase past t H) in Ep as [-> Er]. destruct kind; intros [= <-]. split; [done|]. apply reached_first_turn; auto.
  - apply running_Ok; [done| |done]. apply (running_under_way past t H). by left.
  - apply running_Ok; [done| |done]. apply (running_under_way past t H). by right.
Qed.

Lemma rule_order past t kind payload : reach past t → rule past kind payload → ∃ t', order t kind payload = Ok t'.
Proof.
  intros H Hr. unfold order.
  assert (Hrun : under_way past → kind ≠ Kind.Started → kind ≠ Kind.Refused → ∃ t', order t kind payload = Ok t').
  { intros Hu Hs Hf. unfold order. rewrite (under_way_phase past t H Hu). destruct (occurs _ past); by apply (rule_running past). }
  destruct kind; try (apply Hrun; [apply Hr|done|done]).
  - cbn in Hr. destruct Hr as [Hf ->]. rewrite (proj2 (first_phase [] t H)) by done. eauto.
  - cbn in Hr. subst past. destruct (decide (refuse_only = true)) as [E|E%not_true_is_false].
    + rewrite (proj2 (refuse_phase [] t H)) by done. eauto.
    + rewrite (proj2 (first_phase [] t H)) by done. eauto.
Qed.

(** [check_frame] accepts what decodes, is in its place and may follow. *)
Lemma check_frame_Ok past t raw from schemas t' a :
  reach past t → check_frame t raw from schemas = Ok (t', a) →
  ∃ payload t'', decode raw schemas = Ok (ac_frame a) ∧ Kind.peer (ac_kind a) = from ∧
    in_place echo execution_id past (ac_kind a) (ac_frame a) ∧ value_get (ac_frame a) "payload" = Some payload ∧
    order t (ac_kind a) payload = Ok t'' ∧ t' = with_chain (sat_add_i64 (t_next_sequence t'') 1) (prefixed raw) t''.
Proof.
  intros H. unfold check_frame. destruct (decode raw schemas) as [frame|]; [|done].
  destruct (bool_decide (text frame "schemaVersion" = _)) eqn:E1; [|done]. apply bool_decide_eq_true in E1. cbn [negb].
  destruct (text frame "kind") as [name|] eqn:E2; [|done]. cbn [mbind option_bind].
  destruct (Kind.from_wire name) as [kind|] eqn:E3; [|done]. cbn [field result_of_option result_bind].
  destruct (bool_decide (Kind.peer kind = from)) eqn:E4; [|done]. apply bool_decide_eq_true in E4. cbn [negb].
  destruct (bool_decide (integer frame "sequence" = _)) eqn:E5; [|done]. apply bool_decide_eq_true in E5. cbn [negb].
  destruct (bool_decide (text frame "previousDigest" = _)) eqn:E6; [|done]. apply bool_decide_eq_true in E6. cbn [negb].
  destruct (echoed_by _ _) eqn:E7; [|done]. cbn [negb].
  destruct (bool_decide (text frame "executionId" = _)) eqn:E8; [|done]. apply bool_decide_eq_true in E8. cbn [negb].
  destruct (value_get frame "payload") as [payload|] eqn:E9; [|done]. cbn [field result_of_option result_bind].
  destruct (order t kind payload) as [t''|] eqn:E10; [|done]. cbn [result_bind]. intros [= <- <-]. cbn [ac_kind ac_frame].
  exists payload, t''. apply from_wire_wire in E3 as ->. destruct H. repeat (split; [done|]). split; [|done].
  split; [done|done|congruence|congruence| |congruence].
  apply Forall_forall. intros p Hp. unfold echoed_by in E7. rewrite reached_echo0 in E7.
  apply list_elem_of_In in Hp. eapply forallb_forall in E7; [|exact Hp]. by apply bool_decide_eq_true in E7.
Qed.

Lemma check_frame_accepts past t raw from schemas frame kind payload t'' :
  reach past t → decode raw schemas = Ok frame → Kind.peer kind = from → in_place echo execution_id past kind frame →
  value_get frame "payload" = Some payload → order t kind payload = Ok t'' →
  ∃ t' a, check_frame t raw from schemas = Ok (t', a) ∧ ac_kind a = kind ∧ ac_frame a = frame.
Proof.
  intros H Hd Hp [P1 P2 P3 P4 P5 P6] Hv Ho. unfold check_frame. rewrite Hd, P1, P2. cbn [mbind option_bind].
  rewrite wire_from_wire. cbn [field result_of_option result_bind]. rewrite P3, P4, P6, Hv. destruct H.
  rewrite reached_echo0, reached_id0, reached_sequence0, reached_digest0, !bool_decide_eq_true_2 by done. cbn [negb].
  assert (echoed_by echo frame = true) as ->.
  { apply forallb_forall. intros p Hin%list_elem_of_In. rewrite Forall_forall in P5. by apply bool_decide_eq_true, P5. }
  cbn [negb field result_of_option result_bind]. rewrite Ho. cbn [result_bind]. eauto.
Qed.

Lemma accept_reached past t raw from schemas t' a payload :
  reach past t → Z.of_nat (length past) + 2 ≤ I64_MAX → accept t raw from schemas = (t', Ok a) →
  value_get (ac_frame a) "payload" = Some payload → reach (mkTurn raw (ac_kind a) payload :: past) t'.
Proof.
  intros H Hl. unfold accept. destruct (bool_decide _); [done|]. destruct (check_frame t raw from schemas) as [[t1 a1]|] eqn:Ec; [|done].
  intros [= <- <-] Hv. apply (check_frame_Ok past) in Ec as (payload' & t'' & _ & _ & _ & Hv' & Ho & ->); [|done].
  rewrite Hv in Hv'. injection Hv' as <-. by apply (order_Ok past t).
Qed.

Lemma begin_reached t0 :
  begin echo case_resources execution_id (if refuse_only then Phase.RefuseOnly else Phase.First) = Ok t0 → reach [] t0.
Proof.
  unfold begin. destruct (negb _); [done|]. intros [= <-]. split; try done; cbn; try lia. by split; [intros [? ?]|].
Qed.

Lemma conversation_reached schemas t0 past t :
  reach [] t0 → conversation schemas t0 past t → Z.of_nat (length past) + 1 ≤ I64_MAX → reach past t.
Proof.
  intros H. induction 1 as [|past t raw from t' a payload _ IH Ha Hv]; intros Hl; [done|]. cbn [length] in Hl.
  eapply accept_reached; [apply IH; lia|lia|done|done].
Qed.
End Reached.

(** A refused datagram leaves the transcript over, and an over transcript refuses everything and builds nothing. *)
Lemma breach_ends t raw from schemas t' breach :
  accept t raw from schemas = (t', Err breach) →
  (∀ raw' from' schemas', accept t' raw' from' schemas' = (t', Err Breach.Ended)) ∧
  (∀ schemas' kind' payload', build t' schemas' kind' payload' = (t', Err Breach.Ended)).
Proof.
  intros Ha. assert (Hover : t_phase t' = Phase.Over).
  { unfold accept in Ha. destruct (bool_decide (t_phase t = Phase.Over)) eqn:E.
    - apply bool_decide_eq_true in E. by injection Ha as <- _.
    - destruct (check_frame t raw from schemas) as [[]|]; [done|]. by injection Ha as <- _. }
  unfold accept, build. by rewrite !bool_decide_eq_true_2 by done.
Qed.

(** [C14] The server channel's transcript is the protocol: after any conversation (the frames accepted so far, from either
    peer, since the DISPATCH), a datagram from a peer is accepted exactly when it decodes within I02's limits as a frame
    of that peer's kind, carries its place (the next sequence number, the digest of the exact bytes before it, the
    DISPATCH's eight fields and the execution id), and the rule lets its kind follow: STARTED or REFUSED first and only
    first; actions one at a time, for the bound case's manifests, none after an abort or the cleanup record; a result for
    the outstanding action only; chunks contiguous from 0, canonical base64, at most 171 of 24 KiB and 4 MiB in all; the
    cleanup record once, after a chunk; TERMINAL only after it, with the whole receipt's size and SHA-256 and the
    recorded cleanup digest, and nothing after it.  A datagram that is not accepted ends the conversation: from then on
    every datagram of either peer is refused and no frame is built. *)
Theorem transcript_is_the_protocol dispatch execution_id t0 schemas past t raw from :
  new dispatch execution_id = Ok t0 → conversation schemas t0 past t → Z.of_nat (length past) + 2 ≤ I64_MAX →
  (∀ kind frame,
    (∃ t' a, accept t raw from schemas = (t', Ok a) ∧ ac_kind a = kind ∧ ac_frame a = frame) ↔
    decode raw schemas = Ok frame ∧ Kind.peer kind = from ∧ in_place (d_echo dispatch) execution_id past kind frame ∧
      ∃ payload, value_get frame "payload" = Some payload ∧ may_follow false (d_case_resources dispatch) past kind payload) ∧
  (∀ t' breach, accept t raw from schemas = (t', Err breach) →
    (∀ raw' from' schemas', accept t' raw' from' schemas' = (t', Err Breach.Ended)) ∧
    (∀ schemas' kind' payload', build t' schemas' kind' payload' = (t', Err Breach.Ended))).
Proof.
  intros H0 Hc Hl. split; [|by apply breach_ends].
  intros kind frame. assert (H := begin_reached false _ _ _ _ H0). eapply conversation_reached in Hc; [|exact H|lia]. split.
  - intros (t' & a & Ha & <- & <-). unfold accept in Ha. destruct (bool_decide _); [done|].
    destruct (check_frame t raw from schemas) as [[t1 a1]|] eqn:Ec; [|done]. injection Ha as -> ->.
    eapply check_frame_Ok in Ec as (payload & t'' & Hd & Hp & Hi & Hv & Ho & _); [|exact Hc]. repeat (split; [done|]).
    exists payload. split; [done|]. by apply (order_Ok false (d_echo dispatch) _ execution_id past t _ _ t'' raw).
  - intros (Hd & Hp & Hi & payload & Hv & Hr). destruct (rule_order _ _ _ _ past t kind payload Hc Hr) as [t'' Ho].
    destruct (check_frame_accepts _ _ _ _ past t raw from schemas frame kind payload t'' Hc Hd Hp Hi Hv Ho) as (t' & a & Ec & Hk & Hf).
    exists t', a. unfold accept. rewrite bool_decide_eq_false_2, Ec; [done|]. intros E. unfold order in Ho. by rewrite E in Ho.
Qed.
