(* ===== verification/I05Client.v ===== *)
(** * The broker's side of the gate channel ([host-enforcement/crates/broker/src/i05_client.rs])

    One gate generation's channel from the broker's side: the lockstep, the request builders, and the checks on each
    gate answer.  A method that changes the client returns the new one. *)

From S2P Require Import Prelude Contracts Sha256 Json Schema Frame SchemaOrder I02.
Module Client.

Definition I05_FRAME_VERSION : string := "planeon.internal.effect-gate-frame/v3".
Definition BROKER_TO_GATE : string := "BROKER_TO_GATE".
Definition GATE_TO_BROKER : string := "GATE_TO_BROKER".

Module Operation.
Inductive t := GenerationStatus | BindExecution | ArmAction | ActionOutcome | CloseGeneration.
#[global] Instance t_eq_dec : EqDecision t.
Proof. solve_decision. Defined.
Definition wire (o : t) : string :=
  match o with
  | GenerationStatus => "GENERATION_STATUS"
  | BindExecution => "BIND_EXECUTION"
  | ArmAction => "ARM_ACTION"
  | ActionOutcome => "ACTION_OUTCOME"
  | CloseGeneration => "CLOSE_GENERATION"
  end.
End Operation.

Module CloseReason.
Inductive t :=
| NormalDrain | Revocation | Expiry | PeerFailure | StorageFailure | ObservationFailure | ReconciliationRequired.
#[global] Instance t_eq_dec : EqDecision t.
Proof. solve_decision. Defined.
Definition wire (r : t) : string :=
  match r with
  | NormalDrain => "NORMAL_DRAIN"
  | Revocation => "REVOCATION"
  | Expiry => "EXPIRY"
  | PeerFailure => "PEER_FAILURE"
  | StorageFailure => "STORAGE_FAILURE"
  | ObservationFailure => "OBSERVATION_FAILURE"
  | ReconciliationRequired => "RECONCILIATION_REQUIRED"
  end.
Definition from_wire (name : string) : option t :=
  match name with
  | "NORMAL_DRAIN" => Some NormalDrain
  | "REVOCATION" => Some Revocation
  | "EXPIRY" => Some Expiry
  | "PEER_FAILURE" => Some PeerFailure
  | "STORAGE_FAILURE" => Some StorageFailure
  | "OBSERVATION_FAILURE" => Some ObservationFailure
  | "RECONCILIATION_REQUIRED" => Some ReconciliationRequired
  | _ => None
  end.
End CloseReason.

Record Bind := mkBind {
  b_execution_id : string;
  b_binding_digest : string;
  b_reservation_digest : string;
  b_run_nonce : string;
  b_case_id : string;
  b_request_digest : string;
  b_dispatch_generation : string;
  b_server_certificate_digest : string;
  b_worker_pid : Z;
  b_worker_start_ticks : Z;
  b_peer_qualification_digest : string;
}.

Module ChannelEnd.
Inductive t :=
| Form | Schema | Opening | Outstanding | Request (error : FrameError) | Unsolicited | Frame (error : FrameError)
| Direction | Sequence | Chain | Generation | Challenge | Operation | Answer | Ended.
End ChannelEnd.

Record Pending := mkPending {
  p_operation : Operation.t;
  p_sequence : Z;
  p_execution_id : option string;
  p_action_id : option Z;
}.
Record Response := mkResponse { r_operation : Operation.t; r_sequence : Z; r_payload : Value }.

Definition is_refused (r : Response) : bool := bool_decide (I02.text (r_payload r) "result" = Some "REFUSED").
Definition bind_refusal (r : Response) : option I02.BindRefusal.t :=
  if negb (bool_decide (r_operation r = Operation.BindExecution)) || negb (is_refused r) then None
  else let* reason := I02.text (r_payload r) "reason" in I02.BindRefusal.from_wire reason.

Record I05Client := mkClient {
  cl_schema : Schema;
  cl_generation : string;
  cl_challenge : string;
  cl_next_sequence : Z;
  cl_last_digest : string;
  cl_pending : option Pending;
  cl_opened : bool;
  cl_over : bool;
}.

Definition with_over over c :=
  mkClient (cl_schema c) (cl_generation c) (cl_challenge c) (cl_next_sequence c) (cl_last_digest c) (cl_pending c)
    (cl_opened c) over.
Definition with_sent digest pending c :=
  mkClient (cl_schema c) (cl_generation c) (cl_challenge c) (cl_next_sequence c) digest (Some pending) true (cl_over c).
Definition with_answer digest sequence c :=
  mkClient (cl_schema c) (cl_generation c) (cl_challenge c) sequence digest None (cl_opened c) (cl_over c).

Definition open (generation challenge : string) : result I05Client ChannelEnd.t :=
  if negb (I02.is_hex64 generation) || negb (I02.is_hex64 challenge) then Err ChannelEnd.Form
  else
    match i05_v3_schema with
    | Err _ => Err ChannelEnd.Schema
    | Ok schema => Ok (mkClient schema generation challenge 1 I02.ZERO_DIGEST None false false)
    end.

Definition is_over (c : I05Client) : bool := cl_over c.
Definition awaiting (c : I05Client) : option Operation.t := p_operation <$> cl_pending c.

Definition end_ {T} (c : I05Client) (end_ : ChannelEnd.t) : I05Client * result T ChannelEnd.t := (with_over true c, Err end_).

Definition envelope (c : I05Client) (sequence : Z) (operation : Operation.t) (payload : Value) : Value :=
  VObject (I02.inserts
    [("schemaVersion", value_str I05_FRAME_VERSION); ("generation", value_str (cl_generation c));
     ("challenge", value_str (cl_challenge c)); ("sequence", value_int sequence);
     ("previousDigest", value_str (cl_last_digest c)); ("direction", value_str BROKER_TO_GATE);
     ("operation", value_str (Operation.wire operation)); ("payload", payload)] []).

Definition request (c : I05Client) (operation : Operation.t) (payload : list (string * Value))
    (execution_id : option string) (action_id : option Z) : I05Client * result (list Z) ChannelEnd.t :=
  if cl_over c then (c, Err ChannelEnd.Ended)
  else if bool_decide (cl_pending c ≠ None) then end_ c ChannelEnd.Outstanding
  else if negb (cl_opened c) && negb (bool_decide (operation = Operation.GenerationStatus)) then end_ c ChannelEnd.Opening
  else
    let sequence := cl_next_sequence c in
    match canonical (envelope c sequence operation (VObject (I02.inserts payload []))) with
    | Err _ => end_ c (ChannelEnd.Request F06)
    | Ok raw =>
        match decode_frame (Bytes raw) (cl_schema c) with
        | Err code => end_ c (ChannelEnd.Request code)
        | Ok _ => (with_sent (prefixed raw) (mkPending operation sequence execution_id action_id) c, Ok raw)
        end
    end.

Definition generation_status (c : I05Client) := request c Operation.GenerationStatus [] None None.
Definition bind_execution (c : I05Client) (bind : Bind) :=
  request c Operation.BindExecution
    [("executionId", value_str (b_execution_id bind)); ("bindingDigest", value_str (b_binding_digest bind));
     ("reservationDigest", value_str (b_reservation_digest bind)); ("runNonce", value_str (b_run_nonce bind));
     ("caseId", value_str (b_case_id bind)); ("requestDigest", value_str (b_request_digest bind));
     ("dispatchGeneration", value_str (b_dispatch_generation bind));
     ("serverCertificateDigest", value_str (b_server_certificate_digest bind));
     ("workerPid", value_int (b_worker_pid bind)); ("workerStartTicks", value_int (b_worker_start_ticks bind));
     ("peerQualificationDigest", value_str (b_peer_qualification_digest bind))]
    (Some (b_execution_id bind)) None.
Definition arm_action (c : I05Client) (execution_id : string) (action_id : Z) (verb : I02.Verb.t)
    (manifest_digest request_template_digest : string) (recorded_uid : option string) :=
  request c Operation.ArmAction
    [("executionId", value_str execution_id); ("actionId", value_int action_id); ("verb", value_str (I02.Verb.wire verb));
     ("manifestDigest", value_str manifest_digest); ("requestTemplateDigest", value_str request_template_digest);
     ("recordedUid", match recorded_uid with Some uid => value_str uid | None => VNull end)]
    (Some execution_id) (Some action_id).
Definition action_outcome (c : I05Client) (execution_id : string) (action_id : Z) :=
  request c Operation.ActionOutcome [("executionId", value_str execution_id); ("actionId", value_int action_id)]
    (Some execution_id) (Some action_id).
Definition close_generation (c : I05Client) (reason : CloseReason.t) :=
  request c Operation.CloseGeneration [("reason", value_str (CloseReason.wire reason))] None None.

(** Whether an OK answer repeats its request's execution id and action id where it carries them. *)
Definition answers (pending : Pending) (payload : Value) : bool :=
  if negb (bool_decide (I02.text payload "result" = Some "OK")) then true
  else
    match p_execution_id pending, value_get payload "executionId" with
    | Some expected, Some _ => bool_decide (I02.text payload "executionId" = Some expected)
    | _, _ => true
    end
    && match p_action_id pending, value_get payload "actionId" with
       | Some expected, Some _ => bool_decide (I02.integer payload "actionId" = Some expected)
       | _, _ => true
       end.

(** [I05Client::check]; an error changes nothing. *)
Definition check_answer (c : I05Client) (raw : list Z) : result (I05Client * Response) ChannelEnd.t :=
  match cl_pending c with
  | None => Err ChannelEnd.Unsolicited
  | Some pending =>
      match decode_frame (Bytes raw) (cl_schema c) with
      | Err error => Err (ChannelEnd.Frame error)
      | Ok frame =>
          if negb (bool_decide (I02.text frame "direction" = Some GATE_TO_BROKER)) then Err ChannelEnd.Direction
          else
            let? sequence := result_of_option (i64_try_from (p_sequence pending + 1)) ChannelEnd.Sequence in
            if negb (bool_decide (I02.integer frame "sequence" = Some sequence)) then Err ChannelEnd.Sequence
            else if negb (bool_decide (I02.text frame "previousDigest" = Some (cl_last_digest c))) then Err ChannelEnd.Chain
            else if negb (bool_decide (I02.text frame "generation" = Some (cl_generation c))) then Err ChannelEnd.Generation
            else if negb (bool_decide (I02.text frame "challenge" = Some (cl_challenge c))) then Err ChannelEnd.Challenge
            else if negb (bool_decide (I02.text frame "operation" = Some (Operation.wire (p_operation pending))))
            then Err ChannelEnd.Operation
            else
              let? payload := result_of_option (value_get frame "payload") (ChannelEnd.Frame F00) in
              if negb (answers pending payload) then Err ChannelEnd.Answer
              else
                Ok (with_answer (prefixed raw) (sat_add_i64 sequence 1) c, mkResponse (p_operation pending) sequence payload)
      end
  end.

Definition receive (c : I05Client) (raw : list Z) : I05Client * result Response ChannelEnd.t :=
  if cl_over c then (c, Err ChannelEnd.Ended)
  else
    match check_answer c raw with
    | Ok (c, response) => (c, Ok response)
    | Err end_ => (with_over true c, Err end_)
    end.

End Client.
