(* ===== verification/I05Exchange.v ===== *)
(** * The broker and the gate on one channel

    The broker's client and the gate's frame handler composed: every request the client builds is in order for the
    gate, every answer the gate gives is accepted by the client, and both ends leave the exchange with the same chain. *)

From S2P Require Import Prelude Contracts Sha256 Float Json JsonEncode JsonRoundtrip JsonInt Schema Frame SchemaOrder.
From S2P Require Import Render Types Journal RecordCodec Observation Config.
From S2P Require Import Gate Protocol ProtocolProofs GateSteps GateSafety GateFrames I02 I05Client.
(** ** Documents as values *)

Lemma object_insert_keys (o : Object) key v :
  NoDup (map fst o) → wf_value v → Forall (λ e : JStr * Value, wf_value e.2) o →
  NoDup (map fst (object_insert o key v)) ∧ Forall (λ e : JStr * Value, wf_value e.2) (object_insert o key v) ∧
  ∀ k, k ∈ map fst (object_insert o key v) → k = key ∨ k ∈ map fst o.
Proof.
  intros Hn Hv Ho. induction o as [|[k w] o IH]; cbn [object_insert map fst].
  { split; [apply NoDup_singleton|]. split; [by repeat constructor|]. intros k ->%list_elem_of_singleton. by left. }
  cbn [map fst] in Hn. apply NoDup_cons in Hn as [Hk Hn]. apply Forall_cons in Ho as [Hw Ho]. case_bool_decide as E; cbn [map fst].
  - split; [by apply NoDup_cons|]. split; [by constructor|]. intros x [->|Hx]%elem_of_cons; [right; left|right; by right].
  - destruct (IH Hn Ho) as (H1 & H2 & H3). split; [|split; [by constructor|]].
    + apply NoDup_cons. split; [|done]. intros Hx%H3. naive_solver.
    + intros x [->|Hx]%elem_of_cons; [right; left|]. apply H3 in Hx as [->|Hx]; [by left|right; by right].
Qed.

(** A [Doc]'s value never repeats a member: [Object::insert] replaces. *)
Lemma doc_value_distinct d : wf_value (doc_to_value d).
Proof.
  induction d as [|b|n|s|items IH|members IH] using Doc_nested_ind; try done.
  - apply (int_of_value n).
  - apply wf_array, Forall_map. exact IH.
  - cbn [doc_to_value]. apply wf_object.
    assert (H : ∀ l (o : Object), Forall (λ e : JStr * Value, wf_value e.2) l → NoDup (map fst o) →
      Forall (λ e : JStr * Value, wf_value e.2) o →
      let o' := fold_left (λ o e, object_insert o e.1 e.2) l o in
      NoDup (map fst o') ∧ Forall (λ e : JStr * Value, wf_value e.2) o').
    { induction l as [|e l IHl]; intros o Hl Hn Ho; [done|]. apply Forall_cons in Hl as [He Hl]. cbn [fold_left].
      destruct (object_insert_keys o e.1 e.2 Hn He Ho) as (H1 & H2 & _). by apply IHl. }
    apply H; [|constructor|constructor]. apply Forall_map. exact IH.
Qed.

Definition doc_get (members : list (string * Doc)) (key : string) : option Doc :=
  snd <$> List.find (λ e : string * Doc, bool_decide (e.1 = key)) members.

Lemma written_get members key :
  NoDup (map fst members) → value_get (written (DObject members)) key = written <$> doc_get members key.
Proof.
  intros Hn. unfold value_get, written. rewrite doc_object_value by done. rewrite normalize_object. fold (normal_members (map member_value members)).
  cbn [as_object mbind option_bind]. rewrite normal_members_get.
  - unfold doc_get, object_get. clear Hn. induction members as [|e members IH]; [done|]. cbn [map List.find member_value fst].
    destruct (decide (e.1 = key)) as [->|Hne].
    + by rewrite !bool_decide_eq_true_2.
    + rewrite !bool_decide_eq_false_2; [exact IH|done|]. intros H. by apply bytes_of_inj in H.
  - rewrite map_map. change (map (λ x, (member_value x).1) members) with (map (λ x : string * Doc, bytes_of x.1) members).
    rewrite <-(map_map fst bytes_of). apply NoDup_fmap_2; [|done]. intros x y. apply bytes_of_inj.
Qed.

Lemma text_written members key s :
  NoDup (map fst members) → doc_get members key = Some (DStr s) → utf8_text s → I02.text (written (DObject members)) key = Some s.
Proof. intros Hn Hg Hu. unfold I02.text. rewrite written_get, Hg by done. by apply written_text. Qed.
Lemma integer_written members key n :
  NoDup (map fst members) → doc_get members key = Some (DInt n) → i64 n → I02.integer (written (DObject members)) key = Some n.
Proof. intros Hn Hg Hu. unfold I02.integer. rewrite written_get, Hg by done. by apply (written_int n). Qed.

Lemma inserts_docs members :
  VObject (I02.inserts (map (λ e, (e.1, doc_to_value e.2)) members) []) = doc_to_value (DObject members).
Proof.
  cbn [doc_to_value]. f_equal. unfold I02.inserts. generalize (@nil (JStr * Value)).
  induction members as [|e members IH]; intros o; [done|]. cbn [map fold_left fst snd]. apply IH.
Qed.

Lemma hex_digit_ascii n : 0 ≤ hex_digit n < 128.
Proof.
  unfold hex_digit. destruct (nth_in_or_default (Z.to_nat n) (bytes_of "0123456789abcdef") 0) as [Hin| ->]; [|lia].
  assert (H : Forall (λ b, 0 ≤ b < 128) (bytes_of "0123456789abcdef")) by (repeat constructor; vm_compute; congruence).
  rewrite Forall_forall in H. by apply H, list_elem_of_In.
Qed.
Lemma prefixed_text l : utf8_text (prefixed l).
Proof.
  unfold prefixed, utf8_text. rewrite bytes_of_app. apply utf8_valid_both; [done|]. unfold hex.
  set (digits := flat_map _ _).
  assert (H : Forall (λ b, 0 ≤ b < 128) digits).
  { unfold digits. induction (digest l) as [|b k IH]; cbn [flat_map app]; [constructor|].
    constructor; [apply hex_digit_ascii|]. constructor; [apply hex_digit_ascii|done]. }
  rewrite bytes_string_bytes; [by apply utf8_ascii|]. eapply Forall_impl; [exact H|]. unfold is_byte. cbn. lia.
Qed.

(** ** Calls of the client, and what they ask of the gate *)

Module Call.
Inductive t :=
| GenerationStatus
| Bind (b : Client.Bind)
| Arm (execution_id : string) (action_id : Z) (verb : I02.Verb.t) (manifest_digest request_template_digest : string)
    (recorded_uid : option string)
| Outcome (execution_id : string) (action_id : Z)
| Close (reason : Client.CloseReason.t).
End Call.

Definition issue (c : Client.I05Client) (call : Call.t) : Client.I05Client * result (list Z) Client.ChannelEnd.t :=
  match call with
  | Call.GenerationStatus => Client.generation_status c
  | Call.Bind b => Client.bind_execution c b
  | Call.Arm execution_id action_id verb manifest_digest template_digest uid =>
      Client.arm_action c execution_id action_id verb manifest_digest template_digest uid
  | Call.Outcome execution_id action_id => Client.action_outcome c execution_id action_id
  | Call.Close reason => Client.close_generation c reason
  end.

Definition call_operation (call : Call.t) : Client.Operation.t :=
  match call with
  | Call.GenerationStatus => Client.Operation.GenerationStatus
  | Call.Bind _ => Client.Operation.BindExecution
  | Call.Arm _ _ _ _ _ _ => Client.Operation.ArmAction
  | Call.Outcome _ _ => Client.Operation.ActionOutcome
  | Call.Close _ => Client.Operation.CloseGeneration
  end.
Definition call_execution (call : Call.t) : option string :=
  match call with
  | Call.Bind b => Some (Client.b_execution_id b)
  | Call.Arm execution_id _ _ _ _ _ | Call.Outcome execution_id _ => Some execution_id
  | _ => None
  end.
Definition call_action (call : Call.t) : option Z :=
  match call with Call.Arm _ action_id _ _ _ _ | Call.Outcome _ action_id => Some action_id | _ => None end.
(** The payload a call writes. *)
Definition call_members (call : Call.t) : list (string * Doc) :=
  match call with
  | Call.GenerationStatus => []
  | Call.Bind b =>
      [("executionId", DStr (Client.b_execution_id b)); ("bindingDigest", DStr (Client.b_binding_digest b));
       ("reservationDigest", DStr (Client.b_reservation_digest b)); ("runNonce", DStr (Client.b_run_nonce b));
       ("caseId", DStr (Client.b_case_id b)); ("requestDigest", DStr (Client.b_request_digest b));
       ("dispatchGeneration", DStr (Client.b_dispatch_generation b));
       ("serverCertificateDigest", DStr (Client.b_server_certificate_digest b));
       ("workerPid", DInt (Client.b_worker_pid b)); ("workerStartTicks", DInt (Client.b_worker_start_ticks b));
       ("peerQualificationDigest", DStr (Client.b_peer_qualification_digest b))]
  | Call.Arm execution_id action_id verb manifest_digest template_digest uid =>
      [("executionId", DStr execution_id); ("actionId", DInt action_id); ("verb", DStr (I02.Verb.wire verb));
       ("manifestDigest", DStr manifest_digest); ("requestTemplateDigest", DStr template_digest);
       ("recordedUid", doc_opt_str uid)]
  | Call.Outcome execution_id action_id => [("executionId", DStr execution_id); ("actionId", DInt action_id)]
  | Call.Close reason => [("reason", DStr (Client.CloseReason.wire reason))]
  end.

(** What Rust's types say of a call, and action ids within the schema's bounds (1 to 256). *)
Definition typed_call (call : Call.t) : Prop :=
  match call with
  | Call.GenerationStatus | Call.Close _ => True
  | Call.Bind b =>
      Forall utf8_text
        [Client.b_execution_id b; Client.b_binding_digest b; Client.b_reservation_digest b; Client.b_run_nonce b;
         Client.b_case_id b; Client.b_request_digest b; Client.b_dispatch_generation b;
         Client.b_server_certificate_digest b; Client.b_peer_qualification_digest b] ∧
      i64 (Client.b_worker_pid b) ∧ i64 (Client.b_worker_start_ticks b)
  | Call.Arm execution_id action_id _ manifest_digest template_digest uid =>
      Forall utf8_text [execution_id; manifest_digest; template_digest] ∧ u16 action_id ∧ opt_text uid
  | Call.Outcome execution_id action_id => utf8_text execution_id ∧ u16 action_id
  end.

Definition gate_verb (verb : I02.Verb.t) : Verb :=
  match verb with I02.Verb.Create => Create | I02.Verb.Get => Get | I02.Verb.Delete => Delete end.
Definition gate_reason (reason : Client.CloseReason.t) : CloseReason.t :=
  match reason with
  | Client.CloseReason.NormalDrain => CloseReason.NormalDrain
  | Client.CloseReason.Revocation => CloseReason.Revocation
  | Client.CloseReason.Expiry => CloseReason.Expiry
  | Client.CloseReason.PeerFailure => CloseReason.PeerFailure
  | Client.CloseReason.StorageFailure => CloseReason.StorageFailure
  | Client.CloseReason.ObservationFailure => CloseReason.ObservationFailure
  | Client.CloseReason.ReconciliationRequired => CloseReason.ReconciliationRequired
  end.
(** The gate's request that a call stands for. *)
Definition asked (call : Call.t) : Request.t :=
  match call with
  | Call.GenerationStatus => Request.GenerationStatus
  | Call.Bind b =>
      Request.Bind (mkBindRequest (Client.b_execution_id b) (Client.b_binding_digest b) (Client.b_reservation_digest b)
        (Client.b_run_nonce b) (Client.b_case_id b) (Client.b_request_digest b) (Client.b_dispatch_generation b)
        (Client.b_server_certificate_digest b) (Client.b_worker_pid b) (Client.b_worker_start_ticks b)
        (Client.b_peer_qualification_digest b))
  | Call.Arm execution_id action_id verb manifest_digest template_digest uid =>
      Request.Arm (mkArmRequest execution_id action_id (gate_verb verb) manifest_digest template_digest uid)
  | Call.Outcome execution_id action_id => Request.Outcome execution_id action_id
  | Call.Close reason => Request.Close (gate_reason reason)
  end.

Lemma issue_request c call :
  issue c call =
  Client.request c (call_operation call) (map (λ e, (e.1, doc_to_value e.2)) (call_members call))
    (call_execution call) (call_action call).
Proof. by destruct call as [|b|eid aid verb md td [uid|]|eid aid|r]. Qed.

Lemma call_members_distinct call : NoDup (map fst (call_members call)).
Proof. destruct call; by apply (bool_decide_unpack _); vm_compute. Qed.
Lemma verb_wire_text v : utf8_text (I02.Verb.wire v).
Proof. destruct v; name_text. Qed.
Lemma reason_wire_text r : utf8_text (Client.CloseReason.wire r).
Proof. destruct r; name_text. Qed.
Lemma operation_wire_text o : utf8_text (Client.Operation.wire o).
Proof. destruct o; name_text. Qed.

Ltac all_texts := repeat match goal with H : Forall utf8_text (_ :: _) |- _ => apply Forall_cons in H as [? H] end.

Lemma client_call_wf call : typed_call call → wf_doc (DObject (call_members call)).
Proof.
  intros H. apply wf_members; [apply call_members_distinct|].
  destruct call as [|b|eid aid verb md td uid|eid aid|r]; cbn [call_members typed_call] in *; destruct_and?; all_texts.
  - constructor.
  - by repeat (apply Forall_cons; split; [split; [name_text|done]|]); apply Forall_nil.
  - repeat (apply Forall_cons; split; [split; [name_text|first [by apply u16_i64|by apply verb_wire_text|by apply wf_opt_str|done]]|]);
      by apply Forall_nil.
  - repeat (apply Forall_cons; split; [split; [name_text|first [by apply u16_i64|done]]|]); by apply Forall_nil.
  - repeat (apply Forall_cons; split; [split; [name_text|apply reason_wire_text]|]); by apply Forall_nil.
Qed.

Lemma u16_back n : u16 n → u16_try_from n = Some n.
Proof. intros H. unfold u16_try_from, u16 in *. by rewrite (proj2 (andb_true_iff _ _)) by lia. Qed.

Lemma asked_parsed call :
  typed_call call →
  Request_parse (Client.Operation.wire (call_operation call)) (written (DObject (call_members call))) = Some (asked call).
Proof.
  intros H. assert (Hn := call_members_distinct call).
  assert (Ht : ∀ key s, doc_get (call_members call) key = Some (DStr s) → utf8_text s →
    member_text (written (DObject (call_members call))) key = Some s) by (intros key s; by apply text_written).
  assert (Hi : ∀ key n, doc_get (call_members call) key = Some (DInt n) → i64 n →
    member_int (written (DObject (call_members call))) key = Some n) by (intros key s; by apply integer_written).
  destruct call as [|b|eid aid verb md td uid|eid aid|r]; cbn [typed_call] in H; destruct_and?; all_texts;
    cbn [call_operation Client.Operation.wire]; unfold Request_parse.
  - done.
  - unfold parse_bind.
    rewrite (Ht "executionId" _ eq_refl), (Ht "bindingDigest" _ eq_refl), (Ht "reservationDigest" _ eq_refl),
      (Ht "runNonce" _ eq_refl), (Ht "caseId" _ eq_refl), (Ht "requestDigest" _ eq_refl), (Ht "dispatchGeneration" _ eq_refl),
      (Ht "serverCertificateDigest" _ eq_refl), (Hi "workerPid" _ eq_refl), (Hi "workerStartTicks" _ eq_refl),
      (Ht "peerQualificationDigest" _ eq_refl) by done. done.
  - unfold parse_arm, member_id.
    rewrite (Ht "executionId" _ eq_refl), (Hi "actionId" _ eq_refl), (Ht "verb" _ eq_refl), (Ht "manifestDigest" _ eq_refl),
      (Ht "requestTemplateDigest" _ eq_refl) by (done || by apply u16_i64 || by apply verb_wire_text).
    cbn [mbind option_bind]. rewrite (u16_back aid) by done. cbn [mbind option_bind].
    assert (Verb_parse (I02.Verb.wire verb) = Some (gate_verb verb)) as -> by by destruct verb. cbn [mbind option_bind].
    rewrite written_get by done. change (doc_get _ "recordedUid") with (Some (doc_opt_str uid)).
    cbn [fmap option_fmap option_map mbind option_bind]. destruct uid as [uid|]; [|done].
    change (doc_opt_str (Some uid)) with (DStr uid). pose proof (written_text uid) as Hw. unfold written in *. cbn in *. by rewrite Hw.
  - unfold member_id. rewrite (Ht "executionId" _ eq_refl), (Hi "actionId" _ eq_refl) by (done || by apply u16_i64).
    cbn [mbind option_bind]. by rewrite (u16_back aid).
  - rewrite (Ht "reason" _ eq_refl) by apply reason_wire_text. cbn [mbind option_bind]. by destruct r.
Qed.

(** ** The client's request *)

Definition request_members (c : Client.I05Client) (call : Call.t) : list (string * Doc) :=
  [("schemaVersion", DStr Client.I05_FRAME_VERSION); ("generation", DStr (Client.cl_generation c));
   ("challenge", DStr (Client.cl_challenge c)); ("sequence", DInt (Client.cl_next_sequence c));
   ("previousDigest", DStr (Client.cl_last_digest c)); ("direction", DStr Client.BROKER_TO_GATE);
   ("operation", DStr (Client.Operation.wire (call_operation call))); ("payload", DObject (call_members call))].

(** What Rust's types and the client's checks say of a client: UTF-8 texts and a sequence number with room for two more. *)
Definition typed_client (c : Client.I05Client) : Prop :=
  utf8_text (Client.cl_generation c) ∧ utf8_text (Client.cl_challenge c) ∧ utf8_text (Client.cl_last_digest c) ∧
  0 ≤ Client.cl_next_sequence c ∧ Client.cl_next_sequence c + 2 ≤ I64_MAX.

Lemma request_members_distinct c call : NoDup (map fst (request_members c call)).
Proof. by apply (bool_decide_unpack _); vm_compute. Qed.
#[local] Hint Resolve request_members_distinct : core.

Lemma request_wf c call : typed_client c → typed_call call → wf_doc (DObject (request_members c call)).
Proof.
  intros (H1 & H2 & H3 & H4 & H5) Hc. apply wf_members; [apply request_members_distinct|]. unfold request_members.
  repeat (apply Forall_cons; split; [split; [name_text|]|]); try apply Forall_nil; try done.
  - cbn. unfold in_i64, I64_MIN, I64_MAX in *. lia.
  - apply operation_wire_text.
  - by apply client_call_wf.
Qed.

(** The request a call sends: canonical, accepted by its own decoder, and now outstanding. *)
Lemma issue_Ok c call c' raw :
  typed_client c → typed_call call → issue c call = (c', Ok raw) →
  raw = doc_canonical (DObject (request_members c call)) ∧
  decode_frame (Bytes raw) (Client.cl_schema c) = Ok (written (DObject (request_members c call))) ∧
  c' = Client.with_sent (prefixed raw)
         (Client.mkPending (call_operation call) (Client.cl_next_sequence c) (call_execution call) (call_action call)) c ∧
  Client.cl_over c = false ∧ Client.cl_pending c = None ∧
  (Client.cl_opened c = false → call_operation call = Client.Operation.GenerationStatus).
Proof.
  intros Ht Hc. rewrite issue_request. unfold Client.request. destruct (Client.cl_over c); [done|].
  case_bool_decide as Hp; [done|]. destruct (_ && _) eqn:Eo; [done|].
  assert (Client.envelope c (Client.cl_next_sequence c) (call_operation call)
            (VObject (I02.inserts (map (λ e, (e.1, doc_to_value e.2)) (call_members call)) []))
          = doc_to_value (DObject (request_members c call))) as ->.
  { rewrite inserts_docs. exact (inserts_docs (request_members c call)). }
  pose proof (request_wf c call Ht Hc) as Hw. rewrite canonical_encode, encode_doc by done.
  remember (doc_canonical (DObject (request_members c call))) as sent eqn:Es.
  destruct (decode_frame _ _) as [frame|] eqn:Ed; [|done]. intros [= <- <-]. split; [done|]. split.
  - rewrite Ed. apply decode_frame_accepts in Ed as (raw & [= <-] & (_ & _ & Hparse & _)). rewrite Es, doc_parses in Hparse by done.
    by apply Ok_inj in Hparse as <-.
  - split; [done|]. split; [done|]. split; [done|]. intros H0. rewrite H0 in Eo. cbn in Eo.
    by apply negb_false_iff, bool_decide_eq_true in Eo.
Qed.

(** ** The gate's answer *)

Section Exchange.
Context {St Ob : Type} {HS : Stores St} {HL : StoresLaws St} {HO : WorkerObserver Ob}.
Implicit Types (g : Gate St Ob).

(** No step of the gate changes its configuration. *)
Lemma kstep_config k k' : kstep k k' → k_config k' = k_config k.
Proof. intros H. destruct H; try done. Qed.
Lemma lsteps_config k k' : lsteps k k' → k_config k' = k_config k.
Proof. induction 1 as [|k1 k2 k3 [H%kstep_config _] _ IH]; congruence. Qed.
Lemma follows_config g g' : k_inv (core g) → follows g g' → g_config g' = g_config g.
Proof. intros Hk Hf. apply (lsteps_config _ _ (Hf Hk)). Qed.

(** Both ends of an open or unopened channel, between two exchanges. *)
Record linked (c : Client.I05Client) g : Prop := {
  linked_schema : Client.cl_schema c = g_schema g;
  linked_generation : Client.cl_generation c = c_generation (g_config g);
  linked_sequence : Client.cl_next_sequence c = g_next_sequence g;
  linked_digest : Client.cl_last_digest c = g_last_digest g;
  linked_turn : Z.rem (g_next_sequence g) 2 = 1;
  linked_idle : Client.cl_pending c = None;
  linked_live : Client.cl_over c = false;
  linked_channel :
    g_channel g = Channel.Unopened ∧ Client.cl_opened c = false ∨
    g_channel g = Channel.Open ∧ Client.cl_opened c = true ∧ g_challenge g = Some (Client.cl_challenge c);
}.

(** A fatal answer of [perform]: only BIND_EXECUTION, for another peer qualification. *)
Lemma perform_fatal_bind request g output :
  (perform request g).2 = Reply.Fatal output →
  ∃ p, request = Request.Bind p ∧ bi_peer_qualification_digest p ≠ c_peer_qualification_digest (g_config g).
Proof.
  destruct request as [|p|p|eid aid|reason]; cbn [perform]; intros H; try done.
  - exists p. split; [done|]. intros E. revert H. unfold bind. rewrite bool_decide_eq_true_2 by done. cbn [negb].
    destruct (negb _); [done|]. destruct (negb _); [done|]. destruct (_ || _); [done|].
    destruct (negb _); [done|]. destruct (c_runs _ !! _) as [run|]; [|done].
    destruct (_ || _); [done|]. destruct (negb _); [done|]. destruct (_ || _); [done|].
    destruct (observe _ _ _) as [observer observation]. destruct (negb _); [done|]. by destruct (record _ _) as [g2 []].
  - exfalso. revert H. unfold arm. destruct (negb _); [done|]. destruct (g_bound g) as [b|]; [|done].
    destruct (negb _); [done|]. destruct (g_expired g); [done|]. destruct (negb _); [done|].
    destruct (negb _); [done|].
    match goal with |- context [if ?b then c_manifests ?c !! ?d else None] =>
      destruct (if b then c_manifests c !! d else None) as [manifest|]; [|done] end.
    destruct (negb _); [done|]. destruct (_ && _); [done|]. destruct (negb _); [done|].
    match goal with |- context [if (match mutation_key p with Some k => @?f k | None => false end) then _ else _] =>
      destruct (match mutation_key p with Some k => f k | None => false end); [done|] end.
    destruct (close_connections _ g) as [g1 n]. destruct (flush_backlog g1 n) as [g2 n2]. by destruct (record g2 _) as [g3 []].
  - exfalso. revert H. unfold outcome. destruct (negb _); [done|]. destruct (g_actions g !! aid); [|done].
    destruct (a_sealed _); [done|]. destruct (_ !! aid); [|done].
    destruct (record _ _) as [g2 []]; [|done]. cbn [negb snd]. by case_match.
  - by destruct (close reason g).
Qed.

(** An answer's payload: a refusal, or OK with the ids the request carries. *)
Definition payload_answers (call : Call.t) (payload : Doc) : Prop :=
  (∃ reason, payload = DObject [("result", DStr "REFUSED"); ("reason", DStr reason)]) ∨
  ∃ members, payload = DObject members ∧ NoDup (map fst members) ∧ doc_get members "result" = Some (DStr "OK") ∧
    (∀ execution_id d, call_execution call = Some execution_id → doc_get members "executionId" = Some d → d = DStr execution_id) ∧
    (∀ action_id d, call_action call = Some action_id → doc_get members "actionId" = Some d → d = DInt action_id).

Lemma payload_refused call reason : payload_answers call (DObject [("result", DStr "REFUSED"); ("reason", DStr reason)]).
Proof. left. by exists reason. Qed.

(** The checks of [bind], [arm] and [outcome] that refuse, one after the other. *)
Ltac refuse := first [by intros [= <-]; apply payload_refused | idtac].
Ltac ok_payload :=
  intros [= <-]; right; eexists; split; [reflexivity|]; split; [by apply (bool_decide_unpack _); vm_compute|];
  split; [reflexivity|];
  split; intros id d Hid Hd; first [discriminate Hid|injection Hid as <-; first [discriminate Hd|by injection Hd as <-]].

Lemma perform_answers call g payload :
  (perform (asked call) g).2 = Reply.Payload payload → payload_answers call payload.
Proof.
  destruct call as [|b|eid aid verb md td uid|eid aid|r]; cbn [asked perform].
  - ok_payload.
  - unfold bind. destruct (negb _); [by destruct (fatal _ g)|]. destruct (negb _); refuse. destruct (negb _); refuse.
    destruct (_ || _); refuse. destruct (negb _); refuse. destruct (c_runs _ !! _) as [run|]; refuse.
    destruct (_ || _); refuse. destruct (negb _); refuse. destruct (_ || _); refuse.
    destruct (observe _ _ _) as [observer observation]. destruct (negb _); refuse.
    destruct (record _ _) as [g2 []]; refuse. ok_payload.
  - unfold arm. destruct (negb _); refuse. destruct (g_bound g) as [b|]; refuse.
    destruct (negb _); refuse. destruct (g_expired g); refuse. destruct (negb _); refuse.
    destruct (negb _); refuse.
    match goal with |- context [if ?b then c_manifests ?c !! ?d else None] =>
      destruct (if b then c_manifests c !! d else None) as [manifest|]; refuse end.
    destruct (negb _); refuse. destruct (_ && _); refuse. destruct (negb _); refuse.
    match goal with |- context [if (match mutation_key ?p with Some k => @?f k | None => false end) then _ else _] =>
      destruct (match mutation_key p with Some k => f k | None => false end); refuse end.
    destruct (close_connections _ g) as [g1 n]. destruct (flush_backlog g1 n) as [g2 n2].
    destruct (record g2 _) as [g3 []]; refuse. ok_payload.
  - unfold outcome. destruct (negb _); refuse. destruct (g_actions g !! aid) as [a|]; refuse.
    assert (Hdoc : ∀ a, Reply.Payload (outcome_doc aid a) = Reply.Payload payload → payload_answers (Call.Outcome eid aid) payload)
      by (intros a'; ok_payload).
    destruct (a_sealed a); [apply Hdoc|]. destruct (_ !! aid) as [a'|]; refuse.
    destruct (record _ _) as [g2 []]; refuse. cbn [negb snd]. case_match; refuse. apply Hdoc.
  - unfold close. case_bool_decide; [ok_payload|]. case_bool_decide; [|ok_payload]. case_bool_decide; refuse. ok_payload.
Qed.

(** *** One exchange *)

Definition pending_of (c : Client.I05Client) (call : Call.t) : Client.Pending :=
  Client.mkPending (call_operation call) (Client.cl_next_sequence c) (call_execution call) (call_action call).

Lemma call_execution_text call execution_id : typed_call call → call_execution call = Some execution_id → utf8_text execution_id.
Proof. intros H. destruct call; intros [= <-]; cbn in H; destruct_and?; all_texts; done. Qed.
Lemma call_action_i64 call action_id : typed_call call → call_action call = Some action_id → i64 action_id.
Proof. intros H. destruct call; intros [= <-]; cbn in H; destruct_and?; by apply u16_i64. Qed.

Lemma answers_payload c call payload :
  typed_call call → payload_answers call payload → Client.answers (pending_of c call) (written payload) = true.
Proof.
  intros Ht. unfold Client.answers. intros [[reason ->]|(members & -> & Hn & Hr & He & Ha)].
  { rewrite (text_written _ "result" "REFUSED"); [done|by apply (bool_decide_unpack _); vm_compute|done|name_text]. }
  rewrite (text_written _ "result" "OK") by (done || name_text). rewrite bool_decide_eq_true_2 by done.
  cbn [negb pending_of Client.p_execution_id Client.p_action_id]. apply andb_true_intro. split.
  - destruct (call_execution call) as [execution_id|] eqn:E; [|done]. rewrite written_get by done.
    destruct (doc_get members "executionId") as [d|] eqn:Ed; [|done]. cbn [fmap option_fmap option_map].
    rewrite (He execution_id d) in Ed by done. apply bool_decide_eq_true. apply text_written; [done..|].
    by eapply call_execution_text.
  - destruct (call_action call) as [action_id|] eqn:E; [|done]. rewrite written_get by done.
    destruct (doc_get members "actionId") as [d|] eqn:Ed; [|done]. cbn [fmap option_fmap option_map].
    rewrite (Ha action_id d) in Ed by done. apply bool_decide_eq_true. apply integer_written; [done..|].
    by eapply call_action_i64.
Qed.

(** The gate reads the client's request as the call it is, in order. *)
Lemma frame_asked c call g raw :
  linked c g → typed_client c → typed_call call →
  (Client.cl_opened c = false → call_operation call = Client.Operation.GenerationStatus) →
  decode_frame (Bytes raw) (Client.cl_schema c) = Ok (written (DObject (request_members c call))) →
  ∃ g1, core g1 = core g ∧ g_schema g1 = g_schema g ∧ g_channel g1 = Channel.Open ∧ g_challenge g1 = Some (Client.cl_challenge c) ∧
    frame (FrameInput.Bytes raw) g =
      let '(g2, reply) := perform (asked call) g1 in
      match reply with
      | Reply.Fatal output => (g2, output)
      | Reply.Payload payload => respond (Client.cl_next_sequence c) raw (Client.Operation.wire (call_operation call)) payload g2
      end.
Proof.
  intros H (U1 & U2 & U3 & U4 & U5) Hc Hopen Hd.
  set (e := mkEnvelope Client.BROKER_TO_GATE (Client.cl_next_sequence c) (Client.cl_last_digest c) (Client.cl_generation c)
              (Client.cl_challenge c) (Client.Operation.wire (call_operation call))).
  set (value := written (DObject (request_members c call))) in *.
  assert (Ht : ∀ key s, doc_get (request_members c call) key = Some (DStr s) → utf8_text s → member_text value key = Some s)
    by (intros key s; by apply text_written).
  assert (He : parse_envelope value = Some e).
  { unfold parse_envelope.
    rewrite (Ht "direction" _ eq_refl), (Ht "previousDigest" _ eq_refl), (Ht "generation" _ eq_refl),
      (Ht "challenge" _ eq_refl), (Ht "operation" _ eq_refl) by (done || apply operation_wire_text || name_text).
    assert (member_int value "sequence" = Some (Client.cl_next_sequence c)) as ->; [|done].
    apply integer_written; [done|done|]. unfold i64, in_i64, I64_MIN, I64_MAX in *. lia. }
  assert (Hp : value_get value "payload" = Some (written (DObject (call_members call)))) by (unfold value; by rewrite written_get).
  assert (Hg : ∃ g1, open_channel e g = Ok g1 ∧ core g1 = core g ∧ g_schema g1 = g_schema g ∧ g_channel g1 = Channel.Open ∧
    g_challenge g1 = Some (Client.cl_challenge c)).
  { unfold open_channel. destruct (linked_channel _ _ H) as [[Hu Ho]|(Hu & Ho & Hch)].
    - rewrite bool_decide_eq_true_2 by done. cbn [e_operation e]. rewrite (Hopen Ho). cbn. eexists. by split.
    - rewrite bool_decide_eq_false_2 by (by rewrite Hu). rewrite bool_decide_eq_true_2 by done. cbn [negb]. exists g. by split. }
  destruct Hg as (g1 & Ho & C1 & S1 & Ch1 & Cl1). exists g1. repeat (split; [done|]). unfold frame.
  rewrite bool_decide_eq_false_2 by (destruct (linked_channel _ _ H) as [[-> _]|[-> _]]; done).
  cbn [checked_frame]. rewrite <-(linked_schema _ _ H), Hd. cbn [result_map]. rewrite He. cbn [e_direction e_sequence e_previous e_generation e_operation e].
  rewrite (linked_sequence _ _ H), (linked_turn _ _ H), (linked_digest _ _ H), (linked_generation _ _ H).
  rewrite !bool_decide_eq_true_2 by done. cbn [negb orb Z.eqb Pos.eqb]. rewrite Z.eqb_refl. cbn [negb orb]. rewrite Ho, Hp.
  cbn [mbind option_bind]. rewrite asked_parsed by done. done.
Qed.

(** The client takes the gate's answer. *)
Lemma client_takes c call g2 raw bytes payload :
  typed_client c → typed_call call → Client.cl_over c = false → schema_fits (Client.cl_schema c) = true →
  c_generation (g_config g2) = Client.cl_generation c → g_challenge g2 = Some (Client.cl_challenge c) →
  payload_answers call payload →
  check_frame_encoded
    (doc_to_value (response_doc g2 (Client.cl_next_sequence c) raw (Client.Operation.wire (call_operation call)) payload))
    (Client.cl_schema c) = Ok bytes →
  let c' := Client.with_sent (prefixed raw) (pending_of c call) c in
  Client.receive c' bytes =
    (Client.with_answer (prefixed bytes) (Client.cl_next_sequence c + 2) c',
     Ok (Client.mkResponse (call_operation call) (Client.cl_next_sequence c + 1) (written payload))).
Proof.
  intros (U1 & U2 & U3 & U4 & U5) Hc Hlive Hfit Hgen Hchal Hans Hchk c'.
  apply checked_frame_is_accepted in Hchk; [|apply doc_value_distinct|done].
  set (members := match response_doc g2 (Client.cl_next_sequence c) raw (Client.Operation.wire (call_operation call)) payload with
                  | DObject members => members | _ => [] end).
  change (normalize _) with (written (DObject members)) in Hchk.
  assert (Hn : NoDup (map fst members)) by by apply (bool_decide_unpack _); vm_compute.
  assert (Ht : ∀ key s, doc_get members key = Some (DStr s) → utf8_text s → I02.text (written (DObject members)) key = Some s)
    by (intros key s; by apply text_written).
  assert (Hs : sat_add_i64 (Client.cl_next_sequence c) 1 = Client.cl_next_sequence c + 1)
    by (unfold sat_add_i64, I64_MIN, I64_MAX in *; lia).
  unfold Client.receive. cbn [c' Client.with_sent Client.cl_over]. rewrite Hlive. unfold Client.check_answer.
  cbn [c' Client.with_sent Client.cl_pending Client.cl_schema Client.cl_last_digest Client.cl_generation Client.cl_challenge pending_of
       Client.p_sequence Client.p_operation]. rewrite Hchk.
  rewrite (Ht "direction" _ eq_refl), (Ht "previousDigest" _ eq_refl), (Ht "operation" _ eq_refl)
    by (apply operation_wire_text || apply prefixed_text || name_text).
  rewrite (Ht "generation" (c_generation (g_config g2)) eq_refl) by by rewrite Hgen.
  assert (I02.text (written (DObject members)) "challenge" = Some (Client.cl_challenge c)) as ->.
  { apply Ht; [|done]. change (doc_get members "challenge") with (Some (doc_opt_str (g_challenge g2))). by rewrite Hchal. }
  assert (I02.integer (written (DObject members)) "sequence" = Some (Client.cl_next_sequence c + 1)) as ->.
  { rewrite <-Hs. apply integer_written; [done|done|]. rewrite Hs. unfold i64, in_i64, I64_MIN, I64_MAX in *. lia. }
  rewrite (written_get members "payload") by done. change (doc_get members "payload") with (Some payload).
  unfold i64_try_from, in_i64. rewrite (proj2 (andb_true_iff _ _)) by (unfold I64_MIN, I64_MAX in *; lia).
  cbn [fmap option_fmap option_map result_of_option result_bind]. rewrite Hgen, !bool_decide_eq_true_2 by done. cbn [negb].
  rewrite answers_payload by done. cbn [negb]. do 2 f_equal. unfold sat_add_i64, I64_MIN, I64_MAX in *. f_equal. lia.
Qed.

(** After an answer both ends hold the same chain. *)
Lemma linked_again c call g g1 g2 g' raw bytes :
  linked c g → typed_client c → k_inv (core g1) → core g1 = core g → g_schema g1 = g_schema g →
  g_channel g1 = Channel.Open → g_challenge g1 = Some (Client.cl_challenge c) →
  follows g1 g2 → wire g2 = wire g1 →
  g_config g' = g_config g2 → g_channel g' = g_channel g2 → g_challenge g' = g_challenge g2 → g_schema g' = g_schema g2 →
  g_next_sequence g' = sat_add_i64 (Client.cl_next_sequence c) 2 → g_last_digest g' = prefixed bytes →
  linked (Client.with_answer (prefixed bytes) (Client.cl_next_sequence c + 2)
            (Client.with_sent (prefixed raw) (pending_of c call) c)) g'.
Proof.
  intros H (_ & _ & _ & U4 & U5) Hk C1 S1 Ch1 Cl1 F W G1 G2 G3 G4 G5 G6. unfold wire in W. injection W as W1 W2 W3 W4 W5.
  assert (Hs : sat_add_i64 (Client.cl_next_sequence c) 2 = Client.cl_next_sequence c + 2)
    by (unfold sat_add_i64, I64_MIN, I64_MAX in *; lia).
  pose proof (follows_config g1 g2 Hk F) as Hcfg. assert (Hg1 : g_config g1 = g_config g) by by injection C1.
  destruct H. split; cbn; try done; try congruence.
  - rewrite G5, Hs, linked_sequence0 in *. revert linked_turn0 U4. generalize (g_next_sequence g). intros n Hn H0.
    Z.quot_rem_to_equations. lia.
  - right. split; [congruence|]. split; [done|congruence].
Qed.

(** A freshly opened client and a fresh gate of its generation, on the schema both carry, are linked. *)
Lemma hex64_text s : I02.is_hex64 s = true → utf8_text s.
Proof.
  unfold I02.is_hex64. intros [_ H]%andb_true_iff. apply utf8_ascii, Forall_forall. intros b Hb. rewrite forallb_forall in H.
  apply list_elem_of_In, H in Hb. unfold is_digit, in_range in Hb. apply orb_true_iff in Hb as [Hb|Hb]; lia.
Qed.
Lemma fresh_ends_linked config stores observer challenge c g :
  Client.open (c_generation config) challenge = Ok c → with_stores_new i05_v3_schema config stores observer = Ok g →
  linked c g ∧ typed_client c.
Proof.
  unfold Client.open, with_stores_new. generalize i05_v3_schema. intros schemas. destruct (_ || _) eqn:Ef; [done|]. destruct schemas as [schema|]; [|done].
  intros [= <-] [= <-]. apply orb_false_iff in Ef as [E1%negb_false_iff E2%negb_false_iff]. split.
  - split; try done. by left.
  - split; [by apply hex64_text|]. split; [by apply hex64_text|]. split; [name_text|]. cbn. unfold I64_MAX. lia.
Qed.

(** What [frame] makes of a client's request. *)
Lemma exchange_frame c call c' raw g :
  k_inv (core g) → linked c g → schema_fits (g_schema g) = true → typed_client c → typed_call call →
  issue c call = (c', Ok raw) →
  let '(g', out) := frame (FrameInput.Bytes raw) g in
  (∃ payload bytes c'', out = mkOutput (OutputKind.Response payload) None (Some bytes) ∧
     Client.receive c' bytes =
       (c'', Ok (Client.mkResponse (call_operation call) (Client.cl_next_sequence c + 1) (written payload))) ∧ linked c'' g') ∨
  o_kind out = OutputKind.Fatal FatalReason.ResponseOutOfBounds ∨
  o_kind out = OutputKind.Fatal FatalReason.PeerQualificationMismatch ∧
  ∃ b, call = Call.Bind b ∧ Client.b_peer_qualification_digest b ≠ c_peer_qualification_digest (g_config g).
Proof.
  intros Hk H Hfit Hu Hc Hi. destruct (issue_Ok c call c' raw Hu Hc Hi) as (_ & Hd & -> & Hlive & _ & Hopen).
  destruct (frame_asked c call g raw H Hu Hc Hopen Hd) as (g1 & C1 & S1 & Ch1 & Cl1 & ->).
  assert (Hk1 : k_inv (core g1)) by by rewrite C1. assert (Hcfg1 : g_config g1 = g_config g) by by injection C1.
  pose proof (follows_perform (asked call) g1) as F. destruct (perform (asked call) g1) as [g2 [payload|output]] eqn:Ep; cbn [fst] in F.
  - pose proof (perform_wire (asked call) g1 payload Hk1) as W. rewrite Ep in W. specialize (W eq_refl). cbn [fst] in W.
    pose proof (perform_answers call g1 payload) as Ha. rewrite Ep in Ha. specialize (Ha eq_refl).
    pose proof W as Wi. unfold wire in Wi. injection Wi as W1 W2 W3 W4 W5. unfold respond.
    destruct (check_frame_encoded _ (g_schema g2)) as [bytes|] eqn:Hchk; [|right; left; by unfold fatal]. left.
    exists payload, bytes. eexists. split; [done|]. rewrite W5, S1, <-(linked_schema _ _ H) in Hchk. split.
    + apply (client_takes c call g2 raw bytes payload); try done.
      * by rewrite (linked_schema _ _ H).
      * rewrite (follows_config g1 g2 Hk1 F), Hcfg1. symmetry. apply H.
      * congruence.
    + by apply (linked_again c call g g1 g2).
  - right. right. destruct (perform_fatal_bind (asked call) g1 output) as (p & E & Hne); [by rewrite Ep|].
    destruct (perform_fatal (asked call) g1 output Hk1) as [_ ->]; [by rewrite Ep|]. split; [done|].
    rewrite Hcfg1 in Hne. destruct call as [|b| | |]; try done. exists b. split; [done|]. by injection E as <-.
Qed.

(** [C15] The two ends of the gate channel stay in step: between a broker's client and a reachable gate that agree on the
    generation, the sequence number, the last digest and (once open) the challenge, every request the client builds is
    read by the gate as the call it is, and the gate's answer, whichever it is, is accepted by the client, with the
    request's operation and the payload the gate answered; both ends then agree again.  The gate ends the channel
    instead in two cases only: its answer does not fit the frame schema, or a BIND_EXECUTION names another peer
    qualification than its configuration. *)
Theorem exchange_stays_in_step c call c' raw g :
  reachable g → linked c g → schema_fits (g_schema g) = true → typed_client c → typed_call call →
  issue c call = (c', Ok raw) →
  ∃ out, (handle (Event.Frame (FrameInput.Bytes raw)) g).2 = Ok out ∧
  ((∃ payload bytes c'', o_kind out = OutputKind.Response payload ∧ o_response_frame out = Some bytes ∧
      Client.receive c' bytes =
        (c'', Ok (Client.mkResponse (call_operation call) (Client.cl_next_sequence c + 1) (written payload))) ∧
      linked c'' (handle (Event.Frame (FrameInput.Bytes raw)) g).1) ∨
   o_kind out = OutputKind.Fatal FatalReason.ResponseOutOfBounds ∨
   o_kind out = OutputKind.Fatal FatalReason.PeerQualificationMismatch ∧
   ∃ b, call = Call.Bind b ∧ Client.b_peer_qualification_digest b ≠ c_peer_qualification_digest (g_config g)).
Proof.
  intros Hg H Hfit Hu Hc Hi. pose proof (reachable_inv _ Hg) as Hk.
  pose proof (exchange_frame c call c' raw g Hk H Hfit Hu Hc Hi) as Hx.
  pose proof (follows_inv _ _ Hk (follows_frame (FrameInput.Bytes raw) g)) as Hk1.
  unfold handle. cbn [dispatch always]. destruct (frame (FrameInput.Bytes raw) g) as [g1 out]. cbn [fst snd] in *.
  destruct (settle_drain_keeps g1 Hk1) as [W _]. pose proof (follows_config _ _ Hk1 (follows_settle_drain g1)) as Hcfg.
  unfold wire in W. destruct (settle_drain g1) as [g2 answer]. cbn [fst snd] in *. injection W as W1 W2 W3 W4 W5.
  eexists. split; [reflexivity|]. destruct Hx as [(payload & bytes & c'' & -> & Hr & Hl)|[Hf|(Hf & b & E & Hne)]].
  - left. exists payload, bytes, c''. split; [by destruct answer|]. split; [by destruct answer|]. split; [done|].
    destruct Hl. split; try done; try congruence.
  - right. left. by destruct answer.
  - right. right. split; [by destruct answer|]. by exists b.
Qed.
End Exchange.
