(* ===== verification/PolicyScenario.v ===== *)
(** * A concrete run of the policy gate

    The gate of [Scenario] with a policy writer: the session opens, the maintenance begins and
    opens, one CREATE is forwarded and delivered, and the gate restarts; a branch loses the
    writer while the write is out.  The gates of the run are the witnesses' inputs. *)

From S2P Require Import Prelude Sha256 Json Schema Frame Inet Render Types Journal Observation Config Policy Gate Scenario.
From S2P Require Import PolicyGate Protocol ProtocolProofs GateSteps GateSafety PolicyProtocol PolicySteps PolicySafety.
From S2P Require Import Slices.
From S2P Require Import PeerWire Substrate SubstrateProofs SubstrateLoop SubstrateBounds.
Definition config_maps : WritableKind :=
  mkWritableKind "" "v1" "configmaps" "ConfigMap" QualificationNamespace
    [WriteOperation.Create; WriteOperation.Update; WriteOperation.Delete] ["data"].
Definition sample_kinds : PolicyKinds :=
  mkPolicyKinds [config_maps] [mkGroupResource "" "pods"] [mkNotWritable "" "namespaces" MustStayAbsent].
Definition sample_parts : Writer.Parts :=
  Writer.mkParts (mkPolicyWriter "planeon-qual" "127.0.0.1:6443")
    (mkInetAddress (IpLiteral.V4 [127; 0; 0; 1]) 6443) sample_kinds any_schema.

Definition policy_type : Type := PolicyGate MemoryStores FakeKernel.

Definition new_policy : policy_type := Writer.around sample_parts new_gate.

Definition policy_after (p : policy_type) (event : PolicyEvent.t) : policy_type := (Writer.handle event p).1.

(** The writer's next frame. *)
Definition writer_input (p : policy_type) (operation : string) (payload : Doc) : FrameInput.t :=
  FrameInput.Value (doc_to_value (DObject
    [("schemaVersion", DStr WRITER_FRAME_VERSION); ("challenge", DStr "writer");
     ("sequence", DInt (Writer.writer_next_sequence p)); ("previousDigest", DStr (Writer.writer_last_digest p));
     ("direction", DStr "WRITER_TO_GATE"); ("operation", DStr operation); ("payload", payload)])).
Definition writer_event (p : policy_type) (operation : string) (payload : Doc) : PolicyEvent.t :=
  PolicyEvent.WFrame (writer_input p operation payload).

Definition begin_payload : Doc := DObject [("expectedGeneration", DStr "generation-1")].
Definition created_object : Doc := DObject
  [("apiVersion", DStr "v1"); ("kind", DStr "ConfigMap");
   ("metadata", DObject [("name", DStr "probe"); ("namespace", DStr "planeon-qual")]);
   ("data", DObject [("key", DStr "value")])].
Definition write_payload : Doc := DObject
  [("writeId", DInt 1); ("operation", DStr "CREATE");
   ("resource", DObject [("group", DStr ""); ("version", DStr "v1"); ("resource", DStr "configmaps")]);
   ("namespace", DStr "planeon-qual"); ("name", DStr "probe"); ("object", created_object); ("prior", DNull)].
Definition created_digest : string := "sha256:2222222222222222222222222222222222222222222222222222222222222222".
Definition created_outcome : UpstreamOutcome.t :=
  UpstreamOutcome.Response (mkUpstreamResponse 201 created_digest (Some "uid-9") (Some "11")).

(** The gates of the run, evaluated once. *)
Definition connected_policy : policy_type := Eval vm_compute in policy_after new_policy (PolicyEvent.WConnect "writer").
Definition opened_policy : policy_type :=
  Eval vm_compute in
    policy_after connected_policy (writer_event connected_policy "MAINTENANCE_STATUS" (DObject [])).
Definition begun_policy : policy_type :=
  Eval vm_compute in policy_after opened_policy (writer_event opened_policy "WRITE_BEGIN" begin_payload).
Definition forwarded_policy : policy_type :=
  Eval vm_compute in policy_after begun_policy (writer_event begun_policy "WRITE_OBJECT" write_payload).
Definition delivered_policy : policy_type :=
  Eval vm_compute in policy_after forwarded_policy (PolicyEvent.WUpstream 1 created_outcome).
Definition lost_policy : policy_type := Eval vm_compute in policy_after forwarded_policy PolicyEvent.WChannelLost.

Lemma connected_policy_step : connected_policy = policy_after new_policy (PolicyEvent.WConnect "writer").
Proof. vm_compute. reflexivity. Qed.
Lemma opened_policy_step :
  opened_policy = policy_after connected_policy (writer_event connected_policy "MAINTENANCE_STATUS" (DObject [])).
Proof. vm_compute. reflexivity. Qed.
Lemma begun_policy_step :
  begun_policy = policy_after opened_policy (writer_event opened_policy "WRITE_BEGIN" begin_payload).
Proof. vm_compute. reflexivity. Qed.
Lemma forwarded_policy_step :
  forwarded_policy = policy_after begun_policy (writer_event begun_policy "WRITE_OBJECT" write_payload).
Proof. vm_compute. reflexivity. Qed.
Lemma delivered_policy_step : delivered_policy = policy_after forwarded_policy (PolicyEvent.WUpstream 1 created_outcome).
Proof. vm_compute. reflexivity. Qed.
Lemma lost_policy_step : lost_policy = policy_after forwarded_policy PolicyEvent.WChannelLost.
Proof. vm_compute. reflexivity. Qed.

Example states_of_the_run :
  map (λ p : policy_type, (pg_maintenance p, g_state (pg_gate p), Writer.pending_write p))
    [opened_policy; begun_policy; forwarded_policy; delivered_policy; lost_policy] =
  [(Maintenance.NotBegun, State.Active, None); (Maintenance.Open, State.Closed, None);
   (Maintenance.Open, State.Closed, Some 1); (Maintenance.Open, State.Closed, None);
   (Maintenance.Ended, State.Held, None)].
Proof. vm_compute. reflexivity. Qed.

Example writes_of_the_run :
  (pg_writes delivered_policy !! 1, pg_writes lost_policy !! 1) = (Some DELIVERED, Some AMBIGUOUS).
Proof. vm_compute. reflexivity. Qed.

(** ** The theorems at the run *)

Ltac policy_reach step before := rewrite step; unfold policy_after; apply policy_handle; exact before.

Lemma reachable_new_policy : policy_reachable new_policy.
Proof.
  apply (policy_new (Ok any_schema) run_config MemoryStores_default worker_kernel new_gate sample_parts); reflexivity.
Qed.
Lemma reachable_connected_policy : policy_reachable connected_policy.
Proof. policy_reach connected_policy_step reachable_new_policy. Qed.
Lemma reachable_opened_policy : policy_reachable opened_policy.
Proof. policy_reach opened_policy_step reachable_connected_policy. Qed.
Lemma reachable_begun_policy : policy_reachable begun_policy.
Proof. policy_reach begun_policy_step reachable_opened_policy. Qed.
Lemma reachable_forwarded_policy : policy_reachable forwarded_policy.
Proof. policy_reach forwarded_policy_step reachable_begun_policy. Qed.
Lemma reachable_delivered_policy : policy_reachable delivered_policy.
Proof. policy_reach delivered_policy_step reachable_forwarded_policy. Qed.
Lemma reachable_lost_policy : policy_reachable lost_policy.
Proof. policy_reach lost_policy_step reachable_forwarded_policy. Qed.

Lemma policy_journal_is_legal_witness :
  length (journal (pg_gate delivered_policy)) = 6%nat ∧
  write_legal_journal (journal (pg_gate delivered_policy)) ∧ legal_journal (journal (pg_gate delivered_policy)).
Proof. split; [reflexivity|]. apply policy_journal_is_legal, reachable_delivered_policy. Defined.

Lemma maintenance_excludes_actions_witness :
  Forall (λ e, ¬ worker_entry e) (drop 4 (journal (pg_gate delivered_policy))) ∧
  forwarded_ids (take 3 (journal (pg_gate delivered_policy))) = [].
Proof.
  apply (maintenance_excludes_actions delivered_policy (take 3 (journal (pg_gate delivered_policy))) State.Closed
           (drop 4 (journal (pg_gate delivered_policy))) reachable_delivered_policy).
  vm_compute. reflexivity.
Defined.

Lemma open_maintenance_is_fenced_witness :
  pg_maintenance begun_policy = Maintenance.Open ∧ fence (pg_gate begun_policy) = DrainAnswer.Open.
Proof.
  split; [reflexivity|]. apply (proj1 (open_maintenance_is_fenced begun_policy reachable_begun_policy)). reflexivity.
Defined.

Lemma writes_forwarded_once_witness : forwarded_ids (journal (pg_gate delivered_policy)) = seqZ 1 1.
Proof. apply (proj1 (writes_forwarded_once delivered_policy reachable_delivered_policy)). Defined.

Lemma ambiguous_write_holds_witness :
  g_state (pg_gate lost_policy) = State.Held ∧ write_floor (journal (pg_gate lost_policy)) = Some State.Held.
Proof.
  apply (ambiguous_write_holds lost_policy 1 reachable_lost_policy).
  assert (H : Writer.ambiguous_writes lost_policy = [1]) by (vm_compute; reflexivity). rewrite H. left.
Defined.

(** A crash while the write is out, and the process after it. *)
Definition reopened_gate : gate_type :=
  match with_stores_new (Ok any_schema) run_config (g_stores (pg_gate forwarded_policy)) worker_kernel with
  | Ok g => g
  | Err _ => new_gate
  end.

Lemma restart_recovers_writes_witness :
  pg_writes forwarded_policy !! 1 = Some WRITE_FORWARDED ∧
  pg_writes (Writer.restart (Writer.around sample_parts reopened_gate)).1 = write_settle <$> pg_writes forwarded_policy.
Proof.
  split; [reflexivity|].
  apply (restart_recovers_writes forwarded_policy (Ok any_schema) run_config (g_stores (pg_gate forwarded_policy))
           worker_kernel reopened_gate sample_parts reachable_forwarded_policy); reflexivity.
Defined.

Lemma maintenance_only_advances_witness :
  (phase (pg_maintenance begun_policy) ≤
   phase (pg_maintenance (Writer.handle PolicyEvent.WChannelLost begun_policy).1))%nat.
Proof. apply maintenance_only_advances, reachable_begun_policy. Defined.

Definition outstanding : PendingWrite :=
  match pg_pending forwarded_policy with
  | Some w => w
  | None => mkPendingWrite 0 WriteOperation.Create "" 0 "" (mkRenderedWrite "" [] "")
  end.
Definition delivered_output : PolicyOutput :=
  match (Writer.upstream 1 created_outcome forwarded_policy).2 with
  | Ok out => out
  | Err _ => policy_output PolicyOutputKind.Empty
  end.

Lemma upstream_settles_the_write_witness :
  ∃ c response, po_kind delivered_output = PolicyOutputKind.Upstream c response ∧
    pg_writes (Writer.upstream 1 created_outcome forwarded_policy).1 !! 1 = Some (write_terminal c).
Proof.
  edestruct (upstream_settles_the_write forwarded_policy outstanding created_outcome
    (Writer.upstream 1 created_outcome forwarded_policy).1 delivered_output reachable_forwarded_policy)
    as (c & response & H1 & _ & H2 & _); [reflexivity|vm_compute; reflexivity|].
  exists c, response. split; [exact H1|exact H2].
Defined.

Lemma checked_write_is_confined_witness : config_maps ∈ writable sample_kinds.
Proof.
  apply (checked_write_is_confined sample_kinds "planeon-qual"
    (mkWriteRequest 1 WriteOperation.Create (mkResourceRef "" "v1" "configmaps") (Some "planeon-qual") "probe"
       (Some (doc_to_value created_object)) None) config_maps).
  vm_compute. reflexivity.
Defined.

Lemma refused_event_changes_nothing_witness :
  (Writer.handle (PolicyEvent.WUpstream 7 UpstreamOutcome.Lost) begun_policy).1 = begun_policy.
Proof.
  apply (refused_event_changes_nothing (PolicyEvent.WUpstream 7 UpstreamOutcome.Lost) begun_policy
           "upstream outcome for a write the gate never forwarded").
  vm_compute. reflexivity.
Defined.

(** The first write of the run, as [WRITE_OBJECT] takes it. *)
Definition first_write : WriteRequest :=
  mkWriteRequest 1 WriteOperation.Create (mkResourceRef "" "v1" "configmaps") (Some "planeon-qual") "probe"
    (Some (doc_to_value created_object)) None.

Lemma write_forwarded_iff_witness :
  ∃ row rendered p,
    may_forward begun_policy first_write row rendered ∧
    Writer.record (forward_record first_write row rendered) begun_policy = (p, true).
Proof.
  assert (Hf : (Writer.write_object first_write 3 "sha256:0" begun_policy).2 = WriterReply.Forwarded 1)
    by (vm_compute; reflexivity).
  pose proof (write_forwarded_iff first_write 3 "sha256:0" begun_policy
    (Writer.write_object first_write 3 "sha256:0" begun_policy).1 1) as [Hw _].
  destruct Hw as (row & rendered & p1 & Hm & _ & Hr & _); [rewrite <-Hf; apply surjective_pairing|].
  exists row, rendered, p1. split; [exact Hm|exact Hr].
Defined.

(** * A concrete run of the loop

    A scripted system and two silent ports: the broker connects, its peer is qualified, one status
    frame opens the channel and is answered in time; the gates are those of [PolicyScenario].  The
    loops of the run are the witnesses' inputs. *)

(** A port without connections or deadlines. *)
Record SilentPort := mkSilentPort { sp_deadline : option Z }.

#[export] Instance SilentPort_port : Port unit SilentPort := {
  register _ _ p os := (p, os, Ok ());
  next_deadline p := sp_deadline p;
  due _ p := ((mkSilentPort None, p.2), []);
  ready _ _ p := (p, []);
  apply _ p := p;
  sync _ p := p;
  failure _ := None;
}.
#[export] Instance SilentPort_i04 : I04Port unit SilentPort := { i04_port := SilentPort_port; drain_backlog p := (p, []) }.
#[export] Instance SilentPort_upstream : UpstreamPort unit SilentPort := { upstream_port := SilentPort_port }.
#[export] Instance SilentPort_laws : PortLaws unit SilentPort.
Proof. split; constructor. Qed.
#[export] Instance SilentPort_i04_laws : I04PortLaws unit SilentPort.
Proof. split; [exact SilentPort_laws|constructor]. Qed.

(** A system that plays what the script holds: the tokens of each wake, the connections and the datagrams that wait;
    every monotonic read takes [so_tick] nanoseconds. *)
Record ScriptOs := mkScriptOs {
  so_wakes : list (list (Z * Readiness));
  so_accepts : list Z;
  so_datagrams : list Received.t;
  so_peer : PeerCredentials;
  so_process : ProcIdentity;
  so_clock : Z;
  so_tick : Z;
  so_realtime : option Z;
  so_sent : list (list Z);
}.

Definition with_wakes (w : list (list (Z * Readiness))) (o : ScriptOs) : ScriptOs :=
  mkScriptOs w (so_accepts o) (so_datagrams o) (so_peer o) (so_process o) (so_clock o) (so_tick o) (so_realtime o) (so_sent o).
Definition with_accepts (a : list Z) (o : ScriptOs) : ScriptOs :=
  mkScriptOs (so_wakes o) a (so_datagrams o) (so_peer o) (so_process o) (so_clock o) (so_tick o) (so_realtime o) (so_sent o).
Definition with_datagrams (d : list Received.t) (o : ScriptOs) : ScriptOs :=
  mkScriptOs (so_wakes o) (so_accepts o) d (so_peer o) (so_process o) (so_clock o) (so_tick o) (so_realtime o) (so_sent o).
Definition with_clock (c : Z) (o : ScriptOs) : ScriptOs :=
  mkScriptOs (so_wakes o) (so_accepts o) (so_datagrams o) (so_peer o) (so_process o) c (so_tick o) (so_realtime o) (so_sent o).
Definition with_sent (b : list (list Z)) (o : ScriptOs) : ScriptOs :=
  mkScriptOs (so_wakes o) (so_accepts o) (so_datagrams o) (so_peer o) (so_process o) (so_clock o) (so_tick o) (so_realtime o) b.

#[export] Instance ScriptOs_poll : PortPoll ScriptOs := {
  port_add _ _ _ _ o := (o, true);
  port_modify _ _ _ _ o := (o, true);
  port_delete _ _ o := (o, true);
}.
#[export] Instance ScriptOs_os : Os ScriptOs := {
  os_port_poll := ScriptOs_poll;
  os_accept side o :=
    match side, so_accepts o with
    | Listen.I05, conn :: rest => (with_accepts rest o, Ok (Some conn))
    | _, _ => (o, Ok None)
    end;
  os_peer _ o := (o, Some (so_peer o));
  os_open_proc _ _ o := (o, true);
  os_read_proc _ o := (o, Some (so_process o));
  os_peer_exited _ o := (o, false);
  os_writer_exe_ok _ o := (o, true);
  os_recv _ _ o :=
    match so_datagrams o with
    | [] => (o, Received.WouldBlock)
    | r :: rest => (with_datagrams rest o, r)
    end;
  os_send _ bytes o := (with_sent (so_sent o ++ [bytes]) o, true);
  os_close _ o := o;
  os_watch _ _ o := (o, true);
  os_wait _ o := match so_wakes o with [] => (o, Some []) | w :: rest => (with_wakes rest o, Some w) end;
  os_monotonic o := (with_clock (so_clock o + so_tick o) o, so_clock o);
  os_realtime_ms o := (o, so_realtime o);
}.

(** ** The run *)

Definition broker_control : list Z :=
  message SOL_SOCKET SCM_CREDENTIALS (le_bytes 4 4321 ++ replicate 8 0) ++ replicate 4 0
  ++ message SOL_SOCKET SCM_SECURITY (bytes_of BROKER_LABEL).
Definition status_frame : list Z :=
  match broker_frame new_gate "GENERATION_STATUS" (DObject []) with
  | Event.Frame (FrameInput.Value value) => match canonical value with Ok bytes => bytes | Err _ => [] end
  | _ => []
  end.

Definition readable : Readiness := mkReadiness true false false false.
Definition broker_process : ProcIdentity := mkProcIdentity 77 (bytes_of BROKER_CGROUP) (bytes_of BROKER_LABEL).

(** The broker connects, then its frame arrives; a clock read takes [tick] nanoseconds. *)
Definition broker_script (tick : Z) : ScriptOs :=
  mkScriptOs [[(I05_LISTENER_TOKEN, readable)]; [(I05_CONN_TOKEN, readable)]] [9]
    [Received.Datagram status_frame false broker_control false]
    (mkPeerCredentials 4321 0 0 (bytes_of BROKER_LABEL)) broker_process 0 tick (Some 1000000) [].

Definition loop_type : Type := Substrate MemoryStores FakeKernel ScriptOs unit SilentPort SilentPort.

Definition built_loop (tick : Z) : loop_type :=
  (Substrate_new new_policy (broker_script tick) (mkSilentPort None) (mkSilentPort None) () ExpectedPeers_r10 ∅).1.

Definition accepted_loop : loop_type := Eval vm_compute in (turn 3 (built_loop 1)).1.
Definition answered_loop : loop_type := Eval vm_compute in (turn 3 accepted_loop).1.

Lemma accepted_loop_step : turn 3 (built_loop 1) = (accepted_loop, Done ()).
Proof. vm_compute. reflexivity. Qed.
Lemma answered_loop_step : turn 3 accepted_loop = (answered_loop, Done ()).
Proof. vm_compute. reflexivity. Qed.

(** The frame opens the channel and one answer leaves; with a clock that moves two seconds a read the answer is late,
    nothing is sent and the channel is closed. *)
Example answered_or_closed :
  let late := (turn 3 (turn 3 (built_loop (2 * 10 ^ 9))).1).1 in
  (channel accepted_loop, channel answered_loop, length (so_sent (sub_os answered_loop)),
   hd_conn <$> sub_i05 answered_loop) = (Channel.Unopened, Channel.Open, 1%nat, Some 9) ∧
  (channel late, so_sent (sub_os late), hd_conn <$> sub_i05 late) = (Channel.Closed, [], None).
Proof. vm_compute. split; reflexivity. Qed.

Lemma reachable_built_loop : loop_reachable (built_loop 1).
Proof.
  apply (loop_built new_policy (broker_script 1) (mkSilentPort None) (mkSilentPort None) () ExpectedPeers_r10 ∅);
    [|reflexivity].
  apply (started_new (Ok any_schema) run_config MemoryStores_default worker_kernel new_gate sample_parts); reflexivity.
Qed.
Lemma reachable_accepted_loop : loop_reachable accepted_loop.
Proof. exact (loop_turned _ _ 3 reachable_built_loop accepted_loop_step). Qed.
Lemma reachable_answered_loop : loop_reachable answered_loop.
Proof. exact (loop_turned _ _ 3 reachable_accepted_loop answered_loop_step). Qed.

Lemma loop_agrees_with_the_gate_witness :
  channel answered_loop = Channel.Open ∧ is_Some (sub_i05 answered_loop).
Proof.
  split; [reflexivity|]. apply (loop_agrees_with_the_gate answered_loop reachable_answered_loop). reflexivity.
Defined.

Lemma wake_feeds_only_justified_events_witness :
  ∃ h h', since_start h accepted_loop ∧
    moves (I := SilentPort) (U := SilentPort) ExpectedPeers_r10 h (sub_gate accepted_loop) (sub_os accepted_loop) (h' ++ h)
      (sub_gate answered_loop) (sub_os answered_loop).
Proof.
  pose proof (wake_feeds_only_justified_events accepted_loop 3 reachable_accepted_loop) as H.
  rewrite answered_loop_step in H. exact H.
Defined.

(** What waits in the script: no run of calls receives more. *)
Definition script_queued (o : ScriptOs) : nat := length (so_accepts o) + length (so_datagrams o).

Lemma script_receives call (os os' : ScriptOs) :
  did (I := SilentPort) (U := SilentPort) call os os' →
  (arrivals [Mark.Did call] + script_queued os' ≤ script_queued os)%nat.
Proof.
  unfold script_queued. destruct 1; try (cbn; lia).
  - destruct side, (so_accepts os) as [|c l] eqn:E; cbn; rewrite ?E; cbn; rewrite ?E; cbn; lia.
  - destruct (so_datagrams os) as [|r l] eqn:E; cbn; rewrite ?E; cbn; rewrite ?E; [cbn; lia|]. destruct r; cbn; lia.
  - cbn. destruct (so_wakes os); cbn; lia.
Qed.

Lemma script_run_receives peers h (p p' : PolicyGate MemoryStores FakeKernel) (os os' : ScriptOs) h' :
  moves (I := SilentPort) (U := SilentPort) peers h p os h' p' os' →
  (arrivals h' + script_queued os' ≤ arrivals h + script_queued os)%nat.
Proof.
  induction 1 as [|h1 p1 os1 call os2 _ IH Hd|h1 p1 os1 event _ IH _]; [lia| |exact IH].
  apply script_receives in Hd. change (Mark.Did call :: h1) with ([Mark.Did call] ++ h1).
  assert (∀ a b, arrivals (a ++ b) = arrivals a + arrivals b)%nat as Happ
    by (intros; unfold arrivals; by rewrite List.filter_app, length_app).
  rewrite Happ. lia.
Qed.

(** With one turn the connection's loop is cut off after its one datagram; two turns are enough. *)
Lemma every_wake_terminates_witness :
  (turn 1 accepted_loop).2 = OutOfFuel ∧ (turn 2 accepted_loop).2 ≠ OutOfFuel ∧
  ∃ h h', since_start h accepted_loop ∧
    moves (I := SilentPort) (U := SilentPort) ExpectedPeers_r10 h (sub_gate accepted_loop) (sub_os accepted_loop) (h' ++ h)
      (sub_gate (turn 1 accepted_loop).1) (sub_os (turn 1 accepted_loop).1) ∧
    (1 ≤ arrivals h')%nat.
Proof.
  assert (E : (turn 1 accepted_loop).2 = OutOfFuel) by (vm_compute; reflexivity). split; [exact E|].
  destruct (every_wake_terminates accepted_loop reachable_accepted_loop) as (h & Hs & Hm & Hn). split.
  - apply (Hn 1%nat); [|lia]. intros h' p' os' H%script_run_receives.
    assert (script_queued (sub_os accepted_loop) = 1%nat) as Eq by (vm_compute; reflexivity).
    unfold arrivals in *. rewrite List.filter_app, length_app in H. lia.
  - destruct (Hm 1%nat) as (h' & Hmoves & Ho). exists h, h'. split; [exact Hs|]. split; [exact Hmoves|]. exact (Ho E).
Defined.

Lemma wait_is_bounded_witness :
  ∃ timeout, (timeout_ms answered_loop).2 = Done timeout ∧ -1 ≤ timeout ≤ I32_MAX.
Proof.
  exists (-1). split; [reflexivity|].
  apply (wait_is_bounded answered_loop (timeout_ms answered_loop).1 (-1)). reflexivity.
Defined.

(** The status frame of the run, delivered in the loop that accepted the broker. *)
Definition status_delivered : loop_type * run PolicyOutput LoopExit.t :=
  Eval vm_compute in
    deliver (frame_event Listen.I05 status_frame) (Concern.Held Listen.I05) (Some 3) accepted_loop.
Lemma status_delivered_step :
  deliver (frame_event Listen.I05 status_frame) (Concern.Held Listen.I05) (Some 3) accepted_loop = status_delivered.
Proof. vm_compute. reflexivity. Qed.

Definition status_output : PolicyOutput :=
  match status_delivered.2 with Done output => output | _ => policy_output PolicyOutputKind.Empty end.

Lemma unanswered_frame_ends_the_channel_witness :
  ∃ base payload, po_kind status_output = PolicyOutputKind.Base base ∧ o_kind base = OutputKind.Response payload ∧
    sent_in_time (O := ScriptOs) 9 (o_response_frame base) 3.
Proof.
  destruct (loop_reachable_agrees _ reachable_accepted_loop) as [Hr Ha].
  destruct (sub_i05 accepted_loop) as [held|] eqn:Eh; [|discriminate Eh].
  destruct (unanswered_frame_ends_the_channel accepted_loop status_delivered.1 status_frame held 3 status_output Hr Ha Eh)
    as (base & payload & H1 & H2 & H3); [exact status_delivered_step|reflexivity|].
  injection Eh as <-. exists base, payload. split; [exact H1|]. split; [exact H2|exact H3].
Defined.

(** A loop over a bound run whose lifetime ends at second 2000. *)
Definition bound_loop (realtime : option Z) : loop_type :=
  mkSubstrate (Writer.around sample_parts bound_gate)
    (mkScriptOs [] [] [] (mkPeerCredentials 4321 0 0 (bytes_of BROKER_LABEL)) broker_process 0 1 realtime [])
    (mkSilentPort None) (mkSilentPort (Some 5000000000)) () ExpectedPeers_r10 {["nonce" := 2000]} None None.

Example expired_at_the_end :
  map (λ realtime, br_expired <$> bound_run (pg_gate (sub_gate (check_expiry (bound_loop realtime)).1)))
    [Some 1999999; Some 2000000; None] = [Some false; Some true; Some true].
Proof. vm_compute. reflexivity. Qed.

(** With five seconds to a port's deadline, the expiry of the bound run shortens the wait. *)
Example waits : map (λ realtime, (timeout_ms (bound_loop realtime)).2) [Some 1999999; Some 1000000; None] =
  [Done 1; Done 1000; Done 0].
Proof. vm_compute. reflexivity. Qed.

Lemma expiry_check_fails_closed_witness :
  ∃ end_ now (os : ScriptOs), Lifetimes_end {["nonce" := 2000]} "nonce" = Some end_ ∧
    (os_realtime_ms os).2 = Some now ∧ now < sat_mul_i64 end_ 1000.
Proof.
  destruct (bound_run (pg_gate (sub_gate (check_expiry (bound_loop (Some 1999999))).1))) as [run|] eqn:Eb;
    [|discriminate Eb].
  assert (Hn : br_run_nonce run = "nonce") by (vm_compute in Eb; injection Eb as <-; reflexivity).
  assert (He : br_expired run = false) by (vm_compute in Eb; injection Eb as <-; reflexivity).
  pose proof (expiry_check_fails_closed (bound_loop (Some 1999999)) (check_expiry (bound_loop (Some 1999999))).1 run)
    as Hx.
  rewrite Hn in Hx. apply Hx; [reflexivity|exact Eb|exact He].
Defined.
