(* ===== verification/Witnesses.v ===== *)
(** * The gate's theorems at the concrete run of [Scenario]

    Each witness instantiates one theorem at a gate of the run, where its hypotheses hold. *)

From S2P Require Import Prelude Sha256 Json Schema Frame Render Types Journal Observation Config.
From S2P Require Import Gate Scenario Protocol ProtocolProofs GateSteps GateSafety.
From S2P Require Import GateFrames.
From S2P Require Import Contracts Float JsonEncode JsonInt SchemaOrder RecordCodec.
From S2P Require Import I02 I02Proofs I05Client I05Exchange.
(** A gate of the run is reachable because the one before it is. *)
Ltac reach_by step before := rewrite step; unfold after; repeat apply reachable_handle; exact before.

Lemma reachable_new_gate : reachable new_gate.
Proof.
  apply (reachable_new (Ok any_schema) run_config MemoryStores_default worker_kernel); reflexivity.
Qed.
Lemma reachable_opened : reachable opened_gate.
Proof. reach_by opened_step reachable_new_gate. Qed.
Lemma reachable_bound : reachable bound_gate.
Proof. reach_by bound_step reachable_opened. Qed.
Lemma reachable_armed : reachable armed_gate.
Proof. reach_by armed_step reachable_bound. Qed.
Lemma reachable_accepted : reachable accepted_gate.
Proof. reach_by accepted_step reachable_armed. Qed.
Lemma reachable_forwarded : reachable forwarded_gate.
Proof. reach_by forwarded_step reachable_accepted. Qed.
Lemma reachable_settled : reachable settled_gate.
Proof. reach_by settled_step reachable_forwarded. Qed.
Lemma reachable_drained : reachable drained_gate.
Proof. reach_by drained_step reachable_settled. Qed.

Lemma journal_is_legal_witness : length (journal drained_gate) = 6%nat ∧ legal_journal (journal drained_gate).
Proof. split; [reflexivity|]. apply journal_is_legal, reachable_drained. Defined.

Lemma journal_only_grows_witness :
  ∃ es, journal (handle Event.DrainRequest settled_gate).1 = journal settled_gate ++ es.
Proof. apply journal_only_grows, reachable_settled. Defined.

Definition forwarded_action : Action :=
  mkAction 1 Status.Consumed None false false (Some (mkArmed Create (m_digest pod) None)) (Some "c1") None.

(** A crash while the request is out: the restart finds the outcome unknown. *)
Lemma restart_concludes_witness :
  g_actions forwarded_gate !! 1 = Some forwarded_action ∧
  ∃ a', g_actions (restart_with None forwarded_gate).1 !! 1 = Some a' ∧ a_status a' = Status.Terminal ∧
        a_classification a' = Some Classification.IoAmbiguous ∧ a_sealed a' = false.
Proof.
  split; [reflexivity|].
  apply (restart_concludes None forwarded_gate 1 forwarded_action reachable_forwarded). reflexivity.
Defined.

Lemma restart_never_reactivates_witness :
  g_state forwarded_gate = State.Active ∧
  let s := g_state (restart_with None forwarded_gate).1 in
  s = State.Closed ∨ s = State.Invalidated ∨ s = State.Held.
Proof. split; [reflexivity|]. apply restart_never_reactivates, reachable_forwarded. Defined.

Lemma state_only_tightens_witness :
  (rank (g_state settled_gate) ≤ rank (g_state (handle Event.DrainRequest settled_gate).1))%nat ∧
  (g_state settled_gate = State.Held → g_state (handle Event.DrainRequest settled_gate).1 = State.Held).
Proof. apply state_only_tightens; [apply reachable_settled|reflexivity]. Defined.

Lemma open_fence_is_final_witness :
  fence drained_gate = DrainAnswer.Open ∧
  let g' := run_events [Event.Backlog "c2"; Event.Accept "c2"; Event.GateRestart] drained_gate in
  (fence g' = DrainAnswer.Open ∨ fence g' = DrainAnswer.Held) ∧
  in_flight g' = None ∧ g_state g' ≠ State.Active.
Proof. split; [reflexivity|]. apply open_fence_is_final; [apply reachable_drained|reflexivity]. Defined.

Definition failing_gate : gate_type := with_stores (fail_next (g_stores armed_gate) true) armed_gate.

Lemma failed_record_holds_witness :
  (record failing_gate (Rec.Consumed 1)).2 = false ∧
  let g' := (record failing_gate (Rec.Consumed 1)).1 in
  g_state g' = State.Held ∧ g_failing g' = false ∧ ∀ id, action_has Status.Armed g' id = false.
Proof.
  split; [reflexivity|]. apply (failed_record_holds failing_gate (Rec.Consumed 1)); [|reflexivity..].
  exact (reachable_inv armed_gate reachable_armed).
Defined.

Definition accepted_connection : Connection := mkConnection (Some (mkStamp "execution-1" 1)) true 0 false.

Lemma accepted_admissible :
  admissible accepted_gate true (sat_add_u64 0 1) (Some (mkStamp "execution-1" 1)) "certificate"
    (r_head rendered_pod) (r_body_digest rendered_pod) 1.
Proof.
  exists (mkBound "execution-1" "nonce"), (mkStamp "execution-1" 1),
    (mkAction 1 Status.Armed None false false (Some (mkArmed Create (m_digest pod) None)) None None),
    (mkRun "binding" "case" "request" "certificate" [m_digest pod]),
    (mkArmed Create (m_digest pod) None), pod.
  repeat split; reflexivity || discriminate.
Qed.

Lemma forward_consumes_witness :
  let g' := (handle (Event.Request "c1" "certificate" (r_head rendered_pod) (r_body_digest rendered_pod)) accepted_gate).1 in
  journal g' = journal accepted_gate ++ [Entry.Record_ (Rec.Consumed 1)] ∧
  (∃ a', g_actions g' !! 1 = Some a' ∧ a_status a' = Status.Consumed ∧ a_conn a' = Some "c1") ∧
  ∀ conn' c', conn' ≠ "c1" → g_connections g' !! conn' = Some c' → cn_stamp c' = Some (mkStamp "execution-1" 1) →
    cn_open c' = false ∨ cn_consumed c' = true.
Proof.
  apply (forward_consumes "c1" "certificate" (r_head rendered_pod) (r_body_digest rendered_pod) accepted_gate
           accepted_connection 1
           (mkAction 1 Status.Armed None false false (Some (mkArmed Create (m_digest pod) None)) None None)
           reachable_accepted); [reflexivity|apply accepted_admissible|reflexivity|reflexivity].
Defined.

(** The run's second frame. *)
Definition bind_input : FrameInput.t :=
  match broker_frame opened_gate "BIND_EXECUTION" bind_payload with Event.Frame input => input | _ => FrameInput.NotBytes end.
Definition bind_answer : gate_type * Output := Eval vm_compute in frame bind_input opened_gate.
Definition bind_response : Doc :=
  match o_kind bind_answer.2 with OutputKind.Response payload => payload | _ => DNull end.
Lemma bind_answer_step : frame bind_input opened_gate = bind_answer.
Proof. vm_compute. reflexivity. Qed.

Lemma answer_continues_the_chain_witness :
  o_kind (frame bind_input opened_gate).2 = OutputKind.Response bind_response ∧
  ∃ value encoded e, checked_frame (g_schema opened_gate) bind_input = Ok (value, encoded) ∧
    parse_envelope value = Some e ∧ in_order opened_gate e ∧
    answered (frame bind_input opened_gate).1 e encoded bind_response (frame bind_input opened_gate).2.
Proof.
  assert (H : o_kind (frame bind_input opened_gate).2 = OutputKind.Response bind_response)
    by (rewrite bind_answer_step; reflexivity).
  split; [exact H|]. apply answer_continues_the_chain; [apply reachable_opened|exact H].
Defined.

Lemma replayed_frame_is_fatal_witness :
  o_kind (frame bind_input (frame bind_input opened_gate).1).2 = OutputKind.Fatal FatalReason.ChainBroken.
Proof.
  rewrite (replayed_frame_is_fatal opened_gate bind_input bind_response); [reflexivity|apply reachable_opened| |].
  - rewrite bind_answer_step. reflexivity.
  - discriminate.
Defined.

Lemma fatal_fails_closed_witness :
  let g' := (handle Event.PeerChanged armed_gate).1 in
  g_state g' = State.Held ∧ g_channel g' = Channel.Closed ∧
  o_response_frame (output_of (OutputKind.Fatal FatalReason.PeerChanged)) = None ∧
  ∀ id, action_has Status.Armed g' id = false.
Proof. by apply (fatal_fails_closed Event.PeerChanged armed_gate _ FatalReason.PeerChanged reachable_armed). Defined.

(** *** The run's branches *)

Lemma reachable_sealed : reachable sealed_gate.
Proof. reach_by sealed_step reachable_settled. Qed.
Lemma reachable_delete : reachable delete_gate.
Proof. reach_by delete_step reachable_sealed. Qed.
Lemma reachable_rebound : reachable rebound_gate.
Proof. reach_by rebound_step reachable_sealed. Qed.
Lemma reachable_rearmed : reachable rearmed_gate.
Proof. reach_by rearmed_step reachable_rebound. Qed.
Lemma reachable_reforwarded : reachable reforwarded_gate.
Proof. reach_by reforwarded_step reachable_rearmed. Qed.
Lemma reachable_draining : reachable draining_gate.
Proof. reach_by draining_step reachable_forwarded. Qed.

(** The branch's records after its first CONSUMED. *)
Definition between : list Entry.t := take 4 (drop 3 (journal reforwarded_gate)).

Lemma consumed_once_witness :
  length between = 4%nat ∧ Exists is_bind between.
Proof.
  split; [reflexivity|].
  apply (consumed_once reforwarded_gate (take 2 (journal reforwarded_gate)) 1 between [] reachable_reforwarded).
  vm_compute. reflexivity.
Defined.

Lemma delete_names_a_created_object_witness :
  ∃ u, Some "uid-1" = Some u ∧ created_in (since_bind (take 5 (journal delete_gate))) (m_digest pod) u.
Proof.
  apply (delete_names_a_created_object delete_gate (take 5 (journal delete_gate)) 2 (m_digest pod) (Some "uid-1")
           (template_digest Delete "v1" Pod "planeon-qual" "probe-pod" (Some "uid-1") (m_digest pod)) []
           reachable_delete).
  vm_compute. reflexivity.
Defined.

Lemma mutation_armed_once_witness :
  ¬ armed_in (since_bind (take 5 (journal delete_gate))) (MutationDelete "uid-1").
Proof.
  apply (mutation_armed_once delete_gate (take 5 (journal delete_gate)) 2 Delete (m_digest pod) (Some "uid-1")
           (template_digest Delete "v1" Pod "planeon-qual" "probe-pod" (Some "uid-1") (m_digest pod)) []
           (MutationDelete "uid-1") reachable_delete); [vm_compute; reflexivity|reflexivity].
Defined.

Lemma bound_once_witness :
  dv_bound_ids (derived_from_journal (journal reforwarded_gate)) = ["execution-1"; "execution-2"] ∧
  NoDup (dv_bound_ids (derived_from_journal (journal reforwarded_gate))).
Proof. split; [reflexivity|]. apply (bound_once reforwarded_gate reachable_reforwarded). Defined.

Definition armed_delete : Action :=
  mkAction 2 Status.Armed None false false (Some (mkArmed Delete (m_digest pod) (Some "uid-1"))) None None.

Lemma one_action_open_witness :
  g_actions delete_gate !! 2 = Some armed_delete ∧ settled armed_delete = false ∧
  2 = Z.of_nat (size (g_actions delete_gate)).
Proof.
  split; [reflexivity|]. split; [reflexivity|].
  apply (proj2 (one_action_open delete_gate reachable_delete) 2 armed_delete); reflexivity.
Defined.

Lemma closed_is_clean_witness :
  g_state drained_gate = State.Closed ∧
  none_in_flight (g_actions drained_gate) ∧ none_ambiguous (g_actions drained_gate).
Proof. split; [reflexivity|]. by apply closed_is_clean; [apply reachable_drained|]. Defined.

Definition created_response : option Upstream :=
  Some (mkUpstreamResponse 201 "sha256:body" (Some "uid-1") (Some "7")).
Definition relayed_output : Output :=
  match (upstream "c1" created_response forwarded_gate).2 with
  | Ok out => out
  | Err _ => output_of (OutputKind.Fatal FatalReason.ChainBroken)
  end.

Lemma relayed_is_durable_witness :
  ∃ id after details, forwarded_on forwarded_gate "c1" false = Some id ∧ is_Some created_response ∧
    journal (upstream "c1" created_response forwarded_gate).1 =
    journal forwarded_gate ++ [Entry.Record_ (Rec.Terminal id Classification.DeliveredResult after details)].
Proof.
  apply (relayed_is_durable forwarded_gate "c1" created_response relayed_output Classification.DeliveredResult false
           reachable_forwarded); vm_compute; reflexivity.
Defined.

Lemma drain_is_answered_witness :
  ∃ out answer, (handle (Event.UpstreamTimeout "c1") draining_gate).2 = Ok out ∧ o_drain out = Some answer ∧
    answer ≠ DrainAnswer.Pending ∧ g_drain_pending (handle (Event.UpstreamTimeout "c1") draining_gate).1 = false.
Proof.
  apply (drain_is_answered draining_gate "c1" 1 (Event.UpstreamTimeout "c1") reachable_draining);
    [reflexivity|vm_compute; lia|reflexivity|reflexivity|by left].
Defined.

(** * The broker's channels at work

    A client and a fresh gate, and a server channel's transcript, on concrete values. *)

(** ** The gate channel *)

Definition new_client : Client.I05Client :=
  Client.mkClient any_schema (c_generation run_config) "challenge" 1 Frame.ZERO_DIGEST None false false.
Definition first_request : Client.I05Client * result (list Z) Client.ChannelEnd.t := Eval vm_compute in issue new_client Call.GenerationStatus.
Definition first_raw : list Z := Eval vm_compute in match first_request.2 with Ok raw => raw | Err _ => [] end.

Lemma new_client_linked : linked new_client new_gate.
Proof. split; try (vm_compute; reflexivity). left. split; vm_compute; reflexivity. Qed.

Lemma exchange_stays_in_step_witness :
  issue new_client Call.GenerationStatus = (first_request.1, Ok first_raw) ∧
  ∃ out, (handle (Event.Frame (FrameInput.Bytes first_raw)) new_gate).2 = Ok out ∧
    ((∃ payload bytes c'', o_kind out = OutputKind.Response payload ∧ o_response_frame out = Some bytes ∧
        Client.receive first_request.1 bytes =
          (c'', Ok (Client.mkResponse Client.Operation.GenerationStatus (1 + 1) (written payload))) ∧
        linked c'' (handle (Event.Frame (FrameInput.Bytes first_raw)) new_gate).1) ∨
     o_kind out = OutputKind.Fatal FatalReason.ResponseOutOfBounds ∨
     o_kind out = OutputKind.Fatal FatalReason.PeerQualificationMismatch ∧
     ∃ b, Call.GenerationStatus = Call.Bind b ∧
       Client.b_peer_qualification_digest b ≠ c_peer_qualification_digest (g_config new_gate)).
Proof.
  assert (H : issue new_client Call.GenerationStatus = (first_request.1, Ok first_raw)) by (vm_compute; reflexivity).
  split; [exact H|].
  apply (exchange_stays_in_step new_client Call.GenerationStatus first_request.1 first_raw new_gate).
  - exact reachable_new_gate.
  - exact new_client_linked.
  - vm_compute. reflexivity.
  - repeat split; vm_compute; congruence.
  - exact I.
  - exact H.
Defined.

(** ** The server channel *)

Definition short_dispatch : I02.Dispatch :=
  I02.mkDispatch (I02.mkEcho ["binding"; "reservation"; "nonce"; "case"; "request"; "observation"; "generation"; "challenge"])
    {["manifest"]}.
Definition short_id : string := "0123456789abcdef0123456789abcdef0123456789abcdef0123456789abcdef".
Definition any_schemas : I02.Schemas := I02.mkSchemas any_schema any_schema any_schema.
Definition fresh : I02.Transcript := Eval vm_compute in
  match I02.new short_dispatch short_id with Ok t => t | Err _ => I02.mkTranscript (I02.mkEcho []) "" ∅ I02.Phase.Over 0 "" None false 0 0 sha_new None end.
Definition started_frame : Value := I02.frame_of fresh I02.Kind.Started [("workerPid", value_int 7); ("workerStartTicks", value_int 9)].
Definition started_raw : list Z := Eval vm_compute in match canonical started_frame with Ok raw => raw | Err _ => [] end.
Definition started_value : Value := Eval vm_compute in match I02.decode started_raw any_schemas with Ok v => v | Err _ => VNull end.

(** The STARTED frame is accepted; the same frame from the server's side ends the conversation. *)
Definition breached : I02.Transcript := Eval vm_compute in (I02.accept fresh started_raw I02.Peer.Server any_schemas).1.

Lemma transcript_is_the_protocol_witness :
  I02.new short_dispatch short_id = Ok fresh ∧
  (∃ t' a, I02.accept fresh started_raw I02.Peer.Broker any_schemas = (t', Ok a) ∧
    I02.ac_kind a = I02.Kind.Started ∧ I02.ac_frame a = started_value) ∧
  I02.accept breached started_raw I02.Peer.Broker any_schemas = (breached, Err I02.Breach.Ended).
Proof.
  assert (H : I02.new short_dispatch short_id = Ok fresh) by (vm_compute; reflexivity). split; [exact H|].
  assert (H2 : Z.of_nat (length (@nil I02Proofs.Turn)) + 2 ≤ I64_MAX) by (cbn; unfold I64_MAX; lia).
  destruct (transcript_is_the_protocol short_dispatch short_id fresh any_schemas [] fresh started_raw I02.Peer.Broker
    H (conversation_begins any_schemas fresh) H2) as [Haccept _].
  destruct (transcript_is_the_protocol short_dispatch short_id fresh any_schemas [] fresh started_raw I02.Peer.Server
    H (conversation_begins any_schemas fresh) H2) as [_ Hbreach].
  split.
  2: { eapply Hbreach. vm_compute. reflexivity. }
  apply Haccept.
  split; [vm_compute; reflexivity|]. split; [reflexivity|]. split.
  - split; try (vm_compute; reflexivity). repeat (apply List.Forall_cons; [vm_compute; reflexivity|]). apply List.Forall_nil.
  - eexists. split; [vm_compute; reflexivity|]. by split.
Defined.

(** * A concrete run of the I04 port

    A scripted network and a TLS that passes bytes through: the worker connects, completes the handshake, sends the
    POST its armed action renders, the gate forwards it, the upstream answers 201, and the answer is relayed.  The
    gate is [Scenario]'s with a run whose certificate is the one the client presents. *)

From S2P Require Import Slices Policy PolicyGate Http1.
From S2P Require Import PolicyProtocol PolicySteps PolicySafety PolicyScenario.
From S2P Require Import Substrate SubstrateProofs Tls I04 I04Proofs I04Safety I04Relay.
From S2P Require Import Inet Http1Render.
From S2P Require Import UpstreamAnswer Upstream UpstreamProofs UpstreamSafety.

(** ** The network *)

Record ScriptNet := mkScriptNet {
  sn_accepts : list Z;
  sn_inputs : list (list Z);
  sn_sent : list Z;
  sn_used : gset Z;
  sn_clock : Z;
}.

#[export] Instance ScriptNet_net : StreamNet ScriptNet := {
  listener _ := 100;
  accept n :=
    match sn_accepts n with
    | source :: rest =>
        if bool_decide (source ∈ sn_used n) then (n, Accepted.Skip)
        else (mkScriptNet rest (sn_inputs n) (sn_sent n) ({[source]} ∪ sn_used n) (sn_clock n), Accepted.Conn source)
    | [] => (n, Accepted.Empty)
    end;
  recv _ room n :=
    match sn_inputs n with
    | (byte :: bytes) :: rest =>
        if zlen (byte :: bytes) <=? room
        then (mkScriptNet (sn_accepts n) rest (sn_sent n) (sn_used n) (sn_clock n), Transfer.Data (byte :: bytes))
        else (n, Transfer.Failed 90)
    | [] :: rest => (mkScriptNet (sn_accepts n) rest (sn_sent n) (sn_used n) (sn_clock n), Transfer.WouldBlock)
    | [] => (n, Transfer.WouldBlock)
    end;
  send _ bytes n :=
    (mkScriptNet (sn_accepts n) (sn_inputs n) (sn_sent n ++ bytes) (sn_used n) (sn_clock n), Transfer.Data (zlen bytes));
  shutdown_write _ n := (n, true);
  net_close _ n := n;
  net_monotonic n := (n, sn_clock n);
}.
#[export] Instance ScriptNet_laws : StreamNetLaws ScriptNet.
Proof.
  refine {| used := sn_used |}.
  - intros source room net bytes. cbn. destruct (sn_inputs net) as [|[|byte l] rest]; [done..|].
    destruct (Z.leb_spec (zlen (byte :: l)) room); [|done]. intros [= <-]. rewrite zlen_cons in *.
    pose proof (zlen_nonneg l). lia.
  - intros net source. cbn. destruct (sn_accepts net) as [|a rest]; [done|].
    destruct (decide (a ∈ sn_used net)); [by rewrite bool_decide_eq_true_2|]. rewrite bool_decide_eq_false_2 by done.
    cbn. by intros [= <-].
  - intros net Hn. cbn in *. destruct (sn_accepts net) as [|a rest]; [done|].
    destruct (decide (a ∈ sn_used net)); [by rewrite bool_decide_eq_true_2|].
    rewrite bool_decide_eq_false_2 in * by done. by destruct (Hn a).
  - intros source room net. cbn. destruct (sn_inputs net) as [|[|byte l] rest]; [done..|]. by destruct (_ <=? room).
  - done.
  - done.
  - done.
  - done.
Defined.

(** ** The TLS *)

(** The first packets complete the handshake; after it bytes pass through. *)
Record PlainTls := mkPlainTls {
  pt_shaken : bool;
  pt_packets : list Z;
  pt_plain : list Z;
  pt_given : list Z;
  pt_out : list Z;
  pt_taken : list Z;
}.

#[export] Instance PlainTls_tls : Tls PlainTls := {
  read_tls W reader t w :=
    let '(w, got) := reader 65536 w in
    match got with
    | Ok bytes => (mkPlainTls (pt_shaken t) (pt_packets t ++ bytes) (pt_plain t) (pt_given t) (pt_out t) (pt_taken t), w, Ok (zlen bytes))
    | Err e => (t, w, Err e)
    end;
  write_tls W writer t w :=
    match pt_out t with
    | [] => (t, w, Ok 0)
    | out =>
        let '(w, taken) := writer out w in
        match taken with
        | Ok count =>
            let count := Z.max 0 count in
            (mkPlainTls (pt_shaken t) (pt_packets t) (pt_plain t) (pt_given t) (drop (Z.to_nat count) out) (pt_taken t), w, Ok count)
        | Err e => (t, w, Err e)
        end
    end;
  process_new_packets t :=
    (mkPlainTls true [] (pt_plain t ++ if pt_shaken t then pt_packets t else []) (pt_given t) (pt_out t) (pt_taken t), true);
  read_plaintext room t :=
    match pt_plain t with
    | [] => (t, Err IoError.WouldBlock)
    | plain =>
        (mkPlainTls (pt_shaken t) (pt_packets t) (drop (Z.to_nat room) plain) (pt_given t) (pt_out t)
           (pt_taken t ++ take (Z.to_nat room) plain),
         Ok (take (Z.to_nat room) plain))
    end;
  write_plaintext bytes t :=
    (mkPlainTls (pt_shaken t) (pt_packets t) (pt_plain t) (pt_given t ++ bytes) (pt_out t ++ bytes) (pt_taken t), Ok (zlen bytes));
  send_close_notify t := mkPlainTls (pt_shaken t) (pt_packets t) (pt_plain t) (pt_given t) (pt_out t ++ [21]) (pt_taken t);
  wants_read _ := true;
  wants_write t := negb (bool_decide (pt_out t = []));
  is_handshaking t := negb (pt_shaken t);
  is_tls13 _ := true;
  peer_leaf t := if pt_shaken t then Some [48; 130; 1; 10] else None;
  queued_records t := length (pt_out t);
  held_plaintext t := length (pt_plain t);
}.
#[export] Instance PlainTls_laws : TlsLaws PlainTls.
Proof.
  split.
  - intros W reader t w. cbn. destruct (reader 65536 w) as [w' [bytes|e]] eqn:E; cbn.
    + exists bytes. split; [rewrite <-(app_nil_r bytes); by eapply reads_data; [|constructor]|]. intros count [= <-]. by left.
    + exists []. split; [by eapply reads_error; [|constructor]|done].
  - intros W writer t w count. cbn. destruct (pt_out t) as [|byte out]; [by intros [= <-]|].
    destruct (writer _ w) as [w' [taken|e]]; cbn; [|done]. intros [= <-] Hn. rewrite length_drop. cbn. lia.
  - intros W writer t w. cbn. destruct (pt_out t) as [|byte out]; [constructor|].
    destruct (writer _ w) as [w' taken] eqn:E. replace w' with (writer (byte :: out) w).1 by (by rewrite E).
    destruct taken; cbn; apply (writes_step _ _ (byte :: out)); constructor.
  - intros room t bytes. cbn. destruct (pt_plain t) as [|byte plain]; [done|]. cbn. intros [= <-] Hn.
    assert (0 < room) as Hr.
    { destruct (Z.leb_spec room 0); [|done]. by rewrite Z2Nat.nonpos in Hn. }
    split; [unfold zlen; rewrite length_take; lia|]. rewrite length_drop. cbn. lia.
  - intros bytes t count. cbn. intros [= <-]. pose proof (zlen_nonneg bytes). lia.
Qed.
#[export] Instance PlainTls_transcript : TlsTranscript PlainTls.
Proof.
  refine {| given := pt_given |}.
  - intros W reader t w. cbn. by destruct (reader 65536 w) as [w' []].
  - intros W writer t w. cbn. destruct (pt_out t); [done|]. by destruct (writer _ w) as [w' []].
  - done.
  - intros room t. cbn. by destruct (pt_plain t).
  - done.
  - intros bytes t. cbn. unfold zlen. by rewrite Nat2Z.id, firstn_all.
Defined.

#[export] Instance PlainTls_received : TlsReceived PlainTls.
Proof.
  refine {| got := pt_taken |}.
  - intros W reader t w. cbn. by destruct (reader 65536 w) as [w' []].
  - intros W writer t w. cbn. destruct (pt_out t); [done|]. by destruct (writer _ w) as [w' []].
  - done.
  - intros room t. cbn. destruct (pt_plain t); cbn; [by rewrite app_nil_r|done].
  - done.
  - done.
Defined.

#[export] Instance PlainTls_server : TlsServer unit PlainTls := {
  server_connection _ := ((), Some (mkPlainTls false [] [] [] [] []))
}.
#[export] Instance PlainTls_server_transcript : ServerTranscript unit PlainTls.
Proof. split. intros config tls Hn. cbn in Hn. injection Hn as <-. reflexivity. Qed.

(** ** The gate *)

Definition relay_body : list Z := doc_canonical (DObject [("kind", DStr "Pod"); ("name", DStr "probe-pod")]).
Definition relay_pod : Manifest := mkManifest "v1" Pod "planeon-qual" "probe-pod" (prefixed relay_body) (zlen relay_body).
Definition relay_certificate : string := prefixed [48; 130; 1; 10].

Definition relay_config : Config :=
  mkConfig (c_generation sample_config) (c_state sample_config) (c_peer_qualification_digest sample_config)
    (c_endpoint sample_config) {[m_digest relay_pod := relay_pod]}
    {["nonce" := mkRun "binding" "case" "request" relay_certificate [m_digest relay_pod]]} (c_prior sample_config).

Definition relay_gate : gate_type :=
  Eval vm_compute in
    match with_stores_new (Ok any_schema) relay_config MemoryStores_default worker_kernel with
    | Ok g => g
    | Err _ => new_gate
    end.
Definition relay_policy : policy_type := Writer.around sample_parts relay_gate.

Definition relay_bind : Doc := DObject
  [("executionId", DStr "execution-1"); ("bindingDigest", DStr "binding"); ("reservationDigest", DStr "reservation");
   ("runNonce", DStr "nonce"); ("caseId", DStr "case"); ("requestDigest", DStr "request");
   ("dispatchGeneration", DStr "generation-1"); ("serverCertificateDigest", DStr relay_certificate);
   ("workerPid", DInt 4100); ("workerStartTicks", DInt 900001); ("peerQualificationDigest", DStr "peer")].
Definition relay_arm : Doc := DObject
  [("executionId", DStr "execution-1"); ("actionId", DInt 1); ("verb", DStr "CREATE");
   ("manifestDigest", DStr (m_digest relay_pod));
   ("requestTemplateDigest", DStr (template_digest Create "v1" Pod "planeon-qual" "probe-pod" None (m_digest relay_pod)));
   ("recordedUid", DNull)].

Definition broker_event (p : policy_type) (operation : string) (payload : Doc) : PolicyEvent.t :=
  PolicyEvent.Base (broker_frame (pg_gate p) operation payload).
Definition open_relay_policy : policy_type :=
  Eval vm_compute in policy_after relay_policy (broker_event relay_policy "GENERATION_STATUS" (DObject [])).
Definition bound_relay_policy : policy_type :=
  Eval vm_compute in policy_after open_relay_policy (broker_event open_relay_policy "BIND_EXECUTION" relay_bind).
Definition armed_relay_policy : policy_type :=
  Eval vm_compute in policy_after bound_relay_policy (broker_event bound_relay_policy "ARM_ACTION" relay_arm).

(** ** The run *)

Definition relay_request : list Z :=
  bytes_of (r_head (render_request Create relay_pod None "198.51.100.7:6443")) ++ relay_body.
Definition hello : list Z := [22; 3; 1].

Definition script_port : Type := I04Server ScriptNet unit PlainTls * Exchange.
Definition new_port : script_port :=
  (I04Server_new (mkScriptNet [7] [hello; []; relay_request] [] ∅ 1000) (), Exchange_default).
Definition readable : Readiness := mkReadiness true false false false.

Definition accepted_port : script_port * list PolicyEvent.t := Eval vm_compute in I04_ready LISTENER readable new_port.
Definition accepted_relay_policy : policy_type :=
  Eval vm_compute in fold_left policy_after accepted_port.2 armed_relay_policy.
Definition synced_port : script_port := Eval vm_compute in I04_sync (GateView_of accepted_relay_policy) accepted_port.1.
Definition shaken_port : script_port * list PolicyEvent.t := Eval vm_compute in I04_ready 7 readable synced_port.
Definition fed_port : script_port * list PolicyEvent.t := Eval vm_compute in I04_ready 7 readable shaken_port.1.
Definition output_after (p : policy_type) (event : PolicyEvent.t) : PolicyOutput :=
  match (Writer.handle event p).2 with Ok output => output | Err _ => policy_output PolicyOutputKind.Empty end.
Definition the_event (events : list PolicyEvent.t) : PolicyEvent.t :=
  match events with event :: _ => event | [] => PolicyEvent.WChannelLost end.
Definition forward_output : PolicyOutput := Eval vm_compute in output_after accepted_relay_policy (the_event fed_port.2).
Definition forwarded_relay_policy : policy_type :=
  Eval vm_compute in policy_after accepted_relay_policy (the_event fed_port.2).
Definition flying_port : script_port := Eval vm_compute in I04_apply forward_output fed_port.1.

(** The upstream port takes the request and stages the answer. *)
Definition taken_board : Exchange := Eval vm_compute in (take_request 1 flying_port.2).1.
Definition answer_body : list Z := doc_canonical (DObject [("status", DStr "made")]).
Definition staged_answer : Exchange * result PolicyEvent.t BoardError.t :=
  Eval vm_compute in stage_response "i04-7" 201 answer_body (Some "uid-1") (Some "7") taken_board.
Definition answer_event : PolicyEvent.t :=
  match staged_answer.2 with Ok event => event | Err _ => PolicyEvent.WChannelLost end.
Definition answer_output : PolicyOutput := Eval vm_compute in output_after forwarded_relay_policy answer_event.
Definition settled_relay_policy : policy_type := Eval vm_compute in policy_after forwarded_relay_policy answer_event.
Definition waiting_port : script_port := (flying_port.1, staged_answer.1).
Definition relaying_port : script_port := Eval vm_compute in I04_apply answer_output waiting_port.

(** What the port and the gate made of the run. *)
Example events_of_the_relay :
  (map (λ events, match events with [PolicyEvent.Base (Event.Request conn _ _ _)] => Some conn | _ => None end)
     [shaken_port.2; fed_port.2],
   accepted_port.2) = ([None; Some "i04-7"], accepted_events 7).
Proof. vm_compute. reflexivity. Qed.
Example the_client_was_sent :
  (i4_failure relaying_port.1, Ok (rev (drop 1 (rev (sn_sent (i4_net relaying_port.1)))))) =
  (None, render_response 201 answer_body).
Proof. vm_compute. reflexivity. Qed.

(** ** The theorems at the run *)

Lemma run_accepted : port_run accepted_port.2 accepted_port.1.
Proof. exact (run_call [] new_port _ _ (run_new _ _ _) (call_ready LISTENER readable new_port)). Qed.
Lemma run_synced : port_run accepted_port.2 synced_port.
Proof.
  pose proof (run_call _ _ _ _ run_accepted (call_sync (GateView_of accepted_relay_policy) accepted_port.1)) as H.
  rewrite app_nil_r in H. exact H.
Qed.
Lemma run_shaken : port_run accepted_port.2 shaken_port.1.
Proof.
  pose proof (run_call _ _ _ _ run_synced (call_ready 7 readable synced_port)) as H.
  assert (E : I04_ready 7 readable synced_port = shaken_port) by (vm_compute; reflexivity).
  rewrite E in H. exact H.
Qed.
Lemma fed_step : I04_ready 7 readable shaken_port.1 = fed_port.
Proof. vm_compute. reflexivity. Qed.
Lemma run_fed : port_run (accepted_port.2 ++ fed_port.2) fed_port.1.
Proof.
  pose proof (run_call _ _ _ _ run_shaken (call_ready 7 readable shaken_port.1)) as H. rewrite fed_step in H. exact H.
Qed.
Lemma run_waiting : port_run (accepted_port.2 ++ fed_port.2) waiting_port.
Proof.
  pose proof (run_call _ _ _ _ run_fed (call_apply forward_output fed_port.1)) as H. rewrite app_nil_r in H.
  assert (E : I04_apply forward_output fed_port.1 = flying_port) by (vm_compute; reflexivity). rewrite E in H.
  pose proof (run_call _ _ _ _ H (other_port flying_port.1 flying_port.2 staged_answer.1)) as H'. rewrite app_nil_r in H'.
  exact H'.
Qed.

(** The request closes the connection's life. *)
Lemma connection_lives_once_witness :
  life 7 (accepted_port.2 ++ fed_port.2) = accepted_events 7 ++ fed_port.2 ∧
  ∃ event, closing 7 event ∧ life 7 (accepted_port.2 ++ fed_port.2) = accepted_events 7 ++ [event].
Proof.
  assert (E : life 7 (accepted_port.2 ++ fed_port.2) = accepted_events 7 ++ fed_port.2) by (vm_compute; reflexivity).
  split; [exact E|].
  destruct (connection_lives_once _ _ 7 run_fed) as [H|[H|H]]; [|..|exact H]; exfalso; vm_compute in H; discriminate H.
Defined.

Lemma port_is_bounded_witness : live fed_port.1.1 = 1 ∧ live fed_port.1.1 ≤ CONNECTION_CAP.
Proof. split; [reflexivity|]. exact (proj1 (port_is_bounded _ _ run_fed)). Defined.

Lemma fed_request_was_received_witness :
  received_request 7 fed_port.1.1 fed_port.1.2 (the_event fed_port.2).
Proof.
  pose proof (fed_request_was_received _ 7 readable shaken_port.1.1 shaken_port.1.2 (the_event fed_port.2) run_shaken) as H.
  change (shaken_port.1.1, shaken_port.1.2) with shaken_port.1 in H. rewrite fed_step in H.
  apply H; [left|reflexivity].
Defined.

(** Ten seconds after its handshake the connection is cut, and the gate told. *)
Lemma due_leaves_nothing_due_witness :
  (I04_due 20000000000 shaken_port.1).2 = [PolicyEvent.Base (Event.Disconnect "i04-7")] ∧
  i4_conns (I04_due 20000000000 shaken_port.1).1.1 !! 7 = None.
Proof.
  split; [reflexivity|].
  pose proof (due_leaves_nothing_due _ 20000000000 shaken_port.1.1 shaken_port.1.2 run_shaken) as H.
  change (shaken_port.1.1, shaken_port.1.2) with shaken_port.1 in H.
  destruct (I04_due 20000000000 shaken_port.1) as [[s b] fed]. destruct H as (_ & H & _). cbn [fst]. rewrite H. reflexivity.
Defined.

Lemma relaying_step : I04_apply answer_output waiting_port = relaying_port.
Proof. vm_compute. reflexivity. Qed.

Definition relayed_connection : Connection PlainTls :=
  match i4_conns relaying_port.1 !! 7 with
  | Some c => c
  | None => new_connection 7 (mkPlainTls false [] [] [] [] []) 0
  end.

Lemma client_is_sent_the_staged_response_witness :
  ∃ response, ex_response waiting_port.2 = Some response ∧ sp_conn response = "i04-7" ∧
    render_response (sp_status response) (sp_body response) = Ok (outgoing relayed_connection).
Proof.
  pose proof (call_apply answer_output waiting_port) as Hc. rewrite relaying_step in Hc.
  destruct (client_is_sent_the_staged_response _ waiting_port.1 waiting_port.2 [] relaying_port 7 relayed_connection
    run_waiting Hc) as [H|[(c & H1 & H2)|H]]; [reflexivity|exfalso; vm_compute in H; discriminate H| |].
  - exfalso. vm_compute in H1. injection H1 as <-. vm_compute in H2. discriminate H2.
  - destruct H as (c & response & output & k & a & base & _ & _ & _ & _ & _ & _ & H1 & H2 & _ & H3).
    exists response. split; [exact H1|]. split; [rewrite H2; reflexivity|exact H3].
Defined.

Lemma reachable_relay_policy : policy_reachable relay_policy.
Proof.
  apply (policy_new (Ok any_schema) relay_config MemoryStores_default worker_kernel relay_gate sample_parts);
    vm_compute; reflexivity.
Qed.
Lemma reachable_forwarded_relay_policy : policy_reachable forwarded_relay_policy.
Proof.
  assert (E : forwarded_relay_policy =
    fold_left policy_after
      [broker_event relay_policy "GENERATION_STATUS" (DObject []); broker_event open_relay_policy "BIND_EXECUTION" relay_bind;
       broker_event bound_relay_policy "ARM_ACTION" relay_arm; PolicyEvent.Base (Event.Backlog "i04-7");
       PolicyEvent.Base (Event.Accept "i04-7"); the_event fed_port.2] relay_policy) by (vm_compute; reflexivity).
  rewrite E. cbn [fold_left]. unfold policy_after. do 6 apply policy_handle. exact reachable_relay_policy.
Qed.

Lemma relayed_bytes_are_journaled_witness :
  ∃ action classification after details rest,
    journal (pg_gate settled_relay_policy) =
      journal (pg_gate forwarded_relay_policy) ++ Entry.Record_ (Rec.Terminal action classification after details) :: rest ∧
    (details = TerminalDetails.Delivered 201 (prefixed answer_body) (Some "uid-1") (Some "7") ∨
     details = TerminalDetails.Reconciliation 201 (prefixed answer_body)).
Proof.
  destruct (relayed_bytes_are_journaled forwarded_relay_policy settled_relay_policy answer_output
    (accepted_port.2 ++ fed_port.2) waiting_port.1 taken_board waiting_port.2 "i04-7" 201 answer_body (Some "uid-1") (Some "7")
    answer_event 7 relayed_connection reachable_forwarded_relay_policy) as [H|[(c & H1 & H2)|H]].
  - vm_compute. reflexivity.
  - vm_compute. reflexivity.
  - exact run_waiting.
  - change (waiting_port.1, waiting_port.2) with waiting_port. rewrite relaying_step. reflexivity.
  - exfalso. vm_compute in H. discriminate H.
  - exfalso. vm_compute in H1. injection H1 as <-. vm_compute in H2. discriminate H2.
  - destruct H as (_ & _ & H). exact H.
Defined.

(** * A concrete run of the upstream port

    The run of [I04Scenario] goes on: the port takes the forwarded request, connects, completes the handshake, sends
    the POST, reads the 201 and stages it.  A second run loses its server, a third passes its bound. *)

(** One connection, 31, that yields the scripted pieces; every clock read takes [ws_tick] nanoseconds. *)
Record WireScript := mkWireScript { ws_inputs : list (list Z); ws_sent : list Z; ws_clock : Z; ws_tick : Z }.

#[export] Instance WireScript_net : ConnectNet WireScript := {
  connect _ n := (n, Ok (31, Connecting.Connected));
  connect_result _ n := (n, Ok ());
  c_recv _ room n :=
    match ws_inputs n with
    | (byte :: bytes) :: rest =>
        if zlen (byte :: bytes) <=? room
        then (mkWireScript rest (ws_sent n) (ws_clock n) (ws_tick n), Transfer.Data (byte :: bytes))
        else (n, Transfer.Failed 90)
    | [] :: rest => (mkWireScript rest (ws_sent n) (ws_clock n) (ws_tick n), Transfer.Eof)
    | [] => (n, Transfer.WouldBlock)
    end;
  c_send _ bytes n := (mkWireScript (ws_inputs n) (ws_sent n ++ bytes) (ws_clock n) (ws_tick n), Transfer.Data (zlen bytes));
  c_shutdown_write _ n := (n, true);
  c_close _ n := n;
  c_monotonic n := (mkWireScript (ws_inputs n) (ws_sent n) (ws_clock n + ws_tick n) (ws_tick n), ws_clock n);
}.
#[export] Instance WireScript_laws : ConnectNetLaws WireScript.
Proof.
  split. intros source room net bytes. cbn. destruct (ws_inputs net) as [|[|byte l] rest]; [done..|].
  destruct (Z.leb_spec (zlen (byte :: l)) room); [|done]. intros [= <-]. rewrite zlen_cons in *. pose proof (zlen_nonneg l). lia.
Qed.

#[export] Instance PlainTls_client : TlsClient unit PlainTls := {
  client_connection _ _ := ((), Some (mkPlainTls false [] [] [] [] []))
}.
#[export] Instance PlainTls_client_transcript : ClientTranscript unit PlainTls.
Proof. split; intros config name tls Hn; cbn in Hn; injection Hn as <-; reflexivity. Qed.

(** ** The run *)

Definition apiserver : InetAddress := mkInetAddress (IpLiteral.V4 [127; 0; 0; 1]) 6443.
Abbreviation upstream_type := (UpstreamClient WireScript unit PlainTls).
Definition server_hello : list Z := [22; 3; 3].
Definition server_body : list Z :=
  doc_canonical (DObject [("kind", DStr "Pod"); ("metadata", DObject [("resourceVersion", DStr "7"); ("uid", DStr "uid-1")])]).
Definition server_answer : list Z :=
  bytes_of "HTTP/1.1 201 Created" ++ CRLF ++ bytes_of "Content-Length: " ++ decimal (zlen server_body) ++ CRLF ++ CRLF
  ++ server_body.

Definition new_upstream (inputs : list (list Z)) (tick : Z) : upstream_type :=
  UpstreamClient_new (mkWireScript inputs [] 1000 tick) apiserver () ().
Definition answering (tick : Z) : upstream_type :=
  new_upstream [server_hello; take 30 server_answer; drop 30 server_answer] tick.

Definition armed_upstream : upstream_type * Exchange := Eval vm_compute in up_apply forward_output (answering 1, flying_port.2).
Definition connected_upstream : upstream_type * Exchange * list PolicyEvent.t := Eval vm_compute in up_due 1000 armed_upstream.
Definition answered_upstream : upstream_type * Exchange * list PolicyEvent.t :=
  Eval vm_compute in up_ready 31 readable connected_upstream.1.

(** The exact bytes were sent, the answer is staged and fed. *)
Example upstream_exchange :
  ws_sent (up_net answered_upstream.1.1) = relay_request ++ [21] ∧
  ex_response answered_upstream.1.2 =
    Some (mkStagedResponse "i04-7" 201 server_body (prefixed server_body) (Some "uid-1") (Some "7")) ∧
  answered_upstream.2 =
    [PolicyEvent.Base (Event.UpstreamResponse "i04-7"
       (mkUpstreamResponse 201 (prefixed server_body) (Some "uid-1") (Some "7")))].
Proof. vm_compute. repeat split. Qed.

(** A server that closes early is a loss; an answer read past the bound feeds nothing until [due] feeds the timeout; a
    run whose model no longer holds the connection is given up. *)
Definition ends (inputs : list (list Z)) (tick : Z) : list PolicyEvent.t * list PolicyEvent.t :=
  let '(p, _) := up_due 1000 (up_apply forward_output (new_upstream inputs tick, flying_port.2)) in
  let '(p, events) := up_ready 31 readable p in (events, (up_due (1000 + UPSTREAM_BOUND) p).2).
Example other_ends :
  ends [server_hello; take 30 server_answer; []] 1 = ([PolicyEvent.Base (Event.UpstreamLost "i04-7")], []) ∧
  ends [server_hello; server_answer] UPSTREAM_BOUND = ([], [PolicyEvent.Base (Event.UpstreamTimeout "i04-7")]).
Proof. vm_compute. split; reflexivity. Qed.

(** ** The theorems at the run *)

Lemma run_armed_upstream : up_run [] armed_upstream.
Proof.
  pose proof (up_run_call [] _ _ _ (up_run_new (C := unit) (T := PlainTls) (mkWireScript [server_hello; take 30 server_answer; drop 30 server_answer] [] 1000 1) apiserver () () flying_port.2)
    (up_call_apply forward_output (answering 1, flying_port.2))) as H.
  assert (E : up_apply forward_output (answering 1, flying_port.2) = armed_upstream) by (vm_compute; reflexivity).
  rewrite E in H. exact H.
Qed.
Lemma run_connected_upstream : up_run [] connected_upstream.1.
Proof.
  pose proof (up_run_call [] _ _ _ run_armed_upstream (up_call_due 1000 armed_upstream)) as H.
  assert (E : up_due 1000 armed_upstream = connected_upstream) by (vm_compute; reflexivity). rewrite E in H. exact H.
Qed.
Lemma answered_step : up_ready 31 readable connected_upstream.1 = answered_upstream.
Proof. vm_compute. reflexivity. Qed.
Lemma call_answered : up_call connected_upstream.1 answered_upstream.2 answered_upstream.1.
Proof. pose proof (up_call_ready 31 readable connected_upstream.1) as H. rewrite answered_step in H. exact H. Qed.

Definition open_upstream : OpenExchange PlainTls :=
  match up_open connected_upstream.1.1 with
  | Some o => o
  | None => mkOpen (UpChannel.I05 "" Get Pod "") [] 0 0 None None UpPhase.Armed None None None ResponseReader_new
  end.

Lemma exchange_has_one_outcome_witness :
  up_open answered_upstream.1.1 = None ∧
  ∃ event due_at, answered_upstream.2 = [event] ∧
    outcome (N := WireScript) due_at open_upstream connected_upstream.1.2 event answered_upstream.1.2.
Proof.
  pose proof (exchange_has_one_outcome [] connected_upstream.1.1 connected_upstream.1.2 answered_upstream.2
    answered_upstream.1.1 answered_upstream.1.2 run_connected_upstream call_answered) as H.
  split; [reflexivity|].
  assert (E : up_open connected_upstream.1.1 = Some open_upstream) by reflexivity. rewrite E in H.
  destruct H as [[H _]|[(event & due_at & H1 & _ & H2)|[H _]]]; [vm_compute in H; discriminate H| |vm_compute in H; discriminate H].
  exists event, due_at. split; [exact H1|exact H2].
Defined.

(** Between its handshake's first flight and its answer, the connection was given nothing yet, then all of it. *)
Lemma staged_request_is_sent_witness :
  ∃ unsent, ox_request open_upstream = match ox_tls open_upstream with Some tls => given tls | None => [] end ++ unsent.
Proof.
  pose proof (up_call_due 1000 armed_upstream) as Hc.
  assert (E : up_due 1000 armed_upstream = connected_upstream) by (vm_compute; reflexivity). rewrite E in Hc.
  destruct (staged_request_is_sent [] armed_upstream.1 armed_upstream.2 [] connected_upstream.1.1 connected_upstream.1.2
    open_upstream run_armed_upstream Hc) as [H _]; [reflexivity|].
  destruct (ox_tls open_upstream) as [tls|] eqn:Et; [exact (H tls eq_refl)|discriminate Et].
Defined.

(** The fed request of the run, its gate and its ports. *)
Definition fed_board : Exchange := Eval vm_compute in fed_port.1.2.
Definition forward_base : Output := match po_kind forward_output with PolicyOutputKind.Base base => base | _ => output_of OutputKind.Nothing end.
Definition fed_connection : Connection PlainTls :=
  match i4_conns fed_port.1.1 !! 7 with Some c => c | None => new_connection 7 (mkPlainTls false [] [] [] [] []) 0 end.

Lemma reachable_accepted_relay_policy : policy_reachable accepted_relay_policy.
Proof.
  assert (E : accepted_relay_policy =
    fold_left policy_after
      [broker_event relay_policy "GENERATION_STATUS" (DObject []); broker_event open_relay_policy "BIND_EXECUTION" relay_bind;
       broker_event bound_relay_policy "ARM_ACTION" relay_arm; PolicyEvent.Base (Event.Backlog "i04-7");
       PolicyEvent.Base (Event.Accept "i04-7")] relay_policy) by (vm_compute; reflexivity).
  rewrite E. cbn [fold_left]. unfold policy_after. do 5 apply policy_handle. exact reachable_relay_policy.
Qed.

Lemma consumed_request_goes_upstream_witness :
  ∃ manifest, prefixed relay_body = m_digest manifest ∧
    ∃ o : OpenExchange PlainTls, up_open armed_upstream.1 = Some o ∧ ox_request o = relay_request.
Proof.
  pose proof (consumed_request_goes_upstream accepted_relay_policy forwarded_relay_policy relay_request "i04-7" relay_certificate
    (r_head (render_request Create relay_pod None "198.51.100.7:6443")) relay_body (Some (prefixed relay_body)) forward_output
    forward_base 1 Exchange_default fed_board fed_port.1.1 7 fed_connection (answering 1) reachable_accepted_relay_policy) as H.
  assert (E : up_apply forward_output (answering 1, (I04_apply forward_output (fed_port.1.1, fed_board)).2) = armed_upstream)
    by (vm_compute; reflexivity).
  rewrite E in H.
  destruct H as (manifest & armed & rest & H); try (vm_compute; reflexivity).
  destruct H as (_ & Hm & _ & _ & _ & [(o & verb & kind & name & _ & Ho & Hq & _)|(Hu & _)]).
  - exists relay_pod. split; [reflexivity|]. exists o. split; [exact Ho|]. rewrite Hq. reflexivity.
  - exfalso. apply (f_equal (λ x, match x with Some _ => true | None => false end)) in Hu. vm_compute in Hu. discriminate Hu.
Defined.
