(* ===== verification/Programs.v ===== *)
(** * The published filter programs

    The classic-BPF programs the seals install, byte for byte as the crates embed them ([contracts/seccomp-v3], [-v4],
    [-v5]): arrays of 8-byte instructions. *)

From S2P Require Import Prelude.
Definition GATE_X86_64 : list Z :=
  [32; 0; 0; 0; 4; 0; 0; 0; 21; 0; 1; 0; 62; 0; 0; 192; 6; 0; 0; 0; 0; 0; 0; 128; 32; 0; 0; 0; 0; 0; 0; 0; 53; 0; 0;
   1; 0; 0; 0; 64; 6; 0; 0; 0; 0; 0; 0; 128; 21; 0; 0; 1; 0; 0; 0; 0; 6; 0; 0; 0; 0; 0; 255; 127; 21; 0; 0; 1; 1; 0;
   0; 0; 6; 0; 0; 0; 0; 0; 255; 127; 21; 0; 0; 1; 3; 0; 0; 0; 6; 0; 0; 0; 0; 0; 255; 127; 21; 0; 0; 1; 5; 0; 0; 0; 6;
   0; 0; 0; 0; 0; 255; 127; 21; 0; 0; 1; 7; 0; 0; 0; 6; 0; 0; 0; 0; 0; 255; 127; 21; 0; 0; 1; 8; 0; 0; 0; 6; 0; 0; 0;
   0; 0; 255; 127; 21; 0; 0; 1; 9; 0; 0; 0; 6; 0; 0; 0; 0; 0; 255; 127; 21; 0; 0; 1; 10; 0; 0; 0; 6; 0; 0; 0; 0; 0;
   255; 127; 21; 0; 0; 1; 11; 0; 0; 0; 6; 0; 0; 0; 0; 0; 255; 127; 21; 0; 0; 1; 12; 0; 0; 0; 6; 0; 0; 0; 0; 0; 255;
   127; 21; 0; 0; 1; 13; 0; 0; 0; 6; 0; 0; 0; 0; 0; 255; 127; 21; 0; 0; 1; 14; 0; 0; 0; 6; 0; 0; 0; 0; 0; 255; 127;
   21; 0; 0; 1; 15; 0; 0; 0; 6; 0; 0; 0; 0; 0; 255; 127; 21; 0; 0; 1; 17; 0; 0; 0; 6; 0; 0; 0; 0; 0; 255; 127; 21; 0;
   0; 1; 18; 0; 0; 0; 6; 0; 0; 0; 0; 0; 255; 127; 21; 0; 0; 1; 19; 0; 0; 0; 6; 0; 0; 0; 0; 0; 255; 127; 21; 0; 0; 1;
   20; 0; 0; 0; 6; 0; 0; 0; 0; 0; 255; 127; 21; 0; 0; 1; 24; 0; 0; 0; 6; 0; 0; 0; 0; 0; 255; 127; 21; 0; 0; 4; 25; 0;
   0; 0; 32; 0; 0; 0; 40; 0; 0; 0; 21; 0; 0; 1; 1; 0; 0; 0; 6; 0; 0; 0; 0; 0; 255; 127; 6; 0; 0; 0; 0; 0; 0; 128; 21;
   0; 0; 1; 28; 0; 0; 0; 6; 0; 0; 0; 0; 0; 255; 127; 21; 0; 0; 1; 35; 0; 0; 0; 6; 0; 0; 0; 0; 0; 255; 127; 21; 0; 0;
   1; 39; 0; 0; 0; 6; 0; 0; 0; 0; 0; 255; 127; 21; 0; 0; 41; 41; 0; 0; 0; 32; 0; 0; 0; 16; 0; 0; 0; 21; 0; 0; 6; 2;
   0; 0; 0; 32; 0; 0; 0; 24; 0; 0; 0; 84; 0; 0; 0; 255; 247; 247; 255; 21; 0; 0; 3; 1; 0; 0; 0; 32; 0; 0; 0; 32; 0;
   0; 0; 21; 0; 0; 1; 0; 0; 0; 0; 6; 0; 0; 0; 0; 0; 255; 127; 32; 0; 0; 0; 16; 0; 0; 0; 21; 0; 0; 6; 2; 0; 0; 0; 32;
   0; 0; 0; 24; 0; 0; 0; 84; 0; 0; 0; 255; 247; 247; 255; 21; 0; 0; 3; 1; 0; 0; 0; 32; 0; 0; 0; 32; 0; 0; 0; 21; 0;
   0; 1; 6; 0; 0; 0; 6; 0; 0; 0; 0; 0; 255; 127; 32; 0; 0; 0; 16; 0; 0; 0; 21; 0; 0; 6; 10; 0; 0; 0; 32; 0; 0; 0; 24;
   0; 0; 0; 84; 0; 0; 0; 255; 247; 247; 255; 21; 0; 0; 3; 1; 0; 0; 0; 32; 0; 0; 0; 32; 0; 0; 0; 21; 0; 0; 1; 0; 0; 0;
   0; 6; 0; 0; 0; 0; 0; 255; 127; 32; 0; 0; 0; 16; 0; 0; 0; 21; 0; 0; 6; 10; 0; 0; 0; 32; 0; 0; 0; 24; 0; 0; 0; 84;
   0; 0; 0; 255; 247; 247; 255; 21; 0; 0; 3; 1; 0; 0; 0; 32; 0; 0; 0; 32; 0; 0; 0; 21; 0; 0; 1; 6; 0; 0; 0; 6; 0; 0;
   0; 0; 0; 255; 127; 32; 0; 0; 0; 16; 0; 0; 0; 21; 0; 0; 6; 1; 0; 0; 0; 32; 0; 0; 0; 24; 0; 0; 0; 84; 0; 0; 0; 255;
   247; 247; 255; 21; 0; 0; 3; 5; 0; 0; 0; 32; 0; 0; 0; 32; 0; 0; 0; 21; 0; 0; 1; 0; 0; 0; 0; 6; 0; 0; 0; 0; 0; 255;
   127; 6; 0; 0; 0; 0; 0; 0; 128; 21; 0; 0; 1; 42; 0; 0; 0; 6; 0; 0; 0; 0; 0; 255; 127; 21; 0; 0; 1; 44; 0; 0; 0; 6;
   0; 0; 0; 0; 0; 255; 127; 21; 0; 0; 1; 45; 0; 0; 0; 6; 0; 0; 0; 0; 0; 255; 127; 21; 0; 0; 1; 46; 0; 0; 0; 6; 0; 0;
   0; 0; 0; 255; 127; 21; 0; 0; 1; 47; 0; 0; 0; 6; 0; 0; 0; 0; 0; 255; 127; 21; 0; 0; 1; 48; 0; 0; 0; 6; 0; 0; 0; 0;
   0; 255; 127; 21; 0; 0; 1; 49; 0; 0; 0; 6; 0; 0; 0; 0; 0; 255; 127; 21; 0; 0; 1; 50; 0; 0; 0; 6; 0; 0; 0; 0; 0;
   255; 127; 21; 0; 0; 1; 51; 0; 0; 0; 6; 0; 0; 0; 0; 0; 255; 127; 21; 0; 0; 1; 52; 0; 0; 0; 6; 0; 0; 0; 0; 0; 255;
   127; 21; 0; 0; 1; 54; 0; 0; 0; 6; 0; 0; 0; 0; 0; 255; 127; 21; 0; 0; 1; 55; 0; 0; 0; 6; 0; 0; 0; 0; 0; 255; 127;
   21; 0; 0; 5; 56; 0; 0; 0; 32; 0; 0; 0; 16; 0; 0; 0; 84; 0; 0; 0; 0; 9; 3; 126; 21; 0; 0; 1; 0; 9; 1; 0; 6; 0; 0;
   0; 0; 0; 255; 127; 6; 0; 0; 0; 0; 0; 0; 128; 21; 0; 0; 1; 60; 0; 0; 0; 6; 0; 0; 0; 0; 0; 255; 127; 21; 0; 0; 1;
   72; 0; 0; 0; 6; 0; 0; 0; 0; 0; 255; 127; 21; 0; 0; 1; 73; 0; 0; 0; 6; 0; 0; 0; 0; 0; 255; 127; 21; 0; 0; 1; 74; 0;
   0; 0; 6; 0; 0; 0; 0; 0; 255; 127; 21; 0; 0; 1; 75; 0; 0; 0; 6; 0; 0; 0; 0; 0; 255; 127; 21; 0; 0; 1; 131; 0; 0; 0;
   6; 0; 0; 0; 0; 0; 255; 127; 21; 0; 0; 4; 157; 0; 0; 0; 32; 0; 0; 0; 16; 0; 0; 0; 21; 0; 0; 1; 15; 0; 0; 0; 6; 0;
   0; 0; 0; 0; 255; 127; 6; 0; 0; 0; 0; 0; 0; 128; 21; 0; 0; 4; 158; 0; 0; 0; 32; 0; 0; 0; 16; 0; 0; 0; 21; 0; 0; 1;
   2; 16; 0; 0; 6; 0; 0; 0; 0; 0; 255; 127; 6; 0; 0; 0; 0; 0; 0; 128; 21; 0; 0; 1; 186; 0; 0; 0; 6; 0; 0; 0; 0; 0;
   255; 127; 21; 0; 0; 1; 200; 0; 0; 0; 6; 0; 0; 0; 0; 0; 255; 127; 21; 0; 0; 1; 202; 0; 0; 0; 6; 0; 0; 0; 0; 0; 255;
   127; 21; 0; 0; 1; 204; 0; 0; 0; 6; 0; 0; 0; 0; 0; 255; 127; 21; 0; 0; 1; 218; 0; 0; 0; 6; 0; 0; 0; 0; 0; 255; 127;
   21; 0; 0; 1; 219; 0; 0; 0; 6; 0; 0; 0; 0; 0; 255; 127; 21; 0; 0; 1; 228; 0; 0; 0; 6; 0; 0; 0; 0; 0; 255; 127; 21;
   0; 0; 1; 230; 0; 0; 0; 6; 0; 0; 0; 0; 0; 255; 127; 21; 0; 0; 1; 231; 0; 0; 0; 6; 0; 0; 0; 0; 0; 255; 127; 21; 0;
   0; 1; 232; 0; 0; 0; 6; 0; 0; 0; 0; 0; 255; 127; 21; 0; 0; 1; 233; 0; 0; 0; 6; 0; 0; 0; 0; 0; 255; 127; 21; 0; 0;
   1; 234; 0; 0; 0; 6; 0; 0; 0; 0; 0; 255; 127; 21; 0; 0; 1; 1; 1; 0; 0; 6; 0; 0; 0; 0; 0; 255; 127; 21; 0; 0; 5; 11;
   1; 0; 0; 32; 0; 0; 0; 16; 0; 0; 0; 84; 0; 0; 0; 0; 0; 0; 128; 21; 0; 0; 1; 0; 0; 0; 0; 6; 0; 0; 0; 0; 0; 255; 127;
   6; 0; 0; 0; 0; 0; 0; 128; 21; 0; 0; 1; 15; 1; 0; 0; 6; 0; 0; 0; 0; 0; 255; 127; 21; 0; 0; 1; 17; 1; 0; 0; 6; 0; 0;
   0; 0; 0; 255; 127; 21; 0; 0; 1; 25; 1; 0; 0; 6; 0; 0; 0; 0; 0; 255; 127; 21; 0; 0; 1; 32; 1; 0; 0; 6; 0; 0; 0; 0;
   0; 255; 127; 21; 0; 0; 1; 35; 1; 0; 0; 6; 0; 0; 0; 0; 0; 255; 127; 21; 0; 0; 1; 46; 1; 0; 0; 6; 0; 0; 0; 0; 0;
   255; 127; 21; 0; 0; 1; 62; 1; 0; 0; 6; 0; 0; 0; 0; 0; 255; 127; 21; 0; 0; 1; 78; 1; 0; 0; 6; 0; 0; 0; 0; 0; 255;
   127; 21; 0; 0; 1; 178; 1; 0; 0; 6; 0; 0; 0; 0; 0; 255; 127; 21; 0; 0; 1; 179; 1; 0; 0; 6; 0; 0; 0; 38; 0; 5; 0; 6;
   0; 0; 0; 0; 0; 0; 128].

Definition GATE_AARCH64 : list Z :=
  [32; 0; 0; 0; 4; 0; 0; 0; 21; 0; 1; 0; 183; 0; 0; 192; 6; 0; 0; 0; 0; 0; 0; 128; 32; 0; 0; 0; 0; 0; 0; 0; 21; 0; 0;
   1; 20; 0; 0; 0; 6; 0; 0; 0; 0; 0; 255; 127; 21; 0; 0; 1; 21; 0; 0; 0; 6; 0; 0; 0; 0; 0; 255; 127; 21; 0; 0; 1; 22;
   0; 0; 0; 6; 0; 0; 0; 0; 0; 255; 127; 21; 0; 0; 1; 25; 0; 0; 0; 6; 0; 0; 0; 0; 0; 255; 127; 21; 0; 0; 1; 32; 0; 0;
   0; 6; 0; 0; 0; 0; 0; 255; 127; 21; 0; 0; 1; 56; 0; 0; 0; 6; 0; 0; 0; 0; 0; 255; 127; 21; 0; 0; 1; 57; 0; 0; 0; 6;
   0; 0; 0; 0; 0; 255; 127; 21; 0; 0; 1; 62; 0; 0; 0; 6; 0; 0; 0; 0; 0; 255; 127; 21; 0; 0; 1; 63; 0; 0; 0; 6; 0; 0;
   0; 0; 0; 255; 127; 21; 0; 0; 1; 64; 0; 0; 0; 6; 0; 0; 0; 0; 0; 255; 127; 21; 0; 0; 1; 65; 0; 0; 0; 6; 0; 0; 0; 0;
   0; 255; 127; 21; 0; 0; 1; 66; 0; 0; 0; 6; 0; 0; 0; 0; 0; 255; 127; 21; 0; 0; 1; 67; 0; 0; 0; 6; 0; 0; 0; 0; 0;
   255; 127; 21; 0; 0; 1; 68; 0; 0; 0; 6; 0; 0; 0; 0; 0; 255; 127; 21; 0; 0; 1; 73; 0; 0; 0; 6; 0; 0; 0; 0; 0; 255;
   127; 21; 0; 0; 5; 78; 0; 0; 0; 32; 0; 0; 0; 16; 0; 0; 0; 84; 0; 0; 0; 0; 0; 0; 128; 21; 0; 0; 1; 0; 0; 0; 0; 6; 0;
   0; 0; 0; 0; 255; 127; 6; 0; 0; 0; 0; 0; 0; 128; 21; 0; 0; 1; 80; 0; 0; 0; 6; 0; 0; 0; 0; 0; 255; 127; 21; 0; 0; 1;
   82; 0; 0; 0; 6; 0; 0; 0; 0; 0; 255; 127; 21; 0; 0; 1; 83; 0; 0; 0; 6; 0; 0; 0; 0; 0; 255; 127; 21; 0; 0; 1; 93; 0;
   0; 0; 6; 0; 0; 0; 0; 0; 255; 127; 21; 0; 0; 1; 94; 0; 0; 0; 6; 0; 0; 0; 0; 0; 255; 127; 21; 0; 0; 1; 96; 0; 0; 0;
   6; 0; 0; 0; 0; 0; 255; 127; 21; 0; 0; 1; 98; 0; 0; 0; 6; 0; 0; 0; 0; 0; 255; 127; 21; 0; 0; 1; 99; 0; 0; 0; 6; 0;
   0; 0; 0; 0; 255; 127; 21; 0; 0; 1; 101; 0; 0; 0; 6; 0; 0; 0; 0; 0; 255; 127; 21; 0; 0; 1; 113; 0; 0; 0; 6; 0; 0;
   0; 0; 0; 255; 127; 21; 0; 0; 1; 115; 0; 0; 0; 6; 0; 0; 0; 0; 0; 255; 127; 21; 0; 0; 1; 123; 0; 0; 0; 6; 0; 0; 0;
   0; 0; 255; 127; 21; 0; 0; 1; 124; 0; 0; 0; 6; 0; 0; 0; 0; 0; 255; 127; 21; 0; 0; 1; 128; 0; 0; 0; 6; 0; 0; 0; 0;
   0; 255; 127; 21; 0; 0; 1; 130; 0; 0; 0; 6; 0; 0; 0; 0; 0; 255; 127; 21; 0; 0; 1; 131; 0; 0; 0; 6; 0; 0; 0; 0; 0;
   255; 127; 21; 0; 0; 1; 132; 0; 0; 0; 6; 0; 0; 0; 0; 0; 255; 127; 21; 0; 0; 1; 134; 0; 0; 0; 6; 0; 0; 0; 0; 0; 255;
   127; 21; 0; 0; 1; 135; 0; 0; 0; 6; 0; 0; 0; 0; 0; 255; 127; 21; 0; 0; 1; 139; 0; 0; 0; 6; 0; 0; 0; 0; 0; 255; 127;
   21; 0; 0; 4; 167; 0; 0; 0; 32; 0; 0; 0; 16; 0; 0; 0; 21; 0; 0; 1; 15; 0; 0; 0; 6; 0; 0; 0; 0; 0; 255; 127; 6; 0;
   0; 0; 0; 0; 0; 128; 21; 0; 0; 1; 172; 0; 0; 0; 6; 0; 0; 0; 0; 0; 255; 127; 21; 0; 0; 1; 178; 0; 0; 0; 6; 0; 0; 0;
   0; 0; 255; 127; 21; 0; 0; 41; 198; 0; 0; 0; 32; 0; 0; 0; 16; 0; 0; 0; 21; 0; 0; 6; 2; 0; 0; 0; 32; 0; 0; 0; 24; 0;
   0; 0; 84; 0; 0; 0; 255; 247; 247; 255; 21; 0; 0; 3; 1; 0; 0; 0; 32; 0; 0; 0; 32; 0; 0; 0; 21; 0; 0; 1; 0; 0; 0; 0;
   6; 0; 0; 0; 0; 0; 255; 127; 32; 0; 0; 0; 16; 0; 0; 0; 21; 0; 0; 6; 2; 0; 0; 0; 32; 0; 0; 0; 24; 0; 0; 0; 84; 0; 0;
   0; 255; 247; 247; 255; 21; 0; 0; 3; 1; 0; 0; 0; 32; 0; 0; 0; 32; 0; 0; 0; 21; 0; 0; 1; 6; 0; 0; 0; 6; 0; 0; 0; 0;
   0; 255; 127; 32; 0; 0; 0; 16; 0; 0; 0; 21; 0; 0; 6; 10; 0; 0; 0; 32; 0; 0; 0; 24; 0; 0; 0; 84; 0; 0; 0; 255; 247;
   247; 255; 21; 0; 0; 3; 1; 0; 0; 0; 32; 0; 0; 0; 32; 0; 0; 0; 21; 0; 0; 1; 0; 0; 0; 0; 6; 0; 0; 0; 0; 0; 255; 127;
   32; 0; 0; 0; 16; 0; 0; 0; 21; 0; 0; 6; 10; 0; 0; 0; 32; 0; 0; 0; 24; 0; 0; 0; 84; 0; 0; 0; 255; 247; 247; 255; 21;
   0; 0; 3; 1; 0; 0; 0; 32; 0; 0; 0; 32; 0; 0; 0; 21; 0; 0; 1; 6; 0; 0; 0; 6; 0; 0; 0; 0; 0; 255; 127; 32; 0; 0; 0;
   16; 0; 0; 0; 21; 0; 0; 6; 1; 0; 0; 0; 32; 0; 0; 0; 24; 0; 0; 0; 84; 0; 0; 0; 255; 247; 247; 255; 21; 0; 0; 3; 5;
   0; 0; 0; 32; 0; 0; 0; 32; 0; 0; 0; 21; 0; 0; 1; 0; 0; 0; 0; 6; 0; 0; 0; 0; 0; 255; 127; 6; 0; 0; 0; 0; 0; 0; 128;
   21; 0; 0; 1; 200; 0; 0; 0; 6; 0; 0; 0; 0; 0; 255; 127; 21; 0; 0; 1; 201; 0; 0; 0; 6; 0; 0; 0; 0; 0; 255; 127; 21;
   0; 0; 1; 203; 0; 0; 0; 6; 0; 0; 0; 0; 0; 255; 127; 21; 0; 0; 1; 204; 0; 0; 0; 6; 0; 0; 0; 0; 0; 255; 127; 21; 0;
   0; 1; 205; 0; 0; 0; 6; 0; 0; 0; 0; 0; 255; 127; 21; 0; 0; 1; 206; 0; 0; 0; 6; 0; 0; 0; 0; 0; 255; 127; 21; 0; 0;
   1; 207; 0; 0; 0; 6; 0; 0; 0; 0; 0; 255; 127; 21; 0; 0; 1; 208; 0; 0; 0; 6; 0; 0; 0; 0; 0; 255; 127; 21; 0; 0; 1;
   209; 0; 0; 0; 6; 0; 0; 0; 0; 0; 255; 127; 21; 0; 0; 1; 210; 0; 0; 0; 6; 0; 0; 0; 0; 0; 255; 127; 21; 0; 0; 1; 211;
   0; 0; 0; 6; 0; 0; 0; 0; 0; 255; 127; 21; 0; 0; 1; 212; 0; 0; 0; 6; 0; 0; 0; 0; 0; 255; 127; 21; 0; 0; 1; 214; 0;
   0; 0; 6; 0; 0; 0; 0; 0; 255; 127; 21; 0; 0; 1; 215; 0; 0; 0; 6; 0; 0; 0; 0; 0; 255; 127; 21; 0; 0; 4; 216; 0; 0;
   0; 32; 0; 0; 0; 40; 0; 0; 0; 21; 0; 0; 1; 1; 0; 0; 0; 6; 0; 0; 0; 0; 0; 255; 127; 6; 0; 0; 0; 0; 0; 0; 128; 21; 0;
   0; 5; 220; 0; 0; 0; 32; 0; 0; 0; 16; 0; 0; 0; 84; 0; 0; 0; 0; 9; 3; 126; 21; 0; 0; 1; 0; 9; 1; 0; 6; 0; 0; 0; 0;
   0; 255; 127; 6; 0; 0; 0; 0; 0; 0; 128; 21; 0; 0; 1; 222; 0; 0; 0; 6; 0; 0; 0; 0; 0; 255; 127; 21; 0; 0; 1; 226; 0;
   0; 0; 6; 0; 0; 0; 0; 0; 255; 127; 21; 0; 0; 1; 233; 0; 0; 0; 6; 0; 0; 0; 0; 0; 255; 127; 21; 0; 0; 1; 242; 0; 0;
   0; 6; 0; 0; 0; 0; 0; 255; 127; 21; 0; 0; 1; 5; 1; 0; 0; 6; 0; 0; 0; 0; 0; 255; 127; 21; 0; 0; 1; 22; 1; 0; 0; 6;
   0; 0; 0; 0; 0; 255; 127; 21; 0; 0; 1; 37; 1; 0; 0; 6; 0; 0; 0; 0; 0; 255; 127; 21; 0; 0; 1; 178; 1; 0; 0; 6; 0; 0;
   0; 0; 0; 255; 127; 21; 0; 0; 1; 179; 1; 0; 0; 6; 0; 0; 0; 38; 0; 5; 0; 6; 0; 0; 0; 0; 0; 0; 128].

Definition OBSERVER_X86_64 : list Z :=
  [32; 0; 0; 0; 4; 0; 0; 0; 21; 0; 1; 0; 62; 0; 0; 192; 6; 0; 0; 0; 0; 0; 0; 128; 32; 0; 0; 0; 0; 0; 0; 0; 53; 0; 0;
   1; 0; 0; 0; 64; 6; 0; 0; 0; 0; 0; 0; 128; 21; 0; 0; 1; 0; 0; 0; 0; 6; 0; 0; 0; 0; 0; 255; 127; 21; 0; 0; 1; 1; 0;
   0; 0; 6; 0; 0; 0; 0; 0; 255; 127; 21; 0; 0; 1; 3; 0; 0; 0; 6; 0; 0; 0; 0; 0; 255; 127; 21; 0; 0; 1; 5; 0; 0; 0; 6;
   0; 0; 0; 0; 0; 255; 127; 21; 0; 0; 1; 7; 0; 0; 0; 6; 0; 0; 0; 0; 0; 255; 127; 21; 0; 0; 1; 8; 0; 0; 0; 6; 0; 0; 0;
   0; 0; 255; 127; 21; 0; 0; 1; 9; 0; 0; 0; 6; 0; 0; 0; 0; 0; 255; 127; 21; 0; 0; 1; 10; 0; 0; 0; 6; 0; 0; 0; 0; 0;
   255; 127; 21; 0; 0; 1; 11; 0; 0; 0; 6; 0; 0; 0; 0; 0; 255; 127; 21; 0; 0; 1; 12; 0; 0; 0; 6; 0; 0; 0; 0; 0; 255;
   127; 21; 0; 0; 1; 13; 0; 0; 0; 6; 0; 0; 0; 0; 0; 255; 127; 21; 0; 0; 1; 14; 0; 0; 0; 6; 0; 0; 0; 0; 0; 255; 127;
   21; 0; 0; 1; 15; 0; 0; 0; 6; 0; 0; 0; 0; 0; 255; 127; 21; 0; 0; 4; 16; 0; 0; 0; 32; 0; 0; 0; 24; 0; 0; 0; 21; 0;
   0; 1; 134; 102; 4; 192; 6; 0; 0; 0; 0; 0; 255; 127; 6; 0; 0; 0; 0; 0; 0; 128; 21; 0; 0; 1; 17; 0; 0; 0; 6; 0; 0;
   0; 0; 0; 255; 127; 21; 0; 0; 1; 19; 0; 0; 0; 6; 0; 0; 0; 0; 0; 255; 127; 21; 0; 0; 1; 20; 0; 0; 0; 6; 0; 0; 0; 0;
   0; 255; 127; 21; 0; 0; 1; 24; 0; 0; 0; 6; 0; 0; 0; 0; 0; 255; 127; 21; 0; 0; 4; 25; 0; 0; 0; 32; 0; 0; 0; 40; 0;
   0; 0; 21; 0; 0; 1; 1; 0; 0; 0; 6; 0; 0; 0; 0; 0; 255; 127; 6; 0; 0; 0; 0; 0; 0; 128; 21; 0; 0; 1; 28; 0; 0; 0; 6;
   0; 0; 0; 0; 0; 255; 127; 21; 0; 0; 1; 35; 0; 0; 0; 6; 0; 0; 0; 0; 0; 255; 127; 21; 0; 0; 1; 39; 0; 0; 0; 6; 0; 0;
   0; 0; 0; 255; 127; 21; 0; 0; 41; 41; 0; 0; 0; 32; 0; 0; 0; 16; 0; 0; 0; 21; 0; 0; 6; 2; 0; 0; 0; 32; 0; 0; 0; 24;
   0; 0; 0; 84; 0; 0; 0; 255; 247; 247; 255; 21; 0; 0; 3; 1; 0; 0; 0; 32; 0; 0; 0; 32; 0; 0; 0; 21; 0; 0; 1; 0; 0; 0;
   0; 6; 0; 0; 0; 0; 0; 255; 127; 32; 0; 0; 0; 16; 0; 0; 0; 21; 0; 0; 6; 2; 0; 0; 0; 32; 0; 0; 0; 24; 0; 0; 0; 84; 0;
   0; 0; 255; 247; 247; 255; 21; 0; 0; 3; 1; 0; 0; 0; 32; 0; 0; 0; 32; 0; 0; 0; 21; 0; 0; 1; 6; 0; 0; 0; 6; 0; 0; 0;
   0; 0; 255; 127; 32; 0; 0; 0; 16; 0; 0; 0; 21; 0; 0; 6; 10; 0; 0; 0; 32; 0; 0; 0; 24; 0; 0; 0; 84; 0; 0; 0; 255;
   247; 247; 255; 21; 0; 0; 3; 1; 0; 0; 0; 32; 0; 0; 0; 32; 0; 0; 0; 21; 0; 0; 1; 0; 0; 0; 0; 6; 0; 0; 0; 0; 0; 255;
   127; 32; 0; 0; 0; 16; 0; 0; 0; 21; 0; 0; 6; 10; 0; 0; 0; 32; 0; 0; 0; 24; 0; 0; 0; 84; 0; 0; 0; 255; 247; 247;
   255; 21; 0; 0; 3; 1; 0; 0; 0; 32; 0; 0; 0; 32; 0; 0; 0; 21; 0; 0; 1; 6; 0; 0; 0; 6; 0; 0; 0; 0; 0; 255; 127; 32;
   0; 0; 0; 16; 0; 0; 0; 21; 0; 0; 6; 1; 0; 0; 0; 32; 0; 0; 0; 24; 0; 0; 0; 84; 0; 0; 0; 255; 247; 247; 255; 21; 0;
   0; 3; 5; 0; 0; 0; 32; 0; 0; 0; 32; 0; 0; 0; 21; 0; 0; 1; 0; 0; 0; 0; 6; 0; 0; 0; 0; 0; 255; 127; 6; 0; 0; 0; 0; 0;
   0; 128; 21; 0; 0; 1; 42; 0; 0; 0; 6; 0; 0; 0; 0; 0; 255; 127; 21; 0; 0; 1; 44; 0; 0; 0; 6; 0; 0; 0; 0; 0; 255;
   127; 21; 0; 0; 1; 45; 0; 0; 0; 6; 0; 0; 0; 0; 0; 255; 127; 21; 0; 0; 1; 46; 0; 0; 0; 6; 0; 0; 0; 0; 0; 255; 127;
   21; 0; 0; 1; 47; 0; 0; 0; 6; 0; 0; 0; 0; 0; 255; 127; 21; 0; 0; 1; 48; 0; 0; 0; 6; 0; 0; 0; 0; 0; 255; 127; 21; 0;
   0; 1; 49; 0; 0; 0; 6; 0; 0; 0; 0; 0; 255; 127; 21; 0; 0; 1; 50; 0; 0; 0; 6; 0; 0; 0; 0; 0; 255; 127; 21; 0; 0; 1;
   51; 0; 0; 0; 6; 0; 0; 0; 0; 0; 255; 127; 21; 0; 0; 1; 52; 0; 0; 0; 6; 0; 0; 0; 0; 0; 255; 127; 21; 0; 0; 1; 54; 0;
   0; 0; 6; 0; 0; 0; 0; 0; 255; 127; 21; 0; 0; 1; 55; 0; 0; 0; 6; 0; 0; 0; 0; 0; 255; 127; 21; 0; 0; 5; 56; 0; 0; 0;
   32; 0; 0; 0; 16; 0; 0; 0; 84; 0; 0; 0; 0; 9; 3; 126; 21; 0; 0; 1; 0; 9; 1; 0; 6; 0; 0; 0; 0; 0; 255; 127; 6; 0; 0;
   0; 0; 0; 0; 128; 21; 0; 0; 1; 60; 0; 0; 0; 6; 0; 0; 0; 0; 0; 255; 127; 21; 0; 0; 1; 72; 0; 0; 0; 6; 0; 0; 0; 0; 0;
   255; 127; 21; 0; 0; 1; 131; 0; 0; 0; 6; 0; 0; 0; 0; 0; 255; 127; 21; 0; 0; 1; 138; 0; 0; 0; 6; 0; 0; 0; 0; 0; 255;
   127; 21; 0; 0; 4; 157; 0; 0; 0; 32; 0; 0; 0; 16; 0; 0; 0; 21; 0; 0; 1; 15; 0; 0; 0; 6; 0; 0; 0; 0; 0; 255; 127; 6;
   0; 0; 0; 0; 0; 0; 128; 21; 0; 0; 4; 158; 0; 0; 0; 32; 0; 0; 0; 16; 0; 0; 0; 21; 0; 0; 1; 2; 16; 0; 0; 6; 0; 0; 0;
   0; 0; 255; 127; 6; 0; 0; 0; 0; 0; 0; 128; 21; 0; 0; 1; 186; 0; 0; 0; 6; 0; 0; 0; 0; 0; 255; 127; 21; 0; 0; 1; 200;
   0; 0; 0; 6; 0; 0; 0; 0; 0; 255; 127; 21; 0; 0; 1; 202; 0; 0; 0; 6; 0; 0; 0; 0; 0; 255; 127; 21; 0; 0; 1; 204; 0;
   0; 0; 6; 0; 0; 0; 0; 0; 255; 127; 21; 0; 0; 1; 217; 0; 0; 0; 6; 0; 0; 0; 0; 0; 255; 127; 21; 0; 0; 1; 218; 0; 0;
   0; 6; 0; 0; 0; 0; 0; 255; 127; 21; 0; 0; 1; 219; 0; 0; 0; 6; 0; 0; 0; 0; 0; 255; 127; 21; 0; 0; 1; 228; 0; 0; 0;
   6; 0; 0; 0; 0; 0; 255; 127; 21; 0; 0; 1; 230; 0; 0; 0; 6; 0; 0; 0; 0; 0; 255; 127; 21; 0; 0; 1; 231; 0; 0; 0; 6;
   0; 0; 0; 0; 0; 255; 127; 21; 0; 0; 1; 232; 0; 0; 0; 6; 0; 0; 0; 0; 0; 255; 127; 21; 0; 0; 1; 233; 0; 0; 0; 6; 0;
   0; 0; 0; 0; 255; 127; 21; 0; 0; 1; 234; 0; 0; 0; 6; 0; 0; 0; 0; 0; 255; 127; 21; 0; 0; 5; 1; 1; 0; 0; 32; 0; 0; 0;
   32; 0; 0; 0; 84; 0; 0; 0; 67; 6; 64; 0; 21; 0; 0; 1; 0; 0; 0; 0; 6; 0; 0; 0; 0; 0; 255; 127; 6; 0; 0; 0; 0; 0; 0;
   128; 21; 0; 0; 1; 6; 1; 0; 0; 6; 0; 0; 0; 0; 0; 255; 127; 21; 0; 0; 1; 11; 1; 0; 0; 6; 0; 0; 0; 0; 0; 255; 127;
   21; 0; 0; 1; 15; 1; 0; 0; 6; 0; 0; 0; 0; 0; 255; 127; 21; 0; 0; 1; 17; 1; 0; 0; 6; 0; 0; 0; 0; 0; 255; 127; 21; 0;
   0; 1; 25; 1; 0; 0; 6; 0; 0; 0; 0; 0; 255; 127; 21; 0; 0; 10; 32; 1; 0; 0; 32; 0; 0; 0; 40; 0; 0; 0; 21; 0; 0; 1;
   0; 0; 0; 0; 6; 0; 0; 0; 0; 0; 255; 127; 32; 0; 0; 0; 40; 0; 0; 0; 21; 0; 0; 1; 0; 0; 8; 0; 6; 0; 0; 0; 0; 0; 255;
   127; 32; 0; 0; 0; 40; 0; 0; 0; 21; 0; 0; 1; 0; 8; 8; 0; 6; 0; 0; 0; 0; 0; 255; 127; 6; 0; 0; 0; 0; 0; 0; 128; 21;
   0; 0; 1; 35; 1; 0; 0; 6; 0; 0; 0; 0; 0; 255; 127; 21; 0; 0; 1; 46; 1; 0; 0; 6; 0; 0; 0; 0; 0; 255; 127; 21; 0; 0;
   1; 62; 1; 0; 0; 6; 0; 0; 0; 0; 0; 255; 127; 21; 0; 0; 4; 63; 1; 0; 0; 32; 0; 0; 0; 24; 0; 0; 0; 21; 0; 0; 1; 9; 0;
   0; 0; 6; 0; 0; 0; 0; 0; 255; 127; 6; 0; 0; 0; 0; 0; 0; 128; 21; 0; 0; 10; 65; 1; 0; 0; 32; 0; 0; 0; 16; 0; 0; 0;
   21; 0; 0; 1; 7; 0; 0; 0; 6; 0; 0; 0; 0; 0; 255; 127; 32; 0; 0; 0; 16; 0; 0; 0; 21; 0; 0; 1; 15; 0; 0; 0; 6; 0; 0;
   0; 0; 0; 255; 127; 32; 0; 0; 0; 16; 0; 0; 0; 21; 0; 0; 1; 16; 0; 0; 0; 6; 0; 0; 0; 0; 0; 255; 127; 6; 0; 0; 0; 0;
   0; 0; 128; 21; 0; 0; 22; 68; 1; 0; 0; 32; 0; 0; 0; 16; 0; 0; 0; 21; 0; 0; 5; 0; 0; 0; 0; 32; 0; 0; 0; 24; 0; 0; 0;
   21; 0; 0; 3; 0; 0; 0; 0; 32; 0; 0; 0; 32; 0; 0; 0; 21; 0; 0; 1; 0; 0; 0; 0; 6; 0; 0; 0; 0; 0; 255; 127; 32; 0; 0;
   0; 16; 0; 0; 0; 21; 0; 0; 5; 8; 0; 0; 0; 32; 0; 0; 0; 24; 0; 0; 0; 21; 0; 0; 3; 0; 0; 0; 0; 32; 0; 0; 0; 32; 0; 0;
   0; 21; 0; 0; 1; 0; 0; 0; 0; 6; 0; 0; 0; 0; 0; 255; 127; 32; 0; 0; 0; 16; 0; 0; 0; 21; 0; 0; 5; 16; 0; 0; 0; 32; 0;
   0; 0; 24; 0; 0; 0; 21; 0; 0; 3; 0; 0; 0; 0; 32; 0; 0; 0; 32; 0; 0; 0; 21; 0; 0; 1; 0; 0; 0; 0; 6; 0; 0; 0; 0; 0;
   255; 127; 6; 0; 0; 0; 0; 0; 0; 128; 21; 0; 0; 1; 76; 1; 0; 0; 6; 0; 0; 0; 0; 0; 255; 127; 21; 0; 0; 1; 78; 1; 0;
   0; 6; 0; 0; 0; 0; 0; 255; 127; 21; 0; 0; 1; 178; 1; 0; 0; 6; 0; 0; 0; 0; 0; 255; 127; 21; 0; 0; 1; 179; 1; 0; 0;
   6; 0; 0; 0; 38; 0; 5; 0; 6; 0; 0; 0; 0; 0; 0; 128].

Definition OBSERVER_AARCH64 : list Z :=
  [32; 0; 0; 0; 4; 0; 0; 0; 21; 0; 1; 0; 183; 0; 0; 192; 6; 0; 0; 0; 0; 0; 0; 128; 32; 0; 0; 0; 0; 0; 0; 0; 21; 0; 0;
   1; 20; 0; 0; 0; 6; 0; 0; 0; 0; 0; 255; 127; 21; 0; 0; 1; 21; 0; 0; 0; 6; 0; 0; 0; 0; 0; 255; 127; 21; 0; 0; 1; 22;
   0; 0; 0; 6; 0; 0; 0; 0; 0; 255; 127; 21; 0; 0; 1; 25; 0; 0; 0; 6; 0; 0; 0; 0; 0; 255; 127; 21; 0; 0; 4; 29; 0; 0;
   0; 32; 0; 0; 0; 24; 0; 0; 0; 21; 0; 0; 1; 134; 102; 4; 192; 6; 0; 0; 0; 0; 0; 255; 127; 6; 0; 0; 0; 0; 0; 0; 128;
   21; 0; 0; 1; 44; 0; 0; 0; 6; 0; 0; 0; 0; 0; 255; 127; 21; 0; 0; 5; 56; 0; 0; 0; 32; 0; 0; 0; 32; 0; 0; 0; 84; 0;
   0; 0; 67; 6; 64; 0; 21; 0; 0; 1; 0; 0; 0; 0; 6; 0; 0; 0; 0; 0; 255; 127; 6; 0; 0; 0; 0; 0; 0; 128; 21; 0; 0; 1;
   57; 0; 0; 0; 6; 0; 0; 0; 0; 0; 255; 127; 21; 0; 0; 1; 61; 0; 0; 0; 6; 0; 0; 0; 0; 0; 255; 127; 21; 0; 0; 1; 62; 0;
   0; 0; 6; 0; 0; 0; 0; 0; 255; 127; 21; 0; 0; 1; 63; 0; 0; 0; 6; 0; 0; 0; 0; 0; 255; 127; 21; 0; 0; 1; 64; 0; 0; 0;
   6; 0; 0; 0; 0; 0; 255; 127; 21; 0; 0; 1; 65; 0; 0; 0; 6; 0; 0; 0; 0; 0; 255; 127; 21; 0; 0; 1; 66; 0; 0; 0; 6; 0;
   0; 0; 0; 0; 255; 127; 21; 0; 0; 1; 67; 0; 0; 0; 6; 0; 0; 0; 0; 0; 255; 127; 21; 0; 0; 1; 73; 0; 0; 0; 6; 0; 0; 0;
   0; 0; 255; 127; 21; 0; 0; 1; 78; 0; 0; 0; 6; 0; 0; 0; 0; 0; 255; 127; 21; 0; 0; 1; 79; 0; 0; 0; 6; 0; 0; 0; 0; 0;
   255; 127; 21; 0; 0; 1; 80; 0; 0; 0; 6; 0; 0; 0; 0; 0; 255; 127; 21; 0; 0; 1; 93; 0; 0; 0; 6; 0; 0; 0; 0; 0; 255;
   127; 21; 0; 0; 1; 94; 0; 0; 0; 6; 0; 0; 0; 0; 0; 255; 127; 21; 0; 0; 1; 96; 0; 0; 0; 6; 0; 0; 0; 0; 0; 255; 127;
   21; 0; 0; 1; 98; 0; 0; 0; 6; 0; 0; 0; 0; 0; 255; 127; 21; 0; 0; 1; 99; 0; 0; 0; 6; 0; 0; 0; 0; 0; 255; 127; 21; 0;
   0; 1; 101; 0; 0; 0; 6; 0; 0; 0; 0; 0; 255; 127; 21; 0; 0; 1; 113; 0; 0; 0; 6; 0; 0; 0; 0; 0; 255; 127; 21; 0; 0;
   1; 115; 0; 0; 0; 6; 0; 0; 0; 0; 0; 255; 127; 21; 0; 0; 1; 123; 0; 0; 0; 6; 0; 0; 0; 0; 0; 255; 127; 21; 0; 0; 1;
   124; 0; 0; 0; 6; 0; 0; 0; 0; 0; 255; 127; 21; 0; 0; 1; 128; 0; 0; 0; 6; 0; 0; 0; 0; 0; 255; 127; 21; 0; 0; 1; 130;
   0; 0; 0; 6; 0; 0; 0; 0; 0; 255; 127; 21; 0; 0; 1; 131; 0; 0; 0; 6; 0; 0; 0; 0; 0; 255; 127; 21; 0; 0; 1; 132; 0;
   0; 0; 6; 0; 0; 0; 0; 0; 255; 127; 21; 0; 0; 1; 134; 0; 0; 0; 6; 0; 0; 0; 0; 0; 255; 127; 21; 0; 0; 1; 135; 0; 0;
   0; 6; 0; 0; 0; 0; 0; 255; 127; 21; 0; 0; 1; 139; 0; 0; 0; 6; 0; 0; 0; 0; 0; 255; 127; 21; 0; 0; 4; 167; 0; 0; 0;
   32; 0; 0; 0; 16; 0; 0; 0; 21; 0; 0; 1; 15; 0; 0; 0; 6; 0; 0; 0; 0; 0; 255; 127; 6; 0; 0; 0; 0; 0; 0; 128; 21; 0;
   0; 1; 172; 0; 0; 0; 6; 0; 0; 0; 0; 0; 255; 127; 21; 0; 0; 1; 178; 0; 0; 0; 6; 0; 0; 0; 0; 0; 255; 127; 21; 0; 0;
   41; 198; 0; 0; 0; 32; 0; 0; 0; 16; 0; 0; 0; 21; 0; 0; 6; 2; 0; 0; 0; 32; 0; 0; 0; 24; 0; 0; 0; 84; 0; 0; 0; 255;
   247; 247; 255; 21; 0; 0; 3; 1; 0; 0; 0; 32; 0; 0; 0; 32; 0; 0; 0; 21; 0; 0; 1; 0; 0; 0; 0; 6; 0; 0; 0; 0; 0; 255;
   127; 32; 0; 0; 0; 16; 0; 0; 0; 21; 0; 0; 6; 2; 0; 0; 0; 32; 0; 0; 0; 24; 0; 0; 0; 84; 0; 0; 0; 255; 247; 247; 255;
   21; 0; 0; 3; 1; 0; 0; 0; 32; 0; 0; 0; 32; 0; 0; 0; 21; 0; 0; 1; 6; 0; 0; 0; 6; 0; 0; 0; 0; 0; 255; 127; 32; 0; 0;
   0; 16; 0; 0; 0; 21; 0; 0; 6; 10; 0; 0; 0; 32; 0; 0; 0; 24; 0; 0; 0; 84; 0; 0; 0; 255; 247; 247; 255; 21; 0; 0; 3;
   1; 0; 0; 0; 32; 0; 0; 0; 32; 0; 0; 0; 21; 0; 0; 1; 0; 0; 0; 0; 6; 0; 0; 0; 0; 0; 255; 127; 32; 0; 0; 0; 16; 0; 0;
   0; 21; 0; 0; 6; 10; 0; 0; 0; 32; 0; 0; 0; 24; 0; 0; 0; 84; 0; 0; 0; 255; 247; 247; 255; 21; 0; 0; 3; 1; 0; 0; 0;
   32; 0; 0; 0; 32; 0; 0; 0; 21; 0; 0; 1; 6; 0; 0; 0; 6; 0; 0; 0; 0; 0; 255; 127; 32; 0; 0; 0; 16; 0; 0; 0; 21; 0; 0;
   6; 1; 0; 0; 0; 32; 0; 0; 0; 24; 0; 0; 0; 84; 0; 0; 0; 255; 247; 247; 255; 21; 0; 0; 3; 5; 0; 0; 0; 32; 0; 0; 0;
   32; 0; 0; 0; 21; 0; 0; 1; 0; 0; 0; 0; 6; 0; 0; 0; 0; 0; 255; 127; 6; 0; 0; 0; 0; 0; 0; 128; 21; 0; 0; 1; 200; 0;
   0; 0; 6; 0; 0; 0; 0; 0; 255; 127; 21; 0; 0; 1; 201; 0; 0; 0; 6; 0; 0; 0; 0; 0; 255; 127; 21; 0; 0; 1; 203; 0; 0;
   0; 6; 0; 0; 0; 0; 0; 255; 127; 21; 0; 0; 1; 204; 0; 0; 0; 6; 0; 0; 0; 0; 0; 255; 127; 21; 0; 0; 1; 205; 0; 0; 0;
   6; 0; 0; 0; 0; 0; 255; 127; 21; 0; 0; 1; 206; 0; 0; 0; 6; 0; 0; 0; 0; 0; 255; 127; 21; 0; 0; 1; 207; 0; 0; 0; 6;
   0; 0; 0; 0; 0; 255; 127; 21; 0; 0; 1; 208; 0; 0; 0; 6; 0; 0; 0; 0; 0; 255; 127; 21; 0; 0; 1; 209; 0; 0; 0; 6; 0;
   0; 0; 0; 0; 255; 127; 21; 0; 0; 1; 210; 0; 0; 0; 6; 0; 0; 0; 0; 0; 255; 127; 21; 0; 0; 1; 211; 0; 0; 0; 6; 0; 0;
   0; 0; 0; 255; 127; 21; 0; 0; 1; 212; 0; 0; 0; 6; 0; 0; 0; 0; 0; 255; 127; 21; 0; 0; 1; 214; 0; 0; 0; 6; 0; 0; 0;
   0; 0; 255; 127; 21; 0; 0; 1; 215; 0; 0; 0; 6; 0; 0; 0; 0; 0; 255; 127; 21; 0; 0; 4; 216; 0; 0; 0; 32; 0; 0; 0; 40;
   0; 0; 0; 21; 0; 0; 1; 1; 0; 0; 0; 6; 0; 0; 0; 0; 0; 255; 127; 6; 0; 0; 0; 0; 0; 0; 128; 21; 0; 0; 5; 220; 0; 0; 0;
   32; 0; 0; 0; 16; 0; 0; 0; 84; 0; 0; 0; 0; 9; 3; 126; 21; 0; 0; 1; 0; 9; 1; 0; 6; 0; 0; 0; 0; 0; 255; 127; 6; 0; 0;
   0; 0; 0; 0; 128; 21; 0; 0; 1; 222; 0; 0; 0; 6; 0; 0; 0; 0; 0; 255; 127; 21; 0; 0; 1; 226; 0; 0; 0; 6; 0; 0; 0; 0;
   0; 255; 127; 21; 0; 0; 1; 233; 0; 0; 0; 6; 0; 0; 0; 0; 0; 255; 127; 21; 0; 0; 10; 242; 0; 0; 0; 32; 0; 0; 0; 40;
   0; 0; 0; 21; 0; 0; 1; 0; 0; 0; 0; 6; 0; 0; 0; 0; 0; 255; 127; 32; 0; 0; 0; 40; 0; 0; 0; 21; 0; 0; 1; 0; 0; 8; 0;
   6; 0; 0; 0; 0; 0; 255; 127; 32; 0; 0; 0; 40; 0; 0; 0; 21; 0; 0; 1; 0; 8; 8; 0; 6; 0; 0; 0; 0; 0; 255; 127; 6; 0;
   0; 0; 0; 0; 0; 128; 21; 0; 0; 1; 5; 1; 0; 0; 6; 0; 0; 0; 0; 0; 255; 127; 21; 0; 0; 1; 22; 1; 0; 0; 6; 0; 0; 0; 0;
   0; 255; 127; 21; 0; 0; 4; 23; 1; 0; 0; 32; 0; 0; 0; 24; 0; 0; 0; 21; 0; 0; 1; 9; 0; 0; 0; 6; 0; 0; 0; 0; 0; 255;
   127; 6; 0; 0; 0; 0; 0; 0; 128; 21; 0; 0; 10; 24; 1; 0; 0; 32; 0; 0; 0; 16; 0; 0; 0; 21; 0; 0; 1; 7; 0; 0; 0; 6; 0;
   0; 0; 0; 0; 255; 127; 32; 0; 0; 0; 16; 0; 0; 0; 21; 0; 0; 1; 15; 0; 0; 0; 6; 0; 0; 0; 0; 0; 255; 127; 32; 0; 0; 0;
   16; 0; 0; 0; 21; 0; 0; 1; 16; 0; 0; 0; 6; 0; 0; 0; 0; 0; 255; 127; 6; 0; 0; 0; 0; 0; 0; 128; 21; 0; 0; 22; 27; 1;
   0; 0; 32; 0; 0; 0; 16; 0; 0; 0; 21; 0; 0; 5; 0; 0; 0; 0; 32; 0; 0; 0; 24; 0; 0; 0; 21; 0; 0; 3; 0; 0; 0; 0; 32; 0;
   0; 0; 32; 0; 0; 0; 21; 0; 0; 1; 0; 0; 0; 0; 6; 0; 0; 0; 0; 0; 255; 127; 32; 0; 0; 0; 16; 0; 0; 0; 21; 0; 0; 5; 8;
   0; 0; 0; 32; 0; 0; 0; 24; 0; 0; 0; 21; 0; 0; 3; 0; 0; 0; 0; 32; 0; 0; 0; 32; 0; 0; 0; 21; 0; 0; 1; 0; 0; 0; 0; 6;
   0; 0; 0; 0; 0; 255; 127; 32; 0; 0; 0; 16; 0; 0; 0; 21; 0; 0; 5; 16; 0; 0; 0; 32; 0; 0; 0; 24; 0; 0; 0; 21; 0; 0;
   3; 0; 0; 0; 0; 32; 0; 0; 0; 32; 0; 0; 0; 21; 0; 0; 1; 0; 0; 0; 0; 6; 0; 0; 0; 0; 0; 255; 127; 6; 0; 0; 0; 0; 0; 0;
   128; 21; 0; 0; 1; 35; 1; 0; 0; 6; 0; 0; 0; 0; 0; 255; 127; 21; 0; 0; 1; 37; 1; 0; 0; 6; 0; 0; 0; 0; 0; 255; 127;
   21; 0; 0; 1; 178; 1; 0; 0; 6; 0; 0; 0; 0; 0; 255; 127; 21; 0; 0; 1; 179; 1; 0; 0; 6; 0; 0; 0; 38; 0; 5; 0; 6; 0;
   0; 0; 0; 0; 0; 128].

Definition BROKER_X86_64 : list Z :=
  [32; 0; 0; 0; 4; 0; 0; 0; 21; 0; 1; 0; 62; 0; 0; 192; 6; 0; 0; 0; 0; 0; 0; 128; 32; 0; 0; 0; 0; 0; 0; 0; 53; 0; 0;
   1; 0; 0; 0; 64; 6; 0; 0; 0; 0; 0; 0; 128; 21; 0; 0; 1; 0; 0; 0; 0; 6; 0; 0; 0; 0; 0; 255; 127; 21; 0; 0; 1; 1; 0;
   0; 0; 6; 0; 0; 0; 0; 0; 255; 127; 21; 0; 0; 1; 3; 0; 0; 0; 6; 0; 0; 0; 0; 0; 255; 127; 21; 0; 0; 1; 5; 0; 0; 0; 6;
   0; 0; 0; 0; 0; 255; 127; 21; 0; 0; 1; 7; 0; 0; 0; 6; 0; 0; 0; 0; 0; 255; 127; 21; 0; 0; 1; 8; 0; 0; 0; 6; 0; 0; 0;
   0; 0; 255; 127; 21; 0; 0; 1; 9; 0; 0; 0; 6; 0; 0; 0; 0; 0; 255; 127; 21; 0; 0; 1; 10; 0; 0; 0; 6; 0; 0; 0; 0; 0;
   255; 127; 21; 0; 0; 1; 11; 0; 0; 0; 6; 0; 0; 0; 0; 0; 255; 127; 21; 0; 0; 1; 12; 0; 0; 0; 6; 0; 0; 0; 0; 0; 255;
   127; 21; 0; 0; 1; 13; 0; 0; 0; 6; 0; 0; 0; 0; 0; 255; 127; 21; 0; 0; 1; 14; 0; 0; 0; 6; 0; 0; 0; 0; 0; 255; 127;
   21; 0; 0; 1; 15; 0; 0; 0; 6; 0; 0; 0; 0; 0; 255; 127; 21; 0; 0; 16; 16; 0; 0; 0; 32; 0; 0; 0; 24; 0; 0; 0; 21; 0;
   0; 1; 134; 102; 4; 192; 6; 0; 0; 0; 0; 0; 255; 127; 32; 0; 0; 0; 24; 0; 0; 0; 21; 0; 0; 1; 1; 84; 0; 0; 6; 0; 0;
   0; 0; 0; 255; 127; 32; 0; 0; 0; 24; 0; 0; 0; 21; 0; 0; 1; 33; 84; 0; 0; 6; 0; 0; 0; 0; 0; 255; 127; 32; 0; 0; 0;
   24; 0; 0; 0; 21; 0; 0; 1; 80; 84; 0; 0; 6; 0; 0; 0; 0; 0; 255; 127; 32; 0; 0; 0; 24; 0; 0; 0; 21; 0; 0; 1; 81; 84;
   0; 0; 6; 0; 0; 0; 0; 0; 255; 127; 6; 0; 0; 0; 0; 0; 0; 128; 21; 0; 0; 1; 17; 0; 0; 0; 6; 0; 0; 0; 0; 0; 255; 127;
   21; 0; 0; 1; 19; 0; 0; 0; 6; 0; 0; 0; 0; 0; 255; 127; 21; 0; 0; 1; 20; 0; 0; 0; 6; 0; 0; 0; 0; 0; 255; 127; 21; 0;
   0; 1; 21; 0; 0; 0; 6; 0; 0; 0; 0; 0; 255; 127; 21; 0; 0; 1; 24; 0; 0; 0; 6; 0; 0; 0; 0; 0; 255; 127; 21; 0; 0; 1;
   25; 0; 0; 0; 6; 0; 0; 0; 0; 0; 255; 127; 21; 0; 0; 1; 28; 0; 0; 0; 6; 0; 0; 0; 0; 0; 255; 127; 21; 0; 0; 1; 32; 0;
   0; 0; 6; 0; 0; 0; 0; 0; 255; 127; 21; 0; 0; 1; 35; 0; 0; 0; 6; 0; 0; 0; 0; 0; 255; 127; 21; 0; 0; 1; 39; 0; 0; 0;
   6; 0; 0; 0; 0; 0; 255; 127; 21; 0; 0; 41; 41; 0; 0; 0; 32; 0; 0; 0; 16; 0; 0; 0; 21; 0; 0; 6; 2; 0; 0; 0; 32; 0;
   0; 0; 24; 0; 0; 0; 84; 0; 0; 0; 255; 247; 247; 255; 21; 0; 0; 3; 1; 0; 0; 0; 32; 0; 0; 0; 32; 0; 0; 0; 21; 0; 0;
   1; 0; 0; 0; 0; 6; 0; 0; 0; 0; 0; 255; 127; 32; 0; 0; 0; 16; 0; 0; 0; 21; 0; 0; 6; 2; 0; 0; 0; 32; 0; 0; 0; 24; 0;
   0; 0; 84; 0; 0; 0; 255; 247; 247; 255; 21; 0; 0; 3; 1; 0; 0; 0; 32; 0; 0; 0; 32; 0; 0; 0; 21; 0; 0; 1; 6; 0; 0; 0;
   6; 0; 0; 0; 0; 0; 255; 127; 32; 0; 0; 0; 16; 0; 0; 0; 21; 0; 0; 6; 10; 0; 0; 0; 32; 0; 0; 0; 24; 0; 0; 0; 84; 0;
   0; 0; 255; 247; 247; 255; 21; 0; 0; 3; 1; 0; 0; 0; 32; 0; 0; 0; 32; 0; 0; 0; 21; 0; 0; 1; 0; 0; 0; 0; 6; 0; 0; 0;
   0; 0; 255; 127; 32; 0; 0; 0; 16; 0; 0; 0; 21; 0; 0; 6; 10; 0; 0; 0; 32; 0; 0; 0; 24; 0; 0; 0; 84; 0; 0; 0; 255;
   247; 247; 255; 21; 0; 0; 3; 1; 0; 0; 0; 32; 0; 0; 0; 32; 0; 0; 0; 21; 0; 0; 1; 6; 0; 0; 0; 6; 0; 0; 0; 0; 0; 255;
   127; 32; 0; 0; 0; 16; 0; 0; 0; 21; 0; 0; 6; 1; 0; 0; 0; 32; 0; 0; 0; 24; 0; 0; 0; 84; 0; 0; 0; 255; 247; 247; 255;
   21; 0; 0; 3; 5; 0; 0; 0; 32; 0; 0; 0; 32; 0; 0; 0; 21; 0; 0; 1; 0; 0; 0; 0; 6; 0; 0; 0; 0; 0; 255; 127; 6; 0; 0;
   0; 0; 0; 0; 128; 21; 0; 0; 1; 42; 0; 0; 0; 6; 0; 0; 0; 0; 0; 255; 127; 21; 0; 0; 1; 44; 0; 0; 0; 6; 0; 0; 0; 0; 0;
   255; 127; 21; 0; 0; 1; 45; 0; 0; 0; 6; 0; 0; 0; 0; 0; 255; 127; 21; 0; 0; 1; 46; 0; 0; 0; 6; 0; 0; 0; 0; 0; 255;
   127; 21; 0; 0; 1; 47; 0; 0; 0; 6; 0; 0; 0; 0; 0; 255; 127; 21; 0; 0; 1; 48; 0; 0; 0; 6; 0; 0; 0; 0; 0; 255; 127;
   21; 0; 0; 1; 49; 0; 0; 0; 6; 0; 0; 0; 0; 0; 255; 127; 21; 0; 0; 1; 50; 0; 0; 0; 6; 0; 0; 0; 0; 0; 255; 127; 21; 0;
   0; 1; 51; 0; 0; 0; 6; 0; 0; 0; 0; 0; 255; 127; 21; 0; 0; 1; 52; 0; 0; 0; 6; 0; 0; 0; 0; 0; 255; 127; 21; 0; 0; 9;
   53; 0; 0; 0; 32; 0; 0; 0; 16; 0; 0; 0; 21; 0; 0; 6; 1; 0; 0; 0; 32; 0; 0; 0; 24; 0; 0; 0; 84; 0; 0; 0; 255; 247;
   247; 255; 21; 0; 0; 3; 5; 0; 0; 0; 32; 0; 0; 0; 32; 0; 0; 0; 21; 0; 0; 1; 0; 0; 0; 0; 6; 0; 0; 0; 0; 0; 255; 127;
   6; 0; 0; 0; 0; 0; 0; 128; 21; 0; 0; 1; 54; 0; 0; 0; 6; 0; 0; 0; 0; 0; 255; 127; 21; 0; 0; 1; 55; 0; 0; 0; 6; 0; 0;
   0; 0; 0; 255; 127; 21; 0; 0; 5; 56; 0; 0; 0; 32; 0; 0; 0; 16; 0; 0; 0; 84; 0; 0; 0; 0; 9; 3; 126; 21; 0; 0; 1; 0;
   9; 1; 0; 6; 0; 0; 0; 0; 0; 255; 127; 6; 0; 0; 0; 0; 0; 0; 128; 21; 0; 0; 1; 60; 0; 0; 0; 6; 0; 0; 0; 0; 0; 255;
   127; 21; 0; 0; 1; 63; 0; 0; 0; 6; 0; 0; 0; 0; 0; 255; 127; 21; 0; 0; 1; 72; 0; 0; 0; 6; 0; 0; 0; 0; 0; 255; 127;
   21; 0; 0; 1; 79; 0; 0; 0; 6; 0; 0; 0; 0; 0; 255; 127; 21; 0; 0; 1; 89; 0; 0; 0; 6; 0; 0; 0; 0; 0; 255; 127; 21; 0;
   0; 1; 96; 0; 0; 0; 6; 0; 0; 0; 0; 0; 255; 127; 21; 0; 0; 1; 102; 0; 0; 0; 6; 0; 0; 0; 0; 0; 255; 127; 21; 0; 0; 1;
   104; 0; 0; 0; 6; 0; 0; 0; 0; 0; 255; 127; 21; 0; 0; 1; 107; 0; 0; 0; 6; 0; 0; 0; 0; 0; 255; 127; 21; 0; 0; 1; 108;
   0; 0; 0; 6; 0; 0; 0; 0; 0; 255; 127; 21; 0; 0; 1; 117; 0; 0; 0; 6; 0; 0; 0; 0; 0; 255; 127; 21; 0; 0; 1; 119; 0;
   0; 0; 6; 0; 0; 0; 0; 0; 255; 127; 21; 0; 0; 1; 126; 0; 0; 0; 6; 0; 0; 0; 0; 0; 255; 127; 21; 0; 0; 1; 131; 0; 0;
   0; 6; 0; 0; 0; 0; 0; 255; 127; 21; 0; 0; 1; 138; 0; 0; 0; 6; 0; 0; 0; 0; 0; 255; 127; 21; 0; 0; 7; 157; 0; 0; 0;
   32; 0; 0; 0; 16; 0; 0; 0; 21; 0; 0; 1; 15; 0; 0; 0; 6; 0; 0; 0; 0; 0; 255; 127; 32; 0; 0; 0; 16; 0; 0; 0; 21; 0;
   0; 1; 38; 0; 0; 0; 6; 0; 0; 0; 0; 0; 255; 127; 6; 0; 0; 0; 0; 0; 0; 128; 21; 0; 0; 4; 158; 0; 0; 0; 32; 0; 0; 0;
   16; 0; 0; 0; 21; 0; 0; 1; 2; 16; 0; 0; 6; 0; 0; 0; 0; 0; 255; 127; 6; 0; 0; 0; 0; 0; 0; 128; 21; 0; 0; 1; 186; 0;
   0; 0; 6; 0; 0; 0; 0; 0; 255; 127; 21; 0; 0; 1; 200; 0; 0; 0; 6; 0; 0; 0; 0; 0; 255; 127; 21; 0; 0; 1; 202; 0; 0;
   0; 6; 0; 0; 0; 0; 0; 255; 127; 21; 0; 0; 1; 204; 0; 0; 0; 6; 0; 0; 0; 0; 0; 255; 127; 21; 0; 0; 1; 217; 0; 0; 0;
   6; 0; 0; 0; 0; 0; 255; 127; 21; 0; 0; 1; 218; 0; 0; 0; 6; 0; 0; 0; 0; 0; 255; 127; 21; 0; 0; 1; 219; 0; 0; 0; 6;
   0; 0; 0; 0; 0; 255; 127; 21; 0; 0; 1; 228; 0; 0; 0; 6; 0; 0; 0; 0; 0; 255; 127; 21; 0; 0; 1; 229; 0; 0; 0; 6; 0;
   0; 0; 0; 0; 255; 127; 21; 0; 0; 1; 230; 0; 0; 0; 6; 0; 0; 0; 0; 0; 255; 127; 21; 0; 0; 1; 231; 0; 0; 0; 6; 0; 0;
   0; 0; 0; 255; 127; 21; 0; 0; 1; 232; 0; 0; 0; 6; 0; 0; 0; 0; 0; 255; 127; 21; 0; 0; 1; 233; 0; 0; 0; 6; 0; 0; 0;
   0; 0; 255; 127; 21; 0; 0; 1; 234; 0; 0; 0; 6; 0; 0; 0; 0; 0; 255; 127; 21; 0; 0; 4; 247; 0; 0; 0; 32; 0; 0; 0; 16;
   0; 0; 0; 21; 0; 0; 1; 3; 0; 0; 0; 6; 0; 0; 0; 0; 0; 255; 127; 6; 0; 0; 0; 0; 0; 0; 128; 21; 0; 0; 9; 1; 1; 0; 0;
   32; 0; 0; 0; 32; 0; 0; 0; 84; 0; 0; 0; 67; 6; 64; 0; 21; 0; 0; 1; 0; 0; 0; 0; 6; 0; 0; 0; 0; 0; 255; 127; 32; 0;
   0; 0; 32; 0; 0; 0; 84; 0; 0; 0; 64; 2; 64; 0; 21; 0; 0; 1; 0; 0; 0; 0; 6; 0; 0; 0; 0; 0; 255; 127; 6; 0; 0; 0; 0;
   0; 0; 128; 21; 0; 0; 1; 6; 1; 0; 0; 6; 0; 0; 0; 0; 0; 255; 127; 21; 0; 0; 1; 11; 1; 0; 0; 6; 0; 0; 0; 0; 0; 255;
   127; 21; 0; 0; 1; 13; 1; 0; 0; 6; 0; 0; 0; 0; 0; 255; 127; 21; 0; 0; 1; 14; 1; 0; 0; 6; 0; 0; 0; 0; 0; 255; 127;
   21; 0; 0; 1; 15; 1; 0; 0; 6; 0; 0; 0; 0; 0; 255; 127; 21; 0; 0; 1; 17; 1; 0; 0; 6; 0; 0; 0; 0; 0; 255; 127; 21; 0;
   0; 1; 25; 1; 0; 0; 6; 0; 0; 0; 0; 0; 255; 127; 21; 0; 0; 1; 32; 1; 0; 0; 6; 0; 0; 0; 0; 0; 255; 127; 21; 0; 0; 1;
   35; 1; 0; 0; 6; 0; 0; 0; 0; 0; 255; 127; 21; 0; 0; 1; 36; 1; 0; 0; 6; 0; 0; 0; 0; 0; 255; 127; 21; 0; 0; 1; 46; 1;
   0; 0; 6; 0; 0; 0; 0; 0; 255; 127; 21; 0; 0; 7; 61; 1; 0; 0; 32; 0; 0; 0; 16; 0; 0; 0; 21; 0; 0; 4; 1; 0; 0; 0; 32;
   0; 0; 0; 24; 0; 0; 0; 84; 0; 0; 0; 254; 255; 255; 255; 21; 0; 0; 1; 0; 0; 0; 0; 6; 0; 0; 0; 0; 0; 255; 127; 6; 0;
   0; 0; 0; 0; 0; 128; 21; 0; 0; 1; 62; 1; 0; 0; 6; 0; 0; 0; 0; 0; 255; 127; 21; 0; 0; 4; 63; 1; 0; 0; 32; 0; 0; 0;
   24; 0; 0; 0; 21; 0; 0; 1; 9; 0; 0; 0; 6; 0; 0; 0; 0; 0; 255; 127; 6; 0; 0; 0; 0; 0; 0; 128; 21; 0; 0; 10; 65; 1;
   0; 0; 32; 0; 0; 0; 16; 0; 0; 0; 21; 0; 0; 1; 7; 0; 0; 0; 6; 0; 0; 0; 0; 0; 255; 127; 32; 0; 0; 0; 16; 0; 0; 0; 21;
   0; 0; 1; 15; 0; 0; 0; 6; 0; 0; 0; 0; 0; 255; 127; 32; 0; 0; 0; 16; 0; 0; 0; 21; 0; 0; 1; 16; 0; 0; 0; 6; 0; 0; 0;
   0; 0; 255; 127; 6; 0; 0; 0; 0; 0; 0; 128; 21; 0; 0; 4; 66; 1; 0; 0; 32; 0; 0; 0; 48; 0; 0; 0; 21; 0; 0; 1; 0; 16;
   0; 0; 6; 0; 0; 0; 0; 0; 255; 127; 6; 0; 0; 0; 0; 0; 0; 128; 21; 0; 0; 22; 68; 1; 0; 0; 32; 0; 0; 0; 16; 0; 0; 0;
   21; 0; 0; 5; 0; 0; 0; 0; 32; 0; 0; 0; 24; 0; 0; 0; 21; 0; 0; 3; 0; 0; 0; 0; 32; 0; 0; 0; 32; 0; 0; 0; 21; 0; 0; 1;
   0; 0; 0; 0; 6; 0; 0; 0; 0; 0; 255; 127; 32; 0; 0; 0; 16; 0; 0; 0; 21; 0; 0; 5; 8; 0; 0; 0; 32; 0; 0; 0; 24; 0; 0;
   0; 21; 0; 0; 3; 0; 0; 0; 0; 32; 0; 0; 0; 32; 0; 0; 0; 21; 0; 0; 1; 0; 0; 0; 0; 6; 0; 0; 0; 0; 0; 255; 127; 32; 0;
   0; 0; 16; 0; 0; 0; 21; 0; 0; 5; 16; 0; 0; 0; 32; 0; 0; 0; 24; 0; 0; 0; 21; 0; 0; 3; 0; 0; 0; 0; 32; 0; 0; 0; 32;
   0; 0; 0; 21; 0; 0; 1; 0; 0; 0; 0; 6; 0; 0; 0; 0; 0; 255; 127; 6; 0; 0; 0; 0; 0; 0; 128; 21; 0; 0; 1; 76; 1; 0; 0;
   6; 0; 0; 0; 0; 0; 255; 127; 21; 0; 0; 1; 78; 1; 0; 0; 6; 0; 0; 0; 0; 0; 255; 127; 21; 0; 0; 1; 178; 1; 0; 0; 6; 0;
   0; 0; 0; 0; 255; 127; 21; 0; 0; 1; 179; 1; 0; 0; 6; 0; 0; 0; 0; 0; 255; 127; 21; 0; 0; 1; 180; 1; 0; 0; 6; 0; 0;
   0; 0; 0; 255; 127; 21; 0; 0; 1; 183; 1; 0; 0; 6; 0; 0; 0; 0; 0; 255; 127; 6; 0; 0; 0; 0; 0; 0; 128].

Definition BROKER_AARCH64 : list Z :=
  [32; 0; 0; 0; 4; 0; 0; 0; 21; 0; 1; 0; 183; 0; 0; 192; 6; 0; 0; 0; 0; 0; 0; 128; 32; 0; 0; 0; 0; 0; 0; 0; 21; 0; 0;
   1; 17; 0; 0; 0; 6; 0; 0; 0; 0; 0; 255; 127; 21; 0; 0; 1; 20; 0; 0; 0; 6; 0; 0; 0; 0; 0; 255; 127; 21; 0; 0; 1; 21;
   0; 0; 0; 6; 0; 0; 0; 0; 0; 255; 127; 21; 0; 0; 1; 22; 0; 0; 0; 6; 0; 0; 0; 0; 0; 255; 127; 21; 0; 0; 1; 23; 0; 0;
   0; 6; 0; 0; 0; 0; 0; 255; 127; 21; 0; 0; 1; 24; 0; 0; 0; 6; 0; 0; 0; 0; 0; 255; 127; 21; 0; 0; 1; 25; 0; 0; 0; 6;
   0; 0; 0; 0; 0; 255; 127; 21; 0; 0; 16; 29; 0; 0; 0; 32; 0; 0; 0; 24; 0; 0; 0; 21; 0; 0; 1; 134; 102; 4; 192; 6; 0;
   0; 0; 0; 0; 255; 127; 32; 0; 0; 0; 24; 0; 0; 0; 21; 0; 0; 1; 1; 84; 0; 0; 6; 0; 0; 0; 0; 0; 255; 127; 32; 0; 0; 0;
   24; 0; 0; 0; 21; 0; 0; 1; 33; 84; 0; 0; 6; 0; 0; 0; 0; 0; 255; 127; 32; 0; 0; 0; 24; 0; 0; 0; 21; 0; 0; 1; 80; 84;
   0; 0; 6; 0; 0; 0; 0; 0; 255; 127; 32; 0; 0; 0; 24; 0; 0; 0; 21; 0; 0; 1; 81; 84; 0; 0; 6; 0; 0; 0; 0; 0; 255; 127;
   6; 0; 0; 0; 0; 0; 0; 128; 21; 0; 0; 1; 44; 0; 0; 0; 6; 0; 0; 0; 0; 0; 255; 127; 21; 0; 0; 1; 48; 0; 0; 0; 6; 0; 0;
   0; 0; 0; 255; 127; 21; 0; 0; 9; 56; 0; 0; 0; 32; 0; 0; 0; 32; 0; 0; 0; 84; 0; 0; 0; 67; 6; 64; 0; 21; 0; 0; 1; 0;
   0; 0; 0; 6; 0; 0; 0; 0; 0; 255; 127; 32; 0; 0; 0; 32; 0; 0; 0; 84; 0; 0; 0; 64; 2; 64; 0; 21; 0; 0; 1; 0; 0; 0; 0;
   6; 0; 0; 0; 0; 0; 255; 127; 6; 0; 0; 0; 0; 0; 0; 128; 21; 0; 0; 1; 57; 0; 0; 0; 6; 0; 0; 0; 0; 0; 255; 127; 21; 0;
   0; 1; 61; 0; 0; 0; 6; 0; 0; 0; 0; 0; 255; 127; 21; 0; 0; 1; 62; 0; 0; 0; 6; 0; 0; 0; 0; 0; 255; 127; 21; 0; 0; 1;
   63; 0; 0; 0; 6; 0; 0; 0; 0; 0; 255; 127; 21; 0; 0; 1; 64; 0; 0; 0; 6; 0; 0; 0; 0; 0; 255; 127; 21; 0; 0; 1; 65; 0;
   0; 0; 6; 0; 0; 0; 0; 0; 255; 127; 21; 0; 0; 1; 66; 0; 0; 0; 6; 0; 0; 0; 0; 0; 255; 127; 21; 0; 0; 1; 67; 0; 0; 0;
   6; 0; 0; 0; 0; 0; 255; 127; 21; 0; 0; 1; 72; 0; 0; 0; 6; 0; 0; 0; 0; 0; 255; 127; 21; 0; 0; 1; 73; 0; 0; 0; 6; 0;
   0; 0; 0; 0; 255; 127; 21; 0; 0; 1; 78; 0; 0; 0; 6; 0; 0; 0; 0; 0; 255; 127; 21; 0; 0; 1; 79; 0; 0; 0; 6; 0; 0; 0;
   0; 0; 255; 127; 21; 0; 0; 1; 80; 0; 0; 0; 6; 0; 0; 0; 0; 0; 255; 127; 21; 0; 0; 1; 91; 0; 0; 0; 6; 0; 0; 0; 0; 0;
   255; 127; 21; 0; 0; 1; 93; 0; 0; 0; 6; 0; 0; 0; 0; 0; 255; 127; 21; 0; 0; 1; 94; 0; 0; 0; 6; 0; 0; 0; 0; 0; 255;
   127; 21; 0; 0; 4; 95; 0; 0; 0; 32; 0; 0; 0; 16; 0; 0; 0; 21; 0; 0; 1; 3; 0; 0; 0; 6; 0; 0; 0; 0; 0; 255; 127; 6;
   0; 0; 0; 0; 0; 0; 128; 21; 0; 0; 1; 96; 0; 0; 0; 6; 0; 0; 0; 0; 0; 255; 127; 21; 0; 0; 1; 98; 0; 0; 0; 6; 0; 0; 0;
   0; 0; 255; 127; 21; 0; 0; 1; 99; 0; 0; 0; 6; 0; 0; 0; 0; 0; 255; 127; 21; 0; 0; 1; 101; 0; 0; 0; 6; 0; 0; 0; 0; 0;
   255; 127; 21; 0; 0; 1; 113; 0; 0; 0; 6; 0; 0; 0; 0; 0; 255; 127; 21; 0; 0; 1; 114; 0; 0; 0; 6; 0; 0; 0; 0; 0; 255;
   127; 21; 0; 0; 1; 115; 0; 0; 0; 6; 0; 0; 0; 0; 0; 255; 127; 21; 0; 0; 1; 123; 0; 0; 0; 6; 0; 0; 0; 0; 0; 255; 127;
   21; 0; 0; 1; 124; 0; 0; 0; 6; 0; 0; 0; 0; 0; 255; 127; 21; 0; 0; 1; 128; 0; 0; 0; 6; 0; 0; 0; 0; 0; 255; 127; 21;
   0; 0; 1; 130; 0; 0; 0; 6; 0; 0; 0; 0; 0; 255; 127; 21; 0; 0; 1; 131; 0; 0; 0; 6; 0; 0; 0; 0; 0; 255; 127; 21; 0;
   0; 1; 132; 0; 0; 0; 6; 0; 0; 0; 0; 0; 255; 127; 21; 0; 0; 1; 134; 0; 0; 0; 6; 0; 0; 0; 0; 0; 255; 127; 21; 0; 0;
   1; 135; 0; 0; 0; 6; 0; 0; 0; 0; 0; 255; 127; 21; 0; 0; 1; 139; 0; 0; 0; 6; 0; 0; 0; 0; 0; 255; 127; 21; 0; 0; 1;
   147; 0; 0; 0; 6; 0; 0; 0; 0; 0; 255; 127; 21; 0; 0; 1; 149; 0; 0; 0; 6; 0; 0; 0; 0; 0; 255; 127; 21; 0; 0; 1; 160;
   0; 0; 0; 6; 0; 0; 0; 0; 0; 255; 127; 21; 0; 0; 7; 167; 0; 0; 0; 32; 0; 0; 0; 16; 0; 0; 0; 21; 0; 0; 1; 15; 0; 0;
   0; 6; 0; 0; 0; 0; 0; 255; 127; 32; 0; 0; 0; 16; 0; 0; 0; 21; 0; 0; 1; 38; 0; 0; 0; 6; 0; 0; 0; 0; 0; 255; 127; 6;
   0; 0; 0; 0; 0; 0; 128; 21; 0; 0; 1; 169; 0; 0; 0; 6; 0; 0; 0; 0; 0; 255; 127; 21; 0; 0; 1; 172; 0; 0; 0; 6; 0; 0;
   0; 0; 0; 255; 127; 21; 0; 0; 1; 174; 0; 0; 0; 6; 0; 0; 0; 0; 0; 255; 127; 21; 0; 0; 1; 175; 0; 0; 0; 6; 0; 0; 0;
   0; 0; 255; 127; 21; 0; 0; 1; 176; 0; 0; 0; 6; 0; 0; 0; 0; 0; 255; 127; 21; 0; 0; 1; 177; 0; 0; 0; 6; 0; 0; 0; 0;
   0; 255; 127; 21; 0; 0; 1; 178; 0; 0; 0; 6; 0; 0; 0; 0; 0; 255; 127; 21; 0; 0; 41; 198; 0; 0; 0; 32; 0; 0; 0; 16;
   0; 0; 0; 21; 0; 0; 6; 2; 0; 0; 0; 32; 0; 0; 0; 24; 0; 0; 0; 84; 0; 0; 0; 255; 247; 247; 255; 21; 0; 0; 3; 1; 0; 0;
   0; 32; 0; 0; 0; 32; 0; 0; 0; 21; 0; 0; 1; 0; 0; 0; 0; 6; 0; 0; 0; 0; 0; 255; 127; 32; 0; 0; 0; 16; 0; 0; 0; 21; 0;
   0; 6; 2; 0; 0; 0; 32; 0; 0; 0; 24; 0; 0; 0; 84; 0; 0; 0; 255; 247; 247; 255; 21; 0; 0; 3; 1; 0; 0; 0; 32; 0; 0; 0;
   32; 0; 0; 0; 21; 0; 0; 1; 6; 0; 0; 0; 6; 0; 0; 0; 0; 0; 255; 127; 32; 0; 0; 0; 16; 0; 0; 0; 21; 0; 0; 6; 10; 0; 0;
   0; 32; 0; 0; 0; 24; 0; 0; 0; 84; 0; 0; 0; 255; 247; 247; 255; 21; 0; 0; 3; 1; 0; 0; 0; 32; 0; 0; 0; 32; 0; 0; 0;
   21; 0; 0; 1; 0; 0; 0; 0; 6; 0; 0; 0; 0; 0; 255; 127; 32; 0; 0; 0; 16; 0; 0; 0; 21; 0; 0; 6; 10; 0; 0; 0; 32; 0; 0;
   0; 24; 0; 0; 0; 84; 0; 0; 0; 255; 247; 247; 255; 21; 0; 0; 3; 1; 0; 0; 0; 32; 0; 0; 0; 32; 0; 0; 0; 21; 0; 0; 1;
   6; 0; 0; 0; 6; 0; 0; 0; 0; 0; 255; 127; 32; 0; 0; 0; 16; 0; 0; 0; 21; 0; 0; 6; 1; 0; 0; 0; 32; 0; 0; 0; 24; 0; 0;
   0; 84; 0; 0; 0; 255; 247; 247; 255; 21; 0; 0; 3; 5; 0; 0; 0; 32; 0; 0; 0; 32; 0; 0; 0; 21; 0; 0; 1; 0; 0; 0; 0; 6;
   0; 0; 0; 0; 0; 255; 127; 6; 0; 0; 0; 0; 0; 0; 128; 21; 0; 0; 9; 199; 0; 0; 0; 32; 0; 0; 0; 16; 0; 0; 0; 21; 0; 0;
   6; 1; 0; 0; 0; 32; 0; 0; 0; 24; 0; 0; 0; 84; 0; 0; 0; 255; 247; 247; 255; 21; 0; 0; 3; 5; 0; 0; 0; 32; 0; 0; 0;
   32; 0; 0; 0; 21; 0; 0; 1; 0; 0; 0; 0; 6; 0; 0; 0; 0; 0; 255; 127; 6; 0; 0; 0; 0; 0; 0; 128; 21; 0; 0; 1; 200; 0;
   0; 0; 6; 0; 0; 0; 0; 0; 255; 127; 21; 0; 0; 1; 201; 0; 0; 0; 6; 0; 0; 0; 0; 0; 255; 127; 21; 0; 0; 1; 203; 0; 0;
   0; 6; 0; 0; 0; 0; 0; 255; 127; 21; 0; 0; 1; 204; 0; 0; 0; 6; 0; 0; 0; 0; 0; 255; 127; 21; 0; 0; 1; 205; 0; 0; 0;
   6; 0; 0; 0; 0; 0; 255; 127; 21; 0; 0; 1; 206; 0; 0; 0; 6; 0; 0; 0; 0; 0; 255; 127; 21; 0; 0; 1; 207; 0; 0; 0; 6;
   0; 0; 0; 0; 0; 255; 127; 21; 0; 0; 1; 208; 0; 0; 0; 6; 0; 0; 0; 0; 0; 255; 127; 21; 0; 0; 1; 209; 0; 0; 0; 6; 0;
   0; 0; 0; 0; 255; 127; 21; 0; 0; 1; 210; 0; 0; 0; 6; 0; 0; 0; 0; 0; 255; 127; 21; 0; 0; 1; 211; 0; 0; 0; 6; 0; 0;
   0; 0; 0; 255; 127; 21; 0; 0; 1; 212; 0; 0; 0; 6; 0; 0; 0; 0; 0; 255; 127; 21; 0; 0; 1; 214; 0; 0; 0; 6; 0; 0; 0;
   0; 0; 255; 127; 21; 0; 0; 1; 215; 0; 0; 0; 6; 0; 0; 0; 0; 0; 255; 127; 21; 0; 0; 1; 216; 0; 0; 0; 6; 0; 0; 0; 0;
   0; 255; 127; 21; 0; 0; 5; 220; 0; 0; 0; 32; 0; 0; 0; 16; 0; 0; 0; 84; 0; 0; 0; 0; 9; 3; 126; 21; 0; 0; 1; 0; 9; 1;
   0; 6; 0; 0; 0; 0; 0; 255; 127; 6; 0; 0; 0; 0; 0; 0; 128; 21; 0; 0; 1; 222; 0; 0; 0; 6; 0; 0; 0; 0; 0; 255; 127;
   21; 0; 0; 1; 226; 0; 0; 0; 6; 0; 0; 0; 0; 0; 255; 127; 21; 0; 0; 1; 233; 0; 0; 0; 6; 0; 0; 0; 0; 0; 255; 127; 21;
   0; 0; 1; 242; 0; 0; 0; 6; 0; 0; 0; 0; 0; 255; 127; 21; 0; 0; 1; 5; 1; 0; 0; 6; 0; 0; 0; 0; 0; 255; 127; 21; 0; 0;
   7; 21; 1; 0; 0; 32; 0; 0; 0; 16; 0; 0; 0; 21; 0; 0; 4; 1; 0; 0; 0; 32; 0; 0; 0; 24; 0; 0; 0; 84; 0; 0; 0; 254;
   255; 255; 255; 21; 0; 0; 1; 0; 0; 0; 0; 6; 0; 0; 0; 0; 0; 255; 127; 6; 0; 0; 0; 0; 0; 0; 128; 21; 0; 0; 1; 22; 1;
   0; 0; 6; 0; 0; 0; 0; 0; 255; 127; 21; 0; 0; 4; 23; 1; 0; 0; 32; 0; 0; 0; 24; 0; 0; 0; 21; 0; 0; 1; 9; 0; 0; 0; 6;
   0; 0; 0; 0; 0; 255; 127; 6; 0; 0; 0; 0; 0; 0; 128; 21; 0; 0; 10; 24; 1; 0; 0; 32; 0; 0; 0; 16; 0; 0; 0; 21; 0; 0;
   1; 7; 0; 0; 0; 6; 0; 0; 0; 0; 0; 255; 127; 32; 0; 0; 0; 16; 0; 0; 0; 21; 0; 0; 1; 15; 0; 0; 0; 6; 0; 0; 0; 0; 0;
   255; 127; 32; 0; 0; 0; 16; 0; 0; 0; 21; 0; 0; 1; 16; 0; 0; 0; 6; 0; 0; 0; 0; 0; 255; 127; 6; 0; 0; 0; 0; 0; 0;
   128; 21; 0; 0; 4; 25; 1; 0; 0; 32; 0; 0; 0; 48; 0; 0; 0; 21; 0; 0; 1; 0; 16; 0; 0; 6; 0; 0; 0; 0; 0; 255; 127; 6;
   0; 0; 0; 0; 0; 0; 128; 21; 0; 0; 22; 27; 1; 0; 0; 32; 0; 0; 0; 16; 0; 0; 0; 21; 0; 0; 5; 0; 0; 0; 0; 32; 0; 0; 0;
   24; 0; 0; 0; 21; 0; 0; 3; 0; 0; 0; 0; 32; 0; 0; 0; 32; 0; 0; 0; 21; 0; 0; 1; 0; 0; 0; 0; 6; 0; 0; 0; 0; 0; 255;
   127; 32; 0; 0; 0; 16; 0; 0; 0; 21; 0; 0; 5; 8; 0; 0; 0; 32; 0; 0; 0; 24; 0; 0; 0; 21; 0; 0; 3; 0; 0; 0; 0; 32; 0;
   0; 0; 32; 0; 0; 0; 21; 0; 0; 1; 0; 0; 0; 0; 6; 0; 0; 0; 0; 0; 255; 127; 32; 0; 0; 0; 16; 0; 0; 0; 21; 0; 0; 5; 16;
   0; 0; 0; 32; 0; 0; 0; 24; 0; 0; 0; 21; 0; 0; 3; 0; 0; 0; 0; 32; 0; 0; 0; 32; 0; 0; 0; 21; 0; 0; 1; 0; 0; 0; 0; 6;
   0; 0; 0; 0; 0; 255; 127; 6; 0; 0; 0; 0; 0; 0; 128; 21; 0; 0; 1; 35; 1; 0; 0; 6; 0; 0; 0; 0; 0; 255; 127; 21; 0; 0;
   1; 37; 1; 0; 0; 6; 0; 0; 0; 0; 0; 255; 127; 21; 0; 0; 1; 178; 1; 0; 0; 6; 0; 0; 0; 0; 0; 255; 127; 21; 0; 0; 1;
   179; 1; 0; 0; 6; 0; 0; 0; 0; 0; 255; 127; 21; 0; 0; 1; 180; 1; 0; 0; 6; 0; 0; 0; 0; 0; 255; 127; 21; 0; 0; 1; 183;
   1; 0; 0; 6; 0; 0; 0; 0; 0; 255; 127; 6; 0; 0; 0; 0; 0; 0; 128].
