(* ===== verification/Seal.v ===== *)
(** * What the two process seals share ([role-seal/src/lib.rs], [effect-gate/src/seal.rs])

    The seal's helpers, written once: the crates hold the same text, apart from their step types.  The system calls are
    the methods of [SealOps]; every helper runs over any kernel that has them.  A loop or a [match] that both crates
    write twice ([read_flags], [install]) is one definition here. *)

From S2P Require Import Prelude Slices Observation.
Module Seal.

(** ** Constants and data *)

Definition CAP_LAST_CAP : Z := 40.
Definition EINVAL : Z := 22.
Definition BPF_MAXINSNS : Z := 4096.
Definition INSTRUCTION_BYTES : Z := 8.
Definition PR_CAPBSET_READ : Z := 23.
Definition PR_CAPBSET_DROP : Z := 24.
Definition PR_SET_NO_NEW_PRIVS : Z := 38.
Definition PR_GET_NO_NEW_PRIVS : Z := 39.
Definition PR_CAP_AMBIENT : Z := 47.
Definition PR_CAP_AMBIENT_IS_SET : Z := 1.
Definition PR_CAP_AMBIENT_CLEAR_ALL : Z := 4.
(** The core limit the seal sets and reads back, soft and hard. *)
Definition NO_CORE : Z * Z := (0, 0).

(** The three sets of [capget] and [capset]; bit n is capability n. *)
Record CapabilitySets := mkCaps { cs_effective : Z; cs_permitted : Z; cs_inheritable : Z }.
#[global] Instance CapabilitySets_eq_dec : EqDecision CapabilitySets.
Proof. solve_decision. Defined.
Definition CapabilitySets_default : CapabilitySets := mkCaps 0 0 0.

(** One version-3 data word: effective, permitted, inheritable. *)
Definition Word : Type := Z * Z * Z.

Definition capability_words (sets : CapabilitySets) : Word * Word :=
  let low (set : Z) := wrap 32 (Z.land set 0xFFFFFFFF) in
  let high (set : Z) := wrap 32 (Z.shiftr set 32) in
  ((low (cs_effective sets), low (cs_permitted sets), low (cs_inheritable sets)),
   (high (cs_effective sets), high (cs_permitted sets), high (cs_inheritable sets))).

Definition capability_sets (words : Word * Word) : CapabilitySets :=
  let '((e0, p0, i0), (e1, p1, i1)) := words in
  let set (low high : Z) := Z.lor low (Z.shiftl high 32) in
  mkCaps (set e0 e1) (set p0 p1) (set i0 i1).

(** The [sock_fprog] length of a program. *)
Definition filter_length (program : list Z) : option Z :=
  let count := zlen program / INSTRUCTION_BYTES in
  if negb (zlen program mod INSTRUCTION_BYTES =? 0) || (count =? 0) || (BPF_MAXINSNS <? count) then None
  else u16_try_from count.

(** *** The process's thread count, from its status file *)

Definition THREADS : list Z := bytes_of "Threads:".

Definition strip_prefix (prefix l : list Z) : option (list Z) :=
  if starts_with prefix l then Some (drop (length prefix) l) else None.

Definition u64_checked_mul (x y : Z) : option Z := if x * y <? U64 then Some (x * y) else None.

Fixpoint checked_decimal (count : Z) (digits : list Z) : option Z :=
  match digits with
  | [] => Some count
  | digit :: digits =>
      let* count := u64_checked_mul count 10 in
      let* count := u64_checked_add count (digit - 48) in
      checked_decimal count digits
  end.

(** The value of one [Threads:] line, after the colon. *)
Definition thread_count (rest : list Z) : option Z :=
  let start := default (length rest) (position (λ byte, negb ((byte =? 32) || (byte =? 9))) rest) in
  let digits := drop start rest in
  if bool_decide (digits = []) || negb (forallb is_digit digits) then None else checked_decimal 0 digits.

Fixpoint threads_of_lines (found : option Z) (lines : list (list Z)) : option Z :=
  match lines with
  | [] => found
  | line :: lines =>
      match strip_prefix THREADS line with
      | None => threads_of_lines found lines
      | Some rest =>
          match found with
          | Some _ => None
          | None => let* count := thread_count rest in threads_of_lines (Some count) lines
          end
      end
  end.
Definition status_threads (status : list Z) : option Z := threads_of_lines None (split_on NEWLINE status).

(** *** Calls, steps' failures *)

(** The seals' [prctl] calls; role-seal's type has neither [BoundingDrop] nor [AmbientClearAll]. *)
Module Prctl.
Inductive t :=
| BoundingRead (capability : Z) | BoundingDrop (capability : Z) | AmbientIsSet (capability : Z) | AmbientClearAll
| SetNoNewPrivs | GetNoNewPrivs.
Definition arguments (call : t) : Z * list Z :=
  match call with
  | BoundingRead capability => (PR_CAPBSET_READ, [capability; 0; 0; 0])
  | BoundingDrop capability => (PR_CAPBSET_DROP, [capability; 0; 0; 0])
  | AmbientIsSet capability => (PR_CAP_AMBIENT, [PR_CAP_AMBIENT_IS_SET; capability; 0; 0])
  | AmbientClearAll => (PR_CAP_AMBIENT, [PR_CAP_AMBIENT_CLEAR_ALL; 0; 0; 0])
  | SetNoNewPrivs => (PR_SET_NO_NEW_PRIVS, [1; 0; 0; 0])
  | GetNoNewPrivs => (PR_GET_NO_NEW_PRIVS, [0; 0; 0; 0])
  end.
End Prctl.

Module Stage.
Inductive t := One | Two.
End Stage.

(** An [io::Error]: its OS error number, where it has one. *)
Record IoError := mkIoError { raw_os_error : option Z }.
Abbreviation io A := (result A IoError).

(** effect-gate's type has no [StartBounding], [StartPermitted] or [StartAmbient]. *)
Module SealFailure.
Inductive t :=
| Os (error : IoError)
| StatusFormat
| Threads (count : Z)
| NotRoot (ids : Z * Z * Z)
| InvalidCapability (capability : Z)
| LastCapability (returned errno : option Z)
| NotABoolean (capability : option Z) (value : Z)
| StartBounding (set : Z)
| StartPermitted (set : Z)
| StartAmbient (set : Z)
| SetMismatch (expected found : Z)
| CapabilitiesMismatch (expected found : CapabilitySets)
| CoreLimitMismatch (found : Z * Z)
| NoNewPrivsUnset
| ProgramLength (bytes : Z)
| TsyncThread (thread : Z)
| Returned (value : Z).
End SealFailure.

Record SealError (Step : Type) := mkSealError { step : Step; failure : SealFailure.t }.
Arguments mkSealError {Step} step failure.
Arguments step {Step}.
Arguments failure {Step}.
Definition fail {Step} (step : Step) (failure : SealFailure.t) : SealError Step := mkSealError step failure.
Definition os {Step} (step : Step) (error : IoError) : SealError Step := fail step (SealFailure.Os error).

Definition is_einval (error : IoError) : bool := bool_decide (raw_os_error error = Some EINVAL).
Definition bit (capability : Z) : Z := Z.shiftl 1 capability.
Definition members (set : Z) : list Z := filter (λ capability, Z.land set (bit capability) ≠ 0) (seqZ 0 41).

(** ** The system calls *)

Class SealOps (K : Type) := {
  own_status : K → K * io (list Z);
  user_ids : K → K * io (Z * Z * Z);
  group_ids : K → K * io (Z * Z * Z);
  read_capabilities : K → K * io (Word * Word);
  write_capabilities : Word * Word → K → K * io unit;
  process_control : Z * list Z → K → K * io Z;
  core_limit : option (Z * Z) → K → K * io (Z * Z);
  install_filter : list Z → Z → K → K * io Z;
}.

(** A fallible computation over the kernel; an error ends it where it is. *)
Definition Run (K E A : Type) : Type := K → K * result A E.
Definition run_ret {K E A} (a : A) : Run K E A := λ k, (k, Ok a).
Definition run_err {K E A} (e : E) : Run K E A := λ k, (k, Err e).
Definition run_then {K E A B} (m : Run K E A) (f : A → Run K E B) : Run K E B :=
  λ k, let '(k, r) := m k in match r with Ok a => f a k | Err e => (k, Err e) end.
Notation "'let~' x := m 'in' f" := (run_then m (λ x, f))
  (at level 10, x pattern, m at level 100, f at level 200) : result_scope.
(** [map_err] *)
Definition or_err {K E F A} (m : Run K E A) (e : E → F) : Run K F A :=
  λ k, let '(k, r) := m k in (k, match r with Ok a => Ok a | Err x => Err (e x) end).
(** A match on a call's result, errors included. *)
Definition run_match {K E F A B} (m : Run K E A) (f : result A E → Run K F B) : Run K F B :=
  λ k, let '(k, r) := m k in f r k.
(** A [for] loop over [l] that carries [state]. *)
Fixpoint for_each {K E A B} (l : list A) (state : B) (body : B → A → Run K E B) : Run K E B :=
  match l with
  | [] => run_ret state
  | a :: l => let~ state := body state a in for_each l state body
  end.

Section Helpers.
Context {K : Type} {O : SealOps K} {Step : Type}.
Implicit Types (step : Step).
Abbreviation run A := (Run K (SealError Step) A).

Definition control (call : Prctl.t) : Run K IoError Z := process_control (Prctl.arguments call).

Definition read_flag (call : Prctl.t) (capability : option Z) (step : Step) : run bool :=
  run_match (control call) (λ r,
    match r with
    | Ok value =>
        if value =? 0 then run_ret false
        else if value =? 1 then run_ret true
        else run_err (fail step (SealFailure.NotABoolean capability value))
    | Err error =>
        match capability with
        | Some capability =>
            if is_einval error then run_err (fail step (SealFailure.InvalidCapability capability))
            else run_err (fail step (SealFailure.Os error))
        | None => run_err (fail step (SealFailure.Os error))
        end
    end).

(** The loop both set reads share: one flag a capability, 0 to 40. *)
Definition read_flags (call : Z → Prctl.t) (step : Step) : run Z :=
  for_each (seqZ 0 (CAP_LAST_CAP + 1)) 0 (λ set capability,
    let~ flag := read_flag (call capability) (Some capability) step in
    run_ret (if flag : bool then Z.lor set (bit capability) else set)).

Definition read_bounding (step : Step) : run Z :=
  let~ set := read_flags Prctl.BoundingRead step in
  run_match (control (Prctl.BoundingRead (CAP_LAST_CAP + 1))) (λ r,
    match r with
    | Err error =>
        if is_einval error then run_ret set
        else run_err (fail step (SealFailure.LastCapability None (raw_os_error error)))
    | Ok value => run_err (fail step (SealFailure.LastCapability (Some value) None))
    end).
Definition read_ambient (step : Step) : run Z := read_flags Prctl.AmbientIsSet step.

Definition expect_set (step : Step) (expected found : Z) : run unit :=
  if found =? expected then run_ret tt else run_err (fail step (SealFailure.SetMismatch expected found)).
Definition expect_capabilities (step : Step) (expected : CapabilitySets) : run unit :=
  let~ words := or_err read_capabilities (os step) in
  let found := capability_sets words in
  if bool_decide (found = expected) then run_ret tt
  else run_err (fail step (SealFailure.CapabilitiesMismatch expected found)).
Definition expect_no_new_privs (step : Step) : run unit :=
  let~ flag := read_flag Prctl.GetNoNewPrivs None step in
  if flag : bool then run_ret tt else run_err (fail step SealFailure.NoNewPrivsUnset).
Definition expect_no_core (step : Step) : run unit :=
  let~ found := or_err (core_limit None) (os step) in
  if bool_decide (found = NO_CORE) then run_ret tt else run_err (fail step (SealFailure.CoreLimitMismatch found)).

(** [step] is [SealStep::Threads(stage)]. *)
Definition single_thread (step : Step) : run unit :=
  let~ status := or_err own_status (os step) in
  match status_threads status with
  | Some count => if count =? 1 then run_ret tt else run_err (fail step (SealFailure.Threads count))
  | None => run_err (fail step SealFailure.StatusFormat)
  end.
Definition root_ids (ids : Run K IoError (Z * Z * Z)) (step : Step) : run unit :=
  run_match ids (λ r,
    match r with
    | Ok found =>
        if bool_decide (found = (0, 0, 0)) then run_ret tt else run_err (fail step (SealFailure.NotRoot found))
    | Err error => run_err (fail step (SealFailure.Os error))
    end).
(** The filter's install and what its result means: the last call of both seals. *)
Definition install (program : list Z) (length : Z) (step : Step) : run unit :=
  run_match (install_filter program length) (λ r,
    match r with
    | Ok value =>
        if value =? 0 then run_ret tt
        else if 0 <? value then run_err (fail step (SealFailure.TsyncThread value))
        else run_err (fail step (SealFailure.Returned value))
    | Err error => run_err (fail step (SealFailure.Os error))
    end).
End Helpers.
End Seal.
