(* ===== verification/SealProofs.v ===== *)
(** * What the seals' helpers establish

    [SealKernel] states what Linux documents of the system calls the seals make: a read that succeeds tells the truth
    and changes nothing, and the filter is installed exactly when [seccomp] returns 0.  Of a write it says only
    which part of the process it may change, never that it does: the seals read back every part they rely on.  The helpers' contracts are Hoare triples
    over the process a kernel keeps. *)

From S2P Require Import Prelude Slices Observation Inet Seal.
Import Seal.

(** ** The process *)

Record Process := mkProcess {
  p_capabilities : CapabilitySets;
  p_bounding : Z;
  p_ambient : Z;
  p_last_capability : Z;
  p_no_new_privs : bool;
  p_core : Z * Z;
  p_user_ids : Z * Z * Z;
  p_group_ids : Z * Z * Z;
  p_threads : Z;
  p_filter : option (list Z * Z);
}.

Definition wf_sets (sets : CapabilitySets) : Prop :=
  in_u 64 (cs_effective sets) ∧ in_u 64 (cs_permitted sets) ∧ in_u 64 (cs_inheritable sets).
(** Sets are 64 bits wide, and none of them holds a capability the kernel does not have. *)
Record wf_process (p : Process) : Prop := {
  wf_capabilities : wf_sets (p_capabilities p);
  wf_last : 0 ≤ p_last_capability p < 64;
  wf_bounding : 0 ≤ p_bounding p < 2 ^ (p_last_capability p + 1);
  wf_ambient : 0 ≤ p_ambient p < 2 ^ (p_last_capability p + 1);
}.

(** A status file with [threads] threads: one [Threads:] line, a tab before the number. *)
Definition status_of (threads : Z) (status : list Z) : Prop :=
  0 ≤ threads < U64 ∧ ∃ before after,
    split_on NEWLINE status = before ++ (THREADS ++ 9 :: digits_of threads) :: after ∧
    Forall (λ line, starts_with THREADS line = false) (before ++ after).

(** [read p call value]: what a [prctl] read of process [p] answers. *)
Definition flag_read (p : Process) (set capability : Z) (r : io Z) : Prop :=
  match r with
  | Ok value => capability ≤ p_last_capability p ∧ value = Z.b2z (Z.testbit set capability)
  | Err error => is_einval error = true → p_last_capability p < capability
  end.

(** The process with one part changed. *)
Definition with_capabilities sets (p : Process) : Process :=
  mkProcess sets (p_bounding p) (p_ambient p) (p_last_capability p) (p_no_new_privs p) (p_core p) (p_user_ids p)
    (p_group_ids p) (p_threads p) (p_filter p).
Definition with_bounding set (p : Process) : Process :=
  mkProcess (p_capabilities p) set (p_ambient p) (p_last_capability p) (p_no_new_privs p) (p_core p) (p_user_ids p)
    (p_group_ids p) (p_threads p) (p_filter p).
Definition with_ambient set (p : Process) : Process :=
  mkProcess (p_capabilities p) (p_bounding p) set (p_last_capability p) (p_no_new_privs p) (p_core p) (p_user_ids p)
    (p_group_ids p) (p_threads p) (p_filter p).
Definition with_no_new_privs flag (p : Process) : Process :=
  mkProcess (p_capabilities p) (p_bounding p) (p_ambient p) (p_last_capability p) flag (p_core p) (p_user_ids p)
    (p_group_ids p) (p_threads p) (p_filter p).
Definition with_core core (p : Process) : Process :=
  mkProcess (p_capabilities p) (p_bounding p) (p_ambient p) (p_last_capability p) (p_no_new_privs p) core (p_user_ids p)
    (p_group_ids p) (p_threads p) (p_filter p).
Definition filtered (program : list Z) (length : Z) (p : Process) : Process :=
  mkProcess (p_capabilities p) (p_bounding p) (p_ambient p) (p_last_capability p) (p_no_new_privs p) (p_core p)
    (p_user_ids p) (p_group_ids p) (p_threads p) (Some (program, length)).

Class SealKernel (K : Type) {O : SealOps K} := {
  process : K → Process;
  process_wf k : wf_process (process k);
  own_status_reads k :
    process (own_status k).1 = process k ∧ ∀ status, (own_status k).2 = Ok status → status_of (p_threads (process k)) status;
  user_ids_reads k : process (user_ids k).1 = process k ∧ ∀ ids, (user_ids k).2 = Ok ids → ids = p_user_ids (process k);
  group_ids_reads k : process (group_ids k).1 = process k ∧ ∀ ids, (group_ids k).2 = Ok ids → ids = p_group_ids (process k);
  read_capabilities_reads k :
    process (read_capabilities k).1 = process k ∧
    ∀ words, (read_capabilities k).2 = Ok words → words = capability_words (p_capabilities (process k));
  bounding_reads k capability :
    0 ≤ capability → let '(k', r) := control (Prctl.BoundingRead capability) k in
    process k' = process k ∧ flag_read (process k) (p_bounding (process k)) capability r;
  ambient_reads k capability :
    0 ≤ capability → let '(k', r) := control (Prctl.AmbientIsSet capability) k in
    process k' = process k ∧ flag_read (process k) (p_ambient (process k)) capability r;
  no_new_privs_reads k :
    let '(k', r) := control Prctl.GetNoNewPrivs k in
    process k' = process k ∧ ∀ value, r = Ok value → value = Z.b2z (p_no_new_privs (process k));
  core_limit_reads k :
    process (core_limit None k).1 = process k ∧ ∀ limit, (core_limit None k).2 = Ok limit → limit = p_core (process k);
  write_capabilities_writes k words :
    ∃ sets ambient, Z.land ambient (p_ambient (process k)) = ambient ∧
      process (write_capabilities words k).1 = with_ambient ambient (with_capabilities sets (process k));
  bounding_writes k capability :
    ∃ set, process (control (Prctl.BoundingDrop capability) k).1 = with_bounding set (process k);
  ambient_writes k : ∃ set, process (control Prctl.AmbientClearAll k).1 = with_ambient set (process k);
  no_new_privs_writes k : ∃ flag, process (control Prctl.SetNoNewPrivs k).1 = with_no_new_privs flag (process k);
  core_limit_writes k limit : ∃ core, process (core_limit (Some limit) k).1 = with_core core (process k);
  install_filter_writes k program length :
    let '(k', r) := install_filter program length k in
    let p := process k in
    process k' = match r with Ok 0 => filtered program length p | _ => p end;
}.

(** ** Round trips *)

Lemma words_u32 x : in_u 64 x → Z.lor (wrap 32 (Z.land x 0xFFFFFFFF)) (Z.shiftl (wrap 32 (Z.shiftr x 32)) 32) = x.
Proof.
  intros [H0 H1]. change 0xFFFFFFFF with (2 ^ 32 - 1). rewrite land_ones_mod by lia. unfold wrap. rewrite Z.mod_mod by lia.
  rewrite Z.shiftr_div_pow2 by lia. rewrite (Z.mod_small (x / 2 ^ 32)).
  - rewrite Z.lor_comm, lor_shiftl_add; [|lia|by apply Z.mod_pos_bound]. pose proof (Z.div_mod x (2 ^ 32)). lia.
  - split; [by apply Z.div_pos|]. apply Z.div_lt_upper_bound; [done|]. by change (2 ^ 32 * 2 ^ 32) with (2 ^ 64).
Qed.
(** The sets survive [capset]'s two data words. *)
Lemma capability_sets_words sets : wf_sets sets → capability_sets (capability_words sets) = sets.
Proof. intros (H1 & H2 & H3). destruct sets as [e p i]. cbn in *. unfold capability_sets, capability_words. cbn. by rewrite !words_u32. Qed.

Lemma checked_decimal_value digits count :
  0 ≤ count → Forall (λ b, is_digit b = true) digits →
  fold_left (λ a d, a * 10 + (d - 48)) digits count < U64 →
  checked_decimal count digits = Some (fold_left (λ a d, a * 10 + (d - 48)) digits count).
Proof.
  revert count. induction digits as [|d l IH]; intros count Hc Hd Hv; [done|]. cbn [fold_left checked_decimal] in *.
  apply Forall_cons in Hd as [Hd%is_digit_bounds Hl].
  assert (Hm : count * 10 + (d - 48) < U64).
  { rewrite fold_digits_shift in Hv. pose proof (digits_value_nonneg l Hl) as Hn.
    pose proof (Z.pow_pos_nonneg 10 (Z.of_nat (length l)) ltac:(lia) ltac:(lia)). nia. }
  unfold u64_checked_mul, u64_checked_add. rewrite (proj2 (Z.ltb_lt _ _)) by lia. cbn [mbind option_bind].
  rewrite (proj2 (Z.ltb_lt _ _)) by lia. cbn [mbind option_bind]. apply IH; [lia|done|done].
Qed.

Lemma thread_count_digits threads : 0 ≤ threads < U64 → thread_count (9 :: digits_of threads) = Some threads.
Proof.
  intros [H0 H1]. unfold thread_count. destruct (digits_of_spec threads H0) as (Hf & Hv & Hl & _).
  destruct (digits_of threads) as [|d l] eqn:E; [by apply Nat.lt_irrefl in Hl|]. pose proof Hf as [Hd%is_digit_bounds _]%Forall_cons.
  cbn [position]. rewrite (proj2 (Z.eqb_neq d 32)), (proj2 (Z.eqb_neq d 9)) by lia.
  change (drop _ _) with (d :: l).
  rewrite bool_decide_eq_false_2 by done. rewrite (proj2 (forallb_digits (d :: l)) Hf). cbn [orb negb]. unfold digits_value in Hv.
  rewrite checked_decimal_value; [by rewrite Hv|lia|done|by rewrite Hv].
Qed.

Lemma threads_of_other lines found :
  Forall (λ line, starts_with THREADS line = false) lines → threads_of_lines found lines = found.
Proof.
  induction 1 as [|line lines H _ IH]; [done|]. cbn [threads_of_lines]. unfold strip_prefix. by rewrite H.
Qed.
Lemma threads_of_app found a b :
  Forall (λ line, starts_with THREADS line = false) a → threads_of_lines found (a ++ b) = threads_of_lines found b.
Proof.
  induction 1 as [|line lines H _ IH]; [done|]. cbn [app threads_of_lines]. unfold strip_prefix. by rewrite H.
Qed.
(** The thread count is read from the kernel's file. *)
Lemma status_threads_reads threads status : status_of threads status → status_threads status = Some threads.
Proof.
  intros (Ht & before & after & E & [Hb Ha]%Forall_app). unfold status_threads. rewrite E, threads_of_app by done.
  cbn [threads_of_lines]. unfold strip_prefix. change (starts_with THREADS (THREADS ++ 9 :: digits_of threads)) with true.
  change (drop (length THREADS) (THREADS ++ 9 :: digits_of threads)) with (9 :: digits_of threads).
  cbv iota. rewrite thread_count_digits by done. cbn [mbind option_bind]. by apply threads_of_other.
Qed.

(** Reading one more flag. *)
Lemma lor_next_bit set n :
  0 ≤ n →
  (if Z.testbit set n then Z.lor (set mod 2 ^ n) (bit n) else set mod 2 ^ n) = set mod 2 ^ (n + 1).
Proof.
  intros Hn. apply Z.bits_inj'. intros i Hi. rewrite <-!Z.land_ones by lia. unfold bit.
  assert (Ho : ∀ m, 0 ≤ m → Z.testbit (Z.ones m) i = (i <? m)).
  { intros m Hm. destruct (Z.ltb_spec i m); [by apply Z.ones_spec_low|by apply Z.ones_spec_high]. }
  assert (Hb : Z.testbit (Z.shiftl 1 n) i = (i =? n)).
  { rewrite Z.shiftl_1_l. destruct (Z.eqb_spec i n) as [->|Hne]; [by apply Z.pow2_bits_true|by apply Z.pow2_bits_false]. }
  destruct (Z.testbit set n) eqn:E; rewrite ?Z.lor_spec, !Z.land_spec, ?Hb, !Ho by lia;
    (destruct (Z.eqb_spec i n) as [->|Hne];
      [rewrite ?E; destruct (Z.ltb_spec n n), (Z.ltb_spec n (n + 1)); try lia; done
      |destruct (Z.ltb_spec i n), (Z.ltb_spec i (n + 1)); try lia; by destruct (Z.testbit set i)]).
Qed.

(** ** Triples *)

Section Triples.
Context {K : Type} {O : SealOps K} {HK : SealKernel K}.

(** From a process of [Pre]: a result leaves one of [Post], an error one of [Exc]. *)
Definition hoare {E A} (Pre : Process → Prop) (m : Run K E A) (Post : A → Process → Prop) (Exc : E → Process → Prop) : Prop :=
  ∀ k, Pre (process k) → let '(k', r) := m k in match r with Ok a => Post a (process k') | Err e => Exc e (process k') end.

Lemma hoare_ret {E A} Pre (a : A) Post (Exc : E → _) : (∀ p, Pre p → Post a p) → hoare Pre (run_ret a) Post Exc.
Proof. intros H k. apply H. Qed.
Lemma hoare_err {E A} Pre (e : E) (Post : A → _) Exc : (∀ p, Pre p → Exc e p) → hoare Pre (run_err e) Post Exc.
Proof. intros H k. apply H. Qed.
Lemma hoare_then {E A B} Pre (m : Run K E A) (f : A → Run K E B) Mid Post Exc :
  hoare Pre m Mid Exc → (∀ a, hoare (Mid a) (f a) Post Exc) → hoare Pre (run_then m f) Post Exc.
Proof.
  intros Hm Hf k Hk. unfold run_then. specialize (Hm k Hk). destruct (m k) as [k' [a|e]]; [|done]. by apply Hf.
Qed.
Lemma hoare_result {E A B} Pre (r : result A E) (f : A → Run K E B) Post (Exc : E → Process → Prop) :
  (∀ a, r = Ok a → hoare Pre (f a) Post Exc) → (∀ e p, r = Err e → Pre p → Exc e p) →
  hoare Pre (run_then (λ k, (k, r)) f) Post Exc.
Proof. intros Hf He k Hk. unfold run_then. destruct r as [a|e]; [by apply (Hf a)|by apply He]. Qed.
Lemma hoare_weaken {E A} (Pre Pre' : Process → Prop) (m : Run K E A) (Post Post' : A → Process → Prop) (Exc Exc' : E → Process → Prop) :
  hoare Pre m Post Exc → (∀ p, Pre' p → Pre p) → (∀ a p, Post a p → Post' a p) → (∀ e p, Exc e p → Exc' e p) →
  hoare Pre' m Post' Exc'.
Proof. intros H H1 H2 H3 k Hk. specialize (H k (H1 _ Hk)). destruct (m k) as [k' [a|e]]; naive_solver. Qed.
Lemma hoare_known {E A} (Pre : Process → Prop) (m : Run K E A) Post Exc :
  (∀ p0, Pre p0 → hoare (λ p, p = p0) m Post Exc) → hoare Pre m Post Exc.
Proof. intros H k Hk. by apply (H (process k)). Qed.
Lemma hoare_for_each {E A B} (I : nat → B → Process → Prop) (l : list A) state (body : B → A → Run K E B) Exc n :
  (∀ i a b, l !! i = Some a → hoare (I (n + i)%nat b) (body b a) (I (S (n + i))) Exc) →
  hoare (I n state) (for_each l state body) (I (n + length l)%nat) Exc.
Proof.
  revert n state. induction l as [|a l IH]; intros n state H; cbn [for_each length].
  - apply hoare_ret. intros p Hp. by rewrite Nat.add_0_r.
  - apply (hoare_then _ _ _ (I (S n))).
    + specialize (H 0%nat a state eq_refl). by rewrite Nat.add_0_r in H.
    + intros b. rewrite Nat.add_succ_r, <-Nat.add_succ_l. apply IH. intros i x y Hx. rewrite Nat.add_succ_l, <-Nat.add_succ_r.
      by apply H.
Qed.

(** A read: nothing changes, [Q] holds of what it returns, [X] of its error. *)
Definition reads {E A} (m : Run K E A) (Q : Process → A → Prop) (X : E → Prop) : Prop :=
  ∀ p, hoare (λ p', p' = p) m (λ a p', p' = p ∧ Q p a) (λ e p', p' = p ∧ X e).

Lemma reads_ret {E A} (a : A) (X : E → Prop) : reads (run_ret a) (λ _ b, b = a) X.
Proof. intros p. apply hoare_ret. naive_solver. Qed.
Lemma reads_err {E A} (e : E) (Q : Process → A → Prop) (X : E → Prop) : X e → reads (run_err e) Q X.
Proof. intros H p. apply hoare_err. naive_solver. Qed.
Lemma reads_then {E A B} (m : Run K E A) (f : A → Run K E B) (Q : Process → A → Prop) (R : Process → B → Prop) X :
  reads m Q X → (∀ a, reads (f a) (λ p b, Q p a → R p b) X) → reads (run_then m f) R X.
Proof.
  intros Hm Hf p. eapply hoare_then; [apply Hm|]. intros a k [Hk Ha]. specialize (Hf a p k Hk).
  destruct (f a k) as [k' [b|e]]; naive_solver.
Qed.
Lemma reads_weaken {E A} (m : Run K E A) (Q Q' : Process → A → Prop) (X X' : E → Prop) :
  reads m Q X → (∀ p a, wf_process p → Q p a → Q' p a) → (∀ e, X e → X' e) → reads m Q' X'.
Proof.
  intros H HQ HX p k Hk. specialize (H p k Hk). assert (Hw := process_wf k). rewrite Hk in Hw.
  destruct (m k) as [k' [a|e]]; naive_solver.
Qed.
(** What a read adds to what is known of the process. *)
Lemma hoare_reads {E A} (Pre : Process → Prop) (m : Run K E A) (Q : Process → A → Prop) (X : E → Prop) :
  reads m Q X → hoare Pre m (λ a p, Pre p ∧ Q p a) (λ e p, Pre p ∧ X e).
Proof. intros H k Hk. specialize (H (process k) k eq_refl). destruct (m k) as [k' [a|e]]; destruct H as [-> H]; by split. Qed.

(** ** The helpers *)

Section Helpers.
Context {Step : Type}.
Implicit Types (step : Step).
Definition at_step step (e : SealError Step) : Prop := Seal.step e = step.
Abbreviation honest m Q step := (reads m Q (at_step step)).

Lemma or_err_reads {A} (m : Run K IoError A) step Q :
  (∀ k, process (m k).1 = process k ∧ ∀ a, (m k).2 = Ok a → Q (process k) a) → honest (or_err m (os step)) Q step.
Proof.
  intros H p k <-. specialize (H k). unfold or_err. destruct (m k) as [k' [a|e]]; cbn [fst snd] in H; destruct H as [Hp H]; [|done].
  split; [done|]. by apply H.
Qed.
Lemma run_match_reads {A B} (m : Run K IoError A) (f : io A → Run K (SealError Step) B) step Q R :
  (∀ k, let '(k', r) := m k in process k' = process k ∧ Q (process k) r) →
  (∀ r, honest (f r) (λ p b, Q p r → R p b) step) → honest (run_match m f) R step.
Proof.
  intros Hm Hf p k <-. unfold run_match. specialize (Hm k). destruct (m k) as [k' r]. destruct Hm as [Hp Hq].
  specialize (Hf r (process k) k' Hp). destruct (f r k') as [k'' [b|e]]; naive_solver.
Qed.

Lemma ret_reads {A} (a : A) step (Q : Process → A → Prop) : (∀ p, Q p a) → honest (run_ret a) Q step.
Proof. intros H p. apply hoare_ret. naive_solver. Qed.
Lemma fail_reads {A} step failure (Q : Process → A → Prop) : honest (run_err (fail step failure)) Q step.
Proof. by apply reads_err. Qed.
Hint Resolve ret_reads fail_reads : core.

Lemma read_flag_reads call capability (set : Process → Z) step :
  0 ≤ capability →
  (∀ k, let '(k', r) := control call k in process k' = process k ∧ flag_read (process k) (set (process k)) capability r) →
  honest (read_flag call (Some capability) step)
    (λ p flag, capability ≤ p_last_capability p ∧ flag = Z.testbit (set p) capability) step.
Proof.
  intros Hc H. apply (run_match_reads _ _ _ (λ p r, flag_read p (set p) capability r)); [exact H|]. intros [value|error]; [|by destruct (is_einval error)].
  destruct (Z.eqb_spec value 0) as [->|H0]; [|destruct (Z.eqb_spec value 1) as [->|H1]]; try done;
    apply ret_reads; intros p [Hl Hb]; split; try done; by destruct (Z.testbit (set p) capability).
Qed.

Lemma read_flags_reads call (set : Process → Z) step :
  (∀ capability k, 0 ≤ capability →
     let '(k', r) := control (call capability) k in process k' = process k ∧ flag_read (process k) (set (process k)) capability r) →
  honest (read_flags call step) (λ p found, found = set p mod 2 ^ 41) step.
Proof.
  intros H p. unfold read_flags. eapply hoare_weaken.
  - apply (hoare_for_each (λ n found p', p' = p ∧ found = set p mod 2 ^ Z.of_nat n) _ _ _ (λ e p', p' = p ∧ at_step step e) 0).
    intros i a found Hi. apply lookup_seqZ in Hi as [-> Hi]. cbn [Nat.add]. rewrite Z.add_0_l.
    eapply hoare_then.
    + eapply hoare_weaken;
        [apply (hoare_reads (λ p', p' = p ∧ found = set p mod 2 ^ Z.of_nat i)),
           (read_flag_reads (call (Z.of_nat i)) (Z.of_nat i) set step); [lia|intros k; apply H; lia]|done| |naive_solver].
      intros flag p'. exact (λ x, x).
    + intros flag. apply hoare_ret. cbn beta. intros p' ([-> ->] & _ & ->). split; [done|]. rewrite lor_next_bit by lia. do 3 f_equal. lia.
  - intros p' ->. split; [done|]. by rewrite Z.mod_1_r.
  - by intros found p' [-> ->].
  - done.
Qed.

Lemma read_ambient_reads step : honest (read_ambient step) (λ p found, found = p_ambient p mod 2 ^ 41) step.
Proof. apply read_flags_reads. intros capability k H. by apply ambient_reads. Qed.

Lemma read_bounding_reads step :
  honest (read_bounding step) (λ p found, found = p_bounding p ∧ p_last_capability p ≤ 40) step.
Proof.
  eapply reads_weaken; [|intros p a _ H; exact H|done].
  apply (reads_weaken _ (λ p found, found = p_bounding p mod 2 ^ 41 ∧ p_last_capability p ≤ 40) _ (at_step step)); [| |done].
  - eapply reads_then.
    + apply (read_flags_reads Prctl.BoundingRead p_bounding). intros capability k H. by apply bounding_reads.
    + intros found. apply (run_match_reads _ _ _ (λ p r, flag_read p (p_bounding p) (CAP_LAST_CAP + 1) r)).
      * intros k. by apply bounding_reads.
      * intros [value|error]; [done|]. destruct (is_einval error) eqn:E; [|done]. apply ret_reads. intros p H ->.
        specialize (H E). unfold CAP_LAST_CAP in H. split; [done|lia].
  - intros p found Hw [-> Hl]. split; [|done]. apply Z.mod_small. destruct Hw as [_ ? [H0 H1] _]. split; [done|].
    eapply Z.lt_le_trans; [exact H1|]. apply Z.pow_le_mono_r; lia.
Qed.

(** Once the last capability is known, the ambient read is the whole ambient set. *)
Lemma ambient_small p : wf_process p → p_last_capability p ≤ 40 → p_ambient p mod 2 ^ 41 = p_ambient p.
Proof.
  intros Hw Hl. apply Z.mod_small. destruct Hw as [_ ? _ [H0 H1]]. split; [done|].
  eapply Z.lt_le_trans; [exact H1|]. apply Z.pow_le_mono_r; lia.
Qed.

Lemma expect_set_reads step expected found : honest (expect_set step expected found) (λ _ _, found = expected) step.
Proof. unfold expect_set. destruct (Z.eqb_spec found expected) as [->|]; auto. Qed.

Lemma expect_capabilities_reads step expected :
  honest (expect_capabilities step expected) (λ p _, p_capabilities p = expected) step.
Proof.
  eapply reads_then; [apply (or_err_reads _ _ (λ p words, words = capability_words (p_capabilities p))), read_capabilities_reads|]. intros words. cbv zeta. case_bool_decide as E; [|done].
  intros p k <-. cbn. split; [done|]. intros ->. rewrite <-E. symmetry. apply capability_sets_words, process_wf.
Qed.

Lemma expect_no_new_privs_reads step : honest (expect_no_new_privs step) (λ p _, p_no_new_privs p = true) step.
Proof.
  eapply (reads_then _ _ (λ p flag, flag = p_no_new_privs p)).
  - apply (run_match_reads _ _ _ (λ p r, ∀ value, r = Ok value → value = Z.b2z (p_no_new_privs p))).
    + intros k. apply no_new_privs_reads.
    + intros [value|error]; [|done]. destruct (Z.eqb_spec value 0) as [->|H0]; [|destruct (Z.eqb_spec value 1) as [->|H1]]; try done;
        apply ret_reads; intros p H; specialize (H _ eq_refl); by destruct (p_no_new_privs p).
  - intros [|]; [|done]. by apply ret_reads.
Qed.

Lemma expect_no_core_reads step : honest (expect_no_core step) (λ p _, p_core p = NO_CORE) step.
Proof.
  eapply reads_then; [apply (or_err_reads _ _ (λ p found, found = p_core p)), core_limit_reads|]. intros found. case_bool_decide as E; [|done].
  apply ret_reads. by intros p <-.
Qed.

Lemma single_thread_reads step : honest (single_thread step) (λ p _, p_threads p = 1) step.
Proof.
  eapply reads_then; [apply (or_err_reads _ _ (λ p status, status_of (p_threads p) status)), own_status_reads|]. intros status. destruct (status_threads status) as [count|] eqn:E; [|done].
  destruct (Z.eqb_spec count 1) as [->|]; [|done]. apply ret_reads. intros p H%status_threads_reads. congruence.
Qed.

Lemma root_ids_reads ids step (Q : Process → Z * Z * Z) :
  (∀ k, process (ids k).1 = process k ∧ ∀ found, (ids k).2 = Ok found → found = Q (process k)) →
  honest (root_ids ids step) (λ p _, Q p = (0, 0, 0)) step.
Proof.
  intros H. apply (run_match_reads _ _ _ (λ p r, ∀ found, r = Ok found → found = Q p)).
  - intros k. specialize (H k). by destruct (ids k).
  - intros [found|error]; [|done]. case_bool_decide as E; [|done]. subst found. apply ret_reads. intros p Hp. symmetry. by apply Hp.
Qed.

(** *** One statement at a time *)

(** A part with a contract of its own before the rest. *)
Lemma then_part {E A B} p0 (m : Run K E A) (f : A → Run K E B) Mid X Post Exc :
  hoare (λ p, p = p0) m Mid X → (∀ e p, X e p → Exc e p) → (∀ a p1, Mid a p1 → hoare (λ p, p = p1) (f a) Post Exc) →
  hoare (λ p, p = p0) (run_then m f) Post Exc.
Proof.
  intros Hm He Hf. eapply hoare_then.
  - eapply hoare_weaken; [exact Hm|done|intros a p H; exact H|done].
  - intros a. apply hoare_known. intros p1. apply Hf.
Qed.
(** A read before the rest. *)
Lemma then_read {A B} Pre (m : Run K (SealError Step) A) (f : A → Run K (SealError Step) B) Q step Post Exc :
  honest m Q step → (∀ e p, Pre p → at_step step e → Exc e p) →
  (∀ a, hoare (λ p, (Pre p ∧ wf_process p) ∧ Q p a) (f a) Post Exc) → hoare Pre (run_then m f) Post Exc.
Proof.
  intros Hm He Hf. eapply hoare_then; [|exact Hf]. intros k Hk. pose proof (Hm (process k) k eq_refl) as H.
  destruct (m k) as [k' [a|e]]; destruct H as [-> H]; [|by apply He]. split; [split|done]; [done|]. apply process_wf.
Qed.
(** A write before the rest: [W] relates what it leaves to what it found. *)
Lemma then_write {A B} Pre (m : Run K IoError A) (f : A → Run K (SealError Step) B) (W : Process → Process → Prop) step Post Exc :
  (∀ k, W (process k) (process (m k).1)) → (∀ e p p', Pre p → W p p' → at_step step e → Exc e p') →
  (∀ a, hoare (λ p', ∃ p, Pre p ∧ W p p') (f a) Post Exc) → hoare Pre (run_then (or_err m (os step)) f) Post Exc.
Proof.
  intros Hm He Hf. eapply hoare_then; [|exact Hf]. intros k Hk. specialize (Hm k). unfold or_err.
  destruct (m k) as [k' [a|e]]; cbn [fst] in Hm; [by exists (process k)|]. by eapply He.
Qed.

(** The last call: the filter is in place exactly when it succeeds. *)
Lemma install_installs program length step p0 :
  hoare (λ p, p = p0) (install program length step) (λ _ p, p = filtered program length p0) (λ e p, p = p0 ∧ at_step step e).
Proof.
  intros k <-. unfold install, run_match. pose proof (install_filter_writes k program length) as H.
  destruct (install_filter program length k) as [k' [value|error]]; cbv zeta in H; [|done].
  destruct (Z.eqb_spec value 0) as [->|H0]; [done|]. destruct value; [done|..]; done.
Qed.
End Helpers.
End Triples.

(** The next statement of a proof: a read whose error leaves what was known. *)
Tactic Notation "seal_read" uconstr(read) := eapply then_read; [apply read|by intros; destruct_and?; subst|].
