(* ===== verification/GateSeal.v ===== *)
(** * The gate's process seal ([effect-gate/src/seal.rs])

    Two stages around the gate's start-up: stage 1 keeps only CAP_SETPCAP, where it is held; stage 2 drops it, asserts
    the final state and installs the filter.  Every write is read back. *)

From S2P Require Import Prelude Slices Observation Programs Seal SealProofs.
Import Seal.

Module GateSeal.

Definition CAP_SETPCAP : Z := 8.
Definition PROGRAM_X86_64 : list Z := GATE_X86_64.
Definition PROGRAM_AARCH64 : list Z := GATE_AARCH64.

Module Arch.
Inductive t := X86_64 | Aarch64.
Definition program (arch : t) : list Z := match arch with X86_64 => PROGRAM_X86_64 | Aarch64 => PROGRAM_AARCH64 end.
End Arch.

(** Where the seal stopped. *)
Module SealStep.
Inductive t :=
| Threads (stage : Stage.t) | UserIds | GroupIds | StartCapabilities | StartBounding | Program | CoreLimit | CoreLimitReadBack
| AmbientClear | AmbientReadBack | BoundingDrop (stage : Stage.t) (capability : Z) | BoundingReadBack (stage : Stage.t)
| Capabilities (stage : Stage.t) | CapabilitiesReadBack (stage : Stage.t) | NoNewPrivs | NoNewPrivsReadBack
| FinalCapabilities | FinalBounding | FinalAmbient | FinalNoNewPrivs | FinalCoreLimit | Filter.
End SealStep.

Record StartSets := mkStartSets { ss_capabilities : CapabilitySets; ss_bounding : Z }.
Record Plan := mkPlan {
  pl_stage1_drops : list Z;
  pl_stage1_bounding : Z;
  pl_stage1_capabilities : Z;
  pl_stage2_drops : list Z;
  pl_arch : Arch.t;
  pl_length : Z;
}.

Definition plan (start : StartSets) (arch : Arch.t) : result Plan (SealError SealStep.t) :=
  let program := Arch.program arch in
  let? length := result_of_option (filter_length program) (fail SealStep.Program (SealFailure.ProgramLength (zlen program))) in
  let kept := bit CAP_SETPCAP in
  let stage1_bounding := Z.land (ss_bounding start) kept in
  Ok (mkPlan (members (Z.land (ss_bounding start) (U64_MAX - kept))) stage1_bounding
        (Z.land (cs_permitted (ss_capabilities start)) kept) (members stage1_bounding) arch length).

Section Engine.
Context {K : Type} {O : SealOps K}.
Abbreviation run A := (Run K (SealError SealStep.t) A).

Definition drop_bounding (stage : Stage.t) (drops : list Z) (target : Z) : run unit :=
  let~ _ := for_each drops tt (λ _ capability,
    let~ _ := or_err (control (Prctl.BoundingDrop capability)) (os (SealStep.BoundingDrop stage capability)) in run_ret tt) in
  let step := SealStep.BoundingReadBack stage in
  let~ found := read_bounding step in
  expect_set step target found.

Definition set_capabilities (stage : Stage.t) (target : Z) : run unit :=
  let sets := mkCaps target target 0 in
  let~ _ := or_err (write_capabilities (capability_words sets)) (os (SealStep.Capabilities stage)) in
  expect_capabilities (SealStep.CapabilitiesReadBack stage) sets.

Definition of_result {A} (r : result A (SealError SealStep.t)) : run A := λ k, (k, r).

Definition run_stage1 (arch : Arch.t) : run Plan :=
  let~ _ := single_thread (SealStep.Threads Stage.One) in
  let~ _ := root_ids user_ids SealStep.UserIds in
  let~ _ := root_ids group_ids SealStep.GroupIds in
  let~ words := or_err read_capabilities (os SealStep.StartCapabilities) in
  let~ bounding := read_bounding SealStep.StartBounding in
  let~ plan := of_result (plan (mkStartSets (capability_sets words) bounding) arch) in
  let~ _ := or_err (core_limit (Some NO_CORE)) (os SealStep.CoreLimit) in
  let~ _ := expect_no_core SealStep.CoreLimitReadBack in
  let~ _ := or_err (control Prctl.AmbientClearAll) (os SealStep.AmbientClear) in
  let~ ambient := read_ambient SealStep.AmbientReadBack in
  let~ _ := expect_set SealStep.AmbientReadBack 0 ambient in
  let~ _ := drop_bounding Stage.One (pl_stage1_drops plan) (pl_stage1_bounding plan) in
  let~ _ := set_capabilities Stage.One (pl_stage1_capabilities plan) in
  let~ _ := or_err (control Prctl.SetNoNewPrivs) (os SealStep.NoNewPrivs) in
  let~ _ := expect_no_new_privs SealStep.NoNewPrivsReadBack in
  run_ret plan.

Definition run_stage2 (plan : Plan) : run unit :=
  let~ _ := single_thread (SealStep.Threads Stage.Two) in
  let~ _ := drop_bounding Stage.Two (pl_stage2_drops plan) 0 in
  let~ _ := set_capabilities Stage.Two 0 in
  let~ _ := expect_capabilities SealStep.FinalCapabilities CapabilitySets_default in
  let~ bounding := read_bounding SealStep.FinalBounding in
  let~ _ := expect_set SealStep.FinalBounding 0 bounding in
  let~ ambient := read_ambient SealStep.FinalAmbient in
  let~ _ := expect_set SealStep.FinalAmbient 0 ambient in
  let~ _ := expect_no_new_privs SealStep.FinalNoNewPrivs in
  let~ _ := expect_no_core SealStep.FinalCoreLimit in
  install (Arch.program (pl_arch plan)) (pl_length plan) SealStep.Filter.
End Engine.
End GateSeal.
Import GateSeal.

(** ** What the seal leaves *)

(** Nothing held, no core dump, no new privileges, and [filter]. *)
Definition sealed (filter : option (list Z * Z)) (p : Process) : Process :=
  mkProcess CapabilitySets_default 0 0 (p_last_capability p) true NO_CORE (p_user_ids p) (p_group_ids p) 1 filter.

(** The steps before the first write. *)
Definition early (step : SealStep.t) : Prop :=
  match step with
  | SealStep.Threads Stage.One | SealStep.UserIds | SealStep.GroupIds | SealStep.StartCapabilities | SealStep.StartBounding
  | SealStep.Program => True
  | _ => False
  end.

Section Proofs.
Context {K : Type} {O : SealOps K} {HK : SealKernel K}.

Lemma drop_bounding_hoare stage drops target p0 :
  hoare (λ p, p = p0) (drop_bounding stage drops target)
    (λ _ p, p_last_capability p0 ≤ 40 ∧ p = with_bounding target p0)
    (λ e p, ¬ early (step e) ∧ ∃ set, p = with_bounding set p0).
Proof.
  unfold drop_bounding. eapply hoare_then.
  - eapply hoare_weaken; [apply (hoare_for_each (λ _ _ p, ∃ set, p = with_bounding set p0)
        _ _ _ (λ e p, ¬ early (step e) ∧ ∃ set, p = with_bounding set p0) 0)| |intros a p H; exact H|done].
    + intros i capability _ _. eapply (then_write _ _ _ (λ p p', ∃ set, p' = with_bounding set p)).
      * intros k. apply bounding_writes.
      * intros e p p' [set ->] [set' ->] He. rewrite He. split; [intros []|by exists set'].
      * intros _. apply hoare_ret. intros p' (p & [set ->] & set' & ->). by exists set'.
    + intros p ->. exists (p_bounding p0). by destruct p0.
  - intros []. eapply then_read; [apply read_bounding_reads| |].
    { intros e p [set ->] He. rewrite He. split; [intros []|by exists set]. }
    intros found. eapply hoare_weaken; [apply hoare_reads, expect_set_reads|intros p H; exact H| |].
    + cbv beta. intros _ p ((([set ->] & _) & -> & Hl) & Hf). cbn in *. by subst.
    + cbv beta. intros e p ((([set ->] & _) & _) & He). rewrite He. split; [intros []|by exists set].
Qed.

Lemma set_capabilities_hoare stage target p0 :
  hoare (λ p, p = p0) (set_capabilities stage target)
    (λ _ p, ∃ ambient, Z.land ambient (p_ambient p0) = ambient ∧ p = with_ambient ambient (with_capabilities (mkCaps target target 0) p0))
    (λ e p, ¬ early (step e) ∧ ∃ sets ambient, p = with_ambient ambient (with_capabilities sets p0)).
Proof.
  unfold set_capabilities. cbv zeta.
  eapply (then_write _ _ _ (λ p p', ∃ sets ambient, Z.land ambient (p_ambient p) = ambient ∧ p' = with_ambient ambient (with_capabilities sets p))).
  - intros k. apply write_capabilities_writes.
  - intros e p p' -> (sets & ambient & _ & ->) He. rewrite He. split; [intros []|by exists sets, ambient].
  - intros _. eapply hoare_weaken; [apply hoare_reads, expect_capabilities_reads|intros p H; exact H| |]; cbv beta.
    + intros _ p ((? & -> & sets & ambient & Ha & ->) & Hc). exists ambient. split; [done|]. cbn in Hc. by subst sets.
    + intros e p ((? & -> & sets & ambient & _ & ->) & He). rewrite He. split; [intros []|by exists sets, ambient].
Qed.

(** The final-state assertion and the filter, over the process the writes left. *)
Lemma gate_final_assertion plan p1 :
  hoare (λ p, p = p1)
    (let~ _ := expect_capabilities SealStep.FinalCapabilities CapabilitySets_default in
     let~ bounding := read_bounding SealStep.FinalBounding in
     let~ _ := expect_set SealStep.FinalBounding 0 bounding in
     let~ ambient := read_ambient SealStep.FinalAmbient in
     let~ _ := expect_set SealStep.FinalAmbient 0 ambient in
     let~ _ := expect_no_new_privs SealStep.FinalNoNewPrivs in
     let~ _ := expect_no_core SealStep.FinalCoreLimit in
     install (Arch.program (pl_arch plan)) (pl_length plan) SealStep.Filter)
    (λ _ p, p = filtered (Arch.program (pl_arch plan)) (pl_length plan) p1 ∧
       p_capabilities p1 = CapabilitySets_default ∧ p_bounding p1 = 0 ∧ p_ambient p1 = 0 ∧ p_no_new_privs p1 = true ∧
       p_core p1 = NO_CORE)
    (λ _ p, p = p1).
Proof.
  seal_read expect_capabilities_reads. intros []. seal_read read_bounding_reads. intros bounding.
  seal_read expect_set_reads. intros []. seal_read read_ambient_reads. intros ambient. seal_read expect_set_reads. intros [].
  seal_read expect_no_new_privs_reads. intros []. seal_read expect_no_core_reads. intros [].
  intros k Hk. cbv beta in Hk. pose proof (install_installs (Arch.program (pl_arch plan)) (pl_length plan) SealStep.Filter (process k) k eq_refl) as H.
  destruct_and? Hk. destruct (install _ _ _ k) as [k' [[]|e]]; [|by destruct H as [-> _]]. subst.
  rewrite H. split; [done|]. repeat (split; [done|]).
  match goal with |- p_ambient ?p = 0 ∧ _ => rewrite <-(ambient_small p) by done end. by repeat split.
Qed.

(** [C17] Stage 2 of the gate's seal, over any kernel that behaves as Linux documents: when it returns Ok, the process had
    one thread and holds no capability in any set, its core limit is 0/0, no_new_privs is set and the published filter
    for its architecture is in place; when it returns an error, no filter was installed. *)
Theorem gate_seal_is_final plan k k' r :
  run_stage2 plan k = (k', r) →
  match r with
  | Ok _ => p_threads (process k) = 1 ∧
            process k' = sealed (Some (Arch.program (pl_arch plan), pl_length plan)) (process k)
  | Err _ => p_filter (process k') = p_filter (process k)
  end.
Proof.
  assert (H : hoare (λ p, p = process k) (run_stage2 plan)
    (λ _ p, p_threads (process k) = 1 ∧ p = sealed (Some (Arch.program (pl_arch plan), pl_length plan)) (process k))
    (λ _ p, p_filter p = p_filter (process k))); [|intros E; specialize (H k eq_refl); by rewrite E in H].
  generalize (process k). clear k. intros p0. unfold run_stage2. seal_read single_thread_reads. intros [].
  apply hoare_known. intros p [[-> _] Ht].
  eapply then_part; [apply drop_bounding_hoare|by intros e p (_ & set & ->)|]. intros [] p [Hl ->].
  eapply then_part; [apply set_capabilities_hoare|by intros e p (_ & sets & ambient & ->)|]. intros [] p (ambient & _ & ->).
  eapply hoare_weaken; [apply gate_final_assertion|exact (λ p H, H)| |by intros e p ->].
  intros [] p (-> & Hc & Hb & Ha & Hn & Hcore). split; [done|]. cbn in *. subst. unfold sealed, filtered. cbn. by rewrite Hn, Hcore, Ht.
Qed.

(** An error of a later step. *)
Ltac late := intros; match goal with H : at_step _ _ |- _ => rewrite H; intros [] end.

(** After the start state was read: every change of stage 1, and what it leaves. *)
Lemma gate_stage1_writes plan p0 :
  p_last_capability p0 ≤ 40 →
  hoare (λ p, p = p0)
    (let~ _ := or_err (core_limit (Some NO_CORE)) (os SealStep.CoreLimit) in
     let~ _ := expect_no_core SealStep.CoreLimitReadBack in
     let~ _ := or_err (control Prctl.AmbientClearAll) (os SealStep.AmbientClear) in
     let~ ambient := read_ambient SealStep.AmbientReadBack in
     let~ _ := expect_set SealStep.AmbientReadBack 0 ambient in
     let~ _ := drop_bounding Stage.One (pl_stage1_drops plan) (pl_stage1_bounding plan) in
     let~ _ := set_capabilities Stage.One (pl_stage1_capabilities plan) in
     let~ _ := or_err (control Prctl.SetNoNewPrivs) (os SealStep.NoNewPrivs) in
     let~ _ := expect_no_new_privs SealStep.NoNewPrivsReadBack in
     run_ret plan)
    (λ a p, a = plan ∧
       p = mkProcess (mkCaps (pl_stage1_capabilities plan) (pl_stage1_capabilities plan) 0) (pl_stage1_bounding plan) 0
             (p_last_capability p0) true NO_CORE (p_user_ids p0) (p_group_ids p0) (p_threads p0) (p_filter p0))
    (λ e _, ¬ early (step e)).
Proof.
  intros Hl.
  eapply (then_write _ _ _ (λ p p', ∃ core, p' = with_core core p)); [intros k; apply core_limit_writes|late|].
  intros _. eapply then_read; [apply expect_no_core_reads|late|]. intros [].
  apply hoare_known. intros p [[(? & -> & core & ->) _] Hcore]. cbn in Hcore. subst core.
  eapply (then_write _ _ _ (λ p p', ∃ set, p' = with_ambient set p)); [intros k; apply ambient_writes|late|].
  intros _. eapply then_read; [apply read_ambient_reads|late|]. intros ambient.
  eapply then_read; [apply expect_set_reads|late|]. intros [].
  apply hoare_known. intros p [[[[(? & -> & set & ->) Hw] Ha] _] ->]. rewrite ambient_small in Ha by done. cbn in Ha. subst set.
  eapply then_part; [apply drop_bounding_hoare|by intros e p [H _]|]. intros [] p [_ ->].
  eapply then_part; [apply set_capabilities_hoare|by intros e p [H _]|]. intros [] p (ambient & Ham & ->).
  cbn in Ham. rewrite Z.land_0_r in Ham. subst ambient.
  eapply (then_write _ _ _ (λ p p', ∃ flag, p' = with_no_new_privs flag p)); [intros k; apply no_new_privs_writes|late|].
  intros _. eapply then_read; [apply expect_no_new_privs_reads|late|]. intros [].
  apply hoare_ret. intros p [[(? & -> & flag & ->) _] Hf]. cbn in Hf. subst flag. by split.
Qed.

(** Stage 1 keeps CAP_SETPCAP where it is held and nothing else; a start it refuses is left as it was. *)
Theorem gate_stage1_is_checked arch k k' r :
  run_stage1 arch k = (k', r) →
  let p := process k in
  let kept := Z.land (cs_permitted (p_capabilities p)) (bit CAP_SETPCAP) in
  match r with
  | Ok plan =>
      p_user_ids p = (0, 0, 0) ∧ p_group_ids p = (0, 0, 0) ∧ p_threads p = 1 ∧
      GateSeal.plan (mkStartSets (p_capabilities p) (p_bounding p)) arch = Ok plan ∧
      process k' = mkProcess (mkCaps kept kept 0) (Z.land (p_bounding p) (bit CAP_SETPCAP)) 0 (p_last_capability p) true
                     NO_CORE (0, 0, 0) (0, 0, 0) 1 (p_filter p)
  | Err e => early (step e) → process k' = p
  end.
Proof.
  intros E.
  pose proof (process_wf k) as Hw. revert Hw.
  assert (H : ∀ p0, wf_process p0 → hoare (λ p, p = p0) (run_stage1 arch)
    (λ plan p, p_user_ids p0 = (0, 0, 0) ∧ p_group_ids p0 = (0, 0, 0) ∧ p_threads p0 = 1 ∧
       GateSeal.plan (mkStartSets (p_capabilities p0) (p_bounding p0)) arch = Ok plan ∧
       p = mkProcess (mkCaps (pl_stage1_capabilities plan) (pl_stage1_capabilities plan) 0) (pl_stage1_bounding plan) 0
             (p_last_capability p0) true NO_CORE (p_user_ids p0) (p_group_ids p0) (p_threads p0) (p_filter p0))
    (λ e p, early (step e) → p = p0)).
  { intros p0 Hw. unfold run_stage1. seal_read single_thread_reads. intros [].
    seal_read (root_ids_reads user_ids _ p_user_ids user_ids_reads). intros [].
    seal_read (root_ids_reads group_ids _ p_group_ids group_ids_reads). intros [].
    seal_read (or_err_reads _ _ (λ p words, words = capability_words (p_capabilities p)) read_capabilities_reads). intros words.
    seal_read read_bounding_reads. intros bounding. apply hoare_known. intros p Hp. destruct_and? Hp. subst.
    rewrite capability_sets_words by apply Hw. unfold of_result.
    apply hoare_result; [intros a Ep|by intros e p _ ->].
    eapply hoare_weaken; [apply gate_stage1_writes; done|exact (λ p H, H)| |by intros e p He Hn].
    by intros a' p [-> ->]. }
  intros Hw. specialize (H _ Hw k eq_refl). rewrite E in H. destruct r as [a|e]; [|done]. cbv zeta.
  destruct H as (Hu & Hg & Ht & Hpl & ->). rewrite Hu, Hg, Ht. repeat (split; [done|]).
  unfold plan in Hpl. destruct (filter_length _); [|done]. by injection Hpl as <-.
Qed.
End Proofs.
