(* ===== verification/RoleSeal.v ===== *)
(** * The role-neutral process seal ([role-seal/src/lib.rs]) and the roles that use it

    The seal of the observer and of the broker ([observer/src/seal.rs], [broker/src/seal.rs]): a start state that must
    already be the role's, stage 1, stage 2, and the statuses their failures exit with. *)

From S2P Require Import Prelude Slices Observation Programs Seal SealProofs.
Import Seal.

Module RoleSeal.

Record RoleSpec := mkSpec { rs_bounding : Z; rs_kept : Z; rs_program : list Z; rs_instructions : Z }.

(** Where the seal stopped. *)
Module SealStep.
Inductive t :=
| Threads (stage : Stage.t) | UserIds | GroupIds | StartCapabilities | StartBounding | StartAmbient | StartState | Program
| CoreLimit | CoreLimitReadBack | Ambient | Capabilities | CapabilitiesReadBack | NoNewPrivs | NoNewPrivsReadBack
| FinalCapabilities | FinalBounding | FinalAmbient | FinalNoNewPrivs | FinalCoreLimit | Filter.
End SealStep.

Record StartSets := mkStartSets { ss_capabilities : CapabilitySets; ss_bounding : Z; ss_ambient : Z }.
Record Plan := mkPlan { pl_spec : RoleSpec; pl_length : Z }.

Definition accept_start (spec : RoleSpec) (start : StartSets) : result unit (SealError SealStep.t) :=
  if negb (ss_bounding start =? rs_bounding spec) then
    Err (fail SealStep.StartState (SealFailure.StartBounding (ss_bounding start)))
  else if negb (Z.land (cs_permitted (ss_capabilities start)) (rs_kept spec) =? rs_kept spec) then
    Err (fail SealStep.StartState (SealFailure.StartPermitted (cs_permitted (ss_capabilities start))))
  else if negb (ss_ambient start =? 0) then
    Err (fail SealStep.StartState (SealFailure.StartAmbient (ss_ambient start)))
  else Ok tt.

Definition plan (spec : RoleSpec) : result Plan (SealError SealStep.t) :=
  let refused := Err (fail SealStep.Program (SealFailure.ProgramLength (zlen (rs_program spec)))) in
  match filter_length (rs_program spec) with
  | Some length => if length =? rs_instructions spec then Ok (mkPlan spec length) else refused
  | None => refused
  end.

Definition kept_sets (spec : RoleSpec) : CapabilitySets := mkCaps (rs_kept spec) (rs_kept spec) 0.

Section Engine.
Context {K : Type} {O : SealOps K}.
Abbreviation run A := (Run K (SealError SealStep.t) A).

Definition run_stage1 (spec : RoleSpec) : run Plan :=
  let~ _ := single_thread (SealStep.Threads Stage.One) in
  let~ _ := root_ids user_ids SealStep.UserIds in
  let~ _ := root_ids group_ids SealStep.GroupIds in
  let~ words := or_err read_capabilities (os SealStep.StartCapabilities) in
  let~ bounding := read_bounding SealStep.StartBounding in
  let~ ambient := read_ambient SealStep.StartAmbient in
  let~ _ := (λ k, (k, accept_start spec (mkStartSets (capability_sets words) bounding ambient))) in
  let~ plan := (λ k, (k, plan spec)) in
  let~ _ := or_err (core_limit (Some NO_CORE)) (os SealStep.CoreLimit) in
  let~ _ := expect_no_core SealStep.CoreLimitReadBack in
  let~ ambient := read_ambient SealStep.Ambient in
  let~ _ := expect_set SealStep.Ambient 0 ambient in
  let~ _ := or_err (write_capabilities (capability_words (kept_sets spec))) (os SealStep.Capabilities) in
  let~ _ := expect_capabilities SealStep.CapabilitiesReadBack (kept_sets spec) in
  let~ _ := or_err (control Prctl.SetNoNewPrivs) (os SealStep.NoNewPrivs) in
  let~ _ := expect_no_new_privs SealStep.NoNewPrivsReadBack in
  run_ret plan.

Definition run_stage2 (plan : Plan) : run unit :=
  let~ _ := single_thread (SealStep.Threads Stage.Two) in
  let~ _ := expect_capabilities SealStep.FinalCapabilities (kept_sets (pl_spec plan)) in
  let~ bounding := read_bounding SealStep.FinalBounding in
  let~ _ := expect_set SealStep.FinalBounding (rs_bounding (pl_spec plan)) bounding in
  let~ ambient := read_ambient SealStep.FinalAmbient in
  let~ _ := expect_set SealStep.FinalAmbient 0 ambient in
  let~ _ := expect_no_new_privs SealStep.FinalNoNewPrivs in
  let~ _ := expect_no_core SealStep.FinalCoreLimit in
  install (rs_program (pl_spec plan)) (pl_length plan) SealStep.Filter.
End Engine.
End RoleSeal.

(** ** The observer's specification ([observer/src/seal.rs]) *)
Module ObserverSeal.
Import RoleSeal.
Definition CAP_NET_ADMIN : Z := 12.
Definition CAP_BPF : Z := 39.
Definition KEPT : Z := Z.lor (Z.shiftl 1 CAP_NET_ADMIN) (Z.shiftl 1 CAP_BPF).
Definition PROGRAM_X86_64 : list Z := OBSERVER_X86_64.
Definition PROGRAM_AARCH64 : list Z := OBSERVER_AARCH64.
Definition INSTRUCTIONS_X86_64 : Z := 253.
Definition INSTRUCTIONS_AARCH64 : Z := 242.
Module Arch.
Inductive t := X86_64 | Aarch64.
Definition program (arch : t) : list Z := match arch with X86_64 => PROGRAM_X86_64 | Aarch64 => PROGRAM_AARCH64 end.
Definition instructions (arch : t) : Z := match arch with X86_64 => INSTRUCTIONS_X86_64 | Aarch64 => INSTRUCTIONS_AARCH64 end.
End Arch.
(** [arch] is the architecture the crate is compiled for. *)
Definition observer_spec (arch : Arch.t) : RoleSpec := mkSpec KEPT KEPT (Arch.program arch) (Arch.instructions arch).
End ObserverSeal.

(** ** The broker's specification and its check of the start state ([broker/src/seal.rs]) *)
Module BrokerSeal.
Import RoleSeal.
Definition CAP_SETGID : Z := 6.
Definition CAP_SETUID : Z := 7.
Definition CAP_NET_ADMIN : Z := 12.
Definition CAP_BPF : Z := 39.
Definition KEPT : Z :=
  Z.lor (Z.lor (Z.lor (Z.shiftl 1 CAP_NET_ADMIN) (Z.shiftl 1 CAP_BPF)) (Z.shiftl 1 CAP_SETUID)) (Z.shiftl 1 CAP_SETGID).
Definition PROGRAM_X86_64 : list Z := BROKER_X86_64.
Definition PROGRAM_AARCH64 : list Z := BROKER_AARCH64.
Definition INSTRUCTIONS_X86_64 : Z := 326.
Definition INSTRUCTIONS_AARCH64 : Z := 311.
Module Arch.
Inductive t := X86_64 | Aarch64.
Definition program (arch : t) : list Z := match arch with X86_64 => PROGRAM_X86_64 | Aarch64 => PROGRAM_AARCH64 end.
Definition instructions (arch : t) : Z := match arch with X86_64 => INSTRUCTIONS_X86_64 | Aarch64 => INSTRUCTIONS_AARCH64 end.
End Arch.
Definition spec (arch : Arch.t) : RoleSpec := mkSpec KEPT KEPT (Arch.program arch) (Arch.instructions arch).

Module StartCheck.
Inductive t := Status | FsUid | FsGid | Groups.
#[global] Instance t_eq_dec : EqDecision t.
Proof. solve_decision. Defined.
End StartCheck.
Inductive SealError := Start (check : StartCheck.t) | Seal (error : Seal.SealError SealStep.t).

(** The one line with [prefix], after it. *)
Fixpoint one_line_of (found : option (list Z)) (lines : list (list Z)) (prefix : list Z) : option (list Z) :=
  match lines with
  | [] => found
  | line :: lines =>
      match strip_prefix prefix line with
      | None => one_line_of found lines prefix
      | Some rest => match found with Some _ => None | None => one_line_of (Some rest) lines prefix end
      end
  end.
Definition one_line (status prefix : list Z) : option (list Z) := one_line_of None (split_on NEWLINE status) prefix.

Definition u32_checked_mul (x y : Z) : option Z := if x * y <? U32 then Some (x * y) else None.
Definition u32_checked_add (x y : Z) : option Z := if x + y <? U32 then Some (x + y) else None.
Fixpoint decimal_of (value : Z) (field : list Z) : option Z :=
  match field with
  | [] => Some value
  | digit :: field =>
      if negb (is_digit digit) then None
      else
        let* value := u32_checked_mul value 10 in
        let* value := u32_checked_add value (digit - 48) in
        decimal_of value field
  end.
Definition decimal (field : list Z) : option Z := if bool_decide (field = []) then None else decimal_of 0 field.

Definition is_blank (byte : Z) : bool := (byte =? 32) || (byte =? 9).
(** [split] on blanks. *)
Fixpoint split_blank (l : list Z) : list (list Z) :=
  match l with
  | [] => [[]]
  | byte :: l =>
      if is_blank byte then [] :: split_blank l
      else match split_blank l with piece :: pieces => (byte :: piece) :: pieces | [] => [[byte]] end
  end.

Definition filesystem_id (status prefix : list Z) : option Z :=
  let* rest := one_line status prefix in
  let fields := filter (λ field, field ≠ []) (split_blank rest) in
  match fields with
  | [real; effective; saved; filesystem] =>
      let* _ := decimal real in
      let* _ := decimal effective in
      let* _ := decimal saved in
      decimal filesystem
  | _ => None
  end.
Definition groups_empty (status : list Z) : option bool :=
  let* rest := one_line status (bytes_of "Groups:") in Some (forallb is_blank rest).

Definition pre_check (status : io (list Z)) : result unit StartCheck.t :=
  match status with
  | Err _ => Err StartCheck.Status
  | Ok status =>
      if negb (bool_decide (filesystem_id status (bytes_of "Uid:") = Some 0)) then Err StartCheck.FsUid
      else if negb (bool_decide (filesystem_id status (bytes_of "Gid:") = Some 0)) then Err StartCheck.FsGid
      else if negb (bool_decide (groups_empty status = Some true)) then Err StartCheck.Groups
      else Ok tt
  end.

Section Stages.
Context {K : Type} {O : SealOps K}.
(** [running] is the architecture the crate is compiled for. *)
Definition seal_stage1 (running : Arch.t) : Run K SealError Plan :=
  let~ _ := run_match (or_err own_status id) (λ status, or_err (λ k, (k, pre_check status)) Start) in
  or_err (run_stage1 (spec running)) Seal.
Definition seal_stage2 (plan : Plan) : Run K SealError unit := or_err (run_stage2 plan) Seal.
End Stages.
End BrokerSeal.

(** ** The broker's exit statuses ([broker/src/status.rs]) *)
Module BrokerStatus.
Import RoleSeal BrokerSeal.
Definition NOT_LINUX : Z := 2.
Definition NOT_YET_SERVING : Z := 10.
Definition CONFIG_READ : Z := 11.
Definition CONFIG_SIGNATURE : Z := 12.
Definition CONFIG_CHECK : Z := 13.
Definition LISTENER : Z := 24.
Definition START_STATUS : Z := 36.
Definition START_FS_UID : Z := 37.
Definition START_FS_GID : Z := 38.
Definition START_GROUPS : Z := 39.

Definition seal_step (step : SealStep.t) : Z :=
  match step with
  | SealStep.Threads Stage.One => 40
  | SealStep.UserIds => 41
  | SealStep.GroupIds => 42
  | SealStep.StartCapabilities => 43
  | SealStep.StartBounding => 44
  | SealStep.StartAmbient => 45
  | SealStep.StartState => 46
  | SealStep.Program => 47
  | SealStep.CoreLimit => 48
  | SealStep.CoreLimitReadBack => 49
  | SealStep.Ambient => 50
  | SealStep.Capabilities => 51
  | SealStep.CapabilitiesReadBack => 52
  | SealStep.NoNewPrivs => 53
  | SealStep.NoNewPrivsReadBack => 54
  | SealStep.Threads Stage.Two => 60
  | SealStep.FinalCapabilities => 61
  | SealStep.FinalBounding => 62
  | SealStep.FinalAmbient => 63
  | SealStep.FinalNoNewPrivs => 64
  | SealStep.FinalCoreLimit => 65
  | SealStep.Filter => 66
  end.
Definition start (check : StartCheck.t) : Z :=
  match check with
  | StartCheck.Status => START_STATUS
  | StartCheck.FsUid => START_FS_UID
  | StartCheck.FsGid => START_FS_GID
  | StartCheck.Groups => START_GROUPS
  end.
Definition seal (error : BrokerSeal.SealError) : Z :=
  match error with Start check => start check | Seal error => seal_step (step error) end.
End BrokerStatus.

(** * What a role's seal leaves

    Stage 1 and stage 2 over any kernel that behaves as Linux documents ([SealKernel]). *)

Import Seal RoleSeal.

(** The process a role runs as: its kept set and nothing else. *)
Definition role_process (spec : RoleSpec) (filter : option (list Z * Z)) (p : Process) : Process :=
  mkProcess (kept_sets spec) (rs_bounding spec) 0 (p_last_capability p) true NO_CORE (p_user_ids p) (p_group_ids p)
    (p_threads p) filter.

(** The steps before the first write. *)
Definition early (step : SealStep.t) : Prop :=
  match step with
  | SealStep.Threads Stage.One | SealStep.UserIds | SealStep.GroupIds | SealStep.StartCapabilities | SealStep.StartBounding
  | SealStep.StartAmbient | SealStep.StartState | SealStep.Program => True
  | _ => False
  end.

(** The start state a role's seal goes on from. *)
Record may_seal (spec : RoleSpec) (p : Process) : Prop := {
  may_threads : p_threads p = 1;
  may_user : p_user_ids p = (0, 0, 0);
  may_group : p_group_ids p = (0, 0, 0);
  may_bounding : p_bounding p = rs_bounding spec;
  may_permitted : Z.land (cs_permitted (p_capabilities p)) (rs_kept spec) = rs_kept spec;
  may_ambient : p_ambient p = 0;
  may_program : filter_length (rs_program spec) = Some (rs_instructions spec);
}.

(** [accept_start] and [plan] in one condition. *)
Lemma accept_start_Ok spec start :
  accept_start spec start = Ok tt ↔
  ss_bounding start = rs_bounding spec ∧ Z.land (cs_permitted (ss_capabilities start)) (rs_kept spec) = rs_kept spec ∧
  ss_ambient start = 0.
Proof.
  unfold accept_start.
  destruct (Z.eqb_spec (ss_bounding start) (rs_bounding spec)), (Z.eqb_spec (Z.land (cs_permitted (ss_capabilities start)) (rs_kept spec)) (rs_kept spec)),
    (Z.eqb_spec (ss_ambient start) 0); cbn; naive_solver.
Qed.
Lemma plan_Ok spec a :
  RoleSeal.plan spec = Ok a ↔ filter_length (rs_program spec) = Some (rs_instructions spec) ∧ a = mkPlan spec (rs_instructions spec).
Proof.
  unfold RoleSeal.plan. destruct (filter_length _) as [length|]; [|naive_solver].
  destruct (Z.eqb_spec length (rs_instructions spec)) as [->|]; naive_solver.
Qed.

(** An error of a later step. *)
Ltac late := intros; match goal with H : at_step _ _ |- _ => rewrite H; split; [intros []|] end.

Section Proofs.
Context {K : Type} {O : SealOps K} {HK : SealKernel K}.

Lemma role_stage1_writes spec (a : Plan) p0 :
  p_last_capability p0 ≤ 40 →
  hoare (λ p, p = p0)
    (let~ _ := or_err (core_limit (Some NO_CORE)) (os SealStep.CoreLimit) in
     let~ _ := expect_no_core SealStep.CoreLimitReadBack in
     let~ ambient := read_ambient SealStep.Ambient in
     let~ _ := expect_set SealStep.Ambient 0 ambient in
     let~ _ := or_err (write_capabilities (capability_words (kept_sets spec))) (os SealStep.Capabilities) in
     let~ _ := expect_capabilities SealStep.CapabilitiesReadBack (kept_sets spec) in
     let~ _ := or_err (control Prctl.SetNoNewPrivs) (os SealStep.NoNewPrivs) in
     let~ _ := expect_no_new_privs SealStep.NoNewPrivsReadBack in
     run_ret a)
    (λ b p, b = a ∧ p = mkProcess (kept_sets spec) (p_bounding p0) 0 (p_last_capability p0) true NO_CORE (p_user_ids p0)
                        (p_group_ids p0) (p_threads p0) (p_filter p0))
    (λ e p, ¬ early (step e) ∧ p_filter p = p_filter p0).
Proof.
  intros Hl.
  eapply (then_write _ _ _ (λ p p', ∃ core, p' = with_core core p)); [intros k; apply core_limit_writes|late; naive_solver|].
  intros _. eapply then_read; [apply expect_no_core_reads|late; naive_solver|]. intros [].
  apply hoare_known. intros p [[(? & -> & core & ->) _] Hcore]. cbn in Hcore. subst core.
  eapply then_read; [apply read_ambient_reads|late; naive_solver|]. intros ambient.
  eapply then_read; [apply expect_set_reads|late; naive_solver|]. intros [].
  apply hoare_known. intros p [[[[-> Hw] Ha] _] ->]. rewrite ambient_small in Ha by done. cbn in Ha.
  eapply (then_write _ _ _ (λ p p', ∃ sets ambient, Z.land ambient (p_ambient p) = ambient ∧ p' = with_ambient ambient (with_capabilities sets p)));
    [intros k; apply write_capabilities_writes|late; naive_solver|].
  intros _. eapply then_read; [apply expect_capabilities_reads|late; naive_solver|]. intros [].
  apply hoare_known. intros p [[(? & -> & sets & ambient & Ham & ->) _] Hc]. cbn in Hc, Ham. rewrite <-Ha, Z.land_0_r in Ham. subst sets ambient.
  eapply (then_write _ _ _ (λ p p', ∃ flag, p' = with_no_new_privs flag p)); [intros k; apply no_new_privs_writes|late; naive_solver|].
  intros _. eapply then_read; [apply expect_no_new_privs_reads|late; naive_solver|]. intros [].
  apply hoare_ret. intros p [[(? & -> & flag & ->) _] Hf]. cbn in Hf. subst flag. by split.
Qed.

Lemma role_stage1_hoare spec p0 :
  wf_process p0 →
  hoare (λ p, p = p0) (run_stage1 spec)
    (λ a p, may_seal spec p0 ∧ a = mkPlan spec (rs_instructions spec) ∧ p = role_process spec (p_filter p0) p0)
    (λ e p, (early (step e) → p = p0) ∧ p_filter p = p_filter p0).
Proof.
  intros Hw. unfold run_stage1. seal_read single_thread_reads. intros [].
  seal_read (root_ids_reads user_ids _ p_user_ids user_ids_reads). intros [].
  seal_read (root_ids_reads group_ids _ p_group_ids group_ids_reads). intros [].
  seal_read (or_err_reads _ _ (λ p words, words = capability_words (p_capabilities p)) read_capabilities_reads). intros words.
  seal_read read_bounding_reads. intros bounding. seal_read read_ambient_reads. intros ambient.
  apply hoare_known. intros p Hp. destruct_and? Hp. subst. rewrite capability_sets_words by apply Hw. rewrite ambient_small by done.
  apply hoare_result; [intros [] (Hb & Hc & Ha)%accept_start_Ok|by intros e p _ ->]. cbn in Hb, Hc, Ha.
  apply hoare_result; [intros a [Hpl ->]%plan_Ok|by intros e p _ ->].
  eapply hoare_weaken; [by apply role_stage1_writes|exact (λ p H, H)| |naive_solver].
  intros a p [-> ->]. split; [by split|]. split; [done|]. unfold role_process. by rewrite Hb.
Qed.

Lemma role_stage2_hoare a p0 :
  hoare (λ p, p = p0) (run_stage2 a)
    (λ _ p, p = role_process (pl_spec a) (Some (rs_program (pl_spec a), pl_length a)) p0 ∧ p_threads p0 = 1)
    (λ e p, ¬ early (step e) ∧ p = p0).
Proof.
  assert (Hdone : hoare (λ p, p = p0) (run_stage2 a)
    (λ _ p, p = role_process (pl_spec a) (Some (rs_program (pl_spec a), pl_length a)) p0 ∧ p_threads p0 = 1) (λ e p, p = p0 ∧ ¬ early (step e)));
    [|eapply hoare_weaken; [exact Hdone|exact (λ p H, H)|naive_solver|naive_solver]].
  unfold run_stage2.
  do 8 (eapply then_read; [first [apply single_thread_reads|apply expect_capabilities_reads|apply read_bounding_reads|apply expect_set_reads
      |apply read_ambient_reads|apply expect_no_new_privs_reads|apply expect_no_core_reads]
    |by intros e p Hp ->; destruct_and? Hp; subst; split; [|intros []]|intros ?]).
  apply hoare_known. intros p Hp. destruct_and? Hp. subst.
  eapply hoare_weaken; [apply install_installs|exact (λ p H, H)| |by intros e p [-> ->]; split; [|intros []]].
  intros [] p ->. split; [|done]. unfold filtered, role_process. rewrite <-(ambient_small p0) by done. congruence.
Qed.

(** [C18] A role's seal, its two stages one after the other as [main] runs them, over any kernel that behaves as Linux
    documents.  Ok: the start state was the role's (one thread, root, the bounding set exactly the specification's, the
    kept set permitted, nothing ambient, the program of its pinned length), and the process now holds exactly the kept
    set, nothing inheritable or ambient, core limit 0/0, no_new_privs, and the role's filter.  An error installs no
    filter, and one before the first write leaves the process as it was. *)
Theorem role_seal_is_exact spec k k' r :
  (let~ a := run_stage1 spec in run_stage2 a) k = (k', r) →
  match r with
  | Ok _ => may_seal spec (process k) ∧
            process k' = role_process spec (Some (rs_program spec, rs_instructions spec)) (process k)
  | Err e => p_filter (process k') = p_filter (process k) ∧ (early (step e) → process k' = process k)
  end.
Proof.
  intros E.
  assert (H : hoare (λ p, p = process k) (let~ a := run_stage1 spec in run_stage2 a)
    (λ _ p, may_seal spec (process k) ∧ p = role_process spec (Some (rs_program spec, rs_instructions spec)) (process k))
    (λ e p, p_filter p = p_filter (process k) ∧ (early (step e) → p = process k)));
    [|specialize (H k eq_refl); by rewrite E in H].
  eapply then_part; [apply role_stage1_hoare, process_wf|naive_solver|]. intros a p (Hm & -> & ->).
  eapply hoare_weaken; [apply role_stage2_hoare|exact (λ p H, H)| |].
  - intros [] p [-> _]. by split.
  - intros e p [He ->]. by split.
Qed.
End Proofs.
