(* ===== verification/Lifecycle.v ===== *)
(** * The broker's lifecycle ([broker/src/lifecycle])

    The startup run over the seam's traits: the readers of the leaf's and the child's files ([text]), the bounded waits
    ([wait]), HOLD ([hold]), NP-9's bracket ([np9]), W6's sequence ([w6]) and the run itself ([run]).  The traits of
    [ops.rs] and [seams.rs] are the methods of [Seams]; the crate that implements them makes raw system calls.  Every
    [io::Error] is discarded by the code, so a call answers an option, or a bool for a write.  The waits are loops over
    a clock: they run on fuel, and a run that lacks it has no outcome. *)

From S2P Require Import Prelude Slices Observation PeerWire.
(** ** Outcomes ([outcome.rs]) *)

Module Step.
Inductive t :=
| HoldRead | HoldPopulated | HoldFrozen | HoldStanding | W5Open | W5Measure | W5Compare | Pair | W1Read | W1NotEmpty
| W1Freeze | W1NotFrozen | W1NotEmptyOnReread | W1FailThaw | W2Spawn | W2MaskRestore | W3Read | W3Membership
| W3Credentials | W3Groups | W3Label | W3Descriptors | Bind | W4Thaw | Np9Freeze | Np9Events | Np9Thaw
| W6Freeze | W6Kill | W6NotEmpty | W6Reap | W6Release.
End Step.

(** broker-sys's data ([broker-sys/src/lib.rs]). *)
Module LeafWrite.
Inductive t := Freeze | Thaw | Kill.
#[global] Instance t_eq_dec : EqDecision t.
Proof. solve_decision. Defined.
End LeafWrite.
Module Reaped.
Inductive t := Exited (status : Z) | Killed (status : Z) | Dumped (status : Z).
End Reaped.
Record FdIdentity := mkFdIdentity { fi_number : Z; fi_dev : Z; fi_ino : Z }.
Record W3Expect := mkW3Expect { we_channel : FdIdentity; we_script : FdIdentity }.
Record FdEntry := mkFdEntry { fe_number : Z; fe_dev : Z; fe_ino : Z; fe_mode : Z }.

Module Outcome.
Inductive t :=
| CapacityHeld (step : Step.t) | NotSpawned (step : Step.t) | Cleaned (step : Step.t) | Held (step : Step.t)
| Ended (reaped : Reaped.t) | Unavailable.
End Outcome.

(** ** The readers ([text.rs]) *)

Module Text.
Definition BROKER_LABEL : string := "system_u:system_r:planeon_broker_t:s0".
Definition S_IFMT : Z := 0xF000.
Definition S_IFSOCK : Z := 0xC000.

Record Events := mkEvents { ev_populated : bool; ev_frozen : bool }.

(** One line's effect on the two slots. *)
Definition event_line (slots : option bool * option bool) (line : list Z) : option (option bool * option bool) :=
  let '(populated, frozen) := slots in
  let* space := position (Z.eqb SPACE) line in
  let key := take space line in
  let value := drop (S space) line in
  let flag := if bool_decide (value = bytes_of "0") then Some false
              else if bool_decide (value = bytes_of "1") then Some true else None in
  let replace (slot : option bool) :=
    let* flag := flag in match slot with Some _ => None | None => Some (Some flag) end in
  if bool_decide (key = bytes_of "populated") then let* slot := replace populated in Some (slot, frozen)
  else if bool_decide (key = bytes_of "frozen") then let* slot := replace frozen in Some (populated, slot)
  else Some slots.
Fixpoint event_lines (slots : option bool * option bool) (lines : list (list Z)) : option (option bool * option bool) :=
  match lines with
  | [] => Some slots
  | line :: lines => let* slots := event_line slots line in event_lines slots lines
  end.
Definition events (text : list Z) : option Events :=
  let* slots := event_lines (None, None) (split_on NEWLINE (strip_newline text)) in
  let* populated := slots.1 in
  let* frozen := slots.2 in
  Some (mkEvents populated frozen).

Definition is_domain (text : list Z) : bool := bool_decide (strip_newline text = bytes_of "domain").
Definition procs_empty (text : list Z) : bool := bool_decide (text = []).

Definition status_line (status key : list Z) : option (list Z) :=
  match filter (λ line, starts_with key line = true) (split_on NEWLINE status) with
  | [line] => Some (drop (length key) line)
  | _ => None
  end.
Definition is_blank (byte : Z) : bool := (byte =? 9) || (byte =? 32).
Fixpoint split_blank (l : list Z) : list (list Z) :=
  match l with
  | [] => [[]]
  | byte :: l =>
      if is_blank byte then [] :: split_blank l
      else match split_blank l with piece :: pieces => (byte :: piece) :: pieces | [] => [[byte]] end
  end.
Definition ids_are_root (status key : list Z) : bool :=
  match status_line status key with
  | None => false
  | Some rest =>
      let fields := filter (λ field, field ≠ []) (split_blank rest) in
      Nat.eqb (length fields) 4 && forallb (λ field, bool_decide (field = bytes_of "0")) fields
  end.
Definition groups_empty (status : list Z) : bool :=
  match status_line status (bytes_of "Groups:") with None => false | Some rest => forallb is_blank rest end.

Definition decimal (text : list Z) : option Z :=
  if bool_decide (text = []) || negb (forallb is_digit text) then None
  else let value := digits_value text in if value <=? U64_MAX then Some value else None.

Definition i32_try_from (value : Z) : option Z := if (- 2 ^ 31 <=? value) && (value <? 2 ^ 31) then Some value else None.

Definition stat_identity (stat : list Z) : option (Z * Z) :=
  let* opens := position (Z.eqb 40) stat in
  let* close := rposition 41 stat in
  if Nat.ltb close opens then None
  else
    let* head := strip_suffix_byte SPACE (take opens stat) in
    let* pid := decimal head in
    let* pid := i32_try_from pid in
    let rest := strip_newline (drop (S close) stat) in
    let* rest := match rest with byte :: rest => if byte =? SPACE then Some rest else None | [] => None end in
    let* field := split_on SPACE rest !! 19%nat in
    let* start := decimal field in
    Some (pid, start).

Definition in_leaf (cgroup : list Z) (membership : string) : bool :=
  let body := strip_newline cgroup in
  negb (bool_decide (membership = "")) && starts_with (bytes_of "0::") body
    && bool_decide (drop 3 body = bytes_of membership).

(** The table in the order of its numbers; an entry is looked up by its number. *)
Definition number_le (x y : FdEntry) : Prop := fe_number x ≤ fe_number y.
#[global] Instance number_le_dec x y : Decision (number_le x y).
Proof. unfold number_le. apply _. Defined.
Fixpoint repeats (table : list FdEntry) : bool :=
  match table with
  | first :: ((second :: _) as rest) => (fe_number first =? fe_number second) || repeats rest
  | _ => false
  end.
Definition entry_at (table : list FdEntry) (number : Z) : option FdEntry :=
  List.find (λ entry, fe_number entry =? number) table.
Definition descriptors_hold (table : list FdEntry) (expect : W3Expect) : bool :=
  let table := merge_sort number_le table in
  if repeats table then false
  else
    let stdio := forallb (λ number, match entry_at table number with
                                    | Some found => negb (Z.land (fe_mode found) S_IFMT =? S_IFSOCK)
                                    | None => false
                                    end) [0; 1; 2] in
    let source (identity : FdIdentity) :=
      match entry_at table (fi_number identity) with
      | Some found => (fe_dev found =? fi_dev identity) && (fe_ino found =? fi_ino identity)
      | None => false
      end in
    stdio && source (we_channel expect) && source (we_script expect).
End Text.

(** ** The seam ([ops.rs], [seams.rs]) *)

Module LeafFile.
Inductive t := Type_ | Events | Procs.
End LeafFile.
Module ProcFile.
Inductive t := Status | Stat | Cgroup | AttrCurrent.
End ProcFile.
Record GateTicket := mkGateTicket { gt_generation : Z }.
Module GateAnswer.
Inductive t := Qualified (ticket : GateTicket) | Unavailable.
End GateAnswer.
Record BindTicket := mkBindTicket { bt_pid : Z; bt_start_ticks : Z }.
Module BindAnswer.
Inductive t := Bound (ticket : BindTicket) | Unavailable.
End BindAnswer.

Class Seams (W Script ChannelEnd Plan Child : Type) := {
  leaf_read : LeafFile.t → W → W * option (list Z);
  leaf_write : LeafWrite.t → W → W * bool;
  open_script : W → W * option Script;
  measure : Script → W → W * option (Z * list Z);
  channel_pair : W → W * option (ChannelEnd * ChannelEnd);
  plan : Z → ChannelEnd → Script → W → W * option (Plan * W3Expect);
  spawn : Plan → W → W * option Child;
  (** Two methods over [&self] that read the child only. *)
  child_pid : Child → Z;
  mask_restored : Child → bool;
  proc_read : Child → ProcFile.t → W → W * option (list Z);
  fd_table : Child → W → W * option (list FdEntry);
  (** [Err] and [Ok(None)] are both no reap. *)
  reap : Child → W → W * option Reaped.t;
  now_ms : W → W * Z;
  sleep_ms : Z → W → W;
  qualify : W → W * GateAnswer.t;
  bind : GateTicket → Z → Z → W → W * BindAnswer.t;
}.

(** ** HOLD's standing state ([hold.rs]) *)

Record Standing (Child : Type) := mkStanding { st_held : option Step.t; st_kept : list Child }.
Arguments mkStanding {Child} _ _.
Arguments st_held {Child} _.
Arguments st_kept {Child} _.
Definition Standing_new {Child} : Standing Child := mkStanding None [].
(** [Standing::hold]: a later step keeps the first one's name. *)
Definition hold {Child} (step : Step.t) (s : Standing Child) : Standing Child :=
  match st_held s with None => mkStanding (Some step) (st_kept s) | Some _ => s end.
Definition keep {Child} (child : Child) (s : Standing Child) : Standing Child := mkStanding (st_held s) (st_kept s ++ [child]).

(** ** Bounds *)

Definition POLL_MS : Z := 100.
Definition FREEZE_WAIT_MS : Z := 2000.
Definition NP9_HOLD_MS : Z := 70000.
Definition NP9_RESERVE_MS : Z := 12000.
Definition W6_BOUND_MS : Z := 10000.
Definition VERITY_SHA256 : Z := 1.
Definition LEAF_PATH : string := "/sys/fs/cgroup/planeon.slice/planeon-capacity-broker.service/probe-worker".
Definition MOUNT_BYTES : nat := 14.
Definition membership : string := string_of (drop MOUNT_BYTES (bytes_of LEAF_PATH)).

Definition U32_MAX : Z := 2 ^ 32 - 1.
Definition sat_sub_u64 (x y : Z) : Z := Z.max 0 (x - y).
Definition sat_mul_u64 (x y : Z) : Z := Z.min U64_MAX (x * y).

Module Skip.
Inductive t := Remaining | NotFrozen.
End Skip.
Module Bracket.
Inductive t := Taken (frozen_ms thawed_ms : Z) | Skipped (skip : Skip.t) | Failed (step : Step.t) | Expired.
End Bracket.
Module W6End.
Inductive t := Released (reaped : option Reaped.t) | Held (step : Step.t).
End W6End.
Record W6Report := mkW6Report { wr_end : W6End.t; wr_recorded : option Step.t; wr_entry_ms : Z }.
Module Entry.
Inductive t := Failed (step : Step.t) | Unavailable | WorkerEnd | Deadline.
End Entry.

(** The signed configuration's members the run reads. *)
Record RunConfig := mkRunConfig { rc_worker_uid : Z; rc_verity_digest : list Z; rc_deadline_seconds : Z }.

(** ** The run *)

(** A computation over the seam; [None] is a wait that ran out of fuel. *)
Definition Run (W A : Type) : Type := W → W * option A.
Definition ret {W A} (a : A) : Run W A := λ w, (w, Some a).
Definition out_of_fuel {W A} : Run W A := λ w, (w, None).
Definition andthen {W A B} (m : Run W A) (f : A → Run W B) : Run W B :=
  λ w, let '(w, r) := m w in match r with Some a => f a w | None => (w, None) end.
Definition call {W A} (m : W → W * A) : Run W A := λ w, let '(w, a) := m w in (w, Some a).
Notation "'let^' x := m 'in' f" := (andthen m (λ x, f))
  (at level 10, x pattern, m at level 100, f at level 200) : result_scope.

Section Run.
Context {W Script ChannelEnd Plan Child : Type} {HS : Seams W Script ChannelEnd Plan Child}.
Abbreviation run A := (Run W A).

(** *** Waits ([wait.rs]) *)

Definition nap (ms : Z) : run unit := λ w, (sleep_ms (if ms <=? U32_MAX then ms else U32_MAX) w, Some tt).

Fixpoint poll {T} (fuel : nat) (bound : Z) (check : run (option T)) : run (option T) :=
  match fuel with
  | O => out_of_fuel
  | S fuel =>
      let^ now := call now_ms in
      if bound <? now then ret None
      else
        let^ found := check in
        match found with
        | Some found => ret (Some found)
        | None =>
            if bound <=? now then ret None
            else let^ _ := nap (Z.min (sat_sub_u64 bound now) POLL_MS) in poll fuel bound check
        end
  end.

(** *** HOLD ([hold.rs]) *)

(** [leaf.read(LeafFile::Events).ok().and_then(text::events)] *)
Definition read_events : run (option Text.Events) :=
  let^ bytes := call (leaf_read LeafFile.Events) in ret (let* bytes := bytes in Text.events bytes).

Definition derive (standing : bool) : run (option Step.t) :=
  let^ events := read_events in
  ret (match events with
       | None => Some Step.HoldRead
       | Some events =>
           if Text.ev_populated events then Some Step.HoldPopulated
           else if Text.ev_frozen events then Some Step.HoldFrozen
           else if standing then Some Step.HoldStanding
           else None
       end).

(** *** NP-9's bracket ([np9.rs]) *)

Definition frozen_check : run (option (option Z)) :=
  let^ events := read_events in
  match events with
  | None => ret (Some None)
  | Some events => if Text.ev_frozen events then let^ now := call now_ms in ret (Some (Some now)) else ret None
  end.

(** The hold from the [frozen 1] read; false at the deadline. *)
Fixpoint hold_frozen (fuel : nat) (deadline_ms hold_end : Z) : run bool :=
  match fuel with
  | O => out_of_fuel
  | S fuel =>
      let^ now := call now_ms in
      if deadline_ms <=? now then ret false
      else if hold_end <=? now then ret true
      else let^ _ := nap (sat_sub_u64 (Z.min hold_end deadline_ms) now) in hold_frozen fuel deadline_ms hold_end
  end.

Definition bracket (fuel : nat) (deadline_ms : Z) : run Bracket.t :=
  let^ now := call now_ms in
  if sat_sub_u64 deadline_ms now <? sat_add_u64 NP9_HOLD_MS NP9_RESERVE_MS then ret (Bracket.Skipped Skip.Remaining)
  else
    let^ ok := call (leaf_write LeafWrite.Freeze) in
    if negb ok then ret (Bracket.Failed Step.Np9Freeze)
    else
      let^ now := call now_ms in
      let^ seen := poll fuel (sat_add_u64 now FREEZE_WAIT_MS) frozen_check in
      match seen with
      | Some None => ret (Bracket.Failed Step.Np9Events)
      | None =>
          let^ ok := call (leaf_write LeafWrite.Thaw) in
          ret (if ok : bool then Bracket.Skipped Skip.NotFrozen else Bracket.Failed Step.Np9Thaw)
      | Some (Some frozen_ms) =>
          let^ held := hold_frozen fuel deadline_ms (sat_add_u64 frozen_ms NP9_HOLD_MS) in
          if negb held then ret Bracket.Expired
          else
            let^ ok := call (leaf_write LeafWrite.Thaw) in
            if negb ok then ret (Bracket.Failed Step.Np9Thaw)
            else let^ now := call now_ms in ret (Bracket.Taken frozen_ms now)
      end.

(** *** W6's sequence ([w6.rs]) *)

Definition shown_empty : run bool :=
  let^ events := read_events in
  match events with
  | Some events =>
      if Text.ev_populated events then ret false
      else
        let^ procs := call (leaf_read LeafFile.Procs) in
        ret (match procs with Some bytes => Text.procs_empty bytes | None => false end)
  | None => ret false
  end.

Definition sequence (fuel : nat) (child : option Child) (reaped : option Reaped.t) : run W6Report :=
  let^ entry_ms := call now_ms in
  let bound := sat_add_u64 entry_ms W6_BOUND_MS in
  let^ frozen := call (leaf_write LeafWrite.Freeze) in
  let recorded := if negb frozen then Some Step.W6Freeze else None in
  let^ killed := call (leaf_write LeafWrite.Kill) in
  let recorded := match recorded with None => if negb killed then Some Step.W6Kill else None | Some _ => recorded end in
  let held step := mkW6Report (W6End.Held step) recorded entry_ms in
  let^ empty := poll fuel bound (let^ empty := shown_empty in ret (if empty : bool then Some tt else None)) in
  match empty with
  | None => ret (held Step.W6NotEmpty)
  | Some _ =>
      let^ reaped :=
        match child, reaped with
        | Some child, None =>
            let^ found := poll fuel bound (call (reap child)) in
            ret (match found with Some found => Some (Some found) | None => None end)
        | _, already => ret (Some already)
        end in
      match reaped with
      | None => ret (held Step.W6Reap)
      | Some reaped =>
          let^ ok := call (leaf_write LeafWrite.Thaw) in
          ret (if negb ok then held Step.W6Release else mkW6Report (W6End.Released reaped) recorded entry_ms)
      end
  end.

(** *** The steps ([run.rs]) *)

Definition w5 (config : RunConfig) : run (result (Script * (ChannelEnd * ChannelEnd)) Step.t) :=
  let^ script := call open_script in
  match script with
  | None => ret (Err Step.W5Open)
  | Some script =>
      let^ measured := call (measure script) in
      match measured with
      | None => ret (Err Step.W5Measure)
      | Some (algorithm, digest) =>
          if negb (algorithm =? VERITY_SHA256) || negb (bool_decide (digest = rc_verity_digest config))
          then ret (Err Step.W5Compare)
          else
            let^ ends := call channel_pair in
            ret (match ends with Some ends => Ok (script, ends) | None => Err Step.Pair end)
      end
  end.

(** An outcome, with the standing state it leaves. *)
Abbreviation ended := (Outcome.t * Standing Child)%type.

Definition w1_failure (standing : Standing Child) (step : Step.t) : run ended :=
  let^ events := read_events in
  let empty := match events with Some events => negb (Text.ev_populated events) | None => false end in
  if negb empty then ret (Outcome.CapacityHeld Step.W1NotEmptyOnReread, hold Step.W1NotEmptyOnReread standing)
  else
    let^ ok := call (leaf_write LeafWrite.Thaw) in
    ret (if negb ok then (Outcome.CapacityHeld Step.W1FailThaw, hold Step.W1FailThaw standing)
         else (Outcome.NotSpawned step, standing)).

Definition w1 (fuel : nat) (standing : Standing Child) : run (result unit ended) :=
  let^ leaf_type := call (leaf_read LeafFile.Type_) in
  match leaf_type with
  | None => ret (Err (Outcome.NotSpawned Step.W1Read, standing))
  | Some leaf_type =>
      let^ events := read_events in
      match events with
      | None => ret (Err (Outcome.NotSpawned Step.W1Read, standing))
      | Some events =>
          let^ procs := call (leaf_read LeafFile.Procs) in
          match procs with
          | None => ret (Err (Outcome.NotSpawned Step.W1Read, standing))
          | Some procs =>
              if negb (Text.is_domain leaf_type) || Text.ev_populated events || negb (Text.procs_empty procs)
              then ret (Err (Outcome.NotSpawned Step.W1NotEmpty, standing))
              else
                let^ ok := call (leaf_write LeafWrite.Freeze) in
                if negb ok then let^ o := w1_failure standing Step.W1Freeze in ret (Err o)
                else
                  let^ now := call now_ms in
                  let^ seen := poll fuel (sat_add_u64 now FREEZE_WAIT_MS)
                    (let^ events := read_events in
                     ret (match events with
                          | None => Some false
                          | Some events => if Text.ev_frozen events then Some true else None
                          end)) in
                  match seen with
                  | Some true => ret (Ok tt)
                  | Some false => let^ o := w1_failure standing Step.W1Read in ret (Err o)
                  | None => let^ o := w1_failure standing Step.W1NotFrozen in ret (Err o)
                  end
          end
      end
  end.

Definition w2 (worker_uid : Z) (child_end : ChannelEnd) (script : Script)
    : run (result (Child * W3Expect) (Step.t * option Child)) :=
  let^ planned := call (plan worker_uid child_end script) in
  match planned with
  | None => ret (Err (Step.W2Spawn, None))
  | Some (plan, expect) =>
      let^ child := call (spawn plan) in
      match child with
      | None => ret (Err (Step.W2Spawn, None))
      | Some child =>
          ret (if negb (mask_restored child) then Err (Step.W2MaskRestore, Some child) else Ok (child, expect))
      end
  end.

(** [W3Passed] is the start ticks W3 read. *)
Definition w3 (child : Child) (expect : W3Expect) : run (result Z Step.t) :=
  let pid := child_pid child in
  let^ cgroup := call (proc_read child ProcFile.Cgroup) in
  match cgroup with
  | None => ret (Err Step.W3Read)
  | Some cgroup =>
      if negb (Text.in_leaf cgroup membership) then ret (Err Step.W3Membership)
      else
        let^ status := call (proc_read child ProcFile.Status) in
        match status with
        | None => ret (Err Step.W3Read)
        | Some status =>
            if negb (Text.ids_are_root status (bytes_of "Uid:")) || negb (Text.ids_are_root status (bytes_of "Gid:"))
            then ret (Err Step.W3Credentials)
            else if negb (Text.groups_empty status) then ret (Err Step.W3Groups)
            else
              let^ label := call (proc_read child ProcFile.AttrCurrent) in
              match label with
              | None => ret (Err Step.W3Read)
              | Some label =>
                  if negb (label_matches label (bytes_of Text.BROKER_LABEL)) then ret (Err Step.W3Label)
                  else
                    let^ stat := call (proc_read child ProcFile.Stat) in
                    match (let* stat := stat in Text.stat_identity stat) with
                    | None => ret (Err Step.W3Read)
                    | Some (stat_pid, start_ticks) =>
                        if negb (stat_pid =? pid) then ret (Err Step.W3Membership)
                        else
                          let^ table := call (fd_table child) in
                          ret (match table with
                               | None => Err Step.W3Read
                               | Some table =>
                                   if negb (Text.descriptors_hold table expect) then Err Step.W3Descriptors
                                   else Ok start_ticks
                               end)
                    end
              end
        end
  end.

Definition after_w6 (fuel : nat) (standing : Standing Child) (child : option Child) (reaped : option Reaped.t) (entry : Entry.t)
    : run ended :=
  let^ report := sequence fuel child reaped in
  let held step :=
    let standing := hold step standing in
    (Outcome.Held step, match child with Some child => keep child standing | None => standing end) in
  ret (match wr_end report, entry with
       | W6End.Released _, Entry.Failed step => (Outcome.Cleaned step, standing)
       | W6End.Released _, Entry.Unavailable => (Outcome.Unavailable, standing)
       | W6End.Released (Some reaped), (Entry.WorkerEnd | Entry.Deadline) => (Outcome.Ended reaped, standing)
       | W6End.Released None, (Entry.WorkerEnd | Entry.Deadline) => held Step.W6Reap
       | W6End.Held step, _ => held step
       end).

(** From an accepted BIND: W4's thaw, the bracket and the window. *)
Definition after_bind (fuel : nat) (config : RunConfig) (standing : Standing Child) (start_ms : Z) (child : Child) : run ended :=
  let^ thawed := call (leaf_write LeafWrite.Thaw) in
  if negb thawed then after_w6 fuel standing (Some child) None (Entry.Failed Step.W4Thaw)
  else
    let deadline_ms := sat_add_u64 start_ms (sat_mul_u64 (rc_deadline_seconds config) 1000) in
    let^ bracketed := bracket fuel deadline_ms in
    match bracketed with
    | Bracket.Failed step => after_w6 fuel standing (Some child) None (Entry.Failed step)
    | Bracket.Expired => after_w6 fuel standing (Some child) None Entry.Deadline
    | Bracket.Taken _ _ | Bracket.Skipped _ =>
        let^ reaped := poll fuel deadline_ms (call (reap child)) in
        let entry := match reaped with Some _ => Entry.WorkerEnd | None => Entry.Deadline end in
        after_w6 fuel standing (Some child) reaped entry
    end.

(** From a spawned child: W3 and BIND. *)
Definition after_spawn (fuel : nat) (config : RunConfig) (standing : Standing Child) (start_ms : Z) (gate : GateTicket)
    (child : Child) (expect : W3Expect) : run ended :=
  let^ passed := w3 child expect in
  match passed with
  | Err step => after_w6 fuel standing (Some child) None (Entry.Failed step)
  | Ok start_ticks =>
      let pid := child_pid child in
      let^ answer := call (bind gate pid start_ticks) in
      match answer with
      | BindAnswer.Bound ticket =>
          if (bt_pid ticket =? pid) && (bt_start_ticks ticket =? start_ticks)
          then after_bind fuel config standing start_ms child
          else after_w6 fuel standing (Some child) None (Entry.Failed Step.Bind)
      | BindAnswer.Unavailable => after_w6 fuel standing (Some child) None Entry.Unavailable
      end
  end.

Definition startup (fuel : nat) (config : RunConfig) (standing : Standing Child) : run ended :=
  let^ start_ms := call now_ms in
  match st_held standing with
  | Some step => ret (Outcome.CapacityHeld step, standing)
  | None =>
      let^ qualified := call qualify in
      match qualified with
      | GateAnswer.Unavailable => ret (Outcome.Unavailable, standing)
      | GateAnswer.Qualified gate =>
          let^ found := w5 config in
          match found with
          | Err step => ret (Outcome.NotSpawned step, standing)
          | Ok (script, (_, child_end)) =>
              let^ held := derive (bool_decide (st_held standing ≠ None)) in
              match held with
              | Some step => ret (Outcome.CapacityHeld step, hold step standing)
              | None =>
                  let^ first := w1 fuel standing in
                  match first with
                  | Err outcome => ret outcome
                  | Ok _ =>
                      let^ spawned := w2 (rc_worker_uid config) child_end script in
                      match spawned with
                      | Err (step, child) => after_w6 fuel standing child None (Entry.Failed step)
                      | Ok (child, expect) => after_spawn fuel config standing start_ms gate child expect
                      end
                  end
              end
          end
      end
  end.

(** serve's HOLD derivation at start over [opened], whether both of the leaf's handles opened. *)
Definition derive_hold (opened : bool) : run (Standing Child) :=
  let^ found := (if opened then derive false else ret (Some Step.HoldRead)) in
  ret (match found with Some step => hold step Standing_new | None => Standing_new end).
Definition startup_run (fuel : nat) (opened : bool) (config : RunConfig) (standing : Standing Child) : run ended :=
  if opened then startup fuel config standing
  else ret (Outcome.CapacityHeld Step.HoldRead, hold Step.HoldRead standing).
End Run.
