(* ===== verification/LifecycleProofs.v ===== *)
(** * The broker's lifecycle is safe

    The startup run over any seam, its calls logged ([logged]): when a leaf is thawed, what became of the child, and
    which standing state a run leaves.  Nothing is assumed of what the calls answer. *)

From S2P Require Import Prelude Slices Observation PeerWire Lifecycle.
(** ** The log of a run *)

Section Log.
Context {W Script ChannelEnd Plan Child : Type} {HS : Seams W Script ChannelEnd Plan Child}.

(** One call and its answer. *)
Inductive Event :=
| ELeaf (file : LeafFile.t) (answer : option (list Z))
| EWrite (what : LeafWrite.t) (ok : bool)
| EScript (ok : bool)
| EMeasure (answer : option (Z * list Z))
| EPair (ok : bool)
| EPlan (uid : Z) (answer : option W3Expect)
| ESpawn (child : option Child)
| EProc (child : Child) (file : ProcFile.t) (answer : option (list Z))
| ETable (child : Child) (answer : option (list FdEntry))
| EReap (child : Child) (answer : option Reaped.t)
| EQualify (answer : GateAnswer.t)
| EBind (gate : GateTicket) (pid start_ticks : Z) (answer : BindAnswer.t).

(** The seam with its calls logged, newest first. *)
Definition Logged : Type := W * list Event.
Definition log_call {A} (m : W → W * A) (event : A → Event) : Logged → Logged * A :=
  λ s, let '(w, a) := m s.1 in ((w, event a :: s.2), a).
Definition is_ok {A} (o : option A) : bool := match o with Some _ => true | None => false end.
#[export] Instance logged : Seams Logged Script ChannelEnd Plan Child := {
  leaf_read file := log_call (leaf_read file) (ELeaf file);
  leaf_write what := log_call (leaf_write what) (EWrite what);
  open_script := log_call open_script (λ a, EScript (is_ok a));
  measure script := log_call (measure script) EMeasure;
  channel_pair := log_call channel_pair (λ a, EPair (is_ok a));
  plan uid child_end script := log_call (plan uid child_end script) (λ a, EPlan uid (snd <$> a));
  spawn plan := log_call (spawn plan) ESpawn;
  child_pid := child_pid;
  mask_restored := mask_restored;
  proc_read child file := log_call (proc_read child file) (EProc child file);
  fd_table child := log_call (fd_table child) (ETable child);
  reap child := log_call (reap child) (EReap child);
  now_ms := λ s, let '(w, now) := now_ms s.1 in ((w, s.2), now);
  sleep_ms ms := λ s, (sleep_ms ms s.1, s.2);
  qualify := log_call qualify EQualify;
  bind gate pid ticks := log_call (bind gate pid ticks) (EBind gate pid ticks);
}.

(** The leaf writes and the spawned children of a log. *)
Definition writes (log : list Event) : list (LeafWrite.t * bool) :=
  omap (λ e, match e with EWrite what ok => Some (what, ok) | _ => None end) log.
Definition spawned (log : list Event) : list Child :=
  omap (λ e, match e with ESpawn child => child | _ => None end) log.
Definition quiet (e : Event) : Prop := match e with EWrite _ _ | ESpawn (Some _) => False | _ => True end.
Definition killed (log : list Event) : Prop := ∃ ok, (LeafWrite.Kill, ok) ∈ writes log.
Definition reaped_in (log : list Event) (child : Child) : Prop := ∃ r, EReap child (Some r) ∈ log.

(** *** When the leaf may be thawed *)

(** The child may run: the measured script is the signed one; the child was spawned with its mask restored, is in the
    leaf, has the broker's credentials, no groups, the broker's label, its pid in its [stat] line and the planned
    descriptors; and the qualified gate bound that pid and start time. *)
Definition admitted (config : RunConfig) (child : Child) (log : list Event) : Prop :=
  ∃ gate expect ticks cgroup status label stat table,
    EQualify (GateAnswer.Qualified gate) ∈ log ∧
    EMeasure (Some (VERITY_SHA256, rc_verity_digest config)) ∈ log ∧
    EPlan (rc_worker_uid config) (Some expect) ∈ log ∧
    mask_restored child = true ∧
    (EProc child ProcFile.Cgroup (Some cgroup) ∈ log ∧ Text.in_leaf cgroup membership = true) ∧
    (EProc child ProcFile.Status (Some status) ∈ log ∧ Text.ids_are_root status (bytes_of "Uid:") = true ∧
       Text.ids_are_root status (bytes_of "Gid:") = true ∧ Text.groups_empty status = true) ∧
    (EProc child ProcFile.AttrCurrent (Some label) ∈ log ∧ label_matches label (bytes_of Text.BROKER_LABEL) = true) ∧
    (EProc child ProcFile.Stat (Some stat) ∈ log ∧ Text.stat_identity stat = Some (child_pid child, ticks)) ∧
    (ETable child (Some table) ∈ log ∧ Text.descriptors_hold table expect = true) ∧
    EBind gate (child_pid child) ticks (BindAnswer.Bound (mkBindTicket (child_pid child) ticks)) ∈ log.

(** The last two reads show the leaf empty. *)
Definition shows_empty (log : list Event) : Prop :=
  ∃ bytes events rest, log = ELeaf LeafFile.Procs (Some []) :: ELeaf LeafFile.Events (Some bytes) :: rest ∧
    Text.events bytes = Some events ∧ Text.ev_populated events = false.
(** The last read shows no process. *)
Definition shows_unpopulated (log : list Event) : Prop :=
  ∃ bytes events rest, log = ELeaf LeafFile.Events (Some bytes) :: rest ∧
    Text.events bytes = Some events ∧ Text.ev_populated events = false.

Definition may_thaw (config : RunConfig) (log : list Event) : Prop :=
  (** W1 failed: no child was ever there. *)
  (spawned log = [] ∧ ¬ killed log ∧ shows_unpopulated log)
  (** The admitted child runs. *)
  ∨ (¬ killed log ∧ ∃ child, spawned log = [child] ∧ admitted config child log)
  (** W6 releases a leaf it killed, read empty since, its child reaped. *)
  ∨ (∃ late before ok early, log = late ++ before ++ EWrite LeafWrite.Kill ok :: early ∧
       writes (late ++ before) = [] ∧ shows_empty before ∧ Forall (reaped_in log) (spawned log)).

Fixpoint lawful (config : RunConfig) (log : list Event) : Prop :=
  match log with
  | [] => True
  | e :: log => match e with EWrite LeafWrite.Thaw _ => may_thaw config log | _ => True end ∧ lawful config log
  end.

(** ** Logs that only grow *)

Lemma leaf_writes_app a b : writes (a ++ b) = writes a ++ writes b.
Proof. apply omap_app. Qed.
Lemma spawned_app a b : spawned (a ++ b) = spawned a ++ spawned b.
Proof. apply omap_app. Qed.
Lemma quiet_writes new : Forall quiet new → writes new = [].
Proof. induction 1 as [|[] l H _ IH]; try done. Qed.
Lemma quiet_spawned new : Forall quiet new → spawned new = [].
Proof. induction 1 as [|[] l H _ IH]; try done. by destruct child. Qed.
Lemma quiet_lawful config new log : Forall quiet new → lawful config log → lawful config (new ++ log).
Proof. induction 1 as [|e l He _ IH]; intros Hl; [done|]. split; [by destruct e|by apply IH]. Qed.
Lemma quiet_killed new log : Forall quiet new → killed (new ++ log) ↔ killed log.
Proof. intros H. unfold killed. by rewrite leaf_writes_app, quiet_writes. Qed.
Lemma admitted_app config child new log : admitted config child log → admitted config child (new ++ log).
Proof.
  intros (gate & expect & ticks & cgroup & status & label & stat & table & H).
  exists gate, expect, ticks, cgroup, status, label, stat, table. rewrite !elem_of_app. naive_solver.
Qed.
Lemma reaped_app child new log : reaped_in log child → reaped_in (new ++ log) child.
Proof. intros [r H]. exists r. apply elem_of_app. by right. Qed.

(** ** Triples over the log *)

(** From a log of [Pre]: an answer leaves one of [Post], a wait that runs out of fuel one of [Exc]. *)
Definition hoare {A} (Pre : list Event → Prop) (m : Run Logged A) (Post : A → list Event → Prop) (Exc : list Event → Prop) : Prop :=
  ∀ w log, Pre log → let '((_, log'), r) := m (w, log) in match r with Some a => Post a log' | None => Exc log' end.

Lemma logged_ret {A} Pre (a : A) Post Exc : (∀ log, Pre log → Post a log) → hoare Pre (ret a) Post Exc.
Proof. intros H w log. apply H. Qed.
Lemma logged_then {A B} Pre (m : Run Logged A) (f : A → Run Logged B) Mid Post Exc :
  hoare Pre m Mid Exc → (∀ a, hoare (Mid a) (f a) Post Exc) → hoare Pre (andthen m f) Post Exc.
Proof.
  intros Hm Hf w log Hl. unfold andthen. specialize (Hm w log Hl). destruct (m (w, log)) as [[w' log'] [a|]]; [|done]. by apply Hf.
Qed.
Lemma logged_weaken {A} (Pre Pre' : list Event → Prop) (m : Run Logged A) (Post Post' : A → list Event → Prop) (Exc Exc' : list Event → Prop) :
  hoare Pre m Post Exc → (∀ l, Pre' l → Pre l) → (∀ a l, Post a l → Post' a l) → (∀ l, Exc l → Exc' l) → hoare Pre' m Post' Exc'.
Proof. intros H H1 H2 H3 w log Hl. specialize (H w log (H1 _ Hl)). destruct (m (w, log)) as [[w' log'] [a|]]; auto. Qed.
Lemma logged_known {A} (Pre : list Event → Prop) (m : Run Logged A) Post Exc :
  (∀ l0, Pre l0 → hoare (λ l, l = l0) m Post Exc) → hoare Pre m Post Exc.
Proof. intros H w log Hl. by apply (H log). Qed.
(** A logged call. *)
Lemma then_call {A B} l0 (m : W → W * A) event (f : A → Run Logged B) Post Exc :
  (∀ a, hoare (λ l, l = event a :: l0) (f a) Post Exc) → hoare (λ l, l = l0) (andthen (call (log_call m event)) f) Post Exc.
Proof. intros H w log ->. unfold andthen, call, log_call. cbn [fst snd]. destruct (m w) as [w' a]. by apply H. Qed.
Lemma then_now {B} l0 (f : Z → Run Logged B) Post Exc :
  (∀ now, hoare (λ l, l = l0) (f now) Post Exc) → hoare (λ l, l = l0) (andthen (call now_ms) f) Post Exc.
Proof. intros H w log ->. unfold andthen, call. cbn. destruct (now_ms w) as [w' now]. by apply H. Qed.
Lemma then_nap {B} l0 ms (f : unit → Run Logged B) Post Exc :
  hoare (λ l, l = l0) (f tt) Post Exc → hoare (λ l, l = l0) (andthen (nap ms) f) Post Exc.
Proof. intros H w log ->. unfold andthen, nap. cbn. by apply H. Qed.
Lemma logged_part {A B} l0 (m : Run Logged A) (f : A → Run Logged B) Mid Post Exc X :
  hoare (λ l, l = l0) m Mid X → (∀ l, X l → Exc l) → (∀ a l1, Mid a l1 → hoare (λ l, l = l1) (f a) Post Exc) →
  hoare (λ l, l = l0) (andthen m f) Post Exc.
Proof.
  intros Hm Hx Hf. eapply logged_then.
  - eapply logged_weaken; [exact Hm|done|intros a l H; exact H|done].
  - intros a. apply logged_known. intros l1. apply Hf.
Qed.

(** A part that adds quiet calls; [Q] is what an answer shows. *)
Definition looks {A} (m : Run Logged A) (Q : A → list Event → Prop) : Prop :=
  ∀ l0, hoare (λ l, l = l0) m (λ a l, (∃ new, l = new ++ l0 ∧ Forall quiet new) ∧ Q a l) (λ l, ∃ new, l = new ++ l0 ∧ Forall quiet new).

Lemma looks_read_events :
  looks read_events (λ events l, ∃ answer rest, l = ELeaf LeafFile.Events answer :: rest ∧ events = (let* bytes := answer in Text.events bytes)).
Proof.
  intros l0. unfold read_events. apply then_call. intros answer. apply logged_ret. intros l ->. split.
  - exists [ELeaf LeafFile.Events answer]. split; [done|]. by repeat constructor.
  - by exists answer, l0.
Qed.

Lemma looks_poll {T} fuel bound (check : Run Logged (option T)) Q :
  looks check Q → looks (poll fuel bound check) (λ r l, match r with Some _ => Q r l | None => True end).
Proof.
  intros Hc. induction fuel as [|fuel IH]; intros l0.
  { intros w log ->. by exists []. }
  cbn [poll]. apply then_now. intros now. destruct (bound <? now).
  { apply logged_ret. intros l ->. split; [by exists []|done]. }
  eapply logged_part; [apply Hc|done|]. intros [found|] l1 [(new & -> & Hn) Hq].
  { apply logged_ret. intros l ->. split; [by exists new|done]. }
  destruct (bound <=? now). { apply logged_ret. intros l ->. split; [by exists new|done]. }
  apply then_nap. eapply logged_weaken; [apply IH|exact (λ l H, H)| |].
  - intros r l [(new' & -> & Hn') Hr]. split; [|done]. exists (new' ++ new). rewrite <-app_assoc. split; [done|]. by apply Forall_app.
  - intros l (new' & -> & Hn'). exists (new' ++ new). rewrite <-app_assoc. split; [done|]. by apply Forall_app.
Qed.

Lemma looks_then {A B} (m : Run Logged A) (f : A → Run Logged B) Q R :
  looks m Q → (∀ a l1, Q a l1 → hoare (λ l, l = l1) (f a) (λ b l, (∃ new, l = new ++ l1 ∧ Forall quiet new) ∧ R b l)
                        (λ l, ∃ new, l = new ++ l1 ∧ Forall quiet new)) → looks (andthen m f) R.
Proof.
  intros Hm Hf l0. eapply logged_part; [apply Hm|done|]. intros a l1 [(new & -> & Hn) Hq].
  eapply logged_weaken; [by apply Hf|exact (λ l H, H)| |].
  - intros b l [(new' & -> & Hn') Hr]. split; [|done]. exists (new' ++ new). rewrite <-app_assoc. split; [done|]. by apply Forall_app.
  - intros l (new' & -> & Hn'). exists (new' ++ new). rewrite <-app_assoc. split; [done|]. by apply Forall_app.
Qed.
Lemma looks_ret {A} (a : A) (R : A → list Event → Prop) l1 :
  R a l1 → hoare (λ l, l = l1) (ret a) (λ b l, (∃ new, l = new ++ l1 ∧ Forall quiet new) ∧ R b l)
             (λ l, ∃ new, l = new ++ l1 ∧ Forall quiet new).
Proof. intros H. apply logged_ret. intros l ->. split; [by exists []|done]. Qed.

Lemma looks_shown_empty : looks shown_empty (λ empty l, empty = true → shows_empty l).
Proof.
  eapply looks_then; [apply looks_read_events|]. intros events l1 (answer & rest & -> & He).
  destruct events as [events|]; [|by apply looks_ret]. destruct (Text.ev_populated events) eqn:Ep; [by apply looks_ret|].
  apply then_call. intros procs. apply logged_ret. intros l ->. split.
  - exists [ELeaf LeafFile.Procs procs]. split; [done|]. by repeat constructor.
  - destruct procs as [procs|]; [|done]. unfold Text.procs_empty. intros Hp%bool_decide_eq_true. subst procs.
    destruct answer as [bytes|]; [|done]. by exists bytes, events, rest.
Qed.
Lemma looks_empty_check :
  looks (let^ empty := shown_empty in ret (if empty : bool then Some tt else None)) (λ r l, r = Some tt → shows_empty l).
Proof. eapply looks_then; [apply looks_shown_empty|]. intros empty l H. apply looks_ret. destruct empty; naive_solver. Qed.
Lemma looks_reap child :
  looks (call (reap child)) (λ r l, match r with Some r => EReap child (Some r) ∈ l | None => True end).
Proof.
  intros l0 w log ->. unfold call. change (reap child (w, l0)) with (log_call (reap child) (EReap child) (w, l0)). unfold log_call. cbn [fst snd].
  destruct (reap child w) as [w' r]. split.
  - exists [EReap child r]. split; [done|]. by repeat constructor.
  - destruct r; [left|done].
Qed.

Lemma shows_empty_late late what ok what' ok' rest :
  shows_empty (late ++ EWrite what ok :: EWrite what' ok' :: rest) → shows_empty late.
Proof.
  intros (bytes & events & rest' & E & H). destruct late as [|x [|y late]]; [done|by destruct x|]. injection E as -> -> _.
  by exists bytes, events, late.
Qed.

(** *** W6 *)

Definition released (log : list Event) : Prop := ∃ rest, writes log = (LeafWrite.Thaw, true) :: rest.

Lemma w6_ends config fuel child reaped l0 :
  lawful config l0 → spawned l0 = option_list child →
  (∀ c r, child = Some c → reaped = Some r → EReap c (Some r) ∈ l0) →
  hoare (λ l, l = l0) (sequence fuel child reaped)
    (λ report l, lawful config l ∧ spawned l = option_list child ∧ killed l ∧
       match wr_end report with
       | W6End.Released reaped' =>
           released l ∧ (∀ c, child = Some c → ∃ r, reaped' = Some r ∧ EReap c (Some r) ∈ l)
       | W6End.Held _ => ¬ released l
       end)
    (lawful config).
Proof.
  intros Hl Hs Hr. unfold sequence. apply then_now. intros entry_ms. apply then_call. intros frozen. apply then_call. intros killed_.
  set (l1 := EWrite LeafWrite.Kill killed_ :: EWrite LeafWrite.Freeze frozen :: l0).
  assert (Hl1 : lawful config l1) by done.
  assert (Hq : ∀ new, Forall quiet new → lawful config (new ++ l1) ∧ spawned (new ++ l1) = option_list child ∧ killed (new ++ l1) ∧ ¬ released (new ++ l1)).
  { intros new Hn. split; [by apply quiet_lawful|]. split; [by rewrite spawned_app, quiet_spawned|].
    split; [rewrite quiet_killed by done; exists killed_; left|]. unfold released. rewrite leaf_writes_app, quiet_writes by done. by intros [rest [=]]. }
  eapply logged_part; [apply looks_poll, looks_empty_check|intros l (new & -> & Hn); by apply Hq|].
  intros [[]|] l2 [(late & -> & Hn) Hemp]; [|by apply logged_ret; intros l ->; apply Hq]. specialize (Hemp eq_refl).
  apply (logged_part _ _ _ (λ r l, ∃ new, l = new ++ late ++ l1 ∧ Forall quiet new ∧
      match r with Some r => ∀ c, child = Some c → ∃ x, r = Some x ∧ EReap c (Some x) ∈ l | None => True end) _ _
      (λ l, ∃ new, l = new ++ late ++ l1 ∧ Forall quiet new)).
  - destruct child as [child|]; [destruct reaped as [reaped|]|].
    + apply logged_ret. intros l ->. exists []. split; [done|]. split; [done|]. intros c [= <-]. exists reaped. split; [done|].
      apply elem_of_app. right. do 2 right. by apply Hr.
    + eapply logged_part; [apply looks_poll, looks_reap|exact (λ l H, H)|].
      intros [found|] l [(new & -> & Hn') Hf]; apply logged_ret; intros l ->; exists new; (split; [done|]); (split; [done|]); [|done].
      intros c [= <-]. by exists found.
    + apply logged_ret. intros l ->. by exists [].
  - intros l (new & -> & Hn'). rewrite app_assoc. apply Hq. by apply Forall_app.
  - intros [reaped'|] l (new & -> & Hn' & Hx).
    + apply then_call. intros ok. apply logged_ret. intros l ->. rewrite app_assoc in Hx |- *.
      destruct (Hq (new ++ late)) as (Q1 & Q2 & Q3 & Q4); [by apply Forall_app|].
      split; [|split; [exact Q2|split; [destruct Q3 as [k Q3]; exists k; by right|]]].
      * split; [|exact Q1]. right. right. exists new, late, killed_, (EWrite LeafWrite.Freeze frozen :: l0).
        rewrite <-app_assoc. split; [done|]. split; [by rewrite leaf_writes_app, !quiet_writes by done|].
        split; [by eapply shows_empty_late|]. rewrite (app_assoc new late l1), Q2. destruct child as [c|]; [|constructor]. repeat constructor.
        destruct (Hx c eq_refl) as (r & -> & Hin). by exists r.
      * destruct ok; cbn; [split; [by eexists|]|by intros [rest [=]]]. 
        intros c Hc. destruct (Hx c Hc) as (r & -> & Hin). exists r. split; [done|by right].
    + apply logged_ret. intros l ->. rewrite app_assoc. apply Hq. by apply Forall_app.
Qed.

(** ** What a run leaves *)

(** Per outcome: the standing state, the child and the leaf's last write. *)
Definition settled (standing standing' : Standing Child) (outcome : Outcome.t) (log : list Event) : Prop :=
  match outcome with
  | Outcome.CapacityHeld step => standing' = hold step standing ∧ spawned log = [] ∧ ¬ released log
  | Outcome.NotSpawned _ => standing' = standing ∧ spawned log = [] ∧ (writes log = [] ∨ released log)
  | Outcome.Held step =>
      standing' = mkStanding (st_held (hold step standing)) (st_kept standing ++ spawned log) ∧ killed log ∧ ¬ released log
  | Outcome.Cleaned _ => standing' = standing ∧ released log ∧ Forall (reaped_in log) (spawned log)
  | Outcome.Ended r => standing' = standing ∧ released log ∧ ∃ child, spawned log = [child] ∧ EReap child (Some r) ∈ log
  | Outcome.Unavailable =>
      standing' = standing ∧
      (log = [EQualify GateAnswer.Unavailable] ∨ released log ∧ ∃ child, spawned log = [child] ∧ reaped_in log child)
  end.

Definition finished config standing (o : Outcome.t * Standing Child) (l : list Event) : Prop :=
  lawful config l ∧ settled standing o.2 o.1 l.

Lemma hold_kept step (s : Standing Child) : st_kept (hold step s) = st_kept s.
Proof. unfold hold. by destruct (st_held s). Qed.

Lemma after_w6_settles config fuel standing child reaped entry l0 :
  lawful config l0 → spawned l0 = option_list child →
  (∀ c r, child = Some c → reaped = Some r → EReap c (Some r) ∈ l0) →
  ((∀ step, entry ≠ Entry.Failed step) → child ≠ None) →
  hoare (λ l, l = l0) (after_w6 fuel standing child reaped entry) (finished config standing) (lawful config).
Proof.
  intros Hl Hs Hr He. unfold after_w6. eapply logged_part; [by apply w6_ends|done|]. intros report l1 (Q1 & Q2 & Q3 & Q4).
  apply logged_ret. intros l ->. cbv zeta.
  assert (Hheld : ∀ step, ¬ released l1 → finished config standing
    (Outcome.Held step, match child with Some child => keep child (hold step standing) | None => hold step standing end) l1).
  { intros step Hn. split; [done|]. cbn. rewrite Q2. split; [|done]. destruct child; cbn; rewrite ?app_nil_r.
    - unfold keep. by rewrite hold_kept.
    - destruct (hold step standing) eqn:E. f_equal. by rewrite <-(hold_kept step standing), E. }
  destruct (wr_end report) as [reaped'|step]; [|by apply Hheld]. destruct Q4 as [Q4 Q5].
  assert (Hf : Forall (reaped_in l1) (spawned l1)).
  { rewrite Q2. destruct child as [c|]; [|constructor]. repeat constructor. destruct (Q5 c eq_refl) as (r & _ & Hin). by exists r. }
  destruct child as [c|]; [destruct (Q5 c eq_refl) as (r & -> & Hin)|].
  - destruct entry; (split; [exact Q1|]); cbn; (split; [done|]); try done; [right; split; [done|]; exists c; split; [done|by exists r]|by split; [|exists c]..].
  - destruct entry, reaped'; try (exfalso; apply He; [|done]; by intros);
      (split; [exact Q1|]); cbn; (split; [done|]); by split.
Qed.

(** The admitted child runs, or is frozen in a bracket. *)
Record runs config (child : Child) (l : list Event) : Prop := {
  runs_lawful : lawful config l;
  runs_alive : ¬ killed l;
  runs_child : spawned l = [child];
  runs_admitted : admitted config child l;
}.
Lemma runs_quiet config child new l : Forall quiet new → runs config child l → runs config child (new ++ l).
Proof.
  intros Hn [H1 H2 H3 H4]. split; [by apply quiet_lawful|by rewrite quiet_killed|by rewrite spawned_app, quiet_spawned|by apply admitted_app].
Qed.
Lemma runs_write config child what ok l : what ≠ LeafWrite.Kill → runs config child l → runs config child (EWrite what ok :: l).
Proof.
  intros Hw [H1 H2 H3 H4]. split; [|intros [k Hk]; cbn in Hk; apply elem_of_cons in Hk as [[= <-]|Hk]; [done|apply H2; by exists k]|done|].
  - split; [|done]. destruct what; try done. right. left. split; [done|]. by exists child.
  - by apply (admitted_app config child [EWrite what ok]).
Qed.

Lemma looks_frozen_check : looks frozen_check (λ _ _, True).
Proof.
  eapply looks_then; [apply looks_read_events|]. intros events l1 _. destruct events as [events|]; [|by apply looks_ret].
  destruct (Text.ev_frozen events); [|by apply looks_ret]. apply then_now. intros now. by apply looks_ret.
Qed.

Lemma hold_frozen_waits fuel deadline_ms hold_end l0 :
  hoare (λ l, l = l0) (hold_frozen fuel deadline_ms hold_end) (λ _ l, l = l0) (λ l, l = l0).
Proof.
  induction fuel as [|fuel IH]; [by intros w log ->|]. cbn [hold_frozen]. apply then_now. intros now.
  destruct (_ <=? _); [by apply logged_ret|]. destruct (_ <=? _); [by apply logged_ret|]. apply then_nap. apply IH.
Qed.

Lemma bracket_runs config child fuel deadline_ms l0 :
  runs config child l0 → hoare (λ l, l = l0) (bracket fuel deadline_ms) (λ _ l, runs config child l) (lawful config).
Proof.
  intros H. unfold bracket. apply then_now. intros now. destruct (_ <? _); [by apply logged_ret; intros l ->|].
  apply then_call. intros ok. assert (H1 : runs config child (EWrite LeafWrite.Freeze ok :: l0)) by by apply runs_write.
  destruct (negb ok); [by apply logged_ret; intros l ->|]. apply then_now. intros now'.
  eapply logged_part; [apply looks_poll, looks_frozen_check|intros l (new & -> & Hn); by apply (runs_quiet config child)|].
  intros [[frozen_ms|]|] l1 [(new & -> & Hn) _]; apply (runs_quiet _ _ new) in H1; try done.
  - eapply logged_part; [apply hold_frozen_waits|intros l ->; apply H1|]. intros held l ->.
    destruct (negb held); [by apply logged_ret; intros l ->|]. apply then_call. intros ok'.
    apply (runs_write _ _ LeafWrite.Thaw ok') in H1; [|done]. destruct (negb ok'); [by apply logged_ret; intros l ->|].
    apply then_now. intros thawed. by apply logged_ret; intros l ->.
  - by apply logged_ret; intros l ->.
  - apply then_call. intros ok'. apply (runs_write _ _ LeafWrite.Thaw ok') in H1; [|done]. by apply logged_ret; intros l ->.
Qed.

Lemma after_bind_settles config fuel standing start_ms child l0 :
  runs config child l0 →
  hoare (λ l, l = l0) (after_bind fuel config standing start_ms child) (finished config standing) (lawful config).
Proof.
  intros H. unfold after_bind. apply then_call. intros ok. apply (runs_write _ _ LeafWrite.Thaw ok) in H; [|done].
  assert (Hw6 : ∀ l reaped entry, runs config child l → (∀ c r, Some child = Some c → reaped = Some r → EReap c (Some r) ∈ l) →
    hoare (λ x, x = l) (after_w6 fuel standing (Some child) reaped entry) (finished config standing) (lawful config)).
  { intros l reaped entry Hr Hin. by apply after_w6_settles; [apply Hr|apply Hr|done|]. }
  destruct (negb ok); [by apply Hw6|]. cbv zeta.
  eapply logged_part; [by apply bracket_runs|done|]. intros b l1 H1. destruct b as [f t|skip|step|]; try by apply Hw6.
  all: eapply logged_part; [apply looks_poll, looks_reap|intros l (new & -> & Hn); by apply (runs_quiet config child)|].
  all: intros reaped l [(new & -> & Hn) Hq]; apply Hw6; [by apply runs_quiet|]; intros c r [= <-] ->; exact Hq.
Qed.

(** ** From the spawned child to BIND *)

Definition grows (l0 l : list Event) : Prop := ∃ new, l = new ++ l0 ∧ Forall quiet new.
Lemma grows_refl l : grows l l.
Proof. by exists []. Qed.
Lemma grows_cons e l0 l : quiet e → grows l0 l → grows l0 (e :: l).
Proof. intros He (new & -> & Hn). exists (e :: new). split; [done|by constructor]. Qed.
Hint Resolve grows_refl : core.

(** What W3 saw. *)
Definition examined (child : Child) (expect : W3Expect) (ticks : Z) (log : list Event) : Prop :=
  ∃ cgroup status label stat table,
    (EProc child ProcFile.Cgroup (Some cgroup) ∈ log ∧ Text.in_leaf cgroup membership = true) ∧
    (EProc child ProcFile.Status (Some status) ∈ log ∧ Text.ids_are_root status (bytes_of "Uid:") = true ∧
       Text.ids_are_root status (bytes_of "Gid:") = true ∧ Text.groups_empty status = true) ∧
    (EProc child ProcFile.AttrCurrent (Some label) ∈ log ∧ label_matches label (bytes_of Text.BROKER_LABEL) = true) ∧
    (EProc child ProcFile.Stat (Some stat) ∈ log ∧ Text.stat_identity stat = Some (child_pid child, ticks)) ∧
    (ETable child (Some table) ∈ log ∧ Text.descriptors_hold table expect = true).

Lemma looks_w3 child expect :
  looks (w3 child expect) (λ r l, match r with Ok ticks => examined child expect ticks l | Err _ => True end).
Proof.
  intros l0. change (hoare (λ l, l = l0) (w3 child expect)
    (λ r l, grows l0 l ∧ match r with Ok ticks => examined child expect ticks l | Err _ => True end) (grows l0)).
  assert (Hret : ∀ l1 (step : Step.t), grows l0 l1 → hoare (λ l, l = l1) (ret (Err step : result Z Step.t))
    (λ r l, grows l0 l ∧ match r with Ok ticks => examined child expect ticks l | Err _ => True end) (grows l0)).
  { intros l1 step H. apply logged_ret. by intros l ->. }
  unfold w3. cbv zeta. apply then_call. intros [cgroup|]; [|by apply Hret, grows_cons].
  destruct (Text.in_leaf _ _) eqn:E1; cbn [negb]; [|by apply Hret, grows_cons].
  apply then_call. intros [status|]; [|by apply Hret, grows_cons, grows_cons].
  destruct (Text.ids_are_root status (bytes_of "Uid:")) eqn:E2, (Text.ids_are_root status (bytes_of "Gid:")) eqn:E3; cbn [negb orb];
    try by apply Hret, grows_cons, grows_cons.
  destruct (Text.groups_empty status) eqn:E4; cbn [negb]; [|by apply Hret, grows_cons, grows_cons].
  apply then_call. intros [label|]; [|by apply Hret; repeat apply grows_cons].
  destruct (label_matches _ _) eqn:E5; cbn [negb]; [|by apply Hret; repeat apply grows_cons].
  apply then_call. intros stat. destruct (let* stat := stat in Text.stat_identity stat) as [[pid ticks]|] eqn:E6;
    [|by apply Hret; repeat apply grows_cons].
  destruct (Z.eqb_spec pid (child_pid child)) as [->|Hne]; cbn [negb]; [|by apply Hret; repeat apply grows_cons].
  apply then_call. intros table. apply logged_ret. intros l ->. split; [by repeat apply grows_cons|].
  destruct table as [table|]; [|done]. destruct (Text.descriptors_hold table expect) eqn:E7; cbn [negb]; [|done].
  destruct stat as [stat|]; [|done]. exists cgroup, status, label, stat, table.
  repeat split; try done; repeat first [by left|right].
Qed.

Lemma after_spawn_settles config fuel standing start_ms gate child expect l0 :
  lawful config l0 → ¬ killed l0 → spawned l0 = [child] → mask_restored child = true →
  EQualify (GateAnswer.Qualified gate) ∈ l0 → EMeasure (Some (VERITY_SHA256, rc_verity_digest config)) ∈ l0 →
  EPlan (rc_worker_uid config) (Some expect) ∈ l0 →
  hoare (λ l, l = l0) (after_spawn fuel config standing start_ms gate child expect) (finished config standing) (lawful config).
Proof.
  intros Hl Hk Hs Hm Hq Hv Hp. unfold after_spawn.
  assert (Hw6 : ∀ new entry, Forall quiet new → entry ≠ Entry.WorkerEnd →
    hoare (λ x, x = new ++ l0) (after_w6 fuel standing (Some child) None entry) (finished config standing) (lawful config)).
  { intros new entry Hn _. apply after_w6_settles; [by apply quiet_lawful|by rewrite spawned_app, quiet_spawned|done|done]. }
  eapply logged_part; [apply looks_w3|intros l (new & -> & Hn); by apply quiet_lawful|]. intros r l [(new & -> & Hn) He].
  destruct r as [ticks|step]; [|by apply Hw6]. cbv zeta. apply then_call. intros answer.
  assert (Hn' : Forall quiet (EBind gate (child_pid child) ticks answer :: new)) by by constructor.
  destruct answer as [ticket|]; [|by apply (Hw6 (_ :: new))]. destruct (_ && _) eqn:Eb; [|by apply (Hw6 (_ :: new))].
  apply andb_true_iff in Eb as [Ep%Z.eqb_eq Et%Z.eqb_eq]. apply after_bind_settles.
  destruct ticket as [pid start]. cbn in Ep, Et. subst pid start.
  change (EBind ?g ?p ?t ?a :: new ++ l0) with ((EBind g p t a :: new) ++ l0).
  split; [by apply quiet_lawful|by rewrite quiet_killed|by rewrite spawned_app, quiet_spawned|].
  destruct He as (cgroup & status & label & stat & table & H1 & H2 & H3 & H4 & H5).
  exists gate, expect, ticks, cgroup, status, label, stat, table.
  assert (Hin : ∀ e, e ∈ new ++ l0 → e ∈ (EBind gate (child_pid child) ticks (BindAnswer.Bound (mkBindTicket (child_pid child) ticks)) :: new) ++ l0) by (intros e H; by right).
  repeat split; try naive_solver; try (by apply Hin, elem_of_app; right).
  left.
Qed.

(** ** The steps before the child *)

Lemma looks_w5 config :
  looks (w5 config) (λ r l, match r with Ok _ => EMeasure (Some (VERITY_SHA256, rc_verity_digest config)) ∈ l | Err _ => True end).
Proof.
  intros l0. unfold w5. apply then_call. intros [script|].
  2: { apply logged_ret. intros l ->. split; [by apply grows_cons|done]. }
  apply then_call. intros [[algorithm digest]|].
  2: { apply logged_ret. intros l ->. split; [by repeat apply grows_cons|done]. }
  destruct (Z.eqb_spec algorithm VERITY_SHA256) as [->|Hne]; [case_bool_decide as Hd|]; cbn [negb orb];
    try (apply logged_ret; intros l ->; split; [by repeat apply grows_cons|done]).
  apply then_call. intros ends. apply logged_ret. intros l ->. split; [by repeat apply grows_cons|].
  destruct ends; [|done]. subst digest. right. left.
Qed.
Lemma looks_derive standing : looks (derive standing) (λ _ _, True).
Proof. eapply looks_then; [apply looks_read_events|]. intros events l1 _. by apply looks_ret. Qed.

(** Before the spawn: nothing to reap, nothing thawed. *)
Record childless config (l : list Event) : Prop := {
  childless_lawful : lawful config l;
  childless_spawned : spawned l = [];
  childless_killed : ¬ killed l;
  childless_released : ¬ released l;
}.
Lemma childless_quiet config new l : Forall quiet new → childless config l → childless config (new ++ l).
Proof.
  intros Hn [H1 H2 H3 H4]. split; [by apply quiet_lawful|by rewrite spawned_app, quiet_spawned|by rewrite quiet_killed|].
  unfold released. by rewrite leaf_writes_app, quiet_writes.
Qed.
Lemma childless_cons config e l : quiet e → childless config l → childless config (e :: l).
Proof. intros He. apply (childless_quiet config [e]). by constructor. Qed.
Lemma childless_freeze config ok l : childless config l → childless config (EWrite LeafWrite.Freeze ok :: l).
Proof.
  intros [H1 H2 H3 H4]. split; [done|done| |by intros [rest [=]]]. intros [k Hk]. cbn in Hk.
  apply elem_of_cons in Hk as [[=]|Hk]. apply H3. by exists k.
Qed.

Lemma w1_failure_settles config standing step l0 :
  childless config l0 → hoare (λ l, l = l0) (w1_failure standing step) (finished config standing) (lawful config).
Proof.
  intros H. unfold w1_failure. eapply logged_part; [apply looks_read_events|intros l (new & -> & Hn); by apply childless_quiet|].
  intros events l [(new & -> & Hn) (answer & rest & E & He)]. apply (childless_quiet _ new) in H; [|done]. cbv zeta.
  destruct (negb (match events with Some events => negb (Text.ev_populated events) | None => false end)) eqn:Ee.
  { apply logged_ret. intros l ->. destruct H. by split. }
  apply negb_false_iff in Ee. destruct events as [events|]; [|done]. apply negb_true_iff in Ee.
  apply then_call. intros ok. apply logged_ret. intros l ->. destruct H as [H1 H2 H3 H4]. split.
  - split; [|done]. left. split; [done|]. split; [done|]. destruct answer as [bytes|]; [|done]. exists bytes, events, rest. by rewrite E.
  - destruct ok; cbn; (split; [done|]); (split; [done|]); [right; by eexists|by intros [rest' [=]]].
Qed.

(** What [w1] leaves. *)
Definition readied config standing l0 (r : result unit (Outcome.t * Standing Child)) (l : list Event) : Prop :=
  match r with Ok _ => childless config l ∧ ∃ new, l = new ++ l0 | Err o => finished config standing o l end.

Lemma w1_freezes config fuel standing l0 l1 :
  childless config l1 → (∃ new, l1 = new ++ l0) →
  hoare (λ l, l = l1)
    (let^ ok := call (leaf_write LeafWrite.Freeze) in
     if negb ok then let^ o := w1_failure standing Step.W1Freeze in ret (Err o)
     else
       let^ now := call now_ms in
       let^ seen := poll fuel (sat_add_u64 now FREEZE_WAIT_MS)
         (let^ events := read_events in
          ret (match events with
               | None => Some false
               | Some events => if Text.ev_frozen events then Some true else None
               end)) in
       match seen with
       | Some true => ret (Ok tt)
       | Some false => let^ o := w1_failure standing Step.W1Read in ret (Err o)
       | None => let^ o := w1_failure standing Step.W1NotFrozen in ret (Err o)
       end)
    (readied config standing l0) (lawful config).
Proof.
  intros H [older ->]. apply then_call. intros ok. apply (childless_freeze _ ok) in H.
  assert (Hfail : ∀ step l2, childless config l2 →
    hoare (λ l, l = l2) (let^ o := w1_failure standing step in ret (Err o)) (readied config standing l0) (lawful config)).
  { intros step l2 H2. eapply logged_part; [by apply w1_failure_settles|done|]. intros o l Ho. apply logged_ret. by intros l' ->. }
  destruct (negb ok); [by apply Hfail|]. apply then_now. intros now.
  eapply logged_part; [apply (looks_poll _ _ _ (λ _ _, True)); eapply looks_then; [apply looks_read_events|by intros; apply looks_ret]
    |intros l (new & -> & Hn); by apply childless_quiet|].
  intros seen l [(new & -> & Hn) _]. apply (childless_quiet _ new) in H; [|done]. destruct seen as [[|]|]; try by apply Hfail.
  apply logged_ret. intros l ->. split; [done|]. eexists (new ++ _ :: older). by rewrite <-app_assoc.
Qed.

Lemma w1_readies config fuel standing l0 :
  childless config l0 → writes l0 = [] →
  hoare (λ l, l = l0) (w1 fuel standing) (readied config standing l0) (lawful config).
Proof.
  intros H Hw. unfold w1.
  assert (Hret : ∀ l1 step, childless config l1 → writes l1 = [] →
    hoare (λ l, l = l1) (ret (Err (Outcome.NotSpawned step, standing))) (readied config standing l0) (lawful config)).
  { intros l1 step [H1 H2 H3 H4] H5. apply logged_ret. intros l ->. split; [done|]. split; [done|]. split; [done|]. by left. }
  apply then_call. intros [leaf_type|]; [|by apply Hret, Hw; apply childless_cons].
  set (l1 := ELeaf LeafFile.Type_ (Some leaf_type) :: l0). assert (H1 : childless config l1) by by apply childless_cons.
  eapply logged_part; [apply looks_read_events|intros l (new & -> & Hn); by apply childless_quiet|].
  intros events l [(new & -> & Hn) _]. apply (childless_quiet _ new) in H1; [|done].
  assert (Hw1 : writes (new ++ l1) = []) by by rewrite leaf_writes_app, quiet_writes.
  destruct events as [events|]; [|by apply Hret].
  apply then_call. intros procs. apply (childless_cons _ (ELeaf LeafFile.Procs procs)) in H1; [|done].
  destruct procs as [procs|]; [|by apply Hret]. destruct (_ || _); [by apply Hret|].
  apply w1_freezes; [done|]. by eexists (_ :: new ++ [_]); cbn; rewrite <-app_assoc.
Qed.

Lemma w2_spawns config uid child_end script l0 :
  childless config l0 →
  hoare (λ l, l = l0) (w2 uid child_end script)
    (λ r l, lawful config l ∧
       match r with
       | Ok (child, expect) => ¬ killed l ∧ spawned l = [child] ∧ mask_restored child = true ∧ EPlan uid (Some expect) ∈ l ∧ ∃ new, l = new ++ l0
       | Err (_, child) => spawned l = option_list child
       end)
    (lawful config).
Proof.
  intros [H1 H2 H3 H4]. unfold w2. apply then_call. intros [[plan expect]|]; [|by apply logged_ret; intros l ->].
  apply then_call. intros [child|]; [|by apply logged_ret; intros l ->].
  assert (Hs : spawned (ESpawn (Some child) :: EPlan uid (Some expect) :: l0) = [child]).
  { change (ESpawn ?a :: EPlan ?b ?c :: l0) with ([ESpawn a; EPlan b c] ++ l0). by rewrite spawned_app, H2. }
  apply logged_ret. intros l ->. split; [done|]. destruct (mask_restored child) eqn:Em; cbn [negb]; [|exact Hs].
  split; [done|]. split; [exact Hs|]. split; [done|]. split; [right; left|]. by eexists [_; _].
Qed.

(** ** The run *)

Lemma startup_finishes config fuel standing :
  hoare (λ l, l = []) (startup fuel config standing) (finished config standing) (lawful config).
Proof.
  unfold startup. apply then_now. intros start_ms. destruct (st_held standing) as [step|] eqn:Eh.
  { apply logged_ret. intros l ->. split; [done|]. cbn. unfold hold. rewrite Eh. split; [done|]. split; [done|]. by intros [rest [=]]. }
  apply then_call. intros [gate|]; [|apply logged_ret; intros l ->; split; [done|]; split; [done|]; by left].
  assert (H : childless config [EQualify (GateAnswer.Qualified gate)]) by (split; [done..| |]; [by intros [ok Hk%elem_of_nil]|by intros [rest [=]]]).
  eapply logged_part; [apply looks_w5|intros l (new & -> & Hn); by apply childless_quiet|].
  intros found l [(new & -> & Hn) Hm]. apply (childless_quiet _ new) in H; [|done].
  assert (Hw : writes (new ++ [EQualify (GateAnswer.Qualified gate)]) = []) by by rewrite leaf_writes_app, quiet_writes.
  destruct found as [[script [parent_end child_end]]|step].
  2: { apply logged_ret. intros l ->. destruct H. split; [done|]. split; [done|]. split; [done|]. by left. }
  eapply logged_part; [apply looks_derive|intros l (new' & -> & Hn'); by apply childless_quiet|].
  intros held l [(new' & -> & Hn') _]. apply (childless_quiet _ new') in H; [|done].
  destruct held as [step|]; [apply logged_ret; intros l ->; destruct H; by split|].
  eapply logged_part; [apply w1_readies; [done|by rewrite leaf_writes_app, quiet_writes]|done|].
  intros first l H1. destruct first as [[]|o]; [|by apply logged_ret; intros l' ->]. destruct H1 as [H1 [more ->]].
  eapply logged_part; [by apply w2_spawns|done|]. intros r l [H2 H3]. destruct r as [[child expect]|[step child]].
  - destruct H3 as (K1 & K2 & K3 & K4 & [more' ->]). apply after_spawn_settles; try done.
    + do 4 (apply elem_of_app; right). left.
    + do 3 (apply elem_of_app; right). exact Hm.
  - apply after_w6_settles; [done|done|done|by intros Hf; destruct (Hf step)].
Qed.

(** A startup run from an empty log. *)
Definition logged_run (fuel : nat) (config : RunConfig) (standing : Standing Child) (w : W)
    : Logged * option (Outcome.t * Standing Child) := startup (W := Logged) fuel config standing (w, []).

Lemma logged_run_finishes config fuel standing w w' log r :
  logged_run fuel config standing w = ((w', log), r) →
  match r with Some o => finished config standing o log | None => lawful config log end.
Proof.
  intros E. pose proof (startup_finishes config fuel standing w [] eq_refl) as H. unfold logged_run in E. by rewrite E in H.
Qed.

Lemma lawful_thaw config log post ok pre :
  lawful config log → log = post ++ EWrite LeafWrite.Thaw ok :: pre → may_thaw config pre.
Proof. 
  revert post. induction log as [|e log IH]; intros [|x post] Hl E; try done; injection E as -> E; subst; [apply Hl|].
  eapply IH; [apply Hl|done].
Qed.

(** [C13] When the broker thaws its worker's leaf, over any seam and at any point of a startup run, even one cut short: the
    leaf has no child and was just read unpopulated (W1's failure path), or no kill was written and the one spawned child
    was admitted (the signed script measured, W3's reads of this child all passed, and the qualified gate bound its pid
    and start time), or the leaf was killed, read empty since with no write between, and every child reaped. *)
Theorem thaw_is_justified config fuel standing w w' log r post ok pre :
  logged_run fuel config standing w = ((w', log), r) → log = post ++ EWrite LeafWrite.Thaw ok :: pre → may_thaw config pre.
Proof. intros E%logged_run_finishes. apply lawful_thaw. destruct r; [apply E|exact E]. Qed.

(** [C16] What a startup run leaves, per outcome: CAPACITY_HELD spawned nothing, did not thaw last and sets the standing
    HOLD; NOT_SPAWNED spawned nothing and wrote nothing, or thawed last; HELD killed the leaf, did not thaw it after,
    sets the standing HOLD and keeps the child; CLEANED reaped every child it spawned and thawed last; an end or a
    deadline reaped its one child with the reported status and thawed last; UNAVAILABLE made one call, the gate's
    qualification, which answered so, or (the binder answered so) reaped its one child and thawed last.  All but
    CAPACITY_HELD and HELD leave the standing state as it was. *)
Theorem run_is_settled config fuel standing w w' log outcome standing' :
  logged_run fuel config standing w = ((w', log), Some (outcome, standing')) → settled standing standing' outcome log.
Proof. intros E%logged_run_finishes. apply E. Qed.

(** Under the standing HOLD a run makes no call but the clock's. *)
Lemma held_run_is_idle config fuel standing step w :
  st_held standing = Some step →
  ∃ w', logged_run fuel config standing w = ((w', []), Some (Outcome.CapacityHeld step, standing)).
Proof. intros H. unfold logged_run, startup, andthen, call. cbn. destruct (now_ms w) as [w' now]. rewrite H. by exists w'. Qed.
End Log.

(** * A startup run ends

    Over a clock that a sleep moves, every wait of the lifecycle is within its bound, so a run has an outcome. *)

(** What the waits rely on: the clock never goes back, it reads as a [u64] that saturates, and a sleep of at least one
    millisecond moves it by at least one.  A sleep may end early ([sleep_ms]'s errors are early wakes). *)
Class Clock (W : Type) {Script ChannelEnd Plan Child : Type} {HS : Seams W Script ChannelEnd Plan Child} := {
  clock : W → Z;
  clock_pos w : 0 ≤ clock w;
  clock_reads w : clock w ≤ clock (now_ms w).1;
  clock_now w : Z.min U64_MAX (clock w) ≤ (now_ms w).2 ≤ Z.min U64_MAX (clock (now_ms w).1);
  clock_sleep w ms : 1 ≤ ms → clock w + 1 ≤ clock (sleep_ms ms w);
  clock_leaf_read w file : clock w ≤ clock (leaf_read file w).1;
  clock_leaf_write w what : clock w ≤ clock (leaf_write what w).1;
  clock_open_script w : clock w ≤ clock (open_script w).1;
  clock_measure w script : clock w ≤ clock (measure script w).1;
  clock_channel_pair w : clock w ≤ clock (channel_pair w).1;
  clock_plan w uid child_end script : clock w ≤ clock (plan uid child_end script w).1;
  clock_spawn w p : clock w ≤ clock (spawn p w).1;
  clock_proc_read w child file : clock w ≤ clock (proc_read child file w).1;
  clock_fd_table w child : clock w ≤ clock (fd_table child w).1;
  clock_reap w child : clock w ≤ clock (reap child w).1;
  clock_qualify w : clock w ≤ clock (qualify w).1;
  clock_bind w gate pid ticks : clock w ≤ clock (bind gate pid ticks w).1;
}.

Section Total.
Context {W Script ChannelEnd Plan Child : Type} {HS : Seams W Script ChannelEnd Plan Child} {HC : Clock W}.

(** From any clock of at least [n], the computation answers, no earlier. *)
Definition total {A} (n : Z) (m : Run W A) (Q : A → Prop) : Prop :=
  ∀ w, n ≤ clock w → ∃ w' a, m w = (w', Some a) ∧ clock w ≤ clock w' ∧ Q a.

Lemma total_ret {A} n (a : A) (Q : A → Prop) : Q a → total n (ret a) Q.
Proof. intros H w _. by exists w, a. Qed.
Lemma total_then {A B} n (m : Run W A) (f : A → Run W B) Q R :
  total n m Q → (∀ a, Q a → total n (f a) R) → total n (andthen m f) R.
Proof.
  intros Hm Hf w Hw. destruct (Hm w Hw) as (w1 & a & E & H1 & Ha). destruct (Hf a Ha w1 ltac:(lia)) as (w2 & b & E2 & H2 & Hb).
  exists w2, b. unfold andthen. rewrite E, E2. split; [done|]. split; [lia|done].
Qed.
Lemma total_call {A} n (m : W → W * A) : (∀ w, clock w ≤ clock (m w).1) → total n (call m) (λ _, True).
Proof. intros H w _. specialize (H w). unfold call. destruct (m w) as [w' a]. by exists w', a. Qed.
(** The clock read bounds everything after it. *)
Lemma total_now {B} n (f : Z → Run W B) R :
  (∀ now, Z.min U64_MAX n ≤ now ≤ U64_MAX → total now (f now) R) → total n (andthen (call now_ms) f) R.
Proof.
  intros H w Hw. unfold andthen, call. pose proof (clock_now w) as Hn. pose proof (clock_reads w) as Hr.
  destruct (now_ms w) as [w1 now]. cbn in Hn, Hr.
  destruct (H now ltac:(lia) w1 ltac:(lia)) as (w2 & b & E & H2 & Hb).
  exists w2, b. rewrite E. split; [done|]. split; [lia|done].
Qed.
Lemma total_nap {B} n ms (f : unit → Run W B) R :
  1 ≤ ms → total (n + 1) (f tt) R → total n (andthen (nap ms) f) R.
Proof.
  intros Hms H w Hw. unfold andthen, nap. pose proof (clock_sleep w (if ms <=? U32_MAX then ms else U32_MAX)) as Hs.
  assert (1 ≤ (if ms <=? U32_MAX then ms else U32_MAX)) by (unfold U32_MAX; destruct (_ <=? _); lia). specialize (Hs ltac:(done)).
  set (w1 := sleep_ms _ w) in *. destruct (H w1 ltac:(lia)) as (w2 & b & E & H2 & Hb). exists w2, b. rewrite E. split; [done|]. split; [lia|done].
Qed.
Lemma total_weaken {A} n n' (m : Run W A) Q Q' : total n m Q → n ≤ n' → (∀ a, Q a → Q' a) → total n' m Q'.
Proof. intros H Hn HQ w Hw. destruct (H w ltac:(lia)) as (w' & a & E & Hc & Ha). exists w', a. auto. Qed.
Lemma total_part {A B} n (m : Run W A) (f : A → Run W B) Q R :
  total n m Q → (∀ a, total n (f a) R) → total n (andthen m f) R.
Proof. intros Hm Hf. eapply total_then; [exact Hm|]. intros a _. apply Hf. Qed.

Lemma poll_total {T} fuel bound n (check : Run W (option T)) :
  (∀ n, total n check (λ _, True)) → bound ≤ U64_MAX → bound - n + 2 ≤ Z.of_nat fuel → (0 < fuel)%nat → total n (poll fuel bound check) (λ _, True).
Proof.
  intros Hc Hb. revert n. induction fuel as [|fuel IH]; intros n Hf H0; [lia|]. cbn [poll]. apply total_now. intros now Hnow.
  destruct (Z.ltb_spec bound now); [by apply total_ret|]. eapply total_part; [apply Hc|]. intros [found|]; [by apply total_ret|].
  destruct (Z.leb_spec bound now); [by apply total_ret|]. apply total_nap; [unfold sat_sub_u64, POLL_MS; lia|]. apply IH; lia.
Qed.

Lemma sat_bound now ms : sat_add_u64 now ms ≤ U64_MAX.
Proof. unfold sat_add_u64. lia. Qed.
Lemma read_events_total n : total n read_events (λ _, True).
Proof. eapply total_part; [apply total_call; intros w; apply clock_leaf_read|]. intros a. by apply total_ret. Qed.
Lemma wait_total {T} fuel now ms n (check : Run W (option T)) :
  (∀ n, total n check (λ _, True)) → now ≤ n → ms + 2 ≤ Z.of_nat fuel → 0 ≤ ms →
  total n (poll fuel (sat_add_u64 now ms) check) (λ _, True).
Proof. intros Hc Hn Hf Hm. apply poll_total; [done|apply sat_bound| |lia]. unfold sat_add_u64. lia. Qed.

Lemma hold_frozen_total fuel deadline_ms hold_end n :
  deadline_ms ≤ U64_MAX → deadline_ms - n + 2 ≤ Z.of_nat fuel → (0 < fuel)%nat →
  total n (hold_frozen fuel deadline_ms hold_end) (λ _, True).
Proof.
  intros Hd. revert n. induction fuel as [|fuel IH]; intros n Hf H0; [lia|]. cbn [hold_frozen]. apply total_now. intros now Hnow.
  destruct (Z.leb_spec deadline_ms now); [by apply total_ret|]. destruct (Z.leb_spec hold_end now); [by apply total_ret|].
  apply total_nap; [unfold sat_sub_u64; lia|]. apply IH; lia.
Qed.

(** The next call of a proof. *)
Ltac total_step :=
  eapply total_part;
    [apply total_call; intros ?; first
       [apply clock_leaf_read|apply clock_leaf_write|apply clock_open_script|apply clock_measure|apply clock_channel_pair|apply clock_plan
       |apply clock_spawn|apply clock_proc_read|apply clock_fd_table|apply clock_reap|apply clock_qualify|apply clock_bind]|].

Lemma shown_empty_total n : total n shown_empty (λ _, True).
Proof.
  eapply total_part; [apply read_events_total|]. intros [events|]; [|by apply total_ret].
  destruct (Text.ev_populated events); [by apply total_ret|]. total_step. intros a. by apply total_ret.
Qed.
Lemma empty_check_total n : total n (let^ empty := shown_empty in ret (if empty : bool then Some tt else None)) (λ _, True).
Proof. eapply total_part; [apply shown_empty_total|]. intros a. by apply total_ret. Qed.
Lemma reap_total child n : total n (call (reap child)) (λ _, True).
Proof. apply total_call. intros w. apply clock_reap. Qed.

Context (fuel : nat) (Hfuel : W6_BOUND_MS + 2 ≤ Z.of_nat fuel).

Lemma sequence_total child reaped n : total n (sequence fuel child reaped) (λ _, True).
Proof.
  pose proof Hfuel as Hf. unfold W6_BOUND_MS in Hf.
  unfold sequence. apply total_now. intros entry_ms _. total_step. intros frozen. total_step. intros killed. cbv zeta.
  eapply total_part; [apply wait_total; [apply empty_check_total|lia|unfold W6_BOUND_MS; lia|done]|].
  intros [[]|]; [|by apply total_ret]. apply (total_part _ _ _ (λ _, True)).
  - destruct child as [child|]; [destruct reaped|]; try by apply total_ret.
    unfold W6_BOUND_MS in *. eapply total_part; [apply wait_total; [apply reap_total|lia|unfold W6_BOUND_MS; lia|done]|]. intros a. by apply total_ret.
  - intros [r|]; [|by apply total_ret]. total_step. intros ok. by apply total_ret.
Qed.
Lemma after_w6_total standing child reaped entry n : total n (after_w6 fuel standing child reaped entry) (λ _, True).
Proof. eapply total_part; [apply sequence_total|]. intros report. by apply total_ret. Qed.

Lemma frozen_check_total n : total n frozen_check (λ _, True).
Proof.
  eapply total_part; [apply read_events_total|]. intros [events|]; [|by apply total_ret].
  destruct (Text.ev_frozen events); [|by apply total_ret]. eapply total_part; [apply total_call, clock_reads|]. intros now. by apply total_ret.
Qed.
Lemma bracket_total deadline_ms n :
  deadline_ms ≤ U64_MAX → deadline_ms - n + 2 ≤ Z.of_nat fuel → total n (bracket fuel deadline_ms) (λ _, True).
Proof.
  intros Hd Hn. pose proof Hfuel as Hf. unfold W6_BOUND_MS in Hf. unfold bracket.
  apply total_now. intros now0 H0. destruct (_ <? _); [by apply total_ret|]. total_step. intros ok. destruct (negb ok); [by apply total_ret|].
  apply total_now. intros now H. eapply total_part.
  { apply wait_total; [apply frozen_check_total|lia|unfold FREEZE_WAIT_MS; lia|done]. }
  intros [[frozen_ms|]|]; [|by apply total_ret|].
  - eapply total_part; [apply hold_frozen_total; [done|lia|lia]|]. intros held. destruct (negb held); [by apply total_ret|].
    total_step. intros ok2. destruct (negb ok2); [by apply total_ret|]. eapply total_part; [apply total_call, clock_reads|]. intros a. by apply total_ret.
  - total_step. intros ok2. by apply total_ret.
Qed.

Context (config : RunConfig) (Hdeadline : 1000 * rc_deadline_seconds config + 2 ≤ Z.of_nat fuel).

Lemma after_bind_total standing start_ms child n : start_ms ≤ n → total n (after_bind fuel config standing start_ms child) (λ _, True).
Proof.
  intros Hn. pose proof Hfuel as Hf. unfold W6_BOUND_MS in Hf. unfold after_bind. total_step. intros thawed.
  destruct (negb thawed); [apply after_w6_total|]. cbv zeta.
  assert (Hs : ∀ secs, sat_add_u64 start_ms (sat_mul_u64 secs 1000) ≤ start_ms + 1000 * secs) by (intros; unfold sat_add_u64, sat_mul_u64; lia).
  specialize (Hs (rc_deadline_seconds config)). pose proof (sat_bound start_ms (sat_mul_u64 (rc_deadline_seconds config) 1000)) as Hb.
  set (deadline_ms := sat_add_u64 _ _) in *.
  eapply total_part; [apply bracket_total; [done|lia]|].
  assert (Hpoll : total n (let^ reaped := poll fuel deadline_ms (call (reap child)) in
      let entry := match reaped with Some _ => Entry.WorkerEnd | None => Entry.Deadline end in
      after_w6 fuel standing (Some child) reaped entry) (λ _, True)).
  { eapply total_part; [apply poll_total; [apply reap_total|done|lia|lia]|]. intros r. apply after_w6_total. }
  intros [| | |]; first [exact Hpoll|apply after_w6_total].
Qed.

(** A call that a later branch does not depend on. *)
Ltac total_branch := repeat first
  [ apply total_ret; done
  | progress cbv zeta
  | total_step; intros ?
  | match goal with |- total _ (match ?x with _ => _ end) _ => destruct x end ].

Lemma w5_total n : total n (w5 config) (λ _, True).
Proof. unfold w5. total_branch. Qed.
Lemma w3_total child expect n : total n (w3 child expect) (λ _, True).
Proof. unfold w3. total_branch. Qed.
Lemma w2_total uid child_end script n : total n (w2 uid child_end script) (λ _, True).
Proof. unfold w2. total_branch. Qed.
Lemma w1_failure_total standing step n : total n (w1_failure standing step) (λ _, True).
Proof. unfold w1_failure, read_events. eapply total_part; [apply read_events_total|]. intros events. total_branch. Qed.
Lemma derive_total standing n : total n (derive standing) (λ _, True).
Proof. eapply total_part; [apply read_events_total|]. intros events. by apply total_ret. Qed.
Lemma w1_total standing n : total n (w1 fuel standing) (λ _, True).
Proof.
  pose proof Hfuel as Hf. unfold W6_BOUND_MS in Hf. unfold w1. total_step. intros [leaf_type|]; [|by apply total_ret].
  eapply total_part; [apply read_events_total|]. intros [events|]; [|by apply total_ret].
  total_step. intros [procs|]; [|by apply total_ret]. destruct (_ || _); [by apply total_ret|]. total_step. intros ok.
  assert (Hfail : ∀ step n, total n (let^ o := w1_failure standing step in ret (Err (T := unit) o)) (λ _, True)).
  { intros step m. eapply total_part; [apply w1_failure_total|]. intros o. by apply total_ret. }
  destruct (negb ok); [apply Hfail|]. apply total_now. intros now H. eapply total_part.
  { apply wait_total; [|lia|unfold FREEZE_WAIT_MS; lia|done]. intros m. eapply total_part; [apply read_events_total|]. intros a. by apply total_ret. }
  intros [[]|]; [by apply total_ret|apply Hfail|apply Hfail].
Qed.
Lemma after_spawn_total standing start_ms gate child expect n :
  start_ms ≤ n → total n (after_spawn fuel config standing start_ms gate child expect) (λ _, True).
Proof.
  intros Hn. unfold after_spawn. eapply total_part; [apply w3_total|]. intros [ticks|step]; [|apply after_w6_total]. cbv zeta. total_step.
  intros [ticket|]; [|apply after_w6_total]. destruct (_ && _); [by apply after_bind_total|apply after_w6_total].
Qed.
Lemma startup_total standing n : total n (startup fuel config standing) (λ _, True).
Proof.
  unfold startup. apply total_now. intros start_ms Hs. destruct (st_held standing); [by apply total_ret|]. total_step.
  intros [gate|]; [|by apply total_ret]. eapply total_part; [apply w5_total|]. intros [[script [? child_end]]|]; [|by apply total_ret].
  eapply total_part; [apply derive_total|]. intros [step|]; [by apply total_ret|]. eapply total_part; [apply w1_total|].
  intros [_|]; [|by apply total_ret]. eapply total_part; [apply w2_total|]. intros [[child expect]|[step child]]; [by apply after_spawn_total|apply after_w6_total].
Qed.
End Total.

(** [C39] A startup run ends: with fuel for W6's bound and for the configuration's deadline, counted in milliseconds, every
    run over a clock that a sleep moves by at least one has an outcome, whatever the leaf, the child and the gate answer:
    W1's wait, the bracket's two, the window's and W6's two each end on their own clock bound. *)
Theorem startup_terminates {W Script ChannelEnd Plan Child : Type} {HS : Seams W Script ChannelEnd Plan Child} {HC : Clock W}
    (fuel : nat) (opened : bool) (config : RunConfig) (standing : Standing Child) (w : W)
    (Hfuel : Z.max W6_BOUND_MS (1000 * rc_deadline_seconds config) + 2 ≤ Z.of_nat fuel) :
  ∃ w' outcome, startup_run fuel opened config standing w = (w', Some outcome) ∧ clock w ≤ clock w'.
Proof.
  unfold startup_run. destruct opened; [|by eexists w, _].
  assert (H1 : W6_BOUND_MS + 2 ≤ Z.of_nat fuel) by lia. assert (H2 : 1000 * rc_deadline_seconds config + 2 ≤ Z.of_nat fuel) by lia.
  destruct (startup_total fuel H1 config H2 standing (clock w) w (Z.le_refl _)) as (w' & o & E & Hc & _). by exists w', o.
Qed.

(** * A worker's life, run

    A small kernel that the lifecycle's waits can be run against: a leaf with one process, a clock that only sleeping
    moves and a worker that exits at a set time once it may run.  It meets the clock's laws, and the properties of the
    lifecycle are applied to a run that takes the NP-9 bracket and sees the worker exit. *)

(** ** The kernel *)

Record World := mkWorld { wo_ms : N; wo_frozen : bool; wo_alive : bool; wo_exits : N }.

Definition worker_pid : Z := 77.
Definition worker_ticks : Z := 123.
Definition worker_digest : list Z := repeat 7 32.
Definition worker_expect : W3Expect := mkW3Expect (mkFdIdentity 3 8 30) (mkFdIdentity 4 9 40).
Definition worker_table : list FdEntry :=
  [mkFdEntry 4 9 40 0x8000; mkFdEntry 0 1 10 0x2000; mkFdEntry 1 1 11 0x2000; mkFdEntry 2 1 12 0x2000; mkFdEntry 3 8 30 0xC000].
Definition bit (b : bool) : string := if b then "1" else "0".
Definition line (text : string) : list Z := bytes_of text ++ [NEWLINE].
Definition worker_stat : list Z :=
  line "77 (worker) S 1 77 77 0 -1 4194560 100 0 0 0 0 0 0 0 20 0 1 0 123 1000 50".

(** The worker has exited by [wo_exits], unless it is frozen; a kill ends it at once. *)
Definition settle (w : World) : World :=
  if negb (wo_frozen w) && (wo_exits w <=? wo_ms w)%N then mkWorld (wo_ms w) (wo_frozen w) false (wo_exits w) else w.

#[export] Instance world_seams : Seams World unit unit unit unit := {
  leaf_read file w :=
    (w, Some match file with
             | LeafFile.Type_ => line "domain"
             | LeafFile.Events => line ("populated " ++ bit (wo_alive w)) ++ line ("frozen " ++ bit (wo_frozen w))
             | LeafFile.Procs => if wo_alive w then line "77" else []
             end);
  leaf_write what w :=
    (match what with
     | LeafWrite.Freeze => mkWorld (wo_ms w) true (wo_alive w) (wo_exits w)
     | LeafWrite.Thaw => settle (mkWorld (wo_ms w) false (wo_alive w) (wo_exits w))
     | LeafWrite.Kill => mkWorld (wo_ms w) (wo_frozen w) false (wo_exits w)
     end, true);
  open_script w := (w, Some tt);
  measure _ w := (w, Some (1, worker_digest));
  channel_pair w := (w, Some (tt, tt));
  plan _ _ _ w := (w, Some (tt, worker_expect));
  spawn _ w := (mkWorld (wo_ms w) (wo_frozen w) true (wo_exits w), Some tt);
  child_pid _ := worker_pid;
  mask_restored _ := true;
  proc_read _ file w :=
    (w, Some match file with
             | ProcFile.Cgroup => line ("0::" ++ membership)
             | ProcFile.Status => line "Name: worker" ++ line "Uid: 0 0 0 0" ++ line "Gid: 0 0 0 0" ++ line "Groups: "
             | ProcFile.AttrCurrent => bytes_of Text.BROKER_LABEL ++ [0]
             | ProcFile.Stat => worker_stat
             end);
  fd_table _ w := (w, Some worker_table);
  reap _ w := (w, if wo_alive w then None else Some (Reaped.Exited 0));
  now_ms w := (w, Z.min U64_MAX (Z.of_N (wo_ms w)));
  sleep_ms ms w := settle (mkWorld (wo_ms w + Z.to_N ms)%N (wo_frozen w) (wo_alive w) (wo_exits w));
  qualify w := (w, GateAnswer.Qualified (mkGateTicket 1));
  bind _ pid ticks w := (w, BindAnswer.Bound (mkBindTicket pid ticks));
}.

Lemma settle_ms w : wo_ms (settle w) = wo_ms w.
Proof. unfold settle. by destruct (_ && _). Qed.
#[export] Instance world_clock : Clock World.
Proof.
  refine {| clock w := Z.of_N (wo_ms w) |}; intros; cbn; try lia.
  - rewrite settle_ms. cbn. lia.
  - destruct what; cbn; rewrite ?settle_ms; cbn; lia.
Defined.

(** ** The run *)

Definition worker_config : RunConfig := mkRunConfig 61002 worker_digest 90.
Definition before_worker : World := mkWorld 1000 false false 72500.
Definition worker_fuel : nat := 100.

Definition worker_run : Logged * option (Outcome.t * Standing unit) :=
  Eval vm_compute in logged_run worker_fuel worker_config Standing_new before_worker.
(** The world the run leaves, and its log. *)
Definition after_worker : World := worker_run.1.1.
Definition worker_log : list (Event (Child := unit)) := worker_run.1.2.

Example worker_run_ends :
  logged_run worker_fuel worker_config Standing_new before_worker
  = ((after_worker, worker_log), Some (Outcome.Ended (Reaped.Exited 0), Standing_new)).
Proof. vm_compute. reflexivity. Qed.
(** W1 froze, W4 thawed, the bracket froze and thawed, W6 froze, killed and thawed. *)
Example worker_writes :
  map fst (writes worker_log)
  = [LeafWrite.Thaw; LeafWrite.Kill; LeafWrite.Freeze; LeafWrite.Thaw; LeafWrite.Freeze; LeafWrite.Thaw; LeafWrite.Freeze].
Proof. vm_compute. reflexivity. Qed.

(** The run's outcome is settled. *)
Lemma run_is_settled_witness :
  logged_run worker_fuel worker_config Standing_new before_worker
  = ((after_worker, worker_log), Some (Outcome.Ended (Reaped.Exited 0), Standing_new)) ∧
  settled Standing_new Standing_new (Outcome.Ended (Reaped.Exited 0)) worker_log.
Proof. split; [exact worker_run_ends|]. exact (run_is_settled _ _ _ _ _ _ _ _ worker_run_ends). Defined.

(** W4's thaw: the third of the log's thaws, counted from the last. *)
Definition Events : Type := list (Event (Child := unit)).
Fixpoint nth_thaw (n : nat) (log : Events) : option (Events * bool * Events) :=
  match log with
  | [] => None
  | EWrite LeafWrite.Thaw ok :: rest =>
      match n with
      | O => Some ([], ok, rest)
      | S n => let* found := nth_thaw n rest in Some (EWrite LeafWrite.Thaw ok :: found.1.1, found.1.2, found.2)
      end
  | e :: rest => let* found := nth_thaw n rest in Some (e :: found.1.1, found.1.2, found.2)
  end.
Definition w4_thaw : Events * bool * Events := Eval vm_compute in default ([], false, []) (nth_thaw 2 worker_log).

Lemma thaw_is_justified_witness :
  worker_log = w4_thaw.1.1 ++ EWrite LeafWrite.Thaw w4_thaw.1.2 :: w4_thaw.2 ∧ spawned w4_thaw.2 = [tt] ∧
  may_thaw worker_config w4_thaw.2.
Proof.
  assert (E : worker_log = w4_thaw.1.1 ++ EWrite LeafWrite.Thaw w4_thaw.1.2 :: w4_thaw.2) by (vm_compute; reflexivity).
  split; [exact E|]. split; [vm_compute; reflexivity|].
  exact (thaw_is_justified _ _ _ _ _ _ _ _ _ _ worker_run_ends E).
Defined.

Lemma startup_terminates_witness :
  Z.max W6_BOUND_MS (1000 * rc_deadline_seconds worker_config) + 2 ≤ Z.of_nat (Z.to_nat 90002) ∧
  ∃ w' outcome, startup_run (Z.to_nat 90002) true worker_config Standing_new before_worker = (w', Some outcome) ∧
    clock before_worker ≤ clock w'.
Proof.
  assert (H : Z.max W6_BOUND_MS (1000 * rc_deadline_seconds worker_config) + 2 ≤ Z.of_nat (Z.to_nat 90002)).
  { rewrite Z2Nat.id by lia. unfold W6_BOUND_MS. cbn [rc_deadline_seconds worker_config]. lia. }
  split; [exact H|]. exact (startup_terminates (Z.to_nat 90002) true worker_config Standing_new before_worker H).
Defined.
