(* ===== verification/Broker.v ===== *)
(** * The broker's program ([broker/src])

    Its signed configuration ([config.rs], [signed_config.rs]), the gate's qualification as a peer ([gate_peer.rs]) and
    [main.rs], which puts the seal, the configuration, the lifecycle and the listener in order. *)

From S2P Require Import Prelude Slices Json Observation PeerWire Seal RoleSeal Lifecycle.
(** ** The canonical subset of a signed document

    The rules [broker/src/config.rs], [effect-gate/src/gate_config.rs] and [observer/src/config.rs] each write out. *)

Module Subset.
Definition MAX_DEPTH : nat := 16.
Definition MAX_INTEGER : Z := 2 ^ 53 - 1.
Definition MAX_PATH_BYTES : nat := 255.
Definition DIGEST_PREFIX : string := "sha256:".

Definition is_lower_hex (byte : Z) : bool := is_digit byte || ((97 <=? byte) && (byte <=? 102)).
Definition lower_hex (text : list Z) : bool := forallb is_lower_hex text.
(** The 64 digits of a digest. *)
Definition digest_hex (text : string) : option (list Z) :=
  let* hex := Seal.Seal.strip_prefix (bytes_of DIGEST_PREFIX) (bytes_of text) in
  if Nat.eqb (length hex) 64 && lower_hex hex then Some hex else None.
Definition is_digest (text : string) : bool := match digest_hex text with Some _ => true | None => false end.

Definition is_normal_path (text : string) : bool :=
  let text := bytes_of text in
  Nat.leb (length text) MAX_PATH_BYTES && negb (existsb (Z.eqb 0) text)
    && match Seal.Seal.strip_prefix [47] text with
       | None => false
       | Some rest =>
           negb (bool_decide (rest = []))
             && forallb (λ part, negb (bool_decide (part = [])) && negb (bool_decide (part = bytes_of "."))
                                   && negb (bool_decide (part = bytes_of ".."))) (split_on 47 rest)
       end.

Definition is_ascii (document : list Z) : bool := forallb (λ byte, byte <? 128) document.
Definition bad_integer (node : Value) : bool :=
  match node with
  | VInt int => negative int || match to_u64 int with Some number => MAX_INTEGER <? number | None => true end
  | _ => false
  end.
(** [while let Some(node) = stack.pop()]: a bad integer refuses, else the children are pushed. *)
Definition holds_bad_integer (value : Value) : bool := default false (any_loop bad_integer (weight value) [value]).

Definition canonical_value (document : list Z) : result Value string :=
  if negb (is_ascii document) then Err "the document holds a byte outside ASCII"
  else if negb (utf8_valid document) then Err "the document is not UTF-8"
  else
    match parse document with
    | Err _ => Err "the document is not strict JSON"
    | Ok value =>
        if Nat.ltb MAX_DEPTH (depth value) then Err "the document nests deeper than 16"
        else if contains_float value then Err "the document holds a float"
        else if holds_bad_integer value then Err "an integer outside 0..=2^53-1"
        else
          match canonical value with
          | Err _ => Err "the document has no canonical form"
          | Ok encoded =>
              if bool_decide (encoded = document) then Ok value else Err "the document is not its canonical encoding"
          end
    end.

(** An object that holds exactly [members] (the parser refuses a duplicate). *)
Definition holds_exactly (object : Object) (members : list string) : bool :=
  Nat.eqb (length object) (length members)
    && forallb (λ member, match object_get object (jstr member) with Some _ => true | None => false end) members.
End Subset.
Import Subset.

(** ** The configuration ([config.rs]) *)

Module BrokerConf.
Definition FORMAT : string := "planeon.capacity-broker-config/v1".
Definition WORKER_UID_FIRST : Z := 10000.
Definition WORKER_UID_LAST : Z := 2147483647.
Definition BRACKET_PERIOD_FIRST : Z := 140.
Definition BRACKET_PERIOD_LAST : Z := 3600.
Definition OPERATION_DEADLINE_FIRST : Z := 1.
Definition OPERATION_DEADLINE_LAST : Z := 900.
Definition MEMBERS : list string :=
  ["format"; "workerUid"; "workerScriptPath"; "workerScriptVerityDigest"; "workerInterpreterPath"; "gateExecutablePath";
   "peerQualificationDigest"; "bracketPeriodSeconds"; "operationDeadlineSeconds"; "brokerManifestDigest";
   "brokerExecutableDigest"; "workerManifestDigest"; "workerArtifactDigest"].

Record BrokerConfig := mkConfig {
  worker_uid : Z;
  worker_script_path : string;
  worker_script_verity_digest : list Z;
  worker_interpreter_path : string;
  gate_executable_path : string;
  peer_qualification_digest : string;
  bracket_period_seconds : Z;
  operation_deadline_seconds : Z;
  broker_manifest_digest : string;
  broker_executable_digest : string;
  worker_manifest_digest : string;
  worker_artifact_digest : string;
}.

Module ConfigError.
Inductive t := Canonical (what : string) | Schema (what : string) | Check (what : string).
End ConfigError.
Abbreviation checked A := (result A ConfigError.t).

Definition nibble (byte : Z) : option Z :=
  if is_digit byte then Some (byte - 48) else if (97 <=? byte) && (byte <=? 102) then Some (byte - 97 + 10) else None.
Fixpoint pairs_of (hex : list Z) : option (list Z) :=
  match hex with
  | [] => Some []
  | high :: low :: hex =>
      let* high := nibble high in
      let* low := nibble low in
      let* bytes := pairs_of hex in
      Some (high * 16 + low :: bytes)
  | _ => None
  end.
Definition digest_bytes (text : string) : option (list Z) := let* hex := digest_hex text in pairs_of hex.

Definition closed (value : Value) : checked Object :=
  match as_object value with
  | None => Err (ConfigError.Schema "the document is not an object")
  | Some object =>
      if holds_exactly object MEMBERS then Ok object
      else Err (ConfigError.Schema "the document does not hold exactly the thirteen members of section 3.1")
  end.

Definition text (object : Object) (key refusal : string) : checked string :=
  result_of_option (let* value := object_get object (jstr key) in as_str value) (ConfigError.Schema refusal).
Definition integer (object : Object) (key refusal : string) : checked Z :=
  result_of_option (let* value := object_get object (jstr key) in let* int := as_int value in to_u64 int)
    (ConfigError.Schema refusal).
Definition location (object : Object) (key schema bound : string) : checked string :=
  let? value := text object key schema in
  if negb (is_normal_path value) then Err (ConfigError.Check bound) else Ok value.
Definition digest (object : Object) (key schema bound : string) : checked string :=
  let? value := text object key schema in
  if negb (is_digest value) then Err (ConfigError.Check bound) else Ok value.
Definition bounded (object : Object) (key : string) (first last : Z) (schema bound : string) : checked Z :=
  let? value := integer object key schema in
  if negb ((first <=? value) && (value <=? last)) then Err (ConfigError.Check bound) else Ok value.

Definition not_text (key : string) : string := key ++ " is not text".
Definition not_location (key : string) : string :=
  key ++ " is not an absolute normalised location of at most 255 bytes".
Definition not_digest (key : string) : string := key ++ " is not sha256: and 64 lowercase hex digits".

Definition parse (document : list Z) : checked BrokerConfig :=
  let? value := match canonical_value document with Ok value => Ok value | Err what => Err (ConfigError.Canonical what) end in
  let? root := closed value in
  let? format := text root "format" "format is not text" in
  if negb (bool_decide (format = FORMAT))
  then Err (ConfigError.Schema "the document's format is not planeon.capacity-broker-config/v1")
  else
    let? uid := bounded root "workerUid" WORKER_UID_FIRST WORKER_UID_LAST
      "workerUid is not an integer" "workerUid is outside 10000..=2147483647" in
    if negb (uid <? U32) then Err (ConfigError.Check "workerUid is outside 10000..=2147483647")
    else
      let location key := location root key (not_text key) (not_location key) in
      let digest key := digest root key (not_text key) (not_digest key) in
      let? script := location "workerScriptPath" in
      let? verity := text root "workerScriptVerityDigest" (not_text "workerScriptVerityDigest") in
      let? verity := result_of_option (digest_bytes verity) (ConfigError.Check (not_digest "workerScriptVerityDigest")) in
      let? interpreter := location "workerInterpreterPath" in
      let? gate := location "gateExecutablePath" in
      let? peer := digest "peerQualificationDigest" in
      let? period := bounded root "bracketPeriodSeconds" BRACKET_PERIOD_FIRST BRACKET_PERIOD_LAST
        "bracketPeriodSeconds is not an integer" "bracketPeriodSeconds is outside 140..=3600" in
      let? deadline := bounded root "operationDeadlineSeconds" OPERATION_DEADLINE_FIRST OPERATION_DEADLINE_LAST
        "operationDeadlineSeconds is not an integer" "operationDeadlineSeconds is outside 1..=900" in
      let? broker_manifest := digest "brokerManifestDigest" in
      let? broker_executable := digest "brokerExecutableDigest" in
      let? worker_manifest := digest "workerManifestDigest" in
      let? worker_artifact := digest "workerArtifactDigest" in
      Ok (mkConfig uid script verity interpreter gate peer period deadline broker_manifest broker_executable
            worker_manifest worker_artifact).

(** The members the lifecycle reads. *)
Definition run_config (config : BrokerConfig) : RunConfig :=
  mkRunConfig (worker_uid config) (worker_script_verity_digest config) (operation_deadline_seconds config).
End BrokerConf.

(** ** Its read and signature ([signed_config.rs]) *)

Module SignedConfig.
Definition PRODUCTION_DIR : string := "/etc/planeon/capacity-broker".
Definition DOCUMENT_NAME : string := "config.json".
Definition SIGNATURE_NAME : string := "config.json.sig".
Definition DOCUMENT_LIMIT : Z := 2 ^ 20.
Definition SIGNATURE_BYTES : Z := 64.
Definition KEY_BYTES : Z := 32.
(** [config-signer.pub] is empty. *)
Definition COMPILED_KEY : list Z := [].

Definition SMALL_ORDER_Y : list (list Z) :=
  [repeat 0 32;
   1 :: repeat 0 31;
   [0x26; 0xe8; 0x95; 0x8f; 0xc2; 0xb2; 0x27; 0xb0; 0x45; 0xc3; 0xf4; 0x89; 0xf2; 0xef; 0x98; 0xf0; 0xd5; 0xdf; 0xac;
    0x05; 0xd3; 0xc6; 0x33; 0x39; 0xb1; 0x38; 0x02; 0x88; 0x6d; 0x53; 0xfc; 0x05];
   [0xc7; 0x17; 0x6a; 0x70; 0x3d; 0x4d; 0xd8; 0x4f; 0xba; 0x3c; 0x0b; 0x76; 0x0d; 0x10; 0x67; 0x0f; 0x2a; 0x20; 0x53;
    0xfa; 0x2c; 0x39; 0xcc; 0xc6; 0x4e; 0xc7; 0xfd; 0x77; 0x92; 0xac; 0x03; 0x7a];
   0xec :: repeat 0xff 30 ++ [0x7f];
   0xed :: repeat 0xff 30 ++ [0x7f];
   0xee :: repeat 0xff 30 ++ [0x7f]].

Module VerifyError.
Inductive t := KeyNotSet | KeyLength | SmallOrder | Signature.
#[global] Instance t_eq_dec : EqDecision t.
Proof. solve_decision. Defined.
End VerifyError.
Module LoadError.
Inductive t := Read | Signature (error : VerifyError.t).
End LoadError.

(** One read of an open file into [room] bytes. *)
Module ReadOne.
Inductive t := Data (bytes : list Z) | Interrupted | Failed.
End ReadOne.
(** The directory and its entries (gate-sys's [Dir] and the files it opens), and ring's Ed25519. *)
Class ConfigFiles (D F : Type) := {
  dir_at : string → option D;
  file_ro : D → string → option F;
  file_len : F → option Z;
  file_read : Z → F → F * ReadOne.t;
  ed25519_verify : list Z → list Z → list Z → bool;
}.

Section Load.
Context {D F : Type} {HF : ConfigFiles D F}.

(** [fill]: what the buffer of [room] bytes holds when it is full or the reader reports the end; [None] without an
    inner value is fuel. *)
Fixpoint fill (fuel : nat) (room : Z) (file : F) : option (option (list Z)) :=
  if room <=? 0 then Some (Some [])
  else
    match fuel with
    | O => None
    | S fuel =>
        let '(file, read) := file_read room file in
        match read with
        | ReadOne.Data [] => Some (Some [])
        | ReadOne.Data bytes =>
            match fill fuel (room - zlen bytes) file with
            | Some (Some rest) => Some (Some (bytes ++ rest))
            | r => r
            end
        | ReadOne.Interrupted => fill fuel room file
        | ReadOne.Failed => Some None
        end
    end.

(** An entry of [low] to [high] bytes, read whole: one byte more than its size is asked for. *)
Definition read_entry (fuel : nat) (dir : D) (name : string) (low high : Z) : option (list Z) :=
  let* file := file_ro dir name in
  let* size := file_len file in
  if (size <? low) || (high <? size) then None
  else
    match fill fuel (size + 1) file with
    | Some (Some bytes) => if zlen bytes =? size then Some bytes else None
    | _ => None
    end.

(** The sign bit of the last byte. *)
Fixpoint clear_sign (y : list Z) : list Z :=
  match y with [] => [] | [last] => [Z.land last 0x7f] | byte :: y => byte :: clear_sign y end.
Definition check_key (key : list Z) : result unit VerifyError.t :=
  if bool_decide (key = []) then Err VerifyError.KeyNotSet
  else if negb (zlen key =? KEY_BYTES) then Err VerifyError.KeyLength
  else if bool_decide (clear_sign key ∈ SMALL_ORDER_Y) then Err VerifyError.SmallOrder
  else Ok tt.

Definition payload (document : list Z) : list Z := bytes_of BrokerConf.FORMAT ++ [0] ++ document.
Definition verify (document signature key : list Z) : result unit VerifyError.t :=
  let? _ := check_key key in
  if negb (zlen signature =? SIGNATURE_BYTES) then Err VerifyError.Signature
  else if ed25519_verify key (payload document) signature then Ok tt else Err VerifyError.Signature.

Definition load_from (fuel : nat) (dir : string) (key : list Z) : result (list Z) LoadError.t :=
  let? directory := result_of_option (dir_at dir) LoadError.Read in
  let? document := result_of_option (read_entry fuel directory DOCUMENT_NAME 1 DOCUMENT_LIMIT) LoadError.Read in
  let? signature := result_of_option (read_entry fuel directory SIGNATURE_NAME SIGNATURE_BYTES SIGNATURE_BYTES) LoadError.Read in
  match verify document signature key with Ok _ => Ok document | Err error => Err (LoadError.Signature error) end.
Definition load (fuel : nat) : result (list Z) LoadError.t := load_from fuel PRODUCTION_DIR COMPILED_KEY.
End Load.
End SignedConfig.

(** ** The gate as a peer ([gate_peer.rs]) *)

Module GatePeer.
Definition GATE_LABEL : string := "system_u:system_r:planeon_gate_t:s0".
Definition GATE_UID : Z := 0.
Definition GATE_GID : Z := 0.
Definition GATE_CGROUP : string := "0::/planeon.slice/planeon-effect-gate.service".

Module SocketPidfd.
Inductive t := PeerPidfd | ScmPidfd.
End SocketPidfd.
Record PeerCredentials := mkCredentials { pid : Z; uid : Z; gid : Z }.
Record GateObservation := mkObservation {
  credentials : PeerCredentials;
  pidfd : SocketPidfd.t;
  exe_link : list Z;
  attr_current : list Z;
  cgroup : list Z;
  stat : list Z;
  exited : bool;
}.
Record GateQualified := mkQualified { qualified_pid : Z; start_ticks : Z }.
Module GateRefusal.
Inductive t := Pid | Uid | Gid | Label | Cgroup | Executable | Stat | StatPid | StartTime | Exited.
End GateRefusal.

(** gate-sys's forms, written again. *)
Definition label_matches (delivered expected : list Z) : bool := PeerWire.label_matches delivered expected.
Definition same_lines (observed expected : list Z) : bool := PeerWire.same_lines observed expected.
Definition stat_start_time (stat : list Z) : option Z := PeerWire.stat_start_time stat.
Definition decimal (text : list Z) : option Z := Text.decimal text.

Definition stat_identity (stat : list Z) : option (Z * Z) :=
  let* opens := position (Z.eqb 40) stat in
  let* head := strip_suffix_byte SPACE (take opens stat) in
  let* pid := decimal head in
  let* pid := i64_try_from pid in
  let* ticks := stat_start_time stat in
  Some (pid, ticks).

Definition qualify_gate (observed : GateObservation) (gate_executable_path : string) : result GateQualified GateRefusal.t :=
  let c := credentials observed in
  if pid c <=? 0 then Err GateRefusal.Pid
  else if negb (uid c =? GATE_UID) then Err GateRefusal.Uid
  else if negb (gid c =? GATE_GID) then Err GateRefusal.Gid
  else if negb (label_matches (attr_current observed) (bytes_of GATE_LABEL)) then Err GateRefusal.Label
  else if negb (same_lines (cgroup observed) (bytes_of GATE_CGROUP)) then Err GateRefusal.Cgroup
  else if bool_decide (gate_executable_path = "")
          || negb (bool_decide (exe_link observed = bytes_of gate_executable_path)) then Err GateRefusal.Executable
  else
    let? found := result_of_option (stat_identity (stat observed)) GateRefusal.Stat in
    if negb (found.1 =? pid c) then Err GateRefusal.StatPid
    else if exited observed then Err GateRefusal.Exited
    else Ok (mkQualified found.1 found.2).

Definition compare_start_time (qualified : GateQualified) (stat : list Z) (exited : bool) : result unit GateRefusal.t :=
  let? found := result_of_option (stat_identity stat) GateRefusal.Stat in
  if negb (found.1 =? qualified_pid qualified) then Err GateRefusal.StatPid
  else if negb (found.2 =? start_ticks qualified) then Err GateRefusal.StartTime
  else if exited then Err GateRefusal.Exited
  else Ok tt.
End GatePeer.

(** ** The listener ([lib.rs]) *)

Module ListenerError.
Inductive t := Listen | Register | Wait | Accept.
End ListenerError.
Class I02Listener (L : Type) := {
  listen : L → L * option ListenerError.t;
  wait : L → L * option ListenerError.t;
  accept : L → L * result (option Z) ListenerError.t;
  close : Z → L → L;
}.

Section Listener.
Context {L : Type} {HL : I02Listener L}.
(** The loop of [serve_unanswered]; [None] is a listener still serving when the fuel is out. *)
Fixpoint serve_loop (fuel : nat) (l : L) : L * option ListenerError.t :=
  match fuel with
  | O => (l, None)
  | S fuel =>
      match wait l with
      | (l, Some error) => (l, Some error)
      | (l, None) =>
          match accept l with
          | (l, Ok (Some connection)) => serve_loop fuel (close connection l)
          | (l, Ok None) => serve_loop fuel l
          | (l, Err error) => (l, Some error)
          end
      end
  end.
Definition serve_unanswered (fuel : nat) (l : L) : L * option ListenerError.t :=
  match listen l with
  | (l, Some error) => (l, Some error)
  | (l, None) => serve_loop fuel l
  end.
End Listener.
Definition listener_status (error : ListenerError.t) : Z :=
  match error with
  | ListenerError.Listen | ListenerError.Register | ListenerError.Wait | ListenerError.Accept => BrokerStatus.LISTENER
  end.

(** ** [main.rs] *)

(** The seam with the two stand-ins for the gate ([lifecycle/seams.rs]). *)
Definition stand_ins {W Script ChannelEnd Plan Child} (H : Seams W Script ChannelEnd Plan Child)
    : Seams W Script ChannelEnd Plan Child := {|
  leaf_read := leaf_read; leaf_write := leaf_write; open_script := open_script; measure := measure;
  channel_pair := channel_pair; plan := plan; spawn := spawn; child_pid := child_pid; mask_restored := mask_restored;
  proc_read := proc_read; fd_table := fd_table; reap := reap; now_ms := now_ms; sleep_ms := sleep_ms;
  qualify w := (w, GateAnswer.Unavailable);
  bind _ _ _ w := (w, BindAnswer.Unavailable);
|}.

Section Main.
(** One world for every system call of the process; [open_leaf] is whether both handles opened. *)
Context {K Script ChannelEnd Plan Child D F : Type}.
Context {O : Seal.Seal.SealOps K} {HS : Seams K Script ChannelEnd Plan Child} {HL : I02Listener K} {HF : SignedConfig.ConfigFiles D F}.
Context (open_leaf : K → K * bool).

(** What [main] does before it serves: the seal's stages around the configuration. *)
Definition prepare (fuel : nat) (running : BrokerSeal.Arch.t) (key : list Z) (k : K) : K * result BrokerConf.BrokerConfig Z :=
  match BrokerSeal.seal_stage1 running k with
  | (k, Err error) => (k, Err (BrokerStatus.seal error))
  | (k, Ok stage1) =>
      match SignedConfig.load_from fuel SignedConfig.PRODUCTION_DIR key with
      | Err SignedConfig.LoadError.Read => (k, Err BrokerStatus.CONFIG_READ)
      | Err (SignedConfig.LoadError.Signature _) => (k, Err BrokerStatus.CONFIG_SIGNATURE)
      | Ok document =>
          match BrokerConf.parse document with
          | Err _ => (k, Err BrokerStatus.CONFIG_CHECK)
          | Ok config =>
              match BrokerSeal.seal_stage2 stage1 k with
              | (k, Err error) => (k, Err (BrokerStatus.seal error))
              | (k, Ok _) => (k, Ok config)
              end
          end
      end
  end.

(** [serve]'s leaf, HOLD and startup run. *)
Definition serve_startup (fuel : nat) (config : BrokerConf.BrokerConfig) : Run K (Outcome.t * Standing Child) := λ k,
  let '(k, opened) := open_leaf k in
  (let^ standing := derive_hold (HS := stand_ins HS) opened in
   startup_run (HS := stand_ins HS) fuel opened (BrokerConf.run_config config) standing) k.
Definition serve (fuel : nat) (config : BrokerConf.BrokerConfig) (k : K) : K * option Z :=
  match serve_startup fuel config k with
  | (k, None) => (k, None)
  | (k, Some _) => let '(k, error) := serve_unanswered fuel k in (k, listener_status <$> error)
  end.

(** The exit status; [None] is a process still serving when the fuel is out. *)
Definition main_with (fuel : nat) (running : BrokerSeal.Arch.t) (key : list Z) (k : K) : K * option Z :=
  match prepare fuel running key k with
  | (k, Err status) => (k, Some status)
  | (k, Ok config) => serve fuel config k
  end.
Definition main (fuel : nat) (running : BrokerSeal.Arch.t) : K → K * option Z :=
  main_with fuel running SignedConfig.COMPILED_KEY.
End Main.
