(* ===== verification/BrokerProofs.v ===== *)
(** * The broker reads its configuration exactly and serves only a signed one *)

From S2P Require Import Prelude Slices Json JsonEncode JsonRoundtrip JsonInt SchemaOrder RecordCodec Sha256 Observation PeerWire.
From S2P Require Import Seal SealProofs RoleSeal Lifecycle Broker.
Import Subset.

(** ** Documents of the canonical subset *)

Definition ascii (text : list Z) : Prop := Forall (λ byte, byte < 128) text.
Fixpoint ascii_doc (d : Doc) : Prop :=
  match d with
  | DStr s => ascii (bytes_of s)
  | DArray items => Forall id (map ascii_doc items)
  | DObject members => Forall (λ e, ascii (bytes_of e.1)) members ∧ Forall id (map (λ e, ascii_doc e.2) members)
  | _ => True
  end.

Lemma is_ascii_spec l : is_ascii l = true ↔ ascii l.
Proof.
  unfold is_ascii, ascii. rewrite forallb_forall, Forall_forall. setoid_rewrite list_elem_of_In. split; intros H b Hb; specialize (H b Hb); lia.
Qed.
Lemma ascii_app l k : ascii (l ++ k) ↔ ascii l ∧ ascii k.
Proof. apply Forall_app. Qed.
Lemma ascii_cons b l : ascii (b :: l) ↔ b < 128 ∧ ascii l.
Proof. unfold ascii. by rewrite Forall_cons. Qed.
Lemma ascii_nil : ascii [].
Proof. constructor. Qed.
Lemma escape_byte_ascii_iff b : 0 ≤ b → (ascii (escape_byte b) ↔ b < 128).
Proof.
  intros Hb. split; intros H.
  - destruct (Z.lt_ge_cases b 128) as [|Hge]; [done|]. rewrite escape_byte_high in H by done. by apply ascii_cons in H as [? _].
  - eapply Forall_impl; [by apply escape_byte_ascii|]. intros x Hx. cbn in Hx. lia.
Qed.
Lemma escape_ascii s : ascii (escape (bytes_of s)) ↔ ascii (bytes_of s).
Proof.
  unfold escape. rewrite !ascii_app, !ascii_cons. pose proof (bytes_of_range s) as Hr.
  assert (H : ascii (flat_map escape_byte (bytes_of s)) ↔ ascii (bytes_of s)).
  { induction Hr as [|b l Hb _ IH]; [done|]. cbn [flat_map]. rewrite ascii_app, ascii_cons, IH, escape_byte_ascii_iff by apply Hb. done. }
  rewrite H. pose proof ascii_nil. naive_solver lia.
Qed.
Lemma write_items_ascii first items : ascii (write_items first items) ↔ Forall ascii items.
Proof.
  revert first. induction items as [|out items IH]; intros first; [by split; intros; constructor|]. cbn [write_items].
  rewrite !ascii_app, IH, Forall_cons. pose proof ascii_nil. destruct first; [naive_solver|]. rewrite ascii_cons. naive_solver lia.
Qed.
Lemma decimal_ascii n : ascii (decimal n).
Proof.
  assert (H : ∀ m, 0 ≤ m → ascii (digits_of m)).
  { intros m Hm. pose proof (digits_of_canonical m Hm) as [Hd _]. eapply Forall_impl; [exact Hd|]. intros b Hb%is_digit_bounds. lia. }
  unfold decimal. destruct (n <? 0) eqn:E; [apply ascii_cons; split; [lia|]|]; apply H; lia.
Qed.

Lemma ascii_literal s : forallb (λ b, b <? 128) (bytes_of s) = true → ascii (bytes_of s).
Proof. apply is_ascii_spec. Qed.
Lemma doc_canonical_ascii d : ascii (doc_canonical d) ↔ ascii_doc d.
Proof.
  induction d as [|[]|n|s|items IH|members IH] using Doc_nested_ind.
  1-3: split; [done|intros _; by apply ascii_literal].
  - split; [done|intros _; apply decimal_ascii].
  - apply escape_ascii.
  - cbn [doc_canonical ascii_doc]. rewrite !ascii_app, !ascii_cons, write_items_ascii, !Forall_map.
    assert (E : Forall (λ d, ascii (doc_canonical d)) items ↔ Forall (λ d, id (ascii_doc d)) items) by
      (clear -IH; induction IH as [|d l Hd _ IHl]; rewrite ?Forall_cons, ?IHl, ?Hd; done).
    rewrite E. pose proof ascii_nil. naive_solver lia.
  - cbn [doc_canonical ascii_doc]. rewrite !ascii_app, !ascii_cons, write_items_ascii, Forall_map, sort_members_perm, !Forall_map.
    assert (E : Forall (λ e : string * Doc, ascii (escape (bytes_of e.1) ++ [58] ++ doc_canonical e.2)) members ↔
                Forall (λ e, ascii (bytes_of e.1)) members ∧ Forall (λ e, id (ascii_doc e.2)) members).
    { clear -IH. induction IH as [|e l He _ IHl]; [by repeat split|]. rewrite !Forall_cons, IHl, !ascii_app, ascii_cons, escape_ascii, He.
      pose proof ascii_nil. unfold id. naive_solver lia. }
    cbn [fst snd]. rewrite E. pose proof ascii_nil. naive_solver lia.
Qed.

(** The walk for integers is [any_node]. *)
Lemma holds_bad_integer_spec v : holds_bad_integer v = any_node bad_integer v.
Proof.
  unfold holds_bad_integer. rewrite any_loop_spec by (unfold stack_weight; cbn; lia). cbn. by rewrite orb_false_r.
Qed.
Lemma depth_nesting v : depth v = nesting v.
Proof. apply (walks_are_recursive v v). Qed.
Lemma float_node v : contains_float v = any_node is_float v.
Proof. apply (walks_are_recursive v v). Qed.

(** What the subset's reader accepts: a canonical text of its value. *)
Lemma canonical_value_Ok document v :
  canonical_value document = Ok v ↔
  ascii document ∧ utf8_valid document = true ∧ parse document = Ok v ∧ (nesting v ≤ MAX_DEPTH)%nat ∧
  any_node is_float v = false ∧ any_node bad_integer v = false ∧ encode_value v = Ok document.
Proof.
  unfold canonical_value. rewrite <-is_ascii_spec. destruct (is_ascii document); cbn [negb]; [|by split; [|intros (? & _)]].
  destruct (utf8_valid document); cbn [negb]; [|by split; [|intros (_ & ? & _)]].
  destruct (parse document) as [w|e]; [|by split; [|intros (_ & _ & ? & _)]].
  rewrite depth_nesting, float_node, holds_bad_integer_spec, canonical_encode.
  destruct (Nat.ltb_spec MAX_DEPTH (nesting w)), (any_node is_float w) eqn:?, (any_node bad_integer w) eqn:?, (encode_value w) eqn:?;
    try case_bool_decide; split; intros; destruct_and?; simplify_eq; try lia; repeat split; try done; try lia; congruence.
Qed.

(** A document of small integers, written out and read. *)
Fixpoint small_ints (d : Doc) : Prop :=
  match d with
  | DInt n => 0 ≤ n ≤ MAX_INTEGER
  | DArray items => Forall id (map small_ints items)
  | DObject members => Forall id (map (λ e, small_ints e.2) members)
  | _ => True
  end.

Lemma small_integer n : 0 ≤ n ≤ MAX_INTEGER → in_i64 n = true ∧ to_u64 (int_from_i64 n) = Some n.
Proof.
  intros Hn. unfold MAX_INTEGER in Hn. destruct (int_of_value n) as [Hw Hv]. split; [unfold in_i64, I64_MIN, I64_MAX; lia|].
  destruct (integers_are_exact _ _ Hw Hw) as (_ & _ & _ & E). unfold int_from_i64. rewrite E, Hv. unfold u64_try_from, U64.
  by rewrite (proj2 (andb_true_iff _ _)) by lia.
Qed.
Lemma good_integer n : 0 ≤ n ≤ MAX_INTEGER → bad_integer (value_int n) = false.
Proof.
  intros Hn. unfold bad_integer, value_int. rewrite (proj2 (small_integer n Hn)). cbn. apply orb_false_intro; lia.
Qed.
Lemma integer_value i n : wf_int i → bad_integer (VInt i) = false → to_u64 i = Some n → 0 ≤ n ≤ MAX_INTEGER ∧ VInt i = value_int n.
Proof.
  intros Hw Hb E. destruct (integers_are_exact _ _ Hw Hw) as (_ & _ & _ & E'). rewrite E in E'. unfold bad_integer in Hb. rewrite E in Hb.
  apply orb_false_elim in Hb as [Hs Hm]. unfold int_value in E'. rewrite Hs in E'. unfold u64_try_from in E'.
  destruct (_ && _) eqn:Er; [|done]. injection E' as ->. split; [lia|]. unfold value_int, int_from_i64. destruct i as [neg mag]. cbn [negative magnitude] in *. subst neg.
  pose proof Hw as [Hc _]. cbn [magnitude] in Hc. rewrite Z.abs_eq by lia. rewrite digits_of_value by done. do 2 f_equal. lia.
Qed.

Lemma any_node_false test v : any_node test v = false ↔ test v = false ∧ Forall (λ v, any_node test v = false) (children v).
Proof.
  rewrite any_node_unfold, orb_false_iff. f_equiv. induction (children v) as [|u l IH]; [by split|]. cbn [existsb].
  by rewrite orb_false_iff, Forall_cons, IH.
Qed.
Lemma bad_integer_normalize v : bad_integer (normalize v) = bad_integer v.
Proof. by destruct v. Qed.
Lemma doc_small_ints d : wf_doc d → small_ints d → any_node bad_integer (doc_to_value d) = false.
Proof.
  induction d as [|[]|n|s|items IH|members IH] using Doc_nested_ind; intros Hw Hs; try done.
  - cbn in Hs. cbn. rewrite orb_false_r. by apply good_integer.
  - apply wf_doc_array in Hw. cbn in Hs. rewrite Forall_map in Hs. apply any_node_false. split; [done|]. cbn [children doc_to_value].
    rewrite Forall_map. rewrite Forall_forall in *. intros d Hd. by apply IH; [|apply Hw|apply Hs].
  - apply wf_doc_object in Hw as (Hn & _ & Hw). cbn in Hs. rewrite Forall_map in Hs. rewrite doc_object_value by done.
    apply any_node_false. split; [done|]. cbn [children]. rewrite map_map. rewrite Forall_map. rewrite Forall_forall in *.
    intros e He. cbn. by apply IH; [|apply Hw|apply Hs].
Qed.

(** A document that is written is read back. *)
Lemma subset_value_doc d :
  wf_doc d → ascii_doc d → small_ints d → (nesting (doc_to_value d) ≤ MAX_DEPTH)%nat →
  canonical_value (doc_canonical d) = Ok (written d).
Proof.
  intros Hw Ha Hs Hn. apply canonical_value_Ok. split; [by apply doc_canonical_ascii|]. split; [by apply utf8_doc_canonical|].
  split; [by apply doc_parses|]. unfold written. rewrite nesting_normalize. split; [done|].
  rewrite !any_node_normalize by (first [apply is_float_normalize|apply bad_integer_normalize]).
  split; [apply (doc_value_wf d Hw)|]. split; [by apply doc_small_ints|]. rewrite encode_normalize. by apply encode_doc.
Qed.

(** *** Objects by their members *)

Lemma key_le_trans {V} : Transitive (key_le (V := V)).
Proof. intros x y z. apply bytes_leb_trans. Qed.
Lemma bytes_leb_antisym l k : bytes_leb l k = true → bytes_leb k l = true → l = k.
Proof.
  unfold bytes_leb. rewrite (bytes_cmp_antisym l k). intros H1 H2. apply bytes_cmp_eq. by destruct (bytes_cmp l k).
Qed.
Lemma member_unique {V} (o : list (JStr * V)) k v v' : NoDup (map fst o) → (k, v) ∈ o → (k, v') ∈ o → v = v'.
Proof.
  induction o as [|[k0 v0] o IH]; intros Hn H1 H2; [by apply elem_of_nil in H1|]. cbn in Hn. apply NoDup_cons in Hn as [Hk Hn].
  assert (Hin : ∀ v, (k0, v) ∉ o) by (intros w Hw; apply Hk, list_elem_of_fmap; by exists (k0, w)).
  apply elem_of_cons in H1 as [H1|H1], H2 as [H2|H2]; simplify_eq; [done|by destruct (Hin v')|by destruct (Hin v)|by apply IH].
Qed.
Lemma sort_members_unique {V} (o o' : list (JStr * V)) : o ≡ₚ o' → NoDup (map fst o) → sort_members o = sort_members o'.
Proof.
  intros Hp Hn. pose proof (@key_le_trans V) as Ht.
  apply (StronglySorted_unique_strong key_le).
  - intros x1 x2 H1 H2 L1 L2. rewrite sort_members_elem in H1, H2. rewrite <-Hp in H2.
    assert (E : x1.1 = x2.1) by by apply bytes_leb_antisym. destruct x1 as [k v1], x2 as [k' v2]. cbn in E. subst k'. f_equal.
    by apply (member_unique o k).
  - apply Sorted_StronglySorted; [apply _|apply sort_members_sorted].
  - apply Sorted_StronglySorted; [apply _|apply sort_members_sorted].
  - by rewrite !sort_members_perm.
Qed.
Lemma encode_object_perm (o o' : Object) :
  o ≡ₚ o' → NoDup (map fst o) → encode_value (VObject o) = encode_value (VObject o').
Proof.
  intros Hp Hn. rewrite <-(encode_normalize (VObject o)), <-(encode_normalize (VObject o')), !normalize_object.
  by rewrite (sort_members_unique o o').
Qed.

#[local] Instance bytes_of_injective : Inj (=) (=) bytes_of.
Proof. intros ? ?. apply bytes_of_inj. Qed.
Lemma member_keys members : NoDup (map fst members) → NoDup (map fst (map member_value members)).
Proof.
  intros Hn. rewrite map_map. change (λ x, (member_value x).1) with (λ x : string * Doc, bytes_of x.1). rewrite <-(map_map fst bytes_of).
  by apply NoDup_fmap_2; [apply _|].
Qed.
Lemma members_of_object (o : Object) members :
  NoDup (map fst o) → NoDup (map fst members) → length o = length members →
  Forall (λ e, object_get o (jstr e.1) = Some (doc_to_value e.2)) members → o ≡ₚ map member_value members.
Proof.
  intros Ho Hm Hl Hg. symmetry. apply submseteq_length_Permutation; [|by rewrite length_map, Hl].
  apply NoDup_submseteq.
  - by apply (NoDup_fmap_1 fst), member_keys.
  - intros [key v] ([k d] & [= -> ->] & Hin)%list_elem_of_fmap. rewrite Forall_forall in Hg. by apply object_get_elem, (Hg (k, d)).
Qed.

(** A member of a written object. *)
Definition scalar_doc (d : Doc) : Prop := match d with DArray _ | DObject _ => False | _ => True end.
Lemma broker_written_object members :
  NoDup (map fst members) → Forall (λ e, scalar_doc e.2) members →
  ∃ o, written (DObject members) = VObject o ∧ length o = length members ∧
    Forall (λ e, object_get o (jstr e.1) = Some (doc_to_value e.2)) members.
Proof.
  intros Hn Hs. unfold written. rewrite doc_object_value by done. exists (normal_members (map member_value members)).
  split; [apply normalize_object|]. split; [by rewrite normal_members_perm, !length_map|].
  pose proof (member_keys members Hn) as Hk.
  rewrite Forall_forall in *. intros [k d] He. rewrite normal_members_get by done. cbn [fst snd].
  assert (Hg : object_get (map member_value members) (jstr k) = Some (doc_to_value d)).
  { apply object_get_elem; [done|]. apply list_elem_of_fmap. by exists (k, d). }
  rewrite Hg. cbn. specialize (Hs _ He). cbn in Hs. by destruct d.
Qed.

(** ** Digests *)

Definition digest_text (bytes : list Z) : string := DIGEST_PREFIX +:+ hex bytes.
Definition hex_pairs (bytes : list Z) : list Z := flat_map (λ b, [hex_digit (Z.shiftr b 4); hex_digit (Z.land b 0x0F)]) bytes.

Definition nibbles : list Z := map Z.of_nat (seq 0 16).
Lemma nibble_in x : 0 ≤ x < 16 → x ∈ nibbles.
Proof. intros Hx. apply list_elem_of_fmap. exists (Z.to_nat x). rewrite elem_of_seq. lia. Qed.
Lemma nibble_digits : Forall (λ x, BrokerConf.nibble (hex_digit x) = Some x ∧ is_lower_hex (hex_digit x) = true ∧ is_byte (hex_digit x)) nibbles.
Proof. unfold is_byte. by apply (bool_decide_unpack _); vm_compute. Qed.
Lemma nibble_digit x :
  0 ≤ x < 16 → BrokerConf.nibble (hex_digit x) = Some x ∧ is_lower_hex (hex_digit x) = true ∧ is_byte (hex_digit x).
Proof. intros Hx%nibble_in. pose proof nibble_digits as H. rewrite Forall_forall in H. by apply H. Qed.
Lemma nibble_Some b x : BrokerConf.nibble b = Some x → 0 ≤ x < 16 ∧ hex_digit x = b.
Proof.
  intros H. assert (Hx : 0 ≤ x < 16).
  { unfold BrokerConf.nibble, is_digit in H. repeat case_match; simplify_eq; lia. }
  split; [done|]. pose proof (proj1 (nibble_digit x Hx)) as H'.
  unfold BrokerConf.nibble, is_digit in H, H'. repeat case_match; simplify_eq; lia.
Qed.
Lemma byte_nibbles x y : 0 ≤ x < 16 → 0 ≤ y < 16 → Z.shiftr (x * 16 + y) 4 = x ∧ Z.land (x * 16 + y) 0x0F = y.
Proof.
  intros Hx Hy. rewrite Z.shiftr_div_pow2 by lia. change (Z.land (x * 16 + y) 15) with (Z.land (x * 16 + y) (Z.ones 4)). rewrite Z.land_ones by lia.
  change (2 ^ 4) with 16. split; [symmetry; apply (Z.div_unique _ 16 x y); lia|symmetry; apply (Z.mod_unique _ 16 x y); lia].
Qed.
Lemma byte_split b :
  is_byte b → 0 ≤ Z.shiftr b 4 < 16 ∧ 0 ≤ Z.land b 15 < 16 ∧ Z.shiftr b 4 * 16 + Z.land b 15 = b.
Proof.
  unfold is_byte. intros Hb. change (Z.land b 15) with (Z.land b (Z.ones 4)). rewrite Z.land_ones, Z.shiftr_div_pow2 by lia. change (2 ^ 4) with 16.
  pose proof (Z.div_mod b 16). pose proof (Z.mod_pos_bound b 16). split; [split; [apply Z.div_pos; lia|apply Z.div_lt_upper_bound; lia]|lia].
Qed.
Lemma pairs_of_Some l bytes : BrokerConf.pairs_of l = Some bytes ↔ Forall is_byte bytes ∧ l = hex_pairs bytes.
Proof.
  revert l. induction bytes as [|b bytes IH]; intros l.
  - split; [|by intros [_ ->]]. destruct l as [|high [|low l]]; cbn; [by intros _; split|done|].
    repeat (match goal with |- context [?m ≫= _] => destruct m; [cbn|done] end). done.
  - rewrite Forall_cons. cbn [hex_pairs flat_map app]. split.
    + destruct l as [|high [|low l]]; [done..|]. cbn [BrokerConf.pairs_of]. destruct (BrokerConf.nibble high) as [x|] eqn:Ex; [cbn|done].
      destruct (BrokerConf.nibble low) as [y|] eqn:Ey; [cbn|done]. destruct (BrokerConf.pairs_of l) as [rest|] eqn:El; [cbn|done].
      intros [= <- <-]. apply IH in El as [Hr ->]. apply nibble_Some in Ex as [Hx <-], Ey as [Hy <-].
      destruct (byte_nibbles x y Hx Hy) as [-> ->]. split; [|done]. split; [unfold is_byte; lia|done].
    + intros [[Hb Hr] ->]. cbn [BrokerConf.pairs_of].
      destruct (byte_split b Hb) as (Hx & Hy & Eb).
      rewrite (proj1 (nibble_digit _ Hx)), (proj1 (nibble_digit _ Hy)). cbn [mbind option_bind].
      pose proof (proj2 (IH _) (conj Hr eq_refl)) as E. unfold hex_pairs in E. rewrite E. cbn [mbind option_bind]. by rewrite Eb.
Qed.
Lemma hex_pairs_lower bytes : Forall is_byte bytes → lower_hex (hex_pairs bytes) = true ∧ Forall is_byte (hex_pairs bytes).
Proof.
  induction 1 as [|b bytes Hb _ [IH1 IH2]]; [by split|]. cbn [hex_pairs flat_map app lower_hex forallb].
  destruct (byte_split b Hb) as (Hx & Hy & _).
  destruct (nibble_digit _ Hx) as (_ & -> & ?), (nibble_digit _ Hy) as (_ & -> & ?). split; [exact IH1|]. by repeat (apply Forall_cons; split).
Qed.

(** ** The configuration *)

Lemma utf8_bytes l : utf8_valid l = true → Forall is_byte l.
Proof.
  revert l. apply utf8_valid_ind; [constructor| |].
  - intros b l Hb _ IH. constructor; [unfold is_byte; lia|done].
  - intros c l (_ & Hc & _) _ IH. apply Forall_app. split; [|done]. eapply Forall_impl; [exact Hc|]. unfold is_byte. cbn. lia.
Qed.
Lemma as_str_Some v s : as_str v = Some s ↔ v = value_str s ∧ utf8_text s.
Proof.
  unfold utf8_text, value_str. destruct v; cbn; try by split; [|intros [? _]]. unfold jstr_as_str, from_utf8. split.
  - destruct (utf8_valid s0) eqn:E; [|done]. intros [= <-]. unfold jstr. by rewrite bytes_string_bytes by by apply utf8_bytes.
  - intros [[= ->] Hu]. unfold jstr. by rewrite Hu, string_bytes_string.
Qed.
Lemma ascii_utf8 s : ascii (bytes_of s) → utf8_text s.
Proof.
  intros H. apply utf8_ascii. pose proof (bytes_of_range s) as Hr. unfold ascii in H. rewrite Forall_forall in *.
  intros b Hb. specialize (H b Hb). specialize (Hr b Hb). unfold is_byte in Hr. lia.
Qed.
Lemma strip_prefix_Some p l r : Seal.strip_prefix p l = Some r ↔ l = p ++ r.
Proof.
  unfold Seal.strip_prefix, starts_with. case_bool_decide as E; split.
  - intros [= <-]. rewrite <-E at 1. by rewrite take_drop.
  - intros ->. by rewrite drop_app_length.
  - done.
  - intros ->. by rewrite take_app_length in E.
Qed.
Lemma digest_hex_Some s l :
  digest_hex s = Some l ↔ bytes_of s = bytes_of DIGEST_PREFIX ++ l ∧ length l = 64%nat ∧ lower_hex l = true.
Proof.
  unfold digest_hex. destruct (Seal.strip_prefix _ _) as [r|] eqn:E; cbn [mbind option_bind].
  - apply strip_prefix_Some in E. rewrite E. split.
    + destruct (_ && _) eqn:E'; [|done]. intros [= <-]. apply andb_true_iff in E' as [Hl Hx]. by apply Nat.eqb_eq in Hl.
    + intros (->%(inj (app _)) & Hl & ->). by rewrite Hl.
  - split; [done|]. intros [E' _]. apply strip_prefix_Some in E'. congruence.
Qed.
Lemma digest_bytes_Some s bytes :
  BrokerConf.digest_bytes s = Some bytes ↔ length bytes = 32%nat ∧ Forall is_byte bytes ∧ s = digest_text bytes.
Proof.
  assert (Hlen : ∀ bytes, length (hex_pairs bytes) = (2 * length bytes)%nat) by
    (intros l; unfold hex_pairs; induction l as [|b l IH]; [done|]; cbn [flat_map app length]; rewrite IH; lia).
  unfold BrokerConf.digest_bytes, digest_text, hex. fold (hex_pairs bytes). split.
  - destruct (digest_hex s) as [l|] eqn:E; [cbn|done]. intros [Hb ->]%pairs_of_Some. apply digest_hex_Some in E as (E & Hl & Hx).
    rewrite Hlen in Hl. split; [lia|]. split; [done|]. apply bytes_of_inj. rewrite E, bytes_of_app, bytes_string_bytes; [done|].
    by apply hex_pairs_lower.
  - intros (Hl & Hb & ->). destruct (hex_pairs_lower bytes Hb) as [Hx Hh].
    assert (E : digest_hex (DIGEST_PREFIX +:+ string_of (hex_pairs bytes)) = Some (hex_pairs bytes)).
    { apply digest_hex_Some. rewrite bytes_of_app, bytes_string_bytes, Hlen, Hl by done. done. }
    rewrite E. cbn. by apply pairs_of_Some.
Qed.

(** The document of a configuration. *)
Definition config_members (c : BrokerConf.BrokerConfig) : list (string * Doc) :=
  [("format", DStr BrokerConf.FORMAT); ("workerUid", DInt (BrokerConf.worker_uid c)); ("workerScriptPath", DStr (BrokerConf.worker_script_path c));
   ("workerScriptVerityDigest", DStr (digest_text (BrokerConf.worker_script_verity_digest c)));
   ("workerInterpreterPath", DStr (BrokerConf.worker_interpreter_path c)); ("gateExecutablePath", DStr (BrokerConf.gate_executable_path c));
   ("peerQualificationDigest", DStr (BrokerConf.peer_qualification_digest c));
   ("bracketPeriodSeconds", DInt (BrokerConf.bracket_period_seconds c));
   ("operationDeadlineSeconds", DInt (BrokerConf.operation_deadline_seconds c));
   ("brokerManifestDigest", DStr (BrokerConf.broker_manifest_digest c));
   ("brokerExecutableDigest", DStr (BrokerConf.broker_executable_digest c));
   ("workerManifestDigest", DStr (BrokerConf.worker_manifest_digest c));
   ("workerArtifactDigest", DStr (BrokerConf.worker_artifact_digest c))].
Definition config_doc (c : BrokerConf.BrokerConfig) : Doc := DObject (config_members c).

Definition path_ok (text : string) : Prop := is_normal_path text = true ∧ ascii (bytes_of text).
(** The configurations there are. *)
Record wf_config (c : BrokerConf.BrokerConfig) : Prop := {
  wc_uid : 10000 ≤ BrokerConf.worker_uid c ≤ 2147483647;
  wc_script : path_ok (BrokerConf.worker_script_path c);
  wc_verity : length (BrokerConf.worker_script_verity_digest c) = 32%nat ∧ Forall is_byte (BrokerConf.worker_script_verity_digest c);
  wc_interpreter : path_ok (BrokerConf.worker_interpreter_path c);
  wc_gate : path_ok (BrokerConf.gate_executable_path c);
  wc_peer : is_digest (BrokerConf.peer_qualification_digest c) = true;
  wc_period : 140 ≤ BrokerConf.bracket_period_seconds c ≤ 3600;
  wc_deadline : 1 ≤ BrokerConf.operation_deadline_seconds c ≤ 900;
  wc_broker_manifest : is_digest (BrokerConf.broker_manifest_digest c) = true;
  wc_broker_executable : is_digest (BrokerConf.broker_executable_digest c) = true;
  wc_worker_manifest : is_digest (BrokerConf.worker_manifest_digest c) = true;
  wc_worker_artifact : is_digest (BrokerConf.worker_artifact_digest c) = true;
}.

Lemma text_Ok o key refusal s :
  BrokerConf.text o key refusal = Ok s ↔ object_get o (jstr key) = Some (value_str s) ∧ utf8_text s.
Proof.
  unfold BrokerConf.text. destruct (object_get o (jstr key)) as [v|]; cbn; [|by split; [|intros [? _]]].
  destruct (as_str v) as [t|] eqn:E; cbn.
  - apply as_str_Some in E as [-> Ht]. split; [by intros [= ->]|]. intros [[= H] _]. by apply bytes_of_inj in H as ->.
  - split; [done|]. intros [[= ->] Hs]. by rewrite (proj2 (as_str_Some _ s)) in E.
Qed.
Lemma location_Ok o key schema bound s :
  BrokerConf.location o key schema bound = Ok s ↔ object_get o (jstr key) = Some (value_str s) ∧ utf8_text s ∧ is_normal_path s = true.
Proof.
  unfold BrokerConf.location. rewrite result_bind_Ok. setoid_rewrite text_Ok. split.
  - intros (t & [Hg Hu] & H). destruct (is_normal_path t) eqn:E; [|done]. by injection H as <-.
  - intros (Hg & Hu & H). exists s. by rewrite H.
Qed.
Lemma digest_Ok o key schema bound s :
  BrokerConf.digest o key schema bound = Ok s ↔ object_get o (jstr key) = Some (value_str s) ∧ utf8_text s ∧ is_digest s = true.
Proof.
  unfold BrokerConf.digest. rewrite result_bind_Ok. setoid_rewrite text_Ok. split.
  - intros (t & [Hg Hu] & H). destruct (is_digest t) eqn:E; [|done]. by injection H as <-.
  - intros (Hg & Hu & H). exists s. by rewrite H.
Qed.
Lemma is_digest_ascii s : is_digest s = true → ascii (bytes_of s).
Proof.
  unfold is_digest. destruct (digest_hex s) as [l|] eqn:E; [|done]. intros _. apply digest_hex_Some in E as (-> & _ & Hx).
  apply ascii_app. split; [by apply ascii_literal|]. unfold lower_hex in Hx. rewrite forallb_forall in Hx.
  apply Forall_forall. intros b Hb%list_elem_of_In%Hx. unfold is_lower_hex, is_digit in Hb. lia.
Qed.
Lemma digest_text_ascii bytes : Forall is_byte bytes → length bytes = 32%nat → ascii (bytes_of (digest_text bytes)).
Proof.
  intros Hb Hl. apply is_digest_ascii. unfold is_digest. pose proof (proj2 (digest_bytes_Some (digest_text bytes) bytes) (conj Hl (conj Hb eq_refl))) as E.
  unfold BrokerConf.digest_bytes in E. by destruct (digest_hex _).
Qed.

Section Root.
Context (o : Object) (Hwf : wf_value (VObject o)) (Hints : any_node bad_integer (VObject o) = false).

Lemma bounded_Ok key first last schema bound n :
  0 ≤ first → last ≤ MAX_INTEGER →
  BrokerConf.bounded o key first last schema bound = Ok n ↔ object_get o (jstr key) = Some (value_int n) ∧ first ≤ n ≤ last.
Proof.
  intros Hf Hl. apply wf_object in Hwf as [Hn Hv]. apply any_node_false in Hints as [_ Hc]. cbn in Hc. rewrite Forall_map in Hc.
  unfold BrokerConf.bounded, BrokerConf.integer. rewrite result_bind_Ok. split.
  - intros (m & Hm & Hr). destruct (_ && _) eqn:Er; [|done]. injection Hr as ->.
    destruct (object_get o (jstr key)) as [v|] eqn:Eg; [cbn in Hm|done]. apply object_get_elem in Eg; [|done].
    rewrite Forall_forall in Hv, Hc. specialize (Hv _ Eg). specialize (Hc _ Eg). cbn in Hv, Hc.
    destruct v as [| |i| | | |]; try done. cbn in Hm. destruct (to_u64 i) as [k|] eqn:Eu; [|done]. injection Hm as ->.
    apply any_node_false in Hc as [Hb _]. destruct (integer_value i n Hv Hb Eu) as [_ ->]. split; [done|lia].
  - intros [E Hr]. rewrite E. exists n. cbn [mbind option_bind as_int value_int]. unfold value_int.
    rewrite (proj2 (small_integer n ltac:(lia))). split; [done|]. by rewrite (proj2 (andb_true_iff _ _)) by lia.
Qed.
End Root.

(** The checks on a root of the subset. *)
Lemma root_closed (o : Object) c :
  Forall (λ e, object_get o (jstr e.1) = Some (doc_to_value e.2)) (config_members c) → length o = 13%nat →
  BrokerConf.closed (VObject o) = Ok o.
Proof.
  intros Hg Hl. unfold config_members in Hg. repeat (apply Forall_cons in Hg as [? Hg]). cbn [fst snd] in *.
  unfold BrokerConf.closed, holds_exactly, BrokerConf.MEMBERS. cbn [as_object]. rewrite Hl. cbn [length forallb Nat.eqb andb].
  repeat (match goal with H : object_get o ?k = Some _ |- context [object_get o ?k] => rewrite H end). done.
Qed.
Ltac config_bounds :=
  unfold MAX_INTEGER, BrokerConf.WORKER_UID_FIRST, BrokerConf.WORKER_UID_LAST, BrokerConf.BRACKET_PERIOD_FIRST, BrokerConf.BRACKET_PERIOD_LAST,
    BrokerConf.OPERATION_DEADLINE_FIRST, BrokerConf.OPERATION_DEADLINE_LAST in *; cbn; lia.
Lemma root_parses (o : Object) c document :
  wf_value (VObject o) → any_node bad_integer (VObject o) = false →
  Forall (λ e, object_get o (jstr e.1) = Some (doc_to_value e.2)) (config_members c) → length o = 13%nat → wf_config c →
  canonical_value document = Ok (VObject o) → BrokerConf.parse document = Ok c.
Proof.
  intros Hw Hi Hg Hl Hc E. unfold BrokerConf.parse. rewrite E. cbn [result_bind]. rewrite (root_closed o c) by done. cbn [result_bind].
  unfold config_members in Hg. repeat (apply Forall_cons in Hg as [? Hg]). cbn [fst snd doc_to_value] in *. destruct Hc.
  assert (Ht : ∀ key refusal s, object_get o (jstr key) = Some (value_str s) → ascii (bytes_of s) → BrokerConf.text o key refusal = Ok s)
    by (intros key refusal s Hk ?; apply text_Ok; split; [done|by apply ascii_utf8]).
  assert (Hp : ∀ key schema bound s, object_get o (jstr key) = Some (value_str s) → path_ok s → BrokerConf.location o key schema bound = Ok s)
    by (intros key schema bound s Hk [? ?]; apply location_Ok; split; [done|]; split; [by apply ascii_utf8|done]).
  assert (Hd : ∀ key schema bound s, object_get o (jstr key) = Some (value_str s) → is_digest s = true → BrokerConf.digest o key schema bound = Ok s)
    by (intros key schema bound s Hk ?; apply digest_Ok; split; [done|]; split; [by apply ascii_utf8, is_digest_ascii|done]).
  assert (Hb : ∀ key first last schema bound n, object_get o (jstr key) = Some (value_int n) → 0 ≤ first → last ≤ MAX_INTEGER →
     first ≤ n ≤ last → BrokerConf.bounded o key first last schema bound = Ok n) by (intros; by apply bounded_Ok).
  rewrite (Ht "format" _ BrokerConf.FORMAT) by (done || by apply ascii_literal). cbn [result_bind]. rewrite bool_decide_eq_true_2 by done. cbn [negb].
  erewrite (Hb "workerUid") by (eassumption || config_bounds). cbn [result_bind].
  rewrite (proj2 (Z.ltb_lt _ _)) by (unfold U32; lia). cbn [negb]. cbv zeta.
  erewrite (Hp "workerScriptPath") by eassumption. cbn [result_bind]. destruct wc_verity0 as [Hlen Hby].
  erewrite (Ht "workerScriptVerityDigest") by (eassumption || by apply digest_text_ascii). cbn [result_bind].
  rewrite (proj2 (digest_bytes_Some _ (BrokerConf.worker_script_verity_digest c))) by done. cbn [result_of_option result_bind].
  do 2 (erewrite Hp by eassumption; cbn [result_bind]). erewrite Hd by eassumption. cbn [result_bind].
  erewrite (Hb "bracketPeriodSeconds") by (eassumption || config_bounds). cbn [result_bind].
  erewrite (Hb "operationDeadlineSeconds") by (eassumption || config_bounds). cbn [result_bind].
  do 4 (erewrite Hd by eassumption; cbn [result_bind]). by destruct c.
Qed.

Lemma closed_Ok v o : BrokerConf.closed v = Ok o → v = VObject o ∧ length o = 13%nat.
Proof.
  unfold BrokerConf.closed. destruct v as [| | | | | |o']; try done. cbn [as_object]. destruct (holds_exactly _ _) eqn:E; [|done]. intros [= <-].
  unfold holds_exactly in E. apply andb_true_iff in E as [E _]. by apply Nat.eqb_eq in E.
Qed.
Lemma parsed_root document c :
  BrokerConf.parse document = Ok c →
  ∃ o, canonical_value document = Ok (VObject o) ∧ length o = 13%nat ∧
    Forall (λ e, object_get o (jstr e.1) = Some (doc_to_value e.2)) (config_members c) ∧
    (ascii_doc (config_doc c) → wf_config c) ∧ Forall (λ e, wf_doc e.2) (config_members c).
Proof.
  unfold BrokerConf.parse. destruct (canonical_value document) as [v|what] eqn:E; cbn [result_bind]; [|done].
  intros (o & [-> Hl]%closed_Ok & H)%result_bind_Ok. exists o. split; [done|]. split; [done|].
  apply canonical_value_Ok in E as (_ & _ & Hw%parse_wf & _ & _ & Hi & _).
  apply result_bind_Ok in H as (format & [Hf Hfu]%text_Ok & H). case_bool_decide as Ef; cbn [negb] in H; [subst format|done].
  apply result_bind_Ok in H as (uid & [Hu Hur]%bounded_Ok & H); [|done..|config_bounds|config_bounds]. destruct (uid <? U32); cbn [negb] in H; [|done]. cbv zeta in H.
  apply result_bind_Ok in H as (script & (Hs & Hsu & Hsp)%location_Ok & H). apply result_bind_Ok in H as (verity & [Hv Hvu]%text_Ok & H).
  apply result_bind_Ok in H as (bytes & Hb & H). destruct (BrokerConf.digest_bytes verity) as [bytes'|] eqn:Eb; [|done]. injection Hb as ->.
  apply digest_bytes_Some in Eb as (Hbl & Hbb & ->).
  apply result_bind_Ok in H as (interpreter & (Hn & Hnu & Hnp)%location_Ok & H). apply result_bind_Ok in H as (gate & (Hg & Hgu & Hgp)%location_Ok & H).
  apply result_bind_Ok in H as (peer & (Hp & Hpu & Hpd)%digest_Ok & H).
  apply result_bind_Ok in H as (period & [Hr Hrr]%bounded_Ok & H); [|done..|config_bounds|config_bounds].
  apply result_bind_Ok in H as (deadline & [Hd Hdr]%bounded_Ok & H); [|done..|config_bounds|config_bounds].
  apply result_bind_Ok in H as (m1 & (H1 & U1 & D1)%digest_Ok & H). apply result_bind_Ok in H as (m2 & (H2 & U2 & D2)%digest_Ok & H).
  apply result_bind_Ok in H as (m3 & (H3 & U3 & D3)%digest_Ok & H). apply result_bind_Ok in H as (m4 & (H4 & U4 & D4)%digest_Ok & H).
  injection H as <-. split; [|split].
  - unfold config_members. cbn [fst snd doc_to_value BrokerConf.worker_uid BrokerConf.worker_script_path BrokerConf.worker_script_verity_digest
      BrokerConf.worker_interpreter_path BrokerConf.gate_executable_path BrokerConf.peer_qualification_digest BrokerConf.bracket_period_seconds
      BrokerConf.operation_deadline_seconds BrokerConf.broker_manifest_digest BrokerConf.broker_executable_digest BrokerConf.worker_manifest_digest
      BrokerConf.worker_artifact_digest]. by repeat (apply Forall_cons; split).
  - cbn [config_doc ascii_doc config_members map snd]. intros [_ Ha]. repeat (apply Forall_cons in Ha as [? Ha]). by split.
  - unfold config_members. repeat (apply Forall_cons; split); cbn [snd wf_doc]; try done; try apply small_integer; try config_bounds.
Qed.

Lemma config_keys c : NoDup (map fst (config_members c)).
Proof. by apply (bool_decide_unpack _); vm_compute. Qed.
Lemma wf_config_doc c : Forall (λ e, wf_doc e.2) (config_members c) → wf_doc (config_doc c).
Proof.
  intros H. apply wf_doc_object. split; [apply config_keys|]. split; [|done].
  unfold config_members. repeat (apply Forall_cons; split); try apply Forall_nil; try done; cbn [fst]; by apply ascii_utf8, ascii_literal.
Qed.
Lemma wf_config_members c : wf_config c → Forall (λ e, wf_doc e.2) (config_members c) ∧ ascii_doc (config_doc c) ∧ small_ints (config_doc c).
Proof.
  intros []. destruct wc_verity0 as [Hl Hb]. pose proof (digest_text_ascii _ Hb Hl) as Hdt.
  pose proof (λ s, is_digest_ascii s) as Hda. unfold path_ok in *. destruct_and?.
  assert (Hf : ascii (bytes_of BrokerConf.FORMAT)) by by apply ascii_literal.
  split; [|split].
  - unfold config_members. repeat (apply Forall_cons; split); cbn [snd wf_doc]; try done; try (apply small_integer; config_bounds);
      apply ascii_utf8; first [done|by apply Hda].
  - cbn [config_doc ascii_doc]. split.
    + unfold config_members. repeat (apply Forall_cons; split); try apply Forall_nil; try done; cbn [fst]; by apply ascii_literal.
    + unfold config_members. cbn [map snd]. repeat (match goal with |- Forall id _ => constructor end); unfold id; cbn [ascii_doc]; first [done|by apply Hda].
  - cbn [config_doc small_ints]. unfold config_members. cbn [map snd].
    repeat (apply Forall_cons; split); try apply Forall_nil; try done; unfold id; cbn [small_ints]; try done; config_bounds.
Qed.

(** [C20] The configuration's reader, over all byte strings: a document is accepted exactly when it is the canonical text
    of a well-formed configuration (the bounds of section 3.1, normal ASCII paths, digests of 32 bytes), and what is
    returned is that configuration. *)
Theorem config_is_its_document document c :
  BrokerConf.parse document = Ok c ↔ wf_config c ∧ document = doc_canonical (config_doc c).
Proof.
  split.
  - intros (o & E & Hl & Hg & Hwf & Hd)%parsed_root. apply wf_config_doc in Hd.
    apply canonical_value_Ok in E as (Ha & _ & Hw%parse_wf & _ & _ & _ & He). apply wf_object in Hw as [Hn _].
    assert (Hp : o ≡ₚ map member_value (config_members c)) by (apply members_of_object; [done|apply config_keys|done|done]).
    rewrite (encode_object_perm _ _ Hp Hn), <-doc_object_value in He by apply config_keys.
    pose proof (encode_doc _ Hd) as E. unfold config_doc in E. rewrite He in E. injection E as ->.
    split; [|done]. apply Hwf. by apply doc_canonical_ascii.
  - intros [Hc ->]. destruct (wf_config_members c Hc) as (Hd & Ha & Hs). pose proof (wf_config_doc c Hd) as Hw.
    assert (Hsc : Forall (λ e, scalar_doc e.2) (config_members c)) by (unfold config_members; by repeat (apply Forall_cons; split)).
    assert (Hne : (nesting (doc_to_value (config_doc c)) ≤ MAX_DEPTH)%nat).
    { unfold config_doc. rewrite doc_object_value by apply config_keys. cbn. unfold MAX_DEPTH. lia. }
    pose proof (subset_value_doc _ Hw Ha Hs Hne) as E. destruct (broker_written_object (config_members c) (config_keys c) Hsc) as (o & Eo & Hl & Hg).
    unfold config_doc in E. rewrite Eo in E. pose proof E as (_ & _ & Hwf%parse_wf & _ & _ & Hi & _)%canonical_value_Ok.
    by apply (root_parses o).
Qed.

(** ** Reading a file whole *)

Section Files.
Context {D F : Type} {HF : SignedConfig.ConfigFiles D F}.

(** A regular file: reads give its bytes from where it is, in pieces that fit the buffer and are empty at its end only. *)
Definition reads_from (content : F → list Z) : Prop :=
  ∀ room file, 0 < room →
    match SignedConfig.file_read room file with
    | (file', SignedConfig.ReadOne.Data bytes) =>
        content file = bytes ++ content file' ∧ zlen bytes ≤ room ∧ (bytes = [] → content file = [])
    | (file', _) => content file' = content file
    end.

Lemma fill_takes content fuel room file bytes :
  reads_from content → SignedConfig.fill fuel room file = Some (Some bytes) → 0 ≤ room → bytes = take (Z.to_nat room) (content file).
Proof.
  intros Hr. revert room file bytes. induction fuel as [|fuel IH]; intros room file bytes E H0; cbn [SignedConfig.fill] in E.
  { destruct (Z.leb_spec room 0); [|done]. injection E as <-. by replace room with 0 by lia. }
  destruct (Z.leb_spec room 0); [injection E as <-; by replace room with 0 by lia|]. specialize (Hr room file ltac:(lia)).
  destruct (SignedConfig.file_read room file) as [file' [bs| |]]; [|by rewrite <-Hr; apply IH|done].
  destruct Hr as (Hc & Hl & He). destruct bs as [|b bs]; [injection E as <-; rewrite He by done; by rewrite take_nil|].
  destruct (SignedConfig.fill fuel _ file') as [[rest|]|] eqn:Ef; [|done..]. injection E as <-. apply IH in Ef; [|lia]. subst rest.
  rewrite Hc, take_app. unfold zlen in *. rewrite (take_ge (b :: bs)) by lia. change (b :: bs ++ ?x) with ((b :: bs) ++ x). do 2 f_equal. lia.
Qed.

(** An entry that is read is the file's whole content, of a length within its bounds. *)
Lemma read_entry_whole content fuel dir name low high bytes :
  reads_from content → SignedConfig.read_entry fuel dir name low high = Some bytes →
  ∃ file, SignedConfig.file_ro dir name = Some file ∧ bytes = content file ∧ low ≤ zlen bytes ≤ high.
Proof.
  intros Hr. unfold SignedConfig.read_entry. destruct (SignedConfig.file_ro dir name) as [file|]; [cbn|done].
  destruct (SignedConfig.file_len file) as [size|]; [cbn|done]. destruct (_ || _) eqn:Eb; [done|].
  destruct (SignedConfig.fill fuel (size + 1) file) as [[bs|]|] eqn:Ef; try done. destruct (Z.eqb_spec (zlen bs) size) as [<-|]; [|done].
  intros [= <-]. exists file. split; [done|]. pose proof (Zle_0_nat (length bs)) as H0. change (Z.of_nat (length bs)) with (zlen bs) in H0.
  apply (fill_takes content) in Ef; [|done|lia].
  split; [|lia]. pose proof (f_equal length Ef) as Hl. rewrite length_take in Hl. unfold zlen in Hl, Ef.
  rewrite (take_ge (content file)) in Ef by lia. done.
Qed.
End Files.

(** ** The program *)

Import Seal.Seal.

Section Program.
Context {K Script ChannelEnd Plan Child D F : Type}.
Context {O : Seal.Seal.SealOps K} {HK : SealKernel K} {HF : SignedConfig.ConfigFiles D F}.

Lemma verify_Ok document signature key :
  SignedConfig.verify document signature key = Ok tt ↔
  SignedConfig.check_key key = Ok tt ∧ zlen signature = 64 ∧ SignedConfig.ed25519_verify key (SignedConfig.payload document) signature = true.
Proof.
  unfold SignedConfig.verify. destruct (SignedConfig.check_key key) as [[]|e]; cbn [result_bind]; [|by split; [|intros (? & _)]].
  unfold SignedConfig.SIGNATURE_BYTES. destruct (Z.eqb_spec (zlen signature) 64); cbn [negb]; [|by split; [|intros (_ & ? & _)]].
  destruct (SignedConfig.ed25519_verify _ _ _); by split; [|intros (_ & _ & ?)].
Qed.
(** What a loaded document is. *)
Lemma load_Ok fuel dir key document :
  SignedConfig.load_from fuel dir key = Ok document →
  ∃ d signature, SignedConfig.dir_at dir = Some d ∧
    SignedConfig.read_entry fuel d SignedConfig.DOCUMENT_NAME 1 (2 ^ 20) = Some document ∧
    SignedConfig.read_entry fuel d SignedConfig.SIGNATURE_NAME 64 64 = Some signature ∧
    SignedConfig.check_key key = Ok tt ∧ SignedConfig.ed25519_verify key (SignedConfig.payload document) signature = true.
Proof.
  unfold SignedConfig.load_from. destruct (SignedConfig.dir_at dir) as [d|]; cbn [result_of_option result_bind]; [|done].
  destruct (SignedConfig.read_entry fuel d SignedConfig.DOCUMENT_NAME _ _) as [doc|] eqn:Ed; cbn [result_of_option result_bind]; [|done].
  destruct (SignedConfig.read_entry fuel d SignedConfig.SIGNATURE_NAME _ _) as [sig|] eqn:Es; cbn [result_of_option result_bind]; [|done].
  destruct (SignedConfig.verify doc sig key) as [[]|e] eqn:Ev; [|done]. intros [= <-]. apply verify_Ok in Ev as (? & _ & ?). by exists d, sig.
Qed.

(** Stage 1 with the broker's pre-check. *)
Lemma seal_stage1_leaves running k k' r :
  BrokerSeal.seal_stage1 running k = (k', r) →
  match r with
  | Ok a => (∃ status, (own_status k).2 = Ok status ∧ BrokerSeal.pre_check (Ok status) = Ok tt) ∧
      may_seal (BrokerSeal.spec running) (process k) ∧ RoleSeal.pl_spec a = BrokerSeal.spec running ∧
      RoleSeal.pl_length a = RoleSeal.rs_instructions (BrokerSeal.spec running) ∧
      process k' = role_process (BrokerSeal.spec running) (p_filter (process k)) (process k)
  | Err _ => p_filter (process k') = p_filter (process k)
  end.
Proof.
  unfold BrokerSeal.seal_stage1, run_then, run_match, or_err. pose proof (own_status_reads k) as [Hp _].
  destruct (own_status k) as [k1 status]. cbn in Hp. rewrite <-Hp.
  assert (E : match status with Ok a => Ok (id a) | Err x => Err (id x) end = status) by by destruct status. cbn [fst snd] in *.
  destruct status as [status|error]; cbn [id]; [|by intros [= <- <-]].
  destruct (BrokerSeal.pre_check (Ok status)) as [[]|check] eqn:Ec; [|by intros [= <- <-]].
  pose proof (role_stage1_hoare (BrokerSeal.spec running) (process k1) (process_wf k1) k1 eq_refl) as H.
  destruct (RoleSeal.run_stage1 (BrokerSeal.spec running) k1) as [k2 [a|e]]; intros [= <- <-]; [|apply H].
  destruct H as (Hm & -> & Hr). split; [by exists status|]. done.
Qed.
End Program.

Section Prepare.
Context {K D F : Type} {O : Seal.Seal.SealOps K} {HK : SealKernel K} {HF : SignedConfig.ConfigFiles D F}.

(** [C19] Before it serves, over any kernel that behaves as Linux documents: Ok means that the status file passed the
    pre-check, the start state was the broker's, and the process is now exactly the broker's sealed one; that the two
    entries of the configuration directory are a document and a signature of it, under the broker's own domain, by a
    usable key; and that the configuration is that document's.  Every error leaves the process's filter as it was, and
    one of the configuration's own three statuses leaves it after stage 1, its kept set already in place. *)
Theorem prepared_is_sealed_and_signed fuel running key k k' r :
  prepare fuel running key k = (k', r) →
  let spec := BrokerSeal.spec running in
  match r with
  | Ok config =>
      (∃ status, (own_status k).2 = Ok status ∧ BrokerSeal.pre_check (Ok status) = Ok tt) ∧ may_seal spec (process k) ∧
      process k' = role_process spec (Some (RoleSeal.rs_program spec, RoleSeal.rs_instructions spec)) (process k) ∧
      ∃ d document signature, SignedConfig.dir_at SignedConfig.PRODUCTION_DIR = Some d ∧
        SignedConfig.read_entry fuel d SignedConfig.DOCUMENT_NAME 1 (2 ^ 20) = Some document ∧
        SignedConfig.read_entry fuel d SignedConfig.SIGNATURE_NAME 64 64 = Some signature ∧
        SignedConfig.check_key key = Ok tt ∧
        SignedConfig.ed25519_verify key (SignedConfig.payload document) signature = true ∧
        BrokerConf.parse document = Ok config
  | Err status =>
      p_filter (process k') = p_filter (process k) ∧
      (status ∈ [11; 12; 13] → process k' = role_process spec (p_filter (process k)) (process k))
  end.
Proof.
  unfold prepare. pose proof (seal_stage1_leaves running k) as H1.
  destruct (BrokerSeal.seal_stage1 running k) as [k1 [stage1|error]]; specialize (H1 _ _ eq_refl).
  2: { intros [= <- <-]. split; [done|]. intros Hs. exfalso. clear H1. destruct error as [[]|[st ?]]; [..|destruct st; try match goal with s : Stage.t |- _ => destruct s end]; vm_compute in Hs;
       repeat (apply elem_of_cons in Hs as [?|Hs]; [done|]); by apply elem_of_nil in Hs. }
  destruct H1 as (Hst & Hm & Hs & Hlen & Hp).
  assert (Hf : p_filter (process k1) = p_filter (process k)) by by rewrite Hp.
  destruct (SignedConfig.load_from _ _ _) as [document|[|error]] eqn:El; [|by intros [= <- <-]..].
  destruct (BrokerConf.parse document) as [config|error] eqn:Ep; [|by intros [= <- <-]].
  unfold BrokerSeal.seal_stage2, or_err. pose proof (role_stage2_hoare stage1 (process k1) k1 eq_refl) as H2.
  destruct (RoleSeal.run_stage2 stage1 k1) as [k2 [[]|e]]; intros [= <- <-].
  - destruct H2 as [H2 _]. rewrite Hs, Hlen, Hp in H2. apply load_Ok in El as (d & signature & ? & ? & ? & ? & ?).
    split; [done|]. split; [done|]. split; [exact H2|]. by exists d, document, signature.
  - destruct H2 as [He H2]. rewrite H2. split; [done|]. intros _. exact Hp.
Qed.
End Prepare.

Section Shipped.
Context {K Script ChannelEnd Plan Child D F : Type} {O : Seal.Seal.SealOps K} {HS : Seams K Script ChannelEnd Plan Child}.
Context {HL : I02Listener K} {HF : SignedConfig.ConfigFiles D F}.

(** As it is shipped, with no signer key, the program ends after stage 1 and never serves: no filter is installed, no
    leaf touched, no listener bound. *)
Theorem shipped_broker_refuses open_leaf fuel running k :
  main open_leaf fuel running k =
  (let '(k', r) := BrokerSeal.seal_stage1 running k in
   (k', Some match r with
             | Err error => BrokerStatus.seal error
             | Ok _ =>
                 match SignedConfig.load fuel with
                 | Err SignedConfig.LoadError.Read => BrokerStatus.CONFIG_READ
                 | _ => BrokerStatus.CONFIG_SIGNATURE
                 end
             end)).
Proof.
  unfold main, main_with, prepare, SignedConfig.load. destruct (BrokerSeal.seal_stage1 running k) as [k1 [stage1|error]]; [|done].
  destruct (SignedConfig.load_from _ _ _) as [document|[|error]] eqn:El; [|done..].
  apply load_Ok in El as (? & ? & _ & _ & _ & Hk & _). done.
Qed.

(** With the stand-ins for the gate, a startup run ends without a child and without a write. *)
Lemma stand_in_startup_is_idle fuel opened config standing (k : K) :
  match st_held standing with
  | Some step => ∃ k', startup_run (HS := stand_ins HS) fuel opened config standing k =
      (k', Some (if opened then (Outcome.CapacityHeld step, standing) else (Outcome.CapacityHeld Step.HoldRead, standing)))
  | None => ∃ k', startup_run (HS := stand_ins HS) fuel opened config standing k =
      (k', Some (if opened then (Outcome.Unavailable, standing) else (Outcome.CapacityHeld Step.HoldRead, hold Step.HoldRead standing)))
  end.
Proof.
  unfold startup_run, startup, andthen, call, ret. cbn.
  destruct opened, (st_held standing) as [step|] eqn:E; cbn; try (destruct (now_ms k) as [k' now]; by exists k').
  - exists k. unfold hold. by rewrite E.
  - by exists k.
Qed.
End Shipped.

(** ** The gate as a peer *)

(** The gate is qualified exactly when its credentials are the gate's with a positive pid, its label, cgroup and
    executable are the expected ones, its [stat] line names that pid and a start time, and it had not exited after the
    reads; the token holds that pid and start time.  On a later frame the same process passes, and only it. *)
Theorem gate_is_qualified_exactly observed path q :
  GatePeer.qualify_gate observed path = Ok q ↔
  (let c := GatePeer.credentials observed in
   0 < GatePeer.pid c ∧ GatePeer.uid c = 0 ∧ GatePeer.gid c = 0 ∧
   GatePeer.label_matches (GatePeer.attr_current observed) (bytes_of GatePeer.GATE_LABEL) = true ∧
   GatePeer.same_lines (GatePeer.cgroup observed) (bytes_of GatePeer.GATE_CGROUP) = true ∧
   path ≠ "" ∧ GatePeer.exe_link observed = bytes_of path ∧
   GatePeer.stat_identity (GatePeer.stat observed) = Some (GatePeer.pid c, GatePeer.start_ticks q) ∧
   GatePeer.qualified_pid q = GatePeer.pid c ∧ GatePeer.exited observed = false) ∧
  ∀ stat exited, GatePeer.compare_start_time q stat exited = Ok tt ↔
    GatePeer.stat_identity stat = Some (GatePeer.qualified_pid q, GatePeer.start_ticks q) ∧ exited = false.
Proof.
  assert (Hc : ∀ stat exited, GatePeer.compare_start_time q stat exited = Ok tt ↔
    GatePeer.stat_identity stat = Some (GatePeer.qualified_pid q, GatePeer.start_ticks q) ∧ exited = false).
  { intros stat exited. unfold GatePeer.compare_start_time. destruct (GatePeer.stat_identity stat) as [[pid ticks]|]; cbn; [|by split; [|intros [? _]]].
    destruct (Z.eqb_spec pid (GatePeer.qualified_pid q)), (Z.eqb_spec ticks (GatePeer.start_ticks q)), exited; cbn; naive_solver. }
  split; [intros H; split; [|exact Hc]; revert H|intros [H _]; revert H]; unfold GatePeer.qualify_gate, GatePeer.GATE_UID, GatePeer.GATE_GID; cbv zeta.
  - destruct (Z.leb_spec (GatePeer.pid (GatePeer.credentials observed)) 0); [done|].
    destruct (Z.eqb_spec (GatePeer.uid (GatePeer.credentials observed)) 0); cbn [negb]; [|done].
    destruct (Z.eqb_spec (GatePeer.gid (GatePeer.credentials observed)) 0); cbn [negb]; [|done].
    destruct (GatePeer.label_matches _ _); cbn [negb]; [|done]. destruct (GatePeer.same_lines _ _); cbn [negb]; [|done].
    destruct (_ || _) eqn:Ee; [done|]. apply orb_false_elim in Ee as [Ep%bool_decide_eq_false El%negb_false_iff%bool_decide_eq_true].
    destruct (GatePeer.stat_identity _) as [[pid ticks]|]; cbn; [|done]. destruct (Z.eqb_spec pid (GatePeer.pid (GatePeer.credentials observed))) as [->|]; cbn; [|done].
    destruct (GatePeer.exited observed); [done|]. by intros [= <-].
  - intros (H1 & H2 & H3 & H4 & H5 & H6 & H7 & H8 & H9 & H10). rewrite (proj2 (Z.leb_gt _ _)) by lia. rewrite H2, H3, H4, H5, H7, H8, H10. cbn.
    rewrite bool_decide_eq_false_2, bool_decide_eq_true_2, Z.eqb_refl by done. cbn. rewrite <-H9. by destruct q.
Qed.
