(* ===== verification/GateConfig.v ===== *)
(** * The gate's signed configuration document ([effect-gate/src/gate_config.rs])

    Its closed schema and the checks before the second stage of the seal, around [PolicyGate.read]; the canonical subset
    is the one of [Broker.Subset].  The theorem: what the checked document and the gate built from it agree on. *)

From S2P Require Import Prelude Slices Json Sha256 Contracts SchemaOrder Journal Observation Inet FileStore Config Gate PolicyGate Substrate Broker.
From S2P Require Import Policy Types.
Import Broker.Subset.

Module GateConfig.
Definition FORMAT : string := "planeon.effect-gate-config/v3".
Definition MAX_MANIFESTS : nat := 32.
Definition MAX_MANIFEST_BYTES : Z := 16384.
Definition MIN_I04_PORT : Z := 1024.
Definition MAX_CHAIN_FILES : nat := 4.
Definition MEMBERS : list string := ["format"; "gate"; "lifetimes"; "stores"; "credentials"; "enrolledWriter"].
Definition ENROLLED_WRITER_MEMBERS : list string := ["executable"].
Definition DELETED_SUFFIX : string := " (deleted)".
(** A quotation mark. *)
Definition QUOTE : string := string_of [34].
Definition STORE_MEMBERS : list string := ["journalDirectory"; "markerDirectory"].
Definition CREDENTIAL_MEMBERS : list string :=
  ["i04Server"; "i04ClientCa"; "apiserverServingCa"; "effectIdentity"; "writerIdentity"].

Record FileRef := mkFileRef { path : string; sha256 : string }.
Record IdentityFiles := mkIdentityFiles { chain : list FileRef; key : FileRef }.
Record CredentialFiles := mkCredentialFiles {
  i04_server : IdentityFiles;
  i04_client_ca : FileRef;
  apiserver_serving_ca : FileRef;
  effect_identity : IdentityFiles;
  writer_identity : IdentityFiles;
}.
Record GateConfig := mkGateConfig {
  gate : Value;
  kinds : Value;
  generation : string;
  endpoint : InetAddress;
  lifetimes : Lifetimes;
  journal_directory : string;
  marker_directory : string;
  credentials : CredentialFiles;
  writer_executable : list Z;
  document_digest : string;
}.

Module Error.
Inductive t := Canonical (what : string) | Schema (what : string) | Check (what : string) | Gate (error : PolicyGateError.t) | Kinds.
End Error.
Abbreviation checked A := (result A Error.t).
Definition schema {A} (message : string) : checked A := Err (Error.Schema message).
Definition check {A} (message : string) : checked A := Err (Error.Check message).
(** [if !ok { return check(message) }] *)
Definition ensure (ok : bool) (message : string) : checked unit := if ok then Ok tt else check message.

Definition policy_kinds : checked Value :=
  if negb (utf8_valid I07_V3_POLICY_KINDS) then Err Error.Kinds
  else match parse I07_V3_POLICY_KINDS with Ok value => Ok value | Err _ => Err Error.Kinds end.

(** [members.join(", ")] *)
Definition join (members : list string) : string := String.concat ", " members.
Definition closed (value : option Value) (what : string) (members : list string) : checked Object :=
  match (let* value := value in as_object value) with
  | None => schema (what +:+ " is not an object")
  | Some object =>
      if holds_exactly object members then Ok object else schema (what +:+ " must hold exactly " +:+ join members)
  end.
Definition text (object : Object) (key what : string) : checked string :=
  match (let* value := object_get object (jstr key) in as_str value) with
  | Some value => Ok value
  | None => schema (what +:+ "." +:+ key +:+ " is not text")
  end.

Definition file_ref (value : option Value) (what : string) : checked FileRef :=
  let? object := closed value what ["path"; "sha256"] in
  let? path := text object "path" what in
  let? digest := text object "sha256" what in
  let? _ := ensure (is_normal_path path) (what +:+ ".path is not an absolute normalised path of at most 255 bytes") in
  let? _ := ensure (is_digest digest) (what +:+ ".sha256 is not sha256: and 64 lowercase hex digits") in
  Ok (mkFileRef path digest).

Definition identity (value : option Value) (what : string) : checked IdentityFiles :=
  let? object := closed value what ["chain"; "key"] in
  match (let* files := object_get object (jstr "chain") in as_array files) with
  | None => schema (what +:+ ".chain is not a list")
  | Some files =>
      let? _ := ensure (negb (Nat.eqb (length files) 0 || Nat.ltb MAX_CHAIN_FILES (length files)))
                  (what +:+ ".chain must hold 1 to 4 files") in
      let? chain := result_mapM (λ file, file_ref (Some file) (what +:+ ".chain")) files in
      let? key := file_ref (object_get object (jstr "key")) (what +:+ ".key") in
      Ok (mkIdentityFiles chain key)
  end.

(** Unspecified or multicast, also in the IPv4-mapped form of IPv6. *)
Definition refused_v4 (octets : list Z) : bool :=
  bool_decide (octets = [0; 0; 0; 0]) || match octets with first :: _ => (224 <=? first) && (first <=? 239) | [] => false end.
Definition refused_ip (ip : IpLiteral.t) : bool :=
  match ip with
  | IpLiteral.V4 octets => refused_v4 octets
  | IpLiteral.V6 octets =>
      let mapped := forallb (Z.eqb 0) (take 10 octets) && bool_decide (take 2 (drop 10 octets) = [0xff; 0xff]) in
      bool_decide (octets = repeat 0 16) || bool_decide (head octets = Some 0xff) || (mapped && refused_v4 (drop 12 octets))
  end.
Definition endpoint_of (text : string) : checked InetAddress :=
  match authority text with
  | Err _ => check "gate.endpoint is not a literal authority"
  | Ok address =>
      let? _ := ensure (negb (refused_ip (ia_ip address))) "gate.endpoint's address is unspecified or multicast" in
      let? _ := ensure (negb (ia_port address <? MIN_I04_PORT)) "gate.endpoint's port is below 1024" in
      Ok address
  end.

Definition closed_entries (value : option Value) (what : string) : checked Object :=
  match (let* value := value in as_object value) with
  | None => schema (what +:+ " is not an object")
  | Some object =>
      if forallb (λ entry : JStr * Value, match as_object entry.2 with Some _ => true | None => false end) object then Ok object
      else schema (what +:+ " holds an entry that is not an object")
  end.

(** A text member, the empty text when there is none. *)
Definition member_text (entry : Value) (key : string) : string :=
  default "" (let* value := value_get entry key in as_str value).
Definition manifest_check (member : JStr * Value) : checked unit :=
  let key := default "" (jstr_as_str member.1) in
  let digest := member_text member.2 "digest" in
  let? _ := ensure (is_digest key && bool_decide (key = digest)) "a gate.manifests key is not its entry's sha256 digest (R47)" in
  let size := let* value := value_get member.2 "size" in let* int := as_int value in to_u64 int in
  ensure (match size with Some size => size <=? MAX_MANIFEST_BYTES | None => false end)
    "a gate.manifests size is above 16,384 bytes (R48)".

(** The runs' certificate digests, each once. *)
Fixpoint certificates_of (certificates : gset string) (runs : Object) : checked (gset string) :=
  match runs with
  | [] => Ok certificates
  | run :: runs =>
      let digest := member_text run.2 "serverCertificateDigest" in
      let? _ := ensure (is_digest digest) "a serverCertificateDigest is not sha256: and 64 lowercase hex digits (R47)" in
      let? _ := ensure (negb (bool_decide (digest ∈ certificates))) "two runs carry the same serverCertificateDigest" in
      certificates_of ({[digest]} ∪ certificates) runs
  end.

Definition nonces_of (runs : Object) : gset string := list_to_set (omap (λ run : JStr * Value, jstr_as_str run.1) runs).
Fixpoint ends_of (nonces : gset string) (ends : gmap string Z) (members : Object) : checked (gmap string Z) :=
  match members with
  | [] => Ok ends
  | (nonce, stop) :: members =>
      match jstr_as_str nonce with
      | Some nonce =>
          let? _ := ensure (bool_decide (nonce ∈ nonces)) "lifetimes names a run that gate.runs does not hold" in
          let stop := let* int := as_int stop in let* stop := to_u64 int in
                      if (1 <=? stop) && (stop <=? MAX_INTEGER) then i64_try_from stop else None in
          let? stop := result_of_option stop (Error.Check "a lifetime end is not an integer 1..=2^53-1") in
          ends_of nonces (<[nonce := stop]> ends) members
      | None => check "lifetimes names a run that gate.runs does not hold"
      end
  end.
Definition lifetimes_of (value : option Value) (runs : Object) : checked Lifetimes :=
  match (let* value := value in as_object value) with
  | None => schema "lifetimes is not an object"
  | Some object =>
      let nonces := nonces_of runs in
      let? ends := ends_of nonces ∅ object in
      let? _ := ensure (Nat.eqb (size ends) (size nonces)) "a run of gate.runs has no lifetime" in
      Ok ends
  end.

Definition is_control (byte : Z) : bool := (byte <? 32) || (byte =? 127).
Definition ends_with (suffix text : list Z) : bool := starts_with (rev suffix) (rev text).
Definition enrolled_writer (value : option Value) : checked (list Z) :=
  let? object := closed value "enrolledWriter" ENROLLED_WRITER_MEMBERS in
  let? executable := text object "executable" "enrolledWriter" in
  let bytes := bytes_of executable in
  let? _ := ensure (is_normal_path executable && is_ascii bytes)
              "enrolledWriter.executable is not an absolute normalised ASCII path of at most 255 bytes" in
  let? _ := ensure (negb (existsb is_control bytes)) "enrolledWriter.executable holds a control character" in
  let? _ := ensure (negb (ends_with (bytes_of DELETED_SUFFIX) bytes)) ("enrolledWriter.executable ends with " +:+ QUOTE +:+ DELETED_SUFFIX +:+ QUOTE) in
  Ok bytes.

Definition credentials_of (value : option Value) : checked CredentialFiles :=
  let? files := closed value "credentials" CREDENTIAL_MEMBERS in
  let? i04_server := identity (object_get files (jstr "i04Server")) "credentials.i04Server" in
  let? i04_client_ca := file_ref (object_get files (jstr "i04ClientCa")) "credentials.i04ClientCa" in
  let? apiserver_serving_ca := file_ref (object_get files (jstr "apiserverServingCa")) "credentials.apiserverServingCa" in
  let? effect_identity := identity (object_get files (jstr "effectIdentity")) "credentials.effectIdentity" in
  let? writer_identity := identity (object_get files (jstr "writerIdentity")) "credentials.writerIdentity" in
  Ok (mkCredentialFiles i04_server i04_client_ca apiserver_serving_ca effect_identity writer_identity).
(** The pins of the gate's own leaf certificates. *)
Definition own_leaves (credentials : CredentialFiles) : list string :=
  omap (λ files, sha256 <$> head (chain files)) [i04_server credentials; effect_identity credentials; writer_identity credentials].

(** [PolicyGate::new] on in-memory stores, dropped at once. *)
Definition checked_gate (gate kinds : Value) : checked unit :=
  match Writer.new i05_v3_schema i07_v3_schema gate kinds MemoryStores_default unobserved with
  | Ok _ => Ok tt
  | Err error => Err (Error.Gate error)
  end.

Definition parse (document : list Z) : checked GateConfig :=
  let? value := match canonical_value document with Ok value => Ok value | Err what => Err (Error.Canonical what) end in
  let? root := closed (Some value) "the document" MEMBERS in
  let? format := text root "format" "the document" in
  let? _ := if bool_decide (format = FORMAT) then Ok tt else schema ("the document's format is not " +:+ FORMAT) in
  let? gate := result_of_option (object_get root (jstr "gate")) (Error.Schema "the document has no gate") in
  let? kinds := policy_kinds in
  let? _ := checked_gate gate kinds in
  let? members := result_of_option (as_object gate) (Error.Schema "gate is not an object") in
  let? generation := text members "generation" "gate" in
  let? _ := ensure (valid_generation generation) "gate.generation is not a valid store name (R19)" in
  let? address := text members "endpoint" "gate" in
  let? endpoint := endpoint_of address in
  let? manifests := closed_entries (object_get members (jstr "manifests")) "gate.manifests" in
  let? _ := ensure (negb (Nat.ltb MAX_MANIFESTS (length manifests))) "gate.manifests holds more than 32 manifests (R48)" in
  let? _ := result_mapM manifest_check manifests in
  let? runs := closed_entries (object_get members (jstr "runs")) "gate.runs" in
  let? certificates := certificates_of ∅ runs in
  let? lifetimes := lifetimes_of (object_get root (jstr "lifetimes")) runs in
  let? stores := closed (object_get root (jstr "stores")) "stores" STORE_MEMBERS in
  let? journal_directory := text stores "journalDirectory" "stores" in
  let? marker_directory := text stores "markerDirectory" "stores" in
  let? _ := ensure (is_normal_path journal_directory && is_normal_path marker_directory)
              "a store directory is not an absolute normalised path of at most 255 bytes" in
  let? _ := ensure (negb (bool_decide (journal_directory = marker_directory))) "the journal and marker directories are the same" in
  let? credentials := credentials_of (object_get root (jstr "credentials")) in
  let? _ := ensure (negb (existsb (λ leaf, bool_decide (leaf ∈ certificates)) (own_leaves credentials)))
              "a serverCertificateDigest is the pin of one of the gate's own leaf certificates" in
  let? writer_executable := enrolled_writer (object_get root (jstr "enrolledWriter")) in
  Ok (mkGateConfig gate kinds generation endpoint lifetimes journal_directory marker_directory credentials
        writer_executable (prefixed document)).
End GateConfig.

(** ** What a checked document and the gate agree on *)

Lemma object_get_cons_ne k v o key : k ≠ key → object_get ((k, v) :: o) key = object_get o key.
Proof. intros. unfold object_get. cbn. by rewrite bool_decide_eq_false_2. Qed.
Lemma object_get_cons_eq key v o : object_get ((key, v) :: o) key = Some v.
Proof. unfold object_get. cbn. by rewrite bool_decide_eq_true_2. Qed.

Lemma object_get_remove_ne o k key : k ≠ key → object_get (object_remove o k) key = object_get o key.
Proof.
  intros Hk. induction o as [|[n v] o IH]; [done|]. cbn [object_remove]. destruct (decide (n = k)) as [->|Hn].
  - rewrite bool_decide_eq_true_2 by done. by rewrite object_get_cons_ne.
  - rewrite bool_decide_eq_false_2 by done. destruct (decide (n = key)) as [->|].
    + by rewrite !object_get_cons_eq.
    + by rewrite !object_get_cons_ne.
Qed.

Lemma as_object_Some v o : as_object v = Some o ↔ v = VObject o.
Proof. destruct v; naive_solver. Qed.

Lemma ensure_Ok ok message r : GateConfig.ensure ok message = Ok r ↔ ok = true.
Proof. destruct ok, r; naive_solver. Qed.

Lemma option_text_Ok {E} (t : option string) (e : E) s :
  match t with Some value => Ok value | None => Err e end = Ok s ↔ t = Some s.
Proof. destruct t; naive_solver. Qed.

Lemma result_of_option_Ok {T E} (o : option T) (e : E) t : result_of_option o e = Ok t ↔ o = Some t.
Proof. destruct o; naive_solver. Qed.

Lemma collect_lookup_in {V} (l : list (string * V)) (m : gmap string V) k v :
  fold_left (λ m e, <[e.1 := e.2]> m) l m !! k = Some v → (k, v) ∈ l ∨ m !! k = Some v.
Proof.
  revert m. induction l as [|[n w] l IH]; intros m; cbn; [by right|].
  intros [?|H]%IH; [left; by right|]. apply lookup_insert_Some in H as [[-> ->]|[_ ?]]; [left; by left|by right].
Qed.

Lemma collect_dom {V} (l : list (string * V)) : dom (collect l) = (list_to_set l.*1 : gset string).
Proof.
  unfold collect. assert (H : ∀ m : gmap string V, dom (fold_left (λ m e, <[e.1 := e.2]> m) l m)
    = dom m ∪ (list_to_set l.*1 : gset string)).
  { induction l as [|e l IH]; intros m; cbn; [set_solver|]. rewrite IH, dom_insert_L. set_solver. }
  rewrite H, dom_empty_L. set_solver.
Qed.

(** The members the gate's own reader takes from its configuration. *)
Lemma Config_members doc c :
  Config_from_value doc = Ok c →
  ∃ root ms manifests rs runs, doc = VObject root ∧
    (let* v := object_get root (jstr "generation") in as_str v) = Some (c_generation c) ∧
    (let* v := object_get root (jstr "endpoint") in as_str v) = Some (c_endpoint c) ∧
    object_get root (jstr "manifests") = Some (VObject ms) ∧ result_mapM manifest_entry ms = Ok manifests ∧
    c_manifests c = collect manifests ∧
    object_get root (jstr "runs") = Some (VObject rs) ∧ result_mapM run_entry rs = Ok runs ∧ c_runs c = collect runs.
Proof.
  unfold Config_from_value. rewrite result_bind_Ok. intros (root & Hroot & H).
  do 2 (apply result_bind_Ok in H as ([] & _ & H)).
  apply result_bind_Ok in H as (generation & Hg & H). do 3 (apply result_bind_Ok in H as (? & _ & H)).
  apply result_bind_Ok in H as (endpoint & He & H).
  apply result_bind_Ok in H as (ms & Hms & H). apply result_bind_Ok in H as (manifests & Hm & H).
  apply result_bind_Ok in H as (rs & Hrs & H). apply result_bind_Ok in H as (runs & Hr & H).
  do 3 (apply result_bind_Ok in H as ([] & _ & H)). apply result_bind_Ok in H as (prior & _ & [= <-]).
  destruct (result_mapM manifest_entry ms) as [manifests'|] eqn:Em; [|done]. injection Hm as <-.
  destruct (result_mapM run_entry rs) as [runs'|] eqn:Er; [|done]. injection Hr as <-.
  unfold object in Hroot, Hms, Hrs. cbn [mbind option_bind] in Hroot.
  destruct (as_object doc) as [o|] eqn:Eo; [|done]. injection Hroot as ->. apply as_object_Some in Eo as ->.
  unfold Config.text, Config.get in *.
  destruct (object_get root (jstr "manifests")) as [vm|] eqn:Hvm; [|done]. cbn in Hms. destruct (as_object vm) eqn:Evm; [|done]. injection Hms as ->.
  destruct (object_get root (jstr "runs")) as [vr|] eqn:Hvr; [|done]. cbn in Hrs. destruct (as_object vr) eqn:Evr; [|done]. injection Hrs as ->.
  apply as_object_Some in Evm as ->. apply as_object_Some in Evr as ->.
  exists root, ms, manifests', rs, runs'. cbn [c_generation c_endpoint c_manifests c_runs].
  apply option_text_Ok in Hg. apply option_text_Ok in He. by split_and!.
Qed.

Lemma run_entry_Ok member n r :
  run_entry member = Ok (n, r) →
  jstr_as_str member.1 = Some n ∧ run_server_certificate_digest r = GateConfig.member_text member.2 "serverCertificateDigest".
Proof.
  unfold run_entry. intros (nonce & Hn%result_of_option_Ok & (entry & He & H)%result_bind_Ok)%result_bind_Ok.
  do 3 (apply result_bind_Ok in H as (? & _ & H)). apply result_bind_Ok in H as (d & Hd & H).
  apply result_bind_Ok in H as (? & _ & [= <- <-]). split; [done|]. unfold object in He. cbn in He.
  destruct (as_object member.2) as [o|] eqn:Eo; [|done]. injection He as ->.
  unfold Config.text, Config.get in Hd. apply option_text_Ok in Hd. unfold GateConfig.member_text, value_get. rewrite Eo. cbn [mbind option_bind]. by rewrite Hd.
Qed.

Lemma manifest_entry_Ok member n m :
  manifest_entry member = Ok (n, m) →
  jstr_as_str member.1 = Some n ∧ Render.m_digest m = GateConfig.member_text member.2 "digest" ∧
  (let* value := value_get member.2 "size" in let* int := as_int value in to_u64 int) = Some (Render.m_size m).
Proof.
  unfold manifest_entry. intros (digest & Hn%result_of_option_Ok & (entry & He & H)%result_bind_Ok)%result_bind_Ok.
  do 2 (apply result_bind_Ok in H as (? & _ & H)). apply result_bind_Ok in H as (size & Hs%result_of_option_Ok & H).
  do 3 (apply result_bind_Ok in H as (? & _ & H)). apply result_bind_Ok in H as (d & Hd & [= <- <-]).
  unfold object in He. cbn in He. destruct (as_object member.2) as [o|] eqn:Eo; [|done]. injection He as ->.
  unfold Config.text, Config.get in *. apply option_text_Ok in Hd.
  unfold GateConfig.member_text, value_get. rewrite Eo. cbn [mbind option_bind]. by rewrite Hd.
Qed.

Lemma certificates_of_Ok seen runs certificates :
  GateConfig.certificates_of seen runs = Ok certificates →
  let digests := map (λ run : JStr * Value, GateConfig.member_text run.2 "serverCertificateDigest") runs in
  NoDup digests ∧ (∀ d, d ∈ digests → d ∉ seen ∧ is_digest d = true) ∧ certificates = (list_to_set digests ∪ seen).
Proof.
  revert seen. induction runs as [|run runs IH]; intros seen; cbn.
  - intros [= <-]. split_and!; [apply NoDup_nil_2|by intros ? ?%elem_of_nil|set_solver].
  - intros ([] & Hd%ensure_Ok & ([] & Hn%ensure_Ok%negb_true_iff%bool_decide_eq_false & H)%result_bind_Ok)%result_bind_Ok.
    destruct (IH _ H) as (Hnd & Hs & ->). split_and!.
    + apply NoDup_cons_2; [|done]. intros Hin. destruct (Hs _ Hin). set_solver.
    + intros d [->|Hin]%elem_of_cons; [done|]. destruct (Hs _ Hin). set_solver.
    + set_solver.
Qed.

Lemma ends_of_Ok nonces (ends : gmap string Z) members (out : gmap string Z) :
  GateConfig.ends_of nonces ends members = Ok out →
  dom ends ⊆ nonces → map_Forall (λ _ stop, 1 ≤ stop ≤ MAX_INTEGER) ends →
  dom out ⊆ nonces ∧ map_Forall (λ _ stop, 1 ≤ stop ≤ MAX_INTEGER) out.
Proof.
  revert ends. induction members as [|[nonce stop] members IH]; intros ends; cbn; [by intros [= <-]|].
  destruct (jstr_as_str nonce) as [n|]; [|done].
  intros ([] & Hn%ensure_Ok%bool_decide_eq_true & (e & He%result_of_option_Ok & H)%result_bind_Ok)%result_bind_Ok Hd Hf.
  apply (IH _ H); [rewrite dom_insert_L; set_solver|]. apply map_Forall_insert_2; [|done].
  destruct (as_int stop) as [int|]; [|done]. cbn in He. destruct (to_u64 int) as [u|]; [|done]. cbn in He.
  destruct (_ && _) eqn:E in He; [|done]. apply andb_prop in E as [E1%Z.leb_le E2%Z.leb_le].
  unfold i64_try_from in He. destruct (in_i64 u); [|done]. by injection He as <-.
Qed.

Lemma closed_entries_Ok value what o : GateConfig.closed_entries value what = Ok o → value = Some (VObject o).
Proof.
  unfold GateConfig.closed_entries. destruct value as [v|]; [|done]. cbn. destruct (as_object v) as [o'|] eqn:E; [|done].
  destruct (forallb _ _); [|done]. intros [= ->]. apply as_object_Some in E. by rewrite E.
Qed.

Definition member_digest (run : JStr * Value) : string := GateConfig.member_text run.2 "serverCertificateDigest".

Lemma lifetimes_of_Ok value runs (out : gmap string Z) :
  GateConfig.lifetimes_of value runs = Ok out →
  dom out = GateConfig.nonces_of runs ∧ map_Forall (λ _ stop, 1 ≤ stop ≤ MAX_INTEGER) out.
Proof.
  unfold GateConfig.lifetimes_of. destruct (let* value := value in as_object value) as [o|]; [|done].
  intros (ends & He & ([] & Hs%ensure_Ok%Nat.eqb_eq & [= <-])%result_bind_Ok)%result_bind_Ok.
  apply ends_of_Ok in He as [Hd Hf]; [|by rewrite dom_empty_L; set_solver|apply map_Forall_empty]. split; [|done].
  rewrite <-(size_dom (D := gset string)) in Hs. apply set_subseteq_size_eq; [done|lia].
Qed.

(** The runs' names, as the gate reads them and as the lifetimes are checked against. *)
Lemma runs_names rs runs : result_mapM run_entry rs = Ok runs → dom (collect runs) = GateConfig.nonces_of rs.
Proof.
  rewrite collect_dom. intros H%result_mapM_Ok. unfold GateConfig.nonces_of. f_equal.
  induction H as [|member [n r] rs runs Hr H IH]; [done|]. cbn. apply run_entry_Ok in Hr as [-> _]. cbn. by rewrite IH.
Qed.

Lemma runs_certificates rs runs n r i :
  result_mapM run_entry rs = Ok runs → runs !! i = Some (n, r) →
  ∃ run, rs !! i = Some run ∧ run_server_certificate_digest r = member_digest run.
Proof.
  intros H%result_mapM_Ok Hi. destruct (Forall2_lookup_r _ _ _ _ _ H Hi) as (run & Hrun & Hr).
  exists run. split; [done|]. by apply run_entry_Ok in Hr as [_ ?].
Qed.

Definition all_files (credentials : GateConfig.CredentialFiles) : list GateConfig.FileRef :=
  let of_identity files := GateConfig.key files :: GateConfig.chain files in
  of_identity (GateConfig.i04_server credentials) ++ of_identity (GateConfig.effect_identity credentials)
    ++ of_identity (GateConfig.writer_identity credentials)
    ++ [GateConfig.i04_client_ca credentials; GateConfig.apiserver_serving_ca credentials].

(** What the checked document [c] and the gate's own configuration agree on. *)
Record agrees (c : GateConfig.GateConfig) (config : Config) : Prop := {
  ag_generation : c_generation config = GateConfig.generation c ∧ valid_generation (GateConfig.generation c) = true;
  ag_endpoint : authority (c_endpoint config) = Ok (GateConfig.endpoint c) ∧
    GateConfig.refused_ip (ia_ip (GateConfig.endpoint c)) = false ∧ 1024 ≤ ia_port (GateConfig.endpoint c);
  ag_manifests key m : c_manifests config !! key = Some m →
    is_digest key = true ∧ Render.m_digest m = key ∧ Render.m_size m ≤ 16384;
  ag_manifest_count : (size (c_manifests config) ≤ 32)%nat;
  ag_lifetimes n : is_Some (c_runs config !! n) ↔ ∃ stop, Lifetimes_end (GateConfig.lifetimes c) n = Some stop;
  ag_ends n stop : Lifetimes_end (GateConfig.lifetimes c) n = Some stop → 1 ≤ stop ≤ 2 ^ 53 - 1;
  ag_certificate n r : c_runs config !! n = Some r →
    is_digest (run_server_certificate_digest r) = true ∧
    run_server_certificate_digest r ∉ GateConfig.own_leaves (GateConfig.credentials c);
  ag_certificates n1 r1 n2 r2 : c_runs config !! n1 = Some r1 → c_runs config !! n2 = Some r2 →
    run_server_certificate_digest r1 = run_server_certificate_digest r2 → n1 = n2;
  ag_stores : is_normal_path (GateConfig.journal_directory c) = true ∧ is_normal_path (GateConfig.marker_directory c) = true ∧
    GateConfig.journal_directory c ≠ GateConfig.marker_directory c;
  ag_files : Forall (λ file, is_normal_path (GateConfig.path file) = true ∧ is_digest (GateConfig.sha256 file) = true)
    (all_files (GateConfig.credentials c));
  ag_writer : ∃ executable, GateConfig.writer_executable c = bytes_of executable ∧ is_normal_path executable = true ∧
    Forall (λ byte, 32 ≤ byte < 127) (bytes_of executable) ∧
    ∀ start, bytes_of executable ≠ start ++ bytes_of GateConfig.DELETED_SUFFIX;
}.

Lemma file_ref_Ok value what file :
  GateConfig.file_ref value what = Ok file → is_normal_path (GateConfig.path file) = true ∧ is_digest (GateConfig.sha256 file) = true.
Proof.
  unfold GateConfig.file_ref. intros (o & _ & H)%result_bind_Ok. do 2 (apply result_bind_Ok in H as (? & _ & H)).
  apply result_bind_Ok in H as ([] & Hp%ensure_Ok & H). by apply result_bind_Ok in H as ([] & Hd%ensure_Ok & [= <-]).
Qed.

Abbreviation file_ok file := (is_normal_path (GateConfig.path file) = true ∧ is_digest (GateConfig.sha256 file) = true).

Lemma identity_Ok value what files :
  GateConfig.identity value what = Ok files → Forall (λ file, file_ok file) (GateConfig.key files :: GateConfig.chain files).
Proof.
  unfold GateConfig.identity. intros (o & _ & H)%result_bind_Ok. destruct (let* files := object_get o _ in as_array files) as [l|]; [|done].
  apply result_bind_Ok in H as ([] & _ & H). apply result_bind_Ok in H as (chain & Hc & H).
  apply result_bind_Ok in H as (key & Hk%file_ref_Ok & [= <-]). constructor; [done|]. cbn.
  apply Forall_forall. intros file Hf. destruct (result_mapM_r _ _ _ _ Hc Hf) as (v & _ & ?%file_ref_Ok). done.
Qed.

Lemma credentials_of_Ok value credentials :
  GateConfig.credentials_of value = Ok credentials → Forall (λ file, file_ok file) (all_files credentials).
Proof.
  unfold GateConfig.credentials_of. intros (o & _ & H)%result_bind_Ok.
  apply result_bind_Ok in H as (a & Ha%identity_Ok & H). apply result_bind_Ok in H as (b & Hb%file_ref_Ok & H).
  apply result_bind_Ok in H as (c & Hc%file_ref_Ok & H). apply result_bind_Ok in H as (d & Hd%identity_Ok & H).
  apply result_bind_Ok in H as (e & He%identity_Ok & [= <-]). unfold all_files. cbn.
  inversion_clear Ha. inversion_clear Hd. inversion_clear He. repeat (rewrite Forall_app || rewrite Forall_cons || rewrite Forall_nil). tauto.
Qed.

Lemma enrolled_writer_Ok value bytes :
  GateConfig.enrolled_writer value = Ok bytes →
  ∃ executable, bytes = bytes_of executable ∧ is_normal_path executable = true ∧
    Forall (λ byte, 32 ≤ byte < 127) (bytes_of executable) ∧ ∀ start, bytes_of executable ≠ start ++ bytes_of GateConfig.DELETED_SUFFIX.
Proof.
  unfold GateConfig.enrolled_writer. intros (o & _ & (executable & _ & H)%result_bind_Ok)%result_bind_Ok. cbv zeta in H.
  apply result_bind_Ok in H as ([] & [Hn Ha]%ensure_Ok%andb_prop & H).
  apply result_bind_Ok in H as ([] & Hc%ensure_Ok%negb_true_iff & H).
  apply result_bind_Ok in H as ([] & He%ensure_Ok%negb_true_iff & [= <-]). exists executable. split_and!; [done..| |].
  - apply Forall_forall. intros byte Hb. unfold is_ascii in Ha. rewrite forallb_forall in Ha.
    pose proof (Ha byte (proj1 (list_elem_of_In _ _) Hb)) as Hlt%Z.ltb_lt.
    destruct (GateConfig.is_control byte) eqn:Ec.
    + exfalso. apply not_true_iff_false in Hc. apply Hc, existsb_exists. exists byte. split; [by apply list_elem_of_In|done].
    + unfold GateConfig.is_control in Ec. apply orb_false_elim in Ec as [?%Z.ltb_ge ?%Z.eqb_neq]. lia.
  - intros start E. unfold GateConfig.ends_with, starts_with in He. apply bool_decide_eq_false in He. apply He.
    rewrite E, rev_app_distr. apply take_app_length.
Qed.

(** The runs of a configuration, against the document's own lists. *)
Section Runs.
Context (rs : Object) (runs : list (string * Run)) (certificates : gset string).
Hypothesis Hruns : result_mapM run_entry rs = Ok runs.
Hypothesis Hcertificates : GateConfig.certificates_of ∅ rs = Ok certificates.

Lemma run_at n r : (collect runs) !! n = Some r → ∃ i run, runs !! i = Some (n, r) ∧ rs !! i = Some run ∧
  run_server_certificate_digest r = member_digest run.
Proof.
  intros H. apply collect_lookup_in in H as [(i & Hi)%list_elem_of_lookup|]; [|done].
  destruct (runs_certificates _ _ _ _ _ Hruns Hi) as (run & ? & ?). by exists i, run.
Qed.

Lemma run_certificate n r : (collect runs) !! n = Some r →
  is_digest (run_server_certificate_digest r) = true ∧ run_server_certificate_digest r ∈ certificates.
Proof.
  intros (i & run & _ & Hr & ->)%run_at. destruct (certificates_of_Ok _ _ _ Hcertificates) as (_ & Hd & ->).
  assert (Hin : member_digest run ∈ map member_digest rs) by (apply list_elem_of_fmap_2; eauto using list_elem_of_lookup_2).
  destruct (Hd _ Hin). split; [done|]. set_solver.
Qed.

Lemma run_certificate_once n1 r1 n2 r2 : (collect runs) !! n1 = Some r1 → (collect runs) !! n2 = Some r2 →
  run_server_certificate_digest r1 = run_server_certificate_digest r2 → n1 = n2.
Proof.
  intros (i & run & Hi & Hr & ->)%run_at (j & run' & Hj & Hr' & ->)%run_at E.
  destruct (certificates_of_Ok _ _ _ Hcertificates) as (Hn & _).
  assert (i = j) as ->; [|congruence]. eapply (proj1 (NoDup_alt _) Hn i j (member_digest run)).
  - change (member_digest <$> rs !! i = Some (member_digest run)) || rewrite list_lookup_fmap. by rewrite Hr.
  - rewrite list_lookup_fmap, Hr', E. done.
Qed.
End Runs.

Lemma manifests_agree ms manifests key m :
  result_mapM manifest_entry ms = Ok manifests → (∃ r, result_mapM GateConfig.manifest_check ms = Ok r) →
  collect manifests !! key = Some m → is_digest key = true ∧ Render.m_digest m = key ∧ Render.m_size m ≤ 16384.
Proof.
  intros Hm [r Hc] H. apply collect_lookup_in in H as [Hin|]; [|done].
  destruct (result_mapM_r _ _ _ _ Hm Hin) as (member & Hmem & (Hn & Hd & Hs)%manifest_entry_Ok).
  destruct (result_mapM_l _ _ _ _ Hc Hmem) as ([] & _ & Hk). unfold GateConfig.manifest_check in Hk. cbv zeta in Hk.
  rewrite Hn, <-Hd, Hs in Hk. cbn in Hk.
  apply result_bind_Ok in Hk as ([] & [? E%bool_decide_eq_true]%ensure_Ok%andb_prop & Hz%ensure_Ok). apply Z.leb_le in Hz. done.
Qed.

Lemma collect_size {V} (l : list (string * V)) : (size (collect l) ≤ length l)%nat.
Proof.
  rewrite <-(size_dom (D := gset string)), collect_dom. etrans; [apply Config.size_list_to_set_le|]. by rewrite length_fmap.
Qed.

(** [PolicyGate::new] succeeds only when its parts are read. *)
Lemma checked_gate_Ok gate kinds r :
  GateConfig.checked_gate gate kinds = Ok r → ∃ config parts, Writer.read i07_v3_schema gate kinds = Ok (config, parts).
Proof.
  unfold GateConfig.checked_gate, Writer.new. destruct (Writer.read _ _ _) as [[config parts]|]; [by eauto|done].
Qed.

Lemma read_Config gate kinds config parts :
  Writer.read i07_v3_schema gate kinds = Ok (config, parts) →
  ∃ root, gate = VObject root ∧ Config_from_value (VObject (object_remove root (jstr "policyWriter"))) = Ok config.
Proof.
  unfold Writer.read. destruct (as_object gate) as [root|] eqn:E; [|done]. apply as_object_Some in E as ->.
  intros ([writer address] & _ & H)%result_bind_Ok. apply result_bind_Ok in H as (config' & Hc & H).
  do 2 (apply result_bind_Ok in H as (? & _ & H)). injection H as -> _. exists root. split; [done|].
  destruct (Config_from_value _); [|done]. by injection Hc as ->.
Qed.

Lemma jstr_ne s t : bool_decide (s = t) = false → jstr s ≠ jstr t.
Proof. intros H%bool_decide_eq_false E. by apply H, bytes_of_inj. Qed.

(** The checks of the [gate] member, against the configuration the gate reads from it. *)
Lemma gate_member_agrees members config manifests rs address generation :
  Config_from_value (VObject (object_remove members (jstr "policyWriter"))) = Ok config →
  GateConfig.text members "generation" "gate" = Ok generation →
  GateConfig.text members "endpoint" "gate" = Ok address →
  GateConfig.closed_entries (object_get members (jstr "manifests")) "gate.manifests" = Ok manifests →
  GateConfig.closed_entries (object_get members (jstr "runs")) "gate.runs" = Ok rs →
  c_generation config = generation ∧ c_endpoint config = address ∧
  ∃ ms runs, result_mapM manifest_entry manifests = Ok ms ∧ c_manifests config = collect ms ∧
    result_mapM run_entry rs = Ok runs ∧ c_runs config = collect runs.
Proof.
  intros (root & ms' & ms & rs' & runs & Hroot & Hg & He & Hms & Hm & Hcm & Hrs & Hr & Hcr)%Config_members Hg' He'
    Hm'%closed_entries_Ok Hr'%closed_entries_Ok.
  assert (root = object_remove members (jstr "policyWriter")) as -> by congruence.
  unfold GateConfig.text in Hg', He'. apply option_text_Ok in Hg'. apply option_text_Ok in He'.
  rewrite object_get_remove_ne in Hg, He, Hms, Hrs by (by apply jstr_ne; vm_compute).
  rewrite Hg in Hg'. injection Hg' as ->. rewrite He in He'. injection He' as ->.
  rewrite Hms in Hm'. injection Hm' as ->. rewrite Hrs in Hr'. injection Hr' as ->. split_and!; [done..|]. by exists ms, runs.
Qed.

Lemma closed_is_object value what members o : GateConfig.closed (Some value) what members = Ok o → value = VObject o.
Proof.
  unfold GateConfig.closed. cbn [mbind option_bind]. destruct (as_object value) as [o'|] eqn:E; [|done].
  destruct (holds_exactly o' members); [|done]. intros [= ->]. by apply as_object_Some.
Qed.

Lemma endpoint_of_Ok text address :
  GateConfig.endpoint_of text = Ok address →
  authority text = Ok address ∧ GateConfig.refused_ip (ia_ip address) = false ∧ 1024 ≤ ia_port address.
Proof.
  unfold GateConfig.endpoint_of. destruct (authority text) as [a|]; [|done].
  intros ([] & Hi%ensure_Ok%negb_true_iff & ([] & Hp%ensure_Ok%negb_true_iff%Z.ltb_ge & [= <-])%result_bind_Ok)%result_bind_Ok. done.
Qed.

(** [C21] What a checked document promises of the gate built from it.  The gate's own reader accepts the very [gate] member
    the document holds; both have one generation, a valid store name, and one endpoint, a usable address and an
    unprivileged port; every manifest is keyed by its digest and within bounds; exactly the runs have a lifetime end,
    each within bounds; every run is told from the others, and from the gate's own three identities, by its certificate
    digest; the two stores differ; every configured file is a normal path with a digest; and the enrolled writer is
    printable and cannot be an unlinked file's link. *)
Theorem gate_config_agrees document c :
  GateConfig.parse document = Ok c →
  GateConfig.document_digest c = prefixed document ∧ GateConfig.policy_kinds = Ok (GateConfig.kinds c) ∧
  (∃ root, canonical_value document = Ok (VObject root) ∧ object_get root (jstr "gate") = Some (GateConfig.gate c)) ∧
  ∃ config parts, Writer.read i07_v3_schema (GateConfig.gate c) (GateConfig.kinds c) = Ok (config, parts) ∧ agrees c config.
Proof.
  unfold GateConfig.parse. intros (value & Hv & H)%result_bind_Ok. apply result_bind_Ok in H as (root & Hroot & H).
  do 2 (apply result_bind_Ok in H as (? & _ & H)). apply result_bind_Ok in H as (gate & Hgate%result_of_option_Ok & H).
  apply result_bind_Ok in H as (kinds & Hk & H). apply result_bind_Ok in H as ([] & (config & parts & Hread)%checked_gate_Ok & H).
  apply result_bind_Ok in H as (members & Hmem%result_of_option_Ok%as_object_Some & H). subst gate.
  apply result_bind_Ok in H as (generation & Hgen & H). apply result_bind_Ok in H as ([] & Hvg%ensure_Ok & H).
  apply result_bind_Ok in H as (address & Hadd & H). apply result_bind_Ok in H as (endpoint & Hend%endpoint_of_Ok & H).
  apply result_bind_Ok in H as (manifests & Hman & H). apply result_bind_Ok in H as ([] & Hcount%ensure_Ok%negb_true_iff%Nat.ltb_ge & H).
  apply result_bind_Ok in H as (checks & Hchecks & H). apply result_bind_Ok in H as (rs & Hrs & H).
  apply result_bind_Ok in H as (certificates & Hcert & H). apply result_bind_Ok in H as (lifetimes & [Hdom Hends]%lifetimes_of_Ok & H).
  do 3 (apply result_bind_Ok in H as (? & _ & H)). apply result_bind_Ok in H as ([] & [Hj Hm]%ensure_Ok%andb_prop & H).
  apply result_bind_Ok in H as ([] & Hne%ensure_Ok%negb_true_iff%bool_decide_eq_false & H).
  apply result_bind_Ok in H as (credentials & Hcred%credentials_of_Ok & H).
  apply result_bind_Ok in H as ([] & Hown%ensure_Ok%negb_true_iff & H).
  apply result_bind_Ok in H as (writer & Hw%enrolled_writer_Ok & [= <-]). cbn.
  split; [exact eq_refl|]. split; [exact Hk|]. split.
  { destruct (canonical_value document); [|discriminate Hv]. injection Hv as ->. exists root. split; [|done]. by apply closed_is_object in Hroot as ->. }
  exists config, parts. split; [done|]. apply read_Config in Hread as (? & [= <-] & Hconf).
  destruct (gate_member_agrees _ _ _ _ _ _ Hconf Hgen Hadd Hman Hrs) as (Eg & Ee & ms & runs & Hms & Ecm & Hruns & Ecr).
  split; cbn; rewrite ?Ecm, ?Ecr, ?Eg, ?Ee.
  - exact (conj eq_refl Hvg).
  - exact Hend.
  - intros key m. apply (manifests_agree manifests); [exact Hms|by exists checks].
  - etrans; [apply collect_size|]. apply result_mapM_Ok, Forall2_length in Hms. by rewrite <-Hms.
  - intros n. unfold Lifetimes_end. rewrite <-elem_of_dom, (runs_names rs runs Hruns), <-Hdom, elem_of_dom. by unfold is_Some.
  - intros n stop Hs. exact (Hends n stop Hs).
  - intros n r Hr. destruct (run_certificate rs runs certificates Hruns Hcert n r Hr) as [? Hin]. split; [done|].
    intros Hl. apply not_true_iff_false in Hown. apply Hown, existsb_exists. exists (run_server_certificate_digest r).
    split; [by apply list_elem_of_In|by apply bool_decide_eq_true].
  - intros n1 r1 n2 r2. exact (run_certificate_once rs runs certificates Hruns Hcert n1 r1 n2 r2).
  - exact (conj Hj (conj Hm Hne)).
  - exact Hcred.
  - exact Hw.
Qed.

(** ** A signed document *)

Definition sample_pin (byte : Z) : string := "sha256:" +:+ hex (repeat byte 32).
Definition sample_file (name : string) (byte : Z) : Doc :=
  DObject [("path", DStr ("/etc/planeon/effect-gate/" +:+ name)); ("sha256", DStr (sample_pin byte))].
Definition sample_identity (name : string) (byte : Z) : Doc :=
  DObject [("chain", DArray [sample_file (name +:+ ".der") byte]); ("key", sample_file (name +:+ ".key") (byte + 1))].
Definition sample_gate : Doc := DObject
  [("generation", DStr "generation-1"); ("state", DStr "ACTIVE"); ("peerQualificationDigest", DStr (sample_pin 1));
   ("endpoint", DStr "127.0.0.1:8443");
   ("manifests", DObject [(sample_pin 2, DObject
     [("apiVersion", DStr "v1"); ("kind", DStr "Pod"); ("namespace", DStr "planeon-qual"); ("name", DStr "probe");
      ("digest", DStr (sample_pin 2)); ("size", DInt 1234)])]);
   ("runs", DObject [("nonce", DObject
     [("bindingDigest", DStr (sample_pin 3)); ("caseId", DStr "case"); ("requestDigest", DStr (sample_pin 4));
      ("serverCertificateDigest", DStr (sample_pin 5)); ("manifests", DArray [DStr (sample_pin 2)])])]);
   ("priorBindings", DObject (map (λ key, (key, DArray [])) prior_keys));
   ("policyWriter", DObject [("qualificationNamespace", DStr "planeon-qual"); ("apiserverAuthority", DStr "127.0.0.1:6443")])].
Definition sample_config_doc : Doc := DObject
  [("format", DStr GateConfig.FORMAT); ("gate", sample_gate); ("lifetimes", DObject [("nonce", DInt 2000000000)]);
   ("stores", DObject [("journalDirectory", DStr "/var/lib/planeon/journal"); ("markerDirectory", DStr "/var/lib/planeon/marker")]);
   ("credentials", DObject
     [("i04Server", sample_identity "server" 16); ("i04ClientCa", sample_file "client-ca.der" 32);
      ("apiserverServingCa", sample_file "apiserver-ca.der" 33); ("effectIdentity", sample_identity "effect" 48);
      ("writerIdentity", sample_identity "writer" 64)]);
   ("enrolledWriter", DObject [("executable", DStr "/usr/libexec/planeon/policy-writer")])].
Definition signed_document : list Z := Eval vm_compute in doc_canonical sample_config_doc.
Definition no_file : GateConfig.FileRef := GateConfig.mkFileRef "" "".
Definition no_identity : GateConfig.IdentityFiles := GateConfig.mkIdentityFiles [] no_file.
Definition signed_config : GateConfig.GateConfig :=
  Eval vm_compute in
    match GateConfig.parse signed_document with
    | Ok c => c
    | Err _ =>
        GateConfig.mkGateConfig VNull VNull "" (mkInetAddress (IpLiteral.V4 []) 0) ∅ "" ""
          (GateConfig.mkCredentialFiles no_identity no_file no_file no_identity no_identity) [] ""
    end.
Lemma gate_config_agrees_witness :
  GateConfig.parse signed_document = Ok signed_config ∧
  ∃ config parts, Writer.read i07_v3_schema (GateConfig.gate signed_config) (GateConfig.kinds signed_config) = Ok (config, parts) ∧
    agrees signed_config config.
Proof.
  assert (H : GateConfig.parse signed_document = Ok signed_config) by (vm_compute; reflexivity).
  split; [exact H|]. exact (proj2 (proj2 (proj2 (gate_config_agrees signed_document signed_config H)))).
Defined.

(** The documented refusals of the last checks. *)
Example deleted_writer_refused :
  GateConfig.enrolled_writer (Some (doc_to_value (DObject [("executable", DStr ("/usr/libexec/writer" +:+ GateConfig.DELETED_SUFFIX))])))
  = Err (GateConfig.Error.Check ("enrolledWriter.executable ends with " +:+ GateConfig.QUOTE +:+ GateConfig.DELETED_SUFFIX +:+ GateConfig.QUOTE)).
Proof. vm_compute. reflexivity. Qed.
Example endpoints_refused :
  map (λ text, match GateConfig.endpoint_of text with Ok _ => true | Err _ => false end)
    ["127.0.0.1:8443"; "0.0.0.0:8443"; "224.0.0.1:8443"; "[::ffff:e000:1]:8443"; "[ff02::1]:8443"; "[::1]:8443"; "127.0.0.1:1023"]
  = [true; false; false; false; false; true; false].
Proof. vm_compute. reflexivity. Qed.
