(* ===== verification/SealScenario.v ===== *)
(** * The seals on a kernel

    A kernel as the crates' tests keep one ([Fake]: capset's rules, [PR_CAPBSET_DROP]'s capability, the argument checks
    of the [prctl] options, [seccomp]'s no_new_privs), without the tests' faults: it has the laws of [SealKernel], and on
    it a role's seal succeeds from every start state it accepts. *)

From S2P Require Import Prelude Slices Json Observation Inet Programs Lifecycle Broker BrokerProofs Seal SealProofs GateSeal RoleSeal.
Import Seal.

(** The kept process and what [seccomp] with TSYNC answers; [process] reads it with every part in its range. *)
Record Fake := mkFake { f_raw : Process; f_tsync : Z }.

Definition in_range (p : Process) : Process :=
  let c := p_capabilities p in
  mkProcess (mkCaps (wrap 64 (cs_effective c)) (wrap 64 (cs_permitted c)) (wrap 64 (cs_inheritable c)))
    (wrap 41 (p_bounding p)) (wrap 41 (p_ambient p)) 40 (p_no_new_privs p) (wrap 64 (p_core p).1, wrap 64 (p_core p).2)
    (p_user_ids p) (p_group_ids p)
    (wrap 64 (p_threads p)) (p_filter p).
Definition fake_process (k : Fake) : Process := in_range (f_raw k).
Definition with_raw (p : Process) (k : Fake) : Fake := mkFake p (f_tsync k).

Definition errno {A} (code : Z) : io A := Err (mkIoError (Some code)).
Definition EPERM : Z := 1.
Definition EACCES : Z := 13.
Definition subset (set whole : Z) : bool := Z.ldiff set whole =? 0.
Definition capable (k : Fake) (capability : Z) : bool := Z.testbit (cs_effective (p_capabilities (fake_process k))) capability.

Definition fake_status (k : Fake) : list Z :=
  concat (map (λ line, line ++ [10])
    [bytes_of "Name: planeon"; bytes_of "Uid: 0 0 0 0"; bytes_of "Gid: 0 0 0 0"; bytes_of "Groups: "; THREADS ++ 9 :: digits_of (p_threads (fake_process k))]) ++ bytes_of "SigQ: 0/1".

Definition flag (set capability : Z) : io Z :=
  if (0 <=? capability) && (capability <=? CAP_LAST_CAP) then Ok (Z.b2z (Z.testbit set capability)) else errno EINVAL.
Definition fake_control (call : Z * list Z) (k : Fake) : Fake * io Z :=
  let p := fake_process k in
  match call with
  | (23, capability :: _) => (k, flag (p_bounding p) capability)
  | (24, capability :: _) =>
      if negb (capable k 8) then (k, errno EPERM)
      else if negb (capability <=? CAP_LAST_CAP) then (k, errno EINVAL)
      else (with_raw (with_bounding (Z.clearbit (p_bounding p) capability) (f_raw k)) k, Ok 0)
  | (38, [1; 0; 0; 0]) => (with_raw (with_no_new_privs true (f_raw k)) k, Ok 0)
  | (39, [0; 0; 0; 0]) => (k, Ok (Z.b2z (p_no_new_privs p)))
  | (47, [4; 0; 0; 0]) => (with_raw (with_ambient 0 (f_raw k)) k, Ok 0)
  | (47, [1; capability; 0; 0]) => (k, flag (p_ambient p) capability)
  | _ => (k, errno EINVAL)
  end.

Definition fake_capset (words : Word * Word) (k : Fake) : Fake * io unit :=
  let new := capability_sets words in
  let p := fake_process k in
  let old := p_capabilities p in
  if negb (subset (cs_inheritable new) (Z.lor (cs_inheritable old) (cs_permitted old))) && negb (capable k 8)
     || negb (subset (cs_inheritable new) (Z.lor (cs_inheritable old) (p_bounding p)))
     || negb (subset (cs_permitted new) (cs_permitted old))
     || negb (subset (cs_effective new) (cs_permitted new))
  then (k, errno EPERM)
  else
    let ambient := Z.land (p_ambient p) (Z.land (cs_permitted new) (cs_inheritable new)) in
    (with_raw (with_ambient ambient (with_capabilities new (f_raw k))) k, Ok tt).

Definition fake_core (new : option (Z * Z)) (k : Fake) : Fake * io (Z * Z) :=
  let old := p_core (fake_process k) in
  match new with
  | None => (k, Ok old)
  | Some (soft, hard) =>
      if hard <? soft then (k, errno EINVAL)
      else if (old.2 <? hard) && negb (capable k 24) then (k, errno EPERM)
      else (with_raw (with_core (soft, hard) (f_raw k)) k, Ok old)
  end.

Definition fake_filter (program : list Z) (length : Z) (k : Fake) : Fake * io Z :=
  if negb (p_no_new_privs (fake_process k)) && negb (capable k 21) then (k, errno EACCES)
  else if negb (f_tsync k =? 0) then (k, Ok (f_tsync k))
  else (with_raw (filtered program length (f_raw k)) k, Ok 0).

#[export] Instance Fake_ops : SealOps Fake := {
  own_status k := (k, Ok (fake_status k));
  user_ids k := (k, Ok (p_user_ids (fake_process k)));
  group_ids k := (k, Ok (p_group_ids (fake_process k)));
  read_capabilities k := (k, Ok (capability_words (p_capabilities (fake_process k))));
  write_capabilities := fake_capset;
  process_control := fake_control;
  core_limit := fake_core;
  install_filter := fake_filter;
}.

Lemma wrap_range w x : 0 ≤ w → in_u w (wrap w x).
Proof. intros H. apply Z.mod_pos_bound. by apply Z.pow_pos_nonneg. Qed.
Lemma fake_wf k : wf_process (fake_process k).
Proof.
  split; cbn; [repeat split; cbn; by apply wrap_range|lia| |]; by apply (wrap_range 41).
Qed.

Lemma fake_status_of k : status_of (p_threads (fake_process k)) (fake_status k).
Proof.
  assert (Ht : 0 ≤ p_threads (fake_process k) < U64) by by apply (wrap_range 64). split; [done|].
  exists [bytes_of "Name: planeon"; bytes_of "Uid: 0 0 0 0"; bytes_of "Gid: 0 0 0 0"; bytes_of "Groups: "], [bytes_of "SigQ: 0/1"]. split; [|by repeat constructor].
  assert (Hd : 10 ∉ digits_of (p_threads (fake_process k))).
  { destruct (digits_of_spec _ (proj1 Ht)) as [Hf _]. rewrite Forall_forall in Hf. intros H%Hf%is_digit_bounds. lia. }
  unfold fake_status. rewrite split_on_join; [done|].
  assert (Hs : ∀ text, forallb (λ b, negb (b =? 10)) text = true → 10 ∉ text).
  { intros text Hb Hin. rewrite forallb_forall in Hb. by apply list_elem_of_In, Hb in Hin. }
  do 4 (apply List.Forall_cons; [by apply Hs|]). apply List.Forall_cons; [|].
  - intros [H|[H|H]%elem_of_cons]%elem_of_app; [by apply (Hs THREADS) in H|done|done].
  - apply List.Forall_cons; [by apply Hs|apply List.Forall_nil].
Qed.

Lemma flag_spec p set capability : p_last_capability p = 40 → 0 ≤ capability → flag_read p set capability (flag set capability).
Proof.
  intros Hl Hc. unfold flag, CAP_LAST_CAP. destruct (Z.leb_spec 0 capability); [|lia]. destruct (Z.leb_spec capability 40); cbn; [|lia].
  split; [lia|done].
Qed.

Lemma wrap_land w a b : 0 ≤ w → in_u w a → wrap w (Z.land a b) = Z.land a b.
Proof.
  intros Hw Ha. unfold wrap. rewrite <-(Z.land_ones (Z.land a b)) by done.
  rewrite <-Z.land_assoc, (Z.land_comm b), Z.land_assoc, Z.land_ones by done. by rewrite Z.mod_small.
Qed.

Lemma same_sets p : p = with_ambient (p_ambient p) (with_capabilities (p_capabilities p) p).
Proof. by destruct p. Qed.
Lemma same_bounding p : p = with_bounding (p_bounding p) p.
Proof. by destruct p. Qed.
Lemma same_core p : p = with_core (p_core p) p.
Proof. by destruct p. Qed.

#[export] Instance Fake_kernel : SealKernel Fake.
Proof.
  refine {| process := fake_process; process_wf := fake_wf |}.
  - intros k. split; [done|]. intros status [= <-]. apply fake_status_of.
  - intros k. split; [done|]. by intros ids [= <-].
  - intros k. split; [done|]. by intros ids [= <-].
  - intros k. split; [done|]. by intros words [= <-].
  - intros k capability H. cbn. split; [done|]. by apply flag_spec.
  - intros k capability H. cbn. split; [done|]. by apply flag_spec.
  - intros k. cbn. split; [done|]. by intros value [= <-].
  - intros k. split; [done|]. by intros limit [= <-].
  - intros k words. change (write_capabilities words k) with (fake_capset words k). unfold fake_capset. cbv zeta. destruct (_ || _).
    + exists (p_capabilities (fake_process k)), (p_ambient (fake_process k)). split; [apply Z.land_diag|apply same_sets].
    + eexists _, _. split; [|reflexivity]. cbn. rewrite wrap_land by (done || by apply wrap_range).
      rewrite <-Z.land_assoc, (Z.land_comm _ (wrap 41 _)), Z.land_assoc, Z.land_diag. done.
  - intros k capability.
    change (control (Prctl.BoundingDrop capability) k) with
      (if negb (capable k 8) then (k, errno (A := Z) EPERM)
       else if negb (capability <=? CAP_LAST_CAP) then (k, errno EINVAL)
       else (with_raw (with_bounding (Z.clearbit (p_bounding (fake_process k)) capability) (f_raw k)) k, Ok 0)).
    destruct (negb (capable k 8)); [|destruct (negb _)];
      [exists (p_bounding (fake_process k)); apply same_bounding..|by eexists].
  - intros k. by eexists.
  - intros k. by exists true.
  - intros k [soft hard]. change (core_limit (Some (soft, hard)) k) with (fake_core (Some (soft, hard)) k). unfold fake_core.
    cbv zeta. destruct (_ <? _); [|destruct (_ && _)];
      [exists (p_core (fake_process k)); apply same_core..|by eexists].
  - intros k program length. change (install_filter program length k) with (fake_filter program length k). unfold fake_filter. destruct (_ && _); [done|].
    destruct (Z.eqb_spec (f_tsync k) 0); cbn; [done|]. by destruct (f_tsync k).
Defined.

(** ** A role's seal succeeds on the kernel *)

Import RoleSeal.

Lemma run_then_Ok {K E A B} (m : Run K E A) (f : A → Run K E B) k k' a : m k = (k', Ok a) → run_then m f k = f a k'.
Proof. unfold run_then. by intros ->. Qed.

Lemma for_each_Ok {K E A B} (l : list A) (body : B → A → Run K E B) k :
  (∀ a b, a ∈ l → ∃ b', body b a k = (k, Ok b')) → ∀ state, ∃ b, for_each l state body k = (k, Ok b).
Proof.
  induction l as [|a l IH]; intros H state; [by exists state|]. cbn [for_each].
  destruct (H a state) as [b Hb]; [left|]. rewrite (run_then_Ok _ _ _ _ _ Hb). apply IH. intros x y Hx. apply H. by right.
Qed.

(** A read that answers, and what the laws say it answered. *)
Lemma answered {E A} (m : Run Fake E A) Q (X : E → Prop) k :
  reads m Q X → (∃ a, m k = (k, Ok a)) → ∃ a, m k = (k, Ok a) ∧ Q (process k) a.
Proof. intros Hr [a Ha]. exists a. split; [done|]. specialize (Hr (process k) k eq_refl). rewrite Ha in Hr. by destruct Hr. Qed.

Section Succeeds.
Context {Step : Type}.
Implicit Types (step : Step) (k : Fake).

Lemma read_flags_Ok call (set : Process → Z) step k :
  (∀ capability, control (call capability) k = (k, flag (set (process k)) capability)) →
  ∃ found, read_flags call step k = (k, Ok found).
Proof.
  intros H. apply for_each_Ok. intros c found Hc%elem_of_seqZ. unfold run_then, read_flag, run_match. rewrite H. unfold flag, CAP_LAST_CAP in *.
  rewrite (proj2 (andb_true_iff _ _)) by lia. destruct (Z.testbit (set (process k)) c); by eexists.
Qed.
Lemma read_bounding_Ok step k : read_bounding step k = (k, Ok (p_bounding (process k))).
Proof.
  destruct (answered _ _ _ k (read_bounding_reads step)) as (found & H & -> & _); [|done].
  destruct (read_flags_Ok Prctl.BoundingRead p_bounding step k) as [found H]; [reflexivity|]. exists found.
  unfold read_bounding. rewrite (run_then_Ok _ _ _ _ _ H). reflexivity.
Qed.
Lemma read_ambient_Ok step k : read_ambient step k = (k, Ok (p_ambient (process k))).
Proof.
  destruct (answered _ _ _ k (read_ambient_reads step)) as (found & H & ->); [by apply (read_flags_Ok _ p_ambient)|]. unfold read_ambient in *.
  rewrite H. do 2 f_equal. apply ambient_small; [apply process_wf|done].
Qed.
Lemma expect_set_Ok step expected k : expect_set step expected expected k = (k, Ok tt).
Proof. unfold expect_set. by rewrite Z.eqb_refl. Qed.
Lemma expect_capabilities_Ok step k : expect_capabilities step (p_capabilities (process k)) k = (k, Ok tt).
Proof.
  unfold expect_capabilities, run_then, or_err. cbn [read_capabilities Fake_ops]. cbv zeta. change (fake_process k) with (process k).
  rewrite capability_sets_words by apply process_wf. by rewrite bool_decide_eq_true_2.
Qed.
Lemma expect_no_new_privs_Ok step k : p_no_new_privs (process k) = true → expect_no_new_privs step k = (k, Ok tt).
Proof.
  intros H. unfold expect_no_new_privs, run_then, read_flag, run_match.
  change (control Prctl.GetNoNewPrivs k) with (k, (Ok (Z.b2z (p_no_new_privs (process k))) : io Z)). by rewrite H.
Qed.
Lemma expect_no_core_Ok step k : p_core (process k) = NO_CORE → expect_no_core step k = (k, Ok tt).
Proof.
  intros H. unfold expect_no_core, run_then, or_err. change (core_limit None k) with (k, (Ok (p_core (process k)) : io (Z * Z))).
  cbv beta iota. by rewrite H, bool_decide_eq_true_2.
Qed.
Lemma single_thread_Ok step k : p_threads (process k) = 1 → single_thread step k = (k, Ok tt).
Proof.
  intros H. unfold single_thread, run_then, or_err. change (own_status k) with (k, (Ok (fake_status k) : io (list Z))).
  cbv beta iota. rewrite (status_threads_reads _ _ (fake_status_of k)). change (fake_process k) with (process k). by rewrite H.
Qed.
End Succeeds.

(** The kernel after stage 1's writes. *)
Definition fake_stage1 (spec : RoleSpec) (k : Fake) : Fake :=
  with_raw (with_no_new_privs true (with_ambient 0 (with_capabilities (kept_sets spec) (with_core NO_CORE (f_raw k))))) k.

Lemma kept_range spec k : may_seal spec (process k) → in_u 64 (rs_kept spec).
Proof.
  intros H. pose proof (wrap_land 64 (cs_permitted (p_capabilities (process k))) (rs_kept spec) ltac:(done) ltac:(by apply wrap_range)) as E.
  rewrite (may_permitted _ _ H) in E. rewrite <-E. by apply wrap_range.
Qed.

Lemma fake_capset_kept spec k :
  may_seal spec (process k) → p_ambient (process k) = 0 →
  fake_capset (capability_words (kept_sets spec)) k =
    (with_raw (with_ambient 0 (with_capabilities (kept_sets spec) (f_raw k))) k, Ok tt).
Proof.
  intros Hm Ha. assert (Hw := kept_range spec k Hm). assert (Hp := may_permitted _ _ Hm).
  assert (Hs : ∀ a b, Z.land a b = b → subset b a = true).
  { intros a b H. unfold subset. apply Z.eqb_eq. rewrite <-H. apply Z.bits_inj'. intros i Hi. rewrite Z.ldiff_spec, Z.land_spec, Z.bits_0.
    destruct (Z.testbit a i), (Z.testbit b i); done. }
  unfold fake_capset. rewrite capability_sets_words by (repeat split; cbn; apply Hw || done). cbv zeta. unfold kept_sets at 1 2 3 4 5.
  cbn [cs_inheritable cs_permitted cs_effective]. assert (H0 : ∀ x, subset 0 x = true) by (intros x; by apply Z.eqb_eq, Z.ldiff_0_l).
  rewrite !H0.
  change (fake_process k) with (process k). rewrite (Hs _ (rs_kept spec) Hp), (Hs (rs_kept spec) (rs_kept spec)) by apply Z.land_diag. cbn [negb andb orb].
  by rewrite Ha.
Qed.

Lemma fake_core_lowers k : core_limit (Some NO_CORE) k = (with_raw (with_core NO_CORE (f_raw k)) k, Ok (p_core (process k))).
Proof.
  change (core_limit (Some NO_CORE) k) with (fake_core (Some NO_CORE) k). unfold fake_core, NO_CORE. cbv zeta. cbn [Z.ltb Z.compare].
  pose proof (wrap_range 64 (p_core (f_raw k)).2 ltac:(done)) as [H _]. change (wrap 64 (p_core (f_raw k)).2) with (p_core (fake_process k)).2 in H.
  by rewrite (proj2 (Z.ltb_ge _ _) H).
Qed.

Lemma fake_stage1_Ok spec k :
  may_seal spec (process k) → run_stage1 spec k = (fake_stage1 spec k, Ok (mkPlan spec (rs_instructions spec))).
Proof.
  intros Hm. assert (Hw := kept_range spec k Hm). pose proof Hm as [M1 M2 M3 M4 M5 M6 M7].
  set (k1 := with_raw (with_core NO_CORE (f_raw k)) k). set (k3 := fake_stage1 spec k).
  unfold run_stage1. rewrite (run_then_Ok _ _ _ _ _ (single_thread_Ok _ k M1)).
  rewrite (run_then_Ok _ _ k k tt) by (unfold root_ids, run_match; cbn; change (p_user_ids (f_raw k)) with (p_user_ids (process k)); by rewrite M2).
  rewrite (run_then_Ok _ _ k k tt) by (unfold root_ids, run_match; cbn; change (p_group_ids (f_raw k)) with (p_group_ids (process k)); by rewrite M3).
  rewrite (run_then_Ok _ _ k k (capability_words (p_capabilities (process k)))) by done.
  rewrite (run_then_Ok _ _ _ _ _ (read_bounding_Ok _ k)), (run_then_Ok _ _ _ _ _ (read_ambient_Ok _ k)).
  rewrite capability_sets_words by apply process_wf. rewrite (run_then_Ok _ _ k k tt) by (f_equal; by apply accept_start_Ok).
  rewrite (run_then_Ok _ _ k k (mkPlan spec (rs_instructions spec))) by (f_equal; by apply plan_Ok).
  rewrite (run_then_Ok _ _ k k1 (p_core (process k))) by (unfold or_err; rewrite fake_core_lowers; done).
  rewrite (run_then_Ok _ _ _ _ _ (expect_no_core_Ok _ k1 eq_refl)), (run_then_Ok _ _ _ _ _ (read_ambient_Ok _ k1)).
  assert (Ha1 : p_ambient (process k1) = 0) by exact M6. assert (Hm1 : may_seal spec (process k1)) by by split.
  rewrite Ha1, (run_then_Ok _ _ _ _ _ (expect_set_Ok _ 0 k1)).
  rewrite (run_then_Ok _ _ k1 (with_raw (with_ambient 0 (with_capabilities (kept_sets spec) (f_raw k1))) k1) tt)
    by (unfold or_err; cbn [write_capabilities Fake_ops]; by rewrite fake_capset_kept).
  set (k2 := with_raw _ k1). assert (Hc : p_capabilities (process k2) = kept_sets spec).
  { unfold kept_sets. cbn. unfold wrap. by rewrite Z.mod_small. }
  rewrite <-Hc at 1. rewrite (run_then_Ok _ _ _ _ _ (expect_capabilities_Ok _ k2)).
  rewrite (run_then_Ok _ _ k2 k3 0) by done. by rewrite (run_then_Ok _ _ _ _ _ (expect_no_new_privs_Ok _ k3 eq_refl)).
Qed.

Theorem role_seal_succeeds spec k :
  may_seal spec (process k) → f_tsync k = 0 → ∃ k', (let~ a := run_stage1 spec in run_stage2 a) k = (k', Ok tt).
Proof.
  intros Hm Ht. assert (Hw := kept_range spec k Hm). pose proof Hm as [M1 M2 M3 M4 M5 M6 M7]. set (k3 := fake_stage1 spec k).
  rewrite (run_then_Ok _ _ _ _ _ (fake_stage1_Ok spec k Hm)). fold k3. unfold run_stage2. cbn [pl_spec pl_length].
  assert (Hc : p_capabilities (process k3) = kept_sets spec).
  { unfold kept_sets. cbn. unfold wrap. by rewrite Z.mod_small. }
  rewrite (run_then_Ok _ _ _ _ _ (single_thread_Ok _ k3 M1)). rewrite <-Hc.
  rewrite (run_then_Ok _ _ _ _ _ (expect_capabilities_Ok _ k3)), (run_then_Ok _ _ _ _ _ (read_bounding_Ok _ k3)).
  assert (Hb : p_bounding (process k3) = rs_bounding spec) by exact M4.
  rewrite Hb, (run_then_Ok _ _ _ _ _ (expect_set_Ok _ _ k3)), (run_then_Ok _ _ _ _ _ (read_ambient_Ok _ k3)).
  assert (Ha : p_ambient (process k3) = 0) by done. rewrite Ha, (run_then_Ok _ _ _ _ _ (expect_set_Ok _ _ k3)).
  rewrite (run_then_Ok _ _ _ _ _ (expect_no_new_privs_Ok _ k3 eq_refl)), (run_then_Ok _ _ _ _ _ (expect_no_core_Ok _ k3 eq_refl)).
  unfold install, run_match. cbn [install_filter Fake_ops]. unfold fake_filter. cbn [negb andb p_no_new_privs fake_process in_range f_raw k3 fake_stage1 with_raw with_no_new_privs].
  change (f_tsync k3) with (f_tsync k). rewrite Ht. by eexists.
Qed.

(** ** Concrete starts *)

(** The observer's start, and the gate's: root with every capability. *)
Definition observer_x86 : RoleSpec := ObserverSeal.observer_spec ObserverSeal.Arch.X86_64.
Definition observer_start : Fake :=
  mkFake (mkProcess (mkCaps ObserverSeal.KEPT ObserverSeal.KEPT 0) ObserverSeal.KEPT 0 40 false (U64_MAX, U64_MAX) (0, 0, 0) (0, 0, 0) 1 None) 0.
Definition gate_start : Fake :=
  mkFake (mkProcess (mkCaps (2 ^ 41 - 1) (2 ^ 41 - 1) 0) (2 ^ 41 - 1) 0 40 false (U64_MAX, U64_MAX) (0, 0, 0) (0, 0, 0) 1 None) 0.

Example observer_may_seal : may_seal observer_x86 (process observer_start).
Proof. split; vm_compute; reflexivity. Qed.
(** The observer's whole seal, on its start. *)
Lemma role_seal_is_exact_witness :
  ∃ k', (let~ a := run_stage1 observer_x86 in run_stage2 a) observer_start = (k', Ok tt) ∧
    may_seal observer_x86 (process observer_start) ∧
    process k' = role_process observer_x86 (Some (rs_program observer_x86, rs_instructions observer_x86)) (process observer_start).
Proof.
  destruct (role_seal_succeeds observer_x86 observer_start observer_may_seal eq_refl) as [k' H]. exists k'. split; [exact H|].
  exact (role_seal_is_exact observer_x86 observer_start k' (Ok tt) H).
Defined.

(** The gate's two stages, on its start. *)
Definition staged_gate : Fake * result GateSeal.Plan (SealError GateSeal.SealStep.t) :=
  Eval vm_compute in GateSeal.run_stage1 GateSeal.Arch.Aarch64 gate_start.
Definition gate_plan : GateSeal.Plan :=
  match staged_gate.2 with Ok a => a | Err _ => GateSeal.mkPlan [] 0 0 [] GateSeal.Arch.Aarch64 0 end.
Example gate_stage1_succeeds : GateSeal.run_stage1 GateSeal.Arch.Aarch64 gate_start = (staged_gate.1, Ok gate_plan).
Proof. vm_compute. reflexivity. Qed.
Definition sealed_gate : Fake := Eval vm_compute in (GateSeal.run_stage2 gate_plan staged_gate.1).1.
Lemma gate_seal_is_final_witness :
  GateSeal.run_stage2 gate_plan staged_gate.1 = (sealed_gate, Ok tt) ∧
  p_threads (process staged_gate.1) = 1 ∧
  process sealed_gate =
    sealed (Some (GateSeal.Arch.program (GateSeal.pl_arch gate_plan), GateSeal.pl_length gate_plan)) (process staged_gate.1).
Proof.
  assert (H : GateSeal.run_stage2 gate_plan staged_gate.1 = (sealed_gate, Ok tt)) by (vm_compute; reflexivity).
  split; [exact H|]. exact (gate_seal_is_final gate_plan staged_gate.1 sealed_gate (Ok tt) H).
Defined.

(** ** The broker's start *)

Definition sample_digest : string := digest_text (repeat 0xa5 32).
Definition sample_config : BrokerConf.BrokerConfig :=
  BrokerConf.mkConfig 61002 "/usr/libexec/planeon/probe" (repeat 7 32) "/usr/bin/python3" "/usr/libexec/planeon/gate" sample_digest 140 900
    sample_digest sample_digest sample_digest sample_digest.
Definition sample_document : list Z := Eval vm_compute in doc_canonical (config_doc sample_config).
Definition sample_signature : list Z := repeat 7 64.
Definition sample_key : list Z := repeat 9 32.

(** A directory with the two files, read in pieces of at most 100 bytes, and a signature scheme with one signature. *)
#[export] Instance sample_files : SignedConfig.ConfigFiles unit (list Z) := {
  dir_at dir := if bool_decide (dir = SignedConfig.PRODUCTION_DIR) then Some tt else None;
  file_ro _ name :=
    if bool_decide (name = SignedConfig.DOCUMENT_NAME) then Some sample_document
    else if bool_decide (name = SignedConfig.SIGNATURE_NAME) then Some sample_signature else None;
  file_len file := Some (zlen file);
  file_read room file := (drop (Z.to_nat (Z.min room 100)) file, SignedConfig.ReadOne.Data (take (Z.to_nat (Z.min room 100)) file));
  ed25519_verify key payload signature :=
    bool_decide (key = sample_key) && bool_decide (payload = SignedConfig.payload sample_document)
      && bool_decide (signature = sample_signature);
}.
Definition broker_start : Fake :=
  mkFake (mkProcess (mkCaps BrokerSeal.KEPT BrokerSeal.KEPT 0) BrokerSeal.KEPT 0 40 false (0, 1000) (0, 0, 0) (0, 0, 0) 1 None) 0.
Definition sealed_broker : Fake := Eval vm_compute in (prepare 30 BrokerSeal.Arch.Aarch64 sample_key broker_start).1.
Lemma prepared_is_sealed_and_signed_witness :
  prepare 30 BrokerSeal.Arch.Aarch64 sample_key broker_start = (sealed_broker, Ok sample_config) ∧
  process sealed_broker =
    role_process (BrokerSeal.spec BrokerSeal.Arch.Aarch64) (Some (BrokerSeal.Arch.program BrokerSeal.Arch.Aarch64, BrokerSeal.INSTRUCTIONS_AARCH64))
      (process broker_start).
Proof.
  assert (H : prepare 30 BrokerSeal.Arch.Aarch64 sample_key broker_start = (sealed_broker, Ok sample_config)) by (vm_compute; reflexivity).
  split; [exact H|].
  exact (proj1 (proj2 (proj2 (prepared_is_sealed_and_signed 30 BrokerSeal.Arch.Aarch64 sample_key broker_start sealed_broker (Ok sample_config) H)))).
Defined.
