(* ===== verification/Observer.v ===== *)
(** * The observer's inputs and its quota arithmetic ([observer/src])

    The closed set of lists the observer reads and the check of each answer ([inputs.rs]); the exact quantities of the
    ResourceQuotas and the headroom recorded from them ([quota.rs]). *)

From S2P Require Import Prelude Slices Json.

(** ** The lists ([inputs.rs]) *)

Module Inputs.
Module RequestScope.
Inductive t := Cluster | AllNamespaces | Namespace (space : string).
#[global] Instance t_eq_dec : EqDecision t.
Proof. solve_decision. Defined.
End RequestScope.

Record RequestSpec := mkSpec {
  spec_group : string;
  spec_version : string;
  spec_resource : string;
  spec_scope : RequestScope.t;
  label_selector : option string;
  field_selector : option string;
}.
#[global] Instance RequestSpec_eq_dec : EqDecision RequestSpec.
Proof. solve_decision. Defined.

Module Resource.
Inductive t :=
| LimitRanges | Namespaces | ResourceQuotas | ServiceAccounts | NetworkPolicies | RoleBindings | Roles | ClusterRoles
| ClusterRoleBindings | ValidatingWebhookConfigurations | MutatingWebhookConfigurations | MutatingAdmissionPolicies
| MutatingAdmissionPolicyBindings | ApiServices | CustomResourceDefinitions | CertificateSigningRequests
| ValidatingAdmissionPolicies | ValidatingAdmissionPolicyBindings | ServiceAccountTokenSecrets | BootstrapTokenSecrets.
#[global] Instance t_eq_dec : EqDecision t.
Proof. solve_decision. Defined.
End Resource.
Abbreviation Resource := Resource.t.

Record Row := mkRow {
  row_group : string;
  row_version : string;
  row_resource : string;
  row_kind : string;
  row_namespaced : bool;
  row_field_selector : option string;
  row_metadata_only : bool;
  row_may_be_unserved : bool;
}.
Definition row (group version resource kind : string) (namespaced : bool) : Row :=
  mkRow group version resource kind namespaced None false false.

Definition SERVICE_ACCOUNT_TOKEN_SELECTOR : string := "type=kubernetes.io/service-account-token".
Definition BOOTSTRAP_TOKEN_SELECTOR : string := "type=bootstrap.kubernetes.io/token".
Definition METADATA_LIST_KIND : string := "PartialObjectMetadataList".
Definition METADATA_LIST_API_VERSION : string := "meta.k8s.io/v1".

Definition ALL : list Resource :=
  [Resource.LimitRanges; Resource.Namespaces; Resource.ResourceQuotas; Resource.ServiceAccounts;
   Resource.NetworkPolicies; Resource.RoleBindings; Resource.Roles; Resource.ClusterRoles;
   Resource.ClusterRoleBindings; Resource.ValidatingWebhookConfigurations; Resource.MutatingWebhookConfigurations;
   Resource.MutatingAdmissionPolicies; Resource.MutatingAdmissionPolicyBindings; Resource.ApiServices;
   Resource.CustomResourceDefinitions; Resource.CertificateSigningRequests; Resource.ValidatingAdmissionPolicies;
   Resource.ValidatingAdmissionPolicyBindings; Resource.ServiceAccountTokenSecrets; Resource.BootstrapTokenSecrets].

Definition RBAC : string := "rbac.authorization.k8s.io".
Definition ADMISSION : string := "admissionregistration.k8s.io".
(** [Row { may_be_unserved: true, ..row }] and [Row { field_selector, metadata_only: true, ..row }]. *)
Definition unserved (r : Row) : Row :=
  mkRow (row_group r) (row_version r) (row_resource r) (row_kind r) (row_namespaced r) (row_field_selector r)
    (row_metadata_only r) true.
Definition selected (selector : string) (r : Row) : Row :=
  mkRow (row_group r) (row_version r) (row_resource r) (row_kind r) (row_namespaced r) (Some selector) true
    (row_may_be_unserved r).

Definition Resource_row (resource : Resource) : Row :=
  match resource with
  | Resource.LimitRanges => row "" "v1" "limitranges" "LimitRange" true
  | Resource.Namespaces => row "" "v1" "namespaces" "Namespace" false
  | Resource.ResourceQuotas => row "" "v1" "resourcequotas" "ResourceQuota" true
  | Resource.ServiceAccounts => row "" "v1" "serviceaccounts" "ServiceAccount" true
  | Resource.NetworkPolicies => row "networking.k8s.io" "v1" "networkpolicies" "NetworkPolicy" true
  | Resource.RoleBindings => row RBAC "v1" "rolebindings" "RoleBinding" true
  | Resource.Roles => row RBAC "v1" "roles" "Role" true
  | Resource.ClusterRoles => row RBAC "v1" "clusterroles" "ClusterRole" false
  | Resource.ClusterRoleBindings => row RBAC "v1" "clusterrolebindings" "ClusterRoleBinding" false
  | Resource.ValidatingWebhookConfigurations =>
      row ADMISSION "v1" "validatingwebhookconfigurations" "ValidatingWebhookConfiguration" false
  | Resource.MutatingWebhookConfigurations =>
      row ADMISSION "v1" "mutatingwebhookconfigurations" "MutatingWebhookConfiguration" false
  | Resource.MutatingAdmissionPolicies =>
      unserved (row ADMISSION "v1" "mutatingadmissionpolicies" "MutatingAdmissionPolicy" false)
  | Resource.MutatingAdmissionPolicyBindings =>
      unserved (row ADMISSION "v1" "mutatingadmissionpolicybindings" "MutatingAdmissionPolicyBinding" false)
  | Resource.ApiServices => row "apiregistration.k8s.io" "v1" "apiservices" "APIService" false
  | Resource.CustomResourceDefinitions =>
      row "apiextensions.k8s.io" "v1" "customresourcedefinitions" "CustomResourceDefinition" false
  | Resource.CertificateSigningRequests =>
      row "certificates.k8s.io" "v1" "certificatesigningrequests" "CertificateSigningRequest" false
  | Resource.ValidatingAdmissionPolicies =>
      row ADMISSION "v1" "validatingadmissionpolicies" "ValidatingAdmissionPolicy" false
  | Resource.ValidatingAdmissionPolicyBindings =>
      row ADMISSION "v1" "validatingadmissionpolicybindings" "ValidatingAdmissionPolicyBinding" false
  | Resource.ServiceAccountTokenSecrets =>
      selected SERVICE_ACCOUNT_TOKEN_SELECTOR (row "" "v1" "secrets" "Secret" true)
  | Resource.BootstrapTokenSecrets => selected BOOTSTRAP_TOKEN_SELECTOR (row "" "v1" "secrets" "Secret" true)
  end.

Definition Resource_spec (resource : Resource) : RequestSpec :=
  let row := Resource_row resource in
  mkSpec (row_group row) (row_version row) (row_resource row)
    (if row_namespaced row then RequestScope.AllNamespaces else RequestScope.Cluster) None (row_field_selector row).
Definition Resource_group (resource : Resource) : string := row_group (Resource_row resource).
Definition Resource_resource (resource : Resource) : string := row_resource (Resource_row resource).
Definition Resource_kind (resource : Resource) : string := row_kind (Resource_row resource).
Definition Resource_namespaced (resource : Resource) : bool := row_namespaced (Resource_row resource).
Definition Resource_may_be_unserved (resource : Resource) : bool := row_may_be_unserved (Resource_row resource).

Definition Resource_list_kind (resource : Resource) : string * string :=
  let row := Resource_row resource in
  if row_metadata_only row then (METADATA_LIST_KIND, METADATA_LIST_API_VERSION)
  else
    let api_version := if bool_decide (row_group row = "") then row_version row
                       else row_group row +:+ "/" +:+ row_version row in
    (row_kind row +:+ "List", api_version).

Definition Resource_of_spec (spec : RequestSpec) : option Resource :=
  List.find (λ resource, bool_decide (Resource_spec resource = spec)) ALL.
Definition Resource_of_policy_kind (group resource : string) : option Resource :=
  List.find (λ entry, negb (row_metadata_only (Resource_row entry)) && bool_decide (Resource_group entry = group)
                      && bool_decide (Resource_resource entry = resource)) ALL.

Module ListBody.
Inductive t := Served (value : Value) | NotServed.
End ListBody.
Record ListInput := mkInput { spec : RequestSpec; body : ListBody.t }.

Module InputError.
Inductive t :=
| OutsideClosedSet (spec : RequestSpec)
| DuplicatePair (resource : Resource)
| NotServedRefused (resource : Resource)
| Missing (resource : Resource)
| NotAList (resource : Resource)
| ListKind (resource : Resource)
| Paged (resource : Resource)
| Items (resource : Resource)
| ItemShape (resource : Resource) (index : nat)
| ItemScope (resource : Resource) (index : nat)
| DuplicateItem (resource : Resource) (index : nat).
End InputError.

Module Listed.
Inductive t := Items (items : list Value) | NotServed.
End Listed.
(** [Inputs]: the checked pairs. *)
Abbreviation Pairs := (list (Resource * ListBody.t)).

Definition text (value : Value) : option string := as_str value.
Definition jtext (value : Value) : option JStr := match value with VStr string => Some string | _ => None end.

(** [filter(|text| !text.is_empty())] *)
Definition non_empty (text : option string) : option string :=
  let* text := text in if bool_decide (text = "") then None else Some text.
Definition object_name (item : Value) : option string :=
  non_empty (let* meta := value_get item "metadata" in let* name := value_get meta "name" in text name).
Definition object_namespace (item : Value) : option string :=
  non_empty (let* meta := value_get item "metadata" in let* space := value_get meta "namespace" in text space).

(** An item's key: its namespace, exactly when the kind is namespaced, and its name. *)
Definition item_key (resource : Resource) (index : nat) (item : Value) : result (option string * string) InputError.t :=
  let meta := let* meta := value_get item "metadata" in
              match as_object meta with Some _ => Some meta | None => None end in
  match meta, object_name item with
  | Some meta, Some name =>
      match Resource_namespaced resource, value_get meta "namespace" with
      | true, Some present =>
          match non_empty (text present) with
          | Some namespace => Ok (Some namespace, name)
          | None => Err (InputError.ItemScope resource index)
          end
      | true, None | false, Some _ => Err (InputError.ItemScope resource index)
      | false, None => Ok (None, name)
      end
  | _, _ => Err (InputError.ItemShape resource index)
  end.
Fixpoint check_items (resource : Resource) (index : nat) (keys : list (option string * string)) (items : list Value)
    : result unit InputError.t :=
  match items with
  | [] => Ok tt
  | item :: items =>
      let? key := item_key resource index item in
      if bool_decide (key ∈ keys) then Err (InputError.DuplicateItem resource index)
      else check_items resource (S index) (key :: keys) items
  end.

(** The list's own metadata: absent, or an object without a [continue] token or a [remainingItemCount]. *)
Definition check_metadata (resource : Resource) (value : Value) : result unit InputError.t :=
  match value_get value "metadata" with
  | None => Ok tt
  | Some meta =>
      match as_object meta with
      | None => Err (InputError.Paged resource)
      | Some members =>
          let token_refused :=
            match object_get members (jstr "continue") with
            | Some token => negb (bool_decide (text token = Some ""))
            | None => false
            end in
          if token_refused then Err (InputError.Paged resource)
          else if object_contains_key members (jstr "remainingItemCount") then Err (InputError.Paged resource)
          else Ok tt
      end
  end.

Definition check_list (resource : Resource) (value : Value) : result unit InputError.t :=
  match as_object value with
  | None => Err (InputError.NotAList resource)
  | Some _ =>
      let '(kind, api_version) := Resource_list_kind resource in
      if negb (bool_decide ((let* found := value_get value "kind" in text found) = Some kind))
         || negb (bool_decide ((let* found := value_get value "apiVersion" in text found) = Some api_version))
      then Err (InputError.ListKind resource)
      else
        let? _ := check_metadata resource value in
        match (let* items := value_get value "items" in as_array items) with
        | None => Err (InputError.Items resource)
        | Some items => check_items resource 0 [] items
        end
  end.

Definition check_body (resource : Resource) (body : ListBody.t) : result unit InputError.t :=
  match body with
  | ListBody.NotServed =>
      if Resource_may_be_unserved resource then Ok tt else Err (InputError.NotServedRefused resource)
  | ListBody.Served value => check_list resource value
  end.

(** [Inputs::new]'s loop, over the pairs so far. *)
Fixpoint new_loop (pairs : Pairs) (inputs : list ListInput) : result Pairs InputError.t :=
  match inputs with
  | [] => Ok pairs
  | input :: inputs =>
      match Resource_of_spec (spec input) with
      | None => Err (InputError.OutsideClosedSet (spec input))
      | Some resource =>
          if bool_decide (resource ∈ pairs.*1) then Err (InputError.DuplicatePair resource)
          else
            let? _ := check_body resource (body input) in
            new_loop (pairs ++ [(resource, body input)]) inputs
      end
  end.
Definition Inputs_new (inputs : list ListInput) : result Pairs InputError.t := new_loop [] inputs.

Definition Inputs_list (pairs : Pairs) (resource : Resource) : result Listed.t InputError.t :=
  match List.find (λ pair, bool_decide (pair.1 = resource)) pairs with
  | None => Err (InputError.Missing resource)
  | Some (_, ListBody.NotServed) => Ok Listed.NotServed
  | Some (_, ListBody.Served value) =>
      match (let* items := value_get value "items" in as_array items) with
      | Some items => Ok (Listed.Items items)
      | None => Err (InputError.Items resource)
      end
  end.
Definition Inputs_items (pairs : Pairs) (resource : Resource) : result (list Value) InputError.t :=
  let? listed := Inputs_list pairs resource in
  match listed with
  | Listed.Items items => Ok items
  | Listed.NotServed => Err (InputError.NotServedRefused resource)
  end.

(** The texts of the errors. *)
Definition Resource_fmt (resource : Resource) : string :=
  let row := Resource_row resource in
  let group := if bool_decide (row_group row = "") then "core" else row_group row in
  let plain := group +:+ "/" +:+ row_version row +:+ " " +:+ row_resource row in
  match row_field_selector row with
  | Some selector => plain +:+ " (" +:+ selector +:+ ")"
  | None => plain
  end.
Definition nat_text (index : nat) : string := string_of (digits_of (Z.of_nat index)).
Definition InputError_fmt (error : InputError.t) : string :=
  match error with
  | InputError.OutsideClosedSet spec =>
      "input: the request " +:+ spec_group spec +:+ "/" +:+ spec_version spec +:+ " " +:+ spec_resource spec
        +:+ " is outside the closed request specs"
  | InputError.DuplicatePair resource => "input: two lists answer " +:+ Resource_fmt resource
  | InputError.NotServedRefused resource =>
      "input: " +:+ Resource_fmt resource +:+ " may not be attested as not served"
  | InputError.Missing resource => "input: no list answers " +:+ Resource_fmt resource
  | InputError.NotAList resource => "input: the answer to " +:+ Resource_fmt resource +:+ " is not an object"
  | InputError.ListKind resource => "input: the answer to " +:+ Resource_fmt resource +:+ " is not its list kind"
  | InputError.Paged resource =>
      "input: the answer to " +:+ Resource_fmt resource +:+ " is paged or carries no complete list metadata"
  | InputError.Items resource => "input: the answer to " +:+ Resource_fmt resource +:+ " has no items array"
  | InputError.ItemShape resource index =>
      "input: item " +:+ nat_text index +:+ " of " +:+ Resource_fmt resource +:+ " has no object metadata with a name"
  | InputError.ItemScope resource index =>
      "input: item " +:+ nat_text index +:+ " of " +:+ Resource_fmt resource +:+ " does not fit the kind's scope"
  | InputError.DuplicateItem resource index =>
      "input: item " +:+ nat_text index +:+ " of " +:+ Resource_fmt resource +:+ " repeats an earlier item"
  end.
End Inputs.

(** ** The quotas ([quota.rs]) *)

Module Quota.
Import Inputs.
Definition NANO : Z := 1000000000.
Definition MAX_NANO : Z := 2 ^ 63 * NANO.
Definition MAX_FIGURE : Z := 2 ^ 53 - 1.

Module Scale.
Inductive t := Count | Millis | Base.
End Scale.
Definition UNITS : list (string * Scale.t * list string) :=
  [("pods", Scale.Count, ["pods"; "count/pods"]);
   ("configMaps", Scale.Count, ["configmaps"; "count/configmaps"]);
   ("services", Scale.Count, ["services"; "count/services"]);
   ("cpuMillis", Scale.Millis, ["requests.cpu"; "cpu"]);
   ("memoryBytes", Scale.Base, ["requests.memory"; "memory"]);
   ("ephemeralStorageBytes", Scale.Base, ["requests.ephemeral-storage"; "ephemeral-storage"])].

Record Headroom := mkHeadroom {
  pods : Z;
  config_maps : Z;
  services : Z;
  cpu_millis : Z;
  memory_bytes : Z;
  ephemeral_storage_bytes : Z;
}.
Record Pair := mkPair { pair_hard : Z; pair_used : Z }.
Record QuotaPairs := mkPairs {
  pods_pair : Pair;
  config_maps_pair : Pair;
  services_pair : Pair;
  cpu_millis_pair : Pair;
  memory_bytes_pair : Pair;
  ephemeral_storage_bytes_pair : Pair;
}.
Record QuotaFound := mkQuota { quota_headroom : Headroom; quota_pairs : QuotaPairs }.

Module QuotaError.
Inductive t := Unsettled | Refused (what : string).
End QuotaError.

(** *** Quantities, in [i128] *)

Definition I128_MAX : Z := 2 ^ 127 - 1.
(** [checked_mul], [checked_add] and [checked_pow] of numbers that are not negative. *)
Definition checked_i128 (value : Z) : option Z := if value <=? I128_MAX then Some value else None.
Definition checked_i32 (value : Z) : option Z := if (- 2 ^ 31 <=? value) && (value <? 2 ^ 31) then Some value else None.

(** [position(|byte| !byte.is_ascii_digit()).unwrap_or(len)] *)
Definition digits_end (bytes : list Z) : nat := default (length bytes) (position (λ byte, negb (is_digit byte)) bytes).

(** The suffixes: a power of ten and a power of two. *)
Definition SUFFIXES : list (string * (Z * Z)) :=
  [("", (0, 0)); ("n", (-9, 0)); ("u", (-6, 0)); ("m", (-3, 0)); ("k", (3, 0)); ("M", (6, 0)); ("G", (9, 0));
   ("T", (12, 0)); ("P", (15, 0)); ("E", (18, 0)); ("Ki", (0, 10)); ("Mi", (0, 20)); ("Gi", (0, 30)); ("Ti", (0, 40));
   ("Pi", (0, 50)); ("Ei", (0, 60))].

(** An exponent's number, after its [e] or [E]. *)
Definition exponent_value (exponent : list Z) : option Z :=
  let '(negative, number) :=
    match exponent with 45 :: number => (true, number) | 43 :: number => (false, number) | _ => (false, exponent) end in
  if bool_decide (number = []) || Nat.ltb 3 (length number) || negb (forallb is_digit number) then None
  else let value := digits_value number in Some (if negative : bool then - value else value).

Definition suffix_powers (rest : list Z) : option (Z * Z) :=
  match List.find (λ row, bool_decide (bytes_of row.1 = rest)) SUFFIXES with
  | Some row => Some row.2
  | None =>
      let* exponent := match rest with 101 :: exponent | 69 :: exponent => Some exponent | _ => None end in
      let* value := exponent_value exponent in
      Some (value, 0)
  end.

(** The digits of the whole part and of the fraction, how many are the fraction's, and what follows them. *)
Definition quantity_digits (bytes : list Z) : option (list Z * Z * list Z) :=
  let integer_end := digits_end bytes in
  if Nat.eqb integer_end 0 then None
  else
    let digits := take integer_end bytes in
    match drop integer_end bytes with
    | 46 :: after =>
        let ends := digits_end after in
        if Nat.eqb ends 0 then None
        else
          let* fraction := checked_i32 (Z.of_nat ends) in
          Some (digits ++ take ends after, fraction, drop ends after)
    | rest => Some (digits, 0, rest)
    end.

Fixpoint mantissa_go (mantissa : Z) (digits : list Z) : option Z :=
  match digits with
  | [] => Some mantissa
  | digit :: digits =>
      let* scaled := checked_i128 (mantissa * 10) in
      let* mantissa := checked_i128 (scaled + (digit - 48)) in
      mantissa_go mantissa digits
  end.

Definition parse_quantity (text : string) : option Z :=
  let* found := quantity_digits (bytes_of text) in
  let '(digits, fraction, rest) := found in
  if Nat.ltb 38 (length digits) then None
  else
    let* powers := suffix_powers rest in
    let '(ten, two) := powers in
    let* mantissa := mantissa_go 0 digits in
    if mantissa =? 0 then Some 0
    else
      let* scaled := checked_i128 (mantissa * 2 ^ two) in
      let* power := checked_i32 (9 - fraction) in
      let* power := checked_i32 (power + ten) in
      let* value :=
        if 0 <=? power then let* factor := checked_i128 (10 ^ power) in checked_i128 (scaled * factor)
        else
          let* divisor := checked_i128 (10 ^ (- power)) in
          if negb (scaled mod divisor =? 0) then None else Some (scaled / divisor) in
      if value <=? MAX_NANO then Some value else None.

(** *** The quotas of a namespace *)

Abbreviation Quantities := (gmap string Z).

Fixpoint parse_map_go (out : Quantities) (members : Object) : result Quantities QuotaError.t :=
  match members with
  | [] => Ok out
  | (name, value) :: members =>
      match jstr_as_str name, as_str value with
      | Some name, Some text =>
          let? quantity := result_of_option (parse_quantity text)
                             (QuotaError.Refused "a quota quantity is outside the strict form") in
          parse_map_go (<[name := quantity]> out) members
      | _, _ => Err (QuotaError.Refused "a quota quantity is not text")
      end
  end.
Definition parse_map (members : Object) : result Quantities QuotaError.t := parse_map_go ∅ members.
Definition quantities (holder : option Value) (key : string) : result Quantities QuotaError.t :=
  match (let* holder := holder in value_get holder key) with
  | None => Ok ∅
  | Some map =>
      match as_object map with
      | None => Err (QuotaError.Refused "a quota map is not an object")
      | Some members => parse_map members
      end
  end.

Definition floor_in (value divisor : Z) : Z := value ÷ divisor.
Definition ceil_in (value divisor : Z) : Z := (value + divisor - 1) ÷ divisor.

(** One quota of the namespace: its name, [spec.hard], [status.hard] and [status.used]. *)
Record Held := mkHeld { held_name : string; spec_hard : Quantities; hard : Quantities; used : Quantities }.

Definition read_quota (item : Value) : result Held QuotaError.t :=
  let? spec_hard := quantities (value_get item "spec") "hard" in
  let status := value_get item "status" in
  let? hard := quantities status "hard" in
  let? used := quantities status "used" in
  Ok (mkHeld (default "" (object_name item)) spec_hard hard used).
Definition in_namespace (namespace : string) (item : Value) : bool := bool_decide (object_namespace item = Some namespace).
Definition read_quotas (items : list Value) (namespace : string) : result (list Held) QuotaError.t :=
  result_mapM read_quota (List.filter (in_namespace namespace) items).

(** Step 2 for one quota, its keys in order. *)
Fixpoint used_within (q : Held) (keys : list string) : result unit QuotaError.t :=
  match keys with
  | [] => Ok tt
  | key :: keys =>
      match hard q !! key, used q !! key with
      | None, _ => used_within q keys
      | Some limit, Some amount =>
          if amount <=? limit then used_within q keys
          else Err (QuotaError.Refused "a quota's used exceeds its hard")
      | Some _, None => Err (QuotaError.Refused "a quota's status.used lacks a key of status.hard")
      end
  end.
Definition check_used (quotas : list Held) : result unit QuotaError.t :=
  let? _ := result_mapM (λ q, used_within q (str_keys (hard q))) quotas in Ok tt.

(** The least room so far: its quota's name, its key, and its floor of hard and ceiling of used. *)
Record Best := mkBest { best_room : Z; best_name : string; best_key : string; best_floor : Z; best_ceil : Z }.

(** [(least, chosen, chosen_key) <= (room, name, key)] *)
Definition earlier (best : Best) (room : Z) (name key : string) : bool :=
  match best_room best ?= room with
  | Lt => true
  | Gt => false
  | Eq =>
      match bytes_cmp (bytes_of (best_name best)) (bytes_of name) with
      | Lt => true
      | Gt => false
      | Eq => bytes_leb (bytes_of (best_key best)) (bytes_of key)
      end
  end.

Definition scaled_pair (scale : Scale.t) (limit amount : Z) : result (Z * Z) QuotaError.t :=
  match scale with
  | Scale.Count =>
      if negb (limit mod NANO =? 0) || negb (amount mod NANO =? 0)
      then Err (QuotaError.Refused "a count quota holds a fraction")
      else Ok (limit ÷ NANO, amount ÷ NANO)
  | Scale.Millis => Ok (floor_in limit (NANO ÷ 1000), ceil_in amount (NANO ÷ 1000))
  | Scale.Base => Ok (floor_in limit NANO, ceil_in amount NANO)
  end.

Definition consider (scale : Scale.t) (best : option Best) (candidate : Held * string) : result (option Best) QuotaError.t :=
  let '(q, key) := candidate in
  match hard q !! key, used q !! key with
  | Some limit, Some amount =>
      let? found := scaled_pair scale limit amount in
      let '(floor, ceil) := found in
      let room := Z.max (floor - ceil) 0 in
      let kept := match best with Some best => earlier best room (held_name q) key | None => false end in
      Ok (if kept then best else Some (mkBest room (held_name q) key floor ceil))
  | _, _ => Ok best
  end.
Fixpoint best_of (scale : Scale.t) (best : option Best) (candidates : list (Held * string))
    : result (option Best) QuotaError.t :=
  match candidates with
  | [] => Ok best
  | candidate :: candidates => let? best := consider scale best candidate in best_of scale best candidates
  end.
(** The nested loops: every quota, and for each the unit's keys. *)
Definition candidates (quotas : list Held) (keys : list string) : list (Held * string) :=
  flat_map (λ q, map (λ key, (q, key)) keys) quotas.

Definition figure_of (value : Z) (refusal : string) : result Z QuotaError.t :=
  result_of_option (let* figure := u64_try_from value in if figure <=? MAX_FIGURE then Some figure else None)
    (QuotaError.Refused refusal).
Definition unit_figure (quotas : list Held) (row : string * Scale.t * list string) : result (Z * Pair) QuotaError.t :=
  let '(_, scale, keys) := row in
  let? best := best_of scale None (candidates quotas keys) in
  match best with
  | None => Err (QuotaError.Refused "a unit of I01 is bounded by no quota key")
  | Some best =>
      let? figure := figure_of (best_room best) "a headroom figure is above 2^53-1" in
      let recorded value := figure_of value "a recorded quota figure is above 2^53-1" in
      let? hard := recorded (best_floor best) in
      let? used := recorded (Z.min (best_ceil best) (best_floor best)) in
      Ok (figure, mkPair hard used)
  end.

Definition quota (items : list Value) (namespace : string) : result QuotaFound QuotaError.t :=
  let? quotas := read_quotas items namespace in
  if existsb (λ q, negb (bool_decide (spec_hard q = hard q))) quotas then Err QuotaError.Unsettled
  else
    let? _ := check_used quotas in
    let? figures := result_mapM (unit_figure quotas) UNITS in
    match figures with
    | [(f1, p1); (f2, p2); (f3, p3); (f4, p4); (f5, p5); (f6, p6)] =>
        Ok (mkQuota (mkHeadroom f1 f2 f3 f4 f5 f6) (mkPairs p1 p2 p3 p4 p5 p6))
    | _ => Err (QuotaError.Refused "")
    end.
Definition headroom (items : list Value) (namespace : string) : result Headroom QuotaError.t :=
  result_map quota_headroom (quota items namespace).
End Quota.
