(* ===== verification/ObserverProofs.v ===== *)
(** * Proofs of the observer's inputs and quotas *)

From S2P Require Import Prelude Slices Json JsonParse JsonEncode Observer.
Import Inputs Quota.

(** ** Quantities *)

(** What may follow a quantity's digits, and the powers of ten and of two it stands for. *)
Inductive suffix_of : list Z → Z → Z → Prop :=
| suffix_named name ten two : (name, (ten, two)) ∈ SUFFIXES → suffix_of (bytes_of name) ten two
| suffix_plus e sign number : e ∈ [101; 69] → sign ∈ [[]; [43]] → number ≠ [] → (length number ≤ 3)%nat →
    Forall (λ b, is_digit b = true) number → suffix_of (e :: sign ++ number) (digits_value number) 0
| suffix_minus e number : e ∈ [101; 69] → number ≠ [] → (length number ≤ 3)%nat →
    Forall (λ b, is_digit b = true) number → suffix_of (e :: 45 :: number) (- digits_value number) 0.

Abbreviation all_digits l := (Forall (λ b, is_digit b = true) l).

(** A quantity's text and its exact value at the 10^-9 scale: [whole.frac * 10^ten * 2^two], a whole number of nano
    units, written without a division. *)
Definition quantity_value (text : string) (v : Z) : Prop :=
  ∃ whole frac suffix ten two,
    bytes_of text = whole ++ (match frac with [] => [] | _ => 46 :: frac end) ++ suffix ∧
    whole ≠ [] ∧ all_digits whole ∧ all_digits frac ∧ suffix_of suffix ten two ∧
    let mantissa := digits_value (whole ++ frac) in
    let power := 9 - Z.of_nat (length frac) + ten in
    (length whole + length frac ≤ 38)%nat ∧ mantissa * 2 ^ two ≤ I128_MAX ∧
    0 ≤ v ≤ MAX_NANO ∧ v * 10 ^ Z.max 0 (- power) = mantissa * 2 ^ two * 10 ^ Z.max 0 power.

Lemma digits_end_app l rest :
  all_digits l → (∀ b, head rest = Some b → is_digit b = false) → digits_end (l ++ rest) = length l.
Proof.
  unfold digits_end. intros Hl Hr. induction Hl as [|b l Hb Hl IH]; simpl.
  - destruct rest as [|b rest]; simpl; [done|]. by rewrite (Hr b eq_refl).
  - rewrite Hb. simpl. destruct (position _ (l ++ rest)); simpl in *; by rewrite IH.
Qed.

Lemma digits_end_split l :
  all_digits (take (digits_end l) l) ∧ (∀ b, head (drop (digits_end l) l) = Some b → is_digit b = false).
Proof.
  unfold digits_end. induction l as [|b l [IH1 IH2]]; simpl; [done|].
  destruct (is_digit b) eqn:Hb; simpl; [|split; [done|by intros ? [= <-]]].
  destruct (position _ l) eqn:E; simpl in *; (split; [by constructor|done]).
Qed.

Lemma SUFFIXES_find rest ten two :
  (∃ row, List.find (λ row, bool_decide (bytes_of row.1 = rest)) SUFFIXES = Some row ∧ row.2 = (ten, two)) ↔
  ∃ name, (name, (ten, two)) ∈ SUFFIXES ∧ bytes_of name = rest.
Proof.
  split.
  - intros ([name ?] & [Hin%list_elem_of_In E%bool_decide_eq_true]%find_some & [= ->]). eauto.
  - intros (name & Hin & <-).
    assert (H : Forall (λ row, List.find (λ r, bool_decide (bytes_of r.1 = bytes_of row.1)) SUFFIXES = Some row) SUFFIXES)
      by (unfold SUFFIXES; repeat constructor).
    rewrite Forall_forall in H. exists (name, (ten, two)). split; [exact (H _ Hin)|done].
Qed.

Lemma exponent_value_plus sign number :
  sign ∈ [[]; [43]] → number ≠ [] → (length number ≤ 3)%nat → all_digits number →
  exponent_value (sign ++ number) = Some (digits_value number).
Proof.
  intros Hs Hn Hl Hd. unfold exponent_value.
  assert (E : match sign ++ number with 45 :: n => (true, n) | 43 :: n => (false, n) | _ => (false, sign ++ number) end
              = (false, number)).
  { rewrite !elem_of_cons, elem_of_nil in Hs. destruct Hs as [->|[->|[]]]; [|done].
    destruct number as [|b number]; [done|]. apply Forall_cons in Hd as [Hb%is_digit_bounds _]. simpl.
    assert (b = 48 ∨ b = 49 ∨ b = 50 ∨ b = 51 ∨ b = 52 ∨ b = 53 ∨ b = 54 ∨ b = 55 ∨ b = 56 ∨ b = 57) by lia.
    naive_solver. }
  rewrite E. rewrite bool_decide_eq_false_2 by done.
  replace (Nat.ltb 3 (length number)) with false by (symmetry; apply Nat.ltb_ge; lia).
  by rewrite (proj2 (forallb_digits _) Hd).
Qed.

Lemma exponent_value_minus number :
  number ≠ [] → (length number ≤ 3)%nat → all_digits number → exponent_value (45 :: number) = Some (- digits_value number).
Proof.
  intros Hn Hl Hd. unfold exponent_value. rewrite bool_decide_eq_false_2 by done.
  replace (Nat.ltb 3 (length number)) with false by (symmetry; apply Nat.ltb_ge; lia).
  by rewrite (proj2 (forallb_digits _) Hd).
Qed.

Lemma exponent_value_Some exponent v :
  exponent_value exponent = Some v →
  ∃ number, number ≠ [] ∧ (length number ≤ 3)%nat ∧ all_digits number ∧
    ((∃ sign, sign ∈ [[]; [43]] ∧ exponent = sign ++ number ∧ v = digits_value number)
     ∨ (exponent = 45 :: number ∧ v = - digits_value number)).
Proof.
  unfold exponent_value.
  assert (E : ∃ n number, (match exponent with 45 :: n => (true, n) | 43 :: n => (false, n) | _ => (false, exponent) end)
              = (n, number) ∧ ((n = true ∧ exponent = 45 :: number) ∨ (n = false ∧ ∃ sign, sign ∈ [[]; [43]] ∧ exponent = sign ++ number))).
  { assert (D : ∃ n number, (false, exponent) = (n, number) ∧ ((n = true ∧ exponent = 45 :: number) ∨
      (n = false ∧ ∃ sign, sign ∈ [[]; [43]] ∧ exponent = sign ++ number))).
    { exists false, exponent. split; [done|]. right. split; [done|]. exists []. split; [set_solver|done]. }
    destruct exponent as [|b exponent]; [exact D|].
    destruct (decide (b = 45)) as [->|]; [by exists true, exponent; auto|].
    destruct (decide (b = 43)) as [->|].
    { exists false, exponent. split; [done|]. right. split; [done|]. exists [43]. split; [set_solver|done]. }
    default_byte b D; congruence. }
  destruct E as (n & number & -> & Hn). intros H.
  destruct (_ || _ || _) eqn:G in H; [done|].
  apply orb_false_iff in G as [[G1%bool_decide_eq_false G2%Nat.ltb_ge]%orb_false_iff G3%negb_false_iff].
  apply forallb_digits in G3. injection H as <-. exists number. split_and!; [done|lia|done|].
  destruct Hn as [[-> ?]|[-> (sign & ? & ?)]]; [by right|left; eauto].
Qed.

Lemma suffix_powers_spec rest ten two : suffix_powers rest = Some (ten, two) ↔ suffix_of rest ten two.
Proof.
  unfold suffix_powers. split.
  - destruct (List.find _ _) as [row|] eqn:E.
    + intros [= Hr]. destruct (proj1 (SUFFIXES_find rest ten two)) as (name & Hin & <-); [by eauto|]. by constructor.
    + intros H. assert (He : ∃ e exponent v, e ∈ [101; 69] ∧ rest = e :: exponent ∧ exponent_value exponent = Some v
        ∧ ten = v ∧ two = 0).
      { destruct rest as [|b rest]; [done|].
        destruct (decide (b = 101)) as [->|]; [|destruct (decide (b = 69)) as [->|]].
        1,2: simpl in H; destruct (exponent_value rest) eqn:Ev; [|done]; simplify_eq/=; do 3 eexists; split_and!; [|done..]; set_solver.
        exfalso. assert (D : (None : option (Z * Z)) = Some (ten, two) → False) by done. revert H. default_byte b D; congruence. }
      destruct He as (e & exponent & v & He & -> & Ev & -> & ->).
      apply exponent_value_Some in Ev as (number & ? & ? & ? & [(sign & ? & -> & ->)|[-> ->]]); by constructor.
  - intros H. destruct H as [name ten two Hin|e sign number He Hs Hn Hl Hd|e number He Hn Hl Hd].
    + destruct (proj2 (SUFFIXES_find (bytes_of name) ten two)) as (row & -> & ->); eauto.
    + assert (List.find (λ row, bool_decide (bytes_of row.1 = e :: sign ++ number)) SUFFIXES = None) as ->.
      { assert (Hx : ∃ x l, sign ++ number = x :: l ∧ x ≠ 105).
        { rewrite !elem_of_cons, elem_of_nil in Hs. destruct Hs as [->|[->|[]]]; [|by eexists _, _].
          destruct number as [|b l]; [done|]. apply Forall_cons in Hd as [?%is_digit_bounds _].
          exists b, l. split; [done|lia]. }
        destruct Hx as (x & l & -> & Hx). rewrite !elem_of_cons, elem_of_nil in He.
        destruct (List.find _ _) as [[name p]|] eqn:F; [exfalso|done].
        apply find_some in F as [F%list_elem_of_In E%bool_decide_eq_true]. simpl in E.
        unfold SUFFIXES in F. rewrite !elem_of_cons, elem_of_nil in F.
        destruct He as [->|[->|[]]]; naive_solver. }
      rewrite !elem_of_cons, elem_of_nil in He.
      destruct He as [->|[->|[]]]; simpl; by rewrite exponent_value_plus.
    + assert (List.find (λ row, bool_decide (bytes_of row.1 = e :: 45 :: number)) SUFFIXES = None) as ->.
      { rewrite !elem_of_cons, elem_of_nil in He.
        destruct (List.find _ _) as [[name p]|] eqn:F; [exfalso|done].
        apply find_some in F as [F%list_elem_of_In E%bool_decide_eq_true]. simpl in E.
        unfold SUFFIXES in F. rewrite !elem_of_cons, elem_of_nil in F.
        destruct He as [->|[->|[]]]; naive_solver. }
      rewrite !elem_of_cons, elem_of_nil in He.
      destruct He as [->|[->|[]]]; simpl; by rewrite exponent_value_minus.
Qed.

(** No suffix starts with a digit or a point. *)
Lemma suffix_of_head suffix ten two b :
  suffix_of suffix ten two → head suffix = Some b → is_digit b = false ∧ b ≠ 46.
Proof.
  destruct 1 as [name ten two Hin|e sign number He|e number He]; simpl.
  - unfold SUFFIXES in Hin. rewrite !elem_of_cons, elem_of_nil in Hin. naive_solver.
  - intros [= <-]. set_solver.
  - intros [= <-]. set_solver.
Qed.

Lemma mantissa_go_spec digits a :
  all_digits digits → 0 ≤ a → (a + 1) * 10 ^ Z.of_nat (length digits) ≤ 10 ^ 38 →
  mantissa_go a digits = Some (a * 10 ^ Z.of_nat (length digits) + digits_value digits).
Proof.
  intros Hd. revert a. induction Hd as [|d digits Hd%is_digit_bounds Hds IH]; intros a Ha Hb; cbn [mantissa_go length].
  - f_equal. unfold digits_value; simpl. lia.
  - rewrite digits_value_cons. cbn [length] in Hb. rewrite Nat2Z.inj_succ, Z.pow_succ_r in Hb |- * by lia.
    pose proof (Z.pow_pos_nonneg 10 (Z.of_nat (length digits)) ltac:(lia) ltac:(lia)).
    assert ((a + 1) * 10 ≤ 10 ^ 38) by nia.
    unfold checked_i128, I128_MAX. rewrite (proj2 (Z.leb_le _ _)) by lia. cbn [mbind option_bind].
    rewrite (proj2 (Z.leb_le _ _)) by lia. cbn [mbind option_bind].
    rewrite IH; [f_equal; nia|lia|nia].
Qed.

(** The split of the text in its digits, its fraction and its suffix. *)
Lemma quantity_digits_app whole frac suffix ten two :
  whole ≠ [] → all_digits whole → all_digits frac → suffix_of suffix ten two → (length frac ≤ 38)%nat →
  quantity_digits (whole ++ (match frac with [] => [] | _ => 46 :: frac end) ++ suffix)
  = Some (whole ++ frac, Z.of_nat (length frac), suffix).
Proof.
  intros Hw Dw Df Hs Hl. unfold quantity_digits.
  assert (Hh : ∀ b, head ((match frac with [] => [] | _ => 46 :: frac end) ++ suffix) = Some b → is_digit b = false).
  { destruct frac; simpl; [|by intros ? [= <-]]. intros b Hb. by destruct (suffix_of_head _ _ _ _ Hs Hb). }
  rewrite digits_end_app by done. rewrite take_app_length, drop_app_length.
  destruct (Nat.eqb_spec (length whole) 0); [by destruct whole|].
  destruct frac as [|f frac].
  - simpl. rewrite app_nil_r. destruct suffix as [|b suffix]; [done|].
    destruct (suffix_of_head _ _ _ b Hs eq_refl) as [_ Hb].
    destruct b as [|p|p]; [reflexivity| |reflexivity].
    repeat (destruct p as [p|p|]; try reflexivity); congruence.
  - cbn [app]. change (f :: frac ++ suffix) with ((f :: frac) ++ suffix).
    rewrite digits_end_app by (done || (intros b Hb; by destruct (suffix_of_head _ _ _ _ Hs Hb))).
    rewrite take_app_length, drop_app_length. cbn [length Nat.eqb].
    unfold checked_i32. rewrite (proj2 (Z.leb_le _ _)), (proj2 (Z.ltb_lt _ _)) by (cbn [length] in Hl; lia). done.
Qed.

Lemma quantity_digits_Some bytes digits fraction rest ten two :
  quantity_digits bytes = Some (digits, fraction, rest) → suffix_of rest ten two →
  ∃ whole frac, bytes = whole ++ (match frac with [] => [] | _ => 46 :: frac end) ++ rest ∧ whole ≠ [] ∧
    all_digits whole ∧ all_digits frac ∧ digits = whole ++ frac ∧ fraction = Z.of_nat (length frac).
Proof.
  unfold quantity_digits. destruct (digits_end_split bytes) as [Dw _].
  destruct (Nat.eqb_spec (digits_end bytes) 0) as [|Hn]; [done|]. intros H Hs.
  set (n := digits_end bytes) in *. assert (Hw : take n bytes ≠ []).
  { destruct bytes; [done|]. by destruct n. }
  assert (Hp : Some (take n bytes, 0, drop n bytes) = Some (digits, fraction, rest) → ∃ whole frac,
    bytes = whole ++ (match frac with [] => [] | _ => 46 :: frac end) ++ rest ∧ whole ≠ [] ∧
    all_digits whole ∧ all_digits frac ∧ digits = whole ++ frac ∧ fraction = Z.of_nat (length frac)).
  { intros [= <- <- <-]. exists (take n bytes), []. simpl. rewrite app_nil_r, take_drop. by auto. }
  destruct (drop n bytes) as [|b after] eqn:E; [by apply Hp|].
  destruct (decide (b = 46)) as [->|Hb]; [|revert H; default_byte b Hp; congruence].
  destruct (digits_end_split after) as [Df _]. destruct (Nat.eqb_spec (digits_end after) 0) as [|Hm]; [done|].
  unfold checked_i32 in H. case_match; [|done]. cbn [mbind option_bind] in H. injection H as <- <- <-.
  exists (take n bytes), (take (digits_end after) after).
  assert (Hle : (digits_end after ≤ length after)%nat).
  { unfold digits_end. destruct (position _ after) eqn:P; [|done]. simpl.
    apply position_Some in P as (x & k & P & _). apply (f_equal length) in P.
    rewrite length_app, length_take in P. simpl in P. lia. }
  split_and!; [|done..|by rewrite length_take, Nat.min_l by done].
  rewrite <-(take_drop n bytes) at 1. rewrite E. f_equal.
  destruct (take (digits_end after) after) as [|c l] eqn:T; [by destruct after; [|destruct (digits_end (z :: after))]|].
  rewrite <-T. cbn [app]. by rewrite take_drop.
Qed.

Lemma suffix_two_nonneg suffix ten two : suffix_of suffix ten two → 0 ≤ two.
Proof.
  destruct 1 as [name ten two Hin| |]; [|lia..].
  unfold SUFFIXES in Hin. rewrite !elem_of_cons, elem_of_nil in Hin. naive_solver lia.
Qed.

Lemma suffix_ten_small suffix ten two : suffix_of suffix ten two → -1000 < ten < 1000.
Proof.
  assert (H : ∀ number, (length number ≤ 3)%nat → all_digits number → 0 ≤ digits_value number < 1000).
  { intros number Hl Hd. split; [by apply digits_value_nonneg|].
    destruct number as [|a [|b [|c [|]]]]; simpl in Hl; try lia; unfold digits_value; simpl;
      rewrite ?Forall_cons in Hd; destruct_and?; repeat match goal with H : is_digit _ = true |- _ => apply is_digit_bounds in H end; lia. }
  destruct 1 as [name ten two Hin|e sign number _ _ _ Hl Hd|e number _ _ Hl Hd].
  - unfold SUFFIXES in Hin. rewrite !elem_of_cons, elem_of_nil in Hin. naive_solver lia.
  - specialize (H number Hl Hd). lia.
  - specialize (H number Hl Hd). lia.
Qed.

Lemma pow10_pos n : 0 ≤ n → 0 < 10 ^ n.
Proof. intros. by apply Z.pow_pos_nonneg. Qed.

(** The scaled value, when the mantissa is not zero. *)
Definition scale_quantity (scaled power : Z) : option Z :=
  let* value :=
    if 0 <=? power then let* factor := checked_i128 (10 ^ power) in checked_i128 (scaled * factor)
    else
      let* divisor := checked_i128 (10 ^ (- power)) in
      if negb (scaled mod divisor =? 0) then None else Some (scaled / divisor) in
  if value <=? MAX_NANO then Some value else None.

Lemma scale_quantity_spec scaled power v :
  0 < scaled ≤ I128_MAX →
  scale_quantity scaled power = Some v ↔
  v ≤ MAX_NANO ∧ v * 10 ^ Z.max 0 (- power) = scaled * 10 ^ Z.max 0 power.
Proof.
  intros Hs. unfold scale_quantity, checked_i128. destruct (Z.leb_spec 0 power) as [Hp|Hp].
  - rewrite (Z.max_l 0 (- power)), (Z.max_r 0 power) by lia. pose proof (pow10_pos power Hp). rewrite Z.pow_0_r, Z.mul_1_r.
    split.
    + intros G. repeat (case_match; [|done]; cbn [mbind option_bind] in G).
      repeat match goal with H : (_ <=? _) = true |- _ => apply Z.leb_le in H end. injection G as <-. lia.
    + intros [Hv ->]. unfold MAX_NANO, NANO, I128_MAX in *.
      rewrite (proj2 (Z.leb_le (10 ^ power) _)) by nia. cbn [mbind option_bind].
      rewrite (proj2 (Z.leb_le (scaled * _) _)) by lia. cbn [mbind option_bind].
      by rewrite (proj2 (Z.leb_le _ _)) by lia.
  - rewrite (Z.max_r 0 (- power)), (Z.max_l 0 power) by lia. pose proof (pow10_pos (- power) ltac:(lia)).
    rewrite Z.pow_0_r, Z.mul_1_r. set (d := 10 ^ (- power)) in *. split.
    + intros G. case_match; [|done]. cbn [mbind option_bind] in G.
      destruct (Z.eqb_spec (scaled mod d) 0) as [Hm|]; [|done]. cbn [negb mbind option_bind] in G.
      case_match eqn:E; [|done]. apply Z.leb_le in E. injection G as <-. split; [done|].
      pose proof (Z.div_mod scaled d ltac:(lia)). nia.
    + intros [Hv <-]. assert (0 < v) by nia. rewrite (proj2 (Z.leb_le d _)) by nia. cbn [mbind option_bind].
      rewrite Z.mod_mul, Z.div_mul by lia. cbn [negb Z.eqb mbind option_bind]. by rewrite (proj2 (Z.leb_le _ _)).
Qed.

(** What [parse_quantity] does with the parts of the text. *)
Lemma parse_parts text digits fraction rest ten two :
  quantity_digits (bytes_of text) = Some (digits, fraction, rest) → suffix_of rest ten two →
  all_digits digits → (length digits ≤ 38)%nat → 0 ≤ fraction ≤ 38 →
  parse_quantity text =
    if digits_value digits =? 0 then Some 0
    else let* scaled := checked_i128 (digits_value digits * 2 ^ two) in scale_quantity scaled (9 - fraction + ten).
Proof.
  intros Hq Hs Hd Hl Hf. unfold parse_quantity. rewrite Hq. cbn [mbind option_bind].
  replace (Nat.ltb 38 (length digits)) with false by (symmetry; apply Nat.ltb_ge; lia).
  rewrite (proj2 (suffix_powers_spec _ _ _) Hs). cbn [mbind option_bind].
  rewrite mantissa_go_spec; [|done|lia|].
  2:{ rewrite Z.mul_1_l. apply Z.pow_le_mono_r; lia. }
  rewrite Z.mul_0_l, Z.add_0_l. cbn [mbind option_bind]. case_match; [done|].
  destruct (checked_i128 _); [|done]. cbn [mbind option_bind].
  pose proof (suffix_ten_small _ _ _ Hs). unfold checked_i32.
  rewrite (proj2 (Z.leb_le _ (9 - fraction))), (proj2 (Z.ltb_lt (9 - fraction) _)) by lia. cbn [andb mbind option_bind].
  rewrite (proj2 (Z.leb_le _ (9 - fraction + ten))), (proj2 (Z.ltb_lt (9 - fraction + ten) _)) by lia.
  cbn [andb mbind option_bind]. done.
Qed.

Lemma parse_quantity_shape text v :
  parse_quantity text = Some v →
  ∃ digits fraction rest ten two, quantity_digits (bytes_of text) = Some (digits, fraction, rest) ∧
    suffix_of rest ten two ∧ (length digits ≤ 38)%nat.
Proof.
  unfold parse_quantity. destruct (quantity_digits _) as [[[digits fraction] rest]|]; [|done]. cbn [mbind option_bind].
  destruct (Nat.ltb_spec 38 (length digits)); [done|]. destruct (suffix_powers rest) as [[ten two]|] eqn:E; [|done].
  intros _. exists digits, fraction, rest, ten, two. split_and!; [done|by apply suffix_powers_spec|lia].
Qed.

Lemma parse_quantity_spec (text : string) (v : Z) : parse_quantity text = Some v ↔ quantity_value text v.
Proof.
  unfold quantity_value. split.
  - intros H. destruct (parse_quantity_shape _ _ H) as (digits & fraction & rest & ten & two & Hq & Hs & Hl).
    destruct (quantity_digits_Some _ _ _ _ _ _ Hq Hs) as (whole & frac & Ht & Hw & Dw & Df & -> & ->).
    rewrite length_app in Hl. exists whole, frac, rest, ten, two. do 5 (split; [done|]).
    rewrite (parse_parts _ _ _ _ _ _ Hq Hs) in H; [|by apply Forall_app|rewrite length_app; lia|lia].
    pose proof (digits_value_nonneg (whole ++ frac) ltac:(by apply Forall_app)).
    pose proof (suffix_two_nonneg _ _ _ Hs). pose proof (Z.pow_pos_nonneg 2 two ltac:(lia) ltac:(lia)).
    destruct (Z.eqb_spec (digits_value (whole ++ frac)) 0) as [->|Hm].
    { injection H as <-. unfold I128_MAX, MAX_NANO, NANO. lia. }
    unfold checked_i128 in H. destruct (_ <=? I128_MAX) eqn:E in H; [|done]. apply Z.leb_le in E. cbn [mbind option_bind] in H.
    apply scale_quantity_spec in H as [Hv He]; [|nia]. split_and!; [lia|done| |done|done].
    pose proof (pow10_pos (Z.max 0 (- (9 - Z.of_nat (length frac) + ten))) ltac:(lia)).
    pose proof (pow10_pos (Z.max 0 (9 - Z.of_nat (length frac) + ten)) ltac:(lia)). nia.
  - intros (whole & frac & rest & ten & two & Ht & Hw & Dw & Df & Hs & Hl & Hm & Hv & He).
    assert (Hq := quantity_digits_app whole frac rest ten two Hw Dw Df Hs ltac:(lia)). rewrite <-Ht in Hq.
    rewrite (parse_parts _ _ _ _ _ _ Hq Hs); [|by apply Forall_app|rewrite length_app; lia|lia].
    pose proof (digits_value_nonneg (whole ++ frac) ltac:(by apply Forall_app)).
    pose proof (suffix_two_nonneg _ _ _ Hs). pose proof (Z.pow_pos_nonneg 2 two ltac:(lia) ltac:(lia)).
    destruct (Z.eqb_spec (digits_value (whole ++ frac)) 0) as [E|Hz].
    { rewrite E in He. pose proof (pow10_pos (Z.max 0 (- (9 - Z.of_nat (length frac) + ten))) ltac:(lia)). f_equal. nia. }
    unfold checked_i128. rewrite (proj2 (Z.leb_le _ _)) by done. cbn [mbind option_bind].
    apply scale_quantity_spec; [nia|]. split; [lia|done].
Qed.

(** [C23] A quantity's text is accepted exactly when it is decimal digits with an optional fraction, at most 38 of them,
    and one of the suffixes or an exponent of at most three digits, its value is a whole number of nano units from 0 to
    2^63 base units and its digits times the binary power fit in 128 bits; the result is that exact value, for every
    text: nothing is rounded, wraps around or is read as another number. *)
Theorem quantity_is_exact (text : string) (v : Z) : parse_quantity text = Some v ↔ quantity_value text v.
Proof. apply parse_quantity_spec. Qed.

(** ** The headroom *)

Lemma parse_map_go_nonneg out members qs :
  map_Forall (λ _ v, 0 ≤ v) out → parse_map_go out members = Ok qs → map_Forall (λ _ v, 0 ≤ v) qs.
Proof.
  revert out. induction members as [|[name value] members IH]; intros out Ho; simpl; [by intros [= <-]|].
  destruct (jstr_as_str name) as [n|]; [|done]. destruct (as_str value) as [text|]; [|done].
  destruct (parse_quantity text) as [v|] eqn:E; [|done]. apply IH, map_Forall_insert_2; [|done].
  apply parse_quantity_spec in E as (?&?&?&?&?&?&?&?&?&?&?). naive_solver.
Qed.

Lemma quantities_nonneg holder key qs k v : quantities holder key = Ok qs → qs !! k = Some v → 0 ≤ v.
Proof.
  unfold quantities. intros H Hk.
  assert (Hn : map_Forall (λ _ v, 0 ≤ v) qs); [|by apply (Hn k)].
  destruct (let* holder := holder in value_get holder key) as [map|]; [|injection H as <-; apply map_Forall_empty].
  destruct (as_object map); [|done]. eapply parse_map_go_nonneg; [apply map_Forall_empty|exact H].
Qed.

Lemma read_quota_nonneg item q k v :
  read_quota item = Ok q → (hard q !! k = Some v ∨ used q !! k = Some v) → 0 ≤ v.
Proof.
  unfold read_quota. intros (sh & _ & (h & Hh & (u & Hu & [= <-])%result_bind_Ok)%result_bind_Ok)%result_bind_Ok [Hk|Hk];
    simpl in Hk; eauto using quantities_nonneg.
Qed.

Lemma used_within_Ok q keys key limit :
  used_within q keys = Ok tt → key ∈ keys → hard q !! key = Some limit →
  ∃ amount, used q !! key = Some amount ∧ amount ≤ limit.
Proof.
  induction keys as [|k keys IH]; simpl; [by intros _ ?%elem_of_nil|]. intros H [<-|Hin]%elem_of_cons Hl.
  - rewrite Hl in H. destruct (used q !! key) as [amount|]; [|done].
    destruct (Z.leb_spec amount limit); [eauto|done].
  - apply IH; [|done..]. destruct (hard q !! k); [|done]. destruct (used q !! k); [|done]. by destruct (_ <=? _).
Qed.

Lemma check_used_Ok quotas q key limit :
  check_used quotas = Ok tt → q ∈ quotas → hard q !! key = Some limit →
  ∃ amount, used q !! key = Some amount ∧ amount ≤ limit.
Proof.
  unfold check_used. intros (r & H & _)%result_bind_Ok Hq Hl.
  destruct (result_mapM_l _ _ _ _ H Hq) as ([] & _ & Hw).
  apply (used_within_Ok _ _ _ _ Hw); [|done]. apply elem_of_str_keys. eauto.
Qed.

(** A unit's figure in nano units. *)
Definition nano_of (scale : Scale.t) : Z :=
  match scale with Scale.Count => NANO | Scale.Millis => NANO ÷ 1000 | Scale.Base => NANO end.

Lemma scaled_pair_Ok scale limit amount floor ceil :
  0 ≤ limit → 0 ≤ amount → scaled_pair scale limit amount = Ok (floor, ceil) →
  floor * nano_of scale ≤ limit < (floor + 1) * nano_of scale ∧
  (ceil - 1) * nano_of scale < amount ≤ ceil * nano_of scale.
Proof.
  intros Hl Ha. assert (Hq : ∀ value divisor, 0 ≤ value → 0 < divisor →
    floor_in value divisor * divisor ≤ value < (floor_in value divisor + 1) * divisor ∧
    (ceil_in value divisor - 1) * divisor < value ≤ ceil_in value divisor * divisor).
  { intros value divisor Hv Hd. unfold floor_in, ceil_in. rewrite !Z.quot_div_nonneg by lia.
    pose proof (Z.div_mod value divisor ltac:(lia)). pose proof (Z.mod_pos_bound value divisor Hd).
    pose proof (Z.div_mod (value + divisor - 1) divisor ltac:(lia)).
    pose proof (Z.mod_pos_bound (value + divisor - 1) divisor Hd). nia. }
  assert (Hn : ∀ s, 0 < nano_of s) by (by intros []).
  destruct scale; simpl.
  - destruct (Z.eqb_spec (limit mod NANO) 0) as [L|]; [|done]. destruct (Z.eqb_spec (amount mod NANO) 0) as [A|]; [|done].
    simpl. intros [= <- <-]. destruct (Hq limit NANO Hl ltac:(done)) as [? _].
    rewrite !Z.quot_div_nonneg by done. pose proof (Z.div_mod amount NANO ltac:(done)).
    unfold floor_in in *. rewrite Z.quot_div_nonneg in * by done. unfold NANO in *. lia.
  - intros [= <- <-]. destruct (Hq limit (NANO ÷ 1000) Hl ltac:(done)), (Hq amount (NANO ÷ 1000) Ha ltac:(done)). done.
  - intros [= <- <-]. destruct (Hq limit NANO Hl ltac:(done)), (Hq amount NANO Ha ltac:(done)). done.
Qed.

(** A covering key of a quota, with what it says of the unit. *)
Definition covers (scale : Scale.t) (q : Held) (key : string) (room floor ceil : Z) : Prop :=
  ∃ limit amount, hard q !! key = Some limit ∧ used q !! key = Some amount ∧
    scaled_pair scale limit amount = Ok (floor, ceil) ∧ room = Z.max (floor - ceil) 0.

(** The order of the candidates: the room, then the quota's name, then the key. *)
Lemma earlier_lex best room name key :
  earlier best room name key = true ↔
  best_room best < room ∨ best_room best = room ∧
    (bytes_cmp (bytes_of (best_name best)) (bytes_of name) = Lt ∨
     best_name best = name ∧ bytes_cmp (bytes_of (best_key best)) (bytes_of key) ≠ Gt).
Proof.
  unfold earlier, bytes_leb.
  assert (Hn : bytes_cmp (bytes_of (best_name best)) (bytes_of name) = Eq ↔ best_name best = name).
  { rewrite bytes_cmp_eq. split; [apply bytes_of_inj|by intros ->]. }
  destruct (Z.compare_spec (best_room best) room) as [Hr|Hr|Hr]; [|split; [by left|done]|split; [done|lia]].
  destruct (bytes_cmp (bytes_of (best_name best)) (bytes_of name)) eqn:E.
  - split; [|intros [?|(_ & [?|[_ ?]])]; [lia|done|by case_match]].
    intros H. right. split; [done|]. right. split; [by apply Hn|]. by intros G; rewrite G in H.
  - split; [|done]. intros _. right. auto.
  - split; [done|]. intros [?|(_ & [?|[Heq _]])]; [lia|done|]. by apply Hn in Heq.
Qed.

Lemma earlier_total best room name key floor ceil :
  earlier best room name key = false → earlier (mkBest room name key floor ceil) (best_room best) (best_name best) (best_key best) = true.
Proof.
  intros H. apply earlier_lex. simpl. unfold earlier, bytes_leb in H.
  destruct (Z.compare_spec (best_room best) room) as [->|?|?]; [|done|lia]. right. split; [done|].
  rewrite (bytes_cmp_antisym (bytes_of (best_name best))), (bytes_cmp_antisym (bytes_of (best_key best))).
  destruct (bytes_cmp (bytes_of (best_name best)) (bytes_of name)) eqn:E; [|done|by left].
  right. split; [by apply bytes_cmp_eq, bytes_of_inj in E|]. by destruct (bytes_cmp (bytes_of (best_key best)) _).
Qed.

Lemma earlier_trans b c room name key :
  earlier b (best_room c) (best_name c) (best_key c) = true → earlier c room name key = true →
  earlier b room name key = true.
Proof.
  rewrite !earlier_lex. intros [?|(E1 & H1)] [?|(E2 & H2)]; [left; lia|left; lia|left; lia|]. right. split; [lia|].
  destruct H1 as [H1|[E3 H1]], H2 as [H2|[E4 H2]]; rewrite ?E3, <-?E4; [left; by eapply bytes_cmp_trans|by left|by left|].
  right. split; [done|]. pose proof (bytes_leb_trans (bytes_of (best_key b)) (bytes_of (best_key c)) (bytes_of key)) as Ht.
  unfold bytes_leb in Ht. destruct (bytes_cmp (bytes_of (best_key b)) (bytes_of (best_key c))), (bytes_cmp (bytes_of (best_key c)) (bytes_of key)),
    (bytes_cmp (bytes_of (best_key b)) (bytes_of key)); naive_solver.
Qed.

Lemma earlier_refl b : earlier b (best_room b) (best_name b) (best_key b) = true.
Proof. apply earlier_lex. right. split; [done|]. right. by rewrite bytes_cmp_refl. Qed.

(** What the loop over the candidates keeps: the first of the covering ones in that order. *)
Definition least_of (scale : Scale.t) (seen : list (Held * string)) (best : option Best) : Prop :=
  (∀ q key limit amount, (q, key) ∈ seen → hard q !! key = Some limit → used q !! key = Some amount →
     ∃ b room floor ceil, best = Some b ∧ covers scale q key room floor ceil ∧ earlier b room (held_name q) key = true) ∧
  (∀ b, best = Some b → ∃ q, (q, best_key b) ∈ seen ∧ best_name b = held_name q ∧
     covers scale q (best_key b) (best_room b) (best_floor b) (best_ceil b)).

Lemma consider_least scale seen best candidate best' :
  least_of scale seen best → consider scale best candidate = Ok best' → least_of scale (seen ++ [candidate]) best'.
Proof.
  destruct candidate as [q key]. intros [H1 H2]. unfold consider.
  destruct (hard q !! key) as [limit|] eqn:Eh, (used q !! key) as [amount|] eqn:Eu.
  2-4: intros [= <-]; split; [intros q' k' l a [?|[= -> ->]%list_elem_of_singleton]%elem_of_app ? ?; [by eapply H1|congruence]|
                             intros b Hb; destruct (H2 b Hb) as (q' & ? & ?); exists q'; set_solver].
  intros ([floor ceil] & Hs & [= <-])%result_bind_Ok.
  set (room := Z.max (floor - ceil) 0).
  assert (Hc : covers scale q key room floor ceil) by (exists limit, amount; done).
  destruct best as [b|].
  - destruct (earlier b room (held_name q) key) eqn:Ee.
    + split.
      * intros q' k' l a [?|[= -> ->]%list_elem_of_singleton]%elem_of_app ? ?; [by eapply H1|]. by exists b, room, floor, ceil.
      * intros b' Hb. destruct (H2 b' Hb) as (q' & ? & ?). exists q'. set_solver.
    + pose proof (earlier_total _ _ _ _ floor ceil Ee) as Et. split.
      * intros q' k' l a [Hin|[= -> ->]%list_elem_of_singleton]%elem_of_app Hl Ha; [|do 4 eexists; split_and!; [done|exact Hc|apply (earlier_refl (mkBest _ _ _ _ _))]].
        destruct (H1 _ _ _ _ Hin Hl Ha) as (b0 & r & f & c & [= <-] & Hcov & Hr). do 4 eexists. split_and!; [done|exact Hcov|by eapply earlier_trans].
      * intros b' [= <-]. exists q. simpl. set_solver.
  - split.
    + intros q' k' l a [Hin|[= -> ->]%list_elem_of_singleton]%elem_of_app Hl Ha; [|do 4 eexists; split_and!; [done|exact Hc|apply (earlier_refl (mkBest _ _ _ _ _))]].
      by destruct (H1 _ _ _ _ Hin Hl Ha) as (b0 & ? & ? & ? & ? & _).
    + intros b' [= <-]. exists q. simpl. set_solver.
Qed.

Lemma best_of_least scale seen best cs best' :
  least_of scale seen best → best_of scale best cs = Ok best' → least_of scale (seen ++ cs) best'.
Proof.
  revert seen best. induction cs as [|c cs IH]; intros seen best Hl; simpl.
  - intros [= <-]. by rewrite app_nil_r.
  - intros (b & Hb & H)%result_bind_Ok. rewrite cons_middle, app_assoc. eapply IH; [|done]. by eapply consider_least.
Qed.

Lemma elem_of_candidates q key quotas keys : (q, key) ∈ candidates quotas keys ↔ q ∈ quotas ∧ key ∈ keys.
Proof.
  unfold candidates. rewrite list_elem_of_In, in_flat_map. setoid_rewrite in_map_iff.
  setoid_rewrite <-list_elem_of_In. naive_solver.
Qed.

Lemma figure_of_Ok value refusal figure :
  figure_of value refusal = Ok figure → figure = value ∧ 0 ≤ value ≤ MAX_FIGURE.
Proof.
  unfold figure_of, u64_try_from, MAX_FIGURE. case_match eqn:E; [|done]. apply andb_prop in E as [E%Z.leb_le _]. cbn.
  case_match eqn:F; [|done]. apply Z.leb_le in F. cbn. by intros [= <-].
Qed.

(** What a unit's figure [f] and pair [p] say of the quotas [quotas]: the recorded numbers fit, [f] more units fit under
    every covering key, exactly, and the pair is that of the first covering key, under which [f + 2] would not fit. *)
Definition bounds_unit (quotas : list Held) (scale : Scale.t) (keys : list string) (f : Z) (p : Pair) : Prop :=
  0 ≤ pair_used p ≤ pair_hard p ∧ pair_hard p ≤ MAX_FIGURE ∧ f = pair_hard p - pair_used p ∧
  (∀ q key limit amount, q ∈ quotas → key ∈ keys → hard q !! key = Some limit → used q !! key = Some amount →
     amount + f * nano_of scale ≤ limit) ∧
  ∃ q key limit amount, q ∈ quotas ∧ key ∈ keys ∧ hard q !! key = Some limit ∧ used q !! key = Some amount ∧
    pair_hard p * nano_of scale ≤ limit < (pair_hard p + 1) * nano_of scale ∧
    limit < amount + (f + 2) * nano_of scale ∧
    ∀ q' key' room floor ceil, q' ∈ quotas → key' ∈ keys → covers scale q' key' room floor ceil →
      earlier (mkBest f (held_name q) key floor ceil) room (held_name q') key' = true.

Section Unit.
Context (quotas : list Held).
Hypothesis quotas_nonneg : ∀ q k v, q ∈ quotas → (hard q !! k = Some v ∨ used q !! k = Some v) → 0 ≤ v.
Hypothesis quotas_within : ∀ q k limit, q ∈ quotas → hard q !! k = Some limit → ∃ amount, used q !! k = Some amount ∧ amount ≤ limit.

Lemma covers_bounds scale q key room floor ceil :
  q ∈ quotas → covers scale q key room floor ceil →
  ∃ limit amount, hard q !! key = Some limit ∧ used q !! key = Some amount ∧ amount ≤ limit ∧ room = Z.max (floor - ceil) 0 ∧
    floor * nano_of scale ≤ limit < (floor + 1) * nano_of scale ∧ (ceil - 1) * nano_of scale < amount ≤ ceil * nano_of scale.
Proof.
  intros Hq (limit & amount & Hl & Ha & Hs & ->). exists limit, amount.
  destruct (quotas_within _ _ _ Hq Hl) as (amount' & Ha' & ?). rewrite Ha in Ha'. injection Ha' as <-.
  split_and!; [done|done|done|done|..]; apply scaled_pair_Ok in Hs; eauto; lia.
Qed.

Lemma unit_figure_bounds unit scale keys f p :
  unit_figure quotas (unit, scale, keys) = Ok (f, p) → bounds_unit quotas scale keys f p.
Proof.
  unfold unit_figure. intros (best & Hbest & H)%result_bind_Ok. destruct best as [best|]; [|done].
  apply result_bind_Ok in H as (f' & [-> Hf]%figure_of_Ok & H).
  apply result_bind_Ok in H as (h & [-> Hh]%figure_of_Ok & H).
  apply result_bind_Ok in H as (u & [-> Hu]%figure_of_Ok & [= <- <-]).
  assert (Hl : least_of scale [] None) by (split; [by intros ???? ?%elem_of_nil|done]).
  pose proof (best_of_least _ _ _ _ _ Hl Hbest) as [H1 H2]. cbn [app] in H1, H2. clear Hl Hbest.
  destruct (H2 _ eq_refl) as (q & [Hq Hk]%elem_of_candidates & En & Hc).
  destruct (covers_bounds _ _ _ _ _ _ Hq Hc) as (limit & amount & El & Ea & Hle & Er & Hfl & Hce).
  assert (Hd : 0 < nano_of scale) by by destruct scale.
  unfold bounds_unit. cbn [pair_hard pair_used]. split; [lia|]. split; [lia|]. split; [lia|]. split.
  - intros q' key' limit' amount' Hq' Hk' Hl' Ha'.
    destruct (H1 q' key' limit' amount') as (b & room & floor & ceil & [= <-] & Hc' & He); [by apply elem_of_candidates|done..|].
    destruct (covers_bounds _ _ _ _ _ _ Hq' Hc') as (l & a & El' & Ea' & Hle' & Er' & Hfl' & Hce'). simplify_eq.
    assert (best_room best ≤ Z.max (floor - ceil) 0) by (apply earlier_lex in He; lia).
    destruct (Z.le_gt_cases ceil floor); [|nia].
    assert (best_room best * nano_of scale ≤ (floor - ceil) * nano_of scale) by (apply Z.mul_le_mono_nonneg_r; lia). lia.
  - exists q, (best_key best), limit, amount. split_and!; [done..|lia|lia| |].
    + assert ((best_floor best - best_ceil best) * nano_of scale ≤ best_room best * nano_of scale)
        by (apply Z.mul_le_mono_nonneg_r; lia). lia.
    + intros q' key' room floor ceil Hq' Hk' Hc'. destruct (covers_bounds _ _ _ _ _ _ Hq' Hc') as (l & a & El' & Ea' & _).
      destruct (H1 q' key' l a) as (b & room' & floor' & ceil' & [= <-] & Hc2 & He); [by apply elem_of_candidates|done..|].
      assert (room' = room) as ->; [|unfold earlier in *; by rewrite <-En].
      destruct Hc' as (?&?&?&?&Hs&->), Hc2 as (?&?&?&?&Hs'&->). simplify_eq. rewrite Hs in Hs'. by simplify_eq.
Qed.
End Unit.

(** The six figures and pairs, in the order of [UNITS]. *)
Definition figures_of (found : QuotaFound) : list (Z * Pair) :=
  let h := quota_headroom found in
  let p := quota_pairs found in
  [(pods h, pods_pair p); (config_maps h, config_maps_pair p); (services h, services_pair p);
   (cpu_millis h, cpu_millis_pair p); (memory_bytes h, memory_bytes_pair p);
   (ephemeral_storage_bytes h, ephemeral_storage_bytes_pair p)].

(** [C22] The recorded headroom never promises what a quota refuses.  When the quotas of a namespace are read at all, every
    one of them was settled (its status limits are its specified ones), every used amount is within its limit, and for
    each of the six units the figure is the pair's difference, both recorded numbers are at most 2^53 - 1, that many more
    units still fit under every key of every quota that bounds the unit, compared exactly, and the pair is that of the
    first such key by room, quota and key name, under which two units more would not fit. *)
Theorem headroom_is_safe items namespace found :
  quota items namespace = Ok found →
  ∃ quotas, Forall2 (λ item q, read_quota item = Ok q) (List.filter (in_namespace namespace) items) quotas ∧
    Forall (λ q, spec_hard q = hard q ∧
      ∀ key limit, hard q !! key = Some limit → ∃ amount, used q !! key = Some amount ∧ 0 ≤ amount ≤ limit) quotas ∧
    Forall2 (λ row figure, bounds_unit quotas row.1.2 row.2 figure.1 figure.2) UNITS (figures_of found).
Proof.
  unfold quota. intros (quotas & Hr & H)%result_bind_Ok. destruct (existsb _ _) eqn:Es; [done|].
  apply result_bind_Ok in H as ([] & Hu & H). apply result_bind_Ok in H as (figures & Hf & H).
  assert (Hn : ∀ q k v, q ∈ quotas → (hard q !! k = Some v ∨ used q !! k = Some v) → 0 ≤ v).
  { intros q k v Hq. destruct (result_mapM_r _ _ _ _ Hr Hq) as (item & _ & ?). by eapply read_quota_nonneg. }
  assert (Hw : ∀ q k limit, q ∈ quotas → hard q !! k = Some limit → ∃ amount, used q !! k = Some amount ∧ amount ≤ limit).
  { intros q k limit Hq Hl. by eapply check_used_Ok. }
  exists quotas. split; [by apply result_mapM_Ok|]. split.
  - apply Forall_forall. intros q Hq. split.
    + apply not_true_iff_false in Es. destruct (decide (spec_hard q = hard q)) as [|Hne]; [done|]. exfalso. apply Es.
      apply existsb_exists. exists q. split; [by apply list_elem_of_In|]. by rewrite bool_decide_eq_false_2.
    + intros key limit Hl. destruct (Hw _ _ _ Hq Hl) as (amount & Ha & ?). exists amount. split; [done|]. split; [|done]. by eapply Hn; eauto.
  - apply result_mapM_Ok in Hf. assert (figures = figures_of found) as <-.
    { repeat (case_match; simplify_eq; try done). }
    eapply Forall2_impl; [exact Hf|]. intros [[unit scale] keys] [f p]. apply unit_figure_bounds; done.
Qed.

(** ** The lists *)

(** An item of a list and its key. *)
Definition keyed (resource : Resource.t) (item : Value) (key : option string * string) : Prop :=
  ∃ meta name, value_get item "metadata" = Some (VObject meta) ∧
    object_get meta (jstr "name") = Some name ∧ as_str name = Some key.2 ∧ key.2 ≠ "" ∧
    if Resource_namespaced resource
    then ∃ value space, key.1 = Some space ∧ object_get meta (jstr "namespace") = Some value ∧ as_str value = Some space ∧ space ≠ ""
    else key.1 = None ∧ object_get meta (jstr "namespace") = None.

(** A complete answer: the list kind of the request, no continuation, items with one key each. *)
Definition complete (resource : Resource.t) (value : Value) : Prop :=
  (∃ o, value = VObject o) ∧
  (∃ kind, value_get value "kind" = Some kind ∧ as_str kind = Some (Resource_list_kind resource).1) ∧
  (∃ version, value_get value "apiVersion" = Some version ∧ as_str version = Some (Resource_list_kind resource).2) ∧
  (∀ meta, value_get value "metadata" = Some meta → ∃ members, meta = VObject members ∧
     (∀ token, object_get members (jstr "continue") = Some token → as_str token = Some "") ∧
     object_get members (jstr "remainingItemCount") = None) ∧
  ∃ items keys, value_get value "items" = Some (VArray items) ∧ Forall2 (keyed resource) items keys ∧ NoDup keys.

Definition served (resource : Resource.t) (body : ListBody.t) : Prop :=
  match body with
  | ListBody.NotServed => resource ∈ [Resource.MutatingAdmissionPolicies; Resource.MutatingAdmissionPolicyBindings]
  | ListBody.Served value => complete resource value
  end.

Lemma non_empty_Some t s : non_empty t = Some s ↔ t = Some s ∧ s ≠ "".
Proof. unfold non_empty. destruct t as [t|]; cbn; [case_bool_decide|]; naive_solver. Qed.

Lemma contains_key_get o key : object_contains_key o key = false ↔ object_get o key = None.
Proof.
  unfold object_contains_key, object_get. induction o as [|[k v] o IH]; cbn; [done|]. by case_bool_decide.
Qed.

Lemma value_get_object o key : value_get (VObject o) key = object_get o (jstr key).
Proof. done. Qed.

Lemma item_key_Ok resource index item key : item_key resource index item = Ok key ↔ keyed resource item key.
Proof.
  unfold item_key, keyed, object_name. destruct key as [space name]. cbn [fst snd].
  destruct (value_get item "metadata") as [meta|]; cbn [mbind option_bind]; [|naive_solver].
  destruct (as_object meta) as [members|] eqn:Em; [|destruct meta; naive_solver].
  assert (meta = VObject members) as -> by (destruct meta; naive_solver). rewrite !value_get_object. unfold text.
  destruct (object_get members (jstr "name")) as [n|] eqn:Eo; cbn [mbind option_bind].
  2: { split; [done|]. intros (?&?&[= <-]&H&_). congruence. }
  destruct (non_empty (as_str n)) as [s|] eqn:En.
  2: { split; [done|]. intros (?&?&[= <-]&Hn&Hs&Hne&_). rewrite Eo in Hn. injection Hn as <-. rewrite (proj2 (non_empty_Some _ _) (conj Hs Hne)) in En. done. }
  apply non_empty_Some in En as [Es Hs].
  destruct (Resource_namespaced resource), (object_get members (jstr "namespace")) as [v|] eqn:Ev.
  - destruct (non_empty (as_str v)) as [sp|] eqn:En.
    + apply non_empty_Some in En as [? ?]. split.
      * intros [= <- <-]. exists members, n. split_and!; [done..|]. by exists v, sp.
      * intros (?&?&[= <-]&Hn&Hs'&_&w&sp'&->&Hw&Hsp&_). simplify_eq. done.
    + split; [done|]. intros (?&?&[= <-]&_&_&_&w&sp&->&Hw&Hsp&Hne). rewrite Ev in Hw. injection Hw as <-.
      by rewrite (proj2 (non_empty_Some _ _) (conj Hsp Hne)) in En.
  - split; [done|]. intros (?&?&[= <-]&_&_&_&w&sp&_&Hw&_). congruence.
  - split; [done|]. intros (?&?&[= <-]&_&_&_&_&Hw). congruence.
  - split.
    + intros [= <- <-]. by exists members, n.
    + intros (?&?&[= <-]&Hn&Hs'&_&->&_). by simplify_eq.
Qed.

Lemma check_items_Ok resource index seen items :
  check_items resource index seen items = Ok tt ↔
  ∃ keys, Forall2 (keyed resource) items keys ∧ NoDup keys ∧ (∀ key, key ∈ keys → key ∉ seen).
Proof.
  revert index seen. induction items as [|item items IH]; intros index seen; simpl.
  - split; [|done]. intros _. exists []. split_and!; [done|apply NoDup_nil_2|by intros ? ?%elem_of_nil].
  - rewrite result_bind_Ok. setoid_rewrite item_key_Ok. split.
    + intros (key & Hk & H). case_bool_decide as Hin; [done|]. apply IH in H as (keys & Hks & Hn & Hs).
      exists (key :: keys). split_and!; [by constructor| |].
      * apply NoDup_cons_2; [|done]. intros Hkk. apply (Hs _ Hkk). by left.
      * intros k [->|Hkk]%elem_of_cons; [done|]. intros ?. apply (Hs _ Hkk). by right.
    + intros (? & (key & keys & Hk & Hks & ->)%Forall2_cons_inv_l & [Hnk Hn]%NoDup_cons & Hs). exists key. split; [done|].
      rewrite bool_decide_eq_false_2 by (apply Hs; by left). apply IH. exists keys. split_and!; [done..|].
      intros k Hkk [->|?]%elem_of_cons; [done|]. eapply Hs; [by right|done].
Qed.

Lemma check_metadata_Ok resource value :
  check_metadata resource value = Ok tt ↔
  ∀ meta, value_get value "metadata" = Some meta → ∃ members, meta = VObject members ∧
    (∀ token, object_get members (jstr "continue") = Some token → as_str token = Some "") ∧
    object_get members (jstr "remainingItemCount") = None.
Proof.
  unfold check_metadata, text. destruct (value_get value "metadata") as [meta|]; [|by split].
  destruct (as_object meta) as [members|] eqn:Em.
  2: { split; [done|]. intros H. destruct (H _ eq_refl) as (? & -> & _). done. }
  assert (meta = VObject members) as -> by (destruct meta; naive_solver).
  destruct (object_get members (jstr "continue")) as [token|] eqn:Et.
  1: destruct (decide (as_str token = Some "")) as [Ht|Ht];
       [rewrite bool_decide_eq_true_2 by done|rewrite bool_decide_eq_false_2 by done]; cbn [negb].
  2: { split; [done|]. intros H. destruct (H _ eq_refl) as (? & [= <-] & Ha & _). by specialize (Ha _ Et). }
  all: destruct (object_contains_key members (jstr "remainingItemCount")) eqn:Er.
  1,3: split; [done|]; intros H; destruct (H _ eq_refl) as (? & [= <-] & _ & Hn%contains_key_get); congruence.
  all: apply contains_key_get in Er; split; [|done]; intros _ ? [= <-]; exists members; naive_solver.
Qed.

Lemma check_list_Ok resource value : check_list resource value = Ok tt ↔ complete resource value.
Proof.
  unfold check_list, complete, text. destruct (as_object value) as [o|] eqn:Eo.
  2: { split; [done|]. intros [[o ->] _]. done. }
  assert (value = VObject o) as Hv by (destruct value; naive_solver).
  destruct (Resource_list_kind resource) as [kind version]. cbn [fst snd].
  destruct (_ || _) eqn:Ek.
  { split; [done|]. intros (_ & (k & Hk & Hks) & (v & Hvv & Hvs) & _). rewrite Hk, Hvv in Ek. cbn [mbind option_bind] in Ek.
    by rewrite Hks, Hvs, !bool_decide_eq_true_2 in Ek by done. }
  apply orb_false_elim in Ek as [K1%negb_false_iff%bool_decide_eq_true K2%negb_false_iff%bool_decide_eq_true].
  rewrite result_bind_Ok. split.
  - intros ([] & Hm & H). pose proof (proj1 (check_metadata_Ok _ _) Hm) as Hmeta. split; [by exists o|].
    split; [destruct (value_get value "kind") as [k|]; [by exists k|done]|].
    split; [destruct (value_get value "apiVersion") as [k|]; [by exists k|done]|]. split; [done|].
    destruct (value_get value "items") as [items|]; cbn in H; [|done]. destruct (as_array items) as [l|] eqn:El; [|done].
    apply check_items_Ok in H as (keys & ? & ? & _). exists l, keys. destruct items; naive_solver.
  - intros (_ & _ & _ & Hm & items & keys & Hi & Hk & Hn). exists tt. split; [exact (proj2 (check_metadata_Ok _ _) Hm)|].
    rewrite Hi. cbn. apply check_items_Ok. exists keys. split_and!; [done..|by intros ? _ ?%elem_of_nil].
Qed.

Lemma check_body_Ok resource body : check_body resource body = Ok tt ↔ served resource body.
Proof.
  destruct body as [value|]; simpl; [apply check_list_Ok|].
  rewrite !elem_of_cons, elem_of_nil. destruct resource; cbn; split; intros; try done; naive_solver.
Qed.

Lemma of_spec_Some spec resource : Resource_of_spec spec = Some resource ↔ spec = Resource_spec resource.
Proof.
  split.
  - unfold Resource_of_spec. intros [_ ?%bool_decide_eq_true]%find_some. done.
  - intros ->. destruct resource; vm_compute; reflexivity.
Qed.

Lemma new_loop_Ok pairs inputs out :
  new_loop pairs inputs = Ok out ↔
  ∃ new, out = pairs ++ new ∧
    Forall2 (λ input pair, spec input = Resource_spec pair.1 ∧ body input = pair.2 ∧ served pair.1 pair.2) inputs new ∧
    NoDup new.*1 ∧ ∀ r, r ∈ new.*1 → r ∉ pairs.*1.
Proof.
  revert pairs. induction inputs as [|input inputs IH]; intros pairs; simpl.
  - split; [intros [= <-]; exists []; rewrite app_nil_r; split_and!; [done|done|apply NoDup_nil_2|by intros ? ?%elem_of_nil]|].
    intros (new & -> & ->%Forall2_nil_inv_l & _). by rewrite app_nil_r.
  - destruct (Resource_of_spec (spec input)) as [r|] eqn:Er.
    2: { split; [done|]. intros (? & _ & ((r & b) & new & (Hs & _) & _)%Forall2_cons_inv_l & _).
         apply of_spec_Some in Hs. congruence. }
    case_bool_decide as Hin.
    { split; [done|]. intros (? & _ & ((r' & b) & new & (Hs & _) & _ & ->)%Forall2_cons_inv_l & _ & Hd).
      apply of_spec_Some in Hs. rewrite Er in Hs. injection Hs as <-. exfalso. by apply (Hd r); [left|]. }
    rewrite result_bind_Ok. setoid_rewrite IH. apply of_spec_Some in Er as Es. split.
    + intros ([] & Hb%check_body_Ok & new & -> & Hf & Hn & Hd). exists ((r, body input) :: new). rewrite <-app_assoc.
      rewrite fmap_app in Hd. split_and!; [done|by constructor| |]; cbn.
      * apply NoDup_cons_2; [|done]. intros Hr. apply (Hd _ Hr). set_solver.
      * intros r' [->|Hr]%elem_of_cons; [done|]. intros ?. apply (Hd _ Hr). set_solver.
    + intros (? & -> & ((r' & b) & new & (Hs & Hbody & Hb) & Hf & ->)%Forall2_cons_inv_l & [Hnr Hn]%NoDup_cons & Hd).
      cbn in Hs, Hbody, Hb, Hd. subst b. apply of_spec_Some in Hs. rewrite Er in Hs. injection Hs as <-. exists tt. split; [by apply check_body_Ok|].
      exists new. rewrite <-app_assoc. split_and!; [done..|]. intros r' Hr. rewrite fmap_app, not_elem_of_app. split; [apply Hd; by right|].
      cbn. by intros ->%list_elem_of_singleton.
Qed.

(** The observer's inputs are accepted exactly when every stated request is one of the closed set, no two answer the
    same one, only the two kinds a cluster may lack are attested as not served, and every served answer is a complete
    list of its request: its list kind and version, no continuation or remaining count, and every item with a name, a
    namespace exactly when the kind has one, and a key no other item has.  The checked pairs are the inputs, in order. *)
Theorem inputs_are_complete inputs pairs :
  Inputs_new inputs = Ok pairs ↔
  Forall2 (λ input pair, spec input = Resource_spec pair.1 ∧ body input = pair.2 ∧ served pair.1 pair.2) inputs pairs ∧
  NoDup pairs.*1.
Proof.
  unfold Inputs_new. rewrite new_loop_Ok. cbn. split; [naive_solver|].
  intros [? ?]. exists pairs. split_and!; [done..|by intros ? _ ?%elem_of_nil].
Qed.

(** ** A namespace with two quotas *)

Definition sample_object (members : list (string * Value)) : Value := VObject (map (λ m, (jstr m.1, m.2)) members).
Definition sample_quota (name : string) (hard used : list (string * string)) : Value :=
  let quantities members := sample_object (map (λ m : string * string, (m.1, value_str m.2)) members) in
  sample_object [("metadata", sample_object [("name", value_str name); ("namespace", value_str "mas")]);
                 ("spec", sample_object [("hard", quantities hard)]);
                 ("status", sample_object [("hard", quantities hard); ("used", quantities used)])].
Definition sample_quotas : list Value :=
  [sample_quota "objects"
     [("pods", "8"); ("configmaps", "16"); ("services", "4"); ("requests.cpu", "2500m")]
     [("pods", "3"); ("configmaps", "2"); ("services", "0"); ("requests.cpu", "1.2")];
   sample_quota "memory"
     [("memory", "1Gi"); ("requests.ephemeral-storage", "1e9"); ("cpu", "2")]
     [("memory", "128Mi"); ("requests.ephemeral-storage", "0.5k"); ("cpu", "1000000001n")]].
Definition sample_found : QuotaFound :=
  mkQuota (mkHeadroom 5 14 4 999 939524096 999999500)
    (mkPairs (mkPair 8 3) (mkPair 16 2) (mkPair 4 0) (mkPair 2000 1001) (mkPair 1073741824 134217728)
       (mkPair 1000000000 500)).

(** The CPU is bounded by both quotas, and the one with less room is recorded, its used amount rounded up. *)
Example sample_headroom : quota sample_quotas "mas" = Ok sample_found.
Proof. vm_compute. reflexivity. Qed.
Lemma headroom_is_safe_witness :
  quota sample_quotas "mas" = Ok sample_found ∧
  ∃ quotas, Forall2 (λ item q, read_quota item = Ok q) (List.filter (in_namespace "mas") sample_quotas) quotas ∧
    Forall (λ q, spec_hard q = hard q ∧
      ∀ key limit, hard q !! key = Some limit → ∃ amount, used q !! key = Some amount ∧ 0 ≤ amount ≤ limit) quotas ∧
    Forall2 (λ row figure, bounds_unit quotas row.1.2 row.2 figure.1 figure.2) UNITS (figures_of sample_found).
Proof.
  assert (H : quota sample_quotas "mas" = Ok sample_found) by (vm_compute; reflexivity).
  split; [exact H|]. exact (headroom_is_safe sample_quotas "mas" sample_found H).
Defined.

(** Quantities at the edges: rounding is refused, not performed, and so are the values that do not fit. *)
Example quantity_edges :
  map parse_quantity ["1n"; "0.1n"; "1500m"; "9223372036854775808"; "9223372036854775809"; "8Ei"; "1e3"; "1E-9"; "1E-10"; ".5";
                      "5."; "+5"; "0e999"; "1e1000"]
  = [Some 1; None; Some 1500000000; Some MAX_NANO; None; Some MAX_NANO; Some 1000000000000; Some 1; None; None; None; None;
     Some 0; None].
Proof. vm_compute. reflexivity. Qed.
